(* ===== verification/_CoqProject ===== *)
-Q . S2P
Prelude.v
QLib.v
DList.v
Locks.v
Page.v
PageAlloc.v
BuddySpec.v
PageAllocCorrect.v
PageAllocInit.v
PageAllocProps.v
Memory.v
CString.v
LfQueue.v
Time.v
BlockAlloc.v
Vm.v
Slab.v
SlabCorrect.v
Vga.v
Keyboard.v
Terminal.v
FdHash.v
Sched.v
SchedCorrect.v
BlockStore.v
Writeback.v
WritebackCorrect.v
Ext2.v
Ext2Correct.v
Ext2Dir.v
Ext2DirCorrect.v
Ext2Directory.v
Ext2Inode.v
Ext2InodeCorrect.v
Ext2InodeAlloc.v
Ext2Tree.v
Ext2TreeCorrect.v
Vfs.v
VfsCorrect.v
VfsFiles.v
VfsRead.v
VfsDemo.v
UserHeap.v
KPage.v
Uvm.v
UvmCorrect.v
UvmDemo.v
Fork.v
ForkCorrect.v
ForkDemo.v
Ports.v
BootInfo.v
Acpi.v
Segments.v
IntCtl.v
Pci.v
Boot.v
UserLib.v
Shell.v
Loader.v
LoaderDemo.v
Syscall.v
Nic.v
Ide.v
