(* ===== verification/Prelude.v ===== *)
(** * quarkOS: a shallow embedding of the kernel in Rocq

    quarkOS is a 32-bit x86 kernel in C.  This library translates its own logic -
    memory management, scheduling, the page cache and ext2, the drivers, the console,
    the system calls and the shell - into Rocq functions and proves what they compute.  Files are named relative to
    src/kernel unless they start with userspace/.

    ** How C is translated

    A C routine is a function in the state-and-error monad [M S A] below: it takes
    the state [S] of its component and either returns a value and a new state
    ([Ok]) or ends in one of four ways ([err]): a failed assertion or a call of
    [error] ([Assert], the kernel panics), an access through NULL or outside its
    object ([Fault]), a wait for a lock that the waiting context itself holds
    ([Spin]), or loop fuel that ran out ([Fuel]).  Every routine is executable.  A
    w-bit integer is a [Z] and arithmetic is followed by [u8], [u16], [u32] or [u64]
    where it can wrap.  Structures are records; arrays and memory are finite maps or
    lists, with an access out of range a [Fault].  Pointers are indexes or addresses.

    [wp m Q s] is total correctness: [m] run in [s] returns, and [Q] holds of result
    and state.  A theorem with [wp] therefore excludes panics, faults, deadlocks and
    endless loops.  Loops with a bound known in the source are structural recursions;
    the others take fuel, which each file justifies where it is chosen (the number of
    mapped bytes for [strlen], the number of list nodes for a list walk, twelve rounds
    for the orders of the buddy allocator, the length of the queue for a flush), and
    the theorems show that it is enough.

    ** The parts and the files

    - Foundations.  This file: machine integers, outcomes, the monad, [wp] and its
      rules, the tactics [wp_step] and [wp_go], the predicate [preserves] with the tactic
      and the hint database [pres] for routines that leave a part of the state alone,
      the hint databases [width] and [widthr].  [QLib]: include/lib/qlib.h, lib/qlib.c, include/mm/mm.h.  [Memory]:
      byte memory and little endian accesses.
    - Lists, queues, locks.  [DList]: include/lib/list.h, the intrusive list every
      component uses, with the representation predicate [dl] and a refinement of
      sequences.  [LfQueue]: lib/queue.c.  [Locks]: include/lib/spinlock.h, rwlock.h,
      ticklock.h, the spin lock and the read-write lock once as sequential operations and
      once as a step relation over threads and single memory accesses, the ticket lock as
      such a relation with the order of its two accesses left open.
    - Physical memory.  [Page]: include/mm/page.h.  [PageAlloc]: mm/page_alloc.c.
      [BuddySpec] is the abstract block map, [PageAllocCorrect] the refinement of it,
      [PageAllocInit] the start from raw memory, [PageAllocProps] the promises to
      clients.  [BlockAlloc]: mm/block_alloc.c, the allocator used before paging.
    - Virtual memory and small objects.  [Vm]: mm/vm.c on top of [PageAlloc].
      [Slab]: mm/slab.c and mm/kmalloc.c on top of [Vm]; [SlabCorrect] its proofs,
      [KPage] those of whole pages.
    - User memory.  [UserHeap]: userspace/malloc.c.  [Uvm]: mm/uvm.c on top of [Slab],
      with the translation of the processor and the page fault handler; [UvmCorrect]
      its proofs, [UvmDemo] small address spaces on which the theorems are applied.
    - Strings and time.  [CString]: lib/qstring.c on [Memory].  [Time]: lib/time.c and
      the register decoding of drivers/cmos.c.
    - Console.  [Vga]: drivers/vga.c.  [Keyboard]: drivers/keyboard.c, drivers/ps2.c,
      include/drivers/keyboard.h and the input half of terminal.c.  [Terminal]: the
      output half of terminal.c on [CString], [Vga] and [Keyboard].  [UserLib]: printf and
      the strings of userspace/lib.c over the two console calls.  [Shell]: userspace/sh.c.
    - Tasks.  [Sched]: task/schedule.c, task/timer.c, task/thread_mutex.c and the pid,
      sleep, wake-up and exit parts of task/fork.c; [SchedCorrect] its proofs.
      [Fork]: the creation and the end of tasks in task/fork.c, on the scheduler,
      [kmalloc], the address spaces and the open files together, with the class
      [TaskFiles] for the latter; [ForkCorrect] its proofs, [ForkDemo] a small kernel.
    - The machine.  [Ports]: port accesses, drivers/pic.c and drivers/pit.c.
      [BootInfo]: multiboot2.c and the search for function names in lib/qlib.c.
      [Acpi]: drivers/acpi.c and drivers/mp.c.  [Segments]: x86/gdt.c and x86/isr.c.
      [IntCtl]: drivers/lapic.c, drivers/ioapic.c and the registration of interrupt
      handlers, with the class [IoApicLaws] for the device.  [Pci]: drivers/pci.c.
      [Boot]: the entry, the temporary page tables and the start of the other processors
      in kernel.c, with [reload] of mm/block_alloc.c and [pmm_init_mm] of
      mm/page_alloc.c, which run on those tables.  [Nic]: drivers/nic.c against the class
      [NicCard] of a card with descriptor rings.  [Ide]: drivers/ide.c at the ports of
      the controller, against the class [AtaDrive] of what a drive does with commands and
      data.
    - Programs.  [Loader]: loader.c, on the address spaces and the tasks, with the class
      [ExecFiles] for the file operations; [LoaderDemo] runs it on a small file.
      [Syscall]: syscall/syscall.c, the calls as the program sees them and as they reach
      the terminal, the tasks and the loader.
    - Files.  [FdHash]: fs/hash.c.  [BlockStore] is the interface between the page
      cache and the file system, a type class of operations with their laws on the
      bytes a store holds.  [Writeback]: fs/writeback.c and the transfer half of
      drivers/ide.c; [WritebackCorrect] proves the laws of the cache (an instance of
      the class) and what a flush puts on the disk.  [Ext2]: include/fs/ext2.h,
      fs/ext2/super.c, fs/ext2/block.c, written against the class; [Ext2Correct]
      proves its theorems for every instance.  [Ext2Dir]: the directory entries on
      disk of fs/ext2/dir.c; [Ext2DirCorrect] the operations on one block as
      operations on a list of names, [Ext2Directory] those on a whole directory,
      with the allocation of its blocks by [Ext2].  [Ext2Inode]: the inode table and
      bitmap of fs/ext2/inode.c, reading and writing of file contents in
      fs/ext2/ext2.c; [Ext2InodeCorrect] its proofs, [Ext2InodeAlloc] those of the
      allocation of an inode.  [Ext2Tree]: the cached directory and inode objects of
      fs/ext2/dir.c and fs/ext2/ext2.c with the operations on files and the names of
      fs/vfs.c; [Ext2TreeCorrect] its proofs.  [Vfs]: fs/vfs.c, written against the
      class [FsOps], which is [struct fs_ops], with the instance that fs/ext2/ext2.c
      fills in; [VfsCorrect] proves what paths mean, [VfsFiles] the opening and closing
      of files, [VfsRead] reading, writing and positions, and [VfsDemo] applies these
      theorems on a small volume.

    ** What is proved

    - Memory: for every history of requests, the blocks handed out by the page
      allocator are aligned, inside the area and disjoint, an allocation succeeds
      exactly when there is room, and a release undoes it; mapping a block makes its
      addresses translate and unmapping undoes it; slab chunks are handed out once and
      counted; the boot allocator is first fit.
    - Lists, queue, locks: refinement of sequences and of a FIFO by every legal
      sequence of operations; mutual exclusion of the read-write lock in every
      interleaving; the ticket lock can pass over a waiter any number of times.
    - Tasks: in every history of legal yields, sleeps, wake-ups and exits every call
      returns and every task is in exactly one place that fits its state; [schedule] takes
      the first task of the highest queue, and what it leaves in every list and every
      control block is given exactly, whether the caller goes on running, sleeps or has
      exited and whether or not the priorities are reset; raising the priorities loses
      nothing.
    - Files: descriptors are bound and released exactly; a flush terminates and makes
      exactly the dirty pages durable; a block is allocated from the bitmap without
      touching anything else, and after [alloc_block] the inode's tree leads to it; the
      search, creation and removal of a directory entry are those operations on the
      list of names the directory holds, and leave all other blocks alone; an inode
      that was written back, and data written to a file, are read back unchanged.
    - Names and open files: a lookup answers the cached object of a name or the first
      entry on the disk, if the directory object has its super block (the object of a new
      directory may not have it); making a file takes a free inode and enters the name; a
      path is the lookup of its names in order; opening a path and closing the descriptor
      restores the tables; reading returns the bytes of the file from its position on.
    - User programs: [malloc] is first fit and [free] joins blocks; mapping an area makes
      the processor translate its addresses, [sbrk] moves the break by a page.
    - Creation and end of tasks: [kthread_create] makes a task whose saved registers lead
      to its worker, in a fresh page and with a fresh pid; the cleaner frees the kernel
      threads that have ended, and nothing else, and goes to sleep.
    - The machine: the boot tags and the firmware tables are read as their formats say;
      the descriptor table of the kernel has the four flat segments and the task state
      segment; a handler that is registered gets its gate and its interrupt line; the
      search on the bus finds the first device of a class.
    - Console and strings: the screen shows the last 25 lines of the text written, the
      decoder queues exactly the characters typed, [printfk] and the program's [printf]
      show the expansion of their format, [utoa] and [hex] write the numeral.  The shell
      is followed from the keys to the screen: each round shows the prompt, the line and
      the answer, for lines of at most 254 characters.  The arrays that the print routines
      write numbers into have the sizes of the source.
    - System calls and programs: the console calls of a program are the routines of the
      terminal, a number behind the table is refused, and the calls without a body change
      nothing; [exec] checks the header before it touches the program that runs.
    - Devices: a block read through the ports of the controller is what the drive holds,
      for every drive of the class; a block written is the block on the drive if the drive
      waits for data when the driver sends them, and an example of a drive that is still
      busy then loses it.  The network driver takes the packets out of the ring in the order
      in which the card put them there, while the card goes on delivering before every
      access to a register or a field of a descriptor.
    - The first steps: the temporary tables map exactly the first four megabytes twice;
      the tables of names are moved without loss if they lie in the order of their linear
      addresses, and are lost in another order; the other processors are started one at
      a time.
    - Errors: theorems that state where the code does not do what it means to (a
      wake-up that panics, locks that are left held, a free bit searched in an eighth
      of the bitmap, inodes addressed outside their page, a write that cuts a file off
      or hits the super block, a removed name that is still found, a position that
      wraps) are theorems about the code as it is; each corresponds to an entry of the
      list of findings.

    ** Not modelled

    drivers/dma.c is not built and cannot be: one of its includes is malformed and it uses
    flags and fields that are declared nowhere.  lib/qmath.c is floating point code
    without callers; net/eth.c is empty.  [kernel_main] calls the initialisation of the
    components in order; the components are modelled one by one, each with its own part of
    the state, and so is what the first processor does before and after.  [page_recycle]
    (fs/writeback.c) has no callers.  The routines that only print ([ext2_ls], [vfs_ls],
    [stack_trace]) are left out.  The characters a program passes to the console calls are
    in a byte memory of the program of their own, which is not tied to the words of the
    page tables in [Uvm].  Registers of the processor appear where code reads them back;
    otherwise loading one changes nothing.  Debugging fields and the self
    tests under TEST are left out everywhere.  Concurrency is modelled where the code
    depends on it: the locks as interleaved threads, interrupts that arrive while a
    task waits (keyboard input, the end of a disk transfer), and the switches between
    tasks as explicit steps; other routines run without interruption on one CPU. *)

From Stdlib Require Import ZArith Lia.
From stdpp Require Import base gmap list numbers option.
Open Scope Z_scope.

(** ** Machine integers: a w-bit unsigned value is a [Z] in [0, 2^w). *)

Definition u8 (z : Z) : Z := z mod 2 ^ 8.
Definition u16 (z : Z) : Z := z mod 2 ^ 16.
Definition u32 (z : Z) : Z := z mod 2 ^ 32.
Definition u64 (z : Z) : Z := z mod 2 ^ 64.

(** The value of a w-bit pattern read as a two's complement number. *)
Definition sint (w z : Z) : Z :=
  let m := z mod 2 ^ w in if m <? 2 ^ (w - 1) then m else m - 2 ^ w.
Definition s8 : Z → Z := sint 8.
Definition s32 : Z → Z := sint 32.
Definition s64 : Z → Z := sint 64.

(** C truth values. *)
Definition truth (z : Z) : bool := negb (z =? 0).

(** ** Outcomes

    A kernel routine either returns, or does one of the things that end it: *)
Inductive err :=
  | Assert   (* [assertk] failed or [error] was called: the kernel panics *)
  | Fault    (* dereference of NULL or access outside the object *)
  | Spin     (* waits on a lock its own context holds: never returns *)
  | Fuel.    (* the fuel of a loop of the model ran out *)

Inductive res (A : Type) : Type :=
  | Ok (a : A)
  | Err (e : err).
Arguments Ok {A} a.
Arguments Err {A} e.

#[export] Instance err_eq_dec : EqDecision err.
Proof. solve_decision. Defined.

(** ** The state-and-error monad of the models *)

Definition M (S A : Type) : Type := S → res (A * S).

#[export] Instance M_ret {S} : MRet (M S) := λ A a s, Ok (a, s).
#[export] Instance M_bind {S} : MBind (M S) := λ A B f m s,
  match m s with Ok (a, s') => f a s' | Err e => Err e end.

Definition fail {S A} (e : err) : M S A := λ _, Err e.
Definition get {S} : M S S := λ s, Ok (s, s).
Definition gets {S A} (f : S → A) : M S A := λ s, Ok (f s, s).
Definition modify {S} (f : S → S) : M S unit := λ s, Ok (tt, f s).
Definition assertk {S} (b : bool) : M S unit :=
  λ s, if b then Ok (tt, s) else Err Assert.
Definition deref {S A} (o : option A) : M S A :=
  λ s, match o with Some a => Ok (a, s) | None => Err Fault end.
Definition when {S} (b : bool) (m : M S unit) : M S unit :=
  if b then m else mret tt.

(** Runs a routine of a part of the state. *)
Definition zoom {S T A} (rd : S → T) (wr : T → S → S) (m : M T A) : M S A :=
  λ s, match m (rd s) with Ok (a, t) => Ok (a, wr t s) | Err e => Err e end.

(** A loop: [body] answers [inl a'] to go on with [a'], [inr b] to leave
    with [b]. *)
Fixpoint loop {S A B} (n : nat) (body : A → M S (A + B)) (a : A) : M S B :=
  match n with
  | O => fail Fuel
  | Datatypes.S n' =>
      r ← body a;
      match r with inl a' => loop n' body a' | inr b => mret b end
  end.

(** [for (i = lo; i < lo + n; ++i) body i] *)
Fixpoint for_up {S} (n : nat) (lo : Z) (body : Z → M S unit) : M S unit :=
  match n with
  | O => mret tt
  | Datatypes.S n' => body lo;; for_up n' (lo + 1) body
  end.

(** ** Total correctness *)

Definition wp {S A} (m : M S A) (Q : A → S → Prop) (s : S) : Prop :=
  match m s with Ok (a, s') => Q a s' | Err _ => False end.

Section wp_rules.
Context {S : Type}.
Implicit Types s : S.

Lemma bind_Ok {A B} (m : M S A) (f : A → M S B) s a s' :
  m s = Ok (a, s') → (m ≫= f) s = f a s'.
Proof. unfold mbind, M_bind. by intros ->. Qed.

Lemma bind_Err {A B} (m : M S A) (f : A → M S B) s e :
  m s = Err e → (m ≫= f) s = Err e.
Proof. unfold mbind, M_bind. by intros ->. Qed.

Lemma wp_elim {A} (m : M S A) Q s :
  wp m Q s → ∃ a s', m s = Ok (a, s') ∧ Q a s'.
Proof. unfold wp. destruct (m s) as [[a s']|]; eauto; done. Qed.

(** Running to an error behind a part that returns. *)
Lemma bind_wp_Err {A B} (m : M S A) (f : A → M S B) e s :
  wp m (λ a s', f a s' = Err e) s → (m ≫= f) s = Err e.
Proof. intros H. destruct (wp_elim _ _ _ H) as (a & s' & E & Hk). by rewrite (bind_Ok _ _ _ _ _ E). Qed.

Lemma wp_intro {A} (m : M S A) (Q : A → S → Prop) s a s' :
  m s = Ok (a, s') → Q a s' → wp m Q s.
Proof. unfold wp. by intros ->. Qed.

Lemma wp_mono {A} (m : M S A) (Q R : A → S → Prop) s :
  wp m Q s → (∀ a s', Q a s' → R a s') → wp m R s.
Proof. unfold wp. destruct (m s) as [[a s']|]; auto. Qed.

Lemma wp_ret {A} (a : A) Q s : wp (mret a) Q s ↔ Q a s.
Proof. done. Qed.

Lemma wp_bind {A B} (m : M S A) (f : A → M S B) Q s :
  wp (m ≫= f) Q s ↔ wp m (λ a s', wp (f a) Q s') s.
Proof. unfold wp, mbind, M_bind. destruct (m s) as [[a s']|]; done. Qed.

Lemma wp_get Q s : wp get Q s ↔ Q s s.
Proof. done. Qed.

Lemma wp_gets {A} (f : S → A) Q s : wp (gets f) Q s ↔ Q (f s) s.
Proof. done. Qed.

Lemma wp_modify f Q s : wp (modify f) Q s ↔ Q tt (f s).
Proof. done. Qed.

Lemma wp_assertk b Q s : wp (assertk b) Q s ↔ b = true ∧ Q tt s.
Proof. unfold wp, assertk. destruct b; intuition congruence. Qed.

Lemma wp_deref {A} (o : option A) Q s :
  wp (deref o) Q s ↔ ∃ a, o = Some a ∧ Q a s.
Proof. unfold wp, deref. destruct o; split; try (intros (?&[=]&?)); subst; eauto; done. Qed.

Lemma wp_when b (m : M S unit) Q s :
  wp (when b m) Q s ↔ (if b then wp m Q s else Q tt s).
Proof. by destruct b. Qed.

Lemma wp_zoom {T A} (rd : S → T) wr (m : M T A) Q s :
  wp (zoom rd wr m) Q s ↔ wp m (λ a t, Q a (wr t s)) (rd s).
Proof. unfold wp, zoom. destruct (m (rd s)) as [[a t]|]; done. Qed.

Lemma wp_loop {A B} (I : A → S → Prop) (meas : A → S → nat)
    (body : A → M S (A + B)) Q n a s :
  (∀ a s, I a s →
     wp (body a) (λ r s', match r with
                          | inl a' => I a' s' ∧ (meas a' s' < meas a s)%nat
                          | inr b => Q b s' end) s) →
  I a s → (meas a s < n)%nat → wp (loop n body a) Q s.
Proof.
  intros Hb. revert a s. induction n as [|n IH]; intros a s HI Hn; [lia|].
  simpl. apply wp_bind. eapply wp_mono; [by apply Hb|].
  intros [a'|b] s' Hr; [|by apply wp_ret].
  destruct Hr. apply IH; [done|lia].
Qed.

Lemma wp_for_up (I : Z → S → Prop) body n lo Q s :
  I lo s →
  (∀ i s, lo ≤ i < lo + Z.of_nat n → I i s → wp (body i) (λ _ s', I (i + 1) s') s) →
  (∀ s, I (lo + Z.of_nat n) s → Q tt s) →
  wp (for_up n lo body) Q s.
Proof.
  revert lo s. induction n as [|n IH]; intros lo s HI Hb HQ; simpl.
  - apply wp_ret, HQ. by rewrite Z.add_0_r.
  - apply wp_bind. eapply wp_mono; [apply (Hb lo); [lia|done]|].
    intros [] s' HI'. apply IH; [done| |].
    + intros. apply Hb; [lia|done].
    + intros s'' H''. apply HQ. by replace (lo + Z.of_nat (Datatypes.S n))
        with (lo + 1 + Z.of_nat n) by lia.
Qed.
End wp_rules.

(** Symbolic execution of a [wp] goal up to the next branch or call. *)
Ltac wp_step :=
  lazymatch goal with
  | |- wp (mret _) _ _ => apply wp_ret
  | |- wp (_ ≫= _) _ _ => apply wp_bind
  | |- wp get _ _ => apply wp_get
  | |- wp (gets _) _ _ => apply wp_gets
  | |- wp (modify _) _ _ => apply wp_modify
  | |- wp (assertk _) _ _ => apply wp_assertk; split
  | |- wp (deref _) _ _ => apply wp_deref; eexists; split
  | |- wp (when _ _) _ _ => apply wp_when
  | |- wp (zoom _ _ _) _ _ => apply wp_zoom
  end.
Ltac wp_go := repeat (wp_step; cbv beta).

(** ** Routines that leave a part of the state alone *)

Definition preserves {S X A} (f : S → X) (m : M S A) : Prop := ∀ s a s', m s = Ok (a, s') → f s' = f s.

Section preserves.
Context {S X : Type} (f : S → X).
Lemma pres_bind {A B} (m : M S A) (g : A → M S B) : preserves f m → (∀ a, preserves f (g a)) → preserves f (m ≫= g).
Proof.
  intros Hm Hg s b s'. unfold mbind, M_bind. destruct (m s) as [[a s1]|] eqn:E; [|done]. intros E2. by rewrite (Hg _ _ _ _ E2), (Hm _ _ _ E).
Qed.
Lemma pres_mret {A} (a : A) : preserves f (mret a).
Proof. by intros s b s' [= _ <-]. Qed.
Lemma pres_get : preserves f get.
Proof. by intros s b s' [= _ <-]. Qed.
Lemma pres_fail {A} e : preserves f (fail e : M S A).
Proof. done. Qed.
Lemma pres_modify g : (∀ s, f (g s) = f s) → preserves f (modify g).
Proof. intros H s b s' [= _ <-]. apply H. Qed.
Lemma pres_deref {A} (o : option A) : preserves f (deref o).
Proof. intros s b s'. unfold deref. by destruct o; [intros [= _ <-]|]. Qed.
Lemma pres_assertk b : preserves f (assertk b).
Proof. destruct b; intros s c s'; [by intros [= _ <-]|done]. Qed.
Lemma pres_when b m : preserves f m → preserves f (when b m).
Proof. intros H. destruct b; [done|apply pres_mret]. Qed.
Lemma pres_zoom {T A} (rd : S → T) wr (m : M T A) : (∀ t s, f (wr t s) = f s) → preserves f (zoom rd wr m).
Proof. intros H s a s'. unfold zoom. destruct (m (rd s)) as [[b t]|]; [|done]. intros [= _ <-]. apply H. Qed.
Lemma pres_for_up n (body : Z → M S unit) : (∀ i, preserves f (body i)) → ∀ i, preserves f (for_up n i body).
Proof. intros H. induction n as [|n IH]; intros i; cbn [for_up]; [apply pres_mret|]. apply pres_bind; [apply H|]. intros _. apply IH. Qed.
Lemma wp_pres {A} (m : M S A) (Q : A → S → Prop) s : wp m Q s → preserves f m → wp m (λ a s', Q a s' ∧ f s' = f s) s.
Proof. intros Hw Hl. apply wp_elim in Hw as (a & s' & E & HQ). eapply wp_intro; [exact E|]. split; [done|by eapply Hl]. Qed.
End preserves.
Create HintDb pres.
#[export] Hint Resolve pres_mret pres_get pres_fail pres_deref pres_assertk : pres.

Ltac pres_step :=
  match goal with
  | |- preserves _ (_ ≫= _) => apply pres_bind; [|intros ?]
  | |- preserves _ (modify _) => by apply pres_modify
  | |- preserves _ (zoom _ _ _) => by apply pres_zoom
  | |- preserves _ (when _ _) => apply pres_when
  | |- preserves _ (if ?b then _ else _) => destruct b
  | |- preserves _ (match ?b with _ => _ end) => destruct b
  | |- preserves _ (let _ := _ in _) => cbv zeta
  | |- _ => solve [auto with pres]
  end.
Ltac pres := repeat pres_step.

(** ** Shared lemmas on machine integers *)

Lemma u8_small z : 0 ≤ z < 2 ^ 8 → u8 z = z.
Proof. apply Z.mod_small. Qed.
Lemma u16_small z : 0 ≤ z < 2 ^ 16 → u16 z = z.
Proof. apply Z.mod_small. Qed.
Lemma u32_small z : 0 ≤ z < 2 ^ 32 → u32 z = z.
Proof. apply Z.mod_small. Qed.
Lemma u64_small z : 0 ≤ z < 2 ^ 64 → u64 z = z.
Proof. apply Z.mod_small. Qed.
Lemma u8_range z : 0 ≤ u8 z < 2 ^ 8.
Proof. by apply Z.mod_pos_bound. Qed.
Lemma u16_range z : 0 ≤ u16 z < 2 ^ 16.
Proof. by apply Z.mod_pos_bound. Qed.
Lemma u32_range z : 0 ≤ u32 z < 2 ^ 32.
Proof. by apply Z.mod_pos_bound. Qed.
Lemma u64_range z : 0 ≤ u64 z < 2 ^ 64.
Proof. by apply Z.mod_pos_bound. Qed.

Create HintDb width.
Create Rewrite HintDb widthr.
#[export] Hint Rewrite u8_small u16_small u32_small u64_small using lia : widthr.
#[export] Hint Resolve u8_range u16_range u32_range u64_range : width.

Lemma truth_true z : truth z = true ↔ z ≠ 0.
Proof. unfold truth. destruct (Z.eqb_spec z 0); simpl; intuition congruence. Qed.
Lemma truth_false z : truth z = false ↔ z = 0.
Proof. unfold truth. destruct (Z.eqb_spec z 0); simpl; intuition congruence. Qed.

(** ** Powers of two, the only sizes the allocators use *)

Lemma pow2_pos n : 0 ≤ n → 0 < 2 ^ n.
Proof. intros. by apply Z.pow_pos_nonneg. Qed.

Lemma pow2_succ n : 0 ≤ n → 2 ^ (n + 1) = 2 * 2 ^ n.
Proof. intros. rewrite Z.pow_add_r by lia. lia. Qed.

Lemma pow2_divide a b : 0 ≤ a ≤ b → (2 ^ a | 2 ^ b).
Proof.
  intros. exists (2 ^ (b - a)). rewrite <- Z.pow_add_r by lia. f_equal. lia.
Qed.

Lemma testbit_pow2_sub1 n i : 0 ≤ n → 0 ≤ i →
  Z.testbit (2 ^ n - 1) i = bool_decide (i < n).
Proof.
  intros. rewrite Z.sub_1_r, <- Z.ones_equiv.
  case_bool_decide; [apply Z.ones_spec_low|apply Z.ones_spec_high]; lia.
Qed.

(** A field below an aligned value. *)
Lemma lor_low q k f : 0 ≤ k → 0 ≤ f < 2 ^ k → Z.lor (q * 2 ^ k) f = q * 2 ^ k + f.
Proof.
  intros Hk Hf. rewrite <-Z.add_lor_land. replace (Z.land (q * 2 ^ k) f) with 0; [lia|].
  symmetry. apply Z.bits_inj'. intros n Hn. rewrite Z.land_spec, Z.bits_0.
  destruct (Z.lt_ge_cases n k).
  - by rewrite Z.mul_pow2_bits_low by lia.
  - rewrite <-(Z.mod_small f (2 ^ k)) by lia. by rewrite Z.mod_pow2_bits_high, andb_false_r by lia.
Qed.
