(* ===== verification/QLib.v ===== *)
(** * Integer helpers (include/lib/qlib.h, lib/qlib.c, include/mm/mm.h)

    The macros and inline functions on machine integers that the allocators,
    the page tables and the file system are written with. *)

From S2P Require Import Prelude.
From Stdlib Require Import ZArith Lia.
From stdpp Require Import base list numbers.
Open Scope Z_scope.

(** ** qlib.h *)

(** [BIT_MASK(type, n)] for a type of [w] bits. *)
Definition BIT_MASK (w n : Z) : Z :=
  if w =? n then 2 ^ w - 1 else (Z.shiftl 1 n mod 2 ^ w - 1) mod 2 ^ w.
Definition MASK_U64 : Z → Z := BIT_MASK 64.
Definition MASK_U32 : Z → Z := BIT_MASK 32.
Definition MASK_U16 : Z → Z := BIT_MASK 16.
Definition MASK_U8 : Z → Z := BIT_MASK 8.

Definition MIN (a b : Z) : Z := if b <? a then b else a.
Definition MAX (a b : Z) : Z := if a <? b then b else a.

Definition DIV_CEIL (x y : Z) : Z := u32 (u32 (x + y) - 1) / y.

Definition IS_POWER_OF_2 (x : Z) : bool := negb (truth (Z.land x (u32 (x - 1)))).

Definition fixSize (size : Z) : Z :=
  if IS_POWER_OF_2 size then size
  else
    let size := Z.lor size (Z.shiftr size 1) in
    let size := Z.lor size (Z.shiftr size 2) in
    let size := Z.lor size (Z.shiftr size 4) in
    let size := Z.lor size (Z.shiftr size 8) in
    let size := Z.lor size (Z.shiftr size 16) in
    u32 (size + 1).

(** [set_bit]/[clear_bit] on the byte [*value]. *)
Definition set_bit (value bit : Z) : Z := u8 (Z.lor value (Z.shiftl 1 bit)).
Definition clear_bit (value bit : Z) : Z :=
  u8 (Z.land value (Z.lnot (Z.shiftl 1 bit))).

(** [CLEAR_BIT]/[SET_BIT] on an lvalue of [w] bits. *)
Definition CLEAR_BIT (w value bit : Z) : Z :=
  Z.land value (Z.lnot (Z.shiftl 1 bit) mod 2 ^ w).
Definition SET_BIT (w value bit : Z) : Z :=
  Z.lor value (Z.shiftl 1 bit mod 2 ^ w).

(** ** [u8_t log2(uint16_t val)]: the loop halves [val] until it is 1. *)
Fixpoint log2_loop (fuel : nat) (val cnt : Z) : option Z :=
  match fuel with
  | O => None
  | S f => if val =? 1 then Some cnt
           else log2_loop f (Z.shiftr val 1) (u8 (cnt + 1))
  end.

(** A [uint16_t] is 1 after at most 15 halvings, or it is 0 for ever. *)
Definition log2 (val : Z) : option Z := log2_loop 17 (u16 val) 0.

(** ** mm.h *)

Definition PAGE_SIZE : Z := 4096.
Definition PAGE_MASK : Z := PAGE_SIZE - 1.
Definition PAGE_CEIL (addr : Z) : Z := Z.land addr (u32 (Z.lnot (MASK_U32 12))).
Definition PDE_INDEX (addr : Z) : Z := Z.shiftr addr 22.
Definition PTE_INDEX (addr : Z) : Z := Z.land (Z.shiftr addr 12) (MASK_U32 10).
Definition MEM_ALIGN (s align : Z) : Z :=
  Z.land (u32 (s + align - 1)) (u32 (Z.lnot (align - 1))).
Definition PAGE_FLOOR (s : Z) : Z :=
  Z.land (u32 (s + PAGE_MASK)) (u32 (Z.lnot PAGE_MASK)).

(** ** Lemmas *)

(** Clearing the low [k] bits of a 32-bit value. *)
Lemma land_lnot_low w k z :
  0 ≤ k ≤ w → 0 ≤ z < 2 ^ w →
  Z.land z (Z.lnot (2 ^ k - 1) mod 2 ^ w) = 2 ^ k * (z / 2 ^ k).
Proof.
  intros Hk Hz. rewrite (Z.mul_comm (2 ^ k)), <-Z.shiftl_mul_pow2, <-Z.shiftr_div_pow2 by lia.
  apply Z.bits_inj'. intros i Hi. rewrite Z.land_spec.
  destruct (decide (i < w)).
  - rewrite Z.mod_pow2_bits_low, Z.lnot_spec, testbit_pow2_sub1 by lia.
    destruct (decide (i < k)).
    + rewrite bool_decide_true, Z.shiftl_spec_low by lia. by rewrite andb_false_r.
    + rewrite bool_decide_false, Z.shiftl_spec_high, Z.shiftr_spec by lia.
      replace (i - k + k) with i by lia. by rewrite andb_true_r.
  - rewrite Z.mod_pow2_bits_high, andb_false_r by lia.
    rewrite Z.shiftl_spec_high, Z.shiftr_spec by lia.
    replace (i - k + k) with i by lia. symmetry.
    destruct (decide (z = 0)) as [->|]; [apply Z.bits_0|].
    apply Z.bits_above_log2; [lia|].
    apply Z.log2_lt_pow2; [lia|]. apply Z.lt_le_trans with (2 ^ w); [lia|].
    apply Z.pow_le_mono_r; lia.
Qed.

Lemma PAGE_CEIL_eq a : 0 ≤ a < 2 ^ 32 → PAGE_CEIL a = 4096 * (a / 4096).
Proof. intros. exact (land_lnot_low 32 12 a ltac:(lia) ltac:(lia)). Qed.

Lemma PAGE_FLOOR_eq s :
  0 ≤ s → s + 4095 < 2 ^ 32 → PAGE_FLOOR s = 4096 * ((s + 4095) / 4096).
Proof.
  intros. unfold PAGE_FLOOR, PAGE_MASK, PAGE_SIZE. rewrite (u32_small (s + _)) by lia.
  apply (land_lnot_low 32 12); lia.
Qed.

Lemma MEM_ALIGN_eq s k :
  0 ≤ k ≤ 32 → 0 ≤ s → s + 2 ^ k - 1 < 2 ^ 32 →
  MEM_ALIGN s (2 ^ k) = 2 ^ k * ((s + 2 ^ k - 1) / 2 ^ k).
Proof.
  intros. pose proof (pow2_pos k). unfold MEM_ALIGN. rewrite u32_small by lia.
  apply (land_lnot_low 32 k); lia.
Qed.

(** [MEM_ALIGN] rounds up to the next multiple of the alignment. *)
Lemma MEM_ALIGN_spec s k :
  0 ≤ k ≤ 32 → 0 ≤ s → s + 2 ^ k - 1 < 2 ^ 32 →
  (2 ^ k | MEM_ALIGN s (2 ^ k)) ∧ s ≤ MEM_ALIGN s (2 ^ k) < s + 2 ^ k.
Proof.
  intros. pose proof (pow2_pos k). rewrite MEM_ALIGN_eq by lia.
  split; [apply Z.divide_factor_l|].
  pose proof (Z.div_mod (s + 2 ^ k - 1) (2 ^ k) ltac:(lia)).
  pose proof (Z.mod_pos_bound (s + 2 ^ k - 1) (2 ^ k) ltac:(lia)). lia.
Qed.

(** One smearing step: [y] has the bits of [x] from a window of [k] positions,
    [y | y >> k] those of a window of [2 k]. *)
Definition smeared (x y k : Z) : Prop :=
  0 ≤ y ∧ ∀ i, 0 ≤ i →
    Z.testbit y i = true ↔ ∃ j, i ≤ j < i + k ∧ Z.testbit x j = true.

Lemma smeared_step x y k :
  0 < k → smeared x y k → smeared x (Z.lor y (Z.shiftr y k)) (2 * k).
Proof.
  intros Hk [Hy Hs]. split.
  { apply Z.lor_nonneg. split; [done|]. by apply Z.shiftr_nonneg. }
  intros i Hi. rewrite Z.lor_spec, Z.shiftr_spec, orb_true_iff by lia.
  rewrite (Hs i), (Hs (i + k)) by lia. split.
  - intros [(j&?&?)|(j&?&?)]; exists j; split; auto; lia.
  - intros (j&?&?). destruct (decide (j < i + k));
      [left|right]; exists j; split; auto; lia.
Qed.

Lemma smeared_one x : 0 ≤ x → smeared x x 1.
Proof.
  intros. split; [done|]. intros i Hi. split.
  - intros. exists i. split; [lia|done].
  - intros (j&?&?). by replace i with j by lia.
Qed.

Lemma smeared_full x y :
  0 < x < 2 ^ 32 → smeared x y 32 → y = 2 ^ (Z.log2 x + 1) - 1.
Proof.
  intros Hx [Hy Hs]. pose proof (Z.log2_nonneg x).
  assert (Z.log2 x < 32) by (apply Z.log2_lt_pow2; lia).
  apply Z.bits_inj'. intros i Hi. rewrite testbit_pow2_sub1 by lia.
  apply eq_bool_prop_intro. rewrite !Is_true_true, bool_decide_eq_true, Hs by lia.
  split.
  - intros (j & ? & Hj). destruct (decide (j ≤ Z.log2 x)); [lia|].
    rewrite Z.bits_above_log2 in Hj by lia. done.
  - intros. exists (Z.log2 x). split; [lia|]. apply Z.bit_log2. lia.
Qed.

Lemma power2_land x :
  0 < x → Z.land x (x - 1) = 0 → x = 2 ^ Z.log2 x.
Proof.
  intros Hx Hl. pose proof (Z.log2_nonneg x). pose proof (Z.log2_spec x Hx) as [H1 H2].
  destruct (decide (x = 2 ^ Z.log2 x)); [done|exfalso].
  assert (Z.testbit x (Z.log2 x) = true) by (by apply Z.bit_log2).
  assert (Z.testbit (x - 1) (Z.log2 x) = true) as Hb.
  { replace (Z.log2 x) with (Z.log2 (x - 1)).
    - apply Z.bit_log2. lia.
    - apply Z.log2_unique; [lia|]. rewrite <-Z.add_1_r in *. lia. }
  assert (Z.testbit (Z.land x (x - 1)) (Z.log2 x) = true) as Hc
    by (rewrite Z.land_spec; by rewrite Hb, andb_true_r).
  rewrite Hl in Hc. by rewrite Z.bits_0 in Hc.
Qed.

Lemma IS_POWER_OF_2_pow k : 0 ≤ k < 32 → IS_POWER_OF_2 (2 ^ k) = true.
Proof.
  intros. pose proof (pow2_pos k).
  assert (2 ^ k < 2 ^ 32) by (apply Z.pow_lt_mono_r; lia).
  unfold IS_POWER_OF_2. rewrite u32_small by lia.
  assert (Z.land (2 ^ k) (2 ^ k - 1) = 0) as ->; [|done].
  apply Z.bits_inj'. intros i Hi. rewrite Z.land_spec, testbit_pow2_sub1, Z.bits_0 by lia.
  case_bool_decide; [|by rewrite andb_false_r].
  rewrite Z.pow2_bits_false by lia. done.
Qed.

(** [fixSize] at a power of two, and elsewhere. *)
Lemma fixSize_pow2 k : 0 ≤ k < 32 → fixSize (2 ^ k) = 2 ^ k.
Proof. intros. unfold fixSize. by rewrite IS_POWER_OF_2_pow. Qed.

Lemma fixSize_up x :
  0 < x < 2 ^ 32 → x ≠ 2 ^ Z.log2 x → fixSize x = u32 (2 ^ (Z.log2 x + 1)).
Proof.
  intros Hx Hn. unfold fixSize.
  destruct (IS_POWER_OF_2 x) eqn:Hp.
  - exfalso. apply Hn. apply power2_land; [lia|]. unfold IS_POWER_OF_2 in Hp.
    apply negb_true_iff, truth_false in Hp. by rewrite u32_small in Hp by lia.
  - cbv zeta. f_equal.
    match goal with |- ?y + 1 = _ => assert (Hs : smeared x y 32) end.
    { apply (smeared_step x _ 16); [lia|]. apply (smeared_step x _ 8); [lia|].
      apply (smeared_step x _ 4); [lia|]. apply (smeared_step x _ 2); [lia|].
      apply (smeared_step x _ 1); [lia|]. apply smeared_one. lia. }
    rewrite (smeared_full x _ Hx Hs). lia.
Qed.

Lemma log2_loop_spec fuel v c :
  0 < v → Z.log2 v < Z.of_nat fuel → 0 ≤ c → c + Z.log2 v < 2 ^ 8 →
  log2_loop fuel v c = Some (c + Z.log2 v).
Proof.
  revert v c. induction fuel as [|f IH]; intros v c Hv Hf Hc Hb.
  { pose proof (Z.log2_nonneg v). lia. }
  simpl. destruct (Z.eqb_spec v 1) as [->|Hv1].
  { simpl. f_equal. lia. }
  assert (Z.log2 (Z.shiftr v 1) = Z.log2 v - 1) as HL.
  { rewrite Z.log2_shiftr by lia. assert (1 ≤ Z.log2 v); [|lia].
    change 1 with (Z.log2 2). apply Z.log2_le_mono. lia. }
  assert (0 < Z.shiftr v 1).
  { rewrite Z.shiftr_div_pow2 by lia. apply Z.div_str_pos. lia. }
  pose proof (Z.log2_nonneg (Z.shiftr v 1)).
  rewrite u8_small by lia. rewrite IH by lia. f_equal. lia.
Qed.

(** [log2] of a non-zero [uint16_t] returns its binary logarithm. *)
Lemma log2_correct v : 0 < v < 2 ^ 16 → log2 v = Some (Z.log2 v).
Proof.
  intros. unfold log2. rewrite u16_small by lia.
  assert (Z.log2 v < 16) by (apply Z.log2_lt_pow2; lia).
  by rewrite log2_loop_spec by lia.
Qed.

Lemma log2_pow k : 0 ≤ k < 16 → log2 (2 ^ k) = Some k.
Proof.
  intros. rewrite log2_correct.
  - by rewrite Z.log2_pow2 by lia.
  - split; [apply pow2_pos; lia|]. apply Z.pow_lt_mono_r; lia.
Qed.

(** ** Properties *)

(** [fixSize] returns the smallest power of two that is at least its
    argument, for every argument up to 2^31; above it the result wraps to 0. *)
Theorem fixSize_least_power x :
  0 < x < 2 ^ 32 →
  (x ≤ 2 ^ 31 → ∃ k, 0 ≤ k ≤ 31 ∧ fixSize x = 2 ^ k ∧ x ≤ 2 ^ k ∧
                     ∀ j, 0 ≤ j → x ≤ 2 ^ j → 2 ^ k ≤ 2 ^ j) ∧
  (2 ^ 31 < x → fixSize x = 0).
Proof.
  intros Hx. pose proof (Z.log2_spec x ltac:(lia)) as [H1 H2].
  pose proof (Z.log2_nonneg x).
  assert (HL : Z.log2 x < 32) by (apply Z.log2_lt_pow2; lia).
  destruct (decide (x = 2 ^ Z.log2 x)) as [He|Hn].
  - split.
    + intros _. exists (Z.log2 x).
      assert (fixSize x = 2 ^ Z.log2 x) as -> by (rewrite He at 1; apply fixSize_pow2; lia).
      split_and!; lia.
    + intros Hb. assert (Z.log2 x ≤ 31) by lia.
      assert (2 ^ Z.log2 x ≤ 2 ^ 31) by (apply Z.pow_le_mono_r; lia). lia.
  - rewrite fixSize_up by lia. rewrite <-Z.add_1_r in H2. split.
    + intros Hb. exists (Z.log2 x + 1).
      assert (Z.log2 x < 31) as HL31.
      { destruct (decide (Z.log2 x = 31)) as [E|]; [|lia]. rewrite E in *. lia. }
      rewrite u32_small.
      * split_and!; try lia. intros j Hj Hxj. apply Z.pow_le_mono_r; [lia|].
        assert (Z.log2 x < j); [|lia]. apply (Z.pow_lt_mono_r_iff 2); lia.
      * split; [apply Z.lt_le_incl, pow2_pos; lia|]. apply Z.pow_lt_mono_r; lia.
    + intros Hb. assert (Z.log2 x = 31) as ->; [|reflexivity].
      assert (31 ≤ Z.log2 x); [|lia]. change 31 with (Z.log2 (2 ^ 31)).
      apply Z.log2_le_mono. lia.
Qed.

Lemma fixSize_least_power_witness : fixSize 4097 = 8192 ∧ fixSize (2 ^ 31 + 1) = 0.
Proof.
  split; [reflexivity|]. apply (fixSize_least_power (2 ^ 31 + 1)); lia.
Defined.
