(* ===== verification/DList.v ===== *)
(** * Circular doubly linked lists (kernel/include/lib/list.h)

    The memory that holds [list_head] structures is a finite map from pointers
    to nodes; the pointer type [K] is a parameter, because every client embeds
    the nodes in structures of its own (pages, tasks, timers, caches).  An
    operation reads and writes the [next] and [prev] fields one at a time, in
    the order of the source, and faults on a pointer that is not mapped.

    [dl h hd l] says that the nodes [l] form, in order, the circular list whose
    header is [hd].  The specifications below are what the other components
    use; none of them looks at the fields again. *)

From S2P Require Import Prelude.
From stdpp Require Import base gmap list.
Open Scope Z_scope.

Record list_head (K : Type) := LH { next : K; prev : K }.
Arguments LH {K} next prev.
Arguments next {K} l.
Arguments prev {K} l.

Section ops.
Context {K : Type} `{Countable K}.
Abbreviation heap := (gmap K (list_head K)).

Definition ld (p : K) : M heap (list_head K) := h ← get; deref (h !! p).

Definition get_next (p : K) : M heap K := n ← ld p; mret (next n).

Definition get_prev (p : K) : M heap K := n ← ld p; mret (prev n).

Definition set_next (p v : K) : M heap unit :=
  n ← ld p; modify (insert p (LH v (prev n))).

Definition set_prev (p v : K) : M heap unit :=
  n ← ld p; modify (insert p (LH (next n) v)).

Definition list_header_init (header : K) : M heap unit :=
  set_next header header;;
  set_prev header header.

Definition list_add (new prv nxt : K) : M heap unit :=
  set_prev new prv;;
  set_next new nxt;;
  set_prev nxt new;;
  set_next prv new.

Definition list_add_next (new target : K) : M heap unit :=
  n ← get_next target; list_add new target n.

Definition list_add_prev (new target : K) : M heap unit :=
  p ← get_prev target; list_add new p target.

Definition list_del (l : K) : M heap unit :=
  p ← get_prev l; n ← get_next l; set_next p n;;
  n' ← get_next l; p' ← get_prev l; set_prev n' p'.

Definition list_empty (header : K) : M heap bool :=
  n ← get_next header; mret (bool_decide (n = header)).

Definition list_link (header tail : K) : M heap unit :=
  set_next header tail;;
  set_prev tail header.

(** [list_for_each]: the nodes in forward order, from [hdr] up to [head]. *)
Fixpoint list_for_each (fuel : nat) (hdr head : K) : M heap (list K) :=
  match fuel with
  | O => fail Fuel
  | S f =>
      if decide (hdr = head) then mret []
      else n ← get_next hdr; t ← list_for_each f n head; mret (hdr :: t)
  end.

Definition list_cnt (fuel : nat) (header : K) : M heap Z :=
  n ← get_next header;
  l ← list_for_each fuel n header;
  mret (u32 (Z.of_nat (length l))).

Definition list_first (header : K) : M heap K := get_next header.

Definition list_tail (header : K) : M heap K := get_prev header.

Definition list_get_first (header : K) : M heap (option K) :=
  e ← list_empty header;
  if e : bool then mret None
  else h ← list_first header; list_del h;; mret (Some h).

(** ** Representation *)

Definition nx (h : heap) (p : K) : option K := next <$> h !! p.
Definition pv (h : heap) (p : K) : option K := prev <$> h !! p.

Fixpoint chain (h : heap) (c : list K) : Prop :=
  match c with
  | x :: (y :: _) as t => nx h x = Some y ∧ pv h y = Some x ∧ chain h t
  | _ => True
  end.

Definition dl (h : heap) (hd : K) (l : list K) : Prop :=
  NoDup (hd :: l) ∧ chain h (hd :: l ++ [hd]).

(** [h'] differs from [h] at most in the nodes [F], and maps the same nodes. *)
Definition keeps (F : list K) (h h' : heap) : Prop :=
  dom h' = dom h ∧ ∀ q, q ∉ F → h' !! q = h !! q.
End ops.

Section specs.
Context {K : Type} `{Countable K}.
Abbreviation heap := (gmap K (list_head K)).
Implicit Types (h : heap) (l : list K) (p q hd : K).

Lemma chain_cons h x y c :
  chain h (x :: y :: c) ↔ nx h x = Some y ∧ pv h y = Some x ∧ chain h (y :: c).
Proof. done. Qed.

Lemma chain_app h c1 x c2 :
  chain h (c1 ++ x :: c2) ↔ chain h (c1 ++ [x]) ∧ chain h (x :: c2).
Proof.
  induction c1 as [|a [|b c1] IH]; simpl in *.
  - by destruct c2; naive_solver.
  - naive_solver.
  - rewrite IH. naive_solver.
Qed.

Lemma chain_ext h h' c :
  (∀ x, x ∈ removelast c → nx h' x = nx h x) →
  (∀ y, y ∈ tail c → pv h' y = pv h y) →
  chain h c → chain h' c.
Proof.
  induction c as [|a [|b c] IH]; [done..|]. intros Hn Hp (H1 & H2 & H3).
  apply chain_cons. split_and!.
  - rewrite Hn; [done|]. by left.
  - rewrite Hp; [done|]. by left.
  - apply IH; [| |done].
    + intros x Hx. apply Hn. by right.
    + intros y Hy. apply Hp. by right.
Qed.

(** A list is not affected by writes outside its footprint. *)
Lemma dl_frame h h' hd l :
  (∀ x, x ∈ hd :: l → h' !! x = h !! x) → dl h hd l → dl h' hd l.
Proof.
  intros Hx [Hnd Hc]. split; [done|]. revert Hc. apply chain_ext; unfold nx, pv.
  - intros x Hin. rewrite Hx; [done|].
    rewrite (app_comm_cons l [hd] hd), removelast_last in Hin. done.
  - simpl. intros y Hin. rewrite Hx; [done|]. set_solver.
Qed.

Lemma dl_nodup h hd l : dl h hd l → NoDup (hd :: l).
Proof. by intros []. Qed.

(** Where the elements of a split list are linked. *)
Lemma dl_split h hd l1 l2 :
  dl h hd (l1 ++ l2) →
  ∃ a p n b, hd :: l1 = a ++ [p] ∧ l2 ++ [hd] = n :: b ∧
    nx h p = Some n ∧ pv h n = Some p ∧
    chain h (a ++ [p]) ∧ chain h (n :: b).
Proof.
  intros [_ Hc].
  destruct (exists_last (l := hd :: l1)) as (a & p & Ha); [done|].
  destruct (l2 ++ [hd]) as [|n b] eqn:Hb; [by destruct l2|].
  exists a, p, n, b. split; [done|]. split; [done|].
  rewrite <-app_assoc, Hb in Hc. change (chain h ((hd :: l1) ++ n :: b)) in Hc.
  rewrite Ha, <-app_assoc in Hc. simpl in Hc.
  apply chain_app in Hc as [H1 H2]. apply chain_cons in H2. naive_solver.
Qed.

Lemma dl_join h hd l1 l2 a p n b :
  hd :: l1 = a ++ [p] → l2 ++ [hd] = n :: b →
  NoDup (hd :: l1 ++ l2) →
  chain h (a ++ [p]) → nx h p = Some n → pv h n = Some p → chain h (n :: b) →
  dl h hd (l1 ++ l2).
Proof.
  intros Ha Hb Hnd H1 H2 H3 H4. split; [done|].
  rewrite <-app_assoc, Hb. change (chain h ((hd :: l1) ++ n :: b)).
  rewrite Ha, <-app_assoc. simpl. apply chain_app.
  split; [done|]. by apply chain_cons.
Qed.

(** *** Field access *)

Lemma wp_get_next p v (Q : K → heap → Prop) h :
  nx h p = Some v → Q v h → wp (get_next p) Q h.
Proof.
  unfold nx, get_next, ld. intros Hv HQ.
  destruct (h !! p) eqn:E; simplify_eq/=. by wp_go.
Qed.

Lemma wp_get_prev p v (Q : K → heap → Prop) h :
  pv h p = Some v → Q v h → wp (get_prev p) Q h.
Proof.
  unfold pv, get_prev, ld. intros Hv HQ.
  destruct (h !! p) eqn:E; simplify_eq/=. by wp_go.
Qed.

Lemma wp_set_next p v (Q : unit → heap → Prop) h :
  is_Some (h !! p) →
  (∀ h', (∀ q, nx h' q = if decide (q = p) then Some v else nx h q) →
         (∀ q, pv h' q = pv h q) → dom h' = dom h →
         (∀ q, q ≠ p → h' !! q = h !! q) → Q tt h') →
  wp (set_next p v) Q h.
Proof.
  intros [n Hn] HQ. unfold set_next, ld. wp_go; [done|]. apply HQ.
  - intros q. unfold nx. destruct (decide (q = p)) as [->|];
      [by rewrite lookup_insert_eq|by rewrite lookup_insert_ne].
  - intros q. unfold pv. destruct (decide (q = p)) as [->|];
      [by rewrite lookup_insert_eq, Hn|by rewrite lookup_insert_ne].
  - apply dom_insert_lookup_L. by exists n.
  - intros q Hq. by rewrite lookup_insert_ne.
Qed.

Lemma wp_set_prev p v (Q : unit → heap → Prop) h :
  is_Some (h !! p) →
  (∀ h', (∀ q, pv h' q = if decide (q = p) then Some v else pv h q) →
         (∀ q, nx h' q = nx h q) → dom h' = dom h →
         (∀ q, q ≠ p → h' !! q = h !! q) → Q tt h') →
  wp (set_prev p v) Q h.
Proof.
  intros [n Hn] HQ. unfold set_prev, ld. wp_go; [done|]. apply HQ.
  - intros q. unfold pv. destruct (decide (q = p)) as [->|];
      [by rewrite lookup_insert_eq|by rewrite lookup_insert_ne].
  - intros q. unfold nx. destruct (decide (q = p)) as [->|];
      [by rewrite lookup_insert_eq, Hn|by rewrite lookup_insert_ne].
  - apply dom_insert_lookup_L. by exists n.
  - intros q Hq. by rewrite lookup_insert_ne.
Qed.

Lemma keeps_refl F h : keeps F h h.
Proof. by split. Qed.

Lemma keeps_trans F h1 h2 h3 : keeps F h1 h2 → keeps F h2 h3 → keeps F h1 h3.
Proof. intros [D1 H1] [D2 H2]. split; [congruence|]. intros. by rewrite H2, H1. Qed.

Lemma keeps_weaken F G h h' : keeps F h h' → F ⊆ G → keeps G h h'.
Proof. intros [D1 H1] HF. split; [done|]. intros q Hq. apply H1. set_solver. Qed.

Lemma keeps_dl F h h' hd l :
  keeps F h h' → (∀ x, x ∈ hd :: l → x ∉ F) → dl h hd l → dl h' hd l.
Proof. intros [_ Hk] Hd. apply dl_frame. intros x Hx. apply Hk. by apply Hd. Qed.

Lemma keeps_mapped F h h' p : keeps F h h' → is_Some (h !! p) → is_Some (h' !! p).
Proof. intros [Hd _]. rewrite <-!elem_of_dom, Hd. done. Qed.

Lemma nx_mapped h p v : nx h p = Some v → is_Some (h !! p).
Proof. unfold nx. intros (n & -> & _)%fmap_Some. by exists n. Qed.

Lemma pv_mapped h p v : pv h p = Some v → is_Some (h !! p).
Proof. unfold pv. intros (n & -> & _)%fmap_Some. by exists n. Qed.

Lemma dl_head_next h hd l :
  dl h hd l → nx h hd = Some (default hd (head l)).
Proof. intros [_ Hc]. destruct l; simpl in Hc; tauto. Qed.

Lemma dl_head_prev h hd l :
  dl h hd l → pv h hd = Some (default hd (last l)).
Proof.
  intros Hd. destruct (dl_split h hd l []) as (a & p & n & b & Ha & Hb & _ & Hp & _).
  { by rewrite app_nil_r. }
  injection Hb as <- <-. rewrite Hp. f_equal.
  assert (last (hd :: l) = Some p) as HL by (by rewrite Ha, last_snoc).
  destruct l; simpl in *; [by simplify_eq|]. by rewrite HL.
Qed.

Lemma dl_mapped h hd l x : dl h hd l → x ∈ hd :: l → is_Some (h !! x).
Proof.
  intros Hd [->|Hx]%elem_of_cons.
  - by eapply nx_mapped, dl_head_next.
  - apply list_elem_of_split in Hx as (l1 & l2 & ->).
    rewrite (cons_middle x l1 l2), app_assoc in Hd.
    apply dl_split in Hd as (a & p & n & b & Ha & _ & Hn & _).
    rewrite app_comm_cons in Ha. apply app_inj_tail in Ha as [_ <-].
    by eapply nx_mapped.
Qed.

(** *** The operations of list.h *)

Lemma wp_list_header_init hd h :
  is_Some (h !! hd) →
  wp (list_header_init hd) (λ _ h', dl h' hd [] ∧ keeps [hd] h h') h.
Proof.
  intros Hh. unfold list_header_init. wp_go.
  apply wp_set_next; [done|]. intros h1 N1 P1 D1 K1.
  apply wp_set_prev; [by rewrite <-elem_of_dom, D1, elem_of_dom|].
  intros h2 P2 N2 D2 K2. split; split.
  - by apply NoDup_singleton.
  - simpl. rewrite N2, N1, P2. by rewrite !decide_True.
  - congruence.
  - intros q Hq. rewrite K2, K1; set_solver.
Qed.

(** Where the neighbours of a cut of the cycle stand. *)
Lemma cut_nodup hd l1 l2 a p n b :
  hd :: l1 = a ++ [p] → l2 ++ [hd] = n :: b → NoDup (hd :: l1 ++ l2) →
  (p ∉ a) ∧ (p ∉ l2) ∧ (n ∉ l1) ∧ (n ∉ b) ∧ a ⊆ (hd :: l1) ∧ p ∈ (hd :: l1) ∧
  b ⊆ (l2 ++ [hd]) ∧ n ∈ (l2 ++ [hd]).
Proof.
  intros Ha Hb Hnd.
  assert (Hl : a ⊆ (hd :: l1) ∧ p ∈ (hd :: l1)) by (rewrite Ha; set_solver).
  assert (Hr : b ⊆ (l2 ++ [hd]) ∧ n ∈ (l2 ++ [hd])) by (rewrite Hb; set_solver).
  assert (Hnd1 : NoDup (a ++ [p])).
  { rewrite <-Ha. by apply (NoDup_app (hd :: l1) l2) in Hnd as [? _]. }
  assert (Hnd2 : NoDup (n :: b)).
  { rewrite <-Hb, Permutation_app_comm. simpl.
    apply NoDup_cons in Hnd as [? (_ & _ & ?)%NoDup_app]. apply NoDup_cons. set_solver. }
  apply NoDup_app in Hnd1 as (_ & Hpa & _). apply NoDup_cons in Hnd2 as [Hnb _].
  apply NoDup_cons in Hnd as [Hh (_ & Hx & _)%NoDup_app].
  split_and!; try tauto; set_solver.
Qed.

Lemma dl_insert h h' new hd l1 l2 a p n b :
  dl h hd (l1 ++ l2) → hd :: l1 = a ++ [p] → l2 ++ [hd] = n :: b →
  new ∉ hd :: l1 ++ l2 →
  (∀ q, nx h' q = if decide (q = p) then Some new
                  else if decide (q = new) then Some n else nx h q) →
  (∀ q, pv h' q = if decide (q = n) then Some new
                  else if decide (q = new) then Some p else pv h q) →
  dl h' hd (l1 ++ new :: l2).
Proof.
  intros Hd Ha Hb Hnew NN PP. pose proof (dl_nodup _ _ _ Hd) as Hnd.
  destruct (cut_nodup _ _ _ _ _ _ _ Ha Hb Hnd) as (F1 & F2 & F3 & F4 & F5 & F6 & F7 & F8).
  apply dl_split in Hd as (a' & p' & n' & b' & Ha' & Hb' & _ & _ & C1 & C2).
  rewrite Ha in Ha'. apply app_inj_tail in Ha' as [<- <-].
  rewrite Hb in Hb'. injection Hb' as <- <-.
  apply (dl_join _ _ l1 (new :: l2) a p new (n :: b)); [done|by rewrite <-Hb|..].
  - rewrite <-(Permutation_middle l1 l2 new). rewrite NoDup_cons in Hnd.
    apply NoDup_cons. rewrite NoDup_cons. set_solver.
  - eapply chain_ext; [| |exact C1].
    + rewrite removelast_last. intros x Hx. rewrite NN, !decide_False; set_solver.
    + rewrite <-Ha. simpl. intros y Hy. rewrite PP, !decide_False; set_solver.
  - by rewrite NN, decide_True.
  - by rewrite PP, decide_False, decide_True by set_solver.
  - apply chain_cons. split_and!.
    + by rewrite NN, decide_False, decide_True by set_solver.
    + by rewrite PP, decide_True.
    + eapply chain_ext; [| |exact C2].
      * rewrite <-Hb, removelast_last. intros x Hx. rewrite NN, !decide_False; set_solver.
      * simpl. intros y Hy. rewrite PP, !decide_False; set_solver.
Qed.

Lemma dl_remove h h' x hd l1 l2 a p n b :
  dl h hd (l1 ++ x :: l2) → hd :: l1 = a ++ [p] → l2 ++ [hd] = n :: b →
  (∀ q, nx h' q = if decide (q = p) then Some n else nx h q) →
  (∀ q, pv h' q = if decide (q = n) then Some p else pv h q) →
  dl h' hd (l1 ++ l2).
Proof.
  intros Hd Ha Hb NN PP. pose proof (dl_nodup _ _ _ Hd) as Hnd.
  assert (Hnd' : NoDup (hd :: l1 ++ l2)).
  { rewrite <-Permutation_middle in Hnd. rewrite !NoDup_cons in Hnd.
    apply NoDup_cons. set_solver. }
  destruct (cut_nodup _ _ _ _ _ _ _ Ha Hb Hnd') as (F1 & F2 & F3 & F4 & F5 & F6 & F7 & F8).
  apply dl_split in Hd as (a' & p' & n' & b' & Ha' & Hb' & _ & _ & C1 & C2).
  rewrite Ha in Ha'. apply app_inj_tail in Ha' as [<- <-].
  simpl in Hb'. rewrite Hb in Hb'. injection Hb' as <- <-.
  apply chain_cons in C2 as (_ & _ & C2).
  apply (dl_join _ _ l1 l2 a p n b); [done..| | | |].
  - eapply chain_ext; [| |exact C1].
    + rewrite removelast_last. intros y Hy. rewrite NN, !decide_False; set_solver.
    + rewrite <-Ha. simpl. intros y Hy. rewrite PP, !decide_False; set_solver.
  - by rewrite NN, decide_True.
  - by rewrite PP, decide_True.
  - eapply chain_ext; [| |exact C2].
    + rewrite <-Hb, removelast_last. intros y Hy. rewrite NN, !decide_False; set_solver.
    + simpl. intros y Hy. rewrite PP, !decide_False; set_solver.
Qed.

Lemma wp_list_add new hd l1 l2 a p n b h :
  dl h hd (l1 ++ l2) → hd :: l1 = a ++ [p] → l2 ++ [hd] = n :: b →
  new ∉ hd :: l1 ++ l2 → is_Some (h !! new) →
  wp (list_add new p n)
     (λ _ h', dl h' hd (l1 ++ new :: l2) ∧ keeps (new :: hd :: l1 ++ l2) h h') h.
Proof.
  intros Hd Ha Hb Hnew Hm.
  destruct (cut_nodup _ _ _ _ _ _ _ Ha Hb (dl_nodup _ _ _ Hd)) as (_ & _ & _ & _ & _ & F6 & _ & F8).
  pose proof (dl_mapped _ _ _ p Hd ltac:(set_solver)) as Mp.
  pose proof (dl_mapped _ _ _ n Hd ltac:(set_solver)) as Mn.
  unfold list_add. wp_go.
  apply wp_set_prev; [done|]. intros h1 P1 N1 D1 K1. wp_go.
  apply wp_set_next; [by rewrite <-elem_of_dom, D1, elem_of_dom|].
  intros h2 N2 P2 D2 K2. wp_go.
  apply wp_set_prev; [by rewrite <-elem_of_dom, D2, D1, elem_of_dom|].
  intros h3 P3 N3 D3 K3. wp_go.
  apply wp_set_next; [by rewrite <-elem_of_dom, D3, D2, D1, elem_of_dom|].
  intros h4 N4 P4 D4 K4. split.
  - eapply (dl_insert h); [done..| |].
    + intros q. by rewrite N4, N3, N2, N1.
    + intros q. by rewrite P4, P3, P2, P1.
  - split; [congruence|]. intros q Hq. rewrite K4, K3, K2, K1; set_solver.
Qed.

Lemma wp_list_add_next new hd l h :
  dl h hd l → new ∉ hd :: l → is_Some (h !! new) →
  wp (list_add_next new hd)
     (λ _ h', dl h' hd (new :: l) ∧ keeps (new :: hd :: l) h h') h.
Proof.
  intros Hd Hnew Hm. unfold list_add_next. wp_go.
  eapply wp_get_next; [by apply dl_head_next|].
  apply (wp_list_add _ hd [] l [] hd _ (tail (l ++ [hd]))); try done.
  by destruct l.
Qed.

Lemma wp_list_add_prev new hd l h :
  dl h hd l → new ∉ hd :: l → is_Some (h !! new) →
  wp (list_add_prev new hd)
     (λ _ h', dl h' hd (l ++ [new]) ∧ keeps (new :: hd :: l) h h') h.
Proof.
  intros Hd Hnew Hm. unfold list_add_prev. wp_go.
  eapply wp_get_prev; [by apply dl_head_prev|].
  destruct (exists_last (l := hd :: l)) as (a & p & Ha); [done|].
  assert (default hd (last l) = p) as ->.
  { assert (last (hd :: l) = Some p) as HL by (by rewrite Ha, last_snoc).
    destruct l; simpl in *; [by simplify_eq|]. by rewrite HL. }
  pose proof (wp_list_add new hd l [] a p hd [] h) as Hw.
  rewrite app_nil_r in Hw. by apply Hw.
Qed.

Lemma wp_list_del x hd l1 l2 h :
  dl h hd (l1 ++ x :: l2) →
  wp (list_del x)
     (λ _ h', dl h' hd (l1 ++ l2) ∧ keeps (hd :: l1 ++ l2) h h' ∧
              h' !! x = h !! x) h.
Proof.
  intros Hd. pose proof (dl_nodup _ _ _ Hd) as Hnd.
  assert (Hx : x ∉ hd :: l1 ++ l2).
  { rewrite <-Permutation_middle in Hnd. rewrite !NoDup_cons in Hnd. set_solver. }
  destruct (dl_split _ _ _ _ Hd) as (a & p & n & b & Ha & Hb & _ & Hpx & _ & C2).
  simpl in Hb. injection Hb as <- Hb. subst b.
  destruct (l2 ++ [hd]) as [|n b] eqn:Hb; [by destruct l2|].
  apply chain_cons in C2 as (Hxn & _ & _).
  assert (Hp : p ∈ hd :: l1) by (rewrite Ha; set_solver).
  assert (Hn : n ∈ l2 ++ [hd]) by (rewrite Hb; set_solver).
  assert (p ≠ x ∧ n ≠ x) as [Hpx' Hnx'] by set_solver.
  pose proof (dl_mapped _ _ _ p Hd ltac:(set_solver)) as Mp.
  pose proof (dl_mapped _ _ _ n Hd ltac:(set_solver)) as Mn.
  unfold list_del. wp_go. apply (wp_get_prev _ p); [done|].
  wp_go. apply (wp_get_next _ n); [done|]. wp_go.
  apply wp_set_next; [done|]. intros h1 N1 P1 D1 K1.
  wp_go. apply (wp_get_next _ n); [by rewrite N1, decide_False|].
  wp_go. apply (wp_get_prev _ p); [by rewrite P1|].
  apply wp_set_prev; [by rewrite <-elem_of_dom, D1, elem_of_dom|].
  intros h2 P2 N2 D2 K2. split_and!.
  - eapply dl_remove; [done..| |].
    + intros q. by rewrite N2, N1.
    + intros q. by rewrite P2, P1.
  - split; [congruence|]. intros q Hq. rewrite K2, K1; set_solver.
  - rewrite K2, K1; done.
Qed.

Lemma wp_list_empty hd l h (Q : bool → gmap K (list_head K) → Prop) :
  dl h hd l → Q (bool_decide (l = [])) h → wp (list_empty hd) Q h.
Proof.
  intros Hd HQ. unfold list_empty. wp_go.
  eapply wp_get_next; [by apply dl_head_next|]. wp_go.
  erewrite bool_decide_ext; [exact HQ|]. destruct l as [|x l]; [done|]. simpl.
  split; [|done]. intros ->. by apply dl_nodup, NoDup_cons in Hd as [[]%not_elem_of_cons _].
Qed.

Lemma wp_list_for_each fuel hd l1 l2 h (Q : list K → gmap K (list_head K) → Prop) :
  dl h hd (l1 ++ l2) → (length l2 < fuel)%nat → Q l2 h →
  wp (list_for_each fuel (default hd (head l2)) hd) Q h.
Proof.
  revert l1 l2 Q. induction fuel as [|f IH]; intros l1 l2 Q Hd Hf HQ; [lia|].
  simpl. destruct l2 as [|x l2]; simpl in *.
  { rewrite decide_True by done. by apply wp_ret. }
  rewrite decide_False; cycle 1.
  { intros ->. apply dl_nodup, NoDup_cons in Hd. set_solver. }
  wp_go. apply (wp_get_next _ (default hd (head l2))).
  { rewrite cons_middle, app_assoc in Hd.
    apply dl_split in Hd as (a & p & n & b & Ha & Hb & Hn & _).
    rewrite app_comm_cons in Ha. apply app_inj_tail in Ha as [_ <-].
    rewrite Hn. by destruct l2; simplify_eq/=. }
  wp_go. eapply (IH (l1 ++ [x])); [by rewrite <-app_assoc|lia|]. by wp_go.
Qed.

Lemma wp_list_get_first_nil hd h (Q : option K → gmap K (list_head K) → Prop) :
  dl h hd [] → Q None h → wp (list_get_first hd) Q h.
Proof.
  intros Hd HQ. unfold list_get_first. wp_go. by eapply wp_list_empty.
Qed.

Lemma wp_list_get_first_cons hd x l h :
  dl h hd (x :: l) →
  wp (list_get_first hd)
     (λ r h', r = Some x ∧ dl h' hd l ∧ keeps (hd :: l) h h' ∧ h' !! x = h !! x) h.
Proof.
  intros Hd. unfold list_get_first. wp_go. eapply wp_list_empty; [done|].
  rewrite bool_decide_false by done. wp_go. unfold list_first.
  eapply wp_get_next; [by apply dl_head_next|]. simpl. wp_go.
  eapply wp_mono; [apply (wp_list_del x hd [] l); done|]. simpl.
  intros _ h' (?&?&?). by wp_go.
Qed.
End specs.

(** ** The operations against their specification *)

(** Calls on the list whose header is [hd]. *)
Inductive lop (K : Type) := AddNext (n : K) | AddPrev (n : K) | Del (n : K) | GetFirst.
Arguments AddNext {K} n.
Arguments AddPrev {K} n.
Arguments Del {K} n.
Arguments GetFirst {K}.

Section refinement.
Context {K : Type} `{Countable K}.
Implicit Types (h : gmap K (list_head K)) (l : list K) (hd : K).

(** A node is added only when it is not the header and not linked, and deleted
    only when it is linked. *)
Definition lop_spec (hd : K) (l : list K) (o : lop K) : option (option K * list K) :=
  match o with
  | AddNext n => if decide (n ∈ hd :: l) then None else Some (None, n :: l)
  | AddPrev n => if decide (n ∈ hd :: l) then None else Some (None, l ++ [n])
  | Del n => if decide (n ∈ l) then Some (None, filter (λ x, x ≠ n) l) else None
  | GetFirst => Some (head l, tail l)
  end.

Definition lop_step (hd : K) (o : lop K) : M (gmap K (list_head K)) (option K) :=
  match o with
  | AddNext n => list_add_next n hd;; mret None
  | AddPrev n => list_add_prev n hd;; mret None
  | Del n => list_del n;; mret None
  | GetFirst => list_get_first hd
  end.

Fixpoint lop_spec_run (hd : K) (l : list K) (os : list (lop K)) : option (list (option K) * list K) :=
  match os with
  | [] => Some ([], l)
  | o :: os => r ← lop_spec hd l o; t ← lop_spec_run hd (snd r) os; Some (fst r :: fst t, snd t)
  end.

Fixpoint lop_run (hd : K) (os : list (lop K)) : M (gmap K (list_head K)) (list (option K)) :=
  match os with
  | [] => mret []
  | o :: os => r ← lop_step hd o; t ← lop_run hd os; mret (r :: t)
  end.

Lemma filter_split l1 l2 x :
  NoDup (l1 ++ x :: l2) → filter (λ y, y ≠ x) (l1 ++ x :: l2) = l1 ++ l2.
Proof.
  intros (_ & Hd & [Hx _]%NoDup_cons)%NoDup_app. rewrite filter_app.
  assert (∀ l, x ∉ l → filter (λ y, y ≠ x) l = l) as Hf.
  { induction l as [|y l IH]; intros Hn; [done|]. apply not_elem_of_cons in Hn as [? ?].
    rewrite filter_cons_True by done. by rewrite IH. }
  rewrite filter_cons_False by naive_solver. rewrite !Hf; [done|done|]. intros Hin.
  apply (Hd x Hin). left.
Qed.

Lemma lop_step_spec hd l o r l' h :
  dl h hd l → (∀ n, o = AddNext n ∨ o = AddPrev n → is_Some (h !! n)) →
  lop_spec hd l o = Some (r, l') →
  wp (lop_step hd o) (λ r' h', r' = r ∧ dl h' hd l' ∧ dom h' = dom h) h.
Proof.
  intros Hd Hm Hs. destruct o as [n|n|n|]; simpl in *; try case_decide as Hin; simplify_eq.
  - wp_step. eapply wp_mono; [apply (wp_list_add_next n hd l); auto|].
    intros [] h' [? [? _]]. by wp_go.
  - wp_step. eapply wp_mono; [apply (wp_list_add_prev n hd l); auto|].
    intros [] h' [? [? _]]. by wp_go.
  - apply list_elem_of_split in Hin as (l1 & l2 & ->). wp_step.
    eapply wp_mono; [by apply (wp_list_del n hd l1 l2)|]. intros [] h' (? & [? _] & _). wp_go.
    rewrite filter_split; [done|]. by apply dl_nodup, NoDup_cons in Hd as [_ ?].
  - destruct l as [|x l].
    + by apply wp_list_get_first_nil.
    + eapply wp_mono; [by apply wp_list_get_first_cons|]. intros ? h' (-> & ? & [? _] & _). done.
Qed.

(** C36: the circular list refines a sequence: from a heap where the nodes [l] are
    linked at [hd], every legal sequence of insertions at either end, deletions
    and removals of the first node ends without fault, answers what the sequence
    answers and leaves exactly the resulting sequence linked. *)
Theorem list_ops_refine hd l os outs l' h :
  dl h hd l → (∀ n, AddNext n ∈ os ∨ AddPrev n ∈ os → is_Some (h !! n)) →
  lop_spec_run hd l os = Some (outs, l') →
  ∃ h', lop_run hd os h = Ok (outs, h') ∧ dl h' hd l'.
Proof.
  intros Hd Hm Hs. assert (wp (lop_run hd os) (λ r h', r = outs ∧ dl h' hd l') h) as Hw.
  { revert h l outs l' Hd Hm Hs. induction os as [|o os IH]; intros h l outs l' Hd Hm Hs; simpl in *.
    - simplify_eq. by wp_go.
    - destruct (lop_spec hd l o) as [[r l1]|] eqn:E1; simpl in Hs; [|done].
      destruct (lop_spec_run hd l1 os) as [[t l2]|] eqn:E2; simpl in Hs; simplify_eq.
      wp_step. eapply wp_mono; [eapply (lop_step_spec hd l o r l1 h Hd); [|done]|].
      + intros n [-> | ->]; apply Hm; [left|right]; left.
      + intros r' h1 (-> & Hd1 & Hdom). wp_step.
        eapply wp_mono; [apply (IH h1 l1 t l' Hd1); [|done]|].
        * intros n Hn. rewrite <-elem_of_dom, Hdom, elem_of_dom. apply Hm.
          destruct Hn; [left|right]; by right.
        * intros ? h2 [-> ?]. by wp_go. }
  apply wp_elim in Hw as (r & h' & E & -> & Hd'). eauto.
Qed.
End refinement.

Definition demo_heap : gmap Z (list_head Z) :=
  {[0 := LH 0 0; 1 := LH 7 7; 2 := LH 9 9; 3 := LH 0 2]}.

Lemma list_ops_refine_witness :
  ∃ h', lop_run 0 [AddPrev 1; AddNext 2; AddPrev 3; Del 1; GetFirst; GetFirst; GetFirst] demo_heap
        = Ok ([None; None; None; None; Some 2; Some 3; None], h') ∧ dl h' 0 [].
Proof.
  apply (list_ops_refine 0 []).
  - split; [apply NoDup_singleton|by vm_compute].
  - intros n Hn. assert (n = 1 ∨ n = 2 ∨ n = 3) as [->|[->| ->]]; [|vm_compute; eauto..].
    rewrite !elem_of_cons, !elem_of_nil in Hn. naive_solver.
  - reflexivity.
Defined.
