(* ===== verification/Locks.v ===== *)
(** * Locks (include/lib/spinlock.h, rwlock.h, ticklock.h)

    The lock words and the routines on them, in two views.

    - The sequential view, used by the other components: acquiring a lock
      word that is set cannot return, because nobody else runs in the model of
      one call; the outcome is [Spin].
    - The concurrent view, used by the properties of this file: every thread is
      at one point of a routine, and one step of the system is one access of
      one thread to the shared words ([test_and_set] is the xchg of klock.s).

    The DEBUG fields of [spinlock_t] (the holder's cpu and function name) are
    written and never read by the locks, and are left out. *)

From S2P Require Import Prelude.
From Stdlib Require Import ZArith Lia.
From stdpp Require Import base list numbers relations.
Open Scope Z_scope.

Definition SPINLOCK_LOCKED : Z := 1.
Definition SPINLOCK_UNLOCK : Z := 0.

(** [spinlock_t] is its [flag] word. *)
Record spinlock_t := Spinlock { lk_flag : Z }.

Definition spinlock_locked (l : spinlock_t) : bool := lk_flag l =? SPINLOCK_LOCKED.
Definition spinlock_init : spinlock_t := Spinlock SPINLOCK_UNLOCK.
Definition spinlock_unlock (l : spinlock_t) : spinlock_t := Spinlock 0.

(** [xchg]: the old value and the new word. *)
Definition test_and_set (flag : Z) : Z * Z := (flag, 1).

Definition spinlock_lock (l : spinlock_t) : res spinlock_t :=
  let '(old, new) := test_and_set (lk_flag l) in
  if old =? SPINLOCK_LOCKED then Err Spin else Ok (Spinlock new).

Record rwlock_t := Rwlock { rw_lock : spinlock_t; rw_writelock : spinlock_t; rw_readers : Z }.

Definition rwlock_init : rwlock_t := Rwlock spinlock_init spinlock_init 0.

Definition rlock_lock (k : rwlock_t) : res rwlock_t :=
  match spinlock_lock (rw_lock k) with
  | Err e => Err e
  | Ok l =>
      let r := u16 (rw_readers k + 1) in
      match (if r =? 1 then spinlock_lock (rw_writelock k) else Ok (rw_writelock k)) with
      | Err e => Err e
      | Ok w => Ok (Rwlock (spinlock_unlock l) w r)
      end
  end.

Definition rlock_unlock (k : rwlock_t) : res rwlock_t :=
  match spinlock_lock (rw_lock k) with
  | Err e => Err e
  | Ok l =>
      let r := u16 (rw_readers k - 1) in
      let w := if r =? 0 then spinlock_unlock (rw_writelock k) else rw_writelock k in
      Ok (Rwlock (spinlock_unlock l) w r)
  end.

Definition wlock_lock (k : rwlock_t) : res rwlock_t :=
  match spinlock_lock (rw_writelock k) with
  | Err e => Err e
  | Ok w => Ok (Rwlock (rw_lock k) w (rw_readers k))
  end.

Definition wlock_unlock (k : rwlock_t) : rwlock_t :=
  Rwlock (rw_lock k) (spinlock_unlock (rw_writelock k)) (rw_readers k).

(** ** The read-write lock as a system of threads *)

Record rw_mem := RwMem { m_lock : Z; m_write : Z; m_readers : Z }.

(** Where a thread is: [RL*] inside [rlock_lock], [RU*] inside [rlock_unlock],
    [W0] inside [wlock_lock].  [RL1s v] and [RU1s v] have loaded [readers] = v
    and are about to store it back changed. *)
Inductive pc :=
  | Idle
  | RL0 | RL1 | RL1s (v : Z) | RL2 | RL3 | RL4
  | Reading
  | RU0 | RU1 | RU1s (v : Z) | RU2 | RU3 | RU4
  | W0
  | Writing.

Inductive thread_step : pc → rw_mem → pc → rw_mem → Prop :=
  (* a client decides to read or to write *)
  | s_call_r m : thread_step Idle m RL0 m
  | s_call_w m : thread_step Idle m W0 m
  (* rlock_lock *)
  | s_rl_spin l w r : l = 1 → thread_step RL0 (RwMem l w r) RL0 (RwMem 1 w r)
  | s_rl_tas l w r : l ≠ 1 → thread_step RL0 (RwMem l w r) RL1 (RwMem 1 w r)
  | s_rl_load m : thread_step RL1 m (RL1s (m_readers m)) m
  | s_rl_store l w r v : thread_step (RL1s v) (RwMem l w r) RL2 (RwMem l w (u16 (v + 1)))
  | s_rl_first m : m_readers m = 1 → thread_step RL2 m RL3 m
  | s_rl_next m : m_readers m ≠ 1 → thread_step RL2 m RL4 m
  | s_rl_wspin l w r : w = 1 → thread_step RL3 (RwMem l w r) RL3 (RwMem l 1 r)
  | s_rl_wtas l w r : w ≠ 1 → thread_step RL3 (RwMem l w r) RL4 (RwMem l 1 r)
  | s_rl_unlock l w r : thread_step RL4 (RwMem l w r) Reading (RwMem 0 w r)
  (* rlock_unlock *)
  | s_done_r m : thread_step Reading m RU0 m
  | s_ru_spin l w r : l = 1 → thread_step RU0 (RwMem l w r) RU0 (RwMem 1 w r)
  | s_ru_tas l w r : l ≠ 1 → thread_step RU0 (RwMem l w r) RU1 (RwMem 1 w r)
  | s_ru_load m : thread_step RU1 m (RU1s (m_readers m)) m
  | s_ru_store l w r v : thread_step (RU1s v) (RwMem l w r) RU2 (RwMem l w (u16 (v - 1)))
  | s_ru_last m : m_readers m = 0 → thread_step RU2 m RU3 m
  | s_ru_more m : m_readers m ≠ 0 → thread_step RU2 m RU4 m
  | s_ru_wunlock l w r : thread_step RU3 (RwMem l w r) RU4 (RwMem l 0 r)
  | s_ru_unlock l w r : thread_step RU4 (RwMem l w r) Idle (RwMem 0 w r)
  (* wlock_lock, wlock_unlock *)
  | s_w_spin l w r : w = 1 → thread_step W0 (RwMem l w r) W0 (RwMem l 1 r)
  | s_w_tas l w r : w ≠ 1 → thread_step W0 (RwMem l w r) Writing (RwMem l 1 r)
  | s_w_unlock l w r : thread_step Writing (RwMem l w r) Idle (RwMem l 0 r).

Inductive rw_step : rw_mem * list pc → rw_mem * list pc → Prop :=
  | rw_step_thread i p p' m m' ts :
      ts !! i = Some p → thread_step p m p' m' →
      rw_step (m, ts) (m', <[i := p']> ts).

Definition rw_init (n : nat) : rw_mem * list pc := (RwMem 0 0 0, replicate n Idle).

(** ** The ticket lock *)

Record ticklock_t := Ticklock { ticket : Z; turn : Z }.

Definition ticklock_init : ticklock_t := Ticklock 0 0.

(** [xadd]: the old value and the new word. *)
Definition fetch_and_add (w : Z) : Z * Z := (w, u32 (w + 1)).

Definition ticklock_unlock (k : ticklock_t) : ticklock_t :=
  let '(_, new) := fetch_and_add (turn k) in Ticklock (ticket k) new.

(** Threads that take and release the lock.  [TSpin] is the head of the loop of
    [ticklock_lock]; its condition reads [turn] and increments [ticket], in an order that C
    leaves open: [TTurn v] has read [turn] = v, [TTicket v] has drawn the ticket v. *)
Inductive tpc := TIdle | TSpin | TTurn (v : Z) | TTicket (v : Z) | THeld.
(** What a step shows: a round that failed, a round that got the lock, or nothing. *)
Inductive tick_event := Miss | Win | Quiet.

Inductive tick_thread (turn_first : bool) : tpc → ticklock_t → tick_event → tpc → ticklock_t → Prop :=
  | t_call k : tick_thread turn_first TIdle k Quiet TSpin k
  | t_turn k : turn_first = true → tick_thread turn_first TSpin k Quiet (TTurn (turn k)) k
  | t_turn_miss v k : v ≠ (fetch_and_add (ticket k)).1 →
      tick_thread turn_first (TTurn v) k Miss TSpin (Ticklock (fetch_and_add (ticket k)).2 (turn k))
  | t_turn_win v k : v = (fetch_and_add (ticket k)).1 →
      tick_thread turn_first (TTurn v) k Win THeld (Ticklock (fetch_and_add (ticket k)).2 (turn k))
  | t_ticket k : turn_first = false →
      tick_thread turn_first TSpin k Quiet (TTicket (fetch_and_add (ticket k)).1) (Ticklock (fetch_and_add (ticket k)).2 (turn k))
  | t_ticket_miss v k : turn k ≠ v → tick_thread turn_first (TTicket v) k Miss TSpin k
  | t_ticket_win v k : turn k = v → tick_thread turn_first (TTicket v) k Win THeld k
  | t_unlock k : tick_thread turn_first THeld k Quiet TIdle (ticklock_unlock k).

(** Runs, with the events of each thread. *)
Inductive tick_run (tf : bool) : ticklock_t * list tpc → list (nat * tick_event) → ticklock_t * list tpc → Prop :=
  | run_nil c : tick_run tf c [] c
  | run_step i p p' e k k' ts tr c :
      ts !! i = Some p → tick_thread tf p k e p' k' → tick_run tf (k', <[i := p']> ts) tr c →
      tick_run tf (k, ts) ((i, e) :: tr) c.

#[export] Instance tick_event_eq_dec : EqDecision tick_event.
Proof. solve_decision. Defined.
Definition times (x : nat * tick_event) (tr : list (nat * tick_event)) : Z := Z.of_nat (length (filter (λ y, y = x) tr)).

(** ** Counting threads *)

Definition cnt (f : pc → bool) (ts : list pc) : Z :=
  foldr (λ p a, Z.b2z (f p) + a) 0 ts.

Definition holds (p : pc) : bool :=
  match p with RL1 | RL1s _ | RL2 | RL3 | RL4 | RU1 | RU1s _ | RU2 | RU3 | RU4 => true
  | _ => false end.
Definition counted (p : pc) : bool :=
  match p with RL2 | RL3 | RL4 | Reading | RU0 | RU1 | RU1s _ => true | _ => false end.
Definition inside (p : pc) : bool :=
  match p with RL4 | Reading | RU0 | RU1 | RU1s _ | RU2 | RU3 => true | _ => false end.
Definition resting (p : pc) : bool :=
  match p with Reading | RU0 => true | _ => false end.
Definition writing (p : pc) : bool :=
  match p with Writing => true | _ => false end.

(** What the holder of [lock] knows about [readers]. *)
Definition local_ok (m : rw_mem) (p : pc) : Prop :=
  match p with
  | RL1s v | RU1s v => v = m_readers m
  | RL3 => m_readers m = 1
  | RU3 => m_readers m = 0
  | _ => True
  end.

Definition rw_inv (c : rw_mem * list pc) : Prop :=
  let '(m, ts) := c in
  m_lock m = cnt holds ts ∧ 0 ≤ m_lock m ≤ 1 ∧
  m_readers m = cnt counted ts ∧
  m_write m = cnt writing ts + Z.min 1 (cnt inside ts) ∧ m_write m ≤ 1 ∧
  Forall (local_ok m) ts.

(** ** Lemmas *)

Lemma cnt_nonneg f ts : 0 ≤ cnt f ts.
Proof. induction ts as [|p ts IH]; simpl; [done|]. destruct (f p); simpl; lia. Qed.

Lemma cnt_le f ts : cnt f ts ≤ Z.of_nat (length ts).
Proof. induction ts as [|p ts IH]; simpl; [done|]. destruct (f p); simpl; lia. Qed.

Lemma cnt_insert f ts i p p' :
  ts !! i = Some p →
  cnt f (<[i := p']> ts) = cnt f ts - Z.b2z (f p) + Z.b2z (f p').
Proof.
  revert i. induction ts as [|q ts IH]; intros [|i] Hi; simplify_eq/=; [lia|].
  rewrite IH by done. lia.
Qed.

Lemma cnt_pos f ts i p : ts !! i = Some p → f p = true → 1 ≤ cnt f ts.
Proof.
  revert i. induction ts as [|q ts IH]; intros [|i] Hi Hf; simplify_eq/=.
  - rewrite Hf. simpl. pose proof (cnt_nonneg f ts). lia.
  - specialize (IH _ Hi Hf). destruct (f q); simpl; lia.
Qed.

Lemma cnt_two f ts i j p q :
  i ≠ j → ts !! i = Some p → ts !! j = Some q → f p = true → f q = true →
  2 ≤ cnt f ts.
Proof.
  revert i j. induction ts as [|x ts IH]; intros [|i] [|j] Hij Hi Hj Hp Hq;
    simplify_eq/=; try done.
  - rewrite Hp. pose proof (cnt_pos f ts j q Hj Hq). simpl. lia.
  - rewrite Hq. pose proof (cnt_pos f ts i p Hi Hp). simpl. lia.
  - specialize (IH i j ltac:(lia) Hi Hj Hp Hq). destruct (f x); simpl; lia.
Qed.

(** When one thread holds the lock, every other counted thread is resting. *)
Lemma cnt_split f ts :
  (∀ p, f p = true → resting p = true ∨ holds p = true) →
  (∀ p, resting p = true → f p = true) →
  cnt f ts = cnt resting ts + cnt (λ p, f p && holds p) ts.
Proof.
  intros H1 H2. induction ts as [|p ts IH]; simpl; [done|]. rewrite IH.
  specialize (H1 p). specialize (H2 p).
  assert (resting p = true → holds p = false) as H3 by (by destruct p).
  destruct (f p), (resting p), (holds p); simpl in *; lia || naive_solver.
Qed.

Lemma cnt_holder f ts i p :
  cnt holds ts ≤ 1 → ts !! i = Some p → holds p = true →
  cnt (λ p, f p && holds p) ts = Z.b2z (f p).
Proof.
  revert i. induction ts as [|q ts IH]; intros [|i] Hc Hi Hp; simplify_eq/=.
  - rewrite Hp in *. simpl in Hc. rewrite andb_true_r.
    assert (cnt (λ p, f p && holds p) ts = 0); [|lia].
    assert (cnt (λ p, f p && holds p) ts ≤ cnt holds ts).
    { clear. induction ts as [|q ts IH]; simpl; [done|].
      destruct (f q), (holds q); simpl; lia. }
    pose proof (cnt_nonneg holds ts). pose proof (cnt_nonneg (λ p, f p && holds p) ts). lia.
  - pose proof (cnt_pos _ _ _ _ Hi Hp). destruct (holds q); simpl in *; [lia|].
    rewrite andb_false_r. simpl. rewrite (IH i); [lia..|done|done].
Qed.

Lemma rw_inv_init n : rw_inv (rw_init n).
Proof.
  assert (∀ f, f Idle = false → cnt f (replicate n Idle) = 0) as Hc.
  { intros f Hf. induction n; simpl; [done|]. rewrite Hf. simpl. lia. }
  unfold rw_init, rw_inv. rewrite !Hc by done. simpl. split_and!; try lia.
  by apply Forall_replicate.
Qed.

(** A step that does not touch [readers] keeps what the others know. *)
Lemma local_ok_step m m' ts i p' :
  m_readers m' = m_readers m → local_ok m' p' → Forall (local_ok m) ts →
  Forall (local_ok m') (<[i := p']> ts).
Proof.
  intros Hr Hp Hf. apply Forall_insert; [|done].
  eapply Forall_impl; [exact Hf|]. intros p. destruct p; simpl; congruence.
Qed.

(** A store to [readers] is only done by the holder; nobody else depends on it. *)
Lemma local_ok_holder m' ts i p p' :
  cnt holds ts ≤ 1 → ts !! i = Some p → holds p = true → local_ok m' p' →
  Forall (local_ok m') (<[i := p']> ts).
Proof.
  intros Hc Hi Hp Hp'. apply Forall_lookup_2. intros j q Hj.
  destruct (decide (i = j)) as [<-|Hij].
  - rewrite list_lookup_insert_eq in Hj by (by eapply lookup_lt_Some). by simplify_eq.
  - rewrite list_lookup_insert_ne in Hj by done.
    destruct (holds q) eqn:Hq; [|by destruct q].
    pose proof (cnt_two holds ts i j p q Hij Hi Hj Hp Hq). lia.
Qed.

Ltac rw_counts Hi :=
  match goal with
  | Hc : cnt holds ?ts ≤ 1 |- _ =>
    try (pose proof (cnt_holder counted ts _ _ Hc Hi eq_refl);
         pose proof (cnt_holder inside ts _ _ Hc Hi eq_refl);
         pose proof (cnt_pos holds ts _ _ Hi eq_refl));
    try pose proof (cnt_pos writing ts _ _ Hi eq_refl);
    try pose proof (cnt_pos inside ts _ _ Hi eq_refl)
  end.

Lemma rw_inv_step c c' :
  Z.of_nat (length c.2) < 2 ^ 16 → rw_inv c → rw_step c c' → rw_inv c'.
Proof.
  intros Hn Hinv Hs. destruct Hs as [i p p' m m' ts Hi Ht].
  destruct Hinv as (HL & HL1 & HR & HW & HW1 & HF). simpl in Hn.
  pose proof (cnt_nonneg writing ts). pose proof (cnt_nonneg inside ts).
  pose proof (cnt_nonneg resting ts). pose proof (cnt_nonneg counted ts).
  assert (Hc : cnt holds ts ≤ 1) by lia.
  assert (Hcs : cnt counted ts = cnt resting ts + cnt (λ p, counted p && holds p) ts).
  { apply cnt_split; intros []; simpl; auto. }
  assert (His : cnt inside ts = cnt resting ts + cnt (λ p, inside p && holds p) ts).
  { apply cnt_split; intros []; simpl; auto. }
  pose proof (cnt_le counted (<[i := p']> ts)) as Hle.
  rewrite (cnt_insert _ ts i p p' Hi), length_insert in Hle.
  pose proof (Forall_lookup_1 _ _ _ _ HF Hi) as Hlp.
  unfold rw_inv. rewrite !(cnt_insert _ ts i p p' Hi).
  destruct Ht; rw_counts Hi; simplify_eq/=; rewrite ?u16_small by lia;
    split_and!; try lia;
    try (eapply local_ok_step; [| |exact HF]; simpl; by (done || lia)).
  all: eapply local_ok_holder; [lia|exact Hi|done|done].
Qed.

(** The states the lock and its [n] clients can reach. *)
Definition rw_reachable (n : nat) (c : rw_mem * list pc) : Prop :=
  rtc rw_step (rw_init n) c.

Lemma rw_reachable_inv n c :
  Z.of_nat n < 2 ^ 16 → rw_reachable n c → rw_inv c ∧ length c.2 = n.
Proof.
  intros Hn. revert c. apply rtc_ind_r.
  - split; [apply rw_inv_init|]. apply length_replicate.
  - intros c c' _ Hs [IH Hl]. split; [eapply rw_inv_step; [|done..]; by rewrite Hl|].
    destruct Hs. simpl in *. by rewrite length_insert.
Qed.

(** ** Properties *)

(** C31: Mutual exclusion of the read-write lock: in every reachable state of
    any number (below 2^16, the width of [readers]) of threads that lock and
    unlock in any interleaving, a thread that is writing is the only thread
    that is reading or writing. *)
Theorem rwlock_exclusion n m ts i j q :
  Z.of_nat n < 2 ^ 16 → rw_reachable n (m, ts) →
  ts !! i = Some Writing → ts !! j = Some q → q = Reading ∨ q = Writing → i = j.
Proof.
  intros Hn Hr Hi Hj Hq. apply rw_reachable_inv in Hr as [(_&_&_&HW&HW1&_) _]; [|done].
  pose proof (cnt_nonneg inside ts). pose proof (cnt_pos writing ts i _ Hi eq_refl).
  destruct Hq as [->| ->].
  - pose proof (cnt_pos inside ts j _ Hj eq_refl). lia.
  - destruct (decide (i = j)) as [|Hij]; [done|].
    pose proof (cnt_two writing ts i j _ _ Hij Hi Hj eq_refl eq_refl). lia.
Qed.

Lemma rwlock_exclusion_witness :
  rw_reachable 2 (RwMem 0 1 0, [Writing; W0]) ∧ 0%nat = 0%nat.
Proof.
  assert (Hr : rw_reachable 2 (RwMem 0 1 0, [Writing; W0])).
  { unfold rw_reachable, rw_init. simpl.
    eapply rtc_l; [apply (rw_step_thread 0 Idle W0); [done|apply s_call_w]|].
    eapply rtc_l; [apply (rw_step_thread 1 Idle W0); [done|apply s_call_w]|].
    eapply rtc_l; [apply (rw_step_thread 0 W0 Writing); [done|by apply s_w_tas]|].
    apply rtc_refl. }
  split; [exact Hr|].
  apply (rwlock_exclusion 2 (RwMem 0 1 0) [Writing; W0] 0 0 Writing); try done; auto.
Defined.

Lemma run_app tf c1 tr1 c2 tr2 c3 : tick_run tf c1 tr1 c2 → tick_run tf c2 tr2 c3 → tick_run tf c1 (tr1 ++ tr2) c3.
Proof. induction 1; [done|]. intros H2. cbn. econstructor; eauto. Qed.
Lemma times_app x tr1 tr2 : times x (tr1 ++ tr2) = times x tr1 + times x tr2.
Proof. unfold times. rewrite filter_app, length_app. lia. Qed.

(** A round of one thread that nobody interrupts. *)
Lemma round_run tf i k ts : ts !! i = Some TSpin →
  let won := turn k =? ticket k in
  tick_run tf (k, ts) [(i, Quiet); (i, if won then Win else Miss)] (Ticklock (u32 (ticket k + 1)) (turn k), <[i := if won then THeld else TSpin]> ts).
Proof.
  intros Hi won. assert (i < length ts)%nat by (by eapply lookup_lt_Some). destruct tf.
  - eapply run_step; [exact Hi|by apply t_turn|]. eapply run_step; [by apply list_lookup_insert_eq| |rewrite list_insert_insert_eq; apply run_nil].
    subst won. destruct (Z.eqb_spec (turn k) (ticket k)); [by apply t_turn_win|by apply t_turn_miss].
  - eapply run_step; [exact Hi|by apply t_ticket|]. eapply run_step; [by apply list_lookup_insert_eq| |rewrite list_insert_insert_eq; apply run_nil].
    subst won. destruct (Z.eqb_spec (turn k) (ticket k)); [by apply t_ticket_win|by apply t_ticket_miss].
Qed.

(** Thread 0 spins until the ticket counter has come round to [t] again. *)
Lemma spin_round tf t : 0 ≤ t < 2 ^ 32 → ∀ (m : nat) j, 1 ≤ j → j + Z.of_nat m = 2 ^ 32 →
  ∃ tr, tick_run tf (Ticklock (u32 (t + j)) t, [TSpin; TIdle]) tr (Ticklock t t, [TSpin; TIdle]) ∧
    times (0%nat, Miss) tr = Z.of_nat m ∧ times (0%nat, Win) tr = 0 ∧ times (1%nat, Win) tr = 0.
Proof.
  intros Ht. induction m as [|m IH]; intros j Hj Hm.
  - exists []. split; [|done]. replace (u32 (t + j)) with t; [apply run_nil|]. unfold u32. replace (t + j) with (t + 1 * 2 ^ 32) by lia.
    rewrite Z.mod_add, Z.mod_small by lia. done.
  - destruct (IH (j + 1) ltac:(lia) ltac:(lia)) as (tr & Hr & H1 & H2 & H3).
    pose proof (round_run tf 0 (Ticklock (u32 (t + j)) t) [TSpin; TIdle] eq_refl) as Hround. cbn [turn ticket] in Hround.
    rewrite (proj2 (Z.eqb_neq t (u32 (t + j)))) in Hround.
    + assert (u32 (u32 (t + j) + 1) = u32 (t + (j + 1))) as E by (unfold u32; rewrite Zplus_mod_idemp_l; f_equal; lia). rewrite E in Hround. cbn in Hround.
      exists ([(0%nat, Quiet); (0%nat, Miss)] ++ tr). split; [by eapply run_app|]. rewrite !times_app, H1, H2, H3.
      change (times (0%nat, Miss) [(0%nat, Quiet); (0%nat, Miss)]) with 1. change (times (0%nat, Win) [(0%nat, Quiet); (0%nat, Miss)]) with 0.
      change (times (1%nat, Win) [(0%nat, Quiet); (0%nat, Miss)]) with 0. lia.
    + unfold u32. intros E. destruct (Z_lt_le_dec (t + j) (2 ^ 32)); [rewrite Z.mod_small in E by lia; lia|].
      replace (t + j) with (t + j - 2 ^ 32 + 1 * 2 ^ 32) in E by lia. rewrite Z.mod_add, Z.mod_small in E by lia. lia.
Qed.

(** Thread 1 takes and releases the lock once, thread 0 spins all the way round. *)
Lemma starve_once tf k : 0 ≤ k < 2 ^ 32 → ∃ tr,
  tick_run tf (Ticklock k k, [TSpin; TIdle]) tr (Ticklock (u32 (k + 1)) (u32 (k + 1)), [TSpin; TIdle]) ∧
  times (0%nat, Miss) tr = 2 ^ 32 ∧ times (0%nat, Win) tr = 0 ∧ times (1%nat, Win) tr = 1.
Proof.
  intros Hk. set (t := u32 (k + 1)). assert (0 ≤ t < 2 ^ 32) as Ht by apply u32_range.
  assert (t ≠ k) as Hne.
  { unfold t, u32. destruct (decide (k = 2 ^ 32 - 1)) as [->|]; [by vm_compute|]. rewrite Z.mod_small; lia. }
  destruct (spin_round tf t Ht (Z.to_nat (2 ^ 32 - 1)) 1 ltac:(lia) ltac:(lia)) as (tr & Hr & H1 & H2 & H3).
  pose proof (round_run tf 1 (Ticklock k k) [TSpin; TSpin] eq_refl) as Hwin. cbn [turn ticket] in Hwin. rewrite Z.eqb_refl in Hwin. cbn in Hwin. fold t in Hwin.
  pose proof (round_run tf 0 (Ticklock t k) [TSpin; THeld] eq_refl) as Hmiss. cbn [turn ticket] in Hmiss. rewrite (proj2 (Z.eqb_neq k t)) in Hmiss by congruence. cbn in Hmiss.
  exists ((1%nat, Quiet) :: [(1%nat, Quiet); (1%nat, Win)] ++ [(0%nat, Quiet); (0%nat, Miss)] ++ (1%nat, Quiet) :: tr). split.
  - eapply run_step; [reflexivity|apply t_call|]. eapply run_app; [exact Hwin|]. eapply run_app; [exact Hmiss|].
    eapply run_step; [reflexivity|apply t_unlock|]. exact Hr.
  - unfold times in *. rewrite !filter_cons. cbn [app]. repeat (rewrite filter_cons; destruct (decide _); try congruence). cbn [length]. rewrite Z2Nat.id in H1 by lia. lia.
Qed.

(** C40: The ticket lock is not fair, whatever order the compiler chooses for its condition:
    the waiter draws a new ticket in every round.  For every [n] there is a run of two
    threads in which one of them waits from the start, fails [n * 2^32] times and never
    gets the lock, while the other one takes it [n] times. *)
Theorem ticklock_starves turn_first (n : nat) : ∃ tr c,
  tick_run turn_first (ticklock_init, [TSpin; TIdle]) tr c ∧ c.2 !! 0%nat = Some TSpin ∧
  times (0%nat, Win) tr = 0 ∧ times (1%nat, Win) tr = Z.of_nat n ∧ times (0%nat, Miss) tr = Z.of_nat n * 2 ^ 32.
Proof.
  assert (∃ tr k, 0 ≤ k < 2 ^ 32 ∧ tick_run turn_first (ticklock_init, [TSpin; TIdle]) tr (Ticklock k k, [TSpin; TIdle]) ∧
    times (0%nat, Win) tr = 0 ∧ times (1%nat, Win) tr = Z.of_nat n ∧ times (0%nat, Miss) tr = Z.of_nat n * 2 ^ 32) as (tr & k & _ & Hr & H); [|by exists tr; eexists].
  induction n as [|n (tr & k & Hk & Hr & H1 & H2 & H3)]; [exists [], 0; split_and!; try lia; try done; apply run_nil|].
  destruct (starve_once turn_first k Hk) as (tr' & Hr' & M1 & M2 & M3). exists (tr ++ tr'), (u32 (k + 1)).
  split; [apply u32_range|]. split; [by eapply run_app|]. rewrite !times_app. lia.
Qed.
