(* ===== verification/Page.v ===== *)
(** * The page descriptor (include/mm/page.h)

    [struct page] with the flags of its users: the page allocator, the slab
    allocator and the page cache.  A page is named by its index in the array
    [allocator.pages]; its list node is the location [Pg i].  The two members
    of the anonymous union ([slab] and [pageCache]) are never used at the same
    time and are two fields here. *)

From S2P Require Import Prelude QLib Locks.
From Stdlib Require Import ZArith Lia.
From stdpp Require Import base gmap countable numbers.
Open Scope Z_scope.

Definition PG_HEAD_BIT : Z := 0.
Definition PG_CACHE_BIT : Z := 5.
Definition PG_SLAB_BIT : Z := 6.
Definition PG_Head : Z := 1.
Definition PG_Tail : Z := 0.
Definition PG_Hole : Z := 0.
Definition PG_Page : Z := 2.
Definition PG_DIRTY : Z := 4.
Definition PG_VALID : Z := 8.
Definition PG_CACHE : Z := 16.
Definition PG_SLAB : Z := 32.
Definition SECTOR_SIZE : Z := 512.
Definition BUF_SIZE : Z := PAGE_SIZE.
Definition PAGE_MAGIC : Z := 0x265ef118.

(** [struct slabInfo]; [chunk] is the address of the first free chunk, 0 for NULL. *)
Record slabInfo := SlabInfo {
  chunk : Z; chunk_size : Z; n_allocated : Z; slab_magic : Z }.

(** [struct pageCache] without its queue node. *)
Record pageCache := PageCache { timestamp : Z; no_secs : Z }.

Record page := MkPage {
  pg_size : Z;         (* bytes managed by this page *)
  pg_flag : Z;
  ref_cnt : Z;
  pg_data : Z;         (* virtual address, 0 for NULL *)
  pg_magic : Z;
  pg_slab : slabInfo;
  pg_cache : pageCache;
  pg_rwlock : rwlock_t }.

Definition is_slab (p : page) : bool := truth (Z.land (pg_flag p) PG_SLAB).
Definition page_head (p : page) : bool := truth (Z.land (pg_flag p) PG_Head).

(** Field assignments. *)
Definition put_size (v : Z) (p : page) : page :=
  MkPage v (pg_flag p) (ref_cnt p) (pg_data p) (pg_magic p) (pg_slab p) (pg_cache p) (pg_rwlock p).
Definition put_flag (v : Z) (p : page) : page :=
  MkPage (pg_size p) v (ref_cnt p) (pg_data p) (pg_magic p) (pg_slab p) (pg_cache p) (pg_rwlock p).
Definition put_ref_cnt (v : Z) (p : page) : page :=
  MkPage (pg_size p) (pg_flag p) v (pg_data p) (pg_magic p) (pg_slab p) (pg_cache p) (pg_rwlock p).
Definition put_data (v : Z) (p : page) : page :=
  MkPage (pg_size p) (pg_flag p) (ref_cnt p) v (pg_magic p) (pg_slab p) (pg_cache p) (pg_rwlock p).
Definition put_magic (v : Z) (p : page) : page :=
  MkPage (pg_size p) (pg_flag p) (ref_cnt p) (pg_data p) v (pg_slab p) (pg_cache p) (pg_rwlock p).
Definition put_slab (v : slabInfo) (p : page) : page :=
  MkPage (pg_size p) (pg_flag p) (ref_cnt p) (pg_data p) (pg_magic p) v (pg_cache p) (pg_rwlock p).
Definition put_cache (v : pageCache) (p : page) : page :=
  MkPage (pg_size p) (pg_flag p) (ref_cnt p) (pg_data p) (pg_magic p) (pg_slab p) v (pg_rwlock p).
Definition put_rwlock (v : rwlock_t) (p : page) : page :=
  MkPage (pg_size p) (pg_flag p) (ref_cnt p) (pg_data p) (pg_magic p) (pg_slab p) (pg_cache p) v.

(** [flag |= PG_Head] and [CLEAR_BIT(flag, PG_HEAD_BIT)]. *)
Lemma page_head_set f : truth (Z.land (Z.lor f PG_Head) PG_Head) = true.
Proof.
  apply truth_true. rewrite Z.land_lor_distr_l, Z.land_diag. unfold PG_Head. intros E.
  apply Z.lor_eq_0_iff in E as [_ E]. done.
Qed.

Lemma page_head_or f g :
  truth (Z.land f PG_Head) = true → truth (Z.land (Z.lor f g) PG_Head) = true.
Proof.
  rewrite !truth_true. intros Hf E. apply Hf. rewrite Z.land_lor_distr_l in E.
  by apply Z.lor_eq_0_iff in E as [E _].
Qed.

Lemma page_head_clear f :
  truth (Z.land (CLEAR_BIT 16 f PG_HEAD_BIT) PG_Head) = false.
Proof.
  apply truth_false. unfold CLEAR_BIT. rewrite <-Z.land_assoc.
  replace (Z.land (Z.lnot (Z.shiftl 1 PG_HEAD_BIT) mod 2 ^ 16) PG_Head) with 0 by reflexivity.
  apply Z.land_0_r.
Qed.
