(* ===== verification/PageAlloc.v ===== *)
(** * The physical page allocator (mm/page_alloc.c)

    A buddy allocator over the array [pages]: [root[o]] is the list of the free
    blocks of [2^o] pages.  The state is the array (a map from index to
    descriptor), the memory of the list nodes and the fields of
    [struct buddyAllocator]; a [struct page *] is an index of the array. *)

From S2P Require Import Prelude QLib DList Locks Page.
From Stdlib Require Import ZArith Lia.
From stdpp Require Import base countable numbers gmap list.
Open Scope Z_scope.

Definition MAX_ORDER : Z := 10.
Definition ORDER_SIZE (order : Z) : Z := u32 (Z.shiftl (Z.shiftl 1 order) 12).
Definition ORDER_CNT (order : Z) : Z := Z.shiftl 1 order.

(** The locations of list nodes: [allocator.root[i]] and [allocator.pages[i].head],
    and the list headers of the slab allocator, which links page descriptors into
    lists of its own (mm/slab.c): [slab[i]], [full_slab], [cache], and the nodes
    [head], [cache_list] and [full_list] of slab cache [c]. *)
Inductive bnode :=
  | Root (i : Z) | Pg (i : Z)
  | SlabHd (i : Z) | SlabFull | SlabCaches
  | CacheHead (c : Z) | CacheList (c : Z) | CacheFull (c : Z).

#[export] Instance bnode_eq_dec : EqDecision bnode.
Proof. solve_decision. Defined.
#[export] Instance bnode_countable : Countable bnode.
Proof.
  apply (inj_countable'
    (λ n, match n with
          | Root i => (0%nat, i) | Pg i => (1%nat, i) | SlabHd i => (2%nat, i)
          | SlabFull => (3%nat, 0) | SlabCaches => (4%nat, 0)
          | CacheHead c => (5%nat, c) | CacheList c => (6%nat, c) | CacheFull c => (7%nat, c) end)
    (λ s, match s with
          | (0%nat, i) => Root i | (1%nat, i) => Pg i | (2%nat, i) => SlabHd i
          | (3%nat, _) => SlabFull | (4%nat, _) => SlabCaches
          | (5%nat, c) => CacheHead c | (6%nat, c) => CacheList c | (_, c) => CacheFull c end)).
  by intros [].
Defined.

Record buddyAllocator := Buddy {
  heap : gmap bnode (list_head bnode);
  pages : gmap Z page;
  a_lock : spinlock_t;
  a_addr : Z;
  a_size : Z;
  pageCnt : Z }.

Definition with_heap (h : gmap bnode (list_head bnode)) (s : buddyAllocator) :=
  Buddy h (pages s) (a_lock s) (a_addr s) (a_size s) (pageCnt s).
Definition with_pages (m : gmap Z page) (s : buddyAllocator) :=
  Buddy (heap s) m (a_lock s) (a_addr s) (a_size s) (pageCnt s).
Definition with_lock (l : spinlock_t) (s : buddyAllocator) :=
  Buddy (heap s) (pages s) l (a_addr s) (a_size s) (pageCnt s).
Definition with_addr (a : Z) (s : buddyAllocator) :=
  Buddy (heap s) (pages s) (a_lock s) a (a_size s) (pageCnt s).
Definition with_size (z : Z) (s : buddyAllocator) :=
  Buddy (heap s) (pages s) (a_lock s) (a_addr s) z (pageCnt s).
Definition with_pageCnt (n : Z) (s : buddyAllocator) :=
  Buddy (heap s) (pages s) (a_lock s) (a_addr s) (a_size s) n.

(** Access to the fields through the pointers of the source. *)
Definition on_list {A} (m : M (gmap bnode (list_head bnode)) A) : M buddyAllocator A :=
  zoom heap with_heap m.
Definition read_page (i : Z) : M buddyAllocator page := s ← get; deref (pages s !! i).
Definition upd_page (i : Z) (f : page → page) : M buddyAllocator unit :=
  p ← read_page i; modify (λ s, with_pages (<[i := f p]> (pages s)) s).
Definition lift_res {S A} (r : res A) : M S A :=
  λ s, match r with Ok a => Ok (a, s) | Err e => Err e end.
Definition lock_allocator : M buddyAllocator unit :=
  s ← get; l ← lift_res (spinlock_lock (a_lock s)); modify (with_lock l).
Definition unlock_allocator : M buddyAllocator unit :=
  modify (λ s, with_lock (spinlock_unlock (a_lock s)) s).
Definition log2_ {S} (v : Z) : M S Z :=
  match log2 v with Some k => mret k | None => fail Fuel end.

(** ** Initialisation *)

(** The inner loops of [page_setup]: [ORDER_CNT(i)] pages become [PG_Page]. *)
Definition setup_block (i orderSize page : Z) : M buddyAllocator Z :=
  upd_page page (λ p, put_flag (Z.lor (pg_flag p) PG_Head) p);;
  upd_page page (put_size orderSize);;
  on_list (list_add_prev (Pg page) (Root i));;
  for_up (Z.to_nat (ORDER_CNT i)) page
    (λ k, upd_page k (λ p, put_flag (Z.lor (pg_flag p) PG_Page) p));;
  mret (page + ORDER_CNT i).

Fixpoint setup_blocks (cnt : nat) (i orderSize page : Z) : M buddyAllocator Z :=
  match cnt with
  | O => mret page
  | S c => page' ← setup_block i orderSize page; setup_blocks c i orderSize page'
  end.

(** [for (int i = MAX_ORDER; size > 0 && i >= 0; --i)], [i] = [Z.of_nat n - 1]. *)
Fixpoint setup_orders (n : nat) (size page : Z) : M buddyAllocator Z :=
  match n with
  | O => mret page
  | S n' =>
      if negb (0 <? size) then mret page
      else
        let i := Z.of_nat n' in
        let orderSize := ORDER_SIZE i in
        if size <? orderSize then setup_orders n' size page
        else page' ← setup_blocks (Z.to_nat (size / orderSize)) i orderSize page;
             setup_orders n' (size mod orderSize) page'
  end.

Definition page_setup (pages0 addr size : Z) : M buddyAllocator Z :=
  s ← get;
  let reSize := u32 (pageCnt s - pages0) in
  assertk (Z.shiftr size 12 <=? reSize);;
  let size' := PAGE_CEIL (u32 (size - u32 (PAGE_FLOOR addr - addr))) in
  page ← setup_orders (Z.to_nat (MAX_ORDER + 1)) size' pages0;
  modify (λ s, with_size (u32 (a_size s + Z.shiftl (page - pages0) 12)) s);;
  mret page.

(** The loop of [pmm_init] over one page. *)
Definition init_page (i : Z) : M buddyAllocator unit :=
  upd_page i (put_flag (Z.lor PG_Hole PG_Tail));;
  upd_page i (put_ref_cnt 0);;
  upd_page i (put_size 0);;
  upd_page i (put_magic PAGE_MAGIC);;
  upd_page i (put_rwlock rwlock_init);;
  on_list (list_header_init (Pg i)).

Fixpoint setup_regions (regions : list (Z * Z)) (page : Z) : M buddyAllocator Z :=
  match regions with
  | [] => mret page
  | (addr, size) :: rest =>
      page' ← page_setup page addr size; setup_regions rest page'
  end.

(** [pmm_init]: [block_start] is the result of [block_start()] and [regions]
    the (addr, size) pairs of the list [blockAllocator.head], in its order.
    The call of the self test [test_alloc] is left out. *)
Definition pmm_init (block_start : Z) (regions : list (Z * Z)) : M buddyAllocator unit :=
  modify (with_size 0);;
  modify (with_addr (PAGE_FLOOR block_start));;
  s ← get;
  for_up (Z.to_nat (pageCnt s)) 0 init_page;;
  for_up (Z.to_nat (MAX_ORDER + 1)) 0 (λ j, on_list (list_header_init (Root j)));;
  page ← setup_regions regions 0;
  modify (with_pageCnt page);;
  modify (with_lock spinlock_init).

(** ** Addresses *)

Definition page_addr (page : Z) : M buddyAllocator Z :=
  gets (λ s, u32 (a_addr s + u32 (Z.shiftl page 12))).

(** [None] is the NULL pointer. *)
Definition get_page (addr : Z) : M buddyAllocator (option Z) :=
  if negb (Z.land addr PAGE_MASK =? 0) then mret None
  else
    s ← get;
    if addr <? a_addr s then mret None
    else
      let page := Z.shiftr (u32 (addr - a_addr s)) 12 in
      p ← read_page page;
      assertk (pg_magic p =? PAGE_MAGIC);;
      mret (Some page).

Definition get_buddy (page : Z) : M buddyAllocator (option Z) :=
  p ← read_page page;
  let pgCnt := Z.shiftr (pg_size p) 12 in
  if pgCnt =? 0 then fail Fault
  else
    let cnt := page / pgCnt in
    let buddy := if truth (Z.land cnt 1) then page - pgCnt else page + pgCnt in
    s ← get;
    if pageCnt s <=? buddy then mret None else mret (Some buddy).

(** ** Allocation *)

(** [for (u64_t j = i - 1; j >= logSize && j <= MAX_ORDER; j--)]: the upper
    halves go back to the lists of their order. *)
Fixpoint split_loop (fuel : nat) (page j logSize : Z) : M buddyAllocator unit :=
  match fuel with
  | O => fail Fuel
  | S f =>
      if (logSize <=? j) && (j <=? MAX_ORDER) then
        let new := page + ORDER_CNT j in
        p ← read_page new;
        assertk (negb (page_head p));;
        upd_page new (put_size (ORDER_SIZE j));;
        upd_page new (λ p, put_flag (Z.lor (pg_flag p) PG_Head) p);;
        on_list (list_add_prev (Pg new) (Root j));;
        split_loop f page (u64 (j - 1)) logSize
      else mret tt
  end.

(** [for (uint16_t i = logSize; i <= MAX_ORDER; ++i)] up to its [break]. *)
Fixpoint find_block (fuel : nat) (i logSize : Z) : M buddyAllocator (option Z) :=
  match fuel with
  | O => fail Fuel
  | S f =>
      if i <=? MAX_ORDER then
        e ← on_list (list_empty (Root i));
        if e : bool then find_block f (u16 (i + 1)) logSize
        else
          hd ← on_list (get_next (Root i));
          match hd with
          | Pg page =>
              p ← read_page page;
              assertk (page_head p);;
              split_loop 12 page (u64 (i - 1)) logSize;;
              mret (Some page)
          | _ => fail Fault
          end
      else mret None
  end.

Definition __alloc_page (size : Z) : M buddyAllocator Z :=
  let size := fixSize size in
  assertk ((0 <? size) && (size <=? 4 * 0x100000) && (Z.land size PAGE_MASK =? 0));;
  logSize ← log2_ (Z.shiftr size 12);
  lock_allocator;;
  r ← find_block 12 logSize logSize;
  match r with
  | None => fail Assert
  | Some page =>
      modify (λ s, with_size (u32 (a_size s - size)) s);;
      on_list (list_del (Pg page));;
      unlock_allocator;;
      upd_page page (put_size size);;
      upd_page page (put_ref_cnt 1);;
      upd_page page (put_rwlock rwlock_init);;
      mret page
  end.

Definition alloc_page (size : Z) : M buddyAllocator Z :=
  page ← __alloc_page size; page_addr page.

Definition alloc_one_page : M buddyAllocator Z := alloc_page PAGE_SIZE.

(** ** Release *)

(** The merging loop; it ends with the page whose list the block joined. *)
Fixpoint merge_loop (fuel : nat) (page order : Z) : M buddyAllocator Z :=
  match fuel with
  | O => fail Fuel
  | S f =>
      p ← read_page page;
      if (ref_cnt p =? 0) && (order <=? MAX_ORDER) then
        buddy ← get_buddy page;
        stop ← match buddy with
               | None => mret true
               | Some b =>
                   q ← read_page b;
                   mret (negb (ref_cnt q =? 0) || negb (pg_size q =? pg_size p)
                         || (order =? MAX_ORDER))
               end;
        if stop : bool then on_list (list_add_prev (Pg page) (Root order));; mret page
        else
          b ← deref buddy;
          on_list (list_del (Pg b));;
          let tmp := MAX b page in
          let page := MIN b page in
          p ← read_page page;
          assertk (page + Z.shiftr (pg_size p) 12 =? tmp);;
          upd_page tmp (λ q, put_flag (CLEAR_BIT 16 (pg_flag q) PG_HEAD_BIT) q);;
          on_list (list_header_init (Pg tmp));;
          upd_page page (λ p, put_size (u32 (Z.shiftl (pg_size p) 1)) p);;
          merge_loop f page (order + 1)
      else mret page
  end.

Definition __free_page (page : Z) : M buddyAllocator unit :=
  p ← read_page page;
  assertk (0 <? ref_cnt p);;
  assertk (page_head p);;
  l ← lift_res (wlock_lock (pg_rwlock p));
  upd_page page (put_rwlock l);;
  upd_page page (λ p, put_ref_cnt (u16 (ref_cnt p - 1)) p);;
  p ← read_page page;
  if 0 <? ref_cnt p then mret tt
  else
    order ← log2_ (Z.shiftr (pg_size p) 12);
    upd_page page (put_data 0);;
    upd_page page (λ p, put_flag (Z.lor (pg_flag p) (Z.lor PG_Page PG_Head)) p);;
    lock_allocator;;
    page ← merge_loop 12 page order;
    upd_page page (λ p, put_rwlock (wlock_unlock (pg_rwlock p)) p);;
    unlock_allocator.

(** Result 0, or -1 when [addr] has no page. *)
Definition free_page (addr : Z) : M buddyAllocator Z :=
  assertk (Z.land addr PAGE_MASK =? 0);;
  r ← get_page addr;
  match r with
  | None => mret (-1)
  | Some page =>
      p ← read_page page;
      assertk (page_head p);;
      __free_page page;;
      mret 0
  end.
