(* ===== verification/BuddySpec.v ===== *)
(** * The abstract state of the buddy allocator

    A block map [B] gives, for every block of the managed area, the index of its
    first page, its order and its reference count (0 for a free block).  [tiled]
    says that the blocks cut the pages [0, n) into aligned pieces, [coalesced]
    that no two free buddies were left apart.  This file holds the facts on
    block maps that the refinement proof of mm/page_alloc.c uses: how a map
    changes when a block is split, merged, taken or released. *)

From S2P Require Import Prelude.
From Stdlib Require Import ZArith Lia.
From stdpp Require Import base numbers gmap list.
Open Scope Z_scope.

Abbreviation blocks := (gmap Z (Z * Z)).

Definition tiled (n : Z) (B : blocks) : Prop :=
  (∀ i o r, B !! i = Some (o, r) →
     0 ≤ o ≤ 10 ∧ (2 ^ o | i) ∧ 0 ≤ i ∧ i + 2 ^ o ≤ n ∧
     ∀ j, i < j < i + 2 ^ o → B !! j = None) ∧
  (∀ j, 0 ≤ j < n → ∃ i o r, B !! i = Some (o, r) ∧ i ≤ j < i + 2 ^ o).

(** The other half of the block of order [o + 1] that holds block [i]. *)
Definition buddy_of (i o : Z) : Z :=
  if (i / 2 ^ o) mod 2 =? 0 then i + 2 ^ o else i - 2 ^ o.

Definition coalesced (B : blocks) : Prop :=
  ∀ i o, B !! i = Some (o, 0) → o < 10 → B !! buddy_of i o ≠ Some (o, 0).

(** The allocated blocks: what the clients of the allocator own. *)
Definition in_use (B : blocks) : blocks := filter (λ b, b.2.2 ≠ 0) B.

(** Page [j] lies in a free block. *)
Definition page_free (B : blocks) (j : Z) : Prop :=
  ∃ i o, B !! i = Some (o, 0) ∧ i ≤ j < i + 2 ^ o.

(** ** Aligned intervals *)

Lemma aligned_nest i o j o' t :
  0 ≤ o ≤ o' → (2 ^ o | i) → (2 ^ o' | j) →
  i ≤ t < i + 2 ^ o → j ≤ t < j + 2 ^ o' →
  j ≤ i ∧ i + 2 ^ o ≤ j + 2 ^ o'.
Proof.
  intros Ho [a ->] [b ->]. replace o' with ((o' - o) + o) by lia.
  rewrite Z.pow_add_r by lia.
  pose proof (pow2_pos o ltac:(lia)). pose proof (pow2_pos (o' - o) ltac:(lia)).
  set (w := 2 ^ o) in *. set (c := 2 ^ (o' - o)) in *. intros [H1 H2] [H3 H4].
  assert (b * c ≤ a) by nia. assert (a + 1 ≤ b * c + c) by nia. nia.
Qed.

Lemma buddy_cases i o :
  0 ≤ o → (2 ^ o | i) →
  ((2 ^ (o + 1) | i) ∧ buddy_of i o = i + 2 ^ o) ∨
  ((2 ^ (o + 1) | i - 2 ^ o) ∧ buddy_of i o = i - 2 ^ o).
Proof.
  intros Ho [a ->]. unfold buddy_of. rewrite Z.div_mul by (pose proof (pow2_pos o Ho); lia).
  rewrite pow2_succ by done. destruct (Z.eqb_spec (a mod 2) 0) as [E|E].
  - left. split; [|done]. exists (a / 2). pose proof (Z.div_mod a 2). nia.
  - right. split; [|done]. exists (a / 2).
    pose proof (Z.div_mod a 2). pose proof (Z.mod_pos_bound a 2). nia.
Qed.

Lemma buddy_aligned i o : 0 ≤ o → (2 ^ o | i) → (2 ^ o | buddy_of i o).
Proof.
  intros Ho Hi. destruct (buddy_cases i o Ho Hi) as [[_ ->]|[_ ->]].
  - by apply Z.divide_add_r; [|exists 1; lia].
  - by apply Z.divide_sub_r; [|exists 1; lia].
Qed.

(** ** Shape of a tiling *)

Section tiling.
Context (n : Z) (B : blocks) (HT : tiled n B).

Lemma tiled_block i o r :
  B !! i = Some (o, r) → 0 ≤ o ≤ 10 ∧ (2 ^ o | i) ∧ 0 ≤ i ∧ i + 2 ^ o ≤ n.
Proof using HT. intros Hi. apply (proj1 HT) in Hi. tauto. Qed.

Lemma tiled_interior i o r j :
  B !! i = Some (o, r) → i < j < i + 2 ^ o → B !! j = None.
Proof using HT. intros Hi. apply (proj1 HT) in Hi as (_&_&_&_&H). apply H. Qed.

Lemma tiled_disjoint i o r j o' r' :
  B !! i = Some (o, r) → B !! j = Some (o', r') → i ≠ j →
  i + 2 ^ o ≤ j ∨ j + 2 ^ o' ≤ i.
Proof using HT.
  intros Hi Hj Hne. destruct (Z.lt_total i j) as [?|[?|?]]; [|lia|].
  - left. destruct (Z.le_gt_cases (i + 2 ^ o) j) as [?|?]; [done|].
    by rewrite (tiled_interior i o r j Hi) in Hj by lia.
  - right. destruct (Z.le_gt_cases (j + 2 ^ o') i) as [?|?]; [done|].
    by rewrite (tiled_interior j o' r' i Hj) in Hi by lia.
Qed.

(** Two blocks that share a page are the same block. *)
Lemma tiled_same i o r j o' r' t :
  B !! i = Some (o, r) → B !! j = Some (o', r') →
  i ≤ t < i + 2 ^ o → j ≤ t < j + 2 ^ o' → i = j.
Proof using HT.
  intros Hi Hj ??. destruct (decide (i = j)) as [|Hne]; [done|].
  destruct (tiled_disjoint i o r j o' r' Hi Hj Hne); lia.
Qed.

(** The buddy of a block starts a block that is not larger. *)
Lemma tiled_buddy i o r :
  B !! i = Some (o, r) → buddy_of i o < n →
  ∃ o' r', B !! buddy_of i o = Some (o', r') ∧ o' ≤ o.
Proof using HT.
  intros Hi Hb. destruct (tiled_block _ _ _ Hi) as (Ho & Hd & H0 & Hn).
  pose proof (buddy_aligned i o ltac:(lia) Hd) as Hbd.
  pose proof (pow2_pos o ltac:(lia)) as Hp.
  assert (0 ≤ buddy_of i o) as Hb0.
  { destruct (buddy_cases i o ltac:(lia) Hd) as [[_ ->]|[Hdd ->]]; [lia|].
    destruct Hdd as [q Hq]. rewrite pow2_succ in Hq by lia.
    assert (0 ≤ q) by nia. nia. }
  destruct (proj2 HT _ (conj Hb0 Hb)) as (j & o' & r' & Hj & Hjb).
  destruct (tiled_block _ _ _ Hj) as (Ho' & Hd' & Hj0 & Hjn).
  destruct (Z.le_gt_cases o' o) as [Hle|Hgt].
  - (* the block of the buddy's first page nests in the buddy *)
    pose proof (aligned_nest j o' (buddy_of i o) o (buddy_of i o) ltac:(lia) Hd' Hbd Hjb ltac:(lia)).
    assert (j = buddy_of i o) as <- by lia. eauto.
  - (* a larger block would contain block [i] too *)
    exfalso. destruct (buddy_cases i o ltac:(lia) Hd) as [[Hdd Eb]|[Hdd Eb]].
    + pose proof (aligned_nest i (o + 1) j o' (buddy_of i o) ltac:(lia) Hdd Hd') as Hx.
      rewrite pow2_succ in Hx by lia. specialize (Hx ltac:(lia) Hjb).
      destruct (decide (i = j)) as [->|Hne]; [simplify_eq; lia|].
      destruct (tiled_disjoint _ _ _ _ _ _ Hi Hj Hne); lia.
    + pose proof (aligned_nest (i - 2 ^ o) (o + 1) j o' (buddy_of i o) ltac:(lia) Hdd Hd') as Hx.
      rewrite pow2_succ in Hx by lia. specialize (Hx ltac:(lia) Hjb).
      destruct (decide (i = j)) as [->|Hne]; [simplify_eq; lia|].
      destruct (tiled_disjoint _ _ _ _ _ _ Hi Hj Hne); lia.
Qed.
End tiling.

(** ** How a block map changes *)

Lemma tiled_ref n B x o r r' :
  tiled n B → B !! x = Some (o, r) → tiled n (<[x := (o, r')]> B).
Proof.
  intros HT Hx. split.
  - intros i o1 r1. rewrite lookup_insert_Some. intros Hi.
    assert (∃ r0, B !! i = Some (o1, r0)) as [r0 Hi0] by naive_solver.
    destruct (tiled_block _ _ HT _ _ _ Hi0) as (?&?&?&?). split_and!; try lia; [done|].
    intros j Hj. pose proof (tiled_interior _ _ HT _ _ _ _ Hi0 Hj) as Hn.
    rewrite lookup_insert_ne; [done|]. intros ->. congruence.
  - intros j Hj. destruct (proj2 HT j Hj) as (i & o1 & r1 & Hi & Hr).
    destruct (decide (i = x)) as [->|Hne].
    + exists x, o, r'. rewrite lookup_insert_eq. by simplify_eq.
    + exists i, o1, r1. by rewrite lookup_insert_ne.
Qed.

Lemma tiled_split n B x o r r' :
  tiled n B → B !! x = Some (o + 1, r) → 0 ≤ o →
  tiled n (<[x + 2 ^ o := (o, r')]> (<[x := (o, r)]> B)).
Proof.
  intros HT Hx Ho. pose proof (pow2_pos o Ho) as Hp. pose proof (pow2_succ o Ho) as Hs.
  destruct (tiled_block _ _ HT _ _ _ Hx) as (Hr & Hd & H0 & Hn).
  assert ((2 ^ o | x)) as Hd0 by (etrans; [apply (pow2_divide o (o + 1)); lia|done]).
  split.
  - intros i o1 r1. rewrite !lookup_insert_Some.
    intros [[<- [= <- <-]]|[Hi1 [[<- [= <- <-]]|[Hi2 Hi]]]].
    + split_and!; try lia; [by apply Z.divide_add_r; [|exists 1; lia]|].
      intros j Hj. rewrite !lookup_insert_ne by lia.
      apply (tiled_interior _ _ HT _ _ _ _ Hx). lia.
    + split_and!; try lia; [done|]. intros j Hj. rewrite !lookup_insert_ne by lia.
      apply (tiled_interior _ _ HT _ _ _ _ Hx). lia.
    + destruct (tiled_block _ _ HT _ _ _ Hi) as (?&?&?&?). split_and!; try lia; [done|].
      intros j Hj. destruct (tiled_disjoint _ _ HT _ _ _ _ _ _ Hi Hx ltac:(done));
        rewrite !lookup_insert_ne by lia; by apply (tiled_interior _ _ HT _ _ _ _ Hi).
  - intros j Hj. destruct (proj2 HT j Hj) as (i & o1 & r1 & Hi & Hij).
    destruct (decide (i = x)) as [->|Hne].
    + simplify_eq. destruct (Z.lt_ge_cases j (x + 2 ^ o)) as [?|?].
      * exists x, o, r. rewrite lookup_insert_ne, lookup_insert_eq by lia. split; [done|lia].
      * exists (x + 2 ^ o), o, r'. rewrite lookup_insert_eq. split; [done|lia].
    + exists i, o1, r1. rewrite !lookup_insert_ne; [done|done|].
      intros <-. rewrite (tiled_interior _ _ HT _ _ _ _ Hx) in Hi by lia. done.
Qed.

Lemma tiled_merge n B x o r r' r'' :
  tiled n B → B !! x = Some (o, r) → B !! (x + 2 ^ o) = Some (o, r') →
  (2 ^ (o + 1) | x) → o < 10 →
  tiled n (<[x := (o + 1, r'')]> (delete (x + 2 ^ o) B)).
Proof.
  intros HT Hx Hy Hd Ho10. destruct (tiled_block _ _ HT _ _ _ Hx) as (Ho & _ & H0 & Hn).
  destruct (tiled_block _ _ HT _ _ _ Hy) as (_ & _ & _ & Hyn).
  pose proof (pow2_pos o ltac:(lia)) as Hp. pose proof (pow2_succ o ltac:(lia)) as Hs.
  split.
  - intros i o1 r1. rewrite lookup_insert_Some, lookup_delete_Some.
    intros [[<- [= <- <-]]|[Hi1 [Hi2 Hi]]].
    + split_and!; try lia; [done|]. intros j Hj. rewrite lookup_insert_ne by lia.
      apply lookup_delete_None. destruct (decide (x + 2 ^ o = j)) as [|]; [by left|right].
      destruct (Z.lt_ge_cases j (x + 2 ^ o));
        [apply (tiled_interior _ _ HT _ _ _ _ Hx)|apply (tiled_interior _ _ HT _ _ _ _ Hy)]; lia.
    + destruct (tiled_block _ _ HT _ _ _ Hi) as (?&?&?&?). split_and!; try lia; [done|].
      intros j Hj. pose proof (tiled_interior _ _ HT _ _ _ _ Hi Hj) as Hjn.
      rewrite lookup_insert_ne by congruence. apply lookup_delete_None. by right.
  - intros j Hj. destruct (proj2 HT j Hj) as (i & o1 & r1 & Hi & Hij).
    destruct (decide (i = x)) as [->|Hx'].
    { exists x, (o + 1), r''. rewrite lookup_insert_eq. simplify_eq. split; [done|lia]. }
    destruct (decide (i = x + 2 ^ o)) as [->|Hy'].
    { exists x, (o + 1), r''. rewrite lookup_insert_eq. simplify_eq. split; [done|lia]. }
    exists i, o1, r1. by rewrite lookup_insert_ne, lookup_delete_ne by done.
Qed.

(** *** Coalescing *)

Lemma buddy_invol i o : 0 ≤ o → (2 ^ o | i) → buddy_of (buddy_of i o) o = i.
Proof.
  intros Ho Hi. pose proof (pow2_pos o Ho) as Hp. destruct Hi as [a ->].
  assert (∀ b, buddy_of (b * 2 ^ o) o = (if b mod 2 =? 0 then b + 1 else b - 1) * 2 ^ o) as E.
  { intros b. unfold buddy_of. rewrite Z.div_mul by lia. destruct (_ =? 0); lia. }
  rewrite !E. f_equal.
  destruct (Z.eqb_spec (a mod 2) 0); case_match; Z.div_mod_to_equations; lia.
Qed.

Lemma coalesced_sub B B' :
  (∀ i o, B' !! i = Some (o, 0) → B !! i = Some (o, 0)) → coalesced B → coalesced B'.
Proof. intros Hs HC i o Hi Ho Hb. apply (HC i o); auto. Qed.

Lemma coalesced_add n B y o r :
  tiled n B → coalesced B → B !! y = Some (o, r) →
  (o < 10 → B !! buddy_of y o ≠ Some (o, 0)) →
  coalesced (<[y := (o, 0)]> B).
Proof.
  intros HT HC Hy Hb i o1. destruct (tiled_block _ _ HT _ _ _ Hy) as (Ho & Hd & _).
  rewrite !lookup_insert_Some. intros [[<- [= <-]]|[Hne Hi]] Ho1.
  - intros [[E _]|[_ E]]; [|by apply Hb].
    pose proof (pow2_pos o ltac:(lia)).
    destruct (buddy_cases y o ltac:(lia) Hd) as [[_ ?]|[_ ?]]; lia.
  - intros [[E [= <-]]|[_ E]]; [|by apply (HC i o1 Hi Ho1)].
    destruct (tiled_block _ _ HT _ _ _ Hi) as (_ & Hdi & _).
    apply Hb; [done|]. by rewrite E, buddy_invol by (done || lia).
Qed.

Lemma buddy_upper x o : 0 ≤ o → (2 ^ (o + 1) | x) → buddy_of (x + 2 ^ o) o = x.
Proof.
  intros Ho [a ->]. pose proof (pow2_pos o Ho). unfold buddy_of.
  replace (a * 2 ^ (o + 1) + 2 ^ o) with ((2 * a + 1) * 2 ^ o) by (rewrite pow2_succ; lia).
  rewrite Z.div_mul, pow2_succ by lia. destruct (Z.eqb_spec ((2 * a + 1) mod 2) 0) as [E|E].
  - Z.div_mod_to_equations. lia.
  - lia.
Qed.

Lemma coalesced_split n B x o :
  tiled n B → coalesced B → B !! x = Some (o + 1, 1) → 0 ≤ o →
  coalesced (<[x + 2 ^ o := (o, 0)]> (<[x := (o, 1)]> B)).
Proof.
  intros HT HC Hx Ho. destruct (tiled_block _ _ HT _ _ _ Hx) as (_ & Hd & _).
  pose proof (pow2_pos o Ho). pose proof (tiled_split n B x o 1 1 HT Hx Ho) as HT1.
  rewrite <-(insert_insert_eq _ (x + 2 ^ o) (o, 0) (o, 1)).
  eapply coalesced_add; [exact HT1| |by rewrite lookup_insert_eq|].
  - eapply coalesced_sub; [|exact HC]. intros i o1. rewrite !lookup_insert_Some. naive_solver.
  - intros _. rewrite buddy_upper, lookup_insert_ne, lookup_insert_eq by (done || lia). done.
Qed.

(** With free buddies merged, a free aligned run of pages lies in one free block. *)
Lemma coalesced_run n B k a :
  tiled n B → coalesced B → (k ≤ 10)%nat → (2 ^ Z.of_nat k | a) →
  (∀ j, a ≤ j < a + 2 ^ Z.of_nat k → page_free B j) →
  ∃ i o, B !! i = Some (o, 0) ∧ Z.of_nat k ≤ o ∧ i ≤ a < i + 2 ^ o.
Proof.
  intros HT HC. revert a. induction k as [|k IH]; intros a Hk Hd Hf.
  { destruct (Hf a ltac:(simpl; lia)) as (i & o & Hi & Hr).
    exists i, o. destruct (tiled_block _ _ HT _ _ _ Hi) as (?&_). split_and!; (done || lia). }
  replace (Z.of_nat (S k)) with (Z.of_nat k + 1) in * by lia.
  rewrite pow2_succ in Hf by lia. pose proof (pow2_pos (Z.of_nat k) ltac:(lia)) as Hp.
  assert ((2 ^ Z.of_nat k | a)) as Hd1
    by (etrans; [apply (pow2_divide (Z.of_nat k) (Z.of_nat k + 1)); lia|done]).
  destruct (IH a ltac:(lia) Hd1) as (i & o & Hi & Hko & Hia); [intros; apply Hf; lia|].
  destruct (Z.eq_dec o (Z.of_nat k)) as [->|?]; [|exists i, o; split_and!; (done || lia)].
  destruct (IH (a + 2 ^ Z.of_nat k) ltac:(lia)) as (i' & o' & Hi' & Hko' & Hia').
  { by apply Z.divide_add_r; [|exists 1; lia]. } { intros; apply Hf; lia. }
  destruct (tiled_block _ _ HT _ _ _ Hi) as (_ & Hdi & _).
  destruct (tiled_block _ _ HT _ _ _ Hi') as (_ & Hdi' & _).
  pose proof (aligned_nest a (Z.of_nat k) i (Z.of_nat k) a ltac:(lia) Hd1 Hdi ltac:(lia) ltac:(lia)).
  assert (i = a) as -> by lia.
  assert (buddy_of a (Z.of_nat k) = a + 2 ^ Z.of_nat k) as Eb.
  { destruct (buddy_cases a (Z.of_nat k) ltac:(lia) Hd1) as [[_ ->]|[Hd2 ->]]; [done|].
    exfalso. destruct Hd as [u Hu], Hd2 as [v Hv]. rewrite pow2_succ in Hu, Hv by lia.
    assert ((2 * (u - v) - 1) * 2 ^ Z.of_nat k = 0) as [?|?]%Z.mul_eq_0 by lia; lia. }
  destruct (Z.eq_dec o' (Z.of_nat k)) as [->|?].
  - exfalso. assert (i' = a + 2 ^ Z.of_nat k) as ->.
    { pose proof (aligned_nest (a + 2 ^ Z.of_nat k) (Z.of_nat k) i' (Z.of_nat k) (a + 2 ^ Z.of_nat k)
        ltac:(lia) ltac:(by apply Z.divide_add_r; [|exists 1; lia]) Hdi' ltac:(lia) ltac:(lia)).
      lia. }
    eapply HC; [exact Hi|lia|]. by rewrite Eb.
  - (* a larger block at the upper half would cover the lower one *)
    pose proof (aligned_nest a (Z.of_nat k + 1) i' o' (a + 2 ^ Z.of_nat k) ltac:(lia) Hd Hdi') as Hx.
    rewrite pow2_succ in Hx by lia. specialize (Hx ltac:(lia) ltac:(lia)).
    exists i', o'. split_and!; (done || lia).
Qed.

(** *** Allocated blocks *)

Lemma in_use_Some B i o r : in_use B !! i = Some (o, r) ↔ B !! i = Some (o, r) ∧ r ≠ 0.
Proof. unfold in_use. by rewrite map_lookup_filter_Some. Qed.

Lemma in_use_insert B x o r :
  r ≠ 0 → in_use (<[x := (o, r)]> B) = <[x := (o, r)]> (in_use B).
Proof. intros. unfold in_use. by rewrite map_filter_insert_True. Qed.

Lemma in_use_free B x o : in_use (<[x := (o, 0)]> B) = delete x (in_use B).
Proof.
  unfold in_use. rewrite map_filter_insert_False by naive_solver.
  by rewrite map_filter_delete.
Qed.

Lemma in_use_not_free B x o : B !! x = Some (o, 0) → in_use B !! x = None.
Proof. intros Hx. apply map_lookup_filter_None. right. intros b Hb. simplify_eq. naive_solver. Qed.

Lemma in_use_None B x : B !! x = None → in_use B !! x = None.
Proof. intros Hx. apply map_lookup_filter_None. by left. Qed.

(** The free pages are the pages outside the allocated blocks. *)
Lemma page_free_iff n B j :
  tiled n B →
  page_free B j ↔
  0 ≤ j < n ∧ ∀ i o r, in_use B !! i = Some (o, r) → ¬ (i ≤ j < i + 2 ^ o).
Proof.
  intros HT. split.
  - intros (i & o & Hi & Hj). destruct (tiled_block _ _ HT _ _ _ Hi) as (_ & _ & ? & ?).
    split; [lia|]. intros i' o' r' [Hi' Hr]%in_use_Some Hj'.
    assert (i = i') as <- by (by eapply (tiled_same n B HT)). naive_solver.
  - intros [Hj Hf]. destruct (proj2 HT j Hj) as (i & o & r & Hi & Hij).
    destruct (decide (r = 0)) as [->|Hr]; [by exists i, o|].
    destruct (Hf i o r); [by apply in_use_Some|done].
Qed.

(** A coalesced tiling is determined by its allocated blocks. *)
Lemma free_block_unique n B1 B2 i o :
  tiled n B1 → tiled n B2 → coalesced B1 → coalesced B2 → in_use B1 = in_use B2 →
  B1 !! i = Some (o, 0) → B2 !! i = Some (o, 0).
Proof.
  intros HT1 HT2 HC1 HC2 EU Hi.
  assert (∀ j, page_free B1 j ↔ page_free B2 j) as Hpf.
  { intros j. by rewrite (page_free_iff n B1), (page_free_iff n B2), EU. }
  assert (∀ B i o, B = B1 ∨ B = B2 → B !! i = Some (o, 0) →
    ∀ B', B' = B1 ∨ B' = B2 → ∃ i' o', B' !! i' = Some (o', 0) ∧ o ≤ o' ∧
      i' ≤ i ∧ i + 2 ^ o ≤ i' + 2 ^ o') as Hcov.
  { intros B j ob HB Hj B' HB'.
    assert (tiled n B ∧ tiled n B' ∧ coalesced B') as (HTB & HTB' & HCB') by naive_solver.
    destruct (tiled_block _ _ HTB _ _ _ Hj) as (Ho & Hd & Hj0 & Hjn).
    destruct (coalesced_run n B' (Z.to_nat ob) j) as (i' & o' & Hi' & Ho' & Hr); try done; try lia.
    - by rewrite Z2Nat.id by lia.
    - rewrite Z2Nat.id by lia. intros t Ht.
      assert (page_free B t) by (by exists j, ob). naive_solver.
    - rewrite Z2Nat.id in Ho' by lia. exists i', o'. split; [done|]. split; [done|].
      destruct (tiled_block _ _ HTB' _ _ _ Hi') as (_ & Hd' & _).
      pose proof (pow2_pos ob ltac:(lia)).
      apply (aligned_nest j ob i' o' j); (done || lia). }
  destruct (Hcov B1 i o ltac:(auto) Hi B2 ltac:(auto)) as (i' & o' & Hi' & Ho' & Hl & Hr).
  destruct (Hcov B2 i' o' ltac:(auto) Hi' B1 ltac:(auto)) as (i2 & o2 & Hi2 & Ho2 & Hl2 & Hr2).
  destruct (tiled_block _ _ HT1 _ _ _ Hi) as (Ho & _). pose proof (pow2_pos o ltac:(lia)).
  assert (i = i2) as <- by (apply (tiled_same n B1 HT1 i o 0 i2 o2 0 i Hi Hi2); lia).
  assert (o2 = o) by congruence. assert (o' = o) as -> by lia. by assert (i' = i) as <- by lia.
Qed.

Lemma coalesced_unique n B1 B2 :
  tiled n B1 → tiled n B2 → coalesced B1 → coalesced B2 → in_use B1 = in_use B2 → B1 = B2.
Proof.
  intros HT1 HT2 HC1 HC2 EU.
  assert (∀ B B' i b, (B = B1 ∧ B' = B2) ∨ (B = B2 ∧ B' = B1) → B !! i = Some b → B' !! i = Some b) as Hs.
  { intros B B' i [o r] HB Hi. destruct (decide (r = 0)) as [->|Hr].
    - destruct HB as [[-> ->]|[-> ->]];
        [by apply (free_block_unique n B1 B2)|by apply (free_block_unique n B2 B1)].
    - assert (in_use B !! i = Some (o, r)) as Hu by (by apply in_use_Some).
      assert (in_use B = in_use B') as EB by naive_solver.
      rewrite EB in Hu. by apply in_use_Some in Hu as [? _]. }
  apply map_eq. intros i. destruct (B1 !! i) as [b|] eqn:E1.
  - symmetry. apply (Hs B1 B2); auto.
  - destruct (B2 !! i) as [b|] eqn:E2; [|done]. apply (Hs B2 B1) in E2; [congruence|auto].
Qed.
