(* ===== verification/PageAllocCorrect.v ===== *)
(** * Correctness of the page allocator (mm/page_alloc.c)

    [buddy_inv s B]: the allocator state [s] represents the block map [B].  The
    theorems say that [__alloc_page] and [__free_page] act on [B] as the
    operations of BuddySpec.v do, for every state that satisfies the invariant. *)

From S2P Require Import Prelude QLib DList Locks Page PageAlloc BuddySpec.
From Stdlib Require Import ZArith Lia.
From stdpp Require Import base countable numbers gmap list.
Open Scope Z_scope.

(** ** Representation *)

Definition page_ok (b : option (Z * Z)) (p : page) : Prop :=
  pg_magic p = PAGE_MAGIC ∧
  match b with
  | Some (o, r) =>
      page_head p = true ∧ pg_size p = 4096 * 2 ^ o ∧ ref_cnt p = r ∧ 0 ≤ r < 2 ^ 16 ∧
      (r ≠ 0 → lk_flag (rw_writelock (pg_rwlock p)) ≠ SPINLOCK_LOCKED)
  | None => page_head p = false ∧ ref_cnt p = 0
  end.

Definition repr (P : gmap Z page) (n : Z) (B : blocks) : Prop :=
  ∀ i, 0 ≤ i < n → ∃ p, P !! i = Some p ∧ page_ok (B !! i) p.

(** The lists of the free blocks: [L o] is the list of [root[o]]. *)
Definition linked (h : gmap bnode (list_head bnode)) (n : Z) (L : Z → list Z) : Prop :=
  (∀ o, 0 ≤ o ≤ 10 → dl h (Root o) (Pg <$> L o)) ∧
  (∀ i, 0 ≤ i < n → is_Some (h !! Pg i)) ∧
  (∀ o o' i, 0 ≤ o ≤ 10 → 0 ≤ o' ≤ 10 → i ∈ L o → i ∈ L o' → o = o').

Definition free_lists (B : blocks) (L : Z → list Z) : Prop :=
  ∀ o i, 0 ≤ o ≤ 10 → i ∈ L o ↔ B !! i = Some (o, 0).

Definition buddy_inv (s : buddyAllocator) (B : blocks) : Prop :=
  lk_flag (a_lock s) ≠ SPINLOCK_LOCKED ∧
  0 ≤ pageCnt s ∧
  tiled (pageCnt s) B ∧ coalesced B ∧
  repr (pages s) (pageCnt s) B ∧
  ∃ L, linked (heap s) (pageCnt s) L ∧ free_lists B L.

(** ** The lists *)

Definition upd (L : Z → list Z) (o : Z) (l : list Z) : Z → list Z :=
  λ o', if decide (o' = o) then l else L o'.

Lemma upd_eq L o l : upd L o l o = l.
Proof. unfold upd. by rewrite decide_True. Qed.
Lemma upd_ne L o o' l : o' ≠ o → upd L o l o' = L o'.
Proof. intros. unfold upd. by rewrite decide_False. Qed.

Lemma elem_of_Pg i (l : list Z) : Pg i ∈ Pg <$> l ↔ i ∈ l.
Proof. rewrite list_elem_of_fmap. naive_solver. Qed.
Lemma Root_not_Pg o (l : list Z) : Root o ∉ Pg <$> l.
Proof. rewrite list_elem_of_fmap. naive_solver. Qed.

(** Nodes that no free list touches. *)
Definition outside (L : Z → list Z) (q : bnode) : Prop :=
  match q with Root _ => False | Pg j => ∀ o, 0 ≤ o ≤ 10 → j ∉ L o | _ => True end.

Lemma outside_not L q o : 0 ≤ o ≤ 10 → outside L q → q ∉ Root o :: (Pg <$> L o).
Proof.
  intros Ho Hq [->|(j & -> & Hj)%list_elem_of_fmap]%elem_of_cons; [done|]. by apply (Hq o).
Qed.

Section lists.
Context (h : gmap bnode (list_head bnode)) (n : Z) (L : Z → list Z) (HL : linked h n L).

Lemma linked_other F h' o :
  0 ≤ o ≤ 10 → F ⊆ Root o :: (Pg <$> L o) → keeps F h h' →
  ∀ o', 0 ≤ o' ≤ 10 → o' ≠ o → dl h' (Root o') (Pg <$> L o').
Proof using HL.
  intros Ho HF Hk o' Ho' Hne. destruct HL as (H1 & _ & H3).
  eapply keeps_dl; [exact Hk| |by apply H1].
  intros x Hx Hin%HF. rewrite !elem_of_cons in *.
  destruct Hx as [->|Hx], Hin as [Hin|Hin].
  - congruence.
  - by apply Root_not_Pg in Hin.
  - subst. by apply Root_not_Pg in Hx.
  - apply list_elem_of_fmap in Hx as (i & -> & Hi). apply elem_of_Pg in Hin.
    apply Hne. by eapply (H3 o' o).
Qed.

Lemma wp_linked_add i o :
  0 ≤ o ≤ 10 → 0 ≤ i < n → (∀ o', 0 ≤ o' ≤ 10 → i ∉ L o') →
  wp (list_add_prev (Pg i) (Root o))
     (λ _ h', linked h' n (upd L o (L o ++ [i])) ∧
              ∀ q, outside L q → q ≠ Pg i → h' !! q = h !! q) h.
Proof using HL.
  intros Ho Hi Hnew. destruct HL as (H1 & H2 & H3).
  eapply wp_mono; [apply (wp_list_add_prev _ _ (Pg <$> L o)); auto|].
  { rewrite elem_of_cons, elem_of_Pg. naive_solver. }
  intros _ h' [Hd Hk]. split; cycle 1.
  { intros q Hq Hqi. apply (proj2 Hk). apply not_elem_of_cons. split; [done|]. by apply outside_not. }
  split_and!.
  - intros o' Ho'. destruct (decide (o' = o)) as [->|Hne].
    + by rewrite upd_eq, fmap_app.
    + rewrite upd_ne by done. eapply keeps_dl; [exact Hk| |by apply H1].
      intros x Hx. rewrite !elem_of_cons in *. intros [->|Hin].
      * destruct Hx as [|Hx%elem_of_Pg]; [done|]. by eapply (Hnew o').
      * revert Hx Hin. rewrite !list_elem_of_fmap. intros [->|(y & -> & Hy)] [|(y' & ? & Hy')];
          simplify_eq. apply Hne. by eapply (H3 o' o).
  - intros j Hj. eapply keeps_mapped; eauto.
  - intros o1 o2 j Ho1 Ho2. unfold upd. repeat case_decide; subst; try done;
      rewrite ?elem_of_app, ?list_elem_of_singleton.
    + intros [?| ->] ?; [by eapply H3|]. exfalso. by eapply (Hnew o2).
    + intros ? [?| ->]; [by eapply H3|]. exfalso. by eapply (Hnew o1).
    + by apply H3.
Qed.

Lemma wp_linked_del i o :
  0 ≤ o ≤ 10 → i ∈ L o →
  wp (list_del (Pg i)) (λ _ h', (∃ l, (∀ j, j ∈ l ↔ j ∈ L o ∧ j ≠ i) ∧
                                     linked h' n (upd L o l)) ∧
                                     ∀ q, outside L q → h' !! q = h !! q) h.
Proof using HL.
  intros Ho Hi. destruct HL as (H1 & H2 & H3).
  apply list_elem_of_split in Hi as (l1 & l2 & El). pose proof (H1 o Ho) as Hd.
  rewrite El, fmap_app in Hd. simpl in Hd.
  eapply wp_mono; [by eapply wp_list_del|]. intros _ h' (Hd' & Hk & Hx).
  assert (∀ j, j ∈ l1 ++ l2 ↔ j ∈ L o ∧ j ≠ i) as Hl.
  { intros j. apply dl_nodup, NoDup_cons in Hd as [_ (_ & Ha & Hb)%NoDup_app].
    apply NoDup_cons in Hb as [Hb%(not_iff_compat (elem_of_Pg i l2)) _].
    specialize (Ha (Pg i)). rewrite elem_of_Pg in Ha. rewrite El. set_solver. }
  split; cycle 1.
  { intros q Hq. apply (proj2 Hk). pose proof (outside_not L q o Ho Hq) as Hn.
    rewrite El, fmap_app, fmap_cons in Hn. set_solver. }
  exists (l1 ++ l2). split; [done|]. split_and!.
  - intros o' Ho'. destruct (decide (o' = o)) as [->|Hne].
    + by rewrite upd_eq, fmap_app.
    + rewrite upd_ne by done. eapply linked_other; [exact Ho| |exact Hk|done..].
      rewrite El, fmap_app, fmap_cons. set_solver.
  - intros j Hj. eapply keeps_mapped; eauto.
  - intros o1 o2 j Ho1 Ho2. unfold upd. repeat case_decide; subst; try done;
      rewrite ?Hl; intros; naive_solver.
Qed.

Lemma wp_linked_init i :
  0 ≤ i < n → (∀ o', 0 ≤ o' ≤ 10 → i ∉ L o') →
  wp (list_header_init (Pg i)) (λ _ h', linked h' n L ∧ ∀ q, q ≠ Pg i → h' !! q = h !! q) h.
Proof using HL.
  intros Hi Hnew. destruct HL as (H1 & H2 & H3).
  eapply wp_mono; [apply wp_list_header_init; auto|]. intros _ h' [_ Hk]. split; cycle 1.
  { intros q Hq. apply (proj2 Hk). by rewrite list_elem_of_singleton. }
  split_and!; [| |done].
  - intros o Ho. eapply keeps_dl; [exact Hk| |by apply H1].
    intros x Hx ->%list_elem_of_singleton. apply elem_of_cons in Hx as [?|Hx%elem_of_Pg]; [done|].
    by eapply (Hnew o).
  - intros j Hj. eapply keeps_mapped; eauto.
Qed.
End lists.

(** ** The state *)

(** Everything of the allocator but the pages and the lists. *)
Definition same_regs (s s' : buddyAllocator) : Prop :=
  a_lock s' = a_lock s ∧ a_addr s' = a_addr s ∧ a_size s' = a_size s ∧ pageCnt s' = pageCnt s.

(** The descriptors of the blocks in use and their list nodes are left alone, and
    so are the list headers of the other allocators. *)
Definition kept (B : blocks) (q : bnode) : Prop :=
  match q with Root _ => False | Pg j => ∃ o r, B !! j = Some (o, r) ∧ r ≠ 0 | _ => True end.

Definition keeps_used (B : blocks) (s s' : buddyAllocator) : Prop :=
  (∀ i o r, B !! i = Some (o, r) → r ≠ 0 → pages s' !! i = pages s !! i) ∧
  (∀ q, kept B q → heap s' !! q = heap s !! q).

Lemma kept_outside B L q : free_lists B L → kept B q → outside L q.
Proof.
  intros HF. destruct q as [|j| | | | | |]; simpl; try done. intros (o & r & Hj & Hr) o' Ho' Hin.
  apply (HF o' j Ho') in Hin. congruence.
Qed.

Lemma kept_sub B B' q :
  (∀ i o r, B !! i = Some (o, r) → r ≠ 0 → ∃ o' r', B' !! i = Some (o', r') ∧ r' ≠ 0) →
  kept B q → kept B' q.
Proof. intros H. destruct q as [|j| | | | | |]; simpl; try done. intros (o & r & Hj & Hr). eauto. Qed.

(** The pages show the map [BP], the lists hold the free blocks of [BL]. *)
Definition shows (s : buddyAllocator) (BP BL : blocks) : Prop :=
  repr (pages s) (pageCnt s) BP ∧ ∃ L, linked (heap s) (pageCnt s) L ∧ free_lists BL L.

Lemma wp_read_page i p (Q : page → buddyAllocator → Prop) s :
  pages s !! i = Some p → Q p s → wp (read_page i) Q s.
Proof. intros. unfold read_page. by wp_go. Qed.

Lemma wp_upd_page i f p (Q : unit → buddyAllocator → Prop) s :
  pages s !! i = Some p → Q tt (with_pages (<[i := f p]> (pages s)) s) → wp (upd_page i f) Q s.
Proof. intros. unfold upd_page. wp_go. by eapply wp_read_page. Qed.

Lemma ORDER_SIZE_eq o : 0 ≤ o ≤ 10 → ORDER_SIZE o = 4096 * 2 ^ o.
Proof.
  intros Ho. unfold ORDER_SIZE. rewrite !Z.shiftl_mul_pow2 by lia.
  pose proof (Z.pow_le_mono_r 2 o 10 ltac:(lia) ltac:(lia)).
  pose proof (pow2_pos o ltac:(lia)). rewrite u32_small by lia. lia.
Qed.

Lemma ORDER_CNT_eq o : 0 ≤ o → ORDER_CNT o = 2 ^ o.
Proof. intros. unfold ORDER_CNT. rewrite Z.shiftl_mul_pow2 by lia. lia. Qed.

Lemma repr_insert P n B i b p :
  repr P n B → page_ok (Some b) p → repr (<[i := p]> P) n (<[i := b]> B).
Proof.
  intros HR Hp j Hj. destruct (decide (j = i)) as [->|Hne].
  - exists p. by rewrite !lookup_insert_eq.
  - rewrite !lookup_insert_ne by done. by apply HR.
Qed.

Lemma repr_delete P n B i p :
  repr P n B → page_ok None p → repr (<[i := p]> P) n (delete i B).
Proof.
  intros HR Hp j Hj. destruct (decide (j = i)) as [->|Hne].
  - exists p. by rewrite lookup_insert_eq, lookup_delete_eq.
  - rewrite lookup_insert_ne, lookup_delete_ne by done. by apply HR.
Qed.

Lemma repr_ext P n B B' : (∀ i, B' !! i = B !! i) → repr P n B → repr P n B'.
Proof. intros E HR i Hi. rewrite E. by apply HR. Qed.

(** A page that is not the head of a listed block is in no list. *)
Lemma free_lists_not B L i :
  free_lists B L → (∀ o, B !! i ≠ Some (o, 0)) → ∀ o, 0 ≤ o ≤ 10 → i ∉ L o.
Proof. intros HF Hi o Ho Hin. apply HF in Hin; [|done]. by eapply Hi. Qed.

Lemma free_lists_add B L i o :
  free_lists B L → (∀ o, B !! i ≠ Some (o, 0)) → 0 ≤ o ≤ 10 →
  free_lists (<[i := (o, 0)]> B) (upd L o (L o ++ [i])).
Proof.
  intros HF Hi Ho o' j Ho'. rewrite lookup_insert_Some. unfold upd. case_decide; subst.
  - rewrite elem_of_app, list_elem_of_singleton, (HF _ _ Ho).
    destruct (decide (i = j)) as [->|]; naive_solver.
  - rewrite (HF _ _ Ho'). destruct (decide (i = j)) as [->|]; naive_solver.
Qed.

Lemma free_lists_del B L i o l b :
  free_lists B L → B !! i = Some (o, 0) → 0 ≤ o ≤ 10 →
  (∀ j, j ∈ l ↔ j ∈ L o ∧ j ≠ i) → (∀ o', b ≠ Some (o', 0)) →
  free_lists (partial_alter (λ _, b) i B) (upd L o l).
Proof.
  intros HF Hi Ho Hl Hb o' j Ho'. destruct (decide (i = j)) as [<-|Hne].
  - rewrite lookup_partial_alter_eq. unfold upd. case_decide; subst.
    + rewrite Hl. naive_solver.
    + rewrite (HF _ _ Ho'), Hi. naive_solver.
  - rewrite lookup_partial_alter_ne by done. unfold upd. case_decide; subst.
    + rewrite Hl, (HF _ _ Ho). naive_solver.
    + by rewrite (HF _ _ Ho').
Qed.

Lemma same_regs_refl s : same_regs s s.
Proof. by repeat split. Qed.

Lemma same_regs_trans s1 s2 s3 : same_regs s1 s2 → same_regs s2 s3 → same_regs s1 s3.
Proof. unfold same_regs. intuition congruence. Qed.

#[export] Hint Resolve same_regs_refl : core.

Lemma wp_on_list {A} (m : M (gmap bnode (list_head bnode)) A) (R : A → _ → Prop) Q s :
  wp m R (heap s) → (∀ a h, R a h → Q a (with_heap h s)) → wp (on_list m) Q s.
Proof. intros Hm HQ. unfold on_list. wp_step. eapply wp_mono; [exact Hm|]. eauto. Qed.

(** ** Splitting *)

(** Making [new] the head of a free block. *)
Lemma page_ok_split p o :
  page_ok None p →
  page_ok (Some (o, 0)) (put_flag (Z.lor (pg_flag p) PG_Head) (put_size (4096 * 2 ^ o) p)).
Proof.
  intros (? & ? & ?). split; [done|]. split_and!; simpl; try done.
  unfold page_head. simpl. apply page_head_set.
Qed.

Lemma split_loop_spec fuel x j k i0 B s :
  shows s (<[x := (i0, 0)]> B) (<[x := (i0, 0)]> B) →
  tiled (pageCnt s) B → coalesced B → B !! x = Some (j + 1, 1) →
  0 ≤ k ≤ j + 1 → i0 ≤ 10 → (Z.to_nat (j + 1 - k) < fuel)%nat →
  wp (split_loop fuel x (u64 j) k)
     (λ _ s', same_regs s s' ∧ keeps_used (delete x B) s s' ∧ ∃ B',
        shows s' (<[x := (i0, 0)]> B') (<[x := (i0, 0)]> B') ∧
        tiled (pageCnt s) B' ∧ coalesced B' ∧ B' !! x = Some (k, 1) ∧
        in_use B' = <[x := (k, 1)]> (in_use B)) s.
Proof.
  revert j B s. induction fuel as [|f IH]; intros j B s [HR (L & HL & HF)] HT HC Hx Hk Hi0 Hf; [lia|].
  destruct (tiled_block _ _ HT _ _ _ Hx) as (Hj & Hdx & Hx0 & Hxn). simpl.
  destruct (Z.eq_dec (j + 1) k) as [<-|Hjk].
  { (* done: [j] is below [logSize], or wrapped around *)
    replace ((j + 1 <=? u64 j) && (u64 j <=? MAX_ORDER)) with false; cycle 1.
    { symmetry. apply andb_false_iff. unfold u64, MAX_ORDER.
      destruct (Z.eq_dec j (-1)) as [->|]; [by right|left].
      rewrite Z.mod_small by lia. lia. }
    wp_go. split_and!; [done..|]. exists B. split_and!; [by split; eauto|done..|].
    rewrite insert_id; [done|]. by apply in_use_Some. }
  rewrite u64_small by lia.
  replace ((k <=? j) && (j <=? MAX_ORDER)) with true by (unfold MAX_ORDER; lia).
  pose proof (pow2_pos j ltac:(lia)) as Hp. pose proof (pow2_succ j ltac:(lia)) as Hs.
  rewrite ORDER_CNT_eq, ORDER_SIZE_eq by lia. set (new := x + 2 ^ j).
  assert (B !! new = None) as Hnew by (eapply (tiled_interior _ _ HT x); [done|lia]).
  assert ((<[x := (i0, 0)]> B) !! new = None) as Hnew' by (by rewrite lookup_insert_ne by lia).
  destruct (HR new ltac:(lia)) as (p & Hpn & Hok). rewrite Hnew' in Hok.
  wp_step. eapply wp_read_page; [exact Hpn|]. wp_step. wp_step.
  { apply negb_true_iff. by destruct Hok as (_ & ? & _). }
  wp_step. eapply wp_upd_page; [exact Hpn|]. wp_step.
  eapply wp_upd_page; [apply lookup_insert_eq|]. wp_step. simpl.
  eapply wp_on_list.
  { apply (wp_linked_add _ (pageCnt s) L HL); [lia|lia|].
    eapply free_lists_not; [exact HF|]. intros o. by rewrite Hnew'. }
  simpl. rewrite insert_insert_eq. intros _ h' [HL' Hfr].
  set (B1 := <[new := (j, 0)]> (<[x := (j, 1)]> B)).
  assert (<[x := (i0, 0)]> B1 = <[new := (j, 0)]> (<[x := (i0, 0)]> B)) as EB.
  { unfold B1. rewrite (insert_insert_ne _ x new) by lia. by rewrite insert_insert_eq. }
  assert (in_use B1 = <[x := (j, 1)]> (in_use B)) as EU.
  { unfold B1. rewrite in_use_free, in_use_insert by done.
    apply delete_id. rewrite lookup_insert_ne by lia. by apply in_use_None. }
  eapply wp_mono; [apply (IH (j - 1) B1)|]; simpl; try lia.
  - rewrite EB. split; simpl.
    + apply repr_insert; [done|]. by apply page_ok_split.
    + eexists. split; [exact HL'|]. apply free_lists_add; [done| |lia]. intros o. by rewrite Hnew'.
  - apply tiled_split; [done|done|lia].
  - eapply coalesced_split; [exact HT|done|done|lia].
  - unfold B1. rewrite lookup_insert_ne, lookup_insert_eq by lia. do 2 f_equal. lia.
  - intros _ s' (Hsame & Hkeep & B' & Hsh & HT' & HC' & Hx' & EU').
    split_and!; [done| |exists B'; split_and!; try done].
    + assert (∀ i o r, delete x B !! i = Some (o, r) → r ≠ 0 → delete x B1 !! i = Some (o, r)) as Hsub.
      { intros i o r [Hix Hi]%lookup_delete_Some Hr. assert (new ≠ i) by congruence.
        rewrite lookup_delete_ne by done. unfold B1. by rewrite !lookup_insert_ne by done. }
      split.
      * intros i o r Hi Hr. rewrite (proj1 Hkeep i o r (Hsub _ _ _ Hi Hr) Hr). simpl.
        rewrite lookup_insert_ne; [done|]. intros <-. rewrite lookup_delete_ne in Hi by lia. congruence.
      * intros q Hq. rewrite (proj2 Hkeep) by (eapply kept_sub; [|exact Hq]; eauto). simpl. apply Hfr.
        { eapply kept_outside; [exact HF|]. eapply kept_sub; [|exact Hq].
          intros i o r [Hix Hi]%lookup_delete_Some Hr. rewrite lookup_insert_ne by done. eauto. }
        intros ->. destruct Hq as (o & r & [_ Hq]%lookup_delete_Some & _). congruence.
    + by rewrite EU', EU, insert_insert_eq.
Qed.

(** ** Allocation *)

(** What a successful search leaves: block [x] is still linked, the virtual map
    [B'] already has it in use with order [k]. *)
Definition found (s s' : buddyAllocator) (B : blocks) (k x : Z) : Prop :=
  ∃ o B', k ≤ o ≤ 10 ∧ B !! x = Some (o, 0) ∧ same_regs s s' ∧ keeps_used B s s' ∧
    shows s' (<[x := (o, 0)]> B') (<[x := (o, 0)]> B') ∧
    tiled (pageCnt s) B' ∧ coalesced B' ∧ B' !! x = Some (k, 1) ∧
    in_use B' = <[x := (k, 1)]> (in_use B).

Lemma find_block_spec fuel i k B s :
  shows s B B → tiled (pageCnt s) B → coalesced B →
  0 ≤ k ≤ i → i ≤ 11 → (Z.to_nat (11 - i) < fuel)%nat →
  wp (find_block fuel i k)
     (λ r s', match r with
              | None => s' = s ∧ ∀ o y, i ≤ o → B !! y ≠ Some (o, 0)
              | Some x => found s s' B k x
              end) s.
Proof.
  intros HS HT HC. revert i. induction fuel as [|f IH]; intros i Hk Hi Hf; [lia|].
  simpl. unfold MAX_ORDER. destruct (Z.leb_spec i 10) as [Hi10|Hi11].
  2: { wp_go. split; [done|]. intros o y Ho Hy.
       destruct (tiled_block _ _ HT _ _ _ Hy) as (?&_). lia. }
  destruct HS as [HR (L & HL & HF)]. pose proof (proj1 HL i ltac:(lia)) as Hd.
  wp_step. eapply wp_on_list.
  { eapply wp_list_empty; [exact Hd|]. instantiate (1 := λ e h, e = bool_decide (Pg <$> L i = []) ∧ h = heap s).
    done. }
  intros e h [-> ->]. replace (with_heap (heap s) s) with s by (by destruct s).
  destruct (L i) as [|x l] eqn:El.
  { rewrite bool_decide_true by done. rewrite u16_small by lia.
    eapply wp_mono; [apply IH; lia|]. intros [y|] s'; [done|]. intros [-> Hn]. split; [done|].
    intros o y Ho Hy. destruct (Z.eq_dec o i) as [->|]; [|apply (Hn o y); [lia|done]].
    apply (HF i y ltac:(lia)) in Hy. rewrite El in Hy. by apply elem_of_nil in Hy. }
  rewrite bool_decide_false by done. wp_step. eapply wp_on_list.
  { eapply wp_get_next; [by apply dl_head_next|].
    instantiate (1 := λ r h, r = Pg x ∧ h = heap s). by split. }
  intros r h [-> ->]. replace (with_heap (heap s) s) with s by (by destruct s).
  assert (B !! x = Some (i, 0)) as Hx by (apply (HF i x ltac:(lia)); rewrite El; left).
  destruct (tiled_block _ _ HT _ _ _ Hx) as (_ & _ & Hx0 & Hxn). pose proof (pow2_pos i ltac:(lia)).
  destruct (HR x ltac:(lia)) as (p & Hp & Hok). rewrite Hx in Hok.
  wp_step. eapply wp_read_page; [exact Hp|]. wp_step. wp_step; [by destruct Hok as (_ & ? & _)|].
  wp_step. eapply wp_mono; [apply (split_loop_spec 12 x (i - 1) k i (<[x := (i, 1)]> B)); try lia|].
  - rewrite insert_insert_eq, insert_id by done. split; [done|]. by exists L.
  - by eapply tiled_ref.
  - eapply coalesced_sub; [|exact HC]. intros y o. rewrite lookup_insert_Some. naive_solver.
  - rewrite lookup_insert_eq. do 2 f_equal. lia.
  - intros _ s' (Hs & Hkp & B' & Hsh & HT' & HC' & Hx' & EU). wp_go.
    exists i, B'. split_and!; try done; [lia| |by rewrite EU, in_use_insert, insert_insert_eq].
    assert (∀ y o r, B !! y = Some (o, r) → r ≠ 0 → delete x (<[x := (i, 1)]> B) !! y = Some (o, r)) as Hsub.
    { intros y o r Hy Hr. assert (x ≠ y) by congruence. by rewrite lookup_delete_ne, lookup_insert_ne. }
    split.
    + intros y o r Hy Hr. by apply (proj1 Hkp y o r), Hr; auto.
    + intros q Hq. apply (proj2 Hkp). eapply kept_sub; [|exact Hq]. eauto.
Qed.

(** [fixSize], the checks and [log2] of [__alloc_page] on a good size. *)
Definition good_size (size k : Z) : Prop := 0 ≤ k ≤ 10 ∧ fixSize size = 4096 * 2 ^ k.

Lemma pow2_le10 k : 0 ≤ k ≤ 10 → 1 ≤ 2 ^ k ≤ 1024.
Proof.
  intros. pose proof (pow2_pos k ltac:(lia)).
  pose proof (Z.pow_le_mono_r 2 k 10 ltac:(lia) ltac:(lia)). lia.
Qed.

Lemma good_size_checks k :
  0 ≤ k ≤ 10 →
  (0 <? 4096 * 2 ^ k) && (4096 * 2 ^ k <=? 4 * 0x100000) &&
    (Z.land (4096 * 2 ^ k) PAGE_MASK =? 0) = true ∧
  log2 (Z.shiftr (4096 * 2 ^ k) 12) = Some k.
Proof.
  intros Hk. pose proof (pow2_le10 k Hk). split.
  - rewrite !andb_true_iff. split_and!; [lia|lia|].
    change PAGE_MASK with (Z.ones 12). rewrite Z.land_ones by lia.
    change (2 ^ 12) with 4096. rewrite Z.mul_comm, Z.mod_mul by lia. done.
  - rewrite Z.shiftr_div_pow2 by lia. change (2 ^ 12) with 4096.
    rewrite Z.mul_comm, Z.div_mul by lia. apply log2_pow. lia.
Qed.

Lemma wp_log2_ {S} v k (Q : Z → S → Prop) s : log2 v = Some k → Q k s → wp (log2_ v) Q s.
Proof. intros E HQ. unfold log2_. rewrite E. by wp_go. Qed.

Lemma lock_allocator_ok s :
  lk_flag (a_lock s) ≠ SPINLOCK_LOCKED →
  lock_allocator s = Ok (tt, with_lock (Spinlock 1) s).
Proof.
  intros Hl. unfold lock_allocator, spinlock_lock, lift_res, mbind, M_bind. simpl.
  destruct (Z.eqb_spec (lk_flag (a_lock s)) SPINLOCK_LOCKED); done.
Qed.

Lemma wp_lock_allocator (Q : unit → buddyAllocator → Prop) s :
  lk_flag (a_lock s) ≠ SPINLOCK_LOCKED → Q tt (with_lock (Spinlock 1) s) → wp lock_allocator Q s.
Proof. intros Hl HQ. eapply wp_intro; [by apply lock_allocator_ok|done]. Qed.

(** The effect of a successful allocation of [2^k] pages at [x]. *)
Definition allocated (s s' : buddyAllocator) (B B' : blocks) (k x : Z) : Prop :=
  buddy_inv s' B' ∧ in_use B' = <[x := (k, 1)]> (in_use B) ∧
  (∃ o, k ≤ o ≤ 10 ∧ B !! x = Some (o, 0)) ∧ B' !! x = Some (k, 1) ∧
  keeps_used B s s' ∧ pageCnt s' = pageCnt s ∧ a_addr s' = a_addr s ∧
  a_size s' = u32 (a_size s - 4096 * 2 ^ k).

Lemma page_ok_alloc k o p :
  page_ok (Some (o, 0)) p →
  page_ok (Some (k, 1)) (put_rwlock rwlock_init (put_ref_cnt 1 (put_size (4096 * 2 ^ k) p))).
Proof. intros (? & ? & ? & ? & ?). split; [done|]. by split_and!. Qed.

(** The tail of [__alloc_page], from the statement after the search loop on. *)
Lemma alloc_tail s0 s B k x size :
  found (with_lock (Spinlock 1) s0) s B k x → 0 ≤ pageCnt s0 → 0 ≤ k ≤ 10 →
  size = 4096 * 2 ^ k →
  wp (modify (λ s, with_size (u32 (a_size s - size)) s);;
      on_list (list_del (Pg x));;
      unlock_allocator;;
      upd_page x (put_size size);;
      upd_page x (put_ref_cnt 1);;
      upd_page x (put_rwlock rwlock_init);;
      mret x) (λ y s', y = x ∧ ∃ B', allocated s0 s' B B' k x) s.
Proof.
  intros (o & B' & Ho & Hx & (El & Ea & Es & Ec) & Hkp & Hsh & HT & HC & Hx' & EU) Hn Hk ->.
  destruct Hsh as [HR (L & HL & HF)]. simpl in *.
  destruct (tiled_block _ _ HT _ _ _ Hx') as (_ & _ & Hx0 & Hxn).
  pose proof (pow2_le10 k Hk). rewrite Ec in *.
  destruct (HR x ltac:(lia)) as (p & Hp & Hok). rewrite lookup_insert_eq in Hok.
  assert (<[x := (k, 1)]> (<[x := (o, 0)]> B') = B') as EB
    by (rewrite insert_insert_eq; by apply insert_id).
  wp_go. eapply wp_on_list.
  { apply (wp_linked_del _ _ L HL x o); [lia|]. apply (HF o x ltac:(lia)). by rewrite lookup_insert_eq. }
  intros _ h' [(l & Hl & HL') Hfr]. unfold unlock_allocator. wp_go.
  eapply wp_upd_page; [exact Hp|]. wp_step.
  eapply wp_upd_page; [apply lookup_insert_eq|]. wp_step. simpl.
  eapply wp_upd_page; [apply lookup_insert_eq|]. wp_go. simpl. rewrite !insert_insert_eq.
  split; [done|]. exists B'. unfold allocated, buddy_inv. simpl. rewrite Ec, Ea, Es.
  split_and!; try done.
  - rewrite <-EB. apply repr_insert; [done|]. by eapply page_ok_alloc.
  - exists (upd L o l). split; [done|]. rewrite <-EB.
    apply (free_lists_del _ L x o l (Some (k, 1))); try done; [by rewrite lookup_insert_eq|lia].
  - eauto.
  - split.
    + intros i o1 r Hi Hr. simpl. rewrite lookup_insert_ne by congruence. by apply (proj1 Hkp i o1 r).
    + intros q Hq. simpl. rewrite Hfr; [by apply (proj2 Hkp)|]. eapply kept_outside; [exact HF|].
      eapply kept_sub; [|exact Hq]. intros i o1 r Hi Hr. assert (x ≠ i) by congruence.
      exists o1, r. split; [|done]. rewrite lookup_insert_ne by done.
      assert (in_use B' !! i = Some (o1, r)) as [? _]%in_use_Some; [|done].
      rewrite EU, lookup_insert_ne by done. by apply in_use_Some.
Qed.

Lemma alloc_spec s B size k :
  buddy_inv s B → good_size size k →
  (wp (__alloc_page size) (λ x s', ∃ B', allocated s s' B B' k x) s) ∨
  (__alloc_page size s = Err Assert ∧ ∀ o y, k ≤ o → B !! y ≠ Some (o, 0)).
Proof.
  intros (Hl & Hn & HT & HC & HR & HL) [Hk Hs]. destruct (good_size_checks k Hk) as [E1 E2].
  unfold __alloc_page. rewrite Hs, E1.
  destruct (wp_elim _ _ _ (find_block_spec 12 k k B (with_lock (Spinlock 1) s)
    (conj HR HL) HT HC ltac:(lia) ltac:(lia) ltac:(lia))) as ([x|] & s' & EF & HF); [left|right].
  - wp_step. wp_step; [done|]. wp_step. eapply wp_log2_; [exact E2|]. wp_step.
    apply wp_lock_allocator; [done|]. wp_step. eapply wp_intro; [exact EF|].
    eapply wp_mono; [by apply (alloc_tail s s' B k x)|]. intros y s2 [-> ?]. done.
  - destruct HF as [-> Hno]. split; [|done].
    erewrite bind_Ok by reflexivity. unfold log2_. rewrite E2.
    erewrite bind_Ok by reflexivity. rewrite (bind_Ok _ _ _ _ _ (lock_allocator_ok s Hl)).
    by erewrite bind_Ok by exact EF.
Qed.

(** ** Release *)

Lemma get_buddy_spec x o r p s (Q : option Z → buddyAllocator → Prop) :
  pages s !! x = Some p → page_ok (Some (o, r)) p → 0 ≤ o ≤ 10 →
  Q (if pageCnt s <=? buddy_of x o then None else Some (buddy_of x o)) s →
  wp (get_buddy x) Q s.
Proof.
  intros Hp (_ & _ & Hsz & _) Ho HQ. pose proof (pow2_le10 o Ho). unfold get_buddy.
  wp_step. eapply wp_read_page; [exact Hp|]. rewrite Hsz, Z.shiftr_div_pow2 by lia.
  change (2 ^ 12) with 4096. rewrite (Z.mul_comm 4096), Z.div_mul by lia.
  destruct (Z.eqb_spec (2 ^ o) 0); [lia|]. wp_go.
  assert ((if truth (Z.land (x / 2 ^ o) 1) then x - 2 ^ o else x + 2 ^ o) = buddy_of x o) as ->.
  { unfold buddy_of, truth. change 1 with (Z.ones 1) at 1. rewrite Z.land_ones by lia.
    change (2 ^ 1) with 2. by destruct (_ =? 0). }
  destruct (pageCnt s <=? buddy_of x o); by wp_go.
Qed.

(** Two free buddies become one block of the next order. *)
Lemma page_ok_tail o q :
  page_ok (Some (o, 0)) q →
  page_ok None (put_flag (CLEAR_BIT 16 (pg_flag q) PG_HEAD_BIT) q).
Proof. intros (? & ? & ? & ? & ?). split; [done|]. split; [apply page_head_clear|done]. Qed.

Lemma page_ok_grow o p :
  0 ≤ o < 10 → page_ok (Some (o, 0)) p →
  page_ok (Some (o + 1, 0)) (put_size (u32 (Z.shiftl (pg_size p) 1)) p).
Proof.
  intros Ho (? & ? & Hs & ? & ?). split; [done|]. split_and!; try done; try lia.
  simpl. rewrite Hs, Z.shiftl_mul_pow2 by lia. pose proof (pow2_le10 o ltac:(lia)).
  rewrite u32_small by lia. rewrite pow2_succ by lia. lia.
Qed.

(** The map after the merge of the blocks at [lo] and [lo + 2^o], one of which
    is the block [x] being released. *)
Lemma merged_free_lists B L x b lo hi o o' :
  free_lists (delete b B) L → B !! x = Some (o, 1) →
  (lo = x ∧ hi = b) ∨ (lo = b ∧ hi = x) → x ≠ b →
  free_lists (<[lo := (o', 1)]> (delete hi B)) L.
Proof.
  intros HF Hx Hc Hne o1 i Ho1. rewrite (HF _ _ Ho1), lookup_insert_Some, !lookup_delete_Some.
  destruct Hc as [[-> ->]|[-> ->]]; split; naive_solver.
Qed.

Lemma merged_repr (P : gmap Z page) n B x lo hi o p q :
  repr P n (<[x := (o, 0)]> B) → (lo = x ∨ hi = x) → lo ≠ hi →
  page_ok (Some (o + 1, 0)) p → page_ok None q →
  repr (<[lo := p]> (<[hi := q]> P)) n
       (<[lo := (o + 1, 0)]> (<[lo := (o + 1, 1)]> (delete hi B))).
Proof.
  intros HR Hc Hne Hp Hq i Hi. destruct (decide (i = lo)) as [->|H1].
  { exists p. by rewrite !lookup_insert_eq. }
  destruct (decide (i = hi)) as [->|H2].
  { exists q. by rewrite lookup_insert_ne, lookup_insert_eq, !lookup_insert_ne, lookup_delete_eq. }
  rewrite !lookup_insert_ne, lookup_delete_ne by done.
  destruct (HR i Hi) as (p' & Hp' & Hok). exists p'. split; [done|].
  rewrite lookup_insert_ne in Hok; [done|naive_solver].
Qed.

(** Block [x] of order [o] is being released: its page already shows it free,
    the lists do not hold it, and [B] still has it in use. *)
Definition releasing (s : buddyAllocator) (B : blocks) (x o : Z) : Prop :=
  repr (pages s) (pageCnt s) (<[x := (o, 0)]> B) ∧
  (∃ L, linked (heap s) (pageCnt s) L ∧ free_lists B L) ∧
  tiled (pageCnt s) B ∧ coalesced B ∧ B !! x = Some (o, 1).

Definition released (s s' : buddyAllocator) (B B' : blocks) (x : Z) : Prop :=
  same_regs s s' ∧ keeps_used (delete x B) s s' ∧
  shows s' B' B' ∧ tiled (pageCnt s) B' ∧ coalesced B' ∧ in_use B' = delete x (in_use B).

Lemma merge_stop s B x o :
  releasing s B x o → (o < 10 → B !! buddy_of x o ≠ Some (o, 0)) →
  wp (on_list (list_add_prev (Pg x) (Root o));; mret x)
     (λ y s', ∃ B', released s s' B B' x ∧ ∃ o', B' !! y = Some (o', 0)) s.
Proof.
  intros (HR & (L & HL & HF) & HT & HC & Hx) Hb.
  destruct (tiled_block _ _ HT _ _ _ Hx) as (Ho & _ & Hx0 & Hxn). pose proof (pow2_le10 o Ho).
  assert (∀ o', B !! x ≠ Some (o', 0)) as Hnf by (intros; rewrite Hx; naive_solver).
  wp_step. eapply wp_on_list.
  { apply (wp_linked_add _ _ L HL); [done|lia|by eapply free_lists_not]. }
  intros [] h' [HL' Hfr]. wp_go. exists (<[x := (o, 0)]> B). split; [|exists o; apply lookup_insert_eq].
  unfold released. split_and!; try done.
  - split; [done|]. intros q Hq. simpl. apply Hfr.
    + eapply kept_outside; [exact HF|]. eapply kept_sub; [|exact Hq].
      intros i o1 r [_ Hi]%lookup_delete_Some Hr. eauto.
    + intros ->. by destruct Hq as (o1 & r & [? _]%lookup_delete_Some & _).
  - split; [done|]. exists (upd L o (L o ++ [x])). split; [done|]. by apply free_lists_add.
  - by eapply tiled_ref.
  - by eapply coalesced_add.
  - apply in_use_free.
Qed.

Lemma releasing_join s B x b o P' h' L' p q :
  releasing s B x o → o < 10 → b = buddy_of x o → B !! b = Some (o, 0) →
  page_ok (Some (o, 0)) p → page_ok (Some (o, 0)) q →
  linked h' (pageCnt s) L' → free_lists (delete b B) L' →
  (∀ q, kept (delete x B) q → h' !! q = heap s !! q) →
  P' = <[Z.min b x := put_size (u32 (Z.shiftl (pg_size p) 1)) p]>
         (<[Z.max b x := put_flag (CLEAR_BIT 16 (pg_flag q) PG_HEAD_BIT) q]> (pages s)) →
  ∃ B1, releasing (with_pages P' (with_heap h' s)) B1 (Z.min b x) (o + 1) ∧
    in_use B1 = <[Z.min b x := (o + 1, 1)]> (delete x (in_use B)) ∧
    keeps_used (delete x B) s (with_pages P' (with_heap h' s)) ∧
    ∀ i o r, delete x B !! i = Some (o, r) → r ≠ 0 → delete (Z.min b x) B1 !! i = Some (o, r).
Proof.
  intros (HR & _ & HT & HC & Hx) Ho10 Eb Hb Hp Hq HL' HF' Hfr ->.
  destruct (tiled_block _ _ HT _ _ _ Hx) as (Ho & Hdx & _). pose proof (pow2_le10 o Ho).
  assert (((Z.min b x = x ∧ Z.max b x = b) ∨ (Z.min b x = b ∧ Z.max b x = x)) ∧
          Z.max b x = Z.min b x + 2 ^ o ∧ (2 ^ (o + 1) | Z.min b x)) as (Hc & Ehi & Hd).
  { destruct (buddy_cases x o ltac:(lia) Hdx) as [[? E]|[? E]]; rewrite <-Eb in E.
    - rewrite Z.min_r, Z.max_l by lia. split_and!; [lia|lia|done].
    - rewrite Z.min_l, Z.max_r by lia. split_and!; [lia|lia|]. by rewrite E. }
  set (lo := Z.min b x) in *. set (hi := Z.max b x) in *.
  assert (∃ r, B !! lo = Some (o, r)) as [rl Hlo] by (destruct Hc as [[-> _]|[-> _]]; eauto).
  assert (∃ r, B !! hi = Some (o, r)) as [rh Hhi] by (destruct Hc as [[_ ->]|[_ ->]]; eauto).
  exists (<[lo := (o + 1, 1)]> (delete hi B)).
  assert (x ≠ b) as Hxb by (intros ->; simplify_eq).
  unfold releasing. split_and!; simpl.
  - eapply merged_repr; [exact HR|naive_solver|lia| |by eapply page_ok_tail].
    apply page_ok_grow; [lia|done].
  - exists L'. split; [done|]. eapply (merged_free_lists B L' x b); eauto.
  - rewrite Ehi. eapply tiled_merge; eauto. by rewrite <-Ehi.
  - eapply coalesced_sub; [|exact HC]. intros i o1.
    rewrite lookup_insert_Some, lookup_delete_Some. naive_solver.
  - apply lookup_insert_eq.
  - rewrite in_use_insert by done. apply map_eq. intros i.
    destruct (decide (lo = i)) as [<-|Hi]; [by rewrite !lookup_insert_eq|].
    rewrite !lookup_insert_ne by done. unfold in_use. rewrite map_filter_delete.
    destruct (decide (hi = i)) as [<-|Hi']; rewrite ?lookup_delete_eq, ?(lookup_delete_ne _ hi) by done.
    + destruct Hc as [[_ ->]|[_ ->]]; [|by rewrite lookup_delete_eq].
      rewrite lookup_delete_ne by done. symmetry. by eapply in_use_not_free.
    + by rewrite lookup_delete_ne by naive_solver.
  - split; [|done]. intros i o1 r [Hi Hi']%lookup_delete_Some Hr.
    assert (b ≠ i) by (intros <-; simplify_eq).
    simpl. rewrite !lookup_insert_ne; [done|..]; naive_solver.
  - intros i o1 r [Hi Hi']%lookup_delete_Some Hr.
    assert (b ≠ i) by (intros <-; simplify_eq).
    rewrite lookup_delete_ne, lookup_insert_ne, lookup_delete_ne; naive_solver.
Qed.

Lemma MIN_min a b : MIN a b = Z.min a b.
Proof. unfold MIN. destruct (Z.ltb_spec b a); lia. Qed.
Lemma MAX_max a b : MAX a b = Z.max a b.
Proof. unfold MAX. destruct (Z.ltb_spec a b); lia. Qed.

Lemma page_ok_pgcnt o r p :
  page_ok (Some (o, r)) p → Z.shiftr (pg_size p) 12 = 2 ^ o.
Proof.
  intros (_ & _ & -> & _). rewrite Z.shiftr_div_pow2 by lia. change (2 ^ 12) with 4096.
  rewrite Z.mul_comm, Z.div_mul by lia. done.
Qed.

(** One round of the merging loop that joins the block with its buddy. *)
Lemma merge_join s B x b o (K : Z → M buddyAllocator Z) Q :
  releasing s B x o → o < 10 → b = buddy_of x o → B !! b = Some (o, 0) →
  (∀ s' B1, releasing s' B1 (Z.min b x) (o + 1) → same_regs s s' →
     in_use B1 = <[Z.min b x := (o + 1, 1)]> (delete x (in_use B)) →
     keeps_used (delete x B) s s' →
     (∀ i o r, delete x B !! i = Some (o, r) → r ≠ 0 → delete (Z.min b x) B1 !! i = Some (o, r)) →
     wp (K (Z.min b x)) Q s') →
  wp (on_list (list_del (Pg b));;
      p ← read_page (MIN b x);
      assertk (MIN b x + Z.shiftr (pg_size p) 12 =? MAX b x);;
      upd_page (MAX b x) (λ q, put_flag (CLEAR_BIT 16 (pg_flag q) PG_HEAD_BIT) q);;
      on_list (list_header_init (Pg (MAX b x)));;
      upd_page (MIN b x) (λ p, put_size (u32 (Z.shiftl (pg_size p) 1)) p);;
      K (MIN b x)) Q s.
Proof.
  intros Hrel Ho10 Eb Hb HK. rewrite MIN_min, MAX_max.
  pose proof Hrel as (HR & (L & HL & HF) & HT & HC & Hx).
  destruct (tiled_block _ _ HT _ _ _ Hx) as (Ho & Hdx & Hx0 & Hxn). pose proof (pow2_le10 o Ho).
  destruct (tiled_block _ _ HT _ _ _ Hb) as (_ & _ & Hb0 & Hbn).
  assert (Z.max b x = Z.min b x + 2 ^ o) as Ehi.
  { destruct (buddy_cases x o ltac:(lia) Hdx) as [[_ E]|[_ E]]; lia. }
  assert (∀ i, i = b ∨ i = x → ∃ p, pages s !! i = Some p ∧ page_ok (Some (o, 0)) p) as Hpg.
  { intros i Hi. destruct (HR i ltac:(lia)) as (p & Hp & Hok). exists p. split; [done|].
    destruct (decide (i = x)) as [->|]; [by rewrite lookup_insert_eq in Hok|].
    destruct Hi as [->|]; [|done]. by rewrite lookup_insert_ne, Hb in Hok. }
  destruct (Hpg (Z.min b x) ltac:(lia)) as (p & Hp & Hokp).
  destruct (Hpg (Z.max b x) ltac:(lia)) as (q & Hq & Hokq).
  wp_step. eapply wp_on_list; [apply (wp_linked_del _ _ L HL b o); [lia|by apply HF]|].
  intros [] h1 [(l & Hl & HL1) Hfr1].
  pose proof (free_lists_del B L b o l None HF Hb Ho Hl ltac:(done)) as HF1.
  wp_step. eapply wp_read_page; [exact Hp|]. wp_step. wp_step.
  { rewrite (page_ok_pgcnt _ _ _ Hokp). lia. }
  wp_step. eapply wp_upd_page; [exact Hq|]. wp_step. eapply wp_on_list.
  { apply (wp_linked_init _ _ _ HL1); [simpl; lia|]. eapply free_lists_not; [exact HF1|].
    intros o1 [? ?]%lookup_delete_Some. assert (Z.max b x = x) as E by lia. rewrite E in *. congruence. }
  intros [] h2 [HL2 Hfr2]. wp_step. eapply (wp_upd_page _ _ p); [simpl; by rewrite lookup_insert_ne by lia|].
  simpl in *.
  assert (∀ q, kept (delete x B) q → h2 !! q = heap s !! q) as Hfr.
  { intros q' Hq'. rewrite Hfr2, Hfr1; [done| |].
    - eapply kept_outside; [exact HF|]. eapply kept_sub; [|exact Hq'].
      intros i o1 r [_ Hi]%lookup_delete_Some Hr. eauto.
    - intros ->. destruct Hq' as (o1 & r & [? Hi]%lookup_delete_Some & Hr).
      assert (Z.max b x = b) as E by lia. rewrite E in *. congruence. }
  destruct (releasing_join s B x b o _ h2 _ p q Hrel Ho10 Eb Hb Hokp Hokq HL2 HF1 Hfr eq_refl)
    as (B1 & H1 & H2 & H3 & H4).
  by eapply HK.
Qed.

Lemma keeps_used_trans B1 B2 s1 s2 s3 :
  keeps_used B1 s1 s2 → keeps_used B2 s2 s3 →
  (∀ i o r, B1 !! i = Some (o, r) → r ≠ 0 → B2 !! i = Some (o, r)) → keeps_used B1 s1 s3.
Proof.
  intros [P1 H1] [P2 H2] HB. split.
  - intros i o r Hi Hr. rewrite (P2 i o r), (P1 i o r); eauto.
  - intros q Hq. rewrite H2, H1; [done|done|]. eapply kept_sub; [|exact Hq]. eauto.
Qed.

Lemma merge_loop_spec fuel x o B s :
  releasing s B x o → (Z.to_nat (10 - o) < fuel)%nat →
  wp (merge_loop fuel x o)
     (λ y s', ∃ B', released s s' B B' x ∧ ∃ o', B' !! y = Some (o', 0)) s.
Proof.
  revert x o B s. induction fuel as [|f IH]; intros x o B s Hrel Hf; [lia|].
  pose proof Hrel as (HR & _ & HT & HC & Hx).
  destruct (tiled_block _ _ HT _ _ _ Hx) as (Ho & Hdx & Hx0 & Hxn). pose proof (pow2_le10 o Ho).
  destruct (HR x ltac:(lia)) as (p & Hp & Hok). rewrite lookup_insert_eq in Hok.
  simpl. wp_step. eapply wp_read_page; [exact Hp|].
  replace ((ref_cnt p =? 0) && (o <=? MAX_ORDER)) with true; cycle 1.
  { destruct Hok as (_ & _ & _ & -> & _). unfold MAX_ORDER. simpl. lia. }
  wp_step. eapply get_buddy_spec; [done..|]. set (b := buddy_of x o).
  destruct (Z.leb_spec (pageCnt s) b) as [Hbn|Hbn].
  { wp_step. wp_step. apply (merge_stop s B x o Hrel).
    intros _ Hb. destruct (tiled_block _ _ HT _ _ _ Hb) as (_ & _ & _ & ?). unfold b in Hbn. lia. }
  destruct (tiled_buddy _ _ HT _ _ _ Hx Hbn) as (o' & r' & Hb & Ho'). fold b in Hb.
  assert (b ≠ x) as Hbx.
  { destruct (buddy_cases x o ltac:(lia) Hdx) as [[_ E]|[_ E]]; fold b in E; lia. }
  destruct (tiled_block _ _ HT _ _ _ Hb) as (Ho1 & _ & Hb0 & Hbn').
  destruct (HR b ltac:(lia)) as (q & Hq & Hokq). rewrite lookup_insert_ne, Hb in Hokq by done.
  wp_step. wp_step. eapply wp_read_page; [exact Hq|]. wp_step.
  destruct Hok as (Hm & Hh & Hsz & Href & ?), Hokq as (Hm' & Hh' & Hsz' & Href' & ?).
  destruct (_ || _ || _) eqn:Estop.
  - apply merge_stop; [done|]. fold b. rewrite Hb. intros Ho10 [= -> ->].
    rewrite Hsz', Hsz, Href', Z.eqb_refl in Estop. unfold MAX_ORDER in Estop. simpl in Estop. lia.
  - apply orb_false_iff in Estop as [[E1 E2]%orb_false_iff E3].
    apply negb_false_iff, Z.eqb_eq in E1. apply negb_false_iff, Z.eqb_eq in E2.
    apply Z.eqb_neq in E3. unfold MAX_ORDER in E3.
    assert (o' = o) as -> by (apply (Z.pow_inj_r 2); lia). assert (r' = 0) as -> by lia.
    wp_step. wp_step; [done|]. apply (merge_join s B x b o (λ y, merge_loop f y (o + 1))); [done|lia|done|done|].
    intros s1 B1 Hrel1 Hs1 EU Hk HB1. eapply wp_mono; [apply (IH _ _ B1 s1 Hrel1); lia|].
    intros y s2 (B' & (Hs2 & Hk2 & Hsh & HT2 & HC2 & EU2) & Hy). exists B'. split; [|done].
    pose proof Hs1 as (_ & _ & _ & En). rewrite En in HT2. unfold released. split_and!; try done.
    + by eapply same_regs_trans.
    + by eapply keeps_used_trans.
    + rewrite EU2, EU, delete_insert_eq. apply delete_id.
      destruct (decide (Z.min b x = x)) as [->|]; [by rewrite lookup_delete_eq|].
      assert (Z.min b x = b) as -> by lia. rewrite lookup_delete_ne by done. by eapply in_use_not_free.
Qed.

Definition freed (s s' : buddyAllocator) (B B' : blocks) (x : Z) : Prop :=
  buddy_inv s' B' ∧ in_use B' = delete x (in_use B) ∧ keeps_used (delete x B) s s' ∧
  pageCnt s' = pageCnt s ∧ a_addr s' = a_addr s ∧ a_size s' = a_size s.

Definition wlocked (k : rwlock_t) : rwlock_t := Rwlock (rw_lock k) (Spinlock 1) (rw_readers k).

Lemma wlock_lock_ok k :
  lk_flag (rw_writelock k) ≠ SPINLOCK_LOCKED → wlock_lock k = Ok (wlocked k).
Proof.
  intros Hl. unfold wlock_lock, spinlock_lock. simpl.
  by destruct (Z.eqb_spec (lk_flag (rw_writelock k)) SPINLOCK_LOCKED).
Qed.

Lemma wp_lift_res {S A} (r : res A) a (Q : A → S → Prop) s :
  r = Ok a → Q a s → wp (lift_res r) Q s.
Proof. intros -> HQ. done. Qed.

(** The descriptor of a block when its merging loop starts. *)
Definition cleared (p : page) : page :=
  let p := put_ref_cnt (u16 (1 - 1)) (put_rwlock (wlocked (pg_rwlock p)) p) in
  put_flag (Z.lor (pg_flag p) (Z.lor PG_Page PG_Head)) (put_data 0 p).

Lemma page_ok_cleared o p : page_ok (Some (o, 1)) p → page_ok (Some (o, 0)) (cleared p).
Proof.
  intros (? & ? & ? & Hr & ?). split; [done|]. split_and!; try done.
  unfold page_head. simpl. by apply page_head_or.
Qed.

Lemma free_spec s B x o :
  buddy_inv s B → B !! x = Some (o, 1) →
  wp (__free_page x) (λ _ s', ∃ B', freed s s' B B' x) s.
Proof.
  intros (Hl & Hn & HT & HC & HR & HL) Hx.
  destruct (tiled_block _ _ HT _ _ _ Hx) as (Ho & _ & Hx0 & Hxn). pose proof (pow2_le10 o Ho).
  destruct (HR x ltac:(lia)) as (p & Hp & Hok). rewrite Hx in Hok.
  pose proof Hok as (Hm & Hh & Hsz & Hr & _ & Hlk). specialize (Hlk ltac:(lia)).
  unfold __free_page. wp_step. eapply wp_read_page; [exact Hp|].
  wp_step. wp_step; [by rewrite Hr|]. wp_step. wp_step; [done|]. wp_step.
  eapply wp_lift_res; [by apply wlock_lock_ok|]. wp_step. eapply wp_upd_page; [exact Hp|].
  wp_step. eapply wp_upd_page; [apply lookup_insert_eq|].
  wp_step. eapply wp_read_page; [apply lookup_insert_eq|]. simpl. rewrite Hr. simpl.
  wp_step. eapply wp_log2_.
  { rewrite Hsz. apply (good_size_checks o Ho). }
  wp_step. eapply wp_upd_page; [apply lookup_insert_eq|].
  wp_step. eapply wp_upd_page; [apply lookup_insert_eq|]. simpl. rewrite !insert_insert_eq.
  wp_step. apply wp_lock_allocator; [done|]. wp_step.
  eapply wp_mono; [apply (merge_loop_spec 12 x o B); [|lia]|].
  { unfold releasing. simpl. split_and!; try done.
    apply repr_insert; [done|]. by apply page_ok_cleared. }
  intros y s2 (B' & ((El & Ea & Es & En) & Hk & [HR2 HL2] & HT2 & HC2 & EU) & o' & Hy).
  simpl in *. rewrite En in *.
  destruct (tiled_block _ _ HT2 _ _ _ Hy) as (Ho' & _ & Hy0 & Hyn). pose proof (pow2_le10 o' Ho').
  destruct (HR2 y ltac:(lia)) as (q & Hq & Hokq). rewrite Hy in Hokq.
  wp_step. eapply wp_upd_page; [exact Hq|]. unfold unlock_allocator. wp_go.
  exists B'. unfold freed, buddy_inv. simpl. rewrite En. split_and!; try done.
  - rewrite <-(insert_id B' y (o', 0)) by done. apply repr_insert; [done|].
    destruct Hokq as (? & ? & ? & ? & ?). split; [done|]. by split_and!.
  - split; [|exact (proj2 Hk)].
    intros i o1 r Hi Hr1. simpl. pose proof Hi as [Hxi HBi]%lookup_delete_Some.
    assert (in_use B' !! i = Some (o1, r)) as HB'i.
    { rewrite EU, lookup_delete_ne by done. by apply in_use_Some. }
    apply in_use_Some in HB'i as [HB'i _]. rewrite lookup_insert_ne by congruence.
    rewrite (proj1 Hk i o1 r Hi Hr1). simpl. by rewrite lookup_insert_ne.
Qed.
