(* ===== verification/PageAllocInit.v ===== *)
(** * Initialisation of the page allocator

    [pmm_init] turns the raw descriptor array into a state that satisfies the
    invariant of PageAllocCorrect.v, with every page of the region free: the
    region is cut into blocks from the largest order down. *)

From S2P Require Import Prelude QLib DList Locks Page PageAlloc BuddySpec PageAllocCorrect.
From Stdlib Require Import ZArith Lia.
From stdpp Require Import base countable numbers gmap list.
Open Scope Z_scope.

(** Memory for [n] descriptors and the list headers, with any contents. *)
Definition raw_memory (s : buddyAllocator) (n : Z) : Prop :=
  (∀ i, 0 ≤ i < n → is_Some (pages s !! i) ∧ is_Some (heap s !! Pg i)) ∧
  (∀ o, 0 ≤ o ≤ 10 → is_Some (heap s !! Root o)).

(** The first [m] of [n] pages are set up as the free blocks of [B]. *)
Definition setting (s : buddyAllocator) (n m : Z) (B : blocks) : Prop :=
  pageCnt s = n ∧ 0 ≤ m ≤ n ∧ shows s B B ∧ tiled m B ∧ coalesced B ∧ in_use B = ∅.

(** ** Adding a block at the end *)

Lemma tiled_extend m B o r :
  tiled m B → 0 ≤ m → (2 ^ o | m) → 0 ≤ o ≤ 10 →
  tiled (m + 2 ^ o) (<[m := (o, r)]> B).
Proof.
  intros HT Hm Hd Ho. pose proof (pow2_pos o ltac:(lia)).
  assert (∀ j, m ≤ j → B !! j = None) as Hout.
  { intros j Hj. destruct (B !! j) as [[o' r']|] eqn:E; [|done].
    destruct (tiled_block _ _ HT _ _ _ E) as (? & _ & _ & ?). pose proof (pow2_pos o' ltac:(lia)). lia. }
  split.
  - intros i o1 r1. rewrite lookup_insert_Some. intros [[<- [= <- <-]]|[Hne Hi]].
    + split_and!; try lia; [done|]. intros j Hj. rewrite lookup_insert_ne by lia. apply Hout. lia.
    + destruct (tiled_block _ _ HT _ _ _ Hi) as (?&?&?&?). split_and!; try lia; [done|].
      intros j Hj. rewrite lookup_insert_ne by lia. by apply (tiled_interior _ _ HT _ _ _ _ Hi).
  - intros j Hj. destruct (Z.lt_ge_cases j m).
    + destruct (proj2 HT j ltac:(lia)) as (i & o1 & r1 & Hi & Hij). exists i, o1, r1.
      rewrite lookup_insert_ne; [done|]. intros <-. by rewrite Hout in Hi by lia.
    + exists m, o, r. rewrite lookup_insert_eq. split; [done|lia].
Qed.

Lemma coalesced_extend m B o :
  tiled m B → coalesced B → 0 ≤ m → 0 ≤ o ≤ 10 → (2 ^ o | m) → (o < 10 → (2 ^ (o + 1) | m)) →
  coalesced (<[m := (o, 0)]> B).
Proof.
  intros HT HC Hm Ho Hd Hd1. pose proof (tiled_extend m B o 1 HT Hm Hd Ho) as HT1.
  pose proof (pow2_pos o ltac:(lia)).
  rewrite <-(insert_insert_eq _ m (o, 0) (o, 1)).
  eapply (coalesced_add (m + 2 ^ o)); [exact HT1| |by rewrite lookup_insert_eq|].
  - eapply coalesced_sub; [|exact HC]. intros i o1. rewrite lookup_insert_Some. naive_solver.
  - intros Ho10 Hb. specialize (Hd1 Ho10).
    assert (buddy_of m o = m + 2 ^ o) as Eb.
    { rewrite <-(buddy_upper m o ltac:(lia) Hd1) at 1. apply buddy_invol; [lia|].
      by apply Z.divide_add_r; [|exists 1; lia]. }
    rewrite Eb in Hb. destruct (tiled_block _ _ HT1 _ _ _ Hb) as (_ & _ & _ & ?). lia.
Qed.

Lemma page_ok_flag b p :
  page_ok b p → page_ok b (put_flag (Z.lor (pg_flag p) PG_Page) p).
Proof.
  assert (∀ f, truth (Z.land (Z.lor f PG_Page) PG_Head) = truth (Z.land f PG_Head)) as E.
  { intros f. rewrite Z.land_lor_distr_l. change (Z.land PG_Page PG_Head) with 0.
    by rewrite Z.lor_0_r. }
  intros [Hm Hb]. split; [done|]. destruct b as [[o r]|]; unfold page_head in *; simpl; by rewrite E.
Qed.

(** [s'] shows the same allocator as [s] up to the flag [PG_Page]. *)
Lemma setup_flags s n m B (c : nat) lo :
  setting s n m B → 0 ≤ lo → lo + Z.of_nat c ≤ n →
  wp (for_up c lo (λ k, upd_page k (λ p, put_flag (Z.lor (pg_flag p) PG_Page) p)))
     (λ _ s', setting s' n m B ∧ same_regs s s') s.
Proof.
  intros Hset Hlo Hc. apply (wp_for_up (λ _ s', setting s' n m B ∧ same_regs s s')); [done| |done].
  intros i s' Hi [Hs' Hr]. destruct Hs' as (En & Hm & [HR HL] & Hrest). rewrite En in *.
  destruct (HR i ltac:(lia)) as (p & Hp & Hok). eapply wp_upd_page; [exact Hp|].
  split; [|exact Hr]. split; [done|]. split; [done|]. split; [|done]. split; [|by rewrite <-En in HL].
  simpl. rewrite En. intros j Hj. destruct (decide (j = i)) as [->|Hne].
  - rewrite lookup_insert_eq. eexists. split; [done|]. by apply page_ok_flag.
  - rewrite lookup_insert_ne by done. by apply HR.
Qed.

Lemma setup_block_spec s n m B i :
  setting s n m B → 0 ≤ i ≤ 10 → m + 2 ^ i ≤ n → (2 ^ i | m) → (i < 10 → (2 ^ (i + 1) | m)) →
  wp (setup_block i (4096 * 2 ^ i) m)
     (λ m' s', m' = m + 2 ^ i ∧ setting s' n m' (<[m := (i, 0)]> B) ∧ same_regs s s') s.
Proof.
  intros (En & Hm & [HR (L & HL & HF)] & HT & HC & EU) Hi Hn Hd Hd1. pose proof (pow2_le10 i Hi).
  assert (B !! m = None) as Hnone.
  { destruct (B !! m) as [[o r]|] eqn:E; [|done].
    destruct (tiled_block _ _ HT _ _ _ E) as (? & _ & _ & ?). pose proof (pow2_pos o ltac:(lia)). lia. }
  rewrite En in *. destruct (HR m ltac:(lia)) as (p & Hp & Hok). rewrite Hnone in Hok.
  unfold setup_block. wp_step. eapply wp_upd_page; [exact Hp|].
  wp_step. eapply wp_upd_page; [apply lookup_insert_eq|]. simpl. rewrite insert_insert_eq.
  wp_step. eapply wp_on_list.
  { apply (wp_linked_add _ _ L HL); [done|lia|]. eapply free_lists_not; [done|]. by rewrite Hnone. }
  intros [] h' [HL' _]. wp_step. rewrite ORDER_CNT_eq by lia.
  eapply wp_mono; [apply (setup_flags _ n (m + 2 ^ i) (<[m := (i, 0)]> B))|].
  - split; [done|]. split; [lia|]. split; [split; simpl; rewrite En|split; [|split]].
    + apply repr_insert; [done|]. apply (page_ok_split p i Hok).
    + exists (upd L i (L i ++ [m])). split; [done|]. apply free_lists_add; [done| |done]. by rewrite Hnone.
    + by apply tiled_extend; try lia.
    + by eapply coalesced_extend; try lia.
    + rewrite in_use_free, EU. apply delete_empty.
  - lia.
  - rewrite Z2Nat.id by lia. lia.
  - intros _ s' [Hs Hr]. wp_go. split; [done|]. by split.
Qed.

Lemma setup_blocks_spec c s n m B i :
  setting s n m B → 0 ≤ i ≤ 10 → m + Z.of_nat c * 2 ^ i ≤ n → (2 ^ i | m) →
  (i < 10 → c = 0%nat ∨ (c = 1%nat ∧ (2 ^ (i + 1) | m))) →
  wp (setup_blocks c i (4096 * 2 ^ i) m)
     (λ m' s', m' = m + Z.of_nat c * 2 ^ i ∧ same_regs s s' ∧ ∃ B', setting s' n m' B') s.
Proof.
  revert s m B. induction c as [|c IH]; intros s m B Hset Hi Hn Hd Hc; simpl.
  { wp_go. split; [lia|]. split; [done|by exists B]. }
  pose proof (pow2_le10 i Hi).
  wp_step. eapply wp_mono; [apply (setup_block_spec s n m B i)|]; [done|done|nia|done|naive_solver|].
  intros m' s' (-> & Hset' & Hr).
  eapply wp_mono; [apply (IH s' _ _ Hset' Hi)|].
  - nia.
  - by apply Z.divide_add_r; [|exists 1; lia].
  - intros Hi10. left. destruct (Hc Hi10) as [|[? _]]; lia.
  - intros m' s2 (-> & Hr2 & HB). split; [lia|]. split; [by eapply same_regs_trans|done].
Qed.

(** [nn] orders are left; below the top order the rest is smaller than one block. *)
Lemma setup_orders_spec nn s n m B q :
  setting s n m B → (nn ≤ 11)%nat → 0 ≤ q → m + q ≤ n →
  ((nn < 11)%nat → q < 2 ^ Z.of_nat nn ∧ (2 ^ Z.of_nat nn | m)) → (nn = 11%nat → m = 0) →
  wp (setup_orders nn (4096 * q) m)
     (λ m' s', m' = m + q ∧ same_regs s s' ∧ ∃ B', setting s' n m' B') s.
Proof.
  revert s m B q. induction nn as [|k IH]; intros s m B q Hset Hnn Hq Hn Hlt Htop; simpl.
  { destruct (Hlt ltac:(lia)) as [Hq0 _]. simpl in Hq0. wp_go.
    assert (q = 0) as -> by lia. rewrite Z.add_0_r. eauto. }
  destruct (Z.ltb_spec 0 (4096 * q)) as [Hpos|Hz]; simpl; cycle 1.
  { wp_go. assert (q = 0) as -> by lia. rewrite Z.add_0_r. eauto. }
  set (i := Z.of_nat k). pose proof (pow2_le10 i ltac:(lia)) as Hp.
  rewrite ORDER_SIZE_eq by lia.
  assert ((2 ^ i | m) ∧ (i < 10 → (2 ^ (i + 1) | m))) as [Hd Hd1].
  { destruct (decide (S k = 11)%nat) as [E|E].
    - rewrite (Htop E). split; [apply Z.divide_0_r|]. intros _. apply Z.divide_0_r.
    - destruct (Hlt ltac:(lia)) as [_ Hd]. replace (Z.of_nat (S k)) with (i + 1) in Hd by lia.
      split; [|done]. etrans; [apply (pow2_divide i (i + 1)); lia|done]. }
  destruct (Z.ltb_spec (4096 * q) (4096 * 2 ^ i)) as [Hsm|Hbig].
  { apply (IH s m B q); try done; try lia. intros _. fold i. split; [lia|done]. }
  rewrite Z.div_mul_cancel_l, Z.mul_mod_distr_l by lia.
  assert (0 ≤ q / 2 ^ i) as Hqd by (apply Z.div_pos; lia).
  pose proof (Z.div_mod q (2 ^ i) ltac:(lia)) as Edm. pose proof (Z.mod_pos_bound q (2 ^ i) ltac:(lia)).
  wp_step. eapply wp_mono; [apply (setup_blocks_spec (Z.to_nat (q / 2 ^ i)) s n m B i)|].
  - done.
  - lia.
  - rewrite Z2Nat.id by lia. nia.
  - done.
  - intros Hi10. right. split; [|by apply Hd1]. destruct (Hlt ltac:(lia)) as [Hq1 _].
    replace (Z.of_nat (S k)) with (i + 1) in Hq1 by lia. rewrite pow2_succ in Hq1 by lia.
    assert (q / 2 ^ i = 1) as -> by (symmetry; apply (Z.div_unique q (2 ^ i) 1 (q - 2 ^ i)); lia).
    done.
  - rewrite Z2Nat.id by lia. intros m' s' (-> & Hr & B' & Hset').
    eapply wp_mono; [apply (IH s' _ B' (q mod 2 ^ i) Hset')|]; try lia.
    + intros _. fold i. split; [lia|]. apply Z.divide_add_r; [done|]. by exists (q / 2 ^ i).
    + intros m' s2 (-> & Hr2 & HB). split; [nia|]. split; [by eapply same_regs_trans|done].
Qed.

Lemma page_setup_spec s n B addr size :
  setting s n 0 B → n < 2 ^ 32 → 0 ≤ addr → addr + 4095 < 2 ^ 32 →
  PAGE_FLOOR addr - addr ≤ size < 2 ^ 32 → size / 4096 ≤ n →
  wp (page_setup 0 addr size)
     (λ m s', m = (size - (PAGE_FLOOR addr - addr)) / 4096 ∧ (∃ B', setting s' n m B') ∧
        a_addr s' = a_addr s ∧ a_size s' = u32 (a_size s + Z.shiftl m 12)) s.
Proof.
  intros Hset Hn32 Ha0 Ha Hsz Hn. pose proof (PAGE_FLOOR_eq addr) as EF.
  assert (0 ≤ PAGE_FLOOR addr - addr ≤ 4095) as Hd.
  { rewrite EF by lia. pose proof (Z.div_mod (addr + 4095) 4096).
    pose proof (Z.mod_pos_bound (addr + 4095) 4096). lia. }
  set (d := PAGE_FLOOR addr - addr) in *.
  pose proof Hset as (En & Hm & _). unfold page_setup. wp_step. wp_step. wp_step. wp_step.
  { rewrite En, Z.sub_0_r, u32_small, Z.shiftr_div_pow2 by lia. change (2 ^ 12) with 4096. lia. }
  rewrite (u32_small (PAGE_FLOOR addr - addr)) by lia. fold d.
  rewrite (u32_small (size - d)), PAGE_CEIL_eq by lia.
  assert ((size - d) / 4096 ≤ size / 4096) by (apply Z.div_le_mono; lia).
  assert (0 ≤ (size - d) / 4096) by (apply Z.div_pos; lia).
  wp_step. eapply wp_mono; [apply (setup_orders_spec 11 s n 0 B); (done || lia)|].
  intros m s' (-> & (_ & Ea & Es & Ec) & B' & HB'). wp_go. simpl.
  rewrite Es, Z.sub_0_r. split; [done|]. split; [|done]. by exists B'.
Qed.

(** After the two loops of [pmm_init] nothing is set up yet. *)
Definition blank_upto (s : buddyAllocator) (n i : Z) : Prop :=
  pageCnt s = n ∧ raw_memory s n ∧
  ∀ j, 0 ≤ j < i → ∃ p, pages s !! j = Some p ∧ page_ok None p.

Lemma init_page_spec s n i a z :
  blank_upto s n i → 0 ≤ i < n → a_addr s = a → a_size s = z →
  wp (init_page i) (λ _ s', blank_upto s' n (i + 1) ∧ a_addr s' = a ∧ a_size s' = z) s.
Proof.
  intros (En & [Hraw Hroot] & Hb) Hi Ea Ez. destruct (Hraw i Hi) as [[p Hp] Hh].
  unfold init_page. do 4 (wp_step; eapply wp_upd_page; [first [exact Hp|apply lookup_insert_eq]|]).
  wp_step. eapply wp_upd_page; [apply lookup_insert_eq|]. simpl. rewrite !insert_insert_eq.
  eapply wp_on_list; [by apply wp_list_header_init|]. intros [] h' [_ Hk].
  split; [|by simpl]. split; [done|]. split; [split|]; simpl.
  - intros j Hj. split; [|by eapply keeps_mapped; [exact Hk|apply Hraw]].
    destruct (decide (j = i)) as [->|]; [rewrite lookup_insert_eq; eauto|].
    rewrite lookup_insert_ne by done. by apply Hraw.
  - intros o Ho. eapply keeps_mapped; [exact Hk|]. by apply Hroot.
  - intros j Hj. destruct (decide (j = i)) as [->|].
    + rewrite lookup_insert_eq. eexists. split; [done|]. by repeat split.
    + rewrite lookup_insert_ne by done. apply Hb. lia.
Qed.

Lemma init_roots_spec s n a z :
  blank_upto s n n → 0 ≤ n → a_addr s = a → a_size s = z →
  wp (for_up (Z.to_nat (MAX_ORDER + 1)) 0 (λ j, on_list (list_header_init (Root j))))
     (λ _ s', setting s' n 0 ∅ ∧ a_addr s' = a ∧ a_size s' = z) s.
Proof.
  intros Hs Hn Ea Ez.
  apply (wp_for_up (λ o s', (blank_upto s' n n ∧ a_addr s' = a ∧ a_size s' = z) ∧
                            ∀ o', 0 ≤ o' < o → dl (heap s') (Root o') [])).
  - split; [done|]. lia.
  - intros o s' Ho [[(En & [Hraw Hroot] & Hb) HA] Hd]. eapply wp_on_list.
    { apply wp_list_header_init, Hroot. unfold MAX_ORDER in Ho. lia. }
    intros [] h' [Hd' Hk]. split.
    + split; [|done]. split; [done|]. split; [split|done]; simpl.
      * intros j Hj. split; [by apply Hraw|]. eapply keeps_mapped; [exact Hk|]. by apply Hraw.
      * intros o' Ho'. eapply keeps_mapped; [exact Hk|]. by apply Hroot.
    + simpl. intros o' Ho'. destruct (decide (o' = o)) as [->|]; [done|].
      eapply keeps_dl; [exact Hk| |apply Hd; lia]. set_solver.
  - intros s' [[(En & [Hraw Hroot] & Hb) HA] Hd]. split; [|done].
    split; [done|]. split; [lia|]. split; [split|split; [|split]].
    + rewrite En. intros i Hi. rewrite lookup_empty. by apply Hb.
    + exists (λ _, []). rewrite En. split; [split|].
      * intros o Ho. apply Hd. unfold MAX_ORDER. simpl. lia.
      * split; [intros; by apply Hraw|]. intros o o' i _ _ Hin. by apply elem_of_nil in Hin.
      * intros o i _. rewrite lookup_empty, elem_of_nil. naive_solver.
    + split; [|lia]. intros i o r. by rewrite lookup_empty.
    + intros i o. by rewrite lookup_empty.
    + apply map_filter_empty.
Qed.

Lemma pmm_init_spec s n start addr size :
  raw_memory s n → pageCnt s = n → 0 ≤ n < 2 ^ 32 →
  0 ≤ addr → addr + 4095 < 2 ^ 32 →
  PAGE_FLOOR addr - addr ≤ size < 2 ^ 32 → size / 4096 ≤ n →
  wp (pmm_init start [(addr, size)])
     (λ _ s', ∃ B', buddy_inv s' B' ∧ in_use B' = ∅ ∧ a_addr s' = PAGE_FLOOR start ∧
        pageCnt s' = (size - (PAGE_FLOOR addr - addr)) / 4096 ∧
        a_size s' = u32 (4096 * pageCnt s')) s.
Proof.
  intros Hraw En Hn Ha0 Ha Hsz Hfit. unfold pmm_init. do 5 wp_step. wp_step. wp_step. simpl.
  rewrite En. eapply wp_for_up with
    (I := λ i s', blank_upto s' n i ∧ a_addr s' = PAGE_FLOOR start ∧ a_size s' = 0).
  - split; [|done]. split; [done|]. split; [done|]. lia.
  - intros i s' Hi (Hb & Ea & Ez). apply init_page_spec; try done. lia.
  - intros s1 (Hb & Ea & Ez). rewrite Z2Nat.id, Z.add_0_l in Hb by lia.
    wp_step. eapply wp_mono; [apply (init_roots_spec s1 n _ _ Hb ltac:(lia) Ea Ez)|].
    intros [] s2 (Hset & Ea2 & Ez2). unfold setup_regions. wp_step. wp_step.
    eapply wp_mono; [apply (page_setup_spec s2 n ∅ addr size); (done || lia)|].
    intros m s3 (-> & (B' & Ec & Hm & [HR (L & HL & HF)] & HT & HC & EU) & Ea3 & Ez3).
    wp_go. exists B'. rewrite Ec in *. unfold buddy_inv. simpl. split_and!; try done; try lia.
    + intros i Hi. apply HR. lia.
    + exists L. split; [|done]. destruct HL as (H1 & H2 & H3). split; [done|]. split; [|done].
      intros i Hi. apply H2. lia.
    + rewrite Ez3, Ez2, Z.shiftl_mul_pow2 by lia. f_equal. lia.
Qed.
