(* ===== verification/PageAllocProps.v ===== *)
(** * What the page allocator promises

    The properties of mm/page_alloc.c: allocation and release on the block map,
    their errors, the life of the blocks under a client that calls them in any
    order, and the translation between pages and physical addresses. *)

From S2P Require Import Prelude QLib DList Locks Page PageAlloc BuddySpec PageAllocCorrect PageAllocInit.
From Stdlib Require Import ZArith Lia.
From stdpp Require Import base countable numbers relations gmap list.
Open Scope Z_scope.

(** An aligned run of [2^k] free pages starts at [a]. *)
Definition free_run (B : blocks) (k a : Z) : Prop :=
  (2 ^ k | a) ∧ ∀ j, a ≤ j < a + 2 ^ k → page_free B j.

Lemma free_run_block s B k :
  buddy_inv s B → 0 ≤ k ≤ 10 →
  (∃ a, free_run B k a) ↔ (∃ o y, k ≤ o ∧ B !! y = Some (o, 0)).
Proof.
  intros (_ & _ & HT & HC & _) Hk. split.
  - intros (a & Hd & Hf).
    destruct (coalesced_run _ B (Z.to_nat k) a HT HC) as (i & o & Hi & Ho & _);
      rewrite ?Z2Nat.id by lia; try done; [lia|]. rewrite Z2Nat.id in Ho by lia. eauto.
  - intros (o & y & Ho & Hy). exists y. destruct (tiled_block _ _ HT _ _ _ Hy) as (Ho' & Hd & _).
    split; [by etrans; [apply (pow2_divide k o); lia|]|].
    intros j Hj. exists y, o. split; [done|].
    pose proof (Z.pow_le_mono_r 2 k o ltac:(lia) ltac:(lia)). lia.
Qed.

(** A block handed out lies in free pages. *)
Lemma allocated_free s s' B B' k x :
  buddy_inv s B → allocated s s' B B' k x →
  0 ≤ x ∧ x + 2 ^ k ≤ pageCnt s ∧ free_run B k x.
Proof.
  intros (_ & _ & HT & _) ((_ & _ & HT' & _) & _ & (o & Ho & Hx) & Hx' & _ & En & _).
  rewrite En in HT'. destruct (tiled_block _ _ HT' _ _ _ Hx') as (Hk & Hd & Hx0 & Hxn).
  split; [lia|]. split; [lia|]. split; [done|]. intros j Hj. exists x, o. split; [done|].
  pose proof (Z.pow_le_mono_r 2 k o ltac:(lia) ltac:(lia)). lia.
Qed.

(** C19: [__alloc_page] with a size that rounds up to [2^k] pages (k at most 10)
    succeeds whenever some aligned run of [2^k] pages is free.  The block it
    returns is aligned, lies inside the managed area and consisted of free
    pages; afterwards it is the only new block in use, with reference count 1,
    the invariant holds again and the descriptors of the other blocks in use are
    unchanged. *)
Theorem alloc_page_correct s B size k a :
  buddy_inv s B → good_size size k → free_run B k a →
  ∃ x s' B', __alloc_page size s = Ok (x, s') ∧ buddy_inv s' B' ∧
    in_use B' = <[x := (k, 1)]> (in_use B) ∧
    0 ≤ x ∧ x + 2 ^ k ≤ pageCnt s ∧ free_run B k x ∧
    keeps_used B s s' ∧ a_size s' = u32 (a_size s - 4096 * 2 ^ k).
Proof.
  intros Hi Hg Ha. destruct (alloc_spec s B size k Hi Hg) as [Hw|[_ Hno]].
  - apply wp_elim in Hw as (x & s' & E & B' & Hal). exists x, s', B'. split; [done|].
    destruct (allocated_free _ _ _ _ _ _ Hi Hal) as (? & ? & ?).
    destruct Hal as (? & ? & _ & _ & ? & _ & _ & ?). by split_and!.
  - destruct (proj1 (free_run_block s B k Hi (proj1 Hg))) as (o & y & Ho & Hy); [by exists a|].
    by destruct (Hno o y Ho).
Qed.

(** When no aligned run of [2^k] pages is free, [__alloc_page] panics (its
    [assertk(page != NULL)]); nothing else can make it fail on a good size. *)
Theorem alloc_page_exhausted s B size k :
  buddy_inv s B → good_size size k → (∀ a, ¬ free_run B k a) →
  __alloc_page size s = Err Assert.
Proof.
  intros Hi Hg Hno. destruct (alloc_spec s B size k Hi Hg) as [Hw|[E _]]; [|done].
  apply wp_elim in Hw as (x & s' & _ & B' & Hal).
  apply (allocated_free _ _ _ _ _ _ Hi) in Hal as (_ & _ & Hf). by destruct (Hno x).
Qed.

(** [__free_page] on a block in use with one reference succeeds: exactly
    that block leaves the blocks in use, free buddies are merged again (the map
    is coalesced), the lock of the allocator is released, and the descriptors of
    the other blocks in use are unchanged. *)
Theorem free_page_correct s B x o :
  buddy_inv s B → B !! x = Some (o, 1) →
  ∃ s' B', __free_page x s = Ok (tt, s') ∧ buddy_inv s' B' ∧
    in_use B' = delete x (in_use B) ∧ keeps_used (delete x B) s s' ∧
    a_size s' = a_size s.
Proof.
  intros Hi Hx. destruct (wp_elim _ _ _ (free_spec s B x o Hi Hx)) as ([] & s' & E & B' & Hf).
  exists s', B'. destruct Hf as (? & ? & ? & _ & _ & ?). by split_and!.
Qed.

(** Releasing a block just allocated restores the block map exactly: the
    splits of the allocation are undone by the merges of the release. *)
Theorem alloc_free_restores s B size k x s1 s2 :
  buddy_inv s B → good_size size k →
  __alloc_page size s = Ok (x, s1) → __free_page x s1 = Ok (tt, s2) →
  buddy_inv s2 B.
Proof.
  intros Hi Hg E1 E2. destruct (alloc_spec s B size k Hi Hg) as [Hw|[E _]]; [|congruence].
  apply wp_elim in Hw as (x' & s1' & E & B1 & Hal). rewrite E1 in E. injection E as <- <-.
  destruct Hal as (Hi1 & EU1 & (o & _ & Hx) & Hx1 & _ & En1 & _).
  destruct (wp_elim _ _ _ (free_spec s1 B1 x k Hi1 Hx1)) as ([] & s2' & E & B2 & Hf).
  rewrite E2 in E. injection E as <-. destruct Hf as (Hi2 & EU2 & _ & En2 & _).
  assert (B2 = B) as <-; [|done].
  pose proof Hi as (_ & _ & HT & HC & _). pose proof Hi2 as (_ & _ & HT2 & HC2 & _).
  rewrite En2, En1 in HT2. apply (coalesced_unique (pageCnt s)); try done.
  rewrite EU2, EU1, delete_insert_eq. apply delete_id. by eapply in_use_not_free.
Qed.

(** ** Sizes *)

Lemma fixSize_cases size :
  0 < size ≤ 2 ^ 31 → ∃ k, 0 ≤ k ≤ 31 ∧ fixSize size = 2 ^ k ∧ size ≤ 2 ^ k < 2 * size.
Proof.
  intros Hs. destruct (Z.log2_spec size ltac:(lia)) as [H1 H2]. rewrite <-Z.add_1_r in H2.
  pose proof (Z.log2_nonneg size) as H0. rewrite pow2_succ in H2 by done.
  assert (Z.log2 size ≤ 31) 
    by (change 31 with (Z.log2 (2 ^ 31)); apply Z.log2_le_mono; lia).
  destruct (Z.eq_dec size (2 ^ Z.log2 size)) as [E|E].
  - exists (Z.log2 size). split; [lia|]. split; [|lia].
    rewrite E at 1. apply fixSize_pow2. lia.
  - assert (Z.log2 size ≠ 31) by (intros E31; rewrite E31 in *; lia).
    exists (Z.log2 size + 1). rewrite fixSize_up by lia. rewrite pow2_succ by lia.
    pose proof (Z.pow_le_mono_r 2 (Z.log2 size) 30 ltac:(lia) ltac:(lia)).
    rewrite u32_small by lia. split_and!; lia.
Qed.

Lemma alloc_assert size s :
  (0 <? fixSize size) && (fixSize size <=? 4 * 0x100000) && (Z.land (fixSize size) PAGE_MASK =? 0) = false →
  __alloc_page size s = Err Assert.
Proof. intros E. unfold __alloc_page. apply bind_Err. unfold assertk. by rewrite E. Qed.

(** the request sizes.  A size of 2049 bytes to 4 MiB is rounded up to the
    least number of pages [2^k] that holds it; every other size makes
    [__alloc_page] panic before it touches the state. *)
Theorem alloc_size_cases size :
  0 ≤ size < 2 ^ 32 →
  (2048 < size ≤ 2 ^ 22 → ∃ k, good_size size k ∧ size ≤ 4096 * 2 ^ k ∧
      ∀ j, 0 ≤ j → size ≤ 4096 * 2 ^ j → k ≤ j) ∧
  (size ≤ 2048 ∨ 2 ^ 22 < size → ∀ s, __alloc_page size s = Err Assert).
Proof.
  intros Hs. split.
  - intros Hr. destruct (fixSize_cases size ltac:(lia)) as (k & Hk & E & Hle).
    assert (12 ≤ k ≤ 22) as Hk2.
    { split; apply Z.nlt_ge; intros Hlt.
      - pose proof (Z.pow_le_mono_r 2 k 11 ltac:(lia) ltac:(lia)). lia.
      - pose proof (Z.pow_le_mono_r 2 23 k ltac:(lia) ltac:(lia)). lia. }
    assert (2 ^ k = 4096 * 2 ^ (k - 12)) as Ek.
    { change 4096 with (2 ^ 12). rewrite <-Z.pow_add_r by lia. f_equal. lia. }
    exists (k - 12). split; [split; [lia|by rewrite E]|]. split; [lia|].
    intros j Hj Hsj. apply Z.nlt_ge. intros Hlt.
    pose proof (Z.pow_le_mono_r 2 (j + 1) (k - 12) ltac:(lia) ltac:(lia)).
    rewrite pow2_succ in * by lia. lia.
  - intros Hr s. apply alloc_assert. destruct (Z.eq_dec size 0) as [->|Hz]; [done|].
    destruct (Z.le_gt_cases size (2 ^ 31)) as [Hle|Hgt].
    + destruct (fixSize_cases size ltac:(lia)) as (k & Hk & -> & Hb). destruct Hr as [Hr|Hr].
      * assert (k ≤ 11) by (apply Z.nlt_ge; intros Hlt;
          pose proof (Z.pow_le_mono_r 2 12 k ltac:(lia) ltac:(lia)); lia).
        apply andb_false_iff. right. change PAGE_MASK with (Z.ones 12). rewrite Z.land_ones by lia.
        pose proof (Z.pow_le_mono_r 2 k 11 ltac:(lia) ltac:(lia)). pose proof (pow2_pos k ltac:(lia)).
        rewrite Z.mod_small by lia. lia.
      * apply andb_false_iff. left. lia.
    + rewrite fixSize_up; [|lia|]; rewrite (Z.log2_unique size 31) by lia; [done|lia].
Qed.

(** ** The life of blocks under a client

    A client allocates in any order and releases what it owns.  [own] is the
    specification's state: the first page and the order of the owned blocks. *)

Inductive client_step : buddyAllocator * gmap Z Z → buddyAllocator * gmap Z Z → Prop :=
  | c_alloc s own size k x s' :
      good_size size k → __alloc_page size s = Ok (x, s') →
      client_step (s, own) (s', <[x := k]> own)
  | c_free s own x k s' :
      own !! x = Some k → __free_page x s = Ok (tt, s') →
      client_step (s, own) (s', delete x own).

(** [own] is what the allocator state has in use. *)
Definition owns (n : Z) (s : buddyAllocator) (own : gmap Z Z) : Prop :=
  ∃ B, buddy_inv s B ∧ in_use B = (λ k, (k, 1)) <$> own ∧ pageCnt s = n.

Lemma owns_block (own : gmap Z Z) B x k :
  in_use B = (λ k, (k, 1)) <$> own → own !! x = Some k → B !! x = Some (k, 1).
Proof.
  intros EU Hx. assert (in_use B !! x = Some (k, 1)) as Hu by (by rewrite EU, lookup_fmap, Hx).
  by apply in_use_Some in Hu as [? _].
Qed.

Lemma client_step_owns n c c' :
  client_step c c' → owns n c.1 c.2 → owns n c'.1 c'.2.
Proof.
  intros [s own size k x s' Hg E|s own x k s' Hx E] (B & Hi & EU & En); simpl in *.
  - destruct (alloc_spec s B size k Hi Hg) as [Hw|[E' _]]; [|congruence].
    apply wp_elim in Hw as (x' & s1 & E' & B' & Hi' & EU' & _ & _ & _ & En' & _).
    rewrite E in E'. injection E' as <- <-. exists B'. split; [done|]. split; [|congruence].
    by rewrite EU', EU, fmap_insert.
  - pose proof (owns_block own B x k EU Hx) as HB.
    destruct (wp_elim _ _ _ (free_spec s B x k Hi HB)) as ([] & s1 & E' & B' & Hi' & EU' & _ & En' & _).
    rewrite E in E'. injection E' as <-. exists B'. split; [done|]. split; [|congruence].
    by rewrite EU', EU, fmap_delete.
Qed.

(** An aligned run of [2^k] pages of the area that meets no owned block. *)
Definition room (n : Z) (own : gmap Z Z) (k a : Z) : Prop :=
  (2 ^ k | a) ∧ 0 ≤ a ∧ a + 2 ^ k ≤ n ∧
  ∀ y l, own !! y = Some l → y + 2 ^ l ≤ a ∨ a + 2 ^ k ≤ y.

Lemma room_free_run n s own B k a :
  buddy_inv s B → in_use B = (λ k, (k, 1)) <$> own → pageCnt s = n →
  0 ≤ k → room n own k a → free_run B k a.
Proof.
  intros (_ & _ & HT & _) EU En Hk (Hd & Ha & Han & Hr). split; [done|]. intros j Hj.
  apply (page_free_iff (pageCnt s) B j HT). split; [lia|].
  intros i o r Hi Hij. rewrite EU, lookup_fmap_Some in Hi. destruct Hi as (l & [= <- <-] & Hl).
  destruct (Hr i l Hl); lia.
Qed.

Lemma alloc_room n s own B size k x s' :
  buddy_inv s B → in_use B = (λ k, (k, 1)) <$> own → pageCnt s = n →
  good_size size k → __alloc_page size s = Ok (x, s') → room n own k x.
Proof.
  intros Hi EU En Hg E. destruct (alloc_spec s B size k Hi Hg) as [Hw|[E' _]]; [|congruence].
  apply wp_elim in Hw as (x' & s1 & E' & B' & Hal). rewrite E in E'. injection E' as <- <-.
  destruct (allocated_free _ _ _ _ _ _ Hi Hal) as (Hx0 & Hxn & Hd & Hfree). rewrite En in *.
  split_and!; try done. intros y l Hy. pose proof (owns_block own B y l EU Hy) as HB.
  destruct Hal as (_ & _ & (o & Ho & Hx) & _). destruct Hi as (_ & _ & HT & _), Hg as [? _].
  pose proof (Z.pow_le_mono_r 2 k o ltac:(lia) ltac:(lia)).
  assert (x ≠ y) as Hne by congruence.
  destruct (tiled_disjoint _ _ HT _ _ _ _ _ _ Hx HB Hne); [right|left]; lia.
Qed.

Lemma client_run_owns n c c' :
  rtc client_step c c' → owns n c.1 c.2 → owns n c'.1 c'.2.
Proof. induction 1 as [|c1 c2 c3 Hst _ IH]; [done|]. intros Ho. by eapply IH, client_step_owns. Qed.

(** C1: the allocator implements ownership of disjoint blocks.  In every state a
    client can reach from a fresh allocator, by allocations of good sizes and
    releases of owned blocks in any order: the owned blocks are aligned, inside
    the area and pairwise disjoint; every owned block can be released; and an
    allocation succeeds exactly when an aligned run of pages outside the owned
    blocks is left, and then returns such a run. *)
Theorem client_owns_disjoint s0 B0 s own :
  buddy_inv s0 B0 → in_use B0 = ∅ → rtc client_step (s0, ∅) (s, own) →
  (∀ x k, own !! x = Some k → (2 ^ k | x) ∧ 0 ≤ x ∧ x + 2 ^ k ≤ pageCnt s0) ∧
  (∀ x k y l, own !! x = Some k → own !! y = Some l → x ≠ y → x + 2 ^ k ≤ y ∨ y + 2 ^ l ≤ x) ∧
  (∀ x k, own !! x = Some k → ∃ s', __free_page x s = Ok (tt, s')) ∧
  (∀ size k, good_size size k →
     ((∃ a, room (pageCnt s0) own k a) ↔ ∃ x s', __alloc_page size s = Ok (x, s')) ∧
     (∀ x s', __alloc_page size s = Ok (x, s') → room (pageCnt s0) own k x)).
Proof.
  intros Hi0 EU0 Hrun.
  destruct (client_run_owns (pageCnt s0) _ _ Hrun) as (B & Hi & EU & En); simpl in *.
  { exists B0. simpl. by rewrite fmap_empty. }
  pose proof Hi as (_ & _ & HT & _). rewrite En in HT.
  split_and!.
  - intros x k Hx. apply (owns_block own B x k EU) in Hx.
    destruct (tiled_block _ _ HT _ _ _ Hx) as (? & ? & ? & ?). by split_and!.
  - intros x k y l Hx Hy. apply (tiled_disjoint _ _ HT x k 1 y l 1); by eapply owns_block.
  - intros x k Hx. apply (owns_block own B x k EU) in Hx.
    destruct (wp_elim _ _ _ (free_spec s B x k Hi Hx)) as ([] & s1 & E & _). eauto.
  - intros size k Hg. split; [|by intros; eapply alloc_room]. split; [|intros (x & s' & E); exists x; by eapply alloc_room].
    intros [a Ha]. pose proof (room_free_run _ s own B k a Hi EU En ltac:(destruct Hg; lia) Ha) as Hf.
    destruct (alloc_spec s B size k Hi Hg) as [Hw|[_ Hno]].
    + apply wp_elim in Hw as (x & s' & E & _). eauto.
    + destruct (proj1 (free_run_block s B k Hi (proj1 Hg))) as (o & y & Ho & Hy); [by exists a|].
      by destruct (Hno o y Ho).
Qed.

(** ** Initialisation *)

(** [pmm_init] on raw memory for the descriptors and one memory region
    establishes the invariant; every page of the region, cut to whole pages, is
    free, none is in use, and the free size counts them all. *)
Theorem pmm_init_correct s n start addr size :
  raw_memory s n → pageCnt s = n → 0 ≤ n < 2 ^ 32 →
  0 ≤ addr → addr + 4095 < 2 ^ 32 →
  PAGE_FLOOR addr - addr ≤ size < 2 ^ 32 → size / 4096 ≤ n →
  ∃ s' B', pmm_init start [(addr, size)] s = Ok (tt, s') ∧ buddy_inv s' B' ∧
    in_use B' = ∅ ∧ a_addr s' = PAGE_FLOOR start ∧
    pageCnt s' = (size - (PAGE_FLOOR addr - addr)) / 4096 ∧
    a_size s' = u32 (4096 * pageCnt s') ∧ ∀ j, 0 ≤ j < pageCnt s' → page_free B' j.
Proof.
  intros H1 H2 H3 H4 H5 H6 H7.
  destruct (wp_elim _ _ _ (pmm_init_spec s n start addr size H1 H2 H3 H4 H5 H6 H7))
    as ([] & s' & E & B' & Hi & EU & Ea & Ec & Ez).
  exists s', B'. split_and!; try done. intros j Hj. destruct Hi as (_ & _ & HT & _).
  apply (page_free_iff _ B' j HT). split; [done|]. intros i o r. by rewrite EU.
Qed.

(** ** Addresses *)

(** The physical area of the allocator: aligned and below 4 GiB. *)
Definition area_ok (s : buddyAllocator) : Prop :=
  0 ≤ a_addr s ∧ (4096 | a_addr s) ∧ a_addr s + 4096 * pageCnt s ≤ 2 ^ 32.

Lemma page_addr_ok s x :
  area_ok s → 0 ≤ x < pageCnt s → page_addr x s = Ok (a_addr s + 4096 * x, s).
Proof.
  intros (Ha & _ & Hn) Hx. unfold page_addr, gets. rewrite Z.shiftl_mul_pow2 by lia.
  change (2 ^ 12) with 4096. rewrite (u32_small (x * 4096)), u32_small by lia. do 3 f_equal. lia.
Qed.

Lemma aligned_mask a : (4096 | a) → Z.land a PAGE_MASK = 0.
Proof.
  intros [q ->]. change PAGE_MASK with (Z.ones 12). rewrite Z.land_ones by lia.
  change (2 ^ 12) with 4096. apply Z.mod_mul. lia.
Qed.

Lemma get_page_ok s B x :
  buddy_inv s B → area_ok s → 0 ≤ x < pageCnt s →
  get_page (a_addr s + 4096 * x) s = Ok (Some x, s).
Proof.
  intros (_ & _ & _ & _ & HR & _) (Ha & Hd & Hn) Hx. unfold get_page.
  rewrite aligned_mask by (apply Z.divide_add_r; [done|by exists x; lia]). simpl.
  erewrite bind_Ok by reflexivity. rewrite (proj2 (Z.ltb_ge _ _)) by lia.
  replace (a_addr s + 4096 * x - a_addr s) with (4096 * x) by lia.
  rewrite u32_small, Z.shiftr_div_pow2 by lia. change (2 ^ 12) with 4096.
  rewrite Z.mul_comm, Z.div_mul by lia. destruct (HR x Hx) as (p & Hp & Hm & _).
  assert (read_page x s = Ok (p, s)) as Er.
  { unfold read_page, mbind, M_bind, get, deref. by rewrite Hp. }
  erewrite bind_Ok by exact Er. unfold assertk. by rewrite Hm.
Qed.

(** releasing by physical address.  [page_addr] and [get_page] are inverse
    on the pages of the area, so [free_page] of the address that [alloc_page]
    returned releases that block and answers 0. *)
Theorem free_page_by_address s B size k addr s1 :
  buddy_inv s B → area_ok s → good_size size k →
  alloc_page size s = Ok (addr, s1) →
  ∃ x s2, addr = a_addr s + 4096 * x ∧ get_page addr s1 = Ok (Some x, s1) ∧
    free_page addr s1 = Ok (0, s2) ∧ buddy_inv s2 B.
Proof.
  intros Hi Ha Hg E. unfold alloc_page in E.
  destruct (alloc_spec s B size k Hi Hg) as [Hw|[E' _]]; [|by rewrite (bind_Err _ _ _ _ E') in E].
  apply wp_elim in Hw as (x & s' & E' & B1 & Hal). rewrite (bind_Ok _ _ _ _ _ E') in E.
  pose proof (allocated_free _ _ _ _ _ _ Hi Hal) as (Hx0 & Hxn & _).
  destruct Hal as (Hi1 & EU1 & (o & _ & Hx) & Hx1 & _ & En1 & Ea1 & _).
  assert (area_ok s') as Ha1 by (unfold area_ok; by rewrite En1, Ea1).
  pose proof (pow2_pos k ltac:(destruct Hg; lia)).
  rewrite (page_addr_ok s' x Ha1) in E by lia. injection E as <- <-. rewrite Ea1.
  pose proof (get_page_ok s' B1 x Hi1 Ha1 ltac:(lia)) as Egp. rewrite Ea1 in Egp.
  destruct (wp_elim _ _ _ (free_spec s' B1 x k Hi1 Hx1)) as ([] & s2 & Ef & B2 & Hi2 & EU2 & _ & En2 & _).
  exists x, s2. split; [done|]. split; [done|]. split.
  - unfold free_page. destruct Ha as (_ & Hd & _).
    rewrite aligned_mask by (apply Z.divide_add_r; [done|by exists x; lia]).
    erewrite bind_Ok by reflexivity. rewrite (bind_Ok _ _ _ _ _ Egp).
    destruct Hi1 as (_ & _ & _ & _ & HR & _). destruct (HR x ltac:(lia)) as (p & Hp & Hok).
    rewrite Hx1 in Hok. assert (read_page x s' = Ok (p, s')) as Er
      by (unfold read_page, mbind, M_bind, get, deref; by rewrite Hp).
    rewrite (bind_Ok _ _ _ _ _ Er). destruct Hok as (_ & Hh & _). unfold assertk. rewrite Hh.
    erewrite bind_Ok by reflexivity. by rewrite (bind_Ok _ _ _ _ _ Ef).
  - assert (B2 = B) as <-; [|done]. pose proof Hi as (_ & _ & HT & HC & _).
    pose proof Hi2 as (_ & _ & HT2 & HC2 & _). rewrite En2, En1 in HT2.
    apply (coalesced_unique (pageCnt s)); try done.
    rewrite EU2, EU1, delete_insert_eq. apply delete_id. by eapply in_use_not_free.
Qed.

(** ** A page with several references *)

(** A client that took further references on block [x]. *)
Definition share (x r : Z) (s : buddyAllocator) : buddyAllocator :=
  with_pages (alter (put_ref_cnt r) x (pages s)) s.

Lemma share_inv s B x o r :
  buddy_inv s B → B !! x = Some (o, 1) → 0 < r < 2 ^ 16 →
  buddy_inv (share x r s) (<[x := (o, r)]> B).
Proof.
  intros (Hl & Hn & HT & HC & HR & L & HL & HF) Hx Hr. unfold buddy_inv. simpl.
  split_and!; [done|done|by eapply tiled_ref| | |].
  - eapply coalesced_sub; [|exact HC]. intros i o1. rewrite lookup_insert_Some.
    intros [[_ [= _ ->]]|[_ ?]]; [lia|done].
  - intros i Hi. destruct (HR i Hi) as (p & Hp & Hok). destruct (decide (i = x)) as [->|].
    + rewrite lookup_alter_eq, Hp, lookup_insert_eq. eexists. split; [done|].
      rewrite Hx in Hok. destruct Hok as (? & ? & ? & ? & ? & Hk). split; [done|].
      split_and!; try done; try lia. intros _. by apply Hk.
    + rewrite lookup_alter_ne, lookup_insert_ne by done. eauto.
  - exists L. split; [done|]. intros o1 i Ho. rewrite (HF o1 i Ho), lookup_insert_Some.
    destruct (decide (x = i)) as [<-|]; [|naive_solver]. rewrite Hx.
    split; [congruence|]. intros [[_ [= _ ->]]|[[] _]]; [lia|done].
Qed.

(** Releasing a block that has more than one reference lowers the count and
    returns with the page's write lock still held, so the next release of the
    same block never returns. *)
Theorem free_shared_keeps_lock s B x o r :
  buddy_inv s B → B !! x = Some (o, r) → 1 < r →
  ∃ s' p', __free_page x s = Ok (tt, s') ∧ pages s' !! x = Some p' ∧ ref_cnt p' = r - 1 ∧
    __free_page x s' = Err Spin.
Proof.
  intros (_ & _ & HT & _ & HR & _) Hx Hr.
  destruct (tiled_block _ _ HT _ _ _ Hx) as (Ho & _ & Hx0 & Hxn). pose proof (pow2_le10 o Ho).
  destruct (HR x ltac:(lia)) as (p & Hp & Hok). rewrite Hx in Hok.
  destruct Hok as (Hm & Hh & Hsz & Hrc & Hrr & Hlk). specialize (Hlk ltac:(lia)).
  set (p' := put_ref_cnt (u16 (ref_cnt p - 1)) (put_rwlock (wlocked (pg_rwlock p)) p)).
  set (s' := with_pages (<[x := p']> (pages s)) s).
  assert (ref_cnt p' = r - 1) as Erc by (simpl; rewrite Hrc; apply u16_small; lia).
  exists s', p'. split_and!; [|by simpl; rewrite lookup_insert_eq|done|].
  - unfold __free_page, upd_page, read_page, mbind, M_bind, get, deref, assertk, modify, lift_res.
    rewrite Hp, Hrc, (proj2 (Z.ltb_lt _ _)) by lia. rewrite Hh, (wlock_lock_ok _ Hlk). simpl.
    rewrite !Hp. simpl. rewrite !lookup_insert_eq. simpl. rewrite lookup_insert_eq. simpl.
    rewrite Hrc, u16_small, (proj2 (Z.ltb_lt _ _)) by lia. unfold s', p'.
    rewrite !insert_insert_eq, Hrc, u16_small by lia. done.
  - unfold __free_page, read_page, mbind, M_bind, get, deref, assertk, lift_res.
    unfold s'. simpl. rewrite lookup_insert_eq, Erc, (proj2 (Z.ltb_lt _ _)) by lia. simpl.
    replace (page_head p') with true by (symmetry; exact Hh). done.
Qed.

(** ** Witnesses: four pages at 1 MiB *)

Definition raw_page : page :=
  MkPage 77 77 3 5 0 (SlabInfo 0 0 0 0) (PageCache 0 0) (Rwlock (Spinlock 1) (Spinlock 1) 4).
Definition demo_memory : buddyAllocator := Buddy
  (list_to_map ((λ i, (Root i, LH (Root 0) (Root 0))) <$> seqZ 0 11) ∪
   list_to_map ((λ i, (Pg i, LH (Root 0) (Root 0))) <$> seqZ 0 4))
  (list_to_map ((λ i, (i, raw_page)) <$> seqZ 0 4)) (Spinlock 1) 0 0 4.
Definition state_of {A} (r : res (A * buddyAllocator)) : buddyAllocator :=
  match r with Ok (_, s) => s | Err _ => demo_memory end.
Definition demo : buddyAllocator := state_of (pmm_init 0x100000 [(0x100000, 16384)] demo_memory).

Lemma demo_raw : raw_memory demo_memory 4.
Proof.
  split.
  - intros i Hi. assert (i = 0 ∨ i = 1 ∨ i = 2 ∨ i = 3) as [->|[->|[->| ->]]] by lia;
      split; vm_compute; eauto.
  - intros o Ho. assert (o ∈ seqZ 0 11) as Hin by (apply elem_of_seqZ; lia).
    clear Ho. revert o Hin. apply Forall_forall. repeat constructor; vm_compute; eauto.
Qed.

Lemma demo_init : pmm_init 0x100000 [(0x100000, 16384)] demo_memory = Ok (tt, demo).
Proof. vm_compute. reflexivity. Qed.

#[local] Opaque demo.

Lemma demo_inv : ∃ B, buddy_inv demo B ∧ in_use B = ∅ ∧ pageCnt demo = 4 ∧ area_ok demo.
Proof.
  pose proof (pmm_init_spec demo_memory 4 0x100000 0x100000 16384 demo_raw eq_refl
    ltac:(lia) ltac:(lia) ltac:(lia) ltac:(by vm_compute) ltac:(by vm_compute)) as Hw.
  unfold wp in Hw. rewrite demo_init in Hw. destruct Hw as (B & Hi & EU & Ea & Ec & _).
  exists B. split; [done|]. split; [done|].
  assert (pageCnt demo = 4) as E4 by (by rewrite Ec).
  split; [done|]. unfold area_ok. rewrite Ea, E4. split; [done|]. split; [by exists 256|done].
Qed.

Lemma demo_run B k a :
  buddy_inv demo B → in_use B = ∅ → 0 ≤ k → (2 ^ k | a) → 0 ≤ a → a + 2 ^ k ≤ 4 → pageCnt demo = 4 →
  free_run B k a.
Proof.
  intros Hi EU Hk Hd Ha Hn En. eapply (room_free_run 4 demo ∅ B); [done| |done|done|].
  - by rewrite fmap_empty.
  - by split_and!.
Qed.

Lemma good_4096 : good_size 4096 0.
Proof. by vm_compute. Qed.
Lemma good_8192 : good_size 8192 1.
Proof. by vm_compute. Qed.
Lemma good_32768 : good_size 32768 3.
Proof. by vm_compute. Qed.

Lemma alloc_page_correct_witness :
  ∃ B x s' B', buddy_inv demo B ∧ __alloc_page 8192 demo = Ok (x, s') ∧ buddy_inv s' B' ∧
    in_use B' = {[x := (1, 1)]}.
Proof.
  destruct demo_inv as (B & Hi & EU & En & _).
  destruct (alloc_page_correct demo B 8192 1 0 Hi good_8192)
    as (x & s' & B' & E & Hi' & EU' & _).
  - apply (demo_run B 1 0 Hi EU); [lia|by exists 0|lia|lia|exact En].
  - exists B, x, s', B'. rewrite EU in EU'. by split_and!.
Defined.

Lemma alloc_page_exhausted_witness :
  ∃ B, buddy_inv demo B ∧ __alloc_page 32768 demo = Err Assert.
Proof.
  destruct demo_inv as (B & Hi & EU & En & _). exists B. split; [done|].
  apply (alloc_page_exhausted demo B 32768 3 Hi good_32768).
  intros a [Hd Hf]. pose proof Hi as (_ & _ & HT & _).
  destruct (proj1 (page_free_iff _ _ _ HT) (Hf a ltac:(lia))) as [H1 _].
  destruct (proj1 (page_free_iff _ _ _ HT) (Hf (a + 7) ltac:(lia))) as [H2 _]. lia.
Defined.

Definition demo1 : buddyAllocator := state_of (__alloc_page 4096 demo).

Lemma demo1_alloc : __alloc_page 4096 demo = Ok (0, demo1).
Proof. vm_compute. reflexivity. Qed.

#[local] Opaque demo1.

Lemma demo1_inv : ∃ B, buddy_inv demo1 B ∧ B !! 0 = Some (0, 1).
Proof.
  destruct demo_inv as (B & Hi & _). destruct (alloc_spec demo B 4096 0 Hi good_4096) as [Hw|[E _]].
  - unfold wp in Hw. rewrite demo1_alloc in Hw. destruct Hw as (B' & Hi' & _ & _ & Hx & _). eauto.
  - rewrite demo1_alloc in E. done.
Qed.

Lemma free_page_correct_witness :
  ∃ s' B', __free_page 0 demo1 = Ok (tt, s') ∧ buddy_inv s' B'.
Proof.
  destruct demo1_inv as (B & Hi & Hx).
  destruct (free_page_correct demo1 B 0 0 Hi Hx) as (s' & B' & E & Hi' & _). eauto.
Defined.

Lemma alloc_free_restores_witness :
  ∃ B, buddy_inv demo B ∧ buddy_inv (state_of (__free_page 0 demo1)) B.
Proof.
  destruct demo_inv as (B & Hi & _). exists B. split; [done|].
  apply (alloc_free_restores demo B 4096 0 0 demo1 _ Hi good_4096 demo1_alloc).
  vm_compute. reflexivity.
Defined.

Lemma alloc_size_cases_witness :
  (∃ k, good_size 5000 k) ∧ __alloc_page 100 demo = Err Assert.
Proof.
  split.
  - destruct (proj1 (alloc_size_cases 5000 ltac:(lia)) ltac:(lia)) as (k & Hk & _). eauto.
  - apply (proj2 (alloc_size_cases 100 ltac:(lia))). lia.
Defined.

Lemma client_owns_disjoint_witness :
  rtc client_step (demo, ∅) (demo1, {[0 := 0]}) ∧ ∃ s', __free_page 0 demo1 = Ok (tt, s').
Proof.
  assert (rtc client_step (demo, ∅) (demo1, {[0 := 0]})) as Hrun.
  { apply rtc_once. apply (c_alloc demo ∅ 4096 0 0 demo1); [exact good_4096|exact demo1_alloc]. }
  split; [done|]. destruct demo_inv as (B & Hi & EU & _).
  apply (client_owns_disjoint demo B demo1 {[0 := 0]} Hi EU Hrun) with (k := 0).
  apply lookup_singleton_eq.
Defined.

Lemma pmm_init_correct_witness :
  ∃ s' B', pmm_init 0x100000 [(0x100000, 16384)] demo_memory = Ok (tt, s') ∧ buddy_inv s' B'.
Proof.
  destruct (pmm_init_correct demo_memory 4 0x100000 0x100000 16384 demo_raw eq_refl
    ltac:(lia) ltac:(lia) ltac:(lia) ltac:(by vm_compute) ltac:(by vm_compute))
    as (s' & B' & E & Hi & _). eauto.
Defined.

Lemma free_page_by_address_witness :
  ∃ s2 B, free_page 0x100000 demo1 = Ok (0, s2) ∧ buddy_inv s2 B.
Proof.
  destruct demo_inv as (B & Hi & _ & _ & Ha).
  destruct (free_page_by_address demo B 4096 0 0x100000 demo1 Hi Ha good_4096)
    as (x & s2 & _ & _ & E & Hi2); [vm_compute; reflexivity|]. eauto.
Defined.

Definition demo2 : buddyAllocator := share 0 2 demo1.

Lemma free_shared_keeps_lock_witness :
  ∃ s', __free_page 0 demo2 = Ok (tt, s') ∧ __free_page 0 s' = Err Spin.
Proof.
  destruct demo1_inv as (B & Hi & Hx).
  destruct (free_shared_keeps_lock demo2 (<[0 := (0, 2)]> B) 0 0 2
    (share_inv demo1 B 0 0 2 Hi Hx ltac:(lia)) (lookup_insert_eq B 0 (0, 2)) ltac:(lia)) as (s' & p' & E & _ & _ & E'). eauto.
Defined.
