(* ===== verification/Memory.v ===== *)
(** * Byte memory

    The memory that C strings, disk buffers and packed structures live in: a
    finite map from addresses to bytes.  An access outside the mapped bytes is a
    [Fault].  Wider loads and stores are little endian, as on x86. *)

From S2P Require Import Prelude.
From Stdlib Require Import ZArith Lia.
From stdpp Require Import base numbers gmap list.
Open Scope Z_scope.

Abbreviation mem := (gmap Z Z).

Definition load8 (a : Z) : M mem Z := m ← get; deref (m !! a).
Definition store8 (a v : Z) : M mem unit :=
  m ← get; _ ← deref (m !! a); modify (insert a (u8 v)).

Definition load16 (a : Z) : M mem Z :=
  b0 ← load8 a; b1 ← load8 (a + 1); mret (b0 + 2 ^ 8 * b1).
Definition load32 (a : Z) : M mem Z :=
  w0 ← load16 a; w1 ← load16 (a + 2); mret (w0 + 2 ^ 16 * w1).
Definition store16 (a v : Z) : M mem unit :=
  store8 a v;; store8 (a + 1) (Z.shiftr v 8).
Definition store32 (a v : Z) : M mem unit :=
  store16 a v;; store16 (a + 2) (Z.shiftr v 16).

(** ** Regions *)

(** The bytes [p], ..., [p + n - 1] are mapped. *)
Definition mapped (m : mem) (p n : Z) : Prop := ∀ i, 0 ≤ i < n → is_Some (m !! (p + i)).

(** The bytes from [p] on are [l]. *)
Definition bytes_at (m : mem) (p : Z) (l : list Z) : Prop :=
  ∀ i x, l !! i = Some x → m !! (p + Z.of_nat i) = Some x.

(** [m'] differs from [m] at most in the bytes [p], ..., [p + n - 1]. *)
Definition writes (p n : Z) (m m' : mem) : Prop :=
  dom m' = dom m ∧ ∀ a, ¬ (p ≤ a < p + n) → m' !! a = m !! a.

(** A C string: its characters are not 0 and a 0 follows them. *)
Definition cstr (m : mem) (p : Z) (s : list Z) : Prop :=
  bytes_at m p (s ++ [0]) ∧ Forall (λ c, c ≠ 0) s.

(** ** Accesses *)

Lemma wp_load8 a v (Q : Z → mem → Prop) m : m !! a = Some v → Q v m → wp (load8 a) Q m.
Proof. intros. unfold load8. by wp_go. Qed.

Lemma wp_store8 a v (Q : unit → mem → Prop) m :
  is_Some (m !! a) → Q tt (<[a := u8 v]> m) → wp (store8 a v) Q m.
Proof. intros [x Hx] HQ. unfold store8. wp_go; done. Qed.

Lemma load8_fault a m : m !! a = None → load8 a m = Err Fault.
Proof. intros E. unfold load8, mbind, M_bind, get, deref. by rewrite E. Qed.

Lemma store8_fault a v m : m !! a = None → store8 a v m = Err Fault.
Proof. intros E. unfold store8, mbind, M_bind, get, deref. by rewrite E. Qed.

(** ** Facts on regions *)

Lemma mapped_lookup m p n a : mapped m p n → p ≤ a < p + n → is_Some (m !! a).
Proof. intros Hm Ha. replace a with (p + (a - p)) by lia. apply Hm. lia. Qed.

Lemma mapped_dom m m' p n : dom m' = dom m → mapped m p n → mapped m' p n.
Proof. intros Hd Hm i Hi. rewrite <-elem_of_dom, Hd, elem_of_dom. by apply Hm. Qed.

Lemma mapped_size m p n : mapped m p n → n ≤ Z.of_nat (size m).
Proof.
  intros Hm. destruct (Z.le_gt_cases n 0) as [|Hn]; [lia|].
  assert (list_to_set (seqZ p n) ⊆ dom m) as Hsub.
  { intros a. rewrite elem_of_list_to_set, elem_of_seqZ, elem_of_dom. by apply mapped_lookup. }
  apply subseteq_size in Hsub. rewrite size_dom in Hsub.
  rewrite size_list_to_set in Hsub by apply NoDup_seqZ. rewrite length_seqZ in Hsub. lia.
Qed.

Lemma bytes_at_lookup m p l (i : Z) :
  bytes_at m p l → 0 ≤ i < Z.of_nat (length l) →
  ∃ x, l !! Z.to_nat i = Some x ∧ m !! (p + i) = Some x.
Proof.
  intros Hb Hi. destruct (lookup_lt_is_Some_2 l (Z.to_nat i)) as [x Hx]; [lia|].
  exists x. split; [done|]. apply Hb in Hx. by rewrite Z2Nat.id in Hx by lia.
Qed.

Lemma bytes_at_mapped m p l : bytes_at m p l → mapped m p (Z.of_nat (length l)).
Proof. intros Hb i Hi. destruct (bytes_at_lookup m p l i Hb Hi) as (x & _ & ?). by exists x. Qed.

Lemma bytes_at_app m p l1 l2 :
  bytes_at m p (l1 ++ l2) ↔ bytes_at m p l1 ∧ bytes_at m (p + Z.of_nat (length l1)) l2.
Proof.
  unfold bytes_at. split.
  - intros H. split; intros i x Hi.
    + apply H. by apply lookup_app_l_Some.
    + replace (p + Z.of_nat (length l1) + Z.of_nat i) with (p + Z.of_nat (length l1 + i)) by lia.
      apply H. rewrite lookup_app_r by lia. by rewrite Nat.add_comm, Nat.add_sub.
  - intros [H1 H2] i x [Hi|[Hi1 Hi2]]%lookup_app_Some; [by apply H1|].
    apply H2 in Hi2. rewrite <-Hi2. f_equal. lia.
Qed.

Lemma bytes_at_cons m p x l :
  bytes_at m p (x :: l) ↔ m !! p = Some x ∧ bytes_at m (p + 1) l.
Proof.
  rewrite (bytes_at_app m p [x] l). simpl. split; intros [H1 H2]; split; try done.
  - specialize (H1 0%nat x eq_refl). by rewrite Z.add_0_r in H1.
  - intros [|i] y Hy; simplify_eq/=. by rewrite Z.add_0_r.
Qed.

Lemma bytes_at_writes m m' p l q n :
  bytes_at m p l → writes q n m m' → p + Z.of_nat (length l) ≤ q ∨ q + n ≤ p →
  bytes_at m' p l.
Proof.
  intros Hb [_ Hw] Hd i x Hi. rewrite Hw; [by apply Hb|]. apply lookup_lt_Some in Hi. lia.
Qed.

Lemma writes_refl p n m : writes p n m m.
Proof. by split. Qed.

Lemma writes_trans p n m1 m2 m3 : writes p n m1 m2 → writes p n m2 m3 → writes p n m1 m3.
Proof. intros [D1 H1] [D2 H2]. split; [congruence|]. intros a Ha. by rewrite H2, H1. Qed.

Lemma writes_weaken p n q k m m' :
  writes p n m m' → q ≤ p → p + n ≤ q + k → writes q k m m'.
Proof. intros [D H] ??. split; [done|]. intros a Ha. apply H. lia. Qed.

Lemma writes_insert p n a v m :
  is_Some (m !! a) → p ≤ a < p + n → writes p n m (<[a := v]> m).
Proof.
  intros Hm Ha. split; [by apply dom_insert_lookup_L|].
  intros b Hb. rewrite lookup_insert_ne; [done|]. lia.
Qed.

Lemma writes_mapped p n m m' q k : writes p n m m' → mapped m q k → mapped m' q k.
Proof. intros [D _]. by apply mapped_dom. Qed.

Lemma cstr_mapped m p s : cstr m p s → mapped m p (Z.of_nat (length s) + 1).
Proof.
  intros [Hb _]. apply bytes_at_mapped in Hb. rewrite length_app in Hb. simpl in Hb.
  by replace (Z.of_nat (length s) + 1) with (Z.of_nat (length s + 1)) by lia.
Qed.
