(* ===== verification/CString.v ===== *)
(** * C strings and memory blocks (lib/qstring.c)

    The routines work on the byte memory of Memory.v; a pointer is an address
    and 0 is NULL.  The loop of [strlen] reads a new address in every round, so
    one more round than there are mapped bytes is always enough: it ends at a
    0 byte or faults. *)

From S2P Require Import Prelude Memory.
From Stdlib Require Import ZArith Lia.
From stdpp Require Import base numbers gmap list.
Open Scope Z_scope.

Fixpoint strlen_loop (fuel : nat) (str len : Z) : M mem Z :=
  match fuel with
  | O => fail Fuel
  | S f => c ← load8 (str + len);
           if truth c then strlen_loop f str (u32 (len + 1)) else mret len
  end.

Definition strlen (str : Z) : M mem Z :=
  assertk (truth str);;
  m ← get; strlen_loop (S (size m)) str 0.

(** [for (size_t is = 0; is < n; is++)] of [strncat]; answers [id]. *)
Fixpoint strncat_loop (n : nat) (dest src i id : Z) : M mem Z :=
  match n with
  | O => mret id
  | S n' => c ← load8 (src + i);
            if negb (truth c) then mret id
            else store8 (dest + id) c;; strncat_loop n' dest src (i + 1) (id + 1)
  end.

Definition strncat (dest src n : Z) : M mem Z :=
  assertk (truth dest && truth src);;
  id ← strlen dest;
  id ← strncat_loop (Z.to_nat n) dest src 0 id;
  store8 (dest + id) 0;;
  mret dest.

Definition strcat (dest src : Z) : M mem Z :=
  assertk (truth dest && truth src);;
  n ← strlen src; strncat dest src n.

Fixpoint memcmp_loop (n : nat) (s1 s2 i : Z) : M mem bool :=
  match n with
  | O => mret true
  | S n' => a ← load8 (s1 + i); b ← load8 (s2 + i);
            if negb (a =? b) then mret false else memcmp_loop n' s1 s2 (i + 1)
  end.

Definition memcmp (s1 s2 len : Z) : M mem bool :=
  assertk (truth s1 && truth s2);; memcmp_loop (Z.to_nat len) s1 s2 0.

Definition strcmp (s1 s2 : Z) : M mem bool :=
  assertk (truth s1 && truth s2);;
  len ← strlen s1; memcmp s1 s2 (u32 (len + 1)).

(** [memcmp] of memory with a string literal. *)
Fixpoint lit_loop (p : Z) (l : list Z) : M mem bool :=
  match l with
  | [] => mret true
  | x :: l' => c ← load8 p; if negb (c =? x) then mret false else lit_loop (p + 1) l'
  end.
Definition memcmp_lit (p : Z) (l : list Z) : M mem bool := assertk (truth p);; lit_loop p l.

Definition memcpy (dest src n : Z) : M mem Z :=
  for_up (Z.to_nat n) 0 (λ i, c ← load8 (src + i); store8 (dest + i) c);;
  mret dest.

Definition memset (s c n : Z) : M mem Z :=
  assertk (truth s);;
  for_up (Z.to_nat n) 0 (λ i, store8 (s + i) c);;
  mret s.

Definition memset16 (s c n : Z) : M mem Z :=
  assertk (truth s);;
  for_up (Z.to_nat n) 0 (λ i, store16 (s + 2 * i) c);;
  mret s.

Definition bzero (s n : Z) : M mem unit := memset s 0 n;; mret tt.

(** [for (uint32_t i = 0, j = li; i < j; i++, j--)]: at most [li] rounds. *)
Fixpoint reverse_loop (fuel : nat) (s i j : Z) : M mem unit :=
  match fuel with
  | O => fail Fuel
  | S f =>
      if i <? j then
        temp ← load8 (s + i);
        c ← load8 (s + j); store8 (s + i) c;;
        store8 (s + j) temp;;
        reverse_loop f s (u32 (i + 1)) (u32 (j - 1))
      else mret tt
  end.

Definition str_reverse (s li : Z) : M mem unit :=
  assertk (truth s);; reverse_loop (S (Z.to_nat li)) s 0 li.

(** The [do ... while] of [utoa]; 20 digits hold every [uint64_t]. *)
Fixpoint utoa_loop (fuel : nat) (value str i : Z) : M mem Z :=
  match fuel with
  | O => fail Fuel
  | S f =>
      store8 (str + i) (value mod 10 + 48);;
      let value := value / 10 in
      if value =? 0 then mret (u8 (i + 1)) else utoa_loop f value str (u8 (i + 1))
  end.

Definition utoa (value str : Z) : M mem unit :=
  assertk (truth str);;
  i ← utoa_loop 20 value str 0;
  store8 (str + i) 0;;
  str_reverse str (i - 1).

(** [static const char base[] = "0123456789abcdef"] *)
Definition hex_base : list Z :=
  [48; 49; 50; 51; 52; 53; 54; 55; 56; 57; 97; 98; 99; 100; 101; 102].

Fixpoint hex_loop (fuel : nat) (n str i : Z) : M mem Z :=
  match fuel with
  | O => fail Fuel
  | S f =>
      let rem := n mod 16 in
      let n := n / 16 in
      c ← deref (hex_base !! Z.to_nat rem);
      store8 (str + i) c;;
      if n =? 0 then mret (u8 (i + 1)) else hex_loop f n str (u8 (i + 1))
  end.

Definition hex (n str : Z) : M mem unit :=
  assertk (truth str);;
  i ← hex_loop 20 n str 0;
  store8 (str + i) 0;;
  str_reverse str (i - 1).

(** [kmalloc] is the allocator the kernel calls; it may change the memory. *)
Definition strdup (kmalloc : Z → M mem Z) (string : Z) : M mem Z :=
  assertk (truth string);;
  n ← strlen string;
  let len := u32 (n + 1) in
  new ← kmalloc len;
  memcpy new string (u32 (len + 1));;
  mret new.

(** ** Strings *)

Lemma strlen_loop_spec fuel str s1 s2 (Q : Z → mem → Prop) m :
  cstr m str (s1 ++ s2) → Z.of_nat (length (s1 ++ s2)) < 2 ^ 32 →
  (length s2 < fuel)%nat → Q (Z.of_nat (length (s1 ++ s2))) m →
  wp (strlen_loop fuel str (Z.of_nat (length s1))) Q m.
Proof.
  revert s1 s2. induction fuel as [|f IH]; intros s1 s2 Hc Hl Hf HQ; [lia|]. simpl.
  destruct s2 as [|c s2].
  - rewrite app_nil_r in *. wp_step. eapply wp_load8.
    { destruct Hc as [Hb _]. apply bytes_at_app in Hb as [_ Hb].
      specialize (Hb 0%nat 0 eq_refl). by rewrite Z.add_0_r in Hb. }
    simpl. by wp_go.
  - assert (c ≠ 0 ∧ m !! (str + Z.of_nat (length s1)) = Some c) as [Hc0 Hm].
    { destruct Hc as [Hb Ha]. rewrite <-app_assoc in Hb. apply bytes_at_app in Hb as [_ Hb].
      apply (bytes_at_cons m) in Hb as [? _]. apply Forall_app in Ha as [_ Ha].
      by inversion Ha. }
    wp_step. eapply wp_load8; [exact Hm|]. rewrite (proj2 (truth_true c) Hc0).
    rewrite length_app in Hl. simpl in Hl. rewrite u32_small by lia.
    replace (Z.of_nat (length s1) + 1) with (Z.of_nat (length (s1 ++ [c]))) by (rewrite length_app; simpl; lia).
    rewrite (cons_middle c s1 s2), app_assoc in Hc, HQ.
    apply (IH (s1 ++ [c]) s2); [done| |simpl in Hf; lia|done].
    rewrite !length_app. simpl. lia.
Qed.

Lemma wp_strlen str s (Q : Z → mem → Prop) m :
  cstr m str s → str ≠ 0 → Z.of_nat (length s) < 2 ^ 32 →
  Q (Z.of_nat (length s)) m → wp (strlen str) Q m.
Proof.
  intros Hc Hp Hl HQ. unfold strlen. wp_step. wp_step; [by apply truth_true|]. wp_step. wp_step.
  apply (strlen_loop_spec _ str [] s); try done.
  pose proof (mapped_size _ _ _ (cstr_mapped _ _ _ Hc)). simpl. lia.
Qed.

Lemma memcmp_loop_spec n s1 s2 i l1 l2 (Q : bool → mem → Prop) m :
  bytes_at m (s1 + i) l1 → bytes_at m (s2 + i) l2 → length l1 = n → length l2 = n →
  Q (bool_decide (l1 = l2)) m → wp (memcmp_loop n s1 s2 i) Q m.
Proof.
  revert i l1 l2. induction n as [|n IH]; intros i [|x l1] [|y l2] H1 H2 E1 E2 HQ; simplify_eq/=.
  { by wp_go. }
  apply bytes_at_cons in H1 as [Hx H1], H2 as [Hy H2].
  wp_step. eapply wp_load8; [exact Hx|]. wp_step. eapply wp_load8; [exact Hy|].
  destruct (Z.eqb_spec x y) as [->|Hne]; simpl.
  - apply (IH (i + 1) l1 l2); try done; [by rewrite Z.add_assoc..|].
    erewrite bool_decide_ext; [exact HQ|]. naive_solver.
  - wp_go. rewrite bool_decide_false in HQ; [done|]. naive_solver.
Qed.

Lemma cstr_cons m p c s : cstr m p (c :: s) ↔ m !! p = Some c ∧ c ≠ 0 ∧ cstr m (p + 1) s.
Proof. unfold cstr. simpl. rewrite bytes_at_cons, Forall_cons. tauto. Qed.

Lemma cstr_nil m p : cstr m p [] ↔ m !! p = Some 0.
Proof.
  unfold cstr. simpl. rewrite bytes_at_cons, Forall_nil. split; [tauto|]. intros. by repeat split.
Qed.

(** The comparison stops at the first difference, at the latest at the shorter
    string's 0. *)
Lemma memcmp_cstr p q i s1 s2 (Q : bool → mem → Prop) m :
  cstr m (p + i) s1 → cstr m (q + i) s2 → Q (bool_decide (s1 = s2)) m →
  wp (memcmp_loop (S (length s1)) p q i) Q m.
Proof.
  revert i s2 Q. induction s1 as [|c s1 IH]; intros i s2 Q H1 H2 HQ.
  - apply cstr_nil in H1. simpl. wp_step. eapply wp_load8; [exact H1|]. wp_step.
    destruct s2 as [|d s2]; [apply cstr_nil in H2|apply cstr_cons in H2 as (H2 & Hd & _)].
    + eapply wp_load8; [exact H2|]. simpl. by wp_go.
    + eapply wp_load8; [exact H2|]. destruct (Z.eqb_spec 0 d); [done|]. simpl. by wp_go.
  - apply cstr_cons in H1 as (H1 & Hc & H1'). cbn [memcmp_loop length]. wp_step.
    eapply wp_load8; [exact H1|]. wp_step.
    destruct s2 as [|d s2]; [apply cstr_nil in H2|apply cstr_cons in H2 as (H2 & Hd & H2')].
    + eapply wp_load8; [exact H2|]. destruct (Z.eqb_spec c 0); [done|]. simpl. by wp_go.
    + eapply wp_load8; [exact H2|]. destruct (Z.eqb_spec c d) as [->|Hne]; cbn [negb].
      * apply (IH (i + 1) s2); [by rewrite Z.add_assoc..|].
        erewrite bool_decide_ext; [exact HQ|]. naive_solver.
      * wp_go. rewrite bool_decide_false in HQ; [done|]. naive_solver.
Qed.

Lemma wp_strcmp p q s1 s2 (Q : bool → mem → Prop) m :
  cstr m p s1 → cstr m q s2 → p ≠ 0 → q ≠ 0 → Z.of_nat (length s1) + 1 < 2 ^ 32 →
  Q (bool_decide (s1 = s2)) m → wp (strcmp p q) Q m.
Proof.
  intros H1 H2 Hp Hq Hl HQ. assert (truth p && truth q = true) as Ht
    by (by rewrite (proj2 (truth_true p)), (proj2 (truth_true q))).
  unfold strcmp. wp_step. wp_step; [done|]. wp_step. eapply wp_strlen; [done|done|lia|].
  unfold memcmp. wp_step. wp_step; [done|]. rewrite u32_small by lia.
  replace (Z.to_nat (Z.of_nat (length s1) + 1)) with (S (length s1)) by lia.
  apply (memcmp_cstr p q 0 s1 s2); by rewrite ?Z.add_0_r.
Qed.

(** ** Blocks *)

(** A literal is compared byte by byte. *)
Lemma wp_lit l : ∀ p bs (m : mem), truth p = true → bytes_at m p bs → length bs = length l →
  wp (memcmp_lit p l) (λ b m', m' = m ∧ b = bool_decide (bs = l)) m.
Proof.
  assert (∀ l p bs (m : mem), bytes_at m p bs → length bs = length l → wp (lit_loop p l) (λ b m', m' = m ∧ b = bool_decide (bs = l)) m) as Hl.
  { clear l. induction l as [|x l IH]; intros p [|y bs] m Hb Hn; try done; cbn [lit_loop].
    apply bytes_at_cons in Hb as [Hy Hb]. wp_step. eapply wp_load8; [exact Hy|]. destruct (Z.eqb_spec y x) as [->|Hne]; cbn [negb].
    - eapply wp_mono; [apply (IH _ bs); [done|by injection Hn]|]. intros b m' [-> ->]. split; [done|]. apply bool_decide_ext. naive_solver.
    - wp_step. split; [done|]. rewrite bool_decide_false; [done|]. naive_solver. }
  intros p bs m Hp Hb Hn. unfold memcmp_lit. wp_step. apply wp_assertk. split; [done|]. by apply Hl.
Qed.

(** The copy runs upwards: the regions may overlap if the target is the lower one. *)
Lemma wp_memcpy dest src l m :
  bytes_at m src l → Forall (λ c, 0 ≤ c < 2 ^ 8) l → mapped m dest (Z.of_nat (length l)) →
  dest ≤ src ∨ src + Z.of_nat (length l) ≤ dest →
  wp (memcpy dest src (Z.of_nat (length l)))
     (λ r m', r = dest ∧ bytes_at m' dest l ∧ writes dest (Z.of_nat (length l)) m m') m.
Proof.
  intros Hs Hr Hd Hdis. set (n := Z.of_nat (length l)) in *. unfold memcpy. wp_step.
  apply (wp_for_up (λ i m', bytes_at m' dest (take (Z.to_nat i) l) ∧ writes dest i m m')).
  - split; [by intros ??|apply writes_refl].
  - intros i m' Hi [Hb Hw]. rewrite Z2Nat.id in Hi by lia.
    destruct (bytes_at_lookup m src l i Hs ltac:(lia)) as (x & Hx & Hm).
    assert (0 ≤ x < 2 ^ 8) as Hx8 by (by eapply (Forall_lookup_1 _ _ _ _ Hr)).
    wp_step. eapply wp_load8; [rewrite (proj2 Hw) by lia; exact Hm|].
    assert (is_Some (m' !! (dest + i))) as Him.
    { apply (writes_mapped _ _ _ _ dest n Hw Hd). lia. }
    eapply wp_store8; [done|]. rewrite u8_small by done. split.
    + replace (Z.to_nat (i + 1)) with (S (Z.to_nat i)) by lia.
      erewrite take_S_r by exact Hx. apply bytes_at_app. split.
      * intros k y Hy. pose proof (lookup_lt_Some _ _ _ Hy) as Hk. rewrite length_take in Hk.
        rewrite lookup_insert_ne by lia. by apply Hb.
      * intros [|k] y Hy; simplify_eq/=. rewrite length_take, Nat.min_l, Z2Nat.id, Z.add_0_r by lia.
        apply lookup_insert_eq.
    + eapply writes_trans; [eapply writes_weaken; [exact Hw|lia..]|]. apply writes_insert; [done|lia].
  - intros m' [Hb Hw]. rewrite Z.add_0_l, Nat2Z.id in Hb. unfold n in Hb.
    rewrite Nat2Z.id, firstn_all in Hb. wp_go. split_and!; [done|done|]. by rewrite Z.add_0_l, Z2Nat.id in Hw by lia.
Qed.

(** A copy to an unmapped byte faults, whatever is copied before. *)
Lemma memcpy_fault dest src n k m :
  0 ≤ k < n → m !! (dest + k) = None → memcpy dest src n m = Err Fault.
Proof.
  intros Hk Hn. unfold memcpy. apply bind_Err.
  assert (∀ (c : nat) lo m, lo ≤ k < lo + Z.of_nat c → m !! (dest + k) = None →
    for_up c lo (λ i, c ← load8 (src + i); store8 (dest + i) c) m = Err Fault) as Hloop.
  { clear. induction c as [|c IH]; intros lo m Hk Hn; [lia|]. cbn [for_up].
    destruct (m !! (src + lo)) as [x|] eqn:Es.
    - assert (load8 (src + lo) m = Ok (x, m)) as El
        by (unfold load8, mbind, M_bind, get, deref; by rewrite Es).
      destruct (m !! (dest + lo)) as [y|] eqn:Ed.
      + assert (store8 (dest + lo) x m = Ok (tt, <[dest + lo := u8 x]> m)) as Est
          by (unfold store8, mbind, M_bind, get, deref; by rewrite Ed).
        erewrite bind_Ok by (rewrite (bind_Ok _ _ _ _ _ El); exact Est).
        assert (lo ≠ k) by congruence.
        apply IH; [lia|]. by rewrite lookup_insert_ne by lia.
      + apply bind_Err. rewrite (bind_Ok _ _ _ _ _ El). by apply store8_fault.
    - apply bind_Err, bind_Err. by apply load8_fault. }
  by apply Hloop; [lia|].
Qed.

Lemma wp_memset s c n m :
  s ≠ 0 → mapped m s n → 0 ≤ n →
  wp (memset s c n)
     (λ r m', r = s ∧ (∀ i, 0 ≤ i < n → m' !! (s + i) = Some (u8 c)) ∧ writes s n m m') m.
Proof.
  intros Hs Hm Hn. unfold memset. wp_step. wp_step; [by apply truth_true|]. wp_step.
  apply (wp_for_up (λ k m', (∀ i, 0 ≤ i < k → m' !! (s + i) = Some (u8 c)) ∧ writes s n m m')).
  - split; [lia|apply writes_refl].
  - intros k m' Hk [Hb Hw]. rewrite Z2Nat.id in Hk by lia.
    assert (is_Some (m' !! (s + k))) as Hmk by (apply (writes_mapped _ _ _ _ s n Hw Hm); lia).
    eapply wp_store8; [done|]. split.
    + intros i Hi. destruct (decide (i = k)) as [->|]; [apply lookup_insert_eq|].
      rewrite lookup_insert_ne by lia. apply Hb. lia.
    + eapply writes_trans; [exact Hw|]. apply writes_insert; [done|lia].
  - intros m' [Hb Hw]. rewrite Z2Nat.id, Z.add_0_l in Hb by lia. by wp_go.
Qed.

(** ** Reversal *)

(** Where the byte at [k] comes from when the outer [i] pairs are swapped. *)
Definition swapped (li i k : Z) : Z := if (k <? i) || (li - i <? k) then li - k else k.

Lemma reverse_loop_spec fuel s li i m0 m :
  mapped m0 s (li + 1) → 0 ≤ i → li < 2 ^ 32 → i ≤ li - i + 1 →
  (Z.to_nat (li - i) < fuel)%nat →
  (∀ k, 0 ≤ k ≤ li → m !! (s + k) = m0 !! (s + swapped li i k)) →
  writes s (li + 1) m0 m → (∀ a v, m0 !! a = Some v → 0 ≤ v < 2 ^ 8) →
  wp (reverse_loop fuel s i (li - i))
     (λ _ m', (∀ k, 0 ≤ k ≤ li → m' !! (s + k) = m0 !! (s + (li - k))) ∧
              writes s (li + 1) m0 m') m.
Proof.
  revert i m. induction fuel as [|f IH]; intros i m Hm Hi Hl Hil Hf Hk Hw Hr; [lia|]. simpl.
  destruct (Z.ltb_spec i (li - i)) as [Hlt|Hge].
  - destruct (Hm i ltac:(lia)) as [x Hx]. destruct (Hm (li - i) ltac:(lia)) as [y Hy].
    pose proof (Hk i ltac:(lia)) as Ei. pose proof (Hk (li - i) ltac:(lia)) as Ej.
    unfold swapped in Ei, Ej. rewrite (proj2 (Z.ltb_ge _ _)), (proj2 (Z.ltb_ge _ _)) in Ei by lia.
    rewrite (proj2 (Z.ltb_ge _ _)), (proj2 (Z.ltb_ge _ _)) in Ej by lia. simpl in Ei, Ej.
    wp_step. eapply wp_load8; [by rewrite Ei|]. wp_step. eapply wp_load8; [by rewrite Ej|].
    wp_step. eapply wp_store8; [rewrite Ei; eauto|]. wp_step.
    eapply wp_store8; [rewrite lookup_insert_ne, Ej by lia; eauto|].
    rewrite !u8_small by eauto. rewrite !u32_small by lia. replace (li - i - 1) with (li - (i + 1)) by lia.
    apply IH; try done; try lia.
    + intros k Hk'. unfold swapped. destruct (decide (k = li - i)) as [->|Hn1].
      { rewrite lookup_insert_eq. rewrite (proj2 (Z.ltb_lt (li - (i + 1)) _)), orb_true_r by lia.
        rewrite <-Hx. do 2 f_equal. lia. }
      rewrite lookup_insert_ne by lia. destruct (decide (k = i)) as [->|Hn2].
      { rewrite lookup_insert_eq. rewrite (proj2 (Z.ltb_lt i _)) by lia. by rewrite <-Hy. }
      rewrite lookup_insert_ne, Hk by lia. unfold swapped. do 2 f_equal.
      destruct (Z.ltb_spec k i), (Z.ltb_spec (li - i) k), (Z.ltb_spec k (i + 1)),
        (Z.ltb_spec (li - (i + 1)) k); simpl; lia.
    + eapply writes_trans; [exact Hw|]. eapply writes_trans; apply writes_insert;
        rewrite ?lookup_insert_ne, ?Ei, ?Ej by lia; (eauto || lia).
  - wp_go. split; [|done]. intros k Hk'. rewrite Hk by done. unfold swapped. do 2 f_equal.
    destruct (Z.ltb_spec k i), (Z.ltb_spec (li - i) k); simpl; lia.
Qed.

(** Memory cells hold bytes. *)
Definition byte_mem (m : mem) : Prop := ∀ a v, m !! a = Some v → 0 ≤ v < 2 ^ 8.

Lemma wp_str_reverse s l m :
  s ≠ 0 → bytes_at m s l → (0 < length l)%nat → Z.of_nat (length l) ≤ 2 ^ 32 → byte_mem m →
  wp (str_reverse s (Z.of_nat (length l) - 1))
     (λ _ m', bytes_at m' s (reverse l) ∧ writes s (Z.of_nat (length l)) m m') m.
Proof.
  intros Hs Hb Hl Hl2 Hbm. unfold str_reverse. wp_step. wp_step; [by apply truth_true|].
  set (li := Z.of_nat (length l) - 1).
  pose proof (reverse_loop_spec (S (Z.to_nat li)) s li 0 m m) as Hw. rewrite Z.sub_0_r in Hw.
  eapply wp_mono; [apply Hw; try done; try lia|].
  - apply bytes_at_mapped in Hb. by replace (li + 1) with (Z.of_nat (length l)) by lia.
  - intros k Hk. unfold swapped. rewrite (proj2 (Z.ltb_ge _ _)), (proj2 (Z.ltb_ge _ _)) by lia. done.
  - intros _ m' [Hk W]. replace (li + 1) with (Z.of_nat (length l)) in W by lia. split; [|done].
    intros i x Hi. apply reverse_lookup_Some in Hi as [Hi Hlt]. apply Hb in Hi.
    rewrite Hk by lia. rewrite <-Hi. f_equal. lia.
Qed.

(** ** Numbers as text *)

(** The digits of [v] in base [b], least significant first. *)
Fixpoint digits (fuel : nat) (b v : Z) : list Z :=
  match fuel with
  | O => []
  | S f => v mod b :: (if v / b =? 0 then [] else digits f b (v / b))
  end.

Definition undigits (b : Z) (ds : list Z) : Z := foldr (λ d a, d + b * a) 0 ds.

Lemma digits_value fuel b v : 1 < b → 0 ≤ v < b ^ Z.of_nat fuel → undigits b (digits fuel b v) = v.
Proof.
  intros Hb. unfold undigits. revert v. induction fuel as [|f IH]; intros v Hv; [simpl in *; lia|].
  rewrite Nat2Z.inj_succ, Z.pow_succ_r in Hv by lia. simpl.
  pose proof (Z.div_mod v b ltac:(lia)) as E. destruct (Z.eqb_spec (v / b) 0) as [E0|E0]; simpl.
  - rewrite E0 in E. lia.
  - rewrite IH; [lia|]. split; [apply Z.div_pos; lia|].
    apply Z.div_lt_upper_bound; lia.
Qed.

Lemma digits_range fuel b v : 0 < b → Forall (λ d, 0 ≤ d < b) (digits fuel b v).
Proof.
  intros Hb. revert v. induction fuel as [|f IH]; intros v; simpl; constructor.
  - by apply Z.mod_pos_bound.
  - destruct (_ =? 0); [constructor|apply IH].
Qed.

Lemma digits_length fuel b v : (0 < fuel)%nat → (0 < length (digits fuel b v) ≤ fuel)%nat.
Proof.
  revert v. induction fuel as [|f IH]; intros v Hf; [lia|]. simpl.
  destruct (v / b =? 0); simpl; [lia|]. destruct f; simpl; [lia|].
  specialize (IH (v / b) ltac:(lia)). simpl in IH. lia.
Qed.

(** The loop shared by [utoa] and [hex]. *)
Fixpoint digit_loop (b : Z) (chr : Z → Z) (fuel : nat) (v str i : Z) : M mem Z :=
  match fuel with
  | O => fail Fuel
  | S f => store8 (str + i) (chr (v mod b));;
           if v / b =? 0 then mret (u8 (i + 1)) else digit_loop b chr f (v / b) str (u8 (i + 1))
  end.

Definition dec_chr (d : Z) : Z := d + 48.
Definition hex_chr (d : Z) : Z := default 0 (hex_base !! Z.to_nat d).

Lemma utoa_loop_digits fuel v str i m :
  utoa_loop fuel v str i m = digit_loop 10 dec_chr fuel v str i m.
Proof.
  revert v i m. induction fuel as [|f IH]; intros v i m; [done|]. simpl.
  unfold mbind, M_bind. change (dec_chr (v mod 10)) with (v mod 10 + 48).
  destruct (store8 _ _ m) as [[[] m']|]; [|done]. destruct (_ =? 0); [done|apply IH].
Qed.

Lemma hex_loop_digits fuel v str i m :
  hex_loop fuel v str i m = digit_loop 16 hex_chr fuel v str i m.
Proof.
  revert v i m. induction fuel as [|f IH]; intros v i m; [done|]. simpl.
  unfold mbind, M_bind, deref, hex_chr. pose proof (Z.mod_pos_bound v 16 ltac:(lia)).
  destruct (lookup_lt_is_Some_2 hex_base (Z.to_nat (v mod 16))) as [c ->]; [simpl; lia|].
  simpl. destruct (store8 _ _ m) as [[[] m']|]; [|done]. destruct (_ =? 0); [done|apply IH].
Qed.

Lemma digit_loop_spec b chr fuel v str i m :
  1 < b → (0 < fuel)%nat → 0 ≤ v < b ^ Z.of_nat fuel → 0 ≤ i → i + Z.of_nat fuel < 2 ^ 8 →
  (∀ d, 0 ≤ d < b → 0 ≤ chr d < 2 ^ 8) →
  mapped m (str + i) (Z.of_nat (length (digits fuel b v))) →
  wp (digit_loop b chr fuel v str i)
     (λ r m', r = i + Z.of_nat (length (digits fuel b v)) ∧
        bytes_at m' (str + i) (chr <$> digits fuel b v) ∧
        writes (str + i) (Z.of_nat (length (digits fuel b v))) m m') m.
Proof.
  intros Hb. revert v i m. induction fuel as [|f IH]; intros v i m Hf0 Hv Hi Hf Hchr Hm; [lia|].
  rewrite Nat2Z.inj_succ, Z.pow_succ_r in Hv by lia. simpl in Hm |- *. wp_step.
  eapply wp_store8; [eapply mapped_lookup; [exact Hm|lia]|].
  rewrite (u8_small (chr _)) by (apply Hchr, Z.mod_pos_bound; lia). rewrite u8_small by lia.
  destruct (Z.eqb_spec (v / b) 0) as [E0|E0]; simpl in *.
  - wp_go. split; [done|]. split.
    + apply bytes_at_cons. split; [apply lookup_insert_eq|by intros ??].
    + apply writes_insert; [eapply mapped_lookup; [exact Hm|lia]|lia].
  - assert (0 ≤ v / b < b ^ Z.of_nat f) as Hv'.
    { split; [apply Z.div_pos; lia|apply Z.div_lt_upper_bound; lia]. }
    assert (0 < f)%nat by (destruct f; [simpl in Hv'; lia|lia]).
    set (n := length (digits f b (v / b))) in *.
    eapply wp_mono; [apply (IH (v / b) (i + 1)); try done; try lia|].
    + fold n. intros k Hk. destruct (Hm (k + 1) ltac:(lia)) as [y Hy].
      exists y. rewrite lookup_insert_ne by lia. rewrite <-Hy. f_equal. lia.
    + intros r m' (-> & Hb' & Hw). fold n in Hw |- *. split; [lia|].
      rewrite Z.add_assoc in Hb', Hw. split.
      * apply bytes_at_cons. split; [|done]. rewrite (proj2 Hw) by lia. apply lookup_insert_eq.
      * eapply writes_trans; [apply writes_insert|eapply writes_weaken; [exact Hw|lia|lia]];
          [eapply mapped_lookup; [exact Hm|lia]|lia].
Qed.

Lemma byte_mem_writes b chr ds p m m' :
  byte_mem m → writes p (Z.of_nat (length ds)) m m' → bytes_at m' p (chr <$> ds) →
  Forall (λ d, 0 ≤ d < b) ds → (∀ d, 0 ≤ d < b → 0 ≤ chr d < 2 ^ 8) → byte_mem m'.
Proof.
  intros Hm [_ Hw] Hb Hd Hc a v Ha. destruct (decide (p ≤ a < p + Z.of_nat (length ds))) as [Hin|Hout].
  - destruct (bytes_at_lookup m' p (chr <$> ds) (a - p) Hb) as (x & Hx & Hx'); [rewrite length_fmap; lia|].
    replace (p + (a - p)) with a in Hx' by lia. simplify_eq.
    apply list_lookup_fmap_Some in Hx as (d & -> & Hd'). apply Hc.
    by apply (Forall_lookup_1 _ _ _ _ Hd Hd').
  - rewrite Hw in Ha by done. by apply Hm in Ha.
Qed.

(** Reading a numeral, most significant digit first. *)
Definition parse (b : Z) (val : Z → Z) (s : list Z) : Z := foldl (λ a c, a * b + val c) 0 s.

Lemma parse_reverse b chr val ds :
  (∀ d, 0 ≤ d < b → val (chr d) = d) → Forall (λ d, 0 ≤ d < b) ds →
  parse b val (reverse (chr <$> ds)) = undigits b ds.
Proof.
  intros Hv. unfold parse, undigits. induction ds as [|d ds IH]; intros Hd; [done|].
  apply Forall_cons in Hd as [Hd0 Hd]. rewrite fmap_cons, reverse_cons, foldl_app. simpl.
  rewrite IH, Hv by done. lia.
Qed.

Lemma digits_last fuel b v :
  1 < b → 0 < v < b ^ Z.of_nat fuel → last (digits fuel b v) ≠ Some 0.
Proof.
  intros Hb. revert v. induction fuel as [|f IH]; intros v Hv; [simpl in *; lia|].
  rewrite Nat2Z.inj_succ, Z.pow_succ_r in Hv by lia. simpl.
  pose proof (Z.div_mod v b ltac:(lia)). destruct (Z.eqb_spec (v / b) 0) as [E0|E0].
  - intros [= E]. rewrite E0, E in *. lia.
  - assert (0 ≤ v / b) by (apply Z.div_pos; lia).
    specialize (IH (v / b)). rewrite last_cons.
    destruct (last (digits f b (v / b))) as [y|] eqn:El.
    + apply IH. split; [lia|]. apply Z.div_lt_upper_bound; lia.
    + apply last_None in El. destruct f; [|done]. simpl in Hv.
      exfalso. apply E0. apply Z.div_small. lia.
Qed.

(** A numeral of [v] in base [b]: it reads back as [v], without leading zero. *)
Definition numeral (b : Z) (chr val : Z → Z) (v : Z) (s : list Z) : Prop :=
  parse b val s = v ∧ Forall (λ c, ∃ d, 0 ≤ d < b ∧ c = chr d) s ∧
  s ≠ [] ∧ (0 < v → head s ≠ Some (chr 0)).

Lemma digits_numeral fuel b chr val v :
  1 < b → (0 < fuel)%nat → 0 ≤ v < b ^ Z.of_nat fuel →
  (∀ d, 0 ≤ d < b → val (chr d) = d) →
  numeral b chr val v (reverse (chr <$> digits fuel b v)).
Proof.
  intros Hb Hf Hv Hc. pose proof (digits_range fuel b v ltac:(lia)) as Hd.
  pose proof (digits_length fuel b v Hf) as Hl. split_and!.
  - rewrite (parse_reverse b chr val) by done. by apply digits_value.
  - apply Forall_reverse, Forall_fmap. eapply Forall_impl; [exact Hd|]. intros d ?. by exists d.
  - intros E. apply (f_equal length) in E. rewrite length_reverse, length_fmap in E. simpl in E. lia.
  - intros Hv0. rewrite head_reverse, fmap_last. intros (d & Hd0 & E)%fmap_Some.
    apply (digits_last fuel b v Hb); [lia|]. rewrite Hd0. f_equal.
    assert (0 ≤ d < b) by (apply last_Some_elem_of in Hd0; rewrite Forall_forall in Hd; by apply Hd).
    rewrite <-(Hc d), <-E, (Hc 0) by lia. done.
Qed.

(** The common tail of [utoa] and [hex]: terminate and reverse. *)
Lemma number_text b chr val v str (loop : M mem Z) m :
  1 < b → 0 ≤ v < b ^ 20 → str ≠ 0 → mapped m str 21 → byte_mem m →
  (∀ d, 0 ≤ d < b → val (chr d) = d) → (∀ d, 0 ≤ d < b → 0 < chr d < 2 ^ 8) →
  loop m = digit_loop b chr 20 v str 0 m →
  wp (i ← loop; store8 (str + i) 0;; str_reverse str (i - 1))
     (λ _ m', ∃ s, cstr m' str s ∧ numeral b chr val v s ∧
        writes str (Z.of_nat (length s) + 1) m m' ∧ Z.of_nat (length s) ≤ 20 ∧
        s = reverse (chr <$> digits 20 b v)) m.
Proof.
  intros Hb Hv Hs Hm Hbm Hval Hchr El. pose proof (digits_length 20 b v ltac:(lia)) as Hl.
  pose proof (digits_range 20 b v ltac:(lia)) as Hr. set (n := length (digits 20 b v)) in *.
  assert (∀ d, 0 ≤ d < b → 0 ≤ chr d < 2 ^ 8) as Hc0 by (intros; pose proof (Hchr d); lia).
  wp_step. assert (wp loop (λ r m', r = Z.of_nat n ∧ bytes_at m' str (chr <$> digits 20 b v) ∧
                               writes str (Z.of_nat n) m m') m) as Hloop.
  { unfold wp. rewrite El. apply (wp_mono _ (λ r m', r = 0 + Z.of_nat n ∧ bytes_at m' (str + 0)
      (chr <$> digits 20 b v) ∧ writes (str + 0) (Z.of_nat n) m m')).
    - apply digit_loop_spec; try done; try lia. rewrite Z.add_0_r. intros k Hk. apply Hm. fold n in Hk. lia.
    - by rewrite Z.add_0_r, Z.add_0_l. }
  eapply wp_mono; [exact Hloop|]. intros r m1 (-> & Hb1 & Hw1).
  assert (byte_mem m1) as Hbm1 by (by eapply (byte_mem_writes b chr)).
  wp_step. eapply wp_store8; [apply (writes_mapped _ _ _ _ str 21 Hw1 Hm); lia|].
  change (u8 0) with 0. set (m2 := <[str + Z.of_nat n := 0]> m1).
  assert (bytes_at m2 str (chr <$> digits 20 b v)) as Hb2.
  { intros i x Hi. pose proof (lookup_lt_Some _ _ _ Hi) as Hlt. rewrite length_fmap in Hlt.
    fold n in Hlt. unfold m2. rewrite lookup_insert_ne by lia. by apply Hb1. }
  assert (byte_mem m2) as Hbm2.
  { intros a x. unfold m2. rewrite lookup_insert_Some. intros [[_ <-]|[_ ?]]; [lia|by eapply Hbm1]. }
  assert (length (chr <$> digits 20 b v) = n) as Eln by apply length_fmap.
  pose proof (wp_str_reverse str (chr <$> digits 20 b v) m2 Hs Hb2) as Hrev. rewrite Eln in Hrev.
  eapply wp_mono; [apply Hrev; [lia|lia|done]|].
  intros [] m3 [Hb3 Hw3]. set (s := reverse (chr <$> digits 20 b v)) in *.
  assert (length s = n) as Els by (unfold s; by rewrite length_reverse).
  exists s. rewrite Els. split_and!; [split| | | |done].
  - apply bytes_at_app. split; [done|]. rewrite Els. apply bytes_at_cons. split; [|by intros ??].
    rewrite (proj2 Hw3) by lia. apply lookup_insert_eq.
  - apply Forall_reverse, Forall_fmap. eapply Forall_impl; [exact Hr|].
    intros d Hd. specialize (Hchr d Hd). simpl. lia.
  - by apply digits_numeral; try lia.
  - eapply writes_trans; [eapply writes_weaken; [exact Hw1|lia|lia]|].
    eapply writes_trans; [|eapply writes_weaken; [exact Hw3|lia|lia]].
    apply writes_insert; [|lia]. apply (writes_mapped _ _ _ _ str 21 Hw1 Hm). lia.
  - lia.
Qed.

Definition dec_val (c : Z) : Z := c - 48.
Definition hex_val (c : Z) : Z := if c <? 58 then c - 48 else c - 87.

Lemma hex_chr_cases d : 0 ≤ d < 16 → hex_val (hex_chr d) = d ∧ 0 < hex_chr d < 2 ^ 8.
Proof.
  intros Hd. assert (Forall (λ d, hex_val (hex_chr d) = d ∧ 0 < hex_chr d < 2 ^ 8) (seqZ 0 16)) as HF
    by (repeat constructor).
  rewrite Forall_forall in HF. apply HF, elem_of_seqZ. lia.
Qed.

(** The texts of the numbers. *)
Definition decimal (v : Z) : list Z := reverse (dec_chr <$> digits 20 10 v).
Definition hexadecimal (v : Z) : list Z := reverse (hex_chr <$> digits 20 16 v).

Lemma wp_utoa v str m :
  0 ≤ v < 2 ^ 64 → str ≠ 0 → mapped m str 21 → byte_mem m →
  wp (utoa v str) (λ _ m', ∃ s, cstr m' str s ∧ numeral 10 dec_chr dec_val v s ∧
    writes str (Z.of_nat (length s) + 1) m m' ∧ Z.of_nat (length s) ≤ 20 ∧ s = decimal v) m.
Proof.
  intros Hv Hs Hm Hb. unfold utoa. wp_step. wp_step; [by apply truth_true|].
  apply number_text; [lia|lia|done|done|done| | |].
  - intros. unfold dec_val, dec_chr. lia.
  - intros. unfold dec_chr. lia.
  - apply utoa_loop_digits.
Qed.

Lemma wp_hex v str m :
  0 ≤ v < 2 ^ 64 → str ≠ 0 → mapped m str 21 → byte_mem m →
  wp (hex v str) (λ _ m', ∃ s, cstr m' str s ∧ numeral 16 hex_chr hex_val v s ∧
    writes str (Z.of_nat (length s) + 1) m m' ∧ Z.of_nat (length s) ≤ 20 ∧ s = hexadecimal v) m.
Proof.
  intros Hv Hs Hm Hb. unfold hex. wp_step. wp_step; [by apply truth_true|].
  apply number_text; [lia|lia|done|done|done| | |].
  - intros. by apply hex_chr_cases.
  - intros. by apply hex_chr_cases.
  - apply hex_loop_digits.
Qed.

(** [utoa] writes the decimal numeral of its argument: for every 64-bit value
    and a buffer of 21 bytes it terminates, leaves a C string of digits without
    leading zero that reads back as the value, and writes nothing beyond the
    string and its 0. *)
Theorem utoa_decimal v str m :
  0 ≤ v < 2 ^ 64 → str ≠ 0 → mapped m str 21 → byte_mem m →
  ∃ m' s, utoa v str m = Ok (tt, m') ∧ cstr m' str s ∧ numeral 10 dec_chr dec_val v s ∧
    writes str (Z.of_nat (length s) + 1) m m' ∧ Z.of_nat (length s) ≤ 20.
Proof.
  intros Hv Hs Hm Hb.
  destruct (wp_elim _ _ _ (wp_utoa v str m Hv Hs Hm Hb)) as ([] & m' & E & s & H1 & H2 & H3 & H4 & _). eauto 10.
Qed.

(** [hex] writes the hexadecimal numeral of its argument in the same sense. *)
Theorem hex_numeral v str m :
  0 ≤ v < 2 ^ 64 → str ≠ 0 → mapped m str 21 → byte_mem m →
  ∃ m' s, hex v str m = Ok (tt, m') ∧ cstr m' str s ∧ numeral 16 hex_chr hex_val v s ∧
    writes str (Z.of_nat (length s) + 1) m m'.
Proof.
  intros Hv Hs Hm Hb.
  destruct (wp_elim _ _ _ (wp_hex v str m Hv Hs Hm Hb)) as ([] & m' & E & s & H1 & H2 & H3 & _). eauto 10.
Qed.

(** [strcmp] on two C strings terminates without reading past their ends and
    answers whether they are equal (true for equal, unlike the C library). *)
Theorem strcmp_correct p q s1 s2 m :
  cstr m p s1 → cstr m q s2 → p ≠ 0 → q ≠ 0 → Z.of_nat (length s1) + 1 < 2 ^ 32 →
  strcmp p q m = Ok (bool_decide (s1 = s2), m).
Proof.
  intros H1 H2 Hp Hq Hl. pose proof (wp_strcmp p q s1 s2 (λ r m', r = bool_decide (s1 = s2) ∧ m' = m) m
    H1 H2 Hp Hq Hl (conj eq_refl eq_refl)) as Hw.
  apply wp_elim in Hw as (r & m' & E & -> & ->). done.
Qed.

(** [strdup] copies one byte more than it allocates.  With an allocator that
    returns exactly the bytes asked for, next to unmapped memory, the copy of any
    string faults. *)
Theorem strdup_overruns kmalloc p s new m m1 :
  cstr m p s → p ≠ 0 → Z.of_nat (length s) + 2 < 2 ^ 32 →
  kmalloc (Z.of_nat (length s) + 1) m = Ok (new, m1) →
  m1 !! (new + (Z.of_nat (length s) + 1)) = None →
  strdup kmalloc p m = Err Fault.
Proof.
  intros Hc Hp Hl Hk Hn. unfold strdup.
  assert (assertk (truth p) m = Ok (tt, m)) as Ea
    by (unfold assertk; by rewrite (proj2 (truth_true p) Hp)).
  rewrite (bind_Ok _ _ _ _ _ Ea).
  destruct (wp_elim _ _ _ (wp_strlen p s (λ r m', r = Z.of_nat (length s) ∧ m' = m) m Hc Hp
    ltac:(lia) (conj eq_refl eq_refl))) as (r & m' & El & -> & ->).
  rewrite (bind_Ok _ _ _ _ _ El), (u32_small (Z.of_nat (length s) + 1)) by lia.
  rewrite (bind_Ok _ _ _ _ _ Hk), u32_small by lia.
  apply bind_Err. by apply (memcpy_fault _ _ _ (Z.of_nat (length s) + 1)); [lia|].
Qed.

(** ** Witnesses: 32 bytes at address 256 *)

Definition text_mem : mem := list_to_map ((λ a, (a, 7)) <$> seqZ 256 32).

Lemma text_mem_mapped : mapped text_mem 256 21.
Proof.
  intros i Hi. assert (i ∈ seqZ 0 21) as Hin by (apply elem_of_seqZ; lia). clear Hi.
  revert i Hin. apply Forall_forall. repeat constructor; vm_compute; eauto.
Qed.

Lemma text_mem_bytes : byte_mem text_mem.
Proof.
  intros a v Ha. apply elem_of_list_to_map_2 in Ha. apply list_elem_of_fmap in Ha as (? & [= _ ->] & _). lia.
Qed.

Lemma utoa_decimal_witness :
  ∃ m' s, utoa 120 256 text_mem = Ok (tt, m') ∧ cstr m' 256 s ∧ numeral 10 dec_chr dec_val 120 s.
Proof.
  destruct (utoa_decimal 120 256 text_mem ltac:(lia) ltac:(lia) text_mem_mapped text_mem_bytes)
    as (m' & s & E & Hc & Hn & _). eauto.
Defined.

Lemma hex_numeral_witness :
  ∃ m' s, hex 0xbeef 256 text_mem = Ok (tt, m') ∧ cstr m' 256 s ∧ numeral 16 hex_chr hex_val 0xbeef s.
Proof.
  destruct (hex_numeral 0xbeef 256 text_mem ltac:(lia) ltac:(lia) text_mem_mapped text_mem_bytes)
    as (m' & s & E & Hc & Hn & _). eauto.
Defined.

(** "ls" at 256, "lsx" at 264 *)
Definition two_strings : mem :=
  {[256 := 108; 257 := 115; 258 := 0; 264 := 108; 265 := 115; 266 := 120; 267 := 0]}.

Lemma two_strings_ls : cstr two_strings 256 [108; 115] ∧ cstr two_strings 264 [108; 115; 120].
Proof. split; repeat (apply cstr_cons; split; [done|split; [done|]]); by apply cstr_nil. Qed.

Lemma strcmp_correct_witness :
  strcmp 256 264 two_strings = Ok (false, two_strings) ∧ strcmp 256 256 two_strings = Ok (true, two_strings).
Proof.
  destruct two_strings_ls as [H1 H2]. split.
  - apply (strcmp_correct 256 264 _ _ two_strings H1 H2); simpl; lia.
  - apply (strcmp_correct 256 256 _ _ two_strings H1 H1); simpl; lia.
Defined.

(** An allocator that hands out the bytes from 300 on. *)
Definition bump (n : Z) : M mem Z :=
  modify (λ m, list_to_map ((λ a, (a, 0)) <$> seqZ 300 n) ∪ m);; mret 300.

Lemma strdup_overruns_witness : strdup bump 256 two_strings = Err Fault.
Proof.
  eapply (strdup_overruns bump 256 _ 300 two_strings); [exact (proj1 two_strings_ls)|lia|simpl; lia|reflexivity|].
  vm_compute. reflexivity.
Defined.
