(* ===== verification/LfQueue.v ===== *)
(** * The queue of lib/queue.c

    A singly linked queue with a dummy head node and a spin lock.  The nodes are
    embedded in the structures of the clients (dirty pages, tasks), so a node is
    a location: [Dummy] is [queue->dummy], [Node i] a client's node.  The model
    keeps the [next] field of every node; NULL is [None]. *)

From S2P Require Import Prelude Locks.
From Stdlib Require Import ZArith Lia.
From stdpp Require Import base countable numbers gmap list.
Open Scope Z_scope.

Inductive lnode := Dummy | Node (i : Z).

#[export] Instance lnode_eq_dec : EqDecision lnode.
Proof. solve_decision. Defined.
#[export] Instance lnode_countable : Countable lnode.
Proof.
  apply (inj_countable' (λ n, match n with Dummy => None | Node i => Some i end)
                        (λ o, match o with None => Dummy | Some i => Node i end)).
  by intros [].
Defined.

Record lf_queue := LfQ {
  q_lock : spinlock_t;
  q_head : lnode;
  q_tail : lnode;
  q_next : gmap lnode (option lnode) }.

Definition rd_next (n : lnode) : M lf_queue (option lnode) := q ← get; deref (q_next q !! n).
Definition wr_next (n : lnode) (v : option lnode) : M lf_queue unit :=
  _ ← rd_next n; modify (λ q, LfQ (q_lock q) (q_head q) (q_tail q) (<[n := v]> (q_next q))).
Definition wr_head (n : lnode) : M lf_queue unit :=
  modify (λ q, LfQ (q_lock q) n (q_tail q) (q_next q)).
Definition wr_tail (n : lnode) : M lf_queue unit :=
  modify (λ q, LfQ (q_lock q) (q_head q) n (q_next q)).
Definition wr_lock (l : spinlock_t) : M lf_queue unit :=
  modify (λ q, LfQ l (q_head q) (q_tail q) (q_next q)).
Definition lock_queue : M lf_queue unit :=
  q ← get; match spinlock_lock (q_lock q) with Ok l => wr_lock l | Err e => fail e end.
Definition unlock_queue : M lf_queue unit := q ← get; wr_lock (spinlock_unlock (q_lock q)).

Definition lfQueue_node_init (node : lnode) : M lf_queue unit := wr_next node None.

Definition lfQueue_init : M lf_queue unit :=
  wr_next Dummy None;;
  wr_head Dummy;;
  wr_tail Dummy;;
  wr_lock spinlock_init.

Definition lfQueue_put (node : lnode) : M lf_queue unit :=
  lock_queue;;
  q ← get;
  n ← rd_next (q_head q);
  match n with
  | None => wr_next (q_head q) (Some node)
  | Some _ => wr_next (q_tail q) (Some node)
  end;;
  wr_next node None;;
  wr_tail node;;
  unlock_queue.

Definition lfQueue_get : M lf_queue (option lnode) :=
  lock_queue;;
  q ← get;
  next ← rd_next (q_head q);
  match next with
  | None => unlock_queue;; mret None
  | Some nx =>
      n2 ← rd_next nx;
      wr_next (q_head q) n2;;
      unlock_queue;;
      mret (Some nx)
  end.

(** ** Representation *)

(** Following [next] from [n] gives the nodes [l] and ends at NULL. *)
Fixpoint path (h : gmap lnode (option lnode)) (n : lnode) (l : list lnode) : Prop :=
  match l with
  | [] => h !! n = Some None
  | x :: t => h !! n = Some (Some x) ∧ path h x t
  end.

Definition qrep (q : lf_queue) (l : list lnode) : Prop :=
  lk_flag (q_lock q) ≠ SPINLOCK_LOCKED ∧ q_head q = Dummy ∧
  NoDup (Dummy :: l) ∧ path (q_next q) Dummy l ∧ (l ≠ [] → last l = Some (q_tail q)).

Lemma path_frame h n l k v : k ∉ n :: l → path h n l → path (<[k := v]> h) n l.
Proof.
  revert n. induction l as [|x l IH]; intros n Hk; simpl.
  - intros. rewrite lookup_insert_ne; [done|]. set_solver.
  - intros [H1 H2]. rewrite lookup_insert_ne by set_solver. split; [done|].
    apply IH; [set_solver|done].
Qed.

Lemma path_snoc h n l x t :
  NoDup (n :: l) → x ∉ n :: l → path h n l → last (n :: l) = Some t →
  path (<[x := None]> (<[t := Some x]> h)) n (l ++ [x]).
Proof.
  revert n. induction l as [|y l IH]; intros n Hnd Hx Hp Ht; simpl in *.
  - simplify_eq. rewrite lookup_insert_ne, !lookup_insert_eq by set_solver. done.
  - destruct Hp as [H1 H2]. apply NoDup_cons in Hnd as [Hn Hnd].
    assert (t ∈ y :: l) as Htl by (by apply last_Some_elem_of).
    split; [|apply IH; [done|set_solver|done|done]].
    rewrite !lookup_insert_ne; [done|set_solver|set_solver].
Qed.

Lemma path_mapped h n l y : path h n l → y ∈ n :: l → is_Some (h !! y).
Proof.
  revert n. induction l as [|x l IH]; intros n Hp Hy; simpl in *.
  - apply list_elem_of_singleton in Hy as ->. eauto.
  - destruct Hp as [H1 H2]. apply elem_of_cons in Hy as [->|Hy]; eauto.
Qed.

Lemma wp_rd_next n v (Q : option lnode → lf_queue → Prop) q :
  q_next q !! n = Some v → Q v q → wp (rd_next n) Q q.
Proof. intros. unfold rd_next. by wp_go. Qed.

Lemma wp_wr_next n v (Q : unit → lf_queue → Prop) q :
  is_Some (q_next q !! n) →
  Q tt (LfQ (q_lock q) (q_head q) (q_tail q) (<[n := v]> (q_next q))) → wp (wr_next n v) Q q.
Proof. intros [x Hx] HQ. unfold wr_next. wp_step. by eapply wp_rd_next. Qed.

Lemma wp_lock_queue (Q : unit → lf_queue → Prop) q :
  lk_flag (q_lock q) ≠ SPINLOCK_LOCKED →
  Q tt (LfQ (Spinlock 1) (q_head q) (q_tail q) (q_next q)) → wp lock_queue Q q.
Proof.
  intros Hl HQ. unfold lock_queue, spinlock_lock. wp_go. simpl.
  destruct (Z.eqb_spec (lk_flag (q_lock q)) SPINLOCK_LOCKED); done.
Qed.

(** Joins the three statements that append: the tail of the queue, or the dummy
    when it is empty, gets the new node as its successor. *)
Lemma lfQueue_put_spec q l node :
  qrep q l → node ∉ Dummy :: l → is_Some (q_next q !! node) →
  wp (lfQueue_put node) (λ _ q', qrep q' (l ++ [node]) ∧ dom (q_next q') = dom (q_next q)) q.
Proof.
  intros (Hl & Hh & Hnd & Hp & Ht) Hnew Hm. unfold lfQueue_put. wp_step.
  apply wp_lock_queue; [done|]. wp_go. rewrite Hh.
  assert (q_next q !! Dummy = Some (head l)) as Hd by (destruct l; [done|by destruct Hp]).
  set (t := default Dummy (last l)).
  assert (last (Dummy :: l) = Some t) as Hlast.
  { unfold t. rewrite last_cons. by destruct (last l). }
  assert (t ∈ Dummy :: l) as Htin by (by apply last_Some_elem_of).
  pose proof (path_mapped _ _ _ _ Hp Htin) as Htm.
  eapply wp_rd_next; [exact Hd|]. simpl. wp_step.
  assert (∀ Q : unit → lf_queue → Prop,
    Q tt (LfQ (Spinlock 1) Dummy (q_tail q) (<[t := Some node]> (q_next q))) →
    wp (match head l with None => wr_next Dummy (Some node) | Some _ => wr_next (q_tail q) (Some node) end)
       Q (LfQ (Spinlock 1) Dummy (q_tail q) (q_next q))) as Hlink.
  { intros Q HQ. destruct l as [|x l']; cbn [head].
    - apply wp_wr_next; done.
    - assert (Some (q_tail q) = Some t) as [= Et] by (rewrite <-Hlast, <-Ht by done; done).
      rewrite Et in HQ |- *. by apply wp_wr_next. }
  apply Hlink. wp_step.
  apply wp_wr_next; [simpl; by rewrite lookup_insert_ne by set_solver|]. simpl.
  unfold wr_tail, unlock_queue, wr_lock. wp_go. simpl. split; [split_and!|].
  - done.
  - done.
  - rewrite app_comm_cons. apply NoDup_app. split; [done|]. split; [set_solver|apply NoDup_singleton].
  - by apply path_snoc.
  - intros _. by rewrite last_snoc.
  - rewrite !dom_insert_lookup_L; [done|done|]. by rewrite lookup_insert_ne by set_solver.
Qed.

Lemma lfQueue_get_spec q l :
  qrep q l →
  wp lfQueue_get (λ r q', r = head l ∧ qrep q' (tail l) ∧ dom (q_next q') = dom (q_next q)) q.
Proof.
  intros (Hl & Hh & Hnd & Hp & Ht). unfold lfQueue_get. wp_step.
  apply wp_lock_queue; [done|]. wp_go. simpl. rewrite Hh. destruct l as [|x l]; simpl in *.
  - eapply wp_rd_next; [exact Hp|]. unfold unlock_queue, wr_lock. wp_go. simpl. done.
  - destruct Hp as [Hd Hp]. eapply wp_rd_next; [exact Hd|]. cbv beta iota.
    assert (q_next q !! x = Some (head l)) as Hx by (destruct l; [done|by destruct Hp]).
    wp_step. eapply wp_rd_next; [exact Hx|]. wp_step. apply wp_wr_next; [by eexists|].
    unfold unlock_queue, wr_lock. wp_go. simpl.
    apply NoDup_cons in Hnd as [Hd' Hnd]. apply NoDup_cons in Hnd as [Hx' Hnd].
    split; [done|]. split; [split_and!|].
    + done.
    + done.
    + apply NoDup_cons. set_solver.
    + destruct l as [|y l]; simpl in *; [apply lookup_insert_eq|].
      split; [by rewrite lookup_insert_eq|]. destruct Hp as [_ Hp]. apply path_frame; [set_solver|done].
    + intros Hne. destruct l; [done|]. by apply Ht.
    + by rewrite dom_insert_lookup_L by (by eexists).
Qed.

(** ** The queue against its specification *)

Inductive qop := QPut (i : Z) | QGet.

(** The specification: a list; a node that is queued is not put again. *)
Definition spec_step (l : list lnode) (o : qop) : option (option lnode * list lnode) :=
  match o with
  | QPut i => if decide (Node i ∈ l) then None else Some (None, l ++ [Node i])
  | QGet => Some (head l, tail l)
  end.

Fixpoint spec_run (l : list lnode) (os : list qop) : option (list (option lnode) * list lnode) :=
  match os with
  | [] => Some ([], l)
  | o :: os => r ← spec_step l o; t ← spec_run (snd r) os; Some (fst r :: fst t, snd t)
  end.

Definition queue_step (o : qop) : M lf_queue (option lnode) :=
  match o with
  | QPut i => lfQueue_put (Node i);; mret None
  | QGet => lfQueue_get
  end.

Fixpoint queue_run (os : list qop) : M lf_queue (list (option lnode)) :=
  match os with
  | [] => mret []
  | o :: os => r ← queue_step o; t ← queue_run os; mret (r :: t)
  end.

Lemma queue_step_spec q l o r l' :
  qrep q l → (∀ i, o = QPut i → is_Some (q_next q !! Node i)) → spec_step l o = Some (r, l') →
  wp (queue_step o) (λ r' q', r' = r ∧ qrep q' l' ∧ dom (q_next q') = dom (q_next q)) q.
Proof.
  intros Hq Hm Hs. destruct o as [i|]; simpl in *; [case_decide as Hin|]; simplify_eq.
  - wp_step. eapply wp_mono; [apply (lfQueue_put_spec q l (Node i)); auto|].
    + apply not_elem_of_cons. by split.
    + intros [] q' [? ?]. by wp_go.
  - eapply wp_mono; [by apply lfQueue_get_spec|]. naive_solver.
Qed.

(** the queue refines a list: every sequence of puts (of mapped nodes that
    are not queued) and gets, from a state that represents the list [l], ends
    without error, answers what the list answers (first in, first out) and
    represents the resulting list. *)
Theorem lfQueue_fifo q l os outs l' :
  qrep q l → (∀ i, QPut i ∈ os → is_Some (q_next q !! Node i)) →
  spec_run l os = Some (outs, l') →
  ∃ q', queue_run os q = Ok (outs, q') ∧ qrep q' l'.
Proof.
  intros Hq Hm Hs. assert (wp (queue_run os) (λ r q', r = outs ∧ qrep q' l') q) as Hw.
  { revert q l outs l' Hq Hm Hs. induction os as [|o os IH]; intros q l outs l' Hq Hm Hs; simpl in *.
    - simplify_eq. by wp_go.
    - destruct (spec_step l o) as [[r l1]|] eqn:E1; simpl in Hs; [|done].
      destruct (spec_run l1 os) as [[t l2]|] eqn:E2; simpl in Hs; simplify_eq.
      wp_step. eapply wp_mono; [eapply (queue_step_spec q l o r l1 Hq); [|done]|].
      + intros i ->. apply Hm. left.
      + intros r' q1 (-> & Hq1 & Hdom). wp_step. eapply wp_mono; [apply (IH q1 l1 t l'); [done| |done]|].
        * intros i Hi. rewrite <-elem_of_dom, Hdom, elem_of_dom. apply Hm. by right.
        * intros ? q2 [-> ?]. by wp_go. }
  apply wp_elim in Hw as (r & q' & E & -> & Hq'). eauto.
Qed.

(** Two nodes in raw memory. *)
Definition raw_queue : lf_queue :=
  LfQ (Spinlock 1) (Node 5) (Node 6) {[Dummy := Some Dummy; Node 1 := None; Node 2 := Some Dummy]}.
Definition fresh_queue : lf_queue :=
  match lfQueue_init raw_queue with Ok (_, q) => q | Err _ => raw_queue end.

Lemma lfQueue_fifo_witness :
  ∃ q', queue_run [QGet; QPut 1; QPut 2; QGet; QPut 1; QGet; QGet] fresh_queue
          = Ok ([None; None; None; Some (Node 1); None; Some (Node 2); Some (Node 1)], q') ∧ qrep q' [].
Proof.
  apply (lfQueue_fifo fresh_queue []).
  - split_and!; try done. apply NoDup_singleton.
  - intros i Hi. assert (i = 1 ∨ i = 2) as [->| ->]; [|vm_compute; eauto..].
    rewrite !elem_of_cons, elem_of_nil in Hi. naive_solver.
  - reflexivity.
Defined.
