(* ===== verification/Time.v ===== *)
(** * The clock: lib/time.c and drivers/cmos.c

    [read_rtc] decodes the registers of the real time clock, [utc2stamp] turns a
    date into seconds since 1970.  The chip itself is an oracle: [regs k] are the
    registers at the [k]-th reading. *)

From S2P Require Import Prelude.
From Stdlib Require Import ZArith Lia.
From stdpp Require Import base numbers list.
Open Scope Z_scope.

Record cmos_time := CmosTime {
  second : Z; minute : Z; hour : Z; day : Z; month : Z; year : Z }.

(** ** utc2stamp *)

(** The static table [month_days] is written by every call: it is the state. *)
Definition month_days0 : list Z := [31; 28; 31; 30; 31; 30; 31; 31; 30; 31; 30; 31].

(** [for (u8_t mon = 0; mon < time->month - 1; ++mon) days += month_days[mon]] *)
Fixpoint add_months (n : nat) (mon days : Z) : M (list Z) Z :=
  match n with
  | O => mret days
  | S n' => t ← get; d ← deref (t !! Z.to_nat mon);
            add_months n' (mon + 1) (u32 (days + d))
  end.

Definition utc2stamp (time : cmos_time) : M (list Z) Z :=
  let y := year time in
  let years := u32 (y - 1970) in
  let leap_year := u32 (Z.shiftr (y - 1968) 2 - Z.quot (y - 1900) 100 + Z.quot (y - 1600) 400) in
  let days := u32 (leap_year * 366 + (years - leap_year) * 365) in
  let is_leap := (truth (Z.rem y 100) && negb (truth (Z.land y 3))) || negb (truth (Z.rem y 400)) in
  modify (λ t, <[1%nat := if is_leap then 29 else 28]> t);;
  days ← add_months (Z.to_nat (month time - 1)) 0 days;
  let days := u32 (days + (day time - 1)) in
  mret (u64 (u32 (days * 24 * 60 * 60 + hour time * 60 * 60 + minute time * 60 + second time))).

(** ** read_rtc *)

(** What one [CMOS_READ] stores; [century] is read when the register exists. *)
Record snapshot := Snapshot { sn_time : cmos_time; sn_century : Z }.

#[export] Instance cmos_time_eq_dec : EqDecision cmos_time.
Proof. solve_decision. Defined.
#[export] Instance snapshot_eq_dec : EqDecision snapshot.
Proof. solve_decision. Defined.

(** The [do ... while]: readings are repeated until two in a row agree. *)
Fixpoint read_stable (fuel : nat) (regs : nat → snapshot) (k : nat) : option snapshot :=
  match fuel with
  | O => None
  | S f => if decide (regs (S k) = regs k) then Some (regs (S k)) else read_stable f regs (S k)
  end.

Definition CURRENT_YEAR : Z := 2022.

Definition from_bcd (x : Z) : Z := Z.land x 0x0F + x / 16 * 10.

Definition unbcd (century_register : Z) (s : snapshot) : snapshot :=
  let t := sn_time s in
  Snapshot
    (CmosTime (u8 (from_bcd (second t))) (u8 (from_bcd (minute t)))
       (u8 (Z.lor (Z.land (hour t) 0x0F + Z.land (hour t) 0x70 / 16 * 10) (Z.land (hour t) 0x80)))
       (u8 (from_bcd (day t))) (u8 (from_bcd (month t))) (from_bcd (year t)))
    (if truth century_register then u8 (from_bcd (sn_century s)) else sn_century s).

Definition set_hour (h : Z) (t : cmos_time) : cmos_time :=
  CmosTime (second t) (minute t) h (day t) (month t) (year t).
Definition set_year (y : Z) (t : cmos_time) : cmos_time :=
  CmosTime (second t) (minute t) (hour t) (day t) (month t) y.

(** The part of [read_rtc] after the readings. *)
Definition decode_rtc (registerB century_register : Z) (s : snapshot) : cmos_time :=
  let s := if negb (truth (Z.land registerB 0x04)) then unbcd century_register s else s in
  let t := sn_time s in
  let t := if negb (truth (Z.land registerB 0x02)) && truth (Z.land (hour t) 0x80)
           then set_hour (u8 ((Z.land (hour t) 0x7F + 12) mod 24)) t else t in
  if truth century_register then set_year (year t + sn_century s * 100) t
  else
    let y := year t + CURRENT_YEAR / 100 * 100 in
    set_year (if y <? CURRENT_YEAR then y + 100 else y) t.

Definition read_rtc (fuel : nat) (regs : nat → snapshot) (registerB century_register : Z) : option cmos_time :=
  s ← read_stable fuel regs 0; Some (decode_rtc registerB century_register s).

(** [cmos_init]: the new [startup_timestamp]. *)
Definition cmos_init (t : cmos_time) : M (list Z) Z := utc2stamp t.

Definition cur_timestamp (startup_timestamp time_since_boot : Z) : Z :=
  u64 (startup_timestamp + time_since_boot / 1000).

(** ** Calendar *)

Definition leap (y : Z) : bool := (y mod 4 =? 0) && negb (y mod 100 =? 0) || (y mod 400 =? 0).
Definition month_len (y m : Z) : Z :=
  if m =? 2 then (if leap y then 29 else 28)
  else if (m =? 4) || (m =? 6) || (m =? 9) || (m =? 11) then 30 else 31.

(** Days from 1970-01-01 to the first of January of [1970 + n]. *)
Fixpoint year_start (n : nat) : Z :=
  match n with
  | O => 0
  | S k => year_start k + (if leap (1970 + Z.of_nat k) then 366 else 365)
  end.
Fixpoint month_start (y : Z) (n : nat) : Z :=
  match n with O => 0 | S k => month_start y k + month_len y (Z.of_nat k + 1) end.

Definition days_of (t : cmos_time) : Z :=
  year_start (Z.to_nat (year t - 1970)) + month_start (year t) (Z.to_nat (month t - 1)) + (day t - 1).

Definition valid_date (t : cmos_time) : Prop :=
  1970 ≤ year t ≤ 2105 ∧ 1 ≤ month t ≤ 12 ∧ 1 ≤ day t ≤ month_len (year t) (month t) ∧
  0 ≤ hour t < 24 ∧ 0 ≤ minute t < 60 ∧ 0 ≤ second t < 60.

Lemma add_months_eq n mon days tbl :
  add_months n mon days tbl =
  match n with
  | O => Ok (days, tbl)
  | S n' => match tbl !! Z.to_nat mon with
            | Some d => add_months n' (mon + 1) (u32 (days + d)) tbl
            | None => Err Fault end
  end.
Proof.
  destruct n; [done|]. simpl. unfold mbind, M_bind, get, deref.
  by destruct (tbl !! Z.to_nat mon).
Qed.

(** The date part on every year and month, by evaluation. *)
Definition year_days (y : Z) : Z :=
  let leap_year := u32 (Z.shiftr (y - 1968) 2 - Z.quot (y - 1900) 100 + Z.quot (y - 1600) 400) in
  u32 (leap_year * 366 + (u32 (y - 1970) - leap_year) * 365).
Definition code_leap (y : Z) : bool :=
  (truth (Z.rem y 100) && negb (truth (Z.land y 3))) || negb (truth (Z.rem y 400)).

Definition date_ok (y m : Z) : bool :=
  match add_months (Z.to_nat (m - 1)) 0 (year_days y)
          (<[1%nat := if code_leap y then 29 else 28]> month_days0) with
  | Ok (d, t) =>
      (d =? year_start (Z.to_nat (y - 1970)) + month_start y (Z.to_nat (m - 1)) + (if leap y then 1 else 0))
      && (0 <=? d) && (d <? 49679)
  | Err _ => false
  end.

Lemma dates_checked :
  forallb (λ y, forallb (date_ok y) (seqZ 1 12)) (seqZ 1970 136) = true.
Proof. vm_compute. reflexivity. Qed.

Lemma date_ok_all y m : 1970 ≤ y ≤ 2105 → 1 ≤ m ≤ 12 → date_ok y m = true.
Proof.
  intros Hy Hm. pose proof dates_checked as H. rewrite forallb_forall in H.
  assert (List.In y (seqZ 1970 136)) as Hin by (apply list_elem_of_In, elem_of_seqZ; lia).
  specialize (H y Hin). rewrite forallb_forall in H. apply H, list_elem_of_In, elem_of_seqZ. lia.
Qed.

(** [utc2stamp] against the calendar.  For every date from 1970 to 2105 the
    result is the number of seconds since 1970-01-01, but a full day too much in
    leap years: the formula for the leap days counts the current year as passed. *)
Theorem utc2stamp_calendar t x :
  valid_date t →
  ∃ tbl', utc2stamp t (<[1%nat := x]> month_days0) =
    Ok (86400 * (days_of t + (if leap (year t) then 1 else 0)) +
        3600 * hour t + 60 * minute t + second t, tbl').
Proof.
  intros (Hy & Hm & Hd & Hh & Hmi & Hs). pose proof (date_ok_all (year t) (month t) Hy Hm) as Hok.
  unfold utc2stamp. erewrite bind_Ok by reflexivity. rewrite list_insert_insert_eq.
  change (if (truth (Z.rem (year t) 100) && negb (truth (Z.land (year t) 3))) || negb (truth (Z.rem (year t) 400))
          then 29 else 28) with (if code_leap (year t) then 29 else 28).
  change (u32 (u32 (Z.shiftr (year t - 1968) 2 - Z.quot (year t - 1900) 100 + Z.quot (year t - 1600) 400) * 366
    + (u32 (year t - 1970) - u32 (Z.shiftr (year t - 1968) 2 - Z.quot (year t - 1900) 100
    + Z.quot (year t - 1600) 400)) * 365)) with (year_days (year t)).
  unfold date_ok in Hok.
  destruct (add_months _ _ _ _) as [[d tbl]|] eqn:E; [|done]. rewrite (bind_Ok _ _ _ _ _ E).
  apply andb_true_iff in Hok as [[Hdd H0]%andb_true_iff H1].
  apply Z.eqb_eq in Hdd. apply Z.leb_le in H0. apply Z.ltb_lt in H1. clear E.
  exists tbl. unfold mret, M_ret. do 2 f_equal. unfold days_of.
  assert (month_len (year t) (month t) ≤ 31) by (unfold month_len; repeat case_match; lia).
  rewrite (u32_small (d + _)) by lia. rewrite u32_small by lia. rewrite u64_small by lia.
  rewrite Hdd. destruct (leap (year t)); lia.
Qed.

Lemma utc2stamp_calendar_witness :
  ∃ tbl', utc2stamp (CmosTime 56 34 12 9 8 2021) (<[1%nat := 29]> month_days0) =
    Ok (1628512496, tbl').
Proof.
  destruct (utc2stamp_calendar (CmosTime 56 34 12 9 8 2021) 29) as [tbl' E].
  - repeat split; by vm_compute.
  - exists tbl'. rewrite E. vm_compute. reflexivity.
Defined.

(** ** The clock registers *)

(** Packed BCD and the 12 hour form, as the chip stores them. *)
Definition to_bcd (x : Z) : Z := x / 10 * 16 + x mod 10.
Definition hour12 (h : Z) : Z :=
  let h12 := if h mod 12 =? 0 then 12 else h mod 12 in if h <? 12 then h12 else h12 + 0x80.
Definition hour12_bcd (h : Z) : Z :=
  let h12 := if h mod 12 =? 0 then 12 else h mod 12 in
  if h <? 12 then to_bcd h12 else to_bcd h12 + 0x80.

(** The registers of a chip that shows [t] (without century register). *)
Definition encode_rtc (registerB : Z) (t : cmos_time) : snapshot :=
  let enc := if negb (truth (Z.land registerB 0x04)) then to_bcd else id in
  let ench := if negb (truth (Z.land registerB 0x02))
              then (if negb (truth (Z.land registerB 0x04)) then hour12_bcd else hour12)
              else enc in
  Snapshot (CmosTime (enc (second t)) (enc (minute t)) (ench (hour t)) (enc (day t)) (enc (month t))
              (enc (year t mod 100))) 0.

(** The hour that [read_rtc] makes of the chip's: right in 24 hour mode; in 12
    hour mode noon is read as 0 and midnight as 12. *)
Definition read_hour (registerB h : Z) : Z :=
  if negb (truth (Z.land registerB 0x02)) && (h mod 12 =? 0) then 12 - h else h.

Lemma bcd_roundtrip x : 0 ≤ x < 100 → u8 (from_bcd (to_bcd x)) = x ∧ from_bcd (to_bcd x) = x.
Proof.
  intros Hx. assert (Forall (λ x, u8 (from_bcd (to_bcd x)) = x ∧ from_bcd (to_bcd x) = x) (seqZ 0 100)) as H
    by (repeat constructor).
  rewrite Forall_forall in H. apply H, elem_of_seqZ. lia.
Qed.

Definition hour_after (registerB h : Z) : Z :=
  hour (decode_rtc registerB 0 (encode_rtc registerB (CmosTime 0 0 h 1 1 2022))).

Lemma hours_checked :
  forallb (λ b, forallb (λ h, hour_after b h =? read_hour b h) (seqZ 0 24)) [0; 2; 4; 6] = true.
Proof. vm_compute. reflexivity. Qed.

Lemma cmos_time_eq t1 t2 :
  second t1 = second t2 → minute t1 = minute t2 → hour t1 = hour t2 → day t1 = day t2 →
  month t1 = month t2 → year t1 = year t2 → t1 = t2.
Proof. destruct t1, t2. simpl. congruence. Qed.

(** The hour and the other fields are decoded independently. *)
Lemma decode_hour registerB t :
  registerB ∈ [0; 2; 4; 6] →
  hour (decode_rtc registerB 0 (encode_rtc registerB t)) = hour_after registerB (hour t).
Proof.
  intros HB. rewrite !elem_of_cons, elem_of_nil in HB.
  destruct HB as [->|[->|[->|[->|[]]]]]; unfold hour_after, decode_rtc, encode_rtc, unbcd; simpl;
    repeat case_match; reflexivity.
Qed.

Lemma decode_fields registerB s c :
  let s' := if negb (truth (Z.land registerB 0x04)) then unbcd 0 s else s in
  let t := decode_rtc registerB 0 s in
  c = sn_time s' →
  second t = second c ∧ minute t = minute c ∧ day t = day c ∧ month t = month c ∧
  year t = (if year c + 2000 <? 2022 then year c + 2000 + 100 else year c + 2000).
Proof.
  simpl. intros ->. unfold decode_rtc. change (truth 0) with false. cbv iota zeta.
  change (CURRENT_YEAR / 100 * 100) with 2000. change CURRENT_YEAR with 2022.
  destruct (negb (truth (Z.land registerB 2)) && _); by simpl.
Qed.

(** the decoding of the clock registers.  Whatever the number format (BCD or
    binary) and the hour format the chip is set to, [read_rtc] recovers the
    minute, second, day, month and the year of a date between 2022 and 2121, and
    the hour up to the confusion of noon and midnight in 12 hour mode. *)
Theorem decode_encode_rtc t registerB :
  registerB ∈ [0; 2; 4; 6] → valid_date t → 2022 ≤ year t →
  decode_rtc registerB 0 (encode_rtc registerB t) = set_hour (read_hour registerB (hour t)) t.
Proof.
  intros HB (Hy & Hm & Hd & Hh & Hmi & Hs) Hy2.
  assert (month_len (year t) (month t) ≤ 31) by (unfold month_len; repeat case_match; lia).
  assert (hour_after registerB (hour t) = read_hour registerB (hour t)) as Hhour.
  { pose proof hours_checked as Hc. rewrite forallb_forall in Hc.
    specialize (Hc registerB (proj1 (list_elem_of_In _ _) HB)). rewrite forallb_forall in Hc.
    apply Z.eqb_eq, Hc, list_elem_of_In, elem_of_seqZ. lia. }
  destruct (decode_fields registerB (encode_rtc registerB t) _ eq_refl) as (E1 & E2 & E3 & E4 & E5).
  pose proof (Z.mod_pos_bound (year t) 100 ltac:(lia)) as Hy100.
  assert (∀ x, 0 ≤ x < 100 → u8 (from_bcd (to_bcd x)) = x ∧ from_bcd (to_bcd x) = x) as Hbcd
    by apply bcd_roundtrip.
  assert (year (decode_rtc registerB 0 (encode_rtc registerB t)) = year t) as Ey.
  { rewrite E5. clear E1 E2 E3 E4 E5 Hhour. unfold encode_rtc, unbcd.
    destruct (negb (truth (Z.land registerB 4))); simpl; rewrite ?(proj2 (Hbcd (year t mod 100) Hy100));
      unfold id; destruct (Z.ltb_spec (year t mod 100 + 2000) 2022); Z.div_mod_to_equations; lia. }
  pose proof (decode_hour registerB t HB) as Eh. rewrite Hhour in Eh.
  set (r := decode_rtc registerB 0 (encode_rtc registerB t)) in *. clearbody r.
  unfold encode_rtc, unbcd in E1, E2, E3, E4.
  destruct (negb (truth (Z.land registerB 4))); simpl in E1, E2, E3, E4;
    apply cmos_time_eq; simpl; rewrite ?E1, ?E2, ?E3, ?E4, ?Eh, ?Ey; try done; apply Hbcd; lia.
Qed.

Lemma decode_encode_rtc_witness :
  decode_rtc 2 0 (encode_rtc 2 (CmosTime 56 34 12 9 8 2023)) = CmosTime 56 34 12 9 8 2023 ∧
  decode_rtc 0 0 (encode_rtc 0 (CmosTime 56 34 12 9 8 2023)) = CmosTime 56 34 0 9 8 2023.
Proof.
  split; apply decode_encode_rtc;
    (repeat split; by vm_compute) || (simpl; lia) || (rewrite !elem_of_cons; tauto).
Defined.
