(* ===== verification/BlockAlloc.v ===== *)
(** * The boot-time memory allocator (mm/block_alloc.c)

    Before paging is on, memory comes from the regions of the boot loader's
    memory map.  The regions are [blockInfo] records in one array; the circular
    list [blockAllocator.head] links them, and is given here as the sequence of
    the array indices in list order (DList.v relates list.h to sequences). *)

From S2P Require Import Prelude QLib.
From Stdlib Require Import ZArith Lia.
From stdpp Require Import base numbers gmap list.
Open Scope Z_scope.

Definition MULTIBOOT_MEMORY_AVAILABLE : Z := 1.
Definition MULTIBOOT_MEMORY_RESERVED : Z := 2.
Definition sizeof_blockInfo : Z := 16.

(** [struct multiboot_mmap_entry] *)
Record mmap_entry := MmapEntry { e_addr : Z; e_len : Z; e_type : Z; e_zero : Z }.

Record blockInfo := BlockInfo { bi_addr : Z; bi_size : Z }.

Record block_allocator := BlockAllocator {
  ba_addr : Z;                 (* start of the first region *)
  ba_size : Z;                 (* free bytes *)
  ba_order : list nat;         (* the list: indices of [ba_infos] *)
  ba_infos : list blockInfo }.

(** ** Initialisation *)

(** The first pass: memory below the end of the kernel [K_END] is cut off. *)
Definition trim_entry (K_END : Z) (e : mmap_entry) : res mmap_entry :=
  if negb (e_zero e =? 0) then Err Assert
  else if negb (e_type e =? MULTIBOOT_MEMORY_AVAILABLE) then Ok e
  else if e_addr e <? K_END then
    let end_addr := u64 (e_addr e + e_len e) in
    if end_addr <? K_END
    then Ok (MmapEntry (e_addr e) (e_len e) MULTIBOOT_MEMORY_RESERVED (e_zero e))
    else Ok (MmapEntry K_END (u64 (end_addr - K_END)) (e_type e) (e_zero e))
  else Ok e.

Fixpoint trim_entries (K_END : Z) (es : list mmap_entry) : res (list mmap_entry) :=
  match es with
  | [] => Ok []
  | e :: es => match trim_entry K_END e, trim_entries K_END es with
               | Ok e', Ok es' => Ok (e' :: es')
               | Err x, _ => Err x
               | _, Err x => Err x
               end
  end.

Definition available (e : mmap_entry) : bool := e_type e =? MULTIBOOT_MEMORY_AVAILABLE.

(** [firstMem]: the available entry with the smallest address, the first of them. *)
Fixpoint first_mem (es : list mmap_entry) (i : nat) (best : option (nat * Z)) : option (nat * Z) :=
  match es with
  | [] => best
  | e :: es =>
      first_mem es (S i)
        (if available e
         then match best with
              | Some (_, a) => if e_addr e <? a then Some (i, e_addr e) else best
              | None => Some (i, e_addr e)
              end
         else best)
  end.

(** Inner loop of [sort_block_info]: the position in the sorted prefix (given
    from its end) after which node [hdr] goes.  The comparison is between the
    nodes' addresses, that is between array indices. *)
Fixpoint insert_back (hdr : nat) (rprefix : list nat) : list nat :=
  match rprefix with
  | [] => [hdr]
  | tmp :: t => if (hdr <? tmp)%nat then tmp :: insert_back hdr t else hdr :: rprefix
  end.

Definition sort_block_info (order : list nat) : list nat :=
  reverse (foldl (λ acc hdr, insert_back hdr acc) [] order).

(** The second pass, and [memBlock_init] up to the call of [reload], which is in Boot.v. *)
Definition memBlock_init (K_END : Z) (es : list mmap_entry) : res block_allocator :=
  match trim_entries K_END es with
  | Err x => Err x
  | Ok es =>
      let cnt := Z.of_nat (length (filter available es)) in
      match first_mem es 0 None with
      | None => Err Fault
      | Some (fi, faddr) =>
          if negb (faddr <? 4 * 0x100000) then Err Assert
          else if cnt =? 0 then Err Assert
          else
            let alloc := u32 (sizeof_blockInfo * cnt) in
            match es !! fi with
            | None => Err Fault
            | Some fe =>
                if negb (alloc <? e_len fe) then Err Assert
                else
                  let fe' := MmapEntry (u64 (e_addr fe + alloc)) (u64 (e_len fe - alloc)) (e_type fe) (e_zero fe) in
                  let avail := filter available (<[fi := fe']> es) in
                  let infos := (λ e, BlockInfo (u32 (e_addr e)) (u32 (e_len e))) <$> avail in
                  let size := foldl (λ a e, u32 (a + e_len e)) 0 avail in
                  let order := sort_block_info (seq 0 (length infos)) in
                  match order with
                  | [] => Err Fault
                  | n :: _ => match infos !! n with
                              | Some b => Ok (BlockAllocator (bi_addr b) size order infos)
                              | None => Err Fault
                              end
                  end
            end
      end
  end.

(** ** Allocation *)

Definition block_align_size (addr size : Z) : Z :=
  PAGE_CEIL (u32 (size - u32 (PAGE_FLOOR addr - addr))).

(** The first node in list order whose block holds [size] bytes. *)
Fixpoint first_fit (infos : list blockInfo) (order : list nat) (size : Z) : option (nat * blockInfo) :=
  match order with
  | [] => None
  | n :: t => match infos !! n with
              | Some b => if size <=? bi_size b then Some (n, b) else first_fit infos t size
              | None => first_fit infos t size
              end
  end.

Definition block_alloc (size : Z) : M block_allocator Z :=
  s ← get;
  assertk (size <=? ba_size s);;
  let size := MEM_ALIGN size 4 in
  addr ← match first_fit (ba_infos s) (ba_order s) size with
         | None => mret 0
         | Some (n, b) =>
             let b' := BlockInfo (u32 (bi_addr b + size)) (u32 (bi_size b - size)) in
             modify (λ s, BlockAllocator
               (if decide (head (ba_order s) = Some n) then bi_addr b' else ba_addr s)
               (u32 (ba_size s - size)) (ba_order s) (<[n := b']> (ba_infos s)));;
             mret (bi_addr b)
         end;
  assertk (truth addr);;
  mret addr.

Definition block_alloc_align (size align : Z) : M block_allocator Z :=
  assertk ((4 <? align) && (Z.land align 3 =? 0));;
  addr ← block_alloc (u32 (size + align - 1));
  mret (MEM_ALIGN addr align).

Definition block_start : M block_allocator Z := gets ba_addr.

Definition block_end : M block_allocator Z :=
  s ← get;
  assertk (negb (bool_decide (ba_order s = [])));;
  n ← deref (last (ba_order s));
  b ← deref (ba_infos s !! n);
  mret (u32 (bi_addr b + bi_size b)).

Definition block_size : M block_allocator Z := gets ba_size.

(** ** Correctness *)

(** Every node is linked once, blocks end below 4 GiB and do not overlap, and
    the free size is their sum. *)
Definition block_inv (s : block_allocator) : Prop :=
  NoDup (ba_order s) ∧ (∀ n, n ∈ ba_order s → is_Some (ba_infos s !! n)) ∧
  (∀ n b, n ∈ ba_order s → ba_infos s !! n = Some b →
     0 < bi_addr b ∧ 0 ≤ bi_size b ∧ bi_addr b + bi_size b < 2 ^ 32) ∧
  (∀ n m b c, n ∈ ba_order s → m ∈ ba_order s → n ≠ m →
     ba_infos s !! n = Some b → ba_infos s !! m = Some c →
     bi_addr b + bi_size b ≤ bi_addr c ∨ bi_addr c + bi_size c ≤ bi_addr b).

Lemma first_fit_Some infos order size n b :
  first_fit infos order size = Some (n, b) → n ∈ order ∧ infos !! n = Some b ∧ size ≤ bi_size b.
Proof.
  induction order as [|m t IH]; simpl; [done|]. destruct (infos !! m) as [c|] eqn:E.
  - destruct (Z.leb_spec size (bi_size c)); [intros [= <- <-]; split; [left|done]|].
    intros H1. apply IH in H1 as (? & ? & ?). split; [by right|done].
  - intros H1. apply IH in H1 as (? & ? & ?). split; [by right|done].
Qed.

Lemma first_fit_None infos order size n b :
  first_fit infos order size = None → n ∈ order → infos !! n = Some b → bi_size b < size.
Proof.
  induction order as [|m t IH]; simpl; [by intros _ ?%elem_of_nil|].
  destruct (infos !! m) as [c|] eqn:E.
  - destruct (Z.leb_spec size (bi_size c)); [done|]. intros H1 [->|Hn]%elem_of_cons Hb; [by simplify_eq|].
    by apply IH.
  - intros H1 [->|Hn]%elem_of_cons Hb; [by simplify_eq|]. by apply IH.
Qed.

Lemma block_inv_take s n b sz :
  block_inv s → n ∈ ba_order s → ba_infos s !! n = Some b → 0 ≤ sz ≤ bi_size b →
  ∀ a z, block_inv (BlockAllocator a z (ba_order s)
    (<[n := BlockInfo (bi_addr b + sz) (bi_size b - sz)]> (ba_infos s))).
Proof.
  intros (H1 & H2 & H3 & H4) Hn Hb Hsz a z.
  assert (∀ m c, <[n := BlockInfo (bi_addr b + sz) (bi_size b - sz)]> (ba_infos s) !! m = Some c →
    (m = n ∧ c = BlockInfo (bi_addr b + sz) (bi_size b - sz)) ∨ (m ≠ n ∧ ba_infos s !! m = Some c)) as Hlk.
  { intros m c. rewrite list_lookup_insert_Some. naive_solver. }
  pose proof (H3 n b Hn Hb). unfold block_inv. simpl. split_and!; [done| | |].
  - intros m Hm. destruct (decide (m = n)) as [->|].
    + rewrite list_lookup_insert_eq; [eauto|]. by eapply lookup_lt_Some.
    + rewrite list_lookup_insert_ne by done. by apply H2.
  - intros m c Hm Hc. apply Hlk in Hc as [[-> ->]|[_ Hc]]; simpl; [lia|by eapply H3].
  - intros m1 m2 c1 c2 Hm1 Hm2 Hne Hc1 Hc2.
    apply Hlk in Hc1 as [[-> ->]|[? Hc1]], Hc2 as [[-> ->]|[? Hc2]]; simpl; try done.
    + pose proof (H4 n m2 b c2 Hn Hm2 Hne Hb Hc2). lia.
    + pose proof (H4 m1 n c1 b Hm1 Hn Hne Hc1 Hb). lia.
    + by apply (H4 m1 m2).
Qed.

Lemma mem_align4 size : 0 < size ≤ 2 ^ 32 - 4 → size ≤ MEM_ALIGN size 4 < size + 4 ∧ 4 ≤ MEM_ALIGN size 4.
Proof.
  intros Hs. change 4 with (2 ^ 2). rewrite MEM_ALIGN_eq by lia. change (2 ^ 2) with 4.
  Z.div_mod_to_equations. lia.
Qed.

(** The total suffices and some block holds the rounded size. *)
Definition fits (s : block_allocator) (size : Z) : Prop :=
  size ≤ ba_size s ∧
  ∃ n b, n ∈ ba_order s ∧ ba_infos s !! n = Some b ∧ MEM_ALIGN size 4 ≤ bi_size b.

(** [block_alloc] is a first-fit allocator.  When some block holds the size,
    rounded up to a multiple of 4, and the total suffices, it returns a range of
    that size that was free; no block left overlaps the range and the blocks
    stay disjoint.  Otherwise the kernel panics. *)
Theorem block_alloc_correct s size :
  block_inv s → 0 < size ≤ 2 ^ 32 - 4 →
  (fits s size →
   ∃ a s', block_alloc size s = Ok (a, s') ∧ block_inv s' ∧ ba_order s' = ba_order s ∧
     ba_size s' = u32 (ba_size s - MEM_ALIGN size 4) ∧
     (∃ n b, n ∈ ba_order s ∧ ba_infos s !! n = Some b ∧ a = bi_addr b ∧ MEM_ALIGN size 4 ≤ bi_size b) ∧
     (∀ n b, n ∈ ba_order s → ba_infos s' !! n = Some b →
        bi_addr b + bi_size b ≤ a ∨ a + MEM_ALIGN size 4 ≤ bi_addr b)) ∧
  (¬ fits s size → block_alloc size s = Err Assert).
Proof.
  intros Hi Hs. pose proof (mem_align4 size Hs) as Hsz. set (sz := MEM_ALIGN size 4) in *.
  unfold block_alloc. fold sz. rewrite (bind_Ok get _ s s s eq_refl).
  destruct (Z.leb_spec size (ba_size s)) as [Hle|Hgt]; [|split; [intros [? _]; lia|done]].
  rewrite (bind_Ok (assertk true) _ s tt s eq_refl).
  destruct (first_fit (ba_infos s) (ba_order s) sz) as [[n b]|] eqn:E.
  - apply first_fit_Some in E as (Hn & Hb & Hle'). split.
    2: { intros []. split; [done|]. by exists n, b. }
    intros _. pose proof Hi as (_ & _ & H3 & H4). pose proof (H3 n b Hn Hb) as Hbb.
    rewrite (u32_small (bi_addr b + sz)), (u32_small (bi_size b - sz)) by lia.
    eexists _, _. split.
    { erewrite bind_Ok by (erewrite bind_Ok by reflexivity; reflexivity).
      unfold assertk. rewrite (proj2 (truth_true (bi_addr b))) by lia. reflexivity. }
    split; [by apply block_inv_take; try lia|]. split; [done|]. split; [done|]. split; [by exists n, b|].
    simpl. intros m c Hm. rewrite list_lookup_insert_Some. intros [(<- & <- & _)|[Hne Hc]]; simpl; [lia|].
    pose proof (H4 n m b c Hn Hm Hne Hb Hc). pose proof (H3 m c Hm Hc). lia.
  - split; [|done]. intros (_ & n & b & Hn & Hb & Hfit).
    pose proof (first_fit_None _ _ _ _ _ E Hn Hb). lia.
Qed.

Definition two_blocks : block_allocator :=
  BlockAllocator 0x200000 0x30000 [0%nat; 1%nat]
    [BlockInfo 0x200000 0x10000; BlockInfo 0x400000 0x20000].

Lemma two_blocks_inv : block_inv two_blocks.
Proof.
  assert (∀ (n : nat), n ∈ [0%nat; 1%nat] → n = 0%nat ∨ n = 1%nat) as Hc by (intros n; set_solver).
  split_and!.
  - by apply NoDup_cons; split; [set_solver|apply NoDup_singleton].
  - intros n [->| ->]%Hc; simpl; eauto.
  - intros n b [->| ->]%Hc [= <-]; simpl; lia.
  - intros n m b c [->| ->]%Hc [->| ->]%Hc Hne [= <-] [= <-]; simpl; (done || lia).
Qed.

Lemma block_alloc_correct_witness :
  ∃ a s', block_alloc 0x18000 two_blocks = Ok (a, s') ∧ block_inv s'.
Proof.
  destruct (proj1 (block_alloc_correct two_blocks 0x18000 two_blocks_inv ltac:(lia)))
    as (a & s' & E & Hi & _); [|eauto].
  split; [done|]. exists 1%nat, (BlockInfo 0x400000 0x20000). split; [set_solver|]. by vm_compute.
Defined.

(** ** The order of the blocks *)

Lemma insert_back_last n acc : Forall (λ m, (m < n)%nat) acc → insert_back n acc = n :: acc.
Proof.
  destruct acc as [|m t]; [done|]. intros [Hm _]%Forall_cons. simpl.
  destruct (Nat.ltb_spec n m); [lia|done].
Qed.

Lemma sort_block_info_id n : sort_block_info (seq 0 n) = seq 0 n.
Proof.
  unfold sort_block_info.
  assert (∀ n, foldl (λ acc hdr, insert_back hdr acc) [] (seq 0 n) = reverse (seq 0 n)) as Hf.
  { clear. induction n as [|n IH]; [done|]. rewrite seq_S, foldl_app, IH. simpl.
    rewrite insert_back_last; [by rewrite reverse_app|].
    apply Forall_reverse, Forall_forall. intros m Hm%elem_of_seq. lia. }
  rewrite Hf. apply reverse_involutive.
Qed.

(** the blocks keep the order of the boot loader's memory map.
    [sort_block_info] compares the addresses of the list nodes, which are in map
    order already, and not the addresses of the blocks: it never moves a block,
    so the first block need not be the one with the lowest address. *)
Theorem block_order_is_map_order K_END es s :
  memBlock_init K_END es = Ok s →
  ba_order s = seq 0 (length (ba_infos s)) ∧
  ∃ b, ba_infos s !! 0%nat = Some b ∧ ba_addr s = bi_addr b.
Proof.
  unfold memBlock_init. destruct (trim_entries K_END es) as [es'|]; [|done].
  destruct (first_mem es' 0 None) as [[fi fa]|]; [|done].
  destruct (negb (fa <? _)); [done|]. destruct (_ =? 0); [done|].
  destruct (es' !! fi) as [fe|]; [|done]. destruct (negb (_ <? e_len fe)); [done|].
  rewrite sort_block_info_id.
  set (infos := _ <$> filter available _). destruct (seq 0 (length infos)) as [|n t] eqn:Es; [done|].
  assert (n = 0%nat) as -> by (destruct (length infos); simpl in Es; congruence).
  destruct (infos !! 0%nat) as [b|] eqn:Eb; [|done]. intros [= <-]. simpl. eauto.
Qed.

(** Two available regions, the higher one first in the map. *)
Lemma block_order_is_map_order_witness :
  ∃ s, memBlock_init 0x200000 [MmapEntry 0x1000000 0x100000 1 0; MmapEntry 0x100000 0x200000 1 0] = Ok s ∧
    ba_addr s = 0x1000000 ∧ ba_order s = [0%nat; 1%nat].
Proof.
  eexists. split; [reflexivity|]. split; [reflexivity|].
  refine (proj1 (block_order_is_map_order 0x200000
    [MmapEntry 0x1000000 0x100000 1 0; MmapEntry 0x100000 0x200000 1 0] _ eq_refl)).
Defined.
