(* ===== verification/Vm.v ===== *)
(** * Kernel page tables (mm/vm.c)

    The kernel maps the last gigabyte: [kPageTables] is one array of 2^18 page
    table entries, entry [i] for the page at [KERNEL_START + 4096 * i]; a pointer
    to an entry is its index.  The state adds the tables and the page directory
    to the page allocator's.  TLB flushes and loads of cr3 have no effect on the
    modelled state, except that [kCr3] is kept. *)

From S2P Require Import Prelude QLib DList Locks Page PageAlloc BuddySpec PageAllocCorrect PageAllocInit PageAllocProps.
From Stdlib Require Import ZArith Lia.
From stdpp Require Import base countable numbers gmap list.
Open Scope Z_scope.

Definition KERNEL_START : Z := 0xc0000000.
Definition DEV_SPACE : Z := 0xFE000000.
Definition DEVSP_SIZE : Z := 0x2000000.
Definition STACK_SIZE : Z := PAGE_SIZE.
Definition PHYS_TOP : Z := 1024 * 1024 * 1024 - DEVSP_SIZE.
Definition CR3_CTRL : Z := 0.
Definition N_PTE : Z := 1024.
Definition N_PDE : Z := 1024.
Definition VM_PRES : Z := 1.
Definition VM_NPRES : Z := 0.
Definition VM_KR : Z := 0.
Definition VM_KRW : Z := 2.
Definition VM_UR : Z := 4.
Definition VM_URW : Z := 6.

Record vmem := Vmem {
  bud : buddyAllocator;
  kPageTables : gmap Z Z;
  pageDir : gmap Z Z;
  kCr3 : Z }.

Definition with_bud (b : buddyAllocator) (s : vmem) := Vmem b (kPageTables s) (pageDir s) (kCr3 s).
Definition with_kpt (t : gmap Z Z) (s : vmem) := Vmem (bud s) t (pageDir s) (kCr3 s).
Definition with_pgd (t : gmap Z Z) (s : vmem) := Vmem (bud s) (kPageTables s) t (kCr3 s).
Definition with_cr3 (c : Z) (s : vmem) := Vmem (bud s) (kPageTables s) (pageDir s) c.

Definition on_bud {A} (m : M buddyAllocator A) : M vmem A := zoom bud with_bud m.
Definition rd_pte (i : Z) : M vmem Z := s ← get; deref (kPageTables s !! i).
Definition wr_pte (i v : Z) : M vmem unit :=
  _ ← rd_pte i; modify (λ s, with_kpt (<[i := v]> (kPageTables s)) s).

Definition getPageTableEntry (va : Z) : M vmem Z :=
  assertk (KERNEL_START <=? va);; mret (Z.shiftr (u32 (va - KERNEL_START)) 12).

(** [for (; pa < end; pa += PAGE_SIZE)] *)
Fixpoint page_init_loop (fuel : nat) (pa stop pte flags : Z) : M vmem unit :=
  match fuel with
  | O => fail Fuel
  | S f =>
      if pa <? stop then
        v ← rd_pte pte;
        assertk (Z.land v VM_PRES =? 0);;
        wr_pte pte (Z.lor (Z.lor pa VM_PRES) flags);;
        page_init_loop f (u32 (pa + PAGE_SIZE)) stop (pte + 1) flags
      else mret tt
  end.

(** Rounds that cover [size] bytes, and one to leave the loop. *)
Definition page_fuel (size : Z) : nat := S (S (Z.to_nat (size / PAGE_SIZE))).

Definition kvm_page_init (va size flags : Z) : M vmem unit :=
  assertk (Z.land va PAGE_MASK =? 0);;
  let pa := u32 (va - KERNEL_START) in
  let stop := u32 (pa + size) in
  pte ← getPageTableEntry va;
  page_init_loop (page_fuel size) pa stop pte flags.

Fixpoint maps4_loop (fuel : nat) (vpa stop pte flags : Z) : M vmem unit :=
  match fuel with
  | O => fail Fuel
  | S f =>
      if vpa <? stop then
        v ← rd_pte pte;
        assertk (Z.land v VM_PRES =? 0);;
        wr_pte pte (Z.lor (Z.lor (u32 (Z.shiftl vpa 12)) VM_PRES) flags);;
        maps4_loop f (u32 (vpa + 1)) stop (pte + 1) flags
      else mret tt
  end.

Definition kvm_maps4 (va pa size flags : Z) : M vmem unit :=
  assertk (Z.land va PAGE_MASK =? 0);;
  let vpa := Z.shiftr pa 12 in
  let stop := u32 (vpa + DIV_CEIL size PAGE_SIZE) in
  pte ← getPageTableEntry va;
  maps4_loop (page_fuel size) vpa stop pte flags.

Fixpoint maps_loop (fuel : nat) (va pa stop pte flags : Z) : M vmem unit :=
  match fuel with
  | O => fail Fuel
  | S f =>
      if va <? stop then
        v ← rd_pte pte;
        assertk (Z.land v VM_PRES =? 0);;
        wr_pte pte (Z.lor pa flags);;
        maps_loop f (u32 (va + PAGE_SIZE)) (u32 (pa + PAGE_SIZE)) stop (pte + 1) flags
      else mret tt
  end.

Definition kvm_maps (va pa size flags : Z) : M vmem unit :=
  assertk (Z.land va PAGE_MASK =? 0);;
  let stop := u32 (va + size) in
  pte ← getPageTableEntry va;
  maps_loop (page_fuel size) va pa stop pte flags.

Definition kvm_map (page flags : Z) : M vmem unit :=
  pa ← on_bud (page_addr page);
  let va := u32 (pa + KERNEL_START) in
  assertk (pa <? PHYS_TOP);;
  on_bud (upd_page page (put_data va));;
  p ← on_bud (read_page page);
  kvm_maps va pa (pg_size p) flags.

Definition v2p (va : Z) : M vmem Z :=
  pte ← getPageTableEntry va; v ← rd_pte pte; mret (PAGE_CEIL v).

Definition va_get_page (addr : Z) : M vmem (option Z) :=
  addr ← v2p addr;
  assertk (truth addr);;
  r ← on_bud (get_page addr);
  match r with
  | None => mret None
  | Some page => p ← on_bud (read_page page);
                 if negb (page_head p) then mret None else mret (Some page)
  end.

Definition kvm_vm2page (va : Z) : M vmem (option Z) :=
  pte ← getPageTableEntry va; v ← rd_pte pte; on_bud (get_page (PAGE_CEIL v)).

Definition p2v (pa : Z) : M vmem Z :=
  r ← on_bud (get_page pa);
  match r with
  | None => fail Assert
  | Some page => p ← on_bud (read_page page); mret (pg_data p)
  end.

Fixpoint unmap_loop (fuel : nat) (va stop pte : Z) : M vmem unit :=
  match fuel with
  | O => fail Fuel
  | S f => if va <? stop then wr_pte pte VM_NPRES;; unmap_loop f (u32 (va + PAGE_SIZE)) stop (pte + 1)
           else mret tt
  end.

Definition kvm_unmap3 (va size : Z) : M vmem unit :=
  assertk (KERNEL_START <? va);;
  assertk (Z.land size PAGE_MASK =? 0);;
  let stop := u32 (va + size) in
  pte ← getPageTableEntry va;
  unmap_loop (page_fuel size) va stop pte.

Definition kvm_unmap (page : Z) : M vmem unit :=
  p ← on_bud (read_page page); kvm_unmap3 (pg_data p) (pg_size p).

Definition kvm_unmap2 (addr : Z) : M vmem unit :=
  r ← kvm_vm2page addr;
  match r with None => fail Fault | Some page => kvm_unmap page end.

(** [kvm_copy]: the kernel's quarter of the directory goes into [pgdir]. *)
Definition kvm_copy (pgdir : gmap Z Z) : M vmem (gmap Z Z) :=
  s ← get;
  let step := N_PDE / 4 * 3 in
  mret (foldl (λ d i, match pageDir s !! (step + i) with
                      | Some e => if truth (Z.land e VM_PRES) then <[step + i := e]> d else d
                      | None => d end) pgdir (seqZ 0 (N_PDE / 4))).

(** [kvm_init] after [pmm_init_mm]: the linker symbols and the address of the
    tables are parameters, [mem_start] is [PAGE_FLOOR(block_start())]. *)
Definition kvm_init (startKernel dataStart endKernel tables_addr dir_addr mem_start : Z) : M vmem unit :=
  assertk (u32 (endKernel - KERNEL_START) <? mem_start);;
  for_up (Z.to_nat (N_PTE / 4)) 0 (λ i,
    modify (λ s, with_pgd (<[PDE_INDEX KERNEL_START + i :=
      Z.lor (Z.lor (u32 (tables_addr + 4096 * i - KERNEL_START)) VM_KRW) VM_PRES]> (pageDir s)) s));;
  modify (with_cr3 (Z.lor CR3_CTRL (u32 (dir_addr - KERNEL_START))));;
  kvm_page_init KERNEL_START (u32 (startKernel - KERNEL_START)) VM_KRW;;
  kvm_page_init startKernel (u32 (dataStart - startKernel)) VM_KR;;
  kvm_page_init dataStart (u32 (mem_start - u32 (dataStart - KERNEL_START))) VM_KRW;;
  kvm_maps4 DEV_SPACE DEV_SPACE DEVSP_SIZE (Z.lor VM_PRES VM_KRW).

(** ** Mapping a block *)

(** The entries of the [c] pages from physical address [pa] on. *)
Definition ptes_absent (t : gmap Z Z) (pa : Z) (c : Z) : Prop :=
  ∀ i, 0 ≤ i < c → ∃ v, t !! (pa / 4096 + i) = Some v ∧ Z.land v VM_PRES = 0.

(** [t'] maps these pages to themselves with [flags], and is [t] elsewhere. *)
Definition ptes_mapped (t t' : gmap Z Z) (pa c flags : Z) : Prop :=
  (∀ i, 0 ≤ i < c → t' !! (pa / 4096 + i) = Some (Z.lor (pa + 4096 * i) flags)) ∧
  (∀ j, ¬ (pa / 4096 ≤ j < pa / 4096 + c) → t' !! j = t !! j).

Lemma wp_rd_pte i v (Q : Z → vmem → Prop) s : kPageTables s !! i = Some v → Q v s → wp (rd_pte i) Q s.
Proof. intros. unfold rd_pte. by wp_go. Qed.

Lemma wp_wr_pte i v (Q : unit → vmem → Prop) s :
  is_Some (kPageTables s !! i) → Q tt (with_kpt (<[i := v]> (kPageTables s)) s) → wp (wr_pte i v) Q s.
Proof. intros [x Hx] HQ. unfold wr_pte. wp_step. by eapply wp_rd_pte. Qed.

Lemma wp_on_bud {A} (m : M buddyAllocator A) (R : A → buddyAllocator → Prop) Q s :
  wp m R (bud s) → (∀ a b, R a b → Q a (with_bud b s)) → wp (on_bud m) Q s.
Proof. intros Hm HQ. unfold on_bud. wp_step. eapply wp_mono; [exact Hm|]. eauto. Qed.

Lemma ptes_mapped_step t t' pa c v flags :
  (4096 | pa) → 0 ≤ c → t !! (pa / 4096) = Some v →
  ptes_mapped (<[pa / 4096 := Z.lor pa flags]> t) t' (pa + 4096) c flags →
  ptes_mapped t t' pa (c + 1) flags.
Proof.
  intros [q ->] Hc Hv [H1 H2]. replace (q * 4096 + 4096) with ((q + 1) * 4096) in * by lia.
  rewrite !Z.div_mul in * by lia. split; rewrite ?Z.div_mul by lia.
  - intros i Hi. destruct (decide (i = 0)) as [->|].
    + rewrite H2 by lia. rewrite Z.add_0_r, lookup_insert_eq. do 2 f_equal. lia.
    + specialize (H1 (i - 1) ltac:(lia)). replace (q + 1 + (i - 1)) with (q + i) in H1 by lia.
      rewrite H1. do 2 f_equal. lia.
  - intros j Hj. rewrite H2 by lia. rewrite lookup_insert_ne by lia. done.
Qed.

Lemma maps_loop_spec fuel c pa flags s :
  (4096 | pa) → 0 ≤ c → 0 ≤ pa → pa + 4096 * c ≤ PHYS_TOP →
  ptes_absent (kPageTables s) pa c → (Z.to_nat c < fuel)%nat →
  wp (maps_loop fuel (pa + KERNEL_START) pa (pa + 4096 * c + KERNEL_START) (pa / 4096) flags)
     (λ _ s', ptes_mapped (kPageTables s) (kPageTables s') pa c flags ∧
              s' = with_kpt (kPageTables s') s) s.
Proof.
  revert c pa s. induction fuel as [|f IH]; intros c pa s Hd Hc Hpa Htop Habs Hf; [lia|].
  simpl. unfold PHYS_TOP, DEVSP_SIZE, KERNEL_START in *.
  destruct (Z.ltb_spec (pa + 0xc0000000) (pa + 4096 * c + 0xc0000000)) as [Hlt|Hge].
  - destruct (Habs 0 ltac:(lia)) as (v & Hv & Hnp). rewrite Z.add_0_r in Hv.
    wp_step. eapply wp_rd_pte; [exact Hv|]. wp_step. wp_step; [by apply Z.eqb_eq|].
    wp_step. eapply wp_wr_pte; [eauto|]. unfold PAGE_SIZE.
    rewrite (u32_small (pa + 4096)), (u32_small (pa + 3221225472 + 4096)) by lia.
    replace (pa + 3221225472 + 4096) with (pa + 4096 + 3221225472) by lia.
    replace (pa + 4096 * c + 3221225472) with (pa + 4096 + 4096 * (c - 1) + 3221225472) by lia.
    assert (pa / 4096 + 1 = (pa + 4096) / 4096) as Ei
      by (destruct Hd as [q ->]; replace (q * 4096 + 4096) with ((q + 1) * 4096) by lia; rewrite !Z.div_mul; lia).
    rewrite Ei. eapply wp_mono; [apply IH; try lia|].
    + by apply Z.divide_add_r; [|exists 1].
    + intros i Hi. destruct (Habs (i + 1) ltac:(lia)) as (w & Hw & Hwn). exists w. split; [|done].
      simpl. rewrite lookup_insert_ne by lia. rewrite <-Hw. f_equal. lia.
    + intros [] s' [Hm ->]. simpl in *. split; [|by destruct s].
      replace c with (c - 1 + 1) by lia. by eapply ptes_mapped_step; try lia.
  - wp_go. assert (c = 0) as -> by lia. split; [|by destruct s]. split; [lia|done].
Qed.

Lemma unmap_loop_spec fuel c pa s :
  (4096 | pa) → 0 ≤ c → 0 ≤ pa → pa + 4096 * c ≤ PHYS_TOP →
  (∀ i, 0 ≤ i < c → is_Some (kPageTables s !! (pa / 4096 + i))) → (Z.to_nat c < fuel)%nat →
  wp (unmap_loop fuel (pa + KERNEL_START) (pa + 4096 * c + KERNEL_START) (pa / 4096))
     (λ _ s', (∀ i, 0 ≤ i < c → kPageTables s' !! (pa / 4096 + i) = Some VM_NPRES) ∧
              (∀ j, ¬ (pa / 4096 ≤ j < pa / 4096 + c) → kPageTables s' !! j = kPageTables s !! j) ∧
              s' = with_kpt (kPageTables s') s) s.
Proof.
  revert c pa s. induction fuel as [|f IH]; intros c pa s Hd Hc Hpa Htop Hpt Hf; [lia|].
  simpl. unfold PHYS_TOP, DEVSP_SIZE, KERNEL_START in *.
  destruct (Z.ltb_spec (pa + 0xc0000000) (pa + 4096 * c + 0xc0000000)) as [Hlt|Hge].
  - pose proof (Hpt 0 ltac:(lia)) as H0. rewrite Z.add_0_r in H0.
    wp_step. eapply wp_wr_pte; [done|]. unfold PAGE_SIZE.
    rewrite (u32_small (pa + 3221225472 + 4096)) by lia.
    replace (pa + 3221225472 + 4096) with (pa + 4096 + 3221225472) by lia.
    replace (pa + 4096 * c + 3221225472) with (pa + 4096 + 4096 * (c - 1) + 3221225472) by lia.
    assert (pa / 4096 + 1 = (pa + 4096) / 4096) as Ei
      by (destruct Hd as [q ->]; replace (q * 4096 + 4096) with ((q + 1) * 4096) by lia; rewrite !Z.div_mul; lia).
    rewrite Ei. eapply wp_mono; [apply IH; try lia|].
    + by apply Z.divide_add_r; [|exists 1].
    + intros i Hi. simpl. rewrite lookup_insert_ne by lia. rewrite <-Ei, <-Z.add_assoc. apply Hpt. lia.
    + intros [] s' (H1 & H2 & ->). simpl in *. split_and!; [| |by destruct s].
      * intros i Hi. destruct (decide (i = 0)) as [->|].
        { rewrite Z.add_0_r, H2 by lia. apply lookup_insert_eq. }
        specialize (H1 (i - 1) ltac:(lia)). rewrite <-H1. f_equal. lia.
      * intros j Hj. rewrite H2 by lia. by rewrite lookup_insert_ne by lia.
  - wp_go. assert (c = 0) as -> by lia. split; [lia|]. split; [done|by destruct s].
Qed.

(** Writing the [data] field of a page does not matter to the allocator. *)
Lemma buddy_inv_data b B x p v :
  buddy_inv b B → pages b !! x = Some p →
  buddy_inv (with_pages (<[x := put_data v p]> (pages b)) b) B.
Proof.
  intros (Hl & Hn & HT & HC & HR & HL) Hp. split_and!; try done. simpl.
  intros i Hi. destruct (HR i Hi) as (q & Hq & Hok). destruct (decide (i = x)) as [->|].
  - simplify_eq. rewrite lookup_insert_eq. eexists. split; [done|].
    destruct Hok as [Hm Hb]. split; [done|]. by destruct (B !! x) as [[o r]|].
  - rewrite lookup_insert_ne by done. eauto.
Qed.

Lemma getPageTableEntry_ok pa s :
  0 ≤ pa < PHYS_TOP → getPageTableEntry (pa + KERNEL_START) s = Ok (pa / 4096, s).
Proof.
  intros Hpa. unfold getPageTableEntry, assertk, PHYS_TOP, DEVSP_SIZE, KERNEL_START in *.
  rewrite (proj2 (Z.leb_le _ _)) by lia. erewrite bind_Ok by reflexivity.
  rewrite Z.add_simpl_r, u32_small, Z.shiftr_div_pow2 by lia. done.
Qed.

Lemma aligned_kernel pa : (4096 | pa) → Z.land (pa + KERNEL_START) PAGE_MASK = 0.
Proof. intros Hd. apply aligned_mask, Z.divide_add_r; [done|]. by exists 0xc0000. Qed.

(** A block of the allocator whose pages are below [PHYS_TOP]. *)
Definition kernel_block (s : vmem) (B : blocks) (x o r : Z) : Prop :=
  buddy_inv (bud s) B ∧ area_ok (bud s) ∧ B !! x = Some (o, r) ∧
  a_addr (bud s) + 4096 * (x + 2 ^ o) ≤ PHYS_TOP.

Definition block_pa (s : vmem) (x : Z) : Z := a_addr (bud s) + 4096 * x.

Lemma kernel_block_pa s B x o r :
  kernel_block s B x o r →
  0 ≤ x ∧ x + 2 ^ o ≤ pageCnt (bud s) ∧ 1 ≤ 2 ^ o ≤ 1024 ∧ (4096 | block_pa s x) ∧ 0 ≤ block_pa s x ∧
  ∃ p, pages (bud s) !! x = Some p ∧ page_ok (Some (o, r)) p.
Proof.
  intros ((_ & _ & HT & _ & HR & _) & (Ha & Hd & _) & Hx & Htop).
  destruct (tiled_block _ _ HT _ _ _ Hx) as (Ho & _ & Hx0 & Hxn). pose proof (pow2_le10 o Ho).
  destruct (HR x ltac:(lia)) as (p & Hp & Hok). rewrite Hx in Hok. unfold block_pa.
  split_and!; try lia; [|eauto]. apply Z.divide_add_r; [done|]. by exists x; lia.
Qed.

Lemma kvm_map_spec s B x o r flags :
  kernel_block s B x o r → ptes_absent (kPageTables s) (block_pa s x) (2 ^ o) →
  wp (kvm_map x flags)
     (λ _ s', ptes_mapped (kPageTables s) (kPageTables s') (block_pa s x) (2 ^ o) flags ∧
        kernel_block s' B x o r ∧
        (∃ p, pages (bud s) !! x = Some p ∧
           bud s' = with_pages (<[x := put_data (block_pa s x + KERNEL_START) p]> (pages (bud s))) (bud s)) ∧
        pageDir s' = pageDir s ∧ kCr3 s' = kCr3 s) s.
Proof.
  intros Hk Habs. destruct (kernel_block_pa _ _ _ _ _ Hk) as (Hx0 & Hxn & Ho & Hd & Hpa & p & Hp & Hok).
  pose proof Hk as (Hi & Ha & Hx & Htop). unfold kvm_map. wp_step. eapply wp_on_bud.
  { eapply wp_intro; [apply page_addr_ok; [done|lia]|].
    instantiate (1 := λ a b, a = block_pa s x ∧ b = bud s). done. }
  intros ? ? [-> ->]. replace (with_bud (bud s) s) with s by (by destruct s).
  set (pa := block_pa s x) in *. assert (pa + 4096 * 2 ^ o ≤ PHYS_TOP) as Htop' by (unfold pa, block_pa; lia).
  rewrite u32_small by (unfold PHYS_TOP, DEVSP_SIZE, KERNEL_START in *; lia).
  wp_step. wp_step; [apply Z.ltb_lt; lia|]. wp_step. eapply wp_on_bud.
  { eapply wp_upd_page; [exact Hp|]. instantiate (1 := λ _ b,
      b = with_pages (<[x := put_data (pa + KERNEL_START) p]> (pages (bud s))) (bud s)). done. }
  intros [] ? ->. wp_step. eapply wp_on_bud.
  { eapply wp_read_page; [apply lookup_insert_eq|]. instantiate (1 := λ q b, q = put_data (pa + KERNEL_START) p ∧
      b = with_pages (<[x := put_data (pa + KERNEL_START) p]> (pages (bud s))) (bud s)). done. }
  intros ? ? [-> ->]. simpl. unfold kvm_maps. wp_step. wp_step; [by rewrite aligned_kernel|].
  wp_step. eapply wp_intro; [apply getPageTableEntry_ok; lia|]. destruct Hok as (? & ? & Hsz & Hrest).
  rewrite Hsz. rewrite u32_small by (unfold PHYS_TOP, DEVSP_SIZE, KERNEL_START in *; lia).
  replace (pa + KERNEL_START + 4096 * 2 ^ o) with (pa + 4096 * 2 ^ o + KERNEL_START) by lia.
  eapply wp_mono; [apply maps_loop_spec; try done; try lia|].
  { unfold page_fuel, PAGE_SIZE. rewrite Z.mul_comm, Z.div_mul by lia. lia. }
  simpl. intros [] s' [Hm ->]. simpl. split; [done|]. split; [|split; [|done]].
  - split; [by apply buddy_inv_data|]. split; [done|]. split; [done|]. done.
  - exists p. done.
Qed.

Lemma PAGE_CEIL_flags pa flags :
  0 ≤ pa < 2 ^ 32 → (4096 | pa) → 0 ≤ flags < 4096 → PAGE_CEIL (Z.lor pa flags) = pa.
Proof.
  intros Hpa [q ->] Hf. change 4096 with (2 ^ 12) at 1. rewrite lor_low by lia.
  change (2 ^ 12) with 4096. rewrite PAGE_CEIL_eq by lia. Z.div_mod_to_equations. lia.
Qed.

Lemma v2p_ok va pa flags s :
  kPageTables s !! ((va - KERNEL_START) / 4096) = Some (Z.lor pa flags) →
  KERNEL_START ≤ va < 2 ^ 32 → 0 ≤ pa < 2 ^ 32 → (4096 | pa) → 0 ≤ flags < 4096 →
  v2p va s = Ok (pa, s).
Proof.
  intros Ht Hva Hpa Hd Hf. unfold v2p, getPageTableEntry, assertk.
  rewrite (proj2 (Z.leb_le _ _)) by lia. erewrite bind_Ok by (erewrite bind_Ok by reflexivity; reflexivity).
  rewrite u32_small, Z.shiftr_div_pow2 by (unfold KERNEL_START in *; lia). change (2 ^ 12) with 4096.
  unfold rd_pte. erewrite bind_Ok by (erewrite bind_Ok by reflexivity; unfold deref; rewrite Ht; reflexivity).
  by rewrite PAGE_CEIL_flags.
Qed.

(** mapping a block of the allocator.  When the entries of its pages are not
    present, [kvm_map] succeeds; afterwards every virtual address of the block at
    [KERNEL_START] plus its physical address translates ([v2p]) to the page it
    belongs to, the first address finds the block's descriptor again
    ([va_get_page]), and the entries of all other pages are unchanged. *)
Theorem kvm_map_translates s B x o r flags :
  kernel_block s B x o r → ptes_absent (kPageTables s) (block_pa s x) (2 ^ o) →
  0 ≤ flags < 4096 → 0 < block_pa s x →
  ∃ s', kvm_map x flags s = Ok (tt, s') ∧ kernel_block s' B x o r ∧
    (∀ i ofs, 0 ≤ i < 2 ^ o → 0 ≤ ofs < 4096 →
       v2p (KERNEL_START + block_pa s x + 4096 * i + ofs) s' = Ok (block_pa s x + 4096 * i, s')) ∧
    va_get_page (KERNEL_START + block_pa s x) s' = Ok (Some x, s') ∧
    (∀ j, ¬ (block_pa s x / 4096 ≤ j < block_pa s x / 4096 + 2 ^ o) →
       kPageTables s' !! j = kPageTables s !! j).
Proof.
  intros Hk Habs Hf Hpos. destruct (kernel_block_pa _ _ _ _ _ Hk) as (Hx0 & Hxn & Ho & Hd & Hpa & _).
  destruct (wp_elim _ _ _ (kvm_map_spec s B x o r flags Hk Habs)) as ([] & s' & E & [Hm1 Hm2] & Hk' & (p & Hp & Eb) & _).
  assert (block_pa s' x = block_pa s x) as Epa by (unfold block_pa; by rewrite Eb).
  set (pa := block_pa s x) in *. pose proof Hk as (_ & _ & _ & Htop).
  assert (pa + 4096 * 2 ^ o ≤ PHYS_TOP) as Htop' by (unfold pa, block_pa; lia).
  unfold PHYS_TOP, DEVSP_SIZE in Htop'.
  assert (∀ i ofs, 0 ≤ i < 2 ^ o → 0 ≤ ofs < 4096 →
    v2p (KERNEL_START + pa + 4096 * i + ofs) s' = Ok (pa + 4096 * i, s')) as Hv.
  { intros i ofs Hi Hofs. apply (v2p_ok _ _ flags); try done; unfold KERNEL_START in *; try lia.
    - rewrite <-Hm1 by done. f_equal. destruct Hd as [q ->]. rewrite Z.div_mul by lia.
      symmetry. apply Z.div_unique with ofs; lia.
    - apply Z.divide_add_r; [done|]. by exists i; lia. }
  exists s'. split_and!; try done. unfold va_get_page.
  specialize (Hv 0 0 ltac:(lia) ltac:(lia)). rewrite !Z.add_0_r in Hv. rewrite (bind_Ok _ _ _ _ _ Hv).
  unfold assertk. rewrite (proj2 (truth_true pa)) by lia. erewrite bind_Ok by reflexivity.
  destruct Hk' as (Hi' & Ha' & Hx' & _). assert (pageCnt (bud s') = pageCnt (bud s)) as En by (by rewrite Eb).
  pose proof (get_page_ok (bud s') B x Hi' Ha' ltac:(lia)) as Eg. fold (block_pa s' x) in Eg. rewrite Epa in Eg.
  assert (on_bud (get_page pa) s' = Ok (Some x, s')) as Eg' by (unfold on_bud, zoom; rewrite Eg; by destruct s').
  rewrite (bind_Ok _ _ _ _ _ Eg'). destruct Hi' as (_ & _ & _ & _ & HR & _).
  destruct (HR x ltac:(lia)) as (q & Hq & Hok). rewrite Hx' in Hok. destruct Hok as (_ & Hh & _).
  assert (on_bud (read_page x) s' = Ok (q, s')) as Er.
  { unfold on_bud, zoom, read_page, mbind, M_bind, get, deref. rewrite Hq. by destruct s'. }
  rewrite (bind_Ok _ _ _ _ _ Er), Hh. done.
Qed.

Lemma kvm_unmap_spec s B x o r :
  kernel_block s B x o r → 0 < block_pa s x →
  (∃ p, pages (bud s) !! x = Some p ∧ pg_data p = block_pa s x + KERNEL_START) →
  (∀ i, 0 ≤ i < 2 ^ o → is_Some (kPageTables s !! (block_pa s x / 4096 + i))) →
  wp (kvm_unmap x)
     (λ _ s', (∀ i, 0 ≤ i < 2 ^ o → kPageTables s' !! (block_pa s x / 4096 + i) = Some VM_NPRES) ∧
        (∀ j, ¬ (block_pa s x / 4096 ≤ j < block_pa s x / 4096 + 2 ^ o) →
           kPageTables s' !! j = kPageTables s !! j) ∧ s' = with_kpt (kPageTables s') s) s.
Proof.
  intros Hk Hpos (p & Hp & Hdata) Hpt.
  destruct (kernel_block_pa _ _ _ _ _ Hk) as (Hx0 & Hxn & Ho & Hd & Hpa & p' & Hp' & Hok). simplify_eq.
  pose proof Hk as (_ & _ & _ & Htop). set (pa := block_pa s x) in *.
  assert (pa + 4096 * 2 ^ o ≤ PHYS_TOP) as Htop' by (unfold pa, block_pa; lia).
  unfold kvm_unmap. wp_step. eapply wp_on_bud.
  { eapply wp_read_page; [exact Hp|]. instantiate (1 := λ q b, q = p ∧ b = bud s). done. }
  intros ? ? [-> ->]. replace (with_bud (bud s) s) with s by (by destruct s).
  destruct Hok as (_ & _ & Hsz & _). rewrite Hdata, Hsz. unfold kvm_unmap3.
  wp_step. wp_step; [apply Z.ltb_lt; lia|]. wp_step.
  wp_step; [apply Z.eqb_eq, aligned_mask; by exists (2 ^ o); lia|].
  wp_step. eapply wp_intro; [apply getPageTableEntry_ok; lia|].
  rewrite u32_small by (unfold PHYS_TOP, DEVSP_SIZE, KERNEL_START in *; lia).
  replace (pa + KERNEL_START + 4096 * 2 ^ o) with (pa + 4096 * 2 ^ o + KERNEL_START) by lia.
  apply unmap_loop_spec; try done; try lia.
  unfold page_fuel, PAGE_SIZE. rewrite Z.mul_comm, Z.div_mul by lia. lia.
Qed.

(** [kvm_unmap] undoes [kvm_map]: the entries of the block are not present
    again, and no other entry differs from the state before the mapping. *)
Theorem kvm_unmap_undoes_map s B x o r flags s1 :
  kernel_block s B x o r → ptes_absent (kPageTables s) (block_pa s x) (2 ^ o) →
  0 < block_pa s x → kvm_map x flags s = Ok (tt, s1) →
  ∃ s2, kvm_unmap x s1 = Ok (tt, s2) ∧ bud s2 = bud s1 ∧
    ptes_absent (kPageTables s2) (block_pa s x) (2 ^ o) ∧
    (∀ j, ¬ (block_pa s x / 4096 ≤ j < block_pa s x / 4096 + 2 ^ o) →
       kPageTables s2 !! j = kPageTables s !! j).
Proof.
  intros Hk Habs Hpos E.
  destruct (wp_elim _ _ _ (kvm_map_spec s B x o r flags Hk Habs)) as ([] & s' & E' & [Hm1 Hm2] & Hk' & (p & Hp & Eb) & _).
  rewrite E in E'. injection E' as <-.
  assert (block_pa s1 x = block_pa s x) as Epa by (unfold block_pa; by rewrite Eb).
  destruct (wp_elim _ _ _ (kvm_unmap_spec s1 B x o r Hk' ltac:(lia)
    ltac:(rewrite Eb, Epa; eexists; split; [apply lookup_insert_eq|done])
    ltac:(rewrite Epa; intros; rewrite Hm1 by done; eauto))) as ([] & s2 & E2 & H1 & H2 & Es2).
  rewrite Epa in *. exists s2. split; [exact E2|]. split; [by rewrite Es2|]. split.
  - intros i Hi. exists VM_NPRES. by rewrite H1.
  - intros j Hj. by rewrite H2, Hm2.
Qed.

(** ** Witnesses: the four pages of the allocator's demo at 1 MiB *)

Definition demo_vm : vmem :=
  Vmem demo (list_to_map ((λ i, (i, 0)) <$> seqZ 0 300)) ∅ 0.

Lemma demo_vm_block : ∃ B, kernel_block (with_bud demo1 demo_vm) B 0 0 1.
Proof.
  destruct demo1_inv as (B & Hi & Hx). exists B. split; [done|]. split; [|split; [done|]].
  - split; [by vm_compute|]. split; [by exists 256|by vm_compute].
  - by vm_compute.
Qed.

Lemma demo_vm_absent : ptes_absent (kPageTables (with_bud demo1 demo_vm)) (block_pa (with_bud demo1 demo_vm) 0) (2 ^ 0).
Proof. intros i Hi. assert (i = 0) as -> by lia. exists 0. by vm_compute. Qed.

Lemma kvm_map_translates_witness :
  ∃ s', kvm_map 0 3 (with_bud demo1 demo_vm) = Ok (tt, s') ∧
    va_get_page 0xc0100000 s' = Ok (Some 0, s').
Proof.
  destruct demo_vm_block as (B & Hk).
  destruct (kvm_map_translates (with_bud demo1 demo_vm) B 0 0 1 3 Hk demo_vm_absent ltac:(lia) ltac:(by vm_compute))
    as (s' & E & _ & _ & Hg & _). exists s'. split; [exact E|exact Hg].
Defined.

Lemma kvm_unmap_undoes_map_witness :
  ∃ s1 s2, kvm_map 0 3 (with_bud demo1 demo_vm) = Ok (tt, s1) ∧ kvm_unmap 0 s1 = Ok (tt, s2).
Proof.
  destruct demo_vm_block as (B & Hk).
  destruct (wp_elim _ _ _ (kvm_map_spec _ B 0 0 1 3 Hk demo_vm_absent)) as ([] & s1 & E & _).
  destruct (kvm_unmap_undoes_map (with_bud demo1 demo_vm) B 0 0 1 3 s1 Hk demo_vm_absent ltac:(by vm_compute) E)
    as (s2 & E2 & _). exists s1, s2. split; [exact E|exact E2].
Defined.
