(* ===== verification/Slab.v ===== *)
(** * The slab allocator and kmalloc (mm/slab.c, mm/kmalloc.c)

    Small objects are chunks of a page; the free chunks of a page are linked
    through their first word, and the page descriptors of one chunk size are
    linked into a list.  The state adds to the page tables' state the words
    stored in chunks ([words], by virtual address), the lock and the caches. *)

From S2P Require Import Prelude QLib DList Locks Page PageAlloc BuddySpec PageAllocCorrect PageAllocInit PageAllocProps Vm.
From Stdlib Require Import ZArith Lia.
From stdpp Require Import base countable numbers gmap list.
Open Scope Z_scope.

Definition SLAB_MAGIC : Z := 0xac616749.
Definition LIST_SIZE : Z := 10.
Definition SLAB_MAX : Z := Z.shiftl 2 LIST_SIZE.
Definition SLAB_MIN : Z := 4.
Definition SLAB_SIZE (idx : Z) : Z := Z.shiftl SLAB_MIN idx.

(** [struct slabCache]: its three list nodes are [CacheHead c], [CacheList c] and
    [CacheFull c]. *)
Record slabCache := SlabCache { sc_size : Z; sc_lock : spinlock_t }.

Record slabs := Slabs {
  vmm : vmem;
  words : gmap Z Z;
  slab_lock : spinlock_t;
  caches : gmap Z slabCache }.

Definition with_vmm (v : vmem) (s : slabs) := Slabs v (words s) (slab_lock s) (caches s).
Definition with_words (w : gmap Z Z) (s : slabs) := Slabs (vmm s) w (slab_lock s) (caches s).
Definition with_slab_lock (l : spinlock_t) (s : slabs) := Slabs (vmm s) (words s) l (caches s).
Definition with_caches (c : gmap Z slabCache) (s : slabs) := Slabs (vmm s) (words s) (slab_lock s) c.

Definition on_vm {A} (m : M vmem A) : M slabs A := zoom vmm with_vmm m.
Definition on_pg {A} (m : M buddyAllocator A) : M slabs A := on_vm (on_bud m).
Definition on_ls {A} (m : M (gmap bnode (list_head bnode)) A) : M slabs A := on_pg (on_list m).

(** [chunk->next] *)
Definition rd_word (a : Z) : M slabs Z := s ← get; deref (words s !! a).
Definition wr_word (a v : Z) : M slabs unit :=
  modify (λ s, with_words (<[a := v]> (words s)) s).

(** [PAGE_ENTRY] of a list node. *)
Definition PAGE_ENTRY (n : bnode) : M slabs Z :=
  match n with Pg i => mret i | _ => fail Fault end.

Definition upd_info (page : Z) (f : slabInfo → slabInfo) : M slabs unit :=
  on_pg (upd_page page (λ p, put_slab (f (pg_slab p)) p)).
Definition set_chunk (v : Z) (i : slabInfo) := SlabInfo v (chunk_size i) (n_allocated i) (slab_magic i).
Definition set_chunk_size (v : Z) (i : slabInfo) := SlabInfo (chunk i) v (n_allocated i) (slab_magic i).
Definition set_n_allocated (v : Z) (i : slabInfo) := SlabInfo (chunk i) (chunk_size i) v (slab_magic i).
Definition set_magic (v : Z) (i : slabInfo) := SlabInfo (chunk i) (chunk_size i) (n_allocated i) v.

Definition lock_slab : M slabs unit :=
  s ← get; l ← lift_res (spinlock_lock (slab_lock s)); modify (with_slab_lock l).
Definition unlock_slab : M slabs unit :=
  modify (λ s, with_slab_lock (spinlock_unlock (slab_lock s)) s).
Definition rd_cache (c : Z) : M slabs slabCache := s ← get; deref (caches s !! c).
Definition lock_cache (c : Z) : M slabs unit :=
  k ← rd_cache c; l ← lift_res (spinlock_lock (sc_lock k));
  modify (λ s, with_caches (<[c := SlabCache (sc_size k) l]> (caches s)) s).
Definition unlock_cache (c : Z) : M slabs unit :=
  k ← rd_cache c;
  modify (λ s, with_caches (<[c := SlabCache (sc_size k) (spinlock_unlock (sc_lock k))]> (caches s)) s).

(** [SLAB_INDEX(size)] *)
Definition SLAB_INDEX {S} (size : Z) : M S Z := k ← log2_ size; mret (u16 (k - 2)).

(** ** slab.c *)

Definition slab_init : M slabs unit :=
  for_up (Z.to_nat LIST_SIZE) 0 (λ i, on_ls (list_header_init (SlabHd i)));;
  on_ls (list_header_init SlabCaches);;
  on_ls (list_header_init SlabFull);;
  modify (with_slab_lock spinlock_init).

Definition cache_alloc_create (cache size : Z) : M slabs unit :=
  on_ls (list_header_init (CacheHead cache));;
  on_ls (list_header_init (CacheList cache));;
  on_ls (list_header_init (CacheFull cache));;
  modify (λ s, with_caches (<[cache := SlabCache size spinlock_init]> (caches s)) s);;
  on_ls (list_add_next (CacheHead cache) SlabCaches).

(** [for (int i = 0; i < cnt_unused - 1; ++i)]: links [n] chunks, answers the last. *)
Fixpoint link_chunks (n : nat) (chunkSize chunk : Z) : M slabs Z :=
  match n with
  | O => mret chunk
  | S n' => wr_word chunk (u32 (chunk + chunkSize));;
            c ← rd_word chunk; link_chunks n' chunkSize c
  end.

Definition add_slab (slab : bnode) (chunkSize : Z) : M slabs unit :=
  page ← on_pg (__alloc_page PAGE_SIZE);
  on_pg (upd_page page (λ p, put_flag (Z.lor (pg_flag p) PG_SLAB) p));;
  on_vm (kvm_map page (Z.lor VM_PRES VM_KRW));;
  if chunkSize =? 0 then fail Fault
  else
    let cnt_unused := u16 (PAGE_SIZE / chunkSize) in
    upd_info page (set_chunk_size chunkSize);;
    upd_info page (set_n_allocated 0);;
    p ← on_pg (read_page page);
    upd_info page (set_chunk (pg_data p));;
    upd_info page (set_magic SLAB_MAGIC);;
    chunk ← link_chunks (Z.to_nat (cnt_unused - 1)) chunkSize (pg_data p);
    wr_word chunk 0;;
    on_ls (list_add_next (Pg page) slab).

Definition __slab_alloc (head full : bnode) (size : Z) : M slabs Z :=
  e ← on_ls (list_empty head);
  when e (add_slab head size);;
  n ← on_ls (get_next head);
  page ← PAGE_ENTRY n;
  p ← on_pg (read_page page);
  l ← lift_res (wlock_lock (pg_rwlock p));
  on_pg (upd_page page (put_rwlock l));;
  e ← on_ls (list_empty head);
  assertk (negb e && truth (chunk (pg_slab p)));;
  upd_info page (λ i, set_n_allocated (u16 (n_allocated i + 1)) i);;
  let chunk := chunk (pg_slab p) in
  next ← rd_word chunk;
  upd_info page (set_chunk next);;
  when (negb (truth next))
    (on_ls (list_del (Pg page));; on_ls (list_add_next (Pg page) full));;
  on_pg (upd_page page (λ p, put_rwlock (wlock_unlock (pg_rwlock p)) p));;
  mret chunk.

Definition __slab_free (addr : Z) (head : bnode) : M slabs unit :=
  r ← on_vm (va_get_page (PAGE_CEIL addr));
  match r with
  | None => fail Assert
  | Some page =>
      p ← on_pg (read_page page);
      assertk (is_slab p);;
      let info := pg_slab p in
      assertk (slab_magic info =? SLAB_MAGIC);;
      assertk (0 <? n_allocated info);;
      when (chunk info =? 0) (on_ls (list_del (Pg page));; on_ls (list_add_next (Pg page) head));;
      upd_info page (λ i, set_n_allocated (u16 (n_allocated i - 1)) i);;
      wr_word addr (chunk info);;
      upd_info page (set_chunk addr)
  end.

Definition cache_alloc (cache : Z) : M slabs Z :=
  lock_cache cache;;
  k ← rd_cache cache;
  ret ← __slab_alloc (CacheList cache) (CacheFull cache) (u16 (sc_size k));
  unlock_cache cache;;
  mret ret.

Definition cache_free (cache addr : Z) : M slabs unit :=
  lock_cache cache;;
  __slab_free addr (CacheList cache);;
  unlock_cache cache.

Definition slab_alloc (size : Z) : M slabs Z :=
  assertk (negb (size =? 0) && (size <=? SLAB_MAX));;
  let size := if size <? SLAB_MIN then SLAB_MIN else size in
  let size := u16 (fixSize size) in
  idx ← SLAB_INDEX size;
  lock_slab;;
  ret ← __slab_alloc (SlabHd idx) SlabFull size;
  unlock_slab;;
  mret ret.

Definition slab_free (addr : Z) : M slabs unit :=
  r ← on_vm (va_get_page (PAGE_CEIL addr));
  match r with
  | None => fail Assert
  | Some page =>
      p ← on_pg (read_page page);
      assertk (is_slab p);;
      idx ← SLAB_INDEX (chunk_size (pg_slab p));
      lock_slab;;
      __slab_free addr (SlabHd idx);;
      unlock_slab
  end.

Definition slab_chunk_size (addr : Z) : M slabs Z :=
  r ← on_vm (va_get_page (PAGE_CEIL addr));
  match r with
  | None => fail Assert
  | Some page =>
      p ← on_pg (read_page page);
      assertk (is_slab p);;
      assertk (chunk_size (pg_slab p) <=? SLAB_MAX);;
      mret (chunk_size (pg_slab p))
  end.

(** [list_for_each] with the body of [recycle]: [hdr->next] is read after the body. *)
Fixpoint recycle_loop (fuel : nat) (hdr head : bnode) : M slabs unit :=
  match fuel with
  | O => fail Fuel
  | S f =>
      if decide (hdr = head) then mret tt
      else
        page ← PAGE_ENTRY hdr;
        p ← on_pg (read_page page);
        l ← lift_res (wlock_lock (pg_rwlock p));
        on_pg (upd_page page (put_rwlock l));;
        when (n_allocated (pg_slab p) =? 0)
          (on_ls (list_del (Pg page));;
           on_pg (__free_page page);;
           on_vm (kvm_unmap page));;
        on_pg (upd_page page (λ p, put_rwlock (wlock_unlock (pg_rwlock p)) p));;
        n ← on_ls (get_next hdr);
        recycle_loop f n head
  end.

Definition recycle (fuel : nat) (head : bnode) : M slabs unit :=
  n ← on_ls (get_next head); recycle_loop fuel n head.

(** The loop over the caches: [recycle] gets the node in the list of caches. *)
Fixpoint recycle_caches (fuel : nat) (hdr : bnode) : M slabs unit :=
  match fuel with
  | O => fail Fuel
  | S f =>
      if decide (hdr = SlabCaches) then mret tt
      else match hdr with
           | CacheHead c =>
               lock_cache c;; recycle f hdr;; unlock_cache c;;
               n ← on_ls (get_next hdr); recycle_caches f n
           | _ => fail Fault
           end
  end.

Definition slab_recycle (fuel : nat) : M slabs unit :=
  lock_slab;;
  for_up (Z.to_nat LIST_SIZE) 0 (λ i, recycle fuel (SlabHd i));;
  unlock_slab;;
  n ← on_ls (get_next SlabCaches); recycle_caches fuel n.

(** ** kmalloc.c *)

Definition kmalloc (size : Z) : M slabs Z :=
  let size := fixSize size in
  if size <=? SLAB_MAX then slab_alloc (u16 size)
  else
    page ← on_pg (__alloc_page size);
    on_vm (kvm_map page (Z.lor VM_PRES VM_KRW));;
    p ← on_pg (read_page page);
    mret (pg_data p).

Definition kfree (addr : Z) : M slabs unit :=
  r ← on_vm (va_get_page (PAGE_CEIL addr));
  match r with
  | None => fail Assert
  | Some page =>
      p ← on_pg (read_page page);
      if is_slab p then slab_free addr
      else on_vm (kvm_unmap page);; on_pg (__free_page page)
  end.
