(* ===== verification/SlabCorrect.v ===== *)
(** * Correctness of the slab allocator

    [slab_ok p w cs]: page [p] is a slab whose free chunks are, in order, [cs].
    The theorems give the effect of allocation and release on one page and on
    the lists it moves between, and show that recycling deadlocks. *)

From S2P Require Import Prelude QLib DList Locks Page PageAlloc BuddySpec PageAllocCorrect PageAllocInit PageAllocProps Vm Slab.
From Stdlib Require Import ZArith Lia.
From stdpp Require Import base countable numbers gmap list.
Open Scope Z_scope.

(** The chain of free chunks from [c] on. *)
Fixpoint chunks (w : gmap Z Z) (c : Z) (cs : list Z) : Prop :=
  match cs with
  | [] => c = 0
  | x :: t => c = x ∧ x ≠ 0 ∧ ∃ nxt, w !! x = Some nxt ∧ chunks w nxt t
  end.

(** [c] is the address of a chunk of page [p]. *)
Definition is_chunk (p : page) (c : Z) : Prop :=
  ∃ k, 0 ≤ k < 4096 / chunk_size (pg_slab p) ∧ c = pg_data p + k * chunk_size (pg_slab p).

Definition slab_ok (p : page) (w : gmap Z Z) (cs : list Z) : Prop :=
  is_slab p = true ∧ slab_magic (pg_slab p) = SLAB_MAGIC ∧ 0 < chunk_size (pg_slab p) ≤ 4096 ∧
  chunks w (chunk (pg_slab p)) cs ∧ NoDup cs ∧ Forall (is_chunk p) cs ∧
  0 ≤ n_allocated (pg_slab p) ∧
  n_allocated (pg_slab p) = 4096 / chunk_size (pg_slab p) - Z.of_nat (length cs).

Definition sheap (s : slabs) := heap (bud (vmm s)).
Definition spages (s : slabs) := pages (bud (vmm s)).

(** Only the list nodes, the pages and the words may differ. *)
Definition put_heap (h : gmap bnode (list_head bnode)) (s : slabs) : slabs :=
  with_vmm (with_bud (with_heap h (bud (vmm s))) (vmm s)) s.
Definition put_pages (P : gmap Z page) (s : slabs) : slabs :=
  with_vmm (with_bud (with_pages P (bud (vmm s))) (vmm s)) s.

Lemma spages_put_pages P s : spages (put_pages P s) = P.
Proof. done. Qed.
Lemma spages_put_heap h s : spages (put_heap h s) = spages s.
Proof. done. Qed.
Lemma sheap_put_heap h s : sheap (put_heap h s) = h.
Proof. done. Qed.
Lemma sheap_put_pages P s : sheap (put_pages P s) = sheap s.
Proof. done. Qed.
Lemma words_put_pages P s : words (put_pages P s) = words s.
Proof. done. Qed.
Lemma words_put_heap h s : words (put_heap h s) = words s.
Proof. done. Qed.
Lemma put_pages_twice P P' s : put_pages P (put_pages P' s) = put_pages P s.
Proof. done. Qed.
Lemma put_pages_heap P h s : put_pages P (put_heap h s) = put_heap h (put_pages P s).
Proof. done. Qed.

Create Rewrite HintDb slabs.
#[local] Hint Rewrite spages_put_pages spages_put_heap sheap_put_heap sheap_put_pages words_put_pages
  words_put_heap put_pages_twice put_pages_heap : slabs.
Ltac slab_simpl := autorewrite with slabs.

Lemma wp_on_ls {A} (m : M (gmap bnode (list_head bnode)) A) (R : A → _ → Prop) Q s :
  wp m R (sheap s) → (∀ a h, R a h → Q a (put_heap h s)) → wp (on_ls m) Q s.
Proof.
  intros Hm HQ. unfold on_ls, on_pg, on_vm, on_bud, on_list. do 3 wp_step.
  eapply wp_mono; [exact Hm|]. intros a h Ha. by apply HQ.
Qed.

Lemma wp_read_pg i p (Q : page → slabs → Prop) s :
  spages s !! i = Some p → Q p s → wp (on_pg (read_page i)) Q s.
Proof.
  intros Hp HQ. unfold on_pg, on_vm, on_bud. do 2 wp_step. eapply wp_read_page; [exact Hp|].
  destruct s as [[[] ] ]; exact HQ.
Qed.

Lemma wp_upd_pg i f p (Q : unit → slabs → Prop) s :
  spages s !! i = Some p → Q tt (put_pages (<[i := f p]> (spages s)) s) → wp (on_pg (upd_page i f)) Q s.
Proof.
  intros Hp HQ. unfold on_pg, on_vm, on_bud. do 2 wp_step. eapply wp_upd_page; [exact Hp|]. exact HQ.
Qed.

Lemma wp_upd_info i f p (Q : unit → slabs → Prop) s :
  spages s !! i = Some p →
  Q tt (put_pages (<[i := put_slab (f (pg_slab p)) p]> (spages s)) s) → wp (upd_info i f) Q s.
Proof. intros Hp HQ. unfold upd_info. by eapply wp_upd_pg. Qed.

Lemma put_heap_id s : put_heap (sheap s) s = s.
Proof. by destruct s as [[[] ] ]. Qed.

Lemma wp_ls_empty head l (Q : bool → slabs → Prop) s :
  dl (sheap s) head l → Q (bool_decide (l = [])) s → wp (on_ls (list_empty head)) Q s.
Proof.
  intros Hd HQ. eapply wp_on_ls.
  { eapply wp_list_empty; [exact Hd|]. instantiate (1 := λ e h, e = bool_decide (l = []) ∧ h = sheap s). done. }
  intros ? ? [-> ->]. by rewrite put_heap_id.
Qed.

Lemma wp_ls_next head l (Q : bnode → slabs → Prop) s :
  dl (sheap s) head l → Q (default head (hd_error l)) s → wp (on_ls (get_next head)) Q s.
Proof.
  intros Hd HQ. eapply wp_on_ls.
  { eapply wp_get_next; [by apply dl_head_next|].
    instantiate (1 := λ r h, r = default head (hd_error l) ∧ h = sheap s). by destruct l. }
  intros ? ? [-> ->]. by rewrite put_heap_id.
Qed.

Lemma chunks_frame w c cs a v : a ∉ cs → chunks w c cs → chunks (<[a := v]> w) c cs.
Proof.
  revert c. induction cs as [|x t IH]; intros c Ha; simpl; [done|].
  intros (-> & Hx & nxt & Hn & Ht). apply not_elem_of_cons in Ha as [Hax Ha].
  split; [done|]. split; [done|]. exists nxt. rewrite lookup_insert_ne by done. auto.
Qed.

(** Moving the first page of one list to the front of another. *)
Lemma wp_move_page x from to l1 l2 lt s (Q : unit → slabs → Prop) :
  dl (sheap s) from (l1 ++ Pg x :: l2) → dl (sheap s) to lt →
  (∀ n, n ∈ from :: l1 ++ Pg x :: l2 → n ∉ to :: lt) →
  (∀ h', dl h' from (l1 ++ l2) → dl h' to (Pg x :: lt) →
     keeps (from :: l1 ++ l2 ++ Pg x :: to :: lt) (sheap s) h' → Q tt (put_heap h' s)) →
  wp (on_ls (list_del (Pg x));; on_ls (list_add_next (Pg x) to)) Q s.
Proof.
  intros Hf Ht Hdis HQ. wp_step. eapply wp_on_ls; [by apply (wp_list_del (Pg x) from l1 l2)|].
  intros [] h1 (Hf1 & Hk1 & Hx1).
  assert (∀ n, n ∈ to :: lt → n ∉ from :: l1 ++ l2) as Hdis1.
  { intros n Hn Hn'. apply (Hdis n); [|done]. set_solver. }
  assert (dl h1 to lt) as Ht1 by (eapply keeps_dl; [exact Hk1| |exact Ht]; auto).
  eapply wp_on_ls.
  { apply (wp_list_add_next (Pg x) to lt); [done| |].
    - apply Hdis. set_solver.
    - change (is_Some (h1 !! Pg x)). rewrite Hx1. eapply dl_mapped; [exact Hf|]. set_solver. }
  intros [] h2 [Ht2 Hk2]. pose proof (dl_nodup _ _ _ Hf) as Hnd. apply HQ; [|done|].
  - eapply keeps_dl; [exact Hk2| |exact Hf1]. intros n Hn [->|Hn']%elem_of_cons.
    + rewrite <-Permutation_middle in Hnd. rewrite !NoDup_cons in Hnd. set_solver.
    + apply (Hdis n); [|done]. set_solver.
  - eapply keeps_trans; eapply keeps_weaken; [exact Hk1| |exact Hk2|]; set_solver.
Qed.

(** ** Allocation *)

(** What [__slab_alloc] leaves when it took chunk [c] of page [x]. *)
Definition chunk_taken (s s' : slabs) (head full : bnode) (x : Z) (l lf cs : list _) : Prop :=
  (∃ p', spages s' !! x = Some p' ∧ slab_ok p' (words s') cs) ∧
  (∀ i, i ≠ x → spages s' !! i = spages s !! i) ∧
  words s' = words s ∧ kPageTables (vmm s') = kPageTables (vmm s) ∧
  if decide (cs = []) then dl (sheap s') head l ∧ dl (sheap s') full (Pg x :: lf)
  else sheap s' = sheap s.

Lemma chunk_count_bound z : 0 < z ≤ 4096 → 0 ≤ 4096 / z ≤ 4096.
Proof.
  intros Hz. split; [apply Z.div_pos; lia|]. apply Z.div_le_upper_bound; nia.
Qed.

Lemma slab_ok_take p w c cs nxt k :
  slab_ok p w (c :: cs) → w !! c = Some nxt →
  slab_ok (put_rwlock k (put_slab
    (set_chunk nxt (set_n_allocated (u16 (n_allocated (pg_slab p) + 1)) (pg_slab p))) p)) w cs.
Proof.
  intros (H1 & H2 & H3 & (_ & _ & n' & Hn' & Hc) & Hnd & Hch & Hna0 & Hna) Hn. simplify_eq.
  apply NoDup_cons in Hnd as [_ Hnd]. apply Forall_cons in Hch as [_ Hch]. simpl in Hna.
  pose proof (chunk_count_bound _ H3). unfold slab_ok. simpl. rewrite u16_small by lia.
  split_and!; try done; lia.
Qed.

Lemma slab_ok_lock p w cs k : slab_ok p w cs → slab_ok (put_rwlock k p) w cs.
Proof. done. Qed.

Lemma slab_alloc_spec s head full x p c cs l lf size :
  dl (sheap s) head (Pg x :: l) → dl (sheap s) full lf →
  (∀ n, n ∈ head :: Pg x :: l → n ∉ full :: lf) →
  spages s !! x = Some p → slab_ok p (words s) (c :: cs) →
  lk_flag (rw_writelock (pg_rwlock p)) ≠ SPINLOCK_LOCKED →
  wp (__slab_alloc head full size) (λ r s', r = c ∧ chunk_taken s s' head full x l lf cs) s.
Proof.
  intros Hd Hf Hdis Hp Hok Hlk. pose proof Hok as (_ & _ & _ & (Hc & Hc0 & nxt & Hn & Hch) & _).
  unfold __slab_alloc. wp_step. eapply wp_ls_empty; [exact Hd|]. rewrite bool_decide_false by done.
  wp_step. wp_step. wp_step. eapply wp_ls_next; [exact Hd|]. simpl. wp_step. wp_step. wp_step.
  eapply wp_read_pg; [exact Hp|]. wp_step. eapply wp_lift_res; [by apply wlock_lock_ok|].
  wp_step. eapply wp_upd_pg; [exact Hp|]. wp_step. eapply wp_ls_empty; [exact Hd|].
  rewrite bool_decide_false by done. wp_step. wp_step.
  { simpl. apply truth_true. by rewrite Hc. }
  wp_step. eapply wp_upd_info; [apply lookup_insert_eq|]. slab_simpl. wp_step.
  unfold rd_word. wp_step. wp_step. wp_step; [slab_simpl; by rewrite Hc|]. wp_step.
  eapply wp_upd_info; [slab_simpl; apply lookup_insert_eq|]. slab_simpl. wp_step. wp_step.
  set (s1 := put_pages _ s). assert (sheap s1 = sheap s) as E1 by done.
  destruct cs as [|c2 cs].
  - simpl in Hch. subst nxt. cbn [truth negb Z.eqb].
    apply (wp_move_page x head full [] l lf s1); [done|done|done|].
    intros h' Hh Hfl _. wp_step. eapply wp_upd_pg; [unfold s1; slab_simpl; apply lookup_insert_eq|].
    wp_go. unfold s1. slab_simpl. split; [done|]. split_and!; try done.
    + eexists. split; [apply lookup_insert_eq|]. by apply (slab_ok_take p _ c [] 0).
    + intros i Hi. slab_simpl. by rewrite !lookup_insert_ne by done.
  - assert (nxt = c2 ∧ c2 ≠ 0) as [-> Hc2] by (simpl in Hch; tauto).
    rewrite (proj2 (truth_true c2) Hc2). cbn [negb]. wp_step.
    eapply wp_upd_pg; [unfold s1; slab_simpl; apply lookup_insert_eq|].
    wp_go. unfold s1. slab_simpl. split; [done|]. split_and!; try done.
    + eexists. split; [apply lookup_insert_eq|]. by apply (slab_ok_take p _ c (c2 :: cs) c2).
    + intros i Hi. slab_simpl. by rewrite !lookup_insert_ne by done.
Qed.

(** ** Release *)

Definition chunk_returned (s s' : slabs) (head full : bnode) (x : Z) (l1 l2 lh : list bnode) (c : Z) (cs : list Z) : Prop :=
  (∃ p', spages s' !! x = Some p' ∧ slab_ok p' (words s') (c :: cs)) ∧
  (∀ i, i ≠ x → spages s' !! i = spages s !! i) ∧
  (∀ a, a ≠ c → words s' !! a = words s !! a) ∧ kPageTables (vmm s') = kPageTables (vmm s) ∧
  if decide (cs = []) then dl (sheap s') full (l1 ++ l2) ∧ dl (sheap s') head (Pg x :: lh)
  else sheap s' = sheap s.

Lemma slab_ok_return p w c cs :
  slab_ok p w cs → is_chunk p c → c ≠ 0 → c ∉ cs → 0 < n_allocated (pg_slab p) →
  slab_ok (put_slab (set_chunk c (set_n_allocated (u16 (n_allocated (pg_slab p) - 1)) (pg_slab p))) p)
    (<[c := chunk (pg_slab p)]> w) (c :: cs).
Proof.
  intros (H1 & H2 & H3 & Hc & Hnd & Hch & Hna0 & Hna) Hic Hc0 Hnin Hpos.
  pose proof (chunk_count_bound _ H3). unfold slab_ok. simpl. rewrite u16_small by lia.
  split_and!; try done; try lia.
  - exists (chunk (pg_slab p)). split; [apply lookup_insert_eq|]. by apply chunks_frame.
  - by apply NoDup_cons.
  - by apply Forall_cons.
Qed.

Lemma wp_on_vm {A} (m : M vmem A) (R : A → vmem → Prop) Q s :
  wp m R (vmm s) → (∀ a v, R a v → Q a (with_vmm v s)) → wp (on_vm m) Q s.
Proof. intros Hm HQ. unfold on_vm. wp_step. eapply wp_mono; [exact Hm|]. eauto. Qed.

Lemma slab_free_spec s head full x p c cs l1 l2 lh :
  va_get_page (PAGE_CEIL c) (vmm s) = Ok (Some x, vmm s) →
  spages s !! x = Some p → slab_ok p (words s) cs → is_chunk p c → c ≠ 0 → c ∉ cs →
  0 < n_allocated (pg_slab p) →
  (cs = [] → dl (sheap s) full (l1 ++ Pg x :: l2) ∧ dl (sheap s) head lh ∧
             ∀ n, n ∈ full :: l1 ++ Pg x :: l2 → n ∉ head :: lh) →
  wp (__slab_free c head) (λ _ s', chunk_returned s s' head full x l1 l2 lh c cs) s.
Proof.
  intros Hva Hp Hok Hic Hc0 Hnin Hpos Hl. pose proof Hok as (His & Hmag & _ & Hch & _).
  unfold __slab_free. wp_step. eapply wp_on_vm.
  { eapply wp_intro; [exact Hva|]. instantiate (1 := λ r v, r = Some x ∧ v = vmm s). done. }
  intros ? ? [-> ->]. replace (with_vmm (vmm s) s) with s by (by destruct s). wp_step.
  eapply wp_read_pg; [exact Hp|]. wp_step. wp_step; [done|]. wp_step. wp_step; [by apply Z.eqb_eq|].
  wp_step. wp_step; [by apply Z.ltb_lt|]. wp_step. wp_step.
  assert (∀ s1, spages s1 = spages s → words s1 = words s → kPageTables (vmm s1) = kPageTables (vmm s) →
    (if decide (cs = []) then dl (sheap s1) full (l1 ++ l2) ∧ dl (sheap s1) head (Pg x :: lh)
     else sheap s1 = sheap s) →
    wp (upd_info x (λ i, set_n_allocated (u16 (n_allocated i - 1)) i);;
        wr_word c (chunk (pg_slab p));; upd_info x (set_chunk c))
       (λ _ s', chunk_returned s s' head full x l1 l2 lh c cs) s1) as Htail.
  { intros s1 Ep Ew Ek Hls. wp_step. eapply wp_upd_info; [rewrite Ep; exact Hp|]. unfold wr_word. wp_go.
    eapply wp_upd_info; [simpl; apply lookup_insert_eq|]. split_and!; try done.
    - eexists. split; [apply lookup_insert_eq|]. simpl. rewrite Ew. exact (slab_ok_return p _ c cs Hok Hic Hc0 Hnin Hpos).
    - intros i Hi. unfold spages. simpl. rewrite !lookup_insert_ne by done. change (spages s1 !! i = spages s !! i). by rewrite Ep.
    - intros a Ha. simpl. rewrite Ew. by rewrite lookup_insert_ne. }
  destruct cs as [|c2 cs].
  - simpl in Hch. rewrite Hch in Htail |- *. destruct (Hl eq_refl) as (Hf & Hh & Hdis). cbn [Z.eqb].
    apply (wp_move_page x full head l1 l2 lh s _ Hf Hh Hdis). intros h' Hf' Hh' _.
    apply Htail; [done|done|done|]. by rewrite decide_True.
  - assert (chunk (pg_slab p) ≠ 0) as Hne by (simpl in Hch; naive_solver).
    destruct (Z.eqb_spec (chunk (pg_slab p)) 0); [done|]. by apply Htail.
Qed.

(** C29: [__slab_alloc] from a list whose first page has a free chunk returns that
    page's first free chunk, which lies inside the page, is not NULL and is no
    longer among the free chunks; the count of allocated chunks grows by one, and
    the page moves to the list of full pages exactly when it was its last chunk.
    No other page and no chunk's memory is touched. *)
Theorem slab_alloc_correct s head full x p c cs l lf size :
  dl (sheap s) head (Pg x :: l) → dl (sheap s) full lf →
  (∀ n, n ∈ head :: Pg x :: l → n ∉ full :: lf) →
  spages s !! x = Some p → slab_ok p (words s) (c :: cs) →
  lk_flag (rw_writelock (pg_rwlock p)) ≠ SPINLOCK_LOCKED →
  ∃ s', __slab_alloc head full size s = Ok (c, s') ∧ c ≠ 0 ∧ is_chunk p c ∧ (c ∉ cs) ∧
    chunk_taken s s' head full x l lf cs.
Proof.
  intros Hd Hf Hdis Hp Hok Hlk.
  destruct (wp_elim _ _ _ (slab_alloc_spec s head full x p c cs l lf size Hd Hf Hdis Hp Hok Hlk))
    as (r & s' & E & -> & Ht).
  destruct Hok as (_ & _ & _ & (_ & Hc0 & _) & [Hnin _]%NoDup_cons & [Hch _]%Forall_cons & _).
  exists s'. by split_and!.
Qed.

(** C30: [__slab_free] of an allocated chunk puts it in front of its page's free
    chunks, so that the next allocation from the page returns it; a page that was
    full moves back to the list it is allocated from.  The magic number, the
    slab flag and the count guard the release. *)
Theorem slab_free_correct s head full x p c cs l1 l2 lh :
  va_get_page (PAGE_CEIL c) (vmm s) = Ok (Some x, vmm s) →
  spages s !! x = Some p → slab_ok p (words s) cs → is_chunk p c → c ≠ 0 → c ∉ cs →
  0 < n_allocated (pg_slab p) →
  (cs = [] → dl (sheap s) full (l1 ++ Pg x :: l2) ∧ dl (sheap s) head lh ∧
             ∀ n, n ∈ full :: l1 ++ Pg x :: l2 → n ∉ head :: lh) →
  ∃ s', __slab_free c head s = Ok (tt, s') ∧ chunk_returned s s' head full x l1 l2 lh c cs.
Proof.
  intros H1 H2 H3 H4 H5 H6 H7 H8.
  destruct (wp_elim _ _ _ (slab_free_spec s head full x p c cs l1 l2 lh H1 H2 H3 H4 H5 H6 H7 H8))
    as ([] & s' & E & Ht). eauto.
Qed.

(** Recycling never frees a slab: when the first page of the list is unused,
    [recycle] takes the page's write lock and calls [__free_page], which takes
    the same lock again and spins for ever. *)
Theorem recycle_deadlocks fuel s head x l p :
  dl (sheap s) head (Pg x :: l) → spages s !! x = Some p →
  n_allocated (pg_slab p) = 0 → 0 < ref_cnt p → page_head p = true →
  lk_flag (rw_writelock (pg_rwlock p)) ≠ SPINLOCK_LOCKED →
  recycle (S fuel) head s = Err Spin.
Proof.
  intros Hd Hp Hna Hr Hh Hlk. unfold recycle.
  assert (on_ls (get_next head) s = Ok (Pg x, s)) as En.
  { destruct (wp_elim _ _ _ (wp_ls_next head (Pg x :: l) (λ n s', n = Pg x ∧ s' = s) s Hd (conj eq_refl eq_refl)))
      as (n & s' & E & -> & ->). done. }
  rewrite (bind_Ok _ _ _ _ _ En). cbn [recycle_loop]. rewrite decide_False.
  2: { intros <-. apply dl_nodup, NoDup_cons in Hd as [Hn _]. by destruct Hn; left. }
  erewrite bind_Ok by reflexivity.
  assert (on_pg (read_page x) s = Ok (p, s)) as Er.
  { destruct (wp_elim _ _ _ (wp_read_pg x p (λ q s', q = p ∧ s' = s) s Hp (conj eq_refl eq_refl)))
      as (n & s' & E & -> & ->). done. }
  rewrite (bind_Ok _ _ _ _ _ Er). rewrite (wlock_lock_ok _ Hlk). erewrite bind_Ok by reflexivity.
  set (p1 := put_rwlock (wlocked (pg_rwlock p)) p). set (s1 := put_pages (<[x := p1]> (spages s)) s).
  assert (on_pg (upd_page x (put_rwlock (wlocked (pg_rwlock p)))) s = Ok (tt, s1)) as Eu.
  { destruct (wp_elim _ _ _ (wp_upd_pg x (put_rwlock (wlocked (pg_rwlock p))) p (λ _ s', s' = s1) s Hp eq_refl))
      as ([] & s' & E & ->). done. }
  rewrite (bind_Ok _ _ _ _ _ Eu), Hna. cbn [Z.eqb when].
  destruct (wp_elim _ _ _ (wp_on_ls (list_del (Pg x)) _ (λ _ s', ∃ h, s' = put_heap h s1) s1
    (wp_list_del (Pg x) head [] l (sheap s1) Hd) (λ _ h _, ex_intro _ h eq_refl))) as ([] & s2 & Ed & h & ->).
  apply bind_Err. rewrite (bind_Ok _ _ _ _ _ Ed). apply bind_Err.
  unfold on_pg, on_vm, on_bud, zoom. simpl. unfold __free_page, read_page, mbind, M_bind, get, deref. simpl.
  rewrite lookup_insert_eq. unfold assertk. replace (ref_cnt p1) with (ref_cnt p) by done.
  rewrite (proj2 (Z.ltb_lt _ _)) by done. replace (page_head p1) with (page_head p) by done. by rewrite Hh.
Qed.

(** ** Witnesses: one allocation of 2000 bytes from four pages *)

Definition slab_memory : slabs :=
  Slabs (Vmem (with_heap (list_to_map ((λ n, (n, LH (Root 0) (Root 0))) <$>
            [SlabFull; SlabCaches] ++ (SlabHd <$> seqZ 0 10)) ∪ heap demo) demo)
          (list_to_map ((λ i, (i, 0)) <$> seqZ 256 4)) ∅ 0)
        ∅ (Spinlock 1) ∅.
Definition slab_state {A} (r : res (A * slabs)) : slabs :=
  match r with Ok (_, s) => s | Err _ => slab_memory end.
Definition slab_demo : slabs := Eval vm_compute in slab_state ((slab_init;; slab_alloc 2000) slab_memory).
Definition demo_page : page := Eval vm_compute in
  default raw_page (spages slab_demo !! 0).

Lemma slab_demo_lists :
  dl (sheap slab_demo) (SlabHd 9) [Pg 0] ∧ dl (sheap slab_demo) SlabFull [].
Proof.
  split; split.
  - apply NoDup_cons. split; [|apply NoDup_singleton]. by rewrite list_elem_of_singleton.
  - vm_compute. tauto.
  - apply NoDup_singleton.
  - vm_compute. tauto.
Qed.

Lemma slab_demo_page : spages slab_demo !! 0 = Some demo_page.
Proof. vm_compute. reflexivity. Qed.

Lemma slab_demo_ok : slab_ok demo_page (words slab_demo) [0xc0100800].
Proof.
  unfold slab_ok. split; [reflexivity|]. split; [reflexivity|].
  split; [vm_compute; split; congruence|]. split.
  { split; [reflexivity|]. split; [lia|]. exists 0. split; [vm_compute; reflexivity|reflexivity]. }
  split; [apply NoDup_singleton|]. split; [|vm_compute; split; [congruence|reflexivity]].
  apply Forall_singleton. exists 1. split; [vm_compute; split; congruence|reflexivity].
Qed.

Lemma slab_alloc_correct_witness :
  ∃ s', __slab_alloc (SlabHd 9) SlabFull 2048 slab_demo = Ok (0xc0100800, s') ∧
    dl (sheap s') SlabFull [Pg 0].
Proof.
  destruct (slab_alloc_correct slab_demo (SlabHd 9) SlabFull 0 demo_page 0xc0100800 [] [] [] 2048
    (proj1 slab_demo_lists) (proj2 slab_demo_lists) ltac:(set_solver) slab_demo_page slab_demo_ok
    ltac:(vm_compute; congruence)) as (s' & E & _ & _ & _ & _ & _ & _ & _ & _ & Hl).
  exists s'. split; [exact E|exact Hl].
Defined.

Lemma slab_free_correct_witness :
  ∃ s', __slab_free 0xc0100000 (SlabHd 9) slab_demo = Ok (tt, s').
Proof.
  destruct (slab_free_correct slab_demo (SlabHd 9) SlabFull 0 demo_page 0xc0100000 [0xc0100800] [] [] []
    ltac:(vm_compute; reflexivity) slab_demo_page slab_demo_ok 
    (ex_intro _ 0 (conj (conj (Z.le_refl 0) eq_refl) eq_refl))
    ltac:(lia) ltac:(set_solver) eq_refl ltac:(done)) as (s' & E & _). exists s'. exact E.
Defined.

Definition slab_demo2 : slabs := Eval vm_compute in
  slab_state (__slab_free 0xc0100000 (SlabHd 9) slab_demo).
Definition demo_page2 : page := Eval vm_compute in
  default raw_page (spages slab_demo2 !! 0).

Lemma recycle_deadlocks_witness : recycle 5 (SlabHd 9) slab_demo2 = Err Spin.
Proof.
  apply (recycle_deadlocks 4 slab_demo2 (SlabHd 9) 0 [] demo_page2);
    [|vm_compute; reflexivity|reflexivity|reflexivity|reflexivity|vm_compute; congruence].
  split; [|vm_compute; tauto]. apply NoDup_cons. split; [|apply NoDup_singleton]. by rewrite list_elem_of_singleton.
Defined.
