(* ===== verification/Vga.v ===== *)
(** * The text screen

    Models [kernel/drivers/vga.c]: the cursor, the colour and the 80 x 25 window of
    16-bit cells at 0xB8000.  The writes to the display's ports are kept as a log,
    newest first.  [memcpy] and [memset16] on the window are written out cell by
    cell in the order the byte loops run; an access outside the window is a
    [Fault]. *)

From S2P Require Import Prelude QLib.
From Stdlib Require Import ZArith Lia.
From stdpp Require Import base numbers gmap list.
Open Scope Z_scope.

Definition VGA_WIDTH : Z := 80.
Definition VGA_HEIGHT : Z := 25.
Definition VGA_INDEX : Z := 0x3d4.
Definition VGA_DAT : Z := 0x3d5.
Definition CI_H : Z := 0x0e.
Definition CI_L : Z := 0x0f.
Definition S_CURSOR_Y : Z := 0x0A.
Definition E_CURSOR_Y : Z := 0x0B.
Definition NEWLINE : Z := 10.
Definition VGA_COLOR_BLACK : Z := 0.
Definition VGA_COLOR_LIGHT_GREY : Z := 7.

Definition BUF_INDEX (col row : Z) : Z := row * VGA_WIDTH + col.

Record vga := Vga {
  v_row : Z;                  (* cursor.row, 8 bits *)
  v_col : Z;                  (* cursor.col, 8 bits *)
  terminal_color : Z;
  terminal_buffer : list Z;   (* the cells of the window, row by row *)
  v_out : list (Z * Z)        (* (port, value) written, newest first *)
}.

Definition with_buf (b : list Z) (v : vga) :=
  Vga (v_row v) (v_col v) (terminal_color v) b (v_out v).
Definition set_row (r : Z) (v : vga) :=
  Vga r (v_col v) (terminal_color v) (terminal_buffer v) (v_out v).
Definition set_col (c : Z) (v : vga) :=
  Vga (v_row v) c (terminal_color v) (terminal_buffer v) (v_out v).

Definition outb (port value : Z) : M vga unit :=
  modify (λ v, Vga (v_row v) (v_col v) (terminal_color v) (terminal_buffer v)
                   ((port, value) :: v_out v)).

Definition rd_cell (i : Z) : M vga Z :=
  v ← get; if i <? 0 then fail Fault else deref (terminal_buffer v !! Z.to_nat i).
Definition wr_cell (i x : Z) : M vga unit :=
  _ ← rd_cell i; modify (λ v, with_buf (<[Z.to_nat i := x]> (terminal_buffer v)) v).

Definition vga_entry_color (fg bg : Z) : Z := u8 (Z.lor fg (Z.shiftl bg 4)).
Definition vga_entry (uc color : Z) : Z := u16 (Z.lor (u16 uc) (Z.shiftl (u16 color) 8)).
Definition VGA_SPACE (v : vga) : Z := vga_entry 32 (terminal_color v).

Definition vga_set_buf (c color row col : Z) : M vga unit :=
  wr_cell (BUF_INDEX col row) (vga_entry (u8 c) color).

(** [memset16(&terminal_buffer[i0], VGA_SPACE, n)] *)
Definition blank_cells (i0 : Z) (n : nat) : M vga unit :=
  sp ← gets VGA_SPACE; for_up n 0 (λ i, wr_cell (i0 + i) sp).

Definition vga_clean_line (row : Z) : M vga unit :=
  blank_cells (BUF_INDEX 0 row) (Z.to_nat VGA_WIDTH).

Definition vga_scroll_up : M vga unit :=
  for_up (Z.to_nat ((VGA_HEIGHT - 1) * VGA_WIDTH)) 0
    (λ i, x ← rd_cell (BUF_INDEX 0 1 + i); wr_cell i x);;
  vga_clean_line (VGA_HEIGHT - 1).

Definition set_cursor (row col : Z) : M vga unit :=
  modify (λ v, set_col col (set_row row v)).

Definition cursor_up : M vga unit :=
  modify (λ v, set_row (if v_row v =? 0 then 0 else u8 (v_row v - 1)) v).

Definition cursor_down : M vga unit :=
  modify (λ v, let nr := u8 (v_row v + 1) in
               set_row (if VGA_HEIGHT <=? nr then v_row v else nr) v).

Definition inc_row : M vga unit :=
  v ← get;
  (if v_row v + 1 =? VGA_HEIGHT then vga_scroll_up
   else modify (λ v, set_row (u8 (v_row v + 1)) v));;
  modify (set_col 0).

Definition dec_row : M vga unit :=
  v ← get;
  if negb (v_row v =? 0) then
    modify (λ v, set_row (u8 (v_row v - 1)) v);;
    modify (set_col (VGA_WIDTH - 1))
  else mret tt.

Definition inc_col : M vga unit :=
  v ← get;
  if v_col v + 1 =? VGA_WIDTH then inc_row
  else modify (λ v, set_col (u8 (v_col v + 1)) v).

Definition dec_col : M vga unit :=
  v ← get;
  if v_col v =? 0 then dec_row else modify (λ v, set_col (u8 (v_col v - 1)) v).

Definition __vga_clean : M vga unit := blank_cells 0 (Z.to_nat (VGA_WIDTH * VGA_HEIGHT)).

Definition __vga_cleanc (row col : Z) : M vga unit := blank_cells (BUF_INDEX col row) 1.

Definition vga_sync_cursor : M vga unit :=
  v ← get;
  let pos := u16 (BUF_INDEX (v_col v) (v_row v)) in
  outb VGA_INDEX CI_L;;
  outb VGA_DAT (Z.land pos (2 ^ 8 - 1));;
  outb VGA_INDEX CI_H;;
  outb VGA_DAT (u8 (Z.shiftr pos 8)).

Definition vga_enable_cursor : M vga unit :=
  outb VGA_INDEX S_CURSOR_Y;; outb VGA_DAT 0x0E;;
  outb VGA_INDEX E_CURSOR_Y;; outb VGA_DAT 0x0F.

Definition vga_clean : M vga unit := set_cursor 0 0;; __vga_clean;; vga_sync_cursor.

Definition vga_set_color (color : Z) : M vga unit :=
  modify (λ v, Vga (v_row v) (v_col v) color (terminal_buffer v) (v_out v)).

Definition vga_init : M vga unit :=
  set_cursor 0 0;;
  vga_set_color (vga_entry_color VGA_COLOR_LIGHT_GREY VGA_COLOR_BLACK);;
  __vga_clean;;
  vga_enable_cursor;;
  vga_sync_cursor.

Definition vga_put_char (c : Z) : M vga unit :=
  if c =? NEWLINE then inc_row
  else v ← get; vga_set_buf c (terminal_color v) (v_row v) (v_col v);; inc_col.

Definition vga_delete : M vga unit :=
  dec_col;; v ← get; __vga_cleanc (v_row v) (v_col v);; vga_sync_cursor.

Definition vga_cursor_left : M vga unit := dec_col;; vga_sync_cursor.
Definition vga_cursor_right : M vga unit := inc_col;; vga_sync_cursor.
Definition vga_cursor_up : M vga unit := cursor_up;; vga_sync_cursor.
Definition vga_cursor_down : M vga unit := cursor_down;; vga_sync_cursor.

(** ** What the screen shows

    The text written since the screen was cleared is a list of finished lines and
    the line being written.  A line ends at a newline or after 80 cells. *)

Definition put_cell (color : Z) (t : list (list Z) * list Z) (c : Z) : list (list Z) * list Z :=
  let '(hist, cur) := t in
  if c =? NEWLINE then (hist ++ [cur], [])
  else let cur' := cur ++ [vga_entry (u8 c) color] in
       if decide (length cur' = 80%nat) then (hist ++ [cur'], []) else (hist, cur').

Definition layout (color : Z) (text : list Z) : list (list Z) * list Z :=
  foldl (put_cell color) ([], []) text.

(** The cell at line [r], column [c] of the text; blank where nothing is written. *)
Definition cell (sp : Z) (ls : list (list Z)) (r c : nat) : Z := default sp (ls !! r ≫= (.!! c)).

(** The window holds the last 25 lines. *)
Definition rows (hist : list (list Z)) (cur : list Z) (v : vga) : Prop :=
  length (terminal_buffer v) = 2000%nat ∧
  v_row v = Z.of_nat (length hist `min` 24) ∧
  ∀ r c, (r < 25)%nat → (c < 80)%nat →
    terminal_buffer v !! (80 * r + c)%nat =
    Some (cell (VGA_SPACE v) (hist ++ [cur]) (length hist - 24 + r) c).

Definition shows (hist : list (list Z)) (cur : list Z) (v : vga) : Prop :=
  rows hist cur v ∧ v_col v = Z.of_nat (length cur) ∧ (length cur < 80)%nat.

Lemma cell_last sp hist cur c : cell sp (hist ++ [cur]) (length hist) c = default sp (cur !! c).
Proof. unfold cell. by rewrite lookup_app_r, Nat.sub_diag by lia. Qed.

Lemma cell_other sp hist cur cur' r c : r ≠ length hist →
  cell sp (hist ++ [cur]) r c = cell sp (hist ++ [cur']) r c.
Proof.
  intros Hr. unfold cell. destruct (decide (r < length hist)%nat).
  - by rewrite !lookup_app_l by lia.
  - rewrite !lookup_app_r by lia. by replace (r - length hist)%nat with (S (r - length hist - 1)) by lia.
Qed.

Lemma cell_newline sp ls r c : cell sp (ls ++ [[]]) r c = cell sp ls r c.
Proof.
  unfold cell. destruct (decide (r < length ls)%nat); [by rewrite lookup_app_l by lia|].
  rewrite lookup_app_r, (lookup_ge_None_2 ls) by lia.
  by destruct (r - length ls)%nat as [|[]].
Qed.

Lemma cell_beyond sp ls r c : (length ls ≤ r)%nat → cell sp ls r c = sp.
Proof. intros. unfold cell. by rewrite lookup_ge_None_2 by lia. Qed.

#[local] Arguments put_cell : simpl never.
#[local] Arguments Nat.mul : simpl never.
#[local] Arguments Nat.sub : simpl never.

(** ** Cell accesses and the loops over cells *)

Lemma wp_rd_cell i x (Q : Z → vga → Prop) v :
  0 ≤ i → terminal_buffer v !! Z.to_nat i = Some x → Q x v → wp (rd_cell i) Q v.
Proof. intros Hi Hx HQ. unfold rd_cell. wp_go. destruct (Z.ltb_spec i 0); [lia|]. by wp_go. Qed.

Lemma wp_wr_cell i x (Q : unit → vga → Prop) v :
  0 ≤ i < Z.of_nat (length (terminal_buffer v)) →
  Q tt (with_buf (<[Z.to_nat i := x]> (terminal_buffer v)) v) → wp (wr_cell i x) Q v.
Proof.
  intros Hi HQ. unfold wr_cell. wp_go.
  destruct (lookup_lt_is_Some_2 (terminal_buffer v) (Z.to_nat i)) as [y Hy]; [lia|].
  eapply wp_rd_cell; [lia|done|]. by wp_go.
Qed.

Lemma wp_blank_cells i0 n (Q : unit → vga → Prop) v :
  0 ≤ i0 → i0 + Z.of_nat n ≤ Z.of_nat (length (terminal_buffer v)) →
  (∀ b, length b = length (terminal_buffer v) →
     (∀ j, (Z.to_nat i0 ≤ j < Z.to_nat i0 + n)%nat → b !! j = Some (VGA_SPACE v)) →
     (∀ j, ¬ (Z.to_nat i0 ≤ j < Z.to_nat i0 + n)%nat → b !! j = terminal_buffer v !! j) →
     Q tt (with_buf b v)) →
  wp (blank_cells i0 n) Q v.
Proof.
  intros H0 Hn HQ. unfold blank_cells. wp_go.
  apply (wp_for_up (λ i v', ∃ b, v' = with_buf b v ∧ length b = length (terminal_buffer v) ∧
     (∀ j, (Z.to_nat i0 ≤ j < Z.to_nat (i0 + i))%nat → b !! j = Some (VGA_SPACE v)) ∧
     (∀ j, ¬ (Z.to_nat i0 ≤ j < Z.to_nat (i0 + i))%nat → b !! j = terminal_buffer v !! j))).
  - exists (terminal_buffer v). split_and!; [by destruct v|done|lia|done].
  - intros i ? Hi (b & -> & Hl & Hin & Hout). apply wp_wr_cell; [simpl; lia|]. simpl.
    eexists. split_and!; [reflexivity|by rewrite length_insert| |]; intros j Hj.
    + destruct (decide (j = Z.to_nat (i0 + i))) as [->|].
      * by rewrite list_lookup_insert_eq by lia.
      * rewrite list_lookup_insert_ne by lia. apply Hin. lia.
    + rewrite list_lookup_insert_ne by lia. apply Hout. lia.
  - intros ? (b & -> & Hl & Hin & Hout). apply HQ; [done|intros j Hj; apply Hin|intros j Hj; apply Hout]; lia.
Qed.

Lemma wp_vga_scroll_up (Q : unit → vga → Prop) v :
  length (terminal_buffer v) = 2000%nat →
  (∀ b, length b = 2000%nat →
     (∀ j, (j < 1920)%nat → b !! j = terminal_buffer v !! (j + 80)%nat) →
     (∀ j, (1920 ≤ j < 2000)%nat → b !! j = Some (VGA_SPACE v)) →
     Q tt (with_buf b v)) →
  wp vga_scroll_up Q v.
Proof.
  intros Hl HQ. unfold vga_scroll_up. change ((VGA_HEIGHT - 1) * VGA_WIDTH) with 1920. apply wp_bind.
  apply (wp_for_up (λ i v', ∃ b, v' = with_buf b v ∧ length b = 2000%nat ∧
     (∀ j, (j < Z.to_nat i)%nat → b !! j = terminal_buffer v !! (j + 80)%nat) ∧
     (∀ j, (Z.to_nat i ≤ j)%nat → b !! j = terminal_buffer v !! j))).
  - exists (terminal_buffer v). split_and!; [by destruct v|done|lia|done].
  - intros i ? Hi (b & -> & Hb & Hin & Hout). change (BUF_INDEX 0 1) with 80. wp_go.
    destruct (lookup_lt_is_Some_2 b (Z.to_nat (80 + i))) as [y Hy]; [lia|].
    eapply wp_rd_cell; [lia|done|]. apply wp_wr_cell; [simpl; lia|]. simpl.
    rewrite Hout in Hy by lia.
    eexists. split_and!; [reflexivity|by rewrite length_insert| |]; intros j Hj.
    + destruct (decide (j = Z.to_nat i)) as [->|].
      * rewrite list_lookup_insert_eq by lia. rewrite <-Hy. f_equal. lia.
      * rewrite list_lookup_insert_ne by lia. apply Hin. lia.
    + rewrite list_lookup_insert_ne by lia. apply Hout. lia.
  - intros ? (b & -> & Hb & Hin & Hout). unfold vga_clean_line. change (BUF_INDEX 0 (VGA_HEIGHT - 1)) with 1920.
    change VGA_WIDTH with 80.
    apply wp_blank_cells; [lia|simpl; lia|]. simpl. intros b' Hb' Hin' Hout'.
    change (with_buf b' (with_buf b v)) with (with_buf b' v). apply HQ; [lia| |].
    + intros j Hj. rewrite Hout' by lia. apply Hin. lia.
    + intros j Hj. apply Hin'. lia.
Qed.

(** ** Writing text *)

Lemma rows_init v : length (terminal_buffer v) = 2000%nat → v_row v = 0 →
  (∀ j, (j < 2000)%nat → terminal_buffer v !! j = Some (VGA_SPACE v)) → rows [] [] v.
Proof.
  intros Hl Hr Hb. split_and!; [done|done|]. intros r c Hr' Hc. rewrite Hb by lia. f_equal.
  unfold cell. simpl. by destruct r as [|[]].
Qed.

Lemma wp_inc_row hist cur (Q : unit → vga → Prop) v :
  rows hist cur v →
  (∀ v', shows (hist ++ [cur]) [] v' → terminal_color v' = terminal_color v → Q tt v') →
  wp inc_row Q v.
Proof.
  intros (Hl & Hr & Hb) HQ. unfold inc_row. change VGA_HEIGHT with 25. wp_go.
  destruct (Z.eqb_spec (v_row v + 1) 25).
  - apply wp_vga_scroll_up; [done|]. intros b Hbl Hin Hout. wp_go.
    apply HQ; [|done]. unfold shows, rows. split_and!; [done|simpl; rewrite length_app; simpl; lia| |done|simpl; lia].
    intros r c Hr' Hc. simpl. rewrite cell_newline, length_app. simpl. unfold VGA_SPACE. simpl.
    destruct (decide (r < 24)%nat).
    + rewrite Hin by lia. replace (80 * r + c + 80)%nat with (80 * S r + c)%nat by lia.
      rewrite Hb by lia. do 2 f_equal. lia.
    + rewrite Hout, cell_beyond by (rewrite ?length_app; simpl; lia). done.
  - wp_go. apply HQ; [|done]. unfold shows, rows. split_and!; [done| | |done|simpl; lia]; simpl.
    + rewrite length_app. simpl. unfold u8. rewrite Z.mod_small by lia. lia.
    + intros r c Hr' Hc. rewrite cell_newline, length_app. simpl. rewrite Hb by lia.
      unfold VGA_SPACE. simpl. do 2 f_equal. lia.
Qed.

Lemma rows_put hist cur v x : rows hist cur v → (length cur < 80)%nat →
  rows hist (cur ++ [x])
    (with_buf (<[(80 * (length hist `min` 24) + length cur)%nat := x]> (terminal_buffer v)) v).
Proof.
  intros (Hl & Hr & Hb) Hc. split_and!; [simpl; by rewrite length_insert|done|]. simpl.
  intros r c Hr' Hc'. unfold VGA_SPACE. simpl. fold (VGA_SPACE v).
  destruct (decide (r = length hist `min` 24 ∧ c = length cur)%nat) as [[-> ->]|Hne].
  - rewrite list_lookup_insert_eq by lia.
    replace (length hist - 24 + length hist `min` 24)%nat with (length hist) by lia.
    by rewrite cell_last, lookup_app_r, Nat.sub_diag by lia.
  - rewrite list_lookup_insert_ne, Hb by lia. f_equal.
    destruct (decide (r = length hist `min` 24)%nat) as [->|]; [|apply cell_other; lia].
    replace (length hist - 24 + length hist `min` 24)%nat with (length hist) by lia.
    rewrite !cell_last. f_equal. destruct (decide (c < length cur)%nat); [by rewrite lookup_app_l|].
    rewrite !lookup_ge_None_2; [done|rewrite length_app; simpl; lia|lia].
Qed.

Lemma wp_vga_put_char hist cur c (Q : unit → vga → Prop) v :
  shows hist cur v →
  (∀ v', (let '(hist', cur') := put_cell (terminal_color v) (hist, cur) c in shows hist' cur' v') →
         terminal_color v' = terminal_color v → Q tt v') →
  wp (vga_put_char c) Q v.
Proof.
  intros (Hrows & Hcol & Hlen) HQ. unfold vga_put_char, put_cell in *. destruct (c =? NEWLINE).
  - by eapply wp_inc_row.
  - unfold vga_set_buf, inc_col, BUF_INDEX. pose proof Hrows as (Hl & Hr & _).
    change VGA_WIDTH with 80. wp_go. apply wp_wr_cell; [lia|].
    replace (Z.to_nat (v_row v * 80 + v_col v)) with (80 * (length hist `min` 24) + length cur)%nat by lia.
    pose proof (rows_put _ _ _ (vga_entry (u8 c) (terminal_color v)) Hrows Hlen) as Hput.
    wp_go. simpl. rewrite length_app in HQ. simpl in HQ. destruct (Z.eqb_spec (v_col v + 1) 80).
    + eapply wp_inc_row; [exact Hput|]. intros v' Hv' Hc'. apply HQ; [|done].
      by rewrite decide_True by lia.
    + wp_go. apply HQ; [|done]. rewrite decide_False by lia. split_and!.
      * exact Hput.
      * simpl. rewrite length_app. simpl. unfold u8. rewrite Z.mod_small by lia. lia.
      * rewrite length_app. simpl. lia.
Qed.

(** The characters of a text, one [vga_put_char] each. *)
Fixpoint put_chars (text : list Z) : M vga unit :=
  match text with
  | [] => mret tt
  | c :: text => vga_put_char c;; put_chars text
  end.

Lemma wp_put_chars text hist cur (Q : unit → vga → Prop) v :
  shows hist cur v →
  (∀ v', (let '(hist', cur') := foldl (put_cell (terminal_color v)) (hist, cur) text in shows hist' cur' v') →
         terminal_color v' = terminal_color v → Q tt v') →
  wp (put_chars text) Q v.
Proof.
  revert hist cur v. induction text as [|c text IH]; intros hist cur v Hv HQ; simpl in *.
  - wp_go. by apply HQ.
  - wp_go. eapply wp_vga_put_char; [done|]. intros v' Hv' Hc'.
    destruct (put_cell (terminal_color v) (hist, cur) c) as [hist' cur'] eqn:E.
    rewrite <-Hc' in HQ. eapply IH; [exact Hv'|]. intros v'' Hv'' Hc''. apply HQ; congruence.
Qed.

Lemma wp_vga_sync_cursor (Q : unit → vga → Prop) v :
  (∀ out, Q tt (Vga (v_row v) (v_col v) (terminal_color v) (terminal_buffer v) out)) → wp vga_sync_cursor Q v.
Proof. intros HQ. unfold vga_sync_cursor, outb. wp_go. apply HQ. Qed.

Lemma wp_vga_clean (Q : unit → vga → Prop) v :
  length (terminal_buffer v) = 2000%nat →
  (∀ v', shows [] [] v' → terminal_color v' = terminal_color v → Q tt v') → wp vga_clean Q v.
Proof.
  intros Hl HQ. unfold vga_clean, __vga_clean, set_cursor. change (VGA_WIDTH * VGA_HEIGHT) with 2000. wp_go.
  apply wp_blank_cells; [lia|simpl; lia|]. simpl. intros b Hbl Hin _.
  wp_go. apply wp_vga_sync_cursor. intros out. apply HQ; [|done].
  split; [|simpl; split; [done|lia]]. apply rows_init; [simpl; lia|done|]. simpl. intros j Hj. apply Hin. lia.
Qed.

(** C38: the screen shows the text.  After [vga_clean] and any sequence of
    characters, newlines, wrapped lines and scrolling included, the 25 rows of the
    window are exactly the last 25 lines of the text laid out at 80 columns, blank
    where nothing was written, and the cursor is behind the last character. *)
Theorem vga_shows_text text v :
  length (terminal_buffer v) = 2000%nat →
  wp (vga_clean;; put_chars text)
     (λ _ v', let '(hist, cur) := layout (terminal_color v) text in shows hist cur v') v.
Proof.
  intros Hl. wp_go. apply wp_vga_clean; [done|]. intros v1 Hv1 Hc1.
  eapply wp_put_chars; [done|]. intros v' Hv' _. unfold layout. by rewrite <-Hc1.
Qed.

(** ** Safety of every operation *)

Inductive vga_op :=
  | VClean | VPut (c : Z) | VDelete | VLeft | VRight | VUp | VDown | VColor (c : Z).

Definition vga_step (o : vga_op) : M vga unit :=
  match o with
  | VClean => vga_clean
  | VPut c => vga_put_char c;; vga_sync_cursor
  | VDelete => vga_delete
  | VLeft => vga_cursor_left
  | VRight => vga_cursor_right
  | VUp => vga_cursor_up
  | VDown => vga_cursor_down
  | VColor c => vga_set_color c
  end.

Fixpoint vga_run (os : list vga_op) : M vga unit :=
  match os with [] => mret tt | o :: os => vga_step o;; vga_run os end.

Definition on_screen (v : vga) : Prop :=
  length (terminal_buffer v) = 2000%nat ∧ 0 ≤ v_row v < 25 ∧ 0 ≤ v_col v < 80.

(** The position last written to the cursor registers of the display. *)
Definition hw_cursor (v : vga) : option Z :=
  match v_out v with
  | (0x3d5, hi) :: (0x3d4, 0x0e) :: (0x3d5, lo) :: (0x3d4, 0x0f) :: _ => Some (hi * 256 + lo)
  | _ => None
  end.

Definition synced (v : vga) : Prop := hw_cursor v = Some (80 * v_row v + v_col v).

Lemma wp_on_scroll (Q : unit → vga → Prop) v :
  on_screen v →
  (∀ b, length b = 2000%nat → Q tt (with_buf b v)) → wp vga_scroll_up Q v.
Proof. intros (Hl & ? & ?) HQ. apply wp_vga_scroll_up; [done|]. eauto. Qed.

Lemma wp_on_inc_row (Q : unit → vga → Prop) v :
  on_screen v → (∀ v', on_screen v' → Q tt v') → wp inc_row Q v.
Proof.
  intros Hv HQ. pose proof Hv as (Hl & Hr & Hc). unfold inc_row. change VGA_HEIGHT with 25. wp_go.
  destruct (Z.eqb_spec (v_row v + 1) 25).
  - apply wp_on_scroll; [done|]. intros b Hb. wp_go. apply HQ. unfold on_screen. simpl. lia.
  - wp_go. apply HQ. unfold on_screen. simpl. rewrite u8_small by lia. lia.
Qed.

Lemma wp_on_inc_col (Q : unit → vga → Prop) v :
  on_screen v → (∀ v', on_screen v' → Q tt v') → wp inc_col Q v.
Proof.
  intros Hv HQ. unfold inc_col. change VGA_WIDTH with 80. wp_go.
  destruct (Z.eqb_spec (v_col v + 1) 80); [by apply wp_on_inc_row|].
  destruct Hv as (Hl & Hr & Hc). wp_go. apply HQ. unfold on_screen. simpl. rewrite u8_small by lia. lia.
Qed.

Lemma wp_on_dec_col (Q : unit → vga → Prop) v :
  on_screen v → (∀ v', on_screen v' → Q tt v') → wp dec_col Q v.
Proof.
  intros (Hl & Hr & Hc) HQ. unfold dec_col, dec_row. change VGA_WIDTH with 80. wp_go.
  destruct (Z.eqb_spec (v_col v) 0); wp_go.
  - destruct (Z.eqb_spec (v_row v) 0); simpl; wp_go; apply HQ; unfold on_screen; simpl; [lia|].
    rewrite u8_small by lia. lia.
  - apply HQ. unfold on_screen. simpl. rewrite u8_small by lia. lia.
Qed.

Lemma wp_on_sync (Q : unit → vga → Prop) v :
  on_screen v → (∀ v', on_screen v' → synced v' → Q tt v') → wp vga_sync_cursor Q v.
Proof.
  intros (Hl & Hr & Hc) HQ. unfold vga_sync_cursor, outb, BUF_INDEX. change VGA_WIDTH with 80. wp_go.
  apply HQ; [by unfold on_screen|]. change (2 ^ 8 - 1) with (Z.ones 8).
  unfold synced, hw_cursor. cbn -[Z.land Z.ones Z.shiftr u8 u16 Z.mul Z.add]. f_equal.
  rewrite u16_small by lia. rewrite Z.land_ones, Z.shiftr_div_pow2 by lia.
  rewrite u8_small by (split; [apply Z.div_pos|apply Z.div_lt_upper_bound]; lia).
  change 256 with (2 ^ 8). pose proof (Z.div_mod (v_row v * 80 + v_col v) (2 ^ 8)). lia.
Qed.

Lemma vga_step_safe o v :
  on_screen v → wp (vga_step o) (λ _ v', on_screen v' ∧ (match o with VColor _ => v_out v' = v_out v | _ => synced v' end)) v.
Proof.
  intros Hv. pose proof Hv as (Hl & Hr & Hc). destruct o; simpl.
  - unfold vga_clean, __vga_clean, set_cursor. change (VGA_WIDTH * VGA_HEIGHT) with 2000. wp_go.
    apply wp_blank_cells; [lia|simpl; lia|]. intros b Hb _ _. apply wp_on_sync; [|done].
    unfold on_screen. simpl in *. lia.
  - unfold vga_put_char. wp_go. destruct (c =? NEWLINE); [by apply wp_on_inc_row; [|intros; apply wp_on_sync]|].
    unfold vga_set_buf, BUF_INDEX. change VGA_WIDTH with 80. wp_go. apply wp_wr_cell; [lia|].
    apply wp_on_inc_col; [|intros; by apply wp_on_sync]. unfold on_screen. simpl. rewrite length_insert. lia.
  - unfold vga_delete, __vga_cleanc, BUF_INDEX. change VGA_WIDTH with 80. wp_go. apply wp_on_dec_col; [done|].
    intros v' (Hl' & Hr' & Hc'). wp_go. apply wp_blank_cells; [lia|simpl; lia|]. intros b Hb _ _.
    apply wp_on_sync; [|done]. unfold on_screen. simpl. lia.
  - unfold vga_cursor_left. wp_go. apply wp_on_dec_col; [done|]. intros. by apply wp_on_sync.
  - unfold vga_cursor_right. wp_go. apply wp_on_inc_col; [done|]. intros. by apply wp_on_sync.
  - unfold vga_cursor_up, cursor_up. wp_go. apply wp_on_sync; [|done]. unfold on_screen. simpl.
    destruct (Z.eqb_spec (v_row v) 0); rewrite ?u8_small by lia; lia.
  - unfold vga_cursor_down, cursor_down. wp_go. apply wp_on_sync; [|done]. unfold on_screen. simpl.
    rewrite u8_small by lia. change VGA_HEIGHT with 25. destruct (Z.leb_spec 25 (v_row v + 1)); lia.
  - unfold vga_set_color. by wp_go.
Qed.

Lemma vga_run_safe os v :
  on_screen v → synced v → wp (vga_run os) (λ _ v', on_screen v' ∧ synced v') v.
Proof.
  revert v. induction os as [|o os IH]; intros v Hv Hs; simpl; [by wp_go|].
  wp_go. pose proof (vga_step_safe o v Hv) as Hst. destruct o; try (eapply wp_mono; [exact Hst|]; intros [] v' [??]; by apply IH).
  simpl. unfold vga_set_color. wp_go. by apply IH.
Qed.

(** from [vga_init] on a window of 80 x 25 cells, no sequence of screen
    operations (writing, deleting, moving the cursor, clearing) accesses a cell
    outside the window; the cursor stays on the screen and the position the display
    was told is the cursor's. *)
Theorem vga_ops_safe os v :
  length (terminal_buffer v) = 2000%nat →
  wp (vga_init;; vga_run os) (λ _ v', on_screen v' ∧ synced v') v.
Proof.
  intros Hl. unfold vga_init, set_cursor, vga_set_color, __vga_clean, vga_enable_cursor, outb.
  change (VGA_WIDTH * VGA_HEIGHT) with 2000. wp_go. apply wp_blank_cells; [lia|simpl; lia|].
  intros b Hb _ _. wp_go. apply wp_on_sync; [unfold on_screen; simpl in *; lia|].
  intros. by apply vga_run_safe.
Qed.

(** ** A concrete screen *)

Definition dark : vga := Vga 7 7 7 (replicate 2000 0) [].

Lemma vga_shows_text_witness :
  wp (vga_clean;; put_chars [104; 105; 10; 33]) (λ _ v',
    let '(hist, cur) := layout 7 [104; 105; 10; 33] in shows hist cur v') dark
  ∧ layout 7 [104; 105; 10; 33] = ([[1896; 1897]], [1825]).
Proof.
  split; [|reflexivity]. apply (vga_shows_text [104; 105; 10; 33] dark). apply length_replicate.
Defined.

Lemma vga_ops_safe_witness :
  wp (vga_init;; vga_run [VPut 65; VUp; VLeft; VDelete; VDown]) (λ _ v', on_screen v' ∧ synced v') dark.
Proof. apply (vga_ops_safe [VPut 65; VUp; VLeft; VDelete; VDown] dark). apply length_replicate. Defined.
