(* ===== verification/Keyboard.v ===== *)
(** * The keyboard

    Models the key tables of [kernel/include/drivers/keyboard.h], the scan code
    decoder and the ring buffer of [kernel/terminal.c], and the command queue of
    [kernel/drivers/keyboard.c] with the polling of [kernel/drivers/ps2.c].  The
    decoder keeps the modifier keys in [kb_status], puts characters into the ring
    buffer and hands function keys to the screen.  A scan code past the end of a
    table is a [Fault]. *)

From S2P Require Import Prelude QLib Vga.
From Stdlib Require Import ZArith Lia Ascii.
From stdpp Require Import base numbers gmap list.
Open Scope Z_scope.

Definition chr (a : ascii) : Z := Z.of_N (N_of_ascii a).
Arguments chr a%_char_scope.

(** ** Key values *)

Definition KB_ACK : Z := 0xFA.
Definition KB_RESEND : Z := 0xFE.
Definition KB_ERROR : Z := 0xFF.
Definition DisableScanning : Z := 0xF5.
Definition EnableScanning : Z := 0xF4.
Definition KNULL : Z := 0.
Definition TAB : Z := 9.
Definition ENTER : Z := 10.
Definition SPACE : Z := 32.
Definition F1 : Z := 0x84.
Definition F2 : Z := F1 + 1.
Definition F3 : Z := F2 + 1.
Definition F4 : Z := F3 + 1.
Definition F5 : Z := F4 + 1.
Definition F6 : Z := F5 + 1.
Definition F7 : Z := F6 + 1.
Definition F8 : Z := F7 + 1.
Definition F9 : Z := F8 + 1.
Definition F10 : Z := F9 + 1.
Definition F11 : Z := F10 + 1.
Definition F12 : Z := F11 + 1.
Definition ESC : Z := 0x90.
Definition CAPSLOCK : Z := ESC + 1.
Definition BACKSPACE : Z := CAPSLOCK + 1.
Definition NUMBER_LOCK : Z := BACKSPACE + 1.
Definition SCROLL_LOCK : Z := NUMBER_LOCK + 1.
Definition RIGHT_GUI : Z := SCROLL_LOCK + 1.
Definition APPS : Z := RIGHT_GUI + 1.
Definition END : Z := APPS + 1.
Definition HOME : Z := END + 1.
Definition INSERT : Z := HOME + 1.
Definition DELETE : Z := INSERT + 1.
Definition CURSOR_LEFT : Z := DELETE + 1.
Definition CURSOR_DOWN : Z := CURSOR_LEFT + 1.
Definition CURSOR_RIGHT : Z := CURSOR_DOWN + 1.
Definition CURSOR_UP : Z := CURSOR_RIGHT + 1.
Definition PAGE_DOWN : Z := CURSOR_UP + 1.
Definition PAGE_UP : Z := PAGE_DOWN + 1.
Definition LEFT_ALT : Z := 0xa1.
Definition LEFT_CTRL : Z := LEFT_ALT + 1.
Definition LEFT_SHIFT : Z := LEFT_CTRL + 1.
Definition RIGHT_ALT : Z := LEFT_SHIFT + 1.
Definition RIGHT_CTRL : Z := RIGHT_ALT + 1.
Definition RIGHT_SHIFT : Z := RIGHT_CTRL + 1.
Definition LEFT_GUI : Z := RIGHT_SHIFT + 1.
Definition M_WWW_SEARCH : Z := 0xa8.
Definition M_PREVIOUS_TRACK : Z := M_WWW_SEARCH + 1.
Definition M_WWW_FAVORITES : Z := M_PREVIOUS_TRACK + 1.
Definition M_WWW_REFRESH : Z := M_WWW_FAVORITES + 1.
Definition M_VOLUME_DOWN : Z := M_WWW_REFRESH + 1.
Definition M_MUTE : Z := M_VOLUME_DOWN + 1.
Definition M_WWW_STOP : Z := M_MUTE + 1.
Definition M_CALCULATOR : Z := M_WWW_STOP + 1.
Definition M_WWW_FORWARD : Z := M_CALCULATOR + 1.
Definition M_VOLUME_UP : Z := M_WWW_FORWARD + 1.
Definition M_PLAY_PAUSE : Z := M_VOLUME_UP + 1.
Definition M_WWW_BACK : Z := M_PLAY_PAUSE + 1.
Definition M_WWW_HOME : Z := M_WWW_BACK + 1.
Definition M_STOP : Z := M_WWW_HOME + 1.
Definition M_MY_COMPUTER : Z := M_STOP + 1.
Definition M_EMAIL : Z := M_MY_COMPUTER + 1.
Definition M_NEXT_TRACK : Z := M_EMAIL + 1.
Definition M_MEDIA_SELECT : Z := M_NEXT_TRACK + 1.
Definition A_POWER : Z := 0xba.
Definition A_SLEEP : Z := A_POWER + 1.
Definition A_WAKE : Z := A_SLEEP + 1.
Definition KB_NULL : Z := 0.

(** ** Key tables, indexed by scan code (the row comments are hexadecimal) *)

Definition asciiNonShift1 : list Z := [
  (* 00 *) KNULL; F9; KNULL; F5; F3; F1; F2; F12;
  (* 08 *) KNULL; F10; F8; F6; F4; TAB; chr "`"; KNULL;
  (* 10 *) KNULL; LEFT_ALT; LEFT_SHIFT; KNULL; LEFT_CTRL; chr "q"; chr "1"; KNULL;
  (* 18 *) KNULL; KNULL; chr "z"; chr "s"; chr "a"; chr "w"; chr "2"; KNULL;
  (* 20 *) KNULL; chr "c"; chr "x"; chr "d"; chr "e"; chr "4"; chr "3"; KNULL;
  (* 28 *) KNULL; SPACE; chr "v"; chr "f"; chr "t"; chr "r"; chr "5"; KNULL;
  (* 30 *) KNULL; chr "n"; chr "b"; chr "h"; chr "g"; chr "y"; chr "6"; KNULL;
  (* 38 *) KNULL; KNULL; chr "m"; chr "j"; chr "u"; chr "7"; chr "8"; KNULL;
  (* 40 *) KNULL; chr ","; chr "k"; chr "i"; chr "o"; chr "0"; chr "9"; KNULL;
  (* 48 *) KNULL; chr "."; chr "/"; chr "l"; chr ";"; chr "p"; chr "-"; KNULL;
  (* 50 *) KNULL; KNULL; chr "'"; KNULL; chr "["; chr "="; KNULL; KNULL;
  (* 58 *) CAPSLOCK; RIGHT_SHIFT; ENTER; chr "]"; KNULL; chr "\"; KNULL; KNULL;
  (* 60 *) KNULL; KNULL; KNULL; KNULL; KNULL; KNULL; BACKSPACE; KNULL;
  (* 68 *) KNULL; chr "1"; KNULL; chr "4"; chr "7"; KNULL; KNULL; KNULL;
  (* 70 *) chr "0"; chr "."; chr "2"; chr "5"; chr "6"; chr "8"; ESC; NUMBER_LOCK;
  (* 78 *) F11; chr "+"; chr "3"; chr "-"; chr "*"; chr "9"; SCROLL_LOCK; KNULL;
  (* 80 *) KNULL; KNULL; KNULL; F7].

Definition ascii2 : list Z := [
  (* 00 *) KNULL; KNULL; KNULL; KNULL; KNULL; KNULL; KNULL; KNULL;
  (* 08 *) KNULL; KNULL; KNULL; KNULL; KNULL; KNULL; KNULL; KNULL;
  (* 10 *) M_WWW_SEARCH; RIGHT_ALT; KNULL; KNULL; RIGHT_CTRL; M_PREVIOUS_TRACK; KNULL; KNULL;
  (* 18 *) M_WWW_FAVORITES; KNULL; KNULL; KNULL; KNULL; KNULL; KNULL; LEFT_GUI;
  (* 20 *) M_WWW_REFRESH; M_VOLUME_DOWN; KNULL; M_MUTE; KNULL; KNULL; KNULL; RIGHT_GUI;
  (* 28 *) M_WWW_STOP; KNULL; KNULL; M_CALCULATOR; KNULL; KNULL; KNULL; APPS;
  (* 30 *) M_WWW_FORWARD; KNULL; M_VOLUME_UP; KNULL; M_PLAY_PAUSE; KNULL; KNULL; A_POWER;
  (* 38 *) M_WWW_BACK; KNULL; M_WWW_HOME; M_STOP; KNULL; KNULL; KNULL; A_SLEEP;
  (* 40 *) M_MY_COMPUTER; KNULL; KNULL; KNULL; KNULL; KNULL; KNULL; KNULL;
  (* 48 *) M_EMAIL; KNULL; chr "/"; KNULL; KNULL; M_NEXT_TRACK; KNULL; KNULL;
  (* 50 *) M_MEDIA_SELECT; KNULL; KNULL; KNULL; KNULL; KNULL; KNULL; KNULL;
  (* 58 *) KNULL; KNULL; ENTER; KNULL; KNULL; KNULL; A_WAKE; KNULL;
  (* 60 *) KNULL; KNULL; KNULL; KNULL; KNULL; KNULL; KNULL; KNULL;
  (* 68 *) KNULL; END; KNULL; CURSOR_LEFT; HOME; KNULL; KNULL; KNULL;
  (* 70 *) INSERT; DELETE; CURSOR_DOWN; KNULL; CURSOR_RIGHT; CURSOR_UP; KNULL; KNULL;
  (* 78 *) KNULL; KNULL; PAGE_DOWN; KNULL; KNULL; KNULL].

Definition asciiShift1 : list Z := [
  (* 00 *) KNULL; F9; KNULL; F5; F3; F1; F2; F12;
  (* 08 *) KNULL; F10; F8; F6; F4; TAB; chr "`"; KNULL;
  (* 10 *) KNULL; LEFT_ALT; LEFT_SHIFT; KNULL; LEFT_CTRL; chr "Q"; chr "!"; KNULL;
  (* 18 *) KNULL; KNULL; chr "Z"; chr "S"; chr "A"; chr "W"; chr "@"; KNULL;
  (* 20 *) KNULL; chr "C"; chr "X"; chr "D"; chr "E"; chr "$"; chr "#"; KNULL;
  (* 28 *) KNULL; SPACE; chr "V"; chr "F"; chr "T"; chr "R"; chr "%"; KNULL;
  (* 30 *) KNULL; chr "N"; chr "B"; chr "H"; chr "G"; chr "Y"; chr "^"; KNULL;
  (* 38 *) KNULL; KNULL; chr "M"; chr "J"; chr "U"; chr "&"; chr "*"; KNULL;
  (* 40 *) KNULL; chr "<"; chr "K"; chr "I"; chr "O"; chr ")"; chr "("; KNULL;
  (* 48 *) KNULL; chr ">"; chr "?"; chr "L"; chr ":"; chr "P"; chr "_"; KNULL;
  (* 50 *) KNULL; KNULL; chr "034"; KNULL; chr "{"; chr "+"; KNULL; KNULL;
  (* 58 *) CAPSLOCK; RIGHT_SHIFT; ENTER; chr "}"; KNULL; chr "|"; KNULL; KNULL;
  (* 60 *) KNULL; KNULL; KNULL; KNULL; KNULL; KNULL; BACKSPACE; KNULL;
  (* 68 *) KNULL; chr "1"; KNULL; chr "4"; chr "7"; KNULL; KNULL; KNULL;
  (* 70 *) chr "0"; chr "."; chr "2"; chr "5"; chr "6"; chr "8"; ESC; NUMBER_LOCK;
  (* 78 *) F11; chr "+"; chr "3"; chr "-"; chr "*"; chr "9"; SCROLL_LOCK; KNULL;
  (* 80 *) KNULL; KNULL; KNULL; F7].

(** ** State *)

Record kb_status := KbStatus {
  e0 : bool; f0 : bool;
  lShift : bool; rShift : bool; lCtrl : bool; rCtrl : bool; lGui : bool;
  lAlt : bool; rAlt : bool; numLk : bool; capsLK : bool; scrollLk : bool
}.

Inductive key_type := CHAR | F | FN | META | MEDIA | ACPI.
#[export] Instance key_type_eq_dec : EqDecision key_type.
Proof. solve_decision. Defined.

Definition KB_BUFFER_SIZE : Z := 256.

Record kb_queue := KbQueue { q_buffer : list Z; q_header : Z; q_tail : Z }.

(** The decoder's state, the screen it drives and the number of interrupts
    acknowledged at the local APIC. *)
Record kbd := Kbd { kbStatus : kb_status; kb_buf : kb_queue; kb_vga : vga; kb_eoi : Z }.

Definition kbStatus0 : kb_status :=
  KbStatus false false false false false false false false false false false false.

Definition upd_status (f : kb_status → kb_status) : M kbd unit :=
  modify (λ k, Kbd (f (kbStatus k)) (kb_buf k) (kb_vga k) (kb_eoi k)).
Definition on_queue {A} (m : M kb_queue A) : M kbd A :=
  zoom kb_buf (λ q k, Kbd (kbStatus k) q (kb_vga k) (kb_eoi k)) m.
Definition on_vga {A} (m : M vga A) : M kbd A :=
  zoom kb_vga (λ v k, Kbd (kbStatus k) (kb_buf k) v (kb_eoi k)) m.

(** ** The ring buffer *)

Definition kb_clear : M kb_queue unit := modify (λ q, KbQueue (q_buffer q) (q_header q) (q_header q)).

Definition q_append (c : Z) : M kb_queue unit :=
  q ← get;
  _ ← deref (q_buffer q !! Z.to_nat (q_tail q));
  modify (λ q, KbQueue (<[Z.to_nat (q_tail q) := u8 c]> (q_buffer q)) (q_header q)
                       ((q_tail q + 1) mod KB_BUFFER_SIZE)).

(** The result is the byte of the C [char]. *)
Definition q_pop : M kb_queue Z :=
  q ← get;
  if q_header q =? q_tail q then mret KB_NULL
  else
    res ← deref (q_buffer q !! Z.to_nat (q_header q));
    modify (λ q, KbQueue (q_buffer q) ((q_header q + 1) mod KB_BUFFER_SIZE) (q_tail q));;
    mret res.

(** ** Decoding *)

Definition meta_set (type : Z) (s : bool) (k : kb_status) : kb_status :=
  let '(KbStatus e f ls rs lc rc lg la ra nl cl sl) := k in
  if type =? LEFT_ALT then KbStatus e f ls rs lc rc lg s ra nl cl sl
  else if type =? LEFT_CTRL then KbStatus e f ls rs s rc lg la ra nl cl sl
  else if type =? LEFT_SHIFT then KbStatus e f s rs lc rc lg la ra nl cl sl
  else if type =? RIGHT_ALT then KbStatus e f ls rs lc rc lg la s nl cl sl
  else if type =? RIGHT_CTRL then KbStatus e f ls rs lc s lg la ra nl cl sl
  else if type =? RIGHT_SHIFT then KbStatus e f ls s lc rc lg la ra nl cl sl
  else if type =? LEFT_GUI then KbStatus e f ls rs lc rc s la ra nl cl sl
  else k.

Definition kb_meta (type : Z) (s : bool) : M kbd unit := upd_status (meta_set type s).

Definition toggle_num (k : kb_status) : kb_status :=
  let '(KbStatus e f ls rs lc rc lg la ra nl cl sl) := k in KbStatus e f ls rs lc rc lg la ra (negb nl) cl sl.
Definition toggle_caps (k : kb_status) : kb_status :=
  let '(KbStatus e f ls rs lc rc lg la ra nl cl sl) := k in KbStatus e f ls rs lc rc lg la ra nl (negb cl) sl.
Definition toggle_scroll (k : kb_status) : kb_status :=
  let '(KbStatus e f ls rs lc rc lg la ra nl cl sl) := k in KbStatus e f ls rs lc rc lg la ra nl cl (negb sl).
Definition set_e0 (b : bool) (k : kb_status) : kb_status :=
  let '(KbStatus e f ls rs lc rc lg la ra nl cl sl) := k in KbStatus b f ls rs lc rc lg la ra nl cl sl.
Definition set_f0 (b : bool) (k : kb_status) : kb_status :=
  let '(KbStatus e f ls rs lc rc lg la ra nl cl sl) := k in KbStatus e b ls rs lc rc lg la ra nl cl sl.

Definition kb_fn (scancode : Z) : M kbd unit :=
  if scancode =? NUMBER_LOCK then upd_status toggle_num
  else if scancode =? CAPSLOCK then upd_status toggle_caps
  else if scancode =? SCROLL_LOCK then upd_status toggle_scroll
  else if scancode =? CURSOR_LEFT then on_vga vga_cursor_left
  else if scancode =? CURSOR_UP then on_vga vga_cursor_up
  else if scancode =? CURSOR_RIGHT then on_vga vga_cursor_right
  else if scancode =? CURSOR_DOWN then on_vga vga_cursor_down
  else if scancode =? BACKSPACE then on_vga vga_delete
  else mret tt.

Definition kb_key_type (value : Z) : key_type :=
  if value <? F1 then CHAR
  else if (LEFT_ALT <=? value) && (value <=? LEFT_GUI) then META
  else if (value <=? PAGE_UP) && (ESC <=? value) then FN
  else if (M_WWW_SEARCH <=? value) && (value <=? M_MEDIA_SELECT) then MEDIA
  else if (value <=? F12) && (F1 <=? value) then F
  else ACPI.

Definition kb_press_handle (r : Z) : M kbd unit :=
  upd_status (set_e0 false);;
  match kb_key_type r with
  | CHAR => on_queue (q_append r)
  | META => kb_meta r true
  | FN => kb_fn r
  | _ => mret tt
  end.

Definition kb_release_handle (r : Z) : M kbd unit :=
  upd_status (set_e0 false);;
  upd_status (set_f0 false);;
  match kb_key_type r with
  | META => kb_meta r false
  | _ => mret tt
  end.

Definition table_get (t : list Z) (scancode : Z) : M kbd Z := deref (t !! Z.to_nat scancode).

Definition kb_sc_parse (scancode : Z) : M kbd unit :=
  if scancode =? 0xe0 then upd_status (set_e0 true)
  else if scancode =? 0xf0 then upd_status (set_f0 true)
  else
    k ← get;
    if negb (f0 (kbStatus k)) then
      r ← (if negb (e0 (kbStatus k)) then
             if lShift (kbStatus k) || rShift (kbStatus k)
             then table_get asciiShift1 scancode
             else table_get asciiNonShift1 scancode
           else table_get ascii2 scancode);
      assertk (negb (r =? KNULL));;
      kb_press_handle r
    else
      r ← (if e0 (kbStatus k) then table_get ascii2 scancode else table_get asciiShift1 scancode);
      assertk (negb (r =? KNULL));;
      kb_release_handle r.

(** The interrupt: reads the scan code, decodes it, acknowledges. *)
Definition kb_isr (data : Z) : M kbd unit :=
  kb_sc_parse data;;
  modify (λ k, Kbd (kbStatus k) (kb_buf k) (kb_vga k) (kb_eoi k + 1)).

Fixpoint kb_isrs (codes : list Z) : M kbd unit :=
  match codes with [] => mret tt | c :: codes => kb_isr c;; kb_isrs codes end.

(** ** The ring buffer holds a sequence of fewer than 256 characters *)

Definition ring (q : kb_queue) (l : list Z) : Prop :=
  length (q_buffer q) = 256%nat ∧ 0 ≤ q_header q < 256 ∧ Z.of_nat (length l) < 256 ∧
  q_tail q = (q_header q + Z.of_nat (length l)) mod 256 ∧
  ∀ i x, l !! i = Some x → q_buffer q !! Z.to_nat ((q_header q + Z.of_nat i) mod 256) = Some x.

Lemma ring_mod_ne a i j : 0 ≤ i < j → j < 256 → (a + i) mod 256 ≠ (a + j) mod 256.
Proof.
  intros Hi Hj E. pose proof (Z.div_mod (a + i) 256 ltac:(lia)). pose proof (Z.div_mod (a + j) 256 ltac:(lia)).
  nia.
Qed.

Lemma wp_q_append q l c (Q : unit → kb_queue → Prop) :
  ring q l → Z.of_nat (length l) < 255 → (∀ q', ring q' (l ++ [u8 c]) → Q tt q') → wp (q_append c) Q q.
Proof.
  intros (Hb & Hh & Hl & Ht & Hi) H255 HQ. unfold q_append. change KB_BUFFER_SIZE with 256.
  pose proof (Z.mod_pos_bound (q_header q + Z.of_nat (length l)) 256 ltac:(lia)) as Hm.
  destruct (lookup_lt_is_Some_2 (q_buffer q) (Z.to_nat (q_tail q))) as [y Hy]; [lia|].
  wp_go; [exact Hy|]. apply HQ. unfold ring. simpl. rewrite length_insert, length_app. simpl.
  split_and!; [done|lia|lia|lia| |].
  { rewrite Ht, Zplus_mod_idemp_l. f_equal. lia. }
  intros i x Hx. destruct (decide (i = length l)) as [->|Hne].
  - rewrite lookup_app_r, Nat.sub_diag in Hx by lia. injection Hx as <-. rewrite Ht.
    rewrite list_lookup_insert_eq by lia. done.
  - assert (i < length l)%nat. { apply lookup_lt_Some in Hx. rewrite length_app in Hx. simpl in Hx. lia. }
    rewrite lookup_app_l in Hx by lia. pose proof (Hi i x Hx) as Hold.
    pose proof (ring_mod_ne (q_header q) (Z.of_nat i) (Z.of_nat (length l)) ltac:(lia) ltac:(lia)).
    pose proof (Z.mod_pos_bound (q_header q + Z.of_nat i) 256 ltac:(lia)).
    rewrite list_lookup_insert_ne by lia. done.
Qed.

Lemma wp_q_pop q x l (Q : Z → kb_queue → Prop) :
  ring q (x :: l) → (∀ q', ring q' l → Q x q') → wp q_pop Q q.
Proof.
  intros (Hb & Hh & Hl & Ht & Hi) HQ. unfold q_pop. change KB_BUFFER_SIZE with 256. wp_go.
  simpl length in *.
  assert (q_header q ≠ q_tail q).
  { rewrite Ht. pose proof (ring_mod_ne (q_header q) 0 (Z.of_nat (S (length l))) ltac:(lia) ltac:(lia)) as Hne.
    rewrite Z.add_0_r, (Z.mod_small (q_header q)) in Hne by lia. done. }
  destruct (Z.eqb_spec (q_header q) (q_tail q)); [done|]. wp_go.
  - specialize (Hi 0%nat x eq_refl). rewrite Z.add_0_r, Z.mod_small in Hi by lia. exact Hi.
  - apply HQ. unfold ring. simpl. pose proof (Z.mod_pos_bound (q_header q + 1) 256 ltac:(lia)).
    split_and!; [done|lia|lia|lia| |].
    + rewrite Zplus_mod_idemp_l, Ht. f_equal. lia.
    + intros i y Hy. rewrite Zplus_mod_idemp_l. rewrite <-(Hi (S i) y Hy). do 3 f_equal. lia.
Qed.

Lemma q_pop_empty q : ring q [] → q_pop q = Ok (KB_NULL, q).
Proof.
  intros (Hb & Hh & Hl & Ht & Hi). unfold q_pop. simpl in Ht. rewrite Z.add_0_r, Z.mod_small in Ht by lia.
  unfold mbind, M_bind, get. by rewrite Ht, Z.eqb_refl.
Qed.

(** ** Key strokes

    A stroke is a key pressed or released; keys of the second table have the
    prefix 0xe0, releases the prefix 0xf0. *)

Inductive stroke := Down (ext : bool) (sc : Z) | Up (ext : bool) (sc : Z).

Definition scan_codes (s : stroke) : list Z :=
  match s with
  | Down ext sc => (if ext then [0xe0] else []) ++ [sc]
  | Up ext sc => (if ext then [0xe0] else []) ++ [0xf0; sc]
  end.

Definition vkey (ext shift : bool) (sc : Z) : Z :=
  default KNULL ((if ext then ascii2 else if shift then asciiShift1 else asciiNonShift1) !! Z.to_nat sc).

Definition known_key (ext : bool) (sc : Z) : bool :=
  (0 <=? sc) && negb (vkey ext false sc =? KNULL).

Definition known (s : stroke) : bool := match s with Down ext sc | Up ext sc => known_key ext sc end.

(** The modifier keys held and the characters typed. *)
Definition spec_stroke (t : gset Z * list Z) (s : stroke) : gset Z * list Z :=
  let '(held, typed) := t in
  match s with
  | Down ext sc =>
      let key := vkey ext false sc in
      match kb_key_type key with
      | META => ({[key]} ∪ held, typed)
      | CHAR =>
          let shift := bool_decide (LEFT_SHIFT ∈ held) || bool_decide (RIGHT_SHIFT ∈ held) in
          (held, typed ++ [vkey ext shift sc])
      | _ => (held, typed)
      end
  | Up ext sc =>
      let key := vkey ext false sc in
      match kb_key_type key with
      | META => (held ∖ {[key]}, typed)
      | _ => (held, typed)
      end
  end.

Definition mods (k : kb_status) (held : gset Z) : Prop :=
  lAlt k = bool_decide (LEFT_ALT ∈ held) ∧ lCtrl k = bool_decide (LEFT_CTRL ∈ held) ∧
  lShift k = bool_decide (LEFT_SHIFT ∈ held) ∧ rAlt k = bool_decide (RIGHT_ALT ∈ held) ∧
  rCtrl k = bool_decide (RIGHT_CTRL ∈ held) ∧ rShift k = bool_decide (RIGHT_SHIFT ∈ held) ∧
  lGui k = bool_decide (LEFT_GUI ∈ held).

Definition kb_rep (k : kbd) (held : gset Z) (typed : list Z) : Prop :=
  e0 (kbStatus k) = false ∧ f0 (kbStatus k) = false ∧ mods (kbStatus k) held ∧
  ring (kb_buf k) typed ∧ on_screen (kb_vga k).

(** The shifted and the plain table name the same keys, and only characters
    depend on the shift keys; no table reaches the prefix codes. *)
Definition same_key (sc : Z) : bool :=
  let s := vkey false true sc in let n := vkey false false sc in
  (u8 s =? s) && (u8 n =? n) && (u8 (vkey true false sc) =? vkey true false sc) &&
  match kb_key_type n with
  | CHAR => (s <? F1) && Bool.eqb (s =? KNULL) (n =? KNULL)
  | _ => s =? n
  end.

Lemma tables_checked : forallb same_key (seqZ 0 132) = true.
Proof. vm_compute. reflexivity. Qed.

Lemma known_range ext sc : known_key ext sc = true → 0 ≤ sc < 132.
Proof.
  unfold known_key, vkey. intros [H0 Hv]%andb_prop. split; [lia|].
  destruct (decide (sc < 132)); [done|]. rewrite lookup_ge_None_2 in Hv; [done|].
  destruct ext; vm_compute length; lia.
Qed.

Lemma known_same_key ext sc : known_key ext sc = true → same_key sc = true.
Proof.
  intros H%known_range. pose proof tables_checked as Hc. rewrite forallb_forall in Hc.
  apply Hc, list_elem_of_In, elem_of_seqZ. lia.
Qed.

Lemma vkey_lookup ext shift sc : vkey ext shift sc ≠ KNULL →
  (if ext then ascii2 else if shift then asciiShift1 else asciiNonShift1) !! Z.to_nat sc = Some (vkey ext shift sc).
Proof. unfold vkey. by destruct (_ !! _). Qed.

Lemma vkey_shift ext shift sc : known_key ext sc = true →
  vkey ext shift sc ≠ KNULL ∧ kb_key_type (vkey ext shift sc) = kb_key_type (vkey ext false sc) ∧
  (kb_key_type (vkey ext false sc) ≠ CHAR → vkey ext shift sc = vkey ext false sc) ∧
  u8 (vkey ext shift sc) = vkey ext shift sc.
Proof.
  intros Hk. pose proof (known_same_key _ _ Hk) as Hs. unfold known_key in Hk. unfold same_key in Hs.
  apply andb_prop in Hk as [_ Hk]. apply andb_prop in Hs as [[[Hu1 Hu2]%andb_prop Hu3]%andb_prop Hs].
  assert (vkey ext false sc ≠ KNULL) as Hn by (intros E; by rewrite E in Hk).
  destruct ext; [change (vkey true shift sc) with (vkey true false sc); split_and!; [done|done|done|lia]|].
  destruct shift; [|split_and!; [done|done|done|lia]].
  destruct (kb_key_type (vkey false false sc)) eqn:E; try (apply Z.eqb_eq in Hs; rewrite Hs; split_and!; [done|done|done|lia]).
  apply andb_prop in Hs as [Hs1 Hs2]. split_and!; [|by unfold kb_key_type; rewrite Hs1|done|lia].
  intros E'. rewrite E' in Hs2. change (KNULL =? KNULL) with true in Hs2.
  destruct (Z.eqb_spec (vkey false false sc) KNULL); done.
Qed.

Lemma in_press (x r : Z) (held : gset Z) :
  bool_decide (x ∈ {[r]} ∪ held) = (x =? r) || bool_decide (x ∈ held).
Proof. destruct (Z.eqb_spec x r); simpl; [|apply bool_decide_ext]; [apply bool_decide_eq_true|]; set_solver. Qed.

Lemma in_release (x r : Z) (held : gset Z) :
  bool_decide (x ∈ held ∖ {[r]}) = negb (x =? r) && bool_decide (x ∈ held).
Proof. destruct (Z.eqb_spec x r); simpl; [apply bool_decide_eq_false|apply bool_decide_ext]; set_solver. Qed.

Lemma kb_type_meta r : kb_key_type r = META →
  r = LEFT_ALT ∨ r = LEFT_CTRL ∨ r = LEFT_SHIFT ∨ r = RIGHT_ALT ∨ r = RIGHT_CTRL ∨ r = RIGHT_SHIFT ∨ r = LEFT_GUI.
Proof.
  unfold kb_key_type. destruct (r <? F1); [done|]. destruct (LEFT_ALT <=? r) eqn:E1, (r <=? LEFT_GUI) eqn:E2; simpl;
    try (repeat case_match; done).
  intros _. apply Z.leb_le in E1, E2. unfold LEFT_GUI, RIGHT_SHIFT, RIGHT_CTRL, RIGHT_ALT, LEFT_SHIFT, LEFT_CTRL, LEFT_ALT in *. lia.
Qed.

Lemma mods_meta st held r s : kb_key_type r = META → mods st held →
  mods (meta_set r s st) (if s then {[r]} ∪ held else held ∖ {[r]}).
Proof.
  intros Hr (H1 & H2 & H3 & H4 & H5 & H6 & H7). destruct st. simpl in *. subst.
  destruct (kb_type_meta r Hr) as [->|[->|[->|[->|[->|[->| ->]]]]]], s;
    unfold mods; simpl; rewrite ?in_press, ?in_release; done.
Qed.

Lemma mods_set_e0 st held b : mods st held → mods (set_e0 b st) held.
Proof. by destruct st. Qed.
Lemma mods_set_f0 st held b : mods st held → mods (set_f0 b st) held.
Proof. by destruct st. Qed.
Lemma meta_prefix r s st : e0 (meta_set r s st) = e0 st ∧ f0 (meta_set r s st) = f0 st.
Proof. destruct st. unfold meta_set. by repeat case_match. Qed.

Lemma wp_kb_fn r k (Q : unit → kbd → Prop) held typed :
  kb_rep k held typed → (∀ k', kb_rep k' held typed → Q tt k') → wp (kb_fn r) Q k.
Proof.
  intros (He & Hf & Hm & Hr & Hv) HQ. unfold kb_fn, upd_status, on_vga.
  repeat match goal with |- wp (if ?b then _ else _) _ _ => destruct b end; wp_go;
    try (apply HQ; unfold kb_rep; simpl; by destruct (kbStatus k)); try (by apply HQ).
  all: match goal with
       | |- wp vga_cursor_left _ _ => pose proof (vga_step_safe VLeft _ Hv) as Hs
       | |- wp vga_cursor_up _ _ => pose proof (vga_step_safe VUp _ Hv) as Hs
       | |- wp vga_cursor_right _ _ => pose proof (vga_step_safe VRight _ Hv) as Hs
       | |- wp vga_cursor_down _ _ => pose proof (vga_step_safe VDown _ Hv) as Hs
       | |- wp vga_delete _ _ => pose proof (vga_step_safe VDelete _ Hv) as Hs
       end; eapply wp_mono; [exact Hs|]; intros [] v' [??]; by apply HQ.
Qed.

(** The state after the prefix codes of a stroke. *)
Definition prefixed (ext rel : bool) (k : kbd) : kbd :=
  Kbd (set_f0 rel (set_e0 ext (kbStatus k))) (kb_buf k) (kb_vga k) (kb_eoi k + (if ext then 1 else 0) + (if rel then 1 else 0)).

Lemma wp_kb_isrs_app l1 l2 k (Q : unit → kbd → Prop) :
  wp (kb_isrs l1) (λ _ k', wp (kb_isrs l2) Q k') k → wp (kb_isrs (l1 ++ l2)) Q k.
Proof.
  revert k. induction l1 as [|c l1 IH]; intros k H; simpl in *; [done|].
  apply wp_bind. eapply wp_mono; [exact (proj1 (wp_bind _ _ _ _) H)|]. intros [] k'. apply IH.
Qed.

Lemma wp_isr_prefix c rest k k' (Q : unit → kbd → Prop) :
  kb_isr c k = Ok (tt, k') → wp (kb_isrs rest) Q k' → wp (kb_isrs (c :: rest)) Q k.
Proof. intros E H. simpl. apply wp_bind. by eapply wp_intro. Qed.

Lemma wp_isr_last c k (Q : unit → kbd → Prop) : wp (kb_isr c) Q k → wp (kb_isrs [c]) Q k.
Proof. intros H. simpl. apply wp_bind. eapply wp_mono; [exact H|]. intros [] ? ?. by wp_go. Qed.

Lemma wp_prefixed s k (Q : unit → kbd → Prop) held typed :
  kb_rep k held typed →
  (let '(ext, rel, sc) := match s with Down e sc => (e, false, sc) | Up e sc => (e, true, sc) end in
   wp (kb_isr sc) Q (prefixed ext rel k)) →
  wp (kb_isrs (scan_codes s)) Q k.
Proof.
  intros (He & Hf & _). destruct k as [st q v n]. destruct st. simpl in He, Hf. subst.
  unfold prefixed. destruct s as [[] sc|[] sc]; cbn -[kb_isr wp kb_isrs Z.add]; rewrite ?Z.add_0_r; intros H;
    repeat (eapply wp_isr_prefix; [reflexivity|]); by apply wp_isr_last.
Qed.

Lemma wp_press r k held typed (Q : unit → kbd → Prop) :
  f0 (kbStatus k) = false → mods (kbStatus k) held → ring (kb_buf k) typed → on_screen (kb_vga k) →
  (kb_key_type r = CHAR → Z.of_nat (length typed) < 255) →
  (∀ k', kb_rep k' (if decide (kb_key_type r = META) then {[r]} ∪ held else held)
                   (if decide (kb_key_type r = CHAR) then typed ++ [u8 r] else typed) → Q tt k') →
  wp (kb_press_handle r) Q k.
Proof.
  intros Hf Hm Hr Hv Hroom HQ. unfold kb_press_handle, kb_meta, upd_status, on_queue. wp_go.
  assert (kb_rep (Kbd (set_e0 false (kbStatus k)) (kb_buf k) (kb_vga k) (kb_eoi k)) held typed) as Hrep.
  { unfold kb_rep. simpl. split_and!; try done; try by destruct (kbStatus k). }
  destruct (kb_key_type r) eqn:E; simpl in HQ; wp_go; try (by apply HQ).
  - apply (wp_q_append _ typed); [done|by apply Hroom|]. intros q' Hq'. apply HQ. unfold kb_rep in *. simpl in *. tauto.
  - by eapply wp_kb_fn.
  - apply HQ. unfold kb_rep in *. simpl in *. destruct Hrep as (?&?&?&?&?). destruct (meta_prefix r true (set_e0 false (kbStatus k))) as [-> ->].
    split_and!; try done. by apply (mods_meta _ _ _ true).
Qed.

Lemma wp_release r k held typed (Q : unit → kbd → Prop) :
  mods (kbStatus k) held → ring (kb_buf k) typed → on_screen (kb_vga k) →
  (∀ k', kb_rep k' (if decide (kb_key_type r = META) then held ∖ {[r]} else held) typed → Q tt k') →
  wp (kb_release_handle r) Q k.
Proof.
  intros Hm Hr Hv HQ. unfold kb_release_handle, kb_meta, upd_status. wp_go.
  assert (kb_rep (Kbd (set_f0 false (set_e0 false (kbStatus k))) (kb_buf k) (kb_vga k) (kb_eoi k)) held typed) as Hrep.
  { unfold kb_rep. simpl. split_and!; try done; try by destruct (kbStatus k). }
  destruct (kb_key_type r) eqn:E; simpl in HQ; wp_go; try (by apply HQ).
  apply HQ. unfold kb_rep in *. simpl in *. destruct Hrep as (?&?&?&?&?).
  destruct (meta_prefix r false (set_f0 false (set_e0 false (kbStatus k)))) as [-> ->].
  split_and!; try done. by apply (mods_meta _ _ _ false).
Qed.

Lemma wp_table_get t sc r k (Q : Z → kbd → Prop) : t !! Z.to_nat sc = Some r → Q r k → wp (table_get t sc) Q k.
Proof. intros E HQ. unfold table_get. by wp_go. Qed.

Lemma kb_rep_eoi k held typed n : kb_rep k held typed → kb_rep (Kbd (kbStatus k) (kb_buf k) (kb_vga k) n) held typed.
Proof. by destruct k. Qed.

Lemma prefixed_status ext rel k : e0 (kbStatus (prefixed ext rel k)) = ext ∧ f0 (kbStatus (prefixed ext rel k)) = rel ∧
  lShift (kbStatus (prefixed ext rel k)) = lShift (kbStatus k) ∧ rShift (kbStatus (prefixed ext rel k)) = rShift (kbStatus k).
Proof. unfold prefixed. simpl. by destruct (kbStatus k). Qed.

Lemma stroke_step s k held typed :
  kb_rep k held typed → known s = true → Z.of_nat (length typed) < 255 →
  wp (kb_isrs (scan_codes s)) (λ _ k', let '(held', typed') := spec_stroke (held, typed) s in kb_rep k' held' typed') k.
Proof.
  intros Hk Hs Hroom. apply (wp_prefixed s k _ held typed Hk). pose proof Hk as (_ & _ & Hm & Hr & Hv).
  destruct s as [ext sc|ext sc]; simpl in Hs; pose proof (known_range _ _ Hs) as Hrng;
    unfold kb_isr, kb_sc_parse; wp_go;
    (destruct (Z.eqb_spec sc 0xe0); [lia|]; destruct (Z.eqb_spec sc 0xf0); [lia|]); wp_go.
  - destruct (prefixed_status ext false k) as (-> & -> & -> & ->). simpl negb. cbv iota.
    set (shift := lShift (kbStatus k) || rShift (kbStatus k)).
    destruct (vkey_shift ext shift sc Hs) as (Hne & Hty & Heq & Hu).
    assert (∀ Q : Z → kbd → Prop, Q (vkey ext shift sc) (prefixed ext false k) →
      wp (if negb ext then if shift then table_get asciiShift1 sc else table_get asciiNonShift1 sc else table_get ascii2 sc) Q (prefixed ext false k)) as Htab.
    { intros Q HQ. pose proof (vkey_lookup ext shift sc Hne) as Hl. destruct ext; simpl; [|destruct shift]; by eapply wp_table_get. }
    wp_go. apply Htab. wp_go; [by destruct (Z.eqb_spec (vkey ext shift sc) KNULL)|].
    eapply wp_press; [by destruct (prefixed_status ext false k) as (_ & ? & _)|by apply mods_set_f0, mods_set_e0|exact Hr|exact Hv|done|].
    intros k' Hk'. wp_go. apply (kb_rep_eoi _ _ _ (kb_eoi k' + 1)) in Hk'. rewrite Hty, Hu in Hk'. simpl.
    destruct Hm as (_ & _ & H1 & _ & _ & H2 & _). rewrite <-H1, <-H2. fold shift.
    destruct (kb_key_type (vkey ext false sc)) eqn:E; simpl in Hk'; try done. by rewrite Heq in Hk' by done.
  - destruct (prefixed_status ext true k) as (-> & -> & _). simpl negb. cbv iota.
    destruct (vkey_shift ext true sc Hs) as (Hne & Hty & Heq & Hu).
    assert (∀ Q : Z → kbd → Prop, Q (vkey ext true sc) (prefixed ext true k) →
      wp (if ext then table_get ascii2 sc else table_get asciiShift1 sc) Q (prefixed ext true k)) as Htab.
    { intros Q HQ. pose proof (vkey_lookup ext true sc Hne) as Hl. destruct ext; by eapply wp_table_get. }
    wp_go. apply Htab. wp_go; [by destruct (Z.eqb_spec (vkey ext true sc) KNULL)|].
    eapply wp_release; [by apply mods_set_f0, mods_set_e0|exact Hr|exact Hv|].
    intros k' Hk'. wp_go. apply (kb_rep_eoi _ _ _ (kb_eoi k' + 1)) in Hk'. rewrite Hty in Hk'. simpl.
    destruct (kb_key_type (vkey ext false sc)) eqn:E; simpl in Hk'; try done. by rewrite Heq in Hk' by done.
Qed.

#[local] Arguments spec_stroke : simpl never.

Lemma spec_typed_grows held typed s : (length (spec_stroke (held, typed) s).2 ≤ S (length typed))%nat ∧
  (length typed ≤ length (spec_stroke (held, typed) s).2)%nat.
Proof. destruct s; unfold spec_stroke; repeat case_match; simpl; rewrite ?length_app; simpl; lia. Qed.

Lemma wp_strokes strokes k held typed :
  kb_rep k held typed → forallb known strokes = true →
  Z.of_nat (length typed + length strokes) < 256 →
  wp (kb_isrs (strokes ≫= scan_codes))
     (λ _ k', let '(held', typed') := foldl spec_stroke (held, typed) strokes in kb_rep k' held' typed') k.
Proof.
  revert k held typed. induction strokes as [|s ss IH]; intros k held typed Hk Hs Hn; simpl in *.
  - by wp_go.
  - apply andb_prop in Hs as [Hs Hss].
    apply wp_kb_isrs_app. eapply wp_mono; [apply stroke_step; [done|done|lia]|]. intros [] k' Hk'.
    pose proof (spec_typed_grows held typed s) as Hg.
    destruct (spec_stroke (held, typed) s) as [held' typed']. simpl in Hg. apply IH; [done|done|lia].
Qed.

(** C37: typing.  Whatever keys of the tables are pressed and released, in any
    order and with any overlap, the decoder ends between two strokes, the modifier
    flags are exactly the modifier keys held, and the ring buffer holds exactly the
    characters typed, each from the shifted table when a shift key was down, as
    long as fewer than 256 are pending.  Cursor keys never leave the screen. *)
Theorem kb_typing strokes k held typed :
  kb_rep k held typed → forallb known strokes = true →
  Z.of_nat (length typed + length strokes) < 256 →
  wp (kb_isrs (strokes ≫= scan_codes))
     (λ _ k', let '(held', typed') := foldl spec_stroke (held, typed) strokes in kb_rep k' held' typed') k.
Proof. apply wp_strokes. Qed.

(** Reading back: the ring buffer is first in, first out for up to 255
    pending characters; the 256th character makes the buffer look empty, so that
    all pending input is lost. *)
Theorem kb_ring_capacity q l c :
  ring q l →
  (Z.of_nat (length l) < 255 → ∃ q', q_append c q = Ok (tt, q') ∧ ring q' (l ++ [u8 c])) ∧
  (∀ x l', l = x :: l' → ∃ q', q_pop q = Ok (x, q') ∧ ring q' l') ∧
  (Z.of_nat (length l) = 255 → ∃ q', q_append c q = Ok (tt, q') ∧ q_pop q' = Ok (KB_NULL, q')).
Proof.
  intros Hq. split_and!.
  - intros H. destruct (wp_elim (q_append c) (λ _ q', ring q' (l ++ [u8 c])) q) as ([] & q' & E & H');
      [by eapply wp_q_append|eauto].
  - intros x l' ->. destruct (wp_elim q_pop (λ y q', y = x ∧ ring q' l') q) as (y & q' & E & -> & H');
      [by eapply wp_q_pop|eauto].
  - intros H. destruct Hq as (Hb & Hh & Hl & Ht & Hi). unfold q_append, q_pop, mbind, M_bind, get, deref, modify.
    change KB_BUFFER_SIZE with 256.
    pose proof (Z.mod_pos_bound (q_header q + Z.of_nat (length l)) 256 ltac:(lia)).
    destruct (lookup_lt_is_Some_2 (q_buffer q) (Z.to_nat (q_tail q))) as [y ->]; [lia|].
    eexists. split; [reflexivity|]. simpl. rewrite Ht, Zplus_mod_idemp_l, H.
    replace (q_header q + 255 + 1) with (q_header q + 1 * 256) by lia.
    by rewrite Z.mod_add, Z.mod_small, Z.eqb_refl by lia.
Qed.

(** ** Commands to the keyboard

    The controller answers reads of its two ports: [port_in n p] is the [n]-th read,
    of port [p].  Writes are logged, newest first. *)
Definition PS2_DAT : Z := 0x60.
Definition PS2_CMD : Z := 0x64.
Definition N_POLL : nat := 10.
Definition FULL : Z := 1.
Definition EMPTY : Z := 0.

Record device_status := DeviceStatus { ds_ack : Z; ds_resend : Z; ds_error : Z }.
Definition kb_ds : device_status := DeviceStatus KB_ACK KB_RESEND KB_ERROR.

Record ps2 := Ps2 { ps2_reads : nat; ps2_out : list (Z * Z); kb_cmd : kb_queue }.

Section ps2.
Variable port_in : nat → Z → Z.

Definition inb (port : Z) : M ps2 Z := λ s,
  Ok (u8 (port_in (ps2_reads s) port), Ps2 (S (ps2_reads s)) (ps2_out s) (kb_cmd s)).
Definition ps2_outb (port value : Z) : M ps2 unit :=
  modify (λ s, Ps2 (ps2_reads s) ((port, value) :: ps2_out s) (kb_cmd s)).
Definition on_cmd {A} (m : M kb_queue A) : M ps2 A :=
  zoom kb_cmd (λ q s, Ps2 (ps2_reads s) (ps2_out s) q) m.

Definition ps2_rs : M ps2 Z := inb PS2_CMD.
Definition ps2_rd : M ps2 Z := inb PS2_DAT.
Definition ps2_wd (value : Z) : M ps2 unit := ps2_outb PS2_DAT value.
Definition ps2_wc (value : Z) : M ps2 unit := ps2_outb PS2_CMD value.

Definition ps2_cs (bit expect : Z) : M ps2 bool :=
  s ← ps2_rs; mret (Z.land (Z.shiftr s bit) 1 =? expect).

Fixpoint poll_loop (n : nat) (bit expect : Z) : M ps2 bool :=
  match n with
  | O => mret false
  | S n' => b ← ps2_cs bit expect; if b : bool then mret true else poll_loop n' bit expect
  end.
Definition poll_status (bit expect : Z) : M ps2 bool := poll_loop N_POLL bit expect.

Definition ps2_prd : M ps2 Z := b ← poll_status 0 FULL; assertk b;; ps2_rd.
Definition ps2_pwd (value : Z) : M ps2 unit := b ← poll_status 1 EMPTY; assertk b;; ps2_wd value.
Definition ps2_pwc (value : Z) : M ps2 unit := b ← poll_status 1 EMPTY; assertk b;; ps2_wc value.

Definition ps2_init : M ps2 unit :=
  ps2_pwc 0xAD;;
  ps2_pwc 0xA7;;
  _ ← ps2_rd;
  ps2_pwc 0x20;;
  config ← ps2_prd;
  let config := clear_bit (clear_bit (set_bit config 0) 1) 6 in
  ps2_pwc 0x60;;
  ps2_pwd config;;
  ps2_wc 0xAB;;
  r ← ps2_rd;
  assertk (r =? 0x00);;
  ps2_pwc 0xAE;;
  ps2_wc 0xAA;;
  r ← ps2_rd;
  assertk (r =? 0x55).

(** [while ((res = ps2_prd()) == ds.resend);] *)
Fixpoint resend_loop (fuel : nat) (resend : Z) : M ps2 Z :=
  match fuel with
  | O => fail Fuel
  | S fuel => res ← ps2_prd; if res =? resend then resend_loop fuel resend else mret res
  end.

Definition ps2_device_cmd (fuel : nat) (cmd : Z) (ds : device_status) : M ps2 Z :=
  ps2_pwd cmd;; resend_loop fuel (ds_resend ds).

Definition CMD_BUFFER_SIZE : Z := 256.
Definition queue_append (c : Z) : M kb_queue unit :=
  q ← get;
  _ ← deref (q_buffer q !! Z.to_nat (q_tail q));
  modify (λ q, KbQueue (<[Z.to_nat (q_tail q) := u8 c]> (q_buffer q)) (q_header q)
                       ((q_tail q + 1) mod CMD_BUFFER_SIZE)).

Definition queue_pop : M kb_queue Z :=
  q ← get;
  if q_header q =? q_tail q then mret KB_NULL
  else
    res ← deref (q_buffer q !! Z.to_nat (q_header q));
    modify (λ q, KbQueue (q_buffer q) ((q_header q + 1) mod CMD_BUFFER_SIZE) (q_tail q));;
    mret (s8 res).

Fixpoint kb_cmd_worker (fuel : nat) : M ps2 unit :=
  match fuel with
  | O => fail Fuel
  | S fuel' =>
      c ← on_cmd queue_pop;
      let c := u8 c in
      if c =? KB_NULL then mret tt
      else
        res ← ps2_device_cmd fuel c kb_ds;
        assertk (negb (res =? ds_error kb_ds));;
        kb_cmd_worker fuel'
  end.

Definition kb_init (fuel : nat) : M ps2 unit :=
  on_cmd (queue_append DisableScanning);;
  on_cmd (queue_append 0xF0);;
  on_cmd (queue_append 2);;
  on_cmd (queue_append EnableScanning);;
  kb_cmd_worker fuel.
End ps2.

(** ** A concrete keyboard *)

Definition kb0 : kbd := Kbd kbStatus0 (KbQueue (replicate 256 0) 0 0) dark 0.

Lemma kb0_ring : ring (kb_buf kb0) [].
Proof. unfold ring. split_and!; [vm_compute; reflexivity|simpl; lia|simpl; lia|simpl; lia|reflexivity|done]. Qed.

Lemma kb0_rep : kb_rep kb0 ∅ [].
Proof.
  unfold kb_rep. split_and!; [done|done| |apply kb0_ring|].
  - unfold mods. split_and!; reflexivity.
  - unfold on_screen. split; [vm_compute; reflexivity|simpl; lia].
Qed.

(** Shift-h, i, and a cursor key. *)
Definition hi_strokes : list stroke :=
  [Down false 0x12; Down false 0x33; Up false 0x33; Up false 0x12; Down false 0x43; Up false 0x43;
   Down true 0x6B; Up true 0x6B].

Lemma kb_typing_witness :
  wp (kb_isrs (hi_strokes ≫= scan_codes)) (λ _ k',
    let '(held', typed') := foldl spec_stroke (∅, []) hi_strokes in kb_rep k' held' typed') kb0
  ∧ (foldl spec_stroke (∅, []) hi_strokes).2 = [chr "H"; chr "i"].
Proof.
  split; [|vm_compute; reflexivity].
  apply (kb_typing hi_strokes kb0 ∅ []); [exact kb0_rep|vm_compute; reflexivity|vm_compute; reflexivity].
Defined.

Lemma kb_ring_capacity_witness :
  ∃ q', q_append 65 (kb_buf kb0) = Ok (tt, q') ∧ ring q' ([] ++ [u8 65]).
Proof. apply (kb_ring_capacity (kb_buf kb0) [] 65 kb0_ring). simpl. lia. Defined.

(** Page Up has no entry: the decoder panics on it. *)
Example page_up_panics : kb_isrs [0xe0; 0x7d] kb0 = Err Assert.
Proof. reflexivity. Qed.
