(* ===== verification/Terminal.v ===== *)
(** * The terminal: formatted output and line input

    Models the output half of [kernel/terminal.c] ([printfk] and what it prints
    with) on top of the byte memory and the screen, and the blocking input
    ([getchar], [k_gets]) on top of the keyboard's ring buffer.  The local array a
    print routine writes a number into begins at [frame] ([with_array]); the variadic
    arguments are the list [ap].  While [getchar] sleeps, keyboard interrupts
    arrive: [irqs n] are the scan codes that arrive during the [n]-th sleep. *)

From S2P Require Import Prelude QLib Memory CString Vga Keyboard.
From Stdlib Require Import ZArith Lia Ascii.
From stdpp Require Import base numbers gmap list.
Open Scope Z_scope.

Definition U64LEN : Z := 20.

Record term := Term { t_mem : mem; t_kbd : kbd; t_sleeps : nat }.

Definition on_mem {A} (m : M mem A) : M term A :=
  zoom t_mem (λ h t, Term h (t_kbd t) (t_sleeps t)) m.
Definition on_kbd {A} (m : M kbd A) : M term A :=
  zoom t_kbd (λ k t, Term (t_mem t) k (t_sleeps t)) m.
Definition on_scr {A} (m : M vga A) : M term A := on_kbd (on_vga m).

(** ** Output *)

Definition put_strings (data size : Z) : M term unit :=
  for_up (Z.to_nat size) 0 (λ i, c ← on_mem (load8 (data + i)); on_scr (vga_put_char c));;
  on_scr vga_sync_cursor.

Definition put_string (data : Z) : M term unit :=
  size ← on_mem (strlen data);
  for_up (Z.to_nat size) 0 (λ i, c ← on_mem (load8 (data + i)); on_scr (vga_put_char c));;
  on_scr vga_sync_cursor.

Definition put_char (c : Z) : M term unit :=
  on_scr (vga_put_char c);; on_scr vga_sync_cursor.

(** The print routines and the loop are written twice in the sources, here and in
    userspace/lib.c, and differ in how a character ([putc]) and a string ([puts]) gets to
    the screen. *)
Section printf.
Variables (putc puts : Z → M term unit) (frame : Z).

(** [char str[n]] at [frame]: what is done through [str] sees these [n] bytes only, an access
    outside of them is a fault. *)
Definition with_array (n : Z) (m : M term unit) : M term unit := λ t,
  match m (Term (filter (λ '(a, _), frame ≤ a < frame + n) (t_mem t)) (t_kbd t) (t_sleeps t)) with
  | Ok (x, t') => Ok (x, Term (t_mem t' ∪ t_mem t) (t_kbd t') (t_sleeps t'))
  | Err e => Err e
  end.

Definition print_d (num : Z) : M term unit :=
  with_array (U64LEN + 2)
    (if num <? 0 then
       on_mem (store8 frame (chr "-"));;
       on_mem (utoa (u64 (s64 (- num))) (frame + 1));;
       puts frame
     else
       on_mem (utoa (u64 num) frame);;
       puts frame).

Definition print_u (num : Z) : M term unit :=
  with_array (U64LEN + 1) (on_mem (utoa num frame);; puts frame).

(** [char str[U64LEN + 3] = "0x";]: the rest of the array is 0. *)
Definition init_0x : M term unit :=
  on_mem (store8 frame (chr "0"));;
  on_mem (store8 (frame + 1) (chr "x"));;
  for_up (Z.to_nat (U64LEN + 1)) 2 (λ i, on_mem (store8 (frame + i) 0)).

Definition print_pointer (p : Z) : M term unit :=
  with_array (U64LEN + 3) (init_0x;; on_mem (hex p (frame + 2));; puts frame).

Definition print_hex (x : Z) : M term unit :=
  with_array (U64LEN + 3) (init_0x;; on_mem (hex x (frame + 2));; puts frame).

Definition va_arg (ap : list Z) : M term (Z * list Z) :=
  match ap with [] => fail Fault | x :: ap => mret (x, ap) end.

(** The loop of [printfk]; the index [i] is the one the loop test sees. *)
Fixpoint printfk_loop (fuel : nat) (str str_len i : Z) (ap : list Z) : M term unit :=
  match fuel with
  | O => fail Fuel
  | S fuel =>
      if i <? str_len then
        c ← on_mem (load8 (str + i));
        if (c =? chr "%") && (i + 1 <? str_len) then
          let i := i + 1 in
          d ← on_mem (load8 (str + i));
          if d =? chr "d" then
            '(x, ap) ← va_arg ap; print_d (s32 x);; printfk_loop fuel str str_len (i + 1) ap
          else if d =? chr "u" then
            '(x, ap) ← va_arg ap; print_u (u32 x);; printfk_loop fuel str str_len (i + 1) ap
          else if d =? chr "s" then
            '(x, ap) ← va_arg ap; puts (u32 x);; printfk_loop fuel str str_len (i + 1) ap
          else if d =? chr "c" then
            '(x, ap) ← va_arg ap; putc (u8 x);; printfk_loop fuel str str_len (i + 1) ap
          else if d =? chr "p" then
            '(x, ap) ← va_arg ap; print_pointer (u32 x);; printfk_loop fuel str str_len (i + 1) ap
          else if d =? chr "x" then
            '(x, ap) ← va_arg ap; print_hex (u32 x);; printfk_loop fuel str str_len (i + 1) ap
          else if d =? chr "l" then
            let i := i + 1 in
            l ← on_mem (load8 (str + i));
            if l =? chr "d" then
              '(x, ap) ← va_arg ap; print_d (s64 x);; printfk_loop fuel str str_len (i + 1) ap
            else if l =? chr "u" then
              '(x, ap) ← va_arg ap; print_u (u64 x);; printfk_loop fuel str str_len (i + 1) ap
            else if l =? chr "x" then
              '(x, ap) ← va_arg ap; print_hex (u64 x);; printfk_loop fuel str str_len (i + 1) ap
            else
              let i := i - 1 in printfk_loop fuel str str_len (i + 1) ap
          else
            let i := i - 1 in
            e ← on_mem (load8 (str + i));
            putc e;; printfk_loop fuel str str_len (i + 1) ap
        else
          putc c;; printfk_loop fuel str str_len (i + 1) ap
      else mret tt
  end.

End printf.

Definition printfk (frame str : Z) (ap : list Z) : M term unit :=
  str_len ← on_mem (strlen str);
  printfk_loop put_char put_string frame (S (Z.to_nat str_len)) str str_len 0 ap.

Definition k_puts (buf len : Z) : M term unit :=
  if len <? 0 then put_string buf else put_strings buf len.

Definition terminal_clear : M term unit := on_scr vga_clean.

(** ** Input *)

Section input.
Variable irqs : nat → list Z.

(** [ms_sleep(10)]: the interrupts that arrive meanwhile run their handler. *)
Definition sleep_irqs : M term unit :=
  t ← get;
  on_kbd (kb_isrs (irqs (t_sleeps t)));;
  modify (λ t, Term (t_mem t) (t_kbd t) (S (t_sleeps t))).

Fixpoint getchar_loop (fuel : nat) : M term Z :=
  match fuel with
  | O => fail Fuel
  | S fuel =>
      c ← on_kbd (on_queue q_pop);
      if c =? KB_NULL then sleep_irqs;; getchar_loop fuel else mret c
  end.

Definition getchar (fuel : nat) : M term Z :=
  on_kbd (on_queue kb_clear);; getchar_loop fuel.

Fixpoint gets_loop (n fuel : nat) (buf i : Z) : M term Z :=
  match n with
  | O => mret i
  | S n =>
      c ← getchar fuel;
      on_mem (store8 (buf + i) c);;
      put_char c;;
      if c =? NEWLINE then mret i else gets_loop n fuel buf (i + 1)
  end.

Definition k_gets (fuel : nat) (buf len : Z) : M term Z := gets_loop (Z.to_nat len) fuel buf 0.
End input.

(** ** The text a format stands for

    [strs p] is the string at [p], where there is one.  A lone or unknown
    conversion prints the percent sign and reads on at the next character, so that
    two percent signs do not escape a conversion; an unknown conversion after
    percent-l prints nothing. *)

Definition dec_text (x : Z) : list Z := if x <? 0 then chr "-" :: decimal (- x) else decimal x.
Definition hex_text (x : Z) : list Z := [chr "0"; chr "x"] ++ hexadecimal x.

Definition with_arg (ap : list Z) (f : Z → option (list Z)) (k : list Z → option (list Z)) : option (list Z) :=
  match ap with [] => None | x :: ap => s ← f x; s' ← k ap; Some (s ++ s') end.

Fixpoint expand (strs : Z → option (list Z)) (fmt ap : list Z) : option (list Z) :=
  match fmt with
  | [] => Some []
  | c :: fmt' =>
      if c =? chr "%" then
        match fmt' with
        | [] => Some [c]
        | d :: rest =>
            if d =? chr "d" then with_arg ap (λ x, Some (dec_text (s32 x))) (expand strs rest)
            else if d =? chr "u" then with_arg ap (λ x, Some (decimal (u32 x))) (expand strs rest)
            else if d =? chr "s" then with_arg ap (λ x, strs (u32 x)) (expand strs rest)
            else if d =? chr "c" then with_arg ap (λ x, Some [u8 x]) (expand strs rest)
            else if d =? chr "p" then with_arg ap (λ x, Some (hex_text (u32 x))) (expand strs rest)
            else if d =? chr "x" then with_arg ap (λ x, Some (hex_text (u32 x))) (expand strs rest)
            else if d =? chr "l" then
              match rest with
              | [] => Some []
              | l :: rest' =>
                  if l =? chr "d" then with_arg ap (λ x, Some (dec_text (s64 x))) (expand strs rest')
                  else if l =? chr "u" then with_arg ap (λ x, Some (decimal (u64 x))) (expand strs rest')
                  else if l =? chr "x" then with_arg ap (λ x, Some (hex_text (u64 x))) (expand strs rest')
                  else expand strs rest ap
              end
            else s ← expand strs fmt' ap; Some (c :: s)
        end
      else s ← expand strs fmt' ap; Some (c :: s)
  end.

Definition scr (t : term) : vga := kb_vga (t_kbd t).

(** The screen of [t'] is that of [t] with [text] written behind it. *)
Definition printed (text : list Z) (t t' : term) : Prop :=
  ∀ hist cur, shows hist cur (scr t) →
    terminal_color (scr t') = terminal_color (scr t) ∧
    let '(hist', cur') := foldl (put_cell (terminal_color (scr t))) (hist, cur) text in
    shows hist' cur' (scr t').

Definition showing (t : term) : Prop := ∃ hist cur, shows hist cur (scr t).

Lemma printed_nil t t' : scr t' = scr t → printed [] t t'.
Proof. intros E hist cur H. rewrite E. by split. Qed.

Lemma printed_app a b t1 t2 t3 : printed a t1 t2 → printed b t2 t3 → printed (a ++ b) t1 t3.
Proof.
  intros H1 H2 hist cur Hs. destruct (H1 hist cur Hs) as [C1 Hs1]. rewrite foldl_app.
  destruct (foldl _ _ a) as [h1 c1]. destruct (H2 h1 c1 Hs1) as [C2 Hs2]. rewrite <-C1. split; [congruence|done].
Qed.

Lemma printed_showing text t t' : printed text t t' → showing t → showing t'.
Proof.
  intros H (hist & cur & Hs). destruct (H hist cur Hs) as [_ Hs'].
  destruct (foldl _ _ text) as [h c]. by exists h, c.
Qed.

Lemma wp_on_mem {A} (m : M mem A) t (Q : A → term → Prop) :
  wp m (λ a h, Q a (Term h (t_kbd t) (t_sleeps t))) (t_mem t) → wp (on_mem m) Q t.
Proof. intros H. unfold on_mem. by wp_go. Qed.

Lemma term_eta t : Term (t_mem t) (t_kbd t) (t_sleeps t) = t.
Proof. by destruct t. Qed.

Lemma wp_scr_put c t (Q : unit → term → Prop) :
  showing t → (∀ t', t_mem t' = t_mem t → printed [c] t t' → Q tt t') → wp (on_scr (vga_put_char c)) Q t.
Proof.
  intros (hist & cur & Hs) HQ. unfold on_scr, on_kbd, on_vga. wp_go.
  destruct (wp_elim (vga_put_char c) (λ _ v', True) (scr t)) as ([] & v' & E & _);
    [by eapply wp_vga_put_char|].
  eapply wp_intro; [exact E|]. apply HQ; [done|]. clear hist cur Hs. intros hist cur Hs.
  pose proof (wp_vga_put_char hist cur c (λ _ v', terminal_color v' = terminal_color (scr t) ∧
    let '(h', c') := put_cell (terminal_color (scr t)) (hist, cur) c in shows h' c' v') (scr t) Hs) as Hw.
  unfold wp in Hw. rewrite E in Hw. apply Hw. intros v'' H1 H2. by split.
Qed.

Lemma wp_scr_sync t (Q : unit → term → Prop) :
  (∀ t', t_mem t' = t_mem t → printed [] t t' → Q tt t') → wp (on_scr vga_sync_cursor) Q t.
Proof.
  intros HQ. unfold on_scr, on_kbd, on_vga. wp_go. apply wp_vga_sync_cursor. intros out.
  apply HQ; [done|]. intros hist cur Hs. by split.
Qed.

Lemma wp_put_char c t (Q : unit → term → Prop) :
  showing t → (∀ t', t_mem t' = t_mem t → printed [c] t t' → Q tt t') → wp (put_char c) Q t.
Proof.
  intros Hs HQ. unfold put_char. wp_go. apply wp_scr_put; [done|]. intros t1 E1 P1.
  apply wp_scr_sync. intros t2 E2 P2. apply HQ; [congruence|]. by apply (printed_app [c] [] t t1).
Qed.

Lemma wp_put_loop data s t (Q : unit → term → Prop) :
  bytes_at (t_mem t) data s → showing t →
  (∀ t', t_mem t' = t_mem t → printed s t t' → Q tt t') →
  wp (for_up (length s) 0 (λ i, c ← on_mem (load8 (data + i)); on_scr (vga_put_char c))) Q t.
Proof.
  intros Hb Hs HQ.
  apply (wp_for_up (λ i t', t_mem t' = t_mem t ∧ printed (take (Z.to_nat i) s) t t')).
  - split; [done|]. by apply printed_nil.
  - intros i t1 Hi (E1 & P1). destruct (bytes_at_lookup _ _ _ i Hb ltac:(lia)) as (x & Hx & Hm).
    unfold on_mem. wp_go. eapply wp_load8; [by rewrite E1|].
    apply wp_scr_put; [by apply (printed_showing _ _ _ P1)|]. intros t2 E2 P2. split; [by rewrite E2|].
    replace (Z.to_nat (i + 1)) with (S (Z.to_nat i)) by lia. rewrite (take_S_r s _ x) by done.
    by eapply printed_app; [exact P1|].
  - intros t1 (E1 & P1). apply HQ; [done|]. rewrite Z.add_0_l, Nat2Z.id, take_ge in P1 by lia. done.
Qed.

Lemma wp_put_string data s t (Q : unit → term → Prop) :
  cstr (t_mem t) data s → data ≠ 0 → Z.of_nat (length s) < 2 ^ 32 → showing t →
  (∀ t', t_mem t' = t_mem t → printed s t t' → Q tt t') → wp (put_string data) Q t.
Proof.
  intros Hc Hd Hl Hs HQ. unfold put_string. wp_go. apply wp_on_mem. eapply wp_strlen; [done..|].
  rewrite Nat2Z.id, term_eta. wp_go.
  apply wp_put_loop; [destruct Hc as [Hb _]; by apply bytes_at_app in Hb as [? _]|done|].
  intros t1 E1 P1. apply wp_scr_sync. intros t2 E2 P2. apply HQ; [congruence|].
  rewrite <-(app_nil_r s). by eapply printed_app.
Qed.

(** ** Numbers *)

Section printing.
Context (frame str : Z) (fmt : list Z) (strs : Z → option (list Z)) (keep : mem → Prop) (putc puts : Z → M term unit).

(** What [printfk] needs of the memory: the stack bytes at [frame], where the arrays of the
    print routines are, and the strings away from them; [keep] is anything else that holds
    outside these bytes. *)
Definition away (p n : Z) : Prop := p + n ≤ frame ∨ frame + 23 ≤ p.
Definition tinvk (h : mem) : Prop :=
  byte_mem h ∧ mapped h frame 23 ∧ cstr h str fmt ∧
  (∀ p s, strs p = Some s → p ≠ 0 ∧ cstr h p s ∧ Z.of_nat (length s) < 2 ^ 32 ∧ away p (Z.of_nat (length s) + 1)) ∧ keep h.

Hypothesis keep_writes : ∀ h h', keep h → writes frame 23 h h' → keep h'.
Hypothesis frame_ok : 0 < frame.
Hypothesis puts_ok : ∀ data s t (Q : unit → term → Prop), cstr (t_mem t) data s → data ≠ 0 → Z.of_nat (length s) < 2 ^ 32 → showing t →
  (∀ t', t_mem t' = t_mem t → printed s t t' → Q tt t') → wp (puts data) Q t.
Hypothesis fmt_away : away str (Z.of_nat (length fmt) + 1).

Lemma cstr_writes h h' p s n : cstr h p s → writes frame n h h' → n ≤ 23 → away p (Z.of_nat (length s) + 1) → cstr h' p s.
Proof.
  intros [Hb Hz] Hw Hn Ha. split; [|done]. eapply bytes_at_writes; [done|done|]. rewrite length_app. simpl.
  unfold away in Ha. lia.
Qed.

Lemma tinv_writes h h' : tinvk h → writes frame 23 h h' → byte_mem h' → tinvk h'.
Proof.
  intros (Hb & Hm & Hc & Hs & Hk) Hw Hb'. split_and!; [done|by eapply writes_mapped|by eapply cstr_writes| |by eapply keep_writes].
  intros p s E. destruct (Hs p s E) as (? & ? & ? & ?). split_and!; [done|by eapply cstr_writes|done|done].
Qed.

Lemma byte_mem_insert h a v : byte_mem h → 0 ≤ v < 2 ^ 8 → byte_mem (<[a := v]> h).
Proof. intros Hb Hv b x. rewrite lookup_insert_Some. intros [[_ <-]|[_ ?]]; [done|by eapply Hb]. Qed.

Lemma byte_mem_text h h' p s : byte_mem h → writes p (Z.of_nat (length s) + 1) h h' → cstr h' p s →
  Forall (λ c, 0 ≤ c < 2 ^ 8) s → byte_mem h'.
Proof.
  intros Hb [_ Hw] [Hs _] Hf a v Ha. destruct (decide (p ≤ a < p + (Z.of_nat (length s) + 1))) as [Hin|Hout].
  - destruct (bytes_at_lookup _ _ _ (a - p) Hs) as (x & Hx & E); [rewrite length_app; simpl; lia|].
    replace (p + (a - p)) with a in E by lia. rewrite Ha in E. injection E as <-.
    apply list_elem_of_lookup_2, elem_of_app in Hx as [Hx|Hx].
    + rewrite Forall_forall in Hf. by apply Hf.
    + apply list_elem_of_singleton in Hx as ->. lia.
  - rewrite Hw in Ha by done. by eapply Hb.
Qed.

Lemma digits_bytes b chr' v n : 0 < b → (∀ d, 0 ≤ d < b → 0 ≤ chr' d < 2 ^ 8) →
  Forall (λ c, 0 ≤ c < 2 ^ 8) (reverse (chr' <$> digits n b v)).
Proof.
  intros Hb Hc. apply Forall_reverse, Forall_fmap. eapply Forall_impl; [by apply digits_range|]. intros d Hd. by apply Hc.
Qed.

Lemma decimal_bytes v : Forall (λ c, 0 ≤ c < 2 ^ 8) (decimal v).
Proof. apply digits_bytes; [lia|]. intros. unfold dec_chr. lia. Qed.
Lemma hexadecimal_bytes v : Forall (λ c, 0 ≤ c < 2 ^ 8) (hexadecimal v).
Proof. apply digits_bytes; [lia|]. intros d Hd. pose proof (hex_chr_cases d Hd). lia. Qed.

Definition shows_more (text : list Z) (t : term) (_ : unit) (t' : term) : Prop :=
  tinvk (t_mem t') ∧ printed text t t'.

(** The array of [n] bytes while a print routine runs, and what the routine does. *)
Definition array (n : Z) (h : mem) : Prop := byte_mem h ∧ mapped h frame n.
Definition array_shows (n : Z) (text : list Z) (t : term) (_ : unit) (t' : term) : Prop :=
  array n (t_mem t') ∧ writes frame n (t_mem t) (t_mem t') ∧ printed text t t'.

Lemma array_store n a v h : array n h → frame ≤ a < frame + n → 0 ≤ v < 2 ^ 8 →
  is_Some (h !! a) ∧ array n (<[a := v]> h) ∧ writes frame n h (<[a := v]> h).
Proof.
  intros [Hb Hm] Ha Hv. assert (is_Some (h !! a)) as Hs by (by eapply mapped_lookup).
  assert (writes frame n h (<[a := v]> h)) as Hw by (by apply writes_insert).
  split_and!; [done| |done]. split; [by apply byte_mem_insert|by eapply writes_mapped].
Qed.

(** A number routine at [frame + k], with [k] characters in front of the digits. *)
Lemma wp_number (conv : Z → Z → M mem unit) (text : Z → list Z) (pre : list Z) n v t :
  (∀ s h, s ≠ 0 → mapped h s 21 → byte_mem h → wp (conv v s) (λ _ h', cstr h' s (text v) ∧
     writes s (Z.of_nat (length (text v)) + 1) h h' ∧ Z.of_nat (length (text v)) ≤ 20) h) →
  Forall (λ c, 0 ≤ c < 2 ^ 8) (text v) → Forall (λ c, c ≠ 0) pre → Z.of_nat (length pre) + 21 ≤ n ≤ 23 →
  array n (t_mem t) → bytes_at (t_mem t) frame pre → showing t →
  wp (on_mem (conv v (frame + Z.of_nat (length pre)));; puts frame) (array_shows n (pre ++ text v) t) t.
Proof.
  intros Hconv Hbytes Hpre Hlp [Hbm Hm] Hb Hs. wp_go. apply wp_on_mem.
  eapply wp_mono; [apply Hconv; [lia| |done]|].
  { intros k Hk. replace (frame + Z.of_nat (length pre) + k) with (frame + (Z.of_nat (length pre) + k)) by lia. apply Hm. lia. }
  intros [] h' (Hc & Hw & Hl). assert (writes frame n (t_mem t) h') as Hw' by (eapply writes_weaken; [exact Hw|lia|lia]).
  eapply (puts_ok frame (pre ++ text v)); simpl.
  - destruct Hc as [Hc1 Hc2]. split; [|apply Forall_app; by split]. rewrite <-app_assoc. apply bytes_at_app. split; [|done].
    eapply bytes_at_writes; [exact Hb|exact Hw|lia].
  - lia.
  - rewrite length_app. lia.
  - exact Hs.
  - intros t' E P. cbn [t_mem] in E. split_and!; [|by rewrite E|exact P]. rewrite E. split; [by eapply byte_mem_text|by eapply writes_mapped].
Qed.

(** Back from the routine, its array is part of the memory again. *)
Lemma wp_with_array n m text t : n ≤ 23 → tinvk (t_mem t) → showing t →
  (∀ t0, array n (t_mem t0) → showing t0 → wp m (array_shows n text t0) t0) → wp (with_array frame n m) (shows_more text t) t.
Proof.
  intros Hn Hi Hs Hm. pose proof Hi as (Hb & Hmp & _). set (t0 := Term (filter (λ '(a, _), frame ≤ a < frame + n) (t_mem t)) (t_kbd t) (t_sleeps t)).
  assert (∀ a v, t_mem t0 !! a = Some v ↔ t_mem t !! a = Some v ∧ frame ≤ a < frame + n) as H0 by (intros a v; apply map_lookup_filter_Some).
  destruct (wp_elim _ _ _ (Hm t0 ltac:(split; [intros a v [E _]%H0; by eapply Hb|intros i Hi'; destruct (Hmp i ltac:(lia)) as [v Ev]; exists v; apply H0; split; [done|lia]]) Hs)) as ([] & t1 & E1 & [Hb1 Hm1] & [Hd Hw] & Hp).
  unfold wp, with_array. fold t0. rewrite E1.
  assert (∀ a, ¬ (frame ≤ a < frame + n) → t_mem t1 !! a = None) as Hout.
  { intros a Ha. rewrite Hw by done. apply eq_None_not_Some. intros [v [_ ?]%H0]. done. }
  assert (writes frame 23 (t_mem t) (t_mem t1 ∪ t_mem t)) as Hwr.
  { split.
    - apply set_eq. intros a. rewrite dom_union, Hd, elem_of_union, !elem_of_dom. split; [|by right]. intros [[v [E _]%H0]|?]; [by exists v|done].
    - intros a Ha. rewrite lookup_union, Hout by lia. by destruct (t_mem t !! a). }
  split; cbn [t_mem]; [|exact Hp]. apply (tinv_writes (t_mem t)); [done|done|]. intros a v. rewrite lookup_union_Some_raw. intros [E|[_ E]]; [by eapply Hb1|by eapply Hb].
Qed.

Hypothesis putc_ok : ∀ c t, 0 ≤ c < 2 ^ 8 → tinvk (t_mem t) → showing t → wp (putc c) (shows_more [c] t) t.

Lemma utoa_conv v s h : 0 ≤ v < 2 ^ 64 → s ≠ 0 → mapped h s 21 → byte_mem h →
  wp (utoa v s) (λ _ h', cstr h' s (decimal v) ∧
     writes s (Z.of_nat (length (decimal v)) + 1) h h' ∧ Z.of_nat (length (decimal v)) ≤ 20) h.
Proof.
  intros Hv Hs Hm Hb. eapply wp_mono; [by apply wp_utoa|]. intros [] h' (x & ? & _ & ? & ? & ->). done.
Qed.

Lemma hex_conv v s h : 0 ≤ v < 2 ^ 64 → s ≠ 0 → mapped h s 21 → byte_mem h →
  wp (hex v s) (λ _ h', cstr h' s (hexadecimal v) ∧
     writes s (Z.of_nat (length (hexadecimal v)) + 1) h h' ∧ Z.of_nat (length (hexadecimal v)) ≤ 20) h.
Proof.
  intros Hv Hs Hm Hb. eapply wp_mono; [by apply wp_hex|]. intros [] h' (x & ? & _ & ? & ? & ->). done.
Qed.

Lemma wp_print_u v t : 0 ≤ v < 2 ^ 64 → tinvk (t_mem t) → showing t →
  wp (print_u puts frame v) (shows_more (decimal v) t) t.
Proof.
  intros Hv Hi Hs. apply wp_with_array; [done|done|done|]. intros t0 Ha Hs0.
  pose proof (wp_number utoa decimal [] 21 v t0) as Hw. simpl in Hw. rewrite Z.add_0_r in Hw. apply Hw; try done.
  - intros. by apply utoa_conv.
  - apply decimal_bytes.
Qed.

Lemma wp_print_d x t : - 2 ^ 63 ≤ x < 2 ^ 63 → tinvk (t_mem t) → showing t →
  wp (print_d puts frame x) (shows_more (dec_text x) t) t.
Proof.
  intros Hx Hi Hs. apply wp_with_array; [done|done|done|]. intros t0 Ha Hs0. change (U64LEN + 2) with 22 in *. unfold dec_text. destruct (Z.ltb_spec x 0) as [Hneg|Hpos].
  - assert (u64 (s64 (- x)) = - x) as ->.
    { unfold u64, s64, sint. rewrite (Z.mod_small (- x)) by lia. destruct (Z.ltb_spec (- x) (2 ^ (64 - 1))).
      - apply Z.mod_small. lia.
      - assert (x = - 2 ^ 63) as -> by lia. reflexivity. }
    destruct (array_store 22 frame 45 (t_mem t0) Ha ltac:(lia) ltac:(lia)) as (Hf & Ha' & Hw).
    wp_step. apply wp_on_mem. apply wp_store8; [done|]. change (u8 (chr "-")) with 45. set (t1 := Term _ _ _).
    eapply wp_mono; [apply (wp_number utoa decimal [45] 22 (- x) t1); try done|].
    + intros. apply utoa_conv; [lia|done..].
    + apply decimal_bytes.
    + by repeat constructor.
    + apply bytes_at_cons. split; [apply lookup_insert_eq|by intros ??].
    + intros [] t2 (A2 & W2 & P2). split_and!; [done|by eapply writes_trans|exact P2].
  - rewrite (u64_small x) by lia. pose proof (wp_number utoa decimal [] 22 x t0) as Hw. simpl in Hw. rewrite Z.add_0_r in Hw. apply Hw; try done.
    + intros. apply utoa_conv; [lia|done..].
    + apply decimal_bytes.
Qed.

Lemma wp_init_0x t : array 23 (t_mem t) →
  wp (init_0x frame) (λ _ t', array_shows 23 [] t tt t' ∧ bytes_at (t_mem t') frame [48; 120]) t.
Proof.
  intros Hi. unfold init_0x. change (Z.to_nat (U64LEN + 1)) with 21%nat. change (chr "0") with 48. change (chr "x") with 120.
  destruct (array_store 23 frame 48 (t_mem t) Hi ltac:(lia) ltac:(lia)) as (Hf0 & Hi0 & W0).
  destruct (array_store 23 (frame + 1) 120 _ Hi0 ltac:(lia) ltac:(lia)) as (Hf1 & Hi1 & W1).
  wp_step. apply wp_on_mem. apply wp_store8; [done|]. wp_step. apply wp_on_mem. apply wp_store8; [done|].
  apply (wp_for_up (λ i t', (array 23 (t_mem t') ∧ writes frame 23 (t_mem t) (t_mem t')) ∧ bytes_at (t_mem t') frame [48; 120] ∧ scr t' = scr t)).
  - simpl. split_and!; [done|by eapply writes_trans| |done]. apply bytes_at_cons. split; [by rewrite lookup_insert_ne, lookup_insert_eq by lia|].
    apply bytes_at_cons. split; [apply lookup_insert_eq|by intros ??].
  - intros i t1 Hi' ((Ht1 & W1') & Hb1 & E1). apply wp_on_mem.
    destruct (array_store 23 (frame + i) 0 _ Ht1 ltac:(lia) ltac:(lia)) as (Hf & Hi2 & W2).
    apply wp_store8; [done|]. change (u8 0) with 0. simpl. split_and!; [done|by eapply writes_trans| |done].
    eapply bytes_at_writes; [exact Hb1|apply (writes_insert (frame + i) 1); [done|lia]|]. simpl. lia.
  - intros t1 ((Ht1 & W1') & Hb1 & E1). split_and!; [split_and!; [done|done|by apply printed_nil]|done].
Qed.

Lemma wp_print_hex v t : 0 ≤ v < 2 ^ 64 → tinvk (t_mem t) → showing t →
  wp (print_hex puts frame v) (shows_more (hex_text v) t) t.
Proof.
  intros Hv Hi Hs. apply wp_with_array; [done|done|done|]. intros t0 Ha Hs0. change (U64LEN + 3) with 23 in *.
  wp_step. eapply wp_mono; [by apply wp_init_0x|]. intros [] t1 ((A1 & W1 & P1) & Hb1).
  eapply wp_mono; [apply (wp_number hex hexadecimal [48; 120] 23 v t1); try done|].
  - intros. by apply hex_conv.
  - apply hexadecimal_bytes.
  - by repeat constructor.
  - by eapply printed_showing.
  - intros [] t2 (A2 & W2 & P2). split_and!; [done|by eapply writes_trans|]. by apply (printed_app [] _ t0 t1).
Qed.

Lemma tinv_store a v h : tinvk h → frame ≤ a < frame + 23 → 0 ≤ v < 2 ^ 8 → is_Some (h !! a) ∧ tinvk (<[a := v]> h).
Proof.
  intros Hi Ha Hv. pose proof Hi as (Hb & Hm & _). split; [by eapply mapped_lookup|].
  apply (tinv_writes h); [done|by apply writes_insert; [eapply mapped_lookup|]|by apply byte_mem_insert].
Qed.

Lemma wp_print_pointer v t : 0 ≤ v < 2 ^ 64 → tinvk (t_mem t) → showing t →
  wp (print_pointer puts frame v) (shows_more (hex_text v) t) t.
Proof. apply wp_print_hex. Qed.

Lemma wp_print_str p s t : strs p = Some s → tinvk (t_mem t) → showing t →
  wp (puts p) (shows_more s t) t.
Proof.
  intros E Hi Hs. pose proof Hi as (_ & _ & _ & Hstr & _). destruct (Hstr p s E) as (? & ? & ? & _).
  eapply puts_ok; [done..|]. intros t' E' P'. split; [by rewrite E'|done].
Qed.

Lemma wp_then m K a b t :
  wp m (shows_more a t) t → showing t →
  (∀ t', tinvk (t_mem t') → showing t' → wp K (shows_more b t') t') →
  wp (m;; K) (shows_more (a ++ b) t) t.
Proof.
  intros Hm Hs HK. wp_step. eapply wp_mono; [exact Hm|]. intros [] t1 [H1 P1].
  eapply wp_mono; [apply HK; [done|by eapply printed_showing]|]. intros [] t2 [H2 P2].
  split; [done|]. by eapply printed_app.
Qed.

Lemma wp_arg (print : Z → M term unit) f k K ap text t :
  with_arg ap f k = Some text →
  (∀ x s t, f x = Some s → tinvk (t_mem t) → showing t → wp (print x) (shows_more s t) t) →
  (∀ ap' text' t', k ap' = Some text' → tinvk (t_mem t') → showing t' → wp (K ap') (shows_more text' t') t') →
  tinvk (t_mem t) → showing t →
  wp ('(x, ap) ← va_arg ap; print x;; K ap) (shows_more text t) t.
Proof.
  intros E Hp HK Hi Hs. destruct ap as [|x ap]; [done|]. simpl in E.
  destruct (f x) as [a|] eqn:Ef; [|done]. simpl in E. destruct (k ap) as [b|] eqn:Ek; [|done].
  simpl in E. injection E as <-. unfold va_arg. wp_step. wp_step. apply wp_then; [by apply Hp|done|]. intros. by apply HK.
Qed.

Lemma fmt_char pre c rest h : tinvk h → fmt ++ [0] = pre ++ c :: rest →
  h !! (str + Z.of_nat (length pre)) = Some c.
Proof.
  intros (_ & _ & [Hb _] & _) E. rewrite E in Hb. apply bytes_at_app in Hb as [_ Hb].
  by apply bytes_at_cons in Hb as [? _].
Qed.

Lemma wp_fmt pre c rest t (Q : Z → term → Prop) : tinvk (t_mem t) → fmt ++ [0] = pre ++ c :: rest →
  Q c t → wp (on_mem (load8 (str + Z.of_nat (length pre)))) Q t.
Proof. intros Hi E HQ. apply wp_on_mem. eapply wp_load8; [by eapply fmt_char|]. by rewrite term_eta. Qed.

Lemma s32_range x : - 2 ^ 63 ≤ s32 x < 2 ^ 63.
Proof. unfold s32, sint. pose proof (Z.mod_pos_bound x (2 ^ 32) ltac:(lia)). case_match; simpl in *; lia. Qed.
Lemma s64_range x : - 2 ^ 63 ≤ s64 x < 2 ^ 63.
Proof.
  unfold s64, sint. pose proof (Z.mod_pos_bound x (2 ^ 64) ltac:(lia)). change (2 ^ (64 - 1)) with (2 ^ 63).
  destruct (Z.ltb_spec (x mod 2 ^ 64) (2 ^ 63)); lia.
Qed.
Lemma u32_u64 x : 0 ≤ u32 x < 2 ^ 64.
Proof. pose proof (u32_range x). lia. Qed.

Ltac print_arg IH :=
  eapply wp_arg; [eassumption| | |eassumption|eassumption];
  [ intros ??? [= <-] ??;
    first [ by apply wp_print_d; [first [apply s32_range|apply s64_range]|..]
          | by apply wp_print_u; [first [apply u32_u64|apply u64_range]|..]
          | by apply wp_print_hex; [first [apply u32_u64|apply u64_range]|..]
          | by apply putc_ok; [apply u8_range|..] ]
  | intros; by eapply IH ].

(** The loop, entered at index [i], prints what the rest [fm] of the format stands for. *)
Definition resumes (fuel : nat) (i : Z) (fm : list Z) : Prop := ∀ ap text t,
  expand strs fm ap = Some text → tinvk (t_mem t) → showing t →
  wp (printfk_loop putc puts frame fuel str (Z.of_nat (length fmt)) i ap) (shows_more text t) t.

Lemma long_conversion fuel pre fm ap text t :
  fmt = pre ++ fm → resumes fuel (Z.of_nat (length pre)) fm →
  (∀ l fm', fm = l :: fm' → resumes fuel (Z.of_nat (length pre) + 1) fm') →
  match fm with
  | [] => Some []
  | l :: rest' =>
      if l =? chr "d" then with_arg ap (λ x, Some (dec_text (s64 x))) (expand strs rest')
      else if l =? chr "u" then with_arg ap (λ x, Some (decimal (u64 x))) (expand strs rest')
      else if l =? chr "x" then with_arg ap (λ x, Some (hex_text (u64 x))) (expand strs rest')
      else expand strs fm ap
  end = Some text →
  tinvk (t_mem t) → showing t →
  let len := Z.of_nat (length fmt) in let i := Z.of_nat (length pre) in
  wp (l ← on_mem (load8 (str + i));
      if l =? chr "d" then '(x, ap) ← va_arg ap; print_d puts frame (s64 x);; printfk_loop putc puts frame fuel str len (i + 1) ap
      else if l =? chr "u" then '(x, ap) ← va_arg ap; print_u puts frame (u64 x);; printfk_loop putc puts frame fuel str len (i + 1) ap
      else if l =? chr "x" then '(x, ap) ← va_arg ap; print_hex puts frame (u64 x);; printfk_loop putc puts frame fuel str len (i + 1) ap
      else printfk_loop putc puts frame fuel str len (i - 1 + 1) ap) (shows_more text t) t.
Proof.
  intros E Hnext Hnext2 Ex Hi Hs len i. destruct fm as [|l fm]; wp_step.
  - eapply (wp_fmt _ 0 []); [done|by rewrite E, <-!app_assoc|]. injection Ex as <-.
    change (0 =? chr "d") with false. change (0 =? chr "u") with false. change (0 =? chr "x") with false. cbv iota.
    rewrite Z.sub_add. by apply (Hnext ap []).
  - specialize (Hnext2 l fm eq_refl). unfold resumes in Hnext2. eapply (wp_fmt _ l (fm ++ [0])); [done|by rewrite E, <-!app_assoc|].
    destruct (l =? chr "d"); [print_arg Hnext2|]. destruct (l =? chr "u"); [print_arg Hnext2|].
    destruct (l =? chr "x"); [print_arg Hnext2|]. rewrite Z.sub_add. by apply (Hnext ap text).
Qed.

Lemma printfk_loop_spec fuel pre fm :
  fmt = pre ++ fm → (length fm < fuel)%nat → resumes fuel (Z.of_nat (length pre)) fm.
Proof.
  revert pre fm. induction fuel as [|fuel IH]; intros pre fm E Hf ap text t Ex Hi Hs; [lia|].
  assert (∀ k fm', (0 < length k)%nat → fm = k ++ fm' →
    resumes fuel (Z.of_nat (length pre) + Z.of_nat (length k)) fm') as Hrec.
  { intros k fm' Hk Ek. rewrite <-Nat2Z.inj_add, <-length_app.
    apply (IH (pre ++ k) fm'); [by rewrite E, Ek, app_assoc|]. rewrite Ek, length_app in Hf. lia. }
  clear IH. cbn -[Z.ltb Z.eqb Z.add Z.sub load8 chr].
  destruct fm as [|c fm].
  { rewrite app_nil_r in E. subst pre. rewrite Z.ltb_irrefl. injection Ex as <-. wp_go. split; [done|]. by apply printed_nil. }
  destruct (Z.ltb_spec (Z.of_nat (length pre)) (Z.of_nat (length fmt))) as [_|Hc]; [|rewrite E, length_app in Hc; simpl in Hc; lia].
  wp_step. eapply (wp_fmt pre c (fm ++ [0])); [done|by rewrite E, <-app_assoc|].
  assert (∀ s, expand strs fm ap = Some s → text = c :: s →
    wp (putc c;; printfk_loop putc puts frame fuel str (Z.of_nat (length fmt)) (Z.of_nat (length pre) + 1) ap) (shows_more text t) t) as Hplain.
  { intros s Es ->. apply (wp_then _ _ [c] s); [|done|].
    { apply putc_ok; [|done|done]. pose proof Hi as (Hbm & _). eapply Hbm, (fmt_char pre c (fm ++ [0])); [done|by rewrite E, <-app_assoc]. }
    intros. by apply (Hrec [c] fm); [simpl; lia|..]. }
  simpl in Ex. destruct (Z.eqb_spec c (chr "%")) as [->|Hp]; simpl.
  2: { destruct (expand strs fm ap) as [s|] eqn:Es; [|done]. simpl in Ex. injection Ex as <-. by apply (Hplain s). }
  destruct fm as [|d fm].
  { destruct (Z.ltb_spec (Z.of_nat (length pre) + 1) (Z.of_nat (length fmt))) as [Hlt|_];
      [rewrite E, length_app in Hlt; simpl in Hlt; lia|]. injection Ex as <-. by apply (Hplain []). }
  destruct (Z.ltb_spec (Z.of_nat (length pre) + 1) (Z.of_nat (length fmt))) as [_|Hge];
    [|rewrite E, length_app in Hge; simpl in Hge; lia].
  pose proof (Hrec [chr "%"; d] fm ltac:(simpl; lia) eq_refl) as Hnext.
  change (Z.of_nat (length [chr "%"; d])) with (1 + 1) in Hnext. rewrite Z.add_assoc in Hnext. unfold resumes in Hnext.
  wp_step. replace (Z.of_nat (length pre) + 1) with (Z.of_nat (length (pre ++ [chr "%"]))) at 1 by (rewrite length_app; simpl; lia).
  eapply (wp_fmt (pre ++ [chr "%"]) d (fm ++ [0])); [done|by rewrite E, <-!app_assoc|].
  destruct (d =? chr "d"); [print_arg Hnext|]. destruct (d =? chr "u"); [print_arg Hnext|].
  destruct (d =? chr "s"); [eapply wp_arg; [exact Ex|intros; by apply wp_print_str|intros; by apply Hnext|done|done]|].
  destruct (d =? chr "c"); [print_arg Hnext|]. destruct (d =? chr "p"); [print_arg Hnext|].
  destruct (d =? chr "x"); [print_arg Hnext|].
  destruct (Z.eqb_spec d (chr "l")) as [->|Hl].
  - replace (Z.of_nat (length pre) + 1 + 1) with (Z.of_nat (length (pre ++ [chr "%"; chr "l"]))) in * by (rewrite length_app; simpl; lia).
    apply (long_conversion fuel (pre ++ [chr "%"; chr "l"]) fm); [by rewrite E, <-app_assoc|done| |done..].
    intros l fm' ->. rewrite length_app, Nat2Z.inj_add, <-Z.add_assoc. by apply (Hrec [chr "%"; chr "l"; l] fm'); [simpl; lia|..].
  - rewrite Z.add_simpl_r. wp_step. eapply (wp_fmt pre (chr "%") (d :: fm ++ [0])); [done|by rewrite E, <-app_assoc|].
    destruct (expand strs (d :: fm) ap) as [s|] eqn:Es; [|done]. simpl in Ex. injection Ex as <-. by apply (Hplain s).
Qed.
End printing.

Definition tinv (frame str : Z) (fmt : list Z) (strs : Z → option (list Z)) : mem → Prop := tinvk frame str fmt strs (λ _, True).

(** C39: formatted output.  For a format and arguments that expand (every
    conversion has an argument, every string argument is a C string), [printfk]
    returns and the screen shows exactly the expansion behind what it showed:
    decimal numerals with sign, hexadecimal numerals, characters and strings.  No
    number overruns the array it is written into (22 bytes for a signed, 21 for an unsigned
    number, 23 for a pointer), and the format and the strings are left alone. *)
Theorem printfk_shows frame str fmt strs ap text t hist cur :
  0 < frame → str ≠ 0 → Z.of_nat (length fmt) < 2 ^ 32 →
  away frame str (Z.of_nat (length fmt) + 1) → tinv frame str fmt strs (t_mem t) →
  expand strs fmt ap = Some text → shows hist cur (scr t) →
  wp (printfk frame str ap) (λ _ t', tinv frame str fmt strs (t_mem t') ∧
    let '(hist', cur') := foldl (put_cell (terminal_color (scr t))) (hist, cur) text in
    shows hist' cur' (scr t')) t.
Proof.
  intros Hf Hs Hl Ha Hi Ex Hsh. unfold printfk. wp_step. apply wp_on_mem.
  eapply wp_strlen; [by destruct Hi as (_ & _ & ? & _)|done|done|]. rewrite term_eta, Nat2Z.id.
  eapply wp_mono; [apply (printfk_loop_spec frame str fmt strs (λ _, True) put_char put_string (λ _ _ _ _, I) Hf wp_put_string Ha) with (pre := []) (fm := fmt); [|done|lia|done|done|by exists hist, cur]|].
  { intros c t1 _ Hi1 Hs1. apply wp_put_char; [done|]. intros t2 E2 P2. split; [by rewrite E2|done]. }
  intros [] t' [Ht' P']. split; [done|]. by apply P'.
Qed.

(** ** A concrete terminal: the format n=%d and a newline at 256, the number buffer at 512 *)

Definition fmt_n : list Z := [chr "n"; chr "="; chr "%"; chr "d"; 10].
Definition term0 : term :=
  Term (list_to_map (zip (seqZ 256 6) (fmt_n ++ [0]) ++ ((λ a, (a, 0)) <$> seqZ 512 23)))
       (Kbd kbStatus0 (KbQueue (replicate 256 0) 0 0) (Vga 0 0 7 (replicate 2000 (vga_entry 32 7)) []) 0) 0.

Lemma term0_tinv : tinv 512 256 fmt_n (λ _, None) (t_mem term0).
Proof.
  split_and!; [| | |done|done].
  - intros a v Ha. apply elem_of_list_to_map_2, elem_of_app in Ha as [Ha|Ha].
    + vm_compute in Ha. repeat (apply elem_of_cons in Ha as [[= -> ->]|Ha]; [lia|]). by apply not_elem_of_nil in Ha.
    + apply list_elem_of_fmap in Ha as (? & [= _ ->] & _). lia.
  - intros i Hi. assert (i ∈ seqZ 0 23) as Hin by (apply elem_of_seqZ; lia). clear Hi.
    revert i Hin. apply Forall_forall. repeat constructor; vm_compute; eauto.
  - repeat (apply cstr_cons; split; [reflexivity|split; [done|]]). by apply cstr_nil.
Qed.

Lemma term0_shows : shows [] [] (scr term0).
Proof.
  split; [|split; [reflexivity|simpl; lia]]. apply rows_init; [vm_compute; reflexivity|reflexivity|].
  intros j Hj. unfold term0, scr. cbn [kb_vga t_kbd terminal_buffer]. by rewrite lookup_replicate_2.
Qed.

Lemma printfk_shows_witness :
  wp (printfk 512 256 [- 42]) (λ _ t', tinv 512 256 fmt_n (λ _, None) (t_mem t') ∧
    let '(hist', cur') := foldl (put_cell 7) ([], []) [chr "n"; chr "="; chr "-"; chr "4"; chr "2"; 10] in
    shows hist' cur' (scr t')) term0.
Proof.
  apply (printfk_shows 512 256 fmt_n (λ _, None) [- 42] _ term0 [] []);
    [lia|lia|simpl; lia|unfold away; simpl; lia|exact term0_tinv|vm_compute; reflexivity|exact term0_shows].
Defined.

(** Two percent signs do not escape: the second one starts a conversion. *)
Example percent_not_escaped :
  expand (λ _, None) [chr "%"; chr "%"; chr "d"] [5] = Some [chr "%"; chr "5"].
Proof. reflexivity. Qed.
