(* ===== verification/FdHash.v ===== *)
(** * File descriptors

    Models [kernel/fs/hash.c]: the table from descriptors to inodes and the hash
    table from inodes (their addresses) back to descriptors, with quadratic
    probing.  A key of 0 is an empty slot. *)

From S2P Require Import Prelude Vm.
From Stdlib Require Import ZArith Lia.
From stdpp Require Import base numbers gmap list.
Open Scope Z_scope.

Definition FILE_TABLE_SIZE : Z := 1024.
Definition FILE_HASH_SIZE : Z := 1031.
Definition FILE_HASH_SQRT : Z := 32.

Record hash_entry := HashEntry { key : Z; value : Z }.
Record hash := Hash { entry : list hash_entry; file_table : list Z }.

Definition hash0 : hash :=
  Hash (replicate (Z.to_nat FILE_HASH_SIZE) (HashEntry 0 0)) (replicate (Z.to_nat FILE_TABLE_SIZE) 0).

Definition rd_entry (i : Z) : M hash hash_entry := h ← get; deref (entry h !! Z.to_nat i).
Definition wr_entry (i : Z) (e : hash_entry) : M hash unit :=
  _ ← rd_entry i; modify (λ h, Hash (<[Z.to_nat i := e]> (entry h)) (file_table h)).
(** [file_table[fd]]; a negative index is outside the array. *)
Definition rd_file (fd : Z) : M hash Z :=
  h ← get; if fd <? 0 then fail Fault else deref (file_table h !! Z.to_nat fd).
Definition wr_file (fd v : Z) : M hash unit :=
  _ ← rd_file fd; modify (λ h, Hash (entry h) (<[Z.to_nat fd := v]> (file_table h))).

Definition hash_generate (inode : Z) : M hash Z :=
  assertk (KERNEL_START <? inode);; mret ((inode - KERNEL_START) mod FILE_HASH_SIZE).

Definition hash_conflict (index i : Z) : Z := u32 (index + i * i) mod FILE_HASH_SIZE.

(** [for (int i = lo; i <= FILE_HASH_SQRT; ++i)]; [n] rounds are left. *)
Fixpoint insert_loop (n : nat) (i _hash inode fd : Z) : M hash unit :=
  match n with
  | O => assertk false
  | S n =>
      let index := hash_conflict _hash i in
      e ← rd_entry index;
      if key e =? 0 then wr_entry index (HashEntry inode fd)
      else insert_loop n (i + 1) _hash inode fd
  end.

Definition hash_insert (inode fd : Z) : M hash unit :=
  _hash ← hash_generate inode;
  insert_loop (Z.to_nat (FILE_HASH_SQRT + 1)) 0 _hash inode fd.

Fixpoint findf_loop (n : nat) (i _hash inode : Z) : M hash (option Z) :=
  match n with
  | O => mret None
  | S n =>
      let index := hash_conflict _hash i in
      e ← rd_entry index;
      if key e =? inode then mret (Some index) else findf_loop n (i + 1) _hash inode
  end.

(** The index of the entry found. *)
Definition hash_findf (inode : Z) : M hash (option Z) :=
  _hash ← hash_generate inode;
  findf_loop (Z.to_nat (FILE_HASH_SQRT + 1)) 0 _hash inode.

Definition hash_findi (fd : Z) : M hash Z := rd_file fd.

Definition hash_del (inode : Z) : M hash unit :=
  o ← hash_findf inode;
  match o with
  | None => assertk false
  | Some idx => e ← rd_entry idx; wr_entry idx (HashEntry 0 (value e))
  end.

Definition free_fd (fd : Z) : M hash unit :=
  assertk (0 <=? fd);;
  inode ← rd_file fd;
  assertk (negb (inode =? 0));;
  wr_file fd 0;;
  hash_del inode.

Fixpoint alloc_loop (n : nat) (i inode : Z) : M hash Z :=
  match n with
  | O => assertk false;; mret (-1)
  | S n =>
      f ← rd_file i;
      if f =? 0 then wr_file i inode;; hash_insert inode i;; mret i
      else alloc_loop n (i + 1) inode
  end.

Definition alloc_fd (inode : Z) : M hash Z :=
  assertk (negb (inode =? 0));;
  o ← hash_findf inode;
  match o with
  | Some idx => e ← rd_entry idx; mret (value e)
  | None => alloc_loop (Z.to_nat FILE_TABLE_SIZE) 0 inode
  end.

Definition get_inode (fd : Z) : M hash Z := hash_findi fd.

(** ** The contract: a one-to-one map between descriptors and inodes *)

(** The slots an inode may live in, in the order they are tried. *)
Definition slot (inode i : Z) : Z := hash_conflict ((inode - KERNEL_START) mod FILE_HASH_SIZE) i.
Definition probes (inode idx : Z) : Prop := ∃ i, 0 ≤ i ≤ 32 ∧ idx = slot inode i.

(** [fds] is the map the two tables hold: descriptor [fd] names inode [fds !! fd]. *)
Record fd_rep (fds : gmap Z Z) (h : hash) : Prop := {
  rep_entries : length (entry h) = 1031%nat;
  rep_files : length (file_table h) = 1024%nat;
  rep_table : ∀ fd, 0 ≤ fd < 1024 → file_table h !! Z.to_nat fd = Some (default 0 (fds !! fd));
  rep_range : ∀ fd inode, fds !! fd = Some inode → 0 ≤ fd < 1024 ∧ KERNEL_START < inode;
  rep_slot : ∀ fd inode, fds !! fd = Some inode →
    ∃ idx, probes inode idx ∧ entry h !! Z.to_nat idx = Some (HashEntry inode fd);
  rep_entry : ∀ idx e, 0 ≤ idx → entry h !! Z.to_nat idx = Some e → key e ≠ 0 →
    fds !! value e = Some (key e) ∧ probes (key e) idx;
  rep_unique : ∀ idx idx' e e', 0 ≤ idx → 0 ≤ idx' → entry h !! Z.to_nat idx = Some e →
    entry h !! Z.to_nat idx' = Some e' → key e ≠ 0 → key e = key e' → idx = idx'
}.

Lemma slot_range inode i : 0 ≤ slot inode i < 1031.
Proof. unfold slot, hash_conflict, FILE_HASH_SIZE. apply Z.mod_pos_bound. lia. Qed.

Lemma probes_range inode idx : probes inode idx → 0 ≤ idx < 1031.
Proof. intros (i & _ & ->). apply slot_range. Qed.

Lemma wp_rd_entry i e (Q : hash_entry → hash → Prop) h :
  entry h !! Z.to_nat i = Some e → Q e h → wp (rd_entry i) Q h.
Proof. intros E HQ. unfold rd_entry. by wp_go. Qed.

Lemma wp_wr_entry i e (Q : unit → hash → Prop) h :
  0 ≤ i < Z.of_nat (length (entry h)) →
  Q tt (Hash (<[Z.to_nat i := e]> (entry h)) (file_table h)) → wp (wr_entry i e) Q h.
Proof.
  intros Hi HQ. unfold wr_entry. wp_go. destruct (lookup_lt_is_Some_2 (entry h) (Z.to_nat i)) as [x Hx]; [lia|].
  eapply wp_rd_entry; [done|]. by wp_go.
Qed.

Lemma wp_rd_file fd v (Q : Z → hash → Prop) h :
  0 ≤ fd → file_table h !! Z.to_nat fd = Some v → Q v h → wp (rd_file fd) Q h.
Proof. intros H0 E HQ. unfold rd_file. wp_go. destruct (Z.ltb_spec fd 0); [lia|]. by wp_go. Qed.

Lemma wp_wr_file fd v (Q : unit → hash → Prop) h :
  0 ≤ fd < Z.of_nat (length (file_table h)) →
  Q tt (Hash (entry h) (<[Z.to_nat fd := v]> (file_table h))) → wp (wr_file fd v) Q h.
Proof.
  intros Hi HQ. unfold wr_file. wp_go. destruct (lookup_lt_is_Some_2 (file_table h) (Z.to_nat fd)) as [x Hx]; [lia|].
  eapply wp_rd_file; [lia|done|]. by wp_go.
Qed.

(** The search finds the slot of the inode when it has one. *)
Lemma wp_findf_loop n i inode (Q : option Z → hash → Prop) h :
  length (entry h) = 1031%nat →
  (∀ j e, i ≤ j < i + Z.of_nat n → entry h !! Z.to_nat (slot inode j) = Some e → key e = inode → Q (Some (slot inode j)) h) →
  ((∀ j e, i ≤ j < i + Z.of_nat n → entry h !! Z.to_nat (slot inode j) = Some e → key e ≠ inode) → Q None h) →
  wp (findf_loop n i ((inode - KERNEL_START) mod FILE_HASH_SIZE) inode) Q h.
Proof.
  intros Hl. revert i. induction n as [|n IH]; intros i HS HN; simpl.
  - wp_go. apply HN. lia.
  - fold (slot inode i). pose proof (slot_range inode i).
    destruct (lookup_lt_is_Some_2 (entry h) (Z.to_nat (slot inode i))) as [e He]; [lia|].
    wp_go. eapply wp_rd_entry; [exact He|]. destruct (Z.eqb_spec (key e) inode) as [E|E].
    + wp_go. eapply (HS i e); [lia|done|done].
    + apply IH; [intros j e' Hj; apply (HS j); lia|]. intros HN'. apply HN. intros j e' Hj He'.
      destruct (decide (j = i)) as [->|]; [congruence|]. apply (HN' j); [lia|done].
Qed.

Lemma wp_hash_findf fds inode (Q : option Z → hash → Prop) h :
  fd_rep fds h → KERNEL_START < inode →
  (∀ idx fd, 0 ≤ idx < 1031 → entry h !! Z.to_nat idx = Some (HashEntry inode fd) → fds !! fd = Some inode → Q (Some idx) h) →
  ((∀ fd, fds !! fd ≠ Some inode) → Q None h) →
  wp (hash_findf inode) Q h.
Proof.
  intros Hr Hk HS HN. unfold hash_findf, hash_generate. wp_go; [by apply Z.ltb_lt|].
  change (Z.to_nat (FILE_HASH_SQRT + 1)) with 33%nat. assert (inode ≠ 0) by (unfold KERNEL_START in Hk; lia).
  apply wp_findf_loop; [apply Hr| |].
  - intros j e Hj He Hke. pose proof (slot_range inode j) as Hs. destruct e as [k fd]. simpl in Hke. subst k.
    apply (HS _ fd); [done|done|]. by apply (rep_entry _ _ Hr _ _ (proj1 Hs) He).
  - intros Hno. apply HN. intros fd E. destruct (rep_slot _ _ Hr fd inode E) as (idx & (j & Hj & ->) & He).
    by apply (Hno j _ ltac:(lia) He).
Qed.

(** ** Releasing *)

Lemma rep_delete fds h fd inode idx v :
  fd_rep fds h → fds !! fd = Some inode → 0 ≤ idx < 1031 →
  entry h !! Z.to_nat idx = Some (HashEntry inode fd) →
  fd_rep (delete fd fds)
    (Hash (<[Z.to_nat idx := HashEntry 0 v]> (entry h)) (<[Z.to_nat fd := 0]> (file_table h))).
Proof.
  intros Hr Hfd Hidx He. pose proof (rep_range _ _ Hr fd inode Hfd) as [Hf Hk].
  assert (∀ j e, 0 ≤ j → <[Z.to_nat idx := HashEntry 0 v]> (entry h) !! Z.to_nat j = Some e → key e ≠ 0 →
    j ≠ idx ∧ entry h !! Z.to_nat j = Some e) as Hold.
  { intros j e Hj E Hke. destruct (decide (j = idx)) as [->|].
    - rewrite list_lookup_insert_eq in E by (rewrite (rep_entries _ _ Hr); lia). injection E as <-. by destruct Hke.
    - rewrite list_lookup_insert_ne in E by lia. done. }
  split; simpl.
  - rewrite length_insert. apply Hr.
  - rewrite length_insert. apply Hr.
  - intros g Hg. destruct (decide (g = fd)) as [->|].
    + rewrite list_lookup_insert_eq by (rewrite (rep_files _ _ Hr); lia). by rewrite lookup_delete_eq.
    + rewrite list_lookup_insert_ne, lookup_delete_ne by lia. by apply Hr.
  - intros g i. rewrite lookup_delete_Some. intros [_ E]. by eapply rep_range.
  - intros g i. rewrite lookup_delete_Some. intros [Hne E]. destruct (rep_slot _ _ Hr g i E) as (j & Hp & Hj).
    exists j. split; [done|]. pose proof (probes_range _ _ Hp). rewrite list_lookup_insert_ne; [done|].
    intros Eij. rewrite Eij, Hj in He. congruence.
  - intros j e Hj E Hke. destruct (Hold j e Hj E Hke) as [Hne E']. destruct (rep_entry _ _ Hr j e Hj E' Hke) as [E1 E2].
    split; [|done]. rewrite lookup_delete_ne; [done|]. intros ->. apply Hne.
    apply (rep_unique _ _ Hr j idx e (HashEntry inode (value e))); try done; [lia|]. simpl. congruence.
  - intros j j' e e' Hj Hj' E E' Hke Eq. destruct (Hold j e Hj E Hke) as [_ E1].
    destruct (Hold j' e' Hj' E' ltac:(congruence)) as [_ E2]. by apply (rep_unique _ _ Hr j j' e e').
Qed.

Lemma wp_free_fd fds fd inode (Q : unit → hash → Prop) h :
  fd_rep fds h → fds !! fd = Some inode → (∀ h', fd_rep (delete fd fds) h' → Q tt h') → wp (free_fd fd) Q h.
Proof.
  intros Hr Hfd HQ. pose proof (rep_range _ _ Hr fd inode Hfd) as [Hf Hk]. unfold free_fd, hash_del.
  wp_go; [apply Z.leb_le; lia|]. eapply wp_rd_file; [lia|by apply Hr|]. rewrite Hfd. simpl.
  wp_go; [destruct (Z.eqb_spec inode 0); [unfold KERNEL_START in Hk; lia|done]|].
  apply wp_wr_file; [rewrite (rep_files _ _ Hr); lia|]. wp_go.
  unfold hash_findf, hash_generate. wp_go; [by apply Z.ltb_lt|].
  change (Z.to_nat (FILE_HASH_SQRT + 1)) with 33%nat. destruct (rep_slot _ _ Hr fd inode Hfd) as (idx & (i & Hi & ->) & He).
  pose proof (slot_range inode i).
  apply wp_findf_loop; simpl; [apply Hr| |].
  - intros j e Hj Hej Hke. pose proof (slot_range inode j).
    assert (slot inode j = slot inode i) as ->.
    { apply (rep_unique _ _ Hr _ _ e (HashEntry inode fd)); try done; simpl; try lia. unfold KERNEL_START in Hk. lia. }
    wp_go. eapply wp_rd_entry; [exact He|]. apply wp_wr_entry; [simpl; rewrite (rep_entries _ _ Hr); lia|].
    apply HQ. by apply (rep_delete fds h fd inode).
  - intros Hno. exfalso. by apply (Hno i _ ltac:(lia) He).
Qed.

(** ** Allocating *)

Definition free_slot (h : hash) (inode i : Z) : Prop := ∃ e, entry h !! Z.to_nat (slot inode i) = Some e ∧ key e = 0.

#[export] Instance free_slot_dec h inode i : Decision (free_slot h inode i).
Proof.
  destruct (entry h !! Z.to_nat (slot inode i)) as [e|] eqn:E.
  - destruct (decide (key e = 0)); [left; by exists e|right; intros (e' & ? & ?); congruence].
  - right. intros (e' & ? & ?). congruence.
Defined.

Lemma insert_loop_cases n i inode fd h :
  length (entry h) = 1031%nat →
  (∃ j, i ≤ j < i + Z.of_nat n ∧ free_slot h inode j ∧
     insert_loop n i ((inode - KERNEL_START) mod FILE_HASH_SIZE) inode fd h =
     Ok (tt, Hash (<[Z.to_nat (slot inode j) := HashEntry inode fd]> (entry h)) (file_table h))) ∨
  ((∀ j, i ≤ j < i + Z.of_nat n → ¬ free_slot h inode j) ∧
   insert_loop n i ((inode - KERNEL_START) mod FILE_HASH_SIZE) inode fd h = Err Assert).
Proof.
  intros Hl. revert i. induction n as [|n IH]; intros i.
  - right. split; [lia|done].
  - pose proof (slot_range inode i). simpl. fold (slot inode i).
    destruct (lookup_lt_is_Some_2 (entry h) (Z.to_nat (slot inode i))) as [e He]; [lia|].
    assert (rd_entry (slot inode i) h = Ok (e, h)) as Hrd
      by (unfold rd_entry, mbind, M_bind, get, deref; by rewrite He).
    rewrite !(bind_Ok _ _ _ _ _ Hrd).
    destruct (Z.eqb_spec (key e) 0) as [E|E].
    + left. exists i. split_and!; [lia|lia|by exists e|].
      unfold wr_entry. by rewrite (bind_Ok _ _ _ _ _ Hrd).
    + destruct (IH (i + 1)) as [(j & Hj & Hfree & Eq)|[Hno Eq]]; [left|right].
      * exists j. split_and!; [lia|lia|done|done].
      * split; [|done]. intros j Hj Hf. destruct (decide (j = i)) as [->|]; [|by apply (Hno j); [lia|]].
        destruct Hf as (e' & He' & ?). congruence.
Qed.

Lemma rep_insert fds h fd inode j :
  fd_rep fds h → fds !! fd = None → 0 ≤ fd < 1024 → KERNEL_START < inode → (∀ g, fds !! g ≠ Some inode) →
  0 ≤ j ≤ 32 → free_slot h inode j →
  fd_rep (<[fd := inode]> fds)
    (Hash (<[Z.to_nat (slot inode j) := HashEntry inode fd]> (entry h)) (<[Z.to_nat fd := inode]> (file_table h))).
Proof.
  intros Hr Hfd Hf Hk Hnew Hj (e0 & He0 & Hk0). pose proof (slot_range inode j) as Hs.
  assert (∀ i e, 0 ≤ i → <[Z.to_nat (slot inode j) := HashEntry inode fd]> (entry h) !! Z.to_nat i = Some e → key e ≠ 0 →
    (i = slot inode j ∧ e = HashEntry inode fd) ∨
    (i ≠ slot inode j ∧ entry h !! Z.to_nat i = Some e ∧ fds !! value e = Some (key e) ∧ key e ≠ inode)) as Hold.
  { intros i e Hi E Hke. destruct (decide (i = slot inode j)) as [->|].
    - rewrite list_lookup_insert_eq in E by (rewrite (rep_entries _ _ Hr); lia). injection E as <-. by left.
    - rewrite list_lookup_insert_ne in E by lia. destruct (rep_entry _ _ Hr i e Hi E Hke) as [E1 _].
      right. split_and!; [done|done|done|]. intros Eq. rewrite Eq in E1. by apply (Hnew (value e)). }
  split; simpl.
  - rewrite length_insert. apply Hr.
  - rewrite length_insert. apply Hr.
  - intros g Hg. destruct (decide (g = fd)) as [->|].
    + rewrite list_lookup_insert_eq by (rewrite (rep_files _ _ Hr); lia). by rewrite lookup_insert_eq.
    + rewrite list_lookup_insert_ne, lookup_insert_ne by lia. by apply Hr.
  - intros g i. rewrite lookup_insert_Some. intros [[<- <-]|[_ E]]; [done|by eapply rep_range].
  - intros g i. rewrite lookup_insert_Some. intros [[<- <-]|[Hne E]].
    + exists (slot inode j). split; [by exists j|]. apply list_lookup_insert_eq. rewrite (rep_entries _ _ Hr). lia.
    + destruct (rep_slot _ _ Hr g i E) as (idx & Hp & He). exists idx. split; [done|].
      pose proof (probes_range _ _ Hp). pose proof (rep_range _ _ Hr g i E) as [_ Hki]. rewrite list_lookup_insert_ne; [done|].
      intros Eij. rewrite Eij, He in He0. injection He0 as <-. simpl in Hk0. unfold KERNEL_START in Hki. lia.
  - intros i e Hi E Hke. destruct (Hold i e Hi E Hke) as [[-> ->]|(Hne & E' & E1 & _)].
    + simpl. split; [apply lookup_insert_eq|by exists j].
    + split; [|by apply (rep_entry _ _ Hr)]. rewrite lookup_insert_ne; [done|]. intros ->. congruence.
  - intros i i' e e' Hi Hi' E E' Hke Eq.
    destruct (Hold i e Hi E Hke) as [[-> ->]|(_ & E1 & _ & Hn1)], (Hold i' e' Hi' E' ltac:(congruence)) as [[-> ->]|(_ & E2 & _ & Hn2)];
      simpl in *; try congruence. by apply (rep_unique _ _ Hr i i' e e').
Qed.

Definition lowest_free (fds : gmap Z Z) (fd : Z) : Prop :=
  0 ≤ fd < 1024 ∧ fds !! fd = None ∧ ∀ g, 0 ≤ g < fd → is_Some (fds !! g).

Lemma rd_file_eq fds h fd : fd_rep fds h → 0 ≤ fd < 1024 → rd_file fd h = Ok (default 0 (fds !! fd), h).
Proof.
  intros Hr Hf. unfold rd_file, mbind, M_bind, get. destruct (Z.ltb_spec fd 0); [lia|].
  unfold deref. by rewrite (rep_table _ _ Hr fd Hf).
Qed.

Lemma alloc_loop_cases n i fds h inode :
  fd_rep fds h → 0 ≤ i → i + Z.of_nat n = 1024 → (∀ g, 0 ≤ g < i → is_Some (fds !! g)) →
  (∃ fd, lowest_free fds fd ∧ alloc_loop n i inode h = (wr_file fd inode;; hash_insert inode fd;; mret fd) h) ∨
  ((∀ g, 0 ≤ g < 1024 → is_Some (fds !! g)) ∧ alloc_loop n i inode h = Err Assert).
Proof.
  intros Hr. revert i. induction n as [|n IH]; intros i Hi Hn Hg.
  - right. split; [|done]. intros g Hg'. apply Hg. lia.
  - simpl. rewrite (bind_Ok _ _ _ _ _ (rd_file_eq fds h i Hr ltac:(lia))). destruct (fds !! i) as [x|] eqn:E; simpl.
    + destruct (rep_range _ _ Hr i x E) as [_ Hk]. destruct (Z.eqb_spec x 0); [unfold KERNEL_START in Hk; lia|].
      apply IH; [lia|lia|]. intros g Hg'. destruct (decide (g = i)) as [->|]; [by exists x|apply Hg; lia].
    + left. exists i. split; [|done]. split; [lia|done].
Qed.

Lemma wr_file_eq fds h fd v : fd_rep fds h → 0 ≤ fd < 1024 →
  wr_file fd v h = Ok (tt, Hash (entry h) (<[Z.to_nat fd := v]> (file_table h))).
Proof. intros Hr Hf. unfold wr_file. by rewrite (bind_Ok _ _ _ _ _ (rd_file_eq fds h fd Hr Hf)). Qed.

Lemma hash_insert_eq inode fd h : KERNEL_START < inode →
  hash_insert inode fd h = insert_loop 33 0 ((inode - KERNEL_START) mod FILE_HASH_SIZE) inode fd h.
Proof.
  intros Hk. unfold hash_insert, hash_generate, mbind, M_bind, assertk. by rewrite (proj2 (Z.ltb_lt _ _) Hk).
Qed.

Lemma findf_present fds h inode fd : fd_rep fds h → fds !! fd = Some inode →
  ∃ idx, hash_findf inode h = Ok (Some idx, h) ∧ entry h !! Z.to_nat idx = Some (HashEntry inode fd).
Proof.
  intros Hr E. destruct (rep_range _ _ Hr fd inode E) as [_ Hk].
  destruct (wp_elim (hash_findf inode) (λ o h', h' = h ∧ ∃ idx fd', o = Some idx ∧ 0 ≤ idx < 1031 ∧ fds !! fd' = Some inode ∧
    entry h !! Z.to_nat idx = Some (HashEntry inode fd')) h) as (o & h' & Eq & -> & idx & fd' & -> & Hi & E' & He).
  { eapply wp_hash_findf; [done|done|eauto 10|]. intros Hno. by destruct (Hno fd). }
  exists idx. split; [done|]. destruct (rep_slot _ _ Hr fd inode E) as (idx2 & Hp & He2). pose proof (probes_range _ _ Hp).
  assert (idx = idx2) as ->; [|done].
  apply (rep_unique _ _ Hr _ _ (HashEntry inode fd') (HashEntry inode fd)); try done; simpl; try lia. unfold KERNEL_START in Hk. lia.
Qed.

Lemma findf_absent fds h inode : fd_rep fds h → KERNEL_START < inode → (∀ fd, fds !! fd ≠ Some inode) →
  hash_findf inode h = Ok (None, h).
Proof.
  intros Hr Hk Hno. destruct (wp_elim (hash_findf inode) (λ o h', h' = h ∧ o = None) h) as (o & h' & Eq & -> & ->); [|done].
  eapply wp_hash_findf; [done|done| |done]. intros idx fd _ _ E. by destruct (Hno fd).
Qed.

Lemma alloc_fd_ok fds h inode :
  fd_rep fds h → KERNEL_START < inode →
  (∀ fd, fds !! fd = Some inode → alloc_fd inode h = Ok (fd, h)) ∧
  ((∀ fd, fds !! fd ≠ Some inode) →
    (∀ fd, lowest_free fds fd → (∃ j, 0 ≤ j ≤ 32 ∧ free_slot h inode j) →
       ∃ h', alloc_fd inode h = Ok (fd, h') ∧ fd_rep (<[fd := inode]> fds) h' ∧ get_inode fd h' = Ok (inode, h')) ∧
    ((∀ fd, 0 ≤ fd < 1024 → is_Some (fds !! fd)) ∨ (∀ j, 0 ≤ j ≤ 32 → ¬ free_slot h inode j) →
       alloc_fd inode h = Err Assert)).
Proof.
  intros Hr Hk. assert (assertk (negb (inode =? 0)) h = Ok (tt, h)) as Ha.
  { unfold assertk. destruct (Z.eqb_spec inode 0); [unfold KERNEL_START in Hk; lia|done]. }
  unfold alloc_fd. rewrite !(bind_Ok _ _ _ _ _ Ha). split.
  { intros fd E. destruct (findf_present fds h inode fd Hr E) as (idx & Ef & He). rewrite (bind_Ok _ _ _ _ _ Ef).
    unfold rd_entry, mbind, M_bind, get, deref. by rewrite He. }
  intros Hno. rewrite !(bind_Ok _ _ _ _ _ (findf_absent fds h inode Hr Hk Hno)).
  destruct (alloc_loop_cases 1024 0 fds h inode Hr ltac:(lia) ltac:(lia) ltac:(lia)) as [(fd & Hlow & Eq)|[Hfull Eq]];
    change (Z.to_nat FILE_TABLE_SIZE) with 1024%nat; rewrite !Eq.
  - destruct Hlow as (Hf & Hfd & Hbelow). rewrite !(bind_Ok _ _ _ _ _ (wr_file_eq fds h fd inode Hr Hf)).
    set (h1 := Hash _ _). pose proof (hash_insert_eq inode fd h1 Hk) as Ei.
    destruct (insert_loop_cases 33 0 inode fd h1 (rep_entries _ _ Hr)) as [(j & Hj & Hfree & El)|[Hnone El]]; rewrite El in Ei.
    + pose proof (rep_insert fds h fd inode j Hr Hfd Hf Hk Hno ltac:(lia) Hfree) as Hr'.
      rewrite !(bind_Ok _ _ _ _ _ Ei). split.
      * intros fd' (Hf' & Hfd' & Hbelow') _. assert (fd' = fd) as ->.
        { destruct (Z.lt_trichotomy fd fd') as [Hlt|[Heq|Hgt]]; [|done|];
            [destruct (Hbelow' fd ltac:(lia)); congruence|destruct (Hbelow fd' ltac:(lia)); congruence]. }
        unfold h1. cbn [entry file_table]. eexists. split; [reflexivity|]. split; [exact Hr'|]. unfold get_inode, hash_findi.
        rewrite (rd_file_eq _ _ fd Hr' Hf), lookup_insert_eq. done.
      * intros [Hfull|Hnos]; [destruct (Hfull fd Hf); congruence|by destruct (Hnos j ltac:(lia))].
    + rewrite (bind_Err _ _ _ _ Ei). split; [|done]. intros fd' _ (j & Hj & Hfree). by destruct (Hnone j ltac:(lia)).
  - split; [|done]. intros fd (Hf & Hfd & _) _. destruct (Hfull fd Hf). congruence.
Qed.

(** opening.  [alloc_fd] of an inode that has a descriptor returns that
    descriptor.  Otherwise it binds the lowest free descriptor to the inode, and
    [get_inode] then finds the inode; every other binding stays.  The kernel panics
    when no descriptor is free or all 33 slots of the inode are taken. *)
Theorem alloc_fd_correct fds h inode :
  fd_rep fds h → KERNEL_START < inode →
  (∀ fd, fds !! fd = Some inode → alloc_fd inode h = Ok (fd, h)) ∧
  ((∀ fd, fds !! fd ≠ Some inode) →
    (∀ fd, lowest_free fds fd → (∃ j, 0 ≤ j ≤ 32 ∧ free_slot h inode j) →
       ∃ h', alloc_fd inode h = Ok (fd, h') ∧ fd_rep (<[fd := inode]> fds) h' ∧ get_inode fd h' = Ok (inode, h')) ∧
    ((∀ fd, 0 ≤ fd < 1024 → is_Some (fds !! fd)) ∨ (∀ j, 0 ≤ j ≤ 32 → ¬ free_slot h inode j) →
       alloc_fd inode h = Err Assert)).
Proof. apply alloc_fd_ok. Qed.

(** closing.  [free_fd] of a descriptor in use removes exactly its binding, so
    that the inode gets a new descriptor when it is opened again; releasing a
    descriptor that is not in use panics. *)
Theorem free_fd_correct fds h fd :
  fd_rep fds h →
  match fds !! fd with
  | Some inode => ∃ h', free_fd fd h = Ok (tt, h') ∧ fd_rep (delete fd fds) h' ∧ hash_findf inode h' = Ok (None, h')
  | None => fd < 1024 → free_fd fd h = Err Assert
  end.
Proof.
  intros Hr. destruct (fds !! fd) as [inode|] eqn:E.
  - destruct (wp_elim (free_fd fd) (λ _ h', fd_rep (delete fd fds) h') h) as ([] & h' & Eq & Hr'); [by eapply wp_free_fd|].
    exists h'. split_and!; [done|done|]. destruct (rep_range _ _ Hr fd inode E) as [_ Hk].
    eapply findf_absent; [exact Hr'|done|]. intros g. rewrite lookup_delete_Some. intros [Hne Eg]. apply Hne.
    destruct (rep_slot _ _ Hr fd inode E) as (i1 & P1 & E1), (rep_slot _ _ Hr g inode Eg) as (i2 & P2 & E2).
    pose proof (probes_range _ _ P1). pose proof (probes_range _ _ P2).
    assert (i1 = i2) as ->; [|congruence].
    apply (rep_unique _ _ Hr _ _ (HashEntry inode fd) (HashEntry inode g)); try done; simpl; try lia. unfold KERNEL_START in Hk. lia.
  - intros Hlt. unfold free_fd. destruct (Z.leb_spec 0 fd) as [H0|]; [|done].
    rewrite (bind_Ok _ _ _ tt h) by done. rewrite (bind_Ok _ _ _ _ _ (rd_file_eq fds h fd Hr ltac:(lia))), E. done.
Qed.

Lemma hash0_rep : fd_rep ∅ hash0.
Proof.
  split.
  - apply length_replicate.
  - apply length_replicate.
  - intros fd Hfd. unfold hash0. cbn [file_table]. rewrite lookup_replicate_2, lookup_empty by (unfold FILE_TABLE_SIZE; lia).
    reflexivity.
  - intros fd inode E. by rewrite lookup_empty in E.
  - intros fd inode E. by rewrite lookup_empty in E.
  - intros idx e Hi E Hk. apply lookup_replicate_1 in E as [-> _]. by destruct Hk.
  - intros idx idx' e e' _ _ E _ Hk. apply lookup_replicate_1 in E as [-> _]. by destruct Hk.
Qed.

Lemma alloc_fd_correct_witness :
  ∃ h', alloc_fd 0xc0100000 hash0 = Ok (0, h') ∧ fd_rep (<[0 := 0xc0100000]> ∅) h' ∧ get_inode 0 h' = Ok (0xc0100000, h').
Proof.
  destruct (alloc_fd_correct ∅ hash0 0xc0100000 hash0_rep ltac:(unfold KERNEL_START; lia)) as [_ H].
  destruct H as [H _]; [done|]. apply (H 0).
  - split; [lia|]. split; [done|lia].
  - exists 0. split; [lia|]. exists (HashEntry 0 0). split; [|done]. vm_compute. reflexivity.
Defined.

Lemma free_fd_correct_witness : free_fd 3 hash0 = Err Assert.
Proof. pose proof (free_fd_correct ∅ hash0 3 hash0_rep) as H. rewrite lookup_empty in H. apply H. lia. Defined.
