(* ===== verification/Sched.v ===== *)
(** * Tasks: scheduler, timers, sleeping and waking

    Models [kernel/task/schedule.c], [kernel/task/timer.c],
    [kernel/task/thread_mutex.c] and the task bookkeeping of
    [kernel/task/fork.c], as one CPU runs them.  The task lists are circular lists
    over the nodes [snode].  [switch_to] makes another task the current one; what a
    routine does after it is done by that task when it is chosen again.
    [task_struct]s are named by their address. *)

From S2P Require Import Prelude QLib DList Locks.
From Stdlib Require Import ZArith Lia.
From stdpp Require Import base countable numbers gmap list.
Open Scope Z_scope.

Definition TASK_NAME_LEN : Z := 16.
Definition TASK_NUM : Z := 1024.
Definition TASK_MAX_PRIORITY : Z := 3.
Definition TIME_SLICE_LENGTH : Z := 100.
Definition RESET_PRIORITY_INTERVAL : Z := 2.
Definition TIMER_COUNT : Z := 20.

(** ** State *)

Inductive snode :=
  | RunQ (i : Z)          (* scheduler.queue[i] *)
  | Run (t : Z)           (* the run_list of task t *)
  | FinishList | BlockList
  | TimerHd               (* timer_pool.header *)
  | TimerNd (i : Z)       (* _timer[i].head *)
  | MutexSleep (m : Z).   (* the sleep list of mutex m *)

#[export] Instance snode_eq_dec : EqDecision snode.
Proof. solve_decision. Defined.
#[export] Instance snode_countable : Countable snode.
Proof.
  refine (inj_countable'
    (λ n, match n with RunQ i => (0, i) | Run t => (1, t) | FinishList => (2, 0) | BlockList => (3, 0)
                     | TimerHd => (4, 0) | TimerNd i => (5, i) | MutexSleep m => (6, m) end)
    (λ p : Z * Z, let '(k, i) := p in
       if k =? 0 then RunQ i else if k =? 1 then Run i else if k =? 2 then FinishList
       else if k =? 3 then BlockList else if k =? 4 then TimerHd else if k =? 5 then TimerNd i else MutexSleep i) _).
  by intros [].
Defined.

Inductive task_state := TASK_RUNNING | TASK_SLEEPING | TASK_ZOMBIE.
#[export] Instance task_state_eq_dec : EqDecision task_state.
Proof. solve_decision. Defined.

(** The fields of [task_struct] the scheduler works with; the run_list is the node
    [Run t]. *)
Record tcb_t := Tcb {
  pid : Z; state : task_state; priority : Z; timer_slice : Z;
  name : list Z; task_mm : Z; task_lock : spinlock_t }.

Record timer_t := Timer { tm_thread : snode; tm_time : Z }.
Record timer_pool := TimerPool { tp_timer : list Z; tp_top : Z; tp_size : Z }.
Record thread_mutex := Mutex { mx_locked : bool; mx_lock : spinlock_t }.

Record sched := Sched {
  s_heap : gmap snode (list_head snode);
  tcbs : gmap Z tcb_t;
  taskMap : list Z;             (* pid to task, 0 for none *)
  sched_lock : spinlock_t;
  list_lock : spinlock_t;
  map_lock : spinlock_t;
  cur_task : Z; idle_task : Z; init_task : Z; cleaner_task : Z;
  g_tick : Z; update_priority_time : Z;
  timers : gmap Z timer_t; pool : timer_pool;
  mutexes : gmap Z thread_mutex;
  cur_space : Z                 (* the mm whose page directory is loaded *)
}.

Definition with_heap h (s : sched) := Sched h (tcbs s) (taskMap s) (sched_lock s) (list_lock s) (map_lock s) (cur_task s)
  (idle_task s) (init_task s) (cleaner_task s) (g_tick s) (update_priority_time s) (timers s) (pool s) (mutexes s) (cur_space s).
Definition with_tcbs t (s : sched) := Sched (s_heap s) t (taskMap s) (sched_lock s) (list_lock s) (map_lock s) (cur_task s)
  (idle_task s) (init_task s) (cleaner_task s) (g_tick s) (update_priority_time s) (timers s) (pool s) (mutexes s) (cur_space s).
Definition with_map m (s : sched) := Sched (s_heap s) (tcbs s) m (sched_lock s) (list_lock s) (map_lock s) (cur_task s)
  (idle_task s) (init_task s) (cleaner_task s) (g_tick s) (update_priority_time s) (timers s) (pool s) (mutexes s) (cur_space s).
Definition with_sched_lock l (s : sched) := Sched (s_heap s) (tcbs s) (taskMap s) l (list_lock s) (map_lock s) (cur_task s)
  (idle_task s) (init_task s) (cleaner_task s) (g_tick s) (update_priority_time s) (timers s) (pool s) (mutexes s) (cur_space s).
Definition with_list_lock l (s : sched) := Sched (s_heap s) (tcbs s) (taskMap s) (sched_lock s) l (map_lock s) (cur_task s)
  (idle_task s) (init_task s) (cleaner_task s) (g_tick s) (update_priority_time s) (timers s) (pool s) (mutexes s) (cur_space s).
Definition with_map_lock l (s : sched) := Sched (s_heap s) (tcbs s) (taskMap s) (sched_lock s) (list_lock s) l (cur_task s)
  (idle_task s) (init_task s) (cleaner_task s) (g_tick s) (update_priority_time s) (timers s) (pool s) (mutexes s) (cur_space s).
Definition with_cur t sp (s : sched) := Sched (s_heap s) (tcbs s) (taskMap s) (sched_lock s) (list_lock s) (map_lock s) t
  (idle_task s) (init_task s) (cleaner_task s) (g_tick s) (update_priority_time s) (timers s) (pool s) (mutexes s) sp.
Definition with_tick k (s : sched) := Sched (s_heap s) (tcbs s) (taskMap s) (sched_lock s) (list_lock s) (map_lock s) (cur_task s)
  (idle_task s) (init_task s) (cleaner_task s) k (update_priority_time s) (timers s) (pool s) (mutexes s) (cur_space s).
Definition with_upt k (s : sched) := Sched (s_heap s) (tcbs s) (taskMap s) (sched_lock s) (list_lock s) (map_lock s) (cur_task s)
  (idle_task s) (init_task s) (cleaner_task s) (g_tick s) k (timers s) (pool s) (mutexes s) (cur_space s).
Definition with_timers t p (s : sched) := Sched (s_heap s) (tcbs s) (taskMap s) (sched_lock s) (list_lock s) (map_lock s) (cur_task s)
  (idle_task s) (init_task s) (cleaner_task s) (g_tick s) (update_priority_time s) t p (mutexes s) (cur_space s).
Definition with_mutexes m (s : sched) := Sched (s_heap s) (tcbs s) (taskMap s) (sched_lock s) (list_lock s) (map_lock s) (cur_task s)
  (idle_task s) (init_task s) (cleaner_task s) (g_tick s) (update_priority_time s) (timers s) (pool s) m (cur_space s).

Definition on_hp {A} (m : M (gmap snode (list_head snode)) A) : M sched A := zoom s_heap with_heap m.

Definition take_lock (rd : sched → spinlock_t) (wr : spinlock_t → sched → sched) : M sched unit :=
  s ← get; match spinlock_lock (rd s) with Ok l => modify (wr l) | Err e => fail e end.
Definition drop_lock (rd : sched → spinlock_t) (wr : spinlock_t → sched → sched) : M sched unit :=
  s ← get; modify (wr (spinlock_unlock (rd s))).

Definition rd_tcb (t : Z) : M sched tcb_t := s ← get; deref (tcbs s !! t).
Definition upd_tcb (t : Z) (f : tcb_t → tcb_t) : M sched unit :=
  c ← rd_tcb t; modify (λ s, with_tcbs (<[t := f c]> (tcbs s)) s).

Definition set_state v (c : tcb_t) := Tcb (pid c) v (priority c) (timer_slice c) (name c) (task_mm c) (task_lock c).
Definition set_priority v (c : tcb_t) := Tcb (pid c) (state c) v (timer_slice c) (name c) (task_mm c) (task_lock c).
Definition set_slice v (c : tcb_t) := Tcb (pid c) (state c) (priority c) v (name c) (task_mm c) (task_lock c).
Definition set_name v (c : tcb_t) := Tcb (pid c) (state c) (priority c) (timer_slice c) v (task_mm c) (task_lock c).
Definition set_task_lock v (c : tcb_t) := Tcb (pid c) (state c) (priority c) (timer_slice c) (name c) (task_mm c) v.

(** [tcb_entry]: the task a run_list belongs to.  A task is the structure at the start of its
    page; the magic number of one that is no task does not match. *)
Definition tcb_entry (n : snode) : M sched Z :=
  match n with Run t => assertk (Z.land t PAGE_MASK =? 0);; _ ← rd_tcb t; mret t | _ => assertk false;; mret 0 end.

(** ** The scheduler *)

Definition queue_init (q : snode) : M sched unit := on_hp (list_header_init q).

Definition scheduler_init : M sched unit :=
  for_up (Z.to_nat (TASK_MAX_PRIORITY + 1)) 0 (λ i, queue_init (RunQ i));;
  modify (with_sched_lock spinlock_init);;
  modify (λ s, with_upt (u64 (g_tick s + RESET_PRIORITY_INTERVAL * 1000)) s).

Fixpoint chose_loop (n : nat) (i : Z) : M sched (option snode) :=
  match n with
  | O => mret None
  | S n =>
      e ← on_hp (list_empty (RunQ i));
      if negb e then on_hp (list_get_first (RunQ i)) else chose_loop n (i - 1)
  end.

Definition chose_next_task : M sched snode :=
  take_lock sched_lock with_sched_lock;;
  r ← chose_loop (Z.to_nat (TASK_MAX_PRIORITY + 1)) TASK_MAX_PRIORITY;
  drop_lock sched_lock with_sched_lock;;
  match r with
  | Some n => mret n
  | None => s ← get; mret (Run (idle_task s))
  end.

(** The loop over the lower queues, with the local variables [hdr1], [tail1] and
    [tail]. *)
Fixpoint reset_loop (n : nat) (i : Z) (hdr1 tail1 : option snode) (tail : snode)
    : M sched (option snode * option snode) :=
  match n with
  | O => mret (hdr1, tail1)
  | S n =>
      q1 ← on_hp (get_next (RunQ i));
      e ← on_hp (list_empty q1);
      if negb e then
        t1 ← on_hp (get_prev (RunQ i));
        on_hp (set_prev q1 tail);;
        on_hp (set_next tail q1);;
        queue_init (RunQ i);;
        reset_loop n (i - 1) (Some q1) (Some t1) t1
      else reset_loop n (i - 1) hdr1 tail1 tail
  end.

Fixpoint raise_loop (fuel : nat) (hdr head : snode) : M sched unit :=
  match fuel with
  | O => fail Fuel
  | S fuel =>
      if decide (hdr = head) then mret tt
      else
        t ← tcb_entry hdr;
        c ← rd_tcb t;
        if priority c =? TASK_MAX_PRIORITY then mret tt
        else
          upd_tcb t (set_priority TASK_MAX_PRIORITY);;
          p ← on_hp (get_prev hdr);
          raise_loop fuel p head
  end.

Definition reset_priority : M sched unit :=
  let hdr := RunQ TASK_MAX_PRIORITY in
  tail ← on_hp (get_prev hdr);
  take_lock sched_lock with_sched_lock;;
  '(hdr1, tail1) ← reset_loop (Z.to_nat TASK_MAX_PRIORITY) (TASK_MAX_PRIORITY - 1) None None tail;
  drop_lock sched_lock with_sched_lock;;
  match hdr1 with
  | None => mret tt
  | Some _ =>
      match tail1 with
      | None => assertk false
      | Some t1 => on_hp (set_next t1 hdr);; on_hp (set_prev hdr t1)
      end
  end;;
  take_lock sched_lock with_sched_lock;;
  s ← get;
  last ← on_hp (get_prev hdr);
  raise_loop (S (size (s_heap s))) last hdr;;
  drop_lock sched_lock with_sched_lock.

Definition sched_task_add (task : snode) : M sched unit :=
  t ← tcb_entry task;
  take_lock sched_lock with_sched_lock;;
  c ← rd_tcb t;
  on_hp (list_add_prev task (RunQ (priority c)));;
  drop_lock sched_lock with_sched_lock.

Definition schedule : M sched unit :=
  s ← get;
  when (update_priority_time s <=? g_tick s)
    (reset_priority;; modify (λ s, with_upt (u64 (g_tick s + RESET_PRIORITY_INTERVAL * 1000)) s));;
  s ← get;
  let cur := Run (cur_task s) in
  let idle := Run (idle_task s) in
  next ← chose_next_task;
  if bool_decide (next = idle) && bool_decide (cur = idle) then mret tt
  else
    when (negb (bool_decide (cur = idle)))
      (c ← rd_tcb (cur_task s);
       (if negb (priority c =? 0) then
          when (timer_slice c =? 0)
            (upd_tcb (cur_task s) (λ c, set_priority (u16 (priority c - 1)) (set_slice TIME_SLICE_LENGTH c)))
        else upd_tcb (cur_task s) (set_slice TIME_SLICE_LENGTH));;
       c ← rd_tcb (cur_task s);
       when (bool_decide (state c = TASK_RUNNING)) (sched_task_add cur));;
    next_task ← tcb_entry next;
    c ← rd_tcb next_task;
    assertk (bool_decide (state c = TASK_RUNNING));;
    modify (λ s, with_cur next_task (if task_mm c =? 0 then cur_space s else task_mm c) s).

(** ** Sleeping, waking, exiting *)

(** The part of [task_sleep] up to the switch.  [lk] is the lock passed, if any;
    after the switch the task takes it again ([task_sleep_resume]). *)
Definition task_sleep (list : option snode) (lk : option ((sched → spinlock_t) * (spinlock_t → sched → sched)))
    : M sched Z :=
  let block := match list with Some l => l | None => BlockList end in
  s ← get;
  if match lk with Some (rd, _) => negb (spinlock_locked (rd s)) | None => false end then mret (-1)
  else
    match lk with Some (rd, wr) => drop_lock rd wr | None => mret tt end;;
    take_lock list_lock with_list_lock;;
    on_hp (list_add_next (Run (cur_task s)) block);;
    drop_lock list_lock with_list_lock;;
    upd_tcb (cur_task s) (set_state TASK_SLEEPING);;
    schedule;;
    mret 0.

Definition task_sleep_resume (lk : option ((sched → spinlock_t) * (spinlock_t → sched → sched))) : M sched unit :=
  match lk with Some (rd, wr) => take_lock rd wr | None => mret tt end.

Definition task_wakeup (_task : snode) : M sched unit :=
  t ← tcb_entry _task;
  c ← rd_tcb t;
  if negb (bool_decide (state c = TASK_RUNNING)) then
    upd_tcb t (set_state TASK_RUNNING);;
    c ← rd_tcb t;
    match spinlock_lock (task_lock c) with
    | Ok l => upd_tcb t (set_task_lock l)
    | Err e => fail e
    end;;
    on_hp (list_del (Run t));;
    upd_tcb t (λ c, set_task_lock (spinlock_unlock (task_lock c)) c);;
    sched_task_add (Run t)
  else mret tt.

(** [task_exit] up to the switch; the task is never chosen again. *)
Definition task_exit : M sched unit :=
  s ← get;
  assertk (negb (bool_decide (cur_task s = idle_task s)));;
  when (negb (bool_decide (cur_task s = init_task s)))
    (take_lock list_lock with_list_lock;;
     on_hp (list_add_next (Run (cur_task s)) FinishList);;
     drop_lock list_lock with_list_lock;;
     ct ← tcb_entry (Run (cleaner_task s));
     c ← rd_tcb ct;
     when (negb (bool_decide (state c = TASK_RUNNING))) (task_wakeup (Run (cleaner_task s))));;
  upd_tcb (cur_task s) (set_state TASK_ZOMBIE);;
  schedule.

(** ** Process ids *)

Fixpoint alloc_pid_loop (n : nat) (i tcb : Z) : M sched Z :=
  match n with
  | O => mret 0
  | S n =>
      s ← get;
      x ← deref (taskMap s !! Z.to_nat i);
      if x =? 0 then modify (λ s, with_map (<[Z.to_nat i := tcb]> (taskMap s)) s);; mret i
      else alloc_pid_loop n (i + 1) tcb
  end.

Definition alloc_pid (tcb : Z) : M sched Z :=
  take_lock map_lock with_map_lock;;
  r ← alloc_pid_loop (Z.to_nat TASK_NUM) 0 tcb;
  drop_lock map_lock with_map_lock;;
  mret r.

Definition map_get (p : Z) : M sched Z :=
  s ← get; if p <? 0 then fail Fault else deref (taskMap s !! Z.to_nat p).

Definition free_pid (p : Z) : M sched unit :=
  take_lock map_lock with_map_lock;;
  assertk (negb (p =? 0));;
  x ← map_get p;
  assertk (negb (x =? 0));;
  modify (λ s, with_map (<[Z.to_nat p := 0]> (taskMap s)) s);;
  drop_lock map_lock with_map_lock.

Definition map_task (p : Z) : M sched Z :=
  assertk (p <? TASK_NUM);;
  take_lock map_lock with_map_lock;;
  x ← map_get p;
  drop_lock map_lock with_map_lock;;
  mret x.

(** [nm] are the characters of the C string, without its 0; they are copied over
    the start of the name. *)
Definition task_set_name (p : Z) (nm : list Z) : M sched unit :=
  t ← map_task p;
  if negb (t =? 0) then
    let cnt := u8 (Z.of_nat (length nm)) in
    assertk (cnt <=? TASK_NAME_LEN);;
    upd_tcb t (λ c, set_name (take (Z.to_nat cnt) nm ++ drop (Z.to_nat cnt) (name c)) c)
  else mret tt.

Definition task_get_run_list (p : Z) : M sched snode :=
  t ← map_task p; _ ← rd_tcb t; mret (Run t).

Definition task_set_time_slice (p time_slice : Z) : M sched unit :=
  t ← map_task p;
  c ← rd_tcb t;
  assertk (pid c =? p);;
  upd_tcb t (set_slice (u16 time_slice)).

(** ** Timers *)

Definition alloc_timer : M sched (option Z) :=
  s ← get;
  let tp := pool s in
  if negb (tp_top tp =? 0) then
    t ← deref (tp_timer tp !! Z.to_nat (tp_top tp - 1));
    modify (λ s, with_timers (timers s) (TimerPool (tp_timer tp) (tp_top tp - 1) (tp_size tp)) s);;
    mret (Some t)
  else mret None.

Definition free_timer (t : Z) : M sched unit :=
  s ← get;
  let tp := pool s in
  when (negb (tp_top tp =? tp_size tp))
    (_ ← deref (tp_timer tp !! Z.to_nat (tp_top tp));
     modify (λ s, with_timers (timers s)
       (TimerPool (<[Z.to_nat (tp_top tp) := t]> (tp_timer tp)) (tp_top tp + 1) (tp_size tp)) s)).

Definition thread_timer_init : M sched unit :=
  modify (λ s, with_timers (timers s) (TimerPool (tp_timer (pool s)) TIMER_COUNT TIMER_COUNT) s);;
  on_hp (list_header_init TimerHd);;
  for_up (Z.to_nat TIMER_COUNT) 0 (λ i,
    modify (λ s, with_timers (timers s)
      (TimerPool (<[Z.to_nat i := i]> (tp_timer (pool s))) (tp_top (pool s)) (tp_size (pool s))) s)).

Definition ms_sleep_until (msc : Z) : M sched bool :=
  o ← alloc_timer;
  match o with
  | None => mret false
  | Some t =>
      s ← get;
      modify (λ s, with_timers (<[t := Timer (Run (cur_task s)) msc]> (timers s)) (pool s) s);;
      on_hp (list_add_prev (TimerNd t) TimerHd);;
      _ ← task_sleep None None;
      mret true
  end.

Definition ms_sleep (msc : Z) : M sched bool :=
  s ← get; ms_sleep_until (u64 (g_tick s + msc)).

Fixpoint expire_loop (fuel : nat) (hdr : snode) : M sched unit :=
  match fuel with
  | O => fail Fuel
  | S fuel =>
      match hdr with
      | TimerNd t =>
          n ← on_hp (get_next hdr);
          s ← get;
          tm ← deref (timers s !! t);
          when (tm_time tm <=? g_tick s)
            (task_wakeup (tm_thread tm);;
             on_hp (list_del hdr);;
             free_timer t);;
          expire_loop fuel n
      | TimerHd => mret tt
      | _ => fail Fault
      end
  end.

(** The clock interrupt of the boot CPU, but for the acknowledgement at the local
    APIC. *)
Definition clock_isr : M sched unit :=
  modify (λ s, with_tick (u64 (g_tick s + 10)) s);;
  s ← get;
  hdr ← on_hp (get_next TimerHd);
  expire_loop (S (size (s_heap s))) hdr;;
  s ← get;
  c ← rd_tcb (cur_task s);
  if timer_slice c =? 0 then schedule
  else upd_tcb (cur_task s) (λ c, set_slice (u16 (timer_slice c - 10)) c).

(** ** Mutexes that put the task to sleep *)

Definition rd_mutex (m : Z) : M sched thread_mutex := s ← get; deref (mutexes s !! m).
Definition wr_mutex (m : Z) (x : thread_mutex) : M sched unit :=
  _ ← rd_mutex m; modify (λ s, with_mutexes (<[m := x]> (mutexes s)) s).

Definition mx_get (m : Z) (s : sched) : spinlock_t := default spinlock_init (mx_lock <$> mutexes s !! m).
Definition mx_set (m : Z) (l : spinlock_t) (s : sched) : sched :=
  with_mutexes (alter (λ x, Mutex (mx_locked x) l) m (mutexes s)) s.

(** [locked] keeps its old value. *)
Definition thread_mutex_init (m : Z) : M sched unit :=
  x ← rd_mutex m;
  wr_mutex m (Mutex (mx_locked x) spinlock_init);;
  on_hp (list_header_init (MutexSleep m)).

(** Answers whether the mutex was taken.  When the task goes to sleep, it takes the
    spin lock and tests again once it is woken: that is the same call. *)
Definition thread_mutex_lock (m : Z) : M sched bool :=
  _ ← rd_mutex m;
  take_lock (mx_get m) (mx_set m);;
  x ← rd_mutex m;
  if mx_locked x then
    _ ← task_sleep (Some (MutexSleep m)) (Some (mx_get m, mx_set m)); mret false
  else
    wr_mutex m (Mutex true (mx_lock x));;
    drop_lock (mx_get m) (mx_set m);;
    mret true.

Definition thread_mutex_unlock (m : Z) : M sched unit :=
  _ ← rd_mutex m;
  take_lock (mx_get m) (mx_set m);;
  x ← rd_mutex m;
  assertk (mx_locked x);;
  wr_mutex m (Mutex false (mx_lock x));;
  e ← on_hp (list_empty (MutexSleep m));
  when (negb e) (task_wakeup (MutexSleep m));;
  drop_lock (mx_get m) (mx_set m).
