(* ===== verification/SchedCorrect.v ===== *)
(** * Correctness of the scheduler

    The task lists as a family of sequences, the invariant that no task is lost, and
    the proofs that scheduling, sleeping, waking, exiting and raising priorities keep
    it. *)

From S2P Require Import Prelude QLib DList Locks Sched.
From Stdlib Require Import ZArith Lia.
From stdpp Require Import base countable numbers gmap list.
Open Scope Z_scope.

(** ** A family of task lists *)

Definition header (n : snode) : Prop :=
  match n with Run _ | TimerHd | TimerNd _ => False | _ => True end.

Definition unlisted (L : gmap snode (list Z)) (t : Z) : Prop := ∀ hd l, L !! hd = Some l → t ∉ l.

(** The list of header [hd] links the run_lists of the tasks [L !! hd]; a task is in
    one list at most. *)
Definition lists (h : gmap snode (list_head snode)) (L : gmap snode (list Z)) : Prop :=
  (∀ hd l, L !! hd = Some l → header hd ∧ dl h hd (Run <$> l)) ∧
  (∀ h1 h2 l1 l2 t, L !! h1 = Some l1 → L !! h2 = Some l2 → t ∈ l1 → t ∈ l2 → h1 = h2).

(** [h'] differs from [h] in headers and run_lists only. *)
Definition only_tasks (h h' : gmap snode (list_head snode)) : Prop :=
  dom h' = dom h ∧ ∀ q, ¬ header q → (∀ t, q ≠ Run t) → h' !! q = h !! q.

Lemma run_elem t (l : list Z) : Run t ∈ Run <$> l ↔ t ∈ l.
Proof. rewrite list_elem_of_fmap. split; [by intros (? & [= ->] & ?)|eauto]. Qed.

Lemma lists_nodup h L hd l : lists h L → L !! hd = Some l → NoDup l.
Proof.
  intros [HL _] E. destruct (HL hd l E) as [_ Hd]. apply dl_nodup, NoDup_cons in Hd as [_ Hd].
  by apply NoDup_fmap_1 in Hd.
Qed.

Lemma lists_update h h' L hd l l' F :
  lists h L → L !! hd = Some l → dl h' hd (Run <$> l') → keeps F h h' →
  (∀ x, x ∈ F → x = hd ∨ ∃ t, x = Run t ∧ (t ∈ l ∨ unlisted L t)) →
  (∀ t, t ∈ l' → t ∈ l ∨ unlisted L t) →
  lists h' (<[hd := l']> L) ∧ only_tasks h h'.
Proof.
  intros [HL Hdis] E Hd Hk HF Hl'. split; [split|].
  - intros g m. rewrite lookup_insert_Some. intros [[<- <-]|[Hne Eg]].
    { split; [by apply (HL hd l)|done]. }
    destruct (HL g m Eg) as [Hg Hdg]. split; [done|]. eapply keeps_dl; [exact Hk| |done].
    intros x Hx Hin. destruct (HF x Hin) as [->|(t & -> & Ht)].
    + apply elem_of_cons in Hx as [->|Hx]; [done|]. apply list_elem_of_fmap in Hx as (? & -> & _). by destruct (HL _ l E).
    + apply elem_of_cons in Hx as [<-|Hx]; [done|]. apply run_elem in Hx.
      destruct Ht as [Ht|Ht]; [by apply Hne, (Hdis hd g l m t)|by apply (Ht g m)].
  - intros h1 h2 l1 l2 t. rewrite !lookup_insert_Some.
    intros [[<- <-]|[Hn1 E1]] [[<- <-]|[Hn2 E2]] H1 H2; [done| | |by eapply Hdis].
    + destruct (Hl' t H1) as [Ht|Ht]; [by eapply Hdis|by destruct (Ht h2 l2 E2)].
    + destruct (Hl' t H2) as [Ht|Ht]; [by eapply Hdis|by destruct (Ht h1 l1 E1)].
  - destruct Hk as [D K]. split; [done|]. intros q Hq Hr. apply K. intros Hin.
    destruct (HF q Hin) as [->|(t & -> & _)]; [by apply Hq, (HL hd l)|by apply (Hr t)].
Qed.

Lemma unlisted_not_in h L hd l t : lists h L → L !! hd = Some l → unlisted L t → Run t ∉ hd :: (Run <$> l).
Proof.
  intros [HL _] E Hu [Eq|Hin]%elem_of_cons; [destruct (HL hd l E) as [Hh _]; by rewrite <-Eq in Hh|].
  apply run_elem in Hin. by apply (Hu hd l).
Qed.

Lemma wp_add_tail h L hd l t :
  lists h L → L !! hd = Some l → unlisted L t → is_Some (h !! Run t) →
  wp (list_add_prev (Run t) hd) (λ _ h', lists h' (<[hd := l ++ [t]]> L) ∧ only_tasks h h') h.
Proof.
  intros HL E Hu Hm. pose proof (unlisted_not_in _ _ _ _ _ HL E Hu) as Hni. destruct (proj1 HL hd l E) as [Hh Hd].
  eapply wp_mono; [apply (wp_list_add_prev (Run t) hd (Run <$> l)); done|]. intros [] h' [Hd' Hk].
  eapply lists_update; [done|done|by rewrite fmap_app|exact Hk| |].
  - intros x [-> | [-> | Hx]%elem_of_cons]%elem_of_cons; [eauto|by left|]. apply list_elem_of_fmap in Hx as (y & -> & ?). eauto.
  - intros x [?|Hx]%elem_of_app; [by left|]. apply list_elem_of_singleton in Hx as ->. by right.
Qed.

Lemma wp_add_front h L hd l t :
  lists h L → L !! hd = Some l → unlisted L t → is_Some (h !! Run t) →
  wp (list_add_next (Run t) hd) (λ _ h', lists h' (<[hd := t :: l]> L) ∧ only_tasks h h') h.
Proof.
  intros HL E Hu Hm. pose proof (unlisted_not_in _ _ _ _ _ HL E Hu) as Hni. destruct (proj1 HL hd l E) as [Hh Hd].
  eapply wp_mono; [apply (wp_list_add_next (Run t) hd (Run <$> l)); done|]. intros [] h' [Hd' Hk].
  eapply lists_update; [done|done|done|exact Hk| |].
  - intros x [-> | [-> | Hx]%elem_of_cons]%elem_of_cons; [eauto|by left|]. apply list_elem_of_fmap in Hx as (y & -> & ?). eauto.
  - intros x [->|?]%elem_of_cons; [by right|by left].
Qed.

Lemma wp_remove h L hd l1 t l2 :
  lists h L → L !! hd = Some (l1 ++ t :: l2) →
  wp (list_del (Run t)) (λ _ h', lists h' (<[hd := l1 ++ l2]> L) ∧ only_tasks h h') h.
Proof.
  intros HL E. destruct (proj1 HL _ _ E) as [Hh Hd]. rewrite fmap_app, fmap_cons in Hd.
  eapply wp_mono; [by apply (wp_list_del (Run t) hd)|]. intros [] h' (Hd' & Hk & _). rewrite <-fmap_app in *.
  eapply lists_update; [done|done|done|exact Hk| |].
  - intros x [->|Hx]%elem_of_cons; [by left|]. apply list_elem_of_fmap in Hx as (y & -> & Hy). right. exists y. split; [done|]. set_solver.
  - intros x Hx. left. set_solver.
Qed.

Lemma unlisted_insert L hd l t : unlisted L t → t ∉ l → unlisted (<[hd := l]> L) t.
Proof. intros Hu Ht g m. rewrite lookup_insert_Some. intros [[_ <-]|[_ E]]; [done|by apply (Hu g)]. Qed.

Lemma unlisted_removed h L hd l1 t l2 :
  lists h L → L !! hd = Some (l1 ++ t :: l2) → unlisted (<[hd := l1 ++ l2]> L) t.
Proof.
  intros HL E g m. rewrite lookup_insert_Some. pose proof (lists_nodup _ _ _ _ HL E) as Hnd.
  intros [[_ <-]|[Hne Eg]] Ht.
  - apply NoDup_app in Hnd as (_ & H1 & H2). apply NoDup_cons in H2 as [H2 _]. specialize (H1 t). set_solver.
  - apply Hne. apply (proj2 HL hd g _ m t E Eg); [set_solver|exact Ht].
Qed.

Lemma only_tasks_trans h1 h2 h3 : only_tasks h1 h2 → only_tasks h2 h3 → only_tasks h1 h3.
Proof. intros [D1 H1] [D2 H2]. split; [congruence|]. intros q Hq Hr. by rewrite H2, H1. Qed.

Lemma only_tasks_mapped h h' x : only_tasks h h' → is_Some (h !! x) → is_Some (h' !! x).
Proof. intros [D _]. by rewrite <-!elem_of_dom, D. Qed.

(** ** Choosing the next task *)

(** The first task of the highest queue that is not empty. *)
Fixpoint pick (n : nat) (L : gmap snode (list Z)) : option (Z * Z * list Z) :=
  match n with
  | O => None
  | S n =>
      match L !! RunQ (Z.of_nat n) with
      | Some (t :: l) => Some (Z.of_nat n, t, l)
      | _ => pick n L
      end
  end.

Lemma wp_on_hp {A} (m : M (gmap snode (list_head snode)) A) (Q : A → sched → Prop) s :
  wp m (λ a h, Q a (with_heap h s)) (s_heap s) → wp (on_hp m) Q s.
Proof. intros H. unfold on_hp. by wp_go. Qed.

Lemma with_heap_eta s : with_heap (s_heap s) s = s.
Proof. by destruct s. Qed.

Lemma wp_chose_loop n L (Q : option snode → sched → Prop) s :
  lists (s_heap s) L → (∀ i, 0 ≤ i < Z.of_nat n → is_Some (L !! RunQ i)) →
  match pick n L with
  | None => Q None s
  | Some (i, t, l) => ∀ h', lists h' (<[RunQ i := l]> L) → only_tasks (s_heap s) h' → Q (Some (Run t)) (with_heap h' s)
  end →
  wp (chose_loop n (Z.of_nat n - 1)) Q s.
Proof.
  intros HL. induction n as [|n IH]; intros Hq HQ; cbn [chose_loop pick] in *; [by wp_go|].
  replace (Z.of_nat (S n) - 1) with (Z.of_nat n) in * by lia.
  destruct (Hq (Z.of_nat n) ltac:(lia)) as [l El]. destruct (proj1 HL _ _ El) as [_ Hd]. rewrite El in HQ.
  wp_go. apply wp_on_hp. eapply wp_list_empty; [exact Hd|]. rewrite with_heap_eta. destruct l as [|t l].
  - rewrite bool_decide_true by done. cbn [negb]. apply IH; [intros; apply Hq; lia|done].
  - rewrite bool_decide_false by done. cbn [negb]. apply wp_on_hp.
    eapply wp_mono; [by apply (wp_list_get_first_cons (RunQ (Z.of_nat n)) (Run t) (Run <$> l))|].
    intros r h' (-> & Hd' & Hk & _).
    destruct (lists_update (s_heap s) h' L (RunQ (Z.of_nat n)) (t :: l) l (RunQ (Z.of_nat n) :: (Run <$> l))) as [HL' Ho]; try done.
    + intros x [->|Hx]%elem_of_cons; [by left|]. apply list_elem_of_fmap in Hx as (y & -> & Hy). right. exists y. set_solver.
    + intros x Hx. left. set_solver.
    + by apply HQ.
Qed.

Lemma wp_take_lock rd wr (Q : unit → sched → Prop) s :
  rd s = Spinlock 0 → Q tt (wr (Spinlock 1) s) → wp (take_lock rd wr) Q s.
Proof. intros E HQ. unfold take_lock. wp_go. rewrite E. by wp_go. Qed.

Lemma wp_drop_lock rd wr (Q : unit → sched → Prop) s :
  Q tt (wr (Spinlock 0) s) → wp (drop_lock rd wr) Q s.
Proof. intros HQ. unfold drop_lock. by wp_go. Qed.

(** ** Raising all tasks to the highest priority

    While the lower queues are appended to the top one, the top list is open at its
    end. *)

Abbreviation top := (RunQ 3).
Definition end_of (l : list Z) : snode := default top (last (Run <$> l)).

Definition lists_open (h : gmap snode (list_head snode)) (L : gmap snode (list Z)) (acc : list Z) : Prop :=
  L !! top = Some acc ∧
  (NoDup acc ∧ chain h (top :: (Run <$> acc)) ∧ is_Some (h !! top)) ∧
  (∀ hd l, L !! hd = Some l → hd ≠ top → header hd ∧ dl h hd (Run <$> l)) ∧
  (∀ h1 h2 l1 l2 t, L !! h1 = Some l1 → L !! h2 = Some l2 → t ∈ l1 → t ∈ l2 → h1 = h2).

Lemma chain_prefix h (c1 c2 : list snode) : chain h (c1 ++ c2) → chain h c1.
Proof.
  revert c1. induction c1 as [|x [|y c1] IH]; simpl; [done|by destruct c2|]. intros (? & ? & Hc). split_and!; [done|done|].
  apply IH, Hc.
Qed.

Lemma lists_opened h L acc : lists h L → L !! top = Some acc → lists_open h L acc.
Proof.
  intros HLd E. pose proof HLd as [HL Hd]. destruct (HL top acc E) as [_ Ht]. split_and!; [done| | | | |done].
  - by apply (lists_nodup h L top).
  - destruct Ht as [_ Hc]. by apply (chain_prefix h (top :: (Run <$> acc)) [top]).
  - by eapply dl_mapped; [exact Ht|left].
  - intros hd l El _. by apply HL.
Qed.

Lemma end_split acc : ∃ a, top :: (Run <$> acc) = a ++ [end_of acc].
Proof.
  unfold end_of. destruct (exists_last (l := top :: (Run <$> acc))) as (a & p & E); [done|]. exists a. rewrite E. repeat f_equal.
  assert (last (top :: (Run <$> acc)) = Some p) as HL by (by rewrite E, last_snoc).
  destruct (Run <$> acc); simpl in *; [congruence|]. by rewrite HL.
Qed.

Lemma end_cases acc : (acc = [] ∧ end_of acc = top) ∨ ∃ t, t ∈ acc ∧ end_of acc = Run t.
Proof.
  unfold end_of. destruct (last (Run <$> acc)) as [x|] eqn:E.
  - right. apply last_Some_elem_of, list_elem_of_fmap in E as (t & -> & Ht). by exists t.
  - left. apply last_None, fmap_nil_inv in E. done.
Qed.

Lemma end_mapped h L acc : lists_open h L acc → is_Some (h !! end_of acc).
Proof.
  intros (_ & (Hn & Hc & Hm) & _). destruct (end_split acc) as [a E]. rewrite E in Hc.
  destruct a as [|x a] using rev_ind; [simpl in E; injection E as <- _; done|].
  rewrite <-app_assoc in Hc. apply chain_app in Hc as [_ Hc]. simpl in Hc. destruct Hc as (_ & Hp & _). by eapply pv_mapped.
Qed.

(** Appending the open list [acc] and the whole list of queue [i]. *)
Lemma splice_chain h h' acc t l q :
  NoDup (acc ++ t :: l) → (∀ u, q ≠ Run u) → q ≠ top →
  chain h (top :: (Run <$> acc)) → chain h (Run <$> t :: l) →
  (∀ x, nx h' x = if decide (x = end_of acc) then Some (Run t) else if decide (x = q) then nx h' x else nx h x) →
  (∀ x, pv h' x = if decide (x = Run t) then Some (end_of acc) else if decide (x = q) then pv h' x else pv h x) →
  chain h' (top :: (Run <$> acc ++ t :: l)).
Proof.
  intros Hnd Hq1 Hq2 C1 C2 N P. apply NoDup_app in Hnd as (N1 & Hdis & N2). apply NoDup_cons in N2 as [Ht N2].
  destruct (end_split acc) as [a E]. rewrite fmap_app, app_comm_cons, E, fmap_cons, <-app_assoc. simpl.
  assert (NoDup (a ++ [end_of acc])) as Na.
  { rewrite <-E. apply NoDup_cons. split; [|by apply NoDup_fmap_2; [intros ?? [=]|]]. intros Hin. by apply list_elem_of_fmap in Hin as (? & ? & _). }
  apply NoDup_app in Na as (_ & Na & _).
  assert (∀ x, x ∈ a ++ [end_of acc] → x = top ∨ ∃ u, x = Run u ∧ u ∈ acc) as Hin.
  { intros x. rewrite <-E. intros [->|Hx]%elem_of_cons; [by left|]. apply list_elem_of_fmap in Hx as (u & -> & Hu). eauto. }
  apply chain_app. split.
  - rewrite E in C1. revert C1. apply chain_ext.
    + intros x. rewrite removelast_last. intros Hx. rewrite N, decide_False, decide_False; [done| |].
      * intros ->. destruct (Hin q ltac:(set_solver)) as [?|(u & ? & _)]; [done|by apply (Hq1 u)].
      * intros ->. by apply (Na _ Hx), list_elem_of_singleton.
    + intros y Hy. assert (y ∈ Run <$> acc) as Hy' by (rewrite <-E in Hy; done).
      apply list_elem_of_fmap in Hy' as (u & -> & Hu). rewrite P, decide_False, decide_False; [done| |].
      * intros Eq. by apply (Hq1 u).
      * intros [= ->]. apply (Hdis t Hu). by left.
  - apply chain_cons. split_and!.
    + by rewrite N, decide_True.
    + by rewrite P, decide_True.
    + revert C2. apply chain_ext.
      * intros x Hx. assert (x ∈ Run <$> t :: l) as Hx'.
        { rewrite (app_removelast_last top) by done. set_solver. }
        apply list_elem_of_fmap in Hx' as (u & -> & Hu). rewrite N, decide_False, decide_False; [done|by intros Eq; apply (Hq1 u)|].
        intros Eq. destruct (end_cases acc) as [[_ E']|(w & Hw & E')]; [congruence|]. rewrite E' in Eq. injection Eq as ->. by apply (Hdis w).
      * intros y Hy. simpl in Hy. apply list_elem_of_fmap in Hy as (u & -> & Hu).
        rewrite P, decide_False, decide_False; [done|by intros Eq; apply (Hq1 u)|]. by intros [= ->].
Qed.

Lemma splice_step h L acc i t l :
  lists_open h L acc → L !! RunQ i = Some (t :: l) → i ≠ 3 →
  wp (set_prev (Run t) (end_of acc);; set_next (end_of acc) (Run t);; list_header_init (RunQ i))
     (λ _ h', lists_open h' (<[RunQ i := []]> (<[top := acc ++ t :: l]> L)) (acc ++ t :: l) ∧ only_tasks h h') h.
Proof.
  intros HO Ei Hi. pose proof (end_mapped _ _ _ HO) as Me. destruct HO as (Et & (Hnd & Hc & Hm) & HL & Hdis).
  destruct (HL _ _ Ei ltac:(congruence)) as [_ Hdi].
  assert (∀ u, u ∈ t :: l → u ∈ acc → False) as Hsep.
  { intros u H1 H2. assert (RunQ i = top) as [= ?] by (by eapply Hdis). done. }
  assert (NoDup (acc ++ t :: l)) as Hnd2.
  { apply NoDup_app. split_and!; [done|intros u H1 H2; by eapply Hsep|].
    apply dl_nodup, NoDup_cons in Hdi as [_ Hdi]. by apply NoDup_fmap_1 in Hdi. }
  wp_go. apply wp_set_prev; [by eapply dl_mapped; [exact Hdi|set_solver]|]. intros h1 P1 N1 D1 K1.
  wp_go. apply wp_set_next; [by rewrite <-elem_of_dom, D1, elem_of_dom|]. intros h2 N2 P2 D2 K2.
  assert (is_Some (h2 !! RunQ i)) as Mi.
  { rewrite <-elem_of_dom, D2, D1, elem_of_dom. eapply dl_mapped; [exact Hdi|by left]. }
  eapply wp_mono; [by apply wp_list_header_init|]. intros [] h3 [Hd3 [D3 K3]].
  assert (∀ x, x ≠ Run t → x ≠ end_of acc → x ≠ RunQ i → h3 !! x = h !! x) as Hkeep.
  { intros x H1 H2 H3. rewrite K3, K2, K1; try done. by intros ?%list_elem_of_singleton. }
  assert (∀ x, x ≠ RunQ i → h3 !! x = h2 !! x) as K3' by (intros x Hx; apply K3; by intros ?%list_elem_of_singleton).
  split; [split_and!|].
  - by rewrite lookup_insert_ne, lookup_insert_eq by congruence.
  - done.
  - apply (splice_chain h h3 acc t l (RunQ i)); [done|done|congruence|done| | |].
    + destruct Hdi as [_ Hci]. simpl in Hci. destruct Hci as (_ & _ & Hci). by apply (chain_prefix h (Run <$> t :: l) [RunQ i]).
    + intros x. case_decide as E1; [subst|case_decide as E2; [done|]].
      * unfold nx. rewrite K3'; [|destruct (end_cases acc) as [[_ ->]|(? & _ & ->)]; congruence].
        fold (nx h2 (end_of acc)). by rewrite N2, decide_True.
      * unfold nx. rewrite K3' by done. fold (nx h2 x). by rewrite N2, decide_False, N1.
    + intros x. case_decide as E1; [subst|case_decide as E2; [done|]].
      * unfold pv. rewrite K3' by done. fold (pv h2 (Run t)). by rewrite P2, P1, decide_True.
      * unfold pv. rewrite K3' by done. fold (pv h2 x). by rewrite P2, P1, decide_False.
  - rewrite <-elem_of_dom, D3, D2, D1, elem_of_dom. done.
  - intros g m. rewrite lookup_insert_Some. intros [[<- <-]|[Hne Eg]] Hg; [done|]. rewrite lookup_insert_ne in Eg by congruence.
    destruct (HL g m Eg Hg) as [Hh Hdg]. split; [done|]. eapply dl_frame; [|exact Hdg].
    intros x Hx. apply Hkeep; intros ->.
    + apply elem_of_cons in Hx as [<-|Hx]; [done|]. apply run_elem in Hx. apply Hne. by eapply (Hdis (RunQ i) g); [| |left|].
    + apply elem_of_cons in Hx as [Eq|Hx].
      * destruct (end_cases acc) as [[_ E']|(w & _ & E')]; [congruence|]. rewrite E' in Eq. by rewrite <-Eq in Hh.
      * destruct (end_cases acc) as [[_ E']|(w & Hw & E')]; rewrite E' in Hx; [by apply list_elem_of_fmap in Hx as (? & ? & _)|].
        apply run_elem in Hx. apply Hg. by eapply (Hdis g top).
    + apply elem_of_cons in Hx as [?|Hx]; [done|]. by apply list_elem_of_fmap in Hx as (? & ? & _).
  - intros g1 g2 m1 m2 u. rewrite !lookup_insert_Some.
    intros [[<- <-]|[X1 [[<- <-]|[X2 E1]]]] [[<- <-]|[X3 [[<- <-]|[X4 E2]]]] H1 H2; try done; try (by apply not_elem_of_nil in H1); try (by apply not_elem_of_nil in H2).
    + apply elem_of_app in H1 as [H1|H1]; [by eapply (Hdis top g2)|]. assert (RunQ i = g2) by (by eapply Hdis). done.
    + apply elem_of_app in H2 as [H2|H2]; [by eapply (Hdis g1 top)|]. assert (g1 = RunQ i) by (by eapply Hdis). done.
    + by eapply Hdis.
  - split; [congruence|]. intros q Hq Hr. apply Hkeep; [by apply Hr| |by intros ->].
    destruct (end_cases acc) as [[_ ->]|(w & _ & ->)]; [by intros ->|by apply Hr].
Qed.

Lemma close_open h L acc :
  lists_open h L acc → acc ≠ [] →
  wp (set_next (end_of acc) top;; set_prev top (end_of acc)) (λ _ h', lists h' L ∧ only_tasks h h') h.
Proof.
  intros HO Hne. pose proof (end_mapped _ _ _ HO) as Me. destruct HO as (Et & (Hnd & Hc & Hm) & HL & Hdis).
  destruct (end_cases acc) as [[? _]|(w & Hw & Ew)]; [done|].
  wp_go. apply wp_set_next; [done|]. intros h1 N1 P1 D1 K1.
  apply wp_set_prev; [by rewrite <-elem_of_dom, D1, elem_of_dom|]. intros h2 P2 N2 D2 K2.
  assert (NoDup (top :: (Run <$> acc))) as Hnd2.
  { apply NoDup_cons. split; [intros Hin; by apply list_elem_of_fmap in Hin as (? & ? & _)|].
    by apply NoDup_fmap_2; [intros ?? [=]|]. }
  split; [split|].
  - intros g m Eg. destruct (decide (g = top)) as [->|Hg].
    + rewrite Et in Eg. injection Eg as <-. split; [done|]. split; [done|].
      destruct (end_split acc) as [a E]. rewrite app_comm_cons, E, <-app_assoc. simpl.
      rewrite E in Hnd2, Hc. pose proof (proj1 (NoDup_app _ _) Hnd2) as (_ & Na & _).
      assert (top ∉ tail (a ++ [end_of acc])) as Htop.
      { rewrite <-E. simpl. intros Hin. by apply list_elem_of_fmap in Hin as (? & ? & _). }
      apply chain_app. split; [revert Hc; apply chain_ext|].
      * intros x. rewrite removelast_last. intros Hx. rewrite N2, N1, decide_False; [done|].
        intros ->. by apply (Na _ Hx), list_elem_of_singleton.
      * intros y Hy. rewrite P2, decide_False, P1; [done|]. by intros ->.
      * simpl. rewrite N2, N1, decide_True, P2, decide_True by done. done.
    + destruct (HL g m Eg Hg) as [Hh Hdg]. split; [done|]. eapply dl_frame; [|exact Hdg].
      intros x Hx. rewrite K2, K1; [done| |].
      * intros ->. rewrite Ew in Hx. apply elem_of_cons in Hx as [<-|Hx]; [done|]. apply run_elem in Hx. apply Hg. by eapply (Hdis g top).
      * intros ->. apply elem_of_cons in Hx as [?|Hx]; [done|]. by apply list_elem_of_fmap in Hx as (? & ? & _).
  - done.
  - split; [congruence|]. intros q Hq Hr. rewrite K2, K1; [done|rewrite Ew; by apply Hr|by intros ->].
Qed.

(** The tasks of queues [n - 1] down to 0. *)
Fixpoint lower (n : nat) (L : gmap snode (list Z)) : list Z :=
  match n with
  | O => []
  | S n => default [] (L !! RunQ (Z.of_nat n)) ++ lower n L
  end.

(** [L'] is [L] with the queues below [n] emptied into the top queue. *)
Definition gathered (n : nat) (L L' : gmap snode (list Z)) (acc : list Z) : Prop :=
  L' !! top = Some acc ∧
  (∀ i, 0 ≤ i < Z.of_nat n → L' !! RunQ i = Some []) ∧
  (∀ hd, hd ≠ top → (∀ i, 0 ≤ i < Z.of_nat n → hd ≠ RunQ i) → L' !! hd = L !! hd).

Lemma lower_ext n L L' : (∀ i, 0 ≤ i < Z.of_nat n → L' !! RunQ i = L !! RunQ i) → lower n L' = lower n L.
Proof. induction n as [|n IH]; intros H; simpl; [done|]. rewrite H, IH; [done| |lia]. intros i Hi. apply H. lia. Qed.

Lemma wp_list_empty_member h hd x l (Q : bool → gmap snode (list_head snode) → Prop) :
  dl h hd (x :: l) → Q false h → wp (list_empty x) Q h.
Proof.
  intros [Hnd Hc] HQ. unfold list_empty. wp_go. simpl in Hc. destruct Hc as (_ & _ & Hc).
  apply NoDup_cons in Hnd as [Hhd Hnd]. apply NoDup_cons in Hnd as [Hx _].
  destruct l as [|y l]; simpl in Hc; (eapply wp_get_next; [apply Hc|]); wp_go; rewrite bool_decide_false; try done; set_solver.
Qed.

Lemma wp_on_hp3 (a b c : M (gmap snode (list_head snode)) unit) (K : M sched (option snode * option snode)) Q s :
  wp (a;; b;; c) (λ _ h', wp K Q (with_heap h' s)) (s_heap s) →
  wp (on_hp a;; on_hp b;; on_hp c;; K) Q s.
Proof.
  intros H. apply wp_bind, wp_on_hp. eapply wp_mono; [exact (proj1 (wp_bind _ _ _ _) H)|]. intros [] h1 H1.
  apply wp_bind, wp_on_hp. eapply wp_mono; [exact (proj1 (wp_bind _ _ _ _) H1)|]. intros [] h2 H2.
  apply wp_bind, wp_on_hp. eapply wp_mono; [exact H2|]. by intros [] h3 H3.
Qed.

Lemma wp_reset_loop n L acc hdr1 tail1 (Q : option snode * option snode → sched → Prop) s :
  (n ≤ 3)%nat → lists_open (s_heap s) L acc → (∀ i, 0 ≤ i < Z.of_nat n → is_Some (L !! RunQ i)) →
  (∀ h' L' r, lists_open h' L' (acc ++ lower n L) → gathered n L L' (acc ++ lower n L) → only_tasks (s_heap s) h' →
     ((lower n L = [] ∧ h' = s_heap s ∧ r = (hdr1, tail1)) ∨
      (lower n L ≠ [] ∧ ∃ q, r = (Some q, Some (end_of (acc ++ lower n L))))) →
     Q r (with_heap h' s)) →
  wp (reset_loop n (Z.of_nat n - 1) hdr1 tail1 (end_of acc)) Q s.
Proof.
  revert L acc hdr1 tail1 s. induction n as [|n IH]; intros L acc hdr1 tail1 s Hn HO Hq HQ; cbn [reset_loop lower] in *.
  { wp_go. rewrite app_nil_r in HQ. rewrite <-(with_heap_eta s). eapply HQ; [done| |done|by left].
    split_and!; [apply HO|lia|done]. }
  replace (Z.of_nat (S n) - 1) with (Z.of_nat n) in * by lia.
  destruct (Hq (Z.of_nat n) ltac:(lia)) as [l El]. rewrite El in HQ. cbn [default] in HQ.
  pose proof HO as (Et & _ & HL & _). destruct (HL _ _ El ltac:(intros [=]; lia)) as [_ Hdl].
  wp_step. apply wp_on_hp. eapply wp_get_next; [by apply dl_head_next|]. rewrite with_heap_eta.
  destruct l as [|t l]; simpl fmap; simpl head; cbn [default].
  - wp_step. apply wp_on_hp. eapply wp_list_empty; [exact Hdl|]. rewrite with_heap_eta, bool_decide_true by done. cbn [negb].
    simpl app in HQ. apply (IH L); [lia|done|intros; apply Hq; lia|]. intros h' L' r HO' (G1 & G2 & G3) Ho Hr.
    eapply HQ; [done| |done|done]. split_and!; [done| |].
    + intros i Hi. destruct (decide (i = Z.of_nat n)) as [->|]; [|apply G2; lia].
      rewrite G3, El; [done|intros [=]; lia|]. intros i' Hi' [=]. lia.
    + intros hd Hd Hi. apply G3; [done|]. intros i Hi'. apply Hi. lia.
  - wp_step. apply wp_on_hp. eapply wp_list_empty_member; [exact Hdl|]. rewrite with_heap_eta. cbn [negb].
    wp_step. apply wp_on_hp. eapply wp_get_prev; [by apply dl_head_prev|]. rewrite with_heap_eta.
    assert (default (RunQ (Z.of_nat n)) (last (Run <$> t :: l)) = end_of (acc ++ t :: l)) as ->.
    { unfold end_of. rewrite fmap_app, last_app. destruct (last (Run <$> t :: l)) eqn:E; [done|]. by apply last_None in E. }
    apply wp_on_hp3. eapply wp_mono; [by apply splice_step; [done|done|lia]|]. intros [] h1 [HO1 Ho1].
    set (L1 := <[RunQ (Z.of_nat n) := []]> (<[top := acc ++ t :: l]> L)) in *.
    assert (∀ i, 0 ≤ i < Z.of_nat n → L1 !! RunQ i = L !! RunQ i) as HL1.
    { intros i Hi. unfold L1. rewrite !lookup_insert_ne; [done|intros [=]; lia|intros [=]; lia]. }
    apply (IH L1 (acc ++ t :: l)); [lia|done|intros i Hi; rewrite HL1 by done; apply Hq; lia|].
    rewrite (lower_ext n L L1 HL1), <-!app_assoc. intros h' L' r HO' (G1 & G2 & G3) Ho Hr.
    change (with_heap h' (with_heap h1 s)) with (with_heap h' s). eapply (HQ h' L' r); [done| |by eapply only_tasks_trans|].
    + split_and!; [done| |].
      * intros i Hi. destruct (decide (i = Z.of_nat n)) as [->|]; [|apply G2; lia].
        rewrite G3; [unfold L1; by rewrite lookup_insert_eq|intros [=]; lia|]. intros i' Hi' [=]. lia.
      * intros hd Hd Hi. rewrite G3; [|done|intros i' Hi'; apply Hi; lia].
        unfold L1. rewrite !lookup_insert_ne; [done|by apply not_eq_sym|]. apply not_eq_sym, Hi. lia.
    + right. split; [done|]. destruct Hr as [(-> & _ & ->)|(_ & q & ->)]; [rewrite app_nil_r|]; eauto.
Qed.

Lemma wp_rd_tcb t c (Q : tcb_t → sched → Prop) s : tcbs s !! t = Some c → Q c s → wp (rd_tcb t) Q s.
Proof. intros E HQ. unfold rd_tcb. by wp_go. Qed.

Lemma wp_upd_tcb t f c (Q : unit → sched → Prop) s :
  tcbs s !! t = Some c → Q tt (with_tcbs (<[t := f c]> (tcbs s)) s) → wp (upd_tcb t f) Q s.
Proof. intros E HQ. unfold upd_tcb. wp_go. eapply wp_rd_tcb; [done|]. by wp_go. Qed.

(** Tasks lie at the start of pages. *)
Definition aligned (m : gmap Z tcb_t) : Prop := ∀ t c, m !! t = Some c → Z.land t PAGE_MASK = 0.
Lemma aligned_insert m t c c' : aligned m → m !! t = Some c → aligned (<[t := c']> m).
Proof. intros H E u cu. rewrite lookup_insert_Some. intros [[<- _]|[_ Eu]]; by eapply H. Qed.

Lemma wp_tcb_entry t c (Q : Z → sched → Prop) s : aligned (tcbs s) → tcbs s !! t = Some c → Q t s → wp (tcb_entry (Run t)) Q s.
Proof. intros Ha E HQ. unfold tcb_entry. wp_go; [by apply Z.eqb_eq, (Ha _ _ E)|]. eapply wp_rd_tcb; [done|]. by wp_go. Qed.

Lemma end_of_snoc l t : end_of (l ++ [t]) = Run t.
Proof. unfold end_of. rewrite fmap_app, last_app. done. Qed.

Lemma prev_end h l1 t l2 : dl h top (Run <$> l1 ++ t :: l2) → pv h (Run t) = Some (end_of l1).
Proof.
  rewrite fmap_app, fmap_cons. intros Hd. apply dl_split in Hd as (a & p & n & b & Ha & Hb & _ & Hp & _).
  simpl in Hb. injection Hb as <- _. destruct (end_split l1) as [a' E]. rewrite E in Ha. apply app_inj_tail in Ha as [_ <-]. done.
Qed.

(** The tasks of [ts] get the highest priority. *)
Definition raised (ts : list Z) (m m' : gmap Z tcb_t) : Prop :=
  ∀ u, m' !! u = if decide (u ∈ ts) then set_priority 3 <$> m !! u else m !! u.

Lemma wp_raise_loop keep pend fin fuel (Q : unit → sched → Prop) s :
  dl (s_heap s) top (Run <$> keep ++ pend ++ fin) → NoDup pend → (length pend < fuel)%nat →
  (∀ t, t ∈ keep → ∃ c, tcbs s !! t = Some c ∧ priority c = 3) →
  (∀ t, t ∈ pend → ∃ c, tcbs s !! t = Some c ∧ priority c ≠ 3) → aligned (tcbs s) →
  (∀ m', raised pend (tcbs s) m' → Q tt (with_tcbs m' s)) →
  wp (raise_loop fuel (end_of (keep ++ pend)) top) Q s.
Proof.
  revert fin fuel s. induction pend as [|t p IH] using rev_ind; intros fin fuel s Hd Hnd Hf Hk Hp Ha HQ;
    (destruct fuel as [|fuel]; [simpl in Hf; lia|]); cbn [raise_loop].
  - rewrite app_nil_r. assert (Q tt s) as HQs.
    { replace s with (with_tcbs (tcbs s) s) by (by destruct s). apply HQ. intros u. by rewrite decide_False by set_solver. }
    destruct (end_cases keep) as [[-> ->]|(w & Hw & ->)]; [by rewrite decide_True|]. rewrite decide_False by done.
    destruct (Hk w Hw) as (c & Ec & Pc). wp_go. eapply wp_tcb_entry; [done|done|]. wp_go. eapply wp_rd_tcb; [done|].
    change TASK_MAX_PRIORITY with 3. rewrite Pc. by wp_go.
  - rewrite app_assoc, end_of_snoc, decide_False by done. destruct (Hp t ltac:(set_solver)) as (c & Ec & Pc).
    wp_go. eapply wp_tcb_entry; [done|done|]. wp_go. eapply wp_rd_tcb; [done|].
    change TASK_MAX_PRIORITY with 3. destruct (Z.eqb_spec (priority c) 3); [done|]. wp_go. eapply wp_upd_tcb; [done|].
    apply NoDup_app in Hnd as (Hnd & Hnt & _). rewrite <-app_assoc in Hd. simpl in Hd.
    wp_go. apply wp_on_hp. eapply wp_get_prev.
    { apply (prev_end _ (keep ++ p) t fin). by rewrite <-app_assoc. }
    rewrite with_heap_eta. apply (IH (t :: fin)); simpl; [done|done| | | |by eapply aligned_insert|].
    + rewrite length_app in Hf. simpl in Hf. lia.
    + intros u Hu. destruct (Hk u Hu) as (c' & Ec' & Pc'). destruct (decide (u = t)) as [->|]; [congruence|].
      rewrite lookup_insert_ne by done. eauto.
    + intros u Hu. rewrite lookup_insert_ne; [apply Hp; set_solver|]. intros ->. apply (Hnt u Hu). set_solver.
    + intros m' Hm'. apply (HQ m'). intros u. rewrite Hm'. destruct (decide (u = t)) as [->|Hne].
      * rewrite decide_False, decide_True, lookup_insert_eq, Ec; [done|set_solver|]. intros Hu. apply (Hnt t Hu). set_solver.
      * rewrite lookup_insert_ne by done. destruct (decide (u ∈ p)); [rewrite decide_True|rewrite decide_False]; try done; set_solver.
Qed.

Lemma lower_elem n L t : t ∈ lower n L ↔ ∃ i l, 0 ≤ i < Z.of_nat n ∧ L !! RunQ i = Some l ∧ t ∈ l.
Proof.
  induction n as [|n IH]; simpl.
  - split; [by intros ?%not_elem_of_nil|]. intros (i & l & Hi & _). lia.
  - rewrite elem_of_app, IH. split.
    + intros [Ht|(i & l & Hi & E & Ht)]; [|exists i, l; split_and!; [lia|lia|done|done]].
      destruct (L !! RunQ (Z.of_nat n)) as [l|] eqn:E; [|by apply not_elem_of_nil in Ht]. exists (Z.of_nat n), l. split_and!; [lia|lia|done|done].
    + intros (i & l & Hi & E & Ht). destruct (decide (i = Z.of_nat n)) as [->|]; [left; by rewrite E|right]. exists i, l. split_and!; [lia|lia|done|done].
Qed.

Lemma lower_nodup h n L : lists h L → (n ≤ 3)%nat → NoDup (lower n L).
Proof.
  intros HL. induction n as [|n IH]; intros Hn; simpl; [apply NoDup_nil_2|]. apply NoDup_app. split_and!; [| |apply IH; lia].
  - destruct (L !! RunQ (Z.of_nat n)) as [l|] eqn:E; [by eapply lists_nodup|apply NoDup_nil_2].
  - intros t Ht (i & l' & Hi & E' & Ht')%lower_elem. destruct (L !! RunQ (Z.of_nat n)) as [l|] eqn:E; [|by apply not_elem_of_nil in Ht].
    assert (RunQ (Z.of_nat n) = RunQ i) as [= ?] by (by eapply (proj2 HL)). lia.
Qed.

Lemma dl_length_size (h : gmap snode (list_head snode)) hd l : dl h hd l → (length l < size h)%nat.
Proof.
  intros Hd. pose proof (dl_nodup _ _ _ Hd) as Hnd.
  assert (list_to_set (hd :: l) ⊆@{gset snode} dom h) as Hsub.
  { intros x Hx. apply elem_of_list_to_set in Hx. apply elem_of_dom. by eapply dl_mapped. }
  apply subseteq_size in Hsub. rewrite size_list_to_set, size_dom in Hsub by done. simpl in Hsub. lia.
Qed.

Lemma gathered_same L L' l3 :
  gathered 3 L L' l3 → L !! top = Some l3 → (∀ i, 0 ≤ i < 3 → is_Some (L !! RunQ i)) → lower 3 L = [] → L' = L.
Proof.
  intros (G1 & G2 & G3) E3 Hq Hlow. apply map_eq. intros hd. destruct (decide (hd = top)) as [->|Hn]; [congruence|].
  destruct (decide (hd = RunQ 0 ∨ hd = RunQ 1 ∨ hd = RunQ 2)) as [Hc|Hc].
  - assert (∃ i, 0 ≤ i < 3 ∧ hd = RunQ i) as (i & Hi & ->) by (destruct Hc as [->|[->| ->]]; eexists; (split; [|reflexivity]); lia).
    rewrite G2 by done. destruct (Hq i Hi) as [l El]. rewrite El. f_equal. destruct l as [|t l]; [done|].
    assert (t ∈ lower 3 L) as Ht by (apply lower_elem; exists i, (t :: l); split_and!; [lia|lia|done|by left]).
    rewrite Hlow in Ht. by apply not_elem_of_nil in Ht.
  - apply G3; [done|]. intros i Hi ->. apply Hc. assert (i = 0 ∨ i = 1 ∨ i = 2) as [->|[->| ->]] by lia; auto.
Qed.

(** The second half of [reset_priority]. *)
Lemma wp_raise_all L l3 low (Q : unit → sched → Prop) s :
  lists (s_heap s) L → L !! top = Some (l3 ++ low) → NoDup low → sched_lock s = Spinlock 0 →
  (∀ t, t ∈ l3 → ∃ c, tcbs s !! t = Some c ∧ priority c = 3) →
  (∀ t, t ∈ low → ∃ c, tcbs s !! t = Some c ∧ priority c ≠ 3) → aligned (tcbs s) →
  (∀ m', raised low (tcbs s) m' → Q tt (with_sched_lock (Spinlock 0) (with_tcbs m' s))) →
  wp (take_lock sched_lock with_sched_lock;; s0 ← get; last0 ← on_hp (get_prev top); raise_loop (S (size (s_heap s0))) last0 top;;
      drop_lock sched_lock with_sched_lock) Q s.
Proof.
  intros HL E Hnd Hlk H3 Hlow Ha HQ. destruct (proj1 HL _ _ E) as [_ Hd].
  wp_step. apply wp_take_lock; [done|]. wp_step. wp_step. wp_step. apply wp_on_hp. eapply wp_get_prev; [by apply dl_head_prev|].
  rewrite with_heap_eta. fold (end_of (l3 ++ low)). pose proof (dl_length_size _ _ _ Hd) as Hsz. rewrite length_fmap, length_app in Hsz.
  wp_step. apply (wp_raise_loop l3 low []); simpl; [by rewrite app_nil_r|done|lia|done|done|done|].
  intros m' Hm'. apply wp_drop_lock. by apply (HQ m').
Qed.

Lemma wp_reset_priority L l3 (Q : unit → sched → Prop) s :
  lists (s_heap s) L → L !! top = Some l3 → (∀ i, 0 ≤ i < 3 → is_Some (L !! RunQ i)) →
  (∀ i l t, 0 ≤ i ≤ 3 → L !! RunQ i = Some l → t ∈ l → ∃ c, tcbs s !! t = Some c ∧ priority c = i) →
  sched_lock s = Spinlock 0 → aligned (tcbs s) →
  (∀ h' m' L', lists h' L' → gathered 3 L L' (l3 ++ lower 3 L) → only_tasks (s_heap s) h' → raised (lower 3 L) (tcbs s) m' →
     Q tt (with_sched_lock (Spinlock 0) (with_tcbs m' (with_heap h' s)))) →
  wp reset_priority Q s.
Proof.
  intros HL E3 Hq Hprio Hlk Ha HQ. unfold reset_priority. change TASK_MAX_PRIORITY with 3.
  destruct (proj1 HL _ _ E3) as [_ Hd3]. wp_step. apply wp_on_hp. eapply wp_get_prev; [by apply dl_head_prev|]. rewrite with_heap_eta.
  fold (end_of l3). wp_step. apply wp_take_lock; [done|]. wp_step.
  apply (wp_reset_loop 3 L l3); [lia|by apply lists_opened|done|]. intros h1 L1 r HO HG Ho Hr.
  assert (∀ h2, lists h2 L1 → only_tasks (s_heap s) h2 →
    wp (take_lock sched_lock with_sched_lock;; s0 ← get; last0 ← on_hp (get_prev top); raise_loop (S (size (s_heap s0))) last0 top;;
        drop_lock sched_lock with_sched_lock) Q (with_sched_lock (Spinlock 0) (with_heap h2 s))) as Htail.
  { intros h2 HL2 Ho2. apply (wp_raise_all L1 l3 (lower 3 L)); [done|apply HG|by eapply lower_nodup; [|lia]|done| | |done|].
    - intros t Ht. apply (Hprio 3 l3); [lia|done|done].
    - intros t (i & l & Hi & El & Ht)%lower_elem. destruct (Hprio i l t ltac:(lia) El Ht) as (c & ? & ?). exists c. split; [done|lia].
    - intros m' Hm'. by apply (HQ h2 m' L1). }
  destruct Hr as [(Hlow & -> & ->)|(Hlow & q & ->)]; cbv beta iota; wp_step; apply wp_drop_lock; wp_step.
  - wp_step. apply (Htail (s_heap s)); [|by split]. rewrite Hlow, app_nil_r in HG. by rewrite (gathered_same L L1 l3).
  - assert (l3 ++ lower 3 L ≠ []) as Hne by (intros [_ ?]%app_eq_nil; done).
    destruct (wp_elim _ _ _ (close_open h1 L1 _ HO Hne)) as ([] & h2 & Eq & HL2 & Ho2).
    eapply (wp_intro _ _ _ tt (with_sched_lock (Spinlock 0) (with_heap h2 s))); [|by apply Htail; [|by eapply only_tasks_trans]].
    revert Eq. unfold on_hp, zoom, mbind, M_bind. simpl s_heap.
    destruct (set_next (end_of (l3 ++ lower 3 L)) top h1) as [[[] hx]|]; [|done]. simpl s_heap.
    destruct (set_prev top (end_of (l3 ++ lower 3 L)) hx) as [[[] hy]|]; [|done]. by intros [= ->].
Qed.

(** ** The invariant *)

Definition placed (hd : snode) (c : tcb_t) : Prop :=
  match hd with
  | RunQ i => state c = TASK_RUNNING ∧ priority c = i
  | BlockList | MutexSleep _ => state c = TASK_SLEEPING
  | FinishList => state c = TASK_ZOMBIE
  | _ => False
  end.

Definition listed (L : gmap snode (list Z)) (t : Z) : Prop := ∃ hd l, L !! hd = Some l ∧ t ∈ l.

(** What the current task may be when [schedule] is called: running and in no list,
    or put to sleep, or exited. *)
Definition cur_ok (L : gmap snode (list Z)) (s : sched) (c : tcb_t) : Prop :=
  (state c = TASK_RUNNING ∧ unlisted L (cur_task s)) ∨
  (state c ≠ TASK_RUNNING ∧ cur_task s ≠ idle_task s ∧ (listed L (cur_task s) ∨ state c = TASK_ZOMBIE)).

(** What holds of the lists and the tasks at any point outside the list operations. *)
Record sched_base (L : gmap snode (list Z)) (s : sched) : Prop := {
  si_lists : lists (s_heap s) L;
  si_queue : ∀ i, 0 ≤ i ≤ 3 → is_Some (L !! RunQ i);
  si_block : is_Some (L !! BlockList) ∧ is_Some (L !! FinishList);
  si_placed : ∀ hd l t, L !! hd = Some l → t ∈ l → ∃ c, tcbs s !! t = Some c ∧ placed hd c;
  si_node : ∀ t c, tcbs s !! t = Some c → is_Some (s_heap s !! Run t) ∧ 0 ≤ priority c ≤ 3 ∧ task_lock c = Spinlock 0;
  si_idle : unlisted L (idle_task s) ∧ ∃ c, tcbs s !! idle_task s = Some c ∧ state c = TASK_RUNNING;
  si_locks : sched_lock s = Spinlock 0 ∧ list_lock s = Spinlock 0;
  si_aligned : aligned (tcbs s)
}.

Record sched_mid (L : gmap snode (list Z)) (s : sched) : Prop := {
  si_base : sched_base L s;
  si_cur : ∃ c, tcbs s !! cur_task s = Some c ∧ cur_ok L s c;
  si_all : ∀ t c, tcbs s !! t = Some c → t = cur_task s ∨ t = idle_task s ∨ listed L t ∨ state c = TASK_ZOMBIE
}.

(** Between two interrupts or system calls: the current task runs and is in no list.
    With [si_all], every other task is the idle task, in exactly one list, or dead. *)
Definition sched_inv (L : gmap snode (list Z)) (s : sched) : Prop :=
  sched_mid L s ∧ ∃ c, tcbs s !! cur_task s = Some c ∧ state c = TASK_RUNNING.

Lemma wp_chose_next_task L (Q : snode → sched → Prop) s :
  sched_base L s →
  match pick 4 L with
  | None => Q (Run (idle_task s)) (with_sched_lock (Spinlock 0) s)
  | Some (i, t, l) => ∀ h', lists h' (<[RunQ i := l]> L) → only_tasks (s_heap s) h' →
      Q (Run t) (with_sched_lock (Spinlock 0) (with_heap h' s))
  end → wp chose_next_task Q s.
Proof.
  intros Hs HQ. unfold chose_next_task. wp_step. apply wp_take_lock; [apply Hs|]. wp_step.
  apply (wp_chose_loop 4 L); [apply Hs|intros; apply Hs; lia|].
  destruct (pick 4 L) as [[[i t] l]|]; [intros h' HL' Ho|]; wp_step; apply wp_drop_lock; wp_go; [by apply HQ|done].
Qed.

Lemma pick_spec n L i t l : pick n L = Some (i, t, l) → 0 ≤ i < Z.of_nat n ∧ L !! RunQ i = Some (t :: l).
Proof.
  induction n as [|n IH]; cbn [pick]; [done|]. destruct (L !! RunQ (Z.of_nat n)) as [[|t' l']|] eqn:E;
    [intros H; destruct (IH H); split; [lia|done]|intros [= <- <- <-]; split; [lia|done]|intros H; destruct (IH H); split; [lia|done]].
Qed.

Lemma wp_sched_task_add L t c l (Q : unit → sched → Prop) s :
  lists (s_heap s) L → tcbs s !! t = Some c → L !! RunQ (priority c) = Some l → unlisted L t →
  is_Some (s_heap s !! Run t) → sched_lock s = Spinlock 0 → aligned (tcbs s) →
  (∀ h', lists h' (<[RunQ (priority c) := l ++ [t]]> L) → only_tasks (s_heap s) h' →
     Q tt (with_sched_lock (Spinlock 0) (with_heap h' s))) →
  wp (sched_task_add (Run t)) Q s.
Proof.
  intros HL Ec El Hu Hm Hlk Ha HQ. unfold sched_task_add. wp_step. eapply wp_tcb_entry; [done|done|]. wp_step.
  apply wp_take_lock; [done|]. wp_step. eapply wp_rd_tcb; [done|]. wp_step. apply wp_on_hp.
  eapply wp_mono; [by apply (wp_add_tail _ L)|]. intros [] h' [HL' Ho]. apply wp_drop_lock. by apply HQ.
Qed.

(** The priority and time slice of a task that gives up the CPU. *)
Definition demoted (c : tcb_t) : tcb_t :=
  if negb (priority c =? 0) then
    if timer_slice c =? 0 then set_priority (u16 (priority c - 1)) (set_slice TIME_SLICE_LENGTH c) else c
  else set_slice TIME_SLICE_LENGTH c.

Lemma demoted_keeps c : 0 ≤ priority c ≤ 3 →
  state (demoted c) = state c ∧ task_lock (demoted c) = task_lock c ∧ 0 ≤ priority (demoted c) ≤ 3.
Proof.
  intros Hp. unfold demoted. destruct (Z.eqb_spec (priority c) 0); simpl; [split_and!; [done|done|lia|lia]|].
  destruct (timer_slice c =? 0); simpl; [|split_and!; [done|done|lia|lia]]. rewrite u16_small by lia. split_and!; [done|done|lia|lia].
Qed.

Lemma wp_demote t c (K : M sched unit) (Q : unit → sched → Prop) s :
  tcbs s !! t = Some c → wp K Q (with_tcbs (<[t := demoted c]> (tcbs s)) s) →
  wp ((if negb (priority c =? 0) then
         when (timer_slice c =? 0) (upd_tcb t (λ c, set_priority (u16 (priority c - 1)) (set_slice TIME_SLICE_LENGTH c)))
       else upd_tcb t (set_slice TIME_SLICE_LENGTH));; K) Q s.
Proof.
  intros Ec HK. wp_step. unfold demoted in HK. destruct (negb (priority c =? 0)).
  - apply wp_when. destruct (timer_slice c =? 0); [by eapply wp_upd_tcb|].
    rewrite insert_id in HK by done. by replace (with_tcbs (tcbs s) s) with s in HK by (by destruct s).
  - by eapply wp_upd_tcb.
Qed.

Lemma base_insert L s hd l l' h' :
  sched_base L s → L !! hd = Some l → lists h' (<[hd := l']> L) → only_tasks (s_heap s) h' →
  (∀ t, t ∈ l' → t ∈ l ∨ (t ≠ idle_task s ∧ ∃ c, tcbs s !! t = Some c ∧ placed hd c)) →
  sched_base (<[hd := l']> L) (with_heap h' s).
Proof.
  intros Hb E HL' Ho Hl'. split; simpl.
  - done.
  - intros i Hi. destruct (decide (hd = RunQ i)) as [->|]; [rewrite lookup_insert_eq; eauto|rewrite lookup_insert_ne by done; by apply Hb].
  - destruct (si_block _ _ Hb). split; rewrite lookup_insert_is_Some'; auto.
  - intros g m t. rewrite lookup_insert_Some. intros [[<- <-]|[_ Eg]] Ht; [|by eapply si_placed].
    destruct (Hl' t Ht) as [Ht'|[_ Hp]]; [by eapply si_placed|done].
  - intros t c Ec. destruct (si_node _ _ Hb t c Ec) as (Hm & ? & ?). split_and!; [by eapply only_tasks_mapped|lia|lia|done].
  - destruct (si_idle _ _ Hb) as [Hu ?]. split; [|done]. intros g m. rewrite lookup_insert_Some.
    intros [[<- <-]|[_ Eg]] Ht; [|by apply (Hu g m)]. destruct (Hl' _ Ht) as [Ht'|[? _]]; [by apply (Hu hd l)|done].
  - apply Hb.
  - apply Hb.
Qed.

Lemma base_tcb L s t c c' :
  sched_base L s → tcbs s !! t = Some c → (∀ hd l, L !! hd = Some l → t ∈ l → placed hd c') →
  (t = idle_task s → state c' = TASK_RUNNING) → 0 ≤ priority c' ≤ 3 → task_lock c' = Spinlock 0 →
  sched_base L (with_tcbs (<[t := c']> (tcbs s)) s).
Proof.
  intros Hb Ec Hp Hidle Hpr Hlk. split; simpl; try apply Hb.
  - intros hd l u El Hu. destruct (decide (u = t)) as [->|]; [rewrite lookup_insert_eq; eauto|].
    rewrite lookup_insert_ne by done. by eapply si_placed.
  - intros u cu. rewrite lookup_insert_Some. intros [[<- <-]|[_ Eu]]; [|by eapply si_node].
    split; [by eapply si_node|done].
  - destruct (si_idle _ _ Hb) as (Hu & ci & Ei & Si). split; [done|]. destruct (decide (t = idle_task s)) as [->|].
    + rewrite lookup_insert_eq. eauto.
    + rewrite lookup_insert_ne by done. eauto.
  - eapply aligned_insert; [apply Hb|done].
Qed.

Lemma base_lock L s : sched_base L s → sched_base L (with_sched_lock (Spinlock 0) s).
Proof. intros Hb. split; try apply Hb. simpl. split; [done|apply Hb]. Qed.

Lemma base_cur L s t sp : sched_base L s → sched_base L (with_cur t sp s).
Proof. intros Hb. split; apply Hb. Qed.

(** The task [schedule] switches to. *)
Definition chosen (L : gmap snode (list Z)) (s : sched) : Z :=
  match pick 4 L with Some (_, t, _) => t | None => idle_task s end.

(** After a task [n] was taken from the lists. *)
Definition taken (L : gmap snode (list Z)) (s : sched) (n : Z) : Prop :=
  sched_base L s ∧ unlisted L n ∧ (∃ c, tcbs s !! n = Some c ∧ state c = TASK_RUNNING) ∧
  (∀ t c, tcbs s !! t = Some c → t = cur_task s ∨ t = n ∨ t = idle_task s ∨ listed L t ∨ state c = TASK_ZOMBIE) ∧
  (∃ c, tcbs s !! cur_task s = Some c ∧ cur_ok L s c) ∧ (n = cur_task s → n = idle_task s).

Lemma listed_update L hd l l' t : listed L t → L !! hd = Some l → (t ∈ l → t ∈ l') → listed (<[hd := l']> L) t.
Proof.
  intros (g & m & Eg & Ht) E Hl. destruct (decide (g = hd)) as [->|].
  - exists hd, l'. rewrite lookup_insert_eq. split; [done|]. apply Hl. congruence.
  - exists g, m. by rewrite lookup_insert_ne.
Qed.

(** The lists after it was taken from them, and after the old task [c] was put away. *)
Definition picked (L : gmap snode (list Z)) : gmap snode (list Z) :=
  match pick 4 L with Some (i, _, l) => <[RunQ i := l]> L | None => L end.
Definition put_back (t : Z) (c : tcb_t) (L : gmap snode (list Z)) : gmap snode (list Z) :=
  if decide (state c = TASK_RUNNING) then let q := RunQ (priority (demoted c)) in <[q := default [] (L !! q) ++ [t]]> L else L.

Lemma chose_taken L (Q : snode → sched → Prop) s :
  sched_mid L s →
  (∀ h', taken (picked L) (with_sched_lock (Spinlock 0) (with_heap h' s)) (chosen L s) → only_tasks (s_heap s) h' →
     Q (Run (chosen L s)) (with_sched_lock (Spinlock 0) (with_heap h' s))) →
  wp chose_next_task Q s.
Proof.
  intros Hs HQ. pose proof (si_base _ _ Hs) as Hb. apply (wp_chose_next_task L); [done|]. unfold chosen, picked in *.
  pose proof (si_cur _ _ Hs) as (c & Ec & Hc).
  destruct (pick 4 L) as [[[i t] l]|] eqn:Ep.
  - intros h' HL' Ho. apply pick_spec in Ep as [Hi El]. apply HQ; [|done].
    pose proof (si_lists _ _ Hb) as HL. pose proof (unlisted_removed _ L (RunQ i) [] t l HL El) as Hu. simpl in Hu.
    destruct (si_placed _ _ Hb _ _ t El ltac:(by left)) as (ct & Et & St & _).
    assert (t ≠ cur_task s) as Hne.
    { intros ->. rewrite Ec in Et. injection Et as ->. destruct Hc as [[_ Hc]|[Hc _]]; [by apply (Hc _ _ El); left|done]. }
    split_and!.
    + apply base_lock. apply (base_insert L s (RunQ i) (t :: l)); [done|done|done|done|]. intros u Hu'. left. by right.
    + done.
    + by exists ct.
    + intros u cu Eu. destruct (si_all _ _ Hs u cu Eu) as [?|[?|[Hli|?]]]; [by left|by right; right; left| |by right; right; right; right].
      destruct (decide (u = t)) as [->|]; [by right; left|]. right; right; right; left.
      eapply listed_update; [exact Hli|exact El|]. set_solver.
    + exists c. split; [done|]. destruct Hc as [[? Hun]|(? & ? & [Hli|?])]; [left|right|right].
      * split; [done|]. apply unlisted_insert; [done|]. intros Hin. apply (Hun _ _ El). by right.
      * split_and!; [done|done|left]. eapply listed_update; [exact Hli|exact El|]. simpl. set_solver.
      * split_and!; [done|done|by right].
    + done.
  - rewrite <-(with_heap_eta s) at 2. apply HQ; [|by split]. rewrite with_heap_eta. destruct (si_idle _ _ Hb) as (Hu & ci & Ei & Si).
    split_and!; [by apply base_lock|done|by exists ci| |by exists c|done].
    intros u cu Eu. destruct (si_all _ _ Hs u cu Eu) as [?|[?|[?|?]]]; auto 6.
Qed.

(** The old task is put away; [n] is to run. *)
Definition parked (L : gmap snode (list Z)) (s : sched) (n : Z) : Prop :=
  sched_base L s ∧ unlisted L n ∧ (∃ c, tcbs s !! n = Some c ∧ state c = TASK_RUNNING) ∧
  (∀ t c, tcbs s !! t = Some c → t = n ∨ t = idle_task s ∨ listed L t ∨ state c = TASK_ZOMBIE).

(** Everything but the lists, the tasks' control blocks and the current task stays. *)
Definition same_rest (s s' : sched) : Prop :=
  idle_task s' = idle_task s ∧ init_task s' = init_task s ∧ cleaner_task s' = cleaner_task s ∧
  g_tick s' = g_tick s ∧ timers s' = timers s ∧ pool s' = pool s ∧ mutexes s' = mutexes s ∧
  dom (tcbs s') = dom (tcbs s) ∧ (∀ q, ¬ header q → (∀ t, q ≠ Run t) → s_heap s' !! q = s_heap s !! q).

Lemma same_rest_heap s h' : only_tasks (s_heap s) h' → same_rest s (with_sched_lock (Spinlock 0) (with_heap h' s)).
Proof. intros [_ K]. by split_and!. Qed.

Definition requeue (s : sched) : M sched unit :=
  c ← rd_tcb (cur_task s);
  (if negb (priority c =? 0) then
     when (timer_slice c =? 0)
       (upd_tcb (cur_task s) (λ c, set_priority (u16 (priority c - 1)) (set_slice TIME_SLICE_LENGTH c)))
   else upd_tcb (cur_task s) (set_slice TIME_SLICE_LENGTH));;
  c ← rd_tcb (cur_task s);
  when (bool_decide (state c = TASK_RUNNING)) (sched_task_add (Run (cur_task s))).

Lemma wp_requeue L s n c (Q : unit → sched → Prop) :
  taken L s n → cur_task s ≠ idle_task s → tcbs s !! cur_task s = Some c →
  (∀ h' s', s' = with_sched_lock (Spinlock 0) (with_heap h' (with_tcbs (<[cur_task s := demoted c]> (tcbs s)) s)) →
     parked (put_back (cur_task s) c L) s' n → only_tasks (s_heap s) h' → Q tt s') →
  wp (requeue s) Q s.
Proof.
  intros (Hb & Hun & (cn & En & Sn) & Hall & (c0 & Ec0 & Hc) & Hnc) Hidle Ec HQ. rewrite Ec in Ec0. injection Ec0 as <-.
  destruct (si_node _ _ Hb _ _ Ec) as (Hm & Hp & Hlk). destruct (demoted_keeps c Hp) as (Sd & Ld & Pd).
  assert (n ≠ cur_task s) as Hne by (intros ->; auto).
  set (s1 := with_tcbs (<[cur_task s := demoted c]> (tcbs s)) s).
  assert (sched_base L s1) as Hb1.
  { apply (base_tcb L s _ c); [done|done| |by intros E; destruct (Hidle E)|done|congruence]. intros hd l El Hin.
    destruct (si_placed _ _ Hb hd l _ El Hin) as (c1 & E1 & P1). rewrite Ec in E1. injection E1 as <-.
    destruct Hc as [[_ Hu]|[Hr _]]; [by destruct (Hu hd l El)|]. destruct hd; simpl in *; try congruence; try tauto. }
  unfold requeue. wp_step. eapply wp_rd_tcb; [done|]. eapply wp_demote; [done|]. fold s1. wp_step.
  eapply (wp_rd_tcb _ (demoted c)); [apply lookup_insert_eq|]. apply wp_when. rewrite Sd.
  assert (∃ c', tcbs s1 !! n = Some c' ∧ state c' = TASK_RUNNING) as Hn1.
  { exists cn. simpl. by rewrite lookup_insert_ne by done. }
  destruct (bool_decide_reflect (state c = TASK_RUNNING)) as [Hrun|Hrun].
  - destruct Hc as [[_ Hu]|[? _]]; [|done]. destruct (si_queue _ _ Hb (priority (demoted c)) ltac:(lia)) as [l El].
    eapply (wp_sched_task_add L _ (demoted c) l); [apply Hb1|apply lookup_insert_eq|done|done|done|apply Hb1|apply Hb1|].
    intros h' HL' Ho. apply (HQ h'); [done| |done]. unfold put_back. rewrite decide_True, El by done. cbn [default].
    split_and!; [apply base_lock| |done|].
    + apply (base_insert L s1 _ l); [done|done|done|done|]. intros t [?|Ht]%elem_of_app; [by left|]. apply list_elem_of_singleton in Ht as ->.
      right. split; [done|]. exists (demoted c). split; [apply lookup_insert_eq|]. simpl. by rewrite Sd.
    + apply unlisted_insert; [done|]. intros [Hin|Hin]%elem_of_app; [by apply (Hun _ _ El)|]. by apply list_elem_of_singleton in Hin.
    + simpl. intros t ct. rewrite lookup_insert_Some. intros [[<- <-]|[Htc Et]].
      * right; right; left. exists (RunQ (priority (demoted c))), (l ++ [cur_task s]). rewrite lookup_insert_eq. set_solver.
      * destruct (Hall t ct Et) as [?|[?|[?|[Hli|?]]]]; [done|by left|by right; left| |by right; right; right].
        right; right; left. eapply listed_update; [exact Hli|exact El|set_solver].
  - destruct Hc as [[? _]|(_ & _ & Hc)]; [done|].
    replace s1 with (with_sched_lock (Spinlock 0) (with_heap (s_heap s) s1)).
    2: { destruct (si_locks _ _ Hb) as [Hsl _]. destruct s. simpl in *. by subst. }
    eapply (HQ (s_heap s)); [done| |by split]. unfold put_back. rewrite decide_False by done. split_and!; [by apply base_lock|done|done|]. simpl.
    intros t ct. rewrite lookup_insert_Some. intros [[<- <-]|[Htc Et]].
    + destruct Hc as [Hc|Hc]; [auto|]. right; right; right. congruence.
    + destruct (Hall t ct Et) as [?|[?|[?|[?|?]]]]; [done|auto..].
Qed.

Lemma parked_switch L s n sp : parked L s n → sched_inv L (with_cur n sp s).
Proof.
  intros (Hb & Hun & (c & Ec & Sc) & Hall). split; [|by exists c]. split; [by apply base_cur| |done].
  exists c. split; [done|]. by left.
Qed.

Lemma unlisted_listed L t : unlisted L t ↔ ¬ listed L t.
Proof. split; [intros H (hd & l & E & Ht); by apply (H hd l)|]. intros H hd l E Ht. apply H. by exists hd, l. Qed.

(** What the switch from the task [c] leaves: the lists, and the control blocks [m]. *)
Definition switched_lists (L : gmap snode (list Z)) (s : sched) (c : tcb_t) : gmap snode (list Z) :=
  if decide (cur_task s = idle_task s) then picked L else put_back (cur_task s) c (picked L).
Definition switched_tcbs (m : gmap Z tcb_t) (s : sched) (c : tcb_t) : gmap Z tcb_t :=
  if decide (cur_task s = idle_task s) then m else <[cur_task s := demoted c]> m.

Lemma wp_park L s c h1 (Q : unit → sched → Prop) : let s1 := with_sched_lock (Spinlock 0) (with_heap h1 s) in
  taken (picked L) s1 (chosen L s) → only_tasks (s_heap s) h1 → tcbs s !! cur_task s = Some c →
  (∀ s', parked (switched_lists L s c) s' (chosen L s) → same_rest s s' → tcbs s' = switched_tcbs (tcbs s) s c →
     update_priority_time s' = update_priority_time s → Q tt s') →
  wp (when (negb (bool_decide (Run (cur_task s) = Run (idle_task s)))) (requeue s)) Q s1.
Proof.
  intros s1 Ht Ho1 Ec HQ. pose proof Ht as (Hb1 & Hun1 & Hn & Hall1 & _ & _). unfold switched_lists, switched_tcbs in HQ.
  apply wp_when. destruct (bool_decide_reflect (Run (cur_task s) = Run (idle_task s))) as [[= Ei]|Hi]; simpl.
  - rewrite !decide_True in HQ by done. apply HQ; [|by apply same_rest_heap|done|done]. split_and!; [done|done|done|].
    intros t ct Et. destruct (Hall1 t ct Et) as [->|[->|[->|[?|?]]]]; simpl; auto.
  - rewrite !decide_False in HQ by congruence. apply (wp_requeue (picked L) s1 (chosen L s) c Q); [done|simpl; congruence|done|].
    intros h' s' -> Hp Ho. apply HQ; [done| |done|done].
    split_and!; try done; simpl; [apply dom_insert_lookup_L; eauto|].
    intros q Hq1 Hq2. destruct Ho as [_ Ho]. rewrite Ho by done. by apply Ho1.
Qed.

(** Dispatching: everything [schedule] does after the priorities are up to date. *)
Lemma wp_dispatch L s c (Q : unit → sched → Prop) :
  sched_mid L s → tcbs s !! cur_task s = Some c →
  (∀ s', sched_inv (switched_lists L s c) s' → same_rest s s' → cur_task s' = chosen L s → tcbs s' = switched_tcbs (tcbs s) s c →
     update_priority_time s' = update_priority_time s → Q tt s') →
  wp (next ← chose_next_task;
      if bool_decide (next = Run (idle_task s)) && bool_decide (Run (cur_task s) = Run (idle_task s)) then mret tt
      else
        when (negb (bool_decide (Run (cur_task s) = Run (idle_task s)))) (requeue s);;
        next_task ← tcb_entry next; c ← rd_tcb next_task;
        assertk (bool_decide (state c = TASK_RUNNING));;
        modify (λ s, with_cur next_task (if task_mm c =? 0 then cur_space s else task_mm c) s)) Q s.
Proof.
  intros Hs Ec HQ. wp_step. apply (chose_taken L); [done|]. intros h1 Ht Ho1.
  destruct (bool_decide (Run (chosen L s) = Run (idle_task s)) && bool_decide (Run (cur_task s) = Run (idle_task s))) eqn:Eb.
  - apply andb_prop in Eb as [Ej%bool_decide_eq_true Ei%bool_decide_eq_true]. injection Ej as Ej. injection Ei as Ei.
    pose proof Ht as (Hb1 & Hun1 & Hn & Hall1 & _ & _). unfold switched_lists, switched_tcbs in HQ. rewrite !decide_True in HQ by done.
    wp_go. set (s1 := with_sched_lock _ _) in *. apply (HQ s1); [|by apply same_rest_heap|simpl; congruence|done|done]. rewrite Ej in *.
    assert (with_cur (idle_task s) (cur_space s1) s1 = s1) as <- by (unfold s1; destruct s; simpl in *; by subst).
    apply parked_switch. split_and!; [done|done|done|]. intros t ct Et. destruct (Hall1 t ct Et) as [->|[->|[->|[?|?]]]]; simpl; auto.
  - wp_step. apply (wp_park L s c h1); [done|done|done|]. intros s' Hp Hr Et Eu. pose proof Hp as (Hb' & _ & (cn' & En' & Sn') & _).
    wp_step. eapply wp_tcb_entry; [apply Hb'|done|]. wp_step. eapply wp_rd_tcb; [done|]. wp_go; [by apply bool_decide_eq_true|].
    apply HQ; [by apply parked_switch|by destruct Hr as (?&?&?&?&?&?&?&?&?); split_and!|done|done|done].
Qed.

Lemma gathered_listed h L L' l3 t : lists h L → L !! top = Some l3 → (∀ i, 0 ≤ i < 3 → is_Some (L !! RunQ i)) →
  gathered 3 L L' (l3 ++ lower 3 L) → listed L' t ↔ listed L t.
Proof.
  intros HL E3 Hq (G1 & G2 & G3). split.
  - intros (hd & l & E & Ht). destruct (decide (hd = top)) as [->|Hn].
    + rewrite G1 in E. injection E as <-. apply elem_of_app in Ht as [Ht|Ht]; [by exists top, l3|].
      apply (lower_elem 3) in Ht as (i & l & _ & El & Ht). by exists (RunQ i), l.
    + destruct (decide (hd = RunQ 0 ∨ hd = RunQ 1 ∨ hd = RunQ 2)) as [Hc|Hc].
      * exfalso. assert (L' !! hd = Some []) as E0 by (destruct Hc as [->|[->| ->]]; apply G2; lia).
        rewrite E in E0. injection E0 as ->. by apply not_elem_of_nil in Ht.
      * exists hd, l. rewrite <-G3; [done|done|]. intros i Hi ->. apply Hc. assert (i = 0 ∨ i = 1 ∨ i = 2) as [->|[->| ->]] by lia; auto.
  - intros (hd & l & E & Ht). destruct (decide (hd = top)) as [->|Hn].
    { exists top, (l3 ++ lower 3 L). split; [done|]. rewrite E3 in E. injection E as <-. set_solver. }
    destruct (decide (hd = RunQ 0 ∨ hd = RunQ 1 ∨ hd = RunQ 2)) as [Hc|Hc].
    + exists top, (l3 ++ lower 3 L). split; [done|]. apply elem_of_app. right. apply (lower_elem 3).
      destruct Hc as [->|[->| ->]]; eexists _, l; (split_and!; [| |exact E|exact Ht]); lia.
    + exists hd, l. rewrite G3; [done|done|]. intros i Hi ->. apply Hc. assert (i = 0 ∨ i = 1 ∨ i = 2) as [->|[->| ->]] by lia; auto.
Qed.

Lemma raised_lookup ts m m' t c : raised ts m m' → m !! t = Some c →
  ∃ c', m' !! t = Some c' ∧ state c' = state c ∧ task_lock c' = task_lock c ∧
    priority c' = if decide (t ∈ ts) then 3 else priority c.
Proof. intros H E. rewrite (H t), E. case_decide; eexists; split_and!; done. Qed.

Lemma raised_inv ts m m' t c' : raised ts m m' → m' !! t = Some c' →
  ∃ c, m !! t = Some c ∧ state c' = state c ∧ task_lock c' = task_lock c ∧ (priority c' = 3 ∨ priority c' = priority c).
Proof.
  intros H. rewrite (H t). case_decide; [|intros E; exists c'; auto]. destruct (m !! t) as [c|]; [|done]. intros [= <-]. exists c. auto.
Qed.

Lemma reset_mid L L' l3 s h' m' :
  sched_mid L s → L !! top = Some l3 → lists h' L' → gathered 3 L L' (l3 ++ lower 3 L) → only_tasks (s_heap s) h' →
  raised (lower 3 L) (tcbs s) m' → sched_mid L' (with_sched_lock (Spinlock 0) (with_tcbs m' (with_heap h' s))).
Proof.
  intros Hs E3 HL' HG Ho Hm'. pose proof (si_base _ _ Hs) as Hb. pose proof (si_lists _ _ Hb) as HL.
  assert (∀ i, 0 ≤ i < 3 → is_Some (L !! RunQ i)) as Hq by (intros; apply Hb; lia).
  assert (∀ t, listed L' t ↔ listed L t) as Hli by (intros t; by eapply gathered_listed).
  assert (∀ t, unlisted L t → unlisted L' t) as Hun by (intros t; rewrite !unlisted_listed, Hli; done).
  pose proof HG as (G1 & G2 & G3).
  split; [split|..]; simpl.
  - done.
  - intros i Hi. destruct (decide (i = 3)) as [->|]; [eauto|]. rewrite G2 by lia. eauto.
  - destruct (si_block _ _ Hb). split; (rewrite G3; [done|done|done]).
  - intros hd l t E Ht. destruct (decide (hd = top)) as [->|Hn].
    + rewrite G1 in E. injection E as <-. apply elem_of_app in Ht as [Ht|Ht].
      * destruct (si_placed _ _ Hb _ _ _ E3 Ht) as (c & Ec & Sc & Pc). destruct (raised_lookup _ _ _ _ _ Hm' Ec) as (c' & Ec' & S' & _ & P').
        exists c'. split; [done|]. split; [congruence|]. rewrite P'. by case_decide.
      * pose proof (proj1 (lower_elem 3 L t) Ht) as (i & l & Hi & El & Hin). destruct (si_placed _ _ Hb _ _ _ El Hin) as (c & Ec & Sc & Pc).
        destruct (raised_lookup _ _ _ _ _ Hm' Ec) as (c' & Ec' & S' & _ & P'). rewrite decide_True in P' by done.
        exists c'. split; [done|]. split; [congruence|done].
    + assert (L !! hd = Some l ∧ t ∉ lower 3 L) as [El Hlow].
      { destruct (decide (hd = RunQ 0 ∨ hd = RunQ 1 ∨ hd = RunQ 2)) as [Hc|Hc].
        - exfalso. assert (L' !! hd = Some []) as E0 by (destruct Hc as [->|[->| ->]]; apply G2; lia).
          rewrite E in E0. injection E0 as ->. by apply not_elem_of_nil in Ht.
        - assert (∀ i, 0 ≤ i < Z.of_nat 3 → hd ≠ RunQ i) as Hni.
          { intros i Hi ->. apply Hc. assert (i = 0 ∨ i = 1 ∨ i = 2) as [->|[->| ->]] by lia; auto. }
          rewrite G3 in E by done. split; [done|]. intros (i & l' & Hi & El' & Hin)%(lower_elem 3).
          apply (Hni i Hi). by eapply (proj2 HL). }
      destruct (si_placed _ _ Hb _ _ _ El Ht) as (c & Ec & Pc). exists c. rewrite (Hm' t), decide_False by done. done.
  - intros t c' Ec'. destruct (raised_inv _ _ _ _ _ Hm' Ec') as (c & Ec & _ & Lc & Pc).
    destruct (si_node _ _ Hb t c Ec) as (Hmap & Hp & Hlk). split_and!; [by eapply only_tasks_mapped|lia|lia|congruence].
  - destruct (si_idle _ _ Hb) as (Hu & c & Ec & Sc). split; [by apply Hun|].
    destruct (raised_lookup _ _ _ _ _ Hm' Ec) as (c' & Ec' & S' & _). exists c'. split; [done|congruence].
  - split; [done|apply Hb].
  - intros t c' Ec'. destruct (raised_inv _ _ _ _ _ Hm' Ec') as (c & Ec & _). by apply (si_aligned _ _ Hb t c).
  - destruct (si_cur _ _ Hs) as (c & Ec & Hc). destruct (raised_lookup _ _ _ _ _ Hm' Ec) as (c' & Ec' & S' & _).
    exists c'. split; [done|]. unfold cur_ok in *. simpl. rewrite S', Hli. destruct Hc as [[? ?]|?]; [left|by right]. split; [done|by apply Hun].
  - intros t c' Ec'. destruct (raised_inv _ _ _ _ _ Hm' Ec') as (c & Ec & Sc & _). rewrite Sc, Hli. by apply (si_all _ _ Hs).
Qed.

Lemma mid_upt L s k : sched_mid L s → sched_mid L (with_upt k s).
Proof. intros Hs. split; [split; apply (si_base _ _ Hs)|apply Hs|apply Hs]. Qed.

(** The reset of the priorities: all waiting tasks in the top queue. *)
Definition gather (L : gmap snode (list Z)) : gmap snode (list Z) :=
  let q i := default [] (L !! RunQ i) in
  <[RunQ 3 := q 3 ++ q 2 ++ q 1 ++ q 0]> (<[RunQ 2 := []]> (<[RunQ 1 := []]> (<[RunQ 0 := []]> L))).

Lemma gathered_eq L L1 l3 : L !! top = Some l3 → gathered 3 L L1 (l3 ++ lower 3 L) → L1 = gather L.
Proof.
  intros E3 (G1 & G2 & G3).
  assert (lower 3 L = default [] (L !! RunQ 2) ++ default [] (L !! RunQ 1) ++ default [] (L !! RunQ 0)) as Elow.
  { cbn [lower]. change (Z.of_nat 2) with 2. change (Z.of_nat 1) with 1. change (Z.of_nat 0) with 0. by rewrite app_nil_r. }
  rewrite Elow in G1. unfold gather. rewrite E3. cbn [default].
  apply map_eq. intros hd. destruct (decide (hd = RunQ 3)) as [->|N3]; [by rewrite lookup_insert_eq, G1|].
  destruct (decide (hd = RunQ 2)) as [->|N2]; [rewrite G2 by lia; by rewrite lookup_insert_ne, lookup_insert_eq|].
  destruct (decide (hd = RunQ 1)) as [->|N1]; [rewrite G2 by lia; by do 2 rewrite lookup_insert_ne by done; rewrite lookup_insert_eq|].
  destruct (decide (hd = RunQ 0)) as [->|N0]; [rewrite G2 by lia; by do 3 rewrite lookup_insert_ne by done; rewrite lookup_insert_eq|].
  rewrite !lookup_insert_ne by done. apply G3; [done|]. intros i Hi ->.
  assert (i = 0 ∨ i = 1 ∨ i = 2) as [->|[->| ->]] by lia; done.
Qed.

(** The lists and control blocks with which [schedule] chooses: the priorities are reset
    when that is due. *)
Definition reset_due (s : sched) : bool := update_priority_time s <=? g_tick s.
Definition ready (L : gmap snode (list Z)) (s : sched) : gmap snode (list Z) := if reset_due s then gather L else L.
Definition ready_tcb (L : gmap snode (list Z)) (s : sched) (t : Z) : option tcb_t :=
  if reset_due s && bool_decide (t ∈ lower 3 L) then set_priority 3 <$> tcbs s !! t else tcbs s !! t.

(** What a call of [schedule] by the task [c] does. *)
Record scheduled (L : gmap snode (list Z)) (s : sched) (c : tcb_t) (s' : sched) : Prop := {
  sd_inv : sched_inv (switched_lists (ready L s) s c) s';
  sd_cur : cur_task s' = chosen (ready L s) s;
  sd_tcbs : ∀ t, tcbs s' !! t = if decide (t = cur_task s ∧ cur_task s ≠ idle_task s) then Some (demoted c) else ready_tcb L s t;
  sd_time : update_priority_time s' = if reset_due s then u64 (g_tick s + RESET_PRIORITY_INTERVAL * 1000) else update_priority_time s;
  sd_rest : same_rest s s' }.

Lemma switched_lookup L s c m t : (∀ u, m !! u = ready_tcb L s u) →
  switched_tcbs m s c !! t = if decide (t = cur_task s ∧ cur_task s ≠ idle_task s) then Some (demoted c) else ready_tcb L s t.
Proof.
  intros Hm. unfold switched_tcbs. destruct (decide (cur_task s = idle_task s)); case_decide as Ht; try tauto; [by rewrite Hm|destruct Ht as [-> _]; apply lookup_insert_eq|].
  rewrite lookup_insert_ne; [apply Hm|]. intros <-. tauto.
Qed.

Lemma cur_not_lower L s : sched_mid L s → cur_task s ∉ lower 3 L.
Proof.
  intros Hs Ht. apply (lower_elem 3) in Ht as (i & l & _ & El & Ht). destruct (si_cur _ _ Hs) as (c & Ec & Hc).
  destruct (si_placed _ _ (si_base _ _ Hs) _ _ _ El Ht) as (c' & Ec' & Sc & _). rewrite Ec in Ec'. injection Ec' as <-.
  destruct Hc as [[_ Hu]|[Hn _]]; [by apply (Hu _ _ El)|done].
Qed.

Lemma schedule_spec L s c : sched_mid L s → tcbs s !! cur_task s = Some c → wp schedule (λ _ s', scheduled L s c s') s.
Proof.
  intros Hs Ec. unfold schedule. wp_step. wp_step. wp_step. apply wp_when. pose proof (cur_not_lower L s Hs) as Hlow.
  destruct (update_priority_time s <=? g_tick s) eqn:Eu.
  - pose proof (si_base _ _ Hs) as Hb. destruct (si_queue _ _ Hb 3 ltac:(lia)) as [l3 E3]. wp_step.
    apply (wp_reset_priority L l3); [apply Hb|done|intros; apply Hb; lia| |apply Hb|apply Hb|].
    { intros i l t Hi El Ht. destruct (si_placed _ _ Hb _ _ _ El Ht) as (c' & ? & ? & ?). eauto. }
    intros h' m' L1 HL1 HG Ho Hm. wp_step. pose proof (reset_mid L L1 l3 s h' m' Hs E3 HL1 HG Ho Hm) as Hs1.
    apply (mid_upt _ _ (u64 (g_tick s + RESET_PRIORITY_INTERVAL * 1000))) in Hs1. rewrite (gathered_eq L L1 l3 E3 HG) in Hs1.
    wp_step. wp_step. apply (wp_dispatch (gather L) _ c); [exact Hs1|simpl; by rewrite (Hm _), decide_False|]. intros s' Hi Hr Hc Ht Hu.
    assert (ready L s = gather L) as Er by (unfold ready, reset_due; by rewrite Eu). split; rewrite ?Er; [exact Hi|exact Hc| |unfold reset_due; by rewrite Eu|].
    + intros t. rewrite Ht. apply (switched_lookup L s). intros u. simpl. rewrite (Hm u). unfold ready_tcb, reset_due. rewrite Eu. simpl.
      by case_bool_decide; case_decide.
    + destruct Hr as (?&?&?&?&?&?&?&Hdom&Hq). split_and!; try done; simpl in *.
      * rewrite Hdom. apply set_eq. intros t. rewrite !elem_of_dom, (Hm t). case_decide; [by rewrite fmap_is_Some|done].
      * intros q Hq1 Hq2. rewrite Hq by done. by apply Ho.
  - wp_step. wp_step. apply (wp_dispatch L _ c); [done|done|]. intros s' Hi Hr Hc Ht Hu.
    assert (ready L s = L) as Er by (unfold ready, reset_due; by rewrite Eu).
    split; rewrite ?Er; [exact Hi|exact Hc| |unfold reset_due; by rewrite Eu|done].
    intros t. rewrite Ht. apply (switched_lookup L s). intros u. unfold ready_tcb, reset_due. by rewrite Eu.
Qed.

Lemma wp_schedule L s (Q : unit → sched → Prop) :
  sched_mid L s →
  (∀ L' s', sched_inv L' s' → same_rest s s' → Q tt s') → wp schedule Q s.
Proof.
  intros Hs HQ. destruct (si_cur _ _ Hs) as (c & Ec & _). eapply wp_mono; [by apply (schedule_spec L s c)|].
  intros [] s' [Hi _ _ _ Hr]. by eapply HQ.
Qed.

(** C24: the scheduler, called by a task that runs, has gone to sleep or has exited.  If the
    reset of the priorities is due, all waiting tasks first go to the top queue, higher
    queues first.  [schedule] switches to the first task of the highest queue that is not
    empty, or to the idle task when all are empty.  That task leaves its queue; the old
    task, if it still runs and is not the idle task, goes to the end of the queue of its
    priority, one level lower if its time slice is used up.  No other list and no other
    control block changes, and the invariant holds again. *)
Theorem schedule_correct L s c : sched_mid L s → tcbs s !! cur_task s = Some c →
  wp schedule (λ _ s',
    sched_inv (switched_lists (ready L s) s c) s' ∧ cur_task s' = chosen (ready L s) s ∧
    (∀ t, tcbs s' !! t = if decide (t = cur_task s ∧ cur_task s ≠ idle_task s) then Some (demoted c) else ready_tcb L s t) ∧
    update_priority_time s' = (if reset_due s then u64 (g_tick s + RESET_PRIORITY_INTERVAL * 1000) else update_priority_time s)) s.
Proof. intros Hs Ec. eapply wp_mono; [by apply (schedule_spec L s c)|]. by intros _ s' [? ? ? ? _]. Qed.

(** ** Sleeping, waking and exiting *)

Definition woken (c : tcb_t) : tcb_t := set_task_lock (Spinlock 0) (set_state TASK_RUNNING c).

Lemma wp_task_wakeup L s t c hd l1 l2 lq (Q : unit → sched → Prop) :
  lists (s_heap s) L → tcbs s !! t = Some c → state c ≠ TASK_RUNNING → task_lock c = Spinlock 0 → sched_lock s = Spinlock 0 → aligned (tcbs s) →
  L !! hd = Some (l1 ++ t :: l2) → is_Some (s_heap s !! Run t) →
  (<[hd := l1 ++ l2]> L) !! RunQ (priority c) = Some lq →
  (∀ h1 h', lists h1 (<[hd := l1 ++ l2]> L) → only_tasks (s_heap s) h1 →
     lists h' (<[RunQ (priority c) := lq ++ [t]]> (<[hd := l1 ++ l2]> L)) → only_tasks h1 h' →
     Q tt (with_sched_lock (Spinlock 0) (with_heap h' (with_tcbs (<[t := woken c]> (tcbs s)) s)))) →
  wp (task_wakeup (Run t)) Q s.
Proof.
  intros HL Ec Sc Lc Hsl Ha El Hm Eq HQ. unfold task_wakeup. wp_step. eapply wp_tcb_entry; [done|done|]. wp_step. eapply wp_rd_tcb; [done|].
  rewrite bool_decide_false by done. cbn [negb]. wp_step. eapply wp_upd_tcb; [done|]. wp_step.
  eapply wp_rd_tcb; [apply lookup_insert_eq|]. change (task_lock (set_state TASK_RUNNING c)) with (task_lock c). rewrite Lc.
  change (spinlock_lock (Spinlock 0)) with (Ok (Spinlock 1)). cbv iota. wp_step. eapply wp_upd_tcb; [apply lookup_insert_eq|]. wp_step.
  apply wp_on_hp. simpl s_heap. eapply wp_mono; [by apply (wp_remove _ L hd l1 t l2)|]. intros [] h1 [HL1 Ho1]. wp_step.
  eapply wp_upd_tcb; [apply lookup_insert_eq|].
  eapply (wp_sched_task_add (<[hd := l1 ++ l2]> L) t (woken c) lq); simpl.
  - done.
  - apply lookup_insert_eq.
  - done.
  - by eapply unlisted_removed.
  - by eapply only_tasks_mapped.
  - done.
  - by repeat (eapply aligned_insert; [|apply lookup_insert_eq || done]).
  - intros h' HL' Ho'. rewrite !insert_insert_eq. by apply (HQ h1 h').
Qed.

Lemma sleeping_listed L s t c : sched_inv L s → tcbs s !! t = Some c → state c = TASK_SLEEPING →
  t ≠ cur_task s ∧ t ≠ idle_task s ∧ ∃ hd l1 l2, L !! hd = Some (l1 ++ t :: l2) ∧ ∀ i, hd ≠ RunQ i.
Proof.
  intros [Hs (cc & Ecc & Scc)] Ec Sc. pose proof (si_base _ _ Hs) as Hb. destruct (si_idle _ _ Hb) as (_ & ci & Eci & Sci).
  assert (t ≠ cur_task s) as H1 by (intros ->; congruence). assert (t ≠ idle_task s) as H2 by (intros ->; congruence).
  split_and!; [done|done|]. destruct (si_all _ _ Hs t c Ec) as [?|[?|[(hd & l & El & Ht)|?]]]; [done|done| |congruence].
  pose proof Ht as (l1 & l2 & ->)%list_elem_of_split. exists hd, l1, l2. split; [done|]. intros i ->.
  destruct (si_placed _ _ Hb _ _ _ El Ht) as (c' & Ec' & S' & _). congruence.
Qed.

(** Moving a sleeping task to its queue keeps the invariant. *)
Lemma wake_effect L s t c hd l1 l2 lq h1 h' :
  sched_mid L s → tcbs s !! t = Some c → t ≠ cur_task s → t ≠ idle_task s →
  L !! hd = Some (l1 ++ t :: l2) → (<[hd := l1 ++ l2]> L) !! RunQ (priority c) = Some lq →
  lists h1 (<[hd := l1 ++ l2]> L) → only_tasks (s_heap s) h1 →
  lists h' (<[RunQ (priority c) := lq ++ [t]]> (<[hd := l1 ++ l2]> L)) → only_tasks h1 h' →
  sched_mid (<[RunQ (priority c) := lq ++ [t]]> (<[hd := l1 ++ l2]> L))
    (with_sched_lock (Spinlock 0) (with_heap h' (with_tcbs (<[t := woken c]> (tcbs s)) s))).
Proof.
  intros Hs Ec H1 H2 El Elq HL1 Ho1 HL' Ho'. pose proof (si_base _ _ Hs) as Hb.
  destruct (si_node _ _ Hb t c Ec) as (Hm & Hp & Hlk).
  set (L1 := <[hd := l1 ++ l2]> L) in *. set (L2 := <[RunQ (priority c) := lq ++ [t]]> L1) in *.
  assert (sched_base L1 (with_heap h1 s)) as Hb1.
  { apply (base_insert L s hd (l1 ++ t :: l2)); [done|done|done|done|]. intros u Hu. left. set_solver. }
  pose proof (unlisted_removed _ _ _ _ _ _ (si_lists _ _ Hb) El) as Hut.
  assert (sched_base L1 (with_tcbs (<[t := woken c]> (tcbs s)) (with_heap h1 s))) as Hb2.
  { apply (base_tcb L1 (with_heap h1 s) t c); [done|done| |done|done|done]. intros g m Eg Hg. by destruct (Hut g m Eg). }
  assert (sched_base L2 (with_heap h' (with_tcbs (<[t := woken c]> (tcbs s)) (with_heap h1 s)))) as Hb3.
  { apply (base_insert L1 _ _ lq); [done|done|done|done|]. intros u [?|Hu]%elem_of_app; [by left|]. apply list_elem_of_singleton in Hu as ->.
    right. split; [done|]. exists (woken c). split; [apply lookup_insert_eq|done]. }
  assert (∀ u, u ≠ t → unlisted L u → unlisted L2 u) as Hun.
  { intros u Hut' Hu. assert (unlisted L1 u) as Hu1 by (apply unlisted_insert; [done|]; intros Hin; apply (Hu _ _ El); set_solver).
    apply unlisted_insert; [done|]. intros [Hin|Hin]%elem_of_app; [by apply (Hu1 _ _ Elq)|]. by apply list_elem_of_singleton in Hin. }
  assert (∀ u, u ≠ t → listed L u → listed L2 u) as Hli.
  { intros u Hne Hu. eapply listed_update; [|exact Elq|set_solver]. eapply listed_update; [exact Hu|exact El|set_solver]. }
  split; [apply (base_lock _ _ Hb3)| |].
  - destruct (si_cur _ _ Hs) as (cc & Ecc & Hc). exists cc. split; [simpl; by rewrite lookup_insert_ne|].
    destruct Hc as [[? ?]|(? & ? & [?|?])]; [left; split; [done|by apply Hun]|right; split_and!; [done|done|left; by apply Hli]|].
    right. split_and!; [done|done|by right].
  - simpl. intros u cu. rewrite lookup_insert_Some. intros [[<- <-]|[Hne Eu]].
    + right; right; left. exists (RunQ (priority c)), (lq ++ [t]). unfold L2. rewrite lookup_insert_eq. set_solver.
    + destruct (si_all _ _ Hs u cu Eu) as [?|[?|[?|?]]]; [auto|auto| |auto]. right; right; left. by apply Hli.
Qed.

Lemma wakeup_inv L s t c (Q : unit → sched → Prop) :
  sched_inv L s → tcbs s !! t = Some c → state c ≠ TASK_ZOMBIE →
  (∀ L' s', sched_inv L' s' → same_rest s s' → cur_task s' = cur_task s → Q tt s') → wp (task_wakeup (Run t)) Q s.
Proof.
  intros Hs Ec Hz HQ. destruct (decide (state c = TASK_RUNNING)) as [Hr|Hr].
  { unfold task_wakeup. wp_step. eapply wp_tcb_entry; [apply (si_base _ _ (proj1 Hs))|done|]. wp_step. eapply wp_rd_tcb; [done|].
    rewrite bool_decide_true by done. cbn [negb]. wp_go. apply (HQ L); [done|by split_and!|done]. }
  assert (state c = TASK_SLEEPING) as Sc by (destruct (state c); done).
  destruct (sleeping_listed L s t c Hs Ec Sc) as (H1 & H2 & hd & l1 & l2 & El & Hhd).
  destruct Hs as [Hs (cc & Ecc & Scc)]. pose proof (si_base _ _ Hs) as Hb. destruct (si_node _ _ Hb t c Ec) as (Hm & Hp & Hlk).
  destruct (si_queue _ _ Hb (priority c) Hp) as [lq Elq].
  assert ((<[hd := l1 ++ l2]> L) !! RunQ (priority c) = Some lq) as Elq' by (rewrite lookup_insert_ne; [done|apply Hhd]).
  apply (wp_task_wakeup L s t c hd l1 l2 lq); [apply Hb|done|done|done|apply Hb|apply Hb|done|done|done|].
  intros h1 h' HL1 Ho1 HL' Ho'. eapply HQ; [split|..|done].
  - by eapply (wake_effect L s t c hd l1 l2 lq h1).
  - exists cc. simpl. by rewrite lookup_insert_ne.
  - split_and!; try done; simpl; [apply dom_insert_lookup_L; eauto|]. intros q Hq1 Hq2.
    destruct Ho' as [_ ->]; [|done|done]. by apply Ho1.
Qed.

Lemma base_list_lock L s : sched_base L s → sched_base L (with_list_lock (Spinlock 0) s).
Proof. intros Hb. split; try apply Hb. simpl. split; [apply Hb|done]. Qed.

(** The current task put on [BlockList] or [FinishList] and marked accordingly. *)
Lemma leave_effect L s hd l c st h' :
  sched_inv L s → cur_task s ≠ idle_task s → tcbs s !! cur_task s = Some c → L !! hd = Some l →
  placed hd (set_state st c) → st ≠ TASK_RUNNING →
  lists h' (<[hd := cur_task s :: l]> L) → only_tasks (s_heap s) h' →
  sched_mid (<[hd := cur_task s :: l]> L)
    (with_heap h' (with_tcbs (<[cur_task s := set_state st c]> (tcbs s)) (with_list_lock (Spinlock 0) s))).
Proof.
  intros [Hs (c' & Ec' & Sc')] Hi Ec El Hpl Hst HL' Ho. rewrite Ec in Ec'. injection Ec' as <-.
  pose proof (si_base _ _ Hs) as Hb. destruct (si_node _ _ Hb _ _ Ec) as (Hm & Hp & Hlk).
  assert (unlisted L (cur_task s)) as Hu.
  { destruct (si_cur _ _ Hs) as (c0 & E0 & [[_ ?]|[? _]]); [done|congruence]. }
  assert (sched_base L (with_tcbs (<[cur_task s := set_state st c]> (tcbs s)) (with_list_lock (Spinlock 0) s))) as Hb1.
  { apply (base_tcb L (with_list_lock (Spinlock 0) s) _ c); [by apply base_list_lock|done| |by intros E; destruct (Hi E)|done|done].
    intros g m Eg Hg. by destruct (Hu g m Eg). }
  assert (listed (<[hd := cur_task s :: l]> L) (cur_task s)) as Hli by (exists hd, (cur_task s :: l); rewrite lookup_insert_eq; set_solver).
  split.
  - apply (base_insert L _ hd l); [done|done|done|done|]. intros t [->|?]%elem_of_cons; [right|by left].
    split; [done|]. exists (set_state st c). split; [apply lookup_insert_eq|done].
  - exists (set_state st c). split; [apply lookup_insert_eq|]. right. split_and!; [done|done|by left].
  - simpl. intros t ct. rewrite lookup_insert_Some. intros [[<- <-]|[Hne Et]]; [auto|].
    destruct (si_all _ _ Hs t ct Et) as [?|[?|[Hl|?]]]; [auto|auto| |auto]. right; right; left.
    eapply listed_update; [exact Hl|exact El|set_solver].
Qed.

(** What a whole operation does to the rest of the state. *)
Lemma same_rest_trans s1 s2 s3 : same_rest s1 s2 → same_rest s2 s3 → same_rest s1 s3.
Proof.
  intros (A1&A2&A3&A4&A5&A6&A7&A8&A9) (B1&B2&B3&B4&B5&B6&B7&B8&B9). split_and!; try congruence.
  intros q Hq Hr. by rewrite B9, A9.
Qed.

(** The lists and the state when a task that goes to sleep calls [schedule]. *)
Definition asleep_lists (L : gmap snode (list Z)) (s : sched) : gmap snode (list Z) :=
  <[BlockList := cur_task s :: default [] (L !! BlockList)]> L.
Definition asleep (s : sched) (c : tcb_t) : sched := with_tcbs (<[cur_task s := set_state TASK_SLEEPING c]> (tcbs s)) s.

Lemma sleep_spec L s c : sched_inv L s → cur_task s ≠ idle_task s → tcbs s !! cur_task s = Some c →
  wp (task_sleep None None) (λ r s', r = 0 ∧ scheduled (asleep_lists L s) (asleep s c) (set_state TASK_SLEEPING c) s') s.
Proof.
  intros Hs Hi Ec. pose proof Hs as [Hmid (c' & Ec' & Sc)]. rewrite Ec in Ec'. injection Ec' as <-. pose proof (si_base _ _ Hmid) as Hb.
  destruct (si_block _ _ Hb) as [[l El] _]. destruct (si_locks _ _ Hb) as [_ Hlk].
  assert (unlisted L (cur_task s)) as Hu.
  { destruct (si_cur _ _ Hmid) as (c0 & E0 & [[_ ?]|[? _]]); [done|congruence]. }
  unfold task_sleep. wp_step. wp_step. cbv iota beta. wp_step. wp_step. wp_step. apply wp_take_lock; [done|]. wp_step. apply wp_on_hp.
  simpl s_heap. eapply wp_mono; [apply (wp_add_front _ L BlockList l); [apply Hb|done|done|by eapply si_node]|].
  intros [] h' [HL' Ho]. wp_step. apply wp_drop_lock. wp_step. eapply wp_upd_tcb; [done|]. wp_step. unfold asleep_lists. rewrite El. cbn [default].
  eapply wp_mono; [eapply (schedule_spec (<[BlockList := cur_task s :: l]> L))|].
  - by apply (leave_effect L s BlockList l c TASK_SLEEPING).
  - apply lookup_insert_eq.
  - intros [] s' [S1 S2 S3 S4 (R1&R2&R3&R4&R5&R6&R7&R8&R9)]. wp_step. split; [done|]. split; [exact S1|exact S2|exact S3|exact S4|].
    split_and!; try done. intros q Hq Hr. rewrite R9 by done. simpl. by apply (proj2 Ho).
Qed.

Lemma asleep_rest s c : tcbs s !! cur_task s = Some c → same_rest s (asleep s c).
Proof. intros Ec. split_and!; try done. simpl. apply dom_insert_lookup_L. eauto. Qed.

(** [schedule] moves tasks between the queues and looks at nothing else. *)
Lemma pick_ext n L L' : (∀ i, L' !! RunQ i = L !! RunQ i) → pick n L' = pick n L.
Proof. intros H. induction n as [|n IH]; cbn [pick]; [done|]. by rewrite H, IH. Qed.

Lemma gather_queues L L' i : (∀ j, L' !! RunQ j = L !! RunQ j) → gather L' !! RunQ i = gather L !! RunQ i.
Proof.
  intros H. unfold gather. rewrite !H. destruct (decide (i = 3)) as [->|]; [by rewrite !lookup_insert_eq|]. rewrite !(lookup_insert_ne _ (RunQ 3)) by congruence.
  destruct (decide (i = 2)) as [->|]; [by rewrite !lookup_insert_eq|]. rewrite !(lookup_insert_ne _ (RunQ 2)) by congruence.
  destruct (decide (i = 1)) as [->|]; [by rewrite !lookup_insert_eq|]. rewrite !(lookup_insert_ne _ (RunQ 1)) by congruence.
  destruct (decide (i = 0)) as [->|]; [by rewrite !lookup_insert_eq|]. rewrite !(lookup_insert_ne _ (RunQ 0)) by congruence. apply H.
Qed.

Lemma ready_ext L L' s s' : (∀ i, L' !! RunQ i = L !! RunQ i) → reset_due s' = reset_due s → idle_task s' = idle_task s →
  chosen (ready L' s') s' = chosen (ready L s) s ∧ ∀ t, tcbs s' !! t = tcbs s !! t → ready_tcb L' s' t = ready_tcb L s t.
Proof.
  intros H Hd Hi. unfold chosen, ready, ready_tcb. rewrite Hd, Hi. split.
  - rewrite (pick_ext 4 (if reset_due s then gather L else L)); [done|]. intros i. destruct (reset_due s); [by apply gather_queues|apply H].
  - intros t ->. by rewrite (lower_ext 3 L L').
Qed.

Lemma switched_other L s c hd : (∀ i, hd ≠ RunQ i) → switched_lists (ready L s) s c !! hd = L !! hd.
Proof.
  intros H. assert (ready L s !! hd = L !! hd) as <-. { unfold ready, gather. destruct (reset_due s); [|done]. by rewrite !lookup_insert_ne by (symmetry; apply H). }
  assert (picked (ready L s) !! hd = ready L s !! hd) as <-.
  { unfold picked. destruct (pick 4 _) as [[[i t] l]|]; [|done]. by rewrite lookup_insert_ne by (symmetry; apply H). }
  unfold switched_lists, put_back. case_decide; [done|]. case_decide; [|done]. by rewrite lookup_insert_ne by (symmetry; apply H).
Qed.

(** The current task goes to sleep. *)
Lemma sleep_effect L s c bl : sched_inv L s → cur_task s ≠ idle_task s → tcbs s !! cur_task s = Some c → L !! BlockList = Some bl →
  wp (task_sleep None None) (λ _ s', ∃ L', sched_inv L' s' ∧ L' !! BlockList = Some (cur_task s :: bl) ∧ L' !! FinishList = L !! FinishList ∧
    cur_task s' = chosen (ready L s) s ∧
    (∀ t, tcbs s' !! t = if decide (t = cur_task s) then Some (demoted (set_state TASK_SLEEPING c)) else ready_tcb L s t) ∧ same_rest s s') s.
Proof.
  intros Hs Hi Ec El. eapply wp_mono; [by apply (sleep_spec L s c)|]. intros r s' [-> [S1 S2 S3 _ S5]]. eexists. split; [exact S1|].
  rewrite !switched_other by done. unfold asleep_lists in *. rewrite El in *. cbn [default] in *. rewrite lookup_insert_eq, lookup_insert_ne by done.
  destruct (ready_ext L (<[BlockList := cur_task s :: bl]> L) s (asleep s c)) as [Ech Etc]; [intros i; by rewrite lookup_insert_ne|done|done|].
  split_and!; [done|done|by rewrite <-Ech| |].
  - intros t. rewrite S3. simpl cur_task. simpl idle_task. destruct (decide (t = cur_task s)) as [->|Hne]; [by rewrite decide_True|].
    rewrite decide_False by tauto. apply Etc. simpl. by rewrite lookup_insert_ne.
  - eapply same_rest_trans; [by apply asleep_rest|exact S5].
Qed.

Lemma sleep_inv L s (Q : Z → sched → Prop) :
  sched_inv L s → cur_task s ≠ idle_task s →
  (∀ L' s', sched_inv L' s' → same_rest s s' → Q 0 s') → wp (task_sleep None None) Q s.
Proof.
  intros Hs Hi HQ. pose proof Hs as [_ (c & Ec & _)]. eapply wp_mono; [by apply (sleep_spec L s c)|].
  intros r s' [-> [Hi' _ _ _ Hr]]. eapply HQ; [exact Hi'|]. eapply same_rest_trans; [by apply asleep_rest|exact Hr].
Qed.

Lemma init_exit_effect L s c :
  sched_inv L s → cur_task s ≠ idle_task s → tcbs s !! cur_task s = Some c →
  sched_mid L (with_tcbs (<[cur_task s := set_state TASK_ZOMBIE c]> (tcbs s)) s).
Proof.
  intros [Hs (c' & Ec' & Sc')] Hi Ec. rewrite Ec in Ec'. injection Ec' as <-. pose proof (si_base _ _ Hs) as Hb.
  destruct (si_node _ _ Hb _ _ Ec) as (Hm & Hp & Hlk).
  assert (unlisted L (cur_task s)) as Hu.
  { destruct (si_cur _ _ Hs) as (c0 & E0 & [[_ ?]|[? _]]); [done|congruence]. }
  split.
  - apply (base_tcb L s _ c); [done|done| |by intros E; destruct (Hi E)|done|done]. intros g m Eg Hg. by destruct (Hu g m Eg).
  - exists (set_state TASK_ZOMBIE c). split; [apply lookup_insert_eq|]. right. split_and!; [done|done|by right].
  - simpl. intros t ct. rewrite lookup_insert_Some. intros [[<- <-]|[_ Et]]; [auto|]. by apply (si_all _ _ Hs).
Qed.

Lemma exit_inv L s cc (Q : unit → sched → Prop) :
  sched_inv L s → cur_task s ≠ idle_task s → tcbs s !! cleaner_task s = Some cc → state cc ≠ TASK_ZOMBIE →
  (∀ L' s', sched_inv L' s' → same_rest s s' → Q tt s') → wp task_exit Q s.
Proof.
  intros Hs Hi Ecc Hz HQ. pose proof Hs as [Hmid (c & Ec & Sc)]. pose proof (si_base _ _ Hmid) as Hb.
  destruct (si_block _ _ Hb) as [_ [l El]]. destruct (si_locks _ _ Hb) as [Hsl Hlk].
  unfold task_exit. wp_step. wp_step. wp_step. wp_step; [by rewrite bool_decide_false|]. wp_step. apply wp_when.
  destruct (bool_decide_reflect (cur_task s = init_task s)) as [Hinit|Hinit]; cbn [negb].
  { wp_step. eapply wp_upd_tcb; [done|]. eapply (wp_schedule L); [by apply init_exit_effect|]. intros L' s' Hs' Hr.
    apply (HQ L'); [done|]. eapply same_rest_trans; [|exact Hr]. split_and!; try done. simpl. apply dom_insert_lookup_L; eauto. }
  assert (unlisted L (cur_task s)) as Hu.
  { destruct (si_cur _ _ Hmid) as (c0 & E0 & [[_ ?]|[? _]]); [done|congruence]. }
  wp_step. apply wp_take_lock; [done|]. wp_step. apply wp_on_hp.
  simpl s_heap. eapply wp_mono; [apply (wp_add_front _ L FinishList l); [apply Hb|done|done|by eapply si_node]|].
  intros [] h' [HL' Ho]. wp_step. apply wp_drop_lock. wp_step. eapply wp_tcb_entry; [apply Hb|done|]. wp_step. eapply wp_rd_tcb; [done|].
  apply wp_when. set (LF := <[FinishList := cur_task s :: l]> L) in *.
  pose proof (leave_effect L s FinishList l c TASK_ZOMBIE h' Hs Hi Ec El eq_refl ltac:(done) HL' Ho) as HF. fold LF in HF.
  destruct (bool_decide_reflect (state cc = TASK_RUNNING)) as [Hr|Hr]; cbn [negb].
  - wp_step. eapply wp_upd_tcb; [done|]. eapply (wp_schedule LF); [exact HF|]. intros L' s' Hs' Hrest.
    apply (HQ L'); [done|]. eapply same_rest_trans; [|exact Hrest]. split_and!; try done; simpl; [apply dom_insert_lookup_L; eauto|by destruct Ho].
  - assert (state cc = TASK_SLEEPING) as Scc by (destruct (state cc); done).
    destruct (sleeping_listed L s _ cc Hs Ecc Scc) as (H1 & H2 & hd & l1 & l2 & Ehd & Hhd).
    destruct (si_node _ _ Hb _ _ Ecc) as (Hmc & Hpc & Hlkc). destruct (si_queue _ _ Hb (priority cc) Hpc) as [lq Elq].
    assert (hd ≠ FinishList) as Hnf.
    { intros ->. destruct (si_placed _ _ Hb _ _ (cleaner_task s) Ehd) as (c1 & E1 & P1); [set_solver|]. simpl in P1. congruence. }
    assert (LF !! hd = Some (l1 ++ cleaner_task s :: l2)) as EhdF by (unfold LF; by rewrite lookup_insert_ne).
    assert ((<[hd := l1 ++ l2]> LF) !! RunQ (priority cc) = Some lq) as ElqF.
    { unfold LF. rewrite !lookup_insert_ne; [done|done|apply Hhd]. }
    eapply (wp_task_wakeup LF _ _ cc hd l1 l2 lq); [done|done|done|done|done|apply Hb|done|by eapply only_tasks_mapped|done|]. simpl s_heap.
    intros h1 h2 HL1 Ho1 HL2 Ho2. wp_step.
    eapply wp_upd_tcb; [simpl; by rewrite lookup_insert_ne|]. simpl tcbs. rewrite insert_insert_ne by done.
    eapply wp_schedule; [eapply (wake_effect LF _ _ cc hd l1 l2 lq h1 h2 HF)|]; try done; [simpl; by rewrite lookup_insert_ne|].
    intros L' s' Hs' Hrest. apply (HQ L'); [done|]. eapply same_rest_trans; [|exact Hrest].
    split_and!; try done; simpl.
    + rewrite !dom_insert_lookup_L; [done|eauto|rewrite lookup_insert_ne by done; eauto].
    + intros q Hq1 Hq2. rewrite (proj2 Ho2), (proj2 Ho1) by done. simpl. by apply (proj2 Ho).
Qed.

(** ** Every history of task operations *)

Inductive task_op := OpYield | OpSleep | OpWake (t : Z) | OpExit.

(** The calls the kernel makes: the idle task neither sleeps nor exits, and only
    tasks that exist and have not exited are woken. *)
Definition legal (s : sched) (o : task_op) : Prop :=
  match o with
  | OpYield => True
  | OpSleep => cur_task s ≠ idle_task s
  | OpWake t => ∃ c, tcbs s !! t = Some c ∧ state c ≠ TASK_ZOMBIE
  | OpExit => cur_task s ≠ idle_task s ∧ ∃ c, tcbs s !! cleaner_task s = Some c ∧ state c ≠ TASK_ZOMBIE
  end.

Definition task_step (o : task_op) : M sched unit :=
  match o with
  | OpYield => schedule
  | OpSleep => _ ← task_sleep None None; mret tt
  | OpWake t => task_wakeup (Run t)
  | OpExit => task_exit
  end.

Inductive task_history (s : sched) : list task_op → sched → Prop :=
  | hist_nil : task_history s [] s
  | hist_snoc os s1 o s2 : task_history s os s1 → legal s1 o → task_step o s1 = Ok (tt, s2) → task_history s (os ++ [o]) s2.

Lemma step_inv L s o : sched_inv L s → legal s o →
  wp (task_step o) (λ _ s', (∃ L', sched_inv L' s') ∧ dom (tcbs s') = dom (tcbs s)) s.
Proof.
  assert (∀ s', same_rest s s' → dom (tcbs s') = dom (tcbs s)) as Hd by (by intros s' (?&?&?&?&?&?&?&?&?)).
  intros Hs. destruct o; simpl; intros Hl.
  - apply (wp_schedule L); [apply Hs|]. eauto.
  - wp_step. apply (sleep_inv L); [done|done|]. intros L' s' ? ?. wp_step. eauto.
  - destruct Hl as (c & Ec & Sc). apply (wakeup_inv L s t c); [done|done|done|]. eauto.
  - destruct Hl as (Hi & c & Ec & Sc). apply (exit_inv L s c); [done|done|done|done|]. eauto.
Qed.

(** C2: no task is lost.  In every history of legal yields, sleeps, wake-ups and exits
    (a sleep is [task_sleep(NULL, NULL)]; the idle task neither sleeps nor exits, and only
    tasks that have not exited are woken)
    from a state that satisfies the invariant, every call returns (no assertion
    fails, no lock is left held, the periodic reset of the priorities included), and
    afterwards every task is the running one, the idle one, in exactly one list that
    fits its state and priority, or has exited. *)
Theorem no_task_lost L s os s1 :
  sched_inv L s → task_history s os s1 →
  (∃ L', sched_inv L' s1) ∧ dom (tcbs s1) = dom (tcbs s) ∧
  ∀ o, legal s1 o → ∃ s2, task_step o s1 = Ok (tt, s2).
Proof.
  intros Hs Hh. assert ((∃ L', sched_inv L' s1) ∧ dom (tcbs s1) = dom (tcbs s)) as [[L' HL'] Hd].
  { induction Hh as [|os s1 o s2 Hh IH Hl E]; [eauto|]. destruct IH as [[L' HL'] Hd].
    pose proof (step_inv L' s1 o HL' Hl) as Hw. unfold wp in Hw. rewrite E in Hw. destruct Hw as [? ->]. done. }
  split_and!; [eauto|done|]. intros o Hl. destruct (wp_elim _ _ _ (step_inv L' s1 o HL' Hl)) as ([] & s2 & E & _). eauto.
Qed.

(** [reset_priority] appends the lower queues to the highest one, higher
    priorities first and each in its order, leaves the lower queues empty, and gives
    every waiting task the highest priority; the other lists and the current task
    are untouched and the invariant is kept. *)
Theorem reset_priority_gathers L s l3 l2 l1 l0 :
  sched_inv L s → L !! RunQ 3 = Some l3 → L !! RunQ 2 = Some l2 → L !! RunQ 1 = Some l1 → L !! RunQ 0 = Some l0 →
  wp reset_priority (λ _ s', sched_inv
    (<[RunQ 3 := l3 ++ l2 ++ l1 ++ l0]> (<[RunQ 2 := []]> (<[RunQ 1 := []]> (<[RunQ 0 := []]> L)))) s' ∧
    cur_task s' = cur_task s ∧
    ∀ t, t ∈ l3 ++ l2 ++ l1 ++ l0 → ∃ c, tcbs s' !! t = Some c ∧ priority c = 3) s.
Proof.
  intros [Hs (c & Ec & Sc)] E3 E2 E1 E0. pose proof (si_base _ _ Hs) as Hb.
  apply (wp_reset_priority L l3); [apply Hb|done|intros; apply Hb; lia| |apply Hb|apply Hb|].
  { intros i l t Hi El Ht. destruct (si_placed _ _ Hb _ _ _ El Ht) as (ct & ? & ? & ?). eauto. }
  intros h' m' L1 HL1 HG Ho Hm. pose proof (reset_mid L L1 l3 s h' m' Hs E3 HL1 HG Ho Hm) as Hs1.
  assert (<[RunQ 3 := l3 ++ l2 ++ l1 ++ l0]> (<[RunQ 2 := []]> (<[RunQ 1 := []]> (<[RunQ 0 := []]> L))) = gather L) as ->
    by (unfold gather; by rewrite E3, E2, E1, E0).
  rewrite (gathered_eq L L1 l3 E3 HG) in *.
  split_and!; [|done|].
  - split; [done|]. destruct (raised_lookup _ _ _ _ _ Hm Ec) as (c' & Ec' & S' & _). exists c'. split; [done|congruence].
  - intros t Ht. destruct (si_placed _ _ (si_base _ _ Hs1) (RunQ 3) (l3 ++ l2 ++ l1 ++ l0) t) as (ct & Et & _ & Pt); [unfold gather; by rewrite lookup_insert_eq, E3, E2, E1, E0|done|]. eauto.
Qed.

(** [thread_mutex_unlock] panics as soon as a task waits for the mutex: it wakes
    the head of the list of sleeping tasks, which is no task. *)
Theorem mutex_unlock_panics s m x t l :
  mutexes s !! m = Some x → mx_locked x = true → mx_lock x = Spinlock 0 →
  dl (s_heap s) (MutexSleep m) (Run t :: l) →
  thread_mutex_unlock m s = Err Assert.
Proof.
  intros Ex Hl Hlk Hd. unfold thread_mutex_unlock.
  assert (rd_mutex m s = Ok (x, s)) as E1 by (unfold rd_mutex, mbind, M_bind, get, deref; by rewrite Ex).
  rewrite (bind_Ok _ _ _ _ _ E1). set (s1 := mx_set m (Spinlock 1) s).
  assert (take_lock (mx_get m) (mx_set m) s = Ok (tt, s1)) as E2.
  { unfold take_lock, mbind, M_bind, get. assert (mx_get m s = Spinlock 0) as -> by (unfold mx_get; by rewrite Ex). done. }
  rewrite (bind_Ok _ _ _ _ _ E2).
  assert (mutexes s1 !! m = Some (Mutex (mx_locked x) (Spinlock 1))) as Ex1 by (simpl; by rewrite lookup_alter_eq, Ex).
  assert (rd_mutex m s1 = Ok (Mutex (mx_locked x) (Spinlock 1), s1)) as E3 by (unfold rd_mutex, mbind, M_bind, get, deref; by rewrite Ex1).
  rewrite (bind_Ok _ _ _ _ _ E3). simpl mx_locked. rewrite Hl. rewrite (bind_Ok _ _ _ tt s1) by done.
  set (s2 := with_mutexes (<[m := Mutex false (Spinlock 1)]> (mutexes s1)) s1).
  assert (wr_mutex m (Mutex false (Spinlock 1)) s1 = Ok (tt, s2)) as E4 by (unfold wr_mutex; by rewrite (bind_Ok _ _ _ _ _ E3)).
  rewrite (bind_Ok _ _ _ _ _ E4).
  assert (on_hp (list_empty (MutexSleep m)) s2 = Ok (false, s2)) as E5.
  { destruct (wp_elim (list_empty (MutexSleep m)) (λ b h, b = false ∧ h = s_heap s2) (s_heap s2)) as (b & h & E & -> & ->).
    - eapply wp_list_empty; [exact Hd|]. by rewrite bool_decide_false.
    - unfold on_hp, zoom. rewrite E. by rewrite with_heap_eta. }
  rewrite (bind_Ok _ _ _ _ _ E5). done.
Qed.

(** ** A concrete system: the task at 0x1000 runs, 0x2000 is idle, 0x3000 waits at
    priority 2, 0x4000 (the cleaner) sleeps and 0x5000 waits for mutex 9 *)

Definition ring2 (h n : snode) : list (snode * list_head snode) := [(h, LH n n); (n, LH h h)].
Definition alone (h : snode) : snode * list_head snode := (h, LH h h).
Definition sys_heap : gmap snode (list_head snode) :=
  list_to_map ([alone (RunQ 0); alone (RunQ 1); alone (RunQ 3); alone FinishList; alone (Run 0x1000); alone (Run 0x2000)] ++
    ring2 (RunQ 2) (Run 0x3000) ++ ring2 BlockList (Run 0x4000) ++ ring2 (MutexSleep 9) (Run 0x5000)).
Definition sys_lists : gmap snode (list Z) :=
  list_to_map [(RunQ 0, []); (RunQ 1, []); (RunQ 2, [0x3000]); (RunQ 3, []); (FinishList, []); (BlockList, [0x4000]); (MutexSleep 9, [0x5000])].
Definition mk_tcb (p : Z) (st : task_state) (pr : Z) : tcb_t := Tcb p st pr 100 (replicate 16 0) 0 (Spinlock 0).
Definition sys_tcbs : gmap Z tcb_t :=
  list_to_map [(0x1000, mk_tcb 0 TASK_RUNNING 3); (0x2000, mk_tcb 1 TASK_RUNNING 0); (0x3000, mk_tcb 2 TASK_RUNNING 2);
               (0x4000, mk_tcb 3 TASK_SLEEPING 3); (0x5000, mk_tcb 4 TASK_SLEEPING 1)].
Definition sys0 : sched :=
  Sched sys_heap sys_tcbs [0x1000; 0x2000; 0x3000; 0x4000; 0x5000] (Spinlock 0) (Spinlock 0) (Spinlock 0) 0x1000 0x2000 0x1000 0x4000 0 2000 ∅
        (TimerPool [] 0 0) {[9 := Mutex true (Spinlock 0)]} 0.

Ltac each_list E := apply elem_of_list_to_map_2 in E;
  repeat (apply elem_of_cons in E as [E|E]; [injection E as -> ->|]); [..|by apply not_elem_of_nil in E].

Lemma sys_lists_ok : lists sys_heap sys_lists.
Proof.
  split.
  - intros hd l E. each_list E; (split; [done|]); (split; [repeat constructor; set_solver|]); vm_compute; repeat split.
  - intros h1 h2 l1 l2 t E1 E2 H1 H2. each_list E1; try (by apply not_elem_of_nil in H1); apply list_elem_of_singleton in H1 as ->;
      each_list E2; try done; try (by apply not_elem_of_nil in H2); by apply list_elem_of_singleton in H2.
Qed.

Lemma sys0_inv : sched_inv sys_lists sys0.
Proof.
  split; [split; [split|..]|].
  - exact sys_lists_ok.
  - intros i Hi. assert (i = 0 ∨ i = 1 ∨ i = 2 ∨ i = 3) as [->|[->|[->| ->]]] by lia; vm_compute; eauto.
  - split; vm_compute; eauto.
  - intros hd l t E Ht. each_list E; try (by apply not_elem_of_nil in Ht); apply list_elem_of_singleton in Ht as ->;
      eexists; (split; [vm_compute; reflexivity|done]).
  - intros t c E. each_list E; (split_and!; [vm_compute; eauto|simpl; lia|simpl; lia|done]).
  - split; [|eexists; split; [vm_compute; reflexivity|done]]. intros hd l E Ht. each_list E; try (by apply not_elem_of_nil in Ht); by apply list_elem_of_singleton in Ht.
  - done.
  - intros t c E. each_list E; reflexivity.
  - eexists. split; [vm_compute; reflexivity|]. left. split; [done|]. intros hd l E Ht.
    each_list E; try (by apply not_elem_of_nil in Ht); by apply list_elem_of_singleton in Ht.
  - intros t c E. each_list E; [by left|by right; left|..]; right; right; left;
      [exists (RunQ 2), [0x3000]|exists BlockList, [0x4000]|exists (MutexSleep 9), [0x5000]]; (split; [vm_compute; reflexivity|by left]).
  - eexists. split; [vm_compute; reflexivity|done].
Qed.

Lemma schedule_correct_witness :
  wp schedule (λ _ s', sched_inv (<[RunQ 3 := [0x1000]]> (<[RunQ 2 := []]> sys_lists)) s' ∧ cur_task s' = 0x3000) sys0.
Proof.
  eapply wp_mono; [apply (schedule_correct sys_lists sys0 (mk_tcb 0 TASK_RUNNING 3) (proj1 sys0_inv)); vm_compute; reflexivity|].
  intros _ s' (Hi & Hc & _). split; [exact Hi|exact Hc].
Defined.

Definition sys1 : sched := Eval vm_compute in match task_step (OpWake 0x4000) sys0 with Ok (_, s) => s | Err _ => sys0 end.

Lemma sys_history : task_history sys0 [OpWake 0x4000] sys1.
Proof.
  apply (hist_snoc sys0 [] sys0 (OpWake 0x4000)); [constructor| |vm_compute; reflexivity].
  simpl. eexists. split; [vm_compute; reflexivity|done].
Qed.

Lemma no_task_lost_witness : ∃ s2, task_step OpSleep sys1 = Ok (tt, s2).
Proof. apply (no_task_lost sys_lists sys0 [OpWake 0x4000] sys1 sys0_inv sys_history). vm_compute. discriminate. Defined.

Lemma reset_priority_gathers_witness :
  wp reset_priority (λ _ s', sched_inv
    (<[RunQ 3 := [] ++ [0x3000] ++ [] ++ []]> (<[RunQ 2 := []]> (<[RunQ 1 := []]> (<[RunQ 0 := []]> sys_lists)))) s' ∧
    cur_task s' = 0x1000 ∧ ∀ t, t ∈ [] ++ [0x3000] ++ [] ++ [] → ∃ c, tcbs s' !! t = Some c ∧ priority c = 3) sys0.
Proof. apply (reset_priority_gathers sys_lists sys0 [] [0x3000] [] [] sys0_inv); vm_compute; reflexivity. Defined.

Lemma mutex_unlock_panics_witness : thread_mutex_unlock 9 sys0 = Err Assert.
Proof.
  eapply (mutex_unlock_panics sys0 9 (Mutex true (Spinlock 0)) 0x5000 []); [vm_compute; reflexivity|reflexivity|reflexivity|].
  split; [repeat constructor; set_solver|vm_compute; repeat split].
Defined.
