(* ===== verification/BlockStore.v ===== *)
(** * The interface of the page cache

    What the file system relies on: pages of bytes addressed by their first sector,
    read into memory as numbered buffers, changed there byte by byte and marked
    dirty.  [bs_view] is what a store holds; the laws say how the operations act on
    it.  [bs_at s b no] says that the buffer [b] has the bytes of page [no]; a buffer
    from [bs_get] may instead be [bs_raw], with bytes that become those of the page
    only when it is marked.  [WritebackCorrect] proves them of the page cache.

    The second half derives the 16 and 32 bit accesses, little endian as on x86. *)

From S2P Require Import Prelude QLib Page.
From Stdlib Require Import ZArith Lia.
From stdpp Require Import base countable numbers gmap list.
Open Scope Z_scope.

Abbreviation bytes := (list Z).

Definition byte_ok (x : Z) : Prop := 0 ≤ x < 256.
Definition is_page (d : bytes) : Prop := length d = Z.to_nat BUF_SIZE ∧ Forall byte_ok d.

(** [d[o] = v] *)
Definition put8 (d : bytes) (o v : Z) : bytes := <[Z.to_nat o := u8 v]> d.
Definition byte_at (d : bytes) (o : Z) : Z := default 0 (d !! Z.to_nat o).

Class BlockStore (St : Type) := {
  bs_read : Z → M St Z;                      (* page_read_no *)
  bs_get : Z → M St Z;                       (* page_get *)
  bs_load : Z → Z → M St Z;                  (* buf->data[o] *)
  bs_store : Z → Z → Z → M St unit;          (* buf->data[o] = v *)
  bs_mark : Z → M St unit;                   (* mark_page_dirty *)
  bs_inv : St → Prop;
  bs_view : St → Z → option bytes;
  bs_at : St → Z → Z → Prop;
  bs_raw : St → Z → Z → bytes → Prop;
  bs_page s no d : bs_inv s → bs_view s no = Some d → is_page d;
  bs_read_ok s no : bs_inv s → is_Some (bs_view s no) →
    wp (bs_read no) (λ b s', bs_inv s' ∧ (∀ n, bs_view s' n = bs_view s n) ∧ bs_at s' b no ∧
      (∀ x n, bs_at s x n → bs_at s' x n)) s;
  bs_get_ok s no : bs_inv s → is_Some (bs_view s no) →
    wp (bs_get no) (λ b s', bs_inv s' ∧ (∀ n, bs_view s' n = bs_view s n) ∧
      (bs_at s' b no ∨ ∃ d, bs_raw s' b no d) ∧ (∀ x n, bs_at s x n → bs_at s' x n)) s;
  bs_raw_page s b no d : bs_inv s → bs_raw s b no d → is_page d;
  bs_store_raw s b no d o v : bs_inv s → bs_raw s b no d → 0 ≤ o < BUF_SIZE →
    wp (bs_store b o v) (λ _ s', bs_inv s' ∧ (∀ n, bs_view s' n = bs_view s n) ∧
      bs_raw s' b no (put8 d o v) ∧ (∀ x n, bs_at s x n → bs_at s' x n)) s;
  bs_mark_raw s b no d : bs_inv s → bs_raw s b no d →
    wp (bs_mark b) (λ _ s', bs_inv s' ∧ bs_at s' b no ∧ (∀ x n, bs_at s x n → bs_at s' x n) ∧
      ∀ n, bs_view s' n = if decide (n = no) then Some d else bs_view s n) s;
  bs_load_ok s b no d o : bs_inv s → bs_at s b no → bs_view s no = Some d → 0 ≤ o < BUF_SIZE →
    bs_load b o s = Ok (byte_at d o, s);
  bs_load_out s b no o : bs_inv s → bs_at s b no → BUF_SIZE ≤ o → bs_load b o s = Err Fault;
  bs_store_ok s b no d o v : bs_inv s → bs_at s b no → bs_view s no = Some d → 0 ≤ o < BUF_SIZE →
    wp (bs_store b o v) (λ _ s', bs_inv s' ∧ (∀ x n, bs_at s' x n ↔ bs_at s x n) ∧
      ∀ n, bs_view s' n = if decide (n = no) then Some (put8 d o v) else bs_view s n) s;
  bs_mark_ok s b no : bs_inv s → bs_at s b no →
    wp (bs_mark b) (λ _ s', bs_inv s' ∧ (∀ n, bs_view s' n = bs_view s n) ∧
      (∀ x n, bs_at s' x n ↔ bs_at s x n)) s }.

(** ** Words in a page *)

Definition le16 (d : bytes) (o : Z) : Z := byte_at d o + 2 ^ 8 * byte_at d (o + 1).
Definition le32 (d : bytes) (o : Z) : Z := le16 d o + 2 ^ 16 * le16 d (o + 2).
Definition put16 (d : bytes) (o v : Z) : bytes := put8 (put8 d o v) (o + 1) (Z.shiftr v 8).
Definition put32 (d : bytes) (o v : Z) : bytes := put16 (put16 d o v) (o + 2) (Z.shiftr v 16).

Lemma length_put8 d o v : length (put8 d o v) = length d.
Proof. apply list.length_insert. Qed.

Lemma put8_page d o v : is_page d → is_page (put8 d o v).
Proof.
  intros [Hl Hb]. split; [by rewrite length_put8|]. apply Forall_insert; [done|].
  pose proof (u8_range v). unfold byte_ok. lia.
Qed.

Lemma put16_page d o v : is_page d → is_page (put16 d o v).
Proof. intros. by do 2 apply put8_page. Qed.
Lemma put32_page d o v : is_page d → is_page (put32 d o v).
Proof. intros. by do 2 apply put16_page. Qed.

Lemma byte_at_eq d o v : 0 ≤ o < Z.of_nat (length d) → byte_at (put8 d o v) o = u8 v.
Proof. intros. unfold byte_at, put8. rewrite list_lookup_insert_eq by lia. done. Qed.
Lemma byte_at_ne d o o' v : 0 ≤ o → 0 ≤ o' → o ≠ o' → byte_at (put8 d o v) o' = byte_at d o'.
Proof. intros. unfold byte_at, put8. rewrite list_lookup_insert_ne; [done|lia]. Qed.

Lemma byte_at_range d o : is_page d → 0 ≤ byte_at d o < 256.
Proof.
  intros [_ Hb]. unfold byte_at. destruct (d !! Z.to_nat o) as [x|] eqn:E; simpl; [|lia].
  by apply (Forall_lookup_1 _ _ _ _ Hb E).
Qed.
Lemma le16_range d o : is_page d → 0 ≤ le16 d o < 2 ^ 16.
Proof.
  intros H. unfold le16. pose proof (byte_at_range d o H). pose proof (byte_at_range d (o + 1) H). lia.
Qed.
Lemma le32_range d o : is_page d → 0 ≤ le32 d o < 2 ^ 32.
Proof.
  intros H. unfold le32. pose proof (le16_range d o H). pose proof (le16_range d (o + 2) H). lia.
Qed.

Lemma le16_put16 d o v : 0 ≤ o → o + 2 ≤ Z.of_nat (length d) → le16 (put16 d o v) o = u16 v.
Proof.
  intros Ho Hl. unfold le16, put16. rewrite byte_at_ne by lia.
  rewrite (byte_at_eq _ (o + 1)) by (rewrite length_put8; lia). rewrite byte_at_eq by lia.
  unfold u8, u16. rewrite Z.shiftr_div_pow2 by lia.
  change (2 ^ 16) with (256 * 256). change (2 ^ 8) with 256. rewrite Z.rem_mul_r by lia. lia.
Qed.

Lemma length_put16 d o v : length (put16 d o v) = length d.
Proof. unfold put16. by rewrite !length_put8. Qed.
Lemma length_put32 d o v : length (put32 d o v) = length d.
Proof. unfold put32. by rewrite !length_put16. Qed.

Lemma byte_put16_ne d o o' v : 0 ≤ o → 0 ≤ o' → (o' < o ∨ o + 2 ≤ o') → byte_at (put16 d o v) o' = byte_at d o'.
Proof. intros. unfold put16. by rewrite !byte_at_ne by lia. Qed.
Lemma byte_put32_ne d o o' v : 0 ≤ o → 0 ≤ o' → (o' < o ∨ o + 4 ≤ o') → byte_at (put32 d o v) o' = byte_at d o'.
Proof. intros. unfold put32. by rewrite !byte_put16_ne by lia. Qed.

Lemma le32_put32 d o v : 0 ≤ o → o + 4 ≤ Z.of_nat (length d) → le32 (put32 d o v) o = u32 v.
Proof.
  intros Ho Hl. unfold le32, put32.
  rewrite (le16_put16 _ (o + 2)) by (rewrite ?length_put16; lia).
  replace (le16 (put16 (put16 d o v) (o + 2) (Z.shiftr v 16)) o) with (le16 (put16 d o v) o)
    by (unfold le16; rewrite (byte_put16_ne (put16 d o v) (o + 2) o), (byte_put16_ne (put16 d o v) (o + 2) (o + 1)) by lia; done).
  rewrite le16_put16 by lia. unfold u16, u32. rewrite Z.shiftr_div_pow2 by lia.
  change (2 ^ 32) with (65536 * 65536). change (2 ^ 16) with 65536. rewrite Z.rem_mul_r by lia. lia.
Qed.

Lemma le32_put32_ne d o o' v : 0 ≤ o → 0 ≤ o' → (o' + 4 ≤ o ∨ o + 4 ≤ o') → le32 (put32 d o v) o' = le32 d o'.
Proof. intros. unfold le32, le16. by rewrite !byte_put32_ne by lia. Qed.
Lemma le32_put8_ne d o o' v : 0 ≤ o → 0 ≤ o' → (o < o' ∨ o' + 4 ≤ o) → le32 (put8 d o v) o' = le32 d o'.
Proof. intros. unfold le32, le16. by rewrite !byte_at_ne by lia. Qed.

(** ** Accesses of several bytes *)

Section words.
Context {St : Type} `{B : BlockStore St}.

Definition bs_load16 (b o : Z) : M St Z :=
  b0 ← bs_load b o; b1 ← bs_load b (o + 1); mret (b0 + 2 ^ 8 * b1).
Definition bs_load32 (b o : Z) : M St Z :=
  w0 ← bs_load16 b o; w1 ← bs_load16 b (o + 2); mret (w0 + 2 ^ 16 * w1).
Definition bs_store16 (b o v : Z) : M St unit :=
  bs_store b o v;; bs_store b (o + 1) (Z.shiftr v 8).
Definition bs_store32 (b o v : Z) : M St unit :=
  bs_store16 b o v;; bs_store16 b (o + 2) (Z.shiftr v 16).

(** The store is [s] with the page of [no] replaced by [d]. *)
Definition changed (s : St) (no : Z) (d : bytes) (s' : St) : Prop :=
  bs_inv s' ∧ (∀ x n, bs_at s x n → bs_at s' x n) ∧
  ∀ n, bs_view s' n = if decide (n = no) then Some d else bs_view s n.

Lemma changed_at s no d s' x n : changed s no d s' → bs_at s x n → bs_at s' x n.
Proof. intros (_ & H & _). apply H. Qed.
Lemma changed_eq s no d s' : changed s no d s' → bs_view s' no = Some d.
Proof. intros (_ & _ & H). by rewrite H, decide_True. Qed.
Lemma changed_ne s no d s' n : changed s no d s' → n ≠ no → bs_view s' n = bs_view s n.
Proof. intros (_ & _ & H) ?. by rewrite H, decide_False. Qed.
Lemma changed_inv s no d s' : changed s no d s' → bs_inv s'.
Proof. by intros []. Qed.

Lemma changed_trans s no d1 d2 s1 s2 : changed s no d1 s1 → changed s1 no d2 s2 → changed s no d2 s2.
Proof.
  intros (_ & A1 & V1) (I2 & A2 & V2). split_and!; [done|auto|]. intros n. rewrite V2, V1. by case_decide.
Qed.

Lemma bs_load16_ok s b no d o : bs_inv s → bs_at s b no → bs_view s no = Some d → 0 ≤ o → o + 2 ≤ BUF_SIZE →
  bs_load16 b o s = Ok (le16 d o, s).
Proof.
  intros. unfold bs_load16. erewrite bind_Ok by (eapply bs_load_ok; try done; lia).
  erewrite bind_Ok by (eapply bs_load_ok; try done; lia). done.
Qed.

Lemma bs_load32_ok s b no d o : bs_inv s → bs_at s b no → bs_view s no = Some d → 0 ≤ o → o + 4 ≤ BUF_SIZE →
  bs_load32 b o s = Ok (le32 d o, s).
Proof.
  intros. unfold bs_load32. erewrite bind_Ok by (eapply bs_load16_ok; try done; lia).
  erewrite bind_Ok by (eapply bs_load16_ok; try done; lia). done.
Qed.

Lemma wp_bs_store s b no d o v : bs_inv s → bs_at s b no → bs_view s no = Some d → 0 ≤ o < BUF_SIZE →
  wp (bs_store b o v) (λ _ s', changed s no (put8 d o v) s') s.
Proof.
  intros. eapply wp_mono; [by eapply bs_store_ok|]. intros [] s' (? & ? & ?). split_and!; naive_solver.
Qed.

Lemma wp_bs_store16 s b no d o v : bs_inv s → bs_at s b no → bs_view s no = Some d → 0 ≤ o → o + 2 ≤ BUF_SIZE →
  wp (bs_store16 b o v) (λ _ s', changed s no (put16 d o v) s') s.
Proof.
  intros Hi Ha Hv ??. unfold bs_store16. wp_step. eapply wp_mono; [eapply wp_bs_store; try done; lia|].
  intros [] s1 H1. eapply wp_mono; [eapply wp_bs_store|].
  - by eapply changed_inv.
  - by eapply changed_at.
  - by eapply changed_eq.
  - lia.
  - intros [] s2 H2. by eapply changed_trans.
Qed.

Lemma wp_bs_store32 s b no d o v : bs_inv s → bs_at s b no → bs_view s no = Some d → 0 ≤ o → o + 4 ≤ BUF_SIZE →
  wp (bs_store32 b o v) (λ _ s', changed s no (put32 d o v) s') s.
Proof.
  intros Hi Ha Hv ??. unfold bs_store32. wp_step. eapply wp_mono; [eapply wp_bs_store16; try done; lia|].
  intros [] s1 H1. eapply wp_mono; [eapply wp_bs_store16|].
  - by eapply changed_inv.
  - by eapply changed_at.
  - by eapply changed_eq.
  - lia.
  - lia.
  - intros [] s2 H2. by eapply changed_trans.
Qed.

Lemma wp_bs_mark s b no d : bs_inv s → bs_at s b no → bs_view s no = Some d →
  wp (bs_mark b) (λ _ s', changed s no d s') s.
Proof.
  intros Hi Ha Hv. eapply wp_mono; [by eapply bs_mark_ok|]. intros [] s' (? & E & Hat).
  split_and!; [done|intros; by apply Hat|]. intros n. rewrite E. by case_decide; subst.
Qed.
End words.

(** ** A store without a cache

    A disk whose pages are zero until they are written; a buffer is known by its
    sector. *)

Definition zeros : bytes := replicate (Z.to_nat BUF_SIZE) 0.

Record sparse := Sparse { sp_pages : gmap Z bytes }.
Definition sp_page (s : sparse) (no : Z) : bytes := default zeros (sp_pages s !! no).
Definition sp_inv (s : sparse) : Prop := map_Forall (λ _ d, is_page d) (sp_pages s).
Definition sp_load (b o : Z) : M sparse Z :=
  s ← get; if (0 <=? o) && (o <? BUF_SIZE) then mret (byte_at (sp_page s b) o) else fail Fault.
Definition sp_store (b o v : Z) : M sparse unit :=
  _ ← sp_load b o; modify (λ s, Sparse (<[b := put8 (sp_page s b) o v]> (sp_pages s))).

Lemma zeros_page : is_page zeros.
Proof. split; [apply length_replicate|]. apply Forall_replicate. unfold byte_ok. lia. Qed.

Lemma sp_is_page s no d : sp_inv s → Some (sp_page s no) = Some d → is_page d.
Proof.
  intros Hs [= <-]. unfold sp_page. destruct (sp_pages s !! no) as [d|] eqn:E; [by apply (Hs no)|apply zeros_page].
Qed.

Lemma sp_load_ok (s : sparse) b no d o : sp_inv s → b = no → Some (sp_page s no) = Some d → 0 ≤ o < BUF_SIZE →
  sp_load b o s = Ok (byte_at d o, s).
Proof.
  intros _ -> [= <-] Ho. unfold sp_load, mbind, M_bind, get.
  by rewrite (proj2 (Z.leb_le 0 o)), (proj2 (Z.ltb_lt o BUF_SIZE)) by lia.
Qed.

Lemma sp_load_out (s : sparse) b (no : Z) o : sp_inv s → b = no → BUF_SIZE ≤ o → sp_load b o s = Err Fault.
Proof.
  intros _ _ Ho. unfold sp_load, mbind, M_bind, get. by rewrite (proj2 (Z.ltb_ge o BUF_SIZE)), andb_false_r by lia.
Qed.

Lemma sp_store_ok (s : sparse) b no d o v : sp_inv s → b = no → Some (sp_page s no) = Some d → 0 ≤ o < BUF_SIZE →
  wp (sp_store b o v) (λ _ s', sp_inv s' ∧ (∀ x n : Z, x = n ↔ x = n) ∧
    ∀ n, Some (sp_page s' n) = if decide (n = no) then Some (put8 d o v) else Some (sp_page s n)) s.
Proof.
  intros Hs -> Hd Ho. unfold sp_store. wp_step. eapply wp_intro; [by apply (sp_load_ok s no no d)|].
  pose proof (sp_is_page s no d Hs Hd) as Hp. injection Hd as Hd. wp_step. cbv beta. rewrite Hd. split_and!; [|done|].
  - apply map_Forall_insert_2; [by apply put8_page|done].
  - intros n. unfold sp_page; simpl. case_decide as E; [subst; by rewrite lookup_insert_eq|by rewrite lookup_insert_ne].
Qed.

#[export] Instance sparse_store : BlockStore sparse := {|
  bs_read no := mret no;
  bs_get no := mret no;
  bs_load := sp_load;
  bs_store := sp_store;
  bs_mark _ := mret tt;
  bs_inv := sp_inv;
  bs_view s no := Some (sp_page s no);
  bs_at _ b no := b = no;
  bs_raw _ _ _ _ := False;
  bs_page := sp_is_page;
  bs_read_ok s no Hs _ := conj Hs (conj (λ _, eq_refl) (conj eq_refl (λ _ _ H, H)));
  bs_get_ok s no Hs _ := conj Hs (conj (λ _, eq_refl) (conj (or_introl eq_refl) (λ _ _ H, H)));
  bs_raw_page _ _ _ _ _ H := False_ind _ H;
  bs_store_raw _ _ _ _ _ _ _ H _ := False_ind _ H;
  bs_mark_raw _ _ _ _ _ H := False_ind _ H;
  bs_load_ok := sp_load_ok;
  bs_load_out := sp_load_out;
  bs_store_ok := sp_store_ok;
  bs_mark_ok s b no Hs _ := conj Hs (conj (λ _, eq_refl) (λ _ _, conj (λ H, H) (λ H, H))) |}.
