(* ===== verification/Writeback.v ===== *)
(** * The page cache (fs/writeback.c) over the IDE disk (drivers/ide.c)

    A cached page is a page descriptor ([struct page], file Page) and the 4096
    bytes at its [data].  The list of cached pages and the queue of dirty pages are
    kept by their contents: [DList] shows that the intrusive list's operations act
    on the sequence of its nodes, [LfQueue] that the queue is a FIFO.  The disk is a
    map from the first sector of a page (8 sectors) to its bytes.

    One task runs at a time; the disk interrupt arrives while the task that started
    the transfer waits in [page_rw]. *)

From S2P Require Import Prelude QLib Locks Page BlockStore.
From Stdlib Require Import ZArith Lia.
From stdpp Require Import base countable numbers gmap list.
Open Scope Z_scope.

(** [enum inode_state]; the field of an inode that was not yet given one may hold
    any other number. *)
Definition I_OLD : Z := 0.
Definition I_NEW : Z := 1.
Definition I_DATA : Z := 2.
Definition I_TIME : Z := 3.
Definition I_DEL : Z := 4.

(** [cacheAllocator], the pages, the inodes' states and the disk. *)
Record cache := Cache {
  c_page : gmap Z page;             (* the page descriptors *)
  c_data : gmap Z bytes;            (* the bytes at [page->data] *)
  c_frames : list Z;                (* the pages [__alloc_page] still has *)
  c_list : list Z;                  (* list.head, from the most recent transfer *)
  c_rwlock : rwlock_t;              (* list.rwlock *)
  c_thread : bool;                  (* thread != NULL *)
  c_writing : option Z;             (* page_writing *)
  c_wait : bool;                    (* wait_rw.locked *)
  c_dirty : list Z;                 (* dirty *)
  c_inode : gmap Z Z;               (* inode->state *)
  c_inode_dirty : list Z;           (* inode_dirty *)
  c_now : Z;                        (* cur_timestamp() *)
  c_disk : gmap Z bytes }.

Definition set_page v (c : cache) := Cache v (c_data c) (c_frames c) (c_list c) (c_rwlock c)
  (c_thread c) (c_writing c) (c_wait c) (c_dirty c) (c_inode c) (c_inode_dirty c) (c_now c) (c_disk c).
Definition set_data v (c : cache) := Cache (c_page c) v (c_frames c) (c_list c) (c_rwlock c)
  (c_thread c) (c_writing c) (c_wait c) (c_dirty c) (c_inode c) (c_inode_dirty c) (c_now c) (c_disk c).
Definition set_frames v (c : cache) := Cache (c_page c) (c_data c) v (c_list c) (c_rwlock c)
  (c_thread c) (c_writing c) (c_wait c) (c_dirty c) (c_inode c) (c_inode_dirty c) (c_now c) (c_disk c).
Definition set_list v (c : cache) := Cache (c_page c) (c_data c) (c_frames c) v (c_rwlock c)
  (c_thread c) (c_writing c) (c_wait c) (c_dirty c) (c_inode c) (c_inode_dirty c) (c_now c) (c_disk c).
Definition set_rwlock v (c : cache) := Cache (c_page c) (c_data c) (c_frames c) (c_list c) v
  (c_thread c) (c_writing c) (c_wait c) (c_dirty c) (c_inode c) (c_inode_dirty c) (c_now c) (c_disk c).
Definition set_thread v (c : cache) := Cache (c_page c) (c_data c) (c_frames c) (c_list c) (c_rwlock c)
  v (c_writing c) (c_wait c) (c_dirty c) (c_inode c) (c_inode_dirty c) (c_now c) (c_disk c).
Definition set_writing v (c : cache) := Cache (c_page c) (c_data c) (c_frames c) (c_list c) (c_rwlock c)
  (c_thread c) v (c_wait c) (c_dirty c) (c_inode c) (c_inode_dirty c) (c_now c) (c_disk c).
Definition set_wait v (c : cache) := Cache (c_page c) (c_data c) (c_frames c) (c_list c) (c_rwlock c)
  (c_thread c) (c_writing c) v (c_dirty c) (c_inode c) (c_inode_dirty c) (c_now c) (c_disk c).
Definition set_dirty v (c : cache) := Cache (c_page c) (c_data c) (c_frames c) (c_list c) (c_rwlock c)
  (c_thread c) (c_writing c) (c_wait c) v (c_inode c) (c_inode_dirty c) (c_now c) (c_disk c).
Definition set_inode v q (c : cache) := Cache (c_page c) (c_data c) (c_frames c) (c_list c) (c_rwlock c)
  (c_thread c) (c_writing c) (c_wait c) (c_dirty c) v q (c_now c) (c_disk c).
Definition set_disk v (c : cache) := Cache (c_page c) (c_data c) (c_frames c) (c_list c) (c_rwlock c)
  (c_thread c) (c_writing c) (c_wait c) (c_dirty c) (c_inode c) (c_inode_dirty c) (c_now c) v.

Definition rd_page (buf : Z) : M cache page := c ← get; deref (c_page c !! buf).
Definition upd_page (buf : Z) (f : page → page) : M cache unit :=
  p ← rd_page buf; modify (λ c, set_page (<[buf := f p]> (c_page c)) c).

(** Takes or gives back a lock with a routine of [Locks]. *)
Definition lift {A} (r : res A) : M cache A :=
  λ c, match r with Ok a => Ok (a, c) | Err e => Err e end.
Definition list_op (f : rwlock_t → res rwlock_t) : M cache unit :=
  c ← get; k ← lift (f (c_rwlock c)); modify (set_rwlock k).
Definition buf_op (f : rwlock_t → res rwlock_t) (buf : Z) : M cache unit :=
  p ← rd_page buf; k ← lift (f (pg_rwlock p)); upd_page buf (put_rwlock k).
Definition wunlock (k : rwlock_t) : res rwlock_t := Ok (wlock_unlock k).

Definition flagged (p : page) (f : Z) : bool := truth (Z.land (pg_flag p) f).

(** ** drivers/ide.c *)

(** The address the drive assembles from the registers [ide_driver_init] writes:
    the low half of [IDE_DH], [IDE_CYL_H], [IDE_CYL_L], [IDE_NUM]. *)
Definition ide_driver_init (no_sec : Z) : Z :=
  let IDE_DH := u8 (Z.lor 0xE0 (Z.land (Z.shiftr no_sec 24) (MASK_U8 4))) in
  let IDE_NUM := u8 (Z.land no_sec (MASK_U8 8)) in
  let IDE_CYL_L := u8 (Z.land (Z.shiftr no_sec 8) (MASK_U8 8)) in
  let IDE_CYL_H := u8 (Z.land (Z.shiftr no_sec 16) (MASK_U8 8)) in
  Z.land IDE_DH 0xF * 2 ^ 24 + IDE_CYL_H * 2 ^ 16 + IDE_CYL_L * 2 ^ 8 + IDE_NUM.

(** [ide_send_cmd] asserts that the drive reports no error; it reports one for
    sectors it does not have. *)
Definition ide_start (buf : Z) (write : bool) : M cache unit :=
  p ← rd_page buf;
  let lba := ide_driver_init (no_secs (pg_cache p)) in
  c ← get;
  assertk (bool_decide (is_Some (c_disk c !! lba)));;
  if write then
    data ← deref (c_data c !! buf);
    modify (set_disk (<[lba := data]> (c_disk c)))
  else mret tt.

Definition ide_isr (buf : Z) (write : bool) : M cache unit :=
  if negb write then
    p ← rd_page buf;
    c ← get;
    data ← deref (c_disk c !! ide_driver_init (no_secs (pg_cache p)));
    modify (set_data (<[buf := data]> (c_data c)))
  else mret tt.

(** ** fs/writeback.c *)

Definition new_buf (no : Z) : M cache Z :=
  c ← get;
  match c_frames c with
  | [] => fail Fault                    (* [__alloc_page] answers NULL *)
  | buf :: frames =>
      modify (set_frames frames);;
      upd_page buf (λ p, put_flag (Z.lor (pg_flag p) PG_CACHE) p);;
      upd_page buf (put_cache (PageCache 0 no));;
      mret buf
  end.

(** The search of [page_get]; [list_for_each] goes from [head.next] on. *)
Fixpoint find_buf (l : list Z) (no : Z) : M cache (option Z) :=
  match l with
  | [] => mret None
  | buf :: l' =>
      p ← rd_page buf;
      if no_secs (pg_cache p) =? no
      then assertk (flagged p PG_CACHE);; mret (Some buf)
      else find_buf l' no
  end.

Definition page_get (no : Z) : M cache Z :=
  assertk (negb (truth (Z.land no 7)));;
  list_op rlock_lock;;
  c ← get;
  r ← find_buf (c_list c) no;
  list_op rlock_unlock;;
  match r with
  | Some buf => mret buf
  | None =>
      buf ← new_buf no;
      list_op wlock_lock;;
      modify (λ c, set_list (c_list c ++ [buf]) c);;      (* list_add_prev *)
      list_op wunlock;;
      mret buf
  end.

(** [sleeplock_lock]/[sleeplock_unlock]: with one running task, waiting for
    [wait_rw] would never end. *)
Definition sleeplock_lock (buf : Z) : M cache unit :=
  c ← get;
  (if c_wait c then fail Spin else mret tt);;
  modify (set_wait true);;
  buf_op wlock_lock buf.

Definition sleeplock_unlock (buf : Z) : M cache unit :=
  buf_op wunlock buf;;
  c ← get;
  assertk (c_wait c);;
  modify (set_wait false).

Definition disk_isr : M cache unit :=
  c ← get;
  match c_writing c with
  | None => mret tt
  | Some buf =>
      p ← rd_page buf;
      ide_isr buf (flagged p PG_DIRTY);;
      upd_page buf (λ p, put_flag (Z.land (pg_flag p) (Z.lnot PG_DIRTY)) p);;
      upd_page buf (λ p, put_flag (Z.lor (pg_flag p) PG_VALID) p);;
      c ← get;
      upd_page buf (λ p, put_cache (PageCache (c_now c) (no_secs (pg_cache p))) p);;
      modify (set_writing None);;
      assertk (c_thread c);;
      modify (set_thread false)
  end.

Definition page_rw (buf : Z) : M cache unit :=
  modify (set_writing (Some buf));;
  modify (set_thread true);;
  p ← rd_page buf;
  ide_start buf (flagged p PG_DIRTY);;
  disk_isr;;                                (* arrives before the task runs again *)
  list_op wlock_lock;;
  modify (λ c, set_list (buf :: filter (.≠ buf) (c_list c)) c);;
  list_op wunlock.

Definition page_read (buf : Z) : M cache unit :=
  buf_op rlock_lock buf;;
  p ← rd_page buf;
  if flagged p PG_VALID then buf_op rlock_unlock buf
  else
    buf_op rlock_unlock buf;;
    sleeplock_lock buf;;
    page_rw buf;;
    sleeplock_unlock buf.

Definition page_read_no (no : Z) : M cache Z :=
  buf ← page_get no; page_read buf;; mret buf.

Definition page_read_sync (buf : Z) : M cache unit :=
  sleeplock_lock buf;; page_rw buf;; sleeplock_unlock buf.

Definition page_read_no_sync (no : Z) : M cache Z :=
  buf ← page_get no; page_read_sync buf;; mret buf.

Definition mark_page_dirty (buf : Z) : M cache unit :=
  buf_op wlock_lock buf;;
  p ← rd_page buf;
  assertk (flagged p PG_CACHE);;
  when (negb (flagged p PG_DIRTY))
    (upd_page buf (λ p, put_flag (Z.lor (pg_flag p) (Z.lor PG_DIRTY PG_VALID)) p);;
     modify (λ c, set_dirty (c_dirty c ++ [buf]) c));;
  buf_op wunlock buf.

Definition page_sync (buf : Z) : M cache unit :=
  sleeplock_lock buf;;
  upd_page buf (λ p, put_flag (Z.lor (pg_flag p) (Z.lor PG_DIRTY PG_VALID)) p);;
  page_rw buf;;
  sleeplock_unlock buf.

Definition page_flush (buf : Z) : M cache unit :=
  buf_op rlock_lock buf;;
  p ← rd_page buf;
  assertk (flagged p PG_DIRTY);;
  buf_op rlock_unlock buf;;
  sleeplock_lock buf;;
  page_rw buf;;
  sleeplock_unlock buf.

(** [while ((node = lfQueue_get(&dirty))) page_flush(...)]: a flush adds nothing to
    the queue, so as many rounds as the queue is long empty it. *)
Definition flush_pages : M cache unit :=
  c0 ← get;
  loop (length (c_dirty c0) + 1)%nat (λ _ : unit,
    c ← get;
    match c_dirty c with
    | [] => mret (inr tt)
    | buf :: q => modify (set_dirty q);; page_flush buf;; mret (inl tt)
    end) tt.

(** The assertion of the default case is the assignment [state = I_NEW], which is
    true. *)
Definition mark_inode_dirty (inode state : Z) : M cache unit :=
  c ← get;
  old ← deref (c_inode c !! inode);
  let become s := modify (λ c, set_inode (<[inode := s]> (c_inode c)) (c_inode_dirty c) c) in
  let enqueue s := modify (λ c, set_inode (<[inode := s]> (c_inode c)) (c_inode_dirty c ++ [inode]) c) in
  if old =? I_OLD then enqueue state
  else if old =? I_NEW then when (state =? I_DEL) (become I_DEL)
  else if old =? I_DATA then
    if state =? I_TIME then become I_NEW else when (state =? I_DEL) (become I_DEL)
  else if old =? I_TIME then
    if state =? I_DATA then become I_NEW else when (state =? I_DEL) (become I_DEL)
  else if old =? I_DEL then mret tt
  else enqueue I_NEW.

(** [page_fsync]: the dirty inodes first, then the dirty pages.  The file system's
    [write_super_block] and [write_back] are called through [inode->ops]; the
    former for the first inode only. *)
Section fsync.
Context (write_super_block write_back : Z → M cache unit).

Definition inode_dirty_get : M cache (option Z) :=
  c ← get;
  match c_inode_dirty c with
  | [] => mret None
  | i :: q => modify (set_inode (c_inode c) q);; mret (Some i)
  end.

(** [fuel] bounds the number of inodes: [write_back] may queue inodes again. *)
Definition flush_inode (fuel : nat) : M cache unit :=
  node ← inode_dirty_get;
  match node with
  | None => mret tt
  | Some inode => write_super_block inode;; write_back inode
  end;;
  loop fuel (λ _ : unit,
    node ← inode_dirty_get;
    match node with
    | None => mret (inr tt)
    | Some inode => write_back inode;; mret (inl tt)
    end) tt.

Definition page_fsync (fuel : nat) : M cache unit := flush_inode fuel;; flush_pages.
End fsync.

(** ** The bytes of a page, read and written through [buf->data] *)

Definition load_byte (b o : Z) : M cache Z :=
  c ← get; d ← deref (c_data c !! b);
  if 0 <=? o then deref (d !! Z.to_nat o) else fail Fault.
Definition store_byte (b o v : Z) : M cache unit :=
  _ ← load_byte b o;
  modify (λ c, set_data (alter (λ d, put8 d o v) b (c_data c)) c).
