(* ===== verification/WritebackCorrect.v ===== *)
(** * The page cache is a store of sectors

    What the routines of [Writeback] do to the bytes a sector has ([view]: from a
    valid cached page, otherwise from the disk), and to the disk itself. *)

From S2P Require Import Prelude QLib Locks Page BlockStore Writeback.
From Stdlib Require Import ZArith Lia.
From stdpp Require Import base countable numbers gmap list.
Open Scope Z_scope.

(** ** Flags and addresses *)

Lemma flag_bit f k : 0 ≤ k → truth (Z.land f (2 ^ k)) = Z.testbit f k.
Proof.
  intros Hk. destruct (Z.testbit f k) eqn:E.
  - apply truth_true. intros H0. apply (f_equal (λ z, Z.testbit z k)) in H0.
    by rewrite Z.land_spec, Z.pow2_bits_true, E, Z.bits_0 in H0 by lia.
  - apply truth_false, Z.bits_inj'. intros n Hn. rewrite Z.land_spec, Z.bits_0.
    destruct (decide (n = k)) as [->|]; [by rewrite E|].
    rewrite Z.pow2_bits_false by lia. by rewrite andb_false_r.
Qed.

Definition bit_dirty (f : Z) := Z.testbit f 2.
Definition bit_valid (f : Z) := Z.testbit f 3.
Definition bit_cache (f : Z) := Z.testbit f 4.

Lemma flagged_bits p :
  flagged p PG_DIRTY = bit_dirty (pg_flag p) ∧ flagged p PG_VALID = bit_valid (pg_flag p) ∧
  flagged p PG_CACHE = bit_cache (pg_flag p).
Proof.
  unfold flagged. split_and!; [apply (flag_bit _ 2)|apply (flag_bit _ 3)|apply (flag_bit _ 4)]; lia.
Qed.

Lemma ide_addr no : 0 ≤ no < 2 ^ 28 → ide_driver_init no = no.
Proof.
  intros H. unfold ide_driver_init.
  change (MASK_U8 4) with (Z.ones 4). change (MASK_U8 8) with (Z.ones 8). change 15 with (Z.ones 4).
  rewrite !Z.land_ones, !Z.shiftr_div_pow2 by lia. unfold u8.
  rewrite !Z.mod_mod by lia.
  replace (Z.lor 224 ((no / 2 ^ 24) mod 2 ^ 4)) with (14 * 2 ^ 4 + (no / 2 ^ 24) mod 2 ^ 4).
  2:{ symmetry. apply (lor_low 14 4); [lia|]. apply Z.mod_pos_bound. lia. }
  change (2 ^ 28) with 268435456 in H. change (2 ^ 24) with 16777216. change (2 ^ 16) with 65536.
  change (2 ^ 8) with 256. change (2 ^ 4) with 16.
  Z.div_mod_to_equations. lia.
Qed.

(** ** The transfer of a page: what the lock, [page_rw] and the interrupt do together *)

Definition pg_done (now : Z) (p : page) : page :=
  put_cache (PageCache now (no_secs (pg_cache p)))
    (put_flag (Z.lor (Z.land (pg_flag p) (Z.lnot PG_DIRTY)) PG_VALID) p).

(** The state after the transfer of the page [p] at [buf], whose bytes are [d] and
    whose sectors hold [dd]. *)
Definition transferred (buf : Z) (p : page) (d dd : bytes) (c : cache) : cache :=
  Cache (<[buf := pg_done (c_now c) p]> (c_page c))
    (<[buf := if flagged p PG_DIRTY then d else dd]> (c_data c)) (c_frames c)
    (buf :: filter (.≠ buf) (c_list c)) (c_rwlock c) false None false (c_dirty c)
    (c_inode c) (c_inode_dirty c) (c_now c)
    (<[no_secs (pg_cache p) := if flagged p PG_DIRTY then d else dd]> (c_disk c)).

#[local] Arguments ide_driver_init : simpl never.
#[local] Arguments flagged : simpl never.
#[local] Arguments Z.pow : simpl never.
#[local] Arguments Z.to_nat : simpl never.

Lemma put_rwlock_id p k : pg_rwlock p = rwlock_init → put_rwlock rwlock_init (put_rwlock k p) = p.
Proof. by destruct p; simpl; intros ->. Qed.

Lemma wp_rd_buf b p (Q : page → cache → Prop) c : c_page c !! b = Some p → Q p c → wp (rd_page b) Q c.
Proof. intros. unfold rd_page. by wp_go. Qed.

Lemma wp_upd_buf b p f (Q : unit → cache → Prop) c :
  c_page c !! b = Some p → Q tt (set_page (<[b := f p]> (c_page c)) c) → wp (upd_page b f) Q c.
Proof. intros. unfold upd_page. wp_step. eapply wp_rd_buf; [done|]. by wp_go. Qed.

Lemma wp_buf_op f b p k (Q : unit → cache → Prop) c :
  c_page c !! b = Some p → f (pg_rwlock p) = Ok k →
  Q tt (set_page (<[b := put_rwlock k p]> (c_page c)) c) → wp (buf_op f b) Q c.
Proof.
  intros Hp Hf HQ. unfold buf_op. wp_step. eapply wp_rd_buf; [done|].
  wp_step. apply (wp_intro _ _ _ k c); [by rewrite Hf|]. by eapply wp_upd_buf.
Qed.

Lemma wp_list_op f k (Q : unit → cache → Prop) c :
  f (c_rwlock c) = Ok k → Q tt (set_rwlock k c) → wp (list_op f) Q c.
Proof.
  intros Hf HQ. unfold list_op. wp_go. apply (wp_intro _ _ _ k c); [by rewrite Hf|]. by wp_go.
Qed.

Definition wlocked : rwlock_t := Rwlock spinlock_init (Spinlock 1) 0.
Definition rlocked : rwlock_t := Rwlock spinlock_init (Spinlock 1) 1.

Lemma wp_ide_start b p d dd (Q : unit → cache → Prop) c :
  c_page c !! b = Some p → c_data c !! b = Some d → 0 ≤ no_secs (pg_cache p) < 2 ^ 28 →
  c_disk c !! no_secs (pg_cache p) = Some dd →
  Q tt (set_disk (<[no_secs (pg_cache p) := if flagged p PG_DIRTY then d else dd]> (c_disk c)) c) →
  wp (ide_start b (flagged p PG_DIRTY)) Q c.
Proof.
  intros Hp Hd Hn Hdd HQ. unfold ide_start. wp_step. eapply wp_rd_buf; [done|]. wp_step.
  apply wp_get. rewrite ide_addr by done. wp_step. apply wp_assertk. split; [by apply bool_decide_eq_true, (mk_is_Some _ dd)|].
  destruct (flagged p PG_DIRTY); [by wp_go|]. apply wp_ret. rewrite insert_id in HQ by done. by destruct c.
Qed.

Lemma wp_disk_isr b p d dd (Q : unit → cache → Prop) c :
  c_writing c = Some b → c_thread c = true →
  c_page c !! b = Some p → c_data c !! b = Some d → 0 ≤ no_secs (pg_cache p) < 2 ^ 28 →
  c_disk c !! no_secs (pg_cache p) = Some dd →
  Q tt (set_thread false (set_writing None (set_page (<[b := pg_done (c_now c) p]> (c_page c))
    (set_data (<[b := if flagged p PG_DIRTY then d else dd]> (c_data c)) c)))) →
  wp disk_isr Q c.
Proof.
  intros Hw Ht Hp Hd Hn Hdd HQ. unfold disk_isr. wp_step. apply wp_get. rewrite Hw.
  wp_step. eapply wp_rd_buf; [done|]. wp_step.
  apply (wp_intro _ _ _ tt (set_data (<[b := if flagged p PG_DIRTY then d else dd]> (c_data c)) c)).
  { unfold ide_isr. destruct (flagged p PG_DIRTY); cbn [negb].
    - rewrite insert_id by done. by destruct c.
    - unfold rd_page, mbind, M_bind, get, deref. rewrite Hp, ide_addr, Hdd by done. done. }
  wp_step. eapply wp_upd_buf; [done|]. wp_step. eapply wp_upd_buf; [simpl; apply lookup_insert_eq|].
  wp_step. apply wp_get. wp_step. eapply wp_upd_buf; [simpl; apply lookup_insert_eq|].
  wp_go; [done|]. simpl. rewrite !insert_insert_eq. exact HQ.
Qed.

Lemma wp_page_rw b p d dd (Q : unit → cache → Prop) c :
  c_page c !! b = Some p → c_data c !! b = Some d → 0 ≤ no_secs (pg_cache p) < 2 ^ 28 →
  c_disk c !! no_secs (pg_cache p) = Some dd → c_rwlock c = rwlock_init →
  Q tt (Cache (<[b := pg_done (c_now c) p]> (c_page c))
    (<[b := if flagged p PG_DIRTY then d else dd]> (c_data c)) (c_frames c)
    (b :: filter (.≠ b) (c_list c)) rwlock_init false None (c_wait c) (c_dirty c)
    (c_inode c) (c_inode_dirty c) (c_now c)
    (<[no_secs (pg_cache p) := if flagged p PG_DIRTY then d else dd]> (c_disk c))) →
  wp (page_rw b) Q c.
Proof.
  intros Hp Hd Hn Hdd Hr HQ. unfold page_rw. do 4 wp_step. wp_step. eapply wp_rd_buf; [done|].
  wp_step. eapply wp_ide_start; try done. wp_step.
  eapply wp_disk_isr; simpl; [done|done|done|done|done|by apply lookup_insert_eq|].
  replace (if flagged p PG_DIRTY then d else if flagged p PG_DIRTY then d else dd)
    with (if flagged p PG_DIRTY then d else dd) by by destruct (flagged p PG_DIRTY).
  wp_step. eapply wp_list_op; [simpl; by rewrite Hr|]. do 2 wp_step.
  eapply wp_list_op; [reflexivity|]. exact HQ.
Qed.

Lemma pg_done_rwlock now k p : pg_rwlock p = rwlock_init →
  put_rwlock rwlock_init (pg_done now (put_rwlock k p)) = pg_done now p.
Proof. by destruct p; simpl; intros ->. Qed.

Lemma wp_transfer b p d dd (Q : unit → cache → Prop) c :
  c_page c !! b = Some p → c_data c !! b = Some d → 0 ≤ no_secs (pg_cache p) < 2 ^ 28 →
  c_disk c !! no_secs (pg_cache p) = Some dd → pg_rwlock p = rwlock_init →
  c_rwlock c = rwlock_init → c_wait c = false →
  Q tt (transferred b p d dd c) →
  wp (sleeplock_lock b;; page_rw b;; sleeplock_unlock b) Q c.
Proof.
  intros Hp Hd Hn Hdd Hk Hr Hw HQ. wp_step. unfold sleeplock_lock. wp_step. apply wp_get. rewrite Hw.
  do 4 wp_step. eapply wp_buf_op; [done|by rewrite Hk|]. simpl.
  wp_step. eapply wp_page_rw; simpl; [apply lookup_insert_eq|done|done|done|done|]. simpl.
  unfold sleeplock_unlock. wp_step. eapply wp_buf_op; [simpl; apply lookup_insert_eq|reflexivity|].
  simpl. wp_go; [done|]. simpl. change (wlock_unlock _) with rwlock_init.
  rewrite !insert_insert_eq.
  change (spinlock_lock (rw_writelock (pg_rwlock p))) with (spinlock_lock (rw_writelock (pg_rwlock p))).
  unfold transferred in HQ. rewrite Hr in HQ.
  match goal with |- context [pg_done _ ?q] => replace q with (put_rwlock wlocked p) by done end.
  rewrite pg_done_rwlock by done. exact HQ.
Qed.

(** ** The invariant between operations *)

Record frame_ok (c : cache) (b : Z) : Prop := FrameOk {
  fr_page : ∃ p d, c_page c !! b = Some p ∧ c_data c !! b = Some d ∧
    pg_rwlock p = rwlock_init ∧ flagged p PG_VALID = false ∧ flagged p PG_DIRTY = false ∧ is_page d }.

(** The page [b] is a cached page with descriptor [p] and bytes [d]. *)
Record cached (c : cache) (b : Z) (p : page) (d : bytes) : Prop := Cached {
  ca_list : b ∈ c_list c;
  ca_page : c_page c !! b = Some p;
  ca_data : c_data c !! b = Some d;
  ca_lock : pg_rwlock p = rwlock_init;
  ca_flag : flagged p PG_CACHE = true;
  ca_disk : is_Some (c_disk c !! no_secs (pg_cache p));
  ca_dirty : flagged p PG_DIRTY = bool_decide (b ∈ c_dirty c);
  ca_valid : flagged p PG_DIRTY = true → flagged p PG_VALID = true;
  ca_len : is_page d }.

Record cinv (c : cache) : Prop := Cinv {
  ci_rwlock : c_rwlock c = rwlock_init;
  ci_wait : c_wait c = false;
  ci_cached : ∀ b, b ∈ c_list c → ∃ p d, cached c b p d;
  ci_inj : ∀ b1 b2 p1 p2, b1 ∈ c_list c → b2 ∈ c_list c → c_page c !! b1 = Some p1 →
    c_page c !! b2 = Some p2 → no_secs (pg_cache p1) = no_secs (pg_cache p2) → b1 = b2;
  ci_nodup : NoDup (c_list c ++ c_frames c);
  ci_frames : ∀ b, b ∈ c_frames c → frame_ok c b;
  ci_dirty : NoDup (c_dirty c) ∧ ∀ b, b ∈ c_dirty c → b ∈ c_list c;
  ci_room : (size (c_disk c) ≤ length (c_list c ++ c_frames c))%nat;
  ci_disk : ∀ no d, c_disk c !! no = Some d →
    0 ≤ no < 2 ^ 28 ∧ Z.land no 7 = 0 ∧ is_page d }.

(** ** What the cache stores: the bytes of a sector's page, from the cache when a
    valid page has them, from the disk otherwise. *)

Definition has (c : cache) (no b : Z) : bool :=
  match c_page c !! b with
  | Some p => (no_secs (pg_cache p) =? no) && flagged p PG_VALID
  | None => false
  end.

Definition view (c : cache) (no : Z) : option bytes :=
  match list_find (λ b, has c no b = true) (c_list c) with
  | Some (_, b) => c_data c !! b
  | None => c_disk c !! no
  end.

Lemma has_spec c no b :
  has c no b = true ↔ ∃ p, c_page c !! b = Some p ∧ no_secs (pg_cache p) = no ∧ flagged p PG_VALID = true.
Proof.
  unfold has. destruct (c_page c !! b) as [p|]; [|naive_solver].
  rewrite andb_true_iff, Z.eqb_eq. naive_solver.
Qed.

Lemma view_has c no b : cinv c → b ∈ c_list c → has c no b = true → view c no = c_data c !! b.
Proof.
  intros Hc Hb Hh. unfold view.
  destruct (list_find _ _) as [[i b']|] eqn:E.
  - apply list_find_Some in E as (Hi & Hh' & _). apply list_elem_of_lookup_2 in Hi.
    apply has_spec in Hh as (p & Hp & Hn & _), Hh' as (p' & Hp' & Hn' & _).
    by rewrite (ci_inj c Hc b b' p p') by congruence.
  - apply list_find_None in E. rewrite Forall_forall in E. by destruct (E b Hb).
Qed.

Lemma view_none c no : (∀ b, b ∈ c_list c → has c no b = false) → view c no = c_disk c !! no.
Proof.
  intros H. unfold view. destruct (list_find _ _) as [[i b']|] eqn:E; [|done].
  apply list_find_Some in E as (Hi & Hh' & _). apply list_elem_of_lookup_2 in Hi.
  rewrite H in Hh'; done.
Qed.

Lemma has_dec c no : (∃ b, b ∈ c_list c ∧ has c no b = true) ∨ (∀ b, b ∈ c_list c → has c no b = false).
Proof.
  destruct (decide (Exists (λ b, has c no b = true) (c_list c))) as [H|H].
  - left. by apply Exists_exists in H.
  - right. intros b Hb. apply not_true_iff_false. intros E. apply H, Exists_exists. eauto.
Qed.

(** States with the same answers for every sector store the same. *)
Lemma view_ext c c' no : cinv c → cinv c' →
  (∀ b, b ∈ c_list c → has c no b = true → b ∈ c_list c' ∧ has c' no b = true ∧ c_data c' !! b = c_data c !! b) →
  ((∀ b, b ∈ c_list c → has c no b = false) → view c' no = c_disk c !! no) →
  view c' no = view c no.
Proof.
  intros Hc Hc' H1 H2. destruct (has_dec c no) as [(b & Hb & Hh)|Hn].
  - destruct (H1 b Hb Hh) as (Hb' & Hh' & Hd). by rewrite (view_has c no b), (view_has c' no b).
  - rewrite H2, view_none; done.
Qed.

Lemma view_disk c no : cinv c → is_Some (view c no) → ∃ dd, c_disk c !! no = Some dd.
Proof.
  intros Hc Hv. destruct (has_dec c no) as [(b & Hb & Hh)|Hn].
  - destruct (ci_cached c Hc b Hb) as (p & d & Hca). apply has_spec in Hh as (p' & Hp & Hno & _).
    rewrite (ca_page _ _ _ _ Hca) in Hp. simplify_eq. apply (ca_disk _ _ _ _ Hca).
  - rewrite view_none in Hv; done.
Qed.

(** Two states store the same. *)
Definition same_view (c c' : cache) : Prop := ∀ no, view c' no = view c no.

(** [b] is a valid page of the sectors from [no] on. *)
Definition at_no (c : cache) (b no : Z) : Prop := b ∈ c_list c ∧ has c no b = true.

(** ** Transfers keep the invariant *)

Lemma pg_done_flags now p :
  flagged (pg_done now p) PG_DIRTY = false ∧ flagged (pg_done now p) PG_VALID = true ∧
  flagged (pg_done now p) PG_CACHE = flagged p PG_CACHE.
Proof.
  destruct (flagged_bits (pg_done now p)) as (-> & -> & ->), (flagged_bits p) as (_ & _ & ->).
  unfold pg_done, bit_dirty, bit_valid, bit_cache. cbn [pg_flag put_cache put_flag].
  rewrite !Z.lor_spec, !Z.land_spec, !Z.lnot_spec by lia.
  change (Z.testbit PG_DIRTY 2) with true. change (Z.testbit PG_VALID 2) with false.
  change (Z.testbit PG_DIRTY 3) with false. change (Z.testbit PG_VALID 3) with true.
  change (Z.testbit PG_DIRTY 4) with false. change (Z.testbit PG_VALID 4) with false.
  split_and!; simpl; rewrite ?andb_false_r, ?andb_true_r, ?orb_true_r, ?orb_false_r; done.
Qed.

Lemma front_perm b (l : list Z) : NoDup l → b ∈ l → b :: filter (.≠ b) l ≡ₚ l.
Proof.
  intros Hd Hb. apply NoDup_Permutation.
  - constructor; [|by apply NoDup_filter]. rewrite list_elem_of_filter. naive_solver.
  - done.
  - intros x. rewrite elem_of_cons, list_elem_of_filter. destruct (decide (x = b)); naive_solver.
Qed.

Section transfer.
Context (c : cache) (b : Z) (p : page) (d dd : bytes) (q : list Z).
Hypothesis Hc : cinv c.
Hypothesis Hb : cached c b p d.
Hypothesis Hdd : c_disk c !! no_secs (pg_cache p) = Some dd.
Hypothesis Hq : NoDup q ∧ ∀ x, x ∈ q ↔ x ∈ c_dirty c ∧ x ≠ b.
Hypothesis Hmode : flagged p PG_DIRTY = true ∨ flagged p PG_VALID = false.

Abbreviation c' := (transferred b p d dd (set_dirty q c)).

Lemma transfer_list x : x ∈ c_list c' ↔ x ∈ c_list c.
Proof.
  simpl. rewrite (front_perm b (c_list c)); [done| |apply Hb].
  pose proof (ci_nodup c Hc) as Hd. by apply NoDup_app in Hd as [? _].
Qed.

Lemma transfer_len : is_page (if flagged p PG_DIRTY then d else dd).
Proof.
  destruct (flagged p PG_DIRTY) eqn:E.
  - by apply (ca_len _ _ _ _ Hb).
  - by apply (ci_disk c Hc _ _ Hdd).
Qed.

Lemma transfer_self :
  cached c' b (pg_done (c_now c) p) (if flagged p PG_DIRTY then d else dd).
Proof.
  destruct (pg_done_flags (c_now c) p) as (E1 & E2 & E3).
  split; simpl; try (by apply lookup_insert_eq).
  - apply elem_of_cons. by left.
  - by destruct Hb.
  - rewrite E3. by destruct Hb.
  - rewrite lookup_insert_eq. eauto.
  - rewrite E1. symmetry. apply bool_decide_eq_false. rewrite (proj2 Hq). naive_solver.
  - by rewrite E1.
  - apply transfer_len.
Qed.

Lemma transfer_other x px dx : x ≠ b → cached c x px dx → cached c' x px dx.
Proof.
  intros Hx [H1 H2 H3 H4 H5 H6 H7 H8 H9]. split; simpl; try done.
  - apply elem_of_cons. right. apply list_elem_of_filter. done.
  - by rewrite lookup_insert_ne.
  - by rewrite lookup_insert_ne.
  - destruct (decide (no_secs (pg_cache px) = no_secs (pg_cache p))) as [->|].
    + rewrite lookup_insert_eq. eauto.
    + by rewrite lookup_insert_ne.
  - rewrite H7. apply bool_decide_ext. rewrite (proj2 Hq). tauto.
Qed.

Lemma transfer_inv : cinv c'.
Proof.
  pose proof (ci_nodup c Hc) as Hnd. pose proof (proj1 (proj1 (NoDup_app _ _) Hnd)) as Hnd1.
  pose proof (front_perm b (c_list c) Hnd1 (ca_list _ _ _ _ Hb)) as Hperm.
  split.
  - apply (ci_rwlock c Hc).
  - reflexivity.
  - intros x Hx%transfer_list. destruct (decide (x = b)) as [->|Hn].
    + eexists _, _. apply transfer_self.
    + destruct (ci_cached c Hc x Hx) as (px & dx & Hcx). eexists _, _. by apply transfer_other.
  - intros x y px py Hx%transfer_list Hy%transfer_list. simpl.
    assert (∀ z pz, <[b := pg_done (c_now c) p]> (c_page c) !! z = Some pz →
      ∃ pz', c_page c !! z = Some pz' ∧ no_secs (pg_cache pz') = no_secs (pg_cache pz)) as Hpg.
    { intros z pz Hz. destruct (decide (z = b)) as [->|].
      - rewrite lookup_insert_eq in Hz. injection Hz as <-. exists p. split; [apply Hb|reflexivity].
      - rewrite lookup_insert_ne in Hz by done. eauto. }
    intros (px' & Ex & Ex')%Hpg (py' & Ey & Ey')%Hpg E. eapply (ci_inj c Hc); try done. congruence.
  - change (NoDup ((b :: filter (.≠ b) (c_list c)) ++ c_frames c)). by rewrite Hperm.
  - simpl. intros x Hx. destruct (ci_frames c Hc x Hx) as [(px & dx & H1 & H2 & H3)].
    assert (x ≠ b) as Hne.
    { intros ->. apply NoDup_app in Hnd as (_ & Hdis & _). apply (Hdis b); [apply Hb|done]. }
    split. exists px, dx. simpl. by rewrite !lookup_insert_ne.
  - split; [apply Hq|]. intros x [Hx _]%(proj2 Hq). apply transfer_list. by apply (ci_dirty c Hc).
  - change (size (<[no_secs (pg_cache p) := if flagged p PG_DIRTY then d else dd]> (c_disk c)) ≤
      length ((b :: filter (.≠ b) (c_list c)) ++ c_frames c))%nat.
    rewrite Hperm, map_size_insert_Some by eauto. apply (ci_room c Hc).
  - simpl. intros no y Hy. destruct (decide (no = no_secs (pg_cache p))) as [->|].
    + rewrite lookup_insert_eq in Hy. injection Hy as <-.
      destruct (ci_disk c Hc _ _ Hdd) as (? & ? & _). auto using transfer_len.
    + rewrite lookup_insert_ne in Hy by done. by apply (ci_disk c Hc).
Qed.

Lemma transfer_has x no : x ≠ b → has c' no x = has c no x.
Proof. intros. unfold has. simpl. by rewrite lookup_insert_ne. Qed.

Lemma transfer_has_self : has c' (no_secs (pg_cache p)) b = true.
Proof.
  apply has_spec. exists (pg_done (c_now c) p). simpl. rewrite lookup_insert_eq.
  split_and!; [done|done|apply pg_done_flags].
Qed.

Lemma transfer_at x no : at_no c x no → at_no c' x no.
Proof.
  intros [Hx Hh]. split; [by apply transfer_list|]. destruct (decide (x = b)) as [->|].
  - apply has_spec in Hh as (px & Hp & <- & _). rewrite (ca_page _ _ _ _ Hb) in Hp.
    injection Hp as <-. apply transfer_has_self.
  - by rewrite transfer_has.
Qed.

Lemma transfer_at_self : at_no c' b (no_secs (pg_cache p)).
Proof. split; [apply transfer_list, Hb|apply transfer_has_self]. Qed.

Lemma transfer_view : same_view c c'.
Proof.
  intros no. apply view_ext; [done|apply transfer_inv| |].
  - intros x Hx Hh. destruct (transfer_at x no (conj Hx Hh)) as [Hx' Hh']. split_and!; [done..|].
    simpl. destruct (decide (x = b)) as [->|]; [|by rewrite lookup_insert_ne].
    rewrite lookup_insert_eq. apply has_spec in Hh as (px & Hp & Hno & Hv).
    rewrite (ca_page _ _ _ _ Hb) in Hp. injection Hp as <-.
    destruct Hmode as [->| ]; [|congruence]. symmetry. apply Hb.
  - intros Hn. destruct (decide (no = no_secs (pg_cache p))) as [->|Hno].
    + rewrite (view_has _ _ b transfer_inv) by apply transfer_at_self.
      simpl. rewrite lookup_insert_eq, Hdd.
      destruct (flagged p PG_DIRTY) eqn:E; [|done].
      assert (has c (no_secs (pg_cache p)) b = true) as Hh.
      { apply has_spec. exists p. split_and!; [apply Hb|done|by apply (ca_valid _ _ _ _ Hb)]. }
      rewrite Hn in Hh; [done|apply Hb].
    + rewrite view_none.
      * simpl. by rewrite lookup_insert_ne.
      * intros x Hx%transfer_list. destruct (decide (x = b)) as [->|].
        -- unfold has. simpl. rewrite lookup_insert_eq. simpl.
           apply andb_false_iff. left. apply Z.eqb_neq. congruence.
        -- rewrite transfer_has by done. by apply Hn.
Qed.
End transfer.

(** Locking and unlocking a page gives the state back. *)
Lemma relock c b p k :
  c_page c !! b = Some p → pg_rwlock p = rwlock_init →
  set_page (<[b := put_rwlock rwlock_init (put_rwlock k p)]> (<[b := put_rwlock k p]> (c_page c)))
    (set_page (<[b := put_rwlock k p]> (c_page c)) c) = c.
Proof.
  intros Hp Hk. rewrite insert_insert_eq, put_rwlock_id by done. rewrite insert_id by done. by destruct c.
Qed.

(** Takes the reader's (writer's) lock, and gives it back. *)
Lemma wp_hold f b p k (Q : unit → cache → Prop) c :
  c_page c !! b = Some p → pg_rwlock p = rwlock_init → f rwlock_init = Ok k →
  Q tt (set_page (<[b := put_rwlock k p]> (c_page c)) c) → wp (buf_op f b) Q c.
Proof. intros Hp Hk Hf HQ. eapply wp_buf_op; [done|by rewrite Hk|done]. Qed.

Lemma wp_unhold f b p k (Q : unit → cache → Prop) c c1 :
  c_page c !! b = Some p → pg_rwlock p = rwlock_init → f k = Ok rwlock_init →
  c1 = set_page (<[b := put_rwlock k p]> (c_page c)) c →
  Q tt c → wp (buf_op f b) Q c1.
Proof.
  intros Hp Hk Hf -> HQ. eapply (wp_buf_op f b (put_rwlock k p) rwlock_init); [by apply lookup_insert_eq|done|].
  simpl. by rewrite relock.
Qed.

Lemma wp_page_read c b p d : cinv c → cached c b p d →
  wp (page_read b) (λ _ c', cinv c' ∧ same_view c c' ∧ at_no c' b (no_secs (pg_cache p)) ∧
    (∀ x no, at_no c x no → at_no c' x no)) c.
Proof.
  intros Hc Hb. pose proof Hb as [Hl Hp Hd Hk Hf [dd Hdd] Hdq Hv Hlen].
  unfold page_read. wp_step. eapply (wp_hold _ b p rlocked); [done..|]. wp_step.
  eapply wp_rd_buf; [simpl; apply lookup_insert_eq|].
  change (flagged (put_rwlock _ p) PG_VALID) with (flagged p PG_VALID).
  destruct (flagged p PG_VALID) eqn:E.
  - eapply (wp_unhold _ b p rlocked); [done..|].
    split_and!; [done|by intros no| |done]. split; [done|]. apply has_spec. eauto.
  - wp_step. eapply (wp_unhold _ b p rlocked _ c); [done..|].
    assert (NoDup (c_dirty c) ∧ ∀ x, x ∈ c_dirty c ↔ x ∈ c_dirty c ∧ x ≠ b) as Hq.
    { split; [apply (ci_dirty c Hc)|]. intros x. split; [|tauto]. intros Hx. split; [done|]. intros ->.
      rewrite (bool_decide_eq_true_2 _ Hx) in Hdq. specialize (Hv Hdq). congruence. }
    eapply wp_transfer; try done; [by apply (ci_disk c Hc _ _ Hdd)|apply (ci_rwlock c Hc)|apply (ci_wait c Hc)|].
    replace (transferred b p d dd c) with (transferred b p d dd (set_dirty (c_dirty c) c)) by by destruct c.
    split_and!; [eapply transfer_inv|eapply transfer_view|eapply transfer_at_self|intros; eapply transfer_at];
      eauto.
Qed.

(** ** Finding a page *)

Lemma wp_find_buf c k l no : cinv c → (∀ b, b ∈ l → b ∈ c_list c) →
  wp (find_buf l no) (λ r c', c' = set_rwlock k c ∧
    match r with
    | Some b => b ∈ c_list c ∧ ∃ p, c_page c !! b = Some p ∧ no_secs (pg_cache p) = no
    | None => ∀ b p, b ∈ l → c_page c !! b = Some p → no_secs (pg_cache p) ≠ no
    end) (set_rwlock k c).
Proof.
  intros Hc. induction l as [|b l IH]; intros Hl; simpl.
  - apply wp_ret. split; [done|]. intros b p Hb. by apply elem_of_nil in Hb.
  - assert (b ∈ c_list c) as Hb by (apply Hl; left).
    destruct (ci_cached c Hc b Hb) as (p & d & Hca). pose proof (ca_page _ _ _ _ Hca) as Hp.
    wp_step. eapply wp_rd_buf; [done|].
    destruct (Z.eqb_spec (no_secs (pg_cache p)) no) as [E|E].
    + wp_go; [by destruct Hca|]. eauto.
    + eapply wp_mono; [apply IH; intros; apply Hl; by right|].
      intros [b'|] c' [-> Hr]; (split; [done|]); [done|].
      intros x px [->|Hx]%elem_of_cons Hpx; [congruence|eauto].
Qed.

(** A sector of the disk that no page is for leaves a page to take. *)
Lemma room_left c no dd : cinv c → c_disk c !! no = Some dd →
  (∀ b p, b ∈ c_list c → c_page c !! b = Some p → no_secs (pg_cache p) ≠ no) →
  c_frames c ≠ [].
Proof.
  intros Hc Hno Hun Hfr. pose proof (ci_room c Hc) as Hroom. rewrite Hfr, app_nil_r in Hroom.
  set (secs := (λ b, from_option (λ p, no_secs (pg_cache p)) 0 (c_page c !! b)) <$> c_list c).
  assert (NoDup (no :: secs)) as Hnd.
  { apply NoDup_cons. split.
    - intros (b & E & Hb)%list_elem_of_fmap. destruct (ci_cached c Hc b Hb) as (p & d & Hca).
      rewrite (ca_page _ _ _ _ Hca) in E. simpl in E. eapply Hun; [done|apply Hca|done].
    - apply NoDup_fmap_2_strong; [|by apply (proj1 (NoDup_app _ _) (ci_nodup c Hc))].
      intros x y Hx Hy. destruct (ci_cached c Hc x Hx) as (p & d & Hca), (ci_cached c Hc y Hy) as (p' & d' & Hca').
      rewrite (ca_page _ _ _ _ Hca), (ca_page _ _ _ _ Hca'). simpl.
      apply (ci_inj c Hc x y p p' Hx Hy); [apply Hca|apply Hca']. }
  assert (list_to_set (no :: secs) ⊆ (dom (c_disk c) : gset Z)) as Hsub.
  { intros x. rewrite elem_of_list_to_set, elem_of_cons, elem_of_dom. intros [->|Hx]; [by eauto|].
    apply list_elem_of_fmap in Hx as (b & -> & Hb). destruct (ci_cached c Hc b Hb) as (p & d & Hca).
    rewrite (ca_page _ _ _ _ Hca). apply Hca. }
  apply subseteq_size in Hsub. rewrite size_list_to_set, size_dom in Hsub by done.
  unfold secs in Hsub. simpl in Hsub. rewrite length_fmap in Hsub. lia.
Qed.

(** The page [b] is in the cache for the sectors from [no] on, valid or not. *)
Definition for_no (c : cache) (b no : Z) : Prop :=
  b ∈ c_list c ∧ ∃ p, c_page c !! b = Some p ∧ no_secs (pg_cache p) = no.

(** The state after [new_buf] and the insertion at the end of the list. *)
Definition grown (c : cache) (b : Z) (p : page) (frames : list Z) (no : Z) : cache :=
  set_list (c_list c ++ [b])
    (set_page (<[b := put_cache (PageCache 0 no) (put_flag (Z.lor (pg_flag p) PG_CACHE) p)]> (c_page c))
       (set_frames frames c)).

Lemma new_flags p no :
  let q := put_cache (PageCache 0 no) (put_flag (Z.lor (pg_flag p) PG_CACHE) p) in
  flagged q PG_CACHE = true ∧ flagged q PG_VALID = flagged p PG_VALID ∧ flagged q PG_DIRTY = flagged p PG_DIRTY.
Proof.
  intros q. destruct (flagged_bits q) as (-> & -> & ->), (flagged_bits p) as (-> & -> & _).
  unfold q, bit_dirty, bit_valid, bit_cache. cbn [pg_flag put_cache put_flag].
  rewrite !Z.lor_spec. change (Z.testbit PG_CACHE 2) with false. change (Z.testbit PG_CACHE 3) with false.
  change (Z.testbit PG_CACHE 4) with true. by rewrite orb_true_r, !orb_false_r.
Qed.

Section grow.
Context (c : cache) (no : Z) (dd : bytes) (b : Z) (frames : list Z) (p : page) (d : bytes).
Hypothesis Hc : cinv c.
Hypothesis Hdd : c_disk c !! no = Some dd.
Hypothesis Hun : ∀ b p, b ∈ c_list c → c_page c !! b = Some p → no_secs (pg_cache p) ≠ no.
Hypothesis Hfr : c_frames c = b :: frames.
Hypothesis Hp : c_page c !! b = Some p.
Hypothesis Hd : c_data c !! b = Some d.
Hypothesis Hk : pg_rwlock p = rwlock_init.
Hypothesis Hv : flagged p PG_VALID = false.
Hypothesis Hdt : flagged p PG_DIRTY = false.
Hypothesis Hpg : is_page d.
Abbreviation c' := (grown c b p frames no).

Lemma grow_fresh : (b ∉ c_list c) ∧ (b ∉ frames) ∧ (b ∉ c_dirty c).
Proof.
  pose proof (ci_nodup c Hc) as Hn. rewrite Hfr in Hn. apply NoDup_app in Hn as (_ & Hdis & Hn).
  apply NoDup_cons in Hn as [Hn _].
  assert (b ∉ c_list c) as Hb by (intros Hb; apply (Hdis b Hb); left).
  split_and!; [done|done|]. intros Hb'. apply Hb. by apply (ci_dirty c Hc).
Qed.

Lemma grow_old x px dx : cached c x px dx → cached c' x px dx.
Proof.
  destruct grow_fresh as (Hb & _). intros [H1 H2 H3 H4 H5 H6 H7 H8 H9].
  split; simpl; try done; [by apply elem_of_app; left|].
  rewrite lookup_insert_ne; [done|]. by intros ->.
Qed.

Lemma grow_new : cached c' b (put_cache (PageCache 0 no) (put_flag (Z.lor (pg_flag p) PG_CACHE) p)) d.
Proof.
  destruct (new_flags p no) as (E1 & E2 & E3), grow_fresh as (_ & _ & Hb).
  split; simpl.
  - apply elem_of_app. right. by apply list_elem_of_singleton.
  - apply lookup_insert_eq.
  - done.
  - done.
  - done.
  - by exists dd.
  - rewrite E3, Hdt. symmetry. by apply bool_decide_eq_false.
  - by rewrite E3, Hdt.
  - done.
Qed.

Lemma grow_page x px : x ∈ c_list c' → c_page c' !! x = Some px →
  (x = b ∧ no_secs (pg_cache px) = no) ∨ (x ≠ b ∧ x ∈ c_list c ∧ c_page c !! x = Some px).
Proof.
  simpl. intros [Hx|Hx%list_elem_of_singleton]%elem_of_app.
  - destruct grow_fresh as (Hb & _). assert (x ≠ b) by (by intros ->).
    rewrite lookup_insert_ne by done. auto.
  - subst x. rewrite lookup_insert_eq. intros [= <-]. by left.
Qed.

Lemma grow_inv : cinv c'.
Proof.
  destruct grow_fresh as (Hb1 & Hb2 & _). split.
  - apply (ci_rwlock c Hc).
  - apply (ci_wait c Hc).
  - simpl. intros x [Hx|Hx%list_elem_of_singleton]%elem_of_app.
    + destruct (ci_cached c Hc x Hx) as (px & dx & Hca). eauto using grow_old.
    + subst x. eauto using grow_new.
  - intros x y px py Hx Hy Ex Ey E.
    destruct (grow_page x px Hx Ex) as [[-> E1]|(_ & Hx' & Ex')], (grow_page y py Hy Ey) as [[-> E2]|(_ & Hy' & Ey')].
    + done.
    + destruct (Hun y py Hy' Ey'). congruence.
    + destruct (Hun x px Hx' Ex'). congruence.
    + by apply (ci_inj c Hc x y px py).
  - simpl. pose proof (ci_nodup c Hc) as Hn. rewrite Hfr in Hn. by rewrite <-app_assoc.
  - simpl. intros x Hx. destruct (ci_frames c Hc x) as [(px & dx & ? & ? & ?)]; [rewrite Hfr; by right|].
    split. exists px, dx. simpl. rewrite lookup_insert_ne by (by intros ->). auto.
  - split; [apply (ci_dirty c Hc)|]. simpl. intros x Hx. apply elem_of_app. left. by apply (ci_dirty c Hc).
  - simpl. pose proof (ci_room c Hc) as Hr. rewrite Hfr in Hr. by rewrite <-app_assoc.
  - apply (ci_disk c Hc).
Qed.

Lemma grow_has x n : has c' n x = has c n x.
Proof.
  unfold has. simpl. destruct (decide (x = b)) as [->|]; [|by rewrite lookup_insert_ne].
  rewrite lookup_insert_eq, Hp. destruct (new_flags p no) as (_ & E2 & _).
  by rewrite E2, Hv, !andb_false_r.
Qed.

Lemma grow_at x n : at_no c x n → at_no c' x n.
Proof. intros [Hx Hh]. split; [by apply elem_of_app; left|by rewrite grow_has]. Qed.

Lemma grow_view : same_view c c'.
Proof.
  intros n. apply view_ext; [done|apply grow_inv| |].
  - intros x Hx Hh. destruct (grow_at x n (conj Hx Hh)). auto.
  - intros Hn. rewrite (view_none c'); [done|]. simpl. intros x [Hx|Hx%list_elem_of_singleton]%elem_of_app; rewrite grow_has.
    + by apply Hn.
    + subst x. unfold has. by rewrite Hp, Hv, andb_false_r.
Qed.
End grow.

Lemma set_rwlock_id c : c_rwlock c = rwlock_init → set_rwlock rwlock_init c = c.
Proof. destruct c. simpl. by intros ->. Qed.

Lemma wp_page_get c no dd : cinv c → c_disk c !! no = Some dd →
  wp (page_get no) (λ b c', cinv c' ∧ same_view c c' ∧ for_no c' b no ∧
    (∀ x n, at_no c x n → at_no c' x n)) c.
Proof.
  intros Hc Hdd. destruct (ci_disk c Hc _ _ Hdd) as (_ & Hal & _). pose proof (ci_rwlock c Hc) as Hrw.
  unfold page_get. wp_step. apply wp_assertk. split; [by rewrite Hal|].
  wp_step. eapply (wp_list_op _ rlocked); [by rewrite Hrw|]. do 2 wp_step. wp_step.
  eapply wp_mono; [apply (wp_find_buf c); [done|auto]|].
  intros r c1 [-> Hr]. wp_step. apply (wp_list_op _ rwlock_init); [done|].
  change (set_rwlock rwlock_init (set_rwlock rlocked c)) with (set_rwlock rwlock_init c).
  rewrite set_rwlock_id by done. destruct r as [b|].
  { apply wp_ret. split_and!; [done|by intros n|done|done]. }
  simpl in Hr. pose proof (room_left c no dd Hc Hdd Hr) as Hroom.
  destruct (c_frames c) as [|b frames] eqn:Hfr; [done|].
  destruct (ci_frames c Hc b) as [(p & d & Hp & Hd & Hk & Hv & Hdt & Hpg)]; [rewrite Hfr; left|].
  wp_step. unfold new_buf. wp_step. apply wp_get. rewrite Hfr. do 3 wp_step.
  eapply wp_upd_buf; [done|]. wp_step. eapply wp_upd_buf; [simpl; apply lookup_insert_eq|]. wp_step.
  wp_step. apply (wp_list_op _ wlocked); [simpl; by rewrite Hrw|]. do 2 wp_step.
  wp_step. apply (wp_list_op _ rwlock_init); [done|]. apply wp_ret.
  match goal with |- cinv ?x ∧ _ => replace x with (grown c b p frames no) end.
  2:{ unfold grown. simpl. rewrite insert_insert_eq. destruct c; simpl in *. by rewrite Hrw. }
  split_and!; [by eapply grow_inv|by eapply grow_view| |intros; by eapply grow_at].
  split; [apply elem_of_app; right; by apply list_elem_of_singleton|].
  eexists. simpl. by rewrite lookup_insert_eq.
Qed.

Lemma wp_page_read_no c no : cinv c → is_Some (view c no) →
  wp (page_read_no no) (λ b c', cinv c' ∧ same_view c c' ∧ at_no c' b no ∧
    (∀ x n, at_no c x n → at_no c' x n)) c.
Proof.
  intros Hc [dd Hdd]%view_disk; [|done]. unfold page_read_no. wp_step.
  eapply wp_mono; [by eapply wp_page_get|]. intros b c1 (Hc1 & Hv1 & [Hb (p & Hp & Hno)] & Hat1).
  destruct (ci_cached c1 Hc1 b Hb) as (p' & d & Hca).
  pose proof (ca_page _ _ _ _ Hca) as Hp'. rewrite Hp in Hp'. injection Hp' as <-.
  wp_step. eapply wp_mono; [by apply (wp_page_read c1 b p d)|]. intros [] c2 (Hc2 & Hv2 & Hat & Hat2).
  apply wp_ret. rewrite Hno in Hat. split_and!; [done| |done|auto].
  intros n. by rewrite Hv2, Hv1.
Qed.

(** ** The bytes of a page *)

Lemma at_cached c b no : cinv c → at_no c b no →
  ∃ p d, cached c b p d ∧ no_secs (pg_cache p) = no ∧ flagged p PG_VALID = true ∧ view c no = Some d.
Proof.
  intros Hc [Hb Hh]. destruct (ci_cached c Hc b Hb) as (p & d & Hca). exists p, d.
  pose proof Hh as (p' & Hp & Hno & Hv)%has_spec. rewrite (ca_page _ _ _ _ Hca) in Hp. injection Hp as <-.
  split_and!; [done..|]. rewrite (view_has c no b) by done. apply Hca.
Qed.

Lemma view_len c no d : cinv c → view c no = Some d → is_page d.
Proof.
  intros Hc Hv. destruct (has_dec c no) as [(b & Hb & Hh)|Hn].
  - destruct (at_cached c b no Hc (conj Hb Hh)) as (p & d' & Hca & _ & Hval & Hv').
    rewrite Hv in Hv'. injection Hv' as ->. by apply (ca_len _ _ _ _ Hca).
  - rewrite view_none in Hv by done. by apply (ci_disk c Hc no).
Qed.

Lemma wp_load_byte c b no d o v : cinv c → at_no c b no → view c no = Some d → 0 ≤ o →
  d !! Z.to_nat o = Some v → load_byte b o c = Ok (v, c).
Proof.
  intros Hc Hat Hv Ho Hl. destruct (at_cached c b no Hc Hat) as (p & d' & Hca & _ & _ & Hv').
  rewrite Hv in Hv'. injection Hv' as <-. unfold load_byte, mbind, M_bind, get, deref.
  rewrite (ca_data _ _ _ _ Hca), (proj2 (Z.leb_le 0 o) Ho), Hl. done.
Qed.

(** The state after a byte of the page [b] was written. *)
Definition stored (c : cache) (b o v : Z) : cache := set_data (alter (λ d, put8 d o v) b (c_data c)) c.

Lemma store_cached c b o v x px dx :
  cached c x px dx → cached (stored c b o v) x px (if decide (x = b) then put8 dx o v else dx).
Proof.
  intros [H1 H2 H3 H4 H5 H6 H7 H8 H9]. split; try done.
  - simpl. destruct (decide (x = b)) as [->|]; [|by rewrite lookup_alter_ne].
    by rewrite lookup_alter_eq, H3.
  - destruct (decide (x = b)); [by apply put8_page|done].
Qed.

Lemma store_inv c b o v : cinv c → cinv (stored c b o v).
Proof.
  intros [G1 G2 G3 G4 G5 G6 G7 G8 G9]. split; try done.
  - intros x Hx. destruct (G3 x Hx) as (px & dx & Hx'). eauto using store_cached.
  - intros x Hx. destruct (G6 x Hx) as [(px & dx & F1 & F2 & F3 & F4 & F5 & F6)]. split. exists px. simpl.
    destruct (decide (x = b)) as [->|]; [|rewrite lookup_alter_ne by done; eauto 10].
    rewrite lookup_alter_eq, F2. eexists. split_and!; [done|done|done|done|done|by apply put8_page].
Qed.

Lemma store_view c b o v n : cinv c → has c n b = false → view (stored c b o v) n = view c n.
Proof.
  intros Hc Hn. apply view_ext; [done|by apply store_inv| |].
  - intros x Hx Hh. split_and!; [done..|]. simpl. rewrite lookup_alter_ne; [done|]. intros <-. congruence.
  - intros Hnone. by rewrite view_none.
Qed.

(** A byte of a cached page is written. *)
Lemma store_byte_eq c b p d o v : cached c b p d → 0 ≤ o < BUF_SIZE → store_byte b o v c = Ok (tt, stored c b o v).
Proof.
  intros Hca Ho. destruct (ca_len _ _ _ _ Hca) as [Hlen _].
  destruct (lookup_lt_is_Some_2 d (Z.to_nat o)) as [w Hw]; [unfold BUF_SIZE, PAGE_SIZE in *; lia|].
  unfold store_byte. erewrite bind_Ok; [reflexivity|].
  unfold load_byte, mbind, M_bind, get, deref.
  by rewrite (ca_data _ _ _ _ Hca), (proj2 (Z.leb_le 0 o)), Hw by lia.
Qed.

(** Writing a byte of a valid page changes what is stored for its sectors only. *)
Lemma wp_store_byte c b no d o v : cinv c → at_no c b no → view c no = Some d → 0 ≤ o < BUF_SIZE →
  wp (store_byte b o v) (λ _ c', cinv c' ∧ (∀ x n, at_no c' x n ↔ at_no c x n) ∧
    ∀ n, view c' n = if decide (n = no) then Some (put8 d o v) else view c n) c.
Proof.
  intros Hc Hat Hv Ho. destruct (at_cached c b no Hc Hat) as (p & d' & Hca & Hno & _ & Hv').
  rewrite Hv in Hv'. injection Hv' as <-. pose proof (store_inv c b o v Hc) as Hc'.
  eapply wp_intro; [by eapply store_byte_eq|]. split_and!; [done..|]. intros n. case_decide as Hn.
  - subst n. rewrite (view_has _ no b Hc') by apply Hat.
    rewrite (ca_data _ _ _ _ (store_cached c b o v b p d Hca)). by rewrite decide_True.
  - apply store_view; [done|]. unfold has. rewrite (ca_page _ _ _ _ Hca).
    rewrite (proj2 (Z.eqb_neq _ _)); [done|]. congruence.
Qed.

(** A page of the sectors from [no] on that was not read: its bytes are not those
    of the sectors. *)
Definition raw_no (c : cache) (b no : Z) (d : bytes) : Prop :=
  ∃ p, cached c b p d ∧ no_secs (pg_cache p) = no ∧ flagged p PG_VALID = false.

Lemma raw_len c b no d : cinv c → raw_no c b no d → is_page d.
Proof. intros _ (p & Hca & _). apply Hca. Qed.

Lemma wp_store_raw c b no d o v : cinv c → raw_no c b no d → 0 ≤ o < BUF_SIZE →
  wp (store_byte b o v) (λ _ c', cinv c' ∧ same_view c c' ∧ raw_no c' b no (put8 d o v) ∧
    (∀ x n, at_no c x n → at_no c' x n)) c.
Proof.
  intros Hc (p & Hca & Hno & Hv) Ho. eapply wp_intro; [by eapply store_byte_eq|]. split_and!.
  - by apply store_inv.
  - intros n. apply store_view; [done|]. unfold has. by rewrite (ca_page _ _ _ _ Hca), Hv, andb_false_r.
  - exists p. split; [|done]. pose proof (store_cached c b o v b p d Hca) as H. by rewrite decide_True in H.
  - done.
Qed.

(** ** Marking a page dirty *)

Lemma mark_flags p :
  let q := put_flag (Z.lor (pg_flag p) (Z.lor PG_DIRTY PG_VALID)) p in
  flagged q PG_DIRTY = true ∧ flagged q PG_VALID = true ∧ flagged q PG_CACHE = flagged p PG_CACHE.
Proof.
  intros q. destruct (flagged_bits q) as (-> & -> & ->), (flagged_bits p) as (_ & _ & ->).
  unfold q, bit_dirty, bit_valid, bit_cache. cbn [pg_flag put_flag].
  rewrite !(Z.lor_spec (pg_flag p)). change (Z.testbit (Z.lor PG_DIRTY PG_VALID) 2) with true.
  change (Z.testbit (Z.lor PG_DIRTY PG_VALID) 3) with true.
  change (Z.testbit (Z.lor PG_DIRTY PG_VALID) 4) with false. by rewrite !orb_true_r, orb_false_r.
Qed.

(** The state after a clean page was marked. *)
Definition marked (c : cache) (b : Z) (p : page) : cache :=
  set_dirty (c_dirty c ++ [b])
    (set_page (<[b := put_flag (Z.lor (pg_flag p) (Z.lor PG_DIRTY PG_VALID)) p]> (c_page c)) c).

Section mark.
Context (c : cache) (b : Z) (p : page) (d : bytes).
Hypothesis Hc : cinv c.
Hypothesis Hb : cached c b p d.
Hypothesis Hdt : flagged p PG_DIRTY = false.
Abbreviation c' := (marked c b p).

Lemma mark_cached x px dx : cached c x px dx →
  cached c' x (if decide (x = b) then put_flag (Z.lor (pg_flag px) (Z.lor PG_DIRTY PG_VALID)) px else px) dx.
Proof.
  intros [H1 H2 H3 H4 H5 H6 H7 H8 H9]. destruct (mark_flags px) as (E1 & E2 & E3).
  destruct (decide (x = b)) as [->|Hx].
  - rewrite (ca_page _ _ _ _ Hb) in H2. injection H2 as <-. split; try done.
    + simpl. apply lookup_insert_eq.
    + by rewrite E3.
    + rewrite E1. symmetry. apply bool_decide_eq_true. simpl. apply elem_of_app. right. by apply list_elem_of_singleton.
  - split; try done; simpl.
    + by rewrite lookup_insert_ne.
    + rewrite H7. apply bool_decide_ext. rewrite elem_of_app, list_elem_of_singleton. tauto.
Qed.

Lemma mark_has x n : has c' n x = if decide (x = b) then no_secs (pg_cache p) =? n else has c n x.
Proof.
  unfold has. simpl. destruct (decide (x = b)) as [->|]; [|by rewrite lookup_insert_ne].
  rewrite lookup_insert_eq. destruct (mark_flags p) as (_ & E2 & _). by rewrite E2, andb_true_r.
Qed.

Lemma mark_inv : cinv c'.
Proof.
  pose proof Hc as [G1 G2 G3 G4 G5 G6 G7 G8 G9].
  assert (b ∉ c_dirty c) as Hnd.
  { pose proof (ca_dirty _ _ _ _ Hb) as E. rewrite Hdt in E. by apply eq_sym, bool_decide_eq_false in E. }
  split; try done.
  - intros x Hx. destruct (G3 x Hx) as (px & dx & Hx'). eauto using mark_cached.
  - simpl. intros x y px py Hx Hy Ex Ey E.
    destruct (G3 x Hx) as (px' & dx & Hcx), (G3 y Hy) as (py' & dy & Hcy).
    pose proof (mark_cached _ _ _ Hcx) as Ex2. pose proof (mark_cached _ _ _ Hcy) as Ey2.
    apply ca_page in Ex2, Ey2. simpl in Ex2, Ey2. rewrite Ex in Ex2. rewrite Ey in Ey2.
    injection Ex2 as ->. injection Ey2 as ->.
    apply (G4 x y px' py' Hx Hy); [apply Hcx|apply Hcy|]. by repeat case_decide.
  - intros x Hx. destruct (G6 x Hx) as [(px & dx & F)]. split. exists px, dx. simpl.
    rewrite lookup_insert_ne; [done|]. intros <-. apply NoDup_app in G5 as (_ & Hdis & _). apply (Hdis b); [apply Hb|done].
  - simpl. split.
    + apply NoDup_app. split_and!; [apply G7| |apply NoDup_singleton].
      intros x Hx Hx'%list_elem_of_singleton. congruence.
    + intros x [Hx|Hx%list_elem_of_singleton]%elem_of_app; [by apply G7|]. subst x. apply Hb.
Qed.

Lemma mark_at x n : at_no c x n → at_no c' x n.
Proof.
  intros [Hx Hh]. split; [done|]. rewrite mark_has. case_decide; [|done]. subst.
  apply has_spec in Hh as (p' & Hp & <- & _). rewrite (ca_page _ _ _ _ Hb) in Hp. injection Hp as <-. apply Z.eqb_refl.
Qed.

(** The sectors of the page now hold its bytes. *)
Lemma mark_view n : view c' n = if decide (n = no_secs (pg_cache p)) then Some d else view c n.
Proof.
  case_decide as Hn.
  - rewrite (view_has c' n b mark_inv); [apply Hb|apply Hb|]. rewrite mark_has, decide_True by done. by apply Z.eqb_eq.
  - apply view_ext; [done|apply mark_inv| |].
    + intros x Hx Hh. destruct (mark_at x n (conj Hx Hh)). done.
    + intros Hnone. rewrite (view_none c'); [done|]. intros x Hx. rewrite mark_has.
      case_decide; [apply Z.eqb_neq; congruence|by apply Hnone].
Qed.
End mark.

(** Marking a clean page, read or not. *)
Lemma wp_mark_clean c b p d (Q : unit → cache → Prop) : cinv c → cached c b p d → flagged p PG_DIRTY = false →
  Q tt (marked c b p) → wp (mark_page_dirty b) Q c.
Proof.
  intros Hc Hca E HQ. pose proof Hca as [Hl Hp Hd Hk Hf _ Hdq _ _].
  unfold mark_page_dirty. wp_step. eapply (wp_hold _ b p wlocked); [done..|]. wp_step.
  eapply wp_rd_buf; [simpl; apply lookup_insert_eq|]. wp_step. apply wp_assertk. split; [done|].
  wp_step. apply wp_when. change (flagged (put_rwlock _ p) PG_DIRTY) with (flagged p PG_DIRTY). rewrite E. simpl.
  wp_step. eapply wp_upd_buf; [simpl; apply lookup_insert_eq|]. wp_step.
  eapply (wp_unhold _ b (put_flag (Z.lor (pg_flag p) (Z.lor PG_DIRTY PG_VALID)) p) wlocked _ (marked c b p));
    [apply lookup_insert_eq|done|done| |done].
  unfold marked. simpl. by rewrite !insert_insert_eq.
Qed.

Lemma wp_mark_page_dirty c b no : cinv c → at_no c b no →
  wp (mark_page_dirty b) (λ _ c', cinv c' ∧ same_view c c' ∧ (∀ x n, at_no c' x n ↔ at_no c x n) ∧
    b ∈ c_dirty c' ∧ (c_dirty c' = c_dirty c ∨ c_dirty c' = c_dirty c ++ [b]) ∧ c_disk c' = c_disk c) c.
Proof.
  intros Hc Hat. destruct (at_cached c b no Hc Hat) as (p & d & Hca & Hno & Hval & Hv).
  destruct (flagged p PG_DIRTY) eqn:E.
  - pose proof Hca as [Hl Hp Hd Hk Hf _ Hdq _ _].
    unfold mark_page_dirty. wp_step. eapply (wp_hold _ b p wlocked); [done..|]. wp_step.
    eapply wp_rd_buf; [simpl; apply lookup_insert_eq|]. wp_step. apply wp_assertk. split; [done|].
    wp_step. apply wp_when. change (flagged (put_rwlock _ p) PG_DIRTY) with (flagged p PG_DIRTY). rewrite E. simpl.
    eapply (wp_unhold _ b p wlocked); [done..|]. split_and!; [done|by intros n|done| |by left|done].
    rewrite E in Hdq. by apply eq_sym, bool_decide_eq_true in Hdq.
  - apply (wp_mark_clean c b p d); [done..|]. split_and!; [by eapply mark_inv| | | |by right|done].
    + intros n. rewrite (mark_view c b p d) by done. case_decide; [subst; congruence|done].
    + intros x n. split; [|by eapply mark_at]. unfold at_no. rewrite (mark_has c b p) by done.
      case_decide; [|done]. subst x. intros [Hx Ex%Z.eqb_eq]. split; [done|]. apply has_spec.
      exists p. split_and!; [apply Hca|done|done].
    + simpl. apply elem_of_app. right. by apply list_elem_of_singleton.
Qed.

Lemma wp_mark_raw c b no d : cinv c → raw_no c b no d →
  wp (mark_page_dirty b) (λ _ c', cinv c' ∧ at_no c' b no ∧ (∀ x n, at_no c x n → at_no c' x n) ∧
    ∀ n, view c' n = if decide (n = no) then Some d else view c n) c.
Proof.
  intros Hc (p & Hca & <- & Hv).
  assert (flagged p PG_DIRTY = false) as E.
  { destruct (flagged p PG_DIRTY) eqn:E; [|done]. by rewrite (ca_valid _ _ _ _ Hca E) in Hv. }
  apply (wp_mark_clean c b p d); [done..|]. split_and!; [by eapply mark_inv| |by eapply mark_at|by eapply mark_view].
  split; [apply Hca|]. rewrite (mark_has c b p), decide_True by done. apply Z.eqb_refl.
Qed.

(** [page_get] finds the page or makes a new one, which was not read. *)
Lemma wp_page_get_raw c no : cinv c → is_Some (view c no) →
  wp (page_get no) (λ b c', cinv c' ∧ same_view c c' ∧ (at_no c' b no ∨ ∃ d, raw_no c' b no d) ∧
    (∀ x n, at_no c x n → at_no c' x n)) c.
Proof.
  intros Hc [dd Hdd]%view_disk; [|done]. eapply wp_mono; [by eapply wp_page_get|].
  intros b c1 (Hc1 & Hv1 & [Hb (p & Hp & Hno)] & Hat1). split_and!; [done|done| |done].
  destruct (ci_cached c1 Hc1 b Hb) as (p' & d & Hca).
  pose proof (ca_page _ _ _ _ Hca) as Hp'. rewrite Hp in Hp'. injection Hp' as <-.
  destruct (flagged p PG_VALID) eqn:E.
  - left. split; [done|]. apply has_spec. eauto.
  - right. exists d, p. done.
Qed.

(** ** Marking an inode dirty: only the inode's state and the queue change *)

Lemma inode_cached c v q b p d : cached c b p d → cached (set_inode v q c) b p d.
Proof. by intros [H1 H2 H3 H4 H5 H6 H7 H8 H9]. Qed.
Lemma inode_inv c v q : cinv c → cinv (set_inode v q c).
Proof.
  intros [G1 G2 G3 G4 G5 G6 G7 G8 G9]. split; try done.
  - intros b Hb. destruct (G3 b Hb) as (p & d & H). eauto using inode_cached.
  - intros b Hb. destruct (G6 b Hb) as [H]. by split.
Qed.

Lemma mark_inode_dirty_keeps c inode st : cinv c → is_Some (c_inode c !! inode) →
  wp (mark_inode_dirty inode st) (λ _ c', cinv c' ∧ same_view c c' ∧ (∀ x n, at_no c x n → at_no c' x n)) c.
Proof.
  intros Hc [old Ho]. unfold mark_inode_dirty. do 2 wp_step. wp_step. eapply wp_intro; [by rewrite Ho|].
  assert (∀ v q, cinv (set_inode v q c) ∧ same_view c (set_inode v q c) ∧
    (∀ x n, at_no c x n → at_no (set_inode v q c) x n)) as Hs by (intros v q; split; [by apply inode_inv|done]).
  repeat case_match; rewrite ?wp_when; repeat case_match;
    first [by apply wp_ret|apply wp_modify, Hs|done].
Qed.

(** ** Writing the dirty pages back *)

(** From [c] to [c']: every page that was queued is on the disk and the queue is
    empty; nothing else of the disk changed, and the cache stores the same. *)
Record flushed (c c' : cache) : Prop := Flushed {
  fl_inv : cinv c';
  fl_queue : c_dirty c' = [];
  fl_view : same_view c c';
  fl_disk : ∀ b p d, cached c b p d → b ∈ c_dirty c → c_disk c' !! no_secs (pg_cache p) = Some d;
  fl_rest : ∀ no, (∀ b p, b ∈ c_dirty c → c_page c !! b = Some p → no_secs (pg_cache p) ≠ no) →
    c_disk c' !! no = c_disk c !! no }.

Lemma wp_page_flush c b q p d dd (Q : unit → cache → Prop) :
  cinv c → c_dirty c = b :: q → cached c b p d → c_disk c !! no_secs (pg_cache p) = Some dd →
  Q tt (transferred b p d dd (set_dirty q c)) → wp (page_flush b) Q (set_dirty q c).
Proof.
  intros Hc Hq Hca Hdd HQ. pose proof Hca as [Hl Hp Hd Hk Hf _ Hdq _ _].
  assert (flagged p PG_DIRTY = true) as E.
  { rewrite Hdq. apply bool_decide_eq_true. rewrite Hq. left. }
  unfold page_flush. wp_step. eapply (wp_hold _ b p rlocked); [done..|]. wp_step.
  eapply wp_rd_buf; [simpl; apply lookup_insert_eq|]. wp_step. apply wp_assertk. split; [done|].
  wp_step. eapply (wp_unhold _ b p rlocked _ (set_dirty q c)); [done..|].
  eapply wp_transfer; try done; [by apply (ci_disk c Hc _ _ Hdd)|apply (ci_rwlock c Hc)|apply (ci_wait c Hc)].
Qed.

Lemma flushed_step c b q p d dd c' : cinv c → c_dirty c = b :: q → cached c b p d →
  c_disk c !! no_secs (pg_cache p) = Some dd → flagged p PG_DIRTY = true →
  NoDup q ∧ (∀ x, x ∈ q ↔ x ∈ c_dirty c ∧ x ≠ b) →
  flushed (transferred b p d dd (set_dirty q c)) c' → flushed c c'.
Proof.
  intros Hc Hq Hca Hdd E Hqs [F1 F2 F3 F4 F5]. set (c1 := transferred _ _ _ _ _) in *.
  assert (cinv c1) as Hc1 by (eapply transfer_inv; eauto).
  assert (c_disk c1 !! no_secs (pg_cache p) = Some d) as Hd1 by (simpl; by rewrite lookup_insert_eq, E).
  assert (∀ x px, x ∈ q → c_page c1 !! x = Some px → c_page c !! x = Some px) as Hpg.
  { intros x px [_ Hx]%(proj2 Hqs). simpl. by rewrite lookup_insert_ne. }
  split; [done..| | |].
  - intros no. rewrite F3. by eapply transfer_view; eauto.
  - intros x px dx Hcx Hx. destruct (decide (x = b)) as [->|Hxb].
    + assert (px = p ∧ dx = d) as [-> ->].
      { split; [pose proof (ca_page _ _ _ _ Hcx) as A; rewrite (ca_page _ _ _ _ Hca) in A
               |pose proof (ca_data _ _ _ _ Hcx) as A; rewrite (ca_data _ _ _ _ Hca) in A]; congruence. }
      rewrite F5; [done|]. intros y py Hy Hpy Hno.
      pose proof (Hpg y py Hy Hpy) as Hpy'. apply (proj2 Hqs) in Hy as [Hy Hyb].
      apply Hyb, (ci_inj c Hc y b py p); [by apply (ci_dirty c Hc)|apply Hca|done|apply Hca|done].
    + apply (F4 x px dx); [by eapply transfer_other; eauto|]. by apply (proj2 Hqs).
  - intros no Hno. rewrite F5.
    + simpl. rewrite lookup_insert_ne; [done|]. apply (Hno b p); [rewrite Hq; left|apply Hca].
    + intros y py Hy Hpy. apply (Hno y py); [by apply (proj2 Hqs) in Hy as []|by apply Hpg].
Qed.

Lemma wp_flush_loop n c : cinv c → (length (c_dirty c) < n)%nat →
  wp (loop n (λ _ : unit,
    c ← get;
    match c_dirty c with
    | [] => mret (inr tt)
    | buf :: q => modify (set_dirty q);; page_flush buf;; mret (inl tt)
    end) tt) (λ _ c', flushed c c') c.
Proof.
  revert c. induction n as [|n IH]; intros c Hc Hn; [lia|].
  simpl. do 2 wp_step. wp_step. destruct (c_dirty c) as [|b q] eqn:Hq.
  - do 2 apply wp_ret. split; try done. intros b p d _ Hb. rewrite Hq in Hb. by apply elem_of_nil in Hb.
  - assert (b ∈ c_list c) as Hb by (apply (ci_dirty c Hc); rewrite Hq; left).
    destruct (ci_cached c Hc b Hb) as (p & d & Hca). destruct (ca_disk _ _ _ _ Hca) as [dd Hdd].
    assert (flagged p PG_DIRTY = true) as E.
    { rewrite (ca_dirty _ _ _ _ Hca). apply bool_decide_eq_true. rewrite Hq. left. }
    assert (NoDup q ∧ ∀ x, x ∈ q ↔ x ∈ c_dirty c ∧ x ≠ b) as Hqs.
    { pose proof (proj1 (ci_dirty c Hc)) as Hnd. rewrite Hq in Hnd |- *. apply NoDup_cons in Hnd as [Hnb Hnd].
      split; [done|]. intros x. rewrite elem_of_cons. split; [|tauto].
      intros Hx. split; [by right|]. by intros ->. }
    do 2 wp_step. wp_step. eapply wp_page_flush; [done..|]. wp_step.
    eapply wp_mono; [apply IH; [by eapply transfer_inv; eauto|simpl in *; lia]|].
    intros [] c' HF. by eapply flushed_step.
Qed.


(** [page_sync] writes the page to the disk at once, and cleans it without taking
    it off the queue. *)
Lemma wp_page_sync c b p d : cinv c → cached c b p d →
  wp (page_sync b) (λ _ c', c_dirty c' = c_dirty c ∧ c_disk c' !! no_secs (pg_cache p) = Some d ∧
    ∃ p', c_page c' !! b = Some p' ∧ pg_rwlock p' = rwlock_init ∧ flagged p' PG_DIRTY = false) c.
Proof.
  intros Hc [Hl Hp Hd Hk Hf [dd Hdd] _ _ _]. pose proof (ci_wait c Hc) as Hw. pose proof (ci_rwlock c Hc) as Hr.
  unfold page_sync. wp_step. unfold sleeplock_lock. wp_step. apply wp_get. rewrite Hw. do 4 wp_step.
  eapply (wp_hold _ b p wlocked); [done..|]. wp_step. eapply wp_upd_buf; [simpl; apply lookup_insert_eq|].
  set (q := put_flag _ _). destruct (mark_flags (put_rwlock wlocked p)) as (E & _). change (flagged q PG_DIRTY = true) in E.
  wp_step. eapply (wp_page_rw b q d dd);
    [simpl; apply lookup_insert_eq|done|by apply (ci_disk c Hc _ _ Hdd)|done|done|].
  unfold sleeplock_unlock. wp_step.
  eapply (wp_buf_op wunlock b (pg_done (c_now c) q) rwlock_init); [simpl; apply lookup_insert_eq|done|].
  do 2 wp_step. wp_step. apply wp_assertk. split; [done|]. wp_step. simpl. split; [done|]. rewrite E. split.
  - by apply lookup_insert_eq.
  - eexists. split; [apply lookup_insert_eq|]. split; [done|]. apply pg_done_flags.
Qed.

Lemma page_flush_clean c b p : c_page c !! b = Some p → pg_rwlock p = rwlock_init →
  flagged p PG_DIRTY = false → page_flush b c = Err Assert.
Proof.
  intros Hp Hk E. unfold page_flush.
  erewrite bind_Ok.
  2:{ unfold buf_op. erewrite bind_Ok by (unfold rd_page, mbind, M_bind, get, deref; by rewrite Hp).
      rewrite Hk. erewrite (bind_Ok _ _ _ rlocked c) by done.
      unfold upd_page. erewrite bind_Ok by (unfold rd_page, mbind, M_bind, get, deref; by rewrite Hp). done. }
  erewrite bind_Ok.
  2:{ unfold rd_page, mbind, M_bind, get, deref. simpl. by rewrite lookup_insert_eq. }
  apply bind_Err. unfold assertk. by change (flagged (put_rwlock rlocked p) PG_DIRTY) with (flagged p PG_DIRTY); rewrite E.
Qed.

(** A page that was marked dirty and then written with [page_sync] stays queued:
    the next flush takes it for a dirty page and the kernel panics. *)
Lemma page_sync_breaks_flush c b no : cinv c → at_no c b no → c_dirty c = [] →
  (mark_page_dirty b;; page_sync b;; flush_pages) c = Err Assert.
Proof.
  intros Hc Hat Hq. destruct (wp_elim _ _ _ (wp_mark_page_dirty c b no Hc Hat))
    as ([] & c1 & E1 & Hc1 & _ & Hat1 & Hb & Hq1 & _).
  rewrite (bind_Ok _ _ _ _ _ E1). rewrite Hq in Hq1. destruct Hq1 as [Hq1|Hq1]; [rewrite Hq1 in Hb; by apply elem_of_nil in Hb|].
  apply Hat1 in Hat. destruct (at_cached c1 b no Hc1 Hat) as (p & d & Hca & _).
  destruct (wp_elim _ _ _ (wp_page_sync c1 b p d Hc1 Hca)) as ([] & c2 & E2 & Hq2 & _ & p2 & Hp2 & Hk2 & Hd2).
  rewrite (bind_Ok _ _ _ _ _ E2). rewrite Hq1 in Hq2. unfold flush_pages.
  erewrite (bind_Ok _ _ _ c2 c2) by done. rewrite Hq2. simpl. apply bind_Err.
  erewrite (bind_Ok _ _ _ c2 c2) by done. rewrite Hq2. simpl.
  erewrite (bind_Ok _ _ _ tt (set_dirty [] c2)) by done. apply bind_Err. by apply (page_flush_clean _ _ p2).
Qed.

(** ** The page cache is a [BlockStore] *)

Lemma load_byte_at c b no d o : cinv c → at_no c b no → view c no = Some d → 0 ≤ o < BUF_SIZE →
  load_byte b o c = Ok (byte_at d o, c).
Proof.
  intros Hc Hat Hv Ho. destruct (view_len c no d Hc Hv) as [Hlen _].
  destruct (lookup_lt_is_Some_2 d (Z.to_nat o)) as [w Hw]; [lia|].
  rewrite (wp_load_byte c b no d o w) by (done || lia). unfold byte_at. by rewrite Hw.
Qed.

Lemma load_byte_out c b no o : cinv c → at_no c b no → BUF_SIZE ≤ o → load_byte b o c = Err Fault.
Proof.
  intros Hc Hat Ho. destruct (at_cached c b no Hc Hat) as (p & d & Hca & _ & Hval & _).
  destruct (ca_len _ _ _ _ Hca) as [Hlen _]. unfold BUF_SIZE, PAGE_SIZE in *.
  unfold load_byte, mbind, M_bind, get, deref. rewrite (ca_data _ _ _ _ Hca).
  rewrite (proj2 (Z.leb_le 0 o)) by lia. by rewrite lookup_ge_None_2 by lia.
Qed.

#[export] Instance cache_store : BlockStore cache := {|
  bs_read := page_read_no;
  bs_get := page_get;
  bs_load := load_byte;
  bs_store := store_byte;
  bs_mark := mark_page_dirty;
  bs_inv := cinv;
  bs_view := view;
  bs_at := at_no;
  bs_raw := raw_no;
  bs_page := view_len;
  bs_read_ok := wp_page_read_no;
  bs_get_ok := wp_page_get_raw;
  bs_raw_page := raw_len;
  bs_store_raw := wp_store_raw;
  bs_mark_raw := wp_mark_raw;
  bs_load_ok := load_byte_at;
  bs_load_out := load_byte_out;
  bs_store_ok := wp_store_byte;
  bs_mark_ok c b no Hc Hat := wp_mono _ _ _ _ (wp_mark_page_dirty c b no Hc Hat)
    (λ _ _ '(conj H1 (conj H2 (conj H3 _))), conj H1 (conj H2 H3)) |}.

(** ** A cache with one dirty page *)

Definition demo_page : page :=
  MkPage 4096 (PG_Page + PG_Head + PG_CACHE + PG_VALID + PG_DIRTY) 1 0 0 (SlabInfo 0 0 0 0)
    (PageCache 0 8) rwlock_init.
Definition demo_cache : cache :=
  Cache {[ 5 := demo_page ]} {[ 5 := put8 zeros 0 1 ]} [] [5] rwlock_init false None false [5] ∅ [] 7
    {[ 8 := zeros ]}.

Lemma demo_cached : cached demo_cache 5 demo_page (put8 zeros 0 1).
Proof.
  split; [by apply list_elem_of_singleton|done|done|done|done|by exists zeros|done|done|].
  apply put8_page, zeros_page.
Qed.

Lemma demo_cinv : cinv demo_cache.
Proof.
  split; simpl; [done|done| | | | | |done|].
  - intros b ->%list_elem_of_singleton. eexists _, _. exact demo_cached.
  - intros b1 b2 p1 p2 ->%list_elem_of_singleton ->%list_elem_of_singleton. done.
  - apply NoDup_singleton.
  - intros b Hb. by apply elem_of_nil in Hb.
  - split; [apply NoDup_singleton|done].
  - intros no d [<- <-]%lookup_singleton_Some. split_and!; [done..|apply zeros_page].
Qed.

