(* ===== verification/Ext2.v ===== *)
(** * ext2: the on-disk structures, the super block and block allocation

    Models [include/fs/ext2.h] (the structures and constants), [fs/ext2/super.c] and
    [fs/ext2/block.c].  The file system runs on any [BlockStore]; the structures of
    the disk are bytes of its pages, at the offsets the C compiler gives their
    fields.  [info] of the state is the in-memory inode ([ext2_inode_info_t]) the
    routine was called for; the super block information is fixed after mounting. *)

From Stdlib Require Import ZArith Lia String.
From S2P Require Import Prelude QLib Page BlockStore.
From stdpp Require Import base numbers list.
Open Scope Z_scope.

(** ** Structures

    A C structure: the fields in order, each with the size of its element and the
    number of elements.  A field starts at the next multiple of its element's size
    (fields have the alignment of their element on x86-32). *)
Record field := Field { f_name : string; f_size : Z; f_count : Z }.
Abbreviation struct := (list field).

Definition align_up (o a : Z) : Z := (o + a - 1) / a * a.

Fixpoint offsetof_from (o : Z) (s : struct) (name : string) : option Z :=
  match s with
  | [] => None
  | f :: s' =>
      let o' := align_up o (f_size f) in
      if String.eqb (f_name f) name then Some o'
      else offsetof_from (o' + f_size f * f_count f) s' name
  end.
Definition offsetof (s : struct) (name : string) : Z := default (-1) (offsetof_from 0 s name).

Definition end_of (s : struct) : Z :=
  fold_left (λ o f, align_up o (f_size f) + f_size f * f_count f) s 0.
Definition sizeof (s : struct) : Z :=
  align_up (end_of s) (fold_left (λ a f, Z.max a (f_size f)) s 1).

Section fields.
Open Scope string_scope.
Let u32_t n := Field n 4 1.
Let u16_t n := Field n 2 1.
Let u8_t n := Field n 1 1.

Definition ext2_superBlock : struct := [
  u32_t "inodeCnt"; u32_t "blockCnt"; u32_t "rBlockCnt"; u32_t "freeBlockCnt"; u32_t "freeInodeCnt";
  u32_t "firstDataBlock"; u32_t "logBlockSize"; u32_t "logFragmentSize"; u32_t "blockPerGroup";
  u32_t "fragmentsPerGroup"; u32_t "inodePerGroup"; u32_t "mountTime"; u32_t "writtenTime";
  u16_t "mountCnt"; u16_t "maxMountCnt"; u16_t "magic"; u16_t "state"; u16_t "error";
  u16_t "fsVersionMinor"; u32_t "fsckTime"; u32_t "fsckInterval"; u32_t "creatorOS";
  u32_t "fsVersionMajor"; u16_t "uid"; u16_t "gid"; u32_t "firstInode"; u16_t "inodeSize";
  u16_t "blockGroup"; u32_t "optionalFeature"; u32_t "requiredFeature"; u32_t "optionalFeatureRo";
  Field "uuid" 1 16; Field "volumeName" 1 16; Field "pathLastMount" 1 64; u32_t "algorithmsBitmap";
  u8_t "preallocateBlock"; u8_t "preallocateBlockDir"; u16_t "unused"; Field "journalId" 1 16;
  u32_t "journalInode"; u32_t "journalDevice"; u32_t "lastOrphan"; Field "hashSeed" 4 4;
  u8_t "defHashVersion"; Field "padding" 1 3; u32_t "defaultMountOpts"; u32_t "firstMetaBg";
  Field "unused2" 1 760].

Definition ext2_group_desc : struct := [
  u32_t "blockBitmapAddr"; u32_t "inodeBitmapAddr"; u32_t "inodeTableAddr"; u16_t "freeBlockCnt";
  u16_t "freeInodesCnt"; u16_t "dirNum"; Field "unused" 1 14].

Definition ext2_inode : struct := [
  u16_t "mode"; u16_t "uid"; u32_t "size"; u32_t "accessTime"; u32_t "createTime"; u32_t "modTime";
  u32_t "delTime"; u16_t "groupId"; u16_t "linkCnt"; u32_t "cntSectors"; u32_t "flags"; u32_t "osSpec";
  Field "blocks" 4 15; u32_t "generationNum"; u32_t "filAcl"; u32_t "dirAcl"; u32_t "fragmentAddr";
  Field "osSpec2" 4 3].

Definition ext2_directory_entry : struct := [
  u32_t "inode"; u16_t "entrySize"; u8_t "nameLen"; u8_t "type"].
End fields.

(** The sizes the disk format fixes. *)
Example ext2_sizes :
  (sizeof ext2_superBlock, sizeof ext2_group_desc, sizeof ext2_inode, sizeof ext2_directory_entry)
  = (1024, 32, 128, 8).
Proof. reflexivity. Qed.

Definition ROOT_INUM : Z := 2.
Definition SUPER_BLOCK_NO : Z := 2.
Definition N_DIRECT_BLOCK : Z := 12.
Definition N_BLOCKS : Z := N_DIRECT_BLOCK + 3.
Definition EXT2_SIGNATURE : Z := 0xef53.

(** The offsets the code reads. *)
Definition sizeof_gd : Z := Eval vm_compute in sizeof ext2_group_desc.
Definition gd_blockBitmapAddr : Z := Eval vm_compute in offsetof ext2_group_desc "blockBitmapAddr".
Definition gd_inodeBitmapAddr : Z := Eval vm_compute in offsetof ext2_group_desc "inodeBitmapAddr".
Definition gd_inodeTableAddr : Z := Eval vm_compute in offsetof ext2_group_desc "inodeTableAddr".
Definition gd_freeBlockCnt : Z := Eval vm_compute in offsetof ext2_group_desc "freeBlockCnt".
Definition gd_freeInodesCnt : Z := Eval vm_compute in offsetof ext2_group_desc "freeInodesCnt".
Definition gd_dirNum : Z := Eval vm_compute in offsetof ext2_group_desc "dirNum".
Definition sb_blockCnt : Z := Eval vm_compute in offsetof ext2_superBlock "blockCnt".
Definition sb_freeBlockCnt : Z := Eval vm_compute in offsetof ext2_superBlock "freeBlockCnt".
Definition sb_freeInodeCnt : Z := Eval vm_compute in offsetof ext2_superBlock "freeInodeCnt".
Definition sb_logBlockSize : Z := Eval vm_compute in offsetof ext2_superBlock "logBlockSize".
Definition sb_blockPerGroup : Z := Eval vm_compute in offsetof ext2_superBlock "blockPerGroup".
Definition sb_inodePerGroup : Z := Eval vm_compute in offsetof ext2_superBlock "inodePerGroup".
Definition sb_writtenTime : Z := Eval vm_compute in offsetof ext2_superBlock "writtenTime".
Definition sb_magic : Z := Eval vm_compute in offsetof ext2_superBlock "magic".
Definition sb_fsVersionMajor : Z := Eval vm_compute in offsetof ext2_superBlock "fsVersionMajor".
Definition sb_inodeSize : Z := Eval vm_compute in offsetof ext2_superBlock "inodeSize".

(** [struct super_block] (vfs.h), [struct info_descriptor] and [ext2_sb_info_t]. *)
Record super_block := SuperBlock { magic : Z; blockSize : Z; inodeSize : Z }.
Record info_descriptor := InfoDesc { inodeBitmapAddr : Z; blockBitmapAddr : Z; inodeTableAddr : Z }.
Record ext2_sb_info := SbInfo {
  sb : super_block; inodePerGroup : Z; blockPerGroup : Z; version : Z; groupCnt : Z;
  desc : list info_descriptor }.

(** [ext2_inode_info_t] without the generic inode. *)
Record inode_info := InodeInfo { blockCnt : Z; blocks : list Z }.

Definition EXT2_BLOCK2LBA (s : super_block) (no : Z) : Z := u32 (blockSize s / SECTOR_SIZE * no).
Definition EXT2_INODE2GROUP (ino : Z) (s : ext2_sb_info) : Z := u32 (ino - 1) / inodePerGroup s.

Section ext2.
Context {St : Type} `{B : BlockStore St}.

Definition ext2_block_read (no : Z) (s : super_block) : M St Z := bs_read (EXT2_BLOCK2LBA s no).

(** ** super.c *)

Definition EXT2_SB_BNO : Z := 0.
Definition DESCRIPTOR_PER_BLOCK (s : super_block) : Z := blockSize s / sizeof_gd.
Definition DESCRIPTOR_BID (gno : Z) (s : super_block) : Z := u32 (1 + gno / DESCRIPTOR_PER_BLOCK s).
Definition DESCRIPTOR_OFFSET (gno : Z) (s : super_block) : Z := gno mod DESCRIPTOR_PER_BLOCK s * sizeof_gd.

(** A pointer into a page: the buffer and the offset of the structure in it. *)
Definition get_raw_sb (s : super_block) : M St (Z * Z) :=
  buf ← ext2_block_read EXT2_SB_BNO s; mret (buf, SECTOR_SIZE * SUPER_BLOCK_NO).
Definition get_raw_gd (gno : Z) (s : super_block) : M St (Z * Z) :=
  buf ← ext2_block_read (DESCRIPTOR_BID gno s) s; mret (buf, DESCRIPTOR_OFFSET gno s).

Definition check_superBlock (buf off : Z) : M St unit :=
  m ← bs_load16 buf (off + sb_magic); assertk (m =? EXT2_SIGNATURE).

(** The loop over the descriptors goes through the first descriptor block. *)
Fixpoint read_descs (n : nat) (buf off : Z) : M St (list info_descriptor) :=
  match n with
  | O => mret []
  | S n' =>
      tbl ← bs_load32 buf (off + gd_inodeTableAddr);
      bm ← bs_load32 buf (off + gd_blockBitmapAddr);
      im ← bs_load32 buf (off + gd_inodeBitmapAddr);
      rest ← read_descs n' buf (off + sizeof_gd);
      mret (InfoDesc im bm tbl :: rest)
  end.

(** [kmalloc] of the result is not part of the model. *)
Definition superBlock_init : M St ext2_sb_info :=
  blk ← bs_read 0;
  let off := SECTOR_SIZE * SUPER_BLOCK_NO in
  check_superBlock blk off;;
  blockCnt ← bs_load32 blk (off + sb_blockCnt);
  perGroup ← bs_load32 blk (off + sb_blockPerGroup);
  (if perGroup =? 0 then fail Fault else mret tt);;        (* division by zero *)
  let groupCount := blockCnt / perGroup in
  magic ← bs_load16 blk (off + sb_magic);
  assertk (magic =? EXT2_SIGNATURE);;
  log ← bs_load32 blk (off + sb_logBlockSize);
  let bsize := u32 (Z.shiftl 2 (u32 (log + 9))) in
  isize ← bs_load16 blk (off + sb_inodeSize);
  ipg ← bs_load32 blk (off + sb_inodePerGroup);
  ver ← bs_load32 blk (off + sb_fsVersionMajor);
  let s := SuperBlock magic bsize isize in
  '(dbuf, doff) ← get_raw_gd 0 s;
  d ← read_descs (Z.to_nat groupCount) dbuf doff;
  mret (SbInfo s ipg perGroup ver groupCount d).

(** Sums a 16-bit field of the descriptors of the groups; the counter is 64 bits wide. *)
Fixpoint sum_gd (n : nat) (i : Z) (fld : Z) (cnt : Z) (s : super_block) : M St Z :=
  match n with
  | O => mret cnt
  | S n' =>
      '(buf, off) ← get_raw_gd i s;
      v ← bs_load16 buf (off + fld);
      sum_gd n' (i + 1) fld (u64 (cnt + v)) s
  end.
Definition get_free_inode_cnt (groups : Z) (s : super_block) : M St Z :=
  cnt ← sum_gd (Z.to_nat groups) 0 gd_freeInodesCnt 0 s; mret (u32 cnt).
Definition get_free_block_cnt (groups : Z) (s : super_block) : M St Z :=
  cnt ← sum_gd (Z.to_nat groups) 0 gd_freeBlockCnt 0 s; mret (u32 cnt).

(** [now] is [cur_timestamp()].  The page's lock is taken and given back around the
    three stores. *)
Definition ext2_write_super_block (i : ext2_sb_info) (now : Z) : M St unit :=
  freeInodeCnt ← get_free_inode_cnt (groupCnt i) (sb i);
  freeBlockCnt ← get_free_block_cnt (groupCnt i) (sb i);
  '(sbBuf, off) ← get_raw_sb (sb i);
  m ← bs_load16 sbBuf (off + sb_magic);
  assertk (m =? EXT2_SIGNATURE);;
  bs_store32 sbBuf (off + sb_freeBlockCnt) freeBlockCnt;;
  bs_store32 sbBuf (off + sb_freeInodeCnt) freeInodeCnt;;
  bs_store32 sbBuf (off + sb_writtenTime) now;;
  bs_mark sbBuf.

(** The copies of the super block in every other group; [groupCnt] bounds the number
    of rounds. *)
Definition super_block_backup (i : ext2_sb_info) (now : Z) : M St unit :=
  '(src, off) ← get_raw_sb (sb i);
  loop (Z.to_nat (groupCnt i) + 1) (λ g : Z,
    if g <? groupCnt i then
      blk ← ext2_block_read (u32 (blockPerGroup i * g)) (sb i);
      bs_store32 blk sb_writtenTime now;;
      v ← bs_load32 src (off + sb_freeBlockCnt);
      bs_store32 blk sb_freeBlockCnt v;;
      w ← bs_load32 src (off + sb_freeInodeCnt);
      bs_store32 blk sb_freeInodeCnt w;;
      mret (inl (g + 2))
    else mret (inr tt)) 1.

(** ** block.c *)

(** [while (ch & 1) { ch >>= 1; no++; }] on a byte: at most 8 rounds. *)
Fixpoint clear_bit_loop (n : nat) (ch no : Z) : Z :=
  match n with
  | O => no
  | S n' => if truth (Z.land ch 1) then clear_bit_loop n' (Z.shiftr ch 1) (u8 (no + 1)) else no
  end.
Definition get_clear_bit (ch : Z) : Z := clear_bit_loop 8 ch 0.

Fixpoint next_zero_loop (n : nat) (map i : Z) : M St Z :=
  match n with
  | O => mret (-1)
  | S n' =>
      ch ← bs_load map i;
      if negb (ch =? 0xff) then
        let no := get_clear_bit ch in
        bs_store map i (set_bit ch no);;
        mret (no + Z.shiftl i 3)
      else next_zero_loop n' map (i + 1)
  end.
Definition set_next_zero_bit (map max : Z) : M St Z := next_zero_loop (Z.to_nat max) map 0.

Fixpoint get_layer_loop (n : nat) (id : list Z) : M St Z :=
  match n with
  | O => mret 0
  | S i => v ← deref (id !! i); if truth v then mret (Z.of_nat i) else get_layer_loop i id
  end.
Definition get_layer (id : list Z) : M St Z := get_layer_loop 3 id.

Section inode.
Variable i : ext2_sb_info.       (* ext2_s(inode->sb) *)

Record fs := Fs { store : St; info : inode_info }.
Definition on_store {A} (m : M St A) : M fs A := zoom store (λ s f, Fs s (info f)) m.
Definition set_info (f : inode_info → inode_info) : M fs unit := modify (λ s, Fs (store s) (f (info s))).

Definition n_ptr : Z := blockSize (sb i) / 4.

(** [ptr[k]] of a block of pointers. *)
Definition rd_ptr (buf k : Z) : M fs Z := on_store (bs_load32 buf (4 * k)).

(** [for (int j = layer; j >= 0; --j)] of [next_block]: follows [id[j]]. *)
Fixpoint next_walk (n : nat) (bid : Z) (id : list Z) : M fs (option Z) :=
  match n with
  | O => mret (Some bid)
  | S j =>
      if bid =? 0 then mret None
      else
        buf ← on_store (ext2_block_read bid (sb i));
        k ← deref (id !! j);
        bid' ← rd_ptr buf k;
        next_walk j bid' id
  end.

(** Answers the block and the advanced iterator [id]. *)
Definition next_block (id : list Z) : M fs (Z * list Z) :=
  id0 ← deref (id !! 0%nat); id3 ← deref (id !! 3%nat);
  if n_ptr <=? id3 then mret (0, id)
  else if id0 <? N_DIRECT_BLOCK then
    f ← get;
    b ← deref (blocks (info f) !! Z.to_nat id0);
    mret (b, <[0%nat := u16 (id0 + 1)]> id)
  else
    layer ← on_store (get_layer (drop 1 id));
    f ← get;
    root ← deref (blocks (info f) !! Z.to_nat (N_DIRECT_BLOCK + layer));
    r ← next_walk (Z.to_nat layer + 1) root id;
    match r with
    | None => mret (0, id)
    | Some bid =>
        let step k (id : list Z) := alter (λ v, u16 (v + 1)) k id in
        let carry k (id : list Z) :=
          if n_ptr <=? id !!! k then step (S k) (<[k := 0]> id) else id in
        mret (bid, carry 2%nat (carry 1%nat (step 1%nat id)))
    end.

(** The group with the fewest free blocks; [None] stands for the uninitialised
    [groupNo] of a volume without groups. *)
Fixpoint min_group (n : nat) (g : Z) (best : option Z) (min : Z) : M St (option Z) :=
  match n with
  | O => mret best
  | S n' =>
      '(buf, off) ← get_raw_gd g (sb i);
      free ← bs_load16 buf (off + gd_freeBlockCnt);
      if free <? min then min_group n' (g + 1) (Some g) free
      else min_group n' (g + 1) best min
  end.

(** The do-while loop: from the group [g0] on, around to it. *)
Definition next_group (g0 : Z) : M St Z :=
  loop (Z.to_nat (groupCnt i) + 1) (λ g : Z,
    '(buf, off) ← get_raw_gd g (sb i);
    free ← bs_load16 buf (off + gd_freeBlockCnt);
    if negb (free =? 0) then mret (inr g)
    else
      let g' := u32 (g + 1) mod groupCnt i in
      mret (if g0 =? g' then inr g' else inl g')) g0.

Definition find_group : M fs Z :=
  f ← get;
  if blockCnt (info f) =? 0 then
    r ← on_store (min_group (Z.to_nat (groupCnt i)) 0 None 0xffffffff);
    deref r
  else
    bid ← deref (blocks (info f) !! 0%nat);
    assertk (truth bid);;                                  (* error("empty_block") *)
    on_store (next_group (bid / blockPerGroup i)).

Definition set_block_bitmap : M fs Z :=
  groupNo ← find_group;
  d ← deref (desc i !! Z.to_nat groupNo);
  b_buf ← on_store (ext2_block_read (blockBitmapAddr d) (sb i));
  bit ← on_store (set_next_zero_bit b_buf (blockSize (sb i) / 8));
  assertk (negb (bit <? 0));;                              (* error("unknown_error") *)
  '(buf, off) ← on_store (get_raw_gd groupNo (sb i));
  free ← on_store (bs_load16 buf (off + gd_freeBlockCnt));
  on_store (bs_store16 buf (off + gd_freeBlockCnt) (u16 (free - 1)));;
  on_store (bs_mark buf);;
  on_store (bs_mark b_buf);;
  mret (u32 (bit + groupNo * blockPerGroup i)).

Definition clear_block_bitmap (bid : Z) : M fs unit :=
  let groupNo := bid / blockPerGroup i in
  '(d_buf, off) ← on_store (get_raw_gd groupNo (sb i));
  free ← on_store (bs_load16 d_buf (off + gd_freeBlockCnt));
  on_store (bs_store16 d_buf (off + gd_freeBlockCnt) (u16 (free + 1)));;
  d ← deref (desc i !! Z.to_nat groupNo);
  b_buf ← on_store (ext2_block_read (blockBitmapAddr d) (sb i));
  ch ← on_store (bs_load b_buf (bid / 8));
  on_store (bs_store b_buf (bid / 8) (clear_bit ch (bid mod 8)));;
  on_store (bs_mark d_buf);;
  on_store (bs_mark b_buf).

(** The layer of indirection of a block and its indexes [id[0..2]]. *)
Definition find_block_layer (bno0 : Z) : M fs (Z * list Z) :=
  let bno := u32 (bno0 - N_DIRECT_BLOCK) in
  let '(bno, layer) := if n_ptr <=? bno then (bno - n_ptr, 1) else (bno, 0) in
  let sqr := u32 (n_ptr * n_ptr) in
  let '(bno, layer) := if sqr <=? bno then (bno - sqr, 2) else (bno, layer) in
  assertk (bno <? u32 (sqr * n_ptr));;
  mret (layer, [bno mod n_ptr; bno / n_ptr mod n_ptr; bno / sqr]).

Definition new_empty_block : M fs Z :=
  bid ← set_block_bitmap;
  foo ← on_store (ext2_block_read bid (sb i));
  on_store (for_up (Z.to_nat (blockSize (sb i))) 0 (λ o, bs_store foo o 0));;   (* bzero *)
  mret bid.

(** [for (int64_t j = layer; j >= 0; --j)] of [get_bid]. *)
Fixpoint bid_walk (n : nat) (bid : Z) (id : list Z) : M fs Z :=
  match n with
  | O => mret bid
  | S j =>
      if bid =? 0 then mret bid
      else
        ptr ← on_store (ext2_block_read bid (sb i));
        k ← deref (id !! j);
        bid' ← rd_ptr ptr k;
        bid_walk j bid' id
  end.

Definition get_bid (bno : Z) : M fs Z :=
  if bno <? N_DIRECT_BLOCK then f ← get; deref (blocks (info f) !! Z.to_nat bno)
  else
    '(layer, id) ← find_block_layer bno;
    f ← get;
    bid ← deref (blocks (info f) !! Z.to_nat (N_DIRECT_BLOCK + layer));
    bid_walk (Z.to_nat layer + 1) bid id.

(** The pointer [_bid] of [alloc_block]: into the inode or into a page. *)
Inductive slot := SInfo (k : nat) | SPage (buf k : Z).

Definition rd_slot (p : slot) : M fs Z :=
  match p with
  | SInfo k => f ← get; deref (blocks (info f) !! k)
  | SPage buf k => rd_ptr buf k
  end.
Definition wr_slot (p : slot) (v : Z) : M fs unit :=
  match p with
  | SInfo k => set_info (λ x, InodeInfo (blockCnt x) (<[k := v]> (blocks x)))
  | SPage buf k => on_store (bs_store32 buf (4 * k) v)
  end.
Definition inc_blockCnt : M fs unit :=
  set_info (λ x, InodeInfo (u32 (blockCnt x + 1)) (blocks x)).

(** The loop [for (int32_t j = layer; j >= -1; --j)] at [j = n - 1].  At [j = -1] a
    block that is already there makes the code read [id[-1]]. *)
Fixpoint alloc_walk (n : nat) (p : slot) (id : list Z) : M fs slot :=
  v ← rd_slot p;
  (if v =? 0 then
     b ← new_empty_block;
     wr_slot p b;;
     inc_blockCnt
   else mret tt);;
  match n with
  | O => if v =? 0 then mret p else fail Fault
  | S j =>
      bid ← rd_slot p;
      buf ← on_store (ext2_block_read bid (sb i));
      k ← deref (id !! j);
      alloc_walk j (SPage buf k) id
  end.

Definition alloc_block (bno : Z) : M fs Z :=
  if bno <? N_DIRECT_BLOCK then
    f ← get;
    b ← deref (blocks (info f) !! Z.to_nat bno);
    assertk (b =? 0);;
    bid ← set_block_bitmap;
    inc_blockCnt;;
    set_info (λ x, InodeInfo (blockCnt x) (<[Z.to_nat bno := bid]> (blocks x)));;
    mret bid
  else
    '(layer, id) ← find_block_layer bno;
    p ← alloc_walk (Z.to_nat layer + 1) (SInfo (Z.to_nat (N_DIRECT_BLOCK + layer))) id;
    rd_slot p.

(** [for (u32_t k = 0; k < n_ptr && ptr[k]; ++k) free_ptr(ptr[k], layer - 1, ...)]; the
    pointer is read again for the call. *)
Fixpoint free_each (free : Z → M fs unit) (n : nat) (k ptr : Z) : M fs unit :=
  match n with
  | O => mret tt
  | S n' =>
      v ← rd_ptr ptr k;
      if truth v then w ← rd_ptr ptr k; free w;; free_each free n' (k + 1) ptr
      else mret tt
  end.

Fixpoint free_ptr (layer : nat) (bid : Z) : M fs unit :=
  match layer with
  | O => clear_block_bitmap bid
  | S l =>
      ptr ← on_store (ext2_block_read bid (sb i));
      free_each (free_ptr l) (Z.to_nat n_ptr) 0 ptr;;
      clear_block_bitmap bid
  end.

Definition free_blocks : M fs unit :=
  for_up (Z.to_nat N_DIRECT_BLOCK) 0 (λ k,
    f ← get;
    bid ← deref (blocks (info f) !! Z.to_nat k);
    when (truth bid) (clear_block_bitmap bid));;
  for_up 3 0 (λ k,
    f ← get;
    bid ← deref (blocks (info f) !! Z.to_nat (N_DIRECT_BLOCK + k));
    when (truth bid) (free_ptr (Z.to_nat k + 1) bid));;
  set_info (λ x, InodeInfo 0 (blocks x)).
End inode.
End ext2.
