(* ===== verification/Ext2Correct.v ===== *)
(** * ext2 block allocation: the bitmap and the block map of an inode

    Against any [BlockStore]: [set_block_bitmap] hands out a block whose bit was
    clear and changes nothing but that bit and the group's counter;
    [find_block_layer] numbers the tree of indirect blocks without overlap; and
    after [alloc_block] the block map of the inode leads to the new block. *)

From S2P Require Import Prelude QLib Page BlockStore Ext2.
From Stdlib Require Import ZArith Lia.
From stdpp Require Import base countable numbers gmap list.
Open Scope Z_scope.

#[local] Arguments Z.to_nat : simpl never.
#[local] Arguments Z.mul : simpl never.
#[local] Arguments Z.pow : simpl never.

(** ** Bits of bytes and of bitmaps *)

Lemma byte_cases (P : Z → Prop) : Forall P (seqZ 0 256) → ∀ ch, 0 ≤ ch < 256 → P ch.
Proof. intros H ch Hch. rewrite Forall_forall in H. apply H, elem_of_seqZ. lia. Qed.

Lemma get_clear_bit_spec ch : 0 ≤ ch < 256 → ch ≠ 255 →
  0 ≤ get_clear_bit ch < 8 ∧ Z.testbit ch (get_clear_bit ch) = false ∧
  Forall (λ j, Z.testbit ch j = true) (seqZ 0 (get_clear_bit ch)).
Proof.
  intros Hch Hne. assert (Forall (λ ch, ch = 255 ∨ 0 ≤ get_clear_bit ch < 8 ∧
    Z.testbit ch (get_clear_bit ch) = false ∧ Forall (λ j, Z.testbit ch j = true) (seqZ 0 (get_clear_bit ch)))
    (seqZ 0 256)) as H.
  { apply (bool_decide_unpack _). vm_compute. exact I. }
  by destruct (byte_cases _ H ch Hch).
Qed.

Lemma set_bit_spec ch k j : 0 ≤ ch < 256 → 0 ≤ k < 8 → 0 ≤ j < 8 →
  Z.testbit (set_bit ch k) j = Z.testbit ch j || (j =? k).
Proof.
  intros Hch Hk Hj. unfold set_bit, u8. rewrite Z.mod_pow2_bits_low, Z.lor_spec by lia. f_equal.
  rewrite Z.shiftl_1_l. destruct (Z.eqb_spec j k) as [->|]; [by apply Z.pow2_bits_true; lia|].
  by apply Z.pow2_bits_false.
Qed.

Lemma clear_bit_spec ch k j : 0 ≤ ch < 256 → 0 ≤ k < 8 → 0 ≤ j < 8 →
  Z.testbit (clear_bit ch k) j = Z.testbit ch j && negb (j =? k).
Proof.
  intros Hch Hk Hj. unfold clear_bit, u8. rewrite Z.mod_pow2_bits_low, Z.land_spec, Z.lnot_spec by lia. do 2 f_equal.
  rewrite Z.shiftl_1_l. destruct (Z.eqb_spec j k) as [->|]; [by apply Z.pow2_bits_true; lia|].
  by apply Z.pow2_bits_false.
Qed.

Definition bit_set (d : bytes) (k : Z) : bool := Z.testbit (byte_at d (k / 8)) (k mod 8).
Definition with_bit (d : bytes) (k : Z) : bytes := put8 d (k / 8) (set_bit (byte_at d (k / 8)) (k mod 8)).

Lemma bit_set_with d k j : is_page d → 0 ≤ k < 8 * BUF_SIZE → 0 ≤ j →
  bit_set (with_bit d k) j = bit_set d j || (j =? k).
Proof.
  intros Hp Hk Hj. unfold bit_set, with_bit.
  assert (0 ≤ k / 8 < BUF_SIZE) by (split; [apply Z.div_pos; lia|apply Z.div_lt_upper_bound; lia]).
  pose proof (Z.mod_pos_bound k 8 ltac:(lia)). pose proof (Z.mod_pos_bound j 8 ltac:(lia)).
  pose proof (Z.div_mod k 8 ltac:(lia)). pose proof (Z.div_mod j 8 ltac:(lia)).
  destruct (Z.eq_dec (j / 8) (k / 8)) as [E|E].
  - rewrite E, byte_at_eq by (destruct Hp; lia). rewrite u8_small.
    + rewrite set_bit_spec by (try apply byte_at_range; done || lia). f_equal.
      apply eq_true_iff_eq. rewrite !Z.eqb_eq. lia.
    + unfold set_bit. apply u8_range.
  - rewrite byte_at_ne by (try apply Z.div_pos; lia).
    replace (j =? k) with false by (symmetry; apply Z.eqb_neq; congruence). by rewrite orb_false_r.
Qed.

Lemma with_bit_page d k : is_page d → is_page (with_bit d k).
Proof. apply put8_page. Qed.

Section volume.
Context {St : Type} `{B : BlockStore St} (i : ext2_sb_info).

(** ** The volume

    Blocks of 4096 bytes, the size of a page; a group has as many blocks as its
    bitmap block has bits, as mke2fs lays it out. *)

Definition nblocks : Z := groupCnt i * 32768.
Definition gd_block (b : Z) : Prop := 1 ≤ b ≤ 1 + (groupCnt i - 1) / 128.
Definition bitmap_block (g b : Z) : Prop :=
  ∃ d, desc i !! Z.to_nat g = Some d ∧ blockBitmapAddr d = b.
Definition meta (b : Z) : Prop := gd_block b ∨ ∃ g, 0 ≤ g < groupCnt i ∧ bitmap_block g b.

Record geometry : Prop := Geometry {
  g_bs : blockSize (sb i) = 4096;
  g_bpg : blockPerGroup i = 32768;
  g_cnt : 0 < groupCnt i ≤ 1024;
  g_desc : length (desc i) = Z.to_nat (groupCnt i);
  g_bitmap : ∀ g b, 0 ≤ g < groupCnt i → bitmap_block g b → 0 ≤ b < nblocks ∧ ¬ gd_block b;
  g_inj : ∀ g g' b, 0 ≤ g < groupCnt i → 0 ≤ g' < groupCnt i →
    bitmap_block g b → bitmap_block g' b → g = g' }.

Hypothesis G : geometry.

Definition blk (s : St) (n : Z) : option bytes := bs_view s (8 * n).

Record vol_ok (s : St) : Prop := VolOk {
  v_inv : bs_inv s;
  v_blk : ∀ n, 0 ≤ n < nblocks → is_Some (blk s n) }.

(** The bit of block [n] in the bitmap of its group. *)
Definition used (s : St) (n : Z) : bool :=
  match desc i !! Z.to_nat (n / 32768) with
  | Some d => match blk s (blockBitmapAddr d) with
              | Some bm => bit_set bm (n mod 32768)
              | None => false
              end
  | None => false
  end.

(** The counter of free blocks of a group. *)
Definition free_cnt (s : St) (g : Z) : option Z :=
  (λ d, le16 d (g mod 128 * 32 + gd_freeBlockCnt)) <$> blk s (1 + g / 128).

(** The state went on: buffers stay, and the blocks that are there. *)
Definition keeps (s s' : St) : Prop :=
  bs_inv s' ∧ (∀ n, bs_view s' n = bs_view s n) ∧ (∀ x n, bs_at s x n → bs_at s' x n).

Lemma vkeeps_refl s : bs_inv s → keeps s s.
Proof. done. Qed.
Lemma vkeeps_trans s1 s2 s3 : keeps s1 s2 → keeps s2 s3 → keeps s1 s3.
Proof. intros (_ & V1 & A1) (I2 & V2 & A2). split_and!; [done|intros; by rewrite V2, V1|auto]. Qed.
Lemma keeps_vol s s' : keeps s s' → vol_ok s → vol_ok s'.
Proof. intros (I & V & _) [_ Hb]. split; [done|]. intros n Hn. unfold blk. rewrite V. by apply Hb. Qed.
Lemma keeps_changed s s1 s2 no d : keeps s s1 → changed s1 no d s2 → changed s no d s2.
Proof. intros (_ & V1 & A1) (I2 & A2 & V2). split_and!; [done|auto|]. intros n. by rewrite V2, V1. Qed.
Lemma changed_keeps s s1 s2 no d : changed s no d s1 → keeps s1 s2 → changed s no d s2.
Proof. intros (_ & A1 & V1) (I2 & V2 & A2). split_and!; [done|auto|]. intros n. by rewrite V2, V1. Qed.
Lemma keeps_free s s' g : keeps s s' → free_cnt s' g = free_cnt s g.
Proof. intros (_ & V & _). unfold free_cnt, blk. by rewrite V. Qed.
Lemma keeps_used s s' n : keeps s s' → used s' n = used s n.
Proof. intros (_ & V & _). unfold used, blk. destruct (_ !! _); [by rewrite V|done]. Qed.

Lemma lba n : 0 ≤ n < nblocks → EXT2_BLOCK2LBA (sb i) n = 8 * n.
Proof.
  intros Hn. unfold EXT2_BLOCK2LBA. rewrite (g_bs G). change (4096 / SECTOR_SIZE) with 8.
  apply u32_small. unfold nblocks in Hn. pose proof (g_cnt G). lia.
Qed.

Lemma wp_block_read s n : vol_ok s → 0 ≤ n < nblocks →
  wp (ext2_block_read n (sb i)) (λ b s', keeps s s' ∧ bs_at s' b (8 * n)) s.
Proof.
  intros Hv Hn. unfold ext2_block_read. rewrite lba by done.
  eapply wp_mono; [apply bs_read_ok; [apply Hv|by apply (v_blk s Hv)]|].
  intros b s' (I & V & A & A'). by split_and!.
Qed.

Lemma gd_in g : 0 ≤ g < groupCnt i → gd_block (1 + g / 128) ∧ 0 ≤ 1 + g / 128 < nblocks.
Proof.
  intros Hg. pose proof (g_cnt G). unfold gd_block, nblocks.
  assert (g / 128 ≤ (groupCnt i - 1) / 128) by (apply Z.div_le_mono; lia).
  assert (0 ≤ g / 128 < 8) by (split; [apply Z.div_pos|apply Z.div_lt_upper_bound]; lia). lia.
Qed.

Lemma wp_get_raw_gd s g : vol_ok s → 0 ≤ g < groupCnt i →
  wp (get_raw_gd g (sb i)) (λ p s', keeps s s' ∧ bs_at s' (fst p) (8 * (1 + g / 128)) ∧
    snd p = g mod 128 * 32) s.
Proof.
  intros Hv Hg. destruct (gd_in g Hg) as [_ Hb]. unfold get_raw_gd, DESCRIPTOR_BID, DESCRIPTOR_OFFSET, DESCRIPTOR_PER_BLOCK.
  rewrite (g_bs G). change (4096 / sizeof_gd) with 128. rewrite u32_small by (unfold nblocks in Hb; pose proof (g_cnt G); lia).
  wp_step. eapply wp_mono; [by apply wp_block_read|]. intros b s' [Hk Ha]. by apply wp_ret.
Qed.

(** Reading a group's counter. *)
Lemma wp_load_free s g buf : vol_ok s → 0 ≤ g < groupCnt i → bs_at s buf (8 * (1 + g / 128)) →
  ∃ v d, blk s (1 + g / 128) = Some d ∧ v = le16 d (g mod 128 * 32 + gd_freeBlockCnt) ∧
    bs_load16 buf (g mod 128 * 32 + gd_freeBlockCnt) s = Ok (v, s) ∧ free_cnt s g = Some v ∧ 0 ≤ v < 2 ^ 16.
Proof.
  intros Hv Hg Ha. destruct (gd_in g Hg) as [_ Hb]. destruct (v_blk s Hv _ Hb) as [d Hd].
  pose proof (Z.mod_pos_bound g 128 ltac:(lia)). eexists _, d. split_and!; [done|done| | |..].
  - eapply bs_load16_ok; [apply Hv|done|done|unfold gd_freeBlockCnt; lia|].
    unfold gd_freeBlockCnt, BUF_SIZE, PAGE_SIZE. lia.
  - unfold free_cnt. by rewrite Hd.
  - apply le16_range. eapply bs_page; [apply Hv|done].
  - apply le16_range. eapply bs_page; [apply Hv|done].
Qed.

Lemma wp_read_free {A} s g (K : Z → M St A) Q : vol_ok s → 0 ≤ g < groupCnt i →
  (∀ v s', keeps s s' → free_cnt s g = Some v → 0 ≤ v < 2 ^ 16 → wp (K v) Q s') →
  wp ('(buf, off) ← get_raw_gd g (sb i); free ← bs_load16 buf (off + gd_freeBlockCnt); K free) Q s.
Proof.
  intros Hv Hg HK. wp_step. eapply wp_mono; [by apply wp_get_raw_gd|].
  intros [buf off] s1 (Hk & Ha & Ho). simpl in *. subst off.
  destruct (wp_load_free s1 g buf) as (v & d & _ & _ & El & Ef & Hr); [by eapply keeps_vol|done|done|].
  wp_step. eapply wp_intro; [done|]. apply HK; [done| |done]. by rewrite <-(keeps_free s s1).
Qed.

(** ** Choosing a group *)

(** The chosen group of an empty inode has the fewest free blocks. *)
Lemma wp_min_group n g best min s : vol_ok s → 0 ≤ g → g + Z.of_nat n = groupCnt i →
  match best with
  | Some g0 => 0 ≤ g0 < g ∧ free_cnt s g0 = Some min ∧ ∀ g', 0 ≤ g' < g → ∃ v, free_cnt s g' = Some v ∧ min ≤ v
  | None => g = 0 ∧ min = 0xffffffff
  end →
  wp (min_group i n g best min) (λ r s', keeps s s' ∧ ∃ g0 v0, r = Some g0 ∧ 0 ≤ g0 < groupCnt i ∧
    free_cnt s g0 = Some v0 ∧ ∀ g', 0 ≤ g' < groupCnt i → ∃ v, free_cnt s g' = Some v ∧ v0 ≤ v) s.
Proof.
  revert g best min s. induction n as [|n IH]; intros g best min s Hv Hg Hn Hb; simpl.
  - apply wp_ret. split; [apply vkeeps_refl, Hv|]. destruct best as [g0|]; [|pose proof (g_cnt G); lia].
    destruct Hb as (? & ? & Hb). exists g0, min. split_and!; [done|lia|lia|done|]. intros g' Hg'. apply Hb. lia.
  - apply wp_read_free; [done|lia|]. intros v s1 Hk Hf Hr.
    destruct (Z.ltb_spec v min); (eapply wp_mono; [apply IH; [by eapply keeps_vol|lia|lia|]|]).
    + rewrite !(keeps_free s s1) by done. split_and!; [lia|lia|done|]. intros g' Hg'. rewrite (keeps_free s s1) by done.
      destruct (Z.eq_dec g' g) as [->|]; [exists v; split; [done|lia]|].
      destruct best as [g0|]; [|lia]. destruct Hb as (_ & _ & Hb). destruct (Hb g') as (w & ? & ?); [lia|].
      exists w. split; [done|lia].
    + intros r s2 (Hk2 & g0 & v0 & -> & ? & Hf0 & Hmin). split; [by eapply vkeeps_trans|].
      exists g0, v0. rewrite (keeps_free s s1) in Hf0 by done. split_and!; [done|lia|lia|done|].
      intros g' Hg'. rewrite <-(keeps_free s s1) by done. by apply Hmin.
    + destruct best as [g0|]; [|exfalso; destruct Hb as [_ ->]; lia].
      destruct Hb as (? & Hf0 & Hb). rewrite (keeps_free s s1) by done. split_and!; [lia|lia|done|].
      intros g' Hg'. rewrite (keeps_free s s1) by done.
      destruct (Z.eq_dec g' g) as [->|]; [by exists v|]. apply Hb. lia.
    + intros r s2 (Hk2 & g0 & v0 & -> & ? & Hf0 & Hmin). split; [by eapply vkeeps_trans|].
      exists g0, v0. rewrite (keeps_free s s1) in Hf0 by done. split_and!; [done|lia|lia|done|].
      intros g' Hg'. rewrite <-(keeps_free s s1) by done. by apply Hmin.
Qed.

(** The number of groups from [g0] on to [g], around the end. *)
Definition dist (g0 g : Z) : Z := if g0 <=? g then g - g0 else g - g0 + groupCnt i.

(** The first group from [g0] on with a free block, or [g0] when there is none. *)
Lemma wp_next_group s g0 : vol_ok s → 0 ≤ g0 < groupCnt i →
  wp (next_group i g0) (λ g s', keeps s s' ∧ 0 ≤ g < groupCnt i ∧
    ((∃ v, free_cnt s g = Some v ∧ v ≠ 0 ∧
        ∀ g', 0 ≤ g' < groupCnt i → dist g0 g' < dist g0 g → free_cnt s g' = Some 0)
     ∨ g = g0 ∧ ∀ g', 0 ≤ g' < groupCnt i → free_cnt s g' = Some 0)) s.
Proof.
  intros Hv Hg0. unfold next_group. pose proof (g_cnt G) as Hcnt.
  eapply (wp_loop (λ g s1, keeps s s1 ∧ 0 ≤ g < groupCnt i ∧
    ∀ g', 0 ≤ g' < groupCnt i → dist g0 g' < dist g0 g → free_cnt s g' = Some 0)
    (λ g _, Z.to_nat (groupCnt i - dist g0 g))).
  - intros g s1 (Hk & Hg & Hz). apply wp_read_free; [by eapply keeps_vol|done|].
    intros v s2 Hk2 Hf _. rewrite (keeps_free s s1) in Hf by done.
    pose proof (vkeeps_trans _ _ _ Hk Hk2) as Hk'.
    destruct (Z.eqb_spec v 0) as [->|Hv0]; simpl; apply wp_ret; [|split_and!; [done|lia|lia|left; by exists v]].
    assert (u32 (g + 1) mod groupCnt i = if g + 1 =? groupCnt i then 0 else g + 1) as ->.
    { rewrite u32_small by lia. destruct (Z.eqb_spec (g + 1) (groupCnt i)) as [->|]; [by apply Z.mod_same; lia|].
      apply Z.mod_small. lia. }
    assert (∀ g', 0 ≤ g' < groupCnt i → dist g0 g' ≤ dist g0 g → free_cnt s g' = Some 0) as Hz'.
    { intros g' Hg' Hd. destruct (Z.eq_dec g' g) as [->|]; [done|]. apply Hz; [done|].
      unfold dist in *. destruct (Z.leb_spec g0 g), (Z.leb_spec g0 g'); lia. }
    destruct (Z.eqb_spec g0 (if g + 1 =? groupCnt i then 0 else g + 1)) as [E|E].
    + split; [done|]. rewrite <-E. split; [done|]. right. split; [done|]. intros g' Hg'. apply Hz'; [done|].
      unfold dist. destruct (Z.eqb_spec (g + 1) (groupCnt i)), (Z.leb_spec g0 g), (Z.leb_spec g0 g'); lia.
    + split; [split_and!; [done|..]|].
      * destruct (Z.eqb_spec (g + 1) (groupCnt i)); lia.
      * destruct (Z.eqb_spec (g + 1) (groupCnt i)); lia.
      * intros g' Hg' Hd. apply Hz'; [done|]. unfold dist in *.
        destruct (Z.eqb_spec (g + 1) (groupCnt i)), (Z.leb_spec g0 g), (Z.leb_spec g0 g'), (Z.leb_spec g0 (g + 1)), (Z.leb_spec g0 0); lia.
      * unfold dist. destruct (Z.eqb_spec (g + 1) (groupCnt i)), (Z.leb_spec g0 g), (Z.leb_spec g0 (g + 1)), (Z.leb_spec g0 0); lia.
  - split_and!; [apply vkeeps_refl, Hv|lia|lia|]. intros g' Hg' Hd. unfold dist in Hd.
    destruct (Z.leb_spec g0 g0), (Z.leb_spec g0 g'); lia.
  - unfold dist. destruct (Z.leb_spec g0 g0); lia.
Qed.

(** ** The bitmap search *)

Lemma wp_next_zero n map no d s k : bs_inv s → bs_at s map no → bs_view s no = Some d →
  0 ≤ k → k + Z.of_nat n ≤ BUF_SIZE →
  wp (next_zero_loop n map k) (λ r s',
    (r = -1 ∧ s' = s ∧ ∀ j, 8 * k ≤ j < 8 * (k + Z.of_nat n) → bit_set d j = true) ∨
    (8 * k ≤ r < 8 * (k + Z.of_nat n) ∧ bit_set d r = false ∧
     (∀ j, 8 * k ≤ j < r → bit_set d j = true) ∧ changed s no (with_bit d r) s')) s.
Proof.
  intros Hi Ha Hd. revert k. induction n as [|n IH]; intros k Hk Hn; simpl.
  { apply wp_ret. left. split_and!; [done|done|]. intros j Hj. lia. }
  wp_step. eapply wp_intro; [eapply bs_load_ok; [done..|lia]|].
  pose proof (bs_page s no d Hi Hd) as Hp. pose proof (byte_at_range d k Hp) as Hr.
  assert (∀ m, 0 ≤ m < 8 → bit_set d (8 * k + m) = Z.testbit (byte_at d k) m) as Hbit.
  { intros m Hm. unfold bit_set. replace ((8 * k + m) / 8) with k by (Z.div_mod_to_equations; lia).
    by replace ((8 * k + m) mod 8) with m by (Z.div_mod_to_equations; lia). }
  destruct (Z.eqb_spec (byte_at d k) 255) as [E|E]; simpl.
  - eapply wp_mono; [apply IH; lia|].
    assert (∀ j, 8 * k ≤ j < 8 * (k + 1) → bit_set d j = true) as Hff.
    { intros j Hj. replace j with (8 * k + (j - 8 * k)) by lia. rewrite Hbit, E by lia.
      change 255 with (Z.ones 8). apply Z.ones_spec_low. lia. }
    intros r s' [(-> & -> & H)|(Hr' & Hb & Hl & Hc)]; [left|right].
    + split_and!; [done|done|]. intros j Hj. destruct (Z.lt_ge_cases j (8 * (k + 1))); [apply Hff|apply H]; lia.
    + split_and!; [lia|lia|done| |done]. intros j Hj. destruct (Z.lt_ge_cases j (8 * (k + 1))); [apply Hff|apply Hl]; lia.
  - destruct (get_clear_bit_spec (byte_at d k) Hr E) as (Hg & Hc & Hlow). set (m := get_clear_bit _) in *.
    wp_step. eapply wp_mono; [eapply wp_bs_store; [done..|lia]|]. intros [] s' Hch. apply wp_ret. right.
    replace (m + Z.shiftl k 3) with (8 * k + m) by (rewrite Z.shiftl_mul_pow2 by lia; change (2 ^ 3) with 8; lia).
    split_and!; [lia|lia|by rewrite Hbit| |].
    + intros j Hj. replace j with (8 * k + (j - 8 * k)) by lia. rewrite Hbit by lia.
      rewrite Forall_forall in Hlow. apply Hlow, elem_of_seqZ. lia.
    + unfold with_bit. replace ((8 * k + m) / 8) with k by (Z.div_mod_to_equations; lia).
      by replace ((8 * k + m) mod 8) with m by (Z.div_mod_to_equations; lia).
Qed.

(** ** Taking a block *)

(** [find_group] has a place to start from. *)
Definition anchored (x : inode_info) : Prop :=
  blockCnt x = 0 ∨ ∃ b0, blocks x !! 0%nat = Some b0 ∧ b0 ≠ 0 ∧ 0 ≤ b0 < nblocks.

(** The group the allocation policy picks. *)
Definition picked (s : St) (x : inode_info) (g : Z) : Prop :=
  0 ≤ g < groupCnt i ∧
  (blockCnt x = 0 → ∃ v0, free_cnt s g = Some v0 ∧
     ∀ g', 0 ≤ g' < groupCnt i → ∃ v, free_cnt s g' = Some v ∧ v0 ≤ v) ∧
  (blockCnt x ≠ 0 → ∀ b0, blocks x !! 0%nat = Some b0 →
     (∃ v, free_cnt s g = Some v ∧ v ≠ 0 ∧ ∀ g', 0 ≤ g' < groupCnt i →
        dist (b0 / 32768) g' < dist (b0 / 32768) g → free_cnt s g' = Some 0)
     ∨ g = b0 / 32768 ∧ ∀ g', 0 ≤ g' < groupCnt i → free_cnt s g' = Some 0).

Lemma wp_on_store {A} (m : M St A) Q (f : @fs St) :
  wp m (λ a s, Q a (Fs s (info f))) (store f) → wp (on_store m) Q f.
Proof. intros H. unfold on_store. by apply wp_zoom. Qed.

Lemma wp_find_group f : vol_ok (store f) → anchored (info f) →
  wp (find_group i) (λ g f', ∃ s', f' = Fs s' (info f) ∧ keeps (store f) s' ∧ picked (store f) (info f) g) f.
Proof.
  intros Hv Ha. unfold find_group. do 2 wp_step. destruct (Z.eqb_spec (blockCnt (info f)) 0) as [E|E].
  - wp_step. apply wp_on_store. eapply wp_mono.
    { apply wp_min_group; [done|lia| |done]. pose proof (g_cnt G). lia. }
    intros r s' (Hk & g & v0 & -> & Hg & Hf & Hm). wp_step; [done|]. exists s'. split_and!; [done..|].
    split_and!; [lia|lia|eauto|]. intros ?. lia.
  - destruct Ha as [|(b0 & Hb & Hb0 & Hr)]; [done|]. wp_step. wp_step; [done|]. wp_step. apply wp_assertk.
    split; [by apply truth_true|]. apply wp_on_store. rewrite (g_bpg G).
    assert (0 ≤ b0 / 32768 < groupCnt i) as Hg0.
    { unfold nblocks in Hr. split; [apply Z.div_pos|apply Z.div_lt_upper_bound]; lia. }
    eapply wp_mono; [by apply wp_next_group|]. intros g s' (Hk & Hg & Hp). exists s'. split_and!; [done..|].
    split_and!; [lia|lia|lia|]. intros _ b0' Hb'. rewrite Hb in Hb'. injection Hb' as <-. done.
Qed.

Lemma wp_mark_keeps s b no : bs_inv s → bs_at s b no → wp (bs_mark b) (λ _ s', keeps s s') s.
Proof.
  intros. eapply wp_mono; [by eapply bs_mark_ok|]. intros [] s' (? & ? & Ha). split_and!; [done..|].
  intros. by apply Ha.
Qed.

Definition bitmap (s : St) (g : Z) : option bytes :=
  d ← desc i !! Z.to_nat g; blk s (blockBitmapAddr d).

(** From [s] to [s'] the block [bid] was taken: its bit, the first clear one of its
    group, is set, its group's counter went down by one, every other block that is
    not a bitmap or a descriptor block is as before. *)
Record taken (s s' : St) (bid : Z) : Prop := Taken {
  t_vol : vol_ok s';
  t_range : 0 ≤ bid < nblocks;
  t_free : used s bid = false;
  t_first : ∀ n, n / 32768 = bid / 32768 → 0 ≤ n < bid → used s n = true;
  t_used : ∀ n, 0 ≤ n < nblocks → used s' n = used s n || (n =? bid);
  t_cnt : ∀ g, 0 ≤ g < groupCnt i → ∃ v, free_cnt s g = Some v ∧
    free_cnt s' g = Some (if g =? bid / 32768 then u16 (v - 1) else v);
  t_blk : ∀ n, 0 ≤ n < nblocks → ¬ meta n → blk s' n = blk s n;
  t_at : ∀ x n, bs_at s x n → bs_at s' x n }.

(** The view after the bitmap page [bm'] and the descriptor page [d'] were replaced. *)
Definition two_pages (s s' : St) (a : Z) (bm' : bytes) (gb : Z) (d' : bytes) : Prop :=
  ∀ n, bs_view s' n = if decide (n = 8 * gb) then Some d' else if decide (n = 8 * a) then Some bm' else bs_view s n.

Lemma used_in n : 0 ≤ n < nblocks → ∃ d, desc i !! Z.to_nat (n / 32768) = Some d ∧ 0 ≤ n / 32768 < groupCnt i.
Proof.
  intros Hn. unfold nblocks in Hn.
  assert (0 ≤ n / 32768 < groupCnt i) as Hg by (split; [apply Z.div_pos|apply Z.div_lt_upper_bound]; lia).
  destruct (lookup_lt_is_Some_2 (desc i) (Z.to_nat (n / 32768))) as [d Hd]; [rewrite (g_desc G); lia|]. eauto.
Qed.

(** The bitmap page of group [g] was replaced by [bm'] and the counter by [v']. *)
Section pages.
Context (s s' : St) (g : Z) (dsc : info_descriptor) (bm' gdp : bytes) (v' : Z).
Hypothesis Hv : vol_ok s.
Hypothesis Hg : 0 ≤ g < groupCnt i.
Hypothesis Hdsc : desc i !! Z.to_nat g = Some dsc.
Hypothesis Hgd : blk s (1 + g / 128) = Some gdp.
Hypothesis Hi' : bs_inv s'.
Hypothesis Hview : two_pages s s' (blockBitmapAddr dsc) bm' (1 + g / 128)
  (put16 gdp (g mod 128 * 32 + gd_freeBlockCnt) (u16 v')).

Lemma pages_bitmap : bitmap_block g (blockBitmapAddr dsc).
Proof. by exists dsc. Qed.

Lemma pages_other n : n ≠ blockBitmapAddr dsc → n ≠ 1 + g / 128 → blk s' n = blk s n.
Proof. intros ??. unfold blk. rewrite Hview, !decide_False by lia. done. Qed.

Lemma pages_bm : blk s' (blockBitmapAddr dsc) = Some bm'.
Proof.
  unfold blk. rewrite Hview. rewrite decide_False, decide_True; [done..|].
  destruct (g_bitmap G g _ Hg pages_bitmap) as [_ Hn]. destruct (gd_in g Hg) as [Hgb _]. intros E.
  apply Hn. by replace (blockBitmapAddr dsc) with (1 + g / 128) by lia.
Qed.

Lemma pages_vol : vol_ok s'.
Proof.
  split; [done|]. intros n Hn. unfold blk. rewrite Hview. do 2 (case_decide; [eauto|]). by apply (v_blk s Hv).
Qed.

Lemma pages_used n : 0 ≤ n < nblocks →
  used s' n = if n / 32768 =? g then bit_set bm' (n mod 32768) else used s n.
Proof.
  intros Hn. destruct (used_in n Hn) as (d & Hd & Hgn). unfold used. rewrite Hd.
  destruct (Z.eqb_spec (n / 32768) g) as [E|E].
  - rewrite E, Hdsc in Hd. injection Hd as <-. by rewrite pages_bm.
  - assert (bitmap_block (n / 32768) (blockBitmapAddr d)) as Hbb by by exists d.
    rewrite pages_other; [done|..].
    + intros Eb. apply E, (g_inj G _ _ (blockBitmapAddr d)); [done..|]. rewrite Eb. apply pages_bitmap.
    + intros Eb. destruct (g_bitmap G _ _ Hgn Hbb) as [_ Hn']. apply Hn'. rewrite Eb. by apply gd_in.
Qed.

Lemma pages_cnt g' : 0 ≤ g' < groupCnt i →
  free_cnt s' g' = if g' =? g then Some (u16 v') else free_cnt s g'.
Proof.
  intros Hg'. destruct (bs_page s _ gdp (v_inv s Hv) Hgd) as [Hlen _].
  pose proof (Z.mod_pos_bound g 128 ltac:(lia)). pose proof (Z.mod_pos_bound g' 128 ltac:(lia)).
  unfold BUF_SIZE, PAGE_SIZE in Hlen. unfold free_cnt.
  destruct (Z.eq_dec (g' / 128) (g / 128)) as [E|E].
  - rewrite E, Hgd. unfold blk. rewrite Hview, decide_True by done. simpl. unfold gd_freeBlockCnt in *.
    destruct (Z.eqb_spec g' g) as [->|Hne]; f_equal.
    + rewrite le16_put16 by lia. unfold u16. by rewrite Z.mod_mod by lia.
    + unfold le16. rewrite !byte_put16_ne; [done|Z.div_mod_to_equations; lia..].
  - replace (g' =? g) with false by (symmetry; apply Z.eqb_neq; congruence).
    rewrite pages_other; [done| |lia].
    intros Eb. destruct (g_bitmap G g _ Hg pages_bitmap) as [_ Hn]. apply Hn. rewrite <-Eb. by apply gd_in.
Qed.

Lemma pages_blk n : 0 ≤ n < nblocks → ¬ meta n → blk s' n = blk s n.
Proof.
  intros Hn Hm. apply pages_other; intros ->; apply Hm; [right|left; by apply gd_in].
  exists g. split; [done|apply pages_bitmap].
Qed.
End pages.

Lemma group_bit bit g : 0 ≤ bit < 32768 → (bit + g * 32768) / 32768 = g ∧ (bit + g * 32768) mod 32768 = bit.
Proof. intros. split; Z.div_mod_to_equations; lia. Qed.

Lemma free_some s g gdp : blk s (1 + g / 128) = Some gdp →
  free_cnt s g = Some (le16 gdp (g mod 128 * 32 + gd_freeBlockCnt)).
Proof. intros E. unfold free_cnt. by rewrite E. Qed.

Lemma free_is_some s g : vol_ok s → 0 ≤ g < groupCnt i → ∃ v, free_cnt s g = Some v.
Proof.
  intros Hv Hg. destruct (gd_in g Hg) as [_ Hb]. destruct (v_blk s Hv _ Hb) as [d Hd]. unfold free_cnt. rewrite Hd. simpl. eauto.
Qed.

Lemma take_ok s s' g bit dsc bm gdp v : vol_ok s → 0 ≤ g < groupCnt i →
  desc i !! Z.to_nat g = Some dsc → blk s (blockBitmapAddr dsc) = Some bm → blk s (1 + g / 128) = Some gdp →
  v = le16 gdp (g mod 128 * 32 + gd_freeBlockCnt) → 0 ≤ bit < 4096 → bit_set bm bit = false →
  (∀ j, 0 ≤ j < bit → bit_set bm j = true) → bs_inv s' → (∀ x n, bs_at s x n → bs_at s' x n) →
  two_pages s s' (blockBitmapAddr dsc) (with_bit bm bit) (1 + g / 128)
    (put16 gdp (g mod 128 * 32 + gd_freeBlockCnt) (u16 (v - 1))) →
  taken s s' (bit + g * 32768).
Proof.
  intros Hv Hg Hdsc Hbm Hgd Ev Hbit Hfree Hlow Hi' Hat' Hview. destruct (group_bit bit g) as [Hb1 Hb2]; [lia|].
  pose proof (bs_page _ _ _ (v_inv _ Hv) Hbm) as Hpg.
  assert (∀ n, n / 32768 = g → used s n = bit_set bm (n mod 32768)) as Hus.
  { intros n E. unfold used. by rewrite E, Hdsc, Hbm. }
  split.
  - by eapply pages_vol.
  - unfold nblocks. lia.
  - by rewrite Hus, Hb2.
  - rewrite Hb1. intros n En Hn. rewrite Hus by done. apply Hlow.
    split; [apply Z.mod_pos_bound; lia|]. Z.div_mod_to_equations. lia.
  - intros n Hn. rewrite (pages_used s s' g dsc (with_bit bm bit) gdp (v - 1)) by done. destruct (Z.eqb_spec (n / 32768) g) as [E|E].
    + rewrite Hus by done. rewrite bit_set_with; [|done|unfold BUF_SIZE, PAGE_SIZE; lia|apply Z.mod_pos_bound; lia].
      f_equal. apply eq_true_iff_eq. rewrite !Z.eqb_eq. Z.div_mod_to_equations. lia.
    + replace (n =? bit + g * 32768) with false by (symmetry; apply Z.eqb_neq; congruence). by rewrite orb_false_r.
  - intros g' Hg'. rewrite Hb1. rewrite (pages_cnt s s' g dsc (with_bit bm bit) gdp (v - 1)) by done. destruct (Z.eqb_spec g' g) as [->|].
    + exists v. by rewrite (free_some s g gdp), Ev.
    + destruct (free_is_some s g' Hv Hg') as [w Hw]. by exists w.
  - intros n Hn Hm. by eapply pages_blk.
  - done.
Qed.

Lemma bitmap_some s g : vol_ok s → 0 ≤ g < groupCnt i →
  ∃ d bm, desc i !! Z.to_nat g = Some d ∧ blk s (blockBitmapAddr d) = Some bm ∧ bitmap s g = Some bm ∧
    0 ≤ blockBitmapAddr d < nblocks.
Proof.
  intros Hv Hg. destruct (lookup_lt_is_Some_2 (desc i) (Z.to_nat g)) as [d Hd]; [rewrite (g_desc G); lia|].
  destruct (g_bitmap G g (blockBitmapAddr d) Hg) as [Hr _]; [by exists d|].
  destruct (v_blk s Hv _ Hr) as [bm Hbm]. exists d, bm. unfold bitmap. by rewrite Hd.
Qed.

(** The search looks at the first [blockSize / 8] bytes of the bitmap, the first 4096
    of the group's 32768 blocks. *)
Definition searched_full (s : St) (g : Z) : Prop :=
  ∀ bm, bitmap s g = Some bm → ∀ j, 0 ≤ j < 4096 → bit_set bm j = true.

(** What follows the search in [set_block_bitmap]. *)
Lemma wp_take_rest f s3 g r b d bm : vol_ok (store f) → 0 ≤ g < groupCnt i →
  desc i !! Z.to_nat g = Some d → blk (store f) (blockBitmapAddr d) = Some bm →
  0 ≤ r < 4096 → bit_set bm r = false → (∀ j, 0 ≤ j < r → bit_set bm j = true) →
  changed (store f) (8 * blockBitmapAddr d) (with_bit bm r) s3 → bs_at s3 b (8 * blockBitmapAddr d) →
  wp ('(buf, off) ← on_store (get_raw_gd g (sb i));
      free ← on_store (bs_load16 buf (off + gd_freeBlockCnt));
      on_store (bs_store16 buf (off + gd_freeBlockCnt) (u16 (free - 1)));;
      on_store (bs_mark buf);;
      on_store (bs_mark b);;
      mret (u32 (r + g * blockPerGroup i)))
    (λ bid f', bid / 32768 = g ∧ info f' = info f ∧ taken (store f) (store f') bid) (Fs s3 (info f)).
Proof.
  intros Hv Hg Hd Hbm Hr Hclr Hlow Hch Hab.
  destruct (g_bitmap G g (blockBitmapAddr d) Hg) as [Ha Hngd]; [by exists d|]. destruct (gd_in g Hg) as [Hgb Hgr].
  assert (8 * (1 + g / 128) ≠ 8 * blockBitmapAddr d) as Hne.
  { intros E. apply Hngd. by replace (blockBitmapAddr d) with (1 + g / 128) by lia. }
  assert (vol_ok s3) as Hv3.
  { split; [by eapply changed_inv|]. intros n Hn. unfold blk. rewrite (proj2 (proj2 Hch)).
    case_decide; [eauto|by apply (v_blk _ Hv)]. }
  wp_step. apply wp_on_store. simpl. eapply wp_mono; [by apply wp_get_raw_gd|].
  intros [buf off] s4 (Hk4 & Hbuf & Hoff). simpl in *. subst off. pose proof (keeps_vol _ _ Hk4 Hv3) as Hv4.
  destruct (wp_load_free s4 g buf Hv4 Hg Hbuf) as (v & gdp & Hgd & Ev & El & _ & _).
  wp_step. apply wp_on_store. simpl. eapply wp_intro; [exact El|].
  pose proof (Z.mod_pos_bound g 128 ltac:(lia)).
  wp_step. apply wp_on_store. simpl. eapply wp_mono.
  { eapply wp_bs_store16; [apply Hv4|exact Hbuf|exact Hgd|unfold gd_freeBlockCnt; lia|].
    unfold gd_freeBlockCnt, BUF_SIZE, PAGE_SIZE. lia. }
  intros [] s5 Hch5. pose proof (changed_inv _ _ _ _ Hch5) as Hi5.
  wp_step. apply wp_on_store. simpl. eapply wp_mono.
  { eapply wp_mark_keeps; [done|]. eapply changed_at; [exact Hch5|exact Hbuf]. }
  intros [] s6 Hk6. wp_step. apply wp_on_store. simpl. eapply wp_mono.
  { eapply wp_mark_keeps; [apply Hk6|]. apply Hk6. eapply changed_at; [exact Hch5|]. apply Hk4. exact Hab. }
  intros [] s7 Hk7. apply wp_ret. simpl. rewrite (g_bpg G), u32_small by (unfold nblocks in *; pose proof (g_cnt G); lia).
  split; [Z.div_mod_to_equations; lia|]. split; [done|].
  pose proof (changed_keeps _ _ _ _ _ Hch5 (vkeeps_trans _ _ _ Hk6 Hk7)) as Hch7.
  assert (blk (store f) (1 + g / 128) = Some gdp) as Hgd0.
  { unfold blk in *. rewrite (proj1 (proj2 Hk4)), (changed_ne _ _ _ _ _ Hch) in Hgd by done. done. }
  eapply (take_ok (store f) s7 g r d bm gdp v); try done; [apply Hk7| |].
  - intros x n Hx. eapply changed_at; [exact Hch7|]. apply Hk4. eapply changed_at; [exact Hch|done].
  - intros n. rewrite (proj2 (proj2 Hch7)). case_decide as E1; [by subst|].
    rewrite (proj1 (proj2 Hk4)), (proj2 (proj2 Hch)). done.
Qed.

(** After the search, the rest of [set_block_bitmap] cannot fail. *)
Lemma wp_set_block_bitmap f : vol_ok (store f) → anchored (info f) →
  ∃ g, picked (store f) (info f) g ∧
    ((searched_full (store f) g ∧ set_block_bitmap i f = Err Assert) ∨
     wp (set_block_bitmap i) (λ bid f', bid / 32768 = g ∧ info f' = info f ∧ taken (store f) (store f') bid) f).
Proof.
  intros Hv Ha. destruct (wp_elim _ _ _ (wp_find_group f Hv Ha)) as (g & f1 & E1 & s1 & -> & Hk1 & Hp).
  exists g. split; [done|]. destruct Hp as [Hg _].
  destruct (bitmap_some (store f) g Hv Hg) as (d & bm & Hd & Hbm & Hbg & Hr).
  pose proof (keeps_vol _ _ Hk1 Hv) as Hv1.
  destruct (wp_elim _ _ _ (wp_block_read s1 _ Hv1 Hr)) as (b & s2 & E2 & Hk2 & Hab).
  pose proof (keeps_vol _ _ Hk2 Hv1) as Hv2. pose proof (vkeeps_trans _ _ _ Hk1 Hk2) as Hk12.
  assert (blk s2 (blockBitmapAddr d) = Some bm) as Hbm2 by (unfold blk; by rewrite (proj1 (proj2 Hk12))).
  destruct (wp_elim _ _ _ (wp_next_zero 512 b _ bm s2 0 (v_inv _ Hv2) Hab Hbm2 ltac:(lia) ltac:(done)))
    as (r & s3 & E3 & Hcase).
  assert (Z.to_nat (blockSize (sb i) / 8) = 512%nat) as E512 by (by rewrite (g_bs G)).
  destruct Hcase as [(-> & -> & Hfull)|(Hbit & Hclr & Hlow & Hch)]; [left|right].
  - split; [intros bm' Hb' j Hj; rewrite Hbg in Hb'; injection Hb' as <-; apply Hfull; lia|].
    unfold set_block_bitmap. rewrite (bind_Ok _ _ _ _ _ E1). rewrite Hd. simpl.
    erewrite bind_Ok by (unfold deref; done).
    erewrite (bind_Ok (on_store _)); [|unfold on_store, zoom; simpl; by rewrite E2].
    erewrite (bind_Ok (on_store _)); [|unfold on_store, zoom, set_next_zero_bit; simpl; rewrite E512; by rewrite E3].
    by apply bind_Err.
  - unfold set_block_bitmap. wp_step. eapply wp_intro; [exact E1|]. wp_step. wp_step; [exact Hd|].
    wp_step. apply wp_on_store. eapply wp_intro; [exact E2|]. wp_step. apply wp_on_store.
    unfold set_next_zero_bit. rewrite E512. eapply wp_intro; [exact E3|]. simpl.
    wp_step. apply wp_assertk. split; [destruct (Z.ltb_spec r 0); [lia|done]|].
    apply (wp_take_rest f s3 g r b d bm); [done|done|done|done|lia|done| | |].
    + intros j Hj. apply Hlow. lia.
    + by eapply keeps_changed.
    + by eapply changed_at.
Qed.

(** ** Giving a block back *)

Definition without_bit (d : bytes) (k : Z) : bytes := put8 d (k / 8) (clear_bit (byte_at d (k / 8)) (k mod 8)).

Lemma bit_set_without d k j : is_page d → 0 ≤ k < 8 * BUF_SIZE → 0 ≤ j →
  bit_set (without_bit d k) j = bit_set d j && negb (j =? k).
Proof.
  intros Hp Hk Hj. unfold bit_set, without_bit.
  assert (0 ≤ k / 8 < BUF_SIZE) by (split; [apply Z.div_pos; lia|apply Z.div_lt_upper_bound; lia]).
  pose proof (Z.mod_pos_bound k 8 ltac:(lia)). pose proof (Z.mod_pos_bound j 8 ltac:(lia)).
  pose proof (Z.div_mod k 8 ltac:(lia)). pose proof (Z.div_mod j 8 ltac:(lia)).
  destruct (Z.eq_dec (j / 8) (k / 8)) as [E|E].
  - rewrite E, byte_at_eq by (destruct Hp; lia). rewrite u8_small by (unfold clear_bit; apply u8_range).
    rewrite clear_bit_spec by (try apply byte_at_range; done || lia). do 2 f_equal.
    apply eq_true_iff_eq. rewrite !Z.eqb_eq. lia.
  - rewrite byte_at_ne by (try apply Z.div_pos; lia).
    replace (j =? k) with false by (symmetry; apply Z.eqb_neq; congruence). by rewrite andb_true_r.
Qed.

(** The first half of [clear_block_bitmap]: the counter of the block's group. *)
Lemma clear_count f bid : vol_ok (store f) → 0 ≤ bid < nblocks →
  let g := bid / 32768 in
  ∃ dsc bm gdp v s1 s2 buf b,
    desc i !! Z.to_nat g = Some dsc ∧ 0 ≤ g < groupCnt i ∧
    blk (store f) (blockBitmapAddr dsc) = Some bm ∧ blk (store f) (1 + g / 128) = Some gdp ∧
    v = le16 gdp (g mod 128 * 32 + gd_freeBlockCnt) ∧
    changed (store f) (8 * (1 + g / 128)) (put16 gdp (g mod 128 * 32 + gd_freeBlockCnt) (u16 (v + 1))) s1 ∧
    keeps s1 s2 ∧ bs_at s2 buf (8 * (1 + g / 128)) ∧ bs_at s2 b (8 * blockBitmapAddr dsc) ∧
    clear_block_bitmap i bid f =
      (ch ← on_store (bs_load b (bid / 8));
       on_store (bs_store b (bid / 8) (clear_bit ch (bid mod 8)));;
       on_store (bs_mark buf);;
       on_store (bs_mark b)) (Fs s2 (info f)).
Proof.
  intros Hv Hb g. destruct (used_in bid Hb) as (dsc & Hd & Hg). fold g in Hd, Hg.
  destruct (g_bitmap G g (blockBitmapAddr dsc) Hg) as [Hbr Hngd]; [by exists dsc|].
  destruct (wp_elim _ _ _ (wp_get_raw_gd (store f) g Hv Hg)) as ([buf off] & s0 & E0 & Hk0 & Hbuf & Hoff).
  simpl in Hbuf, Hoff. subst off. pose proof (keeps_vol _ _ Hk0 Hv) as Hv0.
  destruct (wp_load_free s0 g buf Hv0 Hg Hbuf) as (v & gdp & Hgd & Ev & El & _ & _).
  pose proof (Z.mod_pos_bound g 128 ltac:(lia)).
  destruct (wp_elim _ _ _ (wp_bs_store16 s0 buf _ gdp (g mod 128 * 32 + gd_freeBlockCnt) (u16 (v + 1)) (v_inv _ Hv0) Hbuf Hgd
    ltac:(unfold gd_freeBlockCnt; lia) ltac:(unfold gd_freeBlockCnt, BUF_SIZE, PAGE_SIZE; lia))) as ([] & s1 & E1 & Hc1).
  assert (vol_ok s1) as Hv1.
  { split; [by eapply changed_inv|]. intros n Hn. unfold blk. rewrite (proj2 (proj2 Hc1)).
    case_decide; [eauto|by apply (v_blk _ Hv0)]. }
  destruct (wp_elim _ _ _ (wp_block_read s1 _ Hv1 Hbr)) as (b & s2 & E2 & Hk2 & Hbb).
  assert (∀ n, blk s0 n = blk (store f) n) as E0v by (intros n; unfold blk; apply Hk0).
  destruct (v_blk _ Hv _ Hbr) as [bm Hbm].
  exists dsc, bm, gdp, v, s1, s2, buf, b. split_and!; try done; try lia.
  - by rewrite <-E0v.
  - by eapply keeps_changed.
  - apply Hk2. by eapply changed_at.
  - unfold clear_block_bitmap. rewrite (g_bpg G). fold g.
    erewrite bind_Ok; [|unfold on_store, zoom; by rewrite E0]. cbv beta iota.
    erewrite bind_Ok; [|unfold on_store, zoom; simpl; by rewrite El].
    erewrite bind_Ok; [|unfold on_store, zoom; simpl; by rewrite E1].
    erewrite bind_Ok; [|unfold deref; by rewrite Hd].
    erewrite bind_Ok; [|unfold on_store, zoom; simpl; by rewrite E2]. done.
Qed.

(** The second half, for a bit inside the page. *)
Lemma wp_clear_bit s x b buf no no' bm bid : bs_inv s → bs_at s b no → bs_at s buf no' → bs_view s no = Some bm →
  0 ≤ bid < 8 * BUF_SIZE →
  wp (ch ← on_store (bs_load b (bid / 8));
      on_store (bs_store b (bid / 8) (clear_bit ch (bid mod 8)));;
      on_store (bs_mark buf);;
      on_store (bs_mark b)) (λ _ f', info f' = x ∧ changed s no (without_bit bm bid) (store f')) (Fs s x).
Proof.
  intros Hi Hb Hbuf Hbm Hr.
  assert (0 ≤ bid / 8 < BUF_SIZE) as Ho by (split; [apply Z.div_pos; lia|apply Z.div_lt_upper_bound; lia]).
  wp_step. apply wp_on_store. simpl. eapply wp_intro; [by eapply bs_load_ok|].
  wp_step. apply wp_on_store. simpl. eapply wp_mono; [by eapply wp_bs_store|]. intros [] s1 Hc.
  wp_step. apply wp_on_store. simpl.
  eapply wp_mono; [eapply wp_mark_keeps; [by eapply changed_inv|by eapply changed_at]|]. intros [] s2 Hk2.
  apply wp_on_store. simpl.
  eapply wp_mono; [eapply (wp_mark_keeps s2 b no); [apply Hk2|apply Hk2; by eapply changed_at]|]. intros [] s3 Hk3.
  simpl. split; [done|]. eapply changed_keeps; [exact Hc|by eapply vkeeps_trans].
Qed.

(** [clear_block_bitmap] of a block of the first group clears exactly that block's
    bit and adds one to the group's counter.  It indexes the bitmap with the number
    of the block on the volume instead of the one in its group, so for a block of any
    other group it accesses memory behind the bitmap page. *)
Theorem clear_block_bitmap_cases f bid : vol_ok (store f) → 0 ≤ bid < nblocks →
  (bid < 32768 →
     wp (clear_block_bitmap i bid) (λ _ f', info f' = info f ∧
       (∀ n, 0 ≤ n < nblocks → used (store f') n = used (store f) n && negb (n =? bid)) ∧
       (∀ g, 0 ≤ g < groupCnt i → ∃ v, free_cnt (store f) g = Some v ∧
          free_cnt (store f') g = Some (if g =? 0 then u16 (v + 1) else v)) ∧
       (∀ n, 0 ≤ n < nblocks → ¬ meta n → blk (store f') n = blk (store f) n)) f) ∧
  (32768 ≤ bid → clear_block_bitmap i bid f = Err Fault).
Proof.
  intros Hv Hb. destruct (clear_count f bid Hv Hb) as (dsc & bm & gdp & v & s1 & s2 & buf & b & Hd & Hg & Hbm & Hgd &
    Ev & Hc & Hk & Hbuf & Hbb & E). set (g := bid / 32768) in *.
  pose proof (changed_keeps _ _ _ _ _ Hc Hk) as Hc2. pose proof (changed_inv _ _ _ _ Hc2) as Hi2.
  destruct (g_bitmap G g (blockBitmapAddr dsc) Hg) as [Hbr Hngd]; [by exists dsc|]. destruct (gd_in g Hg) as [Hgb _].
  assert (8 * blockBitmapAddr dsc ≠ 8 * (1 + g / 128)) as Hne.
  { intros E'. apply Hngd. by replace (blockBitmapAddr dsc) with (1 + g / 128) by lia. }
  assert (bs_view s2 (8 * blockBitmapAddr dsc) = Some bm) as Hbm2 by (by rewrite (changed_ne _ _ _ _ _ Hc2)).
  split; intros Hlt.
  - assert (g = 0) as Eg by (unfold g; Z.div_mod_to_equations; lia).
    destruct (wp_elim _ _ _ (wp_clear_bit s2 (info f) b buf _ _ bm bid Hi2 Hbb Hbuf Hbm2
      ltac:(unfold BUF_SIZE, PAGE_SIZE; lia))) as ([] & f' & E' & Ei & Hc').
    eapply wp_intro; [by rewrite E, E'|]. split; [done|].
    assert (two_pages (store f) (store f') (blockBitmapAddr dsc) (without_bit bm bid) (1 + g / 128)
      (put16 gdp (g mod 128 * 32 + gd_freeBlockCnt) (u16 (v + 1)))) as Hview.
    { intros n. rewrite (proj2 (proj2 Hc')), (proj2 (proj2 Hc2)).
      destruct (decide (n = 8 * blockBitmapAddr dsc)) as [En|], (decide (n = 8 * (1 + g / 128))) as [En2|]; [|done..].
      destruct Hne. by rewrite <-En. }
    pose proof (changed_inv _ _ _ _ Hc') as Hi'. pose proof (bs_page _ _ _ (v_inv _ Hv) Hbm) as Hpg. split_and!.
    + intros n Hn. rewrite (pages_used (store f) (store f') g dsc (without_bit bm bid) gdp (v + 1)) by done.
      destruct (Z.eqb_spec (n / 32768) g) as [En|En].
      * rewrite bit_set_without; [|done|unfold BUF_SIZE, PAGE_SIZE; lia|apply Z.mod_pos_bound; lia].
        unfold used. rewrite En, Hd, Hbm. do 2 f_equal. apply eq_true_iff_eq. rewrite !Z.eqb_eq. Z.div_mod_to_equations. lia.
      * replace (n =? bid) with false by (symmetry; apply Z.eqb_neq; intros ->; by apply En). by rewrite andb_true_r.
    + intros g' Hg'. rewrite (pages_cnt (store f) (store f') g dsc (without_bit bm bid) gdp (v + 1)) by done.
      rewrite Eg. destruct (Z.eqb_spec g' 0) as [->|].
      * exists v. split; [|done]. rewrite Eg in Hgd, Ev. by rewrite (free_some _ _ gdp), Ev.
      * destruct (free_is_some _ g' Hv Hg') as [w Hw]. by exists w.
    + intros n Hn Hm. by eapply pages_blk.
  - rewrite E. apply bind_Err. unfold on_store, zoom. simpl. erewrite bs_load_out; [done|done|done|].
    unfold BUF_SIZE, PAGE_SIZE. Z.div_mod_to_equations. lia.
Qed.

(** ** A new block of zeros *)

(** The blocks the allocator itself lives in are in use. *)
Definition sys_used (s : St) : Prop := used s 0 = true ∧ ∀ b, meta b → used s b = true.

(** In every group at least [k] of the blocks the search looks at are free. *)
Definition room (s : St) (k : nat) : Prop := ∀ g, 0 ≤ g < groupCnt i →
  ∃ l, NoDup l ∧ (k ≤ length l)%nat ∧ ∀ n, n ∈ l → g * 32768 ≤ n < g * 32768 + 4096 ∧ used s n = false.

Definition zero_page (d : bytes) : Prop := ∀ o, 0 ≤ o < 4096 → byte_at d o = 0.

Lemma zero_le32 d o : zero_page d → 0 ≤ o → o + 4 ≤ 4096 → le32 d o = 0.
Proof. intros Hz ??. unfold le32, le16. by rewrite !Hz by lia. Qed.

Lemma room_searched s g k : vol_ok s → 0 ≤ g < groupCnt i → room s (S k) → ¬ searched_full s g.
Proof.
  intros Hv Hg Hr Hf. destruct (Hr g Hg) as ([|n l] & _ & Hlen & Hl); [simpl in Hlen; lia|].
  destruct (Hl n) as [Hn Hu]; [left|]. destruct (bitmap_some s g Hv Hg) as (d & bm & Hd & Hbm & Hb & _).
  assert (n / 32768 = g) as En by (Z.div_mod_to_equations; lia).
  unfold used in Hu. rewrite En, Hd, Hbm in Hu.
  rewrite (Hf bm Hb (n mod 32768)) in Hu; [done|]. Z.div_mod_to_equations. lia.
Qed.

(** From [s] to [s'] the block [bid] was taken and zeroed. *)
Record grew (s s' : St) (bid : Z) : Prop := Grew {
  gr_vol : vol_ok s';
  gr_range : 0 ≤ bid < nblocks;
  gr_free : used s bid = false;
  gr_used : ∀ n, 0 ≤ n < nblocks → used s' n = used s n || (n =? bid);
  gr_blk : ∀ n, 0 ≤ n < nblocks → ¬ meta n → n ≠ bid → blk s' n = blk s n;
  gr_zero : ∃ d, blk s' bid = Some d ∧ zero_page d;
  gr_at : ∀ x n, bs_at s x n → bs_at s' x n }.

Lemma meta_range b : meta b → 0 ≤ b < nblocks.
Proof.
  intros [Hb|(g & Hg & Hb)]; [|by eapply (g_bitmap G)]. unfold gd_block in Hb. pose proof (g_cnt G).
  assert ((groupCnt i - 1) / 128 < 8) by (apply Z.div_lt_upper_bound; lia). unfold nblocks. lia.
Qed.

Lemma grew_nonzero s s' bid : sys_used s → grew s s' bid → bid ≠ 0 ∧ ¬ meta bid.
Proof. intros [H0 Hm] Hg. pose proof (gr_free _ _ _ Hg). split; [intros ->|intros Hb%Hm]; congruence. Qed.

Lemma grew_sys s s' bid : sys_used s → grew s s' bid → sys_used s'.
Proof.
  intros [H0 Hm] Hg. pose proof (g_cnt G). split.
  - rewrite (gr_used _ _ _ Hg), H0; [done|]. unfold nblocks. lia.
  - intros b Hb. by rewrite (gr_used _ _ _ Hg), Hm by auto using meta_range.
Qed.

Lemma filter_ne_id (b : Z) (l : list Z) : b ∉ l → filter (.≠ b) l = l.
Proof.
  induction l as [|x l IH]; [done|]. intros [Hx Hl]%not_elem_of_cons.
  rewrite filter_cons_True by congruence. by rewrite IH.
Qed.

Lemma grew_room s s' bid k : grew s s' bid → room s (S k) → room s' k.
Proof.
  intros Hg Hr g Hgr. destruct (Hr g Hgr) as (l & Hnd & Hlen & Hl). exists (filter (.≠ bid) l).
  split_and!; [by apply NoDup_filter| |].
  - destruct (decide (bid ∈ l)) as [Hb|Hb].
    + assert (l ≡ₚ bid :: filter (.≠ bid) l) as E.
      { apply NoDup_Permutation; [done| |].
        - constructor; [|by apply NoDup_filter]. rewrite list_elem_of_filter. tauto.
        - intros x. rewrite elem_of_cons, list_elem_of_filter. destruct (decide (x = bid)) as [->|]; tauto. }
      rewrite E in Hlen. simpl in Hlen. lia.
    + rewrite filter_ne_id by done. lia.
  - intros n [Hn Hin]%list_elem_of_filter. destruct (Hl n Hin) as [Hr' Hu]. split; [done|].
    rewrite (gr_used _ _ _ Hg) by (unfold nblocks; lia). rewrite Hu. simpl. by apply Z.eqb_neq.
Qed.

Lemma wp_bzero s b no d : bs_inv s → bs_at s b no → bs_view s no = Some d →
  wp (for_up 4096 0 (λ o, bs_store b o 0)) (λ _ s', ∃ d', changed s no d' s' ∧ zero_page d') s.
Proof.
  intros Hi Ha Hd. apply (wp_for_up (λ k s', ∃ d', changed s no d' s' ∧ bs_at s' b no ∧
    ∀ o, 0 ≤ o < k → byte_at d' o = 0)).
  - exists d. split_and!; [|done|lia]. split_and!; [done..|]. intros n. by case_decide; subst.
  - intros k s1 Hk (d1 & Hc & Hb & Hz). pose proof (changed_eq _ _ _ _ Hc) as Hd1.
    pose proof (changed_inv _ _ _ _ Hc) as Hi1. destruct (bs_page s1 no d1 Hi1 Hd1) as [Hlen _].
    unfold BUF_SIZE, PAGE_SIZE in Hlen.
    eapply wp_mono; [eapply wp_bs_store; [done..|unfold BUF_SIZE, PAGE_SIZE; lia]|].
    intros [] s2 Hc2. eexists. split_and!; [by eapply changed_trans|by eapply changed_at|].
    intros o Ho. destruct (Z.eq_dec o k) as [->|]; [by apply byte_at_eq; lia|]. rewrite byte_at_ne by lia. apply Hz. lia.
  - intros s1 (d1 & Hc & _ & Hz). exists d1. split; [done|]. intros o Ho. apply Hz. lia.
Qed.

Lemma wp_new_empty_block f k : vol_ok (store f) → sys_used (store f) → anchored (info f) →
  room (store f) (S k) →
  wp (new_empty_block i) (λ bid f', info f' = info f ∧ grew (store f) (store f') bid) f.
Proof.
  intros Hv Hs Ha Hr. unfold new_empty_block. wp_step.
  destruct (wp_set_block_bitmap f Hv Ha) as (g & [Hg _] & [[Hf _]|Hw]); [by edestruct room_searched|].
  eapply wp_mono; [exact Hw|]. intros bid f1 (_ & Hi1 & Ht). wp_step. apply wp_on_store.
  eapply wp_mono; [apply wp_block_read; [apply Ht|apply Ht]|]. intros b s2 [Hk2 Hb].
  pose proof (keeps_vol _ _ Hk2 (t_vol _ _ _ Ht)) as Hv2. destruct (v_blk _ Hv2 _ (t_range _ _ _ Ht)) as [d Hd].
  wp_step. apply wp_on_store. simpl. rewrite (g_bs G).
  eapply wp_mono; [apply (wp_bzero s2 b (8 * bid) d); [apply Hv2|done|done]|].
  intros [] s3 (d3 & Hc & Hz). apply wp_ret. simpl. split; [done|].
  assert (¬ meta bid) as Hnm. { intros Hm. pose proof (t_free _ _ _ Ht). by rewrite (proj2 Hs) in H. }
  assert (∀ n, n ≠ bid → blk s3 n = blk (store f1) n) as Hsame.
  { intros n Hn. unfold blk. rewrite (changed_ne _ _ _ _ _ Hc) by lia. apply Hk2. }
  split.
  - split; [by eapply changed_inv|]. intros n Hn. destruct (Z.eq_dec n bid) as [->|].
    + unfold blk. rewrite (changed_eq _ _ _ _ Hc). eauto.
    + rewrite Hsame by done. by apply (v_blk _ (t_vol _ _ _ Ht)).
  - apply Ht.
  - apply Ht.
  - intros n Hn. rewrite <-(t_used _ _ _ Ht) by done. unfold used. destruct (used_in n Hn) as (dd & Hdd & Hgn).
    rewrite Hdd, Hsame; [done|]. intros <-. apply Hnm. right. exists (n / 32768). split; [done|by exists dd].
  - intros n Hn Hm Hne. rewrite Hsame by done. by apply (t_blk _ _ _ Ht).
  - exists d3. split; [|done]. by apply (changed_eq _ _ _ _ Hc).
  - intros x n Hx. eapply changed_at; [exact Hc|]. apply Hk2. by apply (t_at _ _ _ Ht).
Qed.

(** ** The block map *)

(** The pointer [k] of block [b]. *)
Definition ptr_at (s : St) (b k : Z) : Z := from_option (λ d, le32 d (4 * k)) 0 (blk s b).

(** Where [n] levels of indirection lead from [bid], with the indexes [id]; and the
    pointer blocks on the way. *)
Fixpoint walk (s : St) (n : nat) (bid : Z) (id : list Z) : Z :=
  match n with
  | O => bid
  | S j => if bid =? 0 then 0 else walk s j (ptr_at s bid (id !!! j)) id
  end.
Fixpoint path (s : St) (n : nat) (bid : Z) (id : list Z) : list Z :=
  match n with
  | O => []
  | S j => if bid =? 0 then [] else bid :: path s j (ptr_at s bid (id !!! j)) id
  end.

(** Indexes of pointers in a block. *)
Definition ids_ok (id : list Z) : Prop := length id = 3%nat ∧ Forall (λ k, 0 ≤ k < 1024) id.

Lemma ids_lookup id j : ids_ok id → (j < 3)%nat → id !! j = Some (id !!! j) ∧ 0 ≤ id !!! j < 1024.
Proof.
  intros [Hl Hf] Hj. destruct (lookup_lt_is_Some_2 id j) as [k Hk]; [lia|].
  rewrite (list_lookup_total_correct _ _ _ Hk). split; [done|]. by apply (Forall_lookup_1 _ _ _ _ Hf Hk).
Qed.

Lemma wp_rd_ptr f buf b k : vol_ok (store f) → 0 ≤ b < nblocks → bs_at (store f) buf (8 * b) → 0 ≤ k < 1024 →
  rd_ptr buf k f = Ok (ptr_at (store f) b k, f).
Proof.
  intros Hv Hb Ha Hk. destruct (v_blk _ Hv b Hb) as [d Hd]. unfold rd_ptr, on_store, zoom.
  erewrite bs_load32_ok; [|apply Hv|exact Ha|exact Hd|lia|unfold BUF_SIZE, PAGE_SIZE; lia].
  unfold ptr_at. rewrite Hd. by destruct f.
Qed.

Lemma walk_keeps s s' n bid id : keeps s s' → walk s' n bid id = walk s n bid id.
Proof.
  intros (_ & V & _). revert bid. induction n as [|n IH]; intros bid; simpl; [done|].
  destruct (bid =? 0); [done|]. rewrite IH. unfold ptr_at, blk. by rewrite V.
Qed.
Lemma path_keeps s s' n bid id : keeps s s' → path s' n bid id = path s n bid id.
Proof.
  intros (_ & V & _). revert bid. induction n as [|n IH]; intros bid; simpl; [done|].
  destruct (bid =? 0); [done|]. rewrite IH. unfold ptr_at, blk. by rewrite V.
Qed.

Lemma wp_bid_walk n f bid id : vol_ok (store f) → ids_ok id → (n ≤ 3)%nat →
  Forall (λ b, 0 ≤ b < nblocks) (path (store f) n bid id) →
  wp (bid_walk i n bid id) (λ r f', r = walk (store f) n bid id ∧ info f' = info f ∧ keeps (store f) (store f')) f.
Proof.
  intros Hv Hid. revert f bid Hv. induction n as [|n IH]; intros f bid Hv Hn Hp; simpl in *.
  { apply wp_ret. split_and!; [done|done|apply vkeeps_refl, Hv]. }
  destruct (Z.eqb_spec bid 0) as [->|Hb].
  { apply wp_ret. split_and!; [done|done|apply vkeeps_refl, Hv]. }
  apply Forall_cons in Hp as [Hr Hp]. destruct (ids_lookup id n Hid) as [Hl Hk]; [lia|].
  wp_step. apply wp_on_store. eapply wp_mono; [by apply wp_block_read|]. intros b s1 [Hk1 Ha].
  pose proof (keeps_vol _ _ Hk1 Hv) as Hv1.
  wp_step. wp_step; [exact Hl|]. wp_step. eapply wp_intro; [by eapply wp_rd_ptr|].
  assert (ptr_at s1 bid (id !!! n) = ptr_at (store f) bid (id !!! n)) as E.
  { unfold ptr_at, blk. by rewrite (proj1 (proj2 Hk1)). }
  simpl. rewrite E. eapply wp_mono.
  { apply IH; [done|lia|]. simpl. by rewrite (path_keeps (store f) s1). }
  simpl. intros r f2 (-> & Hi & Hk2). rewrite (walk_keeps (store f) s1) by done. split_and!; [done..|].
  by eapply vkeeps_trans.
Qed.

(** The layer and the indexes of a block number. *)
Definition max_bno : Z := 12 + 1024 + 1024 * 1024 + 1024 * 1024 * 1024.
Definition layer_of (bno : Z) : Z :=
  if bno <? 12 + 1024 then 0 else if bno <? 12 + 1024 + 1024 * 1024 then 1 else 2.
Definition ids_of (bno : Z) : list Z :=
  let x := bno - 12 - match layer_of bno with 0 => 0 | 1 => 1024 | _ => 1024 + 1024 * 1024 end in
  [x mod 1024; x / 1024 mod 1024; x / (1024 * 1024)].

(** The number of the block an index path stands for. *)
Definition path_no (layer : Z) (id : list Z) : Z :=
  12 + match layer with
       | 0 => id !!! 0%nat
       | 1 => 1024 + id !!! 1%nat * 1024 + id !!! 0%nat
       | _ => 1024 + 1024 * 1024 + id !!! 2%nat * (1024 * 1024) + id !!! 1%nat * 1024 + id !!! 0%nat
       end.

Lemma layer_cases bno : 12 ≤ bno < max_bno →
  (layer_of bno = 0 ∧ bno < 1036) ∨ (layer_of bno = 1 ∧ 1036 ≤ bno < 1049612) ∨ (layer_of bno = 2 ∧ 1049612 ≤ bno < 1074791436).
Proof.
  intros H. unfold max_bno in H. unfold layer_of.
  destruct (Z.ltb_spec bno (12 + 1024)); [lia|]. destruct (Z.ltb_spec bno (12 + 1024 + 1024 * 1024)); lia.
Qed.

Lemma ids_of_ok bno : 12 ≤ bno < max_bno → ids_ok (ids_of bno) ∧ path_no (layer_of bno) (ids_of bno) = bno.
Proof.
  intros H. assert (∀ x, 0 ≤ x < 1073741824 → ids_ok [x mod 1024; x / 1024 mod 1024; x / (1024 * 1024)]) as Hok.
  { intros x Hx. split; [done|]. repeat constructor; Z.div_mod_to_equations; lia. }
  unfold ids_of, path_no. destruct (layer_cases bno H) as [[-> ?]|[[-> ?]|[-> ?]]]; (split; [apply Hok; lia|]); simpl;
    Z.div_mod_to_equations; lia.
Qed.

Lemma find_block_layer_ok bno (f : @fs St) : 12 ≤ bno < max_bno →
  find_block_layer i bno f = Ok ((layer_of bno, ids_of bno), f).
Proof.
  intros Hb. unfold find_block_layer, n_ptr. rewrite (g_bs G). change (4096 / 4) with 1024.
  unfold N_DIRECT_BLOCK. rewrite u32_small by (unfold max_bno in Hb; lia).
  change (u32 (1024 * 1024)) with 1048576. change (u32 (1048576 * 1024)) with 1073741824.
  unfold ids_of, assertk, mbind, M_bind. change (1024 * 1024) with 1048576.
  destruct (layer_cases bno Hb) as [[-> ?]|[[-> ?]|[-> ?]]].
  - replace (1024 <=? bno - 12) with false by (symmetry; apply Z.leb_gt; lia).
    replace (1048576 <=? bno - 12) with false by (symmetry; apply Z.leb_gt; lia).
    replace (bno - 12 <? 1073741824) with true by (symmetry; apply Z.ltb_lt; lia). by rewrite Z.sub_0_r.
  - replace (1024 <=? bno - 12) with true by (symmetry; apply Z.leb_le; lia).
    replace (1048576 <=? bno - 12 - 1024) with false by (symmetry; apply Z.leb_gt; lia).
    by replace (bno - 12 - 1024 <? 1073741824) with true by (symmetry; apply Z.ltb_lt; lia).
  - replace (1024 <=? bno - 12) with true by (symmetry; apply Z.leb_le; lia).
    replace (1048576 <=? bno - 12 - 1024) with true by (symmetry; apply Z.leb_le; lia).
    replace (bno - 12 - 1024 - 1048576 <? 1073741824) with true by (symmetry; apply Z.ltb_lt; lia).
    by replace (bno - 12 - (1024 + 1048576)) with (bno - 12 - 1024 - 1048576) by lia.
Qed.

(** ** [alloc_block] *)

(** Where a block number is stored: in the inode or in a pointer block. *)
Inductive loc := LInfo (k : nat) | LBlk (b k : Z).

Definition loc_val (f : @fs St) (l : loc) : Z :=
  match l with
  | LInfo k => default 0 (blocks (info f) !! k)
  | LBlk b k => ptr_at (store f) b k
  end.

(** The C pointer [p] points to the place [l]. *)
Definition slot_at (f : @fs St) (p : slot) (l : loc) : Prop :=
  match p, l with
  | SInfo k, LInfo k' => k = k' ∧ (k < length (blocks (info f)))%nat
  | SPage buf k, LBlk b k' => k = k' ∧ bs_at (store f) buf (8 * b) ∧ 0 ≤ b < nblocks ∧ 0 ≤ k < 1024
  | _, _ => False
  end.

(** A pointer block in use. *)
Definition live (s : St) (b : Z) : Prop := b ≠ 0 ∧ 0 ≤ b < nblocks ∧ used s b = true ∧ ¬ meta b.
Definition owner_ok (f : @fs St) (l : loc) (avoid : list Z) : Prop :=
  match l with
  | LInfo k => k ≠ 0%nat
  | LBlk b _ => live (store f) b ∧ (b ∉ avoid)
  end.

Lemma rd_slot_ok f p l : vol_ok (store f) → slot_at f p l → rd_slot p f = Ok (loc_val f l, f).
Proof.
  intros Hv. destruct p as [k|buf k], l as [k'|b k']; try done; simpl.
  - intros [<- Hk]. destruct (lookup_lt_is_Some_2 _ _ Hk) as [v Hl]. unfold mbind, M_bind, get, deref. by rewrite Hl.
  - intros (<- & Ha & Hb & Hk). by apply wp_rd_ptr.
Qed.

(** Writing the place [l]: nothing else changes. *)
Record wrote (f f' : @fs St) (l : loc) (v : Z) : Prop := Wrote {
  wr_vol : vol_ok (store f');
  wr_val : loc_val f' l = v;
  wr_blk : ∀ n, (∀ k, l ≠ LBlk n k) → blk (store f') n = blk (store f) n;
  wr_used : (∀ b k, l = LBlk b k → ¬ meta b) → ∀ n, 0 ≤ n < nblocks → used (store f') n = used (store f) n;
  wr_len : length (blocks (info f')) = length (blocks (info f));
  wr_info : ∀ k, l ≠ LInfo k → blocks (info f') !! k = blocks (info f) !! k;
  wr_cnt : blockCnt (info f') = blockCnt (info f);
  wr_at : ∀ x n, bs_at (store f) x n → bs_at (store f') x n }.

Lemma wp_wr_slot f p l v : vol_ok (store f) → slot_at f p l → 0 ≤ v < 2 ^ 32 →
  wp (wr_slot p v) (λ _ f', wrote f f' l v) f.
Proof.
  intros Hv Hs Hr. destruct p as [k|buf k], l as [k'|b k']; try done; simpl in *.
  - destruct Hs as [<- Hk]. unfold set_info. wp_go. split; simpl; try done.
    + by rewrite list_lookup_insert_eq.
    + by rewrite list.length_insert.
    + intros k' Hne. apply list_lookup_insert_ne. congruence.
  - destruct Hs as (<- & Ha & Hb & Hk). destruct (v_blk _ Hv b Hb) as [d Hd].
    destruct (bs_page _ _ d (v_inv _ Hv) Hd) as [Hlen _]. unfold BUF_SIZE, PAGE_SIZE in Hlen.
    apply wp_on_store. eapply wp_mono.
    { eapply wp_bs_store32; [apply Hv|exact Ha|exact Hd|lia|unfold BUF_SIZE, PAGE_SIZE; lia]. }
    intros [] s' Hc. assert (∀ n, n ≠ b → blk s' n = blk (store f) n) as Hne.
    { intros n Hn. unfold blk. apply (changed_ne _ _ _ _ _ Hc). lia. }
    split; simpl; try done.
    + split; [by eapply changed_inv|]. intros n Hn. destruct (Z.eq_dec n b) as [->|].
      * unfold blk. rewrite (changed_eq _ _ _ _ Hc). eauto.
      * rewrite Hne by done. by apply (v_blk _ Hv).
    + unfold ptr_at, blk. rewrite (changed_eq _ _ _ _ Hc). simpl. rewrite le32_put32 by lia. by apply u32_small.
    + intros n Hl. apply Hne. intros ->. by apply (Hl k).
    + intros Hm n Hn. unfold used. destruct (used_in n Hn) as (dd & Hdd & Hgn). rewrite Hdd, Hne; [done|].
      intros <-. apply (Hm (blockBitmapAddr dd) k eq_refl). right. exists (n / 32768). split; [done|by exists dd].
    + intros x n Hx. by eapply changed_at.
Qed.

(** The state before: enough room, the tree above intact. *)
Record ready (f : @fs St) (k : nat) : Prop := Ready {
  rd_vol : vol_ok (store f);
  rd_sys : sys_used (store f);
  rd_room : room (store f) k;
  rd_len : length (blocks (info f)) = 15%nat;
  rd_anchor : ∃ b0, blocks (info f) !! 0%nat = Some b0 ∧ b0 ≠ 0 ∧ 0 ≤ b0 < nblocks }.

(** From [f] to [f'] block [bid] was added under the place [l], [n] levels down. *)
Record added (f f' : @fs St) (l : loc) (n : nat) (id : list Z) (bid : Z) : Prop := Added {
  ad_vol : vol_ok (store f');
  ad_sys : sys_used (store f');
  ad_bid : bid ≠ 0 ∧ 0 ≤ bid < nblocks ∧ used (store f) bid = false ∧ used (store f') bid = true;
  ad_walk : walk (store f') n (loc_val f' l) id = bid;
  ad_path : Forall (λ b, 0 ≤ b < nblocks) (path (store f') n (loc_val f' l) id);
  ad_used : ∀ b, 0 ≤ b < nblocks → used (store f) b = true → used (store f') b = true;
  ad_blk : ∀ b, live (store f) b → b ∉ path (store f) n (loc_val f l) id → (∀ k, l ≠ LBlk b k) →
    blk (store f') b = blk (store f) b;
  ad_len : length (blocks (info f')) = length (blocks (info f));
  ad_info : ∀ k, l ≠ LInfo k → blocks (info f') !! k = blocks (info f) !! k }.

(** Blocks other than the ones under [l] and the one [l] is in. *)
Definition apart (f : @fs St) (l : loc) (n : nat) (id : list Z) (b : Z) : Prop :=
  live (store f) b ∧ (b ∉ path (store f) n (loc_val f l) id) ∧ ∀ k, l ≠ LBlk b k.

(** One level down: in [f'] the place [l] leads to the pointer block [v]. *)
Record descend (f f' : @fs St) (l : loc) (n : nat) (id : list Z) (v : Z) : Prop := Descend {
  de_val : loc_val f' l = v;
  de_live : live (store f') v;
  de_owner : ∀ b k, l = LBlk b k → live (store f') b ∧ (b ∉ v :: path (store f') n (ptr_at (store f') v (id !!! n)) id);
  de_used : ∀ b, 0 ≤ b < nblocks → used (store f) b = true → used (store f') b = true;
  de_blk : ∀ b, apart f l (S n) id b → blk (store f') b = blk (store f) b ∧ live (store f') b ∧
    b ∉ v :: path (store f') n (ptr_at (store f') v (id !!! n)) id;
  de_len : length (blocks (info f')) = length (blocks (info f));
  de_info : ∀ k, l ≠ LInfo k → blocks (info f') !! k = blocks (info f) !! k }.

Lemma added_up f f1 f' l n id v bid : descend f f1 l n id v →
  added f1 f' (LBlk v (id !!! n)) n id bid → added f f' l (S n) id bid.
Proof.
  intros [D1 D2 D3 D4 D5 D6 D7] [A1 A2 A3 A4 A5 A6 A7 A8 A9].
  destruct D2 as (Hv0 & Hvr & Hvu & Hvm).
  assert (loc_val f' l = v) as Hl.
  { destruct l as [k|b k]; simpl in *; [by rewrite A9|].
    destruct (D3 b k eq_refl) as [Hb [Hbv Hbp]%not_elem_of_cons].
    unfold ptr_at. rewrite A7; [done|done|done|congruence]. }
  split; [done|done| | | | | | |].
  - destruct A3 as (? & ? & Hu & ?). split_and!; [done|lia|lia| |done].
    apply not_true_iff_false. intros E. apply D4 in E; [congruence|done].
  - simpl. rewrite Hl. by rewrite (proj2 (Z.eqb_neq v 0) Hv0).
  - simpl. rewrite Hl, (proj2 (Z.eqb_neq v 0) Hv0). by constructor.
  - auto.
  - intros b Hb Hp Ho. destruct (D5 b) as (E & Hlv & [Hbv Hbp]%not_elem_of_cons); [by split_and!|].
    rewrite A7; [done|done|done|congruence].
  - congruence.
  - intros k Hk. rewrite A9 by done. by apply D7.
Qed.

Lemma live_mono s s' b : (∀ n, 0 ≤ n < nblocks → used s n = true → used s' n = true) → live s b → live s' b.
Proof. intros Hm (? & ? & ? & ?). split_and!; [done|lia|lia|auto|done]. Qed.

(** An existing pointer is followed. *)
Lemma descend_old f s1 l n id v : loc_val f l = v → v ≠ 0 →
  Forall (live (store f)) (path (store f) (S n) v id) → NoDup (path (store f) (S n) v id) →
  owner_ok f l (path (store f) (S n) v id) → keeps (store f) s1 →
  descend f (Fs s1 (info f)) l n id v ∧
  Forall (live s1) (path s1 n (ptr_at s1 v (id !!! n)) id) ∧ NoDup (path s1 n (ptr_at s1 v (id !!! n)) id) ∧
  owner_ok (Fs s1 (info f)) (LBlk v (id !!! n)) (path s1 n (ptr_at s1 v (id !!! n)) id).
Proof.
  intros Hl Hv0 Hlv Hnd Ho Hk. pose proof (λ n, keeps_used _ _ n Hk) as Hu.
  assert (ptr_at s1 v (id !!! n) = ptr_at (store f) v (id !!! n)) as Ep.
  { unfold ptr_at, blk. by rewrite (proj1 (proj2 Hk)). }
  simpl in *. rewrite (proj2 (Z.eqb_neq v 0) Hv0) in *.
  assert (∀ b, live (store f) b → live s1 b) as Hm by (intros b; apply live_mono; intros; by rewrite Hu).
  rewrite Ep, (path_keeps (store f) s1) by done.
  apply Forall_cons in Hlv as [Hlv Hlt]. apply NoDup_cons in Hnd as [Hnv Hnd].
  split_and!; [|by eapply Forall_impl|done|by auto|done].
  split; simpl; try done.
  - rewrite <-Hl. destruct l as [k|b k]; [done|]. simpl. unfold ptr_at, blk. by rewrite (proj1 (proj2 Hk)).
  - by apply Hm.
  - intros b k ->. destruct Ho as [Ho1 Ho2]. rewrite Ep, (path_keeps (store f) s1) by done. auto.
  - intros b _. by rewrite Hu.
  - intros b (Hb & Hp & _). rewrite Ep, (path_keeps (store f) s1) by done. simpl in Hp.
    rewrite Hl, (proj2 (Z.eqb_neq v 0) Hv0) in Hp. split_and!; [|by apply Hm|done].
    unfold blk. by rewrite (proj1 (proj2 Hk)).
Qed.

(** A new pointer block, entered at the place [l] and read. *)
Lemma descend_new f f1 f2 f3 l n id v : loc_val f l = 0 → 0 ≤ id !!! n < 1024 → sys_used (store f) →
  owner_ok f l [] → grew (store f) (store f1) v → info f1 = info f → wrote f1 f2 l v →
  keeps (store f2) (store f3) → blocks (info f3) = blocks (info f2) →
  descend f f3 l n id v ∧ ptr_at (store f3) v (id !!! n) = 0.
Proof.
  intros Hl Hid Hs Ho Hg Ei Hw Hk Eb. destruct (grew_nonzero _ _ _ Hs Hg) as [Hv0 Hvm].
  pose proof (gr_range _ _ _ Hg) as Hvr.
  assert (∀ b k, l = LBlk b k → live (store f) b) as Hol by (intros b k ->; apply Ho).
  assert (∀ n, 0 ≤ n < nblocks → used (store f3) n = used (store f) n || (n =? v)) as Hu.
  { intros m Hm. rewrite (keeps_used _ _ m Hk), (wr_used _ _ _ _ Hw); [by apply Hg| |done].
    intros b k E. apply (Hol b k E). }
  assert (∀ b, (∀ k, l ≠ LBlk b k) → blk (store f3) b = blk (store f1) b) as Hb3.
  { intros b Hb. unfold blk. rewrite (proj1 (proj2 Hk)). by apply (wr_blk _ _ _ _ Hw). }
  assert (∀ b, live (store f) b → live (store f3) b ∧ b ≠ v) as Hm.
  { intros b Hb. split.
    - revert Hb. apply live_mono. intros m Hm Hmu. by rewrite Hu, Hmu.
    - intros ->. destruct Hb as (_ & _ & Hb & _). by rewrite (gr_free _ _ _ Hg) in Hb. }
  assert (ptr_at (store f3) v (id !!! n) = 0) as Hz.
  { unfold ptr_at. rewrite Hb3; [|intros k E; by destruct (Hm v (Hol v k E))].
    destruct (gr_zero _ _ _ Hg) as (d & -> & Hd). simpl. apply zero_le32; [done|lia|lia]. }
  assert (path (store f3) n 0 id = []) as Hp0 by (by destruct n).
  split; [|done]. split; rewrite ?Hz, ?Hp0.
  - pose proof (wr_val _ _ _ _ Hw) as E. destruct l as [k|b k]; simpl in *; [by rewrite Eb|].
    rewrite <-E. unfold ptr_at, blk. by rewrite (proj1 (proj2 Hk)).
  - split_and!; [done|lia|lia| |done]. by rewrite Hu, Z.eqb_refl, orb_true_r.
  - intros b k E. destruct (Hm b (Hol b k E)). split; [done|]. by apply not_elem_of_cons; split; [|apply not_elem_of_nil].
  - intros b Hb Hbu. by rewrite Hu, Hbu.
  - intros b (Hb & _ & Hne). destruct (Hm b Hb) as [? Hbv]. split_and!; [|done|].
    + rewrite Hb3 by done. apply (gr_blk _ _ _ Hg); [apply Hb|apply Hb|done].
    + by apply not_elem_of_cons; split; [|apply not_elem_of_nil].
  - by rewrite Eb, (wr_len _ _ _ _ Hw), Ei.
  - intros k Hk'. by rewrite Eb, (wr_info _ _ _ _ Hw), Ei.
Qed.

Lemma slot_at_mono f f' p l : (∀ x n, bs_at (store f) x n → bs_at (store f') x n) →
  length (blocks (info f')) = length (blocks (info f)) → slot_at f p l → slot_at f' p l.
Proof. intros Ha Hl. destruct p, l; simpl; try done; [by rewrite Hl|]. intros (? & ? & ?). auto. Qed.

Lemma room_ext s s' k k' : (∀ n, 0 ≤ n < nblocks → used s' n = used s n) → (k' ≤ k)%nat → room s k → room s' k'.
Proof.
  intros Hu Hk Hr g Hg. destruct (Hr g Hg) as (l & Hnd & Hlen & Hl). exists l. split_and!; [done|lia|].
  intros n Hn. destruct (Hl n Hn) as [? Hn']. rewrite Hu; [done|unfold nblocks; lia].
Qed.
Lemma sys_ext s s' : (∀ n, 0 ≤ n < nblocks → used s' n = used s n) → sys_used s → sys_used s'.
Proof.
  intros Hu [H0 Hm]. pose proof (g_cnt G). split; [rewrite Hu; [done|unfold nblocks; lia]|].
  intros b Hb. rewrite Hu; auto using meta_range.
Qed.
Lemma ready_keeps f s1 k k' : keeps (store f) s1 → (k' ≤ k)%nat → ready f k → ready (Fs s1 (info f)) k'.
Proof.
  intros Hk Hle [R1 R2 R3 R4 R5]. pose proof (λ n (_ : 0 ≤ n < nblocks), keeps_used _ _ n Hk) as Hu.
  split; simpl; [by eapply keeps_vol|by eapply sys_ext|by eapply room_ext|done|done].
Qed.

(** Filling an empty place with a new block. *)
Lemma wp_fill f p l k : ready f (S k) → slot_at f p l → owner_ok f l [] →
  wp (b ← new_empty_block i; wr_slot p b;; inc_blockCnt) (λ _ f3, ∃ v f1 f2,
    grew (store f) (store f1) v ∧ info f1 = info f ∧ wrote f1 f2 l v ∧ store f3 = store f2 ∧
    blocks (info f3) = blocks (info f2) ∧ slot_at f3 p l ∧ ready f3 k) f.
Proof.
  intros [R1 R2 R3 R4 R5] Hp Ho. wp_step.
  eapply wp_mono; [eapply (wp_new_empty_block f k); [done|done|by right|done]|].
  intros v f1 [Ei Hg]. pose proof (gr_range _ _ _ Hg) as Hvr.
  assert (slot_at f1 p l) as Hp1 by (eapply slot_at_mono; [apply Hg|by rewrite Ei|done]).
  wp_step. eapply wp_mono; [apply (wp_wr_slot f1 p l v (gr_vol _ _ _ Hg) Hp1)|].
  { unfold nblocks in Hvr. pose proof (g_cnt G). lia. }
  intros [] f2 Hw. unfold inc_blockCnt, set_info. apply wp_modify.
  exists v, f1, f2. split_and!; [done..| |].
  - eapply (slot_at_mono f1); [apply Hw|apply Hw|done].
  - assert (∀ n, 0 ≤ n < nblocks → used (store f2) n = used (store f1) n) as Hu.
    { apply (wr_used _ _ _ _ Hw). intros b kk ->. apply Ho. }
    split; simpl.
    + apply Hw.
    + eapply sys_ext; [exact Hu|by eapply grew_sys].
    + eapply room_ext; [exact Hu|done|by eapply grew_room].
    + by rewrite (wr_len _ _ _ _ Hw), Ei.
    + rewrite (wr_info _ _ _ _ Hw), Ei; [done|]. intros ->. by destruct Ho.
Qed.

Lemma added_here f f1 f2 f3 l id v k : owner_ok f l [] → sys_used (store f) →
  grew (store f) (store f1) v → info f1 = info f → wrote f1 f2 l v → store f3 = store f2 →
  blocks (info f3) = blocks (info f2) → ready f3 k → added f f3 l 0 id v.
Proof.
  intros Ho Hs Hg Ei Hw Es Eb Hr. destruct (grew_nonzero _ _ _ Hs Hg) as [Hv0 _]. pose proof (gr_range _ _ _ Hg).
  assert (∀ n, 0 ≤ n < nblocks → used (store f3) n = used (store f) n || (n =? v)) as Hu.
  { intros n Hn. rewrite Es, (wr_used _ _ _ _ Hw); [by apply Hg| |done]. intros b kk ->. apply Ho. }
  split; [apply Hr|apply Hr|..]; simpl.
  - split_and!; [done|lia|lia|apply Hg|]. by rewrite Hu, Z.eqb_refl, orb_true_r.
  - pose proof (wr_val _ _ _ _ Hw) as E. destruct l; simpl in *; [by rewrite Eb|by rewrite Es].
  - done.
  - intros b Hb E. by rewrite Hu, E.
  - intros b (_ & Hb & Hbu & Hbm) _ Hne. rewrite Es, (wr_blk _ _ _ _ Hw) by done.
    apply (gr_blk _ _ _ Hg); [done|done|]. intros ->. by rewrite (gr_free _ _ _ Hg) in Hbu.
  - by rewrite Eb, (wr_len _ _ _ _ Hw), Ei.
  - intros kk Hkk. by rewrite Eb, (wr_info _ _ _ _ Hw), Ei.
Qed.

Lemma owner_nil f l avoid : owner_ok f l avoid → owner_ok f l [].
Proof. destruct l; simpl; [done|]. intros [? _]. split; [done|apply not_elem_of_nil]. Qed.

Lemma wp_alloc_walk n f p l id : ids_ok id → (n ≤ 3)%nat → slot_at f p l → ready f (S n) →
  walk (store f) n (loc_val f l) id = 0 →
  Forall (live (store f)) (path (store f) n (loc_val f l) id) → NoDup (path (store f) n (loc_val f l) id) →
  owner_ok f l (path (store f) n (loc_val f l) id) →
  wp (alloc_walk i n p id) (λ p' f', ∃ l' bid, added f f' l n id bid ∧ slot_at f' p' l' ∧ loc_val f' l' = bid) f.
Proof.
  intros Hid. revert f p l. induction n as [|n IH]; intros f p l Hn Hp Hr Hw Hlv Hnd Ho.
  - simpl in Hw. simpl. wp_step. eapply wp_intro; [by apply rd_slot_ok; [apply Hr|]|]. rewrite Hw. simpl.
    wp_step. eapply wp_mono; [apply (wp_fill f p l 0 Hr Hp); by eapply owner_nil|].
    intros [] f3 (v & f1 & f2 & Hg & Ei & Hwr & Es & Eb & Hp3 & Hr3). apply wp_ret.
    assert (added f f3 l 0 id v) as Ha by (eapply added_here; eauto using owner_nil; apply Hr).
    exists l, v. split_and!; [done..|]. apply (ad_walk _ _ _ _ _ _ Ha).
  - destruct (ids_lookup id n Hid) as [Hl Hk]; [lia|].
    assert (∀ f3 v, ready f3 (S n) → slot_at f3 p l → loc_val f3 l = v → 0 ≤ v < nblocks →
      (∀ s4, keeps (store f3) s4 → descend f (Fs s4 (info f3)) l n id v ∧
        walk s4 n (ptr_at s4 v (id !!! n)) id = 0 ∧ Forall (live s4) (path s4 n (ptr_at s4 v (id !!! n)) id) ∧
        NoDup (path s4 n (ptr_at s4 v (id !!! n)) id) ∧
        owner_ok (Fs s4 (info f3)) (LBlk v (id !!! n)) (path s4 n (ptr_at s4 v (id !!! n)) id)) →
      wp (bid ← rd_slot p; buf ← on_store (ext2_block_read bid (sb i)); k ← deref (id !! n);
          alloc_walk i n (SPage buf k) id)
        (λ p' f', ∃ l' bid, added f f' l (S n) id bid ∧ slot_at f' p' l' ∧ loc_val f' l' = bid) f3) as Hdown.
    { intros f3 v Hr3 Hp3 Hv Hvr Hd. wp_step. eapply wp_intro; [by apply rd_slot_ok; [apply Hr3|]|].
      rewrite Hv. wp_step. apply wp_on_store. eapply wp_mono; [by apply wp_block_read; [apply Hr3|]|].
      intros buf s4 [Hk4 Hbuf]. wp_step. wp_step; [exact Hl|].
      destruct (Hd s4 Hk4) as (Hde & H1 & H2 & H3 & H4).
      eapply wp_mono; [eapply (IH _ _ (LBlk v (id !!! n))); try done; [lia|eapply (ready_keeps f3 s4 (S n)); [done|lia|done]]|].
      intros p' f' (l' & bid & Ha & Hp' & Hb). exists l', bid. split_and!; [|done..]. by eapply added_up. }
    simpl. wp_step. eapply wp_intro; [by apply rd_slot_ok; [apply Hr|]|]. set (v := loc_val f l) in *.
    destruct (Z.eqb_spec v 0) as [E|E].
    + wp_step. eapply wp_mono; [apply (wp_fill f p l (S n) Hr Hp); by eapply owner_nil|].
      intros [] f3 (b & f1 & f2 & Hg & Ei & Hwr & Es & Eb & Hp3 & Hr3).
      assert (loc_val f3 l = b) as Hb.
      { pose proof (wr_val _ _ _ _ Hwr) as Eb'. destruct l; simpl in *; [by rewrite Eb|by rewrite Es]. }
      apply (Hdown f3 b Hr3 Hp3 Hb (gr_range _ _ _ Hg)). intros s4 Hk4. rewrite Es in Hk4.
      destruct (descend_new f f1 f2 (Fs s4 (info f3)) l n id b) as [Hde Hz];
        [done|done|apply Hr|by eapply owner_nil|done..|].
      simpl in Hz. rewrite Hz. assert (path s4 n 0 id = []) as -> by (by destruct n).
      assert (walk s4 n 0 id = 0) as -> by (by destruct n). split_and!; [done|done|done|constructor|].
      split; [apply (de_live _ _ _ _ _ _ Hde)|apply not_elem_of_nil].
    + wp_step. apply wp_ret. simpl in Hlv, Hnd, Ho. rewrite (proj2 (Z.eqb_neq v 0) E) in Hlv, Hnd, Ho.
      assert (live (store f) v) as Hv by (by apply Forall_cons in Hlv as [? _]).
      apply (Hdown f v); [|done|done|apply Hv|].
      { destruct Hr. split; try done. by eapply room_ext; [| |done]; [done|lia]. }
      intros s4 Hk4. destruct (descend_old f s4 l n id v) as (Hde & H2 & H3 & H4);
        [done|done|simpl; by rewrite (proj2 (Z.eqb_neq v 0) E)..|done|].
      split_and!; [done| |done..]. simpl in Hw. rewrite (proj2 (Z.eqb_neq v 0) E) in Hw.
      rewrite (walk_keeps (store f) s4) by done. rewrite <-Hw. unfold ptr_at, blk. by rewrite (proj1 (proj2 Hk4)).
Qed.

(** The block a block number of the inode is mapped to; 0 when there is none. *)
Definition root_of (f : @fs St) (bno : Z) : Z := blocks (info f) !!! Z.to_nat (12 + layer_of bno).
Definition levels (bno : Z) : nat := Z.to_nat (layer_of bno) + 1.
Definition block_of (f : @fs St) (bno : Z) : Z :=
  if bno <? 12 then blocks (info f) !!! Z.to_nat bno
  else walk (store f) (levels bno) (root_of f bno) (ids_of bno).
Definition path_of (f : @fs St) (bno : Z) : list Z :=
  if bno <? 12 then [] else path (store f) (levels bno) (root_of f bno) (ids_of bno).

Lemma wp_get_bid f bno : vol_ok (store f) → length (blocks (info f)) = 15%nat → 0 ≤ bno < max_bno →
  Forall (λ b, 0 ≤ b < nblocks) (path_of f bno) →
  wp (get_bid i bno) (λ r f', r = block_of f bno ∧ info f' = info f ∧ keeps (store f) (store f')) f.
Proof.
  intros Hv Hlen Hb Hp. unfold get_bid, block_of, path_of, N_DIRECT_BLOCK in *.
  destruct (Z.ltb_spec bno 12) as [Hd|Hd].
  - do 2 wp_step. wp_step; [apply list_lookup_lookup_total_lt; lia|]. split_and!; [done|done|apply vkeeps_refl, Hv].
  - pose proof (layer_cases bno ltac:(lia)) as Hl. destruct (ids_of_ok bno) as [Hid _]; [lia|].
    wp_step. eapply wp_intro; [apply find_block_layer_ok; lia|]. cbv beta iota. do 2 wp_step. wp_step.
    wp_step; [apply list_lookup_lookup_total_lt; lia|]. apply wp_bid_walk; [done|done|unfold levels; lia|done].
Qed.

(** The pointer blocks on the way to [bno] are blocks in use, each met once. *)
Definition tree_ok (f : @fs St) (bno : Z) : Prop :=
  Forall (live (store f)) (path_of f bno) ∧ NoDup (path_of f bno).

(** The state an allocation starts from. *)
Record alloc_ready (f : @fs St) (bno : Z) : Prop := AllocReady {
  al_vol : vol_ok (store f);
  al_sys : sys_used (store f);
  al_room : room (store f) 4;
  al_len : length (blocks (info f)) = 15%nat;
  al_anchor : if bno <? 12 then anchored (info f)
    else ∃ b0, blocks (info f) !! 0%nat = Some b0 ∧ b0 ≠ 0 ∧ 0 ≤ b0 < nblocks;
  al_bno : 0 ≤ bno < max_bno;
  al_tree : tree_ok f bno }.

(** What an allocation of block number [bno] does. *)
Record allocated (f f' : @fs St) (bno bid : Z) : Prop := Allocated {
  alt_vol : vol_ok (store f');
  alt_bid : bid ≠ 0 ∧ 0 ≤ bid < nblocks ∧ used (store f) bid = false ∧ used (store f') bid = true;
  alt_map : wp (get_bid i bno) (λ r _, r = bid) f';
  alt_used : ∀ b, 0 ≤ b < nblocks → used (store f) b = true → used (store f') b = true;
  alt_blk : ∀ b, live (store f) b → b ∉ path_of f bno → blk (store f') b = blk (store f) b;
  alt_len : length (blocks (info f')) = 15%nat;
  alt_info : ∀ k, Z.of_nat k ≠ (if bno <? 12 then bno else 12 + layer_of bno) →
    blocks (info f') !! k = blocks (info f) !! k }.

Lemma wp_alloc_direct f bno : alloc_ready f bno → bno < 12 → block_of f bno = 0 →
  wp (alloc_block i bno) (λ bid f', allocated f f' bno bid) f.
Proof.
  intros [A1 A2 A3 A4 A5 A6 _] Hd Hu. unfold alloc_block, N_DIRECT_BLOCK. unfold block_of in Hu.
  rewrite (proj2 (Z.ltb_lt bno 12) Hd) in *. do 2 wp_step. wp_step.
  wp_step; [apply list_lookup_lookup_total_lt; lia|]. wp_step. apply wp_assertk. split; [by rewrite Hu|]. wp_step.
  destruct (wp_set_block_bitmap f A1 A5) as (g & [Hg _] & [[Hf _]|Hw]); [by edestruct room_searched|].
  eapply wp_mono; [exact Hw|]. intros bid f1 (_ & Ei & Ht). unfold inc_blockCnt, set_info. wp_go.
  assert (bid ≠ 0) as Hb0. { intros ->. pose proof (t_free _ _ _ Ht) as E. by rewrite (proj1 A2) in E. }
  split; simpl.
  - apply Ht.
  - split_and!; [done|apply Ht|apply Ht|apply Ht|]. by rewrite (t_used _ _ _ Ht), Z.eqb_refl, orb_true_r by apply Ht.
  - unfold get_bid, N_DIRECT_BLOCK. rewrite (proj2 (Z.ltb_lt bno 12) Hd). do 2 wp_step. simpl.
    wp_step; [apply list_lookup_insert_eq; rewrite Ei; lia|done].
  - intros b Hb E. by rewrite (t_used _ _ _ Ht), E by done.
  - intros b (_ & Hb & _ & Hm) _. by apply (t_blk _ _ _ Ht).
  - by rewrite list.length_insert, Ei.
  - intros k Hk. rewrite (proj2 (Z.ltb_lt bno 12) Hd) in Hk. rewrite list_lookup_insert_ne, Ei; [done|lia].
Qed.

Lemma wp_alloc_indirect f bno : alloc_ready f bno → 12 ≤ bno → block_of f bno = 0 →
  wp (alloc_block i bno) (λ bid f', allocated f f' bno bid) f.
Proof.
  intros [A1 A2 A3 A4 A5 A6 [A7 A8]] Hd Hu. unfold alloc_block, N_DIRECT_BLOCK. unfold block_of, path_of in *.
  assert ((bno <? 12) = false) as E12 by (apply Z.ltb_ge; lia). rewrite E12 in *.
  pose proof (layer_cases bno ltac:(lia)) as Hl. destruct (ids_of_ok bno) as [Hid _]; [lia|].
  set (k := Z.to_nat (12 + layer_of bno)) in *.
  assert (loc_val f (LInfo k) = root_of f bno) as Er.
  { simpl. unfold root_of. fold k. by rewrite list_lookup_lookup_total_lt by lia. }
  wp_step. eapply wp_intro; [apply find_block_layer_ok; lia|]. cbv beta iota. wp_step.
  eapply wp_mono.
  { apply (wp_alloc_walk (levels bno) f (SInfo k) (LInfo k)); rewrite ?Er; try done.
    - unfold levels. lia.
    - split; [done|]. lia.
    - split; try done. eapply room_ext; [|unfold levels|done]; [done|lia].
    - simpl. lia. }
  intros p' f' (l' & bid & Ha & Hp' & Hb). eapply wp_intro; [by apply rd_slot_ok; [apply Ha|]|]. rewrite Hb.
  assert (root_of f' bno = loc_val f' (LInfo k)) as Er'.
  { simpl. unfold root_of. fold k. rewrite list_lookup_lookup_total_lt; [done|]. rewrite (ad_len _ _ _ _ _ _ Ha). lia. }
  split.
  - apply Ha.
  - apply Ha.
  - eapply wp_mono; [apply wp_get_bid; [apply Ha| |lia|]|].
    + by rewrite (ad_len _ _ _ _ _ _ Ha).
    + unfold path_of. rewrite E12, Er'. apply (ad_path _ _ _ _ _ _ Ha).
    + intros r f2 (-> & _). unfold block_of. rewrite E12, Er'. apply (ad_walk _ _ _ _ _ _ Ha).
  - apply Ha.
  - intros b Hb' Hnp. unfold path_of in Hnp. rewrite E12 in Hnp. apply (ad_blk _ _ _ _ _ _ Ha); [done|by rewrite Er|done].
  - by rewrite (ad_len _ _ _ _ _ _ Ha).
  - intros k' Hk'. rewrite E12 in Hk'. apply (ad_info _ _ _ _ _ _ Ha). intros [= E]. unfold k in E. lia.
Qed.


(** [set_block_bitmap] picks a group - the one with the fewest free blocks for an
    empty inode, otherwise the first one with a free block from the group of the
    inode's first block on - and takes the first free block among the 4096 it looks
    at: exactly that block's bit is set, the group's counter goes down by one, and no
    block but the bitmap and the descriptor block changes.  When those 4096 blocks are
    all in use the kernel panics, whatever the rest of the group is. *)
Theorem set_block_bitmap_cases f : vol_ok (store f) → anchored (info f) →
  ∃ g, picked (store f) (info f) g ∧
    ((searched_full (store f) g ∧ set_block_bitmap i f = Err Assert) ∨
     wp (set_block_bitmap i) (λ bid f',
       bid / 32768 = g ∧ info f' = info f ∧ 0 ≤ bid < nblocks ∧ used (store f) bid = false ∧
       (∀ n, n / 32768 = g → 0 ≤ n < bid → used (store f) n = true) ∧
       (∀ n, 0 ≤ n < nblocks → used (store f') n = used (store f) n || (n =? bid)) ∧
       (∀ g', 0 ≤ g' < groupCnt i → ∃ v, free_cnt (store f) g' = Some v ∧
          free_cnt (store f') g' = Some (if g' =? g then u16 (v - 1) else v)) ∧
       (∀ n, 0 ≤ n < nblocks → ¬ meta n → blk (store f') n = blk (store f) n)) f).
Proof.
  intros Hv Ha. destruct (wp_set_block_bitmap f Hv Ha) as (g & Hp & [Hf|Hw]); exists g; (split; [done|]).
  - by left.
  - right. eapply wp_mono; [exact Hw|]. intros bid f' (<- & Ei & Ht). split_and!; try done; try apply Ht.
Qed.
End volume.

(** ** A small volume

    One group on a disk of zeros: the super block, the descriptor block 1, the
    bitmap block 2, and the first eight blocks in use.  The inode has block 7. *)

Definition demo_sb : ext2_sb_info :=
  SbInfo (SuperBlock EXT2_SIGNATURE 4096 128) 8192 32768 1 1 [InfoDesc 3 2 4].
Definition demo_store : sparse :=
  Sparse (<[8 := put16 (put32 (put32 (put32 zeros 0 2) 4 3) 8 4) 12 32760]> {[ 16 := put8 zeros 0 255 ]}).
Definition demo_fs : @fs sparse := Fs demo_store (InodeInfo 1 (7 :: replicate 14 0)).

Lemma demo_geometry : geometry demo_sb.
Proof.
  assert (∀ g b, 0 ≤ g < groupCnt demo_sb → bitmap_block demo_sb g b → g = 0 ∧ b = 2) as Hb.
  { intros g b Hg (d & Hd & <-). simpl in Hg. assert (g = 0) as -> by lia. simpl in Hd. by injection Hd as <-. }
  split; [done|done|done|done| |].
  - intros g b Hg H. destruct (Hb g b Hg H) as [-> ->]. split; [done|]. unfold gd_block. simpl. intros [_ H2]. by apply H2.
  - intros g g' b Hg Hg' H H'. destruct (Hb g b Hg H), (Hb g' b Hg' H'). congruence.
Qed.

Lemma demo_vol : vol_ok demo_sb demo_store.
Proof.
  split; [|intros n _; by eexists]. simpl. unfold sp_inv, demo_store. simpl.
  apply map_Forall_insert_2; [|apply map_Forall_singleton].
  - apply put16_page. do 3 apply put32_page. apply zeros_page.
  - apply put8_page, zeros_page.
Qed.

Lemma demo_sys : sys_used demo_sb demo_store.
Proof.
  split; [vm_compute; reflexivity|]. intros b [[H1 H2]|(g & Hg & d & Hd & <-)].
  - simpl in H2. change ((1 - 1) / 128) with 0 in H2. assert (b = 1) as -> by lia. vm_compute. reflexivity.
  - simpl in Hg. assert (g = 0) as -> by lia. simpl in Hd. injection Hd as <-. vm_compute. reflexivity.
Qed.

Lemma demo_room : room demo_sb demo_store 4.
Proof.
  intros g Hg. simpl in Hg. assert (g = 0) as -> by lia. exists [8; 9; 10; 11].
  split; [apply (bool_decide_unpack _); by vm_compute|]. split; [done|].
  apply Forall_forall. repeat constructor; vm_compute; (reflexivity || discriminate).
Qed.

Lemma demo_ready : alloc_ready demo_sb demo_fs 12.
Proof.
  split; [apply demo_vol|apply demo_sys|apply demo_room|done| |by vm_compute|by split; constructor].
  simpl. exists 7. by vm_compute.
Qed.


Lemma set_block_bitmap_cases_witness :
  vol_ok demo_sb demo_store ∧ anchored demo_sb (info demo_fs) ∧ ∃ g, picked demo_sb demo_store (info demo_fs) g.
Proof.
  assert (anchored demo_sb (info demo_fs)) as Ha by (right; exists 7; split; [reflexivity|split; [discriminate|split; [discriminate|reflexivity]]]).
  split; [exact demo_vol|]. split; [exact Ha|].
  destruct (set_block_bitmap_cases demo_sb demo_geometry demo_fs demo_vol Ha) as (g & Hp & _). exists g. exact Hp.
Defined.

Lemma clear_block_bitmap_cases_witness :
  vol_ok demo_sb demo_store ∧ 0 ≤ 7 < nblocks demo_sb ∧
  wp (clear_block_bitmap demo_sb 7) (λ _ f', used demo_sb (store f') 7 = false) demo_fs.
Proof.
  assert (0 ≤ 7 < nblocks demo_sb) as H7 by (split; [discriminate|reflexivity]).
  split; [exact demo_vol|]. split; [exact H7|].
  eapply wp_mono; [apply (proj1 (clear_block_bitmap_cases demo_sb demo_geometry demo_fs 7 demo_vol H7)); reflexivity|].
  intros [] f' (_ & Hu & _). rewrite (Hu 7 H7). apply andb_false_r.
Defined.
