(* ===== verification/Ext2Dir.v ===== *)
(** * ext2 directories

    Models the parts of [fs/ext2/dir.c] that work on the blocks of a directory.  An
    entry is named by the buffer of its page and its offset; a file name is the list
    of its characters.  The walk over the entries of a block follows [entrySize];
    every size but 0 moves on by at least one byte, so the fuel of 4097 rounds ends
    only on an entry of size 0, where the code loops for ever. *)

From S2P Require Import Prelude QLib Page BlockStore Ext2.
From Stdlib Require Import ZArith Lia.
From stdpp Require Import base numbers list.
Open Scope Z_scope.

Definition FILE_NAME_LEN : Z := 128.
Definition sizeof_dir : Z := Eval vm_compute in sizeof ext2_directory_entry.

Definition EXT2_FT_UNKNOWN : Z := 0.
Definition EXT2_FT_REG_FILE : Z := 1.
Definition EXT2_FT_DIR : Z := 2.
Definition EXT2_FT_CHRDEV : Z := 3.
Definition EXT2_FT_BLKDEV : Z := 4.
Definition EXT2_FT_FIFO : Z := 5.
Definition EXT2_FT_SOCK : Z := 6.
Definition EXT2_FT_SYMLINK : Z := 7.

Definition type_map : list Z :=
  [EXT2_FT_FIFO; EXT2_FT_CHRDEV; EXT2_FT_DIR; EXT2_FT_BLKDEV; EXT2_FT_REG_FILE; EXT2_FT_SYMLINK; EXT2_FT_SOCK].

(** [None] is the read behind the array for an index of 7. *)
Definition type_inode2dir (type : Z) : option Z :=
  let index := Z.shiftr type 13 in
  if 7 <? index then Some EXT2_FT_UNKNOWN else type_map !! Z.to_nat index.

Definition ALIGN4 (size : Z) : Z := MEM_ALIGN size 4.

Section dir.
Context {St : Type} `{B : BlockStore St} (i : ext2_sb_info).

(** The end of the block the entry at offset [o] is in; pages are aligned. *)
Definition DIR_END (o blockSize : Z) : Z := Z.land o (Z.lnot (blockSize - 1)) + blockSize.

(** The fields of the entry at offset [o] of the page [buf]. *)
Definition de_inode (buf o : Z) : M St Z := bs_load32 buf o.
Definition de_entrySize (buf o : Z) : M St Z := bs_load16 buf (o + 4).
Definition de_nameLen (buf o : Z) : M St Z := bs_load buf (o + 6).
Definition set_inode (buf o v : Z) : M St unit := bs_store32 buf o v.
Definition set_entrySize (buf o v : Z) : M St unit := bs_store16 buf (o + 4) v.
Definition set_nameLen (buf o v : Z) : M St unit := bs_store buf (o + 6) v.
Definition set_type (buf o v : Z) : M St unit := bs_store buf (o + 7) v.

Definition dir_len (buf o : Z) : M St Z :=
  n ← de_nameLen buf o; mret (ALIGN4 (sizeof_dir + n)).

Definition next_entry (buf o : Z) : M St Z := z ← de_entrySize buf o; mret (o + z).

(** [for_each_dir]: [body] answers [Some r] to leave the loop with [r]. *)
Definition for_each_dir {A} (buf o blockSize : Z) (body : Z → M St (option A)) : M St (option A) :=
  let fin := DIR_END o blockSize in
  loop 4097 (λ o : Z,
    if o <? fin then
      r ← body o;
      match r with
      | Some a => mret (inr (Some a))
      | None => o' ← next_entry buf o; mret (inl o')
      end
    else mret (inr None)) o.

(** [memcmp(name, dir->name, n)]: whether the characters are equal. *)
Fixpoint cmp_name (buf o : Z) (name : list Z) : M St bool :=
  match name with
  | [] => mret true
  | c :: name' =>
      x ← bs_load buf o;
      if x =? c then cmp_name buf (o + 1) name' else mret false
  end.

(** [memcpy(new->name, name, n)] *)
Fixpoint copy_name (buf o : Z) (name : list Z) : M St unit :=
  match name with
  | [] => mret tt
  | c :: name' => bs_store buf o c;; copy_name buf (o + 1) name'
  end.

(** The entry matches a name: it is in use and has these characters. *)
Definition match_entry (buf o : Z) (name : list Z) : M St bool :=
  ino ← de_inode buf o;
  if ino =? 0 then mret false
  else
    n ← de_nameLen buf o;
    if n =? Z.of_nat (length name) then cmp_name buf (o + sizeof_dir) name else mret false.

(** The search of [find_entry_disk] in one block: the inode number of the entry. *)
Definition find_in_block (buf blockSize : Z) (name : list Z) : M St (option Z) :=
  for_each_dir buf 0 blockSize (λ o,
    m ← match_entry buf o name;
    if m : bool then ino ← de_inode buf o; mret (Some ino) else mret None).

Definition merge_dir_entry (buf o blockSize : Z) : M St unit :=
  ino ← de_inode buf o;
  if negb (ino =? 0) then mret tt
  else
    size ← loop 4097 (λ '(h, size),
      if h <? DIR_END o blockSize then
        ino ← de_inode buf h;
        if negb (ino =? 0) then mret (inr size)
        else
          z ← de_entrySize buf h;
          h' ← next_entry buf h;
          mret (inl (h', u32 (size + z)))
      else mret (inr size)) (o, 0);
    set_entrySize buf o size.

(** The second half of [new_dir_entry]: fill the entry at [new] and split what is
    left of it.  Answers the offset of the entry returned, [None] for NULL. *)
Definition place_entry (buf new entrySize ino : Z) (name : list Z) (type : Z) : M St (option Z) :=
  sz ← de_entrySize buf new;
  if sz <? entrySize then mret None
  else
    set_inode buf new ino;;
    set_nameLen buf new (Z.of_nat (length name));;
    set_type buf new type;;
    copy_name buf (new + sizeof_dir) name;;
    sz ← de_entrySize buf new;
    let remain := u32 (sz - entrySize) in
    if ALIGN4 (sizeof_dir + 1) <? remain then
      set_entrySize buf new entrySize;;
      let rest := new + entrySize in
      set_inode buf rest 0;;
      set_entrySize buf rest remain;;
      mret (Some rest)
    else mret (Some new).

Definition new_dir_entry (buf o ino : Z) (name : list Z) (type : Z) : M St (option Z) :=
  let name_len := Z.of_nat (length name) in
  assertk (name_len <? FILE_NAME_LEN);;
  let entrySize := ALIGN4 (name_len + sizeof_dir) in
  dl ← dir_len buf o;
  let dirLen := ALIGN4 dl in
  old ← de_inode buf o;
  if negb (old =? 0) then
    z ← de_entrySize buf o;
    if u32 (z - dirLen) <? entrySize then mret None
    else
      let new := o + dirLen in
      set_entrySize buf new (u32 (z - dirLen));;
      set_entrySize buf o dirLen;;
      place_entry buf new entrySize ino name type
  else place_entry buf o entrySize ino name type.

(** One block of [create_dir_entry]: whether the entry was placed. *)
Definition create_in_block (buf blockSize ino : Z) (name : list Z) (type : Z) : M St (option unit) :=
  for_each_dir buf 0 blockSize (λ o,
    r ← new_dir_entry buf o ino name type;
    match r with
    | Some new => merge_dir_entry buf new blockSize;; bs_mark buf;; mret (Some tt)
    | None => mret None
    end).

(** One block of [remove_from_parent]. *)
Definition remove_in_block (buf blockSize : Z) (name : list Z) : M St (option unit) :=
  for_each_dir buf 0 blockSize (λ o,
    m ← match_entry buf o name;
    if m : bool then
      set_inode buf o 0;;
      merge_dir_entry buf o blockSize;;
      bs_mark buf;;
      mret (Some tt)
    else mret None).

(** The loop of [dir_empty] over one block: [Some tt] when an entry other than "."
    and ".." is in use. *)
Definition dot : Z := 46.
Definition nonempty_block (buf blockSize : Z) : M St (option unit) :=
  for_each_dir buf 0 blockSize (λ o,
    ino ← de_inode buf o;
    if ino =? 0 then mret None
    else
      c0 ← bs_load buf (o + sizeof_dir);
      if negb (c0 =? dot) then mret (Some tt)
      else
        n ← de_nameLen buf o;
        if n =? 1 then mret None
        else if n =? 2 then
          c1 ← bs_load buf (o + sizeof_dir + 1);
          if c1 =? dot then mret None else mret (Some tt)
        else mret (Some tt)).

(** ** Over the blocks of the directory *)

(** [for_each_block]: the iterator starts at [{0, 0, 0, 0}].  [fuel] bounds the number
    of blocks. *)
Definition for_each_block {A} (fuel : nat) (body : Z → M (@fs St) (option A)) : M fs (option A) :=
  loop fuel (λ id : list Z,
    '(bid, id') ← next_block i id;
    if bid =? 0 then mret (inr None)
    else
      r ← body bid;
      match r with
      | Some a => mret (inr (Some a))
      | None => mret (inl id')
      end) [0; 0; 0; 0].

Definition find_entry_disk (fuel : nat) (name : list Z) : M fs (option Z) :=
  for_each_block fuel (λ bid,
    buf ← on_store (ext2_block_read bid (sb i));
    on_store (find_in_block buf (blockSize (sb i)) name)).

(** [size] is [parent->size]; the answer is its new value. *)
Definition next_free_bno (size : Z) : Z := u32 (u64 (size + blockSize (sb i) - 1) / blockSize (sb i)).

Definition create_dir_entry (fuel : nat) (name : list Z) (ino type size : Z) : M fs Z :=
  r ← for_each_block fuel (λ bid,
    buf ← on_store (ext2_block_read bid (sb i));
    on_store (create_in_block buf (blockSize (sb i)) ino name type));
  match r with
  | Some _ => mret size
  | None =>
      bid ← alloc_block i (next_free_bno size);
      buf ← on_store (ext2_block_read bid (sb i));
      on_store (set_inode buf 0 0);;
      on_store (set_entrySize buf 0 (blockSize (sb i)));;
      _ ← on_store (new_dir_entry buf 0 ino name type);
      on_store (bs_mark buf);;
      mret (u64 (size + blockSize (sb i)))
  end.

(** The entries [.] and [..] of a new directory; [blocks[0]] is its first block. *)
Definition make_empty_dir (ino parent_ino : Z) : M fs unit :=
  f ← get;
  bid ← deref (blocks (info f) !! 0%nat);
  assertk (truth bid);;
  buf ← on_store (ext2_block_read bid (sb i));
  on_store (set_inode buf 0 0);;
  on_store (set_entrySize buf 0 (blockSize (sb i)));;
  r ← on_store (new_dir_entry buf 0 ino [dot] EXT2_FT_DIR);
  o ← deref r;
  _ ← on_store (new_dir_entry buf o parent_ino [dot; dot] EXT2_FT_DIR);
  on_store (bs_mark buf).

(** [linkCnt] and whether the inode is a directory are read from the inode. *)
Definition dir_empty (fuel : nat) (is_dir : bool) (linkCnt : Z) : M fs bool :=
  assertk is_dir;;
  if negb (linkCnt =? 2) then mret false
  else
    r ← for_each_block fuel (λ bid,
      buf ← on_store (ext2_block_read bid (sb i));
      on_store (nonempty_block buf (blockSize (sb i))));
    mret match r with Some _ => false | None => true end.

Definition remove_from_parent (fuel : nat) (name : list Z) : M fs unit :=
  _ ← for_each_block fuel (λ bid,
    buf ← on_store (ext2_block_read bid (sb i));
    on_store (remove_in_block buf (blockSize (sb i)) name));
  mret tt.
End dir.
