(* ===== verification/Ext2DirCorrect.v ===== *)
(** * ext2 directories: the entries of a block

    A directory block is a sequence of entries that fill it.  The theorems say how
    the search, the insertion and the removal of [Ext2Dir] act on the list of the
    names in use, with their inodes and types. *)

From S2P Require Import Prelude QLib Page BlockStore Ext2 Ext2Dir.
From Stdlib Require Import ZArith Lia.
From stdpp Require Import base numbers sets list.
Open Scope Z_scope.

#[local] Arguments Z.to_nat : simpl never.
#[local] Arguments Z.mul : simpl never.
#[local] Arguments Z.pow : simpl never.
#[local] Arguments Z.div : simpl never.
#[local] Arguments Z.modulo : simpl never.

(** ** Bytes at the front of a suffix *)

Abbreviation len l := (Z.of_nat (length l)).

Lemma byte_at_app (P R : bytes) x : byte_at (P ++ x :: R) (len P) = x.
Proof. unfold byte_at. rewrite Nat2Z.id, lookup_app_r by lia. by rewrite Nat.sub_diag. Qed.
Lemma put8_app (P R : bytes) x v : put8 (P ++ x :: R) (len P) v = P ++ u8 v :: R.
Proof. unfold put8. rewrite Nat2Z.id. by rewrite insert_app_r_alt, Nat.sub_diag by lia. Qed.

Lemma byte_at_shift (P R : bytes) o : 0 ≤ o → byte_at (P ++ R) (len P + o) = byte_at R o.
Proof. intros. unfold byte_at. rewrite lookup_app_r by lia. do 2 f_equal. lia. Qed.
Lemma put8_shift (P R : bytes) o v : 0 ≤ o → put8 (P ++ R) (len P + o) v = P ++ put8 R o v.
Proof. intros. unfold put8. rewrite insert_app_r_alt by lia. do 2 f_equal. lia. Qed.

Lemma le16_shift (P R : bytes) o : 0 ≤ o → le16 (P ++ R) (len P + o) = le16 R o.
Proof. intros. unfold le16. rewrite byte_at_shift, <-Z.add_assoc, byte_at_shift by lia. done. Qed.
Lemma le32_shift (P R : bytes) o : 0 ≤ o → le32 (P ++ R) (len P + o) = le32 R o.
Proof. intros. unfold le32. rewrite le16_shift, <-Z.add_assoc, le16_shift by lia. done. Qed.
Lemma put16_shift (P R : bytes) o v : 0 ≤ o → put16 (P ++ R) (len P + o) v = P ++ put16 R o v.
Proof. intros. unfold put16. rewrite put8_shift, <-Z.add_assoc, put8_shift by lia. done. Qed.
Lemma put32_shift (P R : bytes) o v : 0 ≤ o → put32 (P ++ R) (len P + o) v = P ++ put32 R o v.
Proof. intros. unfold put32. rewrite put16_shift, <-Z.add_assoc, put16_shift by lia. done. Qed.

(** ** Entries *)

Definition enc16 (v : Z) : bytes := [v mod 256; v / 256 mod 256].
Definition enc32 (v : Z) : bytes := enc16 (v mod 65536) ++ enc16 (v / 65536).

(** [e_body] is what follows the header, up to the next entry. *)
Record dent := Dent { e_ino : Z; e_size : Z; e_nlen : Z; e_type : Z; e_body : bytes }.

Definition enc (e : dent) : bytes :=
  enc32 (e_ino e) ++ enc16 (e_size e) ++ [e_nlen e; e_type e] ++ e_body e.

Definition e_name (e : dent) : bytes := take (Z.to_nat (e_nlen e)) (e_body e).

Record dent_ok (e : dent) : Prop := DentOk {
  ok_ino : 0 ≤ e_ino e < 2 ^ 32;
  ok_nlen : 0 ≤ e_nlen e < 256;
  ok_type : 0 ≤ e_type e < 256;
  ok_body : Forall byte_ok (e_body e);
  ok_size : e_size e = 8 + len (e_body e);
  ok_mod : e_size e mod 4 = 0;
  ok_fit : e_ino e ≠ 0 → 8 + e_nlen e ≤ e_size e }.

(** The names in use with their inodes and types. *)
Definition names (es : list dent) : list (bytes * (Z * Z)) :=
  (λ e, (e_name e, (e_ino e, e_type e))) <$> filter (λ e, e_ino e ≠ 0) es.

Lemma len_enc e : len (enc e) = 8 + len (e_body e).
Proof. unfold enc. rewrite !length_app. simpl. lia. Qed.

Lemma enc_cons e : enc e = [e_ino e mod 65536 mod 256; e_ino e mod 65536 / 256 mod 256;
  e_ino e / 65536 mod 256; e_ino e / 65536 / 256 mod 256; e_size e mod 256; e_size e / 256 mod 256;
  e_nlen e; e_type e] ++ e_body e.
Proof. done. Qed.

Lemma enc_ino e R : 0 ≤ e_ino e < 2 ^ 32 → le32 (enc e ++ R) 0 = e_ino e.
Proof.
  intros H. rewrite enc_cons. unfold le32, le16, byte_at. simpl.
  change (2 ^ 8) with 256. change (2 ^ 16) with 65536. change (2 ^ 32) with 4294967296 in H.
  Z.div_mod_to_equations. lia.
Qed.
Lemma enc_size e R : 0 ≤ e_size e < 65536 → le16 (enc e ++ R) 4 = e_size e.
Proof.
  intros H. rewrite enc_cons. unfold le16, byte_at. simpl. change (2 ^ 8) with 256.
  Z.div_mod_to_equations. lia.
Qed.
Lemma enc_nlen e R : byte_at (enc e ++ R) 6 = e_nlen e.
Proof. done. Qed.

Definition with_ino (e : dent) v := Dent v (e_size e) (e_nlen e) (e_type e) (e_body e).
Definition with_size (e : dent) v := Dent (e_ino e) v (e_nlen e) (e_type e) (e_body e).
Definition with_nlen (e : dent) v := Dent (e_ino e) (e_size e) v (e_type e) (e_body e).
Definition with_type (e : dent) v := Dent (e_ino e) (e_size e) (e_nlen e) v (e_body e).
Definition with_body (e : dent) b := Dent (e_ino e) (e_size e) (e_nlen e) (e_type e) b.

Lemma put_size e R v : 0 ≤ v → put16 (enc e ++ R) 4 v = enc (with_size e v) ++ R.
Proof.
  intros Hv. rewrite !enc_cons. unfold put16, put8. simpl. unfold u8. rewrite Z.shiftr_div_pow2 by lia. done.
Qed.
Lemma put_ino e R v : 0 ≤ v < 2 ^ 32 → put32 (enc e ++ R) 0 v = enc (with_ino e v) ++ R.
Proof.
  intros Hv. rewrite !enc_cons. unfold put32, put16, put8. simpl. unfold u8.
  rewrite !Z.shiftr_div_pow2 by lia. change (2 ^ 8) with 256. change (2 ^ 16) with 65536.
  replace (v mod 65536 mod 256) with (v mod 256) by (Z.div_mod_to_equations; lia).
  by replace (v mod 65536 / 256 mod 256) with (v / 256 mod 256) by (Z.div_mod_to_equations; lia).
Qed.
Lemma put_nlen e R v : 0 ≤ v < 256 → put8 (enc e ++ R) 6 v = enc (with_nlen e v) ++ R.
Proof. intros Hv. rewrite !enc_cons. unfold put8. simpl. by rewrite u8_small. Qed.
Lemma put_type e R v : 0 ≤ v < 256 → put8 (enc e ++ R) 7 v = enc (with_type e v) ++ R.
Proof. intros Hv. rewrite !enc_cons. unfold put8. simpl. by rewrite u8_small. Qed.
Lemma enc_split e k R :
  enc e ++ R = enc (with_body e (take k (e_body e))) ++ drop k (e_body e) ++ R.
Proof.
  rewrite !enc_cons. simpl. do 8 f_equal. by rewrite app_assoc, take_drop.
Qed.

(** Any eight bytes and what follows them are an entry. *)
Lemma raw_dent l : Forall byte_ok l → 8 ≤ len l → ∃ e, l = enc e ∧
  0 ≤ e_ino e < 2 ^ 32 ∧ 0 ≤ e_nlen e < 256 ∧ 0 ≤ e_type e < 256 ∧ Forall byte_ok (e_body e).
Proof.
  intros Hl Hn. destruct l as [|a [|b [|c [|d [|e [|f [|g [|h l]]]]]]]]; simpl in Hn; try lia.
  rewrite !Forall_cons in Hl. unfold byte_ok in Hl. destruct Hl as (?&?&?&?&?&?&?&?&?).
  exists (Dent (a + 256 * b + 65536 * (c + 256 * d)) (e + 256 * f) g h l). rewrite enc_cons; simpl.
  change (2 ^ 32) with 4294967296.
  split_and!; try lia; [|done..]. do 5 (f_equal; [Z.div_mod_to_equations; lia|]). f_equal. Z.div_mod_to_equations; lia.
Qed.

Lemma ALIGN4_val n : 0 ≤ n < 2 ^ 31 → ALIGN4 n = 4 * ((n + 3) / 4).
Proof.
  intros H. unfold ALIGN4, MEM_ALIGN. change (2 ^ 31) with 2147483648 in H.
  rewrite u32_small by (change (2 ^ 32) with 4294967296; lia).
  replace (n + 4 - 1) with (n + 3) by lia.
  change (4 - 1) with (2 ^ 2 - 1). change (u32 (Z.lnot (2 ^ 2 - 1))) with (Z.lnot (2 ^ 2 - 1) mod 2 ^ 32).
  rewrite land_lnot_low; [done|lia|]. change (2 ^ 32) with 4294967296. lia.
Qed.

Lemma ALIGN4_bounds n : 0 ≤ n < 2 ^ 31 → n ≤ ALIGN4 n ≤ n + 3 ∧ ALIGN4 n mod 4 = 0.
Proof. intros H. rewrite ALIGN4_val by done. Z.div_mod_to_equations. lia. Qed.
Lemma ALIGN4_id n : 0 ≤ n < 2 ^ 31 → n mod 4 = 0 → ALIGN4 n = n.
Proof. intros H ?. rewrite ALIGN4_val by done. Z.div_mod_to_equations. lia. Qed.
Lemma ALIGN4_le n m : 0 ≤ n < 2 ^ 31 → n ≤ m → m mod 4 = 0 → ALIGN4 n ≤ m.
Proof. intros H ??. rewrite ALIGN4_val by done. Z.div_mod_to_equations. lia. Qed.

Lemma DIR_END_page o : 0 ≤ o < 4096 → DIR_END o 4096 = 4096.
Proof.
  intros H. unfold DIR_END. change (4096 - 1) with (Z.ones 12).
  assert (Z.land o (Z.lnot (Z.ones 12)) = 0) as ->; [|done].
  rewrite <-Z.ldiff_land, Z.ldiff_ones_r, Z.shiftr_div_pow2 by lia.
  change (2 ^ 12) with 4096. by rewrite Z.div_small.
Qed.

Lemma names_app es es' : names (es ++ es') = names es ++ names es'.
Proof. unfold names. by rewrite filter_app, fmap_app. Qed.
Lemma names_free e es : e_ino e = 0 → names (e :: es) = names es.
Proof. intros H. unfold names. by rewrite filter_cons_False by (intros ?; done). Qed.
Lemma names_used e es : e_ino e ≠ 0 → names (e :: es) = (e_name e, (e_ino e, e_type e)) :: names es.
Proof. intros H. unfold names. by rewrite filter_cons_True. Qed.

Ltac fits := change BUF_SIZE with 4096; lia.

#[local] Arguments enc : simpl never.

(** ** Access to an entry *)

Section entry.
Context {St : Type} `{B : BlockStore St} (b no : Z).

(** The buffer [b] holds the page [no] with contents [d]. *)
Definition holds (s : St) (d : bytes) : Prop :=
  bs_inv s ∧ bs_at s b no ∧ bs_view s no = Some d.

Lemma holds_changed s d d' s' : holds s d → changed s no d' s' → holds s' d'.
Proof. intros (_ & Ha & _) H. split_and!; [by eapply changed_inv|by eapply changed_at|by eapply changed_eq]. Qed.

Lemma changed_refl s d : holds s d → changed s no d s.
Proof. intros (Hi & _ & Hv). split_and!; [done|done|]. intros n. case_decide; by subst. Qed.

Lemma holds_len s d : holds s d → len d = 4096.
Proof. intros (Hi & _ & Hv). destruct (bs_page _ _ _ Hi Hv) as [-> _]. done. Qed.
Lemma holds_bytes s d : holds s d → Forall byte_ok d.
Proof. intros (Hi & _ & Hv). by destruct (bs_page _ _ _ Hi Hv). Qed.

Section at_entry.
Context (s : St) (P R : bytes) (e : dent).
Context (H : holds s (P ++ enc e ++ R)).

Lemma entry_fits : len P + 8 + len (e_body e) + len R = 4096.
Proof. pose proof (holds_len _ _ H) as E. rewrite !length_app in E. pose proof (len_enc e). lia. Qed.

Lemma load_ino : 0 ≤ e_ino e < 2 ^ 32 → de_inode b (len P) s = Ok (e_ino e, s).
Proof.
  intros Hr. pose proof entry_fits. destruct H as (Hi & Ha & Hv). unfold de_inode.
  rewrite (bs_load32_ok s b no _ _ Hi Ha Hv) by fits.
  rewrite <-(Z.add_0_r (len P)), le32_shift, enc_ino by lia. done.
Qed.
Lemma load_size : 0 ≤ e_size e < 65536 → de_entrySize b (len P) s = Ok (e_size e, s).
Proof.
  intros Hr. pose proof entry_fits. destruct H as (Hi & Ha & Hv). unfold de_entrySize.
  rewrite (bs_load16_ok s b no _ _ Hi Ha Hv) by fits.
  rewrite le16_shift, enc_size by lia. done.
Qed.
Lemma load_nlen : de_nameLen b (len P) s = Ok (e_nlen e, s).
Proof.
  pose proof entry_fits. destruct H as (Hi & Ha & Hv). unfold de_nameLen.
  rewrite (bs_load_ok s b no _ _ Hi Ha Hv) by fits.
  rewrite byte_at_shift, enc_nlen by lia. done.
Qed.

Lemma wp_set_inode v : 0 ≤ v < 2 ^ 32 →
  wp (set_inode b (len P) v) (λ _ s', changed s no (P ++ enc (with_ino e v) ++ R) s') s.
Proof.
  intros Hr. pose proof entry_fits. destruct H as (Hi & Ha & Hv). unfold set_inode.
  rewrite <-put_ino, <-put32_shift, Z.add_0_r by lia.
  apply (wp_bs_store32 s b no); first [done|fits].
Qed.
Lemma wp_set_entrySize v : 0 ≤ v →
  wp (set_entrySize b (len P) v) (λ _ s', changed s no (P ++ enc (with_size e v) ++ R) s') s.
Proof.
  intros Hr. pose proof entry_fits. destruct H as (Hi & Ha & Hv). unfold set_entrySize.
  rewrite <-put_size, <-put16_shift by lia. apply (wp_bs_store16 s b no); first [done|fits].
Qed.
Lemma wp_set_nameLen v : 0 ≤ v < 256 →
  wp (set_nameLen b (len P) v) (λ _ s', changed s no (P ++ enc (with_nlen e v) ++ R) s') s.
Proof.
  intros Hr. pose proof entry_fits. destruct H as (Hi & Ha & Hv). unfold set_nameLen.
  rewrite <-put_nlen, <-put8_shift by lia. apply (wp_bs_store s b no); first [done|fits].
Qed.
Lemma wp_set_type v : 0 ≤ v < 256 →
  wp (set_type b (len P) v) (λ _ s', changed s no (P ++ enc (with_type e v) ++ R) s') s.
Proof.
  intros Hr. pose proof entry_fits. destruct H as (Hi & Ha & Hv). unfold set_type.
  rewrite <-put_type, <-put8_shift by lia. apply (wp_bs_store s b no); first [done|fits].
Qed.
End at_entry.

(** ** Names *)

Lemma wp_copy_name name : ∀ s P R, Forall byte_ok name → len name ≤ len R → holds s (P ++ R) →
  wp (copy_name b (len P) name) (λ _ s', changed s no (P ++ name ++ drop (length name) R) s') s.
Proof.
  induction name as [|c name IH]; intros s P R Hn Hl H; simpl.
  - wp_step. by apply changed_refl.
  - destruct R as [|x R]; simpl in Hl; [lia|]. apply Forall_cons in Hn as [Hc Hn].
    pose proof (holds_len _ _ H) as E. rewrite length_app in E; simpl in E.
    wp_step. destruct H as (Hi & Ha & Hv). eapply wp_mono; [apply (wp_bs_store s b no); first [done|fits]|].
    intros [] s1 C1. rewrite put8_app, u8_small in C1 by done.
    pose proof (holds_changed s _ _ _ (conj Hi (conj Ha Hv)) C1) as H1.
    replace (P ++ c :: R) with ((P ++ [c]) ++ R) in H1 by (by rewrite <-app_assoc).
    replace (len P + 1) with (len (P ++ [c])) by (rewrite length_app; simpl; lia).
    eapply wp_mono; [apply (IH s1 _ R); [done|lia|done]|]. intros [] s2 C2. simpl.
    rewrite <-app_assoc in C2. by eapply changed_trans.
Qed.

Lemma cmp_name_val name : ∀ s P R, len name ≤ len R → holds s (P ++ R) →
  cmp_name b (len P) name s = Ok (bool_decide (take (length name) R = name), s).
Proof.
  induction name as [|c name IH]; intros s P R Hl H; simpl; [done|].
  destruct R as [|x R]; simpl in Hl; [lia|].
  pose proof (holds_len _ _ H) as E. rewrite length_app in E; simpl in E.
  pose proof H as (Hi & Ha & Hv). simpl.
  erewrite bind_Ok by (apply (bs_load_ok s b no _ _ Hi Ha Hv); fits).
  rewrite byte_at_app. destruct (Z.eqb_spec x c) as [->|Hx].
  - replace (len P + 1) with (len (P ++ [c])) by (rewrite length_app; simpl; lia).
    rewrite (IH s _ R); [|lia|by rewrite <-app_assoc].
    do 2 f_equal. apply bool_decide_ext. split; [by intros ->|by intros [=]].
  - rewrite bool_decide_false; [done|]. by intros [=].
Qed.

(** ** Walking over a block *)

Abbreviation encs es := (concat (enc <$> es)).

Lemma encs_app es es' : encs (es ++ es') = encs es ++ encs es'.
Proof. by rewrite fmap_app, concat_app. Qed.
Lemma encs_len es : Forall dent_ok es → len (encs es) mod 4 = 0 ∧ 8 * len es ≤ len (encs es).
Proof.
  induction 1 as [|e es He _ [IH1 IH2]]; [done|].
  change (encs (e :: es)) with (enc e ++ encs es). rewrite length_app, length_cons.
  pose proof (len_enc e) as L. pose proof (ok_size e He). pose proof (ok_mod e He) as Hm.
  split; [|lia]. rewrite Nat2Z.inj_add. replace (len (enc e)) with (e_size e) by lia.
  by rewrite Z.add_mod, IH1, Hm by lia.
Qed.

Lemma size_range s P R e : holds s (P ++ enc e ++ R) → dent_ok e → 8 ≤ e_size e ≤ 4096 - len P.
Proof. intros H He. pose proof (entry_fits _ _ _ _ H). destruct He. lia. Qed.

Lemma next_entry_val s P R e : holds s (P ++ enc e ++ R) → dent_ok e →
  next_entry b (len P) s = Ok (len (P ++ enc e), s).
Proof.
  intros H He. pose proof (size_range _ _ _ _ H He). unfold next_entry.
  erewrite bind_Ok by (eapply load_size; [done|lia]).
  rewrite length_app, Nat2Z.inj_add, len_enc, (ok_size e He). done.
Qed.

(** The entries that do not [stop] the walk are passed; at the first one that does,
    the body leaves the loop. *)
Lemma wp_for_each {A} (stop : dent → Prop) `{!∀ e, Decision (stop e)} (body : Z → M St (option A)) es s Q :
  holds s (encs es) → Forall dent_ok es →
  (∀ P e R, e ∈ es → dent_ok e → ¬ stop e → holds s (P ++ enc e ++ R) → body (len P) s = Ok (None, s)) →
  (∀ es1 e es2, es = es1 ++ e :: es2 → Forall (λ e, ¬ stop e) es1 → dent_ok e → stop e →
    holds s (encs es1 ++ enc e ++ encs es2) →
    wp (body (len (encs es1))) (λ r s', ∃ a, r = Some a ∧ Q (Some a) s') s) →
  (Forall (λ e, ¬ stop e) es → Q None s) →
  wp (for_each_dir b 0 4096 body) Q s.
Proof.
  intros Hd Hok Hpass Hstop Hend. unfold for_each_dir. rewrite DIR_END_page by lia.
  assert (length es < 4097)%nat as Hfuel
    by (pose proof (holds_len _ _ Hd); pose proof (encs_len es Hok); lia).
  match goal with |- wp (loop _ ?f _) _ _ => set (step := f) end.
  assert (∀ es2 es1 n, es = es1 ++ es2 → Forall (λ e, ¬ stop e) es1 → (length es2 < n)%nat →
    wp (loop n step (len (encs es1))) Q s) as Hw; [|by apply (Hw es [] 4097%nat)].
  induction es2 as [|e es2 IH]; intros es1 n Hes H1 Hn; (destruct n as [|n]; simpl in Hn; [lia|]); simpl; wp_step; unfold step at 1.
  - rewrite app_nil_r in Hes. subst es1. rewrite (holds_len _ _ Hd). simpl. wp_step. wp_step. auto.
  - assert (holds s (encs es1 ++ enc e ++ encs es2)) as He by (by rewrite Hes, encs_app in Hd).
    assert (dent_ok e) as Hoe by (rewrite Hes in Hok; by apply Forall_app in Hok as [_ [? _]%Forall_cons]).
    pose proof (size_range _ _ _ _ He Hoe). rewrite (proj2 (Z.ltb_lt _ _)) by lia.
    wp_step. destruct (decide (stop e)) as [Hs|Hs].
    + eapply wp_mono; [by eapply Hstop|]. intros r s' (a & -> & HQ). wp_step. by wp_step.
    + eapply wp_intro; [eapply (Hpass _ e); [rewrite Hes; set_solver|done..]|]. simpl. wp_step. eapply wp_intro; [by eapply next_entry_val|].
      wp_step. replace (encs es1 ++ enc e) with (encs (es1 ++ [e])) by (rewrite encs_app; simpl; by rewrite app_nil_r).
      apply IH; [by rewrite <-app_assoc|by apply Forall_app; auto|lia].
Qed.

(** ** The search *)

Definition named (name : bytes) (e : dent) : Prop := e_ino e ≠ 0 ∧ e_name e = name.
#[local] Instance named_dec name e : Decision (named name e).
Proof. unfold named. apply _. Defined.

Lemma name_len e : dent_ok e → e_ino e ≠ 0 → len (e_name e) = e_nlen e.
Proof. intros He Hi. unfold e_name. rewrite length_take. destruct He. specialize (ok_fit0 Hi). lia. Qed.

Lemma match_entry_val name s P R e : holds s (P ++ enc e ++ R) → dent_ok e →
  match_entry b (len P) name s = Ok (bool_decide (named name e), s).
Proof.
  intros H He. unfold match_entry. erewrite bind_Ok by (eapply load_ino; [done|apply He]).
  destruct (Z.eqb_spec (e_ino e) 0) as [E|E].
  { rewrite bool_decide_false; [done|]. by intros []. }
  erewrite bind_Ok by (by eapply load_nlen). pose proof (name_len e He E) as Hn.
  destruct (Z.eqb_spec (e_nlen e) (len name)) as [El|El].
  - rewrite (enc_split e 0), app_assoc in H. change sizeof_dir with 8.
    replace (len P + 8) with (len (P ++ enc (with_body e (take 0 (e_body e)))))
      by (rewrite length_app, Nat2Z.inj_add, len_enc; done).
    erewrite cmp_name_val; [|..|exact H].
    + do 2 f_equal. apply bool_decide_ext. unfold named, e_name. rewrite El, Nat2Z.id, drop_0.
      rewrite take_app_le by (unfold e_name in Hn; rewrite length_take in Hn; lia). tauto.
    + rewrite drop_0, length_app. unfold e_name in Hn. rewrite length_take in Hn. lia.
  - rewrite bool_decide_false; [done|]. intros [_ En]. rewrite <-En in El. lia.
Qed.

(** ** Merging free entries *)

Lemma merge_scan es : ∀ s P size n, holds s (P ++ encs es) → Forall dent_ok es → (length es < n)%nat →
  0 ≤ size → size + len (encs es) ≤ 4096 →
  ∃ es1 es2, es = es1 ++ es2 ∧ names es1 = [] ∧
    loop n (λ '(h, size),
      if h <? 4096 then
        ino ← de_inode b h;
        if negb (ino =? 0) then mret (inr size)
        else z ← de_entrySize b h; h' ← next_entry b h; mret (inl (h', u32 (size + z)))
      else mret (inr size)) (len P, size) s = Ok (size + len (encs es1), s).
Proof.
  induction es as [|e es IH]; intros s P size n H Hok Hn H0 H1; (destruct n as [|n]; simpl in Hn; [lia|]).
  { exists [], []. split_and!; [done|done|]. rewrite app_nil_r in H. cbn [loop]. rewrite (holds_len _ _ H).
    simpl. by rewrite Z.add_0_r. }
  change (encs (e :: es)) with (enc e ++ encs es) in *. apply Forall_cons in Hok as [He Hok].
  pose proof (size_range _ _ _ _ H He) as Hz. cbn [loop]. rewrite (proj2 (Z.ltb_lt (len P) 4096)) by lia.
  destruct (Z.eqb_spec (e_ino e) 0) as [E|E].
  - rewrite length_app, Nat2Z.inj_add, len_enc, <-(ok_size e He) in H1.
    destruct (IH s (P ++ enc e) (size + e_size e) n) as (es1 & es2 & -> & L1 & HL);
      [by rewrite <-app_assoc|done|lia|lia|lia|].
    exists (e :: es1), es2. split_and!; [done|by rewrite names_free|].
    unfold mbind, M_bind. rewrite (load_ino _ _ _ _ H (ok_ino e He)), E.
    change (negb (0 =? 0)) with false. cbv beta iota.
    rewrite (load_size _ _ _ _ H) by lia. rewrite (next_entry_val _ _ _ _ H He).
    rewrite u32_small by (change (2 ^ 32) with 4294967296; lia). unfold mret, M_ret.
    etransitivity; [exact HL|]. change (encs (e :: es1)) with (enc e ++ encs es1).
    rewrite length_app, Nat2Z.inj_add, len_enc, <-(ok_size e He).
    do 2 f_equal. lia.
  - exists [], (e :: es). split_and!; [done|done|]. unfold mbind, M_bind.
    rewrite (load_ino _ _ _ _ H (ok_ino e He)), (proj2 (Z.eqb_neq _ _)) by done. simpl. by rewrite Z.add_0_r.
Qed.

Lemma absorb_ok e es1 es2 : dent_ok e → e_ino e = 0 → Forall dent_ok es1 → Forall dent_ok es2 → names es1 = [] →
  let g := with_body (with_size e (e_size e + len (encs es1))) (e_body e ++ encs es1) in
  Forall byte_ok (encs es1) →
  Forall dent_ok (g :: es2) ∧ names (g :: es2) = names (e :: es1 ++ es2).
Proof.
  intros He Hi H1 H2 L g Hb. split.
  - apply Forall_cons. split; [|done]. destruct (encs_len es1 H1) as [M _].
    destruct He as [? ? ? ? Hs Hm ?]. unfold g. constructor; simpl; [done..| | | |done].
    + by apply Forall_app.
    + rewrite length_app. lia.
    + by rewrite Z.add_mod, Hm, M by lia.
  - rewrite !names_free by done. by rewrite names_app, L.
Qed.

Lemma wp_merge s P e es : holds s (P ++ encs (e :: es)) → Forall dent_ok (e :: es) →
  wp (merge_dir_entry b (len P) 4096) (λ _ s', ∃ es', Forall dent_ok es' ∧ names es' = names (e :: es) ∧
    changed s no (P ++ encs es') s') s.
Proof.
  intros H Hok. pose proof Hok as [He Hes]%Forall_cons. change (encs (e :: es)) with (enc e ++ encs es) in *.
  pose proof (size_range _ _ _ _ H He) as Hz. unfold merge_dir_entry.
  wp_step. eapply wp_intro; [eapply load_ino; [done|apply He]|]. rewrite DIR_END_page by lia.
  destruct (Z.eqb_spec (e_ino e) 0) as [E|E]; simpl negb; cbv iota.
  2:{ wp_step. exists (e :: es). split_and!; [done|done|by apply changed_refl]. }
  wp_step. pose proof (holds_len _ _ H) as HL. rewrite !length_app in HL.
  pose proof (len_enc e). pose proof (ok_size e He). pose proof (encs_len es Hes) as [_ Hle].
  destruct (merge_scan es s (P ++ enc e) (e_size e) 4096) as (es1 & es2 & -> & L1 & Hs);
    [by rewrite <-app_assoc|done|lia|lia|lia|].
  eapply wp_intro.
  { change 4097%nat with (S 4096). cbn [loop]. rewrite (proj2 (Z.ltb_lt (len P) 4096)) by lia.
    unfold mbind at 1, M_bind at 1. unfold mbind at 1, M_bind at 1. rewrite (load_ino _ _ _ _ H (ok_ino e He)), E.
    change (negb (0 =? 0)) with false. cbv beta iota.
    unfold mbind at 1, M_bind at 1. rewrite (load_size _ _ _ _ H) by lia.
    unfold mbind at 1, M_bind at 1. rewrite (next_entry_val _ _ _ _ H He).
    unfold mret, M_ret. rewrite u32_small by (change (2 ^ 32) with 4294967296; lia). exact Hs. }
  eapply wp_mono; [eapply wp_set_entrySize; [done|lia]|]. intros [] s' C. apply Forall_app in Hes as [Hes1 Hes2].
  pose proof (holds_bytes _ _ H) as Hb. rewrite encs_app in Hb. rewrite !Forall_app in Hb. destruct Hb as (_ & _ & Hb & _).
  destruct (absorb_ok e es1 es2 He E Hes1 Hes2 L1 Hb) as [Ok' L'].
  eexists. split_and!; [exact Ok'|exact L'|]. rewrite encs_app in C.
  change (encs (?g :: es2)) with (enc g ++ encs es2). rewrite enc_cons in C |- *. simpl in *. by rewrite <-app_assoc.
Qed.

(** ** A new entry *)

Lemma wp_eq {A} (m m' : M St A) Q s : m s = m' s → wp m' Q s → wp m Q s.
Proof. unfold wp. by intros ->. Qed.

Section new.
Context (ino : Z) (name : bytes) (type : Z).
Context (Hino : 0 < ino < 2 ^ 32) (Htype : 0 ≤ type < 256).
Context (Hname : Forall byte_ok name) (Hlen : len name < 128).

Abbreviation need := (ALIGN4 (len name + 8)).

Lemma need_bounds : len name + 8 ≤ need ≤ len name + 11 ∧ need mod 4 = 0.
Proof. pose proof (ALIGN4_bounds (len name + 8)). change (2 ^ 31) with 2147483648 in *. lia. Qed.

(** The entry with the name written into its body. *)
Definition fill_entry (e : dent) : dent :=
  Dent ino (e_size e) (len name) type (name ++ drop (length name) (e_body e)).

Lemma wp_fill_entry {A} (k : M St A) Q s P R e :
  holds s (P ++ enc e ++ R) → e_size e = 8 + len (e_body e) → need ≤ e_size e →
  (∀ s', changed s no (P ++ enc (fill_entry e) ++ R) s' → wp k Q s') →
  wp (set_inode b (len P) ino;; set_nameLen b (len P) (len name);; set_type b (len P) type;;
      copy_name b (len P + sizeof_dir) name;; k) Q s.
Proof.
  intros H Hs Hn Hk. pose proof need_bounds as [Hb _].
  wp_step. eapply wp_mono; [eapply wp_set_inode; [done|lia]|]. intros [] s1 C1. pose proof (holds_changed _ _ _ _ H C1) as H1.
  wp_step. eapply wp_mono; [eapply wp_set_nameLen; [done|lia]|]. intros [] s2 C2. pose proof (holds_changed _ _ _ _ H1 C2) as H2.
  wp_step. eapply wp_mono; [eapply wp_set_type; [done|lia]|]. intros [] s3 C3. pose proof (holds_changed _ _ _ _ H2 C3) as H3.
  rewrite (enc_split _ 0), drop_0, app_assoc in H3. change sizeof_dir with 8.
  match type of H3 with holds _ (?Q ++ _) => replace (len P + 8) with (len Q) by (rewrite length_app, Nat2Z.inj_add, len_enc; done) end.
  wp_step. eapply wp_mono; [eapply wp_copy_name; [done| |exact H3]; simpl; rewrite length_app; lia|].
  intros [] s4 C4. apply Hk. eapply changed_trans; [exact C1|]. eapply changed_trans; [exact C2|]. eapply changed_trans; [exact C3|].
  simpl e_body in C4. rewrite drop_app_le in C4 by lia. unfold fill_entry. rewrite enc_cons in C4 |- *.
  rewrite <-app_assoc in C4. simpl in *. by rewrite <-app_assoc.
Qed.

Lemma fill_entry_ok e : dent_ok (with_ino e 0) → need ≤ e_size e → dent_ok (fill_entry e) ∧ e_name (fill_entry e) = name.
Proof.
  intros [_ _ _ Hb Hs Hm _] Hn. pose proof need_bounds as [Hb' _]. simpl in *. split.
  - unfold fill_entry. constructor; simpl; [lia|lia|done| | |done|lia].
    + apply Forall_app. split; [done|by apply Forall_drop].
    + rewrite length_app, length_drop. lia.
  - unfold e_name. simpl. rewrite Nat2Z.id. by rewrite take_app_length.
Qed.

(** The entry cut after [n] bytes; [g] is what was left, made a free entry. *)
Lemma cut_ok e n : dent_ok e → 8 + e_nlen e ≤ n → n mod 4 = 0 → n + 8 ≤ e_size e →
  ∃ g, drop (Z.to_nat (n - 8)) (e_body e) = enc g ∧
    let e' := with_size (with_body e (take (Z.to_nat (n - 8)) (e_body e))) n in
    let g' := with_ino (with_size g (e_size e - n)) 0 in
    dent_ok e' ∧ dent_ok g' ∧ e_name e' = e_name e ∧ len (enc e') = n.
Proof.
  intros He Hn Hm Hz. destruct He as [Hi Hnl Ht Hb Hs Hm' Hf].
  destruct (raw_dent (drop (Z.to_nat (n - 8)) (e_body e))) as (g & Eg & Gi & Gn & Gt & Gb).
  { by apply Forall_drop. } { rewrite length_drop. lia. }
  exists g. split; [done|]. intros e' g'. pose proof (len_enc g) as Lg. rewrite <-Eg, length_drop in Lg.
  split_and!.
  - constructor; simpl; [done..| | |done|lia].
    + by apply Forall_take.
    + rewrite length_take. lia.
  - constructor; simpl; [lia|done..| | |done].
    + lia.
    + by rewrite Zminus_mod, Hm, Hm'.
  - unfold e_name. simpl. rewrite take_take. f_equal. lia.
  - rewrite len_enc. simpl. rewrite length_take. lia.
Qed.

Lemma wp_cut s P R e n : holds s (P ++ enc e ++ R) → dent_ok e →
  8 + e_nlen e ≤ n → n mod 4 = 0 → n + 8 ≤ e_size e →
  wp (set_entrySize b (len P) n;; set_inode b (len P + n) 0;; set_entrySize b (len P + n) (e_size e - n);;
      mret (Some (len P + n))) (λ r s', ∃ f g, r = Some (len (P ++ enc f)) ∧ dent_ok f ∧ dent_ok g ∧
    (e_name f, (e_ino f, e_type f)) = (e_name e, (e_ino e, e_type e)) ∧ e_ino g = 0 ∧
    changed s no (P ++ enc f ++ enc g ++ R) s') s.
Proof.
  intros H He Hn Hm Hz. destruct (cut_ok e n He Hn Hm Hz) as (g & Eg & Hf' & Hg' & Hn' & Hl').
  pose proof (ok_nlen e He).
  wp_step. eapply wp_mono; [eapply wp_set_entrySize; [done|lia]|]. intros [] s2 C2. pose proof (holds_changed _ _ _ _ H C2) as H2.
  rewrite (enc_split _ (Z.to_nat (n - 8))) in H2, C2. simpl e_body in H2, C2. rewrite Eg in H2, C2. rewrite app_assoc in H2.
  match type of Hf' with dent_ok ?x => set (f := x) in * end.
  change (with_body _ _) with f in H2, C2.
  replace (len P + n) with (len (P ++ enc f)) by (rewrite length_app, Nat2Z.inj_add; by f_equal).
  wp_step. eapply wp_mono; [eapply wp_set_inode; [done|lia]|]. intros [] s3 C3. pose proof (holds_changed _ _ _ _ H2 C3) as H3.
  wp_step. eapply wp_mono; [eapply wp_set_entrySize; [done|lia]|]. intros [] s4 C4. wp_step.
  exists f. eexists. split_and!; [done|done|exact Hg'|by rewrite Hn'|done|].
  eapply changed_trans; [exact C2|]. eapply changed_trans; [exact C3|]. by rewrite <-app_assoc in C4.
Qed.

Lemma wp_place s P R e : holds s (P ++ enc e ++ R) → dent_ok (with_ino e 0) → need ≤ e_size e →
  wp (place_entry b (len P) need ino name type) (λ r s', ∃ es1 g, r = Some (len (P ++ encs es1)) ∧
    Forall dent_ok (es1 ++ [g]) ∧ names (es1 ++ [g]) = [(name, (ino, type))] ∧
    changed s no (P ++ encs (es1 ++ [g]) ++ R) s') s.
Proof.
  intros H He Hn. pose proof need_bounds as [Hb Hm]. pose proof (entry_fits _ _ _ _ H) as Hfit.
  destruct (fill_entry_ok e He Hn) as [Hf Hfn]. pose proof (ok_size _ He) as Hs. simpl in Hs. unfold place_entry.
  wp_step. eapply wp_intro; [eapply load_size; [done|lia]|]. rewrite (proj2 (Z.ltb_ge _ _)) by done.
  eapply wp_fill_entry; [done..|]. intros s1 C1. pose proof (holds_changed _ _ _ _ H C1) as H1.
  wp_step. eapply wp_intro; [eapply load_size; [done|simpl; lia]|]. simpl e_size.
  rewrite u32_small by (change (2 ^ 32) with 4294967296; lia). change (ALIGN4 (sizeof_dir + 1)) with 12.
  destruct (Z.ltb_spec 12 (e_size e - need)) as [Hr|Hr].
  - eapply wp_mono; [apply (wp_cut s1 P R (fill_entry e) need); [done|done|simpl; lia|done|simpl; lia]|].
    intros r s2 (f & g & -> & Hf1 & Hg1 & [= En Ei Et] & Eg & C2). simpl in *. exists [f], g. split_and!.
    + simpl. by rewrite app_nil_r.
    + apply Forall_app; split; by apply Forall_singleton.
    + change ([f] ++ [g]) with (f :: [g]). rewrite names_used, names_free, En, Ei, Et, Hfn by lia. done.
    + rewrite encs_app. simpl. rewrite !app_nil_r, <-app_assoc. by eapply changed_trans.
  - wp_step. exists [], (fill_entry e). split_and!; [by rewrite app_nil_r|by constructor| |simpl; by rewrite app_nil_r].
    change ([] ++ [fill_entry e]) with (fill_entry e :: []). rewrite names_used, Hfn by (simpl; lia). done.
Qed.

(** The bytes an entry can give away. *)
Definition spare (e : dent) : Z :=
  if decide (e_ino e = 0) then e_size e else e_size e - ALIGN4 (8 + e_nlen e).

Lemma nlen_bounds e : dent_ok e → 8 + e_nlen e ≤ ALIGN4 (8 + e_nlen e) ≤ 11 + e_nlen e ∧
  ALIGN4 (8 + e_nlen e) mod 4 = 0 ∧ ALIGN4 (ALIGN4 (8 + e_nlen e)) = ALIGN4 (8 + e_nlen e).
Proof.
  intros He. pose proof (ok_nlen e He). pose proof (ALIGN4_bounds (8 + e_nlen e)) as H'.
  change (2 ^ 31) with 2147483648 in *. split_and!; [lia..|]. apply ALIGN4_id; [change (2 ^ 31) with 2147483648|]; lia.
Qed.

(** [new_dir_entry] with what it reads of the entry. *)
Lemma new_entry_unfold s P R e : holds s (P ++ enc e ++ R) → dent_ok e →
  new_dir_entry b (len P) ino name type s =
    (if e_ino e =? 0 then place_entry b (len P) need ino name type
     else
       let n := ALIGN4 (8 + e_nlen e) in
       if e_size e - n <? need then mret None
       else set_entrySize b (len P + n) (e_size e - n);; set_entrySize b (len P) n;;
            place_entry b (len P + n) need ino name type) s.
Proof.
  intros H He. pose proof (size_range _ _ _ _ H He). pose proof (ok_nlen e He).
  destruct (nlen_bounds e He) as (Hb & Hm & Ha). unfold new_dir_entry.
  erewrite bind_Ok by (rewrite (proj2 (Z.ltb_lt (len name) FILE_NAME_LEN)) by (unfold FILE_NAME_LEN; lia); done).
  erewrite bind_Ok; [|unfold dir_len; erewrite bind_Ok by (by eapply load_nlen); done].
  cbv zeta. erewrite bind_Ok by (eapply load_ino; [done|apply He]).
  change sizeof_dir with 8. rewrite Ha. destruct (Z.eqb_spec (e_ino e) 0) as [E|E]; [done|]. cbv beta iota zeta delta [negb].
  erewrite bind_Ok by (eapply load_size; [done|lia]). pose proof (ok_fit e He E). pose proof (ok_mod e He).
  pose proof (ALIGN4_le (8 + e_nlen e) (e_size e)) as Hle. change (2 ^ 31) with 2147483648 in Hle.
  by rewrite u32_small by (change (2 ^ 32) with 4294967296; lia).
Qed.

Lemma new_entry_none s P R e : holds s (P ++ enc e ++ R) → dent_ok e → spare e < need →
  new_dir_entry b (len P) ino name type s = Ok (None, s).
Proof.
  intros H He Hr. pose proof (size_range _ _ _ _ H He).
  rewrite (new_entry_unfold s P R e H He). unfold spare in Hr.
  destruct (Z.eqb_spec (e_ino e) 0) as [E|E]; [rewrite decide_True in Hr by done|rewrite decide_False in Hr by done]; simpl.
  - unfold place_entry. erewrite bind_Ok by (eapply load_size; [done|lia]). by rewrite (proj2 (Z.ltb_lt _ _)).
  - by rewrite (proj2 (Z.ltb_lt _ _)).
Qed.

Lemma wp_new_entry s P R e : holds s (P ++ enc e ++ R) → dent_ok e → need ≤ spare e →
  wp (new_dir_entry b (len P) ino name type) (λ r s', ∃ es1 g, r = Some (len (P ++ encs es1)) ∧
    Forall dent_ok (es1 ++ [g]) ∧ names (es1 ++ [g]) = names [e] ++ [(name, (ino, type))] ∧
    changed s no (P ++ encs (es1 ++ [g]) ++ R) s') s.
Proof.
  intros H He Hr. pose proof (ok_nlen e He). pose proof need_bounds as [Hnb _].
  eapply wp_eq; [by apply (new_entry_unfold s P R e)|]. unfold spare in Hr.
  destruct (Z.eqb_spec (e_ino e) 0) as [E|E]; [rewrite decide_True in Hr by done|rewrite decide_False in Hr by done].
  { rewrite names_free by done. apply (wp_place s P R e); [done| |done]. by destruct e, He; simpl in *; subst. }
  destruct (nlen_bounds e He) as (Hb & Hm & _). set (n := ALIGN4 (8 + e_nlen e)) in *. cbv zeta.
  rewrite (proj2 (Z.ltb_ge _ _)) by lia.
  destruct (cut_ok e n He) as (g & Eg & Hf & Hg & Hfn & Hfl); [lia|done|lia|].
  pose proof H as H'. rewrite (enc_split e (Z.to_nat (n - 8))), Eg in H'.
  set (f0 := with_body e _) in *. set (f := with_size f0 n) in *. change (len (enc f)) with (len (enc f0)) in Hfl.
  assert (len P + n = len (P ++ enc f0)) as -> by (rewrite length_app, Nat2Z.inj_add, Hfl; done).
  rewrite app_assoc in H'.
  wp_step. eapply wp_mono; [eapply wp_set_entrySize; [done|lia]|]. intros [] s1 C1. pose proof (holds_changed _ _ _ _ H' C1) as H1.
  rewrite <-app_assoc in H1, C1.
  wp_step. eapply wp_mono; [eapply wp_set_entrySize; [done|lia]|]. intros [] s2 C2. pose proof (holds_changed _ _ _ _ H1 C2) as H2.
  change (with_size f0 n) with f in H2, C2. replace (len (P ++ enc f0)) with (len (P ++ enc f)) by (by rewrite !length_app). rewrite app_assoc in H2.
  eapply wp_mono; [eapply (wp_place s2 (P ++ enc f) R); [exact H2|exact Hg|simpl; lia]|].
  intros r s3 (es1 & g1 & -> & Hok & HL & C3). exists (f :: es1), g1. split_and!.
  - change (encs (f :: es1)) with (enc f ++ encs es1). by rewrite <-app_assoc.
  - simpl. by apply Forall_cons.
  - change ((f :: es1) ++ [g1]) with ([f] ++ (es1 ++ [g1])). rewrite names_app, HL. f_equal.
    rewrite !names_used by done. f_equal. by rewrite Hfn.
  - eapply changed_trans; [exact C1|]. eapply changed_trans; [exact C2|].
    change (encs ((f :: es1) ++ [g1])) with (enc f ++ encs (es1 ++ [g1])). by rewrite <-!app_assoc in C3 |- *.
Qed.
End new.

(** ** The operations on a block *)

(** The buffer holds the entries [es], which fill its page. *)
Definition dir_block (s : St) (es : list dent) : Prop := holds s (encs es) ∧ Forall dent_ok es.

Lemma dir_block_changed s es es' s' :
  dir_block s es → Forall dent_ok es' → changed s no (encs es') s' → dir_block s' es'.
Proof. intros [H _] Hok C. split; [by eapply holds_changed|done]. Qed.

(** The inode of the first entry with a name. *)
Definition first_ino (name : bytes) (l : list (bytes * (Z * Z))) : option Z :=
  (λ x, x.2.1) <$> head (filter (λ x, x.1 = name) l).

Lemma not_named name es : Forall (λ e, ¬ named name e) es → name ∉ (names es).*1.
Proof.
  induction 1 as [|e es He _ IH]; [simpl; apply not_elem_of_nil|].
  destruct (decide (e_ino e = 0)) as [E|E]; [by rewrite names_free|].
  rewrite names_used by done. apply not_elem_of_cons. split; [|done]. intros ->. by apply He.
Qed.

Lemma first_ino_skip name l1 l2 : name ∉ l1.*1 → first_ino name (l1 ++ l2) = first_ino name l2.
Proof.
  intros Hn. induction l1 as [|[n x] l1 IH]; [done|]. simpl in Hn. apply not_elem_of_cons in Hn as [Hn Hn'].
  rewrite <-IH by done. unfold first_ino. simpl. rewrite filter_cons_False; [done|]. simpl. by intros ->.
Qed.

Lemma names_split es1 e es2 name : Forall (λ e, ¬ named name e) es1 → named name e →
  names (es1 ++ e :: es2) = names es1 ++ (name, (e_ino e, e_type e)) :: names es2 ∧ name ∉ (names es1).*1.
Proof.
  intros H1 [Hi Hn]. split; [|by apply not_named]. rewrite names_app, names_used by done. by rewrite Hn.
Qed.

(** The search of a directory block answers the inode of the first entry in use
    that has the name, or nothing, and changes nothing. *)
Lemma find_in_block_spec s es name : dir_block s es →
  find_in_block b 4096 name s = Ok (first_ino name (names es), s).
Proof.
  intros [H Hok]. enough (wp (find_in_block b 4096 name) (λ r s', r = first_ino name (names es) ∧ s' = s) s)
    as (r & s' & -> & -> & ->)%wp_elim by done.
  unfold find_in_block. apply (wp_for_each (named name) _ es); [done|done|..].
  - intros P e R _ He Hn Hd. erewrite bind_Ok by (by eapply match_entry_val). by rewrite bool_decide_false.
  - intros es1 e es2 -> H1 He Hn Hd. destruct (names_split es1 e es2 name H1 Hn) as [-> Hnot].
    wp_step. eapply wp_intro; [by eapply match_entry_val|]. rewrite bool_decide_true by done. wp_step.
    eapply wp_intro; [eapply load_ino; [done|apply He]|]. wp_step. eexists. split; [done|]. split; [|done].
    rewrite first_ino_skip by done. unfold first_ino. by rewrite filter_cons_True.
  - intros Hall. split; [|done]. rewrite <-(app_nil_r (names es)), first_ino_skip by (by apply not_named). done.
Qed.

(** A new name is put into the block, between the names that were there, or no
    entry has spare for it and the block is left as it was. *)
Lemma create_in_block_spec s es ino name type :
  dir_block s es → 0 < ino < 2 ^ 32 → 0 ≤ type < 256 → Forall byte_ok name → len name < 128 →
  wp (create_in_block b 4096 ino name type) (λ r s', ∃ es', dir_block s' es' ∧ changed s no (encs es') s' ∧
    match r with
    | Some _ => ∃ l1 l2, names es = l1 ++ l2 ∧ names es' = l1 ++ (name, (ino, type)) :: l2
    | None => es' = es ∧ Forall (λ e, spare e < ALIGN4 (len name + 8)) es
    end) s.
Proof.
  intros [H Hok] Hi Ht Hb Hl. apply (wp_for_each (λ e, ALIGN4 (len name + 8) ≤ spare e) _ es); [done|done|..].
  - intros P e R _ He Hn Hd. erewrite bind_Ok by (eapply new_entry_none; [done..|lia]). done.
  - intros es1 e es2 -> _ He Hr Hd. apply Forall_app in Hok as [Hok1 [_ Hok2]%Forall_cons].
    wp_step. eapply wp_mono; [by eapply wp_new_entry|].
    intros r s1 (es3 & g & -> & Hok3 & HL & C1). pose proof (holds_changed _ _ _ _ Hd C1) as H1.
    apply Forall_app in Hok3 as [Hok3 [Hg _]%Forall_cons].
    assert (encs es1 ++ encs (es3 ++ [g]) ++ encs es2 = (encs es1 ++ encs es3) ++ encs (g :: es2)) as E
      by (by rewrite <-!encs_app, <-!app_assoc).
    rewrite E in H1. wp_step. eapply wp_mono; [eapply wp_merge; [exact H1|by apply Forall_cons]|].
    intros [] s2 (es4 & Hok4 & HL4 & C2). pose proof (holds_changed _ _ _ _ H1 C2) as H2.
    rewrite <-!encs_app in C2, H2. destruct H2 as (I2 & A2 & V2).
    wp_step. eapply wp_mono; [by eapply wp_bs_mark|]. intros [] s3 C3. wp_step. eexists; split; [done|].
    assert (changed s no (encs ((es1 ++ es3) ++ es4)) s3) as C by (eapply changed_trans; [exact C1|by eapply changed_trans]).
    exists ((es1 ++ es3) ++ es4). split_and!; [|exact C|].
    { eapply dir_block_changed; [split; [exact H|]| |exact C]; rewrite ?Forall_app, ?Forall_cons; tauto. }
    exists (names es1 ++ names [e]), (names es2). change (e :: es2) with ([e] ++ es2).
    rewrite !names_app, HL4. change (g :: es2) with ([g] ++ es2).
    rewrite !names_app, <-!app_assoc. split; [done|]. f_equal. rewrite app_assoc, <-names_app, HL, <-app_assoc. done.
  - intros Hall. exists es. split_and!; [by split|by apply changed_refl|done|].
    eapply Forall_impl; [exact Hall|]. simpl. lia.
Qed.

(** The first entry in use that has the name is removed from the block; without
    one the block is left as it was. *)
Lemma remove_in_block_spec s es name : dir_block s es →
  wp (remove_in_block b 4096 name) (λ r s', ∃ es', dir_block s' es' ∧ changed s no (encs es') s' ∧
    match r with
    | Some _ => ∃ l1 x l2, names es = l1 ++ (name, x) :: l2 ∧ (name ∉ l1.*1) ∧ names es' = l1 ++ l2
    | None => es' = es ∧ (name ∉ (names es).*1)
    end) s.
Proof.
  intros [H Hok]. apply (wp_for_each (named name) _ es); [done|done|..].
  - intros P e R _ He Hn Hd. erewrite bind_Ok by (by eapply match_entry_val). by rewrite bool_decide_false.
  - intros es1 e es2 -> H1 He Hn Hd. destruct (names_split es1 e es2 name H1 Hn) as [-> Hnot].
    pose proof Hok as [Hok1 [_ Hok2]%Forall_cons]%Forall_app.
    wp_step. eapply wp_intro; [by eapply match_entry_val|]. rewrite bool_decide_true by done.
    wp_step. eapply wp_mono; [eapply wp_set_inode; [done|lia]|]. intros [] s1 C1. pose proof (holds_changed _ _ _ _ Hd C1) as H1'.
    wp_step. eapply wp_mono; [eapply (wp_merge s1 _ (with_ino e 0) es2); [exact H1'|]|].
    { apply Forall_cons. split; [|done]. destruct He. by constructor; simpl. }
    intros [] s2 (es4 & Hok4 & HL4 & C2). pose proof (holds_changed _ _ _ _ H1' C2) as H2.
    rewrite <-!encs_app in C2, H2. destruct H2 as (I2 & A2 & V2).
    wp_step. eapply wp_mono; [by eapply wp_bs_mark|]. intros [] s3 C3. wp_step. eexists; split; [done|].
    assert (changed s no (encs (es1 ++ es4)) s3) as C by (eapply changed_trans; [exact C1|by eapply changed_trans]).
    exists (es1 ++ es4). split_and!; [|exact C|].
    { eapply dir_block_changed; [split; [exact H|exact Hok]| |exact C]. by apply Forall_app. }
    do 3 eexists. split_and!; [done|done|]. by rewrite names_app, HL4, names_free.
  - intros Hall. exists es. split_and!; [by split|by apply changed_refl|done|by apply not_named].
Qed.

Definition dots (name : bytes) : Prop := name = [dot] ∨ name = [dot; dot].
Definition content (e : dent) : Prop := e_ino e ≠ 0 ∧ ¬ dots (e_name e).
#[local] Instance dots_dec name : Decision (dots name).
Proof. unfold dots. apply _. Defined.
#[local] Instance content_dec e : Decision (content e).
Proof. unfold content. apply _. Defined.

(** The byte [k] of the name of an entry. *)
Lemma load_char s P R e k : holds s (P ++ enc e ++ R) → 0 ≤ k < len (e_body e) →
  bs_load b (len P + (8 + k)) s = Ok (byte_at (e_body e) k, s).
Proof.
  intros H Hk. pose proof (entry_fits _ _ _ _ H). destruct H as (Hi & Ha & Hv).
  rewrite (bs_load_ok s b no _ _ Hi Ha Hv) by fits. do 2 f_equal. rewrite byte_at_shift by lia.
  rewrite enc_cons, <-app_assoc. rewrite (byte_at_shift [_;_;_;_;_;_;_;_]) by lia.
  unfold byte_at. rewrite lookup_app_l by lia. done.
Qed.

(** The test [dir_empty] makes on an entry with a name. *)
Lemma nonempty_entry s P R e : holds s (P ++ enc e ++ R) → dent_ok e → (e_ino e ≠ 0 → 0 < e_nlen e) →
  (ino ← de_inode b (len P);
   if ino =? 0 then mret None
   else
     c0 ← bs_load b (len P + sizeof_dir);
     if negb (c0 =? dot) then mret (Some tt)
     else
       n ← de_nameLen b (len P);
       if n =? 1 then mret None
       else if n =? 2 then
         c1 ← bs_load b (len P + sizeof_dir + 1);
         if c1 =? dot then mret None else mret (Some tt)
       else mret (Some tt)) s = Ok (if decide (content e) then Some tt else None, s).
Proof.
  intros H He Hn. erewrite bind_Ok by (eapply load_ino; [done|apply He]).
  destruct (Z.eqb_spec (e_ino e) 0) as [E|E]; [rewrite decide_False; [done|by intros []]|].
  specialize (Hn E). pose proof (ok_fit e He E) as Hf. pose proof (ok_size e He) as Hs.
  change sizeof_dir with 8. rewrite <-(Z.add_0_r 8), <-(Z.add_assoc _ (8 + 0)). change (8 + 0 + 1) with (8 + 1).
  erewrite bind_Ok by (eapply load_char; [done|lia]).
  rewrite (decide_ext (content e) (¬ dots (e_name e))) by (unfold content; tauto).
  unfold dots, e_name. destruct (e_body e) as [|c0 l] eqn:El; simpl in Hs; [lia|].
  change (byte_at (c0 :: l) 0) with c0.
  destruct (Z.eqb_spec c0 dot) as [->|Hc]; simpl.
  2:{ rewrite decide_True; [done|]. destruct (Z.to_nat (e_nlen e)) eqn:?; [lia|]. intros [[=]|[=]]; done. }
  erewrite bind_Ok by (by eapply load_nlen).
  destruct (Z.eqb_spec (e_nlen e) 1) as [->|N1]; [rewrite decide_False; [done|]; intros Hd; apply Hd; by left|].
  destruct (Z.eqb_spec (e_nlen e) 2) as [->|N2].
  - erewrite bind_Ok by (eapply load_char; [done|rewrite El; simpl; lia]). rewrite El.
    destruct l as [|c1 l]; simpl in Hs; [lia|]. change (byte_at (dot :: c1 :: l) 1) with c1.
    destruct (Z.eqb_spec c1 dot) as [->|Hc]; [rewrite decide_False; [done|]; intros Hd; apply Hd; by right|].
    rewrite decide_True; [done|]. by intros [[=]|[=]].
  - rewrite decide_True; [done|]. destruct (Z.to_nat (e_nlen e)) as [|[|[|k]]] eqn:?; [lia..|].
    destruct l as [|? [|]]; simpl in Hs; [lia..|]. by intros [[=]|[=]].
Qed.

Lemma nonempty_block_spec s es : dir_block s es → Forall (λ x, x.1 ≠ []) (names es) →
  nonempty_block b 4096 s = Ok (if decide (Forall (λ x, dots x.1) (names es)) then None else Some tt, s).
Proof.
  intros [H Hok] Hne.
  assert (∀ e, e ∈ es → e_ino e ≠ 0 → (e_name e, (e_ino e, e_type e)) ∈ names es) as Hin.
  { intros e He Ei. unfold names. apply (list_elem_of_fmap_2 (λ e, (e_name e, (e_ino e, e_type e)))). by apply list_elem_of_filter. }
  assert (∀ e, e ∈ es → dent_ok e → e_ino e ≠ 0 → 0 < e_nlen e) as Hpos.
  { intros e He Ho Ei. rewrite Forall_forall in Hne. specialize (Hne _ (Hin e He Ei)). simpl in Hne.
    pose proof (name_len e Ho Ei) as Hl. destruct (e_name e); simpl in Hl; [done|lia]. }
  enough (wp (nonempty_block b 4096) (λ r s', r = (if decide (Forall (λ x, dots x.1) (names es)) then None else Some tt) ∧ s' = s) s)
    as (r & s' & -> & -> & ->)%wp_elim by done.
  apply (wp_for_each content _ es); [done|done|..].
  - intros P e R Hi He Hn Hd. rewrite (nonempty_entry s P R e Hd He (Hpos e Hi He)). by rewrite decide_False.
  - intros es1 e es2 Hes _ He Hk Hd. assert (e ∈ es) as Hi by (rewrite Hes; set_solver).
    eapply wp_intro; [rewrite (nonempty_entry s _ _ e Hd He (Hpos e Hi He)); by rewrite decide_True|].
    eexists; split; [done|]. split; [|done]. rewrite decide_False; [done|]. rewrite Forall_forall. intros Hall.
    destruct Hk as [Hk1 Hk2]. apply Hk2. by apply (Hall _ (Hin e Hi Hk1)).
  - intros Hall. split; [|done]. rewrite decide_True; [done|]. rewrite Forall_forall in Hall. apply Forall_forall.
    intros x. unfold names. intros (e & -> & [Ei Hi]%list_elem_of_filter)%list_elem_of_fmap. simpl.
    specialize (Hall e Hi). unfold content in Hall. destruct (decide (dots (e_name e))); tauto.
Qed.
End entry.
