(* ===== verification/Ext2Directory.v ===== *)
(** * ext2 directories: the whole directory

    A directory whose blocks are direct blocks of its inode (at most twelve), on a
    volume as [Ext2Correct] describes it.  The theorems lift the operations on one
    block to [find_entry_disk], [create_dir_entry], [remove_from_parent] and
    [dir_empty], with the allocation of a new block when no entry has room. *)

From S2P Require Import Prelude QLib Page BlockStore Ext2 Ext2Dir Ext2Correct Ext2DirCorrect.
From Stdlib Require Import ZArith Lia.
From stdpp Require Import base countable numbers gmap list.
Open Scope Z_scope.

#[local] Arguments Z.to_nat : simpl never.
#[local] Arguments Z.mul : simpl never.
#[local] Arguments Z.div : simpl never.
#[local] Arguments Z.modulo : simpl never.

Abbreviation encs es := (concat (enc <$> es)).
Abbreviation len l := (Z.of_nat (length l)).

Section directory.
Context {St : Type} `{B : BlockStore St} (i : ext2_sb_info).
Hypothesis G : geometry i.

(** ** The blocks of the inode *)

(** The direct blocks are [bids], and nothing follows them. *)
Definition slots (x : inode_info) (bids : list Z) : Prop :=
  length (blocks x) = 15%nat ∧ (length bids ≤ 12)%nat ∧ Forall (λ b, b ≠ 0) bids ∧
  take 13 (blocks x) = bids ++ replicate (13 - length bids) 0.

Lemma slots_bid x bids k bid : slots x bids → bids !! k = Some bid → blocks x !! k = Some bid.
Proof.
  intros (_ & Hc & _ & Ht) Hk. pose proof (lookup_lt_Some _ _ _ Hk).
  rewrite <-(lookup_take_lt _ 13) by lia. rewrite Ht. by apply lookup_app_l_Some.
Qed.
Lemma slots_end x bids k : slots x bids → (length bids ≤ k < 13)%nat → blocks x !! k = Some 0.
Proof.
  intros (_ & Hc & _ & Ht) Hk. rewrite <-(lookup_take_lt _ 13) by lia.
  rewrite Ht, lookup_app_r by lia. apply lookup_replicate. split; [done|lia].
Qed.

Lemma next_block_bid (f : @fs St) bids k bid : slots (info f) bids → bids !! k = Some bid →
  next_block i [Z.of_nat k; 0; 0; 0] f = Ok ((bid, [Z.of_nat (S k); 0; 0; 0]), f).
Proof.
  intros Hs Hk. pose proof (lookup_lt_Some _ _ _ Hk). pose proof Hs as (_ & Hc & _).
  unfold next_block, n_ptr. rewrite (g_bs i G). erewrite bind_Ok by done. erewrite bind_Ok by done.
  change (4096 / 4 <=? 0) with false. cbv iota. rewrite (proj2 (Z.ltb_lt _ _)) by (unfold N_DIRECT_BLOCK; lia).
  erewrite bind_Ok by done. rewrite Nat2Z.id, (slots_bid _ _ _ _ Hs Hk). erewrite bind_Ok by done.
  rewrite u16_small by lia. by replace (Z.of_nat k + 1) with (Z.of_nat (S k)) by lia.
Qed.

Lemma next_block_end (f : @fs St) bids : slots (info f) bids →
  ∃ id, next_block i [len bids; 0; 0; 0] f = Ok ((0, id), f).
Proof.
  destruct f as [s x]. intros Hs. pose proof Hs as (_ & Hc & _). unfold next_block, n_ptr. rewrite (g_bs i G).
  erewrite bind_Ok by done. erewrite bind_Ok by done. change (4096 / 4 <=? 0) with false. cbv iota.
  destruct (Z.ltb_spec (len bids) N_DIRECT_BLOCK) as [Hd|Hd]; unfold N_DIRECT_BLOCK in *.
  - erewrite bind_Ok by done. rewrite Nat2Z.id, (slots_end _ _ _ Hs) by lia. erewrite bind_Ok by done. by eexists.
  - erewrite bind_Ok by done. erewrite bind_Ok by done. change (Z.to_nat (12 + 0)) with 12%nat.
    rewrite (slots_end _ _ _ Hs) by lia. erewrite bind_Ok by done. erewrite bind_Ok by done. by eexists.
Qed.

(** The body passes the blocks, changing nothing, until it leaves the loop. *)
Lemma wp_for_each_block {A} (pass : nat → Prop) (body : Z → M (@fs St) (option A)) bids (f : @fs St) Q fuel :
  slots (info f) bids → bs_inv (store f) → (length bids < fuel)%nat →
  (∀ k bid s, bids !! k = Some bid → (∀ j, (j < k)%nat → pass j) → keeps (store f) s →
    wp (body bid) (λ r f', match r with
      | Some a => Q (Some a) f'
      | None => pass k ∧ ∃ s', f' = Fs s' (info f) ∧ keeps s s' end) (Fs s (info f))) →
  ((∀ j, (j < length bids)%nat → pass j) → ∀ s, keeps (store f) s → Q None (Fs s (info f))) →
  wp (for_each_block i fuel body) Q f.
Proof.
  intros Hs Hinv Hfuel Hbody Hend. unfold for_each_block.
  match goal with |- wp (loop _ ?g _) _ _ => set (step := g) end.
  assert (∀ n k s, (k ≤ length bids)%nat → (length bids - k < n)%nat → (∀ j, (j < k)%nat → pass j) → keeps (store f) s →
    wp (loop n step [Z.of_nat k; 0; 0; 0]) Q (Fs s (info f))) as Hw.
  2:{ destruct f as [s x]. apply (Hw fuel 0%nat s); [lia|lia|intros; lia|by apply vkeeps_refl]. }
  induction n as [|n IH]; intros k s Hk Hn Hp Hks; [lia|]. simpl. wp_step. unfold step at 1.
  destruct (bids !! k) as [bid|] eqn:E.
  - pose proof Hs as (_ & _ & Hnz & _). wp_step. eapply wp_intro; [by apply (next_block_bid _ bids)|].
    cbv beta iota. rewrite (proj2 (Z.eqb_neq bid 0)) by (by eapply Forall_lookup_1 in Hnz).
    wp_step. eapply wp_mono; [by eapply Hbody|]. intros [a|] f' Hr; wp_step; cbv beta iota; [by wp_step|].
    destruct Hr as (Hpk & s' & -> & Hk'). pose proof (lookup_lt_Some _ _ _ E).
    apply (IH (S k)); [lia|lia| |by eapply vkeeps_trans].
    intros j Hj. destruct (decide (j = k)) as [->|]; [done|]. apply Hp. lia.
  - apply lookup_ge_None in E. assert (k = length bids) as -> by lia.
    destruct (next_block_end (Fs s (info f)) bids Hs) as [id Hid].
    wp_step. eapply wp_intro; [exact Hid|]. simpl. do 2 wp_step. auto.
Qed.

(** ** Directories *)

Definition all_names (ess : list (list dent)) : list (bytes * (Z * Z)) := concat (names <$> ess).

Record dir_ok (f : @fs St) (bids : list Z) (ess : list (list dent)) : Prop := DirOk {
  d_vol : vol_ok i (store f);
  d_slots : slots (info f) bids;
  d_live : Forall (live i (store f)) bids;
  d_nodup : NoDup bids;
  d_blk : Forall2 (λ bid es, blk (store f) bid = Some (encs es) ∧ Forall dent_ok es) bids ess }.

Lemma dir_lookup f bids ess k bid : dir_ok f bids ess → bids !! k = Some bid →
  live i (store f) bid ∧ ∃ es, ess !! k = Some es ∧ blk (store f) bid = Some (encs es) ∧ Forall dent_ok es.
Proof.
  intros H Hk. split; [by eapply Forall_lookup_1; [apply H|]|].
  destruct (Forall2_lookup_l _ _ _ _ _ (d_blk _ _ _ H) Hk) as (es & ? & ? & ?). eauto.
Qed.

(** Reading a block of the directory. *)
Lemma wp_read_dir f bids ess k bid s : dir_ok f bids ess → bids !! k = Some bid → keeps (store f) s →
  ∃ es, ess !! k = Some es ∧ Forall dent_ok es ∧
  wp (ext2_block_read bid (sb i)) (λ b s', keeps s s' ∧ dir_block b (8 * bid) s' es) s.
Proof.
  intros H Hk Hks. destruct (dir_lookup _ _ _ _ _ H Hk) as ((_ & Hr & _) & es & He & Hb & Hok).
  exists es. split_and!; [done|done|].
  eapply wp_mono; [apply (wp_block_read i G); [by eapply keeps_vol; [|apply H]|done]|].
  intros b s' (Hk' & Ha). split; [done|]. split; [|done]. split_and!; [apply Hk'|done|].
  rewrite (proj1 (proj2 Hk')), (proj1 (proj2 Hks)). exact Hb.
Qed.

Lemma all_names_split ess k es : ess !! k = Some es → ∃ N, ∀ es',
  all_names (<[k := es']> ess) = all_names (take k ess) ++ names es' ++ N.
Proof.
  intros Hk. exists (all_names (drop (S k) ess)). intros es'. pose proof (lookup_lt_Some _ _ _ Hk).
  rewrite insert_take_drop by done. unfold all_names. by rewrite fmap_app, concat_app.
Qed.

Lemma not_in_take ess k name : (∀ j es, (j < k)%nat → ess !! j = Some es → name ∉ (names es).*1) →
  name ∉ (all_names (take k ess)).*1.
Proof.
  intros H Hn. unfold all_names in Hn. apply list_elem_of_fmap in Hn as (x & -> & Hx).
  apply list_elem_of_In, in_concat in Hx as (l & Hl%list_elem_of_In & Hx%list_elem_of_In).
  apply list_elem_of_fmap in Hl as (es & -> & [j Hj]%list_elem_of_lookup).
  apply lookup_take_Some in Hj as [Hj Hjk]. apply (H j es); [done|done|]. by apply list_elem_of_fmap_2.
Qed.

Lemma first_ino_app name l1 l2 ino : first_ino name l1 = Some ino → first_ino name (l1 ++ l2) = Some ino.
Proof. unfold first_ino. rewrite filter_app. by destruct (filter _ l1). Qed.
Lemma first_ino_none name l : first_ino name l = None ↔ (name ∉ l.*1).
Proof.
  induction l as [|[n x] l IH]; [split; [intros _; apply not_elem_of_nil|done]|]. unfold first_ino in *. simpl.
  rewrite not_elem_of_cons, <-IH. destruct (decide (n = name)) as [->|Hn].
  - rewrite filter_cons_True by done. split; [done|]. by intros [].
  - rewrite filter_cons_False by done. split; [by split|by intros []].
Qed.

(** A list is cut in one way before the first entry with a name. *)
Lemma split_at_name (name : bytes) (x y : Z * Z) l1 l2 a c : name ∉ l1.*1 → name ∉ a.*1 →
  l1 ++ (name, x) :: l2 = a ++ (name, y) :: c → a = l1 ∧ y = x ∧ c = l2.
Proof.
  revert a. induction l1 as [|[n z] l1 IH]; intros [|[n' z'] a] H1 H2 E; simpl in *.
  - by injection E as -> ->.
  - injection E as -> -> ->. exfalso. apply H2. by left.
  - injection E as -> -> <-. exfalso. apply H1. by left.
  - injection E as <- <- E. apply not_elem_of_cons in H1 as [_ H1], H2 as [_ H2].
    by destruct (IH a H1 H2 E) as (-> & -> & ->).
Qed.

(** ** Changing one block *)

Lemma changed_blk s b d s' n : changed s (8 * b) d s' → blk s' n = if decide (n = b) then Some d else blk s n.
Proof. intros (_ & _ & H). unfold blk. rewrite H. repeat case_decide; (done || lia). Qed.

Lemma changed_vol s b d s' : changed s (8 * b) d s' → vol_ok i s → vol_ok i s'.
Proof.
  intros C Hv. split; [apply C|]. intros n Hn. rewrite (changed_blk _ _ _ _ n C).
  case_decide; [by eexists|by apply Hv].
Qed.

Lemma changed_used s b d s' n : changed s (8 * b) d s' → ¬ meta i b → 0 ≤ n < nblocks i → used i s' n = used i s n.
Proof.
  intros C Hb Hn. destruct (used_in i G n) as (ds & Hd & Hg); [done|]. unfold used. rewrite Hd.
  rewrite (changed_blk _ _ _ _ _ C), decide_False; [done|]. intros E. apply Hb. right.
  exists (n / 32768). split; [done|]. by exists ds.
Qed.

Lemma changed_live s b d s' n : changed s (8 * b) d s' → ¬ meta i b → live i s n → live i s' n.
Proof. intros C Hb. apply live_mono. intros m Hm. by rewrite (changed_used s b d s'). Qed.

Lemma dir_ok_update f bids ess k bid es' s' : dir_ok f bids ess → bids !! k = Some bid →
  Forall dent_ok es' → changed (store f) (8 * bid) (encs es') s' →
  dir_ok (Fs s' (info f)) bids (<[k := es']> ess).
Proof.
  intros H Hk Hok C. destruct (dir_lookup _ _ _ _ _ H Hk) as (Hlv & es & He & _).
  pose proof (lookup_lt_Some _ _ _ He) as Hlt. destruct H as [H1 H2 H3 H4 H5]. split; simpl.
  - by eapply changed_vol.
  - done.
  - eapply Forall_impl; [exact H3|]. intros b Hb. eapply changed_live; [done|apply Hlv|done].
  - done.
  - apply Forall2_same_length_lookup. split; [rewrite list.length_insert; by eapply Forall2_length|].
    intros j b es2 Hj He2. rewrite (changed_blk _ _ _ _ b C). destruct (decide (j = k)) as [->|Hjk].
    + rewrite list_lookup_insert_eq in He2 by done. simplify_eq. by rewrite decide_True.
    + rewrite list_lookup_insert_ne in He2 by done.
      rewrite decide_False by (intros ->; apply Hjk; by eapply NoDup_lookup).
      by apply (Forall2_lookup_lr _ _ _ _ _ _ H5 Hj He2).
Qed.

(** ** The search *)

Lemma dir_find f bids ess name fuel : dir_ok f bids ess → (length bids < fuel)%nat →
  wp (find_entry_disk i fuel name) (λ r f', r = first_ino name (all_names ess) ∧
    info f' = info f ∧ keeps (store f) (store f')) f.
Proof.
  intros H Hf. unfold find_entry_disk. rewrite (g_bs i G).
  apply (wp_for_each_block (λ k, ∀ es, ess !! k = Some es → name ∉ (names es).*1) _ bids);
    [apply H|apply H|done|..].
  - intros k bid s Hk Hp Hks. destruct (wp_read_dir _ _ _ _ _ _ H Hk Hks) as (es & He & Hok & Hw).
    wp_step. apply wp_on_store. eapply wp_mono; [exact Hw|]. intros b s1 (Hk1 & Hd).
    apply wp_on_store. eapply wp_intro; [by eapply find_in_block_spec|].
    destruct (all_names_split ess k es He) as [N EN]. pose proof (EN es) as E. rewrite list_insert_id in E by done.
    destruct (first_ino name (names es)) as [ino|] eqn:Ef; simpl.
    + split_and!; [|done|by eapply vkeeps_trans]. rewrite E, first_ino_skip by (apply not_in_take; eauto).
      symmetry. by apply first_ino_app.
    + split; [|eauto]. intros es0 He0. simplify_eq. by apply first_ino_none.
  - intros Hall s Hks. split_and!; [|done|done]. symmetry. apply first_ino_none.
    rewrite <-(take_ge ess (length ess)) by lia. apply not_in_take. intros j es Hj. apply Hall.
    by rewrite (Forall2_length _ _ _ (d_blk _ _ _ H)).
Qed.

(** The frame of an update: other blocks in use keep their contents. *)
Definition others_kept (s s' : St) (bids : list Z) : Prop :=
  ∀ b, live i s b → (b ∉ bids) → live i s' b ∧ blk s' b = blk s b.

Lemma changed_others s bids k bid d s' : bids !! k = Some bid → live i s bid →
  changed s (8 * bid) d s' → others_kept s s' bids.
Proof.
  intros Hk Hl C b Hb Hn. split; [eapply changed_live; [done|apply Hl|done]|].
  rewrite (changed_blk _ _ _ _ b C), decide_False; [done|]. intros ->. apply Hn. by eapply list_elem_of_lookup_2.
Qed.
Lemma keeps_others s s' bids : keeps s s' → others_kept s s' bids.
Proof.
  intros Hk b Hb _. split; [|unfold blk; apply Hk].
  revert Hb. apply live_mono. intros m Hm. by rewrite (keeps_used _ _ _ _ Hk).
Qed.
Lemma dir_ok_keeps f bids ess s : dir_ok f bids ess → keeps (store f) s → dir_ok (Fs s (info f)) bids ess.
Proof.
  intros [H1 H2 H3 H4 H5] Hk. split; simpl; [by eapply keeps_vol|done| |done|].
  - eapply Forall_impl; [exact H3|]. intros b Hb. by apply (keeps_others _ _ [] Hk b Hb), not_elem_of_nil.
  - eapply Forall2_impl; [exact H5|]. intros b es [Hb Ho]. split; [|done]. unfold blk. by rewrite (proj1 (proj2 Hk)).
Qed.

Lemma unchanged_keeps s b no es s' : dir_block b no s es → changed s no (encs es) s' → keeps s s'.
Proof.
  intros [(_ & _ & Hv) _] (I & A & V). split_and!; [done| |done].
  intros n. rewrite V. case_decide; [by subst|done].
Qed.

(** ** The removal *)

Lemma dir_remove f bids ess name fuel : dir_ok f bids ess → (length bids < fuel)%nat →
  wp (remove_from_parent i fuel name) (λ _ f', ∃ ess', dir_ok f' bids ess' ∧ info f' = info f ∧
    others_kept (store f) (store f') bids ∧
    ((name ∉ (all_names ess).*1) ∧ ess' = ess ∨
     ∃ l1 x l2, all_names ess = l1 ++ (name, x) :: l2 ∧ (name ∉ l1.*1) ∧ all_names ess' = l1 ++ l2)) f.
Proof.
  intros H Hf. unfold remove_from_parent. rewrite (g_bs i G). wp_step.
  apply (wp_for_each_block (λ k, ∀ es, ess !! k = Some es → name ∉ (names es).*1) _ bids);
    [apply H|apply H|done|..].
  - intros k bid s Hk Hp Hks. destruct (wp_read_dir _ _ _ _ _ _ H Hk Hks) as (es & He & Hok & Hw).
    destruct (dir_lookup _ _ _ _ _ H Hk) as (Hlv & _).
    wp_step. apply wp_on_store. eapply wp_mono; [exact Hw|]. intros b s1 (Hk1 & Hd).
    apply wp_on_store. eapply wp_mono; [by apply (remove_in_block_spec b (8 * bid))|]. simpl.
    intros [[]|] s2 (es' & [Hh Hok'] & C & Hr).
    + wp_step. pose proof (keeps_changed _ _ _ _ _ (vkeeps_trans _ _ _ Hks Hk1) C) as C'.
      destruct (all_names_split ess k es He) as [N EN]. pose proof (EN es) as E. rewrite list_insert_id in E by done.
      exists (<[k := es']> ess). split_and!; [by eapply dir_ok_update|done|by eapply changed_others|]. right.
      destruct Hr as (l1 & x & l2 & El & Hn & El'). exists (all_names (take k ess) ++ l1), x, (l2 ++ N).
      rewrite EN, E, El, El'. split_and!; [by rewrite <-!app_assoc| |by rewrite <-!app_assoc].
      rewrite fmap_app, not_elem_of_app. split; [apply not_in_take; eauto|done].
    + destruct Hr as [-> Hn]. split; [intros es0 He0; by simplify_eq|]. exists s2. split; [done|].
      eapply vkeeps_trans; [done|]. by eapply unchanged_keeps.
  - intros Hall s Hks. wp_step. exists ess. split_and!; [by apply dir_ok_keeps|done|by apply keeps_others|]. left. split; [|done].
    rewrite <-(take_ge ess (length ess)) by lia. apply not_in_take. intros j es Hj. apply Hall.
    by rewrite (Forall2_length _ _ _ (d_blk _ _ _ H)).
Qed.

(** ** The test for an empty directory *)

Lemma dir_empty_ok f bids ess fuel : dir_ok f bids ess → (length bids < fuel)%nat →
  Forall (λ x, x.1 ≠ []) (all_names ess) →
  wp (dir_empty i fuel true 2) (λ r f', r = bool_decide (Forall (λ x, dots x.1) (all_names ess)) ∧
    info f' = info f ∧ keeps (store f) (store f')) f.
Proof.
  intros H Hf Hne. unfold dir_empty. rewrite (g_bs i G). wp_step. apply wp_assertk. split; [done|].
  change (negb (2 =? 2)) with false. cbv iota. wp_step.
  assert (∀ P, Forall P (all_names ess) ↔ ∀ k es, ess !! k = Some es → Forall P (names es)) as Hall.
  { intros P. unfold all_names. rewrite Forall_concat, Forall_fmap, Forall_lookup. done. }
  apply (wp_for_each_block (λ k, ∀ es, ess !! k = Some es → Forall (λ x, dots x.1) (names es)) _ bids);
    [apply H|apply H|done|..].
  - intros k bid s Hk Hp Hks. destruct (wp_read_dir _ _ _ _ _ _ H Hk Hks) as (es & He & Hok & Hw).
    wp_step. apply wp_on_store. eapply wp_mono; [exact Hw|]. intros b s1 (Hk1 & Hd).
    apply wp_on_store. eapply wp_intro; [eapply (nonempty_block_spec b (8 * bid)); [done|by eapply Hall]|].
    case_decide as Ed; simpl.
    + split; [|by exists s1]. intros es0 He0. by simplify_eq.
    + wp_step. split_and!; [|done|by eapply vkeeps_trans]. symmetry. apply bool_decide_eq_false. rewrite Hall. eauto.
  - intros Hd s Hks. wp_step. split_and!; [|done|done]. symmetry. apply bool_decide_eq_true. apply Hall.
    intros k es He. apply (Hd k); [|done]. rewrite (Forall2_length _ _ _ (d_blk _ _ _ H)). by eapply lookup_lt_Some.
Qed.

(** ** A new entry *)

Lemma ready_after f s bno : bno < 12 → keeps (store f) s → alloc_ready i f bno → alloc_ready i (Fs s (info f)) bno.
Proof.
  intros Hb Hk [A1 A2 A3 A4 A5 A6 _]. pose proof (λ n (_ : 0 ≤ n < nblocks i), keeps_used i _ _ n Hk) as Hu.
  split; simpl; [by eapply keeps_vol|by eapply sys_ext|by eapply room_ext; [..|exact A3]|done..|].
  unfold tree_ok, path_of. rewrite (proj2 (Z.ltb_lt bno 12)) by done. by split; constructor.
Qed.

Section create.
Context (ino : Z) (name : bytes) (type : Z).
Context (Hino : 0 < ino < 2 ^ 32) (Htype : 0 ≤ type < 256).
Context (Hname : Forall byte_ok name) (Hlen : len name < 128).

(** A block of any contents made one free entry, with the new name in it. *)
Lemma wp_first_entry {A} (k : M (@fs St) A) Q f b no d : holds b no (store f) d →
  (∀ s' es, Forall dent_ok es → names es = [(name, (ino, type))] → changed (store f) no (encs es) s' →
    holds b no s' (encs es) → wp k Q (Fs s' (info f))) →
  wp (on_store (set_inode b 0 0);; on_store (set_entrySize b 0 4096);;
      _ ← on_store (new_dir_entry b 0 ino name type); k) Q f.
Proof.
  intros H Hk. pose proof (holds_len _ _ _ _ H) as Hl.
  destruct (raw_dent d) as (e & -> & Hi & Hn & Ht & Hb); [by eapply holds_bytes|lia|]. rewrite len_enc in Hl.
  pose proof H as H0. rewrite <-(app_nil_r (enc e)) in H0.
  wp_step. apply wp_on_store. eapply wp_mono; [apply (wp_set_inode b no _ [] [] e H0); lia|]. intros [] s1 C1.
  pose proof (holds_changed _ _ _ _ _ _ H0 C1) as H1.
  wp_step. apply wp_on_store. eapply wp_mono; [apply (wp_set_entrySize b no s1 [] [] _ H1); lia|]. intros [] s2 C2.
  pose proof (holds_changed _ _ _ _ _ _ H1 C2) as H2.
  assert (dent_ok (with_size (with_ino e 0) 4096)) as Hok by (constructor; simpl; first [done|lia]).
  wp_step. apply wp_on_store.
  eapply wp_mono; [eapply (wp_new_entry b no ino name type Hino Htype Hname Hlen s2 [] [] _ H2 Hok)|].
  { unfold spare. rewrite decide_True by done. simpl. pose proof (need_bounds name Hlen). lia. }
  intros r s3 (es & g & _ & Hoks & HL & C3). pose proof (holds_changed _ _ _ _ _ _ H2 C3) as H3.
  simpl in C3, H3. rewrite app_nil_r in C3, H3. apply (Hk s3 (es ++ [g])); [done| | |done].
  - rewrite HL, names_free by done. done.
  - eapply changed_trans; [exact C1|]. by eapply changed_trans.
Qed.

(** The directory with a block more. *)
Lemma slots_grow x x' bids bid : slots x bids → (length bids < 12)%nat → bid ≠ 0 → length (blocks x') = 15%nat →
  blocks x' !! length bids = Some bid → (∀ k, k ≠ length bids → blocks x' !! k = blocks x !! k) →
  slots x' (bids ++ [bid]).
Proof.
  intros Hs Hlt Hb Hl Hn Ho. pose proof Hs as (Hx & _ & Hnz & _).
  split_and!; [done|rewrite length_app; simpl; lia|apply Forall_app; by split; [|apply Forall_singleton]|].
  apply list_eq_same_length with 13%nat; [rewrite !length_app, length_replicate; simpl; lia|rewrite length_take; lia|].
  intros k y z Hk Hy Hz. rewrite lookup_take_lt in Hy by done.
  destruct (lt_eq_lt_dec k (length bids)) as [[Hlk| ->]|Hgt].
  - rewrite Ho in Hy by lia. rewrite <-app_assoc, lookup_app_l in Hz by lia.
    rewrite (slots_bid _ _ _ _ Hs Hz) in Hy. congruence.
  - rewrite <-app_assoc, lookup_app_r, Nat.sub_diag in Hz by lia. simpl in Hz. congruence.
  - rewrite Ho, (slots_end _ _ _ Hs) in Hy by lia. rewrite lookup_app_r in Hz by (rewrite length_app; simpl; lia).
    apply lookup_replicate in Hz as [-> _]. congruence.
Qed.

Lemma dir_ok_grow f f1 bids ess bid es s' : dir_ok f bids ess → (length bids < 12)%nat → sys_used i (store f) →
  allocated i f f1 (len bids) bid → Forall dent_ok es → changed (store f1) (8 * bid) (encs es) s' →
  dir_ok (Fs s' (info f1)) (bids ++ [bid]) (ess ++ [es]) ∧ others_kept (store f) s' (bids ++ [bid]).
Proof.
  intros [H1 H2 H3 H4 H5] Hlt Hsys [A1 (A2 & A2r & A2u & A2u') A3 A4 A5 A6 A7] Hok C.
  assert (¬ meta i bid) as Hm by (intros Hm; by rewrite (proj2 Hsys bid Hm) in A2u).
  assert (∀ b, live i (store f) b → live i s' b ∧ b ≠ bid ∧ blk s' b = blk (store f) b) as Hold.
  { intros b Hb. assert (b ≠ bid) as Hne by (intros ->; destruct Hb as (_ & _ & Hb & _); by rewrite Hb in A2u).
    split_and!; [|done|].
    - eapply changed_live; [exact C|done|]. by revert Hb; apply live_mono.
    - rewrite (changed_blk _ _ _ _ b C), decide_False by done. apply A5; [done|].
      unfold path_of. rewrite (proj2 (Z.ltb_lt _ _)) by lia. apply not_elem_of_nil. }
  split; [|intros b Hb _; by destruct (Hold b Hb) as (? & _ & ?)]. split; simpl.
  - by eapply changed_vol.
  - eapply slots_grow; [exact H2|done|done|done| |].
    + apply wp_elim in A3 as (r & f2 & Hg & ->). unfold get_bid in Hg.
      rewrite (proj2 (Z.ltb_lt _ N_DIRECT_BLOCK)) in Hg by (unfold N_DIRECT_BLOCK; lia).
      erewrite bind_Ok in Hg by done. rewrite Nat2Z.id in Hg. unfold deref in Hg.
      destruct (blocks (info f1) !! length bids); [congruence|done].
    + intros k Hk. apply A7. rewrite (proj2 (Z.ltb_lt _ _)) by lia. lia.
  - apply Forall_app. split; [eapply Forall_impl; [exact H3|]; intros b Hb; by apply Hold|].
    apply Forall_singleton. eapply changed_live; [exact C|done|]. split_and!; done || lia.
  - apply NoDup_app. split_and!; [done| |apply NoDup_singleton].
    intros b Hb ->%list_elem_of_singleton. rewrite Forall_forall in H3. by destruct (Hold bid (H3 _ Hb)) as (_ & ? & _).
  - apply Forall2_app; [|constructor; [|constructor]].
    + rewrite Forall2_same_length_lookup in H5 |- *. destruct H5 as [E H5]. split; [done|].
      intros k b es2 Hk He. destruct (H5 k b es2 Hk He) as [Hb Ho]. split; [|done].
      rewrite <-Hb. apply Hold. by eapply Forall_lookup_1.
    + split; [|done]. by rewrite (changed_blk _ _ _ _ bid C), decide_True.
Qed.

Lemma next_bno n : 0 ≤ n < 12 → next_free_bno i (4096 * n) = n.
Proof.
  intros Hn. unfold next_free_bno. rewrite (g_bs i G). unfold u64, u32.
  change (2 ^ 64) with 18446744073709551616. change (2 ^ 32) with 4294967296. Z.div_mod_to_equations. lia.
Qed.

(** What the creation of an entry achieves. *)
Definition entered (f : @fs St) (bids : list Z) (ess : list (list dent)) (size' : Z) (f' : @fs St) : Prop :=
  ∃ bids' ess', dir_ok f' bids' ess' ∧ size' = 4096 * len bids' ∧ others_kept (store f) (store f') bids' ∧
    (bids' = bids ∨ ∃ bid, bids' = bids ++ [bid] ∧ used i (store f) bid = false) ∧
    ∃ l1 l2, all_names ess = l1 ++ l2 ∧ all_names ess' = l1 ++ (name, (ino, type)) :: l2.

Lemma others_after s s1 s2 bids : keeps s s1 → others_kept s1 s2 bids → others_kept s s2 bids.
Proof.
  intros Hk Ho b Hb Hn. destruct (keeps_others _ _ bids Hk b Hb Hn) as [Hb1 E1].
  destruct (Ho b Hb1 Hn) as [Hb2 E2]. by rewrite E2, E1.
Qed.

Lemma wp_new_block f s bids ess : dir_ok f bids ess → keeps (store f) s → (length bids < 12)%nat →
  alloc_ready i f (len bids) →
  wp (bid ← alloc_block i (next_free_bno i (4096 * len bids));
      buf ← on_store (ext2_block_read bid (sb i));
      on_store (set_inode buf 0 0);;
      on_store (set_entrySize buf 0 4096);;
      _ ← on_store (new_dir_entry buf 0 ino name type);
      on_store (bs_mark buf);;
      mret (u64 (4096 * len bids + 4096))) (entered f bids ess) (Fs s (info f)).
Proof.
  intros H Hks Hlt Ha. rewrite next_bno by lia. pose proof (dir_ok_keeps _ _ _ _ H Hks) as H'.
  assert (block_of (Fs s (info f)) (len bids) = 0) as Hb0.
  { unfold block_of. rewrite (proj2 (Z.ltb_lt _ _)) by lia. rewrite Nat2Z.id. simpl.
    apply list_lookup_total_correct. eapply slots_end; [apply H|lia]. }
  pose proof (ready_after f s (len bids) ltac:(lia) Hks Ha) as Ha'.
  wp_step. eapply wp_mono; [apply (wp_alloc_direct i G); [done|lia|done]|]. intros bid f1 Hal.
  pose proof Hal as [A1 (A2 & A2r & A2u & _) _ _ _ _ _].
  wp_step. apply wp_on_store. eapply wp_mono; [by apply (wp_block_read i G)|]. intros b s2 (Hk2 & Hat).
  destruct (v_blk i _ (keeps_vol i _ _ Hk2 A1) bid A2r) as [d Hd].
  apply (wp_first_entry _ _ (Fs s2 (info f1)) b (8 * bid) d); [split_and!; [apply Hk2|done|done]|].
  intros s3 es Hok HL C Hh. simpl in C. wp_step. apply wp_on_store.
  destruct Hh as (I3 & A3 & V3). eapply wp_mono; [by eapply wp_bs_mark|]. intros [] s4 C4. wp_step.
  pose proof (changed_trans _ _ _ _ _ _ (keeps_changed _ _ _ _ _ Hk2 C) C4) as C'.
  destruct (dir_ok_grow (Fs s (info f)) f1 bids ess bid es s4) as [Hd' Ho']; [done|done| |done|done|done|].
  { eapply sys_ext; [done| |apply Ha]. intros n _. by apply keeps_used. }
  exists (bids ++ [bid]), (ess ++ [es]). split_and!; [done| |by eapply others_after| |].
  - unfold u64. rewrite length_app, Z.mod_small; simpl; lia.
  - right. exists bid. split; [done|]. by rewrite <-(keeps_used i _ _ bid Hks).
  - exists (all_names ess), []. rewrite app_nil_r. split; [done|]. unfold all_names.
    rewrite fmap_app, concat_app. simpl. by rewrite HL.
Qed.

Lemma dir_create f bids ess fuel : dir_ok f bids ess → (length bids < 12)%nat → (length bids < fuel)%nat →
  alloc_ready i f (len bids) →
  wp (create_dir_entry i fuel name ino type (4096 * len bids)) (entered f bids ess) f.
Proof.
  intros H Hlt Hf Ha. unfold create_dir_entry. rewrite (g_bs i G). wp_step.
  apply (wp_for_each_block (λ _, True) _ bids); [apply H|apply H|done|..].
  - intros k bid s Hk _ Hks. destruct (wp_read_dir _ _ _ _ _ _ H Hk Hks) as (es & He & Hok & Hw).
    destruct (dir_lookup _ _ _ _ _ H Hk) as (Hlv & _).
    wp_step. apply wp_on_store. eapply wp_mono; [exact Hw|]. intros b s1 (Hk1 & Hd).
    apply wp_on_store. eapply wp_mono; [by apply (create_in_block_spec b (8 * bid))|]. simpl.
    intros [[]|] s2 (es' & [Hh Hok'] & C & Hr).
    + wp_step. pose proof (keeps_changed _ _ _ _ _ (vkeeps_trans _ _ _ Hks Hk1) C) as C'.
      destruct (all_names_split ess k es He) as [N EN]. pose proof (EN es) as E. rewrite list_insert_id in E by done.
      exists bids, (<[k := es']> ess).
      split_and!; [by eapply dir_ok_update|done|by eapply changed_others|by left|].
      destruct Hr as (l1 & l2 & El & El'). exists (all_names (take k ess) ++ l1), (l2 ++ N).
      rewrite EN, E, El, El'. split; by rewrite <-!app_assoc.
    + destruct Hr as [-> _]. split; [done|]. exists s2. split; [done|].
      eapply vkeeps_trans; [done|]. by eapply unchanged_keeps.
  - intros _ s Hks. by apply wp_new_block.
Qed.
End create.

(** ** The theorems *)

(** [find_entry_disk] ends and answers the inode of the first entry in use that has
    the name, over all blocks of the directory in order, or NULL when no entry has it;
    neither the inode nor any block changes. *)
Theorem find_entry_disk_first f bids ess name fuel : dir_ok f bids ess → (length bids < fuel)%nat →
  wp (find_entry_disk i fuel name) (λ r f', r = first_ino name (all_names ess) ∧
    info f' = info f ∧ ∀ n, blk (store f') n = blk (store f) n) f.
Proof.
  intros H Hf. eapply wp_mono; [by eapply dir_find|]. intros r f' (-> & Ei & Hk). split_and!; [done|done|].
  intros n. apply Hk.
Qed.

(** C6: [create_dir_entry] on a directory of fewer than twelve blocks, on a volume
    with free blocks, ends with a directory that has the new name with its inode and
    type between the names that were there, all of them kept in order.  The directory
    has the same blocks, or one more that was free before; its size is that of its
    blocks; no other block in use changes. *)
Theorem create_dir_entry_adds f bids ess ino name type fuel :
  dir_ok f bids ess → (length bids < 12)%nat → (length bids < fuel)%nat → alloc_ready i f (len bids) →
  0 < ino < 2 ^ 32 → 0 ≤ type < 256 → Forall byte_ok name → len name < 128 →
  wp (create_dir_entry i fuel name ino type (4096 * len bids)) (λ size' f', ∃ bids' ess',
    dir_ok f' bids' ess' ∧ size' = 4096 * len bids' ∧
    (∀ b, live i (store f) b → (b ∉ bids') → live i (store f') b ∧ blk (store f') b = blk (store f) b) ∧
    (bids' = bids ∨ ∃ bid, bids' = bids ++ [bid] ∧ used i (store f) bid = false) ∧
    ∃ l1 l2, all_names ess = l1 ++ l2 ∧ all_names ess' = l1 ++ (name, (ino, type)) :: l2) f.
Proof. intros. by apply dir_create. Qed.

(** C25: [remove_from_parent], given the name as a string, on a directory of at most twelve
    blocks (all of them direct), ends and takes the first entry that has the name out of the
    directory, keeping all others in order and every other block in use as it is; when
    no entry has the name the directory does not change. *)
Theorem remove_from_parent_removes f bids ess name fuel : dir_ok f bids ess → (length bids < fuel)%nat →
  wp (remove_from_parent i fuel name) (λ _ f', ∃ ess', dir_ok f' bids ess' ∧ info f' = info f ∧
    (∀ b, live i (store f) b → (b ∉ bids) → live i (store f') b ∧ blk (store f') b = blk (store f) b) ∧
    ((name ∉ (all_names ess).*1) ∧ ess' = ess ∨
     ∃ l1 x l2, all_names ess = l1 ++ (name, x) :: l2 ∧ (name ∉ l1.*1) ∧ all_names ess' = l1 ++ l2)) f.
Proof. intros. by apply dir_remove. Qed.

(** [dir_empty] of a directory with two links and no empty name ends and answers
    whether it has no names but "." and "..", changing no block. *)
Theorem dir_empty_dots f bids ess fuel : dir_ok f bids ess → (length bids < fuel)%nat →
  Forall (λ x, x.1 ≠ []) (all_names ess) →
  wp (dir_empty i fuel true 2) (λ r f',
    (r = true ↔ ∀ name x, (name, x) ∈ all_names ess → name = [dot] ∨ name = [dot; dot]) ∧
    ∀ n, blk (store f') n = blk (store f) n) f.
Proof.
  intros H Hf Hne. eapply wp_mono; [by eapply dir_empty_ok|]. intros r f' (-> & _ & Hk). split; [|intros n; apply Hk].
  rewrite bool_decide_eq_true, Forall_forall. split; [intros Ha n x Hx; exact (Ha (n, x) Hx)|intros Ha [n x] Hx; exact (Ha n x Hx)].
Qed.

(** An entry created under a new name is found with its inode, and its removal
    gives back the names the directory had. *)
Theorem create_find_remove f bids ess ino name type :
  dir_ok f bids ess → (length bids < 12)%nat → alloc_ready i f (len bids) →
  0 < ino < 2 ^ 32 → 0 ≤ type < 256 → Forall byte_ok name → len name < 128 → (name ∉ (all_names ess).*1) →
  wp (_ ← create_dir_entry i 13 name ino type (4096 * len bids);
      r ← find_entry_disk i 13 name;
      remove_from_parent i 13 name;;
      mret r) (λ r f', r = Some ino ∧ ∃ bids' ess', dir_ok f' bids' ess' ∧ all_names ess' = all_names ess) f.
Proof.
  intros H Hlt Ha Hi Ht Hn Hl Hfresh. wp_step. eapply wp_mono; [apply dir_create; try done; lia|].
  intros size f1 (bids1 & ess1 & H1 & _ & _ & _ & l1 & l2 & E & E1).
  pose proof (d_slots _ _ _ H1) as (_ & Hc & _).
  rewrite E, fmap_app, not_elem_of_app in Hfresh. destruct Hfresh as [Hf1 Hf2].
  wp_step. eapply wp_mono; [eapply dir_find; [exact H1|lia]|]. intros r f2 (-> & Ei & Hk).
  pose proof (dir_ok_keeps _ _ _ _ H1 Hk) as H2. rewrite <-Ei in H2. destruct f2 as [s2 x2]. simpl in H2.
  wp_step. eapply wp_mono; [eapply dir_remove; [exact H2|lia]|]. intros [] f3 (ess3 & H3 & _ & _ & Hr). wp_step. split.
  - rewrite E1, first_ino_skip by done. unfold first_ino. by rewrite filter_cons_True.
  - exists bids1, ess3. split; [done|]. rewrite E. rewrite E1 in Hr. destruct Hr as [[Hn' _]|(a & x & c & Eq & Hna & ->)].
    + rewrite fmap_app, not_elem_of_app in Hn'. destruct Hn' as [_ Hn']. simpl in Hn'. by apply not_elem_of_cons in Hn' as [].
    + apply split_at_name in Eq as [-> [_ ->]]; done.
Qed.
End directory.

(** ** A directory on the small volume: block 7 holds "." and ".." *)

Definition demo_es : list dent :=
  [Dent 2 12 1 2 [dot; 0; 0; 0]; Dent 2 4084 2 2 (dot :: dot :: replicate 4074 0)].
Definition demo_dir : @fs sparse :=
  Fs (Sparse (<[56 := encs demo_es]> (sp_pages demo_store))) (info demo_fs).

Lemma demo_es_ok : Forall dent_ok demo_es.
Proof.
  assert (∀ n, Forall byte_ok (dot :: dot :: replicate n 0)) as Hb.
  { intros n. repeat (apply Forall_cons; split; [done|]). by apply Forall_replicate. }
  repeat (apply Forall_cons; split); [..|done].
  - by constructor; [| | |repeat (apply Forall_cons; split); [..|done]| | |].
  - constructor; [done|done|done|apply Hb|by vm_compute|done|done].
Qed.

Lemma demo_es_page : is_page (encs demo_es).
Proof.
  split; [by vm_compute|]. apply Forall_forall. intros x Hx.
  assert (forallb (λ x, (0 <=? x) && (x <? 256)) (encs demo_es) = true) as E by (by vm_compute).
  apply list_elem_of_In in Hx. rewrite forallb_forall in E. specialize (E x Hx).
  apply andb_true_iff in E as [?%Z.leb_le ?%Z.ltb_lt]. unfold byte_ok. lia.
Qed.

Lemma demo_changed : changed demo_store 56 (encs demo_es) (store demo_dir).
Proof.
  split_and!; [|done|].
  - apply map_Forall_insert_2; [exact demo_es_page|]. apply (v_inv _ _ demo_vol).
  - intros n. simpl. unfold sp_page. simpl. case_decide as E; [subst; by rewrite lookup_insert_eq|].
    by rewrite lookup_insert_ne.
Qed.

Lemma demo_live : live demo_sb demo_store 7.
Proof.
  split_and!; [done|done|done|by vm_compute|]. intros [[H1 H2]|(g & Hg & d & Hd & E)].
  - by apply H2.
  - simpl in Hg. assert (g = 0) as -> by lia. simpl in Hd. by injection Hd as <-.
Qed.

Lemma demo_dir_ok : dir_ok demo_sb demo_dir [7] [demo_es].
Proof.
  pose proof demo_changed as C. pose proof demo_live as L. destruct L as (_ & _ & _ & Hm). split.
  - by eapply (changed_vol demo_sb _ 7); [exact C|apply demo_vol].
  - split_and!; [done|simpl; lia|by apply Forall_singleton|done].
  - apply Forall_singleton. eapply (changed_live demo_sb demo_geometry _ 7); [exact C|exact Hm|apply demo_live].
  - apply NoDup_singleton.
  - constructor; [|constructor]. split; [|apply demo_es_ok]. apply (changed_eq _ _ _ _ C).
Qed.

Lemma demo_dir_ready : alloc_ready demo_sb demo_dir 1.
Proof.
  pose proof demo_changed as C. pose proof demo_live as L. destruct L as (_ & _ & _ & Hm).
  assert (∀ n, 0 ≤ n < nblocks demo_sb → used demo_sb (store demo_dir) n = used demo_sb demo_store n) as Hu.
  { intros n Hn. by apply (changed_used demo_sb demo_geometry _ 7 _ _ n C). }
  split; [apply demo_dir_ok|by eapply (sys_ext demo_sb demo_geometry); [|apply demo_sys]| |done| |by vm_compute|by split; constructor].
  - by eapply (room_ext demo_sb); [exact Hu| |apply demo_room].
  - right. exists 7. by vm_compute.
Qed.

Lemma find_entry_disk_first_witness :
  dir_ok demo_sb demo_dir [7] [demo_es] ∧ (length [7] < 13)%nat ∧
  wp (find_entry_disk demo_sb 13 [dot; dot]) (λ r _, r = Some 2) demo_dir.
Proof.
  split; [exact demo_dir_ok|]. split; [simpl; lia|].
  eapply wp_mono; [apply (find_entry_disk_first demo_sb demo_geometry _ _ _ [dot; dot] 13 demo_dir_ok); simpl; lia|].
  intros r f' (-> & _). vm_compute. reflexivity.
Defined.

Lemma create_dir_entry_adds_witness :
  alloc_ready demo_sb demo_dir 1 ∧
  wp (create_dir_entry demo_sb 13 [97] 11 1 4096) (λ size _, 0 < size) demo_dir.
Proof.
  split; [exact demo_dir_ready|].
  eapply wp_mono; [apply (create_dir_entry_adds demo_sb demo_geometry demo_dir [7] [demo_es] 11 [97] 1 13 demo_dir_ok);
    [simpl; lia|simpl; lia|exact demo_dir_ready|lia|lia|by apply Forall_singleton|simpl; lia]|].
  intros size f' (bids' & ess' & _ & -> & _ & [->|(bid & -> & _)] & _); simpl; lia.
Defined.

Lemma remove_from_parent_removes_witness :
  dir_ok demo_sb demo_dir [7] [demo_es] ∧
  wp (remove_from_parent demo_sb 13 [dot]) (λ _ f', ∃ ess', dir_ok demo_sb f' [7] ess' ∧ all_names ess' = [([dot; dot], (2, 2))]) demo_dir.
Proof.
  split; [exact demo_dir_ok|].
  eapply wp_mono; [apply (remove_from_parent_removes demo_sb demo_geometry _ _ _ [dot] 13 demo_dir_ok); simpl; lia|].
  assert (all_names [demo_es] = [([dot], (2, 2)); ([dot; dot], (2, 2))]) as E by (vm_compute; reflexivity).
  intros u f' (ess' & Hd & _ & _ & [[Hn _]|(l1 & x & l2 & El & Hn & E')]); rewrite E in *.
  - exfalso. apply Hn. left.
  - exists ess'. split; [exact Hd|]. rewrite E'.
    apply (split_at_name [dot] (2, 2) x [] [([dot; dot], (2, 2))]) in El as (-> & _ & ->); [reflexivity|apply not_elem_of_nil|exact Hn].
Defined.

Lemma dir_empty_dots_witness :
  dir_ok demo_sb demo_dir [7] [demo_es] ∧ wp (dir_empty demo_sb 13 true 2) (λ r _, r = true) demo_dir.
Proof.
  split; [exact demo_dir_ok|].
  assert (all_names [demo_es] = [([dot], (2, 2)); ([dot; dot], (2, 2))]) as E by (vm_compute; reflexivity).
  eapply wp_mono; [apply (dir_empty_dots demo_sb demo_geometry _ _ _ 13 demo_dir_ok); [simpl; lia|]|].
  - rewrite E. repeat constructor; discriminate.
  - intros r f' [Hr _]. apply Hr. rewrite E. intros n x [[= -> ->]|[[= -> ->]|[]%elem_of_nil]%elem_of_cons]%elem_of_cons; auto.
Defined.

Lemma create_find_remove_witness :
  wp (_ ← create_dir_entry demo_sb 13 [97] 11 1 4096; r ← find_entry_disk demo_sb 13 [97];
      remove_from_parent demo_sb 13 [97];; mret r) (λ r _, r = Some 11) demo_dir.
Proof.
  eapply wp_mono; [apply (create_find_remove demo_sb demo_geometry demo_dir [7] [demo_es] 11 [97] 1 demo_dir_ok);
    [simpl; lia|exact demo_dir_ready|lia|lia|by apply Forall_singleton|simpl; lia|]|].
  - vm_compute. intros H. repeat (apply elem_of_cons in H as [?|H]; [discriminate|]). by apply elem_of_nil in H.
  - intros r f' [-> _]. reflexivity.
Defined.
