(* ===== verification/Ext2Inode.v ===== *)
(** * ext2: inodes and file contents

    Models [fs/ext2/inode.c] on the disk - the inode table, the inode bitmap, the
    counters of the groups - and reading and writing of file contents in
    [fs/ext2/ext2.c].  [inode] is [struct inode] of include/fs/vfs.h without its
    links; [i_ino] is [inode->dir->ino].  [inode->state] belongs to the write-back
    queue: [mark_inode_dirty] (Writeback) is an operation [mark] of the store, and
    [ext2_write_back] is given the state it finds.  The objects come from the slab
    caches, whose exhaustion is not modelled; locks are taken and given back around
    single assignments. *)

From Stdlib Require Import ZArith Lia String.
From S2P Require Import Prelude QLib Page BlockStore Writeback Ext2 Ext2Dir.
From stdpp Require Import base numbers list.
Open Scope Z_scope.

Definition EXT2_IFREG : Z := 0x8000.
Definition EXT2_IFDIR : Z := 0x4000.

Definition ino_mode : Z := Eval vm_compute in offsetof ext2_inode "mode".
Definition ino_size : Z := Eval vm_compute in offsetof ext2_inode "size".
Definition ino_accessTime : Z := Eval vm_compute in offsetof ext2_inode "accessTime".
Definition ino_createTime : Z := Eval vm_compute in offsetof ext2_inode "createTime".
Definition ino_modTime : Z := Eval vm_compute in offsetof ext2_inode "modTime".
Definition ino_delTime : Z := Eval vm_compute in offsetof ext2_inode "delTime".
Definition ino_linkCnt : Z := Eval vm_compute in offsetof ext2_inode "linkCnt".
Definition ino_cntSectors : Z := Eval vm_compute in offsetof ext2_inode "cntSectors".
Definition ino_blocks : Z := Eval vm_compute in offsetof ext2_inode "blocks".
Definition ino_dirAcl : Z := Eval vm_compute in offsetof ext2_inode "dirAcl".

Record inode := Inode {
  i_ino : Z;               (* dir->ino *)
  i_refCnt : Z; i_linkCnt : Z; i_permission : Z; i_type : Z; i_size : Z;
  i_createTime : Z; i_accessTime : Z; i_modifiedTime : Z; i_deleteTime : Z; i_offset : Z }.

Definition with_i_size (v : Z) (x : inode) : inode :=
  Inode (i_ino x) (i_refCnt x) (i_linkCnt x) (i_permission x) (i_type x) v
    (i_createTime x) (i_accessTime x) (i_modifiedTime x) (i_deleteTime x) (i_offset x).
Definition with_i_linkCnt (v : Z) (x : inode) : inode :=
  Inode (i_ino x) (i_refCnt x) v (i_permission x) (i_type x) (i_size x)
    (i_createTime x) (i_accessTime x) (i_modifiedTime x) (i_deleteTime x) (i_offset x).
Definition with_i_deleteTime (v : Z) (x : inode) : inode :=
  Inode (i_ino x) (i_refCnt x) (i_linkCnt x) (i_permission x) (i_type x) (i_size x)
    (i_createTime x) (i_accessTime x) (i_modifiedTime x) v (i_offset x).
Definition with_i_offset (v : Z) (x : inode) : inode :=
  Inode (i_ino x) (i_refCnt x) (i_linkCnt x) (i_permission x) (i_type x) (i_size x)
    (i_createTime x) (i_accessTime x) (i_modifiedTime x) (i_deleteTime x) v.

Definition ext2_is_dir (x : inode) : bool := truth (Z.land (i_type x) EXT2_IFDIR).

Section inode.
Context {St : Type} `{B : BlockStore St} (i : ext2_sb_info).
Variable mark : Z → M St unit.       (* mark_inode_dirty of the inode at hand *)

(** The state of a file operation: the inode with its [ext2_inode_info_t]. *)
Record file := File { f_fs : @fs St; f_inode : inode }.
Definition on_fs {A} (m : M (@fs St) A) : M file A := zoom f_fs (λ g f, File g (f_inode f)) m.
Definition on_disk {A} (m : M St A) : M file A := on_fs (on_store m).
Definition set_ino (g : inode → inode) : M file unit := modify (λ f, File (f_fs f) (g (f_inode f))).
Definition the_inode : M file inode := gets f_inode.

(** ** inode.c: the inode table *)

Definition get_raw_inode (ino : Z) : M St (Z * Z) :=
  let bIno := u32 (ino - 1) mod inodePerGroup i in
  let inodePerBlock := blockSize (sb i) / inodeSize (sb i) in
  d ← deref (desc i !! Z.to_nat (EXT2_INODE2GROUP ino i));
  let blk_no := u32 (inodeTableAddr d + bIno / inodePerBlock) in
  page ← ext2_block_read blk_no (sb i);
  mret (page, u32 (bIno * inodeSize (sb i))).

(** [memcpy] of an array of words out of and into a page. *)
Fixpoint load_words (n : nat) (buf o : Z) : M St (list Z) :=
  match n with
  | O => mret []
  | S n' => w ← bs_load32 buf o; l ← load_words n' buf (o + 4); mret (w :: l)
  end.
Fixpoint store_words (buf o : Z) (l : list Z) : M St unit :=
  match l with
  | [] => mret tt
  | w :: l' => bs_store32 buf o w;; store_words buf (o + 4) l'
  end.

(** [now] is [cur_timestamp()]. *)
Definition inode_cpy (ino now : Z) : M St (inode * inode_info) :=
  '(ei, o) ← get_raw_inode ino;
  linkCnt ← bs_load16 ei (o + ino_linkCnt);
  mode ← bs_load16 ei (o + ino_mode);
  size ← bs_load32 ei (o + ino_size);
  createTime ← bs_load32 ei (o + ino_createTime);
  modTime ← bs_load32 ei (o + ino_modTime);
  delTime ← bs_load32 ei (o + ino_delTime);
  blocks ← load_words (Z.to_nat N_BLOCKS) ei (o + ino_blocks);
  cntSectors ← bs_load32 ei (o + ino_cntSectors);
  mark I_TIME;;
  mret (Inode ino 0 linkCnt (Z.land mode 0xfff) (u16 (Z.land mode (Z.lnot 0xfff))) size
          createTime now modTime delTime 0,
        InodeInfo (cntSectors / (blockSize (sb i) / SECTOR_SIZE)) blocks).

(** Answers the state the inode has afterwards; with [I_DEL] the inode and its
    directory entry are given back to their caches. *)
Definition ext2_write_back (state : Z) (x : inode) (y : inode_info) : M St Z :=
  '(buf, o) ← get_raw_inode (i_ino x);
  when ((state =? I_TIME) || (state =? I_NEW))
    (bs_store32 buf (o + ino_accessTime) (i_accessTime x);;
     bs_store32 buf (o + ino_delTime) (i_deleteTime x);;
     bs_store32 buf (o + ino_modTime) (i_modifiedTime x);;
     bs_store32 buf (o + ino_createTime) (i_createTime x));;
  when ((state =? I_DATA) || (state =? I_NEW))
    (bs_store32 buf (o + ino_size) (u32 (i_size x));;
     bs_store32 buf (o + ino_dirAcl) (u32 (Z.shiftr (i_size x) 32));;
     bs_store16 buf (o + ino_linkCnt) (i_linkCnt x);;
     bs_store32 buf (o + ino_cntSectors) (u32 (blockCnt y * 8));;
     store_words buf (o + ino_blocks) (blocks y);;
     bs_store16 buf (o + ino_mode) (Z.lor (i_type x) (i_permission x)));;
  st ← (if state =? I_DEL then
          assertk (i_linkCnt x =? 0);;
          bs_store16 buf (o + ino_linkCnt) 0;;
          bs_store32 buf (o + ino_delTime) (i_deleteTime x);;
          bs_store32 buf (o + ino_cntSectors) 0;;
          store_words buf (o + ino_blocks) (replicate (Z.to_nat N_BLOCKS) 0);;
          mret I_DEL
        else mret I_OLD);
  bs_mark buf;;
  mret st.

(** ** inode.c: the inode bitmap *)

(** The group with the fewest free inodes. *)
Fixpoint min_inode_group (n : nat) (g : Z) (best : option Z) (min : Z) : M St (option Z) :=
  match n with
  | O => mret best
  | S n' =>
      '(buf, off) ← get_raw_gd g (sb i);
      free ← bs_load16 buf (off + gd_freeInodesCnt);
      if free <? min then min_inode_group n' (g + 1) (Some g) free
      else min_inode_group n' (g + 1) best min
  end.

Definition next_inode_group (g0 : Z) : M St Z :=
  loop (Z.to_nat (groupCnt i) + 1) (λ g : Z,
    '(buf, off) ← get_raw_gd g (sb i);
    free ← bs_load16 buf (off + gd_freeInodesCnt);
    if negb (free =? 0) then mret (inr g)
    else
      let g' := u32 (g + 1) mod groupCnt i in
      mret (if g0 =? g' then inr g' else inl g')) g0.

(** For the directory [parent], whose blocks are in the state; [fuel] bounds the
    number of them. *)
Definition find_group_ino (fuel : nat) (parent : inode) : M (@fs St) Z :=
  e ← dir_empty i fuel (ext2_is_dir parent) (i_linkCnt parent);
  if e : bool then
    r ← on_store (min_inode_group (Z.to_nat (groupCnt i)) 0 None 0xffffffff);
    deref r
  else on_store (next_inode_group (EXT2_INODE2GROUP (i_ino parent) i)).

Definition set_inode_bitmap (fuel : nat) (parent : inode) : M (@fs St) Z :=
  groupNo ← find_group_ino fuel parent;
  d ← deref (desc i !! Z.to_nat groupNo);
  buf ← on_store (ext2_block_read (inodeBitmapAddr d) (sb i));
  bit ← on_store (set_next_zero_bit buf (inodePerGroup i / 8));
  assertk (negb (bit <? 0));;                              (* error("unknown_error") *)
  on_store (bs_mark buf);;
  mret (u32 (bit + 1 + groupNo * blockPerGroup i)).

Definition clear_inode_bitmap (ino : Z) : M St unit :=
  let groupNo := EXT2_INODE2GROUP ino i in
  d ← deref (desc i !! Z.to_nat groupNo);
  buf ← ext2_block_read (inodeBitmapAddr d) (sb i);
  let k := u32 (ino - 1) in
  ch ← bs_load buf (k / 8);
  bs_store buf (k / 8) (clear_bit ch (k mod 8));;
  bs_mark buf.

(** A change of a 16-bit counter of a group descriptor: [desc->fld += delta]. *)
Definition gd_add (buf off fld delta : Z) : M St unit :=
  v ← bs_load16 buf (off + fld); bs_store16 buf (off + fld) (u16 (v + delta)).

(** The new inode for [parent]; its directory entry is made by the caller. *)
Definition inode_alloc (fuel : nat) (parent : inode) (mode now : Z) : M (@fs St) (inode * inode_info) :=
  ino ← set_inode_bitmap fuel parent;
  let t := u16 (Z.land mode (Z.lnot 0xfff)) in
  linkCnt ← (if t =? EXT2_IFREG then mret 1 else if t =? EXT2_IFDIR then mret 2 else fail Assert);
  let groupNo := EXT2_INODE2GROUP ino i in
  '(buf, off) ← on_store (get_raw_gd groupNo (sb i));
  on_store (gd_add buf off gd_freeInodesCnt (-1));;
  (if t =? EXT2_IFDIR then on_store (gd_add buf off gd_dirNum 1) else mret tt);;
  on_store (bs_mark buf);;
  mret (Inode ino 0 linkCnt (Z.land mode 0xfff) t 0 now now now 0 0,
        InodeInfo 0 (replicate (Z.to_nat N_BLOCKS) 0)).

(** The write lock of the inode stays taken.  [list_del(&dir->brother)] acts on the
    directory cache. *)
Definition inode_delete (now : Z) : M file unit :=
  x ← the_inode;
  let isDir := ext2_is_dir x in
  on_fs (free_blocks i);;
  set_ino (with_i_linkCnt 0);;
  set_ino (with_i_deleteTime now);;
  on_disk (clear_inode_bitmap (i_ino x));;
  let groupNo := EXT2_INODE2GROUP (i_ino x) i in
  '(buf, off) ← on_disk (get_raw_gd groupNo (sb i));
  on_disk (gd_add buf off gd_freeInodesCnt 1);;
  (if isDir then on_disk (gd_add buf off gd_dirNum (-1)) else mret tt);;
  on_disk (mark I_DEL);;
  on_disk (bs_mark buf).

(** ** ext2.c: file contents *)

Definition ext2_block_get (no : Z) (s : super_block) : M St Z := bs_get (EXT2_BLOCK2LBA s no).

(** [memcpy(buf, page->data + o, n)] *)
Fixpoint load_bytes (n : nat) (buf o : Z) : M St (list Z) :=
  match n with
  | O => mret []
  | S n' => c ← bs_load buf o; l ← load_bytes n' buf (o + 1); mret (c :: l)
  end.

(** Answers the bytes copied to the caller's buffer; their number is the result. *)
Definition ext2_read (offset size : Z) : M file (list Z) :=
  x ← the_inode;
  let bsize := blockSize (sb i) in
  let blkOffset := offset mod bsize in
  let bno := offset / bsize in
  if u64 (i_size x + bsize - 1) / bsize <=? bno then mret []
  else
    let size := MIN (u32 (bsize - blkOffset)) size in
    bid ← on_fs (get_bid i bno);
    if bid =? 0 then mret []
    else
      page ← on_disk (ext2_block_read bid (sb i));
      on_disk (load_bytes (Z.to_nat size) page blkOffset).

Definition ext2_read_page (offset : Z) : M file Z :=
  let bno := offset / blockSize (sb i) in
  bid ← on_fs (get_bid i bno);
  on_disk (ext2_block_read bid (sb i)).

(** [data] are the [size] bytes at the caller's buffer; answers the number written. *)
Definition ext2_write (offset : Z) (data : list Z) : M file Z :=
  x ← the_inode;
  assertk (truth (Z.land (i_type x) EXT2_IFREG));;          (* error("filetype_error") *)
  let bsize := blockSize (sb i) in
  let blkOffset := offset mod bsize in
  let bno := offset / bsize in
  let size := MIN (u32 (bsize - blkOffset)) (Z.of_nat (List.length data)) in
  page ← (if bno <? next_free_bno i (i_size x) then
            bid ← on_fs (get_bid i bno);
            on_disk (ext2_block_read bid (sb i))
          else
            bid ← on_fs (alloc_block i bno);
            on_disk (ext2_block_get bid (sb i)));
  set_ino (with_i_size (u32 (offset + size)));;
  on_disk (copy_name page blkOffset (take (Z.to_nat size) data));;
  on_disk (bs_mark page);;
  on_disk (mark I_DATA);;
  mret size.

(** [ext2_open] and [ext2_close] of an inode that is there. *)
Definition ext2_open : M file Z := mret 0.
Definition ext2_close : M file Z :=
  x ← the_inode;
  (if ext2_is_dir x && negb (i_offset x =? 0) then set_ino (with_i_offset 0) else mret tt);;
  mret 0.
End inode.
