(* ===== verification/Ext2InodeCorrect.v ===== *)
(** * ext2: inodes and file contents, correctness

    The inode table: writing an inode back and reading it again, and where the
    address of an inode leaves its page.  File contents: what is written is read
    back, and what else a write does. *)

From S2P Require Import Prelude QLib Page BlockStore Writeback Ext2 Ext2Dir Ext2Inode Ext2Correct Ext2DirCorrect Ext2Directory.
From Stdlib Require Import ZArith Lia.
From stdpp Require Import base countable numbers gmap list.
Open Scope Z_scope.

#[local] Arguments Z.to_nat : simpl never.
#[local] Arguments Z.mul : simpl never.
#[local] Arguments Z.pow : simpl never.
#[local] Arguments Z.div : simpl never.
#[local] Arguments Z.modulo : simpl never.

(** ** Words written into a page *)

Fixpoint put_words (d : bytes) (o : Z) (l : list Z) : bytes :=
  match l with [] => d | w :: l' => put_words (put32 d o w) (o + 4) l' end.

Lemma le16_put32_ne d o o' v : 0 ≤ o → 0 ≤ o' → (o' + 2 ≤ o ∨ o + 4 ≤ o') → le16 (put32 d o v) o' = le16 d o'.
Proof. intros. unfold le16. by rewrite !byte_put32_ne by lia. Qed.
Lemma le16_put16_ne d o o' v : 0 ≤ o → 0 ≤ o' → (o' + 2 ≤ o ∨ o + 2 ≤ o') → le16 (put16 d o v) o' = le16 d o'.
Proof. intros. unfold le16. by rewrite !byte_put16_ne by lia. Qed.
Lemma le32_put16_ne d o o' v : 0 ≤ o → 0 ≤ o' → (o' + 4 ≤ o ∨ o + 2 ≤ o') → le32 (put16 d o v) o' = le32 d o'.
Proof. intros. unfold le32, le16. by rewrite !byte_put16_ne by lia. Qed.

Lemma length_put_words d o l : length (put_words d o l) = length d.
Proof. revert d o. induction l as [|w l IH]; intros d o; simpl; [done|]. by rewrite IH, length_put32. Qed.
Lemma put_words_page d o l : is_page d → is_page (put_words d o l).
Proof. revert d o. induction l as [|w l IH]; intros d o H; simpl; [done|]. by apply IH, put32_page. Qed.

Lemma byte_put_words_ne d o l o' : 0 ≤ o → 0 ≤ o' → (o' < o ∨ o + 4 * len l ≤ o') →
  byte_at (put_words d o l) o' = byte_at d o'.
Proof.
  revert d o. induction l as [|w l IH]; intros d o H1 H2 H3; simpl in *; [done|].
  rewrite IH by lia. apply byte_put32_ne; lia.
Qed.
Lemma le16_put_words_ne d o l o' : 0 ≤ o → 0 ≤ o' → (o' + 2 ≤ o ∨ o + 4 * len l ≤ o') →
  le16 (put_words d o l) o' = le16 d o'.
Proof. intros. unfold le16. by rewrite !byte_put_words_ne by lia. Qed.
Lemma le32_put_words_ne d o l o' : 0 ≤ o → 0 ≤ o' → (o' + 4 ≤ o ∨ o + 4 * len l ≤ o') →
  le32 (put_words d o l) o' = le32 d o'.
Proof. intros. unfold le32, le16. by rewrite !byte_put_words_ne by lia. Qed.

(** The words at [o]. *)
Fixpoint get_words (n : nat) (d : bytes) (o : Z) : list Z :=
  match n with O => [] | S n' => le32 d o :: get_words n' d (o + 4) end.

Lemma get_words_ext n d d' o : (∀ k, 0 ≤ k < Z.of_nat n → le32 d (o + 4 * k) = le32 d' (o + 4 * k)) →
  get_words n d o = get_words n d' o.
Proof.
  revert o. induction n as [|n IH]; intros o H; [done|]. simpl. f_equal.
  - specialize (H 0). by rewrite Z.mul_0_r, Z.add_0_r in H by lia; apply H; lia.
  - apply IH. intros k Hk. specialize (H (k + 1)). replace (o + 4 + 4 * k) with (o + 4 * (k + 1)) by lia. apply H. lia.
Qed.

Lemma get_words_put16 n d o o' v : 0 ≤ o → 0 ≤ o' → (o' + 4 * Z.of_nat n ≤ o ∨ o + 2 ≤ o') →
  get_words n (put16 d o v) o' = get_words n d o'.
Proof. intros. apply get_words_ext. intros k Hk. apply le32_put16_ne; lia. Qed.

Lemma get_put_words d o l : 0 ≤ o → o + 4 * len l ≤ len d → Forall (λ w, 0 ≤ w < 2 ^ 32) l →
  get_words (length l) (put_words d o l) o = l.
Proof.
  revert d o. induction l as [|w l IH]; intros d o H1 H2 H3; [done|]. apply Forall_cons in H3 as [Hw H3]. simpl in *. f_equal.
  - rewrite le32_put_words_ne by lia. rewrite le32_put32 by lia. by rewrite u32_small.
  - apply IH; [lia|rewrite length_put32; lia|done].
Qed.

Section words.
Context {St : Type} `{B : BlockStore St} (b no : Z).

Lemma load_words_ok n : ∀ s d o, holds b no s d → 0 ≤ o → o + 4 * Z.of_nat n ≤ 4096 →
  load_words n b o s = Ok (get_words n d o, s).
Proof.
  induction n as [|n IH]; intros s d o H H1 H2; [done|]. simpl. pose proof H as (Hi & Ha & Hv).
  erewrite bind_Ok by (apply (bs_load32_ok s b no _ _ Hi Ha Hv); fits).
  erewrite bind_Ok by (apply IH; [done|lia|lia]). done.
Qed.

Lemma wp_store_words l : ∀ s d o, holds b no s d → 0 ≤ o → o + 4 * len l ≤ 4096 →
  wp (store_words b o l) (λ _ s', changed s no (put_words d o l) s') s.
Proof.
  induction l as [|w l IH]; intros s d o H H1 H2; simpl in *; [wp_step; by apply (changed_refl b)|].
  wp_step. pose proof H as (Hi & Ha & Hv).
  eapply wp_mono; [apply (wp_bs_store32 s b no); first [done|fits]|]. intros [] s1 C1.
  eapply wp_mono; [apply (IH s1 (put32 d o w)); [by eapply holds_changed|lia|lia]|]. intros [] s2 C2. by eapply changed_trans.
Qed.

(** One access after another to the same page. *)
Lemma wp_page_then {A} (m : M St unit) (k : M St A) Q s d d' : holds b no s d →
  wp m (λ _ s', changed s no d' s') s →
  (∀ s', holds b no s' d' → changed s no d' s' → wp k Q s') → wp (m;; k) Q s.
Proof.
  intros H Hm Hk. wp_step. eapply wp_mono; [exact Hm|]. intros [] s1 C. apply Hk; [by eapply holds_changed|done].
Qed.
Lemma wp_store16_at s d o v : holds b no s d → 0 ≤ o → o + 2 ≤ 4096 →
  wp (bs_store16 b o v) (λ _ s', changed s no (put16 d o v) s') s.
Proof. intros (Hi & Ha & Hv) ??. apply (wp_bs_store16 s b no); first [done|fits]. Qed.
Lemma wp_store32_at s d o v : holds b no s d → 0 ≤ o → o + 4 ≤ 4096 →
  wp (bs_store32 b o v) (λ _ s', changed s no (put32 d o v) s') s.
Proof. intros (Hi & Ha & Hv) ??. apply (wp_bs_store32 s b no); first [done|fits]. Qed.
Lemma load16_at s d o : holds b no s d → 0 ≤ o → o + 2 ≤ 4096 → bs_load16 b o s = Ok (le16 d o, s).
Proof. intros (Hi & Ha & Hv) ??. apply (bs_load16_ok s b no); first [done|fits]. Qed.
Lemma load32_at s d o : holds b no s d → 0 ≤ o → o + 4 ≤ 4096 → bs_load32 b o s = Ok (le32 d o, s).
Proof. intros (Hi & Ha & Hv) ??. apply (bs_load32_ok s b no); first [done|fits]. Qed.
End words.

(** ** The inode table *)

Section table.
Context {St : Type} `{B : BlockStore St} (i : ext2_sb_info).
Hypothesis G : geometry i.

Definition bIno (ino : Z) : Z := (ino - 1) mod inodePerGroup i.
Definition tblk (ino : Z) : Z :=
  from_option (λ d, inodeTableAddr d + bIno ino / 32) (-1) (desc i !! Z.to_nat ((ino - 1) / inodePerGroup i)).

(** The inode number belongs to a group, and the block of its inode is on the volume. *)
Record ino_ok (ino : Z) : Prop := InoOk {
  n_isz : inodeSize (sb i) = 128;
  n_ipg : 0 < inodePerGroup i ≤ 32768;
  n_ino : 1 ≤ ino < 2 ^ 32;
  n_blk : 0 ≤ tblk ino < nblocks i }.

Lemma wp_get_raw_inode s ino : vol_ok i s → ino_ok ino →
  wp (get_raw_inode i ino) (λ '(b, o) s', keeps s s' ∧ bs_at s' b (8 * tblk ino) ∧ o = 128 * bIno ino) s.
Proof.
  intros Hv [H1 H2 H3 H4]. unfold get_raw_inode, EXT2_INODE2GROUP. rewrite (g_bs i G), H1.
  rewrite (u32_small (ino - 1)) by lia. change (4096 / 128) with 32. fold (bIno ino).
  pose proof (Z.mod_pos_bound (ino - 1) (inodePerGroup i) ltac:(lia)) as Hb. fold (bIno ino) in Hb.
  unfold tblk in H4. destruct (desc i !! _) as [d|] eqn:Ed; simpl in H4; [|lia].
  wp_step. apply (wp_intro _ _ _ d s); [done|]. unfold nblocks in H4. pose proof (g_cnt i G).
  rewrite !u32_small by (change (2 ^ 32) with 4294967296; lia).
  wp_step. eapply wp_mono; [apply (wp_block_read i G); [done|unfold nblocks; lia]|]. intros b s' [Hk Ha].
  wp_step. split_and!; [done| |].
  - unfold tblk. by rewrite Ed.
  - lia.
Qed.

(** The page with the inode at [o] written back in the state [I_NEW]. *)
Definition put_times (d : bytes) (o : Z) (x : inode) : bytes :=
  put32 (put32 (put32 (put32 d (o + ino_accessTime) (i_accessTime x)) (o + ino_delTime) (i_deleteTime x))
    (o + ino_modTime) (i_modifiedTime x)) (o + ino_createTime) (i_createTime x).
Definition put_fields (d : bytes) (o : Z) (x : inode) (y : inode_info) : bytes :=
  put16 (put_words (put32 (put16 (put32 (put32 d (o + ino_size) (u32 (i_size x)))
    (o + ino_dirAcl) (u32 (Z.shiftr (i_size x) 32))) (o + ino_linkCnt) (i_linkCnt x))
    (o + ino_cntSectors) (u32 (blockCnt y * 8))) (o + ino_blocks) (blocks y))
    (o + ino_mode) (Z.lor (i_type x) (i_permission x)).

Lemma wp_put_times s b no d o x : holds b no s d → 0 ≤ o → o + 128 ≤ 4096 →
  wp (bs_store32 b (o + ino_accessTime) (i_accessTime x);;
      bs_store32 b (o + ino_delTime) (i_deleteTime x);;
      bs_store32 b (o + ino_modTime) (i_modifiedTime x);;
      bs_store32 b (o + ino_createTime) (i_createTime x)) (λ _ s', changed s no (put_times d o x) s') s.
Proof.
  intros H H1 H2. unfold put_times, ino_accessTime, ino_delTime, ino_modTime, ino_createTime.
  do 3 (eapply wp_page_then; [eassumption|apply wp_store32_at; [eassumption|lia|lia]|]; intros).
  eapply wp_mono; [apply wp_store32_at; [eassumption|lia|lia]|]. intros [] s4 C4.
  do 3 (eapply changed_trans; [eassumption|]). done.
Qed.

Lemma wp_put_fields s b no d o x y : holds b no s d → 0 ≤ o → o + 128 ≤ 4096 → length (blocks y) = 15%nat →
  wp (bs_store32 b (o + ino_size) (u32 (i_size x));;
      bs_store32 b (o + ino_dirAcl) (u32 (Z.shiftr (i_size x) 32));;
      bs_store16 b (o + ino_linkCnt) (i_linkCnt x);;
      bs_store32 b (o + ino_cntSectors) (u32 (blockCnt y * 8));;
      store_words b (o + ino_blocks) (blocks y);;
      bs_store16 b (o + ino_mode) (Z.lor (i_type x) (i_permission x)))
    (λ _ s', changed s no (put_fields d o x y) s') s.
Proof.
  intros H H1 H2 Hl. unfold put_fields, ino_size, ino_dirAcl, ino_linkCnt, ino_cntSectors, ino_blocks, ino_mode.
  do 2 (eapply wp_page_then; [eassumption|apply wp_store32_at; [eassumption|lia|lia]|]; intros).
  eapply wp_page_then; [eassumption|apply wp_store16_at; [eassumption|lia|lia]|]; intros.
  eapply wp_page_then; [eassumption|apply wp_store32_at; [eassumption|lia|lia]|]; intros.
  eapply wp_page_then; [eassumption|apply (wp_store_words b no); [eassumption|lia|lia]|]; intros.
  eapply wp_mono; [apply wp_store16_at; [eassumption|lia|lia]|]. intros [] s4 C4.
  do 5 (eapply changed_trans; [eassumption|]). done.
Qed.

(** What is read of the inode at [o]. *)
Definition read_inode (ino now : Z) (d : bytes) (o : Z) : inode * inode_info :=
  (Inode ino 0 (le16 d (o + ino_linkCnt)) (Z.land (le16 d (o + ino_mode)) 0xfff)
     (u16 (Z.land (le16 d (o + ino_mode)) (Z.lnot 0xfff))) (le32 d (o + ino_size))
     (le32 d (o + ino_createTime)) now (le32 d (o + ino_modTime)) (le32 d (o + ino_delTime)) 0,
   InodeInfo (le32 d (o + ino_cntSectors) / 8) (get_words 15 d (o + ino_blocks))).

(** The fields have their widths, as the types of [struct inode] give them. *)
Record inode_fits (x : inode) (y : inode_info) : Prop := InodeFits {
  w_link : 0 ≤ i_linkCnt x < 2 ^ 16;
  w_perm : 0 ≤ i_permission x < 4096;
  w_type : i_type x mod 4096 = 0 ∧ 0 ≤ i_type x < 2 ^ 16;
  w_size : 0 ≤ i_size x < 2 ^ 32;
  w_times : 0 ≤ i_createTime x < 2 ^ 32 ∧ 0 ≤ i_accessTime x < 2 ^ 32 ∧
    0 ≤ i_modifiedTime x < 2 ^ 32 ∧ 0 ≤ i_deleteTime x < 2 ^ 32;
  w_cnt : 0 ≤ blockCnt y < 2 ^ 29;
  w_blocks : length (blocks y) = 15%nat ∧ Forall (λ w, 0 ≤ w < 2 ^ 32) (blocks y) }.

Lemma mode_split t p : t mod 4096 = 0 → 0 ≤ t < 2 ^ 16 → 0 ≤ p < 4096 →
  u16 (Z.lor t p) = t + p ∧ Z.land (t + p) 0xfff = p ∧ u16 (Z.land (t + p) (Z.lnot 0xfff)) = t.
Proof.
  change (2 ^ 16) with 65536. intros Ht Hr Hp.
  assert (Z.lor t p = t + p) as ->.
  { replace t with (t / 4096 * 2 ^ 12) by (change (2 ^ 12) with 4096; Z.div_mod_to_equations; lia).
    apply lor_low; [lia|]. by change (2 ^ 12) with 4096. }
  assert (0 ≤ t + p < 65536) as Hs by (Z.div_mod_to_equations; lia).
  change 0xfff with (Z.ones 12). rewrite Z.land_ones, <-Z.ldiff_land, Z.ldiff_ones_r by lia.
  rewrite Z.shiftr_div_pow2, Z.shiftl_mul_pow2 by lia. change (2 ^ 12) with 4096.
  unfold u16. change (2 ^ 16) with 65536. split_and!.
  - by rewrite Z.mod_small.
  - Z.div_mod_to_equations; lia.
  - rewrite Z.mod_small; Z.div_mod_to_equations; lia.
Qed.

Ltac off_simpl := unfold ino_accessTime, ino_delTime, ino_modTime, ino_createTime, ino_size, ino_dirAcl,
  ino_linkCnt, ino_cntSectors, ino_blocks, ino_mode in *.
(** Reads a field over the writes of other fields. *)
Ltac read_over := repeat first
  [ rewrite le32_put16_ne by lia | rewrite le32_put_words_ne by lia | rewrite le32_put32_ne by lia
  | rewrite le16_put_words_ne by lia | rewrite le16_put32_ne by lia | rewrite le16_put16_ne by lia ].
Ltac len_solve := repeat first [rewrite length_put16|rewrite length_put_words|rewrite length_put32]; lia.

Lemma read_written ino now d o x y : len d = 4096 → 0 ≤ o → o + 128 ≤ 4096 → inode_fits x y →
  read_inode ino now (put_fields (put_times d o x) o x y) o =
  (Inode ino 0 (i_linkCnt x) (i_permission x) (i_type x) (i_size x) (i_createTime x) now
     (i_modifiedTime x) (i_deleteTime x) 0, y).
Proof.
  intros Hd H1 H2 [Wl Wp [Wt1 Wt2] Ws (Wc & Wa & Wm & Wd) Wn [Wb1 Wb2]].
  destruct (mode_split _ _ Wt1 Wt2 Wp) as (M1 & M2 & M3).
  unfold read_inode, put_fields, put_times. off_simpl.
  rewrite (le16_put16 _ (o + 0)) by len_solve. rewrite M1, M2, M3.
  f_equal; [f_equal|].
  - read_over. rewrite le16_put16 by len_solve. by apply u16_small.
  - read_over. rewrite le32_put32 by len_solve. rewrite (u32_small (i_size x)) by done. by apply u32_small.
  - read_over. rewrite le32_put32 by len_solve. by apply u32_small.
  - read_over. rewrite le32_put32 by len_solve. by apply u32_small.
  - read_over. rewrite le32_put32 by len_solve. by apply u32_small.
  - destruct y as [cnt bl]. cbn [blockCnt blocks] in *. f_equal.
    + read_over. rewrite le32_put32 by len_solve.
      assert (0 ≤ cnt * 8 < 2 ^ 32) by (change (2 ^ 29) with 536870912 in Wn; change (2 ^ 32) with 4294967296; lia).
      rewrite (u32_small (cnt * 8)), u32_small by done. apply Z.div_mul. lia.
    + rewrite get_words_put16 by lia. rewrite <-Wb1. apply get_put_words; [lia|len_solve|done].
Qed.

Lemma written_rest d o x y k : 0 ≤ o → 0 ≤ k → k < o ∨ o + 128 ≤ k → length (blocks y) = 15%nat →
  byte_at (put_fields (put_times d o x) o x y) k = byte_at d k.
Proof.
  intros H1 H2 H3 Hl. unfold put_fields, put_times. off_simpl.
  repeat first [rewrite byte_put16_ne by lia|rewrite byte_put_words_ne by lia|rewrite byte_put32_ne by lia]. done.
Qed.

Lemma bIno_range ino : 0 < inodePerGroup i → 0 ≤ bIno ino.
Proof. intros. by apply Z.mod_pos_bound. Qed.

Lemma wp_write_back_new s x y : vol_ok i s → ino_ok (i_ino x) → bIno (i_ino x) < 32 → length (blocks y) = 15%nat →
  wp (ext2_write_back i I_NEW x y) (λ st s', st = I_OLD ∧ ∃ d, blk s (tblk (i_ino x)) = Some d ∧ is_page d ∧
    let o := 128 * bIno (i_ino x) in
    changed s (8 * tblk (i_ino x)) (put_fields (put_times d o x) o x y) s') s.
Proof.
  intros Hv Hi Hb Hl. unfold ext2_write_back. wp_step.
  eapply wp_mono; [by apply wp_get_raw_inode|]. intros [b o] s1 (Hk & Ha & ->). cbv beta iota.
  pose proof (bIno_range (i_ino x) ltac:(apply Hi)) as Hb0.
  destruct (v_blk i _ (keeps_vol i _ _ Hk Hv) (tblk (i_ino x)) (n_blk _ Hi)) as [d Hd].
  assert (holds b (8 * tblk (i_ino x)) s1 d) as H1 by (split_and!; [apply Hk|done|done]).
  change ((I_NEW =? I_TIME) || (I_NEW =? I_NEW)) with true. change ((I_NEW =? I_DATA) || (I_NEW =? I_NEW)) with true.
  change (I_NEW =? I_DEL) with false. cbv iota.
  eapply (wp_page_then b _); [exact H1|apply wp_when; apply (wp_put_times s1 b); [done|lia|lia]|]. intros s2 H2 C2.
  eapply (wp_page_then b _); [exact H2|apply wp_when; apply (wp_put_fields s2 b); [done|lia|lia|done]|]. intros s3 H3 C3.
  do 2 wp_step. wp_step. destruct H3 as (I3 & A3 & V3). eapply wp_mono; [by eapply wp_bs_mark|]. intros [] s4 C4. wp_step.
  split; [done|]. exists d. split_and!.
  - unfold blk. by rewrite <-(proj1 (proj2 Hk)).
  - by eapply bs_page; [apply Hk|exact Hd].
  - eapply keeps_changed; [exact Hk|]. eapply changed_trans; [exact C2|]. by eapply changed_trans.
Qed.

(** Reading an inode; [mark] stands for [mark_inode_dirty], which keeps what is stored. *)
Variable mark : Z → M St unit.
Hypothesis mark_ok : ∀ st s, bs_inv s → wp (mark st) (λ _ s', keeps s s') s.

Lemma wp_inode_cpy s ino now d : vol_ok i s → ino_ok ino → bIno ino < 32 → blk s (tblk ino) = Some d →
  wp (inode_cpy i mark ino now) (λ r s', r = read_inode ino now d (128 * bIno ino) ∧ keeps s s') s.
Proof.
  intros Hv Hi Hb Hd. unfold inode_cpy. wp_step.
  eapply wp_mono; [by apply wp_get_raw_inode|]. intros [b o] s1 (Hk & Ha & ->). cbv beta iota.
  pose proof (bIno_range ino ltac:(apply Hi)) as Hb0.
  assert (holds b (8 * tblk ino) s1 d) as H1.
  { split_and!; [apply Hk|done|]. by rewrite (proj1 (proj2 Hk)). }
  off_simpl.
  do 2 (wp_step; eapply wp_intro; [eapply load16_at; [done|lia|lia]|]).
  do 4 (wp_step; eapply wp_intro; [eapply load32_at; [done|lia|lia]|]).
  wp_step. eapply wp_intro; [eapply load_words_ok; [done|lia|unfold N_BLOCKS, N_DIRECT_BLOCK; lia]|].
  wp_step; eapply wp_intro; [eapply load32_at; [done|lia|lia]|].
  wp_step. eapply wp_mono; [apply mark_ok; apply H1|]. intros [] s2 Hk2. wp_step.
  split; [|by eapply vkeeps_trans]. rewrite (g_bs i G). change (4096 / SECTOR_SIZE) with 8. done.
Qed.

(** C26: An inode written back as new and read again has the same fields - except the
    access time, which is the time of reading, and the counters that live in memory
    only - and the same blocks; the bytes around the inode in its table and all
    other blocks are unchanged.  This holds for the first 32 inodes of a group. *)
Theorem inode_roundtrip s x y now : vol_ok i s → ino_ok (i_ino x) → bIno (i_ino x) < 32 → inode_fits x y →
  wp (st ← ext2_write_back i I_NEW x y; r ← inode_cpy i mark (i_ino x) now; mret (st, r)) (λ '(st, r) s',
    st = I_OLD ∧
    r = (Inode (i_ino x) 0 (i_linkCnt x) (i_permission x) (i_type x) (i_size x) (i_createTime x) now
           (i_modifiedTime x) (i_deleteTime x) 0, y) ∧
    (∀ n, n ≠ tblk (i_ino x) → blk s' n = blk s n) ∧
    ∃ d d', blk s (tblk (i_ino x)) = Some d ∧ blk s' (tblk (i_ino x)) = Some d' ∧
      ∀ k, 0 ≤ k → k < 128 * bIno (i_ino x) ∨ 128 * bIno (i_ino x) + 128 ≤ k → byte_at d' k = byte_at d k) s.
Proof.
  intros Hv Hi Hb Hf. destruct (w_blocks _ _ Hf) as [Hl _]. pose proof (bIno_range (i_ino x) ltac:(apply Hi)) as Hb0.
  wp_step. eapply wp_mono; [by apply wp_write_back_new|]. intros st s1 (-> & d & Hd & [Hpl _] & C).
  pose proof (changed_eq _ _ _ _ C) as Hd1. wp_step.
  eapply wp_mono; [eapply wp_inode_cpy; [by eapply changed_vol|done|done|exact Hd1]|]. intros r s2 [-> Hk]. wp_step. split_and!.
  - done.
  - apply read_written; [rewrite Hpl; done|lia|lia|done].
  - intros n Hn. unfold blk. rewrite (proj1 (proj2 Hk)). apply (changed_ne _ _ _ _ _ C). lia.
  - eexists d, _. split_and!; [done|unfold blk; rewrite (proj1 (proj2 Hk)); exact Hd1|].
    intros k Hk0 Hk1. by apply written_rest; [lia| | |].
Qed.

(** For every inode behind the first 32 of its group [inode_cpy] computes an
    address outside the page it has read: the offset is not reduced to the block. *)
Theorem inode_cpy_overrun s ino now : vol_ok i s → ino_ok ino → 32 ≤ bIno ino →
  inode_cpy i mark ino now s = Err Fault.
Proof.
  intros Hv Hi Hb. destruct (wp_elim _ _ _ (wp_get_raw_inode s ino Hv Hi)) as ([b o] & s1 & E & Hk & Ha & ->).
  unfold inode_cpy. rewrite (bind_Ok _ _ _ _ _ E). apply bind_Err. unfold bs_load16. apply bind_Err.
  eapply bs_load_out; [apply Hk|exact Ha|]. change BUF_SIZE with 4096. off_simpl. lia.
Qed.
End table.

(** ** File contents *)

(** [l] written over the bytes of [d] from [o] on; the [n] bytes from [o] on. *)
Definition put_bytes (d : bytes) (o : Z) (l : bytes) : bytes :=
  take (Z.to_nat o) d ++ l ++ drop (length l) (drop (Z.to_nat o) d).
Definition get_bytes (d : bytes) (o : Z) (n : nat) : bytes := take n (drop (Z.to_nat o) d).

Lemma get_put_bytes d o l : 0 ≤ o ≤ len d → get_bytes (put_bytes d o l) o (length l) = l.
Proof.
  intros Ho. unfold get_bytes, put_bytes. rewrite drop_app_length' by (rewrite length_take; lia).
  apply take_app_length.
Qed.

Section contents.
Context {St : Type} `{B : BlockStore St} (i : ext2_sb_info).
Hypothesis G : geometry i.
Variable mark : Z → M St unit.
Hypothesis mark_ok : ∀ st s, bs_inv s → wp (mark st) (λ _ s', keeps s s') s.

Lemma load_bytes_ok b no n : ∀ s d o, holds b no s d → 0 ≤ o → o + Z.of_nat n ≤ 4096 →
  load_bytes n b o s = Ok (get_bytes d o n, s).
Proof.
  induction n as [|n IH]; intros s d o H H1 H2; [done|]. simpl. pose proof H as (Hi & Ha & Hv).
  erewrite bind_Ok by (apply (bs_load_ok s b no _ _ Hi Ha Hv); fits).
  erewrite bind_Ok by (apply IH; [done|lia|lia]). unfold mret, M_ret, get_bytes, byte_at.
  destruct (lookup_lt_is_Some_2 d (Z.to_nat o)) as [c Hc]; [pose proof (holds_len _ _ _ _ H); lia|].
  rewrite Hc, (drop_S d c (Z.to_nat o)) by done. by replace (Z.to_nat (o + 1)) with (S (Z.to_nat o)) by lia.
Qed.

Lemma wp_copy_raw b no name : ∀ s P R, bs_inv s → bs_raw s b no (P ++ R) → Forall byte_ok name → len name ≤ len R →
  wp (copy_name b (len P) name) (λ _ s', keeps s s' ∧ bs_raw s' b no (P ++ name ++ drop (length name) R)) s.
Proof.
  induction name as [|c name IH]; intros s P R Hi Hr Hn Hl; simpl; [wp_step; by split|].
  destruct R as [|x R]; simpl in Hl; [lia|]. apply Forall_cons in Hn as [Hc Hn].
  destruct (bs_raw_page _ _ _ _ Hi Hr) as [HL _]. rewrite length_app in HL. simpl in HL. unfold BUF_SIZE, PAGE_SIZE in HL.
  wp_step. eapply wp_mono; [apply (bs_store_raw s b no _ _ _ Hi Hr); fits|]. intros [] s1 (I1 & V1 & R1 & A1).
  rewrite put8_app, u8_small in R1 by done.
  replace (P ++ c :: R) with ((P ++ [c]) ++ R) in R1 by (by rewrite <-app_assoc).
  replace (len P + 1) with (len (P ++ [c])) by (rewrite length_app; simpl; lia).
  eapply wp_mono; [apply (IH s1 _ R); [done|done|done|lia]|]. intros [] s2 (K2 & R2). split.
  - eapply vkeeps_trans; [|exact K2]. done.
  - rewrite <-app_assoc in R2. done.
Qed.

(** Copying data into a buffer and marking it: a buffer with the bytes of its page, and
    one without. *)
Lemma wp_fill_at s b no d o l : holds b no s d → Forall byte_ok l → 0 ≤ o → o + len l ≤ 4096 →
  wp (copy_name b o l;; bs_mark b) (λ _ s', changed s no (put_bytes d o l) s') s.
Proof.
  intros H Hl Ho Hn. pose proof (holds_len _ _ _ _ H) as HL. unfold put_bytes. wp_step.
  rewrite <-(take_drop (Z.to_nat o) d) in H.
  replace o with (len (take (Z.to_nat o) d)) at 1 by (rewrite length_take; lia).
  eapply wp_mono; [eapply (wp_copy_name b no l s); [done| |exact H]; rewrite length_drop; lia|]. intros [] s1 C1.
  destruct (holds_changed _ _ _ _ _ _ H C1) as (I1 & A1 & V1).
  eapply wp_mono; [by eapply wp_bs_mark|]. intros [] s2 C2. by eapply changed_trans.
Qed.

Lemma wp_fill_raw s b no d o l : bs_inv s → bs_raw s b no d → Forall byte_ok l → 0 ≤ o → o + len l ≤ 4096 →
  wp (copy_name b o l;; bs_mark b) (λ _ s', changed s no (put_bytes d o l) s') s.
Proof.
  intros Hi Hr Hl Ho Hn. destruct (bs_raw_page _ _ _ _ Hi Hr) as [HL _]. unfold BUF_SIZE, PAGE_SIZE in HL.
  unfold put_bytes. wp_step. rewrite <-(take_drop (Z.to_nat o) d) in Hr.
  replace o with (len (take (Z.to_nat o) d)) at 1 by (rewrite length_take; lia).
  eapply wp_mono; [apply (wp_copy_raw b no l s _ _ Hi Hr); [done|rewrite length_drop; lia]|].
  intros [] s1 (K1 & R1). eapply wp_mono; [apply (bs_mark_raw s1 b no _ (proj1 K1) R1)|].
  intros [] s2 (I2 & A2 & M2 & V2). split_and!; [done|intros x n Hx; by apply M2, K1|].
  intros n. rewrite V2. case_decide; [done|apply K1].
Qed.

(** A block that is not on the way to [bno] does not change where [bno] is. *)
Lemma walk_changed s s' bid d n v id : changed s (8 * bid) d s' → bid ∉ path s n v id →
  walk s' n v id = walk s n v id ∧ path s' n v id = path s n v id.
Proof.
  intros C. revert v. induction n as [|n IH]; intros v Hp; simpl in *; [done|].
  destruct (v =? 0); [done|]. apply not_elem_of_cons in Hp as [Hv Hp].
  assert (ptr_at s' v (id !!! n) = ptr_at s v (id !!! n)) as ->.
  { unfold ptr_at. by rewrite (changed_blk _ _ _ _ v C), decide_False. }
  by destruct (IH _ Hp) as [-> ->].
Qed.

Lemma block_of_changed (f : @fs St) s' bid d bno : changed (store f) (8 * bid) d s' → bid ∉ path_of f bno →
  block_of (Fs s' (info f)) bno = block_of f bno ∧ path_of (Fs s' (info f)) bno = path_of f bno.
Proof.
  intros C. unfold block_of, path_of. destruct (bno <? 12); [done|]. intros Hp.
  change (root_of (Fs s' (info f)) bno) with (root_of f bno). by apply (walk_changed (store f) s' bid d).
Qed.
Lemma block_of_keeps (f : @fs St) s' bno : keeps (store f) s' →
  block_of (Fs s' (info f)) bno = block_of f bno ∧ path_of (Fs s' (info f)) bno = path_of f bno.
Proof.
  intros C. unfold block_of, path_of. destruct (bno <? 12); [done|].
  change (root_of (Fs s' (info f)) bno) with (root_of f bno).
  split; [by apply walk_keeps|by apply path_keeps].
Qed.

Abbreviation disk f := (store (f_fs f)).
Definition with_disk (f : @file St) (s : St) : @file St := File (Fs s (info (f_fs f))) (f_inode f).

Lemma wp_on_fs {A} (m : M (@fs St) A) Q (f : @file St) :
  wp m (λ a g, Q a (File g (f_inode f))) (f_fs f) → wp (on_fs m) Q f.
Proof. intros H. unfold on_fs. by apply wp_zoom. Qed.
Lemma wp_on_disk {A} (m : M St A) Q (f : @file St) :
  wp m (λ a s, Q a (with_disk f s)) (disk f) → wp (on_disk m) Q f.
Proof. intros H. apply wp_on_fs, wp_on_store. exact H. Qed.
Lemma wp_on_disk2 {A} (m1 m2 : M St unit) (k : M (@file St) A) Q (f : @file St) :
  wp (m1;; m2) (λ _ s, wp k Q (with_disk f s)) (disk f) → wp (on_disk m1;; on_disk m2;; k) Q f.
Proof.
  intros H. apply wp_bind in H. wp_step. apply wp_on_disk. eapply wp_mono; [exact H|].
  intros [] s1 H1. wp_step. by apply wp_on_disk.
Qed.

(** The block number [bno] of the file can be written: it is looked up, or it is a
    direct block behind the end and one can be allocated. *)
Definition can_write (f : @file St) (bno : Z) : Prop :=
  length (blocks (info (f_fs f))) = 15%nat ∧ 0 ≤ bno < max_bno ∧
  if bno <? next_free_bno i (i_size (f_inode f)) then
    0 ≤ block_of (f_fs f) bno < nblocks i ∧ Forall (λ x, 0 ≤ x < nblocks i) (path_of (f_fs f) bno) ∧
    (block_of (f_fs f) bno ∉ path_of (f_fs f) bno)
  else bno < 12 ∧ alloc_ready i (f_fs f) bno ∧ block_of (f_fs f) bno = 0.

(** The file with the page of [bno] at hand in the buffer [b]. *)
Record opened (f f1 : @file St) (bno b bid : Z) : Prop := Opened {
  op_vol : vol_ok i (disk f1);
  op_inode : f_inode f1 = f_inode f;
  op_len : length (blocks (info (f_fs f1))) = 15%nat;
  op_bid : block_of (f_fs f1) bno = bid;
  op_rng : 0 ≤ bid < nblocks i;
  op_path : Forall (λ x, 0 ≤ x < nblocks i) (path_of (f_fs f1) bno) ∧ (bid ∉ path_of (f_fs f1) bno);
  op_frame : ∀ x, live i (disk f) x → blk (disk f1) x = blk (disk f) x;
  op_buf : (bno < next_free_bno i (i_size (f_inode f)) ∧ block_of (f_fs f) bno = bid ∧ (∀ x, blk (disk f1) x = blk (disk f) x) ∧ bs_at (disk f1) b (8 * bid)) ∨
    (next_free_bno i (i_size (f_inode f)) ≤ bno ∧ bid ≠ 0 ∧ used i (disk f) bid = false ∧ (bs_at (disk f1) b (8 * bid) ∨ ∃ d, bs_raw (disk f1) b (8 * bid) d)) }.

Lemma wp_open f bno : vol_ok i (disk f) → can_write f bno →
  wp (if bno <? next_free_bno i (i_size (f_inode f)) then
        bid ← on_fs (get_bid i bno); on_disk (ext2_block_read bid (sb i))
      else bid ← on_fs (alloc_block i bno); on_disk (ext2_block_get bid (sb i)))
    (λ b f1, ∃ bid, opened f f1 bno b bid) f.
Proof.
  intros Hv (Hl & Hb & Hw). destruct (Z.ltb_spec bno (next_free_bno i (i_size (f_inode f)))).
  - destruct Hw as (Hrg & Hp & Hnp).
    wp_step. apply wp_on_fs. eapply wp_mono; [by apply (wp_get_bid i G)|]. intros bid [s1 x1] (-> & Ei & Hk).
    simpl in Ei, Hk. subst x1. apply wp_on_disk. simpl.
    eapply wp_mono; [apply (wp_block_read i G); [by eapply keeps_vol|done]|]. intros b s2 [Hk2 Ha].
    pose proof (vkeeps_trans _ _ _ Hk Hk2) as Hk'. exists (block_of (f_fs f) bno).
    destruct (block_of_keeps (f_fs f) s2 bno Hk') as [Eb Ep]. unfold with_disk. simpl. split; simpl; rewrite ?Eb, ?Ep.
    + by eapply keeps_vol.
    + done.
    + done.
    + done.
    + done.
    + done.
    + intros x _. apply Hk'.
    + left. split_and!; [done|done|intros x; apply Hk'|done].
  - destruct Hw as (Hd & Ha & H0). wp_step. apply wp_on_fs.
    eapply wp_mono; [by apply (wp_alloc_direct i G)|]. intros bid f1 [A1 (A2 & A2r & A2u & A2u') A3 A4 A5 A6 A7].
    apply wp_on_disk. unfold ext2_block_get. simpl. rewrite (lba i G) by done.
    eapply wp_mono; [apply bs_get_ok; [apply A1|by apply (v_blk i _ A1)]|]. intros b s2 (I2 & V2 & Hbuf & At2).
    assert (keeps (store f1) s2) as Hk2 by done. exists bid.
    destruct (block_of_keeps f1 s2 bno Hk2) as [Eb Ep]. unfold with_disk. simpl.
    assert (path_of f1 bno = []) as Ep1 by (unfold path_of; by rewrite (proj2 (Z.ltb_lt bno 12))).
    assert (block_of f1 bno = bid) as Eb1.
    { unfold block_of. rewrite (proj2 (Z.ltb_lt bno 12)) by done. apply wp_elim in A3 as (r & f2 & Hg & ->). unfold get_bid in Hg.
      rewrite (proj2 (Z.ltb_lt _ N_DIRECT_BLOCK)) in Hg by done. erewrite bind_Ok in Hg by done. unfold deref in Hg.
      destruct (blocks (info f1) !! Z.to_nat bno) eqn:E; [|done]. rewrite (list_lookup_total_correct _ _ _ E). congruence. }
    split; simpl; rewrite ?Eb, ?Ep, ?Ep1, ?Eb1.
    + by eapply keeps_vol.
    + done.
    + done.
    + done.
    + done.
    + split; [constructor|apply not_elem_of_nil].
    + intros x Hx. unfold blk. rewrite V2. apply A5; [done|].
      unfold path_of. rewrite (proj2 (Z.ltb_lt bno 12)) by done. apply not_elem_of_nil.
    + by right.
Qed.

(** The number of bytes a transfer at [offset] of [n] bytes moves: up to the end of
    the block. *)
Definition span (offset n : Z) : Z := Z.min (4096 - offset mod 4096) n.

Lemma span_eq offset n : 0 ≤ n → MIN (u32 (4096 - offset mod 4096)) n = span offset n.
Proof.
  intros Hn. pose proof (Z.mod_pos_bound offset 4096 ltac:(lia)). unfold MIN, span.
  rewrite u32_small by (change (2 ^ 32) with 4294967296; lia). case_match eqn:E; [apply Z.ltb_lt in E|apply Z.ltb_ge in E]; lia.
Qed.

(** What a write of [data] at [offset] leaves. *)
Record written (f f' : @file St) (offset : Z) (data : bytes) (bid : Z) (d : bytes) : Prop := Written {
  wr_vol : vol_ok i (disk f');
  wr_inode : f_inode f' = with_i_size (u32 (offset + span offset (len data))) (f_inode f);
  wr_blocks : length (blocks (info (f_fs f'))) = 15%nat;
  wr_bid : block_of (f_fs f') (offset / 4096) = bid ∧ 0 ≤ bid < nblocks i;
  wr_path : Forall (λ x, 0 ≤ x < nblocks i) (path_of (f_fs f') (offset / 4096));
  wr_page : is_page d;
  wr_data : blk (disk f') bid =
    Some (put_bytes d (offset mod 4096) (take (Z.to_nat (span offset (len data))) data));
  wr_frame : ∀ x, live i (disk f) x → x ≠ bid → blk (disk f') x = blk (disk f) x;
  wr_old : (offset / 4096 < next_free_bno i (i_size (f_inode f)) ∧ block_of (f_fs f) (offset / 4096) = bid ∧ blk (disk f) bid = Some d ∧
      ∀ x, x ≠ bid → blk (disk f') x = blk (disk f) x) ∨
    (next_free_bno i (i_size (f_inode f)) ≤ offset / 4096 ∧ bid ≠ 0 ∧ used i (disk f) bid = false) }.

Lemma wp_write f offset data : vol_ok i (disk f) → can_write f (offset / 4096) → 0 ≤ offset →
  Forall byte_ok data → truth (Z.land (i_type (f_inode f)) EXT2_IFREG) = true →
  wp (ext2_write i mark offset data) (λ k f', k = span offset (len data) ∧ ∃ bid d, written f f' offset data bid d) f.
Proof.
  intros Hv Hc Ho Hd Ht. unfold ext2_write, the_inode. do 2 wp_step. wp_step. apply wp_assertk. split; [done|].
  rewrite (g_bs i G), span_eq by lia. pose proof (Z.mod_pos_bound offset 4096 ltac:(lia)) as Hm.
  set (n := span offset (len data)) in *. assert (0 ≤ n ≤ len data ∧ n ≤ 4096 - offset mod 4096) as Hn by (unfold n, span; lia).
  set (l := take (Z.to_nat n) data). assert (len l = n) as Hll by (unfold l; rewrite length_take; lia).
  assert (Forall byte_ok l) as Hlb by (by apply Forall_take).
  wp_step. eapply wp_mono; [by apply wp_open|]. intros b f1 (bid & [P1 P2 P3 P4 P5 [P6 P6'] P7 P8]).
  unfold set_ino. do 2 wp_step. apply wp_on_disk2. simpl. destruct (v_blk i _ P1 bid P5) as [d1 Hd1].
  assert (∀ d s2, is_page d → changed (disk f1) (8 * bid) (put_bytes d (offset mod 4096) l) s2 →
    ((offset / 4096 < next_free_bno i (i_size (f_inode f)) ∧ block_of (f_fs f) (offset / 4096) = bid ∧
      blk (disk f) bid = Some d ∧ ∀ x, blk (disk f1) x = blk (disk f) x) ∨
     (next_free_bno i (i_size (f_inode f)) ≤ offset / 4096 ∧ bid ≠ 0 ∧ used i (disk f) bid = false)) →
    wp (on_disk (mark I_DATA);; mret n) (λ k f', k = n ∧ ∃ bid d, written f f' offset data bid d)
      (with_disk (File (f_fs f1) (with_i_size (u32 (offset + n)) (f_inode f1))) s2)) as Hfin.
  { intros d s2 Hdp C Hold. wp_step. apply wp_on_disk. simpl. eapply wp_mono; [apply mark_ok, C|]. intros [] s3 Hk. wp_step.
    split; [done|]. exists bid, d. pose proof (changed_keeps _ _ _ _ _ C Hk) as C'.
    destruct (block_of_changed (f_fs f1) s3 bid _ (offset / 4096) C' P6') as [Eb Ep]. unfold with_disk. simpl.
    assert (∀ x, x ≠ bid → blk s3 x = blk (disk f1) x) as Hne by (intros x Hx; by rewrite (changed_blk _ _ _ _ x C'), decide_False).
    split; simpl; rewrite ?Eb, ?Ep, ?P2; [by eapply changed_vol|done|done|done|done|done| | |].
    - by rewrite (changed_blk _ _ _ _ bid C'), decide_True.
    - intros x Hx Hx'. rewrite Hne by done. auto.
    - destruct Hold as [(E0 & E1 & E2 & E3)|?]; [left|by right]. split_and!; [done|done|done|]. intros x Hx. by rewrite Hne, E3. }
  assert (bs_at (disk f1) b (8 * bid) → holds b (8 * bid) (disk f1) d1) as Hh by (intros Ha; by split_and!; [apply P1|..]).
  assert (is_page d1) as Hp1 by (by eapply bs_page; [apply P1|]).
  destruct P8 as [(Hlt & Hob & Hsame & Ha)|(Hge & Hb0 & Hus & [Ha|(d & Hr)])].
  - eapply wp_mono; [apply wp_fill_at; [by apply Hh|done|lia|lia]|]. intros [] s2 C. apply (Hfin d1); [done|done|].
    left. split_and!; [done|done|by rewrite <-Hsame|done].
  - eapply wp_mono; [apply wp_fill_at; [by apply Hh|done|lia|lia]|]. intros [] s2 C. apply (Hfin d1); [done|done|]. by right.
  - eapply wp_mono; [apply (wp_fill_raw (disk f1) b (8 * bid) d); [apply P1|done|done|lia|lia]|]. intros [] s2 C.
    apply (Hfin d); [by eapply bs_raw_page; [apply P1|]|done|]. by right.
Qed.

(** Reading a block that is there. *)
Lemma wp_read f offset size bid d : vol_ok i (disk f) → length (blocks (info (f_fs f))) = 15%nat →
  0 ≤ offset < 2 ^ 32 → 0 ≤ size → offset / 4096 * 4096 < i_size (f_inode f) < 2 ^ 33 →
  Forall (λ x, 0 ≤ x < nblocks i) (path_of (f_fs f) (offset / 4096)) →
  block_of (f_fs f) (offset / 4096) = bid → bid ≠ 0 → 0 ≤ bid < nblocks i → blk (disk f) bid = Some d →
  wp (ext2_read i offset size) (λ r f', r = get_bytes d (offset mod 4096) (Z.to_nat (span offset size)) ∧
    f' = with_disk f (disk f') ∧ keeps (disk f) (disk f')) f.
Proof.
  intros Hv Hl Ho Hsz Hs Hp Hb Hb0 Hbr Hd. change (2 ^ 32) with 4294967296 in *. change (2 ^ 33) with 8589934592 in *.
  unfold ext2_read, the_inode. do 2 wp_step. rewrite (g_bs i G), span_eq by done.
  pose proof (Z.mod_pos_bound offset 4096 ltac:(lia)) as Hm.
  rewrite (proj2 (Z.leb_gt _ _)).
  2:{ unfold u64. change (2 ^ 64) with 18446744073709551616. Z.div_mod_to_equations. lia. }
  wp_step. apply wp_on_fs. eapply wp_mono; [apply (wp_get_bid i G); [done|done| |done]|].
  { split; [apply Z.div_pos; lia|]. unfold max_bno. Z.div_mod_to_equations. lia. }
  intros r [s1 x1] (-> & Ei & Hk). simpl in Ei, Hk. subst x1. rewrite Hb, (proj2 (Z.eqb_neq bid 0)) by done.
  wp_step. apply wp_on_disk. simpl. eapply wp_mono; [apply (wp_block_read i G); [by eapply keeps_vol|done]|].
  intros b s2 [Hk2 Ha]. apply wp_on_disk. simpl. pose proof (vkeeps_trans _ _ _ Hk Hk2) as Hk'.
  eapply wp_intro; [eapply (load_bytes_ok b (8 * bid) _ s2 d)|]; [|lia|unfold span; lia|done].
  split_and!; [apply Hk'|done|]. rewrite (proj1 (proj2 Hk')). exact Hd.
Qed.

Lemma span_range offset n : 0 < n → 0 < span offset n ≤ n.
Proof. pose proof (Z.mod_pos_bound offset 4096 ltac:(lia)). unfold span. lia. Qed.

(** The block a write goes to is not a hole. *)
Definition not_hole (f : @file St) (bno : Z) : Prop :=
  bno < next_free_bno i (i_size (f_inode f)) → block_of (f_fs f) bno ≠ 0.

(** C7: What is written to a regular file is read back: [ext2_write] takes the data up
    to the end of the block, and [ext2_read] at the same place returns exactly those bytes.
    The block is one that the file has, or a new one: a direct block behind the end of the
    file that has no block kept there.  No other block in use
    changes, and in a block that was there no other byte. *)
Theorem ext2_write_read f offset data :
  vol_ok i (disk f) → can_write f (offset / 4096) → not_hole f (offset / 4096) →
  truth (Z.land (i_type (f_inode f)) EXT2_IFREG) = true →
  0 ≤ offset → offset + len data < 2 ^ 32 → data ≠ [] → Forall byte_ok data →
  wp (k ← ext2_write i mark offset data; r ← ext2_read i offset (len data); mret (k, r)) (λ '(k, r) f',
    k = span offset (len data) ∧ r = take (Z.to_nat k) data ∧
    let bid := block_of (f_fs f') (offset / 4096) in
    (∀ x, live i (disk f) x → x ≠ bid → blk (disk f') x = blk (disk f) x) ∧
    ((∃ d, block_of (f_fs f) (offset / 4096) = bid ∧ blk (disk f) bid = Some d ∧
        blk (disk f') bid = Some (put_bytes d (offset mod 4096) r)) ∨
     used i (disk f) bid = false)) f.
Proof.
  intros Hv Hc Hh Ht Ho Hs Hd0 Hd. assert (0 < len data) as Hl by (destruct data; [done|simpl; lia]).
  pose proof (span_range offset (len data) Hl) as Hn. pose proof (Z.mod_pos_bound offset 4096 ltac:(lia)) as Hm.
  change (2 ^ 32) with 4294967296 in Hs.
  wp_step. eapply wp_mono; [by apply wp_write|]. intros k f1 (-> & bid & d & [W1 W2 W3 [W4 W4'] W5 W6 W7 W8 W9]).
  assert (bid ≠ 0) as Hb0.
  { destruct W9 as [(Hlt & E & _)|(_ & ? & _)]; [|done]. rewrite <-E. by apply Hh. }
  assert (i_size (f_inode f1) = offset + span offset (len data)) as Hsz.
  { rewrite W2. simpl. apply u32_small. change (2 ^ 32) with 4294967296. lia. }
  wp_step. eapply wp_mono; [eapply wp_read; [done|done| |lia| |done|exact W4|done|done|exact W7]|].
  { change (2 ^ 32) with 4294967296. lia. } { rewrite Hsz. change (2 ^ 33) with 8589934592. pose proof (Z.mul_div_le offset 4096 ltac:(lia)). lia. }
  intros r f2 (-> & Ef & Hk). wp_step. set (l := take (Z.to_nat (span offset (len data))) data) in *.
  assert (length l = Z.to_nat (span offset (len data))) as Hll by (unfold l; rewrite length_take; lia).
  destruct W6 as [W6 _]. unfold BUF_SIZE, PAGE_SIZE in W6.
  assert (get_bytes (put_bytes d (offset mod 4096) l) (offset mod 4096) (Z.to_nat (span offset (len data))) = l) as Hr
    by (rewrite <-Hll; apply get_put_bytes; lia).
  destruct (block_of_keeps (f_fs f1) (disk f2) (offset / 4096) Hk) as [Eb _].
  change (Fs (disk f2) (info (f_fs f1))) with (f_fs (with_disk f1 (disk f2))) in Eb. rewrite <-Ef, W4 in Eb.
  rewrite Hr, Eb. assert (∀ x, blk (disk f2) x = blk (disk f1) x) as Hk' by (intros x; apply Hk).
  cbv zeta. split_and!; [done|done| |].
  - intros x Hx Hne. rewrite Hk'. by apply W8.
  - destruct W9 as [(_ & E & E' & _)|(_ & _ & ?)]; [left|by right]. exists d. by rewrite Hk'.
Qed.

(** [ext2_write] sets the size of the file to the end of what it wrote: after it,
    nothing can be read from the blocks behind, whatever the file held there. *)
Theorem ext2_write_truncates f offset data offset2 size :
  vol_ok i (disk f) → can_write f (offset / 4096) →
  truth (Z.land (i_type (f_inode f)) EXT2_IFREG) = true →
  0 ≤ offset → offset + len data < 2 ^ 32 → data ≠ [] → Forall byte_ok data →
  offset / 4096 < offset2 / 4096 →
  wp (_ ← ext2_write i mark offset data; ext2_read i offset2 size) (λ r f',
    r = [] ∧ i_size (f_inode f') = offset + span offset (len data)) f.
Proof.
  intros Hv Hc Ht Ho Hs Hd0 Hd Ho2. assert (0 < len data) as Hl by (destruct data; [done|simpl; lia]).
  pose proof (span_range offset (len data) Hl) as Hn. pose proof (Z.mod_pos_bound offset 4096 ltac:(lia)) as Hm.
  change (2 ^ 32) with 4294967296 in Hs.
  wp_step. eapply wp_mono; [by apply wp_write|]. intros k f1 (-> & bid & d & [W1 W2 W3 W4 W5 W6 W7 W8 W9]).
  assert (i_size (f_inode f1) = offset + span offset (len data)) as Hsz.
  { rewrite W2. simpl. apply u32_small. change (2 ^ 32) with 4294967296. lia. }
  unfold ext2_read, the_inode. do 2 wp_step. rewrite (g_bs i G), (proj2 (Z.leb_le _ _)); [by wp_step|].
  rewrite Hsz. assert (span offset (len data) ≤ 4096 - offset mod 4096) by (unfold span; lia).
  unfold u64. change (2 ^ 64) with 18446744073709551616. rewrite Z.mod_small by lia. Z.div_mod_to_equations. lia.
Qed.

(** C27: A write into a hole of a file - a block number below its end without a block -
    goes to block 0 of the volume, the boot block with the super block. *)
Theorem ext2_write_hole f offset data :
  vol_ok i (disk f) → can_write f (offset / 4096) →
  truth (Z.land (i_type (f_inode f)) EXT2_IFREG) = true → 0 ≤ offset → Forall byte_ok data →
  offset / 4096 < next_free_bno i (i_size (f_inode f)) → block_of (f_fs f) (offset / 4096) = 0 →
  wp (ext2_write i mark offset data) (λ k f', ∃ d, blk (disk f) 0 = Some d ∧
    blk (disk f') 0 = Some (put_bytes d (offset mod 4096) (take (Z.to_nat k) data)) ∧
    ∀ x, x ≠ 0 → blk (disk f') x = blk (disk f) x) f.
Proof.
  intros Hv Hc Ht Ho Hd Hlt H0. eapply wp_mono; [by apply wp_write|].
  intros k f1 (-> & bid & d & [W1 W2 W3 [W4 W4'] W5 W6 W7 W8 W9]). exists d.
  destruct W9 as [(_ & E & E' & E3)|(Hge & _)]; [|lia]. rewrite H0 in E. clear W4. subst bid. done.
Qed.
End contents.

(** ** A file on the small volume *)

Definition no_mark (st : Z) : M sparse unit := mret tt.
Lemma no_mark_ok : ∀ st (s : sparse), bs_inv s → wp (no_mark st) (λ _ s', keeps s s') s.
Proof. intros st s Hs. unfold no_mark. wp_step. by apply vkeeps_refl. Qed.

Definition demo_inode (size : Z) : inode := Inode 11 0 1 420 EXT2_IFREG size 5 6 7 0 0.
Definition demo_file (size : Z) : @file sparse := File demo_fs (demo_inode size).

Lemma demo_ino_ok n : 1 ≤ n ≤ 64 → ino_ok demo_sb n.
Proof.
  intros Hn. assert ((n - 1) / 8192 = 0 ∧ (n - 1) mod 8192 = n - 1) as [E1 E2] by (Z.div_mod_to_equations; lia).
  split; [done|done|lia|]. unfold tblk, bIno. simpl. rewrite E1, E2. unfold nblocks. simpl. Z.div_mod_to_equations. lia.
Qed.

Lemma demo_fits : inode_fits (demo_inode 5) (info demo_fs).
Proof.
  split; simpl; try lia; try (split; [reflexivity|]); try (unfold EXT2_IFREG; lia).
  repeat (apply Forall_cons; split; [lia|]). by apply Forall_nil.
Qed.

Lemma inode_roundtrip_witness :
  vol_ok demo_sb demo_store ∧ ino_ok demo_sb 11 ∧ bIno demo_sb 11 < 32 ∧ inode_fits (demo_inode 5) (info demo_fs) ∧
  wp (st ← ext2_write_back demo_sb I_NEW (demo_inode 5) (info demo_fs);
      r ← inode_cpy demo_sb no_mark 11 99; mret (st, r)) (λ '(st, r) _, st = I_OLD ∧ i_size r.1 = 5) demo_store.
Proof.
  split; [exact demo_vol|]. split; [apply demo_ino_ok; lia|]. split; [vm_compute; reflexivity|]. split; [exact demo_fits|].
  eapply wp_mono; [exact (inode_roundtrip demo_sb demo_geometry no_mark no_mark_ok demo_store (demo_inode 5) (info demo_fs) 99
    demo_vol (demo_ino_ok 11 ltac:(lia)) eq_refl demo_fits)|].
  intros [st r] s' (-> & -> & _). split; reflexivity.
Defined.

Lemma inode_cpy_overrun_witness :
  ino_ok demo_sb 33 ∧ 32 ≤ bIno demo_sb 33 ∧ inode_cpy demo_sb no_mark 33 99 demo_store = Err Fault.
Proof.
  split; [apply demo_ino_ok; lia|]. split; [vm_compute; discriminate|].
  apply (inode_cpy_overrun demo_sb demo_geometry no_mark demo_store 33 99 demo_vol);
    [apply demo_ino_ok; lia|vm_compute; discriminate].
Defined.

Lemma demo_can_write size bno : 0 ≤ bno < 2 → size = 8192 → can_write demo_sb (demo_file size) bno.
Proof.
  intros Hb ->. split; [done|]. split; [unfold max_bno; lia|].
  assert (bno = 0 ∨ bno = 1) as [-> | ->] by lia; vm_compute; (split; [split; discriminate || reflexivity|]);
    split; [constructor|apply not_elem_of_nil|constructor|apply not_elem_of_nil].
Qed.

(** The first block behind the end of a file of one block. *)
Lemma demo_can_append : can_write demo_sb (demo_file 4096) 1.
Proof.
  split; [done|]. split; [unfold max_bno; lia|]. change (1 <? next_free_bno demo_sb (i_size (f_inode (demo_file 4096)))) with false. cbv iota.
  split_and!; [lia| |reflexivity]. split; [apply demo_vol|apply demo_sys|apply demo_room|done| |by vm_compute|by split; constructor].
  simpl. right. exists 7. by vm_compute.
Qed.

(** Two bytes in a block that is there, and in a new one. *)
Lemma ext2_write_read_witness :
  can_write demo_sb (demo_file 8192) 0 ∧
  wp (k ← ext2_write demo_sb no_mark 10 [72; 105]; r ← ext2_read demo_sb 10 2; mret (k, r))
    (λ '(k, r) _, k = 2 ∧ r = [72; 105]) (demo_file 8192) ∧
  wp (k ← ext2_write demo_sb no_mark 4106 [72; 105]; r ← ext2_read demo_sb 4106 2; mret (k, r))
    (λ '(k, r) _, k = 2 ∧ r = [72; 105]) (demo_file 4096).
Proof.
  split; [by apply demo_can_write|]. split.
  - eapply wp_mono; [apply (ext2_write_read demo_sb demo_geometry no_mark no_mark_ok (demo_file 8192) 10 [72; 105] demo_vol)|].
    + by apply demo_can_write.
    + vm_compute. discriminate.
    + reflexivity.
    + lia.
    + simpl. lia.
    + discriminate.
    + by repeat (apply Forall_cons; split).
    + intros [k r] f' (-> & -> & _). split; reflexivity.
  - eapply wp_mono; [apply (ext2_write_read demo_sb demo_geometry no_mark no_mark_ok (demo_file 4096) 4106 [72; 105] demo_vol)|].
    + exact demo_can_append.
    + intros H. by vm_compute in H.
    + reflexivity.
    + lia.
    + simpl. lia.
    + discriminate.
    + by repeat (apply Forall_cons; split).
    + intros [k r] f' (-> & -> & _). split; reflexivity.
Defined.

Lemma ext2_write_truncates_witness :
  wp (_ ← ext2_write demo_sb no_mark 10 [72; 105]; ext2_read demo_sb 4096 100)
    (λ r f', r = [] ∧ i_size (f_inode f') = 12) (demo_file 8192).
Proof.
  eapply wp_mono; [apply (ext2_write_truncates demo_sb demo_geometry no_mark no_mark_ok (demo_file 8192) 10 [72; 105] 4096 100 demo_vol)|].
  - by apply demo_can_write.
  - reflexivity.
  - lia.
  - simpl. lia.
  - discriminate.
  - by repeat (apply Forall_cons; split).
  - vm_compute. reflexivity.
  - intros r f' [-> ->]. split; reflexivity.
Defined.

Lemma ext2_write_hole_witness :
  block_of demo_fs 1 = 0 ∧
  wp (ext2_write demo_sb no_mark 4096 [72; 105]) (λ _ f', ∃ d, blk (store (f_fs f')) 0 = Some (put_bytes d 0 [72; 105]))
    (demo_file 8192).
Proof.
  split; [reflexivity|].
  destruct (wp_elim _ _ _ (ext2_write_hole demo_sb demo_geometry no_mark no_mark_ok (demo_file 8192) 4096 [72; 105] demo_vol
    (demo_can_write 8192 1 ltac:(lia) eq_refl) eq_refl ltac:(lia) ltac:(by repeat (apply Forall_cons; split))
    ltac:(vm_compute; reflexivity) eq_refl)) as (k & f' & E & d & _ & Hd & _).
  eapply wp_intro; [exact E|]. exists d. rewrite Hd.
  assert (k = 2) as -> by (apply (f_equal (λ r, match r with Ok (k, _) => k | Err _ => 0 end)) in E; vm_compute in E; congruence).
  reflexivity.
Defined.
