(* ===== verification/Ext2InodeAlloc.v ===== *)
(** * ext2: allocation of inodes

    [inode_alloc] and [set_inode_bitmap] of [fs/ext2/inode.c] on a volume as
    [Ext2Correct] describes it, with the bitmaps of the inodes beside those of the
    blocks.  The parent is a directory as in [Ext2Directory]. *)

From S2P Require Import Prelude QLib Page BlockStore Ext2 Ext2Dir Ext2Correct Ext2DirCorrect Ext2Directory Ext2Inode Ext2InodeCorrect.
From Stdlib Require Import ZArith Lia.
From stdpp Require Import base countable numbers gmap list.
Open Scope Z_scope.

#[local] Arguments Z.to_nat : simpl never.
#[local] Arguments Z.mul : simpl never.
#[local] Arguments Z.div : simpl never.
#[local] Arguments Z.modulo : simpl never.

Section ialloc.
Context {St : Type} `{B : BlockStore St} (i : ext2_sb_info).
Hypothesis G : geometry i.

(** The bitmap of the inodes of a group is a block of its own. *)
Definition ibitmap_block (g b : Z) : Prop :=
  ∃ d, desc i !! Z.to_nat g = Some d ∧ inodeBitmapAddr d = b.

Record igeometry : Prop := IGeometry {
  ig_range : ∀ g b, 0 ≤ g < groupCnt i → ibitmap_block g b → 0 ≤ b < nblocks i ∧ ¬ meta i b;
  ig_inj : ∀ g g' b, 0 ≤ g < groupCnt i → 0 ≤ g' < groupCnt i →
    ibitmap_block g b → ibitmap_block g' b → g = g';
  ig_ipg : 8 ≤ inodePerGroup i ≤ 32768;
  ig_numbers : groupCnt i = 1 ∨ inodePerGroup i = 32768 }.
Hypothesis IG : igeometry.

(** The inodes the search looks at. *)
Definition isearch : Z := 8 * (inodePerGroup i / 8).

Definition ibit (s : St) (g k : Z) : option bool :=
  d ← desc i !! Z.to_nat g; bm ← blk s (inodeBitmapAddr d); Some (bit_set bm k).

(** Every group has an inode left. *)
Definition iroom (s : St) : Prop := ∀ g, 0 ≤ g < groupCnt i → ∃ k, 0 ≤ k < isearch ∧ ibit s g k = Some false.

(** The counters of a group descriptor. *)
Definition gd_field (s : St) (g fld : Z) : option Z :=
  (λ d, le16 d (g mod 128 * 32 + fld)) <$> blk s (1 + g / 128).

Lemma wp_read_gd {A} s g fld (K : Z → M St A) Q : vol_ok i s → 0 ≤ g < groupCnt i → 0 ≤ fld ≤ 30 →
  (∀ v s', keeps s s' → 0 ≤ v < 2 ^ 16 → wp (K v) Q s') →
  wp ('(buf, off) ← get_raw_gd g (sb i); x ← bs_load16 buf (off + fld); K x) Q s.
Proof.
  intros Hv Hg Hf HK. wp_step. eapply wp_mono; [by apply wp_get_raw_gd|].
  intros [buf off] s1 (Hk & Ha & Ho). simpl in *. subst off. destruct (gd_in i G g Hg) as [_ Hb].
  pose proof (keeps_vol i _ _ Hk Hv) as Hv1. destruct (v_blk i _ Hv1 _ Hb) as [d Hd].
  pose proof (Z.mod_pos_bound g 128 ltac:(lia)). wp_step. eapply wp_intro.
  { eapply bs_load16_ok; [apply Hv1|done|exact Hd|lia|]. unfold BUF_SIZE, PAGE_SIZE. lia. }
  apply HK; [done|]. apply le16_range. eapply bs_page; [apply Hv1|done].
Qed.

Lemma wp_min_inode_group n g best min s : vol_ok i s → 0 ≤ g → g + Z.of_nat n = groupCnt i →
  match best with Some g0 => 0 ≤ g0 < g | None => g = 0 ∧ min = 0xffffffff end →
  wp (min_inode_group i n g best min) (λ r s', keeps s s' ∧ ∃ g0, r = Some g0 ∧ 0 ≤ g0 < groupCnt i) s.
Proof.
  revert g best min s. induction n as [|n IH]; intros g best min s Hv Hg Hn Hb; cbn [min_inode_group].
  - apply wp_ret. split; [apply vkeeps_refl, Hv|]. pose proof (g_cnt i G). destruct best as [g0|]; [|lia].
    exists g0. split; [done|lia].
  - apply wp_read_gd; [done|lia|unfold gd_freeInodesCnt; lia|]. intros v s1 Hk Hr.
    destruct (Z.ltb_spec v min); (eapply wp_mono; [apply IH; [by eapply keeps_vol|lia|lia|]|]); try lia.
    + intros r s2 [Hk2 H2]. split; [by eapply vkeeps_trans|done].
    + destruct best; lia.
    + intros r s2 [Hk2 H2]. split; [by eapply vkeeps_trans|done].
Qed.

Lemma wp_next_inode_group s g0 : vol_ok i s → 0 ≤ g0 < groupCnt i →
  wp (next_inode_group i g0) (λ g s', keeps s s' ∧ 0 ≤ g < groupCnt i) s.
Proof.
  intros Hv Hg0. unfold next_inode_group. pose proof (g_cnt i G) as Hcnt.
  eapply (wp_loop (λ g s1, keeps s s1 ∧ 0 ≤ g < groupCnt i) (λ g _, Z.to_nat (groupCnt i - dist i g0 g))).
  - intros g s1 (Hk & Hg). apply wp_read_gd; [by eapply keeps_vol|done|unfold gd_freeInodesCnt; lia|].
    intros v s2 Hk2 _. pose proof (vkeeps_trans _ _ _ Hk Hk2) as Hk'.
    destruct (Z.eqb_spec v 0) as [->|Hv0]; simpl; apply wp_ret; [|done].
    assert (u32 (g + 1) mod groupCnt i = if g + 1 =? groupCnt i then 0 else g + 1) as ->.
    { rewrite u32_small by lia. destruct (Z.eqb_spec (g + 1) (groupCnt i)) as [->|]; [by apply Z.mod_same; lia|].
      apply Z.mod_small. lia. }
    destruct (Z.eqb_spec g0 (if g + 1 =? groupCnt i then 0 else g + 1)) as [E|E]; [by rewrite <-E|].
    split; [split; [done|destruct (Z.eqb_spec (g + 1) (groupCnt i)); lia]|].
    unfold dist. destruct (Z.eqb_spec (g + 1) (groupCnt i)), (Z.leb_spec g0 g), (Z.leb_spec g0 (g + 1)), (Z.leb_spec g0 0); lia.
  - split; [apply vkeeps_refl, Hv|lia].
  - unfold dist. destruct (Z.leb_spec g0 g0); lia.
Qed.

(** The directory the new inode is for. *)
Record parent_ok (fuel : nat) (p : inode) (f : @fs St) (bids : list Z) (ess : list (list dent)) : Prop := ParentOk {
  pa_dir : dir_ok i f bids ess;
  pa_fuel : (length bids < fuel)%nat;
  pa_names : Forall (λ x, x.1 ≠ []) (all_names ess);
  pa_isdir : ext2_is_dir p = true;
  pa_ino : 1 ≤ i_ino p < 2 ^ 32;
  pa_group : (i_ino p - 1) / inodePerGroup i < groupCnt i }.

Lemma wp_dir_empty_any fuel p f bids ess : parent_ok fuel p f bids ess →
  wp (dir_empty i fuel (ext2_is_dir p) (i_linkCnt p)) (λ r f', info f' = info f ∧ keeps (store f) (store f')) f.
Proof.
  intros [Hd Hf Hn Ht _ _]. rewrite Ht. destruct (Z.eq_dec (i_linkCnt p) 2) as [->|Hne].
  - eapply wp_mono; [by eapply (dir_empty_ok i G)|]. by intros r f' (_ & ? & ?).
  - unfold dir_empty. wp_step. apply wp_assertk. split; [done|]. rewrite (proj2 (Z.eqb_neq _ _) Hne).
    apply wp_ret. split; [done|]. apply vkeeps_refl, Hd.
Qed.

Lemma wp_find_group_ino fuel p f bids ess : parent_ok fuel p f bids ess →
  wp (find_group_ino i fuel p) (λ g f', info f' = info f ∧ keeps (store f) (store f') ∧ 0 ≤ g < groupCnt i) f.
Proof.
  intros H. unfold find_group_ino. wp_step. eapply wp_mono; [by eapply wp_dir_empty_any|].
  intros r f1 (Ei & Hk). pose proof (keeps_vol i _ _ Hk (d_vol _ _ _ _ (pa_dir _ _ _ _ _ H))) as Hv1. destruct r.
  - wp_step. apply wp_on_store. pose proof (g_cnt i G). eapply wp_mono; [apply wp_min_inode_group; [done|lia|lia|done]|].
    intros r s2 (Hk2 & g & -> & Hg). wp_step; [done|]. split_and!; [done|by eapply vkeeps_trans|lia|lia].
  - apply wp_on_store. pose proof (ig_ipg IG). destruct (pa_ino _ _ _ _ _ H).
    assert (0 ≤ EXT2_INODE2GROUP (i_ino p) i < groupCnt i).
    { unfold EXT2_INODE2GROUP. rewrite u32_small by lia. split; [apply Z.div_pos; lia|apply H]. }
    eapply wp_mono; [by apply wp_next_inode_group|]. intros g s2 (Hk2 & Hg). split_and!; [done|by eapply vkeeps_trans|lia|lia].
Qed.

(** The bitmap of group [g] and the first clear bit in it. *)
Record first_clear (s : St) (g bit : Z) (d : info_descriptor) (bm : bytes) : Prop := FirstClear {
  fc_group : 0 ≤ g < groupCnt i;
  fc_desc : desc i !! Z.to_nat g = Some d;
  fc_bm : blk s (inodeBitmapAddr d) = Some bm;
  fc_bit : 0 ≤ bit < isearch;
  fc_clear : bit_set bm bit = false;
  fc_low : ∀ j, 0 ≤ j < bit → bit_set bm j = true }.

Lemma isearch_range : 0 < isearch ≤ 32768 ∧ Z.of_nat (Z.to_nat (inodePerGroup i / 8)) = inodePerGroup i / 8 ∧
  inodePerGroup i / 8 ≤ 4096.
Proof. unfold isearch. pose proof (ig_ipg IG). split_and!; Z.div_mod_to_equations; lia. Qed.

Lemma wp_set_inode_bitmap fuel p f bids ess : parent_ok fuel p f bids ess → iroom (store f) →
  wp (set_inode_bitmap i fuel p) (λ ino f', ∃ g bit d bm, first_clear (store f) g bit d bm ∧
    ino = bit + 1 + g * 32768 ∧ info f' = info f ∧
    changed (store f) (8 * inodeBitmapAddr d) (with_bit bm bit) (store f')) f.
Proof.
  intros H Hroom. unfold set_inode_bitmap. destruct isearch_range as (Hs0 & Hs1 & Hs2).
  wp_step. eapply wp_mono; [by eapply wp_find_group_ino|]. intros g f1 (Ei & Hk & Hg).
  pose proof (d_vol _ _ _ _ (pa_dir _ _ _ _ _ H)) as Hv. pose proof (keeps_vol i _ _ Hk Hv) as Hv1.
  destruct (lookup_lt_is_Some_2 (desc i) (Z.to_nat g)) as [d Hd]; [rewrite (g_desc i G); lia|].
  destruct (ig_range IG g (inodeBitmapAddr d) Hg) as [Hr _]; [by exists d|]. destruct (v_blk i _ Hv _ Hr) as [bm Hbm].
  wp_step. wp_step; [exact Hd|]. wp_step. apply wp_on_store. eapply wp_mono; [by apply (wp_block_read i G)|].
  intros b s2 (Hk2 & Hab). pose proof (vkeeps_trans _ _ _ Hk Hk2) as Hk12. wp_step. apply wp_on_store. unfold set_next_zero_bit.
  eapply wp_mono; [apply (wp_next_zero _ b (8 * inodeBitmapAddr d) bm s2 0); [apply Hk2|done| |lia|]|].
  { cbn [store]. rewrite (proj1 (proj2 Hk12)). exact Hbm. }
  { rewrite Hs1. unfold BUF_SIZE, PAGE_SIZE. lia. }
  intros r s3 [(-> & -> & Hfull)|(Hr3 & Hc & Hlow & Hch)].
  { destruct (Hroom g Hg) as (k & Hkr & Hkb). unfold ibit in Hkb. rewrite Hd in Hkb. simpl in Hkb. rewrite Hbm in Hkb.
    simpl in Hkb. rewrite Hfull in Hkb; [done|]. rewrite Hs1. unfold isearch in Hkr. lia. }
  wp_step. apply wp_assertk. split; [destruct (Z.ltb_spec r 0); [lia|done]|]. wp_step. apply wp_on_store.
  eapply wp_mono; [eapply wp_mark_keeps; [by eapply changed_inv|by eapply changed_at]|]. intros [] s4 Hk4. apply wp_ret.
  exists g, r, d, bm. rewrite Hs1 in Hr3. assert (0 ≤ r < isearch) by (unfold isearch; lia).
  split_and!; [split; try done; intros j Hj; apply Hlow; lia| |by simpl|].
  - rewrite (g_bpg i G). pose proof (g_cnt i G). apply u32_small. lia.
  - eapply keeps_changed; [exact Hk12|]. by eapply changed_keeps.
Qed.

(** ** The counters of the group *)

Lemma wp_gd_add s buf no d off fld delta : bs_inv s → bs_at s buf no → bs_view s no = Some d →
  0 ≤ off + fld → off + fld + 2 ≤ 4096 →
  wp (gd_add buf off fld delta)
    (λ _ s', changed s no (put16 d (off + fld) (u16 (le16 d (off + fld) + delta))) s') s.
Proof.
  intros Hi Ha Hd Ho Hl. unfold gd_add. wp_step.
  eapply wp_intro; [by eapply bs_load16_ok; [done|done|done|done|unfold BUF_SIZE, PAGE_SIZE; lia]|].
  eapply wp_bs_store16; [done|done|done|done|unfold BUF_SIZE, PAGE_SIZE; lia].
Qed.

(** How a counter of the group of a new inode changes. *)
Definition delta_of (isDir : bool) (fld : Z) : Z :=
  if fld =? gd_freeInodesCnt then -1 else if isDir && (fld =? gd_dirNum) then 1 else 0.

Definition counted (gdp : bytes) (off : Z) (isDir : bool) : bytes :=
  let d1 := put16 gdp (off + gd_freeInodesCnt) (u16 (le16 gdp (off + gd_freeInodesCnt) + -1)) in
  if isDir then put16 d1 (off + gd_dirNum) (u16 (le16 d1 (off + gd_dirNum) + 1)) else d1.

Lemma u16_u16 z : u16 (u16 z) = u16 z.
Proof. unfold u16. by rewrite Z.mod_mod by lia. Qed.

Lemma le16_counted gdp off isDir fld : is_page gdp → 0 ≤ off → off + 32 ≤ 4096 →
  fld = gd_freeBlockCnt ∨ fld = gd_freeInodesCnt ∨ fld = gd_dirNum →
  le16 (counted gdp off isDir) (off + fld) = u16 (le16 gdp (off + fld) + delta_of isDir fld).
Proof.
  intros Hp H0 Hl Hf. pose proof (le16_range gdp (off + fld) Hp) as Hr. destruct Hp as [Hlen _].
  unfold BUF_SIZE, PAGE_SIZE in Hlen. unfold counted, delta_of, gd_freeBlockCnt, gd_freeInodesCnt, gd_dirNum in *.
  destruct Hf as [-> |[-> | ->]]; simpl; destruct isDir; simpl.
  1, 2: rewrite !le16_put16_ne by lia; by rewrite Z.add_0_r, u16_small by lia.
  - rewrite le16_put16_ne, le16_put16 by lia. by rewrite u16_u16.
  - rewrite le16_put16 by lia. by rewrite u16_u16.
  - rewrite le16_put16, le16_put16_ne by (rewrite ?length_put16; lia). by rewrite u16_u16.
  - rewrite le16_put16_ne by lia. by rewrite Z.add_0_r, u16_small by lia.
Qed.

Lemma gd_field_counted s s' gdp g g' isDir fld : vol_ok i s → 0 ≤ g < groupCnt i → 0 ≤ g' < groupCnt i →
  blk s (1 + g / 128) = Some gdp → blk s' (1 + g / 128) = Some (counted gdp (g mod 128 * 32) isDir) →
  (∀ b, gd_block i b → b ≠ 1 + g / 128 → blk s' b = blk s b) →
  fld = gd_freeBlockCnt ∨ fld = gd_freeInodesCnt ∨ fld = gd_dirNum →
  ∃ v, gd_field s g' fld = Some v ∧
    gd_field s' g' fld = Some (if g' =? g then u16 (v + delta_of isDir fld) else v).
Proof.
  intros Hv Hg Hg' Hgd Hgd' Hother Hf. pose proof (bs_page s _ gdp (v_inv _ _ Hv) Hgd) as Hp.
  pose proof (Z.mod_pos_bound g 128 ltac:(lia)). pose proof (Z.mod_pos_bound g' 128 ltac:(lia)). unfold gd_field.
  destruct (Z.eq_dec (g' / 128) (g / 128)) as [E|E].
  - rewrite E, Hgd, Hgd'. simpl. eexists. split; [done|]. f_equal. destruct (Z.eqb_spec g' g) as [->|Hne].
    + apply le16_counted; [done|lia|lia|done].
    + unfold counted, gd_freeBlockCnt, gd_freeInodesCnt, gd_dirNum in *.
      destruct isDir; rewrite ?le16_put16_ne; try done; Z.div_mod_to_equations; lia.
  - destruct (gd_in i G g' Hg') as [Hgb Hr]. destruct (v_blk i _ Hv _ Hr) as [d' Hd'].
    rewrite Hother, Hd' by (done || lia). simpl. eexists. split; [done|].
    by rewrite (proj2 (Z.eqb_neq g' g)) by congruence.
Qed.

(** The inode [bit] of group [g] was taken: its bit was the first clear one and is
    set, the counters of its group follow, and no other block changed. *)
Record itaken (s s' : St) (g bit : Z) (isDir : bool) : Prop := ITaken {
  it_vol : vol_ok i s';
  it_group : 0 ≤ g < groupCnt i ∧ 0 ≤ bit < isearch;
  it_first : ∀ k, 0 ≤ k ≤ bit → ibit s g k = Some (negb (k =? bit));
  it_bits : ∀ g' k, 0 ≤ g' < groupCnt i → 0 ≤ k < 32768 →
    ∃ b, ibit s g' k = Some b ∧ ibit s' g' k = Some (b || ((g' =? g) && (k =? bit)));
  it_gd : ∀ g' fld, 0 ≤ g' < groupCnt i → fld = gd_freeBlockCnt ∨ fld = gd_freeInodesCnt ∨ fld = gd_dirNum →
    ∃ v, gd_field s g' fld = Some v ∧
      gd_field s' g' fld = Some (if g' =? g then u16 (v + delta_of isDir fld) else v);
  it_blk : ∀ n, ¬ gd_block i n → ¬ ibitmap_block g n → blk s' n = blk s n;
  it_at : ∀ x n, bs_at s x n → bs_at s' x n }.

Lemma take_inode s s1 s' g bit d bm gdp isDir : vol_ok i s → first_clear s g bit d bm →
  changed s (8 * inodeBitmapAddr d) (with_bit bm bit) s1 → blk s (1 + g / 128) = Some gdp →
  changed s1 (8 * (1 + g / 128)) (counted gdp (g mod 128 * 32) isDir) s' → itaken s s' g bit isDir.
Proof.
  intros Hv [Hg Hd Hbm Hbit Hcl Hlow] Hc1 Hgd Hc2. destruct isearch_range as (Hs0 & _).
  pose proof (bs_page _ _ _ (v_inv _ _ Hv) Hbm) as Hpb. destruct (gd_in i G g Hg) as [Hgb Hgr].
  destruct (ig_range IG g (inodeBitmapAddr d) Hg) as [Hr Hnm]; [by exists d|].
  assert (∀ n, blk s' n = if decide (n = 1 + g / 128) then Some (counted gdp (g mod 128 * 32) isDir)
    else if decide (n = inodeBitmapAddr d) then Some (with_bit bm bit) else blk s n) as Hview.
  { intros n. unfold blk. rewrite (proj2 (proj2 Hc2)), (proj2 (proj2 Hc1)). repeat case_decide; try done; lia. }
  assert (inodeBitmapAddr d ≠ 1 + g / 128) as Hne by (intros E; apply Hnm; left; by rewrite E).
  split; [| |intros k Hk|intros g' k Hg' Hk|intros g' fld Hg' Hf|intros n Hn1 Hn2|].
  - split; [by eapply changed_inv|]. intros n Hn. rewrite Hview. repeat case_decide; eauto. by apply (v_blk _ _ Hv).
  - done.
  - unfold ibit. rewrite Hd. simpl. rewrite Hbm. simpl. f_equal. destruct (Z.eqb_spec k bit) as [->|]; simpl; [done|]. apply Hlow. lia.
  - destruct (lookup_lt_is_Some_2 (desc i) (Z.to_nat g')) as [d' Hd']; [rewrite (g_desc i G); lia|].
    destruct (ig_range IG g' (inodeBitmapAddr d') Hg') as [Hr' Hnm']; [by exists d'|]. destruct (v_blk i _ Hv _ Hr') as [bm' Hbm'].
    exists (bit_set bm' k). unfold ibit. rewrite Hd'. simpl. rewrite Hbm', Hview, decide_False. 2:{ intros E. apply Hnm'. left. rewrite E. done. }
    split; [done|]. destruct (Z.eqb_spec g' g) as [->|Hgne].
    + rewrite Hd in Hd'. injection Hd' as <-. rewrite decide_True by done. simpl. rewrite Hbm in Hbm'. injection Hbm' as <-.
      rewrite bit_set_with; [done|done|unfold BUF_SIZE, PAGE_SIZE; lia|lia].
    + rewrite decide_False, Hbm', orb_false_r; [done|]. intros E. apply Hgne, (ig_inj IG g' g (inodeBitmapAddr d')); try done; [by exists d'|].
      rewrite E. by exists d.
  - eapply (gd_field_counted s s' gdp); try done; [by rewrite Hview, decide_True|].
    intros b Hb Hne'. rewrite Hview, !decide_False; [done| |done]. intros ->. apply Hnm. by left.
  - rewrite Hview, !decide_False; [done|intros ->; apply Hn2; by exists d|by intros ->].
  - intros x n Hx. eapply changed_at; [exact Hc2|]. by eapply changed_at.
Qed.

Definition new_file (ino mode now : Z) : inode :=
  Inode ino 0 (if u16 (Z.land mode (Z.lnot 0xfff)) =? EXT2_IFDIR then 2 else 1) (Z.land mode 0xfff)
    (u16 (Z.land mode (Z.lnot 0xfff))) 0 now now now 0 0.

(** The number of a new inode is one of its group. *)
Lemma new_group g bit : 0 ≤ g < groupCnt i → 0 ≤ bit < isearch → EXT2_INODE2GROUP (bit + 1 + g * 32768) i = g.
Proof.
  intros Hg Hb. destruct isearch_range as (Hs0 & _). pose proof (g_cnt i G). pose proof (ig_ipg IG). unfold EXT2_INODE2GROUP.
  replace (bit + 1 + g * 32768 - 1) with (bit + g * 32768) by lia. rewrite u32_small by lia.
  destruct (ig_numbers IG) as [E|E]; [|rewrite E; apply group_bit; lia].
  assert (g = 0) as -> by lia. rewrite Z.div_small; [done|]. unfold isearch in Hb. Z.div_mod_to_equations. lia.
Qed.

Lemma wp_inode_alloc fuel p f bids ess mode now : parent_ok fuel p f bids ess → iroom (store f) →
  u16 (Z.land mode (Z.lnot 0xfff)) = EXT2_IFREG ∨ u16 (Z.land mode (Z.lnot 0xfff)) = EXT2_IFDIR →
  wp (inode_alloc i fuel p mode now) (λ r f', ∃ g bit, info f' = info f ∧
    itaken (store f) (store f') g bit (u16 (Z.land mode (Z.lnot 0xfff)) =? EXT2_IFDIR) ∧
    r = (new_file (bit + 1 + g * 32768) mode now, InodeInfo 0 (replicate 15 0))) f.
Proof.
  intros H Hroom Hmode. unfold inode_alloc. pose proof (d_vol _ _ _ _ (pa_dir _ _ _ _ _ H)) as Hv.
  wp_step. eapply wp_mono; [by eapply wp_set_inode_bitmap|].
  intros ino f1 (g & bit & d & bm & Hfc & -> & Ei & Hc). pose proof Hfc as [Hg Hd Hbm Hbit Hcl Hlow].
  destruct isearch_range as (Hs0 & _). pose proof (g_cnt i G). pose proof (ig_ipg IG).
  destruct (ig_range IG g (inodeBitmapAddr d) Hg) as [Hr Hnm]; [by exists d|]. destruct (gd_in i G g Hg) as [Hgb Hgr].
  rewrite new_group by done.
  wp_step.
  set (t := u16 (Z.land mode (Z.lnot 0xfff))) in *.
  assert (∃ lc, (if t =? EXT2_IFREG then mret 1 else if t =? EXT2_IFDIR then mret 2 else fail Assert : M (@fs St) Z) =
    mret lc ∧ lc = if t =? EXT2_IFDIR then 2 else 1) as (lc & -> & Elc) by (destruct Hmode as [-> | ->]; by eexists).
  wp_step. destruct (v_blk i _ Hv _ Hgr) as [gdp Hgd].
  assert (blk (store f1) (1 + g / 128) = Some gdp) as Hgd1.
  { unfold blk. rewrite (changed_ne _ _ _ _ _ Hc); [exact Hgd|]. intros E. apply Hnm. left. by replace (inodeBitmapAddr d) with (1 + g / 128) by lia. }
  assert (vol_ok i (store f1)) as Hv1 by (eapply (changed_vol i); done).
  wp_step. apply wp_on_store. eapply wp_mono; [by apply (wp_get_raw_gd i G)|]. intros [buf off] s2 (Hk2 & Ha2 & Eo). cbn [fst snd] in *. subst off.
  pose proof (Z.mod_pos_bound g 128 ltac:(lia)). pose proof (keeps_vol i _ _ Hk2 Hv1) as Hv2.
  wp_step. apply wp_on_store. eapply wp_mono; [apply (wp_gd_add _ _ (8 * (1 + g / 128)) gdp)|]; [apply Hv2|exact Ha2| |unfold gd_freeInodesCnt; lia..|].
  { cbn [store]. rewrite (proj1 (proj2 Hk2)). exact Hgd1. }
  intros [] s3 Hc3. wp_step.
  assert (wp (if t =? EXT2_IFDIR then on_store (gd_add buf (g mod 128 * 32) gd_dirNum 1) else mret tt)
    (λ _ f4, info f4 = info f1 ∧ changed s2 (8 * (1 + g / 128)) (counted gdp (g mod 128 * 32) (t =? EXT2_IFDIR)) (store f4))
    (Fs s3 (info f1))) as Hw.
  { unfold counted. destruct (t =? EXT2_IFDIR); [|apply wp_ret; done]. apply wp_on_store.
    eapply wp_mono; [eapply wp_gd_add; [by eapply changed_inv|by eapply changed_at|by eapply changed_eq|unfold gd_dirNum; lia..]|].
    intros [] s4 Hc4. split; [done|]. by eapply changed_trans. }
  eapply wp_mono; [exact Hw|]. intros [] f4 (Ei4 & Hc4). wp_step. apply wp_on_store.
  eapply wp_mono; [eapply wp_mark_keeps; [by eapply changed_inv|by eapply changed_at]|]. intros [] s5 Hk5. apply wp_ret.
  exists g, bit. split_and!; [cbn [info]; congruence| |by rewrite Elc].
  eapply (take_inode (store f) (store f1) s5); try done. eapply changed_keeps; [|exact Hk5]. by eapply keeps_changed.
Qed.

(** ** What an allocation leaves alone *)

Lemma itaken_used s s' g bit isDir n : itaken s s' g bit isDir → 0 ≤ n < nblocks i → used i s' n = used i s n.
Proof.
  intros H Hn. destruct (used_in i G n Hn) as (d & Hd & Hg). unfold used. rewrite Hd.
  assert (bitmap_block i (n / 32768) (blockBitmapAddr d)) as Hb by by exists d.
  rewrite (it_blk _ _ _ _ _ H); [done|by apply (g_bitmap i G (n / 32768))|].
  intros Hi. destruct (ig_range IG g _ (proj1 (it_group _ _ _ _ _ H)) Hi) as [_ Hm]. apply Hm. right. eauto.
Qed.

Lemma itaken_live s s' g bit isDir b : itaken s s' g bit isDir → live i s b → live i s' b.
Proof. intros H (? & ? & Hu & ?). split_and!; [done|lia|lia| |done]. by erewrite itaken_used. Qed.

Lemma itaken_blk s s' g bit isDir b : itaken s s' g bit isDir → live i s b → ¬ ibitmap_block g b → blk s' b = blk s b.
Proof. intros H (_ & _ & _ & Hm) Hb. apply (it_blk _ _ _ _ _ H); [|done]. intros ?. apply Hm. by left. Qed.

Lemma itaken_dir_ok f bids ess s' g bit isDir : dir_ok i f bids ess → itaken (store f) s' g bit isDir →
  (∀ b, b ∈ bids → ¬ ibitmap_block g b) → dir_ok i (Fs s' (info f)) bids ess.
Proof.
  intros H Ht Hb. pose proof H as [_ H2 H3 H4 H5]. split; cbn [store info]; [apply Ht|done| |done|].
  - eapply Forall_impl; [exact H3|]. intros b. by apply (itaken_live _ _ _ _ _ _ Ht).
  - apply Forall2_same_length_lookup. split; [by eapply Forall2_length|]. intros k b es Hk He.
    destruct (dir_lookup i _ _ _ _ _ H Hk) as (Hlv & es' & He' & E & Hok). simplify_eq.
    rewrite (itaken_blk _ _ _ _ _ _ Ht Hlv); [done|]. apply Hb. by eapply list_elem_of_lookup_2.
Qed.

Lemma itaken_ready f s' g bit isDir bno : bno < 12 → itaken (store f) s' g bit isDir → alloc_ready i f bno →
  alloc_ready i (Fs s' (info f)) bno.
Proof.
  intros Hb Ht [A1 A2 A3 A4 A5 A6 _]. pose proof (λ n, itaken_used _ _ _ _ _ n Ht) as Hu.
  split; cbn [store info]; [apply Ht|by eapply sys_ext|by eapply room_ext; [..|exact A3]|done..|].
  unfold tree_ok, path_of. rewrite (proj2 (Z.ltb_lt bno 12)) by done. by split; constructor.
Qed.

Lemma ibit_keeps s s' g k : keeps s s' → ibit s' g k = ibit s g k.
Proof. intros (_ & V & _). unfold ibit, blk. destruct (desc i !! _); simpl; [by rewrite V|done]. Qed.
Lemma iroom_keeps s s' : keeps s s' → iroom s → iroom s'.
Proof. intros Hk H g Hg. destruct (H g Hg) as (k & Hr & Hb). exists k. by rewrite (ibit_keeps s s'). Qed.

Lemma parent_keeps fuel p f s' bids ess : keeps (store f) s' → parent_ok fuel p f bids ess →
  parent_ok fuel p (Fs s' (info f)) bids ess.
Proof. intros Hk [H1 H2 H3 H4 H5 H6]. split; try done. by eapply dir_ok_keeps. Qed.

(** [inode_alloc] for a directory, when every group has a free inode.  It ends with
    an empty inode of the kind asked for; its number stands for the first clear bit of
    the bitmap of some group.  Exactly this bit is set, the free inodes of the group go
    down by one, its directories up by one for a directory, and no other block changes.
    The groups must number their inodes like blocks, or be only one. *)
Theorem inode_alloc_correct fuel p f bids ess mode now :
  parent_ok fuel p f bids ess → iroom (store f) →
  u16 (Z.land mode (Z.lnot 0xfff)) = EXT2_IFREG ∨ u16 (Z.land mode (Z.lnot 0xfff)) = EXT2_IFDIR →
  wp (inode_alloc i fuel p mode now) (λ r f', ∃ g bit, info f' = info f ∧
    itaken (store f) (store f') g bit (u16 (Z.land mode (Z.lnot 0xfff)) =? EXT2_IFDIR) ∧
    r = (new_file (bit + 1 + g * 32768) mode now, InodeInfo 0 (replicate 15 0)) ∧
    EXT2_INODE2GROUP (bit + 1 + g * 32768) i = g) f.
Proof.
  intros H Hr Hm. eapply wp_mono; [by eapply wp_inode_alloc|]. intros r f' (g & bit & Ei & Ht & ->). exists g, bit.
  split_and!; try done. apply new_group; apply Ht.
Qed.
End ialloc.

(** ** On the small volume: no inode is in use, the parent is the root directory *)

Definition demo_parent : inode := Inode 2 0 2 493 EXT2_IFDIR 4096 5 6 7 0 0.

Lemma demo_igeometry : igeometry demo_sb.
Proof.
  assert (∀ g b, 0 ≤ g < groupCnt demo_sb → ibitmap_block demo_sb g b → g = 0 ∧ b = 3) as Hb.
  { intros g b Hg (d & Hd & <-). simpl in Hg. assert (g = 0) as -> by lia. simpl in Hd. by injection Hd as <-. }
  split.
  - intros g b Hg H. destruct (Hb g b Hg H) as [-> ->]. split; [done|]. intros [[H1 H2]|(g' & Hg' & d & Hd & E)].
    + by apply H2.
    + simpl in Hg'. assert (g' = 0) as -> by lia. simpl in Hd. by injection Hd as <-.
  - intros g g' b Hg Hg' H H'. destruct (Hb g b Hg H), (Hb g' b Hg' H'). congruence.
  - done.
  - by left.
Qed.

Lemma demo_iroom : iroom demo_sb (store demo_dir).
Proof. intros g Hg. simpl in Hg. assert (g = 0) as -> by lia. exists 0. split; [done|]. by vm_compute. Qed.

Lemma demo_names : all_names [demo_es] = [([dot], (2, 2)); ([dot; dot], (2, 2))].
Proof. by vm_compute. Qed.

Lemma demo_parent_ok : parent_ok demo_sb 13 demo_parent demo_dir [7] [demo_es].
Proof.
  split; [apply demo_dir_ok|simpl; lia| |done|done|done]. rewrite demo_names. by repeat constructor.
Qed.

Lemma inode_alloc_correct_witness :
  parent_ok demo_sb 13 demo_parent demo_dir [7] [demo_es] ∧ iroom demo_sb (store demo_dir) ∧
  wp (inode_alloc demo_sb 13 demo_parent (Z.lor 0x1fd EXT2_IFREG) 9) (λ r f', ∃ g bit,
    EXT2_INODE2GROUP (i_ino r.1) demo_sb = g ∧ ibit demo_sb (store demo_dir) g bit = Some false) demo_dir.
Proof.
  split; [exact demo_parent_ok|]. split; [exact demo_iroom|].
  eapply wp_mono; [apply (inode_alloc_correct demo_sb demo_geometry demo_igeometry 13 demo_parent demo_dir [7] [demo_es]);
    [exact demo_parent_ok|exact demo_iroom|left; reflexivity]|].
  intros r f' (g & bit & _ & Ht & -> & Eg). exists g, bit. split; [exact Eg|].
  destruct (it_group _ _ _ _ _ _ Ht) as [_ Hb]. rewrite (it_first _ _ _ _ _ _ Ht) by lia. by rewrite Z.eqb_refl.
Defined.
