(* ===== verification/Ext2Tree.v ===== *)
(** * ext2: cached directories and inodes, operations on files

    Models the objects the file system keeps in memory - [directory_t] with its name
    ([dir_name_set], [dir_name_dump], [dir_name_cmp] of fs/vfs.c) and its list of
    cached children, [inode_t] with its blocks - and the operations of
    [fs/ext2/ext2.c] and [fs/ext2/dir.c] on them: [find], [mkdir], [mkfile], [rmdir],
    [link], [unlink], [inode_mount].

    Objects are named by their addresses.  The list through [brother] with head
    [child] is the list of its members in order (DList shows what [list_add_prev] and
    [list_del] do to it); the list through [link] is never read and is left out.  The
    slab caches answer an address that is not in use ([dir_addr], [node_addr]); what
    such an object or a block of [kmalloc] holds before it is written is unknown
    ([raw], [junk]).  Every inode has the super block of the file system once it is set up
    ([inode_cpy], [inode_alloc]); the [sb] of a directory object is a field of it.  [now] is [cur_timestamp()], [fuel] bounds the number of blocks
    of a directory. *)

From S2P Require Import Prelude QLib Page BlockStore Writeback Ext2 Ext2Dir Ext2Inode.
From Stdlib Require Import ZArith Lia.
From stdpp Require Import base numbers gmap list.
Open Scope Z_scope.

Definition FILE_DNAME_LEN : Z := 40.
Definition EXT2_ALL_RWX : Z := Eval vm_compute in
  fold_left Z.lor [0x0100; 0x0080; 0x0040; 0x0020; 0x0010; 0x0008; 0x0004; 0x0001] 0.

(** A pointer to a super block: NULL, that of the file system, or one to something else. *)
Inductive sb_ptr := SbNull | SbExt2 | SbWild.
#[export] Instance sb_ptr_eq : EqDecision sb_ptr.
Proof. solve_decision. Defined.

Record directory := Directory {
  d_ino : Z; d_inode : Z;                              (* inode: 0 is NULL *)
  d_l_name : list Z; d_h_name : option (list Z); d_nameLen : Z;
  d_parent : Z; d_child : list Z; d_sb : sb_ptr }.

Definition with_d_inode (v : Z) (d : directory) : directory :=
  Directory (d_ino d) v (d_l_name d) (d_h_name d) (d_nameLen d) (d_parent d) (d_child d) (d_sb d).
Definition with_d_child (v : list Z) (d : directory) : directory :=
  Directory (d_ino d) (d_inode d) (d_l_name d) (d_h_name d) (d_nameLen d) (d_parent d) v (d_sb d).

(** [ext2_inode_info_t]: the inode, its blocks and [inode->dir]. *)
Record node := Node { n_inode : inode; n_info : inode_info; n_dir : Z }.

Definition with_d_sb (v : sb_ptr) (d : directory) : directory :=
  Directory (d_ino d) (d_inode d) (d_l_name d) (d_h_name d) (d_nameLen d) (d_parent d) (d_child d) v.

(** What a new object of the caches holds: [l_name] of a directory object, [sb] of an
    inode. *)
Record raw_object := RawObject { raw_name : list Z; raw_sb : sb_ptr }.

(** ** Names *)

(** [memcpy(dst, src, n)] at the start of [dst]. *)
Definition memcpy_to (dst src : list Z) (n : Z) : list Z := take (Z.to_nat n) src ++ drop (Z.to_nat n) dst.

(** The C string at the start of a block. *)
Fixpoint c_string (l : list Z) : list Z :=
  match l with
  | [] => []
  | c :: l' => if c =? 0 then [] else c :: c_string l'
  end.

Section names.
Context {S : Type}.
Variable junk : Z → list Z.      (* the bytes of a new block of [kmalloc] *)

(** [memcmp] of the first [n] bytes: whether they are equal. *)
Fixpoint memcmp_bytes (n : nat) (a b : list Z) : M S bool :=
  match n with
  | O => mret true
  | Datatypes.S n' =>
      x ← deref (head a); y ← deref (head b);
      if negb (x =? y) then mret false else memcmp_bytes n' (tail a) (tail b)
  end.

(** Sets [l_name], [h_name] and [nameLen]; [name] has [len] characters. *)
Definition dir_name_set (name : list Z) (d : directory) : M S directory :=
  let len := Z.of_nat (length name) in
  assertk (len <=? FILE_NAME_LEN);;
  let cpy := MIN len FILE_DNAME_LEN in
  mret (Directory (d_ino d) (d_inode d) (memcpy_to (d_l_name d) name cpy)
    (if FILE_DNAME_LEN <? len then
       Some (memcpy_to (junk (len - cpy)) (drop (Z.to_nat cpy) name) (len - cpy))
     else None)
    (u8 len) (d_parent d) (d_child d) (d_sb d)).

(** The block with the characters and the final 0. *)
Definition dir_name_dump (d : directory) : M S (list Z) :=
  let name := junk (d_nameLen d + 1) in
  let cpy := MIN (d_nameLen d) FILE_DNAME_LEN in
  let name := memcpy_to name (d_l_name d) cpy in
  name ← (if FILE_DNAME_LEN <? cpy then
            h ← deref (d_h_name d);
            let k := d_nameLen d - cpy in
            mret (take (Z.to_nat k) name ++ memcpy_to (drop (Z.to_nat k) name) h k)
          else mret name);
  mret (<[Z.to_nat (d_nameLen d) := 0]> name).

(** [name] are the characters of the argument, without the final 0. *)
Definition dir_name_cmp (d : directory) (name : list Z) : M S bool :=
  let len := MIN FILE_DNAME_LEN (d_nameLen d) in
  same ← memcmp_bytes (Z.to_nat len) (d_l_name d) (name ++ [0]);
  if negb same then mret false
  else if FILE_DNAME_LEN <? len then
    match d_h_name d with
    | None => fail Assert
    | Some h => memcmp_bytes (Z.to_nat (d_nameLen d - len)) h (drop (Z.to_nat len) (name ++ [0]))
    end
  else mret true.
End names.

Section tree.
Context {St : Type} `{B : BlockStore St} (i : ext2_sb_info).
Variable mark : Z → Z → M St unit.           (* mark_inode_dirty(inode, state) *)
Variable junk : Z → list Z.
Variable raw : raw_object.
Variable fuel : nat.

Record tree := Tree { t_store : St; t_dirs : gmap Z directory; t_nodes : gmap Z node }.

Variable dir_addr node_addr : tree → Z.

Definition on_st {A} (m : M St A) : M tree A := zoom t_store (λ s t, Tree s (t_dirs t) (t_nodes t)) m.

Definition rd_dir (a : Z) : M tree directory := t ← get; deref (t_dirs t !! a).
Definition wr_dir (a : Z) (d : directory) : M tree unit :=
  modify (λ t, Tree (t_store t) (<[a := d]> (t_dirs t)) (t_nodes t)).
Definition upd_dir (a : Z) (f : directory → directory) : M tree unit := d ← rd_dir a; wr_dir a (f d).

Definition rd_node (a : Z) : M tree node := t ← get; deref (t_nodes t !! a).
Definition wr_node (a : Z) (n : node) : M tree unit :=
  modify (λ t, Tree (t_store t) (t_dirs t) (<[a := n]> (t_nodes t))).
Definition upd_inode (a : Z) (f : inode → inode) : M tree unit :=
  n ← rd_node a; wr_node a (Node (f (n_inode n)) (n_info n) (n_dir n)).

(** A routine on the inode at [a]. *)
Definition on_node {A} (a : Z) (m : M (@file St) A) : M tree A :=
  n ← rd_node a; t ← get;
  match m (File (Fs (t_store t) (n_info n)) (n_inode n)) with
  | Ok (r, f) =>
      modify (λ t, Tree (store (f_fs f)) (t_dirs t)
        (<[a := Node (f_inode f) (info (f_fs f)) (n_dir n)]> (t_nodes t)));;
      mret r
  | Err e => fail e
  end.

(** [list_add_prev(&dir->brother, &parent->child)] *)
Definition add_child (parent dir : Z) : M tree unit :=
  upd_dir parent (λ d, with_d_child (d_child d ++ [dir]) d).
(** [list_del(&dir->brother)] takes [dir] out of the list it is in. *)
Definition del_brother (dir : Z) : M tree unit :=
  modify (λ t, Tree (t_store t) ((λ d, with_d_child (filter (λ c, c ≠ dir) (d_child d)) d) <$> t_dirs t) (t_nodes t)).

(** ** dir.c *)

(** [isb] is [inode->sb]. *)
Definition directory_alloc (name : list Z) (ino parent inode : Z) (isb : sb_ptr) : M tree Z :=
  t ← get;
  let a := dir_addr t in
  d ← dir_name_set junk name (Directory ino inode (raw_name raw) None 0 parent [] isb);
  wr_dir a d;;
  mret a.

(** The object for an entry [name], [ino] that was found on the disk. *)
Definition directory_cpy (name : list Z) (ino parent : Z) : M tree Z :=
  t ← get;
  let a := dir_addr t in
  d ← dir_name_set junk name (Directory ino 0 (raw_name raw) None 0 parent [] SbNull);
  p ← rd_dir parent;
  assertk (negb (bool_decide (d_sb p = SbNull)));;
  wr_dir a (with_d_sb (d_sb p) d);;
  mret a.

Fixpoint find_child (l : list Z) (name : list Z) : M tree Z :=
  match l with
  | [] => mret 0
  | a :: l' =>
      d ← rd_dir a;
      if d_nameLen d =? Z.of_nat (length name) then
        same ← dir_name_cmp d name;
        if same : bool then mret a else find_child l' name
      else find_child l' name
  end.
Definition find_entry_cache (parent : Z) (name : list Z) : M tree Z :=
  d ← rd_dir parent; find_child (d_child d) name.

(** [create_dir_entry] with [parent->size] of the inode. *)
Definition enter_name (parent : Z) (name : list Z) (ino type : Z) : M tree unit :=
  on_node parent (x ← the_inode; size ← on_fs (create_dir_entry i fuel name ino type (i_size x));
                  set_ino (with_i_size size)).

Definition append_link_to_parent (parent dir type : Z) : M tree unit :=
  type ← deref (type_inode2dir type);
  d ← rd_dir dir;
  name ← dir_name_dump junk d;
  enter_name parent (c_string name) (d_ino d) type;;
  p ← rd_node parent;
  add_child (n_dir p) dir.

Definition append_to_parent (parent child : Z) : M tree unit :=
  c ← rd_node child;
  append_link_to_parent parent (n_dir c) (i_type (n_inode c));;
  if ext2_is_dir (n_inode c) then
    upd_inode parent (λ x, with_i_linkCnt (u16 (i_linkCnt x + 1)) x);;
    on_st (mark parent I_DATA)
  else mret tt.

(** [remove_from_parent]: the name compared has [target->nameLen] characters. *)
Definition remove_name (parent target : Z) : M tree unit :=
  d ← rd_dir target;
  name ← dir_name_dump junk d;
  on_node parent (on_fs (remove_from_parent i fuel (take (Z.to_nat (d_nameLen d)) name))).

(** ** ext2.c *)

(** Reading through a pointer to a super block. *)
Definition use_sb (p : sb_ptr) : M tree unit := match p with SbExt2 => mret tt | _ => fail Fault end.

Definition ext2_inode_mount (now dir : Z) : M tree unit :=
  d ← rd_dir dir;
  when (d_inode d =? 0)
    (assertk (truth (d_parent d) && negb (bool_decide (d_sb d = SbNull)));;
     use_sb (d_sb d);;
     t ← get;
     let a := node_addr t in
     '(x, y) ← on_st (inode_cpy i (mark a) (d_ino d) now);
     wr_node a (Node x y 0);;
     upd_dir dir (with_d_inode a);;
     n ← rd_node a;
     when (n_dir n =? 0) (wr_node a (Node (n_inode n) (n_info n) dir)));;
  d ← rd_dir dir;
  assertk (truth (d_inode d)).

Definition ext2_find (now parent : Z) (name : list Z) : M tree Z :=
  dir ← find_entry_cache parent name;
  if truth dir then mret dir
  else
    ext2_inode_mount now parent;;
    p ← rd_dir parent;
    ino ← on_node (d_inode p) (on_fs (find_entry_disk i fuel name));
    match ino with
    | None => mret 0
    | Some ino =>
        n ← rd_node (d_inode p);
        dir ← directory_cpy name ino (n_dir n);
        add_child parent dir;;
        mret dir
    end.

(** The new inode with its directory entry; [inode_alloc] of inode.c, which makes the
    directory object before it sets [inode->sb]. *)
Definition new_inode (now parent mode : Z) (name : list Z) : M tree Z :=
  p ← rd_node parent;
  t ← get;
  let a := node_addr t in
  '(x, y) ← on_node parent (on_fs (inode_alloc i fuel (n_inode p) mode now));
  dir ← directory_alloc name (i_ino x) (n_dir p) a (raw_sb raw);
  wr_node a (Node x y dir);;
  mret a.

Definition ext2_mkdir (now parent : Z) (name : list Z) : M tree Z :=
  p ← rd_node parent;
  if negb (ext2_is_dir (n_inode p)) then mret (-1)
  else
    dir ← ext2_find now (n_dir p) name;
    if truth dir then mret (-2)
    else
      new ← new_inode now parent (Z.lor EXT2_ALL_RWX EXT2_IFDIR) name;
      _ ← on_node new (on_fs (alloc_block i 0));
      upd_inode new (with_i_size (blockSize (sb i)));;
      n ← rd_node new;
      d ← rd_dir (n_dir n);
      pd ← rd_dir (d_parent d);
      on_node new (on_fs (make_empty_dir i (d_ino d) (d_ino pd)));;
      append_to_parent parent new;;
      on_st (mark new I_NEW);;
      mret 0.

Definition ext2_mkfile (now parent : Z) (name : list Z) : M tree Z :=
  p ← rd_node parent;
  if negb (ext2_is_dir (n_inode p)) then mret (-1)
  else
    dir ← ext2_find now (n_dir p) name;
    if truth dir then mret (-2)
    else
      new ← new_inode now parent (Z.lor EXT2_ALL_RWX EXT2_IFREG) name;
      append_to_parent parent new;;
      on_st (mark new I_NEW);;
      mret 0.

(** [inode_delete] with [list_del(&inode->dir->brother)], which the disk does not
    depend on. *)
Definition delete_node (now a : Z) : M tree unit :=
  n ← rd_node a;
  on_node a (inode_delete i (mark a) now);;
  del_brother (n_dir n).

Definition ext2_rmdir (now a : Z) : M tree Z :=
  n ← rd_node a;
  assertk (truth (n_dir n));;
  d ← rd_dir (n_dir n);
  assertk (truth (d_parent d));;
  if negb (ext2_is_dir (n_inode n)) then mret (-1)
  else if negb (bool_decide (d_child d = [])) then mret (-2)
  else
    empty ← on_node a (on_fs (dir_empty i fuel (ext2_is_dir (n_inode n)) (i_linkCnt (n_inode n))));
    if negb empty then mret (-2)
    else
      ext2_inode_mount now (d_parent d);;
      p ← rd_dir (d_parent d);
      let parent := d_inode p in
      remove_name parent (n_dir n);;
      delete_node now a;;
      upd_inode parent (λ x, with_i_linkCnt (u16 (i_linkCnt x - 1)) x);;
      on_st (mark parent I_DATA);;
      mret 0.

Definition ext2_link (src parent : Z) (name : list Z) : M tree Z :=
  s ← rd_node src;
  if negb (truth (Z.land (i_type (n_inode s)) EXT2_IFREG)) then mret (-1)
  else
    upd_inode src (λ x, with_i_linkCnt (u16 (i_linkCnt x + 1)) x);;
    sd ← rd_dir (n_dir s);
    p ← rd_node parent;
    dir ← directory_alloc name (d_ino sd) (n_dir p) src SbExt2;
    append_link_to_parent parent dir (i_type (n_inode s));;
    on_st (mark src I_DATA);;
    mret 0.

Definition ext2_unlink (now file : Z) : M tree Z :=
  assertk (truth file);;
  d ← rd_dir file;
  assertk (truth (d_parent d));;
  ext2_inode_mount now file;;
  d ← rd_dir file;
  n ← rd_node (d_inode d);
  if ext2_is_dir (n_inode n) then mret (-1)
  else
    ext2_inode_mount now (d_parent d);;
    p ← rd_dir (d_parent d);
    let a := d_inode d in
    upd_inode a (λ x, with_i_linkCnt (u16 (i_linkCnt x - 1)) x);;
    remove_name (d_inode p) file;;
    n ← rd_node a;
    if i_linkCnt (n_inode n) =? 0 then delete_node now a;; mret 0
    else on_st (mark a I_DATA);; mret 0.

(** The root directory; its directory object has no parent. *)
Definition root_init (now : Z) : M tree Z :=
  t ← get;
  let a := node_addr t in
  '(x, y) ← on_st (inode_cpy i (mark a) ROOT_INUM now);
  wr_node a (Node x y 0);;
  dir ← directory_alloc [47] ROOT_INUM 0 a SbExt2;
  wr_node a (Node x y dir);;
  mret a.
End tree.
