(* ===== verification/Ext2TreeCorrect.v ===== *)
(** * ext2: cached directories and operations on files, correctness

    What the names of directory objects can hold, how a name is looked up in the cache
    and on the disk, and what making and removing a file do to both. *)

From S2P Require Import Prelude QLib Page BlockStore Writeback Ext2 Ext2Dir Ext2Correct Ext2DirCorrect Ext2Directory Ext2Inode Ext2InodeCorrect Ext2InodeAlloc Ext2Tree.
From Stdlib Require Import ZArith Lia.
From stdpp Require Import base countable numbers gmap list.
Open Scope Z_scope.

#[local] Arguments Z.to_nat : simpl never.
#[local] Arguments Z.mul : simpl never.
#[local] Arguments Z.div : simpl never.
#[local] Arguments Z.modulo : simpl never.

(** ** Names *)

(** What a directory object keeps of a name for comparisons: its length and its first
    40 characters. *)
Definition name_key (name : list Z) : Z * list Z := (len name, take 40 name).
Definition dir_key (d : directory) : Z * list Z :=
  (d_nameLen d, take (Z.to_nat (Z.min 40 (d_nameLen d))) (d_l_name d)).

(** The fields of a directory object have their sizes. *)
Definition dir_obj (d : directory) : Prop := length (d_l_name d) = 40%nat ∧ 0 ≤ d_nameLen d ≤ 128.

Section names.
Context {S : Type} (junk : Z → list Z).
Implicit Types s : S.

Lemma memcmp_bytes_ok n a b s : (n ≤ length a)%nat → (n ≤ length b)%nat →
  memcmp_bytes n a b s = Ok (bool_decide (take n a = take n b), s).
Proof.
  revert a b. induction n as [|n IH]; intros [|x a] [|y b] Ha Hb; simpl in *; try lia; try done.
  erewrite bind_Ok by done. erewrite bind_Ok by done.
  destruct (Z.eqb_spec x y) as [->|Hne]; simpl.
  - rewrite IH by lia. do 2 f_equal. apply bool_decide_ext. split; [by intros ->|congruence].
  - rewrite bool_decide_false; [done|]. congruence.
Qed.

Lemma min40 a b : MIN a b = Z.min a b.
Proof. unfold MIN. destruct (Z.ltb_spec b a); lia. Qed.

(** The names are equal as far as the object can tell. *)
Lemma dir_name_cmp_key d name s : dir_obj d → d_nameLen d = len name →
  dir_name_cmp d name s = Ok (bool_decide (dir_key d = name_key name), s).
Proof.
  intros [Hl Hn] E. unfold dir_name_cmp. rewrite min40. change FILE_DNAME_LEN with 40.
  erewrite bind_Ok by (apply memcmp_bytes_ok; rewrite ?length_app; simpl; lia).
  assert (take (Z.to_nat (Z.min 40 (d_nameLen d))) (name ++ [0]) = take 40 name) as ->.
  { rewrite E. rewrite take_app_le by lia. destruct (Z.le_gt_cases (len name) 40).
    - rewrite !take_ge by lia. done.
    - f_equal. lia. }
  assert (dir_key d = name_key name ↔ take (Z.to_nat (Z.min 40 (d_nameLen d))) (d_l_name d) = take 40 name) as Hk.
  { unfold dir_key, name_key. split; [congruence|]. intros ->. by rewrite E. }
  rewrite (proj2 (Z.ltb_ge 40 _)) by lia. rewrite (bool_decide_ext _ _ Hk).
  by case_bool_decide.
Qed.

Lemma dir_name_set_ok name d s : len name ≤ 128 → length (d_l_name d) = 40%nat →
  ∃ d', dir_name_set junk name d s = Ok (d', s) ∧ dir_obj d' ∧ dir_key d' = name_key name ∧
    d_ino d' = d_ino d ∧ d_inode d' = d_inode d ∧ d_parent d' = d_parent d ∧ d_child d' = d_child d ∧ d_sb d' = d_sb d.
Proof.
  intros Hn Hl. unfold dir_name_set. erewrite bind_Ok by (unfold assertk; rewrite (proj2 (Z.leb_le _ _)); done).
  rewrite min40. change FILE_DNAME_LEN with 40. eexists. split; [done|]. unfold dir_obj, dir_key, name_key, memcpy_to. cbn [d_l_name d_nameLen d_ino d_inode d_parent d_child d_sb].
  rewrite u8_small by lia. split_and!; try done; try lia.
  - rewrite length_app, length_take, length_drop. lia.
  - f_equal. rewrite take_app_le by (rewrite length_take; lia). rewrite take_take. 
    destruct (Z.le_gt_cases (len name) 40); [rewrite !take_ge by lia; done|f_equal; lia].
Qed.

(** What follows the first 40 characters in the block of [dir_name_dump]. *)
Definition dump_tail (d : directory) : list Z :=
  let k := Z.to_nat (Z.min (d_nameLen d) 40) in take (Z.to_nat (d_nameLen d) - k) (drop k (junk (d_nameLen d + 1))).

Lemma dir_name_dump_ok d s : dir_obj d → (∀ n, 0 ≤ n → len (junk n) = n) →
  dir_name_dump junk d s = Ok ((dir_key d).2 ++ dump_tail d ++ [0], s) ∧
  len ((dir_key d).2 ++ dump_tail d) = d_nameLen d.
Proof.
  intros [Hl Hn] Hj. unfold dir_name_dump, dump_tail. rewrite min40. change FILE_DNAME_LEN with 40. pose proof (Hj (d_nameLen d + 1) ltac:(lia)) as Hj1.
  rewrite (proj2 (Z.ltb_ge 40 _)) by lia. erewrite bind_Ok by done. unfold dir_key, memcpy_to. cbn [snd].
  rewrite (Z.min_comm 40). set (k := Z.to_nat (Z.min (d_nameLen d) 40)).
  set (J := drop k (junk (d_nameLen d + 1))). assert (length J = Z.to_nat (d_nameLen d + 1) - k)%nat as HJ by (unfold J; rewrite length_drop; lia).
  assert (k ≤ Z.to_nat (d_nameLen d))%nat as Hk by lia. assert (length (take k (d_l_name d)) = k) as Ht by (rewrite length_take; lia).
  split.
  - unfold mret, M_ret. do 2 f_equal. rewrite insert_app_r_alt by lia. f_equal. rewrite Ht.
    rewrite (insert_take_drop J) by lia. f_equal. rewrite drop_ge by lia. done.
  - rewrite length_app, Ht, length_take. lia.
Qed.

Lemma c_string_app name tl : Forall (λ c, c ≠ 0) name → c_string (name ++ 0 :: tl) = name.
Proof. induction 1 as [|c l Hc _ IH]; simpl; [done|]. rewrite (proj2 (Z.eqb_neq c 0) Hc). by rewrite IH. Qed.

(** A name of at most 40 characters is read back. *)
Lemma dir_name_dump_short d name s : dir_obj d → dir_key d = name_key name → len name ≤ 40 →
  (∀ n, 0 ≤ n → len (junk n) = n) → dir_name_dump junk d s = Ok (name ++ [0], s).
Proof.
  intros Hd Hk Hn Hj. destruct (dir_name_dump_ok d s Hd Hj) as (-> & El). set (tl := dump_tail d) in *. rewrite Hk in *. unfold dir_key, name_key in *.
  simpl in *. injection Hk as En Ek. rewrite take_ge in El |- * by lia. destruct tl as [|x tl]; [done|].
  rewrite En, length_app in El. simpl in El. lia.
Qed.

(** C28: a directory object given a name [a] by [dir_name_set] tells names of the same
    length apart only by their first 40 characters: [dir_name_cmp] takes every [b] that
    shares them for [a].  [dir_name_dump] gives back the first 40 characters; what
    follows them in a longer name is what the new block held before. *)
Theorem dir_name_prefix a b d s :
  length (d_l_name d) = 40%nat → len a ≤ 128 → length b = length a → (∀ n, 0 ≤ n → len (junk n) = n) →
  ∃ d', dir_name_set junk a d s = Ok (d', s) ∧
    dir_name_cmp d' b s = Ok (bool_decide (take 40 a = take 40 b), s) ∧
    dir_name_dump junk d' s =
      Ok (take 40 a ++ take (length a - 40) (drop 40 (junk (len a + 1))) ++ [0], s).
Proof.
  intros Hl Ha Hb Hj. destruct (dir_name_set_ok a d s Ha Hl) as (d' & E & Ho & Hk & _). exists d'. split; [exact E|].
  assert (d_nameLen d' = len a) as En by (injection Hk as -> _; done). split.
  - rewrite dir_name_cmp_key by (done || lia). do 2 f_equal. rewrite Hk. apply bool_decide_ext. unfold name_key. rewrite Hb.
    split; [congruence|by intros ->].
  - destruct (dir_name_dump_ok d' s Ho Hj) as (E' & El). rewrite E', Hk. unfold dump_tail. rewrite En. do 2 f_equal. cbn [snd name_key].
    do 2 f_equal. destruct (Nat.le_gt_cases (length a) 40).
    + replace (length a - 40)%nat with 0%nat by lia. rewrite Nat2Z.id. rewrite Z.min_l, Nat2Z.id by lia. by rewrite Nat.sub_diag.
    + rewrite Z.min_r by lia. change (Z.to_nat 40) with 40%nat. by rewrite Nat2Z.id.
Qed.
End names.

(** ** The objects *)

Section tree.
Context {St : Type} `{B : BlockStore St} (i : ext2_sb_info).
Hypothesis G : geometry i.
Variable mark : Z → Z → M St unit.
Hypothesis mark_ok : ∀ a st s, bs_inv s → wp (mark a st) (λ _ s', keeps s s') s.
Variable junk : Z → list Z.
Hypothesis junk_len : ∀ n, 0 ≤ n → len (junk n) = n.
Variable raw : raw_object.
Hypothesis raw_len : length (raw_name raw) = 40%nat.
Variable fuel : nat.
Variable dir_addr node_addr : @tree St → Z.
Hypothesis dir_fresh : ∀ t, dir_addr t ≠ 0 ∧ t_dirs t !! dir_addr t = None.
Hypothesis node_fresh : ∀ t, node_addr t ≠ 0 ∧ t_nodes t !! node_addr t = None.
Implicit Types t : @tree St.

Lemma wp_rd_dir a d Q t : t_dirs t !! a = Some d → Q d t → wp (rd_dir a) Q t.
Proof. intros. unfold rd_dir. by wp_go. Qed.
Lemma wp_rd_node a n Q t : t_nodes t !! a = Some n → Q n t → wp (rd_node a) Q t.
Proof. intros. unfold rd_node. by wp_go. Qed.
Lemma wp_upd_dir a d f Q t : t_dirs t !! a = Some d →
  Q tt (Tree (t_store t) (<[a := f d]> (t_dirs t)) (t_nodes t)) → wp (upd_dir a f) Q t.
Proof. intros. unfold upd_dir, wr_dir. wp_step. eapply wp_rd_dir; [done|]. by wp_go. Qed.
Lemma wp_upd_inode a n f Q t : t_nodes t !! a = Some n →
  Q tt (Tree (t_store t) (t_dirs t) (<[a := Node (f (n_inode n)) (n_info n) (n_dir n)]> (t_nodes t))) →
  wp (upd_inode a f) Q t.
Proof. intros. unfold upd_inode, wr_node. wp_step. eapply wp_rd_node; [done|]. by wp_go. Qed.
Lemma wp_on_st {A} (m : M St A) Q t :
  wp m (λ r s, Q r (Tree s (t_dirs t) (t_nodes t))) (t_store t) → wp (on_st m) Q t.
Proof. intros H. unfold on_st. by apply wp_zoom. Qed.

(** The blocks and the inode of a node. *)
Definition fs_of (s : St) (n : node) : @fs St := Fs s (n_info n).
Definition file_of (s : St) (n : node) : @file St := File (fs_of s n) (n_inode n).

Lemma wp_on_node {A} a n (m : M (@file St) A) Q t : t_nodes t !! a = Some n →
  wp m (λ r f, Q r (Tree (store (f_fs f)) (t_dirs t)
    (<[a := Node (f_inode f) (info (f_fs f)) (n_dir n)]> (t_nodes t)))) (file_of (t_store t) n) →
  wp (on_node a m) Q t.
Proof.
  intros Hn Hm. unfold on_node. wp_step. eapply wp_rd_node; [done|]. wp_step. wp_step.
  unfold wp in Hm. fold (fs_of (t_store t) n). change (Fs (t_store t) (n_info n)) with (fs_of (t_store t) n).
  change (File (fs_of (t_store t) n) (n_inode n)) with (file_of (t_store t) n).
  destruct (m (file_of (t_store t) n)) as [[r f]|]; [|done]. by wp_go.
Qed.

(** The first of the objects [l] that has the name, as far as they can tell. *)
Definition has_name (ds : gmap Z directory) (name : list Z) (a : Z) : Prop := dir_key <$> ds !! a = Some (name_key name).
#[local] Instance has_name_dec ds name a : Decision (has_name ds name a).
Proof. unfold has_name. apply _. Defined.
Definition first_child (ds : gmap Z directory) (l : list Z) (name : list Z) : option Z := head (filter (has_name ds name) l).

Definition objects (ds : gmap Z directory) (l : list Z) : Prop := Forall (λ a, ∃ d, ds !! a = Some d ∧ dir_obj d ∧ a ≠ 0) l.

Lemma find_child_ok l name t : objects (t_dirs t) l →
  find_child l name t = Ok (default 0 (first_child (t_dirs t) l name), t).
Proof.
  intros H. induction H as [|a l (d & Hd & Ho & Hz) _ IH]; [done|]. simpl. unfold first_child. rewrite filter_cons.
  erewrite bind_Ok by (unfold rd_dir, mbind, M_bind, get, deref; by rewrite Hd).
  assert (has_name (t_dirs t) name a ↔ dir_key d = name_key name) as Hh.
  { unfold has_name. rewrite Hd. simpl. split; congruence. }
  destruct (Z.eqb_spec (d_nameLen d) (len name)) as [E|E].
  - erewrite bind_Ok by (by apply dir_name_cmp_key). case_bool_decide as Hk.
    + rewrite decide_True by (by apply Hh). done.
    + rewrite decide_False by (by rewrite Hh). apply IH.
  - rewrite decide_False; [apply IH|]. rewrite Hh. unfold dir_key, name_key. congruence.
Qed.

Lemma wp_find_entry_cache a d name Q t : t_dirs t !! a = Some d → objects (t_dirs t) (d_child d) →
  Q (default 0 (first_child (t_dirs t) (d_child d) name)) t → wp (find_entry_cache a name) Q t.
Proof.
  intros Hd Ho HQ. unfold find_entry_cache. wp_step. eapply wp_rd_dir; [done|]. eapply wp_intro; [by apply find_child_ok|done].
Qed.

Lemma first_child_in ds l name a : first_child ds l name = Some a → a ∈ l ∧ has_name ds name a.
Proof.
  intros H. apply head_Some_elem_of in H. apply list_elem_of_filter in H. tauto.
Qed.

Lemma wp_directory_alloc name ino parent inode isb t : len name ≤ 128 →
  wp (directory_alloc junk raw dir_addr name ino parent inode isb) (λ a t', ∃ d, a = dir_addr t ∧
    t' = Tree (t_store t) (<[a := d]> (t_dirs t)) (t_nodes t) ∧ dir_obj d ∧ dir_key d = name_key name ∧
    d_ino d = ino ∧ d_inode d = inode ∧ d_parent d = parent ∧ d_child d = [] ∧ d_sb d = isb) t.
Proof.
  intros Hn. unfold directory_alloc. do 2 wp_step.
  destruct (dir_name_set_ok junk name (Directory ino inode (raw_name raw) None 0 parent [] isb) t Hn raw_len) as (d & E & Ho & Hk & E1 & E2 & E3 & E4 & E5).
  wp_step. eapply wp_intro; [exact E|]. unfold wr_dir. wp_go. exists d. by split_and!.
Qed.

Lemma wp_directory_cpy name ino parent p t : len name ≤ 128 → t_dirs t !! parent = Some p → d_sb p ≠ SbNull →
  wp (directory_cpy junk raw dir_addr name ino parent) (λ a t', ∃ d, a = dir_addr t ∧
    t' = Tree (t_store t) (<[a := d]> (t_dirs t)) (t_nodes t) ∧ dir_obj d ∧ dir_key d = name_key name ∧
    d_ino d = ino ∧ d_inode d = 0 ∧ d_parent d = parent ∧ d_child d = [] ∧ d_sb d = d_sb p) t.
Proof.
  intros Hn Hp Hs. unfold directory_cpy. do 2 wp_step.
  destruct (dir_name_set_ok junk name (Directory ino 0 (raw_name raw) None 0 parent [] SbNull) t Hn raw_len) as (d & E & Ho & Hk & E1 & E2 & E3 & E4 & E5).
  wp_step. eapply wp_intro; [exact E|]. wp_step. eapply wp_rd_dir; [exact Hp|]. wp_step. apply wp_assertk. split; [by rewrite bool_decide_false|].
  unfold wr_dir. wp_go. exists (with_d_sb (d_sb p) d). by split_and!.
Qed.

(** ** Looking up a name *)

(** The directory object [a] with its inode [P] in memory and its entries on the disk. *)
Record open_dir t (a : Z) (d : directory) (P : Z) (n : node) (bids : list Z) (ess : list (list dent)) : Prop := OpenDir {
  od_dir : t_dirs t !! a = Some d;
  od_node : t_nodes t !! P = Some n;
  od_inode : d_inode d = P;
  od_nz : P ≠ 0;
  od_back : n_dir n = a;
  od_kids : objects (t_dirs t) (d_child d);
  od_disk : dir_ok i (fs_of (t_store t) n) bids ess;
  od_fuel : (length bids < fuel)%nat }.

Lemma wp_mount_done now a d Q t : t_dirs t !! a = Some d → d_inode d ≠ 0 → Q tt t →
  wp (ext2_inode_mount i mark node_addr now a) Q t.
Proof.
  intros Hd Hz HQ. unfold ext2_inode_mount. wp_step. eapply wp_rd_dir; [done|]. wp_step.
  rewrite (proj2 (Z.eqb_neq _ _) Hz). wp_step. wp_step. eapply wp_rd_dir; [done|].
  apply wp_assertk. split; [by apply truth_true|done].
Qed.

Lemma node_id n : Node (n_inode n) (n_info n) (n_dir n) = n.
Proof. by destruct n. Qed.

(** Reading the entries of an open directory. *)
Lemma wp_lookup_disk t a d P n bids ess name Q : open_dir t a d P n bids ess →
  (∀ s', keeps (t_store t) s' → Q (first_ino name (all_names ess)) (Tree s' (t_dirs t) (t_nodes t))) →
  wp (on_node P (on_fs (find_entry_disk i fuel name))) Q t.
Proof.
  intros H HQ. eapply wp_on_node; [apply H|]. apply wp_on_fs.
  eapply wp_mono; [eapply (dir_find i G); [apply H|apply H]|].
  intros r f (-> & Ei & Hk). cbn [f_fs f_inode file_of]. rewrite Ei. cbn [info fs_of].
  rewrite node_id, insert_id by apply H. by apply HQ.
Qed.

(** A new directory object for a name in directory [a]. *)
Record entry_obj (a ino nd : Z) (name : list Z) (dn : directory) : Prop := EntryObj {
  eo_obj : dir_obj dn;
  eo_key : dir_key dn = name_key name;
  eo_ino : d_ino dn = ino;
  eo_inode : d_inode dn = nd;
  eo_parent : d_parent dn = a;
  eo_child : d_child dn = [] }.

Definition grown (t : @tree St) (s' : St) (a : Z) (d : directory) (r : Z) (dn : directory) : @tree St :=
  Tree s' (<[a := with_d_child (d_child d ++ [r]) d]> (<[r := dn]> (t_dirs t))) (t_nodes t).

(** What a lookup does that the cache could not answer. *)
Definition looked_up t (a : Z) (d : directory) (ess : list (list dent)) (name : list Z) (r : Z) t' : Prop :=
  ∃ s', keeps (t_store t) s' ∧
    match first_ino name (all_names ess) with
    | None => r = 0 ∧ t' = Tree s' (t_dirs t) (t_nodes t)
    | Some ino => r ≠ 0 ∧ t_dirs t !! r = None ∧ ∃ dn, (entry_obj a ino 0 name dn ∧ d_sb dn = d_sb d) ∧ t' = grown t s' a d r dn
    end.

Lemma wp_find_disk t a d P n bids ess name : open_dir t a d P n bids ess → len name ≤ 128 →
  (is_Some (first_ino name (all_names ess)) → d_sb d ≠ SbNull) →
  wp (p ← rd_dir a;
      ino ← on_node (d_inode p) (on_fs (find_entry_disk i fuel name));
      match ino with
      | None => mret 0
      | Some ino =>
          n ← rd_node (d_inode p);
          dir ← directory_cpy junk raw dir_addr name ino (n_dir n);
          add_child a dir;;
          mret dir
      end) (looked_up t a d ess name) t.
Proof.
  intros H Hn Hsb. wp_step. eapply wp_rd_dir; [apply H|]. wp_step. rewrite (od_inode _ _ _ _ _ _ _ H).
  eapply wp_lookup_disk; [exact H|]. intros s' Hk. unfold looked_up. destruct (first_ino name (all_names ess)) as [ino|].
  2:{ wp_step. by exists s'. }
  wp_step. eapply wp_rd_node; [apply H|]. wp_step. rewrite (od_back _ _ _ _ _ _ _ H).
  eapply wp_mono; [apply (wp_directory_cpy name ino a d (Tree s' (t_dirs t) (t_nodes t))); [done|apply H|by apply Hsb]|].
  intros r t' (dn & Er & -> & Ho & Hkey & E1 & E2 & E3 & E4 & E5).
  destruct (dir_fresh (Tree s' (t_dirs t) (t_nodes t))) as [Hz Hf]. rewrite <-Er in Hz, Hf. cbn [t_dirs] in Hf.
  wp_step. unfold add_child. eapply wp_upd_dir.
  { cbn [t_dirs]. rewrite lookup_insert_ne; [apply H|]. intros E. rewrite E in Hf. rewrite (od_dir _ _ _ _ _ _ _ H) in Hf. done. }
  wp_step. exists s'. split_and!; [done|done|done|]. exists dn. split; [|done]. split; [|done]. split; done.
Qed.

Lemma wp_find_miss now t a d P n bids ess name : open_dir t a d P n bids ess → len name ≤ 128 →
  (is_Some (first_ino name (all_names ess)) → d_sb d ≠ SbNull) → first_child (t_dirs t) (d_child d) name = None →
  wp (ext2_find i mark junk raw fuel dir_addr node_addr now a name) (looked_up t a d ess name) t.
Proof.
  intros H Hn Hsb Hc. unfold ext2_find. wp_step. eapply wp_find_entry_cache; [apply H|apply H|]. rewrite Hc. simpl.
  wp_step. eapply wp_mount_done; [apply H|rewrite (od_inode _ _ _ _ _ _ _ H); apply H|]. by eapply wp_find_disk.
Qed.

(** A directory object whose inode is on the disk only: one that a lookup made. *)
Record disk_dir t (now a : Z) (d : directory) (bids : list Z) (ess : list (list dent)) : Prop := DiskDir {
  dd_dir : t_dirs t !! a = Some d;
  dd_inode : d_inode d = 0;
  dd_parent : d_parent d ≠ 0;
  dd_sb : d_sb d = SbExt2;
  dd_kids : objects (t_dirs t) (d_child d);
  dd_ino : ino_ok i (d_ino d) ∧ bIno i (d_ino d) < 32;
  dd_disk : ∃ page, blk (t_store t) (tblk i (d_ino d)) = Some page ∧
    dir_ok i (Fs (t_store t) (read_inode (d_ino d) now page (128 * bIno i (d_ino d))).2) bids ess;
  dd_fuel : (length bids < fuel)%nat }.

(** The tree after the inode [n] of the directory [a] was read. *)
Definition mounted t (s' : St) (a : Z) (d : directory) (P : Z) (n : node) : @tree St :=
  Tree s' (<[a := with_d_inode P d]> (t_dirs t)) (<[P := n]> (t_nodes t)).

Lemma mounted_kids t (a : Z) d P l : t_dirs t !! a = Some d → objects (t_dirs t) l → objects (<[a := with_d_inode P d]> (t_dirs t)) l.
Proof.
  intros Hd H. eapply Forall_impl; [exact H|]. intros c (dc & Hdc & Ho & Hz). destruct (decide (c = a)) as [->|].
  - rewrite Hd in Hdc. injection Hdc as <-. exists (with_d_inode P d). by rewrite lookup_insert_eq.
  - exists dc. by rewrite lookup_insert_ne.
Qed.

Lemma wp_mount_read now t a d bids ess : disk_dir t now a d bids ess → a ≠ 0 →
  wp (ext2_inode_mount i mark node_addr now a) (λ _ t', ∃ s' P n, keeps (t_store t) s' ∧ t_nodes t !! P = None ∧
    t' = mounted t s' a d P n ∧ open_dir t' a (with_d_inode P d) P n bids ess) t.
Proof.
  intros H Haz. pose proof H as [Hd Hi Hp Hsb Hkids [Hino Hb] (pg & Hpg & Hok) Hfu]. destruct (node_fresh t) as [Hz Hf].
  unfold ext2_inode_mount. wp_step. eapply wp_rd_dir; [done|]. wp_step. rewrite Hi. apply wp_when. cbn [Z.eqb]. wp_step. apply wp_assertk.
  split; [rewrite (proj2 (truth_true _) Hp); by rewrite bool_decide_false by congruence|]. rewrite Hsb. cbn [use_sb]. do 4 wp_step.
  set (P := node_addr t) in *. wp_step. apply wp_on_st. eapply wp_mono; [eapply (wp_inode_cpy i G (mark P)); [apply mark_ok|apply Hok|done|done|exact Hpg]|].
  intros [x y] s' [Er Hk]. cbv beta iota. unfold wr_node. do 2 wp_step. wp_step. eapply wp_upd_dir; [exact Hd|]. wp_step.
  eapply wp_rd_node; [cbn [t_nodes]; apply lookup_insert_eq|]. cbn [n_dir]. apply wp_when. cbn [Z.eqb]. wp_step. cbn [t_dirs t_nodes t_store n_inode n_info].
  rewrite insert_insert_eq. wp_step. eapply wp_rd_dir; [cbn [t_dirs]; apply lookup_insert_eq|]. apply wp_assertk. split; [by apply truth_true|].
  exists s', P, (Node x y a). split_and!; [done|done|done|]. split; cbn [t_dirs t_nodes t_store mounted with_d_inode d_inode d_child n_dir].
  - apply lookup_insert_eq.
  - apply lookup_insert_eq.
  - done.
  - done.
  - done.
  - by apply mounted_kids.
  - unfold fs_of. cbn [n_info]. replace y with (read_inode (d_ino d) now pg (128 * bIno i (d_ino d))).2 by (by rewrite <-Er). by apply (dir_ok_keeps i _ bids ess s' Hok).
  - done.
Qed.

Lemma has_name_ext ds ds' name c : dir_key <$> ds' !! c = dir_key <$> ds !! c → has_name ds' name c ↔ has_name ds name c.
Proof. unfold has_name. by intros ->. Qed.

Lemma first_child_ext ds ds' l name : (∀ c, c ∈ l → dir_key <$> ds' !! c = dir_key <$> ds !! c) →
  first_child ds' l name = first_child ds l name.
Proof.
  intros H. unfold first_child. f_equal. induction l as [|c l IH]; [done|]. rewrite !filter_cons.
  rewrite IH by (intros c' ?; apply H; by right). 
  rewrite (decide_ext (has_name ds' name c) (has_name ds name c)); [done|]. apply has_name_ext, H. by left.
Qed.

Lemma first_child_snoc ds l name r : first_child ds l name = None → has_name ds name r → first_child ds (l ++ [r]) name = Some r.
Proof.
  unfold first_child. intros Hl Hr. rewrite filter_app. destruct (filter _ l); [|done]. simpl.
  by rewrite filter_cons, decide_True.
Qed.

(** The children of the directory after the new object was added. *)
Lemma grown_first t s' a d P n bids ess r dn name : open_dir t a d P n bids ess → t_dirs t !! r = None →
  dir_key dn = name_key name → first_child (t_dirs t) (d_child d) name = None →
  first_child (t_dirs (grown t s' a d r dn)) (d_child d ++ [r]) name = Some r.
Proof.
  intros H Hr Hk Hc. assert (a ≠ r) as Har by (intros ->; rewrite (od_dir _ _ _ _ _ _ _ H) in Hr; done).
  apply first_child_snoc.
  - rewrite <-Hc. apply first_child_ext. intros c Hin. cbn [t_dirs grown].
    pose proof (proj1 (Forall_forall _ _) (od_kids _ _ _ _ _ _ _ H) c Hin) as (dc & Hdc & _).
    destruct (decide (c = a)) as [->|].
    + rewrite lookup_insert_eq. by rewrite (od_dir _ _ _ _ _ _ _ H).
    + rewrite lookup_insert_ne by done. rewrite lookup_insert_ne; [done|]. intros ->. congruence.
  - unfold has_name. cbn [t_dirs grown]. rewrite lookup_insert_ne, lookup_insert_eq by done. simpl. by rewrite Hk.
Qed.

Lemma grown_objects t s' a d P n bids ess r dn : open_dir t a d P n bids ess → t_dirs t !! r = None → r ≠ 0 →
  dir_obj dn → dir_obj d → objects (t_dirs (grown t s' a d r dn)) (d_child d ++ [r]).
Proof.
  intros H Hr Hz Ho Hod. assert (a ≠ r) as Har by (intros ->; rewrite (od_dir _ _ _ _ _ _ _ H) in Hr; done).
  unfold objects. cbn [t_dirs grown]. apply Forall_app. split.
  - eapply Forall_impl; [apply (od_kids _ _ _ _ _ _ _ H)|]. intros c (dc & Hdc & Hoc & Hcz).
    destruct (decide (c = a)) as [->|].
    + rewrite lookup_insert_eq. eexists. split_and!; [done|exact Hod|done].
    + exists dc. rewrite !lookup_insert_ne; [done| |done]. intros ->. congruence.
  - apply Forall_singleton. exists dn. rewrite lookup_insert_ne, lookup_insert_eq by done. done.
Qed.

Abbreviation find := (ext2_find i mark junk raw fuel dir_addr node_addr).

Lemma find_hit now t a d name r : t_dirs t !! a = Some d → objects (t_dirs t) (d_child d) →
  first_child (t_dirs t) (d_child d) name = Some r → find now a name t = Ok (r, t).
Proof.
  intros Hd Hkids Hr. destruct (wp_elim (find now a name) (λ r' t', r' = r ∧ t' = t) t) as (r' & t' & E & -> & ->); [|done].
  unfold ext2_find. wp_step. eapply wp_find_entry_cache; [done|done|]. rewrite Hr. simpl.
  destruct (first_child_in _ _ _ _ Hr) as [Hin _].
  pose proof (proj1 (Forall_forall _ _) Hkids r Hin) as (dc & _ & _ & Hz).
  rewrite (proj2 (truth_true r) Hz). by wp_step.
Qed.

Lemma open_hit now t a d P n bids ess name r : open_dir t a d P n bids ess →
  first_child (t_dirs t) (d_child d) name = Some r → find now a name t = Ok (r, t).
Proof. intros H. apply find_hit; apply H. Qed.

Lemma grown_open t s' a d P n bids ess r dn : open_dir t a d P n bids ess → keeps (t_store t) s' →
  t_dirs t !! r = None → r ≠ 0 → dir_obj dn → dir_obj d →
  open_dir (grown t s' a d r dn) a (with_d_child (d_child d ++ [r]) d) P n bids ess.
Proof.
  intros H Hk Hr Hz Ho Hod. split.
  - cbn [t_dirs grown]. apply lookup_insert_eq.
  - apply H.
  - apply H.
  - apply H.
  - apply H.
  - eapply grown_objects; [exact H|done|done|done|done].
  - cbn [t_store grown]. eapply (dir_ok_keeps i (fs_of (t_store t) n)); [apply H|exact Hk].
  - apply H.
Qed.

(** The lookup of a name that no cached child has, whether or not the inode of the
    directory is in memory. *)
Lemma find_read now t a d bids ess name : disk_dir t now a d bids ess → a ≠ 0 → len name ≤ 128 →
  first_child (t_dirs t) (d_child d) name = None →
  wp (find now a name) (λ r t', ∃ s1 P n, keeps (t_store t) s1 ∧ t_nodes t !! P = None ∧
    let t1 := mounted t s1 a d P n in open_dir t1 a (with_d_inode P d) P n bids ess ∧ looked_up t1 a (with_d_inode P d) ess name r t') t.
Proof.
  intros H Haz Hn Hc. unfold ext2_find. wp_step. eapply wp_find_entry_cache; [apply H|apply H|]. rewrite Hc. simpl.
  wp_step. eapply wp_mono; [by eapply wp_mount_read|]. intros [] t1 (s1 & P & n & Hk & HP & -> & Hop).
  eapply wp_mono; [eapply wp_find_disk; [exact Hop|done|intros _; cbn; by rewrite (dd_sb _ _ _ _ _ _ H)]|].
  intros r t' Hl. exists s1, P, n. by split_and!.
Qed.

(** What is in memory after a lookup that the cache could not answer. *)
Lemma looked_up_found now' t a d P n bids ess name r t' : open_dir t a d P n bids ess → dir_obj d →
  first_child (t_dirs t) (d_child d) name = None → looked_up t a d ess name r t' →
  (∀ b, blk (t_store t') b = blk (t_store t) b) ∧ t_nodes t' = t_nodes t ∧ (∀ c, c ≠ a → c ≠ r → t_dirs t' !! c = t_dirs t !! c) ∧
  match first_ino name (all_names ess) with
  | Some ino => t_dirs t !! r = None ∧ t_dirs t' !! a = Some (with_d_child (d_child d ++ [r]) d) ∧
      ∃ dn, t_dirs t' !! r = Some dn ∧ entry_obj a ino 0 name dn ∧ d_sb dn = d_sb d
  | None => r = 0 ∧ t_dirs t' !! a = Some d
  end ∧ (r ≠ 0 → find now' a name t' = Ok (r, t')).
Proof.
  intros H Hod Hc (s' & Hk & Hm). destruct (first_ino name (all_names ess)) as [ino|].
  - destruct Hm as (Hz & Hr & dn & [He Hs] & ->). pose proof (eo_obj _ _ _ _ _ He) as Ho.
    assert (a ≠ r) as Har by (intros ->; rewrite (od_dir _ _ _ _ _ _ _ H) in Hr; done).
    split_and!; [intros b; apply Hk|done| |done|apply lookup_insert_eq| |].
    + intros c Hca Hcr. cbn [t_dirs grown]. by rewrite !lookup_insert_ne by done.
    + exists dn. split; [|done]. cbn [t_dirs grown]. by rewrite lookup_insert_ne, lookup_insert_eq.
    + intros _. eapply open_hit; [by eapply grown_open|]. cbn [d_child with_d_child].
      eapply grown_first; [exact H|done|apply He|done].
  - destruct Hm as [-> ->]. split_and!; try done; [intros b; apply Hk|apply H].
Qed.

(** C10: [ext2_find] of a name in a directory of at most twelve blocks ends.  The inode of
    the directory is in memory, or it is one of the first 32 of its group and is read from
    the disk when the cache cannot answer.  [ext2_find] answers the first cached child that
    has the name; if there is none, a new object for the first entry on the disk that has
    it, which is then the last child of the directory with the inode number of the entry and
    the super block of the directory; NULL if neither has it.  No block, no inode that was
    in memory and no other object changes, and looking the name up again answers the same
    object at once. *)
Theorem ext2_find_correct now now' t a d bids ess name :
  (∃ P n, open_dir t a d P n bids ess ∧ d_sb d = SbExt2) ∨ disk_dir t now a d bids ess → a ≠ 0 → dir_obj d → len name ≤ 128 →
  wp (find now a name) (λ r t',
    (∀ b, blk (t_store t') b = blk (t_store t) b) ∧ (∀ Q n, t_nodes t !! Q = Some n → t_nodes t' !! Q = Some n) ∧
    (∀ c, c ≠ a → c ≠ r → t_dirs t' !! c = t_dirs t !! c) ∧
    match first_child (t_dirs t) (d_child d) name, first_ino name (all_names ess) with
    | Some c, _ => r = c ∧ t' = t
    | None, Some ino => t_dirs t !! r = None ∧ (d_child <$> t_dirs t' !! a) = Some (d_child d ++ [r]) ∧
        ∃ dn, t_dirs t' !! r = Some dn ∧ entry_obj a ino 0 name dn ∧ d_sb dn = SbExt2
    | None, None => r = 0 ∧ (d_child <$> t_dirs t' !! a) = Some (d_child d)
    end ∧ (r ≠ 0 → find now' a name t' = Ok (r, t'))) t.
Proof.
  intros H Haz Hod Hn. assert (t_dirs t !! a = Some d ∧ objects (t_dirs t) (d_child d)) as [Hd Hkids] by (destruct H as [(P & n & [? _ _ _ _ ? _ _] & _)|[]]; done).
  destruct (first_child (t_dirs t) (d_child d) name) as [c|] eqn:Hc.
  { eapply wp_intro; [by apply (find_hit now t a d)|]. split_and!; try done. intros _. by apply (find_hit now' t a d). }
  destruct H as [(P & n & H & Hsb)|H].
  - eapply wp_mono; [eapply (wp_find_miss now t a d P n bids ess); [exact H|done|intros _; congruence|done]|]. intros r t' Hl.
    destruct (looked_up_found now' _ _ _ _ _ _ _ _ _ _ H Hod Hc Hl) as (H1 & -> & H3 & H4 & H5). rewrite Hsb in H4.
    split_and!; try done. destruct (first_ino name (all_names ess)); [destruct H4 as (? & -> & ?)|destruct H4 as (? & ->)]; done.
  - eapply wp_mono; [by apply (find_read now t a d bids ess)|]. intros r t' (s1 & P & n & Hk & HP & Hop & Hl).
    assert (first_child (t_dirs (mounted t s1 a d P n)) (d_child (with_d_inode P d)) name = None) as Hc1.
    { rewrite <-Hc. apply first_child_ext. intros c _. cbn [t_dirs mounted]. destruct (decide (c = a)) as [->|]; [by rewrite lookup_insert_eq, Hd|by rewrite lookup_insert_ne]. }
    destruct (looked_up_found now' _ _ _ _ _ _ _ _ _ _ Hop Hod Hc1 Hl) as (H1 & H2 & H3 & H4 & H5). cbn [d_sb d_child with_d_inode t_dirs t_nodes t_store mounted] in *.
    rewrite (dd_sb _ _ _ _ _ _ H) in H4. split_and!; [| | | |done].
    + intros b. rewrite H1. apply Hk.
    + intros Q nq HQ. rewrite H2, lookup_insert_ne; [done|]. congruence.
    + intros c Hca Hcr. rewrite H3 by done. by rewrite lookup_insert_ne.
    + destruct (first_ino name (all_names ess)); [destruct H4 as (Hr & -> & ?)|destruct H4 as (? & ->)]; [|done]. split_and!; [|done|done].
      destruct (decide (r = a)) as [->|]; [by rewrite lookup_insert_eq in Hr|by rewrite lookup_insert_ne in Hr].
Qed.

(** Where the object of a directory has no super block, the first lookup of a name that is
    on the disk and not in the cache panics.  [inode_alloc] makes the object of a new
    directory before it sets the super block of the inode, so that this object has
    whatever the new inode held. *)
Theorem find_without_sb now t a d P n bids ess name ino :
  open_dir t a d P n bids ess → d_sb d = SbNull → len name ≤ 128 →
  first_child (t_dirs t) (d_child d) name = None → first_ino name (all_names ess) = Some ino → find now a name t = Err Assert.
Proof.
  intros H Hsb Hn Hc Hi. unfold ext2_find.
  apply bind_wp_Err. eapply wp_find_entry_cache; [apply H|apply H|]. rewrite Hc. simpl.
  apply bind_wp_Err. eapply wp_mount_done; [apply H|rewrite (od_inode _ _ _ _ _ _ _ H); apply H|].
  apply bind_wp_Err. eapply wp_rd_dir; [apply H|]. rewrite (od_inode _ _ _ _ _ _ _ H).
  apply bind_wp_Err. eapply wp_lookup_disk; [exact H|]. intros s' Hk. rewrite Hi.
  apply bind_wp_Err. eapply wp_rd_node; [apply H|]. rewrite (od_back _ _ _ _ _ _ _ H). apply bind_Err. unfold directory_cpy.
  apply bind_wp_Err. wp_step. destruct (dir_name_set_ok junk name (Directory ino 0 (raw_name raw) None 0 a [] SbNull) (Tree s' (t_dirs t) (t_nodes t)) Hn raw_len) as (dn & E & _).
  rewrite (bind_Ok _ _ _ _ _ E). apply bind_wp_Err. eapply wp_rd_dir; [apply H|]. apply bind_Err. by rewrite Hsb.
Qed.

(** ** Making a file *)

Hypothesis IG : igeometry i.

Abbreviation isdir mode := (u16 (Z.land mode (Z.lnot 0xfff)) =? EXT2_IFDIR).
Abbreviation new_no bit g := (bit + 1 + g * 32768).

Lemma wp_new_inode now t P n a bids ess mode name : t_nodes t !! P = Some n → n_dir n = a →
  parent_ok i fuel (n_inode n) (fs_of (t_store t) n) bids ess → iroom i (t_store t) → len name ≤ 128 →
  u16 (Z.land mode (Z.lnot 0xfff)) = EXT2_IFREG ∨ u16 (Z.land mode (Z.lnot 0xfff)) = EXT2_IFDIR →
  wp (new_inode i junk raw fuel dir_addr node_addr now P mode name) (λ a' t', ∃ g bit s' c dn,
    itaken i (t_store t) s' g bit (isdir mode) ∧ a' ≠ 0 ∧ t_nodes t !! a' = None ∧ c ≠ 0 ∧ t_dirs t !! c = None ∧
    entry_obj a (new_no bit g) a' name dn ∧ d_sb dn = raw_sb raw ∧
    t' = Tree s' (<[c := dn]> (t_dirs t))
           (<[a' := Node (new_file (new_no bit g) mode now) (InodeInfo 0 (replicate 15 0)) c]> (t_nodes t))) t.
Proof.
  intros Hn Ha Hp Hr Hl Hm. unfold new_inode. wp_step. eapply wp_rd_node; [done|]. do 2 wp_step.
  destruct (node_fresh t) as [Hz Hf]. set (a' := node_addr t) in *.
  wp_step. eapply wp_on_node; [done|]. apply wp_on_fs. eapply wp_mono; [by eapply wp_inode_alloc|].
  intros r f (g & bit & Ei & Ht & ->). cbn [f_fs f_inode file_of]. rewrite Ei. cbn [info fs_of].
  rewrite node_id, insert_id by done. wp_step.
  eapply wp_mono; [by apply wp_directory_alloc|]. intros c t1 (dn & Ec & -> & Ho & Hk & E1 & E2 & E3 & E4 & E5).
  destruct (dir_fresh (Tree (store f) (t_dirs t) (t_nodes t))) as [Hcz Hcf]. rewrite <-Ec in Hcz, Hcf.
  wp_step. unfold wr_node. wp_go. exists g, bit, (store f), c, dn. split_and!; try done. split; try done. by rewrite E3.
Qed.

Lemma wp_append_link t P n a d c dn ino nd name ty ft bids ess : t_nodes t !! P = Some n → n_dir n = a →
  t_dirs t !! a = Some d → t_dirs t !! c = Some dn → entry_obj a ino nd name dn →
  Forall byte_ok name → Forall (λ x, x ≠ 0) name → len name ≤ 40 → 0 < ino < 2 ^ 32 →
  type_inode2dir ty = Some ft → 0 ≤ ft < 256 →
  dir_ok i (fs_of (t_store t) n) bids ess → (length bids < 12)%nat → (length bids < fuel)%nat →
  alloc_ready i (fs_of (t_store t) n) (len bids) → i_size (n_inode n) = 4096 * len bids →
  wp (append_link_to_parent i junk fuel P c ty) (λ _ t', ∃ size' f',
    entered i ino name ft (fs_of (t_store t) n) bids ess size' f' ∧
    t' = Tree (store f') (<[a := with_d_child (d_child d ++ [c]) d]> (t_dirs t))
           (<[P := Node (with_i_size size' (n_inode n)) (info f') a]> (t_nodes t))) t.
Proof.
  intros Hn Ha Hd Hc He Hb Hnz Hl Hino Hty Hft Hok H12 Hfu Har Hs. unfold append_link_to_parent.
  wp_step. wp_step; [done|]. wp_step. eapply wp_rd_dir; [done|]. wp_step.
  eapply wp_intro; [eapply (dir_name_dump_short junk dn name); [apply He|apply He|done|done]|].
  wp_step. unfold enter_name. rewrite c_string_app by done. rewrite (eo_ino _ _ _ _ _ He).
  eapply wp_on_node; [done|]. wp_step. unfold the_inode. wp_step. wp_step. apply wp_on_fs. cbn [f_inode file_of].
  rewrite Hs. eapply wp_mono; [apply (dir_create i G); [done|done|done|lia|done|done|done|done]|].
  intros size' f' He'. unfold set_ino. wp_step. cbn [f_fs f_inode]. wp_step. eapply wp_rd_node; [cbn [t_nodes]; apply lookup_insert_eq|].
  cbn [n_dir]. rewrite Ha. eapply wp_upd_dir; [exact Hd|]. exists size', f'. split; [done|]. done.
Qed.

(** A directory a file can be made in. *)
Record can_create t (a : Z) (d : directory) (P : Z) (n : node) (bids : list Z) (ess : list (list dent)) : Prop := CanCreate {
  cc_open : open_dir t a d P n bids ess;
  cc_obj : dir_obj d;
  cc_parent : parent_ok i fuel (n_inode n) (fs_of (t_store t) n) bids ess;
  cc_size : i_size (n_inode n) = 4096 * len bids;
  cc_blocks : (length bids < 12)%nat;
  cc_ready : alloc_ready i (fs_of (t_store t) n) (len bids);
  cc_iroom : iroom i (t_store t);
  cc_ibm : ∀ g b, 0 ≤ g < groupCnt i → ibitmap_block i g b → live i (t_store t) b ∧ b ∉ bids }.

(** A name the file system can keep. *)
Definition good_name (name : list Z) : Prop := Forall byte_ok name ∧ Forall (λ x, x ≠ 0) name ∧ name ≠ [] ∧ len name ≤ 40.

Hypothesis fuel_ok : (12 < fuel)%nat.

Lemma entered_other f bids ess ino name ft size' f' b : entered i ino name ft f bids ess size' f' →
  live i (store f) b → b ∉ bids → blk (store f') b = blk (store f) b.
Proof.
  intros (bids' & ess' & _ & _ & Ho & Hb & _) Hl Hn. apply Ho; [done|].
  destruct Hb as [->|(bid & -> & Hu)]; [done|]. rewrite elem_of_app, list_elem_of_singleton.
  intros [?| ->]; [done|]. destruct Hl as (_ & _ & Hl & _). congruence.
Qed.

Lemma ibit_blk s s' g k : (∀ b, ibitmap_block i g b → blk s' b = blk s b) → ibit i s' g k = ibit i s g k.
Proof.
  intros H. unfold ibit. destruct (desc i !! Z.to_nat g) as [d|] eqn:Hd; simpl; [|done]. rewrite H; [done|]. by exists d.
Qed.

Lemma new_no_range g bit : 0 ≤ g < groupCnt i → 0 ≤ bit < isearch i → 0 < new_no bit g < 2 ^ 32.
Proof. intros. destruct (isearch_range i IG) as (? & _). pose proof (g_cnt i G). lia. Qed.

(** The tree after the name [name] for the new inode [a'] with the directory object [c]
    was put into directory [a]. *)
Definition with_entry t (s' : St) (a : Z) (d : directory) (P : Z) (n' : node) (c : Z) (dn : directory) (a' : Z) (nn : node) : @tree St :=
  Tree s' (<[a := with_d_child (d_child d ++ [c]) d]> (<[c := dn]> (t_dirs t))) (<[P := n']> (<[a' := nn]> (t_nodes t))).

Lemma entry_open t a d P n bids ess f' c dn a' nn bids' ess' size' name : open_dir t a d P n bids ess → dir_obj d →
  t_dirs t !! c = None → c ≠ 0 → dir_obj dn → P ≠ a' → dir_ok i f' bids' ess' → (length bids' < fuel)%nat →
  dir_key dn = name_key name → first_child (t_dirs t) (d_child d) name = None →
  let t' := with_entry t (store f') a d P (Node (with_i_size size' (n_inode n)) (info f') a) c dn a' nn in
  open_dir t' a (with_d_child (d_child d ++ [c]) d) P (Node (with_i_size size' (n_inode n)) (info f') a) bids' ess' ∧
  first_child (t_dirs t') (d_child d ++ [c]) name = Some c ∧ t_nodes t' !! a' = Some nn ∧ t_dirs t' !! c = Some dn.
Proof.
  intros H Hod Hc Hcz Ho Hpa Hok Hf Hk Hfc t'. assert (a ≠ c) as Hac by (intros ->; rewrite (od_dir _ _ _ _ _ _ _ H) in Hc; done).
  split_and!.
  - split; unfold t', with_entry; cbn [t_dirs t_nodes t_store]; try apply H; try done.
    + apply lookup_insert_eq.
    + apply lookup_insert_eq.
    + eapply (grown_objects t (t_store t)); [exact H|done..].
    + unfold fs_of. cbn [n_info]. by destruct f'.
  - eapply (grown_first t (t_store t)); [exact H|done..].
  - unfold t', with_entry. cbn [t_nodes]. by rewrite lookup_insert_ne, lookup_insert_eq.
  - unfold t', with_entry. cbn [t_dirs]. by rewrite lookup_insert_ne, lookup_insert_eq.
Qed.

(** What making an entry for a new inode achieves: the first free inode of some group
    is taken, the name is in the directory between the names it had, and the objects of
    the inode [a'] and of the directory entry [c] are in memory and found by the name. *)
Definition made t (a : Z) (d : directory) (P : Z) (ess : list (list dent)) (name : list Z)
    (x : Z → inode) (y : inode_info) (ft : Z) (t' : @tree St) : Prop :=
  ∃ g bit a' c dn d' n' bids' ess',
    (0 ≤ g < groupCnt i ∧ 0 ≤ bit) ∧ (∀ k, 0 ≤ k ≤ bit → ibit i (t_store t) g k = Some (negb (k =? bit))) ∧
    ibit i (t_store t') g bit = Some true ∧
    t_nodes t !! a' = None ∧ t_nodes t' !! a' = Some (Node (x (new_no bit g)) y c) ∧
    t_dirs t !! c = None ∧ t_dirs t' !! c = Some dn ∧ entry_obj a (new_no bit g) a' name dn ∧ d_sb dn = raw_sb raw ∧
    open_dir t' a d' P n' bids' ess' ∧ d_child d' = d_child d ++ [c] ∧
    (∃ l1 l2, all_names ess = l1 ++ l2 ∧ all_names ess' = l1 ++ (name, (new_no bit g, ft)) :: l2) ∧
    ∀ now', find now' a name t' = Ok (c, t').

Lemma cc_keeps t s' a d P n bids ess : keeps (t_store t) s' → can_create t a d P n bids ess →
  can_create (Tree s' (t_dirs t) (t_nodes t)) a d P n bids ess.
Proof.
  intros Hk [H1 H2 H3 H4 H5 H6 H7 H8]. split; try done.
  - destruct H1 as [D1 D2 D3 D4 D5 D6 D7 D8]. split; try done. by eapply (dir_ok_keeps i (fs_of (t_store t) n)).
  - by eapply (parent_keeps i _ _ (fs_of (t_store t) n)).
  - apply (ready_after i G (fs_of (t_store t) n)); [lia|done|done].
  - by eapply iroom_keeps.
  - intros g b Hg Hb. destruct (H8 g b Hg Hb) as [Hl Hn]. split; [|done].
    destruct Hl as (? & ? & Hu & ?). split_and!; [done|lia|lia| |done]. cbn [t_store]. by rewrite (keeps_used i _ _ b Hk).
Qed.

(** The state after the inode was taken, the name entered and the new inode marked. *)
Lemma made_intro t a d P n bids ess name x y ft g bit isDir s2 c dn a' size' f' s5 :
  can_create t a d P n bids ess → first_child (t_dirs t) (d_child d) name = None →
  itaken i (t_store t) s2 g bit isDir → t_nodes t !! a' = None → c ≠ 0 → t_dirs t !! c = None →
  entry_obj a (new_no bit g) a' name dn → d_sb dn = raw_sb raw → entered i (new_no bit g) name ft (Fs s2 (n_info n)) bids ess size' f' →
  keeps (store f') s5 →
  made t a d P ess name x y ft
    (with_entry t s5 a d P (Node (with_i_size size' (n_inode n)) (info f') a) c dn a' (Node (x (new_no bit g)) y c)).
Proof.
  intros Hcc Hfc Ht Ha' Hcz Hc He Hsb Hen Hk. pose proof Hen as (bids' & ess' & Hok & Hsz & Ho & Hb & Hnames).
  destruct (it_group _ _ _ _ _ _ Ht) as [Hg Hbit]. destruct (isearch_range i IG) as (Hs & _).
  assert (length bids' < fuel)%nat as Hf.
  { pose proof (cc_blocks _ _ _ _ _ _ _ Hcc). destruct Hb as [-> |(? & -> & _)]; rewrite ?length_app; simpl; lia. }
  destruct (entry_open t a d P n bids ess (Fs s5 (info f')) c dn a' (Node (x (new_no bit g)) y c) bids' ess' size' name) as (Hod & Hfc' & Hn' & Hd');
    [apply Hcc|apply Hcc|done|done|apply He| |by eapply dir_ok_keeps|done|apply He|done|].
  { intros ->. rewrite (od_node _ _ _ _ _ _ _ (cc_open _ _ _ _ _ _ _ Hcc)) in Ha'. done. }
  cbn [store info] in *.
  do 9 eexists. split_and!; [apply Hg|apply Hg|apply Hbit|apply Ht| |done|exact Hn'|done|exact Hd'|exact He|exact Hsb|exact Hod|done|exact Hnames|].
  - cbn [t_store with_entry]. rewrite (ibit_keeps i _ _ _ _ Hk). rewrite (ibit_blk s2).
    + destruct (it_bits _ _ _ _ _ _ Ht g bit Hg) as (b & _ & ->); [lia|]. by rewrite !Z.eqb_refl, orb_true_r.
    + intros b Hbm. destruct (cc_ibm _ _ _ _ _ _ _ Hcc g b Hg Hbm) as [Hl Hn].
      apply (entered_other _ _ _ _ _ _ _ _ _ Hen); [by eapply itaken_live|done].
  - intros now'. eapply open_hit; [exact Hod|]. exact Hfc'.
Qed.

(** The name of a new inode goes into the directory. *)
Lemma wp_append_new t a d P n bids ess name g bit isDir s2 c dn a' nn ty ft : can_create t a d P n bids ess →
  good_name name → itaken i (t_store t) s2 g bit isDir → t_nodes t !! a' = None → t_dirs t !! c = None →
  entry_obj a (new_no bit g) a' name dn → type_inode2dir ty = Some ft → 0 ≤ ft < 256 →
  wp (append_link_to_parent i junk fuel P c ty) (λ _ t', ∃ size' f',
      entered i (new_no bit g) name ft (Fs s2 (n_info n)) bids ess size' f' ∧
      t' = with_entry t (store f') a d P (Node (with_i_size size' (n_inode n)) (info f') a) c dn a' nn)
    (Tree s2 (<[c := dn]> (t_dirs t)) (<[a' := nn]> (t_nodes t))).
Proof.
  intros Hcc (Hby & Hnz & _ & Hl) Ht Ha' Hc He Hty Hft. pose proof (cc_open _ _ _ _ _ _ _ Hcc) as Hop.
  destruct (it_group _ _ _ _ _ _ Ht) as [Hg Hbit].
  assert (P ≠ a') as Hpa by (intros ->; rewrite (od_node _ _ _ _ _ _ _ Hop) in Ha'; done).
  assert (a ≠ c) as Hac by (intros ->; rewrite (od_dir _ _ _ _ _ _ _ Hop) in Hc; done).
  set (t1 := Tree s2 (<[c := dn]> (t_dirs t)) (<[a' := nn]> (t_nodes t))).
  eapply wp_mono; [apply (wp_append_link t1 P n a d c dn (new_no bit g) a' name ty ft bids ess)
                  |intros [] t' (size' & f' & Hen & ->); exists size', f'; split; [exact Hen|reflexivity]];
    cbn [t1 t_nodes t_dirs t_store].
  - rewrite lookup_insert_ne by done. apply Hop.
  - apply Hop.
  - rewrite lookup_insert_ne by done. apply Hop.
  - apply lookup_insert_eq.
  - exact He.
  - exact Hby.
  - exact Hnz.
  - exact Hl.
  - by apply new_no_range.
  - exact Hty.
  - exact Hft.
  - eapply (itaken_dir_ok i G IG (fs_of (t_store t) n)); [apply Hop|exact Ht|].
    intros b Hb Hi. by destruct (cc_ibm _ _ _ _ _ _ _ Hcc g b Hg Hi).
  - apply Hcc.
  - apply Hop.
  - eapply (itaken_ready i G IG (fs_of (t_store t) n)); [pose proof (cc_blocks _ _ _ _ _ _ _ Hcc); lia|exact Ht|apply Hcc].
  - apply Hcc.
Qed.

Lemma made_keeps t s1 a d P ess name x y ft t' : keeps (t_store t) s1 →
  made (Tree s1 (t_dirs t) (t_nodes t)) a d P ess name x y ft t' → made t a d P ess name x y ft t'.
Proof.
  intros Hk (g & bit & a' & c & dn & d' & n' & bids' & ess' & Hg & Hb & H). exists g, bit, a', c, dn, d', n', bids', ess'.
  split; [done|]. split; [|exact H]. intros k Hk'. by rewrite <-(ibit_keeps i _ _ g k Hk), Hb.
Qed.


(** ** Links *)

(** The object [c] of a cached entry of directory [a] under [name]. *)
Definition cached_entry t (a c nd : Z) (name : list Z) (dn : directory) : Prop :=
  t_dirs t !! c = Some dn ∧ dir_obj dn ∧ dir_key dn = name_key name ∧ d_parent dn = a ∧ d_inode dn = nd.

Lemma wp_remove_name t a d P n bids ess c nd name dn Q : open_dir t a d P n bids ess → cached_entry t a c nd name dn →
  len name ≤ 40 →
  (∀ s' ess', dir_ok i (Fs s' (n_info n)) bids ess' →
    ((name ∉ (all_names ess).*1) ∧ ess' = ess ∨
     ∃ l1 x l2, all_names ess = l1 ++ (name, x) :: l2 ∧ (name ∉ l1.*1) ∧ all_names ess' = l1 ++ l2) →
    Q tt (Tree s' (t_dirs t) (t_nodes t))) →
  wp (remove_name i junk fuel P c) Q t.
Proof.
  intros H (Hc & Ho & Hk & _) Hl HQ. unfold remove_name. wp_step. eapply wp_rd_dir; [done|].
  wp_step. eapply wp_intro; [by apply (dir_name_dump_short junk dn name)|].
  assert (take (Z.to_nat (d_nameLen dn)) (name ++ [0]) = name) as ->.
  { injection Hk as -> _. by rewrite Nat2Z.id, take_app_length. }
  eapply wp_on_node; [apply H|]. apply wp_on_fs. eapply wp_mono; [eapply (dir_remove i G); [apply H|apply H]|].
  intros [] f (ess' & Hok & Ei & _ & Hcase). cbn [f_fs f_inode file_of]. rewrite Ei. cbn [info fs_of].
  rewrite node_id, insert_id by apply H. eapply HQ; [|exact Hcase]. destruct f as [sf inf]. cbn [info store] in *. by subst inf.
Qed.

(** [ext2_unlink] of one of several names of a file.  The name goes from the disk
    and the file loses a link, but its directory object stays among the children of the
    directory, so that the name is found as before. *)
Theorem unlink_stays_cached now now' t a d P n bids ess c Q nq name dn :
  open_dir t a d P n bids ess → cached_entry t a c Q name dn → len name ≤ 40 →
  first_child (t_dirs t) (d_child d) name = Some c →
  t_nodes t !! Q = Some nq → Q ≠ 0 → Q ≠ P → a ≠ 0 → ext2_is_dir (n_inode nq) = false → 2 ≤ i_linkCnt (n_inode nq) < 2 ^ 16 →
  wp (ext2_unlink i mark junk fuel node_addr now c) (λ r t', r = 0 ∧
    (∃ n1, t_nodes t' !! Q = Some n1 ∧ i_linkCnt (n_inode n1) = i_linkCnt (n_inode nq) - 1) ∧
    (∃ ess', open_dir t' a d P n bids ess' ∧
      (NoDup (all_names ess).*1 → first_ino name (all_names ess') = None)) ∧
    find now' a name t' = Ok (c, t')) t.
Proof.
  intros H Hce Hl Hfc Hq Hqz Hqp Haz Hdir Hlc. pose proof Hce as (Hc & Ho & Hk & Hpa & Hnd). unfold ext2_unlink.
  destruct (first_child_in _ _ _ _ Hfc) as [Hin _].
  pose proof (proj1 (Forall_forall _ _) (od_kids _ _ _ _ _ _ _ H) c Hin) as (dc & _ & _ & Hcz).
  wp_step. apply wp_assertk. split; [by apply truth_true|]. wp_step. eapply wp_rd_dir; [done|].
  wp_step. apply wp_assertk. split; [apply truth_true; congruence|].
  wp_step. eapply wp_mount_done; [done|congruence|]. wp_step. eapply wp_rd_dir; [done|]. rewrite Hnd.
  wp_step. eapply wp_rd_node; [done|]. rewrite Hdir. wp_step. rewrite Hpa.
  eapply wp_mount_done; [apply H|rewrite (od_inode _ _ _ _ _ _ _ H); apply H|]. wp_step. eapply wp_rd_dir; [apply H|].
  rewrite (od_inode _ _ _ _ _ _ _ H). wp_step. eapply wp_upd_inode; [done|].
  set (n1 := Node _ _ _). assert (open_dir (Tree (t_store t) (t_dirs t) (<[Q := n1]> (t_nodes t))) a d P n bids ess) as H1.
  { destruct H as [D1 D2 D3 D4 D5 D6 D7 D8]. split; try done. cbn [t_nodes]. by rewrite lookup_insert_ne. }
  wp_step. eapply (wp_remove_name _ a d P n bids ess c Q name dn); [exact H1|done|done|]. intros s' ess' Hok Hcase.
  wp_step. eapply wp_rd_node; [cbn [t_nodes]; apply lookup_insert_eq|]. unfold n1 at 1. cbn [n_inode i_linkCnt with_i_linkCnt].
  rewrite u16_small by lia. rewrite (proj2 (Z.eqb_neq _ _)) by lia. cbn [t_store t_dirs t_nodes].
  wp_step. apply wp_on_st. eapply wp_mono; [apply mark_ok; apply Hok|]. intros [] s'' Hk''. wp_step.
  assert (open_dir (Tree s'' (t_dirs t) (<[Q := n1]> (t_nodes t))) a d P n bids ess') as H2.
  { destruct H1 as [D1 D2 D3 D4 D5 D6 D7 D8]. split; try done. by eapply (dir_ok_keeps i (Fs s' (n_info n))). }
  split_and!; [done| | |by eapply open_hit].
  - exists n1. cbn [t_nodes]. rewrite lookup_insert_eq. split; [done|]. unfold n1. cbn [n_inode i_linkCnt with_i_linkCnt]. apply u16_small. lia.
  - exists ess'. split; [done|]. intros Hnd'. apply first_ino_none. destruct Hcase as [[Hno ->]|(l1 & x & l2 & E & Hn1 & ->)]; [done|].
    rewrite E, fmap_app in Hnd'. apply NoDup_app in Hnd' as (_ & _ & Hnd'). apply NoDup_cons in Hnd' as [Hn2 _].
    rewrite fmap_app, elem_of_app. tauto.
Qed.

(** [ext2_link] of a file under a name that the directory has not cached: the file
    has one link more, the directory has the name with the number of the file, and the
    name is found as an object with the inode of the file. *)
Theorem link_correct now' t a d P n bids ess name src ns dsd ft :
  can_create t a d P n bids ess → good_name name → first_child (t_dirs t) (d_child d) name = None →
  t_nodes t !! src = Some ns → src ≠ P → t_dirs t !! n_dir ns = Some dsd → 0 < d_ino dsd < 2 ^ 32 →
  truth (Z.land (i_type (n_inode ns)) EXT2_IFREG) = true → 0 ≤ i_linkCnt (n_inode ns) < 2 ^ 16 - 1 →
  type_inode2dir (i_type (n_inode ns)) = Some ft → 0 ≤ ft < 256 →
  wp (ext2_link i mark junk raw fuel dir_addr src P name) (λ r t', r = 0 ∧
    (∃ n1, t_nodes t' !! src = Some n1 ∧ i_linkCnt (n_inode n1) = i_linkCnt (n_inode ns) + 1) ∧
    ∃ c dn d' n' bids' ess', t_dirs t !! c = None ∧ t_dirs t' !! c = Some dn ∧ entry_obj a (d_ino dsd) src name dn ∧
      open_dir t' a d' P n' bids' ess' ∧
      (∃ l1 l2, all_names ess = l1 ++ l2 ∧ all_names ess' = l1 ++ (name, (d_ino dsd, ft)) :: l2) ∧
      find now' a name t' = Ok (c, t')) t.
Proof.
  intros Hcc (Hby & Hnz & _ & Hl) Hfc Hsrc Hsp Hsd Hino Hreg Hlc Hty Hft. pose proof (cc_open _ _ _ _ _ _ _ Hcc) as Hop.
  unfold ext2_link. wp_step. eapply wp_rd_node; [done|]. rewrite Hreg. cbn [negb]. wp_step. eapply wp_upd_inode; [done|].
  set (n1 := Node _ _ _). wp_step. eapply wp_rd_dir; [exact Hsd|]. wp_step.
  eapply wp_rd_node; [cbn [t_nodes]; rewrite lookup_insert_ne by done; apply Hop|]. wp_step.
  eapply wp_mono; [apply wp_directory_alloc; lia|]. intros c t1 (dn & Ec & -> & Ho & Hk & E1 & E2 & E3 & E4 & E5).
  set (t0 := Tree (t_store t) (t_dirs t) (<[src := n1]> (t_nodes t))) in *.
  destruct (dir_fresh t0) as [Hcz Hcf]. rewrite <-Ec in Hcz, Hcf. cbn [t_dirs t0] in Hcf.
  assert (a ≠ c) as Hac by (intros ->; rewrite (od_dir _ _ _ _ _ _ _ Hop) in Hcf; done).
  assert (entry_obj a (d_ino dsd) src name dn) as He by (split; try done; rewrite E3; apply Hop).
  set (t1 := Tree _ _ _). wp_step.
  eapply wp_mono; [apply (wp_append_link t1 P n a d c dn (d_ino dsd) src name (i_type (n_inode ns)) ft bids ess)|];
    cbn [t1 t0 t_nodes t_dirs t_store]; try done; try apply Hop; try apply Hcc.
  { rewrite lookup_insert_ne by done. apply Hop. }
  { rewrite lookup_insert_ne by done. apply Hop. }
  { apply lookup_insert_eq. }
  intros [] t2 (size' & f' & Hen & ->). wp_step. apply wp_on_st. cbn [t_store].
  pose proof Hen as (bids' & ess' & Hok & _ & _ & Hb & Hnames).
  eapply wp_mono; [apply mark_ok, Hok|]. intros [] s5 Hk5. wp_step.
  assert (length bids' < fuel)%nat as Hf.
  { pose proof (cc_blocks _ _ _ _ _ _ _ Hcc). destruct Hb as [-> |(? & -> & _)]; rewrite ?length_app; simpl; lia. }
  destruct (entry_open t a d P n bids ess (Fs s5 (info f')) c dn src n1 bids' ess' size' name) as (Hod & Hfc' & Hn' & Hd');
    [done|apply Hcc|done|done|done|done|by eapply dir_ok_keeps|done|done|done|]. cbn [store info] in *.
  split; [done|]. split.
  - exists n1. split; [exact Hn'|]. unfold n1. cbn [n_inode i_linkCnt with_i_linkCnt]. apply u16_small. lia.
  - exists c, dn. do 4 eexists. split_and!; [done|exact Hd'|exact He|exact Hod|exact Hnames|by eapply open_hit; [exact Hod|]].
Qed.
End tree.

(** ** The root directory of the small volume in memory *)

(** An address that is not in use. *)
Definition addr_of {A} (m : gmap Z A) : Z := 1 + foldr Z.max 0 (map_to_list m).*1.

Lemma foldr_max_ge (l : list Z) k : k ∈ l → k ≤ foldr Z.max 0 l.
Proof. induction 1 as [|x y l _ IH]; simpl; lia. Qed.

Lemma addr_fresh {A} (m : gmap Z A) : addr_of m ≠ 0 ∧ m !! addr_of m = None.
Proof.
  assert (∀ l, 0 ≤ foldr Z.max 0 l) as Hp by (induction l; simpl; lia). unfold addr_of. split.
  { pose proof (Hp (map_to_list m).*1). lia. }
  destruct (m !! _) as [x|] eqn:E; [|done]. apply elem_of_map_to_list in E.
  apply (list_elem_of_fmap_2 fst), foldr_max_ge in E. simpl in E. lia.
Qed.

Definition demo_dir_addr (t : @tree sparse) : Z := addr_of (t_dirs t).
Definition demo_node_addr (t : @tree sparse) : Z := addr_of (t_nodes t).
Definition demo_mark (a st : Z) : M sparse unit := mret tt.
Definition demo_junk (n : Z) : list Z := replicate (Z.to_nat n) 0xcc.
Definition demo_raw : raw_object := RawObject (replicate 40 0xee) SbWild.

Lemma demo_mark_ok : ∀ a st (s : sparse), bs_inv s → wp (demo_mark a st) (λ _ s', keeps s s') s.
Proof. intros a st s H. by apply vkeeps_refl. Qed.
Lemma demo_junk_len n : 0 ≤ n → len (demo_junk n) = n.
Proof. intros. unfold demo_junk. rewrite length_replicate. lia. Qed.

(** The object 100 is the root, 200 its inode; the file of inode 12 has the names "a"
    and "b", objects 101 and 102, inode object 201. *)
Definition demo_root : directory := Directory 2 200 (47 :: replicate 39 0) None 1 0 [101; 102] SbExt2.
Definition demo_entry (c : Z) : directory := Directory 12 201 (c :: replicate 39 0) None 1 100 [] SbExt2.
Definition demo_tree : @tree sparse :=
  Tree (store demo_dir) (<[100 := demo_root]> (<[101 := demo_entry 97]> {[ 102 := demo_entry 98 ]}))
    (<[200 := Node demo_parent (info demo_dir) 100]>
      {[ 201 := Node (Inode 12 0 2 420 EXT2_IFREG 0 5 6 7 0 0) (InodeInfo 0 (replicate 15 0)) 101 ]}).

Lemma demo_open : open_dir demo_sb 13 demo_tree 100 demo_root 200 (Node demo_parent (info demo_dir) 100) [7] [demo_es].
Proof.
  split; [done|done|done|done|done| |apply demo_dir_ok|simpl; lia].
  repeat constructor; [exists (demo_entry 97)|exists (demo_entry 98)]; (split; [done|]; split; [|done]; split; [done|cbn; lia]).
Qed.

Lemma demo_can_create :
  can_create demo_sb 13 demo_tree 100 demo_root 200 (Node demo_parent (info demo_dir) 100) [7] [demo_es].
Proof.
  split; [apply demo_open|split; [done|cbn; lia]|apply demo_parent_ok|done|simpl; lia|apply demo_dir_ready|apply demo_iroom|].
  intros g b Hg (d & Hd & <-). simpl in Hg. assert (g = 0) as -> by lia. simpl in Hd. injection Hd as <-. simpl.
  destruct (ig_range _ demo_igeometry 0 3 ltac:(done)) as [Hr Hm]; [by exists (InfoDesc 3 2 4)|]. split.
  - split_and!; [done|done|done|by vm_compute|done].
  - rewrite list_elem_of_singleton. done.
Qed.

Lemma dir_name_prefix_witness :
  ∃ d', dir_name_set demo_junk (replicate 41 97) demo_root tt = Ok (d', tt) ∧
    dir_name_cmp d' (replicate 40 97 ++ [98]) tt = Ok (true, tt) ∧
    dir_name_dump demo_junk d' tt = Ok (replicate 40 97 ++ [0xcc; 0], tt).
Proof.
  destruct (dir_name_prefix demo_junk (replicate 41 97) (replicate 40 97 ++ [98]) demo_root tt) as (d' & E1 & E2 & E3);
    [reflexivity|simpl; lia|reflexivity|exact demo_junk_len|].
  exists d'. split_and!; [exact E1| |]; [rewrite E2|rewrite E3]; reflexivity.
Defined.

Lemma demo_no_c : first_child (t_dirs demo_tree) (d_child demo_root) [99] = None ∧ ([99] ∉ (all_names [demo_es]).*1).
Proof.
  split; [by vm_compute|]. rewrite demo_names. simpl. rewrite !elem_of_cons, elem_of_nil. intros [[=]|[[=]|[]]].
Qed.
Lemma demo_good_c : good_name [99].
Proof. split_and!; [by repeat constructor|by repeat constructor|done|simpl; lia]. Qed.

(** A directory object 103 whose inode 13 is not in memory; it has no blocks. *)
Definition demo_sub : directory := Directory 13 0 (100 :: replicate 39 0) None 1 100 [] SbExt2.
Definition demo_tree2 : @tree sparse := Tree (store demo_dir) (<[103 := demo_sub]> (t_dirs demo_tree)) (t_nodes demo_tree).

Lemma demo_sub_disk : disk_dir demo_sb 13 demo_tree2 9 103 demo_sub [] [].
Proof.
  split; [done|done|done|done|by apply Forall_nil_2|split; [apply (demo_ino_ok 13); lia|done]| |simpl; lia].
  destruct (v_blk demo_sb (store demo_dir) (d_vol _ _ _ _ demo_dir_ok) (tblk demo_sb 13)) as [pg Hpg]; [apply (n_blk _ _ (demo_ino_ok 13 ltac:(lia)))|].
  exists pg. split; [exact Hpg|]. assert (pg = zeros) as ->. { injection Hpg as <-. reflexivity. }
  split; cbn [store info]; [apply demo_dir_ok| |by apply Forall_nil_2|apply NoDup_nil_2|by apply Forall2_nil_2].
  split_and!; vm_compute; try done; lia.
Qed.

(** The name "..", in the root directory and in the directory 103. *)
Lemma ext2_find_correct_witness :
  wp (ext2_find demo_sb demo_mark demo_junk demo_raw 13 demo_dir_addr demo_node_addr 9 100 [dot; dot])
    (λ r t', ∃ dn, t_dirs t' !! r = Some dn ∧ d_ino dn = 2) demo_tree ∧
  wp (ext2_find demo_sb demo_mark demo_junk demo_raw 13 demo_dir_addr demo_node_addr 9 103 [dot; dot]) (λ r _, r = 0) demo_tree2.
Proof.
  assert (∀ t a d bids ess, _) as H by exact (λ t a d bids ess, ext2_find_correct demo_sb demo_geometry demo_mark demo_mark_ok demo_junk demo_raw eq_refl 13
    demo_dir_addr demo_node_addr (λ t, addr_fresh (t_dirs t)) (λ t, addr_fresh (t_nodes t)) 9 9 t a d bids ess [dot; dot]). split.
  - eapply wp_mono; [apply (H demo_tree 100 demo_root [7] [demo_es]); [left; eexists _, _; split; [apply demo_open|reflexivity]|done|split; [done|cbn; lia]|simpl; lia]|].
    intros r t' (_ & _ & _ & Hr & _).
    assert (first_child (t_dirs demo_tree) (d_child demo_root) [dot; dot] = None) as E1 by (vm_compute; reflexivity).
    assert (first_ino [dot; dot] (all_names [demo_es]) = Some 2) as E2 by (rewrite demo_names; vm_compute; reflexivity).
    rewrite E1, E2 in Hr. destruct Hr as (Hn & _ & dn & Hd & He & _).
    exists dn. split; [exact Hd|apply He].
  - eapply wp_mono; [apply (H demo_tree2 103 demo_sub [] []); [right; exact demo_sub_disk|done|split; [done|cbn; lia]|simpl; lia]|].
    intros r t' (_ & _ & _ & [-> _] & _). reflexivity.
Defined.

Lemma find_without_sb_witness :
  ext2_find demo_sb demo_mark demo_junk demo_raw 13 demo_dir_addr demo_node_addr 9 100 [dot; dot]
    (Tree (store demo_dir) (<[100 := with_d_sb SbNull demo_root]> (t_dirs demo_tree)) (t_nodes demo_tree)) = Err Assert.
Proof.
  apply (find_without_sb demo_sb demo_geometry demo_mark demo_junk demo_raw eq_refl 13 demo_dir_addr demo_node_addr 9 _ 100 (with_d_sb SbNull demo_root) 200
    (Node demo_parent (info demo_dir) 100) [7] [demo_es] [dot; dot] 2); [|done|simpl; lia|vm_compute; reflexivity|rewrite demo_names; vm_compute; reflexivity].
  pose proof demo_open as [D1 D2 D3 D4 D5 D6 D7 D8]. split; try done.
  repeat constructor; [exists (demo_entry 97)|exists (demo_entry 98)]; (split; [done|]; split; [|done]; split; [done|cbn; lia]).
Defined.


Lemma demo_b_cached : cached_entry demo_tree 100 102 201 [98] (demo_entry 98).
Proof. split_and!; try done. Qed.

Lemma unlink_stays_cached_witness :
  wp (ext2_unlink demo_sb demo_mark demo_junk 13 demo_node_addr 9 102)
    (λ r t', r = 0 ∧ ext2_find demo_sb demo_mark demo_junk demo_raw 13 demo_dir_addr demo_node_addr 9 100 [98] t' = Ok (102, t')) demo_tree.
Proof.
  eapply wp_mono; [apply (unlink_stays_cached demo_sb demo_geometry demo_mark demo_mark_ok demo_junk demo_junk_len demo_raw eq_refl 13
    demo_dir_addr demo_node_addr ltac:(lia) 9 9 demo_tree 100 demo_root 200 _ [7] [demo_es] 102 201
    (Node (Inode 12 0 2 420 EXT2_IFREG 0 5 6 7 0 0) (InodeInfo 0 (replicate 15 0)) 101) [98] (demo_entry 98) demo_open demo_b_cached);
    [simpl; lia|vm_compute; reflexivity|reflexivity|lia|lia|lia|reflexivity|cbn; lia]|].
  intros r t' (-> & _ & _ & E). split; [reflexivity|exact E].
Defined.

Lemma link_correct_witness :
  wp (ext2_link demo_sb demo_mark demo_junk demo_raw 13 demo_dir_addr 201 200 [99])
    (λ r t', r = 0 ∧ ∃ n1, t_nodes t' !! 201 = Some n1 ∧ i_linkCnt (n_inode n1) = 3) demo_tree.
Proof.
  destruct demo_no_c as [Hc _].
  eapply wp_mono; [apply (link_correct demo_sb demo_geometry demo_mark demo_mark_ok demo_junk demo_junk_len demo_raw eq_refl 13
    demo_dir_addr demo_node_addr (λ t, addr_fresh (t_dirs t)) ltac:(lia) 9 demo_tree 100 demo_root 200 _ [7] [demo_es] [99] 201
    (Node (Inode 12 0 2 420 EXT2_IFREG 0 5 6 7 0 0) (InodeInfo 0 (replicate 15 0)) 101) (demo_entry 97) 1 demo_can_create demo_good_c Hc);
    [reflexivity|lia|reflexivity|cbn; lia|reflexivity|cbn; lia|reflexivity|lia]|].
  intros r t' (-> & Hn & _). split; [reflexivity|exact Hn].
Defined.
