(* ===== verification/Vfs.v ===== *)
(** * The virtual file system

    Models [fs/vfs.c]: paths, open files, positions and the calls that go to the file
    system through [struct fs_ops] and [struct directory_ops].  The interface [FsOps]
    lists these operations and the fields of [struct inode] and [struct directory] the
    file uses; [ext2_fs_ops] is the instance that [ops_init] and [dir_ops_init] of
    fs/ext2/ext2.c fill in.

    Paths are C strings in byte memory and are cut in place, as in the code.  A name is
    handed to the file system as the list of its characters, which it reads up to the
    final 0.  The records of open files ([struct open_file]) are in a store of their own
    with the addresses [file_addr] answers; a block of [kmalloc] is in byte memory.
    [vfs_ls], which prints, is left out; [getcwd], which does nothing, is in Syscall. *)

From S2P Require Import Prelude Memory CString QLib BlockStore FdHash Ext2 Ext2Inode Ext2Tree.
From Stdlib Require Import ZArith Lia.
From stdpp Require Import base numbers gmap list.
Open Scope Z_scope.

(** ** The interface of a file system *)

Class FsOps (T : Type) := {
  fs_find : Z → list Z → M T Z;              (* ops->find(dir, name) *)
  fs_open : Z → M T Z;
  fs_close : Z → M T Z;
  fs_read_page : Z → Z → M T Z;              (* ops->read_page(inode, offset) *)
  fs_read : Z → Z → Z → M T (list Z);        (* ops->read(inode, offset, size, buf) *)
  fs_write : Z → Z → list Z → M T Z;         (* ops->write(inode, offset, size, buf) *)
  fs_mkdir : Z → list Z → M T Z;
  fs_mkfile : Z → list Z → M T Z;
  fs_rmdir : Z → M T Z;
  fs_link : Z → Z → list Z → M T Z;
  fs_unlink : Z → M T Z;
  fs_dir_ops : Z → M T bool;                 (* dir->ops != NULL *)
  fs_mount : Z → M T unit;                   (* dir->ops->inode_mount(dir) *)
  fs_dir_inode : Z → M T Z;                  (* dir->inode *)
  fs_inode_dir : Z → M T Z;                  (* inode->dir *)
  fs_size : Z → M T Z;                       (* inode->size *)
  fs_offset : Z → M T Z;                     (* inode->offset *)
  fs_set_offset : Z → Z → M T unit;
  fs_refCnt : Z → M T Z;                     (* inode->refCnt *)
  fs_set_refCnt : Z → Z → M T unit }.

(** ** Paths *)

Definition SEPARATOR : Z := 47.
Definition FILE_SEEK_SET : Z := 0.
Definition FILE_SEEK_CUR : Z := 1.
Definition FILE_SEEK_END : Z := 2.

Record open_file := OpenFile { of_inode : Z; of_fd : Z; of_next : Z }.

Section vfs.
Context {T : Type} `{F : FsOps T}.
Variable kmalloc : Z → M mem Z.
Variable kfree : Z → M mem unit.

(** [v_root] is [vfs_tree->dir], 0 when [vfs_tree] is NULL; [v_cwd] and [v_open] are
    [cwd] and [open] of the current task. *)
Record vfs := Vfs {
  v_mem : mem; v_fs : T; v_hash : hash; v_root : Z; v_cwd : Z; v_open : Z; v_files : gmap Z open_file }.

Variable file_addr : gmap Z open_file → Z.

Definition on_mem {A} (m : M mem A) : M vfs A :=
  zoom v_mem (λ x v, Vfs x (v_fs v) (v_hash v) (v_root v) (v_cwd v) (v_open v) (v_files v)) m.
Definition on_ops {A} (m : M T A) : M vfs A :=
  zoom v_fs (λ x v, Vfs (v_mem v) x (v_hash v) (v_root v) (v_cwd v) (v_open v) (v_files v)) m.
Definition on_hash {A} (m : M hash A) : M vfs A :=
  zoom v_hash (λ x v, Vfs (v_mem v) (v_fs v) x (v_root v) (v_cwd v) (v_open v) (v_files v)) m.

(** The characters of the C string at [p], as a callee reads them. *)
Fixpoint read_str (fuel : nat) (p : Z) : M mem (list Z) :=
  match fuel with
  | O => fail Fuel
  | S f => c ← load8 p; if truth c then l ← read_str f (p + 1); mret (c :: l) else mret []
  end.
Definition name_at (p : Z) : M vfs (list Z) := on_mem (m ← get; read_str (S (size m)) p).

Definition cwd (path : Z) : M vfs Z :=
  c ← on_mem (load8 path);
  v ← get;
  if c =? SEPARATOR then
    assertk (truth (v_root v));;
    inode ← on_ops (fs_dir_inode (v_root v));
    assertk (truth inode);;
    mret inode
  else
    assertk (truth (v_cwd v));;
    on_hash (get_inode (v_cwd v)).

(** [for (; path[i] && path[i] != SEPARATOR; ++i);] *)
Fixpoint scan_name (fuel : nat) (path i : Z) : M mem Z :=
  match fuel with
  | O => fail Fuel
  | S f =>
      c ← load8 (path + i);
      if truth c && negb (c =? SEPARATOR) then scan_name f path (i + 1) else mret i
  end.

(** The loop of [find_dir]; every round but the last goes past a separator. *)
Definition walk_path (path dir : Z) : M vfs Z :=
  v ← get;
  let n := S (size (v_mem v)) in
  loop n (λ '(path, dir),
    c ← on_mem (load8 path);
    if negb (truth c) then mret (inr dir)
    else
      i ← on_mem (scan_name n path 0);
      c ← on_mem (load8 (path + i));
      if negb (truth c) then
        name ← name_at path;
        dir ← on_ops (fs_find dir name);
        mret (inr dir)
      else
        on_mem (store8 (path + i) 0);;
        name ← name_at path;
        dir ← on_ops (fs_find dir name);
        if negb (truth dir) then mret (inr 0) else mret (inl (path + i + 1, dir))) (path, dir).

Definition find_dir (path : Z) : M vfs Z :=
  parent ← cwd path;
  dir ← on_ops (fs_inode_dir parent);
  c ← on_mem (load8 path);
  walk_path (if c =? SEPARATOR then path + 1 else path) dir.

Definition vfs_find (path : Z) : M vfs Z :=
  dir ← find_dir path;
  if negb (truth dir) then mret 0
  else
    o ← on_ops (fs_dir_ops dir);
    assertk o;;
    on_ops (fs_mount dir);;
    on_ops (fs_dir_inode dir).

Definition parse_path (path : Z) : M vfs Z :=
  on_mem (n ← strlen path;
          let len := u32 (n + 1) in
          new ← kmalloc len;
          memcpy new path (u32 (len + 1));;
          c ← load8 (new + (len - 1));
          (if c =? SEPARATOR then store8 (new + (len - 1)) 0 else mret tt);;
          mret new).

(** [for (; i >= 0 && path[i] != SEPARATOR; --i);] from [i = n - 1]; -1 when there is
    none. *)
Fixpoint scan_back (n : nat) (path : Z) : M mem Z :=
  match n with
  | O => mret (-1)
  | S n' =>
      c ← load8 (path + Z.of_nat n');
      if c =? SEPARATOR then mret (Z.of_nat n') else scan_back n' path
  end.

(** Answers the last name (NULL is 0) and the inode [*parent]. *)
Definition split_path (path : Z) : M vfs (Z * Z) :=
  i ← on_mem (len ← strlen path; scan_back (Z.to_nat len + 1) path);
  if i <=? 0 then
    parent ← cwd path;
    mret (path + i + 1, parent)
  else
    on_mem (store8 (path + i) 0);;
    parent ← vfs_find path;
    if negb (truth parent) then mret (0, 0) else mret (path + i + 1, parent).

(** ** Open files *)

Definition rd_open (a : Z) : M vfs open_file := v ← get; deref (v_files v !! a).
Definition wr_open (a : Z) (f : open_file) : M vfs unit :=
  modify (λ v, Vfs (v_mem v) (v_fs v) (v_hash v) (v_root v) (v_cwd v) (v_open v) (<[a := f]> (v_files v))).
Definition set_open (a : Z) : M vfs unit :=
  modify (λ v, Vfs (v_mem v) (v_fs v) (v_hash v) (v_root v) (v_cwd v) a (v_files v)).
Definition free_open (a : Z) : M vfs unit :=
  modify (λ v, Vfs (v_mem v) (v_fs v) (v_hash v) (v_root v) (v_cwd v) (v_open v) (delete a (v_files v))).

(** The search of [add_open_file]: the record of the inode, 0 when there is none.  A
    list has no more records than there are. *)
Definition find_open (inode : Z) : M vfs Z :=
  v ← get;
  loop (S (size (v_files v))) (λ file : Z,
    if file =? 0 then mret (inr 0)
    else
      f ← rd_open file;
      if of_inode f =? inode then mret (inr file) else mret (inl (of_next f))) (v_open v).

Definition add_open_file (inode fd : Z) : M vfs unit :=
  file ← find_open inode;
  if truth file then f ← rd_open file; assertk (of_fd f =? fd)
  else
    v ← get;
    let a := file_addr (v_files v) in
    wr_open a (OpenFile inode fd (v_open v));;
    set_open a.

Definition remove_open_file (inode : Z) : M vfs Z :=
  v ← get;
  loop (S (size (v_files v))) (λ '(file, prev),
    if file =? 0 then fail Assert                            (* assertk(0) *)
    else
      f ← rd_open file;
      if of_inode f =? inode then
        (if prev =? 0 then set_open (of_next f)
         else p ← rd_open prev; wr_open prev (OpenFile (of_inode p) (of_fd p) (of_next f)));;
        mret (inr file)
      else mret (inl (of_next f, file))) (v_open v, 0).

(** [vfs_open] once the inode is found. *)
Definition open_inode (path inode : Z) : M vfs Z :=
  fd ← on_hash (alloc_fd inode);
  if fd <? 0 then mret (-1)
  else
    error ← on_ops (fs_open inode);
    if negb (error =? 0) then mret error
    else
      n ← on_ops (fs_refCnt inode);
      on_ops (fs_set_refCnt inode (u16 (n + 1)));;
      on_mem (kfree path);;
      add_open_file inode fd;;
      mret fd.

Definition vfs_open (_path : Z) : M vfs Z :=
  path ← parse_path _path;
  inode ← vfs_find path;
  if negb (truth inode) then mret (-1) else open_inode path inode.

Definition vfs_close (fd : Z) : M vfs Z :=
  node ← on_hash (get_inode fd);
  if negb (truth node) then mret (-1)
  else
    n ← on_ops (fs_refCnt node);
    on_ops (fs_set_refCnt node (u16 (n - 1)));;
    file ← remove_open_file node;
    n ← on_ops (fs_refCnt node);
    if n =? 0 then
      free_open file;;
      on_hash (free_fd fd);;
      on_ops (fs_close node)
    else mret 0.

(** ** Reading, writing, positions *)

(** The bytes copied to [buf]; their number is the result of [vfs_read].  Every round
    but the last reads at least one byte. *)
Definition read_loop (node size : Z) : M T (list Z) :=
  loop (S (Z.to_nat size)) (λ '(remain, got),
    if 0 <? remain then
      off ← fs_offset node;
      data ← fs_read node off (u32 remain);
      let rdSize := Z.of_nat (length data) in
      if rdSize =? 0 then mret (inr got)
      else
        fs_set_offset node (u32 (off + rdSize));;
        mret (inl (remain - rdSize, got ++ data))
    else mret (inr got)) (size, []).

Definition vfs_read (fd size : Z) : M vfs (list Z) :=
  node ← on_hash (get_inode fd);
  if negb (truth node) then mret [] else on_ops (read_loop node size).

Definition vfs_read_page (fd offset : Z) : M vfs Z :=
  node ← on_hash (get_inode fd); on_ops (fs_read_page node offset).

(** [data] are the bytes at [buf]; answers how many were written. *)
Definition write_loop (node : Z) (data : list Z) : M T Z :=
  rest ← loop (S (length data)) (λ data : list Z,
    if bool_decide (data = []) then mret (inr data)
    else
      off ← fs_offset node;
      wtSize ← fs_write node off data;
      if wtSize =? 0 then mret (inr data)
      else
        fs_set_offset node (u32 (off + wtSize));;
        mret (inl (drop (Z.to_nat wtSize) data))) data;
  mret (Z.of_nat (length data) - Z.of_nat (length rest)).

Definition vfs_write (fd : Z) (data : list Z) : M vfs Z :=
  node ← on_hash (get_inode fd);
  if negb (truth node) then mret 0 else on_ops (write_loop node data).

(** [node->size + offset] is computed in 64 bits; [node->offset + offset] in 32 bits
    without sign, and only then stored in the 64-bit [end]. *)
Definition vfs_lseek (fd offset whence : Z) : M vfs Z :=
  node ← on_hash (get_inode fd);
  if negb (truth node) then mret (-2)
  else
    let moved := (off ← on_ops (fs_offset node); mret (s32 off)) in
    if whence =? FILE_SEEK_SET then
      if offset <? 0 then mret (-1) else on_ops (fs_set_offset node offset);; moved
    else if whence =? FILE_SEEK_END then
      size ← on_ops (fs_size node);
      if s64 (size + offset) <? 0 then mret (-1)
      else on_ops (fs_set_offset node (u32 (size + offset)));; moved
    else if whence =? FILE_SEEK_CUR then
      cur ← on_ops (fs_offset node);
      let fin := u32 (cur + offset) in
      if fin <? 0 then mret (-1) else on_ops (fs_set_offset node (u32 fin));; moved
    else fail Assert.                                        (* error("seek error") *)

Definition vfs_ftell (fd : Z) : M vfs Z :=
  node ← on_hash (get_inode fd);
  if negb (truth node) then mret (-2) else on_ops (fs_offset node).

(** ** Making and removing files *)

(** [vfs_mkdir] and [vfs_mkfile]. *)
Definition vfs_make (op : Z → list Z → M T Z) (_path : Z) : M vfs Z :=
  path ← parse_path _path;
  '(p, parent) ← split_path path;
  if negb (truth parent) then mret (-1)
  else
    name ← name_at p;
    error ← on_ops (op parent name);
    if negb (error =? 0) then mret error
    else on_mem (kfree path);; mret 0.
Definition vfs_mkdir : Z → M vfs Z := vfs_make fs_mkdir.
Definition vfs_mkfile : Z → M vfs Z := vfs_make fs_mkfile.

Definition vfs_rmdir (_path : Z) : M vfs Z :=
  path ← parse_path _path;
  node ← vfs_find path;
  if negb (truth node) then mret (-1)
  else
    error ← on_ops (fs_rmdir node);
    if negb (error =? 0) then mret error
    else on_mem (kfree path);; mret 0.

Definition vfs_unlink (_path : Z) : M vfs Z :=
  path ← parse_path _path;
  file ← find_dir path;
  if negb (truth file) then mret (-2)
  else
    on_ops (fs_mount file);;
    inode ← on_ops (fs_dir_inode file);
    assertk (truth inode);;
    error ← on_ops (fs_unlink file);
    if negb (error =? 0) then mret error
    else on_mem (kfree path);; mret 0.

Definition vfs_link (src dest : Z) : M vfs Z :=
  n_src ← parse_path src;
  n_desc ← parse_path dest;
  sInode ← vfs_find n_src;
  if negb (truth sInode) then mret (-4)
  else
    '(p, inode) ← split_path n_desc;
    if negb (truth inode) then mret (-3)
    else
      name ← name_at p;
      error ← on_ops (fs_link sInode inode name);
      if negb (error =? 0) then mret error
      else on_mem (kfree n_desc);; on_mem (kfree n_src);; mret 0.

(** ** Tasks and mounting *)

(** A child of [fork] shares the records of its parent: answers [*desc]. *)
Definition copy_open_file (src : Z) : M vfs Z :=
  v ← get;
  loop (S (size (v_files v))) (λ file : Z,
    if file =? 0 then mret (inr tt)
    else
      f ← rd_open file;
      n ← on_ops (fs_refCnt (of_inode f));
      on_ops (fs_set_refCnt (of_inode f) (u16 (n + 1)));;
      mret (inl (of_next f))) src;;
  mret src.

Definition recycle_open_file (open : Z) : M vfs unit :=
  assertk (truth open);;
  v ← get;
  loop (S (size (v_files v))) (λ file : Z,
    if file =? 0 then mret (inr tt)
    else
      f ← rd_open file;
      _ ← vfs_close (of_fd f);
      mret (inl (of_next f))) open.

Definition vfs_mount (_path inode : Z) : M vfs unit :=
  assertk (truth inode);;
  len ← on_mem (strlen _path);
  v ← get;
  if v_root v =? 0 then
    c ← on_mem (load8 _path);
    if (len =? 1) && (c =? SEPARATOR) then
      dir ← on_ops (fs_inode_dir inode);
      modify (λ v, Vfs (v_mem v) (v_fs v) (v_hash v) dir (v_cwd v) (v_open v) (v_files v))
    else fail Assert                                          (* error("error param") *)
  else mret tt.

(** [_vfs_find]: a descriptor without opening. *)
Definition vfs_find_fd (path : Z) : M vfs Z :=
  inode ← vfs_find path;
  assertk (truth inode);;
  fd ← on_hash (alloc_fd inode);
  assertk (0 <=? fd);;
  add_open_file inode fd;;
  mret fd.
End vfs.

(** ** ext2 behind the interface *)

Section ext2_ops.
Context {St : Type} `{B : BlockStore St} (i : ext2_sb_info).
Variable mark : Z → Z → M St unit.
Variable junk : Z → list Z.
Variable raw : raw_object.
Variable fuel : nat.
Variable dir_addr node_addr : @tree St → Z.
Variable now : Z.

Definition with_i_refCnt (v : Z) (x : inode) : inode :=
  Inode (i_ino x) v (i_linkCnt x) (i_permission x) (i_type x) (i_size x)
    (i_createTime x) (i_accessTime x) (i_modifiedTime x) (i_deleteTime x) (i_offset x).

Definition ext2_fs_ops : FsOps (@tree St) := {|
  fs_find := ext2_find i mark junk raw fuel dir_addr node_addr now;
  fs_open a := on_node a ext2_open;
  fs_close a := on_node a ext2_close;
  fs_read_page a offset := on_node a (ext2_read_page i offset);
  fs_read a offset size := on_node a (ext2_read i offset size);
  fs_write a offset data := on_node a (ext2_write i (mark a) offset data);
  fs_mkdir := ext2_mkdir i mark junk raw fuel dir_addr node_addr now;
  fs_mkfile := ext2_mkfile i mark junk raw fuel dir_addr node_addr now;
  fs_rmdir := ext2_rmdir i mark junk fuel node_addr now;
  fs_link := ext2_link i mark junk raw fuel dir_addr;
  fs_unlink := ext2_unlink i mark junk fuel node_addr now;
  fs_dir_ops a := _ ← rd_dir a; mret true;   (* directory_alloc and directory_cpy set it *)
  fs_mount := ext2_inode_mount i mark node_addr now;
  fs_dir_inode a := d ← rd_dir a; mret (d_inode d);
  fs_inode_dir a := n ← rd_node a; mret (n_dir n);
  fs_size a := n ← rd_node a; mret (i_size (n_inode n));
  fs_offset a := n ← rd_node a; mret (i_offset (n_inode n));
  fs_set_offset a v := upd_inode a (with_i_offset v);
  fs_refCnt a := n ← rd_node a; mret (i_refCnt (n_inode n));
  fs_set_refCnt a v := upd_inode a (with_i_refCnt v) |}.
End ext2_ops.
