(* ===== verification/VfsCorrect.v ===== *)
(** * The virtual file system, correctness

    Paths: [find_dir] looks up the names between the separators one after the other,
    and [split_path] cuts off the last one.  Open files: descriptors, counts of opens
    and the records of a task.  Positions and reading. *)

From S2P Require Import Prelude Memory CString QLib Vm BlockStore FdHash Ext2 Ext2Inode Ext2Tree Vfs.
From Stdlib Require Import ZArith Lia.
From stdpp Require Import base countable numbers gmap list.
Open Scope Z_scope.

#[local] Arguments Z.to_nat : simpl never.
#[local] Arguments Z.mul : simpl never.

Abbreviation len l := (Z.of_nat (length l)).

(** ** Strings *)

Lemma load8_ok a x (m : mem) : m !! a = Some x → load8 a m = Ok (x, m).
Proof. intros E. unfold load8, mbind, M_bind, get, deref. by rewrite E. Qed.
Lemma store8_ok a x (m : mem) : is_Some (m !! a) → store8 a x m = Ok (tt, <[a := u8 x]> m).
Proof. intros [y E]. unfold store8, mbind, M_bind, get, deref. by rewrite E. Qed.

Lemma cstr_app m p w s : cstr m p (w ++ s) ↔ bytes_at m p w ∧ Forall (λ c, c ≠ 0) w ∧ cstr m (p + len w) s.
Proof.
  unfold cstr. rewrite <-app_assoc, bytes_at_app, Forall_app. tauto.
Qed.

Lemma cstr_end m p s : cstr m p s → m !! (p + len s) = Some 0.
Proof. intros H. rewrite <-(app_nil_r s) in H. apply cstr_app in H as (_ & _ & H). by apply cstr_nil in H. Qed.

Lemma read_str_ok fuel p w (m : mem) : cstr m p w → (length w < fuel)%nat → read_str fuel p m = Ok (w, m).
Proof.
  revert fuel p. induction w as [|c w IH]; intros [|fuel] p H Hf; simpl in *; try lia.
  - apply cstr_nil in H. by erewrite bind_Ok by (by apply load8_ok).
  - apply cstr_cons in H as (H1 & Hc & H2). erewrite bind_Ok by (by apply load8_ok).
    rewrite (proj2 (truth_true c) Hc). by erewrite bind_Ok by (apply IH; [done|lia]).
Qed.

(** A name ends at a separator or at the end of the path. *)
Definition no_sep (w : list Z) : Prop := Forall (λ c, c ≠ SEPARATOR) w.

Lemma scan_name_ok fuel path i w x (m : mem) : bytes_at m (path + i) (w ++ [x]) → Forall (λ c, c ≠ 0) w → no_sep w →
  x = 0 ∨ x = SEPARATOR → (length w < fuel)%nat → scan_name fuel path i m = Ok (i + len w, m).
Proof.
  revert fuel i. induction w as [|c w IH]; intros [|fuel] i H Hz Hs Hx Hf; simpl in *; try lia.
  - apply bytes_at_cons in H as [H _]. erewrite bind_Ok by (by apply load8_ok). rewrite Z.add_0_r.
    destruct Hx as [-> | ->]; done.
  - apply bytes_at_cons in H as [H1 H2]. erewrite bind_Ok by (by apply load8_ok).
    apply Forall_cons in Hz as [Hc Hz], Hs as [Hcs Hs].
    rewrite (proj2 (truth_true c) Hc), (proj2 (Z.eqb_neq c SEPARATOR) Hcs). simpl.
    rewrite IH; [|by rewrite Z.add_assoc|done|done|done|lia]. do 2 f_equal. lia.
Qed.

(** ** The names of a path *)

(** The names between the separators; a separator at the end is not followed by one. *)
Fixpoint words (acc s : list Z) : list (list Z) :=
  match s with
  | [] => if bool_decide (acc = []) then [] else [acc]
  | c :: s' => if c =? SEPARATOR then acc :: words [] s' else words (acc ++ [c]) s'
  end.
Definition path_names (s : list Z) : list (list Z) :=
  words [] (match s with c :: s' => if c =? SEPARATOR then s' else s | [] => [] end).

Lemma words_sep acc w s : no_sep w → words acc (w ++ SEPARATOR :: s) = (acc ++ w) :: words [] s.
Proof.
  revert acc. induction w as [|c w IH]; intros acc H; simpl; [by rewrite app_nil_r|].
  apply Forall_cons in H as [Hc H]. rewrite (proj2 (Z.eqb_neq c SEPARATOR) Hc), IH by done. by rewrite <-app_assoc.
Qed.
Lemma words_last acc w : no_sep w → words acc w = if bool_decide (acc ++ w = []) then [] else [acc ++ w].
Proof.
  revert acc. induction w as [|c w IH]; intros acc H; simpl; [by rewrite app_nil_r|].
  apply Forall_cons in H as [Hc H]. rewrite (proj2 (Z.eqb_neq c SEPARATOR) Hc), IH by done. by rewrite <-app_assoc.
Qed.

Lemma split_sep s : no_sep s ∨ ∃ w s', s = w ++ SEPARATOR :: s' ∧ no_sep w.
Proof.
  induction s as [|c s IH]; [left; constructor|]. destruct (Z.eq_dec c SEPARATOR) as [->|Hc].
  - right. exists [], s. split; [done|constructor].
  - destruct IH as [H|(w & s' & -> & H)]; [left; by constructor|right]. exists (c :: w), s'. split; [done|by constructor].
Qed.

Section paths.
Context {T : Type} `{F : FsOps T}.
Implicit Types v : @vfs T.

Definition with_mem v (m : mem) : @vfs T := Vfs m (v_fs v) (v_hash v) (v_root v) (v_cwd v) (v_open v) (v_files v).
Definition with_fs v (t : T) : @vfs T := Vfs (v_mem v) t (v_hash v) (v_root v) (v_cwd v) (v_open v) (v_files v).

Lemma on_mem_ok {A} (k : M mem A) v a m' : k (v_mem v) = Ok (a, m') → on_mem k v = Ok (a, with_mem v m').
Proof. intros E. unfold on_mem, zoom. by rewrite E. Qed.
Lemma on_mem_same {A} (k : M mem A) v a : k (v_mem v) = Ok (a, v_mem v) → on_mem k v = Ok (a, v).
Proof. intros E. rewrite (on_mem_ok _ _ _ _ E). by destruct v. Qed.
Lemma on_ops_ok {A} (k : M T A) v a t' : k (v_fs v) = Ok (a, t') → on_ops k v = Ok (a, with_fs v t').
Proof. intros E. unfold on_ops, zoom. by rewrite E. Qed.
Lemma on_ops_err {A} (k : M T A) v e : k (v_fs v) = Err e → on_ops k v = Err e.
Proof. intros E. unfold on_ops, zoom. by rewrite E. Qed.

Lemma name_at_ok p w v : cstr (v_mem v) p w → name_at p v = Ok (w, v).
Proof.
  intros H. apply on_mem_same. unfold mbind, M_bind, get. apply read_str_ok; [done|].
  pose proof (mapped_size _ _ _ (cstr_mapped _ _ _ H)). lia.
Qed.

(** The reference: look the names up one after the other. *)
Fixpoint resolve (dir : Z) (l : list (list Z)) : M T Z :=
  match l with
  | [] => mret dir
  | w :: l' => d ← fs_find dir w; if truth d then resolve d l' else mret 0
  end.

(** One round of the loop of [find_dir], with inner fuel [N]. *)
Definition walk_step (N : nat) : Z * Z → M (@vfs T) ((Z * Z) + Z) := λ '(path, dir),
  c ← on_mem (load8 path);
  if negb (truth c) then mret (inr dir)
  else
    i ← on_mem (scan_name N path 0);
    c ← on_mem (load8 (path + i));
    if negb (truth c) then
      name ← name_at path; dir ← on_ops (fs_find dir name); mret (inr dir)
    else
      on_mem (store8 (path + i) 0);;
      name ← name_at path; dir ← on_ops (fs_find dir name);
      if negb (truth dir) then mret (inr 0) else mret (inl (path + i + 1, dir)).

Lemma walk_path_eq path dir v :
  walk_path path dir v = loop (S (size (v_mem v))) (walk_step (S (size (v_mem v)))) (path, dir) v.
Proof. done. Qed.

Lemma step_empty N path dir v : cstr (v_mem v) path [] → walk_step N (path, dir) v = Ok (inr dir, v).
Proof. intros H%cstr_nil. unfold walk_step. by erewrite bind_Ok by (apply on_mem_same, load8_ok, H). Qed.

Lemma head_nonzero (w : list Z) m path : w ≠ [] → bytes_at m path w → Forall (λ c, c ≠ 0) w →
  ∃ c, m !! path = Some c ∧ truth c = true.
Proof.
  destruct w as [|c w]; [done|]. intros _ [H _]%bytes_at_cons [Hc _]%Forall_cons. exists c. by rewrite truth_true.
Qed.

(** The last name of the path. *)
Lemma step_last N path dir w v : cstr (v_mem v) path w → w ≠ [] → no_sep w → (length w < N)%nat →
  walk_step N (path, dir) v =
    match fs_find dir w (v_fs v) with Ok (d, t') => Ok (inr d, with_fs v t') | Err e => Err e end.
Proof.
  intros H Hw Hs HN. pose proof H as [Hb Hz]. unfold walk_step. pose proof Hb as [Hb1 _]%bytes_at_app.
  destruct (head_nonzero w _ _ Hw Hb1 Hz) as (c & Hc & Ht).
  erewrite bind_Ok by (apply on_mem_same, load8_ok, Hc). rewrite Ht. cbn [negb].
  erewrite bind_Ok by (apply on_mem_same, (scan_name_ok _ _ 0 w 0); [by rewrite Z.add_0_r|done|done|by left|done]).
  erewrite bind_Ok by (apply on_mem_same, load8_ok, (cstr_end _ _ _ H)). change (truth 0) with false. cbn [negb].
  erewrite bind_Ok by (by apply name_at_ok).
  destruct (fs_find dir w (v_fs v)) as [[d t']|e] eqn:E.
  - by erewrite bind_Ok by (by apply on_ops_ok).
  - by erewrite bind_Err by (by apply on_ops_err).
Qed.

(** A name followed by a separator, which is overwritten. *)
Lemma step_sep N path dir w s v : cstr (v_mem v) path (w ++ SEPARATOR :: s) → no_sep w → (length w < N)%nat →
  let m' := <[path + len w := 0]> (v_mem v) in
  walk_step N (path, dir) v =
    match fs_find dir w (v_fs v) with
    | Ok (d, t') => Ok (if truth d then inl (path + len w + 1, d) else inr 0, with_fs (with_mem v m') t')
    | Err e => Err e
    end.
Proof.
  intros H Hs HN m'. pose proof H as (Hb & Hz & Hr)%cstr_app. apply cstr_cons in Hr as (Hsep & _ & Hr).
  pose proof H as [Hbb Hzz]. unfold walk_step.
  destruct (head_nonzero (w ++ SEPARATOR :: s) (v_mem v) path) as (c & Hc & Ht); [by destruct w|by apply bytes_at_app in Hbb as [? _]|done|].
  erewrite bind_Ok by (apply on_mem_same, load8_ok, Hc). rewrite Ht. cbn [negb].
  erewrite bind_Ok.
  2:{ apply on_mem_same, (scan_name_ok _ _ 0 w SEPARATOR); [|done|done|by right|done]. rewrite Z.add_0_r.
      apply bytes_at_app. split; [done|]. apply bytes_at_cons. split; [done|]. intros j x Hx. by rewrite lookup_nil in Hx. }
  rewrite Z.add_0_l. erewrite bind_Ok by (apply on_mem_same, load8_ok, Hsep). change (truth SEPARATOR) with true. cbn [negb].
  erewrite bind_Ok by (apply on_mem_ok, store8_ok; by eexists). change (u8 0) with 0. fold m'.
  erewrite (bind_Ok (name_at path)).
  2:{ apply (name_at_ok _ w). cbn [v_mem with_mem]. split; [|done]. apply bytes_at_app. split.
      - intros j x Hx. unfold m'. rewrite lookup_insert_ne; [by apply Hb|]. apply lookup_lt_Some in Hx. lia.
      - apply bytes_at_cons. split; [apply lookup_insert_eq|]. intros j x Hx. by rewrite lookup_nil in Hx. }
  destruct (fs_find dir w (v_fs v)) as [[d t']|e] eqn:E.
  - erewrite bind_Ok by (apply on_ops_ok; exact E). by destruct (truth d).
  - by erewrite bind_Err by (apply on_ops_err; exact E).
Qed.

(** The loop on the rest [s] of a path. *)
Lemma walk_loop N n : ∀ s path dir v, cstr (v_mem v) path s → (length s < n)%nat → (length s < N)%nat →
  match resolve dir (words [] s) (v_fs v) with
  | Ok (d, t') => ∃ m', loop n (walk_step N) (path, dir) v = Ok (d, with_fs (with_mem v m') t') ∧
      writes path (len s) (v_mem v) m'
  | Err e => loop n (walk_step N) (path, dir) v = Err e
  end.
Proof.
  induction n as [|n IH]; intros s path dir v H Hn HN; [lia|]. cbn [loop].
  destruct (split_sep s) as [Hs|(w & s' & -> & Hs)].
  - rewrite words_last by done. simpl. destruct (decide (s = [])) as [->|Hne].
    + rewrite bool_decide_true by done. simpl. erewrite bind_Ok by (by apply step_empty).
      exists (v_mem v). split; [by destruct v|apply writes_refl].
    + rewrite bool_decide_false by done. simpl. pose proof (step_last N path dir s v H Hne Hs HN) as Es.
      destruct (fs_find dir s (v_fs v)) as [[d t']|e] eqn:Ef.
      * rewrite (bind_Ok _ _ _ _ _ Ef). rewrite (bind_Ok _ _ _ _ _ Es). 
        destruct (truth d) eqn:Ed; simpl; exists (v_mem v); (split; [|apply writes_refl]).
        -- by destruct v.
        -- apply truth_false in Ed as ->. by destruct v.
      * rewrite (bind_Err _ _ _ _ Ef). by apply bind_Err.
  - rewrite words_sep by done. simpl. rewrite length_app in Hn, HN. simpl in Hn, HN.
    pose proof (step_sep N path dir w s' v H Hs ltac:(lia)) as Es. cbv zeta in Es.
    apply cstr_app in H as (Hb & Hz & Hr). apply cstr_cons in Hr as (Hsep & _ & Hr).
    set (m1 := <[path + len w := 0]> (v_mem v)) in *.
    assert (writes path (len w + 1) (v_mem v) m1) as Hw1 by (apply writes_insert; [by eexists|lia]).
    destruct (fs_find dir w (v_fs v)) as [[d t1]|e] eqn:Ef.
    2:{ rewrite (bind_Err _ _ _ _ Ef). by apply bind_Err. }
    rewrite (bind_Ok _ _ _ _ _ Ef), (bind_Ok _ _ _ _ _ Es). destruct (truth d) eqn:Ed.
    2:{ simpl. exists m1. split; [done|]. eapply writes_weaken; [exact Hw1|lia|]. rewrite length_app. simpl. lia. }
    specialize (IH s' (path + len w + 1) d (with_fs (with_mem v m1) t1)). cbn [v_mem v_fs with_fs with_mem] in IH.
    assert (cstr m1 (path + len w + 1) s') as Hr1.
    { destruct Hr as [Hrb Hrz]. split; [|done]. eapply bytes_at_writes; [exact Hrb|exact Hw1|lia]. }
    specialize (IH Hr1 ltac:(lia) ltac:(lia)). destruct (resolve d (words [] s') t1) as [[d' t']|e]; [|done].
    destruct IH as (m' & El & Hw'). exists m'. split; [exact El|].
    eapply writes_trans; eapply writes_weaken; [exact Hw1|..|exact Hw'|lia|]; rewrite ?length_app; simpl; lia.
Qed.

(** The directory a path starts from. *)
Definition start_dir (s : list Z) v (dir : Z) : Prop :=
  ∃ inode, match s with c :: _ => c =? SEPARATOR | [] => false end = true ∧ v_root v ≠ 0 ∧
      fs_dir_inode (v_root v) (v_fs v) = Ok (inode, v_fs v) ∧ inode ≠ 0 ∧ fs_inode_dir inode (v_fs v) = Ok (dir, v_fs v)
    ∨ match s with c :: _ => c =? SEPARATOR | [] => false end = false ∧ v_cwd v ≠ 0 ∧
      get_inode (v_cwd v) (v_hash v) = Ok (inode, v_hash v) ∧ fs_inode_dir inode (v_fs v) = Ok (dir, v_fs v).

Lemma with_fs_id v : with_fs v (v_fs v) = v.
Proof. by destruct v. Qed.

(** The first character of a path. *)
Lemma path_head p s v : cstr (v_mem v) p s →
  ∃ c, on_mem (load8 p) v = Ok (c, v) ∧ (c =? SEPARATOR) = match s with c :: _ => c =? SEPARATOR | [] => false end.
Proof.
  destruct s as [|c s]; intros H.
  - apply cstr_nil in H. exists 0. split; [by apply on_mem_same, load8_ok|done].
  - apply cstr_cons in H as [H _]. exists c. split; [by apply on_mem_same, load8_ok|done].
Qed.

Lemma cwd_ok p s v dir : cstr (v_mem v) p s → start_dir s v dir →
  ∃ inode, cwd p v = Ok (inode, v) ∧ fs_inode_dir inode (v_fs v) = Ok (dir, v_fs v).
Proof.
  intros H (inode & Hs). destruct (path_head p s v H) as (c & Ec & Es). exists inode. unfold cwd.
  rewrite !(bind_Ok _ _ _ _ _ Ec), Es. erewrite bind_Ok by done.
  destruct Hs as [(Eh & Hr & Ei & Hz & Ed)|(Eh & Hc & Ei & Ed)]; rewrite Eh; (split; [|done]).
  - erewrite bind_Ok by (unfold assertk; rewrite (proj2 (truth_true _) Hr); done).
    erewrite bind_Ok by (apply on_ops_ok; exact Ei). rewrite with_fs_id.
    erewrite bind_Ok by (unfold assertk; rewrite (proj2 (truth_true _) Hz); done). done.
  - erewrite bind_Ok by (unfold assertk; rewrite (proj2 (truth_true _) Hc); done).
    unfold on_hash, zoom. rewrite Ei. by destruct v.
Qed.

Lemma find_dir_walk p s v dir : cstr (v_mem v) p s → start_dir s v dir →
  match resolve dir (path_names s) (v_fs v) with
  | Ok (d, t') => ∃ m', find_dir p v = Ok (d, with_fs (with_mem v m') t') ∧ writes p (len s) (v_mem v) m'
  | Err e => find_dir p v = Err e
  end.
Proof.
  intros H Hs. destruct (cwd_ok p s v dir H Hs) as (inode & Ec & Ed). destruct (path_head p s v H) as (c & El & Eh).
  pose proof (mapped_size _ _ _ (cstr_mapped _ _ _ H)) as Hsz. unfold find_dir.
  rewrite !(bind_Ok _ _ _ _ _ Ec). rewrite (bind_Ok (on_ops (fs_inode_dir inode)) _ v dir v) by (rewrite (on_ops_ok _ _ _ _ Ed); by rewrite with_fs_id).
  rewrite (bind_Ok _ _ _ _ _ El), walk_path_eq, Eh. unfold path_names.
  destruct s as [|x s]; [apply (walk_loop _ _ []); [done|simpl; lia..]|].
  destruct (Z.eqb_spec x SEPARATOR) as [->|].
  - pose proof H as (_ & _ & H')%cstr_cons. cbn [length] in Hsz.
    pose proof (walk_loop (S (size (v_mem v))) (S (size (v_mem v))) s (p + 1) dir v H' ltac:(lia) ltac:(lia)) as Hw.
    destruct (resolve dir (words [] s) (v_fs v)) as [[d t']|e]; [|done]. destruct Hw as (m' & E & Hw). exists m'. split; [done|].
    eapply writes_weaken; [exact Hw|lia|]. cbn [length]. lia.
  - apply walk_loop; [done|cbn [length] in *; lia..].
Qed.

(** C9: [find_dir] on a path in memory is the lookup of its names one after the other,
    from the root or the working directory: the same directory or NULL, the same effect
    on the file system, the same error.  Of the memory only characters of the path
    change.  A final separator and a missing one make no difference; two in a row look
    up an empty name. *)
Theorem find_dir_resolves p s v dir : cstr (v_mem v) p s → start_dir s v dir →
  (∀ d t', resolve dir (path_names s) (v_fs v) = Ok (d, t') → ∃ m',
     find_dir p v = Ok (d, Vfs m' t' (v_hash v) (v_root v) (v_cwd v) (v_open v) (v_files v)) ∧
     writes p (len s) (v_mem v) m') ∧
  (∀ e, resolve dir (path_names s) (v_fs v) = Err e → find_dir p v = Err e).
Proof.
  intros H Hs. pose proof (find_dir_walk p s v dir H Hs) as Hf. split.
  - intros d t' E. by rewrite E in Hf.
  - intros e E. by rewrite E in Hf.
Qed.

(** ** The last name *)

Lemma scan_back_skip k w q (m : mem) : bytes_at m q w → no_sep w → ∀ p n, p + Z.of_nat n = q → (k ≤ length w)%nat →
  scan_back (n + k) p m = scan_back n p m.
Proof.
  intros Hb Hs p n Hp. induction k as [|k IH]; intros Hk; [by rewrite Nat.add_0_r|].
  rewrite <-IH by lia. rewrite Nat.add_succ_r. cbn [scan_back].
  destruct (lookup_lt_is_Some_2 w k) as [c Hc]; [lia|]. pose proof (Hb k c Hc) as Hl.
  replace (p + Z.of_nat (n + k)) with (q + Z.of_nat k) by lia. erewrite bind_Ok by (by apply load8_ok).
  by rewrite (proj2 (Z.eqb_neq c SEPARATOR)) by (by eapply (Forall_lookup_1 _ _ _ _ Hs)).
Qed.

(** With the final 0, which is not a separator. *)
Lemma cstr_tail m p s : cstr m p s → bytes_at m p (s ++ [0]) ∧ (no_sep s → no_sep (s ++ [0])).
Proof. intros [H _]. split; [done|]. intros Hs. apply Forall_app. split; [done|]. by repeat constructor. Qed.

Lemma scan_back_none p s (m : mem) : cstr m p s → no_sep s → scan_back (length s + 1) p m = Ok (-1, m).
Proof.
  intros H Hs. destruct (cstr_tail m p s H) as [Hb Hn]. 
  apply (scan_back_skip (length s + 1) _ _ _ Hb (Hn Hs) p 0); [lia|]. by rewrite length_app.
Qed.

Lemma scan_back_sep p pre suf (m : mem) : cstr m p (pre ++ SEPARATOR :: suf) → no_sep suf →
  scan_back (length (pre ++ SEPARATOR :: suf) + 1) p m = Ok (len pre, m).
Proof.
  intros H Hs. apply cstr_app in H as (_ & _ & H). apply cstr_cons in H as (Hsep & _ & H).
  destruct (cstr_tail m _ suf H) as [Hb Hn].
  replace (length (pre ++ SEPARATOR :: suf) + 1)%nat with (S (length pre) + (length suf + 1))%nat by (rewrite length_app; simpl; lia).
  rewrite (scan_back_skip (length suf + 1) _ _ _ Hb (Hn Hs) p (S (length pre))) by (rewrite ?length_app; simpl; lia).
  cbn [scan_back]. by erewrite bind_Ok by (by apply load8_ok).
Qed.

Lemma strlen_ok p s (m : mem) : cstr m p s → p ≠ 0 → len s < 2 ^ 32 → strlen p m = Ok (len s, m).
Proof.
  intros H Hp Hl. destruct (wp_elim (strlen p) (λ r m', r = len s ∧ m' = m) m) as (r & m' & E & -> & ->); [|done].
  by eapply wp_strlen.
Qed.

(** How far [split_path] goes back. *)
Lemma split_index p s v i : cstr (v_mem v) p s → p ≠ 0 → len s < 2 ^ 32 →
  scan_back (length s + 1) p (v_mem v) = Ok (i, v_mem v) →
  on_mem (len ← strlen p; scan_back (Z.to_nat len + 1) p) v = Ok (i, v).
Proof.
  intros H Hp Hl E. apply on_mem_same. erewrite bind_Ok by (by apply strlen_ok). by rewrite Nat2Z.id.
Qed.

(** [split_path] cuts a path at its last separator.  Without one the name is the
    whole path and the parent the working directory; with the only one in front the
    parent is the root; otherwise the parent is the inode that the part before the
    separator names, and the name is what follows it: nothing for a path that ends with a
    separator. *)
Theorem split_path_cuts p pre suf v : p ≠ 0 → no_sep suf → len pre + len suf + 1 < 2 ^ 32 →
  (∀ inode, cstr (v_mem v) p suf → cwd p v = Ok (inode, v) → split_path p v = Ok ((p, inode), v)) ∧
  (∀ inode, cstr (v_mem v) p (SEPARATOR :: suf) → cwd p v = Ok (inode, v) →
     split_path p v = Ok ((p + 1, inode), v) ∧ cstr (v_mem v) (p + 1) suf) ∧
  (∀ dir d t1 t2 inode, pre ≠ [] → cstr (v_mem v) p (pre ++ SEPARATOR :: suf) → start_dir pre v dir →
     resolve dir (path_names pre) (v_fs v) = Ok (d, t1) → d ≠ 0 →
     fs_dir_ops d t1 = Ok (true, t1) → fs_mount d t1 = Ok (tt, t2) → fs_dir_inode d t2 = Ok (inode, t2) → inode ≠ 0 →
     ∃ m', split_path p v = Ok ((p + len pre + 1, inode), with_fs (with_mem v m') t2) ∧ cstr m' (p + len pre + 1) suf).
Proof.
  intros Hp Hs Hl. split_and!.
  - intros inode H Ec. unfold split_path. erewrite bind_Ok by (eapply split_index; [done|done|lia|by apply scan_back_none]).
    change (-1 <=? 0) with true. cbv iota. erewrite bind_Ok by done. by replace (p + -1 + 1) with p by lia.
  - intros inode H Ec. unfold split_path.
    erewrite bind_Ok by (eapply (split_index p (SEPARATOR :: suf)); [done|done|cbn [length]; lia|by apply (scan_back_sep p [] suf)]).
    change (len (@nil Z) <=? 0) with true. cbv iota. erewrite bind_Ok by done. apply cstr_cons in H as (_ & _ & H). split; [|done].
    by replace (p + len (@nil Z) + 1) with (p + 1) by (simpl; lia).
  - intros dir d t1 t2 inode Hpre H Hst Hr Hd Ho Hm Hi Hz. unfold split_path.
    erewrite bind_Ok by (eapply (split_index p (pre ++ SEPARATOR :: suf)); [done|done|rewrite length_app; simpl; lia|by apply scan_back_sep]).
    apply cstr_app in H as (Hb & Hz' & H). apply cstr_cons in H as (Hsep & _ & H).
    rewrite (proj2 (Z.leb_gt (len pre) 0)) by (destruct pre; [done|simpl; lia]).
    erewrite bind_Ok by (apply on_mem_ok, store8_ok; by eexists). change (u8 0) with 0. set (m1 := <[p + len pre := 0]> (v_mem v)).
    assert (writes (p + len pre) 1 (v_mem v) m1) as Hw1 by (apply writes_insert; [by eexists|lia]).
    assert (cstr m1 p pre) as Hc1.
    { split; [|done]. apply bytes_at_app. split; [eapply bytes_at_writes; [exact Hb|exact Hw1|lia]|].
      apply bytes_at_cons. split; [apply lookup_insert_eq|]. intros j x Hx. by rewrite lookup_nil in Hx. }
    pose proof (find_dir_walk p pre (with_mem v m1) dir Hc1 Hst) as Hf. cbn [v_fs with_mem] in Hf. rewrite Hr in Hf.
    destruct Hf as (m' & Ef & Hw). unfold vfs_find. exists m'. split.
    + erewrite bind_Ok; [|erewrite bind_Ok by exact Ef; rewrite (proj2 (truth_true d) Hd); cbn [negb];
        erewrite bind_Ok by (apply on_ops_ok; exact Ho); rewrite (bind_Ok _ _ _ tt _ eq_refl); erewrite bind_Ok by (apply on_ops_ok; exact Hm); apply on_ops_ok; exact Hi].
      rewrite (proj2 (truth_true inode) Hz). done.
    + destruct H as [Hsb Hsz]. split; [|done]. eapply bytes_at_writes; [|exact Hw|lia].
      eapply bytes_at_writes; [exact Hsb|exact Hw1|lia].
Qed.
End paths.
