(* ===== verification/VfsFiles.v ===== *)
(** * The virtual file system: open files, positions, reading

    The records of the files a task has open, opening and closing over the ext2
    instance, [vfs_lseek], and reading through blocks. *)

From S2P Require Import Prelude Memory CString QLib Vm BlockStore FdHash Ext2 Ext2Inode Ext2Tree Vfs VfsCorrect.
From Stdlib Require Import ZArith Lia.
From stdpp Require Import base countable numbers gmap list.
Open Scope Z_scope.

#[local] Arguments Z.to_nat : simpl never.
#[local] Arguments Z.mul : simpl never.

Section records.
Context {T : Type} `{F : FsOps T}.
Implicit Types (v : @vfs T) (fs : gmap Z open_file).

(** The records [l] are chained from [a] on. *)
Fixpoint records fs (a : Z) (l : list Z) : Prop :=
  match l with
  | [] => a = 0
  | x :: l' => a = x ∧ x ≠ 0 ∧ ∃ f, fs !! x = Some f ∧ records fs (of_next f) l'
  end.
Definition open_list fs (a : Z) (l : list Z) : Prop := records fs a l ∧ NoDup l.

(** The record is one of [inode]. *)
Definition rec_of fs (inode x : Z) : Prop := ∃ f, fs !! x = Some f ∧ of_inode f = inode.

Lemma records_in fs a l x : records fs a l → x ∈ l → x ≠ 0 ∧ is_Some (fs !! x).
Proof.
  revert a. induction l as [|y l IH]; intros a H Hx; [by apply elem_of_nil in Hx|].
  destruct H as (_ & Hz & f & Hf & Hr). apply elem_of_cons in Hx as [->|Hx]; [by split|by eapply IH].
Qed.

Lemma open_list_size fs a l : open_list fs a l → (length l ≤ size fs)%nat.
Proof.
  intros [H Hn]. assert (list_to_set l ⊆ dom fs) as Hs.
  { intros x Hx%elem_of_list_to_set. apply elem_of_dom. by eapply records_in. }
  apply subseteq_size in Hs. rewrite size_dom, size_list_to_set in Hs; done.
Qed.

Lemma rd_open_ok x f v : v_files v !! x = Some f → rd_open x v = Ok (f, v).
Proof. intros E. unfold rd_open, mbind, M_bind, get, deref. by rewrite E. Qed.

Lemma find_open_none inode l v : open_list (v_files v) (v_open v) l → (∀ x, x ∈ l → ¬ rec_of (v_files v) inode x) →
  find_open inode v = Ok (0, v).
Proof.
  intros H Hno. pose proof (open_list_size _ _ _ H) as Hsz. destruct H as [H _]. unfold find_open.
  erewrite bind_Ok by done. set (n := size (v_files v)) in *. clearbody n. revert n Hsz H. generalize (v_open v) as a.
  induction l as [|x l IH]; intros a n Hn H; cbn [loop].
  - simpl in H. subst a. by erewrite bind_Ok by done.
  - destruct H as (-> & Hz & f & Hf & Hr). rewrite (proj2 (Z.eqb_neq x 0) Hz). simpl in Hn. destruct n as [|n]; [lia|].
    erewrite bind_Ok.
    2:{ erewrite bind_Ok by (by apply rd_open_ok). rewrite (proj2 (Z.eqb_neq (of_inode f) inode)); [done|].
        intros E. apply (Hno x); [by left|by exists f]. }
    apply IH; [|lia|done]. intros y Hy. apply Hno. by right.
Qed.

(** The body of the loop of [remove_open_file]. *)
Definition remove_step (inode : Z) : Z * Z → M (@vfs T) ((Z * Z) + Z) := λ '(file, prev),
  if file =? 0 then fail Assert
  else
    f ← rd_open file;
    if of_inode f =? inode then
      (if prev =? 0 then set_open (of_next f)
       else p ← rd_open prev; wr_open prev (OpenFile (of_inode p) (of_fd p) (of_next f)));;
      mret (inr file)
    else mret (inl (of_next f, file)).

Lemma remove_none inode l v : open_list (v_files v) (v_open v) l → (∀ x, x ∈ l → ¬ rec_of (v_files v) inode x) →
  remove_open_file inode v = Err Assert.
Proof.
  intros H Hno. pose proof (open_list_size _ _ _ H) as Hsz. destruct H as [H _]. unfold remove_open_file.
  erewrite bind_Ok by done. fold (remove_step inode). set (n := size (v_files v)) in *. clearbody n.
  revert n Hsz H. generalize (v_open v) as a. generalize 0 as prev.
  induction l as [|x l IH]; intros prev a n Hn H; cbn [loop].
  - simpl in H. subst a. by erewrite bind_Err by done.
  - destruct H as (-> & Hz & f & Hf & Hr). simpl in Hn. destruct n as [|n]; [lia|].
    erewrite bind_Ok.
    2:{ unfold remove_step at 1. rewrite (proj2 (Z.eqb_neq x 0) Hz). erewrite bind_Ok by (by apply rd_open_ok).
        rewrite (proj2 (Z.eqb_neq (of_inode f) inode)); [done|]. intros E. apply (Hno x); [by left|by exists f]. }
    apply IH; [|lia|done]. intros y Hy. apply Hno. by right.
Qed.

(** Taking the record [x] out of the chain after [prev] (0 at the front). *)
Definition unlinked v (prev x : Z) (f : open_file) : @vfs T :=
  let h := if prev =? 0 then of_next f else v_open v in
  let fs := match v_files v !! prev with
            | Some p => if prev =? 0 then v_files v else <[prev := OpenFile (of_inode p) (of_fd p) (of_next f)]> (v_files v)
            | None => v_files v
            end in
  Vfs (v_mem v) (v_fs v) (v_hash v) (v_root v) (v_cwd v) h fs.

Lemma remove_loop inode x f l2 v : v_files v !! x = Some f → of_inode f = inode →
  ∀ l1 prev a n, records (v_files v) a (l1 ++ x :: l2) → (∀ y, y ∈ l1 → ¬ rec_of (v_files v) inode y) →
  (length l1 < n)%nat → (prev ≠ 0 → is_Some (v_files v !! prev)) →
  loop n (remove_step inode) (a, prev) v = Ok (x, unlinked v (List.last l1 prev) x f).
Proof.
  intros Hx Hi. induction l1 as [|y l1 IH]; intros prev a n H Hno Hn Hp; (destruct n as [|n]; [simpl in Hn; lia|]); cbn [loop].
  - simpl in H. destruct H as (-> & Hz & f' & Hf & _). simplify_eq. rewrite (bind_Ok _ _ _ (inr x) (unlinked v prev x f)); [done|].
    unfold remove_step. rewrite (proj2 (Z.eqb_neq x 0) Hz). erewrite bind_Ok by (by apply rd_open_ok). rewrite Z.eqb_refl.
    unfold unlinked. cbn [List.last]. destruct (Z.eqb_spec prev 0) as [->|Hne].
    + erewrite bind_Ok by done. destruct (v_files v !! 0); done.
    + destruct (Hp Hne) as [p Ep]. rewrite Ep. erewrite bind_Ok; [|erewrite bind_Ok by (by apply rd_open_ok); done]. done.
  - destruct H as (-> & Hz & g & Hg & Hr). erewrite bind_Ok.
    2:{ unfold remove_step at 1. rewrite (proj2 (Z.eqb_neq y 0) Hz). erewrite bind_Ok by (by apply rd_open_ok).
        rewrite (proj2 (Z.eqb_neq (of_inode g) inode)); [done|]. intros E. apply (Hno y); [by left|by exists g]. }
    cbv iota. rewrite (IH y); [|done|intros z Hz'; apply Hno; by right|simpl in Hn; lia|intros _; by exists g].
    destruct l1 as [|z l1]; [done|]. do 3 f_equal. clear. revert z. induction l1 as [|w l1 IH]; intros z; [done|]. apply (IH w).
Qed.

Lemma records_ext fs fs' a l : (∀ x, x ∈ l → fs' !! x = fs !! x) → records fs a l → records fs' a l.
Proof.
  revert a. induction l as [|x l IH]; intros a He H; [done|]. destruct H as (-> & Hz & f & Hf & Hr).
  split_and!; [done|done|]. exists f. split; [rewrite He; [done|by left]|]. apply IH; [|done]. intros y Hy. apply He. by right.
Qed.

Lemma records_unlink fs x f l2 p q : ∀ l1 a, records fs a ((l1 ++ [p]) ++ x :: l2) → NoDup ((l1 ++ [p]) ++ x :: l2) →
  fs !! x = Some f → fs !! p = Some q →
  records (<[p := OpenFile (of_inode q) (of_fd q) (of_next f)]> fs) a ((l1 ++ [p]) ++ l2).
Proof.
  induction l1 as [|y l1 IH]; intros a H Hn Hx Hp.
  - simpl in *. destruct H as (-> & Hz & g & Hg & Enx & Hxz & f' & Hf & Hr). simplify_eq.
    apply NoDup_cons in Hn as [Hn1 Hn2]. split_and!; [done|done|]. rewrite lookup_insert_eq. eexists. split; [done|]. simpl.
    eapply records_ext; [|exact Hr]. intros y Hy. rewrite lookup_insert_ne; [done|]. intros ->. apply Hn1. by right.
  - destruct H as (-> & Hz & g & Hg & Hr). apply NoDup_cons in Hn as [Hn1 Hn2]. split_and!; [done|done|].
    exists g. split; [|by apply IH]. rewrite lookup_insert_ne; [done|]. intros ->. apply Hn1.
    rewrite !elem_of_app. left. right. by left.
Qed.

(** A new record in front. *)
Lemma open_list_cons fs a l x g fd : open_list fs a l → fs !! x = None → x ≠ 0 →
  open_list (<[x := OpenFile g fd a]> fs) x (x :: l).
Proof.
  intros [H Hn] Hx Hz. assert (x ∉ l) as Hxl by (intros Hi; destruct (records_in _ _ _ _ H Hi) as [_ [? ?]]; congruence).
  split; [|by constructor]. cbn [records]. split_and!; [done|done|]. rewrite lookup_insert_eq. eexists. split; [done|].
  eapply records_ext; [|exact H]. intros y Hy. apply lookup_insert_ne. by intros ->.
Qed.

Lemma unlinked_list v l1 x f l2 : open_list (v_files v) (v_open v) (l1 ++ x :: l2) → v_files v !! x = Some f →
  open_list (v_files (unlinked v (List.last l1 0) x f)) (v_open (unlinked v (List.last l1 0) x f)) (l1 ++ l2) ∧
  (∀ y, of_inode <$> v_files (unlinked v (List.last l1 0) x f) !! y = of_inode <$> v_files v !! y).
Proof.
  intros [H Hn] Hx. assert (NoDup (l1 ++ l2)) as Hn' by (apply NoDup_app in Hn as (? & Hd & [??]%NoDup_cons); apply NoDup_app; split_and!; [done|set_solver|done]).
  destruct l1 as [|p l1 _] using rev_ind.
  - unfold unlinked. cbn [List.last v_files v_open]. rewrite Z.eqb_refl. simpl in H. destruct H as (_ & _ & f' & Hf & Hr). simplify_eq.
    destruct (v_files v !! 0); (split; [split; [exact Hr|exact Hn']|done]).
  - rewrite List.last_last. destruct (records_in _ _ _ p H) as [Hz [q Hq]]; [rewrite !elem_of_app; left; right; by left|].
    unfold unlinked. cbn [v_files v_open]. rewrite Hq, (proj2 (Z.eqb_neq p 0) Hz). split; [split; [by apply (records_unlink _ x)|done]|].
    intros y. destruct (decide (y = p)) as [->|]; [rewrite lookup_insert_eq, Hq; done|by rewrite lookup_insert_ne].
Qed.

Lemma remove_found inode l1 x f l2 v : open_list (v_files v) (v_open v) (l1 ++ x :: l2) → v_files v !! x = Some f →
  of_inode f = inode → (∀ y, y ∈ l1 → ¬ rec_of (v_files v) inode y) →
  remove_open_file inode v = Ok (x, unlinked v (List.last l1 0) x f).
Proof.
  intros H Hx Hi Hno. pose proof (open_list_size _ _ _ H) as Hsz. destruct H as [H _]. rewrite length_app in Hsz. simpl in Hsz.
  unfold remove_open_file. erewrite bind_Ok by done. fold (remove_step inode).
  eapply (remove_loop inode x f l2); [done|done|exact H|done|lia|done].
Qed.
End records.

Lemma on_hash_same {T} {A} (k : M hash A) (v : @vfs T) a : k (v_hash v) = Ok (a, v_hash v) → on_hash k v = Ok (a, v).
Proof. intros E. unfold on_hash, zoom. rewrite E. by destruct v. Qed.

(** ** Opening and closing over ext2 *)

Section open_close.
Context {St : Type} `{B : BlockStore St} (i : ext2_sb_info).
Variable mark : Z → Z → M St unit.
Variable junk : Z → list Z.
Variable raw : raw_object.
Variable fuel : nat.
Variable dir_addr node_addr : @tree St → Z.
Variable now : Z.
Variable kmalloc : Z → M mem Z.
Variable kfree : Z → M mem unit.
Variable file_addr : gmap Z open_file → Z.
Hypothesis file_fresh : ∀ fs, file_addr fs ≠ 0 ∧ fs !! file_addr fs = None.
#[local] Instance ops : FsOps (@tree St) := ext2_fs_ops i mark junk raw fuel dir_addr node_addr now.
Implicit Types v : @vfs (@tree St).

(** The inode object [a] with its count of opens set to [k]. *)
Definition with_refs (t : @tree St) (a k : Z) (n : node) : @tree St :=
  Tree (t_store t) (t_dirs t) (<[a := Node (with_i_refCnt k (n_inode n)) (n_info n) (n_dir n)]> (t_nodes t)).

Lemma rd_node_ok a n (t : @tree St) : t_nodes t !! a = Some n → rd_node a t = Ok (n, t).
Proof. intros E. unfold rd_node, mbind, M_bind, get, deref. by rewrite E. Qed.

Lemma refCnt_ok a n v : t_nodes (v_fs v) !! a = Some n → on_ops (fs_refCnt a) v = Ok (i_refCnt (n_inode n), v).
Proof.
  intros E. rewrite <-(with_fs_id v) at 2. apply on_ops_ok. simpl. by erewrite bind_Ok by (by apply rd_node_ok).
Qed.
Lemma set_refCnt_ok a n k v : t_nodes (v_fs v) !! a = Some n →
  on_ops (fs_set_refCnt a k) v = Ok (tt, with_fs v (with_refs (v_fs v) a k n)).
Proof. intros E. apply on_ops_ok. simpl. unfold upd_inode. by erewrite bind_Ok by (by apply rd_node_ok). Qed.

(** The start of [vfs_close]. *)
Lemma close_start fd a n v : get_inode fd (v_hash v) = Ok (a, v_hash v) → a ≠ 0 → t_nodes (v_fs v) !! a = Some n →
  let v1 := with_fs v (with_refs (v_fs v) a (u16 (i_refCnt (n_inode n) - 1)) n) in
  vfs_close fd v = (file ← remove_open_file a;
    k ← on_ops (fs_refCnt a);
    if k =? 0 then free_open file;; on_hash (free_fd fd);; on_ops (fs_close a) else mret 0) v1.
Proof.
  intros Hg Hz Hn v1. unfold vfs_close. rewrite (bind_Ok _ _ _ _ _ (on_hash_same _ v _ Hg)).
  rewrite (proj2 (truth_true a) Hz). cbn [negb]. rewrite (bind_Ok _ _ _ _ _ (refCnt_ok a n v Hn)).
  by rewrite (bind_Ok _ _ _ _ _ (set_refCnt_ok a n _ v Hn)).
Qed.

(** Closing a file the current task has no record of. *)
Lemma close_unlisted fd a n l v : get_inode fd (v_hash v) = Ok (a, v_hash v) → a ≠ 0 → t_nodes (v_fs v) !! a = Some n →
  open_list (v_files v) (v_open v) l → (∀ x, x ∈ l → ¬ rec_of (v_files v) a x) → vfs_close fd v = Err Assert.
Proof. intros Hg Hz Hn Hl Hno. rewrite (close_start fd a n v) by done. apply bind_Err. by apply (remove_none a l). Qed.

(** the files of a task that has ended are closed by another task, the cleaner,
    which has none open: [recycle_open_file] then panics at the first of them. *)
Theorem exit_open_panics open f a n v : open ≠ 0 → v_files v !! open = Some f → v_open v = 0 →
  get_inode (of_fd f) (v_hash v) = Ok (a, v_hash v) → a ≠ 0 → t_nodes (v_fs v) !! a = Some n →
  recycle_open_file open v = Err Assert.
Proof.
  intros Hz Hf Ho Hg Ha Hn. unfold recycle_open_file.
  erewrite bind_Ok by (unfold assertk; rewrite (proj2 (truth_true _) Hz); done). erewrite bind_Ok by done. cbn [loop].
  apply bind_Err. rewrite (proj2 (Z.eqb_neq open 0) Hz). erewrite bind_Ok by (by apply rd_open_ok). apply bind_Err.
  apply (close_unlisted (of_fd f) a n []); try done; [|by intros x ?%elem_of_nil]. split; [done|constructor].
Qed.

(** a task that opened a file twice has one record of it but counts two opens: the
    first [vfs_close] removes the record and succeeds, the second one panics. *)
Theorem close_twice_panics fd a n l1 x f l2 v :
  get_inode fd (v_hash v) = Ok (a, v_hash v) → a ≠ 0 → t_nodes (v_fs v) !! a = Some n →
  2 ≤ i_refCnt (n_inode n) < 2 ^ 16 → open_list (v_files v) (v_open v) (l1 ++ x :: l2) →
  v_files v !! x = Some f → of_inode f = a → (∀ y, y ∈ l1 ++ l2 → ¬ rec_of (v_files v) a y) →
  ∃ v', vfs_close fd v = Ok (0, v') ∧ vfs_close fd v' = Err Assert.
Proof.
  intros Hg Ha Hn Hr Hl Hx Hf Hno.
  set (v1 := with_fs v (with_refs (v_fs v) a (u16 (i_refCnt (n_inode n) - 1)) n)).
  exists (unlinked v1 (List.last l1 0) x f).
  assert (t_nodes (v_fs v1) !! a = Some (Node (with_i_refCnt (u16 (i_refCnt (n_inode n) - 1)) (n_inode n)) (n_info n) (n_dir n))) as Hn1
    by (apply lookup_insert_eq).
  split.
  - rewrite (close_start fd a n v) by done. fold v1.
    erewrite bind_Ok by (eapply (remove_found a l1 x f l2 v1); [exact Hl|exact Hx|exact Hf|]; intros y Hy; apply Hno, elem_of_app; by left).
    erewrite bind_Ok by (eapply refCnt_ok; exact Hn1). cbn [i_refCnt n_inode with_i_refCnt].
    rewrite u16_small, (proj2 (Z.eqb_neq _ 0)) by lia. done.
  - destruct (unlinked_list v1 l1 x f l2 Hl Hx) as [Hl' He].
    eapply close_unlisted; [exact Hg|exact Ha|exact Hn1|exact Hl'|]. intros y Hy (g & Hg' & E). apply (Hno y Hy).
    specialize (He y). rewrite Hg' in He. simpl in He. change (v_files v1) with (v_files v) in He.
    destruct (v_files v !! y) as [h|] eqn:Eh; [|done]. exists h. simpl in He. split; [done|]. congruence.
Qed.

Lemma on_node_same {A} a n (m : M (@file St) A) (t : @tree St) r : t_nodes t !! a = Some n →
  m (File (Fs (t_store t) (n_info n)) (n_inode n)) = Ok (r, File (Fs (t_store t) (n_info n)) (n_inode n)) →
  on_node a m t = Ok (r, t).
Proof.
  intros Hn Hm. unfold on_node. erewrite bind_Ok by (by apply rd_node_ok). erewrite bind_Ok by done. rewrite Hm. cbn [f_fs f_inode store info].
  unfold mbind, M_bind, modify, mret, M_ret. do 2 f_equal. destruct t as [s d ns], n. cbn in *. by rewrite insert_id.
Qed.

(** The task's records after a new one was put in front. *)
Definition with_record v (h : hash) (t : @tree St) (m : mem) (a fd : Z) : @vfs (@tree St) :=
  let x := file_addr (v_files v) in
  Vfs m t h (v_root v) (v_cwd v) x (<[x := OpenFile a fd (v_open v)]> (v_files v)).

Lemma open_inode_ok path fd a n l v h m' : alloc_fd a (v_hash v) = Ok (fd, h) → 0 ≤ fd → t_nodes (v_fs v) !! a = Some n →
  kfree path (v_mem v) = Ok (tt, m') → open_list (v_files v) (v_open v) l → (∀ x, x ∈ l → ¬ rec_of (v_files v) a x) →
  open_inode kfree file_addr path a v =
    Ok (fd, with_record v h (with_refs (v_fs v) a (u16 (i_refCnt (n_inode n) + 1)) n) m' a fd).
Proof.
  intros Hal Hfd Hn Hk Hl Hno. unfold open_inode. set (v1 := Vfs (v_mem v) (v_fs v) h (v_root v) (v_cwd v) (v_open v) (v_files v)).
  rewrite (bind_Ok _ _ _ fd v1) by (unfold on_hash, zoom; by rewrite Hal). rewrite (proj2 (Z.ltb_ge fd 0)) by done.
  rewrite (bind_Ok _ _ _ 0 v1).
  2:{ rewrite <-(with_fs_id v1) at 2. apply on_ops_ok. cbn [fs_open ops ext2_fs_ops]. by apply (on_node_same a n). }
  cbn [negb Z.eqb]. rewrite (bind_Ok _ _ _ _ _ (refCnt_ok a n v1 Hn)), (bind_Ok _ _ _ _ _ (set_refCnt_ok a n _ v1 Hn)).
  erewrite bind_Ok by (apply on_mem_ok; exact Hk). unfold add_open_file.
  erewrite bind_Ok; [done|]. erewrite bind_Ok by (eapply (find_open_none a l); [exact Hl|exact Hno]).
  change (truth 0) with false. cbv iota. done.
Qed.

(** The inode object [a] as [ext2_close] leaves it: a directory is back at its start. *)
Definition rewind (x : inode) : inode := if ext2_is_dir x then with_i_offset 0 x else x.
Definition rewound (t : @tree St) (a : Z) (n : node) : @tree St :=
  Tree (t_store t) (t_dirs t) (<[a := Node (rewind (n_inode n)) (n_info n) (n_dir n)]> (t_nodes t)).

Lemma close_node a n (t : @tree St) : t_nodes t !! a = Some n → fs_close a t = Ok (0, rewound t a n).
Proof.
  intros Hn. cbn [fs_close ops ext2_fs_ops]. unfold on_node. erewrite bind_Ok by (by apply rd_node_ok). erewrite bind_Ok by done.
  unfold ext2_close, rewound, rewind. erewrite bind_Ok by done. cbn [f_inode]. destruct (ext2_is_dir (n_inode n)); cbn [andb]; [|done].
  destruct (Z.eqb_spec (i_offset (n_inode n)) 0) as [E|E]; cbn [negb]; [|done].
  assert (with_i_offset 0 (n_inode n) = n_inode n) as -> by (destruct (n_inode n); cbn in *; by rewrite E). done.
Qed.

(** Closing the last open of a file whose record is the first. *)
Lemma close_last fd a n x nx l v h' : get_inode fd (v_hash v) = Ok (a, v_hash v) → a ≠ 0 → t_nodes (v_fs v) !! a = Some n →
  i_refCnt (n_inode n) = 1 → v_files v !! x = Some (OpenFile a fd nx) →
  open_list (v_files v) (v_open v) (x :: l) → free_fd fd (v_hash v) = Ok (tt, h') →
  let n0 := Node (with_i_refCnt 0 (n_inode n)) (n_info n) (n_dir n) in
  vfs_close fd v = Ok (0, Vfs (v_mem v) (rewound (with_refs (v_fs v) a 0 n) a n0) h' (v_root v) (v_cwd v) nx (delete x (v_files v))).
Proof.
  intros Hg Ha Hn Hr Hx Hl Hf n0. rewrite (close_start fd a n v) by done. rewrite Hr. change (u16 (1 - 1)) with 0.
  set (v2 := with_fs v (with_refs (v_fs v) a 0 n)).
  erewrite bind_Ok by (eapply (remove_found a [] x _ l v2); [exact Hl|exact Hx|done|by intros y ?%elem_of_nil]).
  set (v3 := unlinked _ _ _ _).
  assert (v3 = Vfs (v_mem v) (with_refs (v_fs v) a 0 n) (v_hash v) (v_root v) (v_cwd v) nx (v_files v)) as E3.
  { unfold v3, unlinked. cbn [List.last]. rewrite Z.eqb_refl. by destruct (v_files v2 !! 0). }
  assert (t_nodes (v_fs v3) !! a = Some n0) as Hn3 by (rewrite E3; apply lookup_insert_eq).
  rewrite (bind_Ok _ _ _ _ _ (refCnt_ok a n0 v3 Hn3)). cbn [n0 n_inode i_refCnt with_i_refCnt]. fold n0. rewrite Z.eqb_refl.
  rewrite E3 in Hn3 |- *. cbn [v_fs] in Hn3. erewrite bind_Ok by done. cbn [v_mem v_fs v_hash v_root v_cwd v_open v_files].
  rewrite (bind_Ok _ _ _ tt (Vfs (v_mem v) (with_refs (v_fs v) a 0 n) h' (v_root v) (v_cwd v) nx (delete x (v_files v)))).
  2:{ unfold on_hash, zoom. cbn [v_hash]. by rewrite Hf. }
  unfold on_ops, zoom. cbn [v_fs]. by rewrite (close_node a n0 _ Hn3).
Qed.

Lemma with_refs_back (t : @tree St) a n k : i_refCnt (n_inode n) = 0 →
  let n1 := Node (with_i_refCnt k (n_inode n)) (n_info n) (n_dir n) in
  rewound (with_refs (with_refs t a k n) a 0 n1) a (Node (with_i_refCnt 0 (n_inode n1)) (n_info n1) (n_dir n1)) = rewound t a n.
Proof.
  intros Hr n1. destruct t as [s d ns]. unfold rewound, with_refs. cbn [t_store t_dirs t_nodes n_inode n_info n_dir n1] in *. f_equal.
  rewrite !insert_insert_eq. do 2 f_equal. destruct n as [x y z]. cbn in *. destruct x. cbn in *. by subst.
Qed.

(** C11: [vfs_open] of a path that names an inode which no task has open, then [vfs_close]:
    [vfs_open] binds the lowest free descriptor, counts one open and puts a record in front
    of those of the task; [vfs_close] of the descriptor gives back the inode, the records
    and the descriptors as they were, except that a directory is at position 0.  The hash
    table must have a place for the inode among the 33 that are tried. *)
Theorem open_close_restores p v0 path v' fds fd a n l v m' :
  parse_path kmalloc p v0 = Ok (path, v') → vfs_find path v' = Ok (a, v) →
  fd_rep fds (v_hash v) → KERNEL_START < a → (∀ g, fds !! g ≠ Some a) → lowest_free fds fd →
  (∃ j, 0 ≤ j ≤ 32 ∧ free_slot (v_hash v) a j) →
  t_nodes (v_fs v) !! a = Some n → i_refCnt (n_inode n) = 0 →
  open_list (v_files v) (v_open v) l → (∀ x, x ∈ l → ¬ rec_of (v_files v) a x) → kfree path (v_mem v) = Ok (tt, m') →
  ∃ v1 v2, vfs_open kmalloc kfree file_addr p v0 = Ok (fd, v1) ∧ get_inode fd (v_hash v1) = Ok (a, v_hash v1) ∧
    v_fs v1 = with_refs (v_fs v) a 1 n ∧ v_open v1 = file_addr (v_files v) ∧
    v_files v1 = <[v_open v1 := OpenFile a fd (v_open v)]> (v_files v) ∧ vfs_close fd v1 = Ok (0, v2) ∧
    v_fs v2 = rewound (v_fs v) a n ∧ v_open v2 = v_open v ∧ v_files v2 = v_files v ∧ fd_rep fds (v_hash v2).
Proof.
  intros Hp Hfind Hrep Hk Hnew Hlow Hslot Hn Hr Hl Hno Hfree. destruct (alloc_fd_ok fds (v_hash v) a Hrep Hk) as [_ Hal].
  destruct (Hal Hnew) as [Hal1 _]. destruct (Hal1 fd Hlow Hslot) as (h & Ea & Hrep1 & Eg). destruct Hlow as ((Hfd & _) & Hfn & _).
  pose proof (open_inode_ok path fd a n l v h m' Ea Hfd Hn Hfree Hl Hno) as Eo. rewrite Hr in Eo. change (u16 (0 + 1)) with 1 in Eo.
  destruct (file_fresh (v_files v)) as [Hxz Hxf]. unfold with_record in Eo. cbv zeta in Eo.
  set (x := file_addr (v_files v)) in *. set (v1 := Vfs _ _ _ _ _ _ _) in Eo.
  set (n1 := Node (with_i_refCnt 1 (n_inode n)) (n_info n) (n_dir n)).
  assert (t_nodes (v_fs v1) !! a = Some n1) as Hn1 by (apply lookup_insert_eq).
  assert (a ≠ 0) as Ha by (unfold KERNEL_START in Hk; lia).
  destruct (wp_elim (free_fd fd) (λ _ h', fd_rep fds h') h) as ([] & h' & Ef & Hrep2).
  { eapply (wp_free_fd (<[fd := a]> fds)); [done|apply lookup_insert_eq|]. intros h' Hh. by rewrite delete_insert_id in Hh. }
  pose proof (close_last fd a n1 x (v_open v) l v1 h' Eg Ha Hn1 eq_refl (lookup_insert_eq _ _ _)
    (open_list_cons _ _ _ _ _ _ Hl Hxf Hxz) Ef) as Ec.
  exists v1. eexists. split_and!; [|done|done|done|done|exact Ec|..|done]; cbn [v_fs v_open v_files].
  - unfold vfs_open. rewrite (bind_Ok _ _ _ _ _ Hp), (bind_Ok _ _ _ _ _ Hfind), (proj2 (truth_true a) Ha). exact Eo.
  - by apply with_refs_back.
  - done.
  - by apply delete_insert_id.
Qed.
End open_close.
