(* ===== verification/VfsRead.v ===== *)
(** * The virtual file system: reading and positions

    [vfs_read] over ext2: the loop reads block after block of a file whose blocks are all
    there.  [vfs_lseek] and its arithmetic.  Writing over a file of several blocks. *)

From S2P Require Import Prelude Memory QLib Page BlockStore FdHash Ext2 Ext2Dir Ext2Correct Ext2DirCorrect Ext2Directory Ext2Inode Ext2InodeCorrect Ext2InodeAlloc Ext2Tree Ext2TreeCorrect Vfs VfsCorrect VfsFiles.
From Stdlib Require Import ZArith Lia.
From stdpp Require Import base countable numbers gmap list.
Open Scope Z_scope.

#[local] Arguments Z.to_nat : simpl never.
#[local] Arguments Z.mul : simpl never.
#[local] Arguments Z.div : simpl never.
#[local] Arguments Z.modulo : simpl never.

(** ** Files as sequences of pages *)

Lemma drop_concat (ps : list bytes) (k : nat) o : Forall (λ d, length d = 4096%nat) ps → (k ≤ length ps)%nat →
  drop (4096 * k + o) (concat ps) = drop o (concat (drop k ps)).
Proof.
  intros H. revert k. induction H as [|d ps Hd _ IH]; intros k Hk.
  - simpl in Hk. replace k with 0%nat by lia. by rewrite drop_0.
  - destruct k as [|k]; [by rewrite Nat.mul_0_r|]. simpl in Hk. cbn [concat drop]. rewrite <-IH by lia.
    replace (4096 * S k + o)%nat with (length d + (4096 * k + o))%nat by lia. by rewrite drop_app_add.
Qed.

Lemma concat_pages (ps : list bytes) : Forall (λ d, length d = 4096%nat) ps → length (concat ps) = (4096 * length ps)%nat.
Proof. induction 1 as [|d ps Hd _ IH]; [done|]. cbn [concat length]. rewrite length_app, IH. lia. Qed.

(** The bytes a read within a block returns. *)
Lemma page_bytes ps off n d : Forall (λ d, length d = 4096%nat) ps → 0 ≤ off → ps !! Z.to_nat (off / 4096) = Some d →
  0 ≤ n ≤ 4096 - off mod 4096 → get_bytes d (off mod 4096) (Z.to_nat n) = take (Z.to_nat n) (drop (Z.to_nat off) (concat ps)).
Proof.
  intros H Ho Hk Hn. pose proof (Z.div_mod off 4096 ltac:(lia)) as Hdm. pose proof (Z.mod_pos_bound off 4096 ltac:(lia)).
  pose proof (Z.div_pos off 4096 Ho ltac:(lia)). pose proof (lookup_lt_Some _ _ _ Hk).
  replace (Z.to_nat off) with (4096 * Z.to_nat (off / 4096) + Z.to_nat (off mod 4096))%nat by lia.
  rewrite drop_concat by (done || lia). rewrite (drop_S _ _ _ Hk). cbn [concat].
  pose proof (proj1 (Forall_lookup _ _) H _ _ Hk) as Hd. simpl in Hd.
  rewrite drop_app_le by lia. unfold get_bytes. rewrite take_app_le by (rewrite length_drop; lia). done.
Qed.

Section read.
Context {St : Type} `{B : BlockStore St} (i : ext2_sb_info).
Hypothesis G : geometry i.
Variable mark : Z → Z → M St unit.
Hypothesis mark_ok : ∀ a st s, bs_inv s → wp (mark a st) (λ _ s', keeps s s') s.
Variable junk : Z → list Z.
Variable raw : raw_object.
Variable fuel : nat.
Variable dir_addr node_addr : @tree St → Z.
Variable now : Z.
#[local] Instance rops : FsOps (@tree St) := ext2_fs_ops i mark junk raw fuel dir_addr node_addr now.
Implicit Types t : @tree St.

(** The pages of a file; all its blocks are there. *)
Record file_pages (f : @file St) (ps : list bytes) : Prop := FilePages {
  fp_vol : vol_ok i (store (f_fs f));
  fp_len : length (blocks (info (f_fs f))) = 15%nat;
  fp_size : 0 ≤ i_size (f_inode f) < 2 ^ 32 - 4096;
  fp_count : len ps = (i_size (f_inode f) + 4095) / 4096;
  fp_page : ∀ k d, ps !! k = Some d → ∃ bid, block_of (f_fs f) (Z.of_nat k) = bid ∧ bid ≠ 0 ∧ 0 ≤ bid < nblocks i ∧
    Forall (λ x, 0 ≤ x < nblocks i) (path_of (f_fs f) (Z.of_nat k)) ∧ blk (store (f_fs f)) bid = Some d }.

Lemma fp_lengths f ps : file_pages f ps → Forall (λ d, length d = 4096%nat) ps.
Proof.
  intros H. apply Forall_lookup. intros k d Hk. destruct (fp_page _ _ H k d Hk) as (bid & _ & _ & _ & _ & Hb).
  destruct (bs_page _ _ _ (v_inv _ _ (fp_vol _ _ H)) Hb) as [Hl _]. exact Hl.
Qed.

Lemma fp_keeps f ps s' : file_pages f ps → keeps (store (f_fs f)) s' →
  ∀ x, i_size x = i_size (f_inode f) → file_pages (File (Fs s' (info (f_fs f))) x) ps.
Proof.
  intros [H1 H2 H3 H4 H5] Hk x Ex. split; cbn [f_fs f_inode store info]; rewrite ?Ex; try done; [by eapply keeps_vol|].
  intros k d Hd. destruct (H5 k d Hd) as (bid & E & Hz & Hr & Hp & Hb). destruct (block_of_keeps (f_fs f) s' (Z.of_nat k) Hk) as [E1 E2].
  exists bid. rewrite E1, E2. do 4 (split; [done|]). transitivity (blk (store (f_fs f)) bid); [apply Hk|done].
Qed.

(** One call of [ext2_read]. *)
Lemma wp_read_step f ps off n : file_pages f ps → 0 ≤ off < 2 ^ 32 → 0 < n →
  wp (ext2_read i off n) (λ r f', f' = with_disk f (store (f_fs f')) ∧ keeps (store (f_fs f)) (store (f_fs f')) ∧
    r = take (Z.to_nat (span off n)) (drop (Z.to_nat off) (concat ps))) f.
Proof.
  intros H Ho Hn. pose proof (Z.mod_pos_bound off 4096 ltac:(lia)) as Hm. pose proof (Z.div_mod off 4096 ltac:(lia)) as Hdm.
  pose proof (fp_lengths f ps H) as Hls. pose proof (Z.div_pos off 4096 ltac:(lia) ltac:(lia)) as Hq.
  destruct (ps !! Z.to_nat (off / 4096)) as [d|] eqn:Ek.
  - destruct (fp_page _ _ H _ _ Ek) as (bid & E & Hz & Hr & Hp & Hb). rewrite Z2Nat.id in E, Hp by done.
    pose proof (lookup_lt_Some _ _ _ Ek) as Hlt. pose proof (fp_count _ _ H) as Hc. pose proof (fp_size _ _ H) as Hs.
    eapply wp_mono; [eapply (wp_read i G); [apply H|apply H|done|lia| |exact Hp|exact E|exact Hz|exact Hr|exact Hb]|].
    + change (2 ^ 32) with 4294967296 in *. change (2 ^ 33) with 8589934592. assert (off / 4096 < (i_size (f_inode f) + 4095) / 4096) as Hk by lia.
      clear -Hk Hs. Z.div_mod_to_equations. lia.
    + intros r f' (-> & Ef & Hk). split_and!; [done|done|]. apply page_bytes; [done|lia|done|unfold span; lia].
  - apply lookup_ge_None in Ek. pose proof (fp_count _ _ H) as Hc. pose proof (fp_size _ _ H) as Hs.
    unfold ext2_read, the_inode. do 2 wp_step. rewrite (g_bs i G). rewrite (proj2 (Z.leb_le _ _)).
    2:{ rewrite u64_small by (change (2 ^ 32) with 4294967296 in *; change (2 ^ 64) with 18446744073709551616; lia).
        replace (i_size (f_inode f) + 4096 - 1) with (i_size (f_inode f) + 4095) by lia. lia. }
    wp_step. destruct f as [[s x] y]. split_and!; [done|apply vkeeps_refl, H|].
    rewrite drop_ge, take_nil; [done|]. rewrite concat_pages by done. lia.
Qed.

(** The inode object [a] at position [k]. *)
Definition at_offset (n : node) (k : Z) : node := Node (with_i_offset k (n_inode n)) (n_info n) (n_dir n).
Definition moved t (s' : St) (a : Z) (n : node) (k : Z) : @tree St :=
  Tree s' (t_dirs t) (<[a := at_offset n k]> (t_nodes t)).

(** A round of [read_loop] at position [off]. *)
Lemma wp_read_round t a n ps off size : file_pages (file_of (t_store t) n) ps → 0 ≤ off → 0 < size → off + size < 2 ^ 32 →
  ∀ s, keeps (t_store t) s →
  wp (fs_read a off size) (λ r t', ∃ s', keeps (t_store t) s' ∧ t' = moved t s' a n off ∧
    r = take (Z.to_nat (span off size)) (drop (Z.to_nat off) (concat ps))) (moved t s a n off).
Proof.
  intros H Ho Hs Hb s Hk. cbn [fs_read rops ext2_fs_ops]. eapply wp_on_node; [apply lookup_insert_eq|].
  cbn [t_store moved at_offset file_of fs_of n_info n_inode n_dir].
  eapply wp_mono; [eapply (wp_read_step _ ps); [apply (fp_keeps (file_of (t_store t) n)); [exact H|exact Hk|done]|lia|done]|].
  intros r f' (Ef & Hk' & ->). cbn [f_fs store] in Hk'. exists (store (f_fs f')). split_and!; [by eapply vkeeps_trans| |done].
  rewrite Ef. unfold moved. cbn [with_disk f_fs f_inode store info t_dirs t_nodes file_of fs_of n_info n_inode]. rewrite insert_insert, decide_True by done. done.
Qed.

Lemma take_length_take {A} m (l : list A) : take (length (take m l)) l = take m l.
Proof. rewrite length_take. destruct (Nat.le_ge_cases m (length l)); [by rewrite Nat.min_l|]. rewrite Nat.min_r, !take_ge; done. Qed.

(** The loop: [got] of the [size] bytes from [off] on are read. *)
Lemma wp_read_loop t a n ps off size : file_pages (file_of (t_store t) n) ps → 0 ≤ off → off + size < 2 ^ 32 → 0 ≤ size →
  i_offset (n_inode n) = off → t_nodes t !! a = Some n →
  wp (read_loop a size) (λ r t', r = take (Z.to_nat size) (drop (Z.to_nat off) (concat ps)) ∧
    ∃ s', keeps (t_store t) s' ∧ t' = moved t s' a n (off + len r)) t.
Proof.
  intros H Ho Hb Hs Hoff Hn. unfold read_loop. set (c := concat ps).
  assert (moved t (t_store t) a n off = t) as Et.
  { destruct t as [s d ns]. unfold moved. cbn in *. rewrite insert_id; [done|]. rewrite Hn. f_equal. destruct n as [[] ? ?]. cbn in *. by subst. }
  apply (wp_loop (λ '(remain, got) t', 0 ≤ remain ≤ size ∧ got = take (Z.to_nat (size - remain)) (drop (Z.to_nat off) c) ∧
      len got = size - remain ∧ ∃ s', keeps (t_store t) s' ∧ t' = moved t s' a n (off + (size - remain)))
    (λ '(remain, _) _, Z.to_nat remain)).
  2:{ rewrite Z.sub_diag. split_and!; [lia|lia|done|done|]. exists (t_store t). split; [apply vkeeps_refl, H|]. by rewrite Z.add_0_r, Et. }
  2:{ lia. }
  intros [remain got] t' (Hr & Eg & El & s & Hk & ->). destruct (Z.ltb_spec 0 remain) as [Hpos|Hz].
  2:{ assert (remain = 0) as -> by lia. wp_step. rewrite Z.sub_0_r in Eg, El. split; [done|]. exists s. split; [done|]. by rewrite El, Z.sub_0_r. }
  set (k := size - remain) in *. wp_step. cbn [fs_offset rops ext2_fs_ops]. wp_step. eapply wp_rd_node; [apply lookup_insert_eq|]. wp_step.
  cbn [at_offset n_inode i_offset with_i_offset]. rewrite u32_small by (unfold k in *; lia).
  wp_step. eapply wp_mono; [apply (wp_read_round t a n ps (off + k) remain); [done|unfold k; lia|lia|unfold k; lia|done]|].
  intros r t' (s' & Hk' & -> & Er). pose proof (span_range (off + k) remain Hpos) as Hsp.
  assert (len r ≤ remain) as Hrl by (rewrite Er, length_take; lia).
  assert (got ++ r = take (Z.to_nat (k + len r)) (drop (Z.to_nat off) c)) as Egr.
  { rewrite Z2Nat.inj_add, Nat2Z.id, <-take_take_drop by (unfold k; lia). rewrite <-Eg, drop_drop. f_equal.
    replace (Z.to_nat off + Z.to_nat k)%nat with (Z.to_nat (off + k)) by (unfold k in *; lia).
    rewrite Er. fold c. by rewrite take_length_take. }
  destruct (Z.eqb_spec (len r) 0) as [E0|E0].
  - wp_step. split; [|exists s'; split; [done|by rewrite El]]. apply (f_equal length) in Er.
    rewrite length_take, length_drop in Er. fold c in Er. rewrite Eg, !take_ge; rewrite ?length_drop; [done|unfold k in *; lia..].
  - wp_step. cbn [fs_set_offset rops ext2_fs_ops]. eapply wp_upd_inode; [apply lookup_insert_eq|]. wp_step.
    replace (size - (remain - len r)) with (k + len r) by (unfold k; lia).
    split; [|unfold k in *; lia]. split_and!; [lia|lia|done|rewrite length_app; lia|]. exists s'. split; [done|].
    unfold moved. cbn [t_store t_dirs t_nodes at_offset n_inode n_info n_dir]. rewrite insert_insert, decide_True by done.
    do 2 f_equal. unfold at_offset. f_equal. rewrite u32_small by (unfold k in *; lia). rewrite Z.add_assoc. done.
Qed.

Lemma wp_on_ops {A} (k : M (@tree St) A) Q v : wp k (λ r t', Q r (with_fs v t')) (v_fs v) → wp (on_ops k) Q v.
Proof. intros H. unfold on_ops. apply wp_zoom. exact H. Qed.

Lemma wp_get_fd {A} (k : Z → M (@vfs (@tree St)) A) fd a Q v : get_inode fd (v_hash v) = Ok (a, v_hash v) →
  wp (k a) Q v → wp (node ← on_hash (get_inode fd); k node) Q v.
Proof. intros Hg H. wp_step. eapply wp_intro; [by apply on_hash_same|done]. Qed.

(** C12: [vfs_read] of [size] bytes from a file whose blocks are all there ends, returns
    the bytes from the position of the file on, at most [size] of them, moves the
    position behind them and changes no block.  The bytes go on to the end of the last
    block: up to 4095 of them are behind the end of the file. *)
Theorem vfs_read_bytes fd a n ps size v :
  get_inode fd (v_hash v) = Ok (a, v_hash v) → a ≠ 0 → t_nodes (v_fs v) !! a = Some n →
  file_pages (file_of (t_store (v_fs v)) n) ps → 0 ≤ size → 0 ≤ i_offset (n_inode n) → i_offset (n_inode n) + size < 2 ^ 32 →
  wp (vfs_read fd size) (λ r v', r = take (Z.to_nat size) (drop (Z.to_nat (i_offset (n_inode n))) (concat ps)) ∧
    v_fs v' = moved (v_fs v) (t_store (v_fs v')) a n (i_offset (n_inode n) + len r) ∧
    ∀ b, blk (t_store (v_fs v')) b = blk (t_store (v_fs v)) b) v.
Proof.
  intros Hg Ha Hn H Hs Ho Hb. unfold vfs_read. apply (wp_get_fd _ fd a); [done|]. rewrite (proj2 (truth_true a) Ha). cbn [negb].
  apply wp_on_ops. eapply wp_mono; [by eapply wp_read_loop|]. intros r t' (-> & s' & Hk & ->). cbn [v_fs with_fs].
  split_and!; [done|done|]. intros b. apply Hk.
Qed.

(** ** Positions *)

Lemma sint_small w z : 0 < w → - 2 ^ (w - 1) ≤ z < 2 ^ (w - 1) → sint w z = z.
Proof.
  intros Hw H. unfold sint. assert (2 ^ w = 2 * 2 ^ (w - 1)) as E by (rewrite <-Z.pow_succ_r by lia; f_equal; lia). rewrite E.
  set (k := 2 ^ (w - 1)) in *. destruct (Z.lt_ge_cases z 0).
  - replace (z mod (2 * k)) with (z + 2 * k) by (apply Z.mod_unique with (-1); lia). rewrite (proj2 (Z.ltb_ge _ _)) by lia. lia.
  - rewrite Z.mod_small by lia. by rewrite (proj2 (Z.ltb_lt _ _)) by lia.
Qed.

(** Setting the position and reading it back. *)
Lemma wp_set_pos a n k v : t_nodes (v_fs v) !! a = Some n →
  wp (on_ops (fs_set_offset a k);; off ← on_ops (fs_offset a); mret (s32 off)) (λ r v', r = s32 k ∧
    v' = with_fs v (moved (v_fs v) (t_store (v_fs v)) a n k)) v.
Proof.
  intros Hn. wp_step. apply wp_on_ops. cbn [fs_set_offset rops ext2_fs_ops]. eapply wp_upd_inode; [done|].
  wp_step. apply wp_on_ops. cbn [fs_offset rops ext2_fs_ops]. wp_step. eapply wp_rd_node; [apply lookup_insert_eq|].
  do 2 wp_step. done.
Qed.

(** [vfs_lseek].  From the start and from the end of the file a negative position is
    refused and the position stays; otherwise it is the sum.  From the current position
    nothing is refused: the sum is taken modulo 2^32, so that a move before the start
    ends near 2^32, while the call answers the negative number. *)
Theorem vfs_lseek_moves fd a n offset v :
  get_inode fd (v_hash v) = Ok (a, v_hash v) → a ≠ 0 → t_nodes (v_fs v) !! a = Some n →
  0 ≤ i_offset (n_inode n) < 2 ^ 32 → 0 ≤ i_size (n_inode n) < 2 ^ 62 → - 2 ^ 31 ≤ offset < 2 ^ 31 →
  let at_pos k v' := v' = with_fs v (moved (v_fs v) (t_store (v_fs v)) a n k) in
  wp (vfs_lseek fd offset FILE_SEEK_SET) (λ r v',
    if offset <? 0 then r = -1 ∧ v' = v else r = offset ∧ at_pos offset v') v ∧
  wp (vfs_lseek fd offset FILE_SEEK_END) (λ r v', let k := i_size (n_inode n) + offset in
    if k <? 0 then r = -1 ∧ v' = v else r = s32 k ∧ at_pos (u32 k) v') v ∧
  wp (vfs_lseek fd offset FILE_SEEK_CUR) (λ r v', let k := i_offset (n_inode n) + offset in
    r = s32 k ∧ at_pos (if k <? 0 then 2 ^ 32 + k else u32 k) v') v.
Proof.
  intros Hg Ha Hn Ho Hs Hoff at_pos. change (2 ^ 31) with 2147483648 in *. change (2 ^ 32) with 4294967296 in *. change (2 ^ 62) with 4611686018427387904 in *.
  unfold vfs_lseek. split_and!; (apply (wp_get_fd _ fd a); [done|]); rewrite (proj2 (truth_true a) Ha); cbn [negb].
  - cbn [Z.eqb FILE_SEEK_SET]. destruct (Z.ltb_spec offset 0); [by wp_step|].
    eapply wp_mono; [by apply (wp_set_pos a n)|]. intros r v' [-> ->]. split; [|done]. apply sint_small; lia.
  - change (FILE_SEEK_END =? FILE_SEEK_SET) with false. change (FILE_SEEK_END =? FILE_SEEK_END) with true. cbv iota.
    wp_step. apply wp_on_ops. cbn [fs_size rops ext2_fs_ops]. wp_step. eapply wp_rd_node; [done|]. wp_step. rewrite with_fs_id.
    unfold s64. rewrite (sint_small 64) by lia.
    destruct (Z.ltb_spec (i_size (n_inode n) + offset) 0); [by wp_step|].
    eapply wp_mono; [by apply (wp_set_pos a n)|]. intros r v' [-> ->]. split; [|done]. unfold s32, sint, u32. by rewrite Z.mod_mod by lia.
  - change (FILE_SEEK_CUR =? FILE_SEEK_SET) with false. change (FILE_SEEK_CUR =? FILE_SEEK_END) with false. change (FILE_SEEK_CUR =? FILE_SEEK_CUR) with true. cbv iota.
    wp_step. apply wp_on_ops. cbn [fs_offset rops ext2_fs_ops]. wp_step. eapply wp_rd_node; [done|]. wp_step. rewrite with_fs_id.
    pose proof (u32_range (i_offset (n_inode n) + offset)) as Hr. rewrite (proj2 (Z.ltb_ge _ 0)) by lia.
    eapply wp_mono; [by apply (wp_set_pos a n)|]. intros r v' [-> ->]. unfold s32, sint, u32. change (2 ^ 32) with 4294967296. rewrite !Z.mod_mod by lia.
    split; [done|]. unfold at_pos. destruct (Z.ltb_spec (i_offset (n_inode n) + offset) 0); [|done]. do 2 f_equal.
    symmetry. apply Z.mod_unique with (-1); lia.
Qed.

(** ** Writing over several blocks *)

(** A write at 4096 to a file of size 4096 whose second block is there already. *)
Lemma write_second_err a data f b : truth (Z.land (i_type (f_inode f)) EXT2_IFREG) = true → i_size (f_inode f) = 4096 →
  blocks (info (f_fs f)) !! 1%nat = Some b → b ≠ 0 → ext2_write i (mark a) 4096 data f = Err Assert.
Proof.
  intros Ht Hs Hb Hz. unfold ext2_write, the_inode. erewrite bind_Ok by done.
  erewrite bind_Ok by (unfold assertk; by rewrite Ht). rewrite (g_bs i G), Hs. change (4096 / 4096) with 1.
  assert (next_free_bno i 4096 = 1) as -> by (unfold next_free_bno; by rewrite (g_bs i G)). rewrite Z.ltb_irrefl.
  apply bind_Err, bind_Err. unfold on_fs, zoom, alloc_block. cbn [Z.ltb]. change (1 <? N_DIRECT_BLOCK) with true. cbv iota.
  erewrite bind_Ok by done. change (Z.to_nat 1) with 1%nat. rewrite Hb. erewrite bind_Ok by done.
  rewrite (proj2 (Z.eqb_neq b 0) Hz). done.
Qed.

(** Steps that leave the block numbers of the inode as they are. *)
Definition same_info {A} (m : M (@file St) A) : Prop := ∀ f r f', m f = Ok (r, f') → info (f_fs f') = info (f_fs f).

Lemma same_bind {A B'} (m : M (@file St) A) (k : A → M (@file St) B') : same_info m → (∀ a, same_info (k a)) →
  same_info (a ← m; k a).
Proof.
  intros Hm Hk f r f' E. unfold mbind, M_bind in E. destruct (m f) as [[a f1]|] eqn:E1; [|done].
  transitivity (info (f_fs f1)); [by eapply Hk|by eapply Hm].
Qed.
Lemma same_disk {A} (m : M St A) : same_info (on_disk m).
Proof. intros f r f'. unfold on_disk, on_fs, on_store, zoom. destruct (m _) as [[x s]|]; [|done]. by intros [= _ <-]. Qed.
Lemma same_ret {A} (a : A) : same_info (mret a).
Proof. by intros f r f' [= _ <-]. Qed.
Lemma same_set g : same_info (set_ino g).
Proof. by intros f r f' [= _ <-]. Qed.
Lemma same_assert b : same_info (assertk b).
Proof. intros f r f'. unfold assertk. destruct b; [|done]. by intros [= _ <-]. Qed.
Lemma same_direct bno : bno < 12 → same_info (on_fs (get_bid i bno)).
Proof.
  intros Hb f r f'. unfold on_fs, zoom, get_bid. rewrite (proj2 (Z.ltb_lt bno N_DIRECT_BLOCK)) by (unfold N_DIRECT_BLOCK; lia).
  unfold mbind, M_bind, get, deref. destruct (blocks _ !! _); [|done]. by intros [= _ <-].
Qed.

(** A write to a direct block below the end of the file. *)
Lemma write_info m offset data (f f' : @file St) r : offset / 4096 < 12 → offset / 4096 < next_free_bno i (i_size (f_inode f)) →
  ext2_write i m offset data f = Ok (r, f') → info (f_fs f') = info (f_fs f).
Proof.
  intros Hd Hlt E. unfold ext2_write in E. rewrite (g_bs i G) in E. erewrite bind_Ok in E by done.
  rewrite (proj2 (Z.ltb_lt _ _) Hlt) in E. revert E. 
  match goal with |- ?m f = _ → _ => cut (same_info m); [intros Hm; apply Hm|] end.
  apply same_bind; [apply same_assert|]. intros _. apply same_bind; [apply same_bind; [by apply same_direct|intros; apply same_disk]|].
  intros page. repeat (apply same_bind; [apply same_set || apply same_disk|intros _]). apply same_ret.
Qed.

(** The first round of a write of more than a block from the start. *)
Lemma first_round a n data t : t_nodes t !! a = Some n → vol_ok i (t_store t) → can_write i (file_of (t_store t) n) 0 →
  truth (Z.land (i_type (n_inode n)) EXT2_IFREG) = true → 0 < next_free_bno i (i_size (n_inode n)) →
  Forall byte_ok data → 4096 < len data →
  ∃ s', let n1 := Node (with_i_size 4096 (n_inode n)) (n_info n) (n_dir n) in
    on_node a (ext2_write i (mark a) 0 data) t = Ok (4096, Tree s' (t_dirs t) (<[a := n1]> (t_nodes t))).
Proof.
  intros Hn Hv Hc Ht Hnf Hd Hl.
  destruct (wp_elim _ _ _ (wp_write i G (mark a) (mark_ok a) (file_of (t_store t) n) 0 data Hv Hc ltac:(lia) Hd Ht)) as (k & f' & E & -> & bid & d & W).
  pose proof (write_info (mark a) 0 data (file_of (t_store t) n) f' _ eq_refl Hnf E) as Ei. destruct W as [_ W2 _ _ _ _ _ _ _].
  assert (span 0 (len data) = 4096) as Esp by (unfold span; rewrite Zmod_0_l; lia). rewrite Esp in E, W2.
  exists (store (f_fs f')). cbv zeta. unfold on_node. erewrite bind_Ok by (by apply rd_node_ok). erewrite bind_Ok by done.
  change (File (Fs (t_store t) (n_info n)) (n_inode n)) with (file_of (t_store t) n). rewrite E, W2, Ei. done.
Qed.

(** writing more than a block over a file from its start: the first block is
    written and the size of the file becomes 4096; the second block then counts as new,
    but the file has one there, and the allocation of a block for it panics. *)
Theorem vfs_overwrite_panics fd a n data v b1 :
  get_inode fd (v_hash v) = Ok (a, v_hash v) → a ≠ 0 → t_nodes (v_fs v) !! a = Some n →
  vol_ok i (t_store (v_fs v)) → can_write i (file_of (t_store (v_fs v)) n) 0 →
  truth (Z.land (i_type (n_inode n)) EXT2_IFREG) = true → i_offset (n_inode n) = 0 →
  0 < next_free_bno i (i_size (n_inode n)) →
  blocks (n_info n) !! 1%nat = Some b1 → b1 ≠ 0 → Forall byte_ok data → 4096 < len data →
  vfs_write fd data v = Err Assert.
Proof.
  intros Hg Ha Hn Hv Hc Ht Ho Hnf Hb1 Hz Hd Hl. unfold vfs_write.
  rewrite (bind_Ok _ _ _ _ _ (on_hash_same _ v _ Hg)), (proj2 (truth_true a) Ha). cbn [negb].
  apply on_ops_err. unfold write_loop. apply bind_Err. set (t := v_fs v) in *.
  destruct (first_round a n data t Hn Hv Hc Ht Hnf Hd Hl) as [s' E1]. cbv zeta in E1.
  set (n1 := Node _ _ _) in E1. set (t1 := Tree _ _ _) in E1.
  set (t2 := Tree (t_store t1) (t_dirs t1) (<[a := at_offset n1 4096]> (t_nodes t1))).
  destruct data as [|x data]; [simpl in Hl; lia|]. cbn [loop length]. set (dd := x :: data) in *.
  rewrite (bind_Ok _ _ _ (inl (drop 4096 dd)) t2).
  2:{ rewrite bool_decide_false by done. cbn [fs_offset fs_write fs_set_offset rops ext2_fs_ops].
      rewrite (bind_Ok _ _ _ 0 t) by (erewrite bind_Ok by (by apply rd_node_ok); by rewrite Ho).
      rewrite (bind_Ok _ _ _ _ _ E1). cbn [Z.eqb]. change (u32 (0 + 4096)) with 4096.
      rewrite (bind_Ok _ _ _ tt t2); [done|]. unfold upd_inode. by erewrite bind_Ok by (apply rd_node_ok, lookup_insert_eq). }
  destruct (length data) as [|L] eqn:EL; [simpl in Hl; lia|]. cbn [loop]. apply bind_Err.
  rewrite bool_decide_false.
  2:{ intros En. apply (f_equal length) in En. rewrite length_drop in En. simpl in En. simpl in Hl. lia. }
  cbn [fs_offset fs_write rops ext2_fs_ops].
  rewrite (bind_Ok _ _ _ 4096 t2) by (by erewrite bind_Ok by (apply rd_node_ok, lookup_insert_eq)).
  apply bind_Err. unfold on_node. erewrite bind_Ok by (apply rd_node_ok, lookup_insert_eq). erewrite bind_Ok by done.
  rewrite (write_second_err a _ _ b1); [done|..]; cbn [f_fs f_inode info at_offset n_inode n_info n1 i_type i_size with_i_offset].
  all: done.
Qed.
End read.
