(* ===== verification/VfsDemo.v ===== *)
(** * The virtual file system on a small volume

    Concrete trees, paths and open files on which the theorems about [fs/vfs.c] apply. *)

From S2P Require Import Prelude Memory CString QLib Vm Page BlockStore FdHash Ext2 Ext2Dir Ext2Correct Ext2DirCorrect Ext2Directory Ext2Inode Ext2InodeCorrect Ext2InodeAlloc Ext2Tree Ext2TreeCorrect Vfs VfsCorrect VfsFiles VfsRead.
From Stdlib Require Import ZArith Lia.
From stdpp Require Import base countable numbers gmap list.
Open Scope Z_scope.

#[local] Arguments Z.to_nat : simpl never.
#[local] Arguments Z.mul : simpl never.
#[local] Arguments Z.div : simpl never.
#[local] Arguments Z.modulo : simpl never.

#[local] Instance demo_ops : FsOps (@tree sparse) :=
  ext2_fs_ops demo_sb demo_mark demo_junk demo_raw 13 demo_dir_addr demo_node_addr 9.

(** ** Paths *)

(** The path "/a" at 1000; the root directory is object 100, its file "a" object 101. *)
Definition path_mem : mem := <[1000 := 47]> (<[1001 := 97]> {[ 1002 := 0 ]}).
Definition demo_vfs : @vfs (@tree sparse) := Vfs path_mem demo_tree hash0 100 0 0 ∅.

Lemma demo_path : cstr path_mem 1000 [47; 97].
Proof. repeat (apply cstr_cons; split_and!; [done|done|]). by apply cstr_nil. Qed.

Lemma find_dir_resolves_witness : ∃ m', find_dir 1000 demo_vfs = Ok (101, Vfs m' demo_tree hash0 100 0 0 ∅).
Proof.
  destruct (find_dir_resolves 1000 [47; 97] demo_vfs 100 demo_path) as [H _].
  - exists 200. left. split_and!; [done|done|done|done|done].
  - destruct (H 101 demo_tree) as (m' & E & _); [|by exists m'].
    change (path_names [47; 97]) with [[97]]. cbn [resolve]. rewrite (bind_Ok _ _ _ 101 demo_tree); [done|].
    eapply open_hit; [exact demo_open|by vm_compute].
Defined.

Lemma split_path_cuts_witness : split_path 1000 demo_vfs = Ok ((1001, 200), demo_vfs).
Proof.
  destruct (split_path_cuts 1000 [] [97] demo_vfs) as (_ & H & _); [done|by repeat constructor|done|].
  by destruct (H 200 demo_path eq_refl) as [E _].
Defined.

(** ** Open files *)

(** A file of two blocks, its inode object at [F]; it is open [k] times, at position
    [off]. *)
Definition F : Z := 0xc0100000.
Definition two_blocks (k off : Z) : node :=
  Node (Inode 11 k 1 420 EXT2_IFREG 5000 5 6 7 0 off) (InodeInfo 1 (7 :: 6 :: replicate 13 0)) 101.
Definition demo_files (k off : Z) : @tree sparse := Tree demo_store ∅ {[ F := two_blocks k off ]}.
(** The descriptor 0 is bound to [F]. *)
Definition hash1 : hash := Hash (entry hash0) (<[0%nat := F]> (file_table hash0)).
Definition opened_vfs (open k off : Z) : @vfs (@tree sparse) :=
  Vfs ∅ (demo_files k off) hash1 100 0 open {[ 50 := OpenFile F 0 0 ]}.

Lemma demo_fd open k off : get_inode 0 (v_hash (opened_vfs open k off)) = Ok (F, v_hash (opened_vfs open k off)).
Proof. reflexivity. Qed.

Lemma exit_open_panics_witness : recycle_open_file 50 (opened_vfs 0 1 0) = Err Assert.
Proof.
  by apply (exit_open_panics demo_sb demo_mark demo_junk demo_raw 13 demo_dir_addr demo_node_addr 9 50 (OpenFile F 0 0) F
    (two_blocks 1 0)).
Defined.

Lemma close_twice_panics_witness :
  ∃ v', vfs_close 0 (opened_vfs 50 2 0) = Ok (0, v') ∧ vfs_close 0 v' = Err Assert.
Proof.
  apply (close_twice_panics demo_sb demo_mark demo_junk demo_raw 13 demo_dir_addr demo_node_addr 9 0 F (two_blocks 2 0)
    [] 50 (OpenFile F 0 0) []); try done.
  - split; [|apply NoDup_singleton]. simpl. split_and!; [done|done|]. by exists (OpenFile F 0 0).
  - by intros y ?%elem_of_nil.
Defined.

Definition demo_kfree (p : Z) : M mem unit := mret tt.
Definition demo_file_addr (fs : gmap Z open_file) : Z := addr_of fs.

(** The path "/a", and a page that [kmalloc] answers at 2000; the file "a" has the inode object
    [F]. *)
Definition open_mem : mem := list_to_map ([(1000, 47); (1001, 97); (1002, 0); (1003, 5)] ++ ((λ a, (a, 0xcc)) <$> seqZ 2000 4)).
Definition demo_kmalloc (n : Z) : M mem Z := mret 2000.
Definition open_tree (k : Z) : @tree sparse :=
  Tree demo_store (<[100 := demo_root]> (<[101 := with_d_inode F (demo_entry 97)]> {[ 102 := demo_entry 98 ]}))
    (<[200 := Node demo_parent (info demo_dir) 100]> {[ F := two_blocks k 9 ]}).
Definition open_vfs : @vfs (@tree sparse) := Vfs open_mem (open_tree 0) hash0 100 0 0 ∅.
Definition parsed_vfs : @vfs (@tree sparse) := match parse_path demo_kmalloc 1000 open_vfs with Ok (_, v) => v | Err _ => open_vfs end.
Definition found_vfs : @vfs (@tree sparse) := match vfs_find 2000 parsed_vfs with Ok (_, v) => v | Err _ => open_vfs end.

Lemma open_close_restores_witness :
  ∃ v1 v2, vfs_open demo_kmalloc demo_kfree demo_file_addr 1000 open_vfs = Ok (0, v1) ∧ vfs_close 0 v1 = Ok (0, v2) ∧
    v_fs v2 = rewound (open_tree 0) F (two_blocks 0 9).
Proof.
  destruct (open_close_restores demo_sb demo_mark demo_junk demo_raw 13 demo_dir_addr demo_node_addr 9 demo_kmalloc demo_kfree
    demo_file_addr addr_fresh 1000 open_vfs 2000 parsed_vfs ∅ 0 F (two_blocks 0 9) [] found_vfs (v_mem found_vfs))
    as (v1 & v2 & E1 & _ & _ & _ & _ & E2 & E3 & _).
  - vm_compute. reflexivity.
  - vm_compute. reflexivity.
  - exact hash0_rep.
  - reflexivity.
  - done.
  - split; [lia|]. split; [done|lia].
  - exists 0. split; [lia|]. exists (HashEntry 0 0). split; [|done]. vm_compute. reflexivity.
  - vm_compute. reflexivity.
  - reflexivity.
  - split; [done|constructor].
  - by intros y ?%elem_of_nil.
  - reflexivity.
  - exists v1, v2. split_and!; [exact E1|exact E2|]. rewrite E3. vm_compute. reflexivity.
Defined.

(** ** Reading and writing *)

Lemma demo_pages k off : file_pages demo_sb (file_of demo_store (two_blocks k off)) [zeros; zeros].
Proof.
  split; [exact demo_vol|done|simpl; lia|done|].
  intros [|[|j]] d Hd; [exists 7|exists 6|done]; simpl in Hd; injection Hd as <-;
    (split; [reflexivity|]; split; [lia|]; split; [vm_compute; split; [discriminate|reflexivity]|]; split; [constructor|by vm_compute]).
Qed.

Lemma vfs_read_bytes_witness :
  wp (vfs_read 0 4) (λ r v', r = [0; 0; 0; 0] ∧ t_nodes (v_fs v') = {[ F := two_blocks 1 4100 ]}) (opened_vfs 50 1 4096).
Proof.
  eapply wp_mono; [apply (vfs_read_bytes demo_sb demo_geometry demo_mark demo_junk demo_raw 13 demo_dir_addr demo_node_addr 9 0 F
    (two_blocks 1 4096) [zeros; zeros] 4 (opened_vfs 50 1 4096) eq_refl ltac:(done) eq_refl (demo_pages 1 4096)); simpl; lia|].
  intros r v' (-> & E & _).
  assert (take (Z.to_nat 4) (drop (Z.to_nat (i_offset (n_inode (two_blocks 1 4096)))) (concat [zeros; zeros])) = [0; 0; 0; 0]) as Er
    by (vm_compute; reflexivity).
  rewrite Er in E |- *. split; [done|]. rewrite E. cbn [t_nodes moved]. by vm_compute.
Defined.

Lemma vfs_lseek_moves_witness :
  wp (vfs_lseek 0 (-10) FILE_SEEK_CUR) (λ r v', r = -6 ∧ t_nodes (v_fs v') = {[ F := two_blocks 1 (2 ^ 32 - 6) ]}) (opened_vfs 50 1 4).
Proof.
  destruct (vfs_lseek_moves demo_sb demo_mark demo_junk demo_raw 13 demo_dir_addr demo_node_addr 9 0 F
    (two_blocks 1 4) (-10) (opened_vfs 50 1 4) eq_refl ltac:(done) eq_refl ltac:(simpl; lia) ltac:(simpl; lia) ltac:(lia)) as (_ & _ & H).
  eapply wp_mono; [exact H|]. intros r v' [-> ->]. split; [reflexivity|]. by vm_compute.
Defined.

Lemma vfs_overwrite_panics_witness : vfs_write 0 (replicate 4097 65) (opened_vfs 50 1 0) = Err Assert.
Proof.
  apply (vfs_overwrite_panics demo_sb demo_geometry demo_mark demo_mark_ok demo_junk demo_raw 13 demo_dir_addr demo_node_addr 9 0 F
    (two_blocks 1 0) (replicate 4097 65) (opened_vfs 50 1 0) 6 eq_refl ltac:(done) eq_refl demo_vol); try done.
  - split; [done|]. split; [unfold max_bno; lia|]. vm_compute. split; [split; [discriminate|reflexivity]|].
    split; [constructor|apply not_elem_of_nil].
  - by apply Forall_replicate.
Defined.
