(* ===== verification/UserHeap.v ===== *)
(** * The allocator of user programs (userspace/malloc.c)

    The heap of a process is a list of chunks threaded through its memory: a header of
    12 bytes - [next], [size] with the header, and a word with the bit [used] and a
    31-bit magic number - in front of every block handed out.  New memory comes from the
    system call [sbrk] of mm/uvm.c, seen here from the process: it maps whole pages
    behind the break, with whatever bytes the new pages hold ([fill]).

    [Spec] is the abstract heap: per page obtained from [sbrk] the sizes and states of
    its chunks.  [malloc] and [free] refine it. *)

From S2P Require Import Prelude QLib Memory.
From Stdlib Require Import ZArith Lia.
From stdpp Require Import base numbers gmap list sorting.
Open Scope Z_scope.

#[local] Arguments Z.to_nat : simpl never.
#[local] Arguments Z.mul : simpl never.

(** ** The code *)

Definition HEAP_MAGIC : Z := 0x35e92b2e.
Definition sizeof_chunk : Z := 12.

Record heap := Heap { h_mem : mem; h_head : Z; h_tail : Z; h_brk : Z }.

Definition on_hmem {A} (m : M mem A) : M heap A := zoom h_mem (λ x h, Heap x (h_head h) (h_tail h) (h_brk h)) m.
Definition set_head (a : Z) : M heap unit := modify (λ h, Heap (h_mem h) a (h_tail h) (h_brk h)).
Definition set_tail (a : Z) : M heap unit := modify (λ h, Heap (h_mem h) (h_head h) a (h_brk h)).

(** The fields of [chunk_t]. *)
Definition chunk_next (a : Z) : M mem Z := load32 a.
Definition chunk_size (a : Z) : M mem Z := load32 (a + 4).
Definition chunk_used (a : Z) : M mem bool := w ← load32 (a + 8); mret (Z.testbit w 0).
Definition chunk_magic (a : Z) : M mem Z := w ← load32 (a + 8); mret (Z.shiftr w 1).
Definition set_next (a v : Z) : M mem unit := store32 a v.
Definition set_csize (a v : Z) : M mem unit := store32 (a + 4) v.
Definition set_used (a : Z) (b : bool) : M mem unit :=
  w ← load32 (a + 8); store32 (a + 8) (Z.lor (Z.land w (2 ^ 32 - 2)) (Z.b2z b)).
Definition set_magic (a v : Z) : M mem unit :=
  w ← load32 (a + 8); store32 (a + 8) (Z.lor (Z.land w 1) (2 * v)).

Definition alloc_addr (addr : Z) : Z := u32 (addr + sizeof_chunk).
Definition chunk_header (addr : Z) : Z := u32 (addr - sizeof_chunk).

Definition chunk_init (new nxt size : Z) : M mem unit :=
  set_next new nxt;; set_used new false;; set_magic new HEAP_MAGIC;; set_csize new size.

Definition alloc_chunk (chunk size : Z) : M heap Z :=
  u ← on_hmem (chunk_used chunk);
  mg ← on_hmem (chunk_magic chunk);
  assertk (negb u && (mg =? HEAP_MAGIC));;
  sz ← on_hmem (chunk_size chunk);
  let free_size := u32 (sz - size) in
  size ← (if free_size <? sizeof_chunk + 2 then mret sz
          else
            let new := u32 (chunk + size) in
            nx ← on_hmem (chunk_next chunk);
            on_hmem (chunk_init new nx free_size);;
            on_hmem (set_next chunk new);;
            h ← get;
            when (chunk =? h_tail h) (set_tail new);;
            mret size);
  on_hmem (set_used chunk true);;
  on_hmem (set_csize chunk size);;
  mret (alloc_addr chunk).

Section code.
Variable fill : Z → Z.         (* the bytes of new pages *)

(** [sbrk] of mm/uvm.c: a page that is mapped already stays. *)
Definition sbrk (size : Z) : M heap Z :=
  h ← get;
  let size := PAGE_CEIL size in
  let fresh := list_to_map ((λ a, (a, u8 (fill a))) <$> seqZ (h_brk h) size) in
  modify (λ h, Heap (h_mem h ∪ fresh) (h_head h) (h_tail h) (u32 (h_brk h + size)));;
  mret (h_brk h).

Definition ALIGN (s align : Z) : Z := Z.land (u32 (s + align - 1)) (u32 (Z.lnot (align - 1))).

(** The search of [malloc]: the first free chunk of the size, 0 if there is none.  A list
    has no more chunks than there are bytes. *)
Definition find_chunk (size : Z) : M heap Z :=
  h ← get;
  loop (S (base.size (h_mem h))) (λ hdr : Z,
    if hdr =? 0 then mret (inr 0)
    else
      u ← on_hmem (chunk_used hdr);
      sz ← on_hmem (chunk_size hdr);
      if negb u && (size <=? sz) then mret (inr hdr)
      else nx ← on_hmem (chunk_next hdr); mret (inl nx)) (h_head h).

Definition malloc (size : Z) : M heap Z :=
  let size := ALIGN (u32 (size + sizeof_chunk)) 2 in
  hdr ← find_chunk size;
  if truth hdr then alloc_chunk hdr size
  else
    b ← sbrk 4096;
    assertk (truth b);;
    h ← get;
    when (h_head h =? 0) (set_head b);;
    on_hmem (chunk_init b 0 4096);;
    set_tail b;;
    alloc_chunk b size.
End code.

(** The loop of [free]: the first chunk from [p] on that is in use, and the sizes added. *)
Definition merge_chunks (chunk p size : Z) : M heap (Z * Z) :=
  h ← get;
  loop (S (base.size (h_mem h))) (λ '(p, size),
    if p =? 0 then mret (inr (p, size))
    else
      u ← on_hmem (chunk_used p);
      if u : bool then mret (inr (p, size))
      else
        mg ← on_hmem (chunk_magic chunk);
        assertk (mg =? HEAP_MAGIC);;
        sz ← on_hmem (chunk_size p);
        nx ← on_hmem (chunk_next p);
        mret (inl (nx, u32 (size + sz)))) (p, size).

Definition free (addr : Z) : M heap unit :=
  let chunk := chunk_header addr in
  u ← on_hmem (chunk_used chunk);
  mg ← on_hmem (chunk_magic chunk);
  assertk (u && (mg =? HEAP_MAGIC));;
  on_hmem (set_used chunk false);;
  nx ← on_hmem (chunk_next chunk);
  sz ← on_hmem (chunk_size chunk);
  '(p, size) ← merge_chunks chunk nx sz;
  when (negb (p =? nx))
    (on_hmem (set_next chunk p);;
     on_hmem (set_csize chunk size);;
     when (p =? 0) (set_tail chunk)).

(** ** Words in memory *)

Definition word (m : mem) (a v : Z) : Prop := load32 a m = Ok (v, m).

Lemma word_ext m m' a v : (∀ i, 0 ≤ i < 4 → m' !! (a + i) = m !! (a + i)) → word m a v → word m' a v.
Proof.
  intros H. pose proof (H 0 ltac:(lia)) as H0. pose proof (H 1 ltac:(lia)) as H1. pose proof (H 2 ltac:(lia)) as H2.
  pose proof (H 3 ltac:(lia)) as H3. rewrite Z.add_0_r in H0. replace (a + 3) with (a + 2 + 1) in H3 by lia.
  unfold word, load32, load16, load8, mbind, M_bind, get, deref, mret, M_ret.
  rewrite H0. destruct (m !! a); [|done]. rewrite H1. destruct (m !! (a + 1)); [|done].
  rewrite H2. destruct (m !! (a + 2)); [|done]. rewrite H3. destruct (m !! (a + 2 + 1)); [|done]. by intros [= <-].
Qed.

Lemma load32_state a (m : mem) v m' : load32 a m = Ok (v, m') → m' = m ∧ mapped m a 4.
Proof.
  unfold load32, load16, load8, mbind, M_bind, get, deref, mret, M_ret.
  destruct (m !! a) as [b0|] eqn:E0; [|done]. destruct (m !! (a + 1)) as [b1|] eqn:E1; [|done].
  destruct (m !! (a + 2)) as [b2|] eqn:E2; [|done]. destruct (m !! (a + 2 + 1)) as [b3|] eqn:E3; [|done].
  intros [= _ <-]. split; [done|]. intros j Hj. assert (j = 0 ∨ j = 1 ∨ j = 2 ∨ j = 3) as [-> |[-> |[-> | ->]]] by lia.
  - rewrite Z.add_0_r. by exists b0.
  - by exists b1.
  - by exists b2.
  - replace (a + 3) with (a + 2 + 1) by lia. by exists b3.
Qed.

Lemma word_writes m m' a v q k : word m a v → writes q k m m' → a + 4 ≤ q ∨ q + k ≤ a → word m' a v.
Proof. intros Hw [_ H] Hd. eapply word_ext; [|exact Hw]. intros i Hi. apply H. lia. Qed.

Lemma wp_load32 a v (Q : Z → mem → Prop) m : word m a v → Q v m → wp (load32 a) Q m.
Proof. intros H HQ. by eapply wp_intro. Qed.

Lemma u32_bytes v : u8 v + 2 ^ 8 * u8 (Z.shiftr v 8) +
  2 ^ 16 * (u8 (Z.shiftr v 16) + 2 ^ 8 * u8 (Z.shiftr (Z.shiftr v 16) 8)) = u32 v.
Proof.
  unfold u8, u32. rewrite Z.shiftr_shiftr, !Z.shiftr_div_pow2 by lia.
  change (2 ^ 8) with 256. change (2 ^ 16) with 65536. change (2 ^ (16 + 8)) with 16777216. change (2 ^ 32) with 4294967296.
  Z.div_mod_to_equations. lia.
Qed.

Lemma word_bytes m a b0 b1 b2 b3 : m !! a = Some b0 → m !! (a + 1) = Some b1 → m !! (a + 2) = Some b2 →
  m !! (a + 2 + 1) = Some b3 → word m a (b0 + 2 ^ 8 * b1 + 2 ^ 16 * (b2 + 2 ^ 8 * b3)).
Proof.
  intros H0 H1 H2 H3. unfold word, load32, load16, load8, mbind, M_bind, get, deref, mret, M_ret.
  by rewrite H0, H1, H2, H3.
Qed.

Lemma wp_store32 a v (Q : unit → mem → Prop) m : mapped m a 4 →
  (∀ m', writes a 4 m m' → word m' a (u32 v) → Q tt m') → wp (store32 a v) Q m.
Proof.
  intros Hm HQ. unfold store32, store16.
  assert (∀ b m', writes a 4 m m' → a ≤ b < a + 4 → is_Some (m' !! b)) as Hs.
  { intros b m' Hw Hb. eapply mapped_lookup; [by eapply writes_mapped|done]. }
  assert (writes a 4 m m) as W0 by apply writes_refl.
  assert (∀ b x m', writes a 4 m m' → a ≤ b < a + 4 → writes a 4 m (<[b := x]> m')) as Hi.
  { intros b x m' Hw Hb. eapply writes_trans; [exact Hw|]. apply writes_insert; [by apply Hs|done]. }
  wp_step. wp_step. apply wp_store8; [apply Hs; [exact W0|lia]|]. pose proof (Hi a (u8 v) m W0 ltac:(lia)) as W1.
  apply wp_store8; [apply Hs; [exact W1|lia]|]. pose proof (Hi (a + 1) (u8 (Z.shiftr v 8)) _ W1 ltac:(lia)) as W2.
  wp_step. apply wp_store8; [apply Hs; [exact W2|lia]|]. pose proof (Hi (a + 2) (u8 (Z.shiftr v 16)) _ W2 ltac:(lia)) as W3.
  apply wp_store8; [apply Hs; [exact W3|lia]|].
  pose proof (Hi (a + 2 + 1) (u8 (Z.shiftr (Z.shiftr v 16) 8)) _ W3 ltac:(lia)) as W4. apply HQ; [exact W4|].
  rewrite <-(u32_bytes v). apply word_bytes; by repeat first [rewrite lookup_insert_ne by lia | rewrite lookup_insert_eq].
Qed.

Definition word_range (v : Z) : Prop := 0 ≤ v < 2 ^ 32.

(** ** Headers *)

Record header (m : mem) (a nx n : Z) (u : bool) : Prop := Header {
  hd_next : word m a nx; hd_size : word m (a + 4) n; hd_bits : word m (a + 8) (Z.b2z u + 2 * HEAP_MAGIC);
  hd_map : mapped m a 12 }.

Lemma header_writes m m' a nx n u q k : header m a nx n u → writes q k m m' → a + 12 ≤ q ∨ q + k ≤ a → header m' a nx n u.
Proof.
  intros [H1 H2 H3 H4] Hw Hd. split; [eapply word_writes; [exact H1|exact Hw|lia]|eapply word_writes; [exact H2|exact Hw|lia]|
    eapply word_writes; [exact H3|exact Hw|lia]|by eapply writes_mapped].
Qed.

Lemma bits_used u : Z.testbit (Z.b2z u + 2 * HEAP_MAGIC) 0 = u.
Proof. by destruct u. Qed.
Lemma bits_magic u : Z.shiftr (Z.b2z u + 2 * HEAP_MAGIC) 1 = HEAP_MAGIC.
Proof. by destruct u. Qed.

Lemma wp_used a nx n u (Q : bool → mem → Prop) m : header m a nx n u → Q u m → wp (chunk_used a) Q m.
Proof. intros H HQ. unfold chunk_used. wp_step. eapply wp_load32; [apply H|]. wp_step. by rewrite bits_used. Qed.
Lemma wp_magic a nx n u (Q : Z → mem → Prop) m : header m a nx n u → Q HEAP_MAGIC m → wp (chunk_magic a) Q m.
Proof. intros H HQ. unfold chunk_magic. wp_step. eapply wp_load32; [apply H|]. wp_step. by rewrite bits_magic. Qed.
Lemma wp_next a nx n u (Q : Z → mem → Prop) m : header m a nx n u → Q nx m → wp (chunk_next a) Q m.
Proof. intros H HQ. eapply wp_load32; [apply H|done]. Qed.
Lemma wp_size a nx n u (Q : Z → mem → Prop) m : header m a nx n u → Q n m → wp (chunk_size a) Q m.
Proof. intros H HQ. eapply wp_load32; [apply H|done]. Qed.

Lemma mapped_part m a n b k : mapped m a n → a ≤ b → b + k ≤ a + n → mapped m b k.
Proof. intros H Hb Hk j Hj. eapply mapped_lookup; [exact H|lia]. Qed.

Lemma wp_set_chunk_next a nx n u v (Q : unit → mem → Prop) m : header m a nx n u → word_range v →
  (∀ m', writes a 12 m m' → header m' a v n u → Q tt m') → wp (set_next a v) Q m.
Proof.
  intros [H1 H2 H3 H4] Hv HQ. apply wp_store32; [eapply mapped_part; [exact H4|lia..]|]. intros m' Hw Hx.
  rewrite u32_small in Hx by done. apply HQ; [eapply writes_weaken; [exact Hw|lia..]|].
  split; [done|eapply word_writes; [exact H2|exact Hw|lia]|eapply word_writes; [exact H3|exact Hw|lia]|by eapply writes_mapped].
Qed.
Lemma wp_set_size a nx n u v (Q : unit → mem → Prop) m : header m a nx n u → word_range v →
  (∀ m', writes a 12 m m' → header m' a nx v u → Q tt m') → wp (set_csize a v) Q m.
Proof.
  intros [H1 H2 H3 H4] Hv HQ. apply wp_store32; [eapply mapped_part; [exact H4|lia..]|]. intros m' Hw Hx.
  rewrite u32_small in Hx by done. apply HQ; [eapply writes_weaken; [exact Hw|lia..]|].
  split; [eapply word_writes; [exact H1|exact Hw|lia]|done|eapply word_writes; [exact H3|exact Hw|lia]|by eapply writes_mapped].
Qed.
Lemma wp_set_used a nx n u b (Q : unit → mem → Prop) m : header m a nx n u →
  (∀ m', writes a 12 m m' → header m' a nx n b → Q tt m') → wp (set_used a b) Q m.
Proof.
  intros [H1 H2 H3 H4] HQ. unfold set_used. wp_step. eapply wp_load32; [exact H3|].
  apply wp_store32; [eapply mapped_part; [exact H4|lia..]|]. intros m' Hw Hx. apply HQ; [eapply writes_weaken; [exact Hw|lia..]|].
  split; [eapply word_writes; [exact H1|exact Hw|lia]|eapply word_writes; [exact H2|exact Hw|lia]| |by eapply writes_mapped].
  by destruct u, b.
Qed.

Lemma land_one_even w : Z.land (u32 (Z.lor (Z.land w (2 ^ 32 - 2)) (Z.b2z false))) 1 = 0.
Proof.
  apply Z.bits_inj'. intros k Hk. rewrite Z.land_spec, Z.bits_0. destruct (Z.eq_dec k 0) as [->|].
  - unfold u32. rewrite Z.mod_pow2_bits_low, Z.lor_spec, Z.land_spec by lia. change (Z.testbit (2 ^ 32 - 2) 0) with false.
    by rewrite andb_false_r.
  - replace (Z.testbit 1 k) with false; [apply andb_false_r|]. symmetry. by apply (Z.bits_above_log2 1 k); simpl; lia.
Qed.

Lemma mapped_word m a : mapped m a 4 → ∃ v, word m a v.
Proof.
  intros H. destruct (H 0 ltac:(lia)) as [b0 H0]. destruct (H 1 ltac:(lia)) as [b1 H1]. destruct (H 2 ltac:(lia)) as [b2 H2].
  destruct (H 3 ltac:(lia)) as [b3 H3]. rewrite Z.add_0_r in H0. eexists. apply word_bytes; try done.
  replace (a + 2 + 1) with (a + 3) by lia. exact H3.
Qed.

Lemma wp_chunk_init a nx n (Q : unit → mem → Prop) m : mapped m a 12 → word_range nx → word_range n →
  (∀ m', writes a 12 m m' → header m' a nx n false → Q tt m') → wp (chunk_init a nx n) Q m.
Proof.
  intros Hm Hnx Hn HQ. unfold chunk_init, set_next, set_used, set_magic, set_csize.
  assert (∀ m' b, writes a 12 m m' → a ≤ b ≤ a + 8 → mapped m' b 4) as Hp.
  { intros m' b Hw Hb. eapply mapped_part; [by eapply writes_mapped|lia..]. }
  wp_step. apply wp_store32; [apply Hp; [apply writes_refl|lia]|]. intros m1 W1 X1.
  assert (writes a 12 m m1) as V1 by (eapply writes_weaken; [exact W1|lia..]).
  wp_step. destruct (mapped_word m1 (a + 8)) as [w X2]; [apply Hp; [done|lia]|]. wp_step. eapply wp_load32; [exact X2|].
  apply wp_store32; [apply Hp; [done|lia]|]. intros m2 W2 X3.
  assert (writes a 12 m m2) as V2 by (eapply writes_trans; [exact V1|eapply writes_weaken; [exact W2|lia..]]).
  wp_step. wp_step. eapply wp_load32; [exact X3|]. rewrite land_one_even.
  apply wp_store32; [apply Hp; [done|lia]|]. intros m3 W3 X4.
  assert (writes a 12 m m3) as V3 by (eapply writes_trans; [exact V2|eapply writes_weaken; [exact W3|lia..]]).
  apply wp_store32; [apply Hp; [done|lia]|]. intros m4 W4 X5.
  assert (writes a 12 m m4) as V4 by (eapply writes_trans; [exact V3|eapply writes_weaken; [exact W4|lia..]]).
  rewrite u32_small in X1, X5 by done. apply HQ; [done|]. split; [|exact X5| |by eapply writes_mapped].
  - eapply word_writes; [eapply word_writes; [eapply word_writes; [exact X1|exact W2|lia]|exact W3|lia]|exact W4|lia].
  - eapply word_writes; [exact X4|exact W4|lia].
Qed.

(** ** The chunks of a page *)

Abbreviation chunks := (list (Z * bool)).

Fixpoint total (cs : chunks) : Z := match cs with [] => 0 | (n, _) :: cs' => n + total cs' end.

(** Where a list of chunks at [a] starts; [e] follows it. *)
Definition link (a : Z) (cs : chunks) (e : Z) : Z := match cs with [] => e | _ => a end.

Fixpoint chain (m : mem) (a : Z) (cs : chunks) (e : Z) : Prop :=
  match cs with
  | [] => True
  | (n, u) :: cs' => 12 ≤ n ∧ header m a (link (a + n) cs' e) n u ∧ chain m (a + n) cs' e
  end.

Lemma chain_total m a cs e : chain m a cs e → 12 * Z.of_nat (length cs) ≤ total cs.
Proof. revert a. induction cs as [|[n u] cs IH]; intros a; [done|]. intros (Hn & _ & H%IH). cbn [total length]. lia. Qed.

Lemma total_app l1 l2 : total (l1 ++ l2) = total l1 + total l2.
Proof. induction l1 as [|[n u] l1 IH]; [done|]. simpl. rewrite IH. lia. Qed.

Lemma link_app a l1 l2 e : link a (l1 ++ l2) e = link a l1 (link (a + total l1) l2 e).
Proof. destruct l1; [|done]. simpl. by rewrite Z.add_0_r. Qed.

Lemma chunks_app m l1 : ∀ a l2 e,
  chain m a (l1 ++ l2) e ↔ chain m a l1 (link (a + total l1) l2 e) ∧ chain m (a + total l1) l2 e.
Proof.
  induction l1 as [|[n u] l1 IH]; intros a l2 e; simpl.
  - rewrite Z.add_0_r. tauto.
  - rewrite IH, link_app, Z.add_assoc. tauto.
Qed.

Lemma chain_writes m m' q k cs : ∀ a e, chain m a cs e → writes q k m m' → a + total cs ≤ q ∨ q + k ≤ a → chain m' a cs e.
Proof.
  induction cs as [|[n u] cs IH]; intros a e; [done|]. intros (Hn & Hh & Hc) Hw Hd. pose proof (chain_total _ _ _ _ Hc).
  simpl in Hd. split; [done|]. split; [eapply header_writes; [exact Hh|exact Hw|lia]|]. eapply IH; [exact Hc|exact Hw|lia].
Qed.

(** What is left of a free chunk of [c] bytes when [n] of them are taken. *)
Definition carve (n c : Z) : chunks := if c - n <? 14 then [(c, true)] else [(n, true); (c - n, false)].

Lemma carve_total n c : total (carve n c) = c.
Proof. unfold carve. case_match; simpl; lia. Qed.

Lemma wp_on_hmem {A} (k : M mem A) (Q : A → heap → Prop) h :
  wp k (λ r m', Q r (Heap m' (h_head h) (h_tail h) (h_brk h))) (h_mem h) → wp (on_hmem k) Q h.
Proof. intros H. unfold on_hmem. apply wp_zoom. exact H. Qed.

(** The end of [alloc_chunk]. *)
Lemma wp_take a nx c k (Q : Z → heap → Prop) h : header (h_mem h) a nx c false → 0 < a → a + 12 < 2 ^ 32 → word_range k →
  (∀ m', writes a 12 (h_mem h) m' → header m' a nx k true → Q (a + 12) (Heap m' (h_head h) (h_tail h) (h_brk h))) →
  wp (on_hmem (set_used a true);; on_hmem (set_csize a k);; mret (alloc_addr a)) Q h.
Proof.
  intros Hh Ha Hb Hk HQ. wp_step. apply wp_on_hmem. eapply wp_set_used; [exact Hh|]. intros m1 W1 X1.
  wp_step. apply wp_on_hmem. eapply wp_set_size; [exact X1|done|]. intros m2 W2 X2. wp_step. unfold alloc_addr, sizeof_chunk.
  rewrite u32_small by lia. apply HQ; [by eapply writes_trans|done].
Qed.

Lemma wp_alloc_chunk a nx c n h : header (h_mem h) a nx c false → mapped (h_mem h) a c → 0 < a → a + c < 2 ^ 32 →
  12 ≤ n ≤ c → word_range nx →
  wp (alloc_chunk a n) (λ p h', p = a + 12 ∧ writes a c (h_mem h) (h_mem h') ∧
    chain (h_mem h') a (carve n c) nx ∧ h_head h' = h_head h ∧ h_brk h' = h_brk h) h.
Proof.
  intros Hh Hm Ha Hc Hn Hnx. unfold alloc_chunk.
  wp_step. apply wp_on_hmem. eapply wp_used; [exact Hh|]. wp_step. apply wp_on_hmem. eapply wp_magic; [exact Hh|].
  wp_step. apply wp_assertk. split; [done|]. wp_step. apply wp_on_hmem. eapply wp_size; [exact Hh|]. cbn [h_head h_tail h_brk h_mem].
  rewrite u32_small by lia. unfold sizeof_chunk. change (12 + 2) with 14. unfold carve.
  wp_step. destruct (Z.ltb_spec (c - n) 14) as [Hs|Hs].
  - wp_step. eapply wp_take; [exact Hh|lia|lia|unfold word_range; lia|]. intros m' W X. split_and!; [done| |cbn [chain link]; split_and!; [lia|done|done]|done|done].
    eapply writes_weaken; [exact W|lia..].
  - rewrite u32_small by lia. wp_step. apply wp_on_hmem. eapply wp_next; [exact Hh|]. cbn [h_head h_tail h_brk h_mem].
    wp_step. apply wp_on_hmem. apply wp_chunk_init; [eapply mapped_part; [exact Hm|lia..]|done|unfold word_range; lia|].
    intros m1 W1 X1. cbn [h_head h_tail h_brk h_mem] in *.
    assert (header m1 a nx c false) as Y1 by (eapply header_writes; [exact Hh|exact W1|lia]).
    wp_step. apply wp_on_hmem. eapply wp_set_chunk_next; [exact Y1|unfold word_range; lia|]. intros m2 W2 Y2. cbn [h_head h_tail h_brk h_mem] in *.
    assert (header m2 (a + n) nx (c - n) false) as X2 by (eapply header_writes; [exact X1|exact W2|lia]).
    wp_step. wp_step. wp_step.
    assert (∀ tl, wp (on_hmem (set_used a true);; on_hmem (set_csize a n);; mret (alloc_addr a)) (λ p h', p = a + 12 ∧
      writes a c (h_mem h) (h_mem h') ∧ chain (h_mem h') a [(n, true); (c - n, false)] nx ∧ h_head h' = h_head h ∧ h_brk h' = h_brk h)
      (Heap m2 (h_head h) tl (h_brk h))) as Hlast.
    { intros tl. eapply wp_take; [exact Y2|lia|lia|unfold word_range; lia|]. intros m3 W3 X3. cbn [h_head h_tail h_brk h_mem] in *.
      split_and!; [done| | |done|done].
      - eapply writes_trans; [eapply writes_trans|]; eapply writes_weaken; [exact W1|lia|lia|exact W2|lia|lia|exact W3|lia|lia].
      - cbn [chain link]. split_and!; [lia|exact X3|lia|eapply header_writes; [exact X2|exact W3|lia]|done]. }
    unfold when, set_tail. case_match; wp_step; wp_step; apply Hlast.
Qed.

(** ** The abstract heap *)

Module Spec.
(** The first free chunk of at least [n] bytes, with what is before and behind it. *)
Fixpoint first_fit (n : Z) (cs : chunks) : option (chunks * Z * chunks) :=
  match cs with
  | [] => None
  | (c, u) :: cs' =>
      if negb u && (n <=? c) then Some ([], c, cs')
      else match first_fit n cs' with Some (l1, c', l2) => Some ((c, u) :: l1, c', l2) | None => None end
  end.

(** Only the first page is searched; when it has no room a new page is taken, also when
    others have room. *)
Definition allocate (n brk : Z) (segs : list (Z * chunks)) : Z * list (Z * chunks) :=
  let new := (brk + 12, segs ++ [(brk, carve n 4096)]) in
  match segs with
  | (b, cs) :: rest =>
      match first_fit n cs with
      | Some (l1, c, l2) => (b + total l1 + 12, (b, l1 ++ carve n c ++ l2) :: rest)
      | None => new
      end
  | [] => new
  end.

(** A chunk of [c] bytes that is given back, with the free chunks behind it. *)
Fixpoint merge (c : Z) (l : chunks) : chunks :=
  match l with
  | (n, false) :: l' => merge (c + n) l'
  | _ => (c, false) :: l
  end.

(** The blocks handed out: address and size. *)
Fixpoint blocks (a : Z) (cs : chunks) : list (Z * Z) :=
  match cs with
  | [] => []
  | (n, u) :: cs' => (if u then [(a + 12, n - 12)] else []) ++ blocks (a + n) cs'
  end.
Definition all_blocks (segs : list (Z * chunks)) : list (Z * Z) := segs ≫= λ s, blocks s.1 s.2.
End Spec.
Import Spec.

Lemma first_fit_split n cs l1 c l2 : first_fit n cs = Some (l1, c, l2) → cs = l1 ++ (c, false) :: l2 ∧ n ≤ c.
Proof.
  revert l1. induction cs as [|[k u] cs IH]; intros l1; [done|]. cbn [first_fit].
  destruct u, (Z.leb_spec n k); cbn [negb andb]; [..|by intros [= <- <- <-]|];
    (destruct (first_fit n cs) as [[[l1' c'] l2']|]; [|done]); intros [= <- <- <-];
    destruct (IH l1' eq_refl) as [-> ?]; done.
Qed.

Lemma blocks_app l1 : ∀ a l2, blocks a (l1 ++ l2) = blocks a l1 ++ blocks (a + total l1) l2.
Proof.
  induction l1 as [|[n u] l1 IH]; intros a l2; simpl; [by rewrite Z.add_0_r|]. by rewrite IH, <-app_assoc, Z.add_assoc.
Qed.

(** The blocks of a list of chunks lie inside it, behind the first header. *)
Lemma blocks_range m cs q k : ∀ a e, chain m a cs e → (q, k) ∈ blocks a cs → a + 12 ≤ q ∧ 0 ≤ k ∧ q + k ≤ a + total cs.
Proof.
  induction cs as [|[n u] cs IH]; intros a e; [by intros _ ?%elem_of_nil|]. intros (Hn & _ & Hc) Hq. cbn [blocks total] in *.
  apply elem_of_app in Hq as [Hq|Hq].
  - destruct u; [|by apply elem_of_nil in Hq]. apply list_elem_of_singleton in Hq as [= -> ->]. pose proof (chain_total _ _ _ _ Hc). lia.
  - destruct (IH _ _ Hc Hq) as (? & ? & ?). lia.
Qed.

(** ** The heap of a process *)

Definition seg_ok (m : mem) (brk : Z) (s : Z * chunks) : Prop :=
  0 < s.1 ∧ s.1 + 4096 ≤ brk ∧ total s.2 = 4096 ∧ chain m s.1 s.2 0 ∧ mapped m s.1 4096.
Definition first_page (segs : list (Z * chunks)) : Z := match segs with [] => 0 | s :: _ => s.1 end.

Record heap_ok (h : heap) (segs : list (Z * chunks)) : Prop := HeapOk {
  ho_head : h_head h = first_page segs;
  ho_segs : Forall (seg_ok (h_mem h) (h_brk h)) segs;
  ho_sort : StronglySorted (λ x y, x + 4096 ≤ y) segs.*1;
  ho_brk : 0 < h_brk h < 2 ^ 32 }.

Lemma seg_writes m m' brk s q k : seg_ok m brk s → writes q k m m' → s.1 + 4096 ≤ q ∨ q + k ≤ s.1 → seg_ok m' brk s.
Proof.
  intros (H1 & H2 & H3 & H4 & H5) Hw Hd. split_and!; [done|done|done| |by eapply writes_mapped].
  eapply chain_writes; [exact H4|exact Hw|lia].
Qed.

Lemma sorted_sep (l1 : list Z) x l2 : StronglySorted (λ x y, x + 4096 ≤ y) (l1 ++ x :: l2) →
  (∀ y, y ∈ l1 → y + 4096 ≤ x) ∧ (∀ y, y ∈ l2 → x + 4096 ≤ y).
Proof.
  induction l1 as [|z l1 IH]; simpl; intros H; inversion H as [|? ? H1 H2]; subst.
  - split; [by intros y ?%elem_of_nil|]. intros y Hy. by apply (proj1 (Forall_forall _ _) H2).
  - destruct (IH H1) as [I1 I2]. split; [|done]. intros y [-> |Hy]%elem_of_cons; [|by apply I1].
    apply (proj1 (Forall_forall _ _) H2). rewrite elem_of_app. right. by left.
Qed.

Lemma sorted_snoc (l : list Z) x : StronglySorted (λ x y, x + 4096 ≤ y) l → (∀ y, y ∈ l → y + 4096 ≤ x) →
  StronglySorted (λ x y, x + 4096 ≤ y) (l ++ [x]).
Proof.
  induction 1 as [|z l H IH Hz]; intros Hx; [by repeat constructor|]. simpl. constructor.
  - apply IH. intros y Hy. apply Hx. by right.
  - apply Forall_app. split; [done|]. apply Forall_singleton, Hx. by left.
Qed.

(** One page changes. *)
Lemma heap_update h h' s1 b cs cs' s2 q k : heap_ok h (s1 ++ (b, cs) :: s2) → writes q k (h_mem h) (h_mem h') →
  b ≤ q → q + k ≤ b + 4096 → chain (h_mem h') b cs' 0 → total cs' = 4096 → h_head h' = h_head h → h_brk h' = h_brk h →
  heap_ok h' (s1 ++ (b, cs') :: s2).
Proof.
  intros [H1 H2 H3 H4] Hw Hq Hk Hc Ht Eh Eb. pose proof H3 as Hs. rewrite fmap_app in Hs. apply sorted_sep in Hs as [S1 S2].
  apply Forall_app in H2 as [F1 F2]. apply Forall_cons in F2 as [(B1 & B2 & B3 & B4 & B5) F2].
  assert (∀ l, Forall (seg_ok (h_mem h) (h_brk h)) l → (∀ y, y ∈ l.*1 → y + 4096 ≤ b ∨ b + 4096 ≤ y) →
    Forall (seg_ok (h_mem h') (h_brk h')) l) as Hl.
  { intros l Hl Hd. rewrite Eb. apply Forall_forall. intros s Hin. eapply seg_writes; [by eapply (proj1 (Forall_forall _ _) Hl)|exact Hw|].
    specialize (Hd s.1 ltac:(by apply list_elem_of_fmap_2)). lia. }
  split; [rewrite Eh, H1; by destruct s1| | |by rewrite Eb].
  - apply Forall_app. split; [apply Hl; [done|]; intros y Hy; left; by apply S1|]. constructor; [|apply Hl; [done|]; intros y Hy; right; by apply S2].
    split_and!; [done|by rewrite Eb|done|done|by eapply writes_mapped].
  - rewrite fmap_app in *. exact H3.
Qed.

(** The search. *)
Definition find_step (n : Z) : Z → M heap (Z + Z) := λ hdr,
  if hdr =? 0 then mret (inr 0)
  else
    u ← on_hmem (chunk_used hdr);
    sz ← on_hmem (chunk_size hdr);
    if negb u && (n <=? sz) then mret (inr hdr)
    else nx ← on_hmem (chunk_next hdr); mret (inl nx).

Lemma find_loop n h cs : ∀ a k (Q : Z → heap → Prop), chain (h_mem h) a cs 0 → 0 < a → (length cs < k)%nat →
  Q (match first_fit n cs with Some (l1, _, _) => a + total l1 | None => 0 end) h →
  wp (loop k (find_step n) (link a cs 0)) Q h.
Proof.
  induction cs as [|[c u] cs IH]; intros a [|k] Q Hc Ha Hk HQ; simpl in Hk; try lia; cbn [loop link].
  - wp_step. unfold find_step. rewrite Z.eqb_refl. by do 2 wp_step.
  - destruct Hc as (Hn & Hh & Hc). wp_step. unfold find_step at 1. rewrite (proj2 (Z.eqb_neq a 0)) by lia.
    assert (∀ (r : heap → Prop), r h → r (Heap (h_mem h) (h_head h) (h_tail h) (h_brk h))) as Hid by (by destruct h).
    wp_step. apply wp_on_hmem. eapply wp_used; [exact Hh|]. apply Hid. wp_step. apply wp_on_hmem. eapply wp_size; [exact Hh|]. apply Hid.
    cbn [first_fit] in HQ. destruct (negb u && (n <=? c)).
    + do 2 wp_step. simpl in HQ. by rewrite Z.add_0_r in HQ.
    + wp_step. apply wp_on_hmem. eapply wp_next; [exact Hh|]. apply Hid. wp_step. apply IH; [done|lia|lia|].
      destruct (first_fit n cs) as [[[l1 c'] l2]|]; [|done]. cbn [total] in HQ. by rewrite Z.add_assoc in HQ.
Qed.

Lemma wp_find_chunk n h segs (Q : Z → heap → Prop) : heap_ok h segs →
  Q (match segs with
     | (b, cs) :: _ => match first_fit n cs with Some (l1, _, _) => b + total l1 | None => 0 end
     | [] => 0 end) h → wp (find_chunk n) Q h.
Proof.
  intros [H1 H2 H3 H4] HQ. unfold find_chunk. wp_step. wp_step. fold (find_step n). rewrite H1. destruct segs as [|[b cs] segs].
  - cbn [first_page]. cbn [loop]. wp_step. unfold find_step. rewrite Z.eqb_refl. by do 2 wp_step.
  - apply Forall_cons in H2 as [(B1 & B2 & B3 & B4 & B5) _]. cbn [first_page fst snd] in *.
    pose proof (chain_total _ _ _ _ B4). pose proof (mapped_size _ _ _ B5).
    replace b with (link b cs 0) at 1 by (by destruct cs). apply find_loop; [done|done|lia|done].
Qed.

(** ** Blocks in use *)

Lemma blocks_page h segs s q k : heap_ok h segs → s ∈ segs → (q, k) ∈ blocks s.1 s.2 →
  s.1 ≤ q ∧ 0 ≤ k ∧ q + k ≤ s.1 + 4096 ∧ s.1 + 4096 ≤ h_brk h.
Proof.
  intros H Hs Hq. destruct (proj1 (Forall_forall _ _) (ho_segs _ _ H) s Hs) as (_ & Hb & Ht & Hc & _).
  destruct (blocks_range _ _ _ _ _ _ Hc Hq) as (? & ? & ?). lia.
Qed.

Lemma all_blocks_elem segs q k : (q, k) ∈ all_blocks segs ↔ ∃ s, s ∈ segs ∧ (q, k) ∈ blocks s.1 s.2.
Proof. unfold all_blocks. rewrite list_elem_of_bind. firstorder. Qed.

(** The blocks besides the chunk of [c] bytes between [l1] and [l2]. *)
Definition others (s1 : list (Z * chunks)) (b : Z) (l1 : chunks) (c : Z) (l2 : chunks) (s2 : list (Z * chunks)) : list (Z * Z) :=
  all_blocks s1 ++ (blocks b l1 ++ blocks (b + total l1 + c) l2) ++ all_blocks s2.

Lemma all_blocks_split s1 b l1 cs l2 s2 :
  all_blocks (s1 ++ (b, l1 ++ cs ++ l2) :: s2) ≡ₚ blocks (b + total l1) cs ++ others s1 b l1 (total cs) l2 s2.
Proof.
  unfold others, all_blocks. rewrite bind_app, bind_cons. cbn [fst snd]. rewrite !blocks_app, <-!app_assoc.
  rewrite (Permutation_app_swap_app (blocks b l1)). apply Permutation_app_swap_app.
Qed.

Lemma others_apart h s1 b l1 c u l2 s2 q k : heap_ok h (s1 ++ (b, l1 ++ (c, u) :: l2) :: s2) →
  (q, k) ∈ others s1 b l1 c l2 s2 → 0 ≤ k ∧ (q + k ≤ b + total l1 ∨ b + total l1 + c ≤ q).
Proof.
  intros H. pose proof (ho_segs _ _ H) as Hf. apply Forall_app in Hf as [_ Hf]. apply Forall_cons in Hf as [(B1 & B2 & B3 & B4 & B5) _].
  cbn [fst snd] in *. apply chunks_app in B4 as [C1 (Hc & _ & C2)]. rewrite total_app in B3. cbn [total] in B3.
  pose proof (chain_total _ _ _ _ C1). pose proof (chain_total _ _ _ _ C2).
  pose proof (ho_sort _ _ H) as Hs. rewrite fmap_app in Hs. apply sorted_sep in Hs as [S1 S2].
  cbn [fst] in S1, S2. unfold others. rewrite !elem_of_app. intros [Hq|[[Hq|Hq]|Hq]].
  - apply all_blocks_elem in Hq as (s & Hs & Hq). destruct (blocks_page h _ s q k H) as (? & ? & ? & ?); [apply elem_of_app; by left|done|].
    specialize (S1 s.1 ltac:(by apply list_elem_of_fmap_2)). lia.
  - destruct (blocks_range _ _ _ _ _ _ C1 Hq) as (? & ? & ?). lia.
  - destruct (blocks_range _ _ _ _ _ _ C2 Hq) as (? & ? & ?). lia.
  - apply all_blocks_elem in Hq as (s & Hs & Hq). destruct (blocks_page h _ s q k H) as (? & ? & ? & ?); [apply elem_of_app; right; by right|done|].
    specialize (S2 s.1 ltac:(by apply list_elem_of_fmap_2)). lia.
Qed.

(** Blocks keep their bytes when only a chunk besides them is written. *)
Definition kept (h h' : heap) (l : list (Z * Z)) : Prop :=
  Forall (λ '(q, k), ∀ j, 0 ≤ j < k → h_mem h' !! (q + j) = h_mem h !! (q + j)) l.

Lemma kept_writes h h' a c l : writes a c (h_mem h) (h_mem h') →
  (∀ q k, (q, k) ∈ l → q + k ≤ a ∨ a + c ≤ q) → kept h h' l.
Proof. intros [_ Hw] Hl. apply Forall_forall. intros [q k] Hq j Hj. apply Hw. specialize (Hl q k Hq). lia. Qed.

(** ** malloc *)

Section malloc.
Variable fill : Z → Z.

Lemma wp_sbrk h (Q : Z → heap → Prop) : 0 < h_brk h → h_brk h + 4096 < 2 ^ 32 →
  (∀ h', h_head h' = h_head h → h_brk h' = h_brk h + 4096 → mapped (h_mem h') (h_brk h) 4096 → h_mem h ⊆ h_mem h' →
     (∀ a, h_brk h + 4096 ≤ a → h_mem h' !! a = h_mem h !! a) → Q (h_brk h) h') →
  wp (sbrk fill 4096) Q h.
Proof.
  intros Hb Hr HQ. unfold sbrk. do 3 wp_step. wp_step. apply HQ; cbn [h_head h_brk h_mem]; [done| | |apply map_union_subseteq_l|].
  - change (PAGE_CEIL 4096) with 4096. apply u32_small. lia.
  - intros j Hj. apply lookup_union_is_Some. right. rewrite <-elem_of_dom, dom_list_to_map, elem_of_list_to_set.
    rewrite <-list_fmap_compose. apply list_elem_of_fmap. exists (h_brk h + j). split; [done|].
    change (PAGE_CEIL 4096) with 4096. apply elem_of_seqZ. lia.
  - intros a Ha. apply lookup_union_l, not_elem_of_list_to_map. rewrite <-list_fmap_compose. intros (x & -> & Hx)%list_elem_of_fmap.
    apply elem_of_seqZ in Hx. change (PAGE_CEIL 4096) with 4096 in Hx. cbn in Ha. lia.
Qed.

Lemma word_subseteq m m' a v : m ⊆ m' → word m a v → word m' a v.
Proof.
  intros Hs Hw. eapply word_ext; [|exact Hw]. destruct (load32_state _ _ _ _ Hw) as [_ Hm]. intros j Hj.
  destruct (Hm j Hj) as [x Hx]. rewrite Hx. by eapply lookup_weaken.
Qed.

Lemma mapped_subseteq m m' a n : m ⊆ m' → mapped m a n → mapped m' a n.
Proof. intros Hs Hm j Hj. destruct (Hm j Hj) as [x Hx]. exists x. by eapply lookup_weaken. Qed.

Lemma chain_subseteq m m' cs : m ⊆ m' → ∀ a e, chain m a cs e → chain m' a cs e.
Proof.
  intros Hs. induction cs as [|[n u] cs IH]; intros a e; [done|]. intros (Hn & [H1 H2 H3 H4] & Hc). cbn [chain]. split_and!; [done| |by apply IH].
  split; [by eapply word_subseteq..|by eapply mapped_subseteq].
Qed.

(** Nothing changes for the old pages when a new one is mapped. *)
Lemma heap_grow h h' segs : heap_ok h segs → h_head h' = h_head h → h_brk h' = h_brk h + 4096 → h_brk h' < 2 ^ 32 →
  h_mem h ⊆ h_mem h' → heap_ok h' segs.
Proof.
  intros [H1 H2 H3 H4] Eh Eb Hb Hs. split; [by rewrite Eh| |done|lia]. eapply Forall_impl; [exact H2|].
  intros s (B1 & B2 & B3 & B4 & B5). split_and!; [done|lia|done|by eapply chain_subseteq|by eapply mapped_subseteq].
Qed.

Lemma align_size size : 0 ≤ size ≤ 4084 → let n := ALIGN (u32 (size + sizeof_chunk)) 2 in size + 12 ≤ n ∧ 12 ≤ n ≤ 4096.
Proof.
  intros H. unfold ALIGN, sizeof_chunk. rewrite (u32_small (size + 12)), (u32_small (size + 12 + 2 - 1)) by lia.
  pose proof (land_lnot_low 32 1 (size + 12 + 2 - 1) ltac:(lia) ltac:(lia)) as E. change (2 ^ 1) with 2 in E.
  unfold u32. rewrite E. Z.div_mod_to_equations. lia.
Qed.

Lemma carve_blocks a n c : n ≤ c → ∃ k, n - 12 ≤ k ≤ c - 12 ∧ blocks a (carve n c) = [(a + 12, k)].
Proof. intros H. unfold carve. case_match; simpl; [exists (c - 12)|exists (n - 12)]; (split; [lia|done]). Qed.

(** What [malloc] leaves. *)
Record malloced (h h' : heap) (segs segs' : list (Z * chunks)) (p size : Z) : Prop := Malloced {
  ml_ok : heap_ok h' segs';
  ml_block : ∃ k, size ≤ k ∧ all_blocks segs' ≡ₚ (p, k) :: all_blocks segs ∧
    Forall (λ '(q, k'), p + k ≤ q ∨ q + k' ≤ p) (all_blocks segs);
  ml_kept : kept h h' (all_blocks segs) }.

(** A chunk of the list is taken. *)
Lemma malloced_fit h h' b l1 c l2 rest n size : heap_ok h ((b, l1 ++ (c, false) :: l2) :: rest) → n ≤ c → size + 12 ≤ n →
  writes (b + total l1) c (h_mem h) (h_mem h') → chain (h_mem h') (b + total l1) (carve n c) (link (b + total l1 + c) l2 0) →
  h_head h' = h_head h → h_brk h' = h_brk h →
  malloced h h' ((b, l1 ++ (c, false) :: l2) :: rest) ((b, l1 ++ carve n c ++ l2) :: rest) (b + total l1 + 12) size.
Proof.
  intros H Hn Hsz Hw Hc Eh Eb. pose proof (ho_segs _ _ H) as Hf. apply Forall_cons in Hf as [(B1 & B2 & B3 & B4 & B5) _]. cbn [fst snd] in *.
  apply chunks_app in B4 as [C1 (Hc12 & Hh & C2)]. rewrite total_app in B3. cbn [total] in B3.
  pose proof (chain_total _ _ _ _ C1). pose proof (chain_total _ _ _ _ C2).
  destruct (carve_blocks (b + total l1) n c Hn) as (k & Hk & Ek).
  assert (all_blocks ((b, l1 ++ (c, false) :: l2) :: rest) ≡ₚ others [] b l1 c l2 rest) as Ep.
  { rewrite (all_blocks_split [] b l1 [(c, false)] l2 rest). cbn [blocks total app]. by rewrite Z.add_0_r. }
  assert (∀ q k', (q, k') ∈ all_blocks ((b, l1 ++ (c, false) :: l2) :: rest) → q + k' ≤ b + total l1 ∨ b + total l1 + c ≤ q) as Hap.
  { intros q k' Hq. rewrite Ep in Hq. by destruct (others_apart h [] b l1 c false l2 rest q k' H Hq). }
  split.
  - eapply (heap_update h h' [] b _ _ rest); [exact H|exact Hw|lia|lia| |by rewrite !total_app, carve_total|done|done].
    assert (∀ e, link (b + total l1) (carve n c) e = b + total l1) as El by (intros e; unfold carve; by case_match).
    apply chunks_app. rewrite link_app, El. split; [eapply chain_writes; [exact C1|exact Hw|lia]|].
    apply chunks_app. rewrite carve_total. split; [exact Hc|]. eapply chain_writes; [exact C2|exact Hw|lia].
  - exists k. split; [lia|]. split.
    + rewrite (all_blocks_split [] b l1 (carve n c) l2 rest), Ek, carve_total. by rewrite Ep.
    + apply Forall_forall. intros [q k'] Hq. specialize (Hap q k' Hq). lia.
  - eapply kept_writes; [exact Hw|exact Hap].
Qed.

(** A page is added. *)
Lemma malloced_grow h h1 h' segs n size : heap_ok h segs → 12 ≤ n ≤ 4096 → size + 12 ≤ n → h_brk h + 4096 < 2 ^ 32 →
  h_mem h ⊆ h_mem h1 → mapped (h_mem h1) (h_brk h) 4096 → writes (h_brk h) 4096 (h_mem h1) (h_mem h') →
  chain (h_mem h') (h_brk h) (carve n 4096) 0 →
  h_head h' = first_page (segs ++ [(h_brk h, carve n 4096)]) → h_brk h' = h_brk h + 4096 →
  malloced h h' segs (segs ++ [(h_brk h, carve n 4096)]) (h_brk h + 12) size.
Proof.
  intros H Hn Hsz Hb Hsub Hm Hw Hc Eh Eb. destruct (carve_blocks (h_brk h) n 4096 ltac:(lia)) as (k & Hk & Ek).
  assert (∀ q k', (q, k') ∈ all_blocks segs → 0 ≤ k' ∧ q + k' ≤ h_brk h) as Hap.
  { intros q k' (s & Hs & Hq)%all_blocks_elem. destruct (blocks_page h segs s q k' H Hs Hq) as (? & ? & ? & ?). lia. }
  split.
  - pose proof (ho_brk _ _ H) as Hb0. split; [exact Eh| | |lia].
    + apply Forall_app. split; [|apply Forall_singleton; split_and!; cbn [fst snd]; [lia|lia|apply carve_total|done|by eapply writes_mapped]].
      eapply Forall_impl; [apply H|]. intros s (B1 & B2 & B3 & B4 & B5). eapply seg_writes; [|exact Hw|lia].
      split_and!; [done|lia|done|by eapply chain_subseteq|by eapply mapped_subseteq].
    + rewrite fmap_app. apply sorted_snoc; [apply H|]. intros y (s & -> & Hs)%list_elem_of_fmap.
      destruct (proj1 (Forall_forall _ _) (ho_segs _ _ H) s Hs) as (_ & ? & _). done.
  - exists k. split; [lia|]. split.
    + unfold all_blocks. rewrite bind_app, bind_cons. cbn [fst snd mbind list_bind]. rewrite app_nil_r, Ek. apply Permutation_app_comm.
    + apply Forall_forall. intros [q k'] Hq. specialize (Hap q k' Hq). lia.
  - apply Forall_forall. intros [q k'] Hq j Hj. destruct (Hap q k' Hq). rewrite (proj2 Hw) by lia.
    apply all_blocks_elem in Hq as (s & Hs & Hq). destruct (blocks_page h segs s q k' H Hs Hq) as (? & ? & ? & ?).
    destruct (proj1 (Forall_forall _ _) (ho_segs _ _ H) s Hs) as (_ & _ & _ & _ & B5).
    destruct (mapped_lookup _ _ _ (q + j) B5 ltac:(lia)) as [x Hx]. rewrite Hx. by eapply lookup_weaken.
Qed.

(** A new page is set up and the first block of it taken. *)
Lemma wp_new_page b n h : 0 < b → b + 4096 < 2 ^ 32 → 12 ≤ n ≤ 4096 → mapped (h_mem h) b 4096 →
  wp (h0 ← get; when (h_head h0 =? 0) (set_head b);; on_hmem (chunk_init b 0 4096);; set_tail b;; alloc_chunk b n)
    (λ p h', p = b + 12 ∧ writes b 4096 (h_mem h) (h_mem h') ∧ chain (h_mem h') b (carve n 4096) 0 ∧
      h_head h' = (if h_head h =? 0 then b else h_head h) ∧ h_brk h' = h_brk h) h.
Proof.
  intros Hb Hr Hn Hm. assert (∀ hd, wp (on_hmem (chunk_init b 0 4096);; set_tail b;; alloc_chunk b n) (λ p h', p = b + 12 ∧
    writes b 4096 (h_mem h) (h_mem h') ∧ chain (h_mem h') b (carve n 4096) 0 ∧ h_head h' = hd ∧ h_brk h' = h_brk h)
    (Heap (h_mem h) hd (h_tail h) (h_brk h))) as Hgo.
  { intros hd. wp_step. apply wp_on_hmem. apply wp_chunk_init; [eapply mapped_part; [exact Hm|lia..]|unfold word_range; lia..|].
    intros m1 W1 X1. cbn [h_mem] in *. unfold set_tail. do 2 wp_step. 
    eapply wp_mono; [apply (wp_alloc_chunk b 0 4096 n); cbn [h_mem]; [done|by eapply writes_mapped|done|done|done|unfold word_range; lia]|].
    intros p h' (-> & W2 & Hc & Eh & Eb). split_and!; [done| |done|done|done].
    eapply writes_trans; [eapply writes_weaken; [exact W1|lia..]|exact W2]. }
  do 2 wp_step. wp_step. unfold when, set_head. destruct (h_head h =? 0) eqn:E; wp_step; [apply Hgo|]. destruct h. apply Hgo.
Qed.

(** C13: [malloc] of at most 4084 bytes ends.  It does what [Spec.allocate] says: first fit
    among the chunks of the first page, a new page when there is none.  The block it
    returns has at least the size asked for and is apart from all blocks in use, which
    keep their bytes; the headers stay well formed. *)
Theorem malloc_correct size h segs : heap_ok h segs → 0 ≤ size ≤ 4084 → h_brk h + 4096 < 2 ^ 32 →
  wp (malloc fill size) (λ p h',
    let '(q, segs') := Spec.allocate (ALIGN (u32 (size + sizeof_chunk)) 2) (h_brk h) segs in
    p = q ∧ malloced h h' segs segs' p size) h.
Proof.
  intros H Hs Hb. destruct (align_size size Hs) as [Hsz Hn]. unfold malloc. set (n := ALIGN _ 2) in *.
  wp_step. apply (wp_find_chunk n h segs); [done|].
  destruct (match segs with (b, cs) :: _ => first_fit n cs | [] => None end) as [[[l1 c] l2]|] eqn:Ef.
  - destruct segs as [|[b cs] rest]; [done|]. cbn [Spec.allocate]. rewrite Ef. apply first_fit_split in Ef as [-> Hc].
    pose proof (ho_segs _ _ H) as Hf. apply Forall_cons in Hf as [(B1 & B2 & B3 & B4 & B5) _]. cbn [fst snd] in *.
    apply chunks_app in B4 as [C1 (Hc12 & Hh & C2)]. rewrite total_app in B3. cbn [total] in B3.
    pose proof (chain_total _ _ _ _ C1). pose proof (chain_total _ _ _ _ C2). pose proof (ho_brk _ _ H).
    rewrite (proj2 (truth_true _)) by lia.
    eapply wp_mono; [apply (wp_alloc_chunk _ _ c n h Hh)|]; [eapply mapped_part; [exact B5|lia..]|lia|lia|lia| |].
    + unfold word_range, link. destruct l2; lia.
    + intros p h' (-> & Hw & Hch & Eh & Eb). split; [done|]. by apply malloced_fit.
  - replace (match segs with [] => 0 | (b, cs) :: _ => match first_fit n cs with Some (l1, _, _) => b + total l1 | None => 0 end end)
      with 0 by (destruct segs as [|[b cs] rest]; [done|by rewrite Ef]).
    assert (Spec.allocate n (h_brk h) segs = (h_brk h + 12, segs ++ [(h_brk h, carve n 4096)])) as ->
      by (destruct segs as [|[b cs] rest]; [done|cbn [Spec.allocate]; by rewrite Ef]).
    change (truth 0) with false. cbv iota. pose proof (ho_brk _ _ H). wp_step. apply wp_sbrk; [lia|done|].
    intros h1 Eh1 Eb1 Hm1 Hsub _. wp_step. apply wp_assertk. split; [apply truth_true; lia|].
    eapply wp_mono; [apply wp_new_page; [lia|lia|lia|done]|]. intros p h' (-> & W & Hc & Eh & Eb). split; [done|].
    eapply (malloced_grow h h1); try done; [|congruence]. rewrite Eh, Eh1, (ho_head _ _ H).
    destruct segs as [|[b cs] rest]; [done|]. cbn [first_page fst app]. pose proof (ho_segs _ _ H) as Hf. apply Forall_cons in Hf as [(B1 & _) _].
    cbn [fst] in B1. by rewrite (proj2 (Z.eqb_neq b 0)) by lia.
Qed.
End malloc.

(** ** free *)

(** The free chunks at the start of a list. *)
Fixpoint free_prefix (l : chunks) : chunks * chunks :=
  match l with
  | (n, false) :: l' => let '(f, r) := free_prefix l' in ((n, false) :: f, r)
  | _ => ([], l)
  end.

Lemma free_prefix_merge l f r : free_prefix l = (f, r) → l = f ++ r ∧ Forall (λ x, x.2 = false) f ∧
  (∀ c, merge c l = (c + total f, false) :: r) ∧ match r with (_, false) :: _ => False | _ => True end.
Proof.
  revert f r. induction l as [|[n u] l IH]; intros f r; [intros [= <- <-]; split_and!; try done; intros c; simpl; by rewrite Z.add_0_r|].
  cbn [free_prefix]. destruct u; [intros [= <- <-]; split_and!; try done; intros c; simpl; by rewrite Z.add_0_r|].
  destruct (free_prefix l) as [f' r'] eqn:E. intros [= <- <-]. destruct (IH f' r' eq_refl) as (-> & Hf & Hm & Hr).
  split_and!; [done|by constructor| |done]. intros c. cbn [merge total]. by rewrite Hm, Z.add_assoc.
Qed.

Lemma blocks_free f : Forall (λ x, x.2 = false) f → ∀ a, blocks a f = [].
Proof. induction 1 as [|[n u] f Hu _ IH]; intros a; [done|]. simpl in Hu. subst u. apply IH. Qed.

(** The loop of [free] over the free chunks [f] at [p]. *)
Definition merge_step (chunk : Z) : Z * Z → M heap ((Z * Z) + (Z * Z)) := λ '(p, size),
  if p =? 0 then mret (inr (p, size))
  else
    u ← on_hmem (chunk_used p);
    if u : bool then mret (inr (p, size))
    else
      mg ← on_hmem (chunk_magic chunk);
      assertk (mg =? HEAP_MAGIC);;
      sz ← on_hmem (chunk_size p);
      nx ← on_hmem (chunk_next p);
      mret (inl (nx, u32 (size + sz))).

Lemma merge_loop h chunk nx c r : header (h_mem h) chunk nx c false → match r with (_, false) :: _ => False | _ => True end →
  ∀ f p k size (Q : Z * Z → heap → Prop), Forall (λ x, x.2 = false) f → chain (h_mem h) p (f ++ r) 0 → 0 < p → 0 ≤ size →
  size + total (f ++ r) < 2 ^ 32 → (length (f ++ r) < k)%nat →
  Q (link (p + total f) r 0, size + total f) h → wp (loop k (merge_step chunk) (link p (f ++ r) 0, size)) Q h.
Proof.
  intros Hh Hr. assert (∀ (z : heap → Prop), z h → z (Heap (h_mem h) (h_head h) (h_tail h) (h_brk h))) as Hid by (by destruct h).
  induction f as [|[n u] f IH]; intros p [|k] size Q Hf Hc Hp Hs Ht Hk HQ; try (simpl in Hk; lia); cbn [loop].
  - simpl app in *. simpl total in HQ. rewrite !Z.add_0_r in HQ. wp_step. unfold merge_step at 1. destruct r as [|[n u] r]; cbn [link] in *.
    + rewrite Z.eqb_refl. by do 2 wp_step.
    + rewrite (proj2 (Z.eqb_neq p 0)) by lia. destruct u; [|done]. destruct Hc as (_ & Hh1 & _).
      wp_step. apply wp_on_hmem. eapply wp_used; [exact Hh1|]. apply Hid. by do 2 wp_step.
  - apply Forall_cons in Hf as [Hu Hf]. simpl in Hu. subst u. cbn [app link] in *. destruct Hc as (Hn & Hh1 & Hc). cbn [total] in *.
    pose proof (chain_total _ _ _ _ Hc). wp_step. unfold merge_step at 1. rewrite (proj2 (Z.eqb_neq p 0)) by lia.
    wp_step. apply wp_on_hmem. eapply wp_used; [exact Hh1|]. apply Hid. wp_step. apply wp_on_hmem. eapply wp_magic; [exact Hh|]. apply Hid.
    wp_step. apply wp_assertk. split; [by rewrite Z.eqb_refl|]. wp_step. apply wp_on_hmem. eapply wp_size; [exact Hh1|]. apply Hid.
    wp_step. apply wp_on_hmem. eapply wp_next; [exact Hh1|]. apply Hid. wp_step. rewrite u32_small by lia.
    apply IH; [done|done|lia|lia|lia|simpl in Hk; lia|]. replace (p + n + total f) with (p + (n + total f)) by lia.
    by replace (size + n + total f) with (size + (n + total f)) by lia.
Qed.

Lemma wp_free_chunk a c l2 f r h : header (h_mem h) a (link (a + c) l2 0) c true → chain (h_mem h) (a + c) l2 0 →
  free_prefix l2 = (f, r) → 0 < a → 12 ≤ c → a + c + total l2 < 2 ^ 32 → (length l2 ≤ size (h_mem h))%nat →
  wp (free (a + 12)) (λ _ h', writes a 12 (h_mem h) (h_mem h') ∧ h_head h' = h_head h ∧ h_brk h' = h_brk h ∧
    header (h_mem h') a (link (a + c + total f) r 0) (c + total f) false) h.
Proof.
  intros Hh Hc Ef Ha H12 Hr Hl. destruct (free_prefix_merge _ _ _ Ef) as (-> & Hf & _ & Hrr). pose proof (chain_total _ _ _ _ Hc) as Ht.
  rewrite total_app in Hr, Ht. apply chunks_app in Hc as [C1 C2]. pose proof (chain_total _ _ _ _ C1). pose proof (chain_total _ _ _ _ C2).
  unfold free, chunk_header, sizeof_chunk. replace (u32 (a + 12 - 12)) with a by (rewrite u32_small; lia).
  wp_step. apply wp_on_hmem. eapply wp_used; [exact Hh|]. wp_step. apply wp_on_hmem. eapply wp_magic; [exact Hh|].
  wp_step. apply wp_assertk. split; [done|]. wp_step. apply wp_on_hmem. eapply wp_set_used; [exact Hh|]. intros m1 W1 X1. cbn [h_mem h_head h_tail h_brk] in *.
  wp_step. apply wp_on_hmem. eapply wp_next; [exact X1|]. wp_step. apply wp_on_hmem. eapply wp_size; [exact X1|]. cbn [h_mem h_head h_tail h_brk].
  wp_step. unfold merge_chunks. wp_step. wp_step. fold (merge_step a).
  assert (chain m1 (a + c) (f ++ r) 0) as Hc1.
  { apply chunks_app. split; [eapply chain_writes; [exact C1|exact W1|lia]|eapply chain_writes; [exact C2|exact W1|lia]]. }
  eapply merge_loop; [exact X1|exact Hrr|exact Hf|exact Hc1|lia|lia|rewrite total_app; lia| |].
  { cbn [h_mem]. assert (size m1 = size (h_mem h)) by (rewrite <-!(size_dom (D := gset Z)), (proj1 W1); done). lia. }
  unfold when. destruct (Z.eqb_spec (link (a + c + total f) r 0) (link (a + c) (f ++ r) 0)) as [E|E]; cbn [negb].
  - wp_step. cbn [h_mem h_head h_brk]. split_and!; [done|done|done|]. 
    assert (f = []) as ->. { destruct f as [|[n u] f]; [done|]. cbn [app link total chain] in *. destruct C1 as (? & _ & C1). pose proof (chain_total _ _ _ _ C1). destruct r; simpl in E; lia. }
    cbn [total]. rewrite !Z.add_0_r. exact X1.
  - wp_step. apply wp_on_hmem. eapply wp_set_chunk_next; [exact X1|unfold word_range, link; destruct r; lia|]. intros m2 W2 X2. cbn [h_mem h_head h_tail h_brk] in *.
    wp_step. apply wp_on_hmem. eapply wp_set_size; [exact X2|unfold word_range; lia|]. intros m3 W3 X3. cbn [h_mem h_head h_tail h_brk] in *.
    assert (writes a 12 (h_mem h) m3) as W by (eapply writes_trans; [eapply writes_trans; [exact W1|exact W2]|exact W3]).
    unfold set_tail. destruct (_ =? 0); wp_step; done.
Qed.

(** The chunk of a block in use. *)
Lemma block_chunk segs p k : (p, k) ∈ all_blocks segs →
  ∃ s1 b l1 l2 s2, segs = s1 ++ (b, l1 ++ (k + 12, true) :: l2) :: s2 ∧ p = b + total l1 + 12.
Proof.
  intros ([b cs] & (s1 & s2 & ->)%list_elem_of_split & Hq)%all_blocks_elem. cbn [fst snd] in Hq.
  assert (∃ l1 l2, cs = l1 ++ (k + 12, true) :: l2 ∧ p = b + total l1 + 12) as (l1 & l2 & -> & ->); [|by exists s1, b, l1, l2, s2].
  revert b Hq. induction cs as [|[n u] cs IH]; intros b Hq; [by apply elem_of_nil in Hq|]. cbn [blocks] in Hq.
  apply elem_of_app in Hq as [Hq|Hq].
  - destruct u; [|by apply elem_of_nil in Hq]. apply list_elem_of_singleton in Hq as [= -> ->]. exists [], cs. simpl. split; [|lia].
    do 2 f_equal. lia.
  - destruct (IH _ Hq) as (l1 & l2 & -> & ->). exists ((n, u) :: l1), l2. split; [done|]. cbn [total]. lia.
Qed.

(** C14: [free] of a block in use, which is in some page between chunks [l1] and [l2],
    ends.  Exactly this block is no longer in use, its chunk and the free chunks behind
    it are one free chunk, the headers stay well formed and all other blocks keep their
    bytes. *)
Theorem free_correct p k h segs s1 b l1 l2 s2 : heap_ok h segs →
  segs = s1 ++ (b, l1 ++ (k + 12, true) :: l2) :: s2 → p = b + total l1 + 12 →
  wp (free p) (λ _ h', let segs' := s1 ++ (b, l1 ++ merge (k + 12) l2) :: s2 in
    heap_ok h' segs' ∧ all_blocks segs ≡ₚ (p, k) :: all_blocks segs' ∧ kept h h' (all_blocks segs')) h.
Proof.
  intros H -> ->.
  destruct (free_prefix l2) as [f r] eqn:Ef. destruct (free_prefix_merge _ _ _ Ef) as (El & Hf & Hm & _).
  pose proof (ho_segs _ _ H) as Hs. apply Forall_app in Hs as [_ Hs]. apply Forall_cons in Hs as [(B1 & B2 & B3 & B4 & B5) _].
  cbn [fst snd] in *. apply chunks_app in B4 as [C1 (Hc12 & Hh & C2)]. rewrite total_app in B3. cbn [total] in B3.
  pose proof (chain_total _ _ _ _ C1). pose proof (chain_total _ _ _ _ C2). pose proof (ho_brk _ _ H). pose proof (mapped_size _ _ _ B5).
  set (a := b + total l1) in *. set (c := k + 12) in *.
  eapply wp_mono; [apply (wp_free_chunk a c l2 f r h); [done|done|done|lia|lia|lia|lia]|].
  intros _ h' (W & Eh & Eb & Hh'). cbv zeta. rewrite (Hm c).
  rewrite El, total_app in B3. rewrite El in C2. apply chunks_app in C2 as [C2 C3].
  assert (all_blocks (s1 ++ (b, l1 ++ (c + total f, false) :: r) :: s2) ≡ₚ others s1 b l1 c l2 s2) as Ep.
  { rewrite (all_blocks_split s1 b l1 [(c + total f, false)] r s2). cbn [blocks total app]. unfold others. rewrite El, (blocks_app f), (blocks_free f Hf).
    fold a. cbn [app]. by replace (a + (c + total f + 0)) with (a + c + total f) by lia. }
  pose proof (chain_total _ _ _ _ C2). pose proof (chain_total _ _ _ _ C3). split_and!.
  - eapply (heap_update h h' s1 b _ _ s2); [exact H|exact W|lia|lia| |rewrite total_app; cbn [total]; lia|done|done].
    apply chunks_app. fold a. cbn [link chain]. split_and!; [eapply chain_writes; [exact C1|exact W|lia]|lia| |].
    + replace (a + (c + total f)) with (a + c + total f) by lia. exact Hh'.
    + replace (a + (c + total f)) with (a + c + total f) by lia. eapply chain_writes; [exact C3|exact W|lia].
  - rewrite Ep. rewrite (all_blocks_split s1 b l1 [(c, true)] l2 s2). cbn [blocks total app]. fold a. rewrite Z.add_0_r.
    by replace (c - 12) with k by (unfold c; lia).
  - eapply kept_writes; [exact W|]. intros q k' Hq. rewrite Ep in Hq.
    destruct (others_apart h s1 b l1 c true l2 s2 q k' H Hq) as [_ Hd]. fold a in Hd. lia.
Qed.

Lemma store32_fault a v m : m !! a = None → store32 a v m = Err Fault.
Proof. intros E. unfold store32, store16. by apply bind_Err, bind_Err, store8_fault. Qed.

(** Taking more bytes than a chunk has. *)
Lemma alloc_large_fault a nx c n h : header (h_mem h) a nx c false → 0 < a → 0 ≤ c → c < n < 2 ^ 31 + 4096 → a + n < 2 ^ 32 →
  h_mem h !! (a + n) = None → alloc_chunk a n h = Err Fault.
Proof.
  intros Hh Ha Hc Hn Hr Hno. unfold alloc_chunk. assert (∀ (z : heap → Prop), z h → z (Heap (h_mem h) (h_head h) (h_tail h) (h_brk h))) as Hid by (by destruct h).
  apply bind_wp_Err, wp_on_hmem. eapply wp_used; [exact Hh|]. apply Hid. apply bind_wp_Err, wp_on_hmem. eapply wp_magic; [exact Hh|]. apply Hid.
  apply bind_wp_Err, wp_assertk. split; [done|]. apply bind_wp_Err, wp_on_hmem. eapply wp_size; [exact Hh|]. apply Hid.
  assert (u32 (c - n) = 2 ^ 32 + c - n) as -> by (unfold u32; symmetry; apply Z.mod_unique with (-1); lia).
  unfold sizeof_chunk. rewrite (proj2 (Z.ltb_ge _ _)) by lia. rewrite u32_small by lia.
  apply bind_Err. apply bind_wp_Err, wp_on_hmem. eapply wp_next; [exact Hh|]. apply Hid. apply bind_Err.
  unfold on_hmem, zoom, chunk_init. by rewrite (bind_Err _ _ _ _ (store32_fault _ _ _ Hno)).
Qed.

(** [malloc] of more than a page can hold writes outside the memory of the process:
    the page it takes has only 4096 bytes, the size left of it wraps to a number near
    2^32, and a header is stored at the end of the block, where nothing is mapped. *)
Theorem malloc_large_faults fill size h segs : heap_ok h segs → 4084 < size < 2 ^ 31 →
  h_brk h + size + 16 < 2 ^ 32 → (∀ a, h_brk h ≤ a → h_mem h !! a = None) →
  malloc fill size h = Err Fault.
Proof.
  intros H Hs Hb Hno. unfold malloc. set (n := ALIGN _ 2).
  assert (4096 < n ≤ size + 13) as Hn.
  { unfold n, ALIGN, sizeof_chunk. rewrite (u32_small (size + 12)), (u32_small (size + 12 + 2 - 1)) by lia.
    pose proof (land_lnot_low 32 1 (size + 12 + 2 - 1) ltac:(lia) ltac:(lia)) as E. change (2 ^ 1) with 2 in E.
    unfold u32. rewrite E. Z.div_mod_to_equations. lia. }
  apply bind_wp_Err, (wp_find_chunk n h segs); [done|].
  replace (match segs with [] => 0 | (b, cs) :: _ => match first_fit n cs with Some (l1, _, _) => b + total l1 | None => 0 end end) with 0.
  2:{ destruct segs as [|[b cs] rest]; [done|]. destruct (first_fit n cs) as [[[l1 c] l2]|] eqn:E; [|done].
      apply first_fit_split in E as [-> Hc]. pose proof (ho_segs _ _ H) as Hf. apply Forall_cons in Hf as [(_ & _ & B3 & B4 & _) _].
      cbn [fst snd] in *. apply chunks_app in B4 as [C1 (_ & _ & C2)]. rewrite total_app in B3. cbn [total] in B3.
      pose proof (chain_total _ _ _ _ C1). pose proof (chain_total _ _ _ _ C2). lia. }
  change (truth 0) with false. cbv iota. pose proof (ho_brk _ _ H).
  apply bind_wp_Err, wp_sbrk; [lia|lia|]. intros h1 _ _ Hm1 _ Hout.
  apply bind_wp_Err, wp_assertk. split; [apply truth_true; lia|]. apply bind_wp_Err. wp_step.
  assert (∀ hd, (on_hmem (chunk_init (h_brk h) 0 4096);; set_tail (h_brk h);; alloc_chunk (h_brk h) n)
    (Heap (h_mem h1) hd (h_tail h1) (h_brk h1)) = Err Fault) as Hgo.
  { intros hd. apply bind_wp_Err, wp_on_hmem, wp_chunk_init; [eapply mapped_part; [exact Hm1|lia..]|unfold word_range; lia..|].
    intros m2 W2 X2. apply bind_wp_Err. unfold set_tail. wp_step. apply (alloc_large_fault _ 0 4096); cbn [h_mem] in *; [done|lia|lia|lia|lia|].
    rewrite (proj2 W2) by lia. rewrite Hout by lia. apply Hno. lia. }
  apply bind_wp_Err. unfold when, set_head. destruct (h_head h1 =? 0); wp_step; [apply Hgo|]. destruct h1. apply Hgo.
Qed.

(** ** A small heap *)

Definition no_heap : heap := Heap ∅ 0 0 0x8000000.
Definition demo_heap : heap :=
  match (malloc (λ _, 0) 10;; malloc (λ _, 0) 7) no_heap with Ok (_, h) => h | Err _ => no_heap end.
Definition demo_segs : list (Z * chunks) := [(0x8000000, [(22, true); (20, true); (4054, false)])].

Lemma no_heap_ok : heap_ok no_heap [].
Proof. split; [done|constructor|constructor|done]. Qed.

Lemma mapped_forallb m p n : forallb (λ a, bool_decide (is_Some (m !! a))) (seqZ p n) = true → mapped m p n.
Proof.
  intros H j Hj. pose proof (proj1 (forallb_forall _ _) H (p + j)) as Hb. apply bool_decide_eq_true in Hb; [done|].
  apply list_elem_of_In, elem_of_seqZ. lia.
Qed.

(** A decision procedure for chains. *)
Definition word_check (m : mem) (a v : Z) : bool := match load32 a m with Ok (x, _) => x =? v | Err _ => false end.
Fixpoint chain_check (m : mem) (a : Z) (cs : chunks) (e : Z) : bool :=
  match cs with
  | [] => true
  | (n, u) :: cs' => (12 <=? n) && word_check m a (link (a + n) cs' e) && word_check m (a + 4) n &&
      word_check m (a + 8) (Z.b2z u + 2 * HEAP_MAGIC) && chain_check m (a + n) cs' e
  end.

Lemma word_check_ok m a v : word_check m a v = true → word m a v ∧ mapped m a 4.
Proof.
  unfold word_check, word. destruct (load32 a m) as [[x m']|] eqn:E; [|done]. intros ->%Z.eqb_eq.
  by destruct (load32_state _ _ _ _ E) as [-> ?].
Qed.

Lemma chain_check_ok m cs : ∀ a e, chain_check m a cs e = true → chain m a cs e.
Proof.
  induction cs as [|[n u] cs IH]; intros a e; [done|]. cbn [chain_check chain]. rewrite !andb_true_iff.
  intros [[[[Hn%Z.leb_le [H1 M1]%word_check_ok] [H2 M2]%word_check_ok] [H3 M3]%word_check_ok] H%IH].
  split_and!; [done| |done]. split; [done..|]. intros j Hj. assert (j < 4 ∨ 4 ≤ j < 8 ∨ 8 ≤ j) as [?|[?|?]] by lia.
  - eapply mapped_lookup; [exact M1|lia].
  - eapply mapped_lookup; [exact M2|lia].
  - eapply mapped_lookup; [exact M3|lia].
Qed.

Lemma demo_heap_ok : heap_ok demo_heap demo_segs.
Proof.
  split; [vm_compute; reflexivity| |by repeat constructor|vm_compute; done]. constructor; [|constructor].
  split_and!; [done|vm_compute; discriminate|done|apply chain_check_ok; vm_compute; reflexivity|apply mapped_forallb; vm_compute; reflexivity].
Qed.

Lemma malloc_correct_witness : wp (malloc (λ _, 0) 100) (λ p h', p = 0x800000c + 42 ∧ heap_ok h' [(0x8000000, [(22, true); (20, true); (112, true); (3942, false)])]) demo_heap.
Proof.
  eapply wp_mono; [apply (malloc_correct (λ _, 0) 100 demo_heap demo_segs demo_heap_ok); [lia|by vm_compute]|].
  intros p h'. change (ALIGN (u32 (100 + sizeof_chunk)) 2) with 112. cbn. intros [-> H]. split; [done|apply H].
Defined.

Lemma free_correct_witness : wp (free 0x800000c) (λ _ h', heap_ok h' [(0x8000000, [(22, false); (20, true); (4054, false)])]) demo_heap.
Proof.
  eapply wp_mono; [apply (free_correct 0x800000c 10 demo_heap demo_segs [] 0x8000000 [] [(20, true); (4054, false)] [] demo_heap_ok); done|].
  by intros _ h' [H _].
Defined.

Lemma malloc_large_faults_witness : malloc (λ _, 0) 5000 no_heap = Err Fault.
Proof. apply (malloc_large_faults _ 5000 no_heap []); [apply no_heap_ok|lia|done|done]. Defined.
