(* ===== verification/KPage.v ===== *)
(** * Pages of the kernel: kmalloc and kfree of whole pages

    [kmalloc] of a page takes it from the page allocator and maps it at its kernel
    address; [kfree] unmaps and releases it.  [kpages] is what the two keep: every free
    page is unmapped. *)

From S2P Require Import Prelude QLib DList Locks Page PageAlloc BuddySpec PageAllocCorrect PageAllocProps Vm Slab.
From Stdlib Require Import ZArith Lia.
From stdpp Require Import base countable numbers gmap list.
Open Scope Z_scope.

#[local] Arguments Z.to_nat : simpl never.
#[local] Arguments Z.mul : simpl never.
#[local] Arguments Z.div : simpl never.
#[local] Arguments Z.modulo : simpl never.

Section kpage.
Implicit Types s : slabs.

Abbreviation al s := (bud (vmm s)).
Abbreviation kpt s := (kPageTables (vmm s)).

(** The physical and the kernel address of the page [x]. *)
Definition page_pa s (x : Z) : Z := a_addr (al s) + 4096 * x.
Definition page_va s (x : Z) : Z := page_pa s x + KERNEL_START.

Record kpages s (B : blocks) : Prop := KPages {
  kp_inv : buddy_inv (al s) B;
  kp_area : area_ok (al s);
  kp_pos : 0 < a_addr (al s);
  kp_top : page_pa s (pageCnt (al s)) ≤ PHYS_TOP;
  kp_free : ∀ x, page_free B x → ∃ v, kpt s !! (page_pa s x / 4096) = Some v ∧ Z.land v VM_PRES = 0 }.

(** The page [x] is a block of its own that [kmalloc] handed out. *)
Record kpage s (B : blocks) (x : Z) : Prop := KPage {
  kg_block : B !! x = Some (0, 1);
  kg_pte : kpt s !! (page_pa s x / 4096) = Some (Z.lor (page_pa s x) 3);
  kg_data : ∃ p, pages (al s) !! x = Some p ∧ pg_data p = page_va s x }.

(** What an operation on the page [x] leaves alone. *)
Record kframe s s' (x : Z) : Prop := KFrame {
  kf_addr : a_addr (al s') = a_addr (al s);
  kf_cnt : pageCnt (al s') = pageCnt (al s);
  kf_words : words s' = words s;
  kf_lock : slab_lock s' = slab_lock s;
  kf_caches : caches s' = caches s;
  kf_kpt : ∀ j, j ≠ page_pa s x / 4096 → kpt s' !! j = kpt s !! j }.

Lemma free_after_alloc b b' B B' x y : buddy_inv b B → allocated b b' B B' 0 x → page_free B' y → page_free B y ∧ y ≠ x.
Proof.
  intros Hi Hal. pose proof (allocated_free _ _ _ _ _ _ Hi Hal) as (Hx & Hx1 & Hfr).
  destruct Hi as (_ & _ & HT & _). destruct Hal as ((_ & _ & HT' & _) & EU & _ & Hb & _ & En & _).
  rewrite (page_free_iff _ _ y HT), (page_free_iff _ _ y HT'), EU, En. intros [Hy Hu].
  assert (y ≠ x) as Hne. { intros ->. apply (Hu x 0 1); [apply lookup_insert_eq|change (2 ^ 0) with 1; lia]. }
  split; [|done]. split; [done|]. intros i o r Hir. apply (Hu i o r). rewrite lookup_insert_ne; [done|]. intros ->.
  pose proof Hir as [Hir' Hr]%in_use_Some. destruct Hfr as [_ Hfr]. destruct (proj1 (page_free_iff _ _ i HT) (Hfr i ltac:(change (2 ^ 0) with 1; lia))) as [_ Hno].
  apply (Hno i o r Hir). destruct (tiled_block _ _ HT _ _ _ Hir') as (Ho & _). pose proof (pow2_pos o ltac:(lia)). lia.
Qed.

Lemma pa_div s x : area_ok (al s) → page_pa s x / 4096 = a_addr (al s) / 4096 + x.
Proof. intros (_ & [q E] & _). unfold page_pa. rewrite E. replace (q * 4096 + 4096 * x) with ((q + x) * 4096) by lia. by rewrite !Z.div_mul by lia. Qed.

Lemma wp_kmalloc_page s B : kpages s B → (∃ y o, B !! y = Some (o, 0)) →
  wp (kmalloc 4096) (λ a s', ∃ x B', a = page_va s x ∧ 0 ≤ x < pageCnt (al s) ∧ page_free B x ∧ kpages s' B' ∧ kpage s' B' x ∧
    in_use B' = <[x := (0, 1)]> (in_use B) ∧ (∀ y, page_free B' y → page_free B y ∧ y ≠ x) ∧
    (∀ y o r, B !! y = Some (o, r) → r ≠ 0 → pages (al s') !! y = pages (al s) !! y) ∧ kframe s s' x) s.
Proof.
  intros H (y & oy & Hy). pose proof (kp_inv _ _ H) as Hi. pose proof (kp_area _ _ H) as Ha. unfold kmalloc.
  change (fixSize 4096) with 4096. change (4096 <=? SLAB_MAX) with false. cbv iota. wp_step.
  destruct (alloc_spec (al s) B 4096 0 Hi good_4096) as [Hw|[_ Hno]].
  2:{ destruct (tiled_block _ _ (proj1 (proj2 (proj2 Hi))) _ _ _ Hy) as (Ho & _). exfalso. apply (Hno oy y); [lia|done]. }
  unfold on_pg, on_vm, on_bud. apply wp_zoom, wp_zoom. eapply wp_mono; [exact Hw|]. intros x b (B' & Hal).
  destruct (allocated_free _ _ _ _ _ _ Hi Hal) as (Hx0 & Hx1 & _ & Hfr). change (2 ^ 0) with 1 in *.
  pose proof (λ y, free_after_alloc (al s) b B B' x y Hi Hal) as Hfa. pose proof (Hfr x ltac:(lia)) as Hfx.
  destruct Hal as (Hi' & EU & _ & Hbx & [Hkp _] & En & Ea & _).
  set (v1 := with_bud b (vmm s)). assert (kernel_block v1 B' x 0 1) as Hk.
  { split; [done|]. split; [unfold area_ok; cbn; by rewrite Ea, En|]. split; [done|]. pose proof (kp_top _ _ H). unfold page_pa in *. cbn. rewrite Ea. change (2 ^ 0) with 1. lia. }
  destruct (kp_free _ _ H x Hfx) as (v & Hv & Hpres). assert (block_pa v1 x = page_pa s x) as Epa by (unfold block_pa, page_pa; cbn; by rewrite Ea).
  wp_step. apply wp_zoom. eapply wp_mono; [apply (kvm_map_spec v1 B' x 0 1 _ Hk)|].
  { intros i Hi0. change (2 ^ 0) with 1 in Hi0. assert (i = 0) as -> by lia. rewrite Epa, Z.add_0_r. by exists v. }
  intros [] v2 ([M1 M2] & Hk2 & (p & Hp & Eb) & _). rewrite Epa in *. change (2 ^ 0) with 1 in *.
  wp_step. apply wp_zoom, wp_zoom. cbn [vmm with_vmm]. eapply wp_read_page; [rewrite Eb; apply lookup_insert_eq|].
  cbn [with_bud bud]. wp_step. assert (with_bud (bud v2) v2 = v2) as -> by (by destruct v2).
  assert (a_addr (bud v2) = a_addr (al s)) as Ea2 by (by rewrite Eb).
  assert (pageCnt (bud v2) = pageCnt (al s)) as En2 by (by rewrite Eb).
  exists x, B'. split_and!; [done|lia|lia|done| | |done|done| |].
  - split; cbn; [apply Hk2|apply Hk2|rewrite Ea2; apply H| |].
    + unfold page_pa. cbn. rewrite Ea2, En2. apply H.
    + intros z Hz. destruct (Hfa z Hz) as [Hz1 Hne]. destruct (kp_free _ _ H z Hz1) as (w & Hw1 & Hw2). exists w. split; [|done].
      unfold page_pa in *. cbn. rewrite Ea2, M2; [done|]. fold (page_pa s z) (page_pa s x). rewrite !pa_div by done. lia.
  - split; [done| |].
    + specialize (M1 0 ltac:(lia)). rewrite Z.add_0_r, Z.mul_0_r, Z.add_0_r in M1. unfold page_pa in *. cbn. rewrite Ea2. exact M1.
    + cbn. rewrite Eb. cbn. rewrite lookup_insert_eq. eexists. split; [done|]. cbn. unfold page_va, page_pa. cbn. by rewrite Ea2.
  - intros z o r Hz Hr. cbn. rewrite Eb. cbn. rewrite lookup_insert_ne; [by apply Hkp with o r|]. intros ->.
    destruct Hi as (_ & _ & HT & _). destruct (proj1 (page_free_iff _ _ z HT) Hfx) as [_ Hno]. apply (Hno z o r); [by apply in_use_Some|].
    destruct (tiled_block _ _ HT _ _ _ Hz) as (Ho & _). pose proof (pow2_pos o ltac:(lia)). lia.
  - split; cbn; try done. intros j Hj. apply M2. lia.
Qed.
Lemma va_get_page_ok s B x : kpages s B → 0 ≤ x < pageCnt (al s) → kpage s B x →
  va_get_page (page_va s x) (vmm s) = Ok (Some x, vmm s).
Proof.
  intros H Hx [Hb Hpte _]. pose proof (kp_area _ _ H) as (Ha & Hd & _). pose proof (kp_top _ _ H). pose proof (kp_pos _ _ H).
  assert (0 < page_pa s x ∧ page_pa s x + 4096 ≤ PHYS_TOP) as [Hp0 Hp1] by (unfold page_pa in *; lia). unfold PHYS_TOP, DEVSP_SIZE in Hp1.
  unfold va_get_page. rewrite (bind_Ok _ _ _ (page_pa s x) (vmm s)).
  2:{ apply (v2p_ok _ _ 3); unfold page_va, KERNEL_START in *; try lia; [by rewrite Z.add_simpl_r|].
      apply Z.divide_add_r; [done|by eexists; apply Z.mul_comm]. }
  unfold assertk. rewrite (proj2 (truth_true (page_pa s x))) by lia. rewrite (bind_Ok _ _ _ tt (vmm s)) by done.
  pose proof (kp_inv _ _ H) as Hi. rewrite (bind_Ok _ _ _ (Some x) (vmm s)).
  2:{ unfold on_bud, zoom, page_pa. rewrite (get_page_ok (al s) B x Hi (kp_area _ _ H) ltac:(lia)). by destruct (vmm s). }
  destruct Hi as (_ & _ & _ & _ & HR & _). destruct (HR x ltac:(lia)) as (q & Hq & Hok). rewrite Hb in Hok. destruct Hok as (_ & Hh & _).
  rewrite (bind_Ok _ _ _ q (vmm s)); [by rewrite Hh|].
  unfold on_bud, zoom, read_page, mbind, M_bind, get, deref. rewrite Hq. by destruct (vmm s).
Qed.

Lemma free_after_free b b' B B' x y : buddy_inv b B → freed b b' B B' x → B !! x = Some (0, 1) →
  page_free B' y → page_free B y ∨ y = x.
Proof.
  intros (_ & _ & HT & _) ((_ & _ & HT' & _) & EU & _ & En & _) Hb.
  rewrite (page_free_iff _ _ y HT), (page_free_iff _ _ y HT'), EU, En. intros [Hy Hu]. destruct (decide (y = x)) as [|Hne]; [by right|left].
  split; [done|]. intros i o r Hir Hin. destruct (decide (i = x)) as [->|]; [|apply (Hu i o r); [by rewrite lookup_delete_ne|done]].
  apply in_use_Some in Hir as [Hir _]. rewrite Hb in Hir. injection Hir as <- <-. change (2 ^ 0) with 1 in Hin. lia.
Qed.

Lemma wp_kfree_page s B x : kpages s B → 0 ≤ x < pageCnt (al s) → kpage s B x →
  (∀ p, pages (al s) !! x = Some p → is_slab p = false) →
  wp (kfree (page_va s x)) (λ _ s', ∃ B', kpages s' B' ∧ in_use B' = delete x (in_use B) ∧
    (∀ y o r, y ≠ x → B !! y = Some (o, r) → r ≠ 0 → pages (al s') !! y = pages (al s) !! y) ∧ kframe s s' x) s.
Proof.
  intros H Hx Hk Hns. pose proof (kp_inv _ _ H) as Hi. pose proof (kp_area _ _ H) as Ha. pose proof Hk as [Hb Hpte (p & Hp & Hdat)].
  pose proof (kp_top _ _ H) as Htop. pose proof (kp_pos _ _ H). unfold kfree. pose proof Ha as (_ & Hd & _).
  assert (0 < page_pa s x ∧ page_pa s x + 4096 ≤ PHYS_TOP) as [Hp0 Hp1] by (unfold page_pa in *; lia).
  assert (PAGE_CEIL (page_va s x) = page_va s x) as ->.
  { unfold PHYS_TOP, DEVSP_SIZE in Hp1. assert ((4096 | page_va s x)) as [q E].
    { unfold page_va, page_pa. apply Z.divide_add_r; [apply Z.divide_add_r; [done|by eexists; apply Z.mul_comm]|by exists 0xc0000]. }
    rewrite PAGE_CEIL_eq by (unfold page_va, KERNEL_START in *; lia). rewrite E, Z.div_mul by lia. lia. }
  wp_step. unfold on_pg, on_vm. apply wp_zoom. eapply wp_intro; [by eapply va_get_page_ok|].
  assert (with_vmm (vmm s) s = s) as -> by (by destruct s). wp_step. unfold on_bud. apply wp_zoom, wp_zoom. eapply wp_read_page; [exact Hp|].
  assert (with_vmm (with_bud (al s) (vmm s)) s = s) as -> by (destruct s as [[] ? ? ?]; done). rewrite (Hns p Hp).
  assert (kernel_block (vmm s) B x 0 1) as Hkb by (refine (conj Hi (conj Ha (conj Hb _))); change (2 ^ 0) with 1; unfold page_pa in *; lia).
  wp_step. apply wp_zoom. eapply wp_mono; [apply (kvm_unmap_spec (vmm s) B x 0 1 Hkb)|].
  { done. } { by exists p. }
  { intros i Hi0. change (2 ^ 0) with 1 in Hi0. assert (i = 0) as -> by lia. rewrite Z.add_0_r. eauto. }
  change (2 ^ 0) with 1. intros [] v (U1 & U2 & Ev). change (block_pa (vmm s) x) with (page_pa s x) in U1, U2. apply wp_zoom, wp_zoom. cbn [vmm with_vmm].
  assert (bud v = al s) as Ebv by (by rewrite Ev). rewrite Ebv.
  eapply wp_mono; [by apply (free_spec (al s) B x 0)|]. intros [] b (B' & Hf). pose proof Hf as (Hi' & EU & [Hkp _] & En & Ea & _).
  exists B'. split_and!; [|done| |].
  - split; cbn; [done|unfold area_ok; by rewrite Ea, En|by rewrite Ea|unfold page_pa; cbn; rewrite Ea, En; apply Htop|].
    intros y Hy. unfold page_pa. cbn. rewrite Ea. fold (page_pa s y). destruct (decide (y = x)) as [->|Hne].
    + specialize (U1 0 ltac:(lia)). rewrite Z.add_0_r in U1. rewrite U1. by eexists.
    + destruct (free_after_free _ _ _ _ _ y Hi Hf Hb Hy) as [Hy'|]; [|done]. destruct (kp_free _ _ H y Hy') as (w & Hw & Hpr).
      exists w. split; [|done]. rewrite U2; [done|]. rewrite !pa_div by done. lia.
  - intros y o r Hne Hy Hr. cbn. apply (Hkp y o r); [by rewrite lookup_delete_ne|done].
  - split; cbn; try done. intros j Hj. apply U2. lia.
Qed.
End kpage.
