(* ===== verification/Uvm.v ===== *)
(** * User address spaces (mm/uvm.c)

    A process has a page directory and page tables in kernel memory and a description of
    its six areas.  The state adds the descriptions and the one of the current task to
    the state of [kmalloc], whose [words] are the words of memory by kernel virtual
    address; as the kernel maps physical memory in one piece, the word at the physical
    address [pa] is [words] at [pa + KERNEL_START], also for a page that only user tables
    map.

    [mmu] is the translation the processor does; an access through it to a page that is
    not present, and an access to an unmapped kernel page while a page is copied, is a
    [Fault].  Flushes of the TLB and loads of cr3 have no effect on the state.  Also the
    page fault handler of x86/isr.c and [task_cow] of task/fork.c. *)

From S2P Require Import Prelude QLib DList Locks Page PageAlloc Vm Slab.
From Stdlib Require Import ZArith Lia.
From stdpp Require Import base countable numbers gmap list.
Open Scope Z_scope.

Definition VM_RW_BIT : Z := 1.
Definition VM_IGNORE_BIT1 : Z := 0x200.
Definition GB3 : Z := 3 * 0x40000000.

Record vm_area := VmArea { a_va : Z; a_size : Z; a_flag : Z }.
Record mm_struct := MmStruct {
  mm_text : vm_area; mm_rodata : vm_area; mm_data : vm_area; mm_bss : vm_area; mm_brk : vm_area; mm_stack : vm_area;
  mm_size : Z; mm_pgdir : Z }.
Definition sizeof_mm_struct : Z := 80.

Record mm_args := MmArgs {
  g_text : Z; g_pa1 : Z; g_size1 : Z; g_rodata : Z; g_pa2 : Z; g_size2 : Z;
  g_data : Z; g_pa3 : Z; g_size3 : Z; g_bss : Z; g_pa4 : Z; g_size4 : Z }.

(** [u_cur] is [CUR_TCB->mm]; 0 is NULL. *)
Record uvm := Uvm { u_slabs : slabs; u_mms : gmap Z mm_struct; u_cur : Z }.

Definition on_slabs {A} (m : M slabs A) : M uvm A := zoom u_slabs (λ x s, Uvm x (u_mms s) (u_cur s)) m.
Definition rd_mm (a : Z) : M uvm mm_struct := s ← get; deref (u_mms s !! a).
Definition wr_mm (a : Z) (m : mm_struct) : M uvm unit :=
  modify (λ s, Uvm (u_slabs s) (<[a := m]> (u_mms s)) (u_cur s)).
Definition upd_mm (a : Z) (f : mm_struct → mm_struct) : M uvm unit := m ← rd_mm a; wr_mm a (f m).

Definition put_text (x : vm_area) (m : mm_struct) := MmStruct x (mm_rodata m) (mm_data m) (mm_bss m) (mm_brk m) (mm_stack m) (mm_size m) (mm_pgdir m).
Definition put_rodata (x : vm_area) (m : mm_struct) := MmStruct (mm_text m) x (mm_data m) (mm_bss m) (mm_brk m) (mm_stack m) (mm_size m) (mm_pgdir m).
Definition put_data_area (x : vm_area) (m : mm_struct) := MmStruct (mm_text m) (mm_rodata m) x (mm_bss m) (mm_brk m) (mm_stack m) (mm_size m) (mm_pgdir m).
Definition put_bss (x : vm_area) (m : mm_struct) := MmStruct (mm_text m) (mm_rodata m) (mm_data m) x (mm_brk m) (mm_stack m) (mm_size m) (mm_pgdir m).
Definition put_brk (x : vm_area) (m : mm_struct) := MmStruct (mm_text m) (mm_rodata m) (mm_data m) (mm_bss m) x (mm_stack m) (mm_size m) (mm_pgdir m).
Definition put_stack (x : vm_area) (m : mm_struct) := MmStruct (mm_text m) (mm_rodata m) (mm_data m) (mm_bss m) (mm_brk m) x (mm_size m) (mm_pgdir m).
Definition put_mm_size (x : Z) (m : mm_struct) := MmStruct (mm_text m) (mm_rodata m) (mm_data m) (mm_bss m) (mm_brk m) (mm_stack m) x (mm_pgdir m).
Definition put_pgdir (x : Z) (m : mm_struct) := MmStruct (mm_text m) (mm_rodata m) (mm_data m) (mm_bss m) (mm_brk m) (mm_stack m) (mm_size m) x.

(** ** Memory *)

(** [bzero] of whole words, and [kcalloc] of a size of at least a word. *)
Definition bzero_words (addr size : Z) : M slabs unit :=
  for_up (Z.to_nat (size / 4)) 0 (λ i, wr_word (addr + 4 * i) 0).
Definition kcalloc (size : Z) : M slabs Z :=
  let size := fixSize size in
  addr ← kmalloc size; bzero_words addr size;; mret addr.

(** [memcpy] of whole words. *)
Definition copy_words (dst src : Z) (n : nat) : M slabs unit :=
  for_up n 0 (λ i, w ← rd_word (src + 4 * i); wr_word (dst + 4 * i) w).

(** The sizes of pages and of chunks are multiples of a word. *)
Definition krealloc (_addr _size : Z) : M slabs Z :=
  addr ← kmalloc _size;
  assertk (truth addr);;
  r ← on_vm (va_get_page (PAGE_CEIL _addr));
  match r with
  | None => fail Assert
  | Some page =>
      p ← on_pg (read_page page);
      assertk (pg_size p <? _size);;
      size ← if is_slab p then slab_chunk_size addr else mret (pg_size p);
      copy_words addr _addr (Z.to_nat (size / 4));;
      kfree _addr;;
      mret addr
  end.

(** The physical address of [va] in the tables of [pgdir], as the processor finds it. *)
Definition mmu (pgdir va : Z) : M slabs Z :=
  pde ← rd_word (pgdir + 4 * PDE_INDEX va);
  if negb (truth (Z.land pde VM_PRES)) then fail Fault
  else
    pte ← rd_word (PAGE_CEIL pde + KERNEL_START + 4 * PTE_INDEX va);
    if negb (truth (Z.land pte VM_PRES)) then fail Fault
    else mret (PAGE_CEIL pte + Z.land va PAGE_MASK).

(** The word at a virtual address, while the current task has the directory [pgdir]. *)
Definition vread (pgdir va : Z) : M slabs Z :=
  if va <? KERNEL_START then pa ← mmu pgdir va; rd_word (pa + KERNEL_START)
  else
    i ← on_vm (getPageTableEntry va);
    e ← on_vm (rd_pte i);
    if negb (truth (Z.land e VM_PRES)) then fail Fault else rd_word va.

(** [memcpy] of a page to kernel memory. *)
Definition copy_page (pgdir dst src : Z) : M slabs unit :=
  for_up (Z.to_nat (PAGE_SIZE / 4)) 0 (λ i, w ← vread pgdir (src + 4 * i); wr_word (dst + 4 * i) w).

(** ** Page tables *)

Definition page_of (addr : Z) : M slabs Z :=
  r ← on_pg (get_page addr); match r with Some page => mret page | None => fail Assert end.

(** The address of the page table entry. *)
Definition vm_page_iter (va pgdir : Z) (new : bool) : M slabs Z :=
  let pde := pgdir + 4 * PDE_INDEX va in
  v ← rd_word pde;
  pte ← (if new && negb (truth (Z.land v VM_PRES)) then
           pte ← kcalloc PAGE_SIZE;
           pa ← on_vm (v2p pte);
           wr_word pde (Z.lor (Z.lor pa VM_PRES) VM_URW);;
           mret pte
         else
           page ← page_of (PAGE_CEIL v);
           p ← on_pg (read_page page);
           mret (pg_data p));
  mret (pte + 4 * PTE_INDEX va).

(** [while (size > 0)] over the pages of an area. *)
Definition page_rounds (size : Z) : nat := S (Z.to_nat size).

Definition map_step (flag pgdir : Z) : Z * Z * Z → M slabs ((Z * Z * Z) + unit) := λ '(size, va, pa),
  if 0 <? size then
    pte ← vm_page_iter va pgdir true;
    v ← rd_word pte;
    assertk (negb (truth (Z.land v VM_PRES)));;
    wr_word pte (Z.lor pa flag);;
    mret (inl (size - PAGE_SIZE, u32 (va + PAGE_SIZE), u32 (pa + PAGE_SIZE)))
  else mret (inr tt).
Definition vm_map_area (area : vm_area) (pa pgdir : Z) : M slabs unit :=
  loop (page_rounds (a_size area)) (map_step (a_flag area) pgdir) (a_size area, a_va area, pa).

Definition maps_step (flag pgdir : Z) : Z * Z * Z → M slabs ((Z * Z * Z) + unit) := λ '(size, va, pa),
  if 0 <? size then
    pte ← vm_page_iter va pgdir true;
    v ← rd_word pte;
    when (negb (truth (Z.land v VM_PRES))) (wr_word pte (Z.lor pa flag));;
    mret (inl (size - PAGE_SIZE, u32 (va + PAGE_SIZE), u32 (pa + PAGE_SIZE)))
  else mret (inr tt).
Definition vm_maps (va pa flag _size : Z) : M uvm unit :=
  s ← get;
  assertk (truth (u_cur s));;
  mm ← rd_mm (u_cur s);
  assertk (Z.land pa PAGE_MASK =? 0);;
  on_slabs (loop (page_rounds _size) (maps_step flag (mm_pgdir mm)) (_size, PAGE_CEIL va, pa)).

(** Stops at the first page that [free_page] refuses. *)
Definition unmap_step (pgdir : Z) : Z * Z → M slabs ((Z * Z) + unit) := λ '(size, addr),
  if 0 <? size then
    pte ← vm_page_iter addr pgdir false;
    v ← rd_word pte;
    assertk (truth (Z.land v VM_PRES));;
    errno ← on_pg (free_page (PAGE_CEIL v));
    if truth errno then mret (inr tt)
    else wr_word pte VM_NPRES;; mret (inl (size - PAGE_SIZE, u32 (addr + PAGE_SIZE)))
  else mret (inr tt).
Definition vm_unmap (area : vm_area) (pgdir : Z) : M slabs unit :=
  loop (page_rounds (a_size area)) (unmap_step pgdir) (a_size area, a_va area).

Definition vm_vm2pm (addr pgdir : Z) : M slabs Z :=
  pte ← vm_page_iter addr pgdir false; v ← rd_word pte; mret (PAGE_CEIL v).

(** ** Setting up a process *)

Definition vm_map_init (mm : Z) : M uvm unit := d ← on_slabs (kcalloc PAGE_SIZE); upd_mm mm (put_pgdir d).

Definition vm_brk_init (mm : Z) : M uvm unit :=
  m ← rd_mm mm;
  let brk := MAX (a_va (mm_bss m)) (a_va (mm_text m)) in
  let brk := MAX brk (a_va (mm_data m)) in
  let brk := MAX brk (a_va (mm_rodata m)) in
  let brk := u32 (PAGE_CEIL brk + PAGE_SIZE) in
  assertk (brk <? KERNEL_START - 2 * PAGE_SIZE);;
  wr_mm mm (put_brk (VmArea brk 0 (Z.lor VM_PRES VM_URW)) m).

Definition vm_stack_init (mm : Z) : M uvm unit :=
  let st := VmArea (KERNEL_START - 2 * PAGE_SIZE) PAGE_SIZE (Z.lor VM_PRES VM_URW) in
  upd_mm mm (put_stack st);;
  upd_mm mm (λ m, put_mm_size (u32 (mm_size m + PAGE_SIZE)) m);;
  page ← on_slabs (on_pg (__alloc_page PAGE_SIZE));
  on_slabs (on_pg (upd_page page (put_data (a_va st))));;
  pa ← on_slabs (on_pg (page_addr page));
  m ← rd_mm mm;
  on_slabs (vm_map_area st pa (mm_pgdir m)).

(** An area that is only set and mapped when its [size] is not 0; [area_size] is the
    size stored in any case. *)
Definition set_area (mm : Z) (get_area : mm_struct → vm_area) (put : vm_area → mm_struct → mm_struct)
    (area_size size va flag pa : Z) : M uvm unit :=
  upd_mm mm (λ m, put (VmArea (a_va (get_area m)) area_size (a_flag (get_area m))) m);;
  when (0 <? size)
    (upd_mm mm (put (VmArea va area_size flag));;
     m ← rd_mm mm;
     on_slabs (vm_map_area (get_area m) pa (mm_pgdir m))).

Definition mm_struct_init (mm : Z) (args : mm_args) : M uvm unit :=
  assertk (truth mm);;
  assertk (u32 (g_text args + g_size1 args) <? GB3);;
  assertk (u32 (g_rodata args + g_size2 args) <? GB3);;
  assertk (u32 (g_data args + g_size3 args) <? GB3);;
  assertk (0 <? g_size1 args);;
  let size1 := PAGE_FLOOR (g_size1 args) in
  let size2 := PAGE_FLOOR (g_size2 args) in
  let size3 := PAGE_FLOOR (g_size3 args) in
  let size4 := PAGE_FLOOR (g_size4 args) in
  upd_mm mm (put_mm_size (u32 (size1 + size2 + size3 + size4)));;
  upd_mm mm (put_text (VmArea (g_text args) size1 (Z.lor VM_PRES VM_UR)));;
  m ← rd_mm mm;
  on_slabs (vm_map_area (mm_text m) (g_pa1 args) (mm_pgdir m));;
  set_area mm mm_rodata put_rodata size2 size2 (g_rodata args) (Z.lor VM_PRES VM_UR) (g_pa2 args);;
  set_area mm mm_data put_data_area size3 size3 (g_data args) (Z.lor VM_PRES VM_URW) (g_pa3 args);;
  set_area mm mm_bss put_bss size3 size4 (g_data args) (Z.lor VM_PRES VM_URW) (g_pa4 args);;
  vm_brk_init mm;;
  vm_stack_init mm.

Definition sbrk (size : Z) : M uvm Z :=
  s ← get;
  assertk (truth (u_cur s));;
  let size := PAGE_CEIL size in
  page ← on_slabs (on_pg (__alloc_page size));
  cur ← rd_mm (u_cur s);
  pa ← on_slabs (on_pg (page_addr page));
  vm_maps (a_va (mm_brk cur)) pa (Z.lor VM_PRES VM_URW) size;;
  on_slabs (on_pg (upd_page page (put_data (a_va (mm_brk cur)))));;
  upd_mm (u_cur s) (λ m, let b := mm_brk m in
    put_brk (VmArea (u32 (a_va b + size)) (u32 (a_size b + size)) (a_flag b)) m);;
  cur ← rd_mm (u_cur s);
  mret (u32 (a_va (mm_brk cur) - size)).

(** ** Ending a process *)

Definition free_tables (pgdir : Z) : M slabs unit :=
  for_up (Z.to_nat (N_PDE / 4 * 3)) 0 (λ i,
    pde ← rd_word (pgdir + 4 * i);
    when (truth (Z.land pde VM_PRES))
      (page ← page_of (PAGE_CEIL pde);
       on_vm (kvm_unmap page);;
       on_pg (__free_page page))).

Definition vm_struct_unmaps (mm : Z) : M uvm unit :=
  m ← rd_mm mm;
  let d := mm_pgdir m in
  on_slabs (vm_unmap (mm_text m) d;; vm_unmap (mm_data m) d;; vm_unmap (mm_bss m) d;; vm_unmap (mm_rodata m) d;;
            vm_unmap (mm_brk m) d;; vm_unmap (mm_stack m) d;; free_tables d).

Definition vm_struct_destroy (mm : Z) : M uvm unit :=
  vm_struct_unmaps mm;;
  m ← rd_mm mm;
  on_slabs (kfree (mm_pgdir m));;
  on_slabs (kfree mm);;
  modify (λ s, Uvm (u_slabs s) (delete mm (u_mms s)) (u_cur s)).

(** ** fork *)

Definition copy_step (sPgdir dPgdir : Z) : Z * Z → M slabs ((Z * Z) + unit) := λ '(size, addr),
  if 0 <? size then
    pte ← vm_page_iter addr sPgdir false;
    new ← vm_page_iter addr dPgdir true;
    v ← rd_word pte;
    when (Z.land v VM_URW =? VM_URW)
      (wr_word pte (Z.land v VM_IGNORE_BIT1);;
       w ← rd_word pte;
       wr_word pte (CLEAR_BIT 32 w VM_RW_BIT));;
    v ← rd_word pte;
    wr_word new v;;
    r ← on_pg (get_page (PAGE_CEIL v));
    match r with
    | Some page => on_pg (upd_page page (λ p, put_ref_cnt (u16 (ref_cnt p + 1)) p))
    | None => mret tt
    end;;
    mret (inl (size - PAGE_SIZE, u32 (addr + PAGE_SIZE)))
  else mret (inr tt).
Definition vm_area_copy (addr size sPgdir dPgdir : Z) : M slabs unit :=
  loop (page_rounds size) (copy_step sPgdir dPgdir) (size, addr).

Definition vm_area_copy_stack (cur : Z) (src : vm_area) (sPgdir dPgdir : Z) : M slabs unit :=
  let addr := a_va src in
  let size := a_size src in
  let kStart := u32 (addr + size - PAGE_SIZE) in
  pde ← vm_page_iter kStart sPgdir false;
  new ← vm_page_iter kStart dPgdir true;
  v ← rd_word pde;
  w ← rd_word new;
  assertk (truth v && negb (truth w));;
  stack ← kmalloc PAGE_SIZE;
  pa ← on_vm (v2p stack);
  wr_word new (Z.lor (Z.lor pa VM_PRES) VM_URW);;
  v ← rd_word pde;
  from ← on_vm (p2v (PAGE_CEIL v));
  copy_page cur stack from;;
  on_vm (kvm_unmap2 stack);;
  vm_area_copy addr (u32 (size - PAGE_SIZE)) sPgdir dPgdir.

(** [kvm_copy] into the words of a directory. *)
Definition kvm_copy_to (pgdir : Z) : M slabs unit :=
  for_up (Z.to_nat (N_PDE / 4)) 0 (λ i,
    s ← get;
    match pageDir (vmm s) !! (N_PDE / 4 * 3 + i) with
    | Some e => when (truth (Z.land e VM_PRES)) (wr_word (pgdir + 4 * (N_PDE / 4 * 3 + i)) e)
    | None => mret tt
    end).

Definition vm_struct_copy (src : Z) : M uvm Z :=
  new ← on_slabs (kmalloc sizeof_mm_struct);
  m ← rd_mm src;
  wr_mm new m;;
  vm_map_init new;;
  n ← rd_mm new;
  let sp := mm_pgdir m in
  let dp := mm_pgdir n in
  let copy (a : vm_area) := on_slabs (vm_area_copy (a_va a) (a_size a) sp dp) in
  copy (mm_text m);; copy (mm_rodata m);; copy (mm_data m);; copy (mm_bss m);; copy (mm_brk m);;
  s ← get;
  c ← rd_mm (u_cur s);
  on_slabs (vm_area_copy_stack (mm_pgdir c) (mm_stack m) sp dp);;
  on_slabs (kvm_copy_to dp);;
  mret new.

(** ** Page faults *)

Definition vm_remap_page (cur va pgdir : Z) : M slabs Z :=
  pte ← vm_page_iter va pgdir true;
  v ← rd_word pte;
  if negb (truth (Z.land v VM_PRES)) then mret (-1)
  else
    old ← page_of (PAGE_CEIL v);
    new ← on_pg (__alloc_page PAGE_SIZE);
    on_vm (kvm_map new (Z.lor VM_PRES VM_KRW));;
    p ← on_pg (read_page new);
    copy_page cur (pg_data p) va;;
    on_vm (kvm_unmap new);;
    v ← rd_word pte;
    pa ← on_pg (page_addr new);
    wr_word pte (Z.lor (Z.land v PAGE_MASK) pa);;
    on_pg (__free_page old);;
    mret 0.

Definition task_cow (addr : Z) : M uvm Z :=
  let addr := PAGE_CEIL addr in
  s ← get;
  if u_cur s =? 0 then mret (-1)
  else m ← rd_mm (u_cur s); on_slabs (vm_remap_page (mm_pgdir m) addr (mm_pgdir m)).

(** The error code of a page fault: the processor wrote, and the bits 6-15 and 17-31. *)
Definition pf_w (ec : Z) : bool := Z.testbit ec 1.
Definition pf_zero (ec : Z) : Z := Z.land (Z.shiftr ec 6) (MASK_U32 10).
Definition pf_zero1 (ec : Z) : Z := Z.land (Z.shiftr ec 17) (MASK_U32 15).

(** [ISR(14)]: a fault at [pf_adr]; the text printed before [panic()] is left out. *)
Definition page_fault (ec pf_adr : Z) : M uvm unit :=
  assertk (pf_zero ec =? 0);;
  assertk (pf_zero1 ec =? 0);;
  ok ← (if pf_w ec then r ← task_cow pf_adr; mret (negb (truth r)) else mret false);
  if (ok : bool) then mret tt else fail Assert.
