(* ===== verification/UvmCorrect.v ===== *)
(** * User address spaces, correctness

    Address spaces whose page tables are there: mapping an area, what the processor then
    translates, and what [vm_area_copy] of fork does to writable pages.  New tables, the
    break and the page fault handler. *)

From S2P Require Import Prelude QLib DList Locks Page PageAlloc BuddySpec PageAllocCorrect PageAllocInit PageAllocProps Vm Slab Uvm.
From Stdlib Require Import ZArith Lia.
From stdpp Require Import base countable numbers gmap list.
Open Scope Z_scope.

#[local] Arguments Z.to_nat : simpl never.
#[local] Arguments Z.mul : simpl never.
#[local] Arguments Z.div : simpl never.
#[local] Arguments Z.modulo : simpl never.

(** ** Addresses *)

Lemma pte_index va : 0 ≤ va → PTE_INDEX va = (va / 4096) mod 1024.
Proof.
  intros H. unfold PTE_INDEX. change (MASK_U32 10) with (Z.ones 10). rewrite Z.land_ones, Z.shiftr_div_pow2 by lia. done.
Qed.
Lemma pde_index va : 0 ≤ va → PDE_INDEX va = va / 4096 / 1024.
Proof.
  intros H. unfold PDE_INDEX. rewrite Z.shiftr_div_pow2 by lia. change (2 ^ 22) with (4096 * 1024). by rewrite Z.div_div by lia.
Qed.
Lemma pte_range va : 0 ≤ va → 0 ≤ PTE_INDEX va < 1024.
Proof. intros H. rewrite pte_index by done. apply Z.mod_pos_bound. lia. Qed.

Lemma page_split va : 0 ≤ va → va / 4096 = 1024 * PDE_INDEX va + PTE_INDEX va.
Proof. intros H. rewrite pte_index, pde_index by done. apply Z.div_mod. lia. Qed.

Section space.
Implicit Types s : slabs.

Abbreviation al s := (bud (vmm s)).

(** The kernel address of the page [x] of the allocator. *)
Definition kva s (x : Z) : Z := a_addr (al s) + 4096 * x + KERNEL_START.

(** Entry [i] of the directory leads to a table in the page [x]. *)
Record table s (B : blocks) (pgdir i x : Z) : Prop := Table {
  tb_range : 0 ≤ x < pageCnt (al s);
  tb_dir : ∃ e, words s !! (pgdir + 4 * i) = Some e ∧ truth (Z.land e VM_PRES) = true ∧ PAGE_CEIL e = a_addr (al s) + 4096 * x;
  tb_page : ∃ p, pages (al s) !! x = Some p ∧ pg_data p = kva s x;
  tb_used : ∃ o r, B !! x = Some (o, r) ∧ r ≠ 0;
  tb_words : ∀ j, 0 ≤ j < 1024 → is_Some (words s !! (kva s x + 4 * j)) }.

(** The tables [T] of a directory, by the index of the entry. *)
Record space s (B : blocks) (pgdir : Z) (T : gmap Z Z) : Prop := Space {
  sp_inv : buddy_inv (al s) B;
  sp_area : area_ok (al s);
  sp_dir : (4096 | pgdir);
  sp_tab : ∀ i x, T !! i = Some x → 0 ≤ i < 1024 ∧ table s B pgdir i x;
  sp_inj : ∀ i j x, T !! i = Some x → T !! j = Some x → i = j;
  sp_not : ∀ i x, T !! i = Some x → kva s x ≠ pgdir }.

(** The address of the entry of [va], and the entry. *)
Definition slot s (T : gmap Z Z) (va : Z) : option Z := (λ x, kva s x + 4 * PTE_INDEX va) <$> T !! PDE_INDEX va.
Definition entry s (T : gmap Z Z) (va : Z) : option Z := slot s T va ≫= λ a, words s !! a.

Lemma wp_rd_word a v (Q : Z → slabs → Prop) s : words s !! a = Some v → Q v s → wp (rd_word a) Q s.
Proof. intros H HQ. unfold rd_word. wp_step. wp_step. by wp_step. Qed.

Lemma wp_on_pg {A} (m : M buddyAllocator A) (Q : A → slabs → Prop) s :
  wp m (λ r b, Q r (with_vmm (with_bud b (vmm s)) s)) (al s) → wp (on_pg m) Q s.
Proof. intros H. unfold on_pg, on_vm, on_bud. do 2 apply wp_zoom. exact H. Qed.

Lemma with_al_id s : with_vmm (with_bud (al s) (vmm s)) s = s.
Proof. by destruct s as [[]]. Qed.

Lemma wp_page_of s B x (Q : Z → slabs → Prop) : buddy_inv (al s) B → area_ok (al s) → 0 ≤ x < pageCnt (al s) → Q x s →
  wp (page_of (a_addr (al s) + 4096 * x)) Q s.
Proof.
  intros Hi Ha Hx HQ. unfold page_of. wp_step. apply wp_on_pg. eapply wp_intro; [by eapply get_page_ok|]. rewrite with_al_id. by wp_step.
Qed.

(** [vm_page_iter] where the table is there. *)
Lemma wp_iter s B pgdir T va a new (Q : Z → slabs → Prop) : space s B pgdir T → slot s T va = Some a → Q a s →
  wp (vm_page_iter va pgdir new) Q s.
Proof.
  intros H Ha HQ. unfold slot in Ha. destruct (T !! PDE_INDEX va) as [x|] eqn:Ex; [|done]. injection Ha as <-.
  destruct (sp_tab _ _ _ _ H _ _ Ex) as [_ [Hx (e & He & Hp & Ee) (p & Hpg & Hd) _ _]].
  unfold vm_page_iter. wp_step. eapply wp_rd_word; [exact He|]. rewrite Hp. cbn [negb]. rewrite andb_false_r. wp_step.
  rewrite Ee. wp_step. eapply wp_page_of; [apply H|apply H|done|]. wp_step. apply wp_on_pg. eapply wp_read_page; [exact Hpg|].
  rewrite with_al_id. do 2 wp_step. by rewrite Hd.
Qed.

Lemma kva_aligned s B pgdir T x : space s B pgdir T → (4096 | kva s x).
Proof.
  intros H. destruct (sp_area _ _ _ _ H) as (_ & Hd & _). unfold kva. apply Z.divide_add_r; [apply Z.divide_add_r; [done|by exists x; lia]|].
  by exists 0xc0000.
Qed.

(** Entries of different pages are different words, and none is in the directory. *)
Lemma slot_inj s B pgdir T va va' a : space s B pgdir T → 0 ≤ va → 0 ≤ va' → slot s T va = Some a → slot s T va' = Some a →
  va / 4096 = va' / 4096.
Proof.
  intros H Hv Hv' Ha Ha'. unfold slot in *. destruct (T !! PDE_INDEX va) as [x|] eqn:Ex; [|done]. destruct (T !! PDE_INDEX va') as [x'|] eqn:Ex'; [|done].
  injection Ha as Ha. injection Ha' as Ha'. pose proof (pte_range va Hv). pose proof (pte_range va' Hv').
  unfold kva in *. assert (x = x' ∧ PTE_INDEX va = PTE_INDEX va') as [-> E] by lia.
  pose proof (sp_inj _ _ _ _ H _ _ _ Ex Ex'). rewrite !page_split by done. lia.
Qed.

Lemma slot_dir s B pgdir T va a i : space s B pgdir T → 0 ≤ va → slot s T va = Some a → 0 ≤ i < 1024 → a ≠ pgdir + 4 * i.
Proof.
  intros H Hv Ha Hi. unfold slot in Ha. destruct (T !! PDE_INDEX va) as [x|] eqn:Ex; [|done]. injection Ha as <-.
  pose proof (pte_range va Hv). pose proof (sp_not _ _ _ _ H _ _ Ex). destruct (kva_aligned s B pgdir T x H) as [q Eq].
  destruct (sp_dir _ _ _ _ H) as [d Ed]. rewrite Eq, Ed in *. intros E. assert (q = d) by lia. lia.
Qed.

(** Writing a word outside the directory. *)
Lemma space_write s B pgdir T a v : space s B pgdir T → (∀ i, 0 ≤ i < 1024 → a ≠ pgdir + 4 * i) →
  space (with_words (<[a := v]> (words s)) s) B pgdir T.
Proof.
  intros [H1 H2 H3 H4 H5 H6] Ha. split; try done.
  intros i x Hx. destruct (H4 i x Hx) as [Hi [T1 (e & T2) T3 T4 T5]]. split; [done|]. split; try done.
  - exists e. cbn [words with_words]. rewrite lookup_insert_ne; [done|]. by apply Ha.
  - intros j Hj. change (kva (with_words _ s) x) with (kva s x). cbn [words with_words].
    destruct (decide (a = kva s x + 4 * j)) as [->|Hne]; [rewrite lookup_insert_eq; by eexists|rewrite lookup_insert_ne by done; by apply T5].
Qed.

Lemma entry_other s T a v va : slot s T va ≠ Some a → entry (with_words (<[a := v]> (words s)) s) T va = entry s T va.
Proof.
  intros Ha. unfold entry. change (slot (with_words _ s) T va) with (slot s T va).
  destruct (slot s T va) as [a'|] eqn:E; [|done]. cbn. apply lookup_insert_ne. congruence.
Qed.

(** The entry depends only on the page. *)
Lemma slot_page s T va va' : 0 ≤ va → 0 ≤ va' → va / 4096 = va' / 4096 → slot s T va = slot s T va'.
Proof. intros Hv Hv' E. unfold slot. by rewrite !pde_index, !pte_index, E by done. Qed.

Lemma entry_write s B pgdir T va a v va' : space s B pgdir T → 0 ≤ va → 0 ≤ va' → slot s T va = Some a →
  entry (with_words (<[a := v]> (words s)) s) T va' = if va' / 4096 =? va / 4096 then Some v else entry s T va'.
Proof.
  intros H Hv Hv' Ha. unfold entry. change (slot (with_words _ s) T va') with (slot s T va').
  destruct (Z.eqb_spec (va' / 4096) (va / 4096)) as [E|E].
  - rewrite (slot_page s T va' va), Ha by done. cbn. apply lookup_insert_eq.
  - apply (entry_other s T a v va'). intros Ea. apply E. symmetry. by eapply slot_inj.
Qed.

(** What the processor does with an entry. *)
Lemma mmu_entry s B pgdir T va v : space s B pgdir T → 0 ≤ va → entry s T va = Some v →
  mmu pgdir va s = if truth (Z.land v VM_PRES) then Ok (PAGE_CEIL v + Z.land va PAGE_MASK, s) else Err Fault.
Proof.
  intros H Hv Hen. unfold entry, slot in Hen. destruct (T !! PDE_INDEX va) as [x|] eqn:Ex; [|done]. cbn in Hen.
  destruct (sp_tab _ _ _ _ H _ _ Ex) as [_ [Hx (e & He & Hp & Ee) _ _ _]]. unfold mmu.
  assert (∀ a w, words s !! a = Some w → rd_word a s = Ok (w, s)) as Hr.
  { intros a w Hw. unfold rd_word, mbind, M_bind, get, deref. by rewrite Hw. }
  rewrite (bind_Ok _ _ _ _ _ (Hr _ _ He)), Hp. cbn [negb]. rewrite Ee. fold (kva s x).
  rewrite (bind_Ok _ _ _ _ _ (Hr _ _ Hen)). by destruct (truth (Z.land v VM_PRES)).
Qed.

(** ** Mapping an area *)

(** The tables after the first [k] pages from [va0] on have got entries [g]. *)
Definition filled s s' B pgdir T (va0 k : Z) (g : Z → Z) : Prop :=
  space s' B pgdir T ∧ s' = with_words (words s') s ∧
  ∀ va, 0 ≤ va → entry s' T va =
    if (va0 / 4096 <=? va / 4096) && (va / 4096 <? va0 / 4096 + k) then Some (g (va / 4096 - va0 / 4096)) else entry s T va.

Lemma filled_start s B pgdir T va0 g : space s B pgdir T → filled s s B pgdir T va0 0 g.
Proof.
  intros H. split_and!; [done|by destruct s|]. intros va Hv. destruct (Z.leb_spec (va0 / 4096) (va / 4096)); [|done].
  by rewrite (proj2 (Z.ltb_ge _ _)) by lia.
Qed.

Lemma filled_next s s' B pgdir T va0 k g a : filled s s' B pgdir T va0 k g → 0 ≤ va0 → 0 ≤ k → slot s' T (va0 + 4096 * k) = Some a →
  filled s (with_words (<[a := g k]> (words s')) s') B pgdir T va0 (k + 1) g.
Proof.
  intros (H & Es & He) H0 Hk Ha. split_and!; [apply space_write; [done|]; intros i Hi; by eapply (slot_dir s' B pgdir T (va0 + 4096 * k)); [done|lia|done|]|rewrite Es; by destruct s|].
  intros va Hv. rewrite (entry_write s' B pgdir T (va0 + 4096 * k) a (g k) va) by (done || lia). rewrite He by done.
  replace ((va0 + 4096 * k) / 4096) with (va0 / 4096 + k) by (rewrite Z.mul_comm, Z.div_add by lia; done).
  destruct (Z.eqb_spec (va / 4096) (va0 / 4096 + k)) as [E|E].
  - destruct (Z.leb_spec (va0 / 4096) (va / 4096)), (Z.ltb_spec (va / 4096) (va0 / 4096 + (k + 1))); try lia.
    cbn [andb]. do 2 f_equal. lia.
  - destruct (Z.leb_spec (va0 / 4096) (va / 4096)); [|done]. cbn [andb].
    destruct (Z.ltb_spec (va / 4096) (va0 / 4096 + k)), (Z.ltb_spec (va / 4096) (va0 / 4096 + (k + 1))); (done || lia).
Qed.

Lemma entry_slot s T va v : entry s T va = Some v → ∃ a, slot s T va = Some a ∧ words s !! a = Some v.
Proof. unfold entry. destruct (slot s T va) as [a|]; [|done]. intros H. by exists a. Qed.

(** Only entries of the first [k] pages from [va0] on are written. *)
Definition framed s s' T (va0 k : Z) : Prop :=
  ∀ a, (∀ j, 0 ≤ j < k → slot s T (va0 + 4096 * j) ≠ Some a) → words s' !! a = words s !! a.

Lemma wp_map_area s B pgdir T va0 pa0 flag n : space s B pgdir T → 0 ≤ va0 → 0 ≤ n → va0 + 4096 * n < 2 ^ 32 →
  0 ≤ pa0 → pa0 + 4096 * n < 2 ^ 32 →
  (∀ k, 0 ≤ k < n → ∃ v, entry s T (va0 + 4096 * k) = Some v ∧ truth (Z.land v VM_PRES) = false) →
  wp (vm_map_area (VmArea va0 (4096 * n) flag) pa0 pgdir) (λ _ s',
    filled s s' B pgdir T va0 n (λ k, Z.lor (pa0 + 4096 * k) flag) ∧ framed s s' T va0 n) s.
Proof.
  intros H Hv Hn Hr Hp Hpr Hab. unfold vm_map_area. cbn [a_size a_va a_flag]. set (g := λ k, Z.lor (pa0 + 4096 * k) flag).
  apply (wp_loop (λ '(size, va, pa) s', ∃ k, 0 ≤ k ≤ n ∧ size = 4096 * (n - k) ∧ va = va0 + 4096 * k ∧
    pa = pa0 + 4096 * k ∧ filled s s' B pgdir T va0 k g ∧ framed s s' T va0 k) (λ '(size, _, _) _, Z.to_nat size)).
  2:{ exists 0. split_and!; [lia..|by apply filled_start|by intros a _]. }
  2:{ unfold page_rounds. lia. }
  intros [[size va] pa] s' (k & Hk & -> & -> & -> & Hf & Hfr). unfold map_step.
  destruct (Z.ltb_spec 0 (4096 * (n - k))) as [Hlt|Hge].
  2:{ wp_step. by replace n with k by lia. }
  destruct (Hab k ltac:(lia)) as (v & Hen & Hnp). pose proof Hf as (Hsp & _ & He).
  assert (entry s' T (va0 + 4096 * k) = Some v) as Hen'.
  { rewrite He, Z.mul_comm, Z.div_add by lia. by rewrite (proj2 (Z.ltb_ge (va0 / 4096 + k) _)), andb_false_r, Z.mul_comm by lia. }
  destruct (entry_slot _ _ _ _ Hen') as (a & Ha & Hw).
  wp_step. eapply wp_iter; [exact Hsp|exact Ha|]. wp_step. eapply wp_rd_word; [exact Hw|]. wp_step. apply wp_assertk. split; [by rewrite Hnp|].
  unfold wr_word, PAGE_SIZE. wp_step. wp_step. rewrite !u32_small by lia. wp_step. split; [|lia]. exists (k + 1).
  pose proof Hf as (_ & Es & _). split_and!; [lia..| |].
  2:{ intros b Hb. cbn [words with_words]. rewrite lookup_insert_ne; [apply Hfr; intros j Hj; apply Hb; lia|]. intros ->. apply (Hb k); [lia|].
      rewrite <-Ha. by rewrite Es. }
  change (Z.lor (pa0 + 4096 * k) flag) with (g k). apply filled_next; [done|lia|lia|done].
Qed.

(** The area [va0, va0 + 4096 n). *)
Lemma in_area va0 n va : (4096 | va0) → va0 ≤ va < va0 + 4096 * n →
  (va0 / 4096 <=? va / 4096) && (va / 4096 <? va0 / 4096 + n) = true ∧ 4096 * (va / 4096 - va0 / 4096) + va mod 4096 = va - va0.
Proof.
  intros [q ->] H. rewrite Z.div_mul by lia. pose proof (Z.div_mod va 4096 ltac:(lia)). pose proof (Z.mod_pos_bound va 4096 ltac:(lia)).
  rewrite (proj2 (Z.leb_le _ _)), (proj2 (Z.ltb_lt _ _)) by lia. split; [done|lia].
Qed.
Lemma not_in_area va0 n va : (4096 | va0) → ¬ (va0 ≤ va < va0 + 4096 * n) →
  (va0 / 4096 <=? va / 4096) && (va / 4096 <? va0 / 4096 + n) = false.
Proof.
  intros [q ->] H. rewrite Z.div_mul by lia. pose proof (Z.div_mod va 4096 ltac:(lia)). pose proof (Z.mod_pos_bound va 4096 ltac:(lia)).
  destruct (Z.leb_spec q (va / 4096)), (Z.ltb_spec (va / 4096) (q + n)); try done. lia.
Qed.

Lemma pte_present x flag : truth (Z.land flag VM_PRES) = true → truth (Z.land (Z.lor x flag) VM_PRES) = true.
Proof.
  rewrite !truth_true. intros H E. apply H. rewrite Z.land_lor_distr_l in E. by apply Z.lor_eq_0_iff in E as [_ E].
Qed.

Lemma mmu_mapped s B pgdir T va pa flag : space s B pgdir T → 0 ≤ va → entry s T va = Some (Z.lor pa flag) →
  0 ≤ pa < 2 ^ 32 → (4096 | pa) → 0 ≤ flag < 4096 → truth (Z.land flag VM_PRES) = true →
  mmu pgdir va s = Ok (pa + va mod 4096, s).
Proof.
  intros H Hv He Hp Hd Hf Hpres. rewrite (mmu_entry s B pgdir T va _ H Hv He), pte_present, PAGE_CEIL_flags by done.
  change PAGE_MASK with (Z.ones 12). by rewrite Z.land_ones by lia.
Qed.

(** C15: [vm_map_area] of pages that are not mapped, in tables that are there, ends.  The
    processor then translates every address of the area to the physical address at the
    same distance, and every other address of these tables as before; no other word of
    memory and nothing else of the state changes. *)
Theorem vm_map_area_translates s B pgdir T va0 pa0 flag n : space s B pgdir T → (4096 | va0) → (4096 | pa0) →
  0 ≤ va0 → 0 ≤ n → va0 + 4096 * n < 2 ^ 32 → 0 ≤ pa0 → pa0 + 4096 * n < 2 ^ 32 →
  0 ≤ flag < 4096 → truth (Z.land flag VM_PRES) = true →
  (∀ k, 0 ≤ k < n → ∃ v, entry s T (va0 + 4096 * k) = Some v ∧ truth (Z.land v VM_PRES) = false) →
  wp (vm_map_area (VmArea va0 (4096 * n) flag) pa0 pgdir) (λ _ s', space s' B pgdir T ∧ s' = with_words (words s') s ∧
    (∀ va, va0 ≤ va < va0 + 4096 * n → mmu pgdir va s' = Ok (pa0 + (va - va0), s')) ∧
    (∀ va, 0 ≤ va → ¬ (va0 ≤ va < va0 + 4096 * n) → entry s' T va = entry s T va) ∧ framed s s' T va0 n) s.
Proof.
  intros H Hva Hpa Hv Hn Hr Hp Hpr Hf Hpres Hab. eapply wp_mono; [by apply wp_map_area|].
  intros _ s' [(Hsp & Es & He) Hfr]. split_and!; [done|done| | |done].
  - intros va Hin. destruct (in_area va0 n va Hva Hin) as [E1 E2]. specialize (He va ltac:(lia)). rewrite E1 in He.
    destruct Hpa as [q Eq]. pose proof (Z.mod_pos_bound va 4096 ltac:(lia)).
    rewrite (mmu_mapped s' B pgdir T va _ _ Hsp ltac:(lia) He); [do 2 f_equal; lia|lia| |done|done].
    apply Z.divide_add_r; [by exists q|by eexists; apply Z.mul_comm].
  - intros va Hv' Hout. rewrite He by done. by rewrite not_in_area.
Qed.

(** ** fork *)

(** Two address spaces that share no table. *)
Record apart s (sp dp : Z) (Ts Td : gmap Z Z) : Prop := Apart {
  ap_tabs : ∀ i j x, Ts !! i = Some x → Td !! j ≠ Some x;
  ap_src : ∀ i x, Ts !! i = Some x → kva s x ≠ dp;
  ap_dst : ∀ i x, Td !! i = Some x → kva s x ≠ sp }.

Lemma slot_apart s B sp dp Ts Td va va' a : space s B sp Ts → space s B dp Td → apart s sp dp Ts Td → 0 ≤ va → 0 ≤ va' →
  slot s Ts va = Some a → (∀ i, 0 ≤ i < 1024 → a ≠ dp + 4 * i) ∧ slot s Td va' ≠ Some a.
Proof.
  intros H1 H2 Ha Hv Hv' Hs. unfold slot in *. destruct (Ts !! PDE_INDEX va) as [x|] eqn:Ex; [|done]. injection Hs as <-.
  pose proof (pte_range va Hv). pose proof (pte_range va' Hv'). destruct (kva_aligned s B sp Ts x H1) as [q Eq]. split.
  - intros i Hi. destruct (sp_dir _ _ _ _ H2) as [d Ed]. pose proof (ap_src _ _ _ _ _ Ha _ _ Ex). rewrite Eq, Ed in *. intros E. assert (q = d) by lia. lia.
  - destruct (Td !! PDE_INDEX va') as [y|] eqn:Ey; [|done]. cbn. intros [= E]. unfold kva in E. assert (x = y) as -> by lia.
    by apply (ap_tabs _ _ _ _ _ Ha _ _ _ Ex Ey).
Qed.

Lemma apart_sym s sp dp Ts Td : apart s sp dp Ts Td → apart s dp sp Td Ts.
Proof. intros [H1 H2 H3]. split; [|done..]. intros i j x Hx Hy. by apply (H1 j i x Hy). Qed.

(** A page of the allocator is not at address 0. *)
Lemma get_page_0 (b : buddyAllocator) : 0 < a_addr b → get_page 0 b = Ok (None, b).
Proof. intros H%Z.ltb_lt. unfold get_page. change (Z.land 0 PAGE_MASK) with 0. cbn [negb Z.eqb]. erewrite bind_Ok by done. by rewrite H. Qed.

(** A writable page: the entry becomes 0 on both sides. *)
Lemma wp_copy_step s B sp dp Ts Td va size v w : space s B sp Ts → space s B dp Td → apart s sp dp Ts Td → 0 ≤ va →
  0 < a_addr (al s) → 0 < size → entry s Ts va = Some v → Z.land v VM_URW = VM_URW → Z.land v VM_IGNORE_BIT1 = 0 →
  entry s Td va = Some w →
  wp (copy_step sp dp (size, va)) (λ r s', r = inl (size - 4096, u32 (va + 4096)) ∧ ∃ a b, slot s Ts va = Some a ∧ slot s Td va = Some b ∧
    s' = with_words (<[b := 0]> (<[a := 0]> (words s))) s) s.
Proof.
  intros H1 H2 Ha Hv H0 Hs Hen Hrw Hig Hd. destruct (entry_slot _ _ _ _ Hen) as (a & Sa & Wa). destruct (entry_slot _ _ _ _ Hd) as (b & Sb & Wb).
  unfold copy_step. rewrite (proj2 (Z.ltb_lt 0 size) Hs).
  wp_step. eapply wp_iter; [exact H1|exact Sa|]. wp_step. eapply wp_iter; [exact H2|exact Sb|].
  wp_step. eapply wp_rd_word; [exact Wa|]. rewrite Hrw, Hig, Z.eqb_refl. cbn [when]. unfold wr_word.
  wp_step. wp_step. wp_step. wp_step. eapply wp_rd_word; [apply lookup_insert_eq|]. change (CLEAR_BIT 32 0 VM_RW_BIT) with 0. wp_step.
  cbn [words with_words]. wp_step. eapply wp_rd_word; [apply lookup_insert_eq|]. wp_step. wp_step. change (PAGE_CEIL 0) with 0.
  wp_step. apply wp_on_pg. eapply wp_intro; [apply get_page_0; exact H0|]. rewrite with_al_id. wp_step. wp_step. wp_step. split; [done|].
  exists a, b. split_and!; [done|done|]. unfold with_words. cbn [words vmm slab_lock caches]. by rewrite (insert_insert_eq _ a).
Qed.

Lemma filled_other s s' B sp Ts va0 k g a v : filled s s' B sp Ts va0 k g → (∀ i, 0 ≤ i < 1024 → a ≠ sp + 4 * i) →
  (∀ va, 0 ≤ va → slot s' Ts va ≠ Some a) → filled s (with_words (<[a := v]> (words s')) s') B sp Ts va0 k g.
Proof.
  intros (H & Es & He) Hd Hs. split_and!; [by apply space_write|rewrite Es; by destruct s|]. intros va Hv. rewrite entry_other by auto. by apply He.
Qed.

Lemma apart_words s sp dp Ts Td w : apart s sp dp Ts Td → apart (with_words w s) sp dp Ts Td.
Proof. by intros [? ? ?]. Qed.

(** A writable area: all entries become 0, in the space of the parent and of the child. *)
Lemma wp_copy_area s B sp dp Ts Td va0 n : space s B sp Ts → space s B dp Td → apart s sp dp Ts Td → 0 < a_addr (al s) →
  0 ≤ va0 → 0 ≤ n → va0 + 4096 * n < 2 ^ 32 →
  (∀ k, 0 ≤ k < n → ∃ v w, entry s Ts (va0 + 4096 * k) = Some v ∧ Z.land v VM_URW = VM_URW ∧ Z.land v VM_IGNORE_BIT1 = 0 ∧
     entry s Td (va0 + 4096 * k) = Some w) →
  wp (vm_area_copy va0 (4096 * n) sp dp) (λ _ s', filled s s' B sp Ts va0 n (λ _, 0) ∧ filled s s' B dp Td va0 n (λ _, 0)) s.
Proof.
  intros H1 H2 Ha H0 Hv Hn Hr Hen. unfold vm_area_copy.
  apply (wp_loop (λ '(size, va) s', ∃ k, 0 ≤ k ≤ n ∧ size = 4096 * (n - k) ∧ va = va0 + 4096 * k ∧
    filled s s' B sp Ts va0 k (λ _, 0) ∧ filled s s' B dp Td va0 k (λ _, 0)) (λ '(size, _) _, Z.to_nat size)).
  2:{ exists 0. split_and!; [lia..|by apply filled_start|by apply filled_start]. }
  2:{ unfold page_rounds. lia. }
  intros [size va] s' (k & Hk & -> & -> & F1 & F2). destruct (Z.ltb_spec 0 (4096 * (n - k))) as [Hlt|Hge].
  2:{ unfold copy_step. rewrite (proj2 (Z.ltb_ge _ _)) by lia. wp_step. by replace n with k by lia. }
  destruct (Hen k ltac:(lia)) as (v & w & E1 & Erw & Eig & E2). pose proof F1 as (S1 & Es & G1). pose proof F2 as (S2 & _ & G2).
  assert (∀ x y, (if (va0 / 4096 <=? (va0 + 4096 * k) / 4096) && ((va0 + 4096 * k) / 4096 <? va0 / 4096 + k) then x else y) = y :> option Z) as Hif.
  { intros x y. rewrite Z.mul_comm, Z.div_add by lia. by rewrite (proj2 (Z.ltb_ge (va0 / 4096 + k) _)), andb_false_r by lia. }
  assert (apart s' sp dp Ts Td) as Ha' by (rewrite Es; by apply apart_words).
  eapply wp_mono; [apply (wp_copy_step s' B sp dp Ts Td (va0 + 4096 * k) _ v w)|]; try done; try lia.
  - by rewrite Es.
  - by rewrite G1, Hif by lia.
  - by rewrite G2, Hif by lia.
  - intros r s2 (-> & a & b & Sa & Sb & ->). split; [|lia]. exists (k + 1). rewrite u32_small by lia.
    set (s1 := with_words (<[a := 0]> (words s')) s'). change (with_words _ s') with (with_words (<[b := 0]> (words s1)) s1).
    split_and!; [lia..| |].
    + assert (∀ va, 0 ≤ va → (∀ i, 0 ≤ i < 1024 → b ≠ sp + 4 * i) ∧ slot s' Ts va ≠ Some b) as Hb.
      { intros va Hva. by apply (slot_apart s' B dp sp Td Ts (va0 + 4096 * k) va b S2 S1 (apart_sym _ _ _ _ _ Ha') ltac:(lia)). }
      apply filled_other; [apply (filled_next s s' B sp Ts va0 k (λ _, 0)); [done|lia|lia|done]|apply (Hb 0); lia|apply Hb].
    + assert (∀ va, 0 ≤ va → (∀ i, 0 ≤ i < 1024 → a ≠ dp + 4 * i) ∧ slot s' Td va ≠ Some a) as Haa.
      { intros va Hva. by apply (slot_apart s' B sp dp Ts Td (va0 + 4096 * k) va a S1 S2 Ha' ltac:(lia)). }
      apply (filled_next s s1 B dp Td va0 k (λ _, 0) b); [|lia|lia|exact Sb].
      apply filled_other; [done|apply (Haa 0); lia|apply Haa].
Qed.

Lemma wp_on_slabs {A} (k : M slabs A) (Q : A → uvm → Prop) u :
  wp k (λ r s', Q r (Uvm s' (u_mms u) (u_cur u))) (u_slabs u) → wp (on_slabs k) Q u.
Proof. intros H. unfold on_slabs. apply wp_zoom. exact H. Qed.

Lemma wp_rd_mm a m (Q : mm_struct → uvm → Prop) u : u_mms u !! a = Some m → Q m u → wp (rd_mm a) Q u.
Proof. intros H HQ. unfold rd_mm. do 2 wp_step. by wp_step. Qed.

(** A write to an address whose entry is 0, and any access to it. *)
Lemma task_cow_absent mm m (u : uvm) B T va : u_cur u = mm → mm ≠ 0 → u_mms u !! mm = Some m →
  space (u_slabs u) B (mm_pgdir m) T → 0 ≤ va < 2 ^ 32 → (4096 | va) → entry (u_slabs u) T va = Some 0 →
  wp (task_cow va) (λ r _, r = -1) u.
Proof.
  intros Ec Hz Hm Hs Hv Ha He. unfold task_cow.
  assert (PAGE_CEIL va = va) as -> by (destruct Ha as [q ->]; rewrite PAGE_CEIL_eq, Z.div_mul by lia; lia).
  do 2 wp_step. rewrite Ec, (proj2 (Z.eqb_neq mm 0) Hz). wp_step. eapply wp_rd_mm; [exact Hm|]. apply wp_on_slabs.
  unfold vm_remap_page. destruct (entry_slot _ _ _ _ He) as (a & Sa & Wa). wp_step. eapply wp_iter; [exact Hs|exact Sa|].
  wp_step. eapply wp_rd_word; [exact Wa|]. change (truth (Z.land 0 VM_PRES)) with false. cbn [negb]. by wp_step.
Qed.

Lemma page_fault_panics ec mm m (u : uvm) B T va : u_cur u = mm → mm ≠ 0 → u_mms u !! mm = Some m →
  space (u_slabs u) B (mm_pgdir m) T → 0 ≤ va < 2 ^ 32 → (4096 | va) → entry (u_slabs u) T va = Some 0 →
  page_fault ec va u = Err Assert.
Proof.
  intros Ec Hz Hm Hs Hv Ha He. unfold page_fault, assertk. destruct (pf_zero ec =? 0); [|done]. rewrite (bind_Ok _ _ _ tt u) by done.
  destruct (pf_zero1 ec =? 0); [|done]. rewrite (bind_Ok _ _ _ tt u) by done. destruct (pf_w ec); [|done].
  apply bind_wp_Err. wp_step. eapply wp_mono; [by eapply (task_cow_absent mm m)|]. intros r u' ->. by wp_step.
Qed.

(** C16: [vm_area_copy] of a writable area, as fork does for data, bss and heap, takes the
    pages from the parent: behind it neither the directory of the parent nor that of the
    child has a page there, and the first access of the parent to it, a read or a write,
    panics the kernel. *)
Theorem fork_unmaps_writable ec m (u : uvm) B dp Ts Td va0 n va : u_cur u ≠ 0 → u_mms u !! u_cur u = Some m →
  let sp := mm_pgdir m in let s := u_slabs u in
  space s B sp Ts → space s B dp Td → apart s sp dp Ts Td → 0 < a_addr (al s) →
  0 ≤ va0 → (4096 | va0) → va0 + 4096 * n < 2 ^ 32 →
  (∀ k, 0 ≤ k < n → ∃ v w, entry s Ts (va0 + 4096 * k) = Some v ∧ Z.land v VM_URW = VM_URW ∧ Z.land v VM_IGNORE_BIT1 = 0 ∧
     entry s Td (va0 + 4096 * k) = Some w) →
  (4096 | va) → va0 ≤ va < va0 + 4096 * n →
  (∃ s', vm_area_copy va0 (4096 * n) sp dp s = Ok (tt, s') ∧ mmu sp va s' = Err Fault ∧ mmu dp va s' = Err Fault) ∧
  (on_slabs (vm_area_copy va0 (4096 * n) sp dp);; page_fault ec va) u = Err Assert.
Proof.
  intros Hz Hm sp s H1 H2 Ha H0 Hv Hal Hr Hen Hva Hin.
  destruct (wp_elim _ _ _ (wp_copy_area s B sp dp Ts Td va0 n H1 H2 Ha H0 Hv ltac:(lia) Hr Hen)) as ([] & s' & E & (S1 & _ & G1) & S2 & _ & G2).
  destruct (in_area va0 n va Hal Hin) as [Ei _]. specialize (G1 va ltac:(lia)). specialize (G2 va ltac:(lia)). rewrite Ei in G1, G2. split.
  - exists s'. split; [done|]. by rewrite (mmu_entry s' B sp Ts va 0 S1 ltac:(lia) G1), (mmu_entry s' B dp Td va 0 S2 ltac:(lia) G2).
  - rewrite (bind_Ok _ _ _ tt (Uvm s' (u_mms u) (u_cur u))) by (unfold on_slabs, zoom; fold s; by rewrite E).
    eapply (page_fault_panics ec (u_cur u) m); cbn [u_cur u_mms u_slabs]; [done|done|done|exact S1|lia|done|done].
Qed.

(** ** The break *)

(** [vm_brk_init] puts the break one page behind the page where the last area
    starts, not behind its end: when that area is longer than a page the heap of the
    process begins inside it. *)
Theorem brk_inside_area mm m u a : u_mms u !! mm = Some m → a ∈ [mm_bss m; mm_text m; mm_data m; mm_rodata m] →
  Forall (λ b, 0 ≤ a_va b ≤ a_va a) [mm_bss m; mm_text m; mm_data m; mm_rodata m] →
  a_va a < KERNEL_START - 3 * 4096 → 8192 ≤ a_size a →
  wp (vm_brk_init mm) (λ _ u', ∃ m', u_mms u' !! mm = Some m' ∧ a_size (mm_brk m') = 0 ∧
    (4096 | a_va (mm_brk m')) ∧ a_va a < a_va (mm_brk m') < a_va a + a_size a) u.
Proof.
  intros Hm Hin Hall Hk Hs. unfold vm_brk_init, rd_mm. do 3 wp_step. wp_step; [exact Hm|]. rewrite !MAX_max.
  repeat (apply Forall_cons in Hall as [? Hall]).
  assert (Z.max (Z.max (Z.max (a_va (mm_bss m)) (a_va (mm_text m))) (a_va (mm_data m))) (a_va (mm_rodata m)) = a_va a) as ->.
  { rewrite !elem_of_cons, elem_of_nil in Hin. destruct Hin as [-> |[-> |[-> |[-> |[]]]]]; lia. }
  unfold KERNEL_START, PAGE_SIZE in *. rewrite PAGE_CEIL_eq by lia. pose proof (Z.div_mod (a_va a) 4096 ltac:(lia)).
  pose proof (Z.mod_pos_bound (a_va a) 4096 ltac:(lia)). rewrite u32_small by lia.
  wp_step. apply wp_assertk. split; [apply Z.ltb_lt; lia|]. unfold wr_mm. wp_step.
  eexists. cbn [u_mms]. rewrite lookup_insert_eq. split; [done|]. cbn [mm_brk put_brk a_va a_size]. split_and!; [done| |lia|lia].
  apply Z.divide_add_r; [by eexists; apply Z.mul_comm|by exists 1].
Qed.

(** ** sbrk *)

(** An address space does not change when a page is allocated. *)
Lemma space_alloc s B pgdir T b B' x : space s B pgdir T → allocated (al s) b B B' 0 x →
  space (with_vmm (with_bud b (vmm s)) s) B' pgdir T ∧ (∀ i, T !! i ≠ Some x).
Proof.
  intros H (Hi & Hu & (o & _ & Ho) & _ & [Hk _] & En & Ea & _). destruct H as [H1 H2 H3 H4 H5 H6].
  assert (∀ y, kva (with_vmm (with_bud b (vmm s)) s) y = kva s y) as Ek by (intros y; unfold kva; cbn; by rewrite Ea). split.
  2:{ intros i Hx. destruct (H4 i x Hx) as [_ [_ _ _ (o' & r & Hb & Hr) _]]. congruence. }
  split; [done|cbn; unfold area_ok; by rewrite Ea, En|done| |done|intros j y Hy; rewrite Ek; by apply (H6 j)].
  intros j y Hy. destruct (H4 j y Hy) as [Hj [T1 T2 (p & T3 & T3') (o' & r & T4 & T4') T5]]. split; [done|]. split; cbn.
  - by rewrite En.
  - by rewrite Ea.
  - exists p. rewrite Ek. by rewrite (Hk y o' r).
  - assert (in_use B' !! y = Some (o', r)) as Hb.
    { rewrite Hu, lookup_insert_ne; [by apply in_use_Some|]. intros ->. congruence. }
    apply in_use_Some in Hb as [Hb _]. by exists o', r.
  - intros k Hk'. rewrite Ek. by apply T5.
Qed.

(** Nor when the field [data] of a page without tables is set. *)
Lemma space_data s B pgdir T x p v : space s B pgdir T → pages (al s) !! x = Some p → (∀ i, T !! i ≠ Some x) →
  space (with_vmm (with_bud (with_pages (<[x := put_data v p]> (pages (al s))) (al s)) (vmm s)) s) B pgdir T.
Proof.
  intros [H1 H2 H3 H4 H5 H6] Hp Hx. split; [by apply buddy_inv_data|done|done| |done|done].
  intros i y Hy. destruct (H4 i y Hy) as [Hi [T1 T2 (q & T3) T4 T5]]. split; [done|]. split; try done. exists q. cbn.
  rewrite lookup_insert_ne; [done|]. intros ->. by apply (Hx i).
Qed.

(** One page of [vm_maps]. *)
Lemma wp_maps_page flag s B pgdir T va pa v : space s B pgdir T → 0 ≤ va → va + 4096 < 2 ^ 32 → 0 ≤ pa → pa + 4096 < 2 ^ 32 →
  entry s T va = Some v →
  wp (loop (page_rounds 4096) (maps_step flag pgdir) (4096, va, pa)) (λ _ s', space s' B pgdir T ∧ s' = with_words (words s') s ∧
    entry s' T va = Some (if truth (Z.land v VM_PRES) then v else Z.lor pa flag) ∧
    ∀ va', 0 ≤ va' → va' / 4096 ≠ va / 4096 → entry s' T va' = entry s T va') s.
Proof.
  intros H Hv Hr Hp Hpr He. destruct (entry_slot _ _ _ _ He) as (a & Sa & Wa).
  assert (page_rounds 4096 = S (S 4095)) as -> by (vm_compute; reflexivity). generalize 4095%nat as N. intros N. cbn [loop].
  wp_step. unfold maps_step at 1. change (0 <? 4096) with true. cbv iota. wp_step. eapply wp_iter; [exact H|exact Sa|].
  wp_step. eapply wp_rd_word; [exact Wa|]. wp_step.
  unfold when, wr_word. destruct (truth (Z.land v VM_PRES)); cbn [negb]; do 3 wp_step; unfold maps_step at 1;
    change (0 <? 4096 - PAGE_SIZE) with false; cbv iota; do 2 wp_step.
  - split_and!; [done|by destruct s|done|done].
  - assert (∀ i, 0 ≤ i < 1024 → a ≠ pgdir + 4 * i) as Hd by (intros i Hi; by apply (slot_dir s B pgdir T va a i)).
    split_and!; [by apply space_write|done| |].
    + rewrite (entry_write s B pgdir T va a) by done. by rewrite Z.eqb_refl.
    + intros va' Hv' Hne. rewrite (entry_write s B pgdir T va a) by done. by rewrite (proj2 (Z.eqb_neq _ _) Hne).
Qed.

(** The end of [sbrk]: the page gets its address and the break moves. *)
Lemma wp_sbrk_end u m B T x va : u_mms u !! u_cur u = Some m → space (u_slabs u) B (mm_pgdir m) T → (∀ i, T !! i ≠ Some x) →
  0 ≤ x < pageCnt (al (u_slabs u)) → va = a_va (mm_brk m) → 0 ≤ va → va + 4096 < 2 ^ 32 → 0 ≤ a_size (mm_brk m) < 2 ^ 31 →
  wp (on_slabs (on_pg (upd_page x (put_data va)));;
      upd_mm (u_cur u) (λ m, let b := mm_brk m in put_brk (VmArea (u32 (a_va b + 4096)) (u32 (a_size b + 4096)) (a_flag b)) m);;
      cur ← rd_mm (u_cur u); mret (u32 (a_va (mm_brk cur) - 4096)))
    (λ r u', r = va ∧ space (u_slabs u') B (mm_pgdir m) T ∧
      (∃ m', u_mms u' !! u_cur u = Some m' ∧ mm_brk m' = VmArea (va + 4096) (a_size (mm_brk m) + 4096) (a_flag (mm_brk m))) ∧
      ∀ va', entry (u_slabs u') T va' = entry (u_slabs u) T va') u.
Proof.
  intros Hm Hsp Hx Hxr Ev Hv Hr Hs. destruct (sp_inv _ _ _ _ Hsp) as (_ & _ & _ & _ & HR & _). destruct (HR x Hxr) as (p & Hp & _).
  wp_step. apply wp_on_slabs, wp_on_pg. eapply wp_upd_page; [exact Hp|]. wp_step. unfold upd_mm. wp_step. eapply wp_rd_mm; [exact Hm|].
  unfold wr_mm. wp_step. wp_step. eapply wp_rd_mm; [cbn [u_mms]; apply lookup_insert_eq|]. wp_step.
  cbn [u_slabs u_mms mm_brk put_brk a_va]. rewrite <-Ev, (u32_small (va + 4096)), u32_small by lia. split_and!; [lia|by apply space_data| |done].
  eexists. rewrite lookup_insert_eq. split; [done|]. cbn [mm_brk put_brk]. by rewrite u32_small by lia.
Qed.

(** [sbrk] of one page, while there is a free page and the table of the break is
    there.  It answers the old break, the new one is a page behind it.  If the page at the
    break was not mapped, it is now a page that was free; if it was mapped - the break
    can start inside bss - it stays as it is, and the caller gets memory that is in use.
    Other pages are not affected. *)
Theorem sbrk_one_page u m B T v : u_cur u ≠ 0 → u_mms u !! u_cur u = Some m → space (u_slabs u) B (mm_pgdir m) T →
  let va := a_va (mm_brk m) in
  (4096 | va) → 0 ≤ va → va + 4096 < 2 ^ 32 → a_addr (al (u_slabs u)) + 4096 * pageCnt (al (u_slabs u)) < 2 ^ 32 →
  0 ≤ a_size (mm_brk m) < 2 ^ 31 → entry (u_slabs u) T va = Some v → (∃ y o, B !! y = Some (o, 0)) →
  wp (sbrk 4096) (λ r u', r = va ∧ (∃ B', space (u_slabs u') B' (mm_pgdir m) T) ∧
    (∃ m', u_mms u' !! u_cur u = Some m' ∧ mm_brk m' = VmArea (va + 4096) (a_size (mm_brk m) + 4096) (a_flag (mm_brk m))) ∧
    (if truth (Z.land v VM_PRES) then entry (u_slabs u') T va = Some v
     else ∃ x o, B !! x = Some (o, 0) ∧ ∀ j, 0 ≤ j < 4096 →
       mmu (mm_pgdir m) (va + j) (u_slabs u') = Ok (a_addr (al (u_slabs u)) + 4096 * x + j, u_slabs u')) ∧
    ∀ va', 0 ≤ va' → va' / 4096 ≠ va / 4096 → entry (u_slabs u') T va' = entry (u_slabs u) T va') u.
Proof.
  intros Hz Hm Hsp va Hal Hv Hr Htop Hbs He (y & oy & Hy). set (s := u_slabs u) in *. pose proof (sp_inv _ _ _ _ Hsp) as Hi. pose proof (sp_area _ _ _ _ Hsp) as Har.
  destruct (alloc_spec (al s) B 4096 0 Hi good_4096) as [Hw|[_ Hno]].
  2:{ destruct (tiled_block _ _ (proj1 (proj2 (proj2 Hi))) _ _ _ Hy) as (Ho & _). exfalso. apply (Hno oy y); [lia|done]. }
  unfold sbrk. do 3 wp_step. apply wp_assertk. split; [by apply truth_true|]. change (PAGE_CEIL 4096) with 4096.
  wp_step. apply wp_on_slabs, wp_on_pg. eapply wp_mono; [exact Hw|]. intros x b (B' & Hall).
  destruct (space_alloc s B (mm_pgdir m) T b B' x Hsp Hall) as [Hs1 Hx]. destruct (allocated_free _ _ _ _ _ _ Hi Hall) as (Hx0 & Hx1 & _).
  destruct Hall as (Hi' & _ & (ox & _ & Hox) & _ & _ & En & Ea & _). change (2 ^ 0) with 1 in Hx1.
  set (s1 := with_vmm (with_bud b (vmm s)) s) in *. wp_step. eapply wp_rd_mm; [exact Hm|].
  wp_step. apply wp_on_slabs, wp_on_pg. eapply wp_intro; [apply page_addr_ok; [apply Hs1|cbn; rewrite En; lia]|]. cbn [u_slabs]. rewrite with_al_id.
  assert (∀ va', entry s1 T va' = entry s T va') as Ee by (intros va'; unfold entry, slot, kva; cbn; by rewrite Ea).
  set (pa := a_addr b + 4096 * x). destruct Har as (Ha0 & Hda & _). rewrite <-Ea in Ha0, Hda, Htop |- *.
  assert ((4096 | pa)) as Hpd by (apply Z.divide_add_r; [done|by eexists; apply Z.mul_comm]).
  wp_step. unfold vm_maps. do 3 wp_step. apply wp_assertk. split; [by apply truth_true|]. wp_step. eapply wp_rd_mm; [exact Hm|].
  wp_step. apply wp_assertk. split; [apply Z.eqb_eq, aligned_mask, Hpd|].
  assert (PAGE_CEIL va = va) as Ev by (destruct Hal as [q ->]; rewrite PAGE_CEIL_eq, Z.div_mul by lia; lia).
  fold va. rewrite Ev. apply wp_on_slabs. cbn [u_slabs u_mms u_cur].
  eapply wp_mono; [eapply (wp_maps_page _ s1 B' (mm_pgdir m) T va pa v); [exact Hs1|lia|lia|unfold pa; lia|unfold pa; lia|by rewrite Ee]|].
  intros [] s2 (S2 & Es2 & E2 & F2). eapply wp_mono; [apply (wp_sbrk_end (Uvm s2 (u_mms u) (u_cur u)) m B' T x va)|]; cbn [u_slabs u_mms u_cur]; try done.
  { rewrite Es2. cbn. lia. }
  intros r u' (-> & S3 & Hm' & E3). split_and!; [done|by exists B'|done| |].
  - specialize (E3 va). rewrite E2 in E3. destruct (truth (Z.land v VM_PRES)); [done|]. exists x, ox. split; [done|]. intros j Hj.
    assert ((va + j) / 4096 = va / 4096 ∧ (va + j) mod 4096 = j) as [E1 Em] by (destruct Hal as [q ->]; split; Z.div_mod_to_equations; lia).
    assert (entry (u_slabs u') T (va + j) = entry (u_slabs u') T va) as Ej by (unfold entry; by rewrite (slot_page _ _ (va + j) va) by lia).
    rewrite E3 in Ej. rewrite (mmu_mapped _ B' (mm_pgdir m) T (va + j) pa _ S3 ltac:(lia) Ej); [by rewrite Em|unfold pa; lia|done|done|done].
  - intros va' Hv' Hne. by rewrite E3, F2, Ee.
Qed.
End space.
