(* ===== verification/UvmDemo.v ===== *)
(** * Two small address spaces

    Four pages of memory at 1 MiB, of which the first two hold a page table each, one for
    each of two directories.  The first has a writable page at 0x1000.  The theorems of
    UvmCorrect are applied to them. *)

From S2P Require Import Prelude QLib DList Locks Page PageAlloc BuddySpec PageAllocCorrect PageAllocInit PageAllocProps Vm Slab SlabCorrect Uvm UvmCorrect.
From Stdlib Require Import ZArith Lia.
From stdpp Require Import base countable numbers gmap list.
Open Scope Z_scope.

Definition demo2 : buddyAllocator := state_of (__alloc_page 4096 demo1).
Lemma demo2_alloc : __alloc_page 4096 demo1 = Ok (1, demo2).
Proof. vm_compute. reflexivity. Qed.

Definition page_data (x v : Z) (s : buddyAllocator) : buddyAllocator :=
  match pages s !! x with Some p => with_pages (<[x := put_data v p]> (pages s)) s | None => s end.
Definition table_pages : buddyAllocator := page_data 1 0xc0101000 (page_data 0 0xc0100000 demo2).

Definition table_words : gmap Z Z := list_to_map (
  [(0xd0000000, 0x100007); (0xd0001000, 0x101007); (0xc0100004, 0x102007)] ++
  ((λ j, (0xc0100000 + 4 * j, 0)) <$> seqZ 0 2048)).
Definition tables_at : slabs := Slabs (Vmem table_pages ∅ ∅ 0) table_words (Spinlock 0) ∅.

Definition no_area : vm_area := VmArea 0 0 0.
Definition demo_mm : mm_struct :=
  MmStruct no_area no_area no_area (VmArea 0x1000 8192 7) (VmArea 0x2000 0 7) no_area 0 0xd0000000.
Definition demo_uvm : uvm := Uvm tables_at {[ 80 := demo_mm ]} 80.

Lemma page_data_inv x v s B : buddy_inv s B → buddy_inv (page_data x v s) B.
Proof. intros H. unfold page_data. destruct (pages s !! x) eqn:E; [|done]. by apply buddy_inv_data. Qed.

Lemma demo2_inv : ∃ B, buddy_inv demo2 B ∧ B !! 0 = Some (0, 1) ∧ B !! 1 = Some (0, 1) ∧ ∃ y o, B !! y = Some (o, 0).
Proof.
  destruct demo1_inv as (B & Hi & H0). destruct (alloc_spec demo1 B 4096 0 Hi good_4096) as [Hw|[E _]].
  2:{ by rewrite demo2_alloc in E. }
  unfold wp in Hw. rewrite demo2_alloc in Hw. destruct Hw as (B' & Hi' & EU & _ & Hx & _). exists B'.
  assert (in_use B' !! 0 = Some (0, 1)) as [H0' _]%in_use_Some by (rewrite EU, lookup_insert_ne by done; by apply in_use_Some).
  split_and!; [done|done|done|]. destruct (alloc_spec demo2 B' 4096 0 Hi' good_4096) as [Hw|[E _]].
  - destruct (wp_elim _ _ _ Hw) as (x & s & _ & B2 & _ & _ & (o & _ & Ho) & _). by exists x, o.
  - assert (match __alloc_page 4096 demo2 with Ok _ => true | Err _ => false end = true) as C by (vm_compute; reflexivity).
    by rewrite E in C.
Qed.

Lemma words_forallb (m : gmap Z Z) a n : forallb (λ j, bool_decide (is_Some (m !! (a + 4 * j)))) (seqZ 0 n) = true →
  ∀ j, 0 ≤ j < n → is_Some (m !! (a + 4 * j)).
Proof.
  intros H j Hj. pose proof (proj1 (forallb_forall _ _) H j) as Hb. apply bool_decide_eq_true in Hb; [done|].
  apply list_elem_of_In, elem_of_seqZ. lia.
Qed.

Lemma table_inv B : buddy_inv demo2 B → buddy_inv table_pages B.
Proof. intros Hi. exact (page_data_inv 1 _ _ B (page_data_inv 0 _ demo2 B Hi)). Qed.
Lemma table_addr : a_addr table_pages = 0x100000.
Proof. vm_compute. reflexivity. Qed.
Lemma table_cnt : pageCnt table_pages = 4.
Proof. vm_compute. reflexivity. Qed.
Lemma table_area : area_ok table_pages.
Proof. unfold area_ok. rewrite table_addr, table_cnt. split; [done|]. split; [by exists 256|done]. Qed.
Lemma table_page x : x = 0 ∨ x = 1 → pg_data <$> pages table_pages !! x = Some (0xc0100000 + 4096 * x).
Proof. intros [-> | ->]; vm_compute; reflexivity. Qed.
Lemma table_dir x : x = 0 ∨ x = 1 → table_words !! (0xd0000000 + 4096 * x) = Some (0x100007 + 4096 * x).
Proof. intros [-> | ->]; vm_compute; reflexivity. Qed.
Lemma table_rows x : x = 0 ∨ x = 1 → ∀ j, 0 ≤ j < 1024 → is_Some (table_words !! (0xc0100000 + 4096 * x + 4 * j)).
Proof. intros [-> | ->]; apply words_forallb; vm_compute; reflexivity. Qed.
Lemma table_kva x : kva tables_at x = 0xc0100000 + 4096 * x.
Proof. unfold kva. cbn [tables_at vmm bud]. rewrite table_addr. unfold KERNEL_START. lia. Qed.
#[local] Opaque table_pages table_words.

Lemma tables_at_space B x : buddy_inv demo2 B → (x = 0 ∨ x = 1) → B !! x = Some (0, 1) →
  space tables_at B (0xd0000000 + 4096 * x) {[ 0 := x ]}.
Proof.
  intros Hi Hx Hb. split.
  - exact (table_inv B Hi).
  - exact table_area.
  - exists (0xd0000 + x). lia.
  - intros i y [<- <-]%lookup_singleton_Some. split; [lia|].
    apply Table.
    + change (bud (vmm tables_at)) with table_pages. rewrite table_cnt. lia.
    + exists (0x100007 + 4096 * x). change (words tables_at) with table_words. change (bud (vmm tables_at)) with table_pages. rewrite Z.mul_0_r, Z.add_0_r, table_addr. split; [by apply table_dir|].
      destruct Hx as [-> | ->]; split; vm_compute; reflexivity.
    + change (bud (vmm tables_at)) with table_pages. pose proof (table_page x Hx) as E. destruct (pages table_pages !! x) as [p|]; [|done]. exists p. rewrite table_kva. split; [done|by injection E].
    + by exists 0, 1.
    + intros j Hj. change (words tables_at) with table_words. rewrite table_kva. by apply table_rows.
  - intros i j y [<- _]%lookup_singleton_Some [<- _]%lookup_singleton_Some. done.
  - intros i y [_ <-]%lookup_singleton_Some. rewrite table_kva. lia.
Qed.

Lemma tables_apart : apart tables_at 0xd0000000 0xd0001000 {[ 0 := 0 ]} {[ 0 := 1 ]}.
Proof.
  split.
  - intros i j x [_ <-]%lookup_singleton_Some [_ E]%lookup_singleton_Some. done.
  - intros i x [_ <-]%lookup_singleton_Some. rewrite table_kva. lia.
  - intros i x [_ <-]%lookup_singleton_Some. rewrite table_kva. lia.
Qed.

Lemma vm_map_area_translates_witness :
  wp (vm_map_area (VmArea 0x2000 8192 7) 0x200000 0xd0000000) (λ _ s', mmu 0xd0000000 0x3004 s' = Ok (0x201004, s')) tables_at.
Proof.
  destruct demo2_inv as (B & Hi & H0 & _). eapply wp_mono.
  - apply (vm_map_area_translates tables_at B 0xd0000000 {[ 0 := 0 ]} 0x2000 0x200000 7 2); try lia;
      [by apply (tables_at_space B 0); [|left|]|by exists 2|by exists 512|by vm_compute|].
    intros k Hk. assert (k = 0 ∨ k = 1) as [-> | ->] by lia; exists 0; split; vm_compute; reflexivity.
  - intros _ s' (_ & _ & Hm & _). apply (Hm 0x3004). lia.
Defined.

Lemma fork_unmaps_writable_witness :
  (on_slabs (vm_area_copy 0x1000 4096 0xd0000000 0xd0001000);; page_fault 7 0x1000) demo_uvm = Err Assert.
Proof.
  destruct demo2_inv as (B & Hi & H0 & H1 & _).
  apply (fork_unmaps_writable 7 demo_mm demo_uvm B 0xd0001000 {[ 0 := 0 ]} {[ 0 := 1 ]} 0x1000 1 0x1000);
    try lia; [done|by vm_compute|by apply (tables_at_space B 0); [|left|]|by apply (tables_at_space B 1); [|right|]|exact tables_apart|by vm_compute|by exists 1| |by exists 1].
  intros k Hk. assert (k = 0) as -> by lia. exists 0x102007, 0. split_and!; vm_compute; reflexivity.
Defined.

Lemma brk_inside_area_witness : wp (vm_brk_init 80) (λ _ u', ∃ m', u_mms u' !! 80 = Some m' ∧ 0x1000 < a_va (mm_brk m') < 0x3000) demo_uvm.
Proof.
  eapply wp_mono; [apply (brk_inside_area 80 demo_mm demo_uvm (VmArea 0x1000 8192 7))|].
  - by vm_compute.
  - cbn. set_solver.
  - repeat constructor; vm_compute; congruence.
  - by vm_compute.
  - cbn. lia.
  - cbn. intros _ u' (m' & Hm & _ & _ & Hr). exists m'. split; [done|lia].
Defined.

Lemma sbrk_one_page_witness : wp (sbrk 4096) (λ r u', r = 0x2000) demo_uvm.
Proof.
  destruct demo2_inv as (B & Hi & H0 & _ & Hf). eapply wp_mono.
  - apply (sbrk_one_page demo_uvm demo_mm B {[ 0 := 0 ]} 0); [done|by vm_compute|by apply (tables_at_space B 0); [|left|]|..|exact Hf];
      [by exists 2|by vm_compute..].
  - by intros r u' (-> & _).
Defined.

(** ** [krealloc] of a chunk *)

(** A chunk of a slab cannot be enlarged: within a page, because the size asked for is
    compared with the size of the chunk's page, and beyond it, because the size to copy is
    looked up for the new address, which is no chunk.  There is room in both cases. *)
Example krealloc_slab_panics :
  (match kmalloc 2040 slab_demo, kmalloc 8192 slab_demo with Ok _, Ok _ => true | _, _ => false end) = true ∧
  krealloc 0xc0100000 2040 slab_demo = Err Assert ∧ krealloc 0xc0100000 8192 slab_demo = Err Assert.
Proof. vm_compute. by split. Qed.
