(* ===== verification/Fork.v ===== *)
(** * Creation and end of tasks (task/fork.c)

    [kernel_clone] and the routines around it use the scheduler, [kmalloc], the address
    spaces and the open files; the state of the kernel puts these components side by
    side.  Where a component has a field for the current task ([u_cur] is
    [CUR_TCB->mm], [v_open] is [CUR_TCB->open]) it gets the value of the current task
    for the call.

    A task is the page that [kmalloc] answers: its control block, its run_list in the
    heap of list nodes, and its kernel stack in the words of memory, all at that
    address.  What a fresh page holds is a parameter.  The open files are behind the
    class [TaskFiles], which fs/vfs.c implements. *)

From S2P Require Import Prelude QLib Memory DList Locks Page PageAlloc Vm Slab Uvm Sched FdHash Vfs.
From Stdlib Require Import ZArith Lia.
From stdpp Require Import base countable numbers gmap list.
Open Scope Z_scope.

Definition CLONE_KERNEL_STACK : Z := 1.
Definition CLONE_MM : Z := 2.
Definition CLONE_FILE : Z := 4.

(** What task/fork.c asks of the file system.  [tf_recycle o l] closes the files of the
    list [l] while the current task has the list [o], and answers its list then. *)
Class TaskFiles (F : Type) := {
  tf_copy : Z → M F Z;               (* copy_open_file(&src, &desc) *)
  tf_recycle : Z → Z → M F Z;        (* recycle_open_file(list) *)
  tf_find : Z → M F Z                (* vfs_ops.find(path) *) }.

(** The fields of [task_struct] that the scheduler does not use. *)
Record task_info := TaskInfo { ti_stack : Z; ti_cwd : Z; ti_open : Z; ti_context : Z; ti_sysContext : Z }.
Definition put_open (v : Z) (i : task_info) := TaskInfo (ti_stack i) (ti_cwd i) v (ti_context i) (ti_sysContext i).
Definition put_cwd (v : Z) (i : task_info) := TaskInfo (ti_stack i) v (ti_open i) (ti_context i) (ti_sysContext i).
Definition put_context (v : Z) (i : task_info) := TaskInfo (ti_stack i) (ti_cwd i) (ti_open i) v (ti_sysContext i).
Definition set_mm v (c : tcb_t) := Tcb (pid c) (state c) (priority c) (timer_slice c) (name c) v (task_lock c).

(** What a fresh page holds where the run_list, the name and the lock will be. *)
Record raw_task := RawTask { raw_node : list_head snode; raw_name : list Z; raw_lock : spinlock_t }.

Section fork.
Context {F : Type} `{TF : TaskFiles F}.
Variable raw : raw_task.
Variable raw_mm : mm_struct.                  (* what a fresh mm_struct holds *)
Variable root_path : Z.                       (* the address of the string of one separator *)
Variable thread_entry syscall_ret : Z.        (* entry points in task/task.s and syscall/syscall.s *)

Record kernel := Kernel {
  k_sched : sched; k_slabs : slabs; k_mms : gmap Z mm_struct; k_files : F; k_info : gmap Z task_info;
  k_esp0 : Z                                  (* tss.esp0 *) }.

Definition on_sched {A} (m : M sched A) : M kernel A :=
  zoom k_sched (λ x k, Kernel x (k_slabs k) (k_mms k) (k_files k) (k_info k) (k_esp0 k)) m.
Definition on_kmem {A} (m : M slabs A) : M kernel A :=
  zoom k_slabs (λ x k, Kernel (k_sched k) x (k_mms k) (k_files k) (k_info k) (k_esp0 k)) m.
Definition on_files {A} (m : M F A) : M kernel A :=
  zoom k_files (λ x k, Kernel (k_sched k) (k_slabs k) (k_mms k) x (k_info k) (k_esp0 k)) m.

Definition cur_tcb : M kernel Z := k ← get; mret (cur_task (k_sched k)).
Definition on_mm {A} (m : M uvm A) : M kernel A :=
  t ← cur_tcb;
  c ← on_sched (rd_tcb t);
  zoom (λ k, Uvm (k_slabs k) (k_mms k) (task_mm c))
       (λ u k, Kernel (k_sched k) (u_slabs u) (u_mms u) (k_files k) (k_info k) (k_esp0 k)) m.

Definition rd_info (t : Z) : M kernel task_info := k ← get; deref (k_info k !! t).
Definition wr_info (t : Z) (i : task_info) : M kernel unit :=
  modify (λ k, Kernel (k_sched k) (k_slabs k) (k_mms k) (k_files k) (<[t := i]> (k_info k)) (k_esp0 k)).
Definition upd_info (t : Z) (f : task_info → task_info) : M kernel unit := i ← rd_info t; wr_info t (f i).

(** ** Frames on a kernel stack *)

(** [struct context]: the words [switch_to] pops, from the address [a] on. *)
Record context := Context_ { c_eflags : Z; c_ebx : Z; c_ebp : Z; c_esi : Z; c_edi : Z; c_eip : Z }.
Definition sizeof_context : Z := 24.
Definition set_eflags (a v : Z) : M slabs unit := wr_word a v.
Definition set_ebx (a v : Z) : M slabs unit := wr_word (a + 4) v.
Definition set_ebp (a v : Z) : M slabs unit := wr_word (a + 8) v.
Definition set_eip (a v : Z) : M slabs unit := wr_word (a + 20) v.

(** [switch_to] in task/switch.s: the registers of the task that goes on; its stack
    pointer is then behind them. *)
Definition switch_frame (a : Z) : M slabs (context * Z) :=
  eflags ← rd_word a; ebx ← rd_word (a + 4); ebp ← rd_word (a + 8);
  esi ← rd_word (a + 12); edi ← rd_word (a + 16); eip ← rd_word (a + 20);
  mret (Context_ eflags ebx ebp esi edi eip, a + 24).

(** ** Cloning *)

(** The fields that [kernel_clone] sets in any case, in the page [task]. *)
Definition task_fill (task p : Z) (c : tcb_t) (i : task_info) : M kernel unit :=
  on_sched (modify (λ s, Sched.with_heap (<[Run task := raw_node raw]> (s_heap s)) s));;
  on_sched (modify (λ s, with_tcbs (<[task := Tcb p TASK_RUNNING (priority c) TIME_SLICE_LENGTH
    (<[0%nat := 0]> (raw_name raw)) 0 (raw_lock raw)]> (tcbs s)) s));;
  wr_info task (TaskInfo task (ti_cwd i) 0 0 0).

Definition clone_stack (cur task : Z) : M kernel unit :=
  i ← rd_info cur;
  n ← rd_info task;
  let offset := Z.land (ti_sysContext i) PAGE_MASK in
  on_kmem (copy_words (ti_stack n + offset) (ti_stack i + offset) (Z.to_nat ((STACK_SIZE - offset) / 4)));;
  let ctx := ti_stack n + offset - sizeof_context in
  upd_info task (put_context ctx);;
  on_kmem (set_eip ctx syscall_ret;; set_eflags ctx 0x200;; set_ebx ctx 0).

Definition kernel_clone (cur flag : Z) : M kernel Z :=
  task ← on_kmem (kmalloc PAGE_SIZE);
  assertk (truth task);;
  p ← on_sched (alloc_pid task);
  c ← on_sched (rd_tcb cur);
  i ← rd_info cur;
  task_fill task p c i;;
  when (truth (Z.land flag CLONE_FILE))
    (o ← on_files (tf_copy (ti_open i)); upd_info task (put_open o));;
  when (truth (Z.land flag CLONE_MM))
    (assertk (truth (task_mm c));;
     m ← on_mm (vm_struct_copy (task_mm c));
     on_sched (upd_tcb task (set_mm m)));;
  when (truth (Z.land flag CLONE_KERNEL_STACK)) (clone_stack cur task);;
  on_sched (upd_tcb task (set_task_lock spinlock_init));;
  mret task.

Definition kernel_fork : M kernel Z :=
  cur ← cur_tcb;
  task ← kernel_clone cur (Z.lor (Z.lor CLONE_MM CLONE_KERNEL_STACK) CLONE_FILE);
  on_sched (sched_task_add (Run task));;
  c ← on_sched (rd_tcb task);
  mret (pid c).

(** Answers [*tid]; the C function returns 0. *)
Definition kthread_create (worker args : Z) : M kernel Z :=
  cur ← cur_tcb;
  thread ← kernel_clone cur 0;
  let ctx := thread + STACK_SIZE - sizeof_context in
  on_kmem (set_eflags ctx 0;; set_ebx ctx worker;; set_ebp ctx args;; set_eip ctx thread_entry);;
  upd_info thread (put_context ctx);;
  c ← on_sched (rd_tcb thread);
  on_sched (sched_task_add (Run thread));;
  mret (pid c).

(** ** Cleaning up *)

(** One task of [finish_list].  Its page is free afterwards, and its control block and
    run_list are gone. *)
Definition clean_task (hdr : snode) : M kernel unit :=
  task ← on_sched (tcb_entry hdr);
  c ← on_sched (rd_tcb task);
  assertk (bool_decide (state c = TASK_ZOMBIE));;
  on_sched (free_pid (pid c));;
  i ← rd_info task;
  when (truth (ti_open i))
    (cur ← cur_tcb;
     ci ← rd_info cur;
     o ← on_files (tf_recycle (ti_open ci) (ti_open i));
     upd_info cur (put_open o));;
  when (truth (task_mm c)) (on_mm (vm_struct_destroy (task_mm c)));;
  on_kmem (kfree (ti_stack i));;
  on_sched (modify (λ s, Sched.with_heap (delete (Run task) (s_heap s)) (with_tcbs (delete task (tcbs s)) s)));;
  modify (λ k, Kernel (k_sched k) (k_slabs k) (k_mms k) (k_files k) (delete task (k_info k)) (k_esp0 k)).

(** [list_for_each_del]: the next node is read before the task is freed. *)
Definition clean_tasks (fuel : nat) : M kernel unit :=
  hdr ← on_sched (on_hp (get_next FinishList));
  loop fuel (λ hdr : snode,
    if decide (hdr = FinishList) then mret (inr tt)
    else
      next ← on_sched (on_hp (get_next hdr));
      clean_task hdr;;
      mret (inl next)) hdr.

(** One round of [cleaner_worker]; the list has no more nodes than there are. *)
Definition cleaner_worker : M kernel unit :=
  on_sched (take_lock list_lock with_list_lock);;
  k ← get;
  clean_tasks (S (size (s_heap (k_sched k))));;
  on_sched (on_hp (list_header_init FinishList));;
  on_sched (drop_lock list_lock with_list_lock);;
  _ ← on_sched (task_sleep None None);
  mret tt.

(** ** Initialisation *)

Definition with_cleaner t (s : sched) := Sched (s_heap s) (tcbs s) (taskMap s) (sched_lock s) (list_lock s) (map_lock s) (cur_task s)
  (idle_task s) (init_task s) t (g_tick s) (update_priority_time s) (timers s) (pool s) (mutexes s) (cur_space s).
Definition with_init t (s : sched) := Sched (s_heap s) (tcbs s) (taskMap s) (sched_lock s) (list_lock s) (map_lock s) (cur_task s)
  (idle_task s) t (cleaner_task s) (g_tick s) (update_priority_time s) (timers s) (pool s) (mutexes s) (cur_space s).
Definition with_idle t (s : sched) := Sched (s_heap s) (tcbs s) (taskMap s) (sched_lock s) (list_lock s) (map_lock s) (cur_task s)
  t (init_task s) (cleaner_task s) (g_tick s) (update_priority_time s) (timers s) (pool s) (mutexes s) (cur_space s).

Definition name_idle : list Z := [105; 100; 108; 101].
Definition name_init : list Z := [105; 110; 105; 116].
Definition name_cleaner : list Z := [99; 108; 101; 97; 110; 101; 114].

(** The boot code becomes a task; its page is not from [kmalloc]. *)
Definition task_init1 : M kernel unit :=
  t ← cur_tcb;
  on_sched (upd_tcb t (λ c, set_slice TIME_SLICE_LENGTH (set_priority TASK_MAX_PRIORITY c)));;
  p ← on_sched (alloc_pid t);
  on_sched (upd_tcb t (λ c, Tcb p TASK_RUNNING (priority c) (timer_slice c) (name c) (task_mm c) (task_lock c)));;
  upd_info t (λ i, TaskInfo t (ti_cwd i) 0 0 0);;
  on_sched (task_set_name p name_idle);;
  on_sched (upd_tcb t (set_task_lock spinlock_init)).

Definition cleaner_task_init (worker : Z) : M kernel unit :=
  tid ← kthread_create worker 0;
  n ← on_sched (task_get_run_list tid);
  t ← on_sched (tcb_entry n);
  on_sched (modify (with_cleaner t));;
  on_sched (task_set_name tid name_cleaner).

(** [cleaner] and [idle] are the addresses of [cleaner_worker] and [idle_worker]. *)
Definition task_init (cleaner idle : Z) : M kernel unit :=
  on_sched (modify (with_map_lock spinlock_init));;
  on_sched (modify (with_list_lock spinlock_init));;
  task_init1;;
  t ← cur_tcb;
  c ← on_sched (rd_tcb t);
  on_sched (task_set_name (pid c) name_init);;
  on_sched thread_timer_init;;
  cleaner_task_init cleaner;;
  on_sched (modify (with_init t));;
  tid ← kthread_create idle 0;
  n ← on_sched (task_get_run_list tid);
  d ← on_sched (tcb_entry n);
  on_sched (modify (with_idle d));;
  on_sched (task_set_name tid name_idle);;
  on_sched (task_set_time_slice tid 0).

(** The first user program.  The sections are the addresses the linker gave; the jump
    to user mode is to [mm->stack.va + PAGE_SIZE], the result. *)
Definition user_task_init (text rodata data bss bssEnd : Z) : M kernel Z :=
  mm ← on_kmem (kmalloc sizeof_mm_struct);
  on_mm (wr_mm mm raw_mm;;
         vm_map_init mm;;
         mm_struct_init mm (MmArgs text text (u32 (rodata - text)) rodata rodata (u32 (data - rodata))
                                   data data (u32 (bss - data)) bss bss (u32 (bssEnd - bss))));;
  t ← cur_tcb;
  on_sched (upd_tcb t (set_task_lock spinlock_init));;
  m ← on_mm (rd_mm mm);
  on_kmem (kvm_copy_to (mm_pgdir m));;
  on_sched (upd_tcb t (set_mm mm));;
  fd ← on_files (tf_find root_path);
  upd_info t (put_cwd fd);;
  on_sched (modify (λ s, with_cur (cur_task s) mm s));;
  i ← rd_info t;
  modify (λ k, Kernel (k_sched k) (k_slabs k) (k_mms k) (k_files k) (k_info k) (u32 (ti_stack i + PAGE_SIZE)));;
  on_sched (upd_tcb t (set_slice TIME_SLICE_LENGTH));;
  mret (u32 (a_va (mm_stack m) + PAGE_SIZE)).
End fork.

(** ** fs/vfs.c behind the class *)

Definition vfs_task_files {T : Type} `{FsOps T} (file_addr : gmap Z open_file → Z) : TaskFiles vfs := {|
  tf_copy := copy_open_file;
  tf_recycle := λ cur l, set_open cur;; recycle_open_file l;; v ← get; mret (v_open v);
  tf_find := vfs_find_fd file_addr |}.
