(* ===== verification/ForkCorrect.v ===== *)
(** * Creation and end of tasks, correctness

    A new kernel thread gets a free page, the lowest free pid and a place at the end of
    the queue of its creator's priority, and starts in [thread_entry] with its worker; the
    cleaner takes it apart again.  What the invariants of the scheduler and of the kernel
    pages say together is [kernel_ok]. *)

From S2P Require Import Prelude QLib Memory DList Locks Page PageAlloc BuddySpec PageAllocCorrect PageAllocProps Vm Slab KPage Uvm Sched SchedCorrect FdHash Vfs Fork.
From Stdlib Require Import ZArith Lia.
From stdpp Require Import base countable numbers gmap list.
Open Scope Z_scope.

#[local] Arguments Z.to_nat : simpl never.
#[local] Arguments Z.mul : simpl never.
#[local] Arguments Z.div : simpl never.
#[local] Arguments Z.modulo : simpl never.

(** The table of pids and its lock. *)
Definition pid_table (s : sched) : list Z * spinlock_t := (taskMap s, map_lock s).

Lemma pres_take_lock rd wr : (∀ l s, pid_table (wr l s) = pid_table s) → preserves pid_table (take_lock rd wr).
Proof. intros H. unfold take_lock. apply pres_bind; [pres|]. intros s. destruct (spinlock_lock (rd s)); [by apply pres_modify|pres]. Qed.
Lemma pres_drop_lock rd wr : (∀ l s, pid_table (wr l s) = pid_table s) → preserves pid_table (drop_lock rd wr).
Proof. intros H. unfold drop_lock. apply pres_bind; [pres|]. intros s. by apply pres_modify. Qed.
Lemma pres_tcb t g : preserves pid_table (rd_tcb t) ∧ preserves pid_table (upd_tcb t g).
Proof. unfold upd_tcb, rd_tcb. split; pres. Qed.
Lemma pres_on_hp {A} (m : M _ A) : preserves pid_table (on_hp m).
Proof. unfold on_hp. pres. Qed.
Lemma pres_tcb_entry n : preserves pid_table (tcb_entry n).
Proof. unfold tcb_entry, rd_tcb. destruct n; pres. Qed.
#[export] Hint Resolve pres_on_hp pres_tcb_entry : pres.
#[export] Hint Extern 1 (preserves _ (rd_tcb _)) => apply (pres_tcb _ id) : pres.
#[export] Hint Extern 1 (preserves _ (upd_tcb _ _)) => apply pres_tcb : pres.
#[export] Hint Extern 1 (preserves _ (take_lock _ _)) => apply pres_take_lock : pres.
#[export] Hint Extern 1 (preserves _ (drop_lock _ _)) => apply pres_drop_lock : pres.

Lemma pres_sched_task_add n : preserves pid_table (sched_task_add n).
Proof. unfold sched_task_add. pres. Qed.
Lemma pres_chose n i : preserves pid_table (chose_loop n i).
Proof. revert i. induction n as [|n IH]; intros i; cbn [chose_loop]; pres. Qed.
Lemma pres_reset_loop n : ∀ i h t x, preserves pid_table (reset_loop n i h t x).
Proof. induction n as [|n IH]; intros i h t x; cbn [reset_loop]; unfold queue_init; pres. Qed.
Lemma pres_raise_loop n : ∀ h x, preserves pid_table (raise_loop n h x).
Proof. induction n as [|n IH]; intros h x; cbn [raise_loop]; pres. Qed.
#[export] Hint Resolve pres_sched_task_add pres_chose pres_reset_loop pres_raise_loop : pres.
Lemma pres_reset : preserves pid_table reset_priority.
Proof. unfold reset_priority. pres. Qed.
Lemma pres_chose_next : preserves pid_table chose_next_task.
Proof. unfold chose_next_task. pres. Qed.
#[export] Hint Resolve pres_reset pres_chose_next : pres.
Lemma pres_schedule : preserves pid_table schedule.
Proof. unfold schedule. pres. Qed.
#[export] Hint Resolve pres_schedule : pres.
Lemma pres_task_sleep : preserves pid_table (task_sleep None None).
Proof. unfold task_sleep. pres. Qed.

(** ** Process ids *)

Lemma wp_alloc_pid_loop n i t p s (Q : Z → sched → Prop) : (i ≤ p < i + n)%nat → taskMap s !! p = Some 0 →
  (∀ q, (i ≤ q < p)%nat → ∃ x, taskMap s !! q = Some x ∧ x ≠ 0) →
  Q (Z.of_nat p) (with_map (<[p := t]> (taskMap s)) s) → wp (alloc_pid_loop n (Z.of_nat i) t) Q s.
Proof.
  revert i. induction n as [|n IH]; intros i Hr Hp Hq HQ; [lia|]. cbn [alloc_pid_loop]. do 3 wp_step. rewrite Nat2Z.id.
  destruct (decide (i = p)) as [->|Hne].
  - wp_step; [exact Hp|]. cbn [Z.eqb]. wp_go. exact HQ.
  - destruct (Hq i ltac:(lia)) as (x & Hx & Hx0). wp_step; [exact Hx|]. rewrite (proj2 (Z.eqb_neq x 0) Hx0).
    replace (Z.of_nat i + 1) with (Z.of_nat (S i)) by lia. apply IH; [lia|done| |done]. intros q Hq'. apply Hq. lia.
Qed.

Lemma wp_alloc_pid t p s (Q : Z → sched → Prop) : map_lock s = Spinlock 0 → (p < 1024)%nat → taskMap s !! p = Some 0 →
  (∀ q, (q < p)%nat → ∃ x, taskMap s !! q = Some x ∧ x ≠ 0) →
  Q (Z.of_nat p) (with_map (<[p := t]> (taskMap s)) s) → wp (alloc_pid t) Q s.
Proof.
  intros Hl Hr Hp Hq HQ. unfold alloc_pid. wp_step. apply wp_take_lock; [done|]. wp_step.
  change (Z.to_nat TASK_NUM) with (Z.to_nat 1024). apply (wp_alloc_pid_loop _ 0 t p); [lia|done|intros; apply Hq; lia|].
  wp_step. apply wp_drop_lock. wp_step. cbn. destruct s. cbn in *. by subst.
Qed.

Lemma wp_alloc_pid_full t s (Q : Z → sched → Prop) : map_lock s = Spinlock 0 →
  (∀ q, (q < 1024)%nat → ∃ x, taskMap s !! q = Some x ∧ x ≠ 0) → Q 0 s → wp (alloc_pid t) Q s.
Proof.
  intros Hl Hq HQ. unfold alloc_pid. wp_step. apply wp_take_lock; [done|]. wp_step.
  assert (∀ n i (Q : Z → sched → Prop) s', taskMap s' = taskMap s → (i + n ≤ 1024)%nat → Q 0 s' → wp (alloc_pid_loop n (Z.of_nat i) t) Q s') as Hloop.
  { clear Q HQ. induction n as [|n IH]; intros i Q s' Es Hn HQ; cbn [alloc_pid_loop]; [by wp_step|]. do 3 wp_step. rewrite Nat2Z.id.
    destruct (Hq i ltac:(lia)) as (x & Hx & Hx0). wp_step; [by rewrite Es|]. rewrite (proj2 (Z.eqb_neq x 0) Hx0).
    replace (Z.of_nat i + 1) with (Z.of_nat (S i)) by lia. apply IH; [done|lia|done]. }
  change (Z.to_nat TASK_NUM) with (Z.to_nat 1024). apply (Hloop _ 0%nat); [done|lia|]. wp_step. apply wp_drop_lock. wp_step.
  cbn. destruct s. cbn in *. by subst.
Qed.

(** [alloc_pid] for the task [t] answers [r] and leaves the table [mp t]. *)
Definition pid_given (s : sched) (r : Z) (mp : Z → list Z) : Prop :=
  ∀ t (Q : Z → sched → Prop), Q r (with_map (mp t) s) → wp (alloc_pid t) Q s.

(** ** A new task in the scheduler *)

Lemma base_new L s t c n : sched_base L s → tcbs s !! t = None → Z.land t PAGE_MASK = 0 → 0 ≤ priority c ≤ 3 → task_lock c = Spinlock 0 →
  sched_base L (with_tcbs (<[t := c]> (tcbs s)) (Sched.with_heap (<[Run t := n]> (s_heap s)) s)).
Proof.
  intros Hb Ht Hal Hp Hl.
  assert (∀ hd l, L !! hd = Some l → t ∉ l) as Hu.
  { intros hd l El Hin. destruct (si_placed _ _ Hb _ _ _ El Hin) as (c' & Ec & _). congruence. }
  split; cbn; try apply Hb.
  - destruct (si_lists _ _ Hb) as [HL Hd]. split; [|done]. intros hd l El. destruct (HL hd l El) as [Hh Hdl]. split; [done|].
    eapply dl_frame; [|exact Hdl]. intros y Hy. apply lookup_insert_ne. intros <-. apply elem_of_cons in Hy as [<-|Hy]; [done|].
    apply run_elem in Hy. by apply (Hu hd l).
  - intros hd l u El Hin. rewrite lookup_insert_ne; [by eapply si_placed|]. intros <-. by apply (Hu hd l).
  - intros u cu. rewrite lookup_insert_Some, lookup_insert_is_Some'. intros [[<- <-]|[Hne Eu]].
    + split; [by left|done].
    + destruct (si_node _ _ Hb u cu Eu) as (? & ? & ?). split; [by right|done].
  - destruct (si_idle _ _ Hb) as (Hui & ci & Ei & Si). split; [done|]. exists ci. split; [|done]. rewrite lookup_insert_ne; [done|]. congruence.
  - intros u cu. rewrite lookup_insert_Some. intros [[<- _]|[_ Eu]]; [done|]. by apply (si_aligned _ _ Hb u cu).
Qed.

Lemma new_task_effect L s t c n l h' : sched_inv L s → tcbs s !! t = None → Z.land t PAGE_MASK = 0 → 0 ≤ priority c ≤ 3 → task_lock c = Spinlock 0 →
  state c = TASK_RUNNING → L !! RunQ (priority c) = Some l → 
  lists h' (<[RunQ (priority c) := l ++ [t]]> L) → only_tasks (<[Run t := n]> (s_heap s)) h' →
  sched_inv (<[RunQ (priority c) := l ++ [t]]> L)
    (with_sched_lock (Spinlock 0) (Sched.with_heap h' (with_tcbs (<[t := c]> (tcbs s)) (Sched.with_heap (<[Run t := n]> (s_heap s)) s)))).
Proof.
  intros [Hs (cc & Ecc & Scc)] Ht Hal Hp Hl Hst El HL' Ho. pose proof (si_base _ _ Hs) as Hb.
  set (s1 := with_tcbs (<[t := c]> (tcbs s)) (Sched.with_heap (<[Run t := n]> (s_heap s)) s)) in *.
  assert (t ≠ idle_task s) as Hni. { destruct (si_idle _ _ Hb) as (_ & ci & Ei & _). congruence. }
  assert (sched_base (<[RunQ (priority c) := l ++ [t]]> L) (Sched.with_heap h' s1)) as Hb1.
  { apply (base_insert L s1 (RunQ (priority c)) l); [by apply base_new|done|done|done|].
    intros u [?|Hu]%elem_of_app; [by left|]. apply list_elem_of_singleton in Hu as ->. right. split; [done|].
    exists c. split; [apply lookup_insert_eq|done]. }
  assert (t ≠ cur_task s) as Hnc by congruence.
  assert (∀ u, u ≠ t → unlisted L u → unlisted (<[RunQ (priority c) := l ++ [t]]> L) u) as Hun.
  { intros u Hne Hu. apply unlisted_insert; [done|]. intros [Hin|Hin]%elem_of_app; [by apply (Hu _ _ El)|]. by apply list_elem_of_singleton in Hin. }
  split; [split; [by apply base_lock| |]|].
  - exists cc. cbn. rewrite lookup_insert_ne by done. split; [done|]. left. split; [done|]. apply Hun; [done|].
    destruct (si_cur _ _ Hs) as (c0 & E0 & [[_ Hu]|[Hn _]]); [done|]. congruence.
  - cbn. intros u cu. rewrite lookup_insert_Some. intros [[<- <-]|[Hne Eu]].
    + right; right; left. exists (RunQ (priority c)), (l ++ [t]). rewrite lookup_insert_eq. set_solver.
    + destruct (si_all _ _ Hs u cu Eu) as [?|[?|[Hli|?]]]; [auto|auto| |auto]. right; right; left.
      eapply listed_update; [exact Hli|exact El|set_solver].
  - exists cc. cbn. by rewrite lookup_insert_ne.
Qed.

(** The finished tasks leave the scheduler. *)
Lemma finish_effect L s s' ts : sched_inv L s → L !! FinishList = Some ts →
  dl (s_heap s') FinishList [] → (∀ n, n ≠ FinishList → (∀ t, t ∈ ts → n ≠ Run t) → s_heap s' !! n = s_heap s !! n) →
  (∀ t, tcbs s' !! t = if decide (t ∈ ts) then None else tcbs s !! t) →
  cur_task s' = cur_task s → idle_task s' = idle_task s → sched_lock s' = Spinlock 0 → list_lock s' = Spinlock 0 →
  sched_inv (<[FinishList := []]> L) s'.
Proof.
  intros [Hs (cc & Ecc & Scc)] Ef Hd Hh Ht Ec Ei Hl1 Hl2. pose proof (si_base _ _ Hs) as Hb. destruct (si_lists _ _ Hb) as [HL Hdis].
  assert (∀ u, unlisted L u → u ∉ ts) as Hun by (intros u Hu; by apply (Hu FinishList)).
  assert (∀ u, unlisted L u → unlisted (<[FinishList := []]> L) u) as Hun' by (intros u Hu; apply unlisted_insert; [done|apply not_elem_of_nil]).
  assert (∀ u, unlisted L u → tcbs s' !! u = tcbs s !! u) as Hsame by (intros u Hu; rewrite Ht, decide_False; [done|by apply Hun]).
  assert (unlisted L (cur_task s)) as Huc. { destruct (si_cur _ _ Hs) as (c0 & E0 & [[_ ?]|[? _]]); [done|congruence]. }
  destruct (si_idle _ _ Hb) as (Hui & ci & Eci & Sci). split; [split|]; rewrite ?Ec, ?Ei.
  - split; rewrite ?Ei.
    + split.
      * intros g l. rewrite lookup_insert_Some. intros [[<- <-]|[Hne Eg]]; [done|]. destruct (HL g l Eg) as [Hg Hdl]. split; [done|].
        eapply dl_frame; [|exact Hdl]. intros n Hn. apply Hh; [by intros ->; apply elem_of_cons in Hn as [?|(? & ? & ?)%list_elem_of_fmap]|].
        intros u Hu ->. apply elem_of_cons in Hn as [<-|Hn%run_elem]; [done|]. by apply Hne, (Hdis FinishList g ts l u).
      * intros h1 h2 l1 l2 u. rewrite !lookup_insert_Some. intros [[<- <-]|[_ E1]] [[<- <-]|[_ E2]]; [done|set_solver|set_solver|by eapply Hdis].
    + intros i Hi. rewrite lookup_insert_ne by done. by apply Hb.
    + rewrite lookup_insert_eq, lookup_insert_ne by done. split; [apply Hb|done].
    + intros g l u. rewrite lookup_insert_Some. intros [[<- <-]|[Hne Eg]] Hu; [set_solver|]. rewrite Ht, decide_False; [by eapply si_placed|].
      intros Hin. by apply Hne, (Hdis FinishList g ts l u).
    + intros u cu. rewrite Ht. case_decide as Hin; [done|]. intros Eu. destruct (si_node _ _ Hb u cu Eu) as (? & ? & ?). split_and!; try tauto.
      rewrite Hh; [done|done|]. by intros v Hv [= ->].
    + split; [by apply Hun'|]. exists ci. by rewrite Hsame.
    + done.
    + intros u cu. rewrite Ht. case_decide; [done|]. apply (si_aligned _ _ Hb).
  - exists cc. rewrite Hsame by done. split; [done|]. left. split; [done|]. rewrite Ec. by apply Hun'.
  - intros u cu. rewrite Ht. case_decide as Hin; [done|]. intros Eu. destruct (si_all _ _ Hs u cu Eu) as [?|[?|[Hli|?]]]; [auto|auto| |auto].
    right; right; left. eapply listed_update; [exact Hli|exact Ef|done].
  - exists cc. by rewrite Hsame.
Qed.

(** ** The kernel *)

Lemma va_aligned s x : area_ok (bud (vmm s)) → Z.land (page_va s x) PAGE_MASK = 0.
Proof.
  intros (_ & [q Hd] & _). change PAGE_MASK with (Z.ones 12). rewrite Z.land_ones by lia. unfold page_va, page_pa, KERNEL_START.
  apply Z.mod_divide; [lia|]. rewrite Hd. exists (q + x + 786432). lia.
Qed.

Section kernel.
Context {F : Type} `{TF : TaskFiles F}.
Variable raw : raw_task.
Variable thread_entry syscall_ret : Z.
Implicit Types k : @kernel F.


Record kernel_ok k (L : gmap snode (list Z)) (B : blocks) : Prop := KernelOk {
  ko_sched : sched_inv L (k_sched k);
  ko_mem : kpages (k_slabs k) B;
  ko_map : map_lock (k_sched k) = Spinlock 0 ∧ length (taskMap (k_sched k)) = 1024%nat;
  ko_info : ∀ t c, tcbs (k_sched k) !! t = Some c → is_Some (k_info k !! t);
  ko_pages : ∀ t c x, tcbs (k_sched k) !! t = Some c → page_free B x → t ≠ page_va (k_slabs k) x }.

Definition put_sched x k : kernel := Kernel x (k_slabs k) (k_mms k) (k_files k) (k_info k) (k_esp0 k).
Definition put_kmem x k : kernel := Kernel (k_sched k) x (k_mms k) (k_files k) (k_info k) (k_esp0 k).
Definition put_infos x k : kernel := Kernel (k_sched k) (k_slabs k) (k_mms k) (k_files k) x (k_esp0 k).

Lemma wp_on_sched {A} (m : M sched A) (Q : A → kernel → Prop) k :
  wp m (λ a s, Q a (put_sched s k)) (k_sched k) → wp (on_sched m) Q k.
Proof. intros H. unfold on_sched. by apply wp_zoom. Qed.
Lemma wp_on_kmem {A} (m : M slabs A) (Q : A → kernel → Prop) k :
  wp m (λ a s, Q a (put_kmem s k)) (k_slabs k) → wp (on_kmem m) Q k.
Proof. intros H. unfold on_kmem. by apply wp_zoom. Qed.
Lemma wp_rd_info t i (Q : task_info → kernel → Prop) k : k_info k !! t = Some i → Q i k → wp (rd_info t) Q k.
Proof. intros H HQ. unfold rd_info. do 3 wp_step; [exact H|done]. Qed.
Lemma wp_wr_info t i (Q : unit → kernel → Prop) k : Q tt (put_infos (<[t := i]> (k_info k)) k) → wp (wr_info t i) Q k.
Proof. intros HQ. unfold wr_info. by wp_step. Qed.
Lemma wp_upd_tinfo t i f (Q : unit → kernel → Prop) k : k_info k !! t = Some i → Q tt (put_infos (<[t := f i]> (k_info k)) k) →
  wp (upd_info t f) Q k.
Proof. intros H HQ. unfold upd_info. wp_step. eapply wp_rd_info; [exact H|]. by apply wp_wr_info. Qed.

Lemma kpages_words s B w : kpages s B → kpages (with_words w s) B.
Proof. by intros []. Qed.

(** The control block and the information of a thread that [kernel_clone] makes. *)
Definition thread_tcb (p : Z) (c : tcb_t) : tcb_t :=
  Tcb p TASK_RUNNING (priority c) TIME_SLICE_LENGTH (<[0%nat := 0]> (raw_name raw)) 0 spinlock_init.

Lemma wp_clone_thread k L B cur c i p mp : kernel_ok k L B → (∃ y o, B !! y = Some (o, 0)) →
  tcbs (k_sched k) !! cur = Some c → k_info k !! cur = Some i →
  pid_given (k_sched k) p mp →
  wp (kernel_clone raw syscall_ret cur 0) (λ t k', ∃ x m B', t = page_va (k_slabs k) x ∧ page_free B x ∧
    kpages m B' ∧ kpage m B' x ∧ kframe (k_slabs k) m x ∧ (∀ y, page_free B' y → page_free B y ∧ y ≠ x) ∧
    let s := k_sched k in
    k' = Kernel (with_tcbs (<[t := thread_tcb p c]> (tcbs s))
           (Sched.with_heap (<[Run t := raw_node raw]> (s_heap s)) (with_map (mp t) s)))
         m (k_mms k) (k_files k) (<[t := TaskInfo t (ti_cwd i) 0 0 0]> (k_info k)) (k_esp0 k)) k.
Proof.
  intros H Hfree Hc Hi Hpid. unfold kernel_clone. wp_step. apply wp_on_kmem. change PAGE_SIZE with 4096.
  eapply wp_mono; [by apply (wp_kmalloc_page _ B), Hfree; apply H|].
  intros t m (x & B' & -> & Hx & Hfx & Hm & Hpg & _ & Hfa & _ & Hfr). set (t := page_va (k_slabs k) x).
  wp_step. apply wp_assertk. split.
  { apply truth_true. pose proof (kp_pos _ _ (ko_mem _ _ _ H)). unfold t, page_va, page_pa, KERNEL_START. lia. }
  wp_step. apply wp_on_sched. apply Hpid.
  wp_step. apply wp_on_sched. eapply wp_rd_tcb; [exact Hc|]. wp_step. eapply wp_rd_info; [exact Hi|].
  unfold task_fill. wp_step. wp_step. apply wp_on_sched. wp_step. wp_step. apply wp_on_sched. wp_step. apply wp_wr_info.
  change (truth (Z.land 0 CLONE_FILE)) with false. change (truth (Z.land 0 CLONE_MM)) with false.
  change (truth (Z.land 0 CLONE_KERNEL_STACK)) with false. unfold when. do 6 wp_step.
  wp_step. apply wp_on_sched. eapply wp_upd_tcb; [apply lookup_insert_eq|]. wp_step.
  exists x, m, B'. split_and!; [done|done|done|done|done|done|].
  cbn. unfold put_sched, put_infos, put_kmem. cbn. rewrite insert_insert_eq. done.
Qed.

(** The words [switch_to] will pop for a new thread. *)
Definition thread_frame (m : gmap Z Z) (a worker args : Z) : Prop :=
  m !! a = Some 0 ∧ m !! (a + 4) = Some worker ∧ m !! (a + 8) = Some args ∧ m !! (a + 20) = Some thread_entry.

(** A thread has been made, with the pid [tid] and the table [mp]. *)
Definition thread_made k L B c l (mp : Z → list Z) worker args (tid : Z) k' : Prop := ∃ x B', let t := page_va (k_slabs k) x in
    page_free B x ∧ B' !! x = Some (0, 1) ∧
    kernel_ok k' (<[RunQ (priority c) := l ++ [t]]> L) B' ∧
    tcbs (k_sched k) !! t = None ∧ tcbs (k_sched k') = <[t := thread_tcb tid c]> (tcbs (k_sched k)) ∧
    taskMap (k_sched k') = mp t ∧ cur_task (k_sched k') = cur_task (k_sched k) ∧
    (∃ i, k_info k' !! t = Some i ∧ ti_open i = 0 ∧ ti_context i = t + 4072 ∧
       thread_frame (words (k_slabs k')) (ti_context i) worker args) ∧
    ∀ a, ¬ (t ≤ a < t + 4096) → words (k_slabs k') !! a = words (k_slabs k) !! a.

Lemma wp_kthread_create k L B c l r mp worker args : kernel_ok k L B → (∃ y o, B !! y = Some (o, 0)) →
  tcbs (k_sched k) !! cur_task (k_sched k) = Some c → L !! RunQ (priority c) = Some l →
  pid_given (k_sched k) r mp → (∀ t, length (mp t) = 1024%nat) →
  wp (kthread_create raw thread_entry syscall_ret worker args) (λ tid k', tid = r ∧ thread_made k L B c l mp worker args tid k') k.
Proof.
  intros H Hfree Hc El Hpid Hlen. destruct (ko_info _ _ _ H _ _ Hc) as [i Hi]. unfold kthread_create, cur_tcb. do 5 wp_step.
  eapply wp_mono; [exact (wp_clone_thread k L B _ c i r mp H Hfree Hc Hi Hpid)|]. intros t k1 (x & m & B' & -> & Hfx & Hm & Hpg & Hfr & Hfa & ->).
  set (t := page_va (k_slabs k) x). set (s1 := with_tcbs _ _).
  assert (tcbs (k_sched k) !! t = None) as Hnt.
  { destruct (tcbs (k_sched k) !! t) as [c'|] eqn:E; [|done]. by destruct (ko_pages _ _ _ H t c' x E Hfx). }
  assert (Z.land t PAGE_MASK = 0) as Hal by apply (va_aligned _ _ (kp_area _ _ (ko_mem _ _ _ H))).
  set (a := t + STACK_SIZE - sizeof_context). assert (a = t + 4072) as Ea by (unfold a, STACK_SIZE, PAGE_SIZE, sizeof_context; lia). clearbody a.
  wp_step. apply wp_on_kmem. unfold set_eflags, set_ebx, set_ebp, set_eip, wr_word. do 7 wp_step.
  wp_step. eapply wp_upd_tinfo; [apply lookup_insert_eq|]. wp_step. apply wp_on_sched. eapply wp_rd_tcb; [apply lookup_insert_eq|].
  wp_step. apply wp_on_sched. cbn [k_sched put_sched put_infos put_kmem].
  pose proof (ko_sched _ _ _ H) as Hs. pose proof (si_base _ _ (proj1 Hs)) as Hb. destruct (si_node _ _ Hb _ _ Hc) as (_ & Hpr & _).
  assert (sched_base L (with_map (mp t) (k_sched k))) as Hb1 by (split; apply Hb).
  pose proof (base_new L _ t (thread_tcb r c) (raw_node raw) Hb1 Hnt Hal Hpr eq_refl) as Hb2.
  eapply (wp_sched_task_add L t (thread_tcb r c) l); [apply Hb2|apply lookup_insert_eq|exact El| |by cbn; apply lookup_insert_is_Some'; left|apply Hb2|apply Hb2|].
  { intros hd l' El' Hin. destruct (si_placed _ _ Hb _ _ _ El' Hin) as (c' & Ec & _). congruence. }
  intros h' HL' Ho. wp_step. split; [done|]. exists x, B'. fold t. split_and!; [done|apply Hpg| |done|done|done|done| |].
  - assert (sched_inv L (with_map (mp t) (k_sched k))) as Hs1 by (destruct Hs as [[? ? ?] ?]; by split).
    assert (∀ y, page_va m y = page_va (k_slabs k) y) as Ev by (intros y; unfold page_va, page_pa; by rewrite (kf_addr _ _ _ Hfr)).
    split; cbn.
    + exact (new_task_effect L _ t (thread_tcb r c) (raw_node raw) l h' Hs1 Hnt Hal Hpr eq_refl eq_refl El HL' Ho).
    + by do 4 apply kpages_words.
    + destruct (ko_map _ _ _ H). split; [done|apply Hlen].
    + intros u cu. rewrite insert_insert_eq, lookup_insert_Some, lookup_insert_is_Some'. intros [[<- _]|[_ Eu]]; [by left|right]. by eapply ko_info.
    + intros u cu y. rewrite lookup_insert_Some. unfold page_va, page_pa. cbn. fold (page_pa m y). fold (page_va m y). rewrite Ev.
      intros [[<- _]|[_ Eu]] Hy; destruct (Hfa y Hy) as [Hy1 Hne]; [|by eapply ko_pages]. unfold t, page_va, page_pa. lia.
  - eexists. cbn. rewrite insert_insert_eq, lookup_insert_eq. split_and!; [done|done|done|]. unfold thread_frame. cbn.
    by repeat (rewrite lookup_insert_eq || rewrite lookup_insert_ne by lia).
  - cbn. intros b Hb'. rewrite !lookup_insert_ne by lia. by rewrite (kf_words _ _ _ Hfr).
Qed.

(** C17: [kthread_create] while there is a free page and a free pid.  The thread has the
    lowest free pid, a page that was free, and the priority of its creator, at the end of
    whose queue it waits; its first switch enters [thread_entry] with the worker and its
    argument, interrupts off.  Nothing else changes: no other task, list, pid, or word
    of memory outside the page of the thread.  The invariants hold again. *)
Theorem kthread_create_correct k L B c l p worker args : kernel_ok k L B → (∃ y o, B !! y = Some (o, 0)) →
  tcbs (k_sched k) !! cur_task (k_sched k) = Some c → L !! RunQ (priority c) = Some l →
  (p < 1024)%nat → taskMap (k_sched k) !! p = Some 0 → (∀ q, (q < p)%nat → ∃ x, taskMap (k_sched k) !! q = Some x ∧ x ≠ 0) →
  wp (kthread_create raw thread_entry syscall_ret worker args) (λ tid k', tid = Z.of_nat p ∧
    thread_made k L B c l (λ t, <[p := t]> (taskMap (k_sched k))) worker args tid k') k.
Proof.
  intros H Hfree Hc El Hp Hp0 Hpq. destruct (ko_map _ _ _ H) as [Hl Hlen].
  apply wp_kthread_create; [exact H|exact Hfree|exact Hc|exact El| |intros t; by rewrite length_insert].
  intros t Q HQ. by apply (wp_alloc_pid t p).
Qed.

Lemma clean_pid0 k t c : tcbs (k_sched k) !! t = Some c → state c = TASK_ZOMBIE → pid c = 0 → map_lock (k_sched k) = Spinlock 0 →
  clean_task (Run t) k = Err Assert.
Proof.
  intros Ht Hs Hp Hl. unfold clean_task. destruct (Z.eqb_spec (Z.land t PAGE_MASK) 0) as [Hal|Hal].
  2: { apply bind_Err. unfold on_sched, zoom, tcb_entry. by rewrite (proj2 (Z.eqb_neq _ _) Hal). }
  apply bind_wp_Err. apply wp_on_sched. unfold tcb_entry. wp_step. apply wp_assertk. split; [by apply Z.eqb_eq|]. wp_step. eapply wp_rd_tcb; [exact Ht|]. wp_step.
  apply bind_wp_Err. apply wp_on_sched. eapply wp_rd_tcb; [exact Ht|]. rewrite Hs. apply bind_wp_Err. apply wp_assertk. split; [done|].
  apply bind_Err. unfold on_sched, zoom, free_pid. cbn [k_sched put_sched]. rewrite Hp.
  rewrite (bind_wp_Err _ _ Assert); [done|]. apply wp_take_lock; [done|]. done.
Qed.

(** When all 1024 pids are in use [alloc_pid] answers 0, which [kernel_clone] does not
    notice: the thread is made and gets the pid 0 of the first task, and the cleaner
    panics on it once it has ended. *)
Theorem pid_exhausted_panics k L B c l worker args : kernel_ok k L B → (∃ y o, B !! y = Some (o, 0)) →
  tcbs (k_sched k) !! cur_task (k_sched k) = Some c → L !! RunQ (priority c) = Some l →
  (∀ q, (q < 1024)%nat → ∃ x, taskMap (k_sched k) !! q = Some x ∧ x ≠ 0) →
  wp (kthread_create raw thread_entry syscall_ret worker args) (λ tid k', tid = 0 ∧
    thread_made k L B c l (λ _, taskMap (k_sched k)) worker args tid k' ∧
    ∀ k2 t c2, tcbs (k_sched k2) !! t = Some c2 → pid c2 = tid → state c2 = TASK_ZOMBIE → map_lock (k_sched k2) = Spinlock 0 →
      clean_task (Run t) k2 = Err Assert) k.
Proof.
  intros H Hfree Hc El Hq. destruct (ko_map _ _ _ H) as [Hl Hlen].
  eapply wp_mono; [apply wp_kthread_create; [exact H|exact Hfree|exact Hc|exact El| |intros t; exact Hlen]|].
  { intros t Q HQ. apply wp_alloc_pid_full; [done|done|]. by destruct (k_sched k). }
  intros tid k' [-> Hm]. split_and!; [done|done|]. intros k2 t c2 Ht Hp Hz Hk. by apply (clean_pid0 k2 t c2).
Qed.

(** ** The cleaner *)

(** A thread that has ended: it has the pid [p] and lives in the page [x], and it has
    neither an address space nor open files.  The page was never a slab: the allocator
    does not clear that flag. *)
Record finished k (B : blocks) (t : Z) (p : nat) (x : Z) : Prop := Finished {
  fi_tcb : ∃ c, tcbs (k_sched k) !! t = Some c ∧ state c = TASK_ZOMBIE ∧ task_mm c = 0 ∧ pid c = Z.of_nat p;
  fi_pid : p ≠ 0%nat ∧ t ≠ 0 ∧ taskMap (k_sched k) !! p = Some t;
  fi_info : ∃ i, k_info k !! t = Some i ∧ ti_open i = 0 ∧ ti_stack i = t;
  fi_page : t = page_va (k_slabs k) x ∧ 0 ≤ x < pageCnt (bud (vmm (k_slabs k))) ∧ kpage (k_slabs k) B x;
  fi_slab : ∀ q, pages (bud (vmm (k_slabs k))) !! x = Some q → is_slab q = false }.

Lemma wp_free_pid s p t (Q : unit → sched → Prop) : map_lock s = Spinlock 0 → p ≠ 0%nat → t ≠ 0 → taskMap s !! p = Some t →
  Q tt (with_map (<[p := 0]> (taskMap s)) s) → wp (free_pid (Z.of_nat p)) Q s.
Proof.
  intros Hl Hp Ht Hm HQ. unfold free_pid, map_get. wp_step. apply wp_take_lock; [done|]. wp_step.
  apply wp_assertk. split; [rewrite (proj2 (Z.eqb_neq _ 0)); [done|lia]|]. do 3 wp_step. rewrite (proj2 (Z.ltb_ge _ 0)), Nat2Z.id by lia.
  wp_step; [exact Hm|]. wp_step. apply wp_assertk. split; [by rewrite (proj2 (Z.eqb_neq t 0))|]. do 2 wp_step. apply wp_drop_lock.
  rewrite ?Nat2Z.id. cbn. destruct s. cbn in *. by subst.
Qed.

Lemma wp_clean_task k B t p x : finished k B t p x → kpages (k_slabs k) B → map_lock (k_sched k) = Spinlock 0 → aligned (tcbs (k_sched k)) →
  wp (clean_task (Run t)) (λ _ k', ∃ m B', kpages m B' ∧ in_use B' = delete x (in_use B) ∧
    (∀ y o r, y ≠ x → B !! y = Some (o, r) → r ≠ 0 → pages (bud (vmm m)) !! y = pages (bud (vmm (k_slabs k))) !! y) ∧
    kframe (k_slabs k) m x ∧
    let s := k_sched k in
    k' = Kernel (Sched.with_heap (delete (Run t) (s_heap s)) (with_tcbs (delete t (tcbs s)) (with_map (<[p := 0]> (taskMap s)) s)))
           m (k_mms k) (k_files k) (delete t (k_info k)) (k_esp0 k)) k.
Proof.
  intros [(c & Ec & Sc & Mc & Pc) (Hp & Ht & Hpt) (i & Ei & Oi & Si) (Et & Hx & Hkp) Hns] Hm Hl Ha. unfold clean_task.
  wp_step. apply wp_on_sched. eapply wp_tcb_entry; [exact Ha|exact Ec|]. wp_step. apply wp_on_sched. eapply wp_rd_tcb; [exact Ec|].
  wp_step. apply wp_assertk. rewrite Sc, Pc, Mc. split; [done|]. wp_step. apply wp_on_sched. eapply wp_free_pid; [done|exact Hp|exact Ht|exact Hpt|].
  wp_step. eapply wp_rd_info; [exact Ei|]. rewrite Oi, Si. change (truth 0) with false. unfold when. do 4 wp_step.
  wp_step. apply wp_on_kmem. cbn [put_sched k_slabs k_sched]. rewrite Et at 1. eapply wp_mono; [by apply (wp_kfree_page _ B x)|].
  intros [] m (B' & H1 & H2 & H3 & H4). wp_step. apply wp_on_sched. do 2 wp_step. exists m, B'. split_and!; try done.
Qed.

(** Cleaning [t] leaves another thread that has ended as it is. *)
Lemma finished_other k B t p x u q y m B' : finished k B t p x → finished k B u q y → u ≠ t → area_ok (bud (vmm (k_slabs k))) →
  in_use B' = delete x (in_use B) →
  (∀ z o r, z ≠ x → B !! z = Some (o, r) → r ≠ 0 → pages (bud (vmm m)) !! z = pages (bud (vmm (k_slabs k))) !! z) →
  kframe (k_slabs k) m x →
  let s := k_sched k in
  finished (Kernel (Sched.with_heap (delete (Run t) (s_heap s)) (with_tcbs (delete t (tcbs s)) (with_map (<[p := 0]> (taskMap s)) s)))
           m (k_mms k) (k_files k) (delete t (k_info k)) (k_esp0 k)) B' u q y.
Proof.
  intros [_ (_ & _ & P1) _ (Et & _) _] [T2 (Q0 & U0 & P2) I2 (Eu & Hy & [K1 K2 K3]) S2] Hne Ha EU Hpg [Fa Fc _ _ _ Fk].
  assert (x ≠ y) as Hxy by (intros ->; congruence). assert (p ≠ q) as Hpq by (intros ->; congruence).
  assert (∀ z, page_pa m z = page_pa (k_slabs k) z) as Epa by (intros z; unfold page_pa; by rewrite Fa).
  pose proof (Hpg y 0 1 ltac:(done) K1 ltac:(done)) as Ey.
  split; cbn; [by rewrite lookup_delete_ne|by rewrite list_lookup_insert_ne|by rewrite lookup_delete_ne| |by rewrite Ey].
  unfold page_va. rewrite Epa, Fc. split_and!; [done|lia|lia|]. split.
  - assert (in_use B' !! y = Some (0, 1)) as [? _]%in_use_Some by (rewrite EU, lookup_delete_ne by done; by apply in_use_Some). done.
  - rewrite Epa, Fk; [done|]. rewrite !pa_div by done. lia.
  - rewrite Ey. unfold page_va. by rewrite Epa.
Qed.

(** The threads [zs], with their pids and pages, are gone; nothing else has changed. *)
Record cleaned k (B : blocks) (zs : list (Z * nat * Z)) k' (B' : blocks) : Prop := Cleaned {
  cl_rest : k' = Kernel (Sched.with_heap (s_heap (k_sched k')) (with_tcbs (tcbs (k_sched k')) (with_map (taskMap (k_sched k')) (k_sched k))))
              (k_slabs k') (k_mms k) (k_files k) (k_info k') (k_esp0 k);
  cl_heap : ∀ n, (∀ z, z ∈ zs → n ≠ Run z.1.1) → s_heap (k_sched k') !! n = s_heap (k_sched k) !! n;
  cl_tcbs : ∀ t, tcbs (k_sched k') !! t = if decide (t ∈ zs.*1.*1) then None else tcbs (k_sched k) !! t;
  cl_info : ∀ t, k_info k' !! t = if decide (t ∈ zs.*1.*1) then None else k_info k !! t;
  cl_pids : ∀ q, taskMap (k_sched k') !! q = if decide (q ∈ zs.*1.*2) then Some 0 else taskMap (k_sched k) !! q;
  cl_mem : kpages (k_slabs k') B';
  cl_pages : ∀ y, in_use B' !! y = if decide (y ∈ zs.*2) then None else in_use B !! y;
  cl_addr : a_addr (bud (vmm (k_slabs k'))) = a_addr (bud (vmm (k_slabs k))) ∧
            pageCnt (bud (vmm (k_slabs k'))) = pageCnt (bud (vmm (k_slabs k)));
  cl_words : words (k_slabs k') = words (k_slabs k) }.

Definition clean_round (hdr : snode) : M (@kernel F) (snode + unit) :=
  if decide (hdr = FinishList) then mret (inr tt)
  else next ← on_sched (on_hp (get_next hdr)); clean_task hdr;; mret (inl next).

Definition first_node (zs : list (Z * nat * Z)) : snode := match zs with [] => FinishList | (t, _, _) :: _ => Run t end.

Lemma cleaned_cons k B t p x zs k1 B1 k' B' m :
  k1 = Kernel (Sched.with_heap (delete (Run t) (s_heap (k_sched k))) (with_tcbs (delete t (tcbs (k_sched k)))
         (with_map (<[p := 0]> (taskMap (k_sched k))) (k_sched k)))) m (k_mms k) (k_files k) (delete t (k_info k)) (k_esp0 k) →
  finished k B t p x → in_use B1 = delete x (in_use B) → kframe (k_slabs k) m x → cleaned k1 B1 zs k' B' → cleaned k B ((t, p, x) :: zs) k' B'.
Proof.
  intros -> [_ (_ & _ & Hp) _ _ _] EU [Fa Fc Fw _ _ _] [C1 C2 C3 C4 C5 C6 C7 [C8 C8'] C9]. cbn in *.
  split; cbn.
  - rewrite C1 at 1. cbn. reflexivity.
  - intros n Hn. rewrite C2, lookup_delete_ne; [done|symmetry; by apply (Hn (t, p, x)); left|]. intros z Hz. apply Hn. by right.
  - intros u. rewrite C3. destruct (decide (u = t)) as [->|]; [rewrite lookup_delete_eq, (decide_True (P := t ∈ t :: _)) by set_solver; by case_decide|].
    rewrite lookup_delete_ne by done. do 2 case_decide; set_solver.
  - intros u. rewrite C4. destruct (decide (u = t)) as [->|]; [rewrite lookup_delete_eq, (decide_True (P := t ∈ t :: _)) by set_solver; by case_decide|].
    rewrite lookup_delete_ne by done. do 2 case_decide; set_solver.
  - intros q. rewrite C5. destruct (decide (q = p)) as [->|].
    + rewrite list_lookup_insert_eq, (decide_True (P := p ∈ p :: _)) by (by eapply lookup_lt_Some || set_solver). by case_decide.
    + rewrite list_lookup_insert_ne by done. do 2 case_decide; set_solver.
  - done.
  - intros y. rewrite C7, EU. destruct (decide (y = x)) as [->|]; [rewrite lookup_delete_eq, (decide_True (P := x ∈ x :: _)) by set_solver; by case_decide|].
    rewrite lookup_delete_ne by done. do 2 case_decide; set_solver.
  - split; congruence.
  - congruence.
Qed.

Lemma wp_clean_loop zs : ∀ n k B, (length zs < n)%nat → NoDup zs.*1.*1 → kpages (k_slabs k) B → map_lock (k_sched k) = Spinlock 0 → aligned (tcbs (k_sched k)) →
  (∀ t p x, (t, p, x) ∈ zs → finished k B t p x) → chain (s_heap (k_sched k)) ((Run <$> zs.*1.*1) ++ [FinishList]) →
  wp (loop n clean_round (first_node zs)) (λ _ k', ∃ B', cleaned k B zs k' B') k.
Proof.
  induction zs as [|[[t p] x] zs IH]; intros n k B Hn Hnd Hm Hl Ha Hf Hch; (destruct n as [|n]; [cbn in Hn; lia|]); cbn [loop first_node].
  { wp_step. unfold clean_round at 1. case_decide as E; [|done]. do 2 wp_step. exists B. split; try done; by destruct k as [[]]. }
  cbn in Hnd. apply NoDup_cons in Hnd as [Ht Hnd]. pose proof (Hf t p x ltac:(by left)) as Hft.
  assert (nx (s_heap (k_sched k)) (Run t) = Some (first_node zs) ∧ chain (s_heap (k_sched k)) ((Run <$> zs.*1.*1) ++ [FinishList])) as [Hnx Hch'].
  { destruct zs as [|[[u q] y] zs]; cbn in *; [split; [tauto|done]|]. tauto. }
  wp_step. unfold clean_round at 1. case_decide as E; [done|]. wp_step. apply wp_on_sched, wp_on_hp. eapply wp_get_next; [exact Hnx|].
  wp_step. rewrite with_heap_eta. assert (put_sched (k_sched k) k = k) as -> by (by destruct k).
  eapply wp_mono; [by apply (wp_clean_task k B t p x)|]. intros [] k1 (m & B1 & M1 & M2 & M3 & M4 & Ek). wp_step.
  eapply wp_mono; [apply (IH n k1 B1)|].
  - cbn in Hn. lia.
  - done.
  - by rewrite Ek.
  - by rewrite Ek.
  - rewrite Ek. intros u cu. simpl. rewrite lookup_delete_Some. intros [_ Eu]. by eapply Ha.
  - intros u q y Hin. rewrite Ek. eapply (finished_other k B t p x); try done; [by apply Hf; right| |apply Hm].
    intros ->. apply Ht. apply list_elem_of_fmap. exists (t, q). split; [done|]. apply list_elem_of_fmap. by exists (t, q, y).
  - rewrite Ek. cbn. eapply chain_ext; [| |exact Hch']; intros n' Hn'; unfold nx, pv; (rewrite lookup_delete_ne; [done|]); intros <-.
    + rewrite removelast_last in Hn'. by apply run_elem in Hn'.
    + assert (Run t ∈ (Run <$> zs.*1.*1) ++ [FinishList]) as Hin by (destruct zs as [|[[u q] y] zs]; cbn in *; set_solver).
      apply elem_of_app in Hin as [Hin|Hin]; [by apply run_elem in Hin|by apply list_elem_of_singleton in Hin].
  - intros _ k' (B' & Hc). exists B'. by eapply (cleaned_cons k B t p x zs k1 B1 k' B' m).
Qed.

Lemma cleaned_length k (zs : list (Z * nat * Z)) m : (∀ q, m !! q = if decide (q ∈ zs.*1.*2) then Some 0 else taskMap (k_sched k) !! q) →
  length (taskMap (k_sched k)) = 1024%nat → (∀ t p x, (t, p, x) ∈ zs → p ≠ 0%nat ∧ t ≠ 0 ∧ taskMap (k_sched k) !! p = Some t) →
  length m = 1024%nat.
Proof.
  intros Hm <- Hf. assert (∀ q, is_Some (m !! q) ↔ is_Some (taskMap (k_sched k) !! q)) as Hq.
  { intros q. rewrite Hm. case_decide as Hin; [|done]. apply list_elem_of_fmap in Hin as ([t p] & -> & Hin).
    apply list_elem_of_fmap in Hin as ([[t' p'] x] & [= -> ->] & Hin). destruct (Hf _ _ _ Hin) as (_ & _ & E). cbn. rewrite E. split; eauto. }
  setoid_rewrite lookup_lt_is_Some in Hq. pose proof (Hq (length m)). pose proof (Hq (length (taskMap (k_sched k)))). lia.
Qed.

Lemma cleaned_free s s' B B' zs x : kpages s B → kpages s' B' → pageCnt (bud (vmm s')) = pageCnt (bud (vmm s)) →
  (∀ y, in_use B' !! y = if decide (y ∈ zs.*2) then None else in_use B !! y) →
  (∀ (t : Z) (p : nat) y, (t, p, y) ∈ zs → t = page_va s y ∧ 0 ≤ y < pageCnt (bud (vmm s)) ∧ kpage s B y) →
  page_free B' x → page_free B x ∨ x ∈ zs.*2.
Proof.
  intros H H' En EU Hz Hx. destruct (decide (x ∈ zs.*2)) as [|Hn]; [by right|left].
  destruct (kp_inv _ _ H) as (_ & _ & HT & _), (kp_inv _ _ H') as (_ & _ & HT' & _). rewrite En in HT'.
  apply (page_free_iff _ _ x HT') in Hx as [Hx Hu]. apply (page_free_iff _ _ x HT). split; [done|]. intros i o r Hi Hin.
  apply (Hu i o r); [|done]. rewrite EU, decide_False; [done|]. intros ([[t p] y] & -> & Hy)%list_elem_of_fmap.
  destruct (Hz _ _ _ Hy) as (_ & _ & [Hb _ _]). cbn in *. apply in_use_Some in Hi as [Hi _]. rewrite Hb in Hi. injection Hi as <- <-.
  change (2 ^ 0) with 1 in Hin. apply Hn. apply list_elem_of_fmap. exists (t, p, y). split; [cbn; lia|done].
Qed.

Lemma wp_clean_tasks k L B zs n : lists (s_heap (k_sched k)) L → L !! FinishList = Some zs.*1.*1 → (length zs < n)%nat →
  kpages (k_slabs k) B → map_lock (k_sched k) = Spinlock 0 → aligned (tcbs (k_sched k)) → (∀ t p x, (t, p, x) ∈ zs → finished k B t p x) →
  wp (clean_tasks n) (λ _ k', ∃ B', cleaned k B zs k' B') k.
Proof.
  intros HL Ef Hn Hm Hl Ha Hf. destruct (proj1 HL _ _ Ef) as [_ Hdl]. pose proof (lists_nodup _ _ _ _ HL Ef) as Hnd.
  unfold clean_tasks. wp_step. apply wp_on_sched, wp_on_hp. eapply wp_get_next; [by eapply dl_head_next|].
  rewrite with_heap_eta. assert (put_sched (k_sched k) k = k) as -> by (by destruct k).
  assert (default FinishList (head (Run <$> zs.*1.*1)) = first_node zs) as -> by (by destruct zs as [|[[? ?] ?] ?]).
  apply wp_clean_loop; [done|done|done|done|done|done|]. destruct Hdl as [_ Hch]. cbn in Hch. destruct (Run <$> zs.*1.*1); [done|apply Hch].
Qed.

(** What is left when the list is clean and the cleaner sleeps satisfies the invariants. *)
Lemma cleaned_ok k L B zs k2 B2 L4 s4 : kernel_ok k L B → cleaned (put_sched (with_list_lock (Spinlock 1) (k_sched k)) k) B zs k2 B2 →
  (∀ t p x, (t, p, x) ∈ zs → finished k B t p x) → sched_inv L4 s4 → dom (tcbs s4) = dom (tcbs (k_sched k2)) →
  taskMap s4 = taskMap (k_sched k2) → map_lock s4 = Spinlock 0 → kernel_ok (put_sched s4 k2) L4 B2.
Proof.
  intros H [C1 C2 C3 C4 C5 C6 C7 [C8 C8'] C9] Hf Hs4 Hdom Em Eml.
  assert (∀ u, is_Some (tcbs s4 !! u) → (u ∉ zs.*1.*1) ∧ is_Some (tcbs (k_sched k) !! u)) as Hin4.
  { intros u. rewrite <-elem_of_dom, Hdom, elem_of_dom, C3. case_decide; [by intros []|done]. }
  split; cbn [k_sched put_sched k_slabs k_info].
  - done.
  - done.
  - rewrite Em, Eml. split; [done|]. apply (cleaned_length _ zs _ C5); [apply (ko_map _ _ _ H)|].
    intros t p x Hin. apply (Hf t p x Hin).
  - intros u cu Hu. destruct (Hin4 u ltac:(eauto)) as [Hnu [c' Hc']]. rewrite C4, decide_False by done. by eapply (ko_info _ _ _ H).
  - intros u cu x Hu Hx ->. destruct (Hin4 _ ltac:(eauto)) as [Hnu [c' Hc']]. assert (page_va (k_slabs k2) x = page_va (k_slabs k) x) as Ev
      by (unfold page_va, page_pa; by rewrite C8). rewrite Ev in *.
    destruct (cleaned_free (k_slabs k) (k_slabs k2) B B2 zs x (ko_mem _ _ _ H) C6 C8' C7) as [Hx'|Hx']; [|done|by eapply (ko_pages _ _ _ H)|].
    { intros t p y Hin. apply (Hf t p y Hin). }
    apply list_elem_of_fmap in Hx' as ([[t p] y] & -> & Hin). apply Hnu. cbn. destruct (Hf t p y Hin) as [_ _ _ [<- _] _].
    apply list_elem_of_fmap. exists (t, p). split; [done|]. apply list_elem_of_fmap. by exists (t, p, y).
Qed.

(** The round up to the call of [task_sleep]. *)
Lemma wp_clean_list k L B zs (Q : unit → kernel → Prop) : kernel_ok k L B → L !! FinishList = Some zs.*1.*1 → (∀ t p x, (t, p, x) ∈ zs → finished k B t p x) →
  (∀ k2 B2 s3, cleaned (put_sched (with_list_lock (Spinlock 1) (k_sched k)) k) B zs k2 B2 → sched_inv (<[FinishList := []]> L) s3 →
     (∃ h, s3 = with_list_lock (Spinlock 0) (Sched.with_heap h (k_sched k2))) →
     wp (_ ← on_sched (task_sleep None None); mret tt) Q (put_sched s3 k2)) →
  wp cleaner_worker Q k.
Proof.
  intros H Ef Hf HQ. pose proof (ko_sched _ _ _ H) as Hs. pose proof (si_base _ _ (proj1 Hs)) as Hb.
  unfold cleaner_worker. wp_step. apply wp_on_sched. apply wp_take_lock; [apply Hb|]. do 3 wp_step.
  set (k1 := put_sched (with_list_lock (Spinlock 1) (k_sched k)) k) in *. destruct (ko_map _ _ _ H) as [Hml Hlen].
  destruct (si_lists _ _ Hb) as [HL Hdis]. destruct (HL _ _ Ef) as [_ Hdl].
  eapply wp_mono; [apply (wp_clean_tasks k1 L B zs); [done|done| |apply H|done|apply Hb|]|].
  { pose proof (dl_length_size _ _ _ Hdl) as Hsz. rewrite !length_fmap in Hsz. cbn. lia. }
  { intros t p x Hin. destruct (Hf t p x Hin). by split. }
  intros _ k2 (B2 & Hc). pose proof Hc as [C1 C2 C3 _ _ _ _ _ _]. wp_step. apply wp_on_sched, wp_on_hp.
  assert (s_heap (k_sched k2) !! FinishList = s_heap (k_sched k) !! FinishList) as Eh by (apply C2; by intros z _).
  eapply wp_mono; [apply wp_list_header_init; rewrite Eh; by eapply dl_mapped; [exact Hdl|left]|].
  intros [] h' [Hd' [_ Hk']]. wp_step. apply wp_on_sched, wp_drop_lock. cbn [k_sched put_sched].
  apply (HQ k2 B2 (with_list_lock (Spinlock 0) (Sched.with_heap h' (k_sched k2)))); [exact Hc| |by exists h'].
  set (s3 := with_list_lock (Spinlock 0) (Sched.with_heap h' (k_sched k2))).
  apply (finish_effect L (k_sched k) s3 zs.*1.*1 Hs Ef Hd'); try (unfold s3; rewrite C1; done).
  - intros n Hn Hz. cbn. rewrite Hk' by set_solver. apply C2. intros z Hin. apply Hz. apply list_elem_of_fmap. exists z.1. split; [done|].
    apply list_elem_of_fmap. by exists z.
  - unfold s3. rewrite C1. cbn. apply Hb.
Qed.

(** C18: One round of the cleaner while [finish_list] holds kernel threads that have ended:
    tasks without an address space and without open files.  Exactly their control blocks,
    pids and pages are free afterwards, the list is empty, and the cleaner sleeps at the
    head of the block list while the scheduler's choice runs.  All other control blocks
    (but for a reset of the priorities that is due), pids, pages and words of memory are as
    before; the invariants hold again. *)
Theorem cleaner_correct k L B zs c bl : let s := k_sched k in kernel_ok k L B → cur_task s ≠ idle_task s → tcbs s !! cur_task s = Some c →
  L !! BlockList = Some bl → L !! FinishList = Some zs.*1.*1 → (∀ t p x, (t, p, x) ∈ zs → finished k B t p x) →
  wp cleaner_worker (λ _ k', ∃ L' B', kernel_ok k' L' B' ∧
    L' !! FinishList = Some [] ∧ L' !! BlockList = Some (cur_task s :: bl) ∧ cur_task (k_sched k') = chosen (ready L s) s ∧
    (∀ t, tcbs (k_sched k') !! t =
       if decide (t ∈ zs.*1.*1) then None
       else if decide (t = cur_task s) then Some (demoted (set_state TASK_SLEEPING c)) else ready_tcb L s t) ∧
    (∀ q, taskMap (k_sched k') !! q = if decide (q ∈ zs.*1.*2) then Some 0 else taskMap s !! q) ∧
    (∀ y, in_use B' !! y = if decide (y ∈ zs.*2) then None else in_use B !! y) ∧
    words (k_slabs k') = words (k_slabs k)) k.
Proof.
  intros s H Hi Ec Eb Ef Hf. apply (wp_clean_list k L B zs); [done|done|done|]. intros k2 B2 s3 Hc Hs3 (h3 & E3).
  pose proof Hc as [C1 C2 C3 C4 C5 C6 C7 [C8 C8'] C9]. fold s in C1, C3. cbn [put_sched k_sched] in C1, C3.
  assert (cur_task s3 = cur_task s ∧ idle_task s3 = idle_task s ∧ tcbs s3 = tcbs (k_sched k2) ∧ taskMap s3 = taskMap (k_sched k2) ∧
    map_lock s3 = map_lock s ∧ reset_due s3 = reset_due s) as (Ecur & Eid & Etc & Emp & Elk & Edue).
  { rewrite E3. split_and!; try done; rewrite C1; done. }
  assert (cur_task s ∉ zs.*1.*1) as Hcur.
  { intros Hin. pose proof (ko_sched _ _ _ H) as [Hmid (c' & Ec' & Sc)]. destruct (si_placed _ _ (si_base _ _ Hmid) _ _ _ Ef Hin) as (c2 & Ec2 & P2). simpl in P2. fold s in Ec', Ec2. congruence. }
  wp_step. apply wp_on_sched. cbn [k_sched put_sched].
  destruct (wp_elim _ _ _ (sleep_effect (<[FinishList := []]> L) s3 c bl Hs3 ltac:(by rewrite Ecur, Eid)
    ltac:(by rewrite Ecur, Etc, C3, decide_False) ltac:(by rewrite lookup_insert_ne))) as (r & s4 & E4 & L4 & Hs4 & EB & EF & Ecur4 & Htc & Hr).
  eapply wp_intro; [exact E4|]. wp_step. pose proof (pres_task_sleep _ _ _ E4) as Ep. injection Ep as Em Eml.
  destruct Hr as (_ & _ & _ & _ & _ & _ & _ & Hdom & _). rewrite Etc in Hdom. destruct (ko_map _ _ _ H) as [Hml _]. fold s in Hml.
  exists L4, B2. split; [apply (cleaned_ok k L B zs k2 B2 L4 s4); try done; congruence|].
  destruct (ready_ext L (<[FinishList := []]> L) s s3) as [Ech Ert]; [intros i; by rewrite lookup_insert_ne|done|done|].
  cbn [k_sched put_sched k_slabs]. rewrite EF, lookup_insert_eq, EB, Ecur, Ecur4, Em, Emp. split_and!; [done|done|done| |exact C5|exact C7|exact C9].
  intros t. rewrite Htc, Ecur. destruct (decide (t = cur_task s)) as [->|Hne]; [by rewrite decide_False|].
  assert (tcbs s3 !! t = if decide (t ∈ zs.*1.*1) then None else tcbs s !! t) as Ht by (by rewrite Etc, C3).
  case_decide; [unfold ready_tcb; rewrite Ht; by destruct (_ && _)|by apply Ert].
Qed.
End kernel.
