(* ===== verification/ForkDemo.v ===== *)
(** * A small system of tasks

    The tasks at 0x1000 (running), 0x2000 (idle), 0x3000 (waiting) and 0x4000 (the cleaner, asleep), and a thread
    in the first of four pages that has ended.  The theorems of ForkCorrect are applied to
    it. *)

From S2P Require Import Prelude QLib Memory DList Locks Page PageAlloc BuddySpec PageAllocCorrect PageAllocInit PageAllocProps Vm Slab KPage Uvm Sched SchedCorrect FdHash Vfs Fork ForkCorrect.
From Stdlib Require Import ZArith Lia.
From stdpp Require Import base countable numbers gmap list.
Open Scope Z_scope.

#[local] Instance no_files : TaskFiles unit := {| tf_copy := mret; tf_recycle := λ o _, mret o; tf_find := mret |}.

Abbreviation ended := 0xc0100000.
Definition task_heap : gmap snode (list_head snode) :=
  list_to_map ([alone (RunQ 0); alone (RunQ 1); alone (RunQ 3); alone (Run 0x1000); alone (Run 0x2000)] ++
    ring2 (RunQ 2) (Run 0x3000) ++ ring2 BlockList (Run 0x4000) ++ ring2 FinishList (Run ended)).
Definition task_lists : gmap snode (list Z) :=
  list_to_map [(RunQ 0, []); (RunQ 1, []); (RunQ 2, [0x3000]); (RunQ 3, []); (FinishList, [ended]); (BlockList, [0x4000])].
Definition task_tcbs : gmap Z tcb_t :=
  list_to_map [(0x1000, mk_tcb 0 TASK_RUNNING 3); (0x2000, mk_tcb 1 TASK_RUNNING 0); (0x3000, mk_tcb 2 TASK_RUNNING 2);
               (0x4000, mk_tcb 3 TASK_SLEEPING 3); (ended, mk_tcb 4 TASK_ZOMBIE 1)].
Definition task_sys (mp : list Z) : sched :=
  Sched task_heap task_tcbs mp (Spinlock 0) (Spinlock 0) (Spinlock 0) 0x1000 0x2000 0x1000 0x4000 0 2000 ∅ (TimerPool [] 0 0) ∅ 0.

Definition pids : list Z := [0x1000; 0x2000; 0x3000; 0x4000; ended] ++ replicate 1019 0.
Definition all_pids : list Z := replicate 1024 1.

Definition page0_data : buddyAllocator :=
  match pages demo1 !! 0 with Some p => PageAlloc.with_pages (<[0 := put_data ended p]> (pages demo1)) demo1 | None => demo1 end.
Definition task_slabs : slabs :=
  Slabs (Vmem page0_data (list_to_map [(256, 0x100003); (257, 0); (258, 0); (259, 0)]) ∅ 0) ∅ (Spinlock 0) ∅.
Definition task_infos : gmap Z task_info :=
  list_to_map ((λ t, (t, TaskInfo t 0 0 0 0)) <$> [0x1000; 0x2000; 0x3000; 0x4000; ended]).
Definition task_kernel (mp : list Z) : kernel := Kernel (task_sys mp) task_slabs ∅ tt task_infos 0.

Lemma task_lists_ok : lists task_heap task_lists.
Proof.
  split.
  - intros hd l E. each_list E; (split; [done|]); (split; [repeat constructor; set_solver|]); vm_compute; repeat split.
  - intros h1 h2 l1 l2 t E1 E2 H1 H2. each_list E1; try (by apply not_elem_of_nil in H1); apply list_elem_of_singleton in H1 as ->;
      each_list E2; try done; try (by apply not_elem_of_nil in H2); by apply list_elem_of_singleton in H2.
Qed.

Lemma task_sys_inv mp : sched_inv task_lists (task_sys mp).
Proof.
  split; [split; [split|..]|].
  - exact task_lists_ok.
  - intros i Hi. assert (i = 0 ∨ i = 1 ∨ i = 2 ∨ i = 3) as [->|[->|[->| ->]]] by lia; vm_compute; eauto.
  - split; vm_compute; eauto.
  - intros hd l t E Ht. each_list E; try (by apply not_elem_of_nil in Ht); apply list_elem_of_singleton in Ht as ->;
      eexists; (split; [vm_compute; reflexivity|done]).
  - intros t c E. each_list E; (split_and!; [vm_compute; eauto|simpl; lia|simpl; lia|done]).
  - split; [|eexists; split; [vm_compute; reflexivity|done]]. intros hd l E Ht. each_list E; try (by apply not_elem_of_nil in Ht); by apply list_elem_of_singleton in Ht.
  - done.
  - intros t c E. each_list E; reflexivity.
  - eexists. split; [vm_compute; reflexivity|]. left. split; [done|]. intros hd l E Ht.
    each_list E; try (by apply not_elem_of_nil in Ht); by apply list_elem_of_singleton in Ht.
  - intros t c E. each_list E; [by left|by right; left|..]; right; right; left;
      [exists (RunQ 2), [0x3000]|exists BlockList, [0x4000]|exists FinishList, [ended]]; (split; [vm_compute; reflexivity|by left]).
  - eexists. split; [vm_compute; reflexivity|done].
Qed.

Lemma page0_addr : a_addr page0_data = 0x100000 ∧ pageCnt page0_data = 4.
Proof. split; vm_compute; reflexivity. Qed.
Lemma page0_desc : match pages page0_data !! 0 with Some p => (pg_data p =? ended) && negb (is_slab p) | None => false end = true.
Proof. vm_compute. reflexivity. Qed.
Lemma page0_inv : ∃ B, buddy_inv page0_data B ∧ B !! 0 = Some (0, 1) ∧ ∃ y o, B !! y = Some (o, 0).
Proof.
  destruct demo1_inv as (B & Hi & H0). exists B. split_and!; [|done|].
  - unfold page0_data. destruct (pages demo1 !! 0) eqn:E; [by apply buddy_inv_data|done].
  - destruct (alloc_spec demo1 B 4096 0 Hi good_4096) as [Hw|[E _]].
    + destruct (wp_elim _ _ _ Hw) as (x & s & _ & B2 & _ & _ & (o & _ & Ho) & _). by exists x, o.
    + assert (match __alloc_page 4096 demo1 with Ok _ => true | Err _ => false end = true) as C by (vm_compute; reflexivity). by rewrite E in C.
Qed.
#[local] Opaque page0_data.

Lemma page_free_not0 n B x : tiled n B → B !! 0 = Some (0, 1) → page_free B x → 0 < x < n.
Proof.
  intros HT H0 [Hx Hu]%(page_free_iff _ _ _ HT). assert (x ≠ 0); [|lia]. intros ->.
  apply (Hu 0 0 1); [by apply in_use_Some|]. change (2 ^ 0) with 1. lia.
Qed.

Lemma task_pa x : page_pa task_slabs x = 0x100000 + 4096 * x.
Proof. unfold page_pa. change (bud (vmm task_slabs)) with page0_data. by rewrite (proj1 page0_addr). Qed.

Lemma task_pages B : buddy_inv page0_data B → B !! 0 = Some (0, 1) → kpages task_slabs B.
Proof.
  intros Hi H0. destruct page0_addr as [Ea En]. split; change (bud (vmm task_slabs)) with page0_data.
  - done.
  - unfold area_ok. rewrite Ea, En. split; [done|]. split; [by exists 256|done].
  - by rewrite Ea.
  - rewrite task_pa, En. by vm_compute.
  - intros x Hx. rewrite task_pa. destruct Hi as (_ & _ & HT & _). apply (page_free_not0 _ _ _ HT H0) in Hx. rewrite En in Hx. clear - Hx.
    assert (x = 1 ∨ x = 2 ∨ x = 3) as [-> | [-> | ->]] by lia; exists 0; split; vm_compute; reflexivity.
Qed.

Lemma task_kernel_ok mp B : buddy_inv page0_data B → B !! 0 = Some (0, 1) → length mp = 1024%nat → kernel_ok (task_kernel mp) task_lists B.
Proof.
  intros Hi H0 Hl. pose proof (task_pages B Hi H0) as Hk. split.
  - apply task_sys_inv.
  - done.
  - by split.
  - intros t c E. each_list E; vm_compute; eauto.
  - intros t c x E Hx. destruct Hi as (_ & _ & HT & _). apply (page_free_not0 _ _ _ HT H0) in Hx. clear - Hx E.
    change (k_slabs (task_kernel mp)) with task_slabs. unfold page_va. rewrite task_pa. unfold KERNEL_START.
    each_list E; lia.
Qed.

Definition demo_raw_task : raw_task := RawTask (LH TimerHd TimerHd) (replicate 16 7) (Spinlock 5).

Lemma kthread_create_correct_witness :
  wp (kthread_create demo_raw_task 0xc0001000 0xc0002000 0xc0003000 0) (λ tid k', tid = 5) (task_kernel pids).
Proof.
  destruct page0_inv as (B & Hi & H0 & Hf). eapply wp_mono.
  - apply (kthread_create_correct demo_raw_task 0xc0001000 0xc0002000 (task_kernel pids) task_lists B (mk_tcb 0 TASK_RUNNING 3) [] 5 0xc0003000 0).
    + by apply task_kernel_ok.
    + exact Hf.
    + vm_compute. reflexivity.
    + vm_compute. reflexivity.
    + lia.
    + vm_compute. reflexivity.
    + intros q Hq. assert (q = 0 ∨ q = 1 ∨ q = 2 ∨ q = 3 ∨ q = 4)%nat as [-> | [-> | [-> | [-> | ->]]]] by lia; eexists; (split; [vm_compute; reflexivity|done]).
  - by intros tid k' [-> _].
Defined.

Lemma pid_exhausted_panics_witness :
  wp (kthread_create demo_raw_task 0xc0001000 0xc0002000 0xc0003000 0) (λ tid k', tid = 0) (task_kernel all_pids).
Proof.
  destruct page0_inv as (B & Hi & H0 & Hf). eapply wp_mono.
  - apply (pid_exhausted_panics demo_raw_task 0xc0001000 0xc0002000 (task_kernel all_pids) task_lists B (mk_tcb 0 TASK_RUNNING 3) [] 0xc0003000 0).
    + by apply task_kernel_ok.
    + exact Hf.
    + vm_compute. reflexivity.
    + vm_compute. reflexivity.
    + intros q Hq. exists 1. split; [by apply lookup_replicate_2|done].
  - by intros tid k' [-> _].
Defined.

Lemma ended_page B : B !! 0 = Some (0, 1) → kpage task_slabs B 0 ∧ ∀ q, pages page0_data !! 0 = Some q → is_slab q = false.
Proof.
  intros H0. pose proof page0_desc as Hd. split.
  - split; [exact H0|rewrite task_pa; vm_compute; reflexivity|]. change (bud (vmm task_slabs)) with page0_data.
    destruct (pages page0_data !! 0) as [q|]; [|discriminate Hd]. exists q. split; [reflexivity|].
    unfold page_va. rewrite task_pa. apply andb_prop in Hd as [Hd _]. apply Z.eqb_eq in Hd. rewrite Hd. reflexivity.
  - intros q Hq. rewrite Hq in Hd. apply andb_prop in Hd as [_ Hd]. by destruct (is_slab q).
Qed.

Lemma ended_finished B : B !! 0 = Some (0, 1) → finished (task_kernel pids) B ended 4 0.
Proof.
  intros H0. destruct (ended_page B H0) as [Hk Hs]. split.
  - exists (mk_tcb 4 TASK_ZOMBIE 1). clear. split_and!; vm_compute; reflexivity.
  - clear. split_and!; [discriminate|discriminate|vm_compute; reflexivity].
  - exists (TaskInfo ended 0 0 0 0). clear. split_and!; vm_compute; reflexivity.
  - change (k_slabs (task_kernel pids)) with task_slabs. split; [unfold page_va; rewrite task_pa; reflexivity|].
    split; [|exact Hk]. change (bud (vmm task_slabs)) with page0_data. rewrite (proj2 page0_addr). clear. lia.
  - exact Hs.
Qed.

Lemma cleaner_correct_witness : wp cleaner_worker (λ _ k', taskMap (k_sched k') !! 4%nat = Some 0 ∧ tcbs (k_sched k') !! ended = None) (task_kernel pids).
Proof.
  destruct page0_inv as (B & Hi & H0 & _). eapply wp_mono.
  - apply (cleaner_correct (task_kernel pids) task_lists B [(ended, 4%nat, 0)] (mk_tcb 0 TASK_RUNNING 3) [0x4000]).
    + by apply task_kernel_ok.
    + discriminate.
    + vm_compute. reflexivity.
    + vm_compute. reflexivity.
    + vm_compute. reflexivity.
    + intros t p x Hin. apply list_elem_of_singleton in Hin as [= -> -> ->]. by apply ended_finished.
  - intros _ k' (L' & B' & _ & _ & _ & _ & Ht & Hmap & _). split; [by rewrite Hmap|]. by rewrite Ht.
Defined.
