(* ===== verification/Ports.v ===== *)
(** * Ports, the old interrupt controllers and the old timer (drivers/pic.c, drivers/pit.c)

    A device on the ports is seen by what is written to it, newest first, and by its
    answers: [port_in n p] is its [n]-th answer, to a read of port [p]. *)

From S2P Require Import Prelude QLib.
From Stdlib Require Import ZArith Lia.
From stdpp Require Import base numbers list.
Open Scope Z_scope.

Record ports := Ports { p_reads : nat; p_out : list (Z * Z) }.

Definition outb (port value : Z) : M ports unit := modify (λ s, Ports (p_reads s) ((port, u8 value) :: p_out s)).
Definition io_wait : M ports unit := outb 0x80 0.
Definition outb_wait (port value : Z) : M ports unit := outb port value;; io_wait.

Definition PIC1_CMD : Z := 0x20.
Definition PIC2_CMD : Z := 0xa0.
Definition PIC1_DAT : Z := 0x21.
Definition PIC2_DAT : Z := 0xa1.
Definition PIC_EOI : Z := 0x20.
Definition ICW1_INIT : Z := Z.lor (Z.lor 1 (Z.shiftl 0 1)) (Z.shiftl 1 4).
Definition ICW4_8086 : Z := 1.

(** [pic2_offset] and [g_tick] are variables of the drivers. *)
Record legacy := Legacy { l_ports : ports; pic2_offset : Z; g_tick : Z }.
Definition legacy0 (p : ports) : legacy := Legacy p 40 0.
Definition on_ports {A} (m : M ports A) : M legacy A := zoom l_ports (λ p s, Legacy p (pic2_offset s) (g_tick s)) m.

Definition disable_pic : M ports unit := outb PIC1_CMD 0xff;; outb PIC2_CMD 0xff.
Definition pic1_eoi : M ports unit := outb PIC1_CMD PIC_EOI.
Definition pic2_eoi (pic_offset : Z) : M legacy unit :=
  s ← get;
  when (pic2_offset s <=? pic_offset) (on_ports (outb PIC2_CMD PIC_EOI));;
  on_ports (outb PIC1_CMD PIC_EOI).

Section devices.
Variable port_in : nat → Z → Z.

Definition inb (port : Z) : M ports Z := λ s, Ok (u8 (port_in (p_reads s) port), Ports (S (p_reads s)) (p_out s)).

Definition pic_init (offset1 offset2 : Z) : M legacy unit :=
  assertk (0x20 <=? offset1);;
  assertk (0x20 <=? offset2);;
  m1 ← on_ports (inb PIC1_DAT);
  m2 ← on_ports (inb PIC2_DAT);
  on_ports (outb_wait PIC1_CMD ICW1_INIT);;
  on_ports (outb_wait PIC2_CMD ICW1_INIT);;
  on_ports (outb_wait PIC1_DAT offset1);;
  on_ports (outb_wait PIC2_DAT offset2);;
  modify (λ s, Legacy (l_ports s) (u8 offset2) (g_tick s));;
  on_ports (outb_wait PIC1_DAT 4);;
  on_ports (outb_wait PIC2_DAT 2);;
  on_ports (outb_wait PIC1_DAT ICW4_8086);;
  on_ports (outb_wait PIC2_DAT ICW4_8086);;
  on_ports (outb PIC1_DAT m1);;
  on_ports (outb PIC2_DAT m2).
End devices.

(** ** The timer *)

Definition PIT_C0_DAT : Z := 0x40.
Definition PIT_CMD : Z := 0x43.
Definition PIT_OSC_FREQUENCY : Z := 1193182.
Definition PIT_TIMER_FREQUENCY : Z := 100.
Definition PIT_CHANNEL0 : Z := Z.shiftl 0 6.
Definition PIT_LH_MODE : Z := Z.shiftl 3 4.
Definition PIT_MODE3 : Z := Z.shiftl 3 1.
Definition PIT_BINARY_MODE : Z := 0.

Definition pit_init : M legacy unit :=
  modify (λ s, Legacy (l_ports s) (pic2_offset s) 0);;
  let divisor := PIT_OSC_FREQUENCY / PIT_TIMER_FREQUENCY in
  on_ports (outb PIT_CMD (Z.lor (Z.lor (Z.lor PIT_CHANNEL0 PIT_LH_MODE) PIT_MODE3) PIT_BINARY_MODE));;
  on_ports (outb PIT_C0_DAT (u8 (Z.land divisor (MASK_U32 8))));;
  on_ports (outb PIT_C0_DAT (u8 (Z.shiftr divisor 8))).

(** ** What the devices see *)

(** The values written to one port, oldest first. *)
Definition sent (port : Z) (s : ports) : list Z := (rev (filter (λ x, x.1 = port) (p_out s))).*2.

Lemma sent_here port v r o : sent port (Ports r ((port, v) :: o)) = sent port (Ports r o) ++ [v].
Proof. unfold sent. cbn [p_out]. rewrite filter_cons_True by done. cbn [rev]. by rewrite fmap_app. Qed.
Lemma sent_other port q v r o : q ≠ port → sent port (Ports r ((q, v) :: o)) = sent port (Ports r o).
Proof. intros H. unfold sent. cbn [p_out]. by rewrite filter_cons_False. Qed.
Lemma sent_reads port r r' o : sent port (Ports r o) = sent port (Ports r' o).
Proof. done. Qed.
(** Read off what was sent to a port, newest first. *)
Ltac sent_tac := repeat first [rewrite sent_here | rewrite sent_other by (unfold PIC1_CMD, PIC2_CMD, PIC1_DAT, PIC2_DAT, PIT_CMD, PIT_C0_DAT; lia)]; rewrite <-?app_assoc.

(** [s] behind the writes [l], newest first. *)
Definition wrote (l : list (Z * Z)) (s : legacy) : legacy := Legacy (Ports (p_reads (l_ports s)) (l ++ p_out (l_ports s))) (pic2_offset s) (g_tick s).
Lemma wp_outb port v l (Q : unit → legacy → Prop) s : Q tt (wrote ((port, u8 v) :: l) s) → wp (on_ports (outb port v)) Q (wrote l s).
Proof. done. Qed.
Lemma wp_outb_wait port v l (Q : unit → legacy → Prop) s : Q tt (wrote ((0x80, 0) :: (port, u8 v) :: l) s) → wp (on_ports (outb_wait port v)) Q (wrote l s).
Proof. done. Qed.
Lemma wp_inb port_in port (Q : Z → legacy → Prop) r o f t :
  Q (u8 (port_in r port)) (Legacy (Ports (S r) o) f t) → wp (on_ports (inb port_in port)) Q (Legacy (Ports r o) f t).
Proof. done. Qed.
Ltac out_tac := repeat (wp_step; first [apply wp_outb_wait | apply wp_outb]).

(** [pic_init] puts both controllers through the four words of their initialisation, in
    order, each with its own vector base and its place in the cascade, and then writes
    back the masks it read before. *)
Theorem pic_init_sequence port_in o1 o2 s : 0x20 ≤ o1 < 256 → 0x20 ≤ o2 < 256 →
  wp (pic_init port_in o1 o2) (λ _ s', pic2_offset s' = o2 ∧
    sent PIC1_CMD (l_ports s') = sent PIC1_CMD (l_ports s) ++ [ICW1_INIT] ∧
    sent PIC2_CMD (l_ports s') = sent PIC2_CMD (l_ports s) ++ [ICW1_INIT] ∧
    sent PIC1_DAT (l_ports s') = sent PIC1_DAT (l_ports s) ++ [o1; 4; 1; u8 (port_in (p_reads (l_ports s)) PIC1_DAT)] ∧
    sent PIC2_DAT (l_ports s') = sent PIC2_DAT (l_ports s) ++ [o2; 2; 1; u8 (port_in (S (p_reads (l_ports s))) PIC2_DAT)]) s.
Proof.
  intros H1 H2. unfold pic_init. wp_step. apply wp_assertk. split; [by apply Z.leb_le; lia|]. wp_step. apply wp_assertk. split; [by apply Z.leb_le; lia|].
  assert (u8 o1 = o1) as E1 by (unfold u8; rewrite Z.mod_small; [done|lia]). assert (u8 o2 = o2) as E2 by (unfold u8; rewrite Z.mod_small; [done|lia]).
  destruct s as [[r o] off t]. wp_step. apply wp_inb. wp_step. apply wp_inb. change (Legacy (Ports (S (S r)) o) off t) with (wrote [] (Legacy (Ports (S (S r)) o) off t)).
  out_tac. do 2 wp_step. match goal with |- wp _ _ (Legacy (l_ports (wrote ?l ?s0)) ?f ?g) => change (Legacy (l_ports (wrote l s0)) f g) with (wrote l (Legacy (Ports (S (S r)) o) (u8 o2) t)) end.
  out_tac. apply wp_outb. unfold wrote. cbn [l_ports p_out p_reads pic2_offset app]. split; [exact E2|]. assert (∀ z, u8 (u8 z) = u8 z) as Eu by (intros z; unfold u8; apply Zmod_mod). rewrite !Eu.
  generalize (u8 (port_in r PIC1_DAT)) (u8 (port_in (S r) PIC2_DAT)). intros x y.
  split_and!; sent_tac; rewrite (sent_reads _ (S (S r)) r), ?E1, ?E2; reflexivity.
Qed.

(** [disable_pic] writes to the command ports only: the masks of the controllers, which
    are written through the data ports, stay as they were. *)
Theorem disable_pic_masks s : wp disable_pic (λ _ s', sent PIC1_DAT s' = sent PIC1_DAT s ∧ sent PIC2_DAT s' = sent PIC2_DAT s ∧
  sent PIC1_CMD s' = sent PIC1_CMD s ++ [0xff]) s.
Proof.
  destruct s as [r o]. unfold wp, disable_pic, outb, modify, mbind, M_bind. cbn [p_reads p_out]. split_and!; by sent_tac.
Qed.

(** The two bytes [pit_init] sends are those of a divisor whose frequency is within one
    per thousand of the 100 Hz that are asked for. *)
Theorem pit_init_divisor s : wp pit_init (λ _ s', g_tick s' = 0 ∧ ∃ lo hi,
    sent PIT_C0_DAT (l_ports s') = sent PIT_C0_DAT (l_ports s) ++ [lo; hi] ∧ 0 ≤ lo < 256 ∧ 0 ≤ hi < 256 ∧
    999 * PIT_OSC_FREQUENCY ≤ 1000 * (PIT_TIMER_FREQUENCY * (lo + 256 * hi)) ≤ 1001 * PIT_OSC_FREQUENCY) s.
Proof.
  destruct s as [[r o] off t]. unfold pit_init. wp_step. wp_step. cbv zeta. change (Legacy (l_ports (Legacy (Ports r o) off t)) (pic2_offset (Legacy (Ports r o) off t)) 0) with (wrote [] (Legacy (Ports r o) off 0)).
  out_tac. apply wp_outb. split; [done|]. unfold wrote. cbn [l_ports p_out p_reads app]. exists (u8 (11931 mod 256)), (u8 (11931 / 256)). split; [by sent_tac|]. vm_compute. repeat split; congruence.
Qed.

Lemma pic_init_sequence_witness :
  wp (pic_init (λ n _, Z.of_nat n) 32 40) (λ _ s', sent PIC1_DAT (l_ports s') = [32; 4; 1; 0] ∧ sent PIC2_DAT (l_ports s') = [40; 2; 1; 1]) (legacy0 (Ports 0 [])).
Proof. eapply wp_mono; [apply (pic_init_sequence (λ n _, Z.of_nat n) 32 40); lia|]. intros _ s' (_ & _ & _ & -> & ->). split; reflexivity. Defined.
