(* ===== verification/BootInfo.v ===== *)
(** * Boot information (multiboot2.c and the symbol search of lib/qlib.c)

    The boot loader leaves a list of tags in memory, each with a type and a size and
    aligned to eight bytes; one of them holds the section headers of the kernel.
    [multiboot_init] walks the list, notes where the tags it needs are, and finds the
    symbol and the string table, in which [cur_func_name] looks up the function of an
    address.  Memory is bytes by virtual address, and is only read. *)

From S2P Require Import Prelude QLib Memory Vm.
From Stdlib Require Import ZArith Lia.
From stdpp Require Import base numbers gmap list.
Open Scope Z_scope.

Definition MULTIBOOT_TAG_TYPE_MMAP : Z := 6.
Definition MULTIBOOT_TAG_TYPE_ELF_SECTIONS : Z := 9.
Definition MULTIBOOT_TAG_TYPE_APM : Z := 10.
Definition MULTIBOOT_TAG_TYPE_ACPI_OLD : Z := 14.
Definition SHT_NULL : Z := 0.
Definition SHT_SYMTAB : Z := 2.
Definition SHT_STRTAB : Z := 3.
Definition STT_FUNC : Z := 2.

Definition sizeof_tag : Z := 8.
Definition sizeof_sh : Z := 40.
Definition sizeof_symbol : Z := 16.
Definition MB4 : Z := 4 * 0x100000.

(** Pointers that were never set are 0. *)
Record string_table := StringTable { st_addr : Z; st_len : Z }.
Record symbol_table := SymbolTable { sy_header : Z; sy_size : Z; sy_entry_size : Z }.
Record bootInfo := BootInfo {
  elf_symbols : Z; b_mmap : Z; b_apm : Z; shstrtab : string_table; strtab : string_table; symtab : symbol_table; rsdp : Z }.
Definition bInfo0 : bootInfo := BootInfo 0 0 0 (StringTable 0 0) (StringTable 0 0) (SymbolTable 0 0 0) 0.

Record boot := Boot { bt_mem : mem; bInfo : bootInfo }.
Definition on_bmem {A} (m : M mem A) : M boot A := zoom bt_mem (λ x b, Boot x (bInfo b)) m.
Definition upd_boot (f : bootInfo → bootInfo) : M boot unit := modify (λ b, Boot (bt_mem b) (f (bInfo b))).

Definition put_elf v (i : bootInfo) := BootInfo v (b_mmap i) (b_apm i) (shstrtab i) (strtab i) (symtab i) (rsdp i).
Definition put_mmap v (i : bootInfo) := BootInfo (elf_symbols i) v (b_apm i) (shstrtab i) (strtab i) (symtab i) (rsdp i).
Definition put_apm v (i : bootInfo) := BootInfo (elf_symbols i) (b_mmap i) v (shstrtab i) (strtab i) (symtab i) (rsdp i).
Definition put_shstrtab v (i : bootInfo) := BootInfo (elf_symbols i) (b_mmap i) (b_apm i) v (strtab i) (symtab i) (rsdp i).
Definition put_strtab v (i : bootInfo) := BootInfo (elf_symbols i) (b_mmap i) (b_apm i) (shstrtab i) v (symtab i) (rsdp i).
Definition put_symtab v (i : bootInfo) := BootInfo (elf_symbols i) (b_mmap i) (b_apm i) (shstrtab i) (strtab i) v (rsdp i).
Definition put_rsdp v (i : bootInfo) := BootInfo (elf_symbols i) (b_mmap i) (b_apm i) (shstrtab i) (strtab i) (symtab i) v.

(** ** Section headers *)

Definition sh_type (sh : Z) : M mem Z := load32 (sh + 4).
Definition sh_addr (sh : Z) : M mem Z := load32 (sh + 12).
Definition sh_size (sh : Z) : M mem Z := load32 (sh + 20).

(** One section header.  The address of the symbol table is computed in units of its
    entries: [KERNEL_START] is added sixteen times. *)
Definition parse_sh (sh : Z) : M boot unit :=
  ty ← on_bmem (sh_type sh);
  if ty =? SHT_STRTAB then
    addr ← on_bmem (sh_addr sh);
    b ← get;
    when (negb (addr =? st_addr (shstrtab (bInfo b))))
      (size ← on_bmem (sh_size sh);
       assertk (u32 (addr + size) <? MB4);;
       upd_boot (put_strtab (StringTable (u32 (addr + KERNEL_START)) size)))
  else if ty =? SHT_SYMTAB then
    addr ← on_bmem (sh_addr sh);
    size ← on_bmem (sh_size sh);
    assertk (u32 (addr + size) <? MB4);;
    upd_boot (put_symtab (SymbolTable (u32 (addr + sizeof_symbol * KERNEL_START)) size sizeof_symbol))
  else mret tt.

Definition parse_elf_section : M boot unit :=
  b ← get;
  let e := elf_symbols (bInfo b) in
  num ← on_bmem (load32 (e + 8));
  shndx ← on_bmem (load32 (e + 16));
  let sh := e + 20 in
  ty ← on_bmem (sh_type sh);
  assertk (ty =? SHT_NULL);;
  let string_table := u32 (sh + sizeof_sh * shndx) in
  addr ← on_bmem (sh_addr string_table);
  size ← on_bmem (sh_size string_table);
  upd_boot (put_shstrtab (StringTable addr size));;
  c ← on_bmem (load8 addr);
  assertk (c =? 0);;
  assertk (u32 (sh + sizeof_sh * u32 (num * sizeof_sh)) <? u32 (KERNEL_START + MB4));;
  for_up (Z.to_nat num) 0 (λ i, parse_sh (sh + sizeof_sh * i));;
  b ← get;
  z ← on_bmem (load32 (sy_header (symtab (bInfo b)) + 8));
  assertk (z =? 0);;
  c ← on_bmem (load8 (st_addr (strtab (bInfo b))));
  assertk (c =? 0).

(** ** The tags *)

(** [switch (tag->type)]. *)
Definition note_tag (ty tag : Z) (i : bootInfo) : bootInfo :=
  if ty =? MULTIBOOT_TAG_TYPE_MMAP then put_mmap tag i
  else if ty =? MULTIBOOT_TAG_TYPE_APM then put_apm tag i
  else if ty =? MULTIBOOT_TAG_TYPE_ELF_SECTIONS then put_elf tag i
  else if ty =? MULTIBOOT_TAG_TYPE_ACPI_OLD then put_rsdp (tag + 8) i
  else i.

(** [while (tag < tail)]. *)
Definition tag_step (tail : Z) : Z → M boot (Z + unit) := λ tag,
  if tag <? tail then
    assertk (tag <? u32 (KERNEL_START + MB4));;
    ty ← on_bmem (load32 tag);
    upd_boot (note_tag ty tag);;
    size ← on_bmem (load32 (tag + 4));
    mret (inl (u32 (tag + sizeof_tag * DIV_CEIL size 8)))
  else mret (inr tt).

(** A tag has at least one byte, so [total] rounds are enough. *)
Definition multiboot_init (bia : Z) : M boot unit :=
  total ← on_bmem (load32 bia);
  loop (S (Z.to_nat total)) (tag_step (u32 (bia + total))) (bia + 8);;
  b ← get;
  v ← on_bmem (load32 (b_mmap (bInfo b) + 12));
  assertk (v =? 0);;
  ty ← on_bmem (load32 (b_apm (bInfo b)));
  assertk (ty =? MULTIBOOT_TAG_TYPE_APM);;
  parse_elf_section.

(** ** Names of functions *)

(** The address of the name, 0 when there is none. *)
Definition symbol_step (addr : Z) : Z → M boot (Z + Z) := λ i,
  b ← get;
  let t := symtab (bInfo b) in
  if i <? sy_size t / sy_entry_size t then
    let s := u32 (sy_header t + sizeof_symbol * i) in
    info ← on_bmem (load8 (s + 12));
    if Z.land info (MASK_U8 4) =? STT_FUNC then
      value ← on_bmem (load32 (s + 4));
      size ← on_bmem (load32 (s + 8));
      name ← on_bmem (load32 s);
      if (value <=? addr) && (addr <=? u32 (value + size)) then
        mret (inr (u32 (st_addr (strtab (bInfo b)) + name)))
      else mret (inl (i + 1))
    else mret (inl (i + 1))
  else mret (inr 0).

Definition cur_func_name (addr : Z) : M boot Z :=
  b ← get;
  assertk (truth (sy_entry_size (symtab (bInfo b))));;     (* a division by 0 *)
  loop (S (Z.to_nat (sy_size (symtab (bInfo b)) / sy_entry_size (symtab (bInfo b))))) (symbol_step addr) 0.

(** [func_name], from the frame [stk] in which it is called. *)
Definition frame_step : Z * Z → M boot ((Z * Z) + Z) := λ '(stk, n),
  ebp ← on_bmem (load32 stk);
  if truth ebp && (0 <? n) then mret (inl (ebp, n - 1)) else mret (inr stk).
Definition func_name (stk n : Z) : M boot Z :=
  stk ← loop (S (Z.to_nat n)) frame_step (stk, n);
  eip ← on_bmem (load32 (stk + 4));
  cur_func_name eip.

(** ** What the memory holds *)

(** The word at [a]. *)
Definition dword (m : mem) (a v : Z) : Prop := load32 a m = Ok (v, m).

(** The tags [l], with their types and sizes, from [a] up to [tail]. *)
Fixpoint tags (m : mem) (a tail : Z) (l : list (Z * Z)) : Prop :=
  match l with
  | [] => tail ≤ a
  | (ty, size) :: l' => a < tail ∧ dword m a ty ∧ dword m (a + 4) size ∧ 1 ≤ size < 2 ^ 31 ∧
                        a + 8 * ((size + 7) / 8) < 2 ^ 32 ∧ tags m (a + 8 * ((size + 7) / 8)) tail l'
  end.

(** Their types and addresses. *)
Fixpoint tag_addrs (a : Z) (l : list (Z * Z)) : list (Z * Z) :=
  match l with
  | [] => []
  | (ty, size) :: l' => (ty, a) :: tag_addrs (a + 8 * ((size + 7) / 8)) l'
  end.

(** The last element with the key [k]. *)
Definition last_of {A} (k : Z) (l : list (Z * A)) : option A := last (snd <$> filter (λ p, p.1 = k) l).

Lemma last_of_snoc {A} k (l : list (Z * A)) t a : last_of k (l ++ [(t, a)]) = if t =? k then Some a else last_of k l.
Proof.
  unfold last_of. rewrite filter_app, fmap_app. destruct (Z.eqb_spec t k) as [->|Hne].
  - rewrite filter_cons_True, filter_nil by done. cbn. by rewrite last_snoc.
  - rewrite filter_cons_False, filter_nil by done. cbn. by rewrite app_nil_r.
Qed.

(** The section headers [l], with type, address and size, from [sh] on. *)
Definition sections (m : mem) (sh : Z) (l : list (Z * (Z * Z))) : Prop :=
  ∀ i ty addr size, l !! i = Some (ty, (addr, size)) →
    dword m (sh + 40 * Z.of_nat i + 4) ty ∧ dword m (sh + 40 * Z.of_nat i + 12) addr ∧ dword m (sh + 40 * Z.of_nat i + 20) size.

Lemma wp_on_bmem a v (Q : Z → boot → Prop) b : dword (bt_mem b) a v → Q v b → wp (on_bmem (load32 a)) Q b.
Proof. intros H HQ. unfold on_bmem. apply wp_zoom. eapply wp_intro; [exact H|]. by destruct b. Qed.
Lemma wp_on_byte a v (Q : Z → boot → Prop) b : bt_mem b !! a = Some v → Q v b → wp (on_bmem (load8 a)) Q b.
Proof. intros H HQ. unfold on_bmem. apply wp_zoom. eapply wp_load8; [exact H|]. by destruct b. Qed.
Lemma wp_upd_boot f (Q : unit → boot → Prop) b : Q tt (Boot (bt_mem b) (f (bInfo b))) → wp (upd_boot f) Q b.
Proof. intros H. unfold upd_boot. by wp_step. Qed.

Lemma DIV_CEIL_8 size : 1 ≤ size < 2 ^ 31 → DIV_CEIL size 8 = (size + 7) / 8.
Proof. intros H. unfold DIV_CEIL. rewrite !u32_small by (rewrite ?u32_small; lia). f_equal. lia. Qed.

Definition note_all (l : list (Z * Z)) (i : bootInfo) : bootInfo := foldl (λ i p, note_tag p.1 p.2 i) i l.

Lemma wp_tag_loop l : ∀ n a tail b, (length l < n)%nat → 0 ≤ a → tail ≤ KERNEL_START + MB4 → tags (bt_mem b) a tail l →
  wp (loop n (tag_step tail) a) (λ _ b', b' = Boot (bt_mem b) (note_all (tag_addrs a l) (bInfo b))) b.
Proof.
  induction l as [|[ty size] l IH]; intros n a tail b Hn Ha Ht Hl; (destruct n as [|n]; [cbn in Hn; lia|]); cbn [loop tags] in *;
    wp_step; unfold tag_step at 1.
  - rewrite (proj2 (Z.ltb_ge _ _)) by done. do 2 wp_step. by destruct b.
  - destruct Hl as (Hat & Hty & Hsz & Hs & Ho & Hl). rewrite (proj2 (Z.ltb_lt _ _)) by done. wp_step. apply wp_assertk. split.
    { apply Z.ltb_lt. unfold KERNEL_START, MB4 in *. rewrite u32_small by lia. lia. }
    wp_step. eapply wp_on_bmem; [exact Hty|]. wp_step. apply wp_upd_boot. wp_step. eapply wp_on_bmem; [exact Hsz|]. wp_step.
    unfold sizeof_tag. rewrite DIV_CEIL_8 by done. pose proof (Z.div_pos (size + 7) 8 ltac:(lia) ltac:(lia)).
    rewrite u32_small by lia. eapply wp_mono; [apply IH|]; [cbn in Hn; lia|lia|done|done|]. by intros _ b' ->.
Qed.

Lemma note_tag_fields t a i :
  b_mmap (note_tag t a i) = (if t =? 6 then a else b_mmap i) ∧ b_apm (note_tag t a i) = (if t =? 10 then a else b_apm i) ∧
  elf_symbols (note_tag t a i) = (if t =? 9 then a else elf_symbols i) ∧ rsdp (note_tag t a i) = (if t =? 14 then a + 8 else rsdp i) ∧
  shstrtab (note_tag t a i) = shstrtab i ∧ strtab (note_tag t a i) = strtab i ∧ symtab (note_tag t a i) = symtab i.
Proof.
  unfold note_tag, MULTIBOOT_TAG_TYPE_MMAP, MULTIBOOT_TAG_TYPE_APM, MULTIBOOT_TAG_TYPE_ELF_SECTIONS, MULTIBOOT_TAG_TYPE_ACPI_OLD.
  destruct (Z.eqb_spec t 6), (Z.eqb_spec t 10), (Z.eqb_spec t 9), (Z.eqb_spec t 14); subst; done.
Qed.

(** The last tag of each type is the one that counts. *)
Lemma note_all_eq l i : note_all l i =
  BootInfo (default (elf_symbols i) (last_of 9 l)) (default (b_mmap i) (last_of 6 l)) (default (b_apm i) (last_of 10 l))
    (shstrtab i) (strtab i) (symtab i) (default (rsdp i) ((λ a, a + 8) <$> last_of 14 l)).
Proof.
  induction l as [|[t a] l IH] using rev_ind; [by destruct i|]. unfold note_all in *. rewrite foldl_snoc. cbn [fst snd]. rewrite IH, !last_of_snoc.
  set (j := BootInfo _ _ _ _ _ _ _). pose proof (note_tag_fields t a j) as (H1 & H2 & H3 & H4 & H5 & H6 & H7).
  destruct (note_tag t a j) as [f1 f2 f3 f4 f5 f6 f7]. cbn in *. subst. by repeat case_match.
Qed.

(** A section that [parse_sh] notes. *)
Definition note_section (p : Z * (Z * Z)) (i : bootInfo) : bootInfo :=
  let '(ty, (addr, size)) := p in
  if ty =? SHT_STRTAB then
    if addr =? st_addr (shstrtab i) then i else put_strtab (StringTable (u32 (addr + KERNEL_START)) size) i
  else if ty =? SHT_SYMTAB then put_symtab (SymbolTable (u32 (addr + 16 * KERNEL_START)) size 16) i
  else i.

(** Tables are in the first four megabytes. *)
Definition section_low (p : Z * (Z * Z)) : Prop :=
  p.1 = SHT_STRTAB ∨ p.1 = SHT_SYMTAB → 0 ≤ p.2.1 ∧ 0 ≤ p.2.2 ∧ p.2.1 + p.2.2 < MB4.

Lemma wp_parse_sh p sh b : dword (bt_mem b) (sh + 4) p.1 → dword (bt_mem b) (sh + 12) p.2.1 → dword (bt_mem b) (sh + 20) p.2.2 → section_low p →
  wp (parse_sh sh) (λ _ b', b' = Boot (bt_mem b) (note_section p (bInfo b))) b.
Proof.
  destruct p as [ty [addr size]]. unfold section_low. cbn [fst snd]. intros H1 H2 H3 Hl. unfold parse_sh, sh_type, sh_addr, sh_size, note_section.
  wp_step. eapply wp_on_bmem; [exact H1|]. destruct (Z.eqb_spec ty SHT_STRTAB) as [->|].
  - destruct (Hl ltac:(by left)) as (? & ? & ?). wp_step. eapply wp_on_bmem; [exact H2|]. do 2 wp_step. unfold when.
    destruct (addr =? st_addr (shstrtab (bInfo b))); cbn [negb]; [wp_step; by destruct b|].
    wp_step. eapply wp_on_bmem; [exact H3|]. wp_step. apply wp_assertk. split; [unfold MB4 in *; rewrite u32_small by lia; by apply Z.ltb_lt|]. by apply wp_upd_boot.
  - destruct (Z.eqb_spec ty SHT_SYMTAB) as [->|]; [|wp_step; by destruct b].
    destruct (Hl ltac:(by right)) as (? & ? & ?). wp_step. eapply wp_on_bmem; [exact H2|]. wp_step. eapply wp_on_bmem; [exact H3|].
    wp_step. apply wp_assertk. split; [unfold MB4 in *; rewrite u32_small by lia; by apply Z.ltb_lt|]. by apply wp_upd_boot.
Qed.

Definition note_sections (l : list (Z * (Z * Z))) (i : bootInfo) : bootInfo := foldl (λ i p, note_section p i) i l.

Lemma wp_parse_loop l sh : ∀ k b, sections (bt_mem b) (sh + 40 * k) l → Forall section_low l →
  wp (for_up (length l) k (λ i, parse_sh (sh + sizeof_sh * i))) (λ _ b', b' = Boot (bt_mem b) (note_sections l (bInfo b))) b.
Proof.
  induction l as [|[ty [addr size]] l IH]; intros k b Hs Hf; cbn [length for_up]; [wp_step; by destruct b|].
  apply Forall_cons in Hf as [Hp Hf]. destruct (Hs 0%nat _ _ _ eq_refl) as (H1 & H2 & H3). rewrite Z.mul_0_r, Z.add_0_r in *.
  wp_step. eapply wp_mono; [apply (wp_parse_sh (ty, (addr, size))); done|]. intros _ b1 ->.
  eapply wp_mono; [apply IH; [|done]|]; [|by intros _ b' ->]. cbn [bt_mem]. intros i t a s Hi. specialize (Hs (S i) t a s Hi).
  replace (sh + 40 * (k + 1) + 40 * Z.of_nat i) with (sh + 40 * k + 40 * Z.of_nat (S i)) by lia. done.
Qed.

(** The string table is the last one that is not the table of section names; the symbol
    table is at its physical address, as 16 times [KERNEL_START] is 0 modulo 2^32. *)
Lemma note_sections_eq l i : Forall section_low l → note_sections l i =
  BootInfo (elf_symbols i) (b_mmap i) (b_apm i) (shstrtab i)
    (default (strtab i) ((λ p, StringTable (u32 (p.1 + KERNEL_START)) p.2) <$> last_of SHT_STRTAB (filter (λ p, p.2.1 ≠ st_addr (shstrtab i)) l)))
    (default (symtab i) ((λ p, SymbolTable p.1 p.2 16) <$> last_of SHT_SYMTAB l)) (rsdp i).
Proof.
  induction l as [|[t [a z]] l IH] using rev_ind; [by destruct i|]. intros [Hf [Hl _]%Forall_cons]%Forall_app.
  unfold note_sections in *. rewrite foldl_snoc, (IH Hf), last_of_snoc, filter_app. unfold section_low in Hl. cbn [fst snd] in Hl.
  unfold note_section at 1. cbn [shstrtab]. destruct (Z.eqb_spec t SHT_STRTAB) as [->|N3].
  - change (SHT_STRTAB =? SHT_SYMTAB) with false. cbv iota. destruct (Z.eqb_spec a (st_addr (shstrtab i))) as [->|Ha].
    + rewrite filter_cons_False by (cbn; tauto). by rewrite filter_nil, app_nil_r.
    + rewrite filter_cons_True by done. by rewrite filter_nil, last_of_snoc.
  - assert (last_of SHT_STRTAB (filter (λ p, p.2.1 ≠ st_addr (shstrtab i)) l ++ filter (λ p, p.2.1 ≠ st_addr (shstrtab i)) [(t, (a, z))])
      = last_of SHT_STRTAB (filter (λ p, p.2.1 ≠ st_addr (shstrtab i)) l)) as ->.
    { destruct (decide (a = st_addr (shstrtab i))); [rewrite filter_cons_False by (cbn; tauto); by rewrite filter_nil, app_nil_r|].
      rewrite filter_cons_True, filter_nil by done. rewrite last_of_snoc. by rewrite (proj2 (Z.eqb_neq _ _) N3). }
    destruct (Z.eqb_spec t SHT_SYMTAB) as [->|]; [|done]. unfold put_symtab. cbn. do 3 f_equal. destruct (Hl ltac:(by right)) as (? & ? & ?).
    unfold MB4 in *. unfold u32. replace (a + 16 * KERNEL_START) with (a + 12 * 2 ^ 32) by (unfold KERNEL_START; lia).
    rewrite Z.mod_add by lia. apply Z.mod_small. lia.
Qed.

Lemma tags_length m l : ∀ a tail, tags m a tail l → 8 * Z.of_nat (length l) ≤ Z.max 0 (tail - a + 7).
Proof.
  induction l as [|[ty size] l IH]; intros a tail H; cbn [length tags] in *; [lia|]. destruct H as (Ha & _ & _ & Hs & _ & H). apply IH in H.
  assert (1 ≤ (size + 7) / 8) by (apply Z.div_le_lower_bound; lia). lia.
Qed.

(** The memory of a kernel that was booted: tags [l] from the address [bia] on, among
    them a memory map at [mm], an APM tag at [ap] and the sections [secs] at [e]; the
    table of section names is number [ndx] and the tables it has are below 4 MiB. *)
Record booted (m : mem) (bia total : Z) (l : list (Z * Z)) (mm ap e ndx : Z) (secs : list (Z * (Z * Z))) (t0 sa ss a1 s1 a2 s2 : Z) : Prop := Booted {
  bo_total : dword m bia total ∧ 0 ≤ bia ∧ 0 ≤ total ∧ bia + total ≤ KERNEL_START + MB4;
  bo_tags : tags m (bia + 8) (bia + total) l;
  bo_mmap : last_of 6 (tag_addrs (bia + 8) l) = Some mm ∧ dword m (mm + 12) 0;
  bo_apm : last_of 10 (tag_addrs (bia + 8) l) = Some ap ∧ dword m ap 10;
  bo_elf : last_of 9 (tag_addrs (bia + 8) l) = Some e ∧ 0 ≤ e ∧
           dword m (e + 8) (Z.of_nat (length secs)) ∧ dword m (e + 16) ndx ∧ sections m (e + 20) secs;
  bo_room : e + 20 + 1600 * Z.of_nat (length secs) < KERNEL_START + MB4;
  bo_low : Forall section_low secs;
  bo_null : (∃ x, secs !! 0%nat = Some (SHT_NULL, x)) ∧ 0 ≤ ndx ∧ secs !! Z.to_nat ndx = Some (t0, (sa, ss)) ∧ m !! sa = Some 0;
  bo_str : last_of SHT_STRTAB (filter (λ p, p.2.1 ≠ sa) secs) = Some (a1, s1) ∧ m !! u32 (a1 + KERNEL_START) = Some 0;
  bo_sym : last_of SHT_SYMTAB secs = Some (a2, s2) ∧ dword m (a2 + 8) 0 }.

Lemma wp_parse_elf_section m bia total l mm ap e ndx secs t0 sa ss a1 s1 a2 s2 b :
  booted m bia total l mm ap e ndx secs t0 sa ss a1 s1 a2 s2 → bt_mem b = m → elf_symbols (bInfo b) = e →
  wp parse_elf_section (λ _ b', b' = Boot m (BootInfo e (b_mmap (bInfo b)) (b_apm (bInfo b)) (StringTable sa ss)
    (StringTable (u32 (a1 + KERNEL_START)) s1) (SymbolTable a2 s2 16) (rsdp (bInfo b)))) b.
Proof.
  intros [_ _ _ _ (_ & He & Hnum & Hndx & Hsec) Hroom Hlow ([x0 H0] & Hn0 & Hn & Hz) [Hs1 Hsz1] [Hs2 Hsz2]] Em Ee. destruct x0 as [x1 x2].
  destruct (Hsec 0%nat _ _ _ H0) as (T0 & _). destruct (Hsec _ _ _ _ Hn) as (_ & N1 & N2). rewrite Z2Nat.id in N1, N2 by done.
  rewrite Z.mul_0_r, Z.add_0_r in T0. apply lookup_lt_Some in Hn as Hlt. unfold KERNEL_START, MB4 in Hroom.
  unfold parse_elf_section, sh_type, sh_addr, sh_size. do 2 wp_step. rewrite Ee. subst m.
  wp_step. eapply wp_on_bmem; [exact Hnum|]. wp_step. eapply wp_on_bmem; [exact Hndx|]. wp_step. eapply wp_on_bmem; [exact T0|].
  wp_step. apply wp_assertk. split; [done|]. unfold sizeof_sh. rewrite (u32_small (e + 20 + 40 * ndx)) by lia.
  wp_step. eapply wp_on_bmem; [exact N1|]. wp_step. eapply wp_on_bmem; [exact N2|]. wp_step. apply wp_upd_boot.
  wp_step. eapply wp_on_byte; [exact Hz|]. wp_step. apply wp_assertk. split; [done|]. wp_step. apply wp_assertk. split.
  { unfold KERNEL_START, MB4. rewrite (u32_small (Z.of_nat (length secs) * 40)), !u32_small by lia. apply Z.ltb_lt. lia. }
  wp_step. rewrite Nat2Z.id. fold sizeof_sh. eapply wp_mono; [apply (wp_parse_loop secs (e + 20) 0); [by rewrite Z.mul_0_r, Z.add_0_r|done]|].
  intros _ b' ->. rewrite note_sections_eq by done. cbn [bInfo bt_mem put_shstrtab shstrtab st_addr symtab strtab elf_symbols b_mmap b_apm rsdp].
  rewrite Hs1, Hs2. cbn [fmap option_fmap option_map default fst snd]. do 2 wp_step.
  wp_step. eapply wp_on_bmem; [exact Hsz2|]. wp_step. apply wp_assertk. split; [done|].
  wp_step. eapply wp_on_byte; [exact Hsz1|]. apply wp_assertk. split; [done|]. cbn. by rewrite Ee.
Qed.

(** [multiboot_init] ends, and notes the last tag of each type.  The string table is the
    last one that does not hold the section names, at its kernel address; but the symbol
    table is noted at its physical address: the offset of the kernel is added to a
    pointer to symbols of 16 bytes and so is lost. *)
Theorem multiboot_init_correct m bia total l mm ap e ndx secs t0 sa ss a1 s1 a2 s2 :
  booted m bia total l mm ap e ndx secs t0 sa ss a1 s1 a2 s2 →
  wp (multiboot_init bia) (λ _ b, b = Boot m (BootInfo e mm ap (StringTable sa ss) (StringTable (u32 (a1 + KERNEL_START)) s1)
    (SymbolTable a2 s2 16) (default 0 ((λ a, a + 8) <$> last_of 14 (tag_addrs (bia + 8) l))))) (Boot m bInfo0).
Proof.
  intros H. pose proof H as [(Ht & Hb & Htot & Hr) Htags [Hm1 Hm2] [Ha1 Ha2] (He1 & _) _ _ _ _ _]. unfold multiboot_init.
  unfold KERNEL_START, MB4 in Hr. wp_step. eapply wp_on_bmem; [exact Ht|]. rewrite (u32_small (bia + total)) by lia.
  wp_step. eapply wp_mono; [apply (wp_tag_loop l); [|lia|unfold KERNEL_START, MB4; lia|exact Htags]|].
  { apply tags_length in Htags. lia. }
  intros _ b ->. rewrite note_all_eq, Hm1, Ha1, He1. cbn [bInfo bt_mem default elf_symbols b_mmap b_apm bInfo0 shstrtab strtab symtab rsdp].
  do 2 wp_step. wp_step. eapply wp_on_bmem; [exact Hm2|]. wp_step. apply wp_assertk. split; [done|].
  wp_step. eapply wp_on_bmem; [exact Ha2|]. wp_step. apply wp_assertk. split; [done|].
  eapply wp_mono; [eapply wp_parse_elf_section; [exact H|done|done]|]. by intros _ b ->.
Qed.

(** A tag of size 0 is never passed. *)
Theorem zero_tag_loops m a tail ty i n : a < tail → 0 ≤ a < KERNEL_START + MB4 → dword m a ty → dword m (a + 4) 0 →
  loop n (tag_step tail) a (Boot m i) = Err Fuel.
Proof.
  intros Ha Hr H1 H2. revert i. induction n as [|n IH]; intros i; [done|]. cbn [loop]. apply bind_wp_Err. unfold tag_step at 1.
  rewrite (proj2 (Z.ltb_lt _ _)) by done. unfold KERNEL_START, MB4 in Hr. wp_step. apply wp_assertk. split.
  { apply Z.ltb_lt. unfold KERNEL_START, MB4. rewrite u32_small; lia. }
  wp_step. eapply wp_on_bmem; [exact H1|]. wp_step. apply wp_upd_boot. wp_step. eapply wp_on_bmem; [exact H2|]. wp_step.
  change (DIV_CEIL 0 8) with 0. rewrite Z.mul_0_r, Z.add_0_r, u32_small by lia. apply IH.
Qed.

(** ** Symbols *)

Record symbol := Symbol { s_name : Z; s_value : Z; s_size : Z; s_info : Z }.

(** The symbols [l] from [h] on. *)
Definition symbols (m : mem) (h : Z) (l : list symbol) : Prop := ∀ i s, l !! i = Some s →
  let a := h + 16 * Z.of_nat i in
  dword m a (s_name s) ∧ dword m (a + 4) (s_value s) ∧ dword m (a + 8) (s_size s) ∧ m !! (a + 12) = Some (s_info s).

(** A function that [addr] is in, the address behind its end included. *)
Definition in_function (addr : Z) (s : symbol) : bool :=
  (Z.land (s_info s) (MASK_U8 4) =? STT_FUNC) && (s_value s <=? addr) && (addr <=? s_value s + s_size s).

Lemma wp_symbol_loop addr l b : symbols (bt_mem b) (sy_header (symtab (bInfo b))) l →
  0 ≤ sy_header (symtab (bInfo b)) → sy_header (symtab (bInfo b)) + 16 * Z.of_nat (length l) < 2 ^ 32 →
  sy_size (symtab (bInfo b)) = 16 * Z.of_nat (length l) → sy_entry_size (symtab (bInfo b)) = 16 →
  Forall (λ s, 0 ≤ s_value s ∧ 0 ≤ s_size s ∧ s_value s + s_size s < 2 ^ 32) l →
  ∀ k n, (k ≤ length l)%nat → (length l - k < n)%nat →
  wp (loop n (symbol_step addr) (Z.of_nat k)) (λ r b', b' = b ∧
    r = match list_find (λ s, in_function addr s = true) (drop k l) with
        | Some (_, s) => u32 (st_addr (strtab (bInfo b)) + s_name s) | None => 0 end) b.
Proof.
  intros Hs H0 Hr Hsz Hen Hf. intros k n. revert k. induction n as [|n IH]; intros k Hk Hn; [lia|]. cbn [loop]. wp_step. unfold symbol_step at 1. do 2 wp_step.
  rewrite Hsz, Hen. replace (16 * Z.of_nat (length l)) with (Z.of_nat (length l) * 16) by lia. rewrite Z.div_mul by lia.
  destruct (Z.ltb_spec (Z.of_nat k) (Z.of_nat (length l))) as [Hlt|Hge].
  2:{ do 2 wp_step. by rewrite drop_ge by lia. }
  destruct (lookup_lt_is_Some_2 l k ltac:(lia)) as [s Hsk]. destruct (Hs k s Hsk) as (S1 & S2 & S3 & S4).
  pose proof (proj1 (Forall_lookup _ _) Hf k s Hsk) as (V1 & V2 & V3). unfold sizeof_symbol. rewrite (u32_small (_ + _)) by lia.
  wp_step. eapply wp_on_byte; [exact S4|]. rewrite (drop_S l s k Hsk). cbn [list_find].
  replace (Z.of_nat k + 1) with (Z.of_nat (S k)) by lia.
  assert (Hnext : in_function addr s ≠ true → wp (loop n (symbol_step addr) (Z.of_nat (S k))) (λ r b', b' = b ∧
    r = match (if decide (in_function addr s = true) then Some (0%nat, s) else prod_map S id <$> list_find (λ s, in_function addr s = true) (drop (S k) l)) with
        | Some (_, s) => u32 (st_addr (strtab (bInfo b)) + s_name s) | None => 0 end) b).
  { intros Hno. rewrite decide_False by done. eapply wp_mono; [apply IH; lia|]. intros r b' [-> ->]. split; [done|].
    by destruct (list_find _ (drop (S k) l)) as [[? ?]|]. }
  destruct (Z.land (s_info s) (MASK_U8 4) =? STT_FUNC) eqn:E1; [|wp_step; apply Hnext; unfold in_function; by rewrite E1].
  wp_step. eapply wp_on_bmem; [exact S2|]. wp_step. eapply wp_on_bmem; [exact S3|]. wp_step. eapply wp_on_bmem; [exact S1|]. rewrite u32_small by lia.
  destruct ((s_value s <=? addr) && (addr <=? s_value s + s_size s)) eqn:E2; wp_step.
  - wp_step. rewrite decide_True; [done|]. unfold in_function. rewrite E1. cbn [andb]. exact E2.
  - apply Hnext. unfold in_function. rewrite E1. cbn [andb]. by rewrite E2.
Qed.

(** [cur_func_name] ends and answers the name of the first function symbol whose code
    the address is in (or directly behind), 0 when there is none; nothing changes. *)
Theorem cur_func_name_first addr l b : symbols (bt_mem b) (sy_header (symtab (bInfo b))) l →
  0 ≤ sy_header (symtab (bInfo b)) → sy_header (symtab (bInfo b)) + 16 * Z.of_nat (length l) < 2 ^ 32 →
  sy_size (symtab (bInfo b)) = 16 * Z.of_nat (length l) → sy_entry_size (symtab (bInfo b)) = 16 →
  Forall (λ s, 0 ≤ s_value s ∧ 0 ≤ s_size s ∧ s_value s + s_size s < 2 ^ 32) l →
  wp (cur_func_name addr) (λ r b', b' = b ∧
    r = match list_find (λ s, in_function addr s = true) l with
        | Some (_, s) => u32 (st_addr (strtab (bInfo b)) + s_name s) | None => 0 end) b.
Proof.
  intros Hs H0 Hr Hsz Hen Hf. unfold cur_func_name. do 3 wp_step. apply wp_assertk. split; [by rewrite Hen|].
  apply (wp_symbol_loop addr l b Hs H0 Hr Hsz Hen Hf 0); [lia|]. rewrite Hsz, Hen.
  replace (16 * Z.of_nat (length l)) with (Z.of_nat (length l) * 16) by lia. rewrite Z.div_mul by lia. lia.
Qed.

(** The frames from [stk] on, with the addresses they return to: each holds the address of
    the next one, and the last one 0. *)
Fixpoint frames (m : mem) (stk : Z) (l : list Z) : Prop :=
  match l with
  | [] => False
  | [eip] => dword m stk 0 ∧ dword m (stk + 4) eip
  | eip :: l' => ∃ ebp, ebp ≠ 0 ∧ dword m stk ebp ∧ dword m (stk + 4) eip ∧ frames m ebp l'
  end.

Lemma wp_frame_loop b l : ∀ stk n, 0 ≤ n → frames (bt_mem b) stk l →
  wp (loop (S (Z.to_nat n)) frame_step (stk, n)) (λ p b', b' = b ∧ ∃ eip, dword (bt_mem b) (p + 4) eip ∧ l !! (Z.to_nat n `min` (length l - 1))%nat = Some eip) b.
Proof.
  induction l as [|eip l IH]; intros stk n Hn Hf; [done|]. cbn [loop]. wp_step. cbn [frame_step]. destruct l as [|eip' l].
  - destruct Hf as [H0 He]. wp_step. eapply wp_on_bmem; [exact H0|]. cbn [truth Z.eqb negb andb]. do 2 wp_step. split; [done|]. exists eip. split; [done|]. cbn [length].
    by rewrite Nat.min_0_r.
  - destruct Hf as (ebp & Hne & Hd & He & Hf). wp_step. eapply wp_on_bmem; [exact Hd|]. rewrite (proj2 (truth_true ebp) Hne). cbn [andb].
    destruct (Z.ltb_spec 0 n) as [Hlt|Hge]; wp_step.
    + replace (Z.to_nat n) with (S (Z.to_nat (n - 1))) by lia. eapply wp_mono; [apply (IH ebp (n - 1) ltac:(lia) Hf)|].
      intros p b' (-> & x & Hx & Hl). split; [done|]. exists x. split; [done|]. cbn [length] in *.
      replace (S (Z.to_nat (n - 1)) `min` (S (S (length l)) - 1))%nat with (S (Z.to_nat (n - 1) `min` (S (length l) - 1))) by lia. exact Hl.
    + wp_step. split; [done|]. exists eip. split; [done|]. replace n with 0 by lia. done.
Qed.

(** [func_name n] is the name of the function [n] calls up the stack, or of the outermost
    one when the stack is not that deep. *)
Theorem func_name_nth b stk n l eip : 0 ≤ n → frames (bt_mem b) stk l → l !! (Z.to_nat n `min` (length l - 1))%nat = Some eip →
  func_name stk n b = cur_func_name eip b.
Proof.
  intros Hn Hf He. unfold func_name. destruct (wp_elim _ _ _ (wp_frame_loop b l stk n Hn Hf)) as (p & b' & E & -> & x & Hx & Hl).
  rewrite (bind_Ok _ _ _ _ _ E). rewrite He in Hl. injection Hl as <-. apply bind_Ok. unfold on_bmem, zoom. rewrite Hx. by destruct b.
Qed.

(** ** A small kernel: the tags, four sections and two symbols *)

Definition word_bytes (a v : Z) : list (Z * Z) :=
  [(a, u8 v); (a + 1, u8 (Z.shiftr v 8)); (a + 2, u8 (Z.shiftr v 16)); (a + 3, u8 (Z.shiftr v 24))].
Fixpoint words_bytes (a : Z) (l : list Z) : list (Z * Z) :=
  match l with [] => [] | v :: l' => word_bytes a v ++ words_bytes (a + 4) l' end.

Abbreviation demo_bia := 0xc0010000.
Definition demo_section (ty addr size : Z) : list Z := [0; ty; 0; addr; 0; size; 0; 0; 0; 0].
Definition boot_mem : mem := list_to_map (
  words_bytes demo_bia ([248; 0] ++ [6; 16; 24; 0] ++ [10; 28; 0; 0; 0; 0; 0; 0] ++
    [9; 180; 4; 40; 1] ++ demo_section 0 0 0 ++ demo_section 3 0x1000 20 ++ demo_section 3 0x2000 30 ++ demo_section 2 0x3000 32 ++ [0] ++ [0; 8]) ++
  words_bytes 0x1000 [0] ++ words_bytes 0xc0002000 [0] ++
  words_bytes 0x3000 ([0; 0; 0; 0] ++ [5; 0xc0100000; 0x40; 0x12])).
Definition demo_tags : list (Z * Z) := [(6, 16); (10, 28); (9, 180); (0, 8)].
Definition demo_sections : list (Z * (Z * Z)) := [(0, (0, 0)); (3, (0x1000, 20)); (3, (0x2000, 30)); (2, (0x3000, 32))].

Definition dword_check (m : mem) (a v : Z) : bool := match load32 a m with Ok (x, _) => x =? v | Err _ => false end.
Lemma load32_pure a m v m' : load32 a m = Ok (v, m') → m' = m.
Proof.
  unfold load32, load16, load8, mbind, M_bind, get, deref, mret, M_ret.
  destruct (m !! a); [|done]. destruct (m !! (a + 1)); [|done]. destruct (m !! (a + 2)); [|done]. destruct (m !! (a + 2 + 1)); [|done].
  by intros [= _ <-].
Qed.
Lemma dword_checked m a v : dword_check m a v = true → dword m a v.
Proof.
  unfold dword_check, dword. destruct (load32 a m) as [[x m']|] eqn:E; [|done]. intros ->%Z.eqb_eq. by rewrite (load32_pure _ _ _ _ E) in *.
Qed.
Ltac dword_tac := apply dword_checked; vm_compute; reflexivity.

Lemma boot_mem_ok : booted boot_mem demo_bia 248 demo_tags 0xc0010008 0xc0010018 0xc0010038 1 demo_sections 3 0x1000 20 0x2000 30 0x3000 32.
Proof.
  split.
  - split; [dword_tac|unfold KERNEL_START, MB4; lia].
  - cbn [tags demo_tags]. repeat match goal with |- _ ∧ _ => split | |- dword _ _ _ => dword_tac | |- _ => vm_compute; congruence end.
  - split; [vm_compute; reflexivity|dword_tac].
  - split; [vm_compute; reflexivity|dword_tac].
  - split_and!; [vm_compute; reflexivity|lia|dword_tac|dword_tac|]. intros i ty addr size Hi.
    destruct i as [|[|[|[|i]]]]; [injection Hi as <- <- <-; split_and!; dword_tac..|done].
  - unfold KERNEL_START, MB4. cbn. lia.
  - repeat constructor; unfold section_low, MB4; cbn; lia.
  - split_and!; [by eexists|lia|done|vm_compute; reflexivity].
  - split; vm_compute; reflexivity.
  - split; [vm_compute; reflexivity|dword_tac].
Qed.

Lemma multiboot_init_correct_witness : wp (multiboot_init demo_bia) (λ _ b, sy_header (symtab (bInfo b)) = 0x3000) (Boot boot_mem bInfo0).
Proof. eapply wp_mono; [exact (multiboot_init_correct _ _ _ _ _ _ _ _ _ _ _ _ _ _ _ _ boot_mem_ok)|]. by intros _ b ->. Defined.

Lemma zero_tag_loops_witness : loop 100 (tag_step 0xc00100f8) 0xc0010000 (Boot (<[demo_bia + 4 := 0]> boot_mem) bInfo0) = Err Fuel.
Proof. apply (zero_tag_loops _ demo_bia 0xc00100f8 248 bInfo0 100); [lia|unfold KERNEL_START, MB4; lia|dword_tac..]. Defined.

Definition demo_symbols : list symbol := [Symbol 0 0 0 0; Symbol 5 0xc0100000 0x40 0x12].
Definition demo_boot : boot := Boot boot_mem (BootInfo 0 0 0 (StringTable 0 0) (StringTable 0xc0002000 30) (SymbolTable 0x3000 32 16) 0).

Lemma cur_func_name_first_witness : wp (cur_func_name 0xc0100010) (λ r _, r = 0xc0002005) demo_boot.
Proof.
  eapply wp_mono; [apply (cur_func_name_first 0xc0100010 demo_symbols demo_boot)|].
  - intros i s Hi. destruct i as [|[|i]]; [injection Hi as <-..|done]; split_and!; try dword_tac; vm_compute; reflexivity.
  - vm_compute. congruence.
  - vm_compute. congruence.
  - vm_compute. reflexivity.
  - vm_compute. reflexivity.
  - repeat constructor; vm_compute; congruence.
  - intros r b' [_ ->]. vm_compute. reflexivity.
Defined.

(** Three frames: the caller's caller is in the function of [demo_symbols]. *)
Definition stack_boot : boot := Boot (list_to_map (words_bytes 0xc0005000 [0xc0005010; 0xc0000100; 0; 0; 0xc0005020; 0xc0100010; 0; 0; 0; 0xc0000200]) ∪ boot_mem) (bInfo demo_boot).
Lemma func_name_nth_witness : func_name 0xc0005000 1 stack_boot = cur_func_name 0xc0100010 stack_boot.
Proof.
  apply (func_name_nth stack_boot 0xc0005000 1 [0xc0000100; 0xc0100010; 0xc0000200]); [lia| |reflexivity].
  exists 0xc0005010. split_and!; [lia|dword_tac..|]. exists 0xc0005020. split_and!; [lia|dword_tac|dword_tac|split; dword_tac].
Defined.
