(* ===== verification/Acpi.v ===== *)
(** * Firmware tables and processors (drivers/acpi.c, drivers/mp.c)

    The firmware describes the machine in tables with a signature, a length and a
    checksum.  [acpi_init] finds the table of the interrupt controllers, [smp_init] reads
    the processors and the I/O controller from it, and [getCpu] finds the processor that
    runs by the id of its local controller, which is read from a device register and so
    a parameter.  Memory is bytes by kernel address; the page tables are those of [Vm],
    the ports those of [Ports]. *)

From S2P Require Import Prelude QLib Memory CString DList Page PageAlloc PageAllocProps Vm Ports BootInfo.
From Stdlib Require Import ZArith Lia.
From stdpp Require Import base numbers gmap list.
Open Scope Z_scope.

Definition N_CPU : Z := 8.
Definition LAPIC_ENTRY : Z := 0.
Definition IOAPIC_ENTRY : Z := 1.
Definition sizeof_rsdp : Z := 20.
Definition sizeof_sdt : Z := 36.
Definition sizeof_apicTable : Z := 44.

Definition RSDP_SIGNATURE : list Z := [82; 83; 68; 32; 80; 84; 82; 32].
Definition RSDT_SIGNATURE : list Z := [82; 83; 68; 84].
Definition APIC_SIGNATURE : list Z := [65; 80; 73; 67].

(** The field [idle], which only [ap_main] sets, is left out. *)
Record cpu := Cpu { apic_id : Z; ir_enable : bool; cpu_lock : Z; cpu_start : bool }.
Record apic := Apic { nCpu : Z; ioApicId : Z; lapicPtr : Z; ioapicPtr : Z }.
Definition cpu0 : cpu := Cpu (-1) true 0 false.
Definition cpus0 : list cpu := replicate (Z.to_nat N_CPU) cpu0.
Definition cpuCfg0 : apic := Apic 0 0 0 0.

(** [f_rsdp] is [bInfo.rsdp], [f_madt] is [sysDesTable.madt]. *)
Record firmware := Firmware { f_mem : mem; f_vm : vmem; f_rsdp : Z; f_madt : Z; f_cfg : apic; f_cpus : list cpu; f_ports : ports }.
Definition on_fmem {A} (m : M mem A) : M firmware A :=
  zoom f_mem (λ x f, Firmware x (f_vm f) (f_rsdp f) (f_madt f) (f_cfg f) (f_cpus f) (f_ports f)) m.
Definition on_fvm {A} (m : M vmem A) : M firmware A :=
  zoom f_vm (λ x f, Firmware (f_mem f) x (f_rsdp f) (f_madt f) (f_cfg f) (f_cpus f) (f_ports f)) m.
Definition on_fports {A} (m : M ports A) : M firmware A :=
  zoom f_ports (λ x f, Firmware (f_mem f) (f_vm f) (f_rsdp f) (f_madt f) (f_cfg f) (f_cpus f) x) m.
Definition set_madt (v : Z) : M firmware unit := modify (λ f, Firmware (f_mem f) (f_vm f) (f_rsdp f) v (f_cfg f) (f_cpus f) (f_ports f)).
Definition upd_cfg (g : apic → apic) : M firmware unit := modify (λ f, Firmware (f_mem f) (f_vm f) (f_rsdp f) (f_madt f) (g (f_cfg f)) (f_cpus f) (f_ports f)).
Definition rd_cpu (i : Z) : M firmware cpu := f ← get; deref (f_cpus f !! Z.to_nat i).
(** An index behind the array is an access outside it. *)
Definition upd_cpu (i : Z) (g : cpu → cpu) : M firmware unit :=
  c ← rd_cpu i;
  modify (λ f, Firmware (f_mem f) (f_vm f) (f_rsdp f) (f_madt f) (f_cfg f) (<[Z.to_nat i := g c]> (f_cpus f)) (f_ports f)).

(** ** Tables *)

Fixpoint sum_loop (n : nat) (addr i sum : Z) : M mem Z :=
  match n with
  | O => mret sum
  | S n' => c ← load8 (addr + i); sum_loop n' addr (i + 1) (u8 (sum + c))
  end.
Definition sum (addr len : Z) : M mem Z := sum_loop (Z.to_nat len) addr 0 0.

Definition sdt_length (h : Z) : M mem Z := load32 (h + 4).
Definition acpiChecksum (header : Z) : M mem bool := n ← sdt_length header; s ← sum header n; mret (s =? 0).

(** NULL is 0. *)
Definition get_rsdp (rsdp : Z) : M mem Z :=
  if negb (truth rsdp) then mret 0
  else
    ok ← memcmp_lit rsdp RSDP_SIGNATURE;
    if negb ok then mret 0
    else
      v ← load8 (rsdp + 15);
      if negb (v =? 0) then mret 0
      else
        s ← sum rsdp sizeof_rsdp;
        if negb (s =? 0) then mret 0 else mret rsdp.

Definition get_rsdt (addr : Z) : M mem Z :=
  let rsdt := u32 (addr + KERNEL_START) in
  ok ← memcmp_lit rsdt RSDT_SIGNATURE;
  if negb ok then mret 0
  else ok ← acpiChecksum rsdt; if negb ok then mret 0 else mret rsdt.

Definition acpi_init : M firmware unit :=
  f ← get;
  rsdp ← on_fmem (get_rsdp (f_rsdp f));
  assertk (truth rsdp);;
  rsdtAddress ← on_fmem (load32 (rsdp + 16));
  on_fvm (kvm_maps (PAGE_CEIL (u32 (rsdtAddress + KERNEL_START))) rsdtAddress PAGE_SIZE (Z.lor VM_KR VM_PRES));;
  rsdt ← on_fmem (get_rsdt rsdtAddress);
  assertk (truth rsdt);;
  len ← on_fmem (sdt_length rsdt);
  assertk (len <=? PAGE_SIZE);;
  let entry := rsdt + sizeof_sdt in
  let cnt := u32 (len - sizeof_sdt) / 4 in
  for_up (Z.to_nat cnt) 0 (λ i,
    p ← on_fmem (load32 (entry + 4 * i));
    let e := u32 (p + KERNEL_START) in
    ok ← on_fmem (memcmp_lit e APIC_SIGNATURE);
    when ok (set_madt e)).

(** ** Processors *)

Definition put_nCpu v (c : apic) := Apic v (ioApicId c) (lapicPtr c) (ioapicPtr c).
Definition put_ioapic id p (c : apic) := Apic (nCpu c) id (lapicPtr c) p.
Definition put_lapic p (c : apic) := Apic (nCpu c) (ioApicId c) p (ioapicPtr c).
Definition put_apic_id v (c : cpu) := Cpu v (ir_enable c) (cpu_lock c) (cpu_start c).
Definition put_ir v (c : cpu) := Cpu (apic_id c) v (cpu_lock c) (cpu_start c).

(** One entry of the table, and the address of the next one. *)
Definition entry_step (end_ : Z) : Z → M firmware (Z + unit) := λ entry,
  if entry <? end_ then
    ty ← on_fmem (load8 entry);
    (if ty =? LAPIC_ENTRY then
       flags ← on_fmem (load32 (entry + 4));
       when (truth (Z.land flags 1))
         (f ← get;
          let n := nCpu (f_cfg f) in
          upd_cfg (put_nCpu (u8 (n + 1)));;
          id ← on_fmem (load8 (entry + 3));
          upd_cpu n (put_apic_id id))
     else if ty =? IOAPIC_ENTRY then
       f ← get;
       when (ioapicPtr (f_cfg f) =? 0)
         (id ← on_fmem (load8 (entry + 2));
          p ← on_fmem (load32 (entry + 4));
          upd_cfg (put_ioapic id p))
     else mret tt);;
    len ← on_fmem (load8 (entry + 1));
    mret (inl (u32 (entry + len)))
  else mret (inr tt).

(** An entry that has a length has at least one byte. *)
Definition smp_init : M firmware unit :=
  on_fports disable_pic;;
  f ← get;
  let table := f_madt f in
  ok ← on_fmem (memcmp_lit table APIC_SIGNATURE);
  assertk ok;;
  ok ← on_fmem (acpiChecksum table);
  assertk ok;;
  p ← on_fmem (load32 (table + sizeof_sdt));
  upd_cfg (put_lapic p);;
  len ← on_fmem (sdt_length table);
  loop (S (Z.to_nat len)) (entry_step (u32 (table + len))) (table + sizeof_apicTable).

(** [id] is the value of [lapicId()].  Answers the index in [cpus]. *)
Definition getCpu (id : Z) : M firmware Z :=
  f ← get;
  loop (S (Z.to_nat (nCpu (f_cfg f)))) (λ i : Z,
    if i <? nCpu (f_cfg f) then
      c ← rd_cpu i;
      if apic_id c =? s8 id then mret (inr i) else mret (inl (i + 1))
    else fail Assert) 0.

Definition cpu_init (id : Z) : M firmware unit :=
  f ← get;
  for_up (Z.to_nat (nCpu (f_cfg f))) 0 (λ i, upd_cpu i (put_ir true));;
  i ← getCpu id;
  c ← rd_cpu i;
  assertk (cpu_lock c =? 0);;
  assertk (0 <=? apic_id c).

(** ** Accesses *)

Lemma wp_fword a v (Q : Z → firmware → Prop) f : dword (f_mem f) a v → Q v f → wp (on_fmem (load32 a)) Q f.
Proof. intros H HQ. unfold on_fmem. apply wp_zoom. eapply wp_intro; [exact H|]. by destruct f. Qed.
Lemma wp_fbyte a v (Q : Z → firmware → Prop) f : f_mem f !! a = Some v → Q v f → wp (on_fmem (load8 a)) Q f.
Proof. intros H HQ. unfold on_fmem. apply wp_zoom. eapply wp_load8; [exact H|]. by destruct f. Qed.
Lemma wp_fmem {A} (k : M mem A) (Q : A → firmware → Prop) f : wp k (λ a m, m = f_mem f ∧ Q a f) (f_mem f) → wp (on_fmem k) Q f.
Proof. intros H. unfold on_fmem. apply wp_zoom. eapply wp_mono; [exact H|]. intros a m [-> HQ]. by destruct f. Qed.

(** The sum of bytes, modulo 256. *)
Definition bytes_sum (l : list Z) : Z := foldr Z.add 0 l.

Lemma wp_sum l a (m : mem) : bytes_at m a l → wp (sum a (Z.of_nat (length l))) (λ r m', m' = m ∧ r = bytes_sum l mod 256) m.
Proof.
  assert (∀ l i s, bytes_at m (a + i) l → wp (sum_loop (length l) a i (s mod 256)) (λ r m', m' = m ∧ r = (s + bytes_sum l) mod 256) m) as Hl.
  { clear l. induction l as [|x l IH]; intros i s Hb; cbn [length sum_loop bytes_sum foldr]; [wp_step; by rewrite Z.add_0_r|].
    apply bytes_at_cons in Hb as [Hx Hb]. wp_step. eapply wp_load8; [exact Hx|].
    assert (u8 (s mod 256 + x) = (s + x) mod 256) as -> by (unfold u8; change (2 ^ 8) with 256; by rewrite Zplus_mod_idemp_l).
    eapply wp_mono; [apply IH; by rewrite Z.add_assoc|]. intros r m' [-> ->]. split; [done|]. by rewrite Z.add_assoc. }
  intros Hb. unfold sum. rewrite Nat2Z.id. apply (Hl l 0 0). by rewrite Z.add_0_r.
Qed.

(** [acpiChecksum] accepts a table exactly when its bytes, over the length it states, add
    up to 0 modulo 256. *)
Theorem acpiChecksum_sound h l (m : mem) : bytes_at m h l → dword m (h + 4) (Z.of_nat (length l)) →
  wp (acpiChecksum h) (λ b m', m' = m ∧ b = (bytes_sum l mod 256 =? 0)) m.
Proof.
  intros Hb Hn. unfold acpiChecksum, sdt_length. wp_step. eapply wp_intro; [exact Hn|]. wp_step.
  eapply wp_mono; [by apply wp_sum|]. intros r m' [-> ->]. by wp_step.
Qed.

(** ** The table of controllers *)

Inductive madt_entry := Lapic (id : Z) (enabled : bool) | Ioapic (id addr : Z) | OtherEntry (ty : Z).

Definition entry_at (m : mem) (a : Z) (e : madt_entry) : Prop :=
  match e with
  | Lapic id en => m !! a = Some 0 ∧ m !! (a + 3) = Some id ∧ ∃ fl, dword m (a + 4) fl ∧ truth (Z.land fl 1) = en
  | Ioapic id p => m !! a = Some 1 ∧ m !! (a + 2) = Some id ∧ dword m (a + 4) p
  | OtherEntry ty => m !! a = Some ty ∧ ty ≠ 0 ∧ ty ≠ 1
  end.

(** The entries [l], with their lengths, from [a] up to [e]. *)
Fixpoint entries (m : mem) (a e : Z) (l : list (madt_entry * Z)) : Prop :=
  match l with
  | [] => e ≤ a
  | (x, len) :: l' => a < e ∧ 1 ≤ len ∧ a + len < 2 ^ 32 ∧ m !! (a + 1) = Some len ∧ entry_at m a x ∧ entries m (a + len) e l'
  end.

(** The processors that are enabled, and the I/O controllers, in order. *)
Definition cpu_ids (l : list (madt_entry * Z)) : list Z := omap (λ x, match x.1 with Lapic id true => Some id | _ => None end) l.
Definition ioapics (l : list (madt_entry * Z)) : list (Z * Z) := omap (λ x, match x.1 with Ioapic id p => Some (id, p) | _ => None end) l.

Definition with_id (id : Z) : cpu := put_apic_id id cpu0.
(** What [smp_init] has entered after the processors [ids]. *)
Definition cpus_of (ids : list Z) : list cpu := (with_id <$> ids) ++ replicate (8 - length ids) cpu0.

Lemma cpus_of_snoc ids id : (length ids < 8)%nat → <[length ids := with_id id]> (cpus_of ids) = cpus_of (ids ++ [id]).
Proof.
  intros H. unfold cpus_of. rewrite length_app. cbn [length]. rewrite fmap_app. cbn [fmap list_fmap].
  replace (8 - length ids)%nat with (S (8 - (length ids + 1))) by lia. cbn [replicate].
  rewrite insert_app_r_alt by (rewrite length_fmap; lia). rewrite length_fmap, Nat.sub_diag. by rewrite <-app_assoc.
Qed.

Lemma cpus_of_next ids : (length ids < 8)%nat → cpus_of ids !! length ids = Some cpu0.
Proof. intros H. unfold cpus_of. rewrite lookup_app_r by (rewrite length_fmap; lia). rewrite length_fmap, Nat.sub_diag. apply lookup_replicate_2. lia. Qed.

(** The configuration after the processors [ids] and the I/O controllers [ios]. *)
Definition cfg_of (lap : Z) (ids : list Z) (ios : list (Z * Z)) : apic :=
  let io := default (0, 0) (head ios) in Apic (Z.of_nat (length ids)) io.1 lap io.2.

Definition put_ids (f : firmware) (lap : Z) (ids : list Z) (ios : list (Z * Z)) : firmware :=
  Firmware (f_mem f) (f_vm f) (f_rsdp f) (f_madt f) (cfg_of lap ids ios) (cpus_of ids) (f_ports f).

Lemma wp_entry_step x len a e lap ids ios f : 0 ≤ a → a < e → 1 ≤ len → a + len < 2 ^ 32 → f_mem f !! (a + 1) = Some len → entry_at (f_mem f) a x →
  (length ids + length (cpu_ids [(x, len)]) ≤ 8)%nat → Forall (λ p, p.2 ≠ 0) ios →
  wp (entry_step e a) (λ r f', r = inl (a + len) ∧ f' = put_ids f lap (ids ++ cpu_ids [(x, len)]) (ios ++ ioapics [(x, len)])) (put_ids f lap ids ios).
Proof.
  intros Ha Hlt Hlen Hr Hl Hx Hc Hio. unfold entry_step. rewrite (proj2 (Z.ltb_lt _ _)) by done. rewrite <-(u32_small (a + len)) by lia.
  destruct x as [id [|]|id p|ty]; cbn [entry_at cpu_ids ioapics omap list_omap fst length] in *; rewrite ?app_nil_r.
  - destruct Hx as (H0 & Hid & fl & Hfl & Hen). wp_step. eapply wp_fbyte; [exact H0|]. cbn [Z.eqb LAPIC_ENTRY]. wp_step.
    wp_step. eapply wp_fword; [exact Hfl|]. rewrite Hen. unfold when. do 3 wp_step. unfold upd_cfg. wp_step. wp_step. eapply wp_fbyte; [exact Hid|].
    unfold upd_cpu, rd_cpu. do 3 wp_step. cbn [f_cpus put_ids nCpu f_cfg cfg_of]. rewrite Nat2Z.id.
    wp_step; [apply cpus_of_next; lia|]. do 2 wp_step. eapply wp_fbyte; [exact Hl|]. wp_step. split; [done|]. unfold put_ids. cbn.
    rewrite ?Nat2Z.id, <-cpus_of_snoc by lia. f_equal. unfold put_nCpu, cfg_of. cbn. rewrite length_app. cbn. unfold u8. rewrite Z.mod_small by lia. f_equal. lia.
  - destruct Hx as (H0 & Hid & fl & Hfl & Hen). wp_step. eapply wp_fbyte; [exact H0|]. cbn [Z.eqb LAPIC_ENTRY]. wp_step.
    wp_step. eapply wp_fword; [exact Hfl|]. rewrite Hen. unfold when. wp_step. wp_step. eapply wp_fbyte; [exact Hl|]. by wp_step.
  - destruct Hx as (H1 & Hid & Hp). wp_step. eapply wp_fbyte; [exact H1|]. change (1 =? LAPIC_ENTRY) with false. change (1 =? IOAPIC_ENTRY) with true. cbv iota.
    do 3 wp_step. unfold when. destruct ios as [|[id1 p1] ios].
    + change (ioapicPtr (f_cfg (put_ids f lap ids []))) with 0. cbn [Z.eqb]. wp_step. eapply wp_fbyte; [exact Hid|]. wp_step. eapply wp_fword; [exact Hp|]. unfold upd_cfg. do 2 wp_step.
      eapply wp_fbyte; [exact Hl|]. by wp_step.
    + apply Forall_cons in Hio as [Hp1 _]. cbn in Hp1. change (ioapicPtr (f_cfg (put_ids f lap ids ((id1, p1) :: ios)))) with p1. rewrite (proj2 (Z.eqb_neq p1 0) Hp1). wp_step. wp_step. eapply wp_fbyte; [exact Hl|]. by wp_step.
  - destruct Hx as (Ht & Hn0 & Hn1). wp_step. eapply wp_fbyte; [exact Ht|]. unfold LAPIC_ENTRY, IOAPIC_ENTRY.
    rewrite (proj2 (Z.eqb_neq ty 0) Hn0), (proj2 (Z.eqb_neq ty 1) Hn1). wp_step. wp_step. wp_step. eapply wp_fbyte; [exact Hl|]. by wp_step.
Qed.

Lemma wp_entry_loop l : ∀ n a e lap ids ios f, (length l < n)%nat → 0 ≤ a → entries (f_mem f) a e l →
  (length ids + length (cpu_ids l) ≤ 8)%nat → Forall (λ p, p.2 ≠ 0) ios → Forall (λ p, p.2 ≠ 0) (ioapics l) →
  wp (loop n (entry_step e) a) (λ _ f', f' = put_ids f lap (ids ++ cpu_ids l) (ios ++ ioapics l)) (put_ids f lap ids ios).
Proof.
  induction l as [|[x len] l IH]; intros n a e lap ids ios f Hn Ha He Hc Hio Hio'; (destruct n as [|n]; [cbn in Hn; lia|]); cbn [loop entries] in *; wp_step.
  { unfold entry_step. rewrite (proj2 (Z.ltb_ge _ _)) by done. do 2 wp_step. cbn. by rewrite !app_nil_r. }
  destruct He as (Hlt & Hlen & Hr & Hl & Hx & He).
  assert (cpu_ids ((x, len) :: l) = cpu_ids [(x, len)] ++ cpu_ids l) as E1 by (unfold cpu_ids; by rewrite <-omap_app).
  assert (ioapics ((x, len) :: l) = ioapics [(x, len)] ++ ioapics l) as E2 by (unfold ioapics; by rewrite <-omap_app).
  rewrite E1, E2 in *. rewrite length_app in Hc. apply Forall_app in Hio' as [Hio1 Hio2].
  eapply wp_mono; [apply (wp_entry_step x len a e lap ids ios f); try done; lia|]. intros r f' [-> ->].
  eapply wp_mono; [apply (IH n (a + len) e lap (ids ++ cpu_ids [(x, len)]) (ios ++ ioapics [(x, len)]) f)|].
  - cbn in Hn. lia.
  - lia.
  - done.
  - rewrite length_app. lia.
  - by apply Forall_app.
  - done.
  - intros _ f' ->. by rewrite <-!app_assoc.
Qed.

Lemma entries_length m l : ∀ a e, entries m a e l → Z.of_nat (length l) ≤ Z.max 0 (e - a).
Proof. induction l as [|[x len] l IH]; intros a e H; cbn [length entries] in *; [lia|]. destruct H as (? & ? & ? & ? & ? & H). apply IH in H. lia. Qed.

(** The ports behind [disable_pic]. *)
Definition pic_off (p : ports) : ports := Ports (p_reads p) ((PIC2_CMD, 0xff) :: (PIC1_CMD, 0xff) :: p_out p).
Lemma pic_off_ok p : disable_pic p = Ok (tt, pic_off p).
Proof. done. Qed.

(** [smp_init] on a table of at most eight enabled processors ends.  The processors are
    entered in the order of the table, with the ids of their controllers, and the first
    I/O controller is noted; the old controllers are sent one command each, and nothing
    else changes. *)
Theorem smp_init_correct f bs l lap : f_cfg f = cpuCfg0 → f_cpus f = cpus0 → 0 < f_madt f →
  bytes_at (f_mem f) (f_madt f) bs → take 4 bs = APIC_SIGNATURE → dword (f_mem f) (f_madt f + 4) (Z.of_nat (length bs)) →
  bytes_sum bs mod 256 = 0 → f_madt f + Z.of_nat (length bs) < 2 ^ 32 → dword (f_mem f) (f_madt f + 36) lap →
  entries (f_mem f) (f_madt f + 44) (f_madt f + Z.of_nat (length bs)) l → (length (cpu_ids l) ≤ 8)%nat → Forall (λ p, p.2 ≠ 0) (ioapics l) →
  wp smp_init (λ _ f', f' = Firmware (f_mem f) (f_vm f) (f_rsdp f) (f_madt f)
    (Apic (Z.of_nat (length (cpu_ids l))) (default (0, 0) (head (ioapics l))).1 lap (default (0, 0) (head (ioapics l))).2)
    ((with_id <$> cpu_ids l) ++ replicate (8 - length (cpu_ids l)) cpu0) (pic_off (f_ports f))) f.
Proof.
  intros Ec Ep Hz Hb Hsig Hlen Hsum Hr Hlap He Hn Hio. unfold smp_init. wp_step. unfold on_fports. apply wp_zoom. eapply wp_intro; [apply pic_off_ok|]. do 2 wp_step. cbn [f_madt].
  wp_step. apply wp_fmem. eapply wp_mono; [apply (wp_lit APIC_SIGNATURE _ (take 4 bs))|].
  { apply truth_true. cbn. lia. } { intros i x Hi. apply lookup_take_Some in Hi as [Hi _]. by apply Hb. } { by rewrite Hsig. }
  intros b m' [-> ->]. split; [done|]. rewrite bool_decide_true by done. wp_step. apply wp_assertk. split; [done|].
  wp_step. apply wp_fmem. unfold acpiChecksum, sdt_length. wp_step. eapply wp_intro; [exact Hlen|]. wp_step. eapply wp_mono; [by apply wp_sum|].
  intros r m' [-> ->]. wp_step. split; [done|]. rewrite Hsum. wp_step. apply wp_assertk. split; [done|].
  wp_step. eapply wp_fword; [exact Hlap|]. wp_step. unfold upd_cfg. wp_step. wp_step. eapply wp_fword; [exact Hlen|]. cbn [f_madt]. rewrite u32_small by lia.
  rewrite Ec, Ep. unfold sizeof_apicTable. eapply wp_mono; [apply (wp_entry_loop l _ (f_madt f + 44) _ lap [] [] (Firmware (f_mem f) (f_vm f) (f_rsdp f) (f_madt f) (f_cfg f) (f_cpus f) (pic_off (f_ports f))))|].
  - apply entries_length in He. lia.
  - lia.
  - done.
  - done.
  - done.
  - done.
  - by intros _ f' ->.
Qed.

(** An entry of length 0 keeps [smp_init] in its loop for ever. *)
Theorem zero_entry_loops m a e ty f n : f_mem f = m → a < e → 0 ≤ a < 2 ^ 32 → m !! a = Some ty → 1 < ty → m !! (a + 1) = Some 0 →
  loop n (entry_step e) a f = Err Fuel.
Proof.
  intros <- Ha Hr Ht Hty Hl. induction n as [|n IH]; [done|]. cbn [loop]. apply bind_wp_Err. unfold entry_step at 1.
  rewrite (proj2 (Z.ltb_lt _ _)) by done. wp_step. eapply wp_fbyte; [exact Ht|]. unfold LAPIC_ENTRY, IOAPIC_ENTRY.
  rewrite (proj2 (Z.eqb_neq ty 0)), (proj2 (Z.eqb_neq ty 1)) by lia. do 3 wp_step. eapply wp_fbyte; [exact Hl|]. wp_step.
  by rewrite Z.add_0_r, u32_small.
Qed.

(** ** The processor that runs *)

Definition cpu_round (n id : Z) : Z → M firmware (Z + Z) := λ i,
  if i <? n then c ← rd_cpu i; if apic_id c =? s8 id then mret (inr i) else mret (inl (i + 1)) else fail Assert.

(** The table starts with processors of the ids [ids]. *)
Definition listed (f : firmware) (ids : list Z) : Prop := ∀ i x, ids !! i = Some x → ∃ c, f_cpus f !! i = Some c ∧ apic_id c = x.
Lemma listed_of f ids : f_cpus f = cpus_of ids → listed f ids.
Proof.
  intros Ef i x Hi. exists (with_id x). split; [|done]. rewrite Ef. unfold cpus_of. rewrite lookup_app_l by (rewrite length_fmap; by eapply lookup_lt_Some).
  by rewrite list_lookup_fmap, Hi.
Qed.

Lemma cpu_loop f ids id : listed f ids → ∀ n k, (k ≤ length ids)%nat → (length ids - k < n)%nat →
  loop n (cpu_round (Z.of_nat (length ids)) id) (Z.of_nat k) f =
  match list_find (λ x, x = s8 id) (drop k ids) with Some (j, _) => Ok (Z.of_nat (k + j), f) | None => Err Assert end.
Proof.
  intros Ef. induction n as [|n IH]; intros k Hk Hn; [lia|]. cbn [loop]. destruct (decide (k = length ids)) as [->|Hne].
  { rewrite drop_ge by lia. apply bind_Err. unfold cpu_round. by rewrite (proj2 (Z.ltb_ge _ _)) by lia. }
  destruct (lookup_lt_is_Some_2 ids k ltac:(lia)) as [x Hx]. rewrite (drop_S ids x k Hx). cbn [list_find].
  destruct (Ef k x Hx) as (c & Hc & Ex). assert (rd_cpu (Z.of_nat k) f = Ok (c, f)) as Er by (unfold rd_cpu, mbind, M_bind, get, deref; by rewrite Nat2Z.id, Hc).
  destruct (decide (x = s8 id)) as [->|Hd].
  - rewrite (bind_Ok _ _ _ (inr (Z.of_nat k)) f); [by rewrite Nat.add_0_r|]. unfold cpu_round. rewrite (proj2 (Z.ltb_lt _ _)) by lia.
    rewrite (bind_Ok _ _ _ _ _ Er), Ex. by rewrite Z.eqb_refl.
  - rewrite (bind_Ok _ _ _ (inl (Z.of_nat (S k))) f).
    + rewrite IH by lia. destruct (list_find _ (drop (S k) ids)) as [[j y]|]; [|done]. cbn. by rewrite Nat.add_succ_r.
    + unfold cpu_round. rewrite (proj2 (Z.ltb_lt _ _)) by lia. rewrite (bind_Ok _ _ _ _ _ Er), Ex.
      rewrite (proj2 (Z.eqb_neq x _) Hd). by replace (Z.of_nat k + 1) with (Z.of_nat (S k)) by lia.
Qed.

(** [getCpu] answers the first processor with the id of the local controller, as long as
    the id is below 128; on a processor with a larger id, as on one that is not in the
    table, the kernel panics, because the id is read as a signed byte. *)
Theorem getCpu_signed f ids id : nCpu (f_cfg f) = Z.of_nat (length ids) → listed f ids →
  Forall (λ x, 0 ≤ x < 256) ids → 0 ≤ id < 256 →
  getCpu id f = match list_find (λ x, x = id) ids with
                | Some (i, _) => if id <? 128 then Ok (Z.of_nat i, f) else Err Assert
                | None => Err Assert end.
Proof.
  intros En Ef Hr Hid. unfold getCpu. rewrite (bind_Ok _ _ _ f f) by done. rewrite En, Nat2Z.id. fold (cpu_round (Z.of_nat (length ids)) id).
  change 0 with (Z.of_nat 0). rewrite (cpu_loop f ids id Ef) by lia. rewrite drop_0. unfold s8, sint. rewrite Z.mod_small by done. change (2 ^ (8 - 1)) with 128.
  destruct (Z.ltb_spec id 128) as [Hl|Hl]; [by destruct (list_find _ ids) as [[? ?]|]|].
  assert (list_find (λ x, x = id - 2 ^ 8) ids = None) as ->; [|by destruct (list_find _ ids) as [[? ?]|]].
  apply list_find_None. eapply Forall_impl; [exact Hr|]. cbn. intros x Hx ->. lia.
Qed.

(** ** Finding the table *)

(** [kvm_maps] of one page with a physical address [pa] that need not be aligned. *)
Lemma wp_map_page pa flags v s : 0 ≤ pa → pa + 4096 < PHYS_TOP → kPageTables s !! (pa / 4096) = Some v → Z.land v VM_PRES = 0 →
  wp (kvm_maps (PAGE_CEIL (u32 (pa + KERNEL_START))) pa 4096 flags) (λ _ s', s' = with_kpt (<[pa / 4096 := Z.lor pa flags]> (kPageTables s)) s) s.
Proof.
  intros Hpa Htop Hv Hp. pose proof (Z.div_mod pa 4096 ltac:(lia)). pose proof (Z.mod_pos_bound pa 4096 ltac:(lia)).
  unfold PHYS_TOP, DEVSP_SIZE, KERNEL_START in *. rewrite (u32_small (pa + _)) by lia.
  assert (PAGE_CEIL (pa + 0xc0000000) = 4096 * (pa / 4096) + KERNEL_START) as Ev.
  { unfold KERNEL_START. rewrite PAGE_CEIL_eq by lia. change 0xc0000000 with (0xc0000 * 4096). rewrite Z.div_add by lia. lia. }
  rewrite Ev. unfold kvm_maps. wp_step. apply wp_assertk. split.
  { apply Z.eqb_eq, aligned_mask. apply Z.divide_add_r; [by eexists; apply Z.mul_comm|by exists 0xc0000]. }
  wp_step. eapply wp_intro; [apply getPageTableEntry_ok; unfold PHYS_TOP, DEVSP_SIZE, KERNEL_START; lia|].
  replace (4096 * (pa / 4096) / 4096) with (pa / 4096) by (rewrite Z.mul_comm, Z.div_mul; lia). unfold KERNEL_START.
  rewrite (u32_small (_ + 4096)) by lia. change (page_fuel 4096) with 3%nat. cbn [maps_loop].
  rewrite (proj2 (Z.ltb_lt _ _)) by lia. wp_step. eapply wp_rd_pte; [exact Hv|]. wp_step. apply wp_assertk. split; [by apply Z.eqb_eq|].
  wp_step. eapply wp_wr_pte; [eauto|]. unfold PAGE_SIZE. rewrite (u32_small (_ + 4096)) by lia. rewrite (proj2 (Z.ltb_ge _ _)) by lia. by wp_step.
Qed.

(** A system description pointer that [get_rsdp] accepts, and the table it leads to with
    the tables [es], by their physical addresses and first four bytes. *)
Record rsdp_ok (m : mem) (p ra : Z) (rb : list Z) : Prop := RsdpOk {
  rp_bytes : 0 < p ∧ bytes_at m p rb ∧ length rb = 20%nat;
  rp_sig : take 8 rb = RSDP_SIGNATURE ∧ rb !! 15%nat = Some 0 ∧ bytes_sum rb mod 256 = 0;
  rp_addr : dword m (p + 16) ra }.
Record rsdt_ok (m : mem) (ra : Z) (bs : list Z) (es : list (Z * list Z)) : Prop := RsdtOk {
  rt_room : 0 ≤ ra ∧ ra + 8192 < PHYS_TOP;
  rt_bytes : bytes_at m (ra + KERNEL_START) bs ∧ take 4 bs = RSDT_SIGNATURE ∧ bytes_sum bs mod 256 = 0;
  rt_len : dword m (ra + KERNEL_START + 4) (Z.of_nat (length bs)) ∧ length bs = (36 + 4 * length es)%nat ∧ (length bs ≤ 4096)%nat;
  rt_tables : ∀ i e sig, es !! i = Some (e, sig) → dword m (ra + KERNEL_START + 36 + 4 * Z.of_nat i) e ∧
    0 ≤ e < 2 ^ 30 ∧ bytes_at m (e + KERNEL_START) sig ∧ length sig = 4%nat }.

Lemma wp_get_rsdp m p ra rb : rsdp_ok m p ra rb → wp (get_rsdp p) (λ r m', m' = m ∧ r = p) m.
Proof.
  intros [(Hp & Hb & Hn) (Hsig & Hv & Hsum) _]. unfold get_rsdp. rewrite (proj2 (truth_true p)) by lia. cbn [negb].
  wp_step. eapply wp_mono; [apply (wp_lit RSDP_SIGNATURE p (take 8 rb)); [by apply truth_true; lia| |by rewrite Hsig]|].
  { intros i x Hi. apply lookup_take_Some in Hi as [Hi _]. by apply Hb. }
  intros b m' [-> ->]. rewrite bool_decide_true by done. cbn [negb]. wp_step. eapply wp_load8; [apply (Hb 15%nat); exact Hv|]. cbn [Z.eqb negb].
  wp_step. unfold sizeof_rsdp. change 20 with (Z.of_nat 20). rewrite <-Hn. eapply wp_mono; [by apply wp_sum|].
  intros r m' [-> ->]. rewrite Hsum. cbn [Z.eqb negb]. by wp_step.
Qed.

Lemma wp_get_rsdt m ra bs es : rsdt_ok m ra bs es → wp (get_rsdt ra) (λ r m', m' = m ∧ r = ra + KERNEL_START) m.
Proof.
  intros [Hr (Hb & Hsig & Hsum) (Hlen & _) _]. unfold PHYS_TOP, DEVSP_SIZE, KERNEL_START in *. unfold get_rsdt.
  unfold KERNEL_START. rewrite u32_small by lia. wp_step. eapply wp_mono; [apply (wp_lit RSDT_SIGNATURE _ (take 4 bs)); [by apply truth_true; lia| |by rewrite Hsig]|].
  { intros i x Hi. apply lookup_take_Some in Hi as [Hi _]. by apply Hb. }
  intros b m' [-> ->]. rewrite bool_decide_true by done. cbn [negb]. unfold acpiChecksum, sdt_length. wp_step. wp_step. eapply wp_intro; [exact Hlen|].
  wp_step. eapply wp_mono; [by apply wp_sum|]. intros r m' [-> ->]. wp_step. rewrite Hsum. cbn [Z.eqb negb]. by wp_step.
Qed.

(** The tables of [es] with the signature of the interrupt controllers. *)
Definition madts (es : list (Z * list Z)) : list Z :=
  omap (λ x, if bool_decide (x.2 = APIC_SIGNATURE) then Some (x.1 + KERNEL_START) else None) es.

Definition put_madt (v : Z) (f : firmware) : firmware := Firmware (f_mem f) (f_vm f) (f_rsdp f) v (f_cfg f) (f_cpus f) (f_ports f).

Lemma wp_madt_loop es a d f : (∀ i e sig, es !! i = Some (e, sig) → dword (f_mem f) (a + 4 * Z.of_nat i) e ∧ 0 ≤ e < 2 ^ 30 ∧
    bytes_at (f_mem f) (e + KERNEL_START) sig ∧ length sig = 4%nat) →
  wp (for_up (length es) 0 (λ i,
    p ← on_fmem (load32 (a + 4 * i)); ok ← on_fmem (memcmp_lit (u32 (p + KERNEL_START)) APIC_SIGNATURE);
    when ok (set_madt (u32 (p + KERNEL_START)))))
   (λ _ f', f' = put_madt (default d (last (madts es))) f) (put_madt d f).
Proof.
  intros Hes. apply (wp_for_up (λ i f', f' = put_madt (default d (last (madts (take (Z.to_nat i) es)))) f)).
  - done.
  - intros i f' Hi ->. destruct (lookup_lt_is_Some_2 es (Z.to_nat i) ltac:(lia)) as [[e sig] Hx].
    destruct (Hes _ _ _ Hx) as (Hd & Hr & Hb & Hl). rewrite Z2Nat.id in Hd by lia. wp_step. eapply wp_fword; [exact Hd|].
    unfold KERNEL_START in *. rewrite u32_small by lia. wp_step. apply wp_fmem.
    eapply wp_mono; [apply (wp_lit APIC_SIGNATURE _ sig); [by apply truth_true; lia|done|done]|]. intros b m [-> ->]. split; [done|].
    assert (madts (take (Z.to_nat (i + 1)) es) = madts (take (Z.to_nat i) es) ++ madts [(e, sig)]) as ->.
    { replace (Z.to_nat (i + 1)) with (S (Z.to_nat i)) by lia. rewrite (take_S_r _ _ _ Hx). apply omap_app. }
    apply wp_when. change (madts [(e, sig)]) with (match (if bool_decide (sig = APIC_SIGNATURE) then Some (e + 0xc0000000) else None) with Some y => [y] | None => [] end). case_bool_decide.
    + unfold set_madt. wp_step. rewrite last_snoc. done.
    + by rewrite app_nil_r.
  - intros f' ->. by rewrite Z.add_0_l, Nat2Z.id, firstn_all.
Qed.

(** On tables with correct signatures and checksums [acpi_init] ends: the table of the
    interrupt controllers is the last one with the signature [APIC], seen at its kernel
    address.  One page is mapped for the root table, with the unrounded physical address
    in its entry: the low bits of [ra] are left among the flags. *)
Theorem acpi_init_correct f ra rb bs es v : rsdp_ok (f_mem f) (f_rsdp f) ra rb → rsdt_ok (f_mem f) ra bs es →
  kPageTables (f_vm f) !! (ra / 4096) = Some v → Z.land v VM_PRES = 0 →
  wp acpi_init (λ _ f', f' = Firmware (f_mem f) (with_kpt (<[ra / 4096 := Z.lor ra VM_PRES]> (kPageTables (f_vm f))) (f_vm f))
    (f_rsdp f) (default (f_madt f) (last (madts es))) (f_cfg f) (f_cpus f) (f_ports f)) f.
Proof.
  intros Hp Ht Hv Hpr. pose proof Hp as [_ _ Hra]. pose proof Ht as [Hroom _ (Hlen & Hn & Hmax) Hes].
  pose proof (rp_bytes _ _ _ _ Hp) as (Hp0 & _). unfold acpi_init. do 2 wp_step.
  wp_step. apply wp_fmem. eapply wp_mono; [exact (wp_get_rsdp _ _ _ _ Hp)|]. intros r m [-> ->]. split; [done|].
  wp_step. apply wp_assertk. split; [by apply truth_true; lia|]. wp_step. eapply wp_fword; [exact Hra|].
  wp_step. unfold on_fvm. apply wp_zoom. change (Z.lor VM_KR VM_PRES) with VM_PRES. unfold PAGE_SIZE at 1.
  eapply wp_mono; [apply (wp_map_page ra VM_PRES v); [lia|lia|exact Hv|exact Hpr]|]. intros _ s' ->.
  wp_step. apply wp_fmem. eapply wp_mono; [exact (wp_get_rsdt _ _ _ _ Ht)|]. intros r m [-> ->]. split; [done|].
  wp_step. apply wp_assertk. split; [apply truth_true; unfold KERNEL_START; lia|].
  wp_step. eapply wp_fword; [exact Hlen|]. wp_step. apply wp_assertk. split; [apply Z.leb_le; unfold PAGE_SIZE; lia|].
  assert (Z.to_nat (u32 (Z.of_nat (length bs) - sizeof_sdt) / 4) = length es) as ->.
  { unfold sizeof_sdt. rewrite u32_small by lia. rewrite Hn. replace (Z.of_nat (36 + 4 * length es) - 36) with (Z.of_nat (length es) * 4) by lia.
    rewrite Z.div_mul by lia. apply Nat2Z.id. }
  eapply wp_mono; [apply (wp_madt_loop es _ (f_madt f) (Firmware (f_mem f) _ (f_rsdp f) (f_madt f) (f_cfg f) (f_cpus f) (f_ports f)) Hes)|]. by intros _ f' ->.
Qed.

(** ** A machine with three processors, one of them disabled *)

Definition demo_rsdp : list Z :=
  [82; 83; 68; 32; 80; 84; 82; 32; 10; 66; 66; 66; 66; 66; 66; 0; 52; 18; 254; 7].
Definition demo_rsdt : list Z :=
  [82; 83; 68; 84; 44; 0; 0; 0; 1; 60; 0; 0; 0; 0; 0; 0; 0; 0; 0; 0; 0; 0; 0; 0; 0; 0; 0; 0; 0; 0; 0; 0; 0; 0; 0; 0; 0; 32; 254; 7; 0; 48; 254; 7].
Definition demo_facp : list Z := [70; 65; 67; 80].
Definition demo_madt : list Z :=
  [65; 80; 73; 67; 80; 0; 0; 0; 1; 248; 0; 0; 0; 0; 0; 0; 0; 0; 0; 0; 0; 0; 0; 0; 0; 0; 0; 0; 0; 0; 0; 0; 0; 0; 0; 0; 0; 0; 224; 254; 1; 0; 0; 0; 0; 8; 0; 0; 1; 0; 0; 0; 0; 8; 1; 2; 0; 0; 0; 0; 1; 12; 9; 0; 0; 0; 192; 254; 0; 0; 0; 0; 0; 8; 2; 200; 1; 0; 0; 0].
Definition demo_tables : list (Z * list Z) := [(0x7fe2000, demo_facp); (0x7fe3000, take 4 demo_madt)].
Definition demo_entries : list (madt_entry * Z) := [(Lapic 0 true, 8); (Lapic 2 false, 8); (Ioapic 9 0xfec00000, 12); (Lapic 200 true, 8)].

Definition place (a : Z) (l : list Z) : list (Z * Z) := imap (λ i x, (a + Z.of_nat i, x)) l.
Definition demo_fmem : mem := list_to_map (place 0xc00e0000 demo_rsdp ++ place 0xc7fe1234 demo_rsdt ++ place 0xc7fe2000 demo_facp ++ place 0xc7fe3000 demo_madt).
Definition demo_vm : vmem := Vmem demo_memory {[0x7fe1 := 0]} ∅ 0.
Definition demo_fw (madt : Z) : firmware := Firmware demo_fmem demo_vm 0xc00e0000 madt cpuCfg0 cpus0 (Ports 0 []).

Definition bytes_check (m : mem) (a : Z) (l : list Z) : bool := forallb (λ x, bool_decide (m !! x.1 = Some x.2)) (place a l).
Lemma bytes_checked m a l : bytes_check m a l = true → bytes_at m a l.
Proof.
  intros H i x Hi. unfold bytes_check in H. rewrite forallb_forall in H. specialize (H (a + Z.of_nat i, x)). apply bool_decide_eq_true_1 in H; [done|].
  apply list_elem_of_In, (list_elem_of_lookup_2 _ i). unfold place. by rewrite list_lookup_imap, Hi.
Qed.
Ltac bytes_tac := apply bytes_checked; vm_compute; reflexivity.

Lemma demo_rsdp_ok : rsdp_ok demo_fmem 0xc00e0000 0x7fe1234 demo_rsdp.
Proof. split; [split_and!; [lia|bytes_tac|done]|by split_and!|dword_tac]. Qed.
Lemma demo_rsdt_ok : rsdt_ok demo_fmem 0x7fe1234 demo_rsdt demo_tables.
Proof.
  split; [split; [lia|vm_compute; reflexivity]|split_and!; [bytes_tac|done|done]|split_and!; [dword_tac|done|vm_compute; lia]|].
  intros i e sig Hi. destruct i as [|[|i]]; [injection Hi as <- <-..|done]; (split_and!; [dword_tac|lia|lia|bytes_tac|done]).
Qed.

Lemma acpiChecksum_sound_witness : wp (acpiChecksum 0xc7fe3000) (λ b _, b = true) demo_fmem.
Proof. eapply wp_mono; [apply (acpiChecksum_sound 0xc7fe3000 demo_madt); [bytes_tac|dword_tac]|]. intros b m [_ ->]. vm_compute. reflexivity. Defined.

Lemma acpi_init_correct_witness : wp acpi_init (λ _ f', f_madt f' = 0xc7fe3000 ∧ kPageTables (f_vm f') !! 0x7fe1 = Some 0x7fe1235) (demo_fw 0).
Proof.
  eapply wp_mono; [apply (acpi_init_correct (demo_fw 0) 0x7fe1234 demo_rsdp demo_rsdt demo_tables 0 demo_rsdp_ok demo_rsdt_ok); vm_compute; reflexivity|].
  intros _ f' ->. split; vm_compute; reflexivity.
Defined.

Lemma smp_init_correct_witness : wp smp_init (λ _ f', f_cfg f' = Apic 2 9 0xfee00000 0xfec00000 ∧ f_cpus f' = cpus_of [0; 200]) (demo_fw 0xc7fe3000).
Proof.
  eapply wp_mono; [apply (smp_init_correct (demo_fw 0xc7fe3000) demo_madt demo_entries 0xfee00000)|].
  - done.
  - done.
  - cbn. lia.
  - bytes_tac.
  - done.
  - dword_tac.
  - done.
  - vm_compute. reflexivity.
  - dword_tac.
  - cbn [entries demo_entries entry_at]. split_and!; try (vm_compute; congruence).
    all: try (exists 0; split; [dword_tac|done]); try (exists 1; split; [dword_tac|done]); dword_tac.
  - vm_compute. lia.
  - repeat constructor. done.
  - by intros _ f' ->.
Defined.

Lemma zero_entry_loops_witness : loop 100 (entry_step 0xc0000010) 0xc0000000 (Firmware (list_to_map (place 0xc0000000 [2; 0])) demo_vm 0 0 cpuCfg0 cpus0 (Ports 0 [])) = Err Fuel.
Proof. apply (zero_entry_loops (list_to_map (place 0xc0000000 [2; 0])) 0xc0000000 0xc0000010 2); try lia; vm_compute; reflexivity. Defined.

(** The second processor of the table panics in [getCpu]. *)
Lemma getCpu_signed_witness : getCpu 200 (Firmware ∅ demo_vm 0 0 (Apic 2 9 0 0) (cpus_of [0; 200]) (Ports 0 [])) = Err Assert.
Proof. rewrite (getCpu_signed _ [0; 200] 200); [vm_compute; reflexivity|done|by apply listed_of|repeat constructor; lia|lia]. Defined.
