(* ===== verification/Segments.v ===== *)
(** * Segments, task state and interrupt gates (x86/gdt.c, x86/isr.c)

    The processor finds segments and handlers in two tables, whose entries hold an
    address and a limit cut into pieces.  The state is the two tables, the task state
    segment and what was loaded into the registers of the processor.  The addresses of
    the tables, of the task state segment and of the handlers are parameters: the linker
    chooses them.  The page fault handler, vector 14, is in [Uvm]. *)

From S2P Require Import Prelude QLib.
From Stdlib Require Import ZArith Lia.
From stdpp Require Import base numbers list.
Open Scope Z_scope.

#[local] Arguments Z.mul : simpl never.
#[local] Arguments Z.div : simpl never.
#[local] Arguments Z.modulo : simpl never.

Definition GDT_LIMIT : Z := 0xfffff.
Definition GDT_FLAG : Z := 12.
Definition GDT_SYS_CODE : Z := 0x9a.
Definition GDT_SYS_DATA : Z := 0x92.
Definition GDT_USR_CODE : Z := 0xfa.
Definition GDT_USR_DATA : Z := 0xf2.
Definition GDT_COUNT : nat := 20.
Definition TSS_NBUSY : Z := 9.
Definition TSS_PRES : Z := Z.shiftl 1 7.
Definition TSS_KERNEL : Z := Z.shiftl 0 5.
Definition TSS_FLAG : Z := 0.
Definition SEL_KTEXT : Z := 1.
Definition SEL_KDATE : Z := 2.
Definition SEL_UTEXT : Z := 3.
Definition SEL_UDATA : Z := 4.
Definition SEL_TSS_BASE : Z := 5.
Definition sizeof_tss : Z := 104.

Record gdt_entry := GdtEntry { limit : Z; base_l : Z; base_m : Z; access : Z; limit_h : Z; flag : Z; base_h : Z }.
Definition gdt_null : gdt_entry := GdtEntry 0 0 0 0 0 0 0.

(** The fields of [tss_t] that are written. *)
Record tss_t := Tss { esp0 : Z; ss0 : Z; es : Z; cs : Z; ss : Z; ds : Z; fs : Z; gs : Z }.

Definition IDT_COUNT : nat := 256.
Definition IDT_TYPE : Z := 0x8e.
Definition IDT_UTYPE : Z := 0xee.
Definition IDT_SC : Z := 0x08.
Definition SYS_CALL_NO : Z := 0x80.

Record gate_desc := Gate { offset_l : Z; selector : Z; zero : Z; type : Z; offset_h : Z }.
Definition gate_null : gate_desc := Gate 0 0 0 0 0.

(** [idx] counts the calls of [load_gdt]; [gdtr], [tr] and [idtr] are loaded or not. *)
Record tables := Tables { gdt : list gdt_entry; tss : tss_t; idx : Z; gdtr : option Z; tr : option Z; idt : list gate_desc; idtr : option Z }.
Definition tables0 : tables := Tables (replicate GDT_COUNT gdt_null) (Tss 0 0 0 0 0 0 0 0) 0 None None (replicate IDT_COUNT gate_null) None.

Definition with_gdt g s := Tables g (tss s) (idx s) (gdtr s) (tr s) (idt s) (idtr s).
Definition with_tss t s := Tables (gdt s) t (idx s) (gdtr s) (tr s) (idt s) (idtr s).
Definition with_idx i s := Tables (gdt s) (tss s) i (gdtr s) (tr s) (idt s) (idtr s).
Definition with_gdtr v s := Tables (gdt s) (tss s) (idx s) (Some v) (tr s) (idt s) (idtr s).
Definition with_tr v s := Tables (gdt s) (tss s) (idx s) (gdtr s) (Some v) (idt s) (idtr s).
Definition with_idt g s := Tables (gdt s) (tss s) (idx s) (gdtr s) (tr s) g (idtr s).
Definition with_idtr v s := Tables (gdt s) (tss s) (idx s) (gdtr s) (tr s) (idt s) (Some v).

(** ** Segments *)

(** The entry [gdt_set] writes: [limit_h] and [flag] are fields of four bits. *)
Definition gdt_pack (base lim flg acc : Z) : gdt_entry :=
  GdtEntry (u16 (Z.land lim (MASK_U32 16))) (u16 (Z.land base (MASK_U32 16))) (u8 (Z.land (Z.shiftr base 16) (MASK_U32 8)))
    (u8 acc) (Z.shiftr lim 16 mod 2 ^ 4) (flg mod 2 ^ 4) (u8 (Z.shiftr base 24)).

Definition gdt_set (index base lim flg acc : Z) : M tables unit :=
  s ← get;
  _ ← deref (gdt s !! Z.to_nat index);
  modify (with_gdt (<[Z.to_nat index := gdt_pack base lim flg acc]> (gdt s))).

Section gdt.
(** The addresses of [gdtr] and [tss]; [esp] is the stack pointer in [tss_desc_set]. *)
Variables (gdtr_addr tss_addr : Z).

Definition tss_desc_set (esp index : Z) : M tables unit :=
  gdt_set index tss_addr sizeof_tss TSS_FLAG (Z.lor (Z.lor TSS_NBUSY TSS_KERNEL) TSS_PRES);;
  modify (with_tss (Tss esp 0x10 (Z.shiftl SEL_UDATA 3) (Z.shiftl SEL_UTEXT 3) (Z.shiftl SEL_UDATA 3)
                        (Z.shiftl SEL_UDATA 3) (Z.shiftl SEL_UDATA 3) (Z.shiftl SEL_UDATA 3))).

Definition load_gdt (esp : Z) : M tables unit :=
  s ← get;
  let sel := SEL_TSS_BASE + idx s in
  modify (with_idx (u32 (idx s + 1)));;
  tss_desc_set esp sel;;
  modify (with_gdtr gdtr_addr);;
  modify (with_tr (Z.shiftl sel 3)).

Definition gdt_init (esp : Z) : M tables unit :=
  gdt_set SEL_KTEXT 0 GDT_LIMIT GDT_FLAG GDT_SYS_CODE;;
  gdt_set SEL_KDATE 0 GDT_LIMIT GDT_FLAG GDT_SYS_DATA;;
  gdt_set SEL_UTEXT 0 GDT_LIMIT GDT_FLAG GDT_USR_CODE;;
  gdt_set SEL_UDATA 0 GDT_LIMIT GDT_FLAG GDT_USR_DATA;;
  s ← get;
  e ← deref (gdt s !! 1%nat);
  assertk (limit e =? 0xffff);;
  assertk (base_l e =? 0);;
  assertk (base_m e =? 0);;
  assertk (base_h e =? 0);;
  assertk (limit_h e =? 0xf);;
  assertk (flag e =? 0xc);;
  assertk (access e =? GDT_SYS_CODE);;
  load_gdt esp.
End gdt.

Definition set_tss_esp (stack : Z) : M tables unit :=
  modify (λ s, with_tss (Tss stack (ss0 (tss s)) (es (tss s)) (cs (tss s)) (ss (tss s)) (ds (tss s)) (fs (tss s)) (gs (tss s))) s).

(** ** Gates *)

Definition idt_pack (offset sel ty : Z) : gate_desc :=
  Gate (u16 (Z.land offset (MASK_U32 16))) (u16 sel) 0 (u8 ty) (u16 (Z.shiftr offset 16)).

Definition idt_set_ig (n offset sel ty : Z) : M tables unit :=
  s ← get;
  _ ← deref (idt s !! Z.to_nat n);
  modify (with_idt (<[Z.to_nat n := idt_pack offset sel ty]> (idt s))).

Definition reg_isr0 (n isr : Z) : M tables unit := idt_set_ig (u8 n) isr IDT_SC IDT_TYPE.

Section idt.
(** The address of [idtr], the handlers [ISR(n)] and the entry of system calls. *)
Variables (idtr_addr : Z) (ISR : Z → Z) (syscall_entry : Z).

Definition load_idtr : M tables unit := modify (with_idtr idtr_addr).

Definition exceptions : list Z := [0; 1; 2; 3; 4; 5; 6; 7; 8; 9; 10; 11; 12; 13; 14; 16; 17; 18; 19; 20].

Fixpoint reg_exceptions (l : list Z) : M tables unit :=
  match l with [] => mret tt | n :: l' => reg_isr0 n (ISR n);; reg_exceptions l' end.

Definition idt_init : M tables unit :=
  reg_exceptions exceptions;;
  idt_set_ig SYS_CALL_NO syscall_entry IDT_SC IDT_UTYPE;;
  load_idtr.
End idt.

(** What the handlers do, up to what they print: [ISR(0)] to [ISR(12)], where break points and
    double faults return and the others stop the kernel; [ISR(13)], which looks at the zero
    bits of its error code first; [ISR(16)] to [ISR(20)]. *)
Definition exception_low {S} (n : Z) : M S unit := if (n =? 3) || (n =? 8) then mret tt else fail Assert.
Definition gp_exception {S} (error_code : Z) : M S unit := assertk (Z.shiftr (u32 error_code) 16 =? 0);; fail Assert.
Definition exception_high {S} (n : Z) : M S unit := fail Assert.

(** ** What the processor reads *)

(** The eight bytes of the packed structure, as one number, and the fields of a descriptor
    after the manual of the processor. *)
Definition gdt_word (e : gdt_entry) : Z :=
  limit e + 2 ^ 16 * base_l e + 2 ^ 32 * base_m e + 2 ^ 40 * access e + 2 ^ 48 * limit_h e + 2 ^ 52 * flag e + 2 ^ 56 * base_h e.
Definition seg_base (e : gdt_entry) : Z := gdt_word e / 2 ^ 16 mod 2 ^ 24 + 2 ^ 24 * (gdt_word e / 2 ^ 56 mod 2 ^ 8).
Definition seg_limit (e : gdt_entry) : Z := gdt_word e mod 2 ^ 16 + 2 ^ 16 * (gdt_word e / 2 ^ 48 mod 2 ^ 4).
Definition seg_type (e : gdt_entry) : Z := gdt_word e / 2 ^ 40 mod 2 ^ 8.
Definition seg_flags (e : gdt_entry) : Z := gdt_word e / 2 ^ 52 mod 2 ^ 4.
Definition gate_offset (g : gate_desc) : Z := offset_l g + 2 ^ 16 * offset_h g.
Definition gate_present (g : gate_desc) : bool := Z.testbit (type g) 7.
Definition gate_dpl (g : gate_desc) : Z := type g / 2 ^ 5 mod 4.

Lemma low16 z : Z.land z (MASK_U32 16) = z mod 2 ^ 16.
Proof. change (MASK_U32 16) with (Z.ones 16). apply Z.land_ones. lia. Qed.
Lemma low8 z : Z.land z (MASK_U32 8) = z mod 2 ^ 8.
Proof. change (MASK_U32 8) with (Z.ones 8). apply Z.land_ones. lia. Qed.

(** A number [a + 2^k * b] whose low part has [k] bits. *)
Lemma cut_low a b k : 0 ≤ k → 0 ≤ a < 2 ^ k → (a + 2 ^ k * b) / 2 ^ k = b ∧ (a + 2 ^ k * b) mod 2 ^ k = a.
Proof.
  intros Hk Ha. rewrite (Z.mul_comm (2 ^ k)), Z.div_add, Z.mod_add, Z.div_small, Z.mod_small by lia. lia.
Qed.

(** The fields that [gdt_set] writes are where the processor looks for them. *)
Lemma gdt_word_fields e : 0 ≤ limit e < 2 ^ 16 → 0 ≤ base_l e < 2 ^ 16 → 0 ≤ base_m e < 2 ^ 8 → 0 ≤ access e < 2 ^ 8 →
  0 ≤ limit_h e < 2 ^ 4 → 0 ≤ flag e < 2 ^ 4 → 0 ≤ base_h e < 2 ^ 8 →
  seg_base e = base_l e + 2 ^ 16 * base_m e + 2 ^ 24 * base_h e ∧ seg_limit e = limit e + 2 ^ 16 * limit_h e ∧ seg_type e = access e ∧ seg_flags e = flag e.
Proof.
  intros H1 H2 H3 H4 H5 H6 H7. unfold seg_base, seg_limit, seg_type, seg_flags, gdt_word. destruct e as [l bl bm ac lh fl bh]. cbn [limit base_l base_m access limit_h flag base_h] in *.
  set (w := l + _ + _ + _ + _ + _ + _).
  assert (w / 2 ^ 16 = (bl + 2 ^ 16 * bm) + 2 ^ 24 * (ac + 2 ^ 8 * (lh + 2 ^ 4 * (fl + 2 ^ 4 * bh))) ∧ w mod 2 ^ 16 = l) as [E16 ->].
  { replace w with (l + 2 ^ 16 * ((bl + 2 ^ 16 * bm) + 2 ^ 24 * (ac + 2 ^ 8 * (lh + 2 ^ 4 * (fl + 2 ^ 4 * bh))))) by (unfold w; lia). by apply cut_low. }
  assert (w / 2 ^ 40 = ac + 2 ^ 8 * (lh + 2 ^ 4 * (fl + 2 ^ 4 * bh))) as E40.
  { change (2 ^ 40) with (2 ^ 16 * 2 ^ 24). rewrite <-Z.div_div, E16 by lia. apply cut_low; lia. }
  assert (w / 2 ^ 48 = lh + 2 ^ 4 * (fl + 2 ^ 4 * bh)) as E48.
  { change (2 ^ 48) with (2 ^ 40 * 2 ^ 8). rewrite <-Z.div_div, E40 by lia. apply cut_low; lia. }
  assert (w / 2 ^ 52 = fl + 2 ^ 4 * bh) as E52.
  { change (2 ^ 52) with (2 ^ 48 * 2 ^ 4). rewrite <-Z.div_div, E48 by lia. apply cut_low; lia. }
  assert (w / 2 ^ 56 = bh) as E56.
  { change (2 ^ 56) with (2 ^ 52 * 2 ^ 4). rewrite <-Z.div_div, E52 by lia. apply cut_low; lia. }
  rewrite E16, E40, E48, E52, E56, (Z.mod_small bh) by lia. split_and!; [f_equal|f_equal; f_equal| |]; apply cut_low; lia.
Qed.
Lemma gdt_pack_fields base lim flg acc : let e := gdt_pack base lim flg acc in
  seg_base e = base_l e + 2 ^ 16 * base_m e + 2 ^ 24 * base_h e ∧ seg_limit e = limit e + 2 ^ 16 * limit_h e ∧ seg_type e = access e ∧ seg_flags e = flag e.
Proof. apply gdt_word_fields; cbn; unfold u16, u8; apply Z.mod_pos_bound; lia. Qed.

(** The entry [gdt_set] writes is read back as the segment that was asked for. *)
Lemma gdt_pack_base base lim flg acc : 0 ≤ base < 2 ^ 32 → seg_base (gdt_pack base lim flg acc) = base.
Proof.
  intros H. rewrite (proj1 (gdt_pack_fields base lim flg acc)). cbn [base_l base_m base_h gdt_pack]. rewrite low16, low8, !Z.shiftr_div_pow2 by lia. unfold u16, u8. rewrite !Zmod_mod.
  rewrite (Z.mod_small (base / 2 ^ 24)) by (split; [apply Z.div_pos; lia|apply Z.div_lt_upper_bound; lia]).
  pose proof (Z.div_mod base (2 ^ 16) ltac:(lia)). pose proof (Z.div_mod (base / 2 ^ 16) (2 ^ 8) ltac:(lia)) as H2. rewrite Z.div_div in H2 by lia.
  change (2 ^ 16 * 2 ^ 8) with (2 ^ 24) in H2. lia.
Qed.
Lemma gdt_pack_limit base lim flg acc : 0 ≤ lim < 2 ^ 20 → seg_limit (gdt_pack base lim flg acc) = lim.
Proof.
  intros H. rewrite (proj1 (proj2 (gdt_pack_fields base lim flg acc))). cbn [limit limit_h gdt_pack]. rewrite low16, Z.shiftr_div_pow2 by lia. unfold u16. rewrite Zmod_mod.
  rewrite (Z.mod_small (lim / 2 ^ 16)) by (split; [apply Z.div_pos; lia|apply Z.div_lt_upper_bound; lia]). pose proof (Z.div_mod lim (2 ^ 16) ltac:(lia)). lia.
Qed.
Lemma idt_pack_offset offset sel ty : 0 ≤ offset < 2 ^ 32 → gate_offset (idt_pack offset sel ty) = offset.
Proof.
  intros H. unfold gate_offset. cbn [offset_l offset_h idt_pack]. rewrite low16, Z.shiftr_div_pow2 by lia. unfold u16. rewrite Zmod_mod.
  rewrite (Z.mod_small (offset / 2 ^ 16)) by (split; [apply Z.div_pos; lia|apply Z.div_lt_upper_bound; lia]). pose proof (Z.div_mod offset (2 ^ 16) ltac:(lia)). lia.
Qed.

(** ** Writes *)

Lemma wp_gdt_set i base lim flg acc (Q : unit → tables → Prop) s : (Z.to_nat i < length (gdt s))%nat →
  Q tt (with_gdt (<[Z.to_nat i := gdt_pack base lim flg acc]> (gdt s)) s) → wp (gdt_set i base lim flg acc) Q s.
Proof. intros H HQ. unfold gdt_set. do 2 wp_step. destruct (lookup_lt_is_Some_2 _ _ H) as [e He]. wp_step. wp_step; [exact He|]. by wp_step. Qed.
Lemma wp_idt_set n off sel ty (Q : unit → tables → Prop) s : (Z.to_nat n < length (idt s))%nat →
  Q tt (with_idt (<[Z.to_nat n := idt_pack off sel ty]> (idt s)) s) → wp (idt_set_ig n off sel ty) Q s.
Proof. intros H HQ. unfold idt_set_ig. do 2 wp_step. destruct (lookup_lt_is_Some_2 _ _ H) as [e He]. wp_step. wp_step; [exact He|]. by wp_step. Qed.

Section ops.
Variables (gdtr_addr tss_addr : Z).

(** The entry of the task state segment. *)
Definition tss_desc : gdt_entry := gdt_pack tss_addr sizeof_tss TSS_FLAG (Z.lor (Z.lor TSS_NBUSY TSS_KERNEL) TSS_PRES).
Definition tss_of (esp : Z) : tss_t := Tss esp 0x10 32 24 32 32 32 32.

(** The state behind [load_gdt]. *)
Definition loaded (esp : Z) (s : tables) : tables :=
  Tables (<[Z.to_nat (5 + idx s) := tss_desc]> (gdt s)) (tss_of esp) (u32 (idx s + 1)) (Some gdtr_addr) (Some (Z.shiftl (5 + idx s) 3)) (idt s) (idtr s).

Lemma wp_load_gdt esp (Q : unit → tables → Prop) s : (Z.to_nat (5 + idx s) < length (gdt s))%nat → Q tt (loaded esp s) → wp (load_gdt gdtr_addr tss_addr esp) Q s.
Proof.
  intros H HQ. unfold load_gdt, SEL_TSS_BASE. do 4 wp_step. unfold tss_desc_set. wp_step. wp_step. apply wp_gdt_set; [done|]. wp_step. wp_step. wp_step. wp_step. exact HQ.
Qed.

End ops.

(** ** The tables of the kernel *)

(** A present segment over the whole memory, in pages, of 32 bits, that can be read and
    written or, for code, executed. *)
Definition flat (dpl : Z) (code : bool) (e : gdt_entry) : Prop :=
  seg_base e = 0 ∧ seg_limit e = 0xfffff ∧ seg_flags e = 12 ∧ seg_type e = 0x92 + 2 ^ 5 * dpl + 8 * Z.b2z code.

(** C35: [gdt_init] returns with the four flat segments of kernel and user programs, the
    first entry empty and the descriptor of the task state segment behind them, which is
    loaded; its limit is the size of the segment, one more than its last byte. *)
Theorem gdt_init_correct gdtr_addr tss_addr esp : 0 ≤ tss_addr < 2 ^ 32 →
  wp (gdt_init gdtr_addr tss_addr esp) (λ _ s', ∃ k d u v t,
    gdt s' = [gdt_null; k; d; u; v; t] ++ replicate 14 gdt_null ∧
    flat 0 true k ∧ flat 0 false d ∧ flat 3 true u ∧ flat 3 false v ∧
    seg_base t = tss_addr ∧ seg_limit t = sizeof_tss ∧ seg_type t = 0x89 ∧
    gdtr s' = Some gdtr_addr ∧ tr s' = Some 0x28 ∧ esp0 (tss s') = esp ∧ ss0 (tss s') = 8 * SEL_KDATE) tables0.
Proof.
  intros Ht. unfold gdt_init. do 4 (wp_step; apply wp_gdt_set; [vm_compute; lia|]). do 4 wp_step.
  { reflexivity. }
  repeat (wp_step; [reflexivity|]).
  do 7 (wp_step; apply wp_assertk; split; [reflexivity|]). apply wp_load_gdt; [vm_compute; lia|].
  eexists (gdt_pack 0 GDT_LIMIT GDT_FLAG GDT_SYS_CODE), (gdt_pack 0 GDT_LIMIT GDT_FLAG GDT_SYS_DATA), (gdt_pack 0 GDT_LIMIT GDT_FLAG GDT_USR_CODE), (gdt_pack 0 GDT_LIMIT GDT_FLAG GDT_USR_DATA), (tss_desc tss_addr).
  split; [reflexivity|]. do 4 (split; [by vm_compute|]). split; [by apply gdt_pack_base|]. split; [by apply gdt_pack_limit|].
  split; [|done]. apply gdt_pack_fields.
Qed.

(** Further processors load the tables one after the other. *)
Fixpoint load_all (gdtr_addr tss_addr : Z) (esps : list Z) : M tables unit :=
  match esps with [] => mret tt | esp :: l => load_gdt gdtr_addr tss_addr esp;; load_all gdtr_addr tss_addr l end.

(** Every processor that calls [load_gdt] gets a descriptor of its own, but all of them
    are for the same task state segment: the kernel stack there is the one of the
    processor that called last. *)
Theorem load_gdt_shares_tss gdtr_addr tss_addr esps esp s : 0 ≤ tss_addr < 2 ^ 32 → length (gdt s) = GDT_COUNT → 0 ≤ idx s →
  idx s + Z.of_nat (length esps) < 15 →
  wp (load_all gdtr_addr tss_addr (esps ++ [esp])) (λ _ s', esp0 (tss s') = esp ∧ tr s' = Some (8 * (5 + idx s + Z.of_nat (length esps))) ∧
    (∀ i, idx s ≤ i ≤ idx s + Z.of_nat (length esps) → ∃ e, gdt s' !! Z.to_nat (5 + i) = Some e ∧ seg_base e = tss_addr) ∧
    ∀ i, 0 ≤ i < 5 + idx s → gdt s' !! Z.to_nat i = gdt s !! Z.to_nat i) s.
Proof.
  intros Ht. revert s. induction esps as [|e l IH]; intros s Hg H0 Hn; unfold GDT_COUNT in *; cbn [app load_all length] in *; wp_step; (apply wp_load_gdt; [rewrite Hg; lia|]).
  - wp_step. cbn [loaded tr tss gdt esp0 tss_of]. rewrite Z.shiftl_mul_pow2 by lia. split_and!; [done|f_equal; lia| |].
    + intros i Hi. replace i with (idx s) by lia. rewrite list_lookup_insert_eq by (rewrite Hg; lia). eexists. split; [done|]. by apply gdt_pack_base.
    + intros i Hi. by rewrite list_lookup_insert_ne by lia.
  - assert (idx (loaded gdtr_addr tss_addr e s) = idx s + 1) as Ei by (cbn; apply u32_small; lia).
    eapply wp_mono; [apply (IH (loaded gdtr_addr tss_addr e s)); [by cbn; rewrite length_insert|lia|lia]|]. rewrite Ei. intros _ s' (He & Htr & Hs & Ho).
    split_and!; [done|rewrite Htr; f_equal; lia| |].
    + intros i Hi. destruct (decide (i = idx s)) as [->|Hne]; [|apply Hs; lia]. rewrite Ho by lia. cbn [loaded gdt].
      rewrite list_lookup_insert_eq by (rewrite Hg; lia). eexists. split; [done|]. by apply gdt_pack_base.
    + intros i Hi. rewrite Ho by lia. cbn [loaded gdt]. by rewrite list_lookup_insert_ne by lia.
Qed.

Lemma wp_reg_exceptions ISR l : ∀ s, length (idt s) = IDT_COUNT → Forall (λ n, 0 ≤ n < 256) l →
  wp (reg_exceptions ISR l) (λ _ s', s' = with_idt (idt s') s ∧ length (idt s') = IDT_COUNT ∧
    ∀ n, 0 ≤ n → idt s' !! Z.to_nat n = if decide (n ∈ l) then Some (idt_pack (ISR n) IDT_SC IDT_TYPE) else idt s !! Z.to_nat n) s.
Proof.
  unfold IDT_COUNT. induction l as [|m l IH]; intros s Hi Hl; cbn [reg_exceptions].
  { wp_step. split; [by destruct s|]. split; [done|]. intros n _. case_decide as H; [by apply elem_of_nil in H|done]. }
  apply Forall_cons in Hl as [Hm Hl]. wp_step. unfold reg_isr0. rewrite u8_small by lia. apply wp_idt_set; [rewrite Hi; lia|].
  eapply wp_mono; [apply IH; [by cbn; rewrite length_insert|done]|]. intros _ s' (Es & El & Hs). split; [by rewrite Es|]. split; [done|].
  intros n Hn. rewrite Hs by done. cbn [idt with_idt]. destruct (decide (n = m)) as [->|Hne].
  - rewrite (decide_True (P := m ∈ m :: l)) by apply list_elem_of_here. case_decide; [done|]. rewrite list_lookup_insert_eq by (rewrite Hi; lia). done.
  - rewrite list_lookup_insert_ne by lia. destruct (decide (n ∈ l)) as [H1|H1], (decide (n ∈ m :: l)) as [H2|H2]; rewrite elem_of_cons in H2; naive_solver.
Qed.

(** [idt_init] enters a present gate of the kernel for every exception it has a handler
    for, a gate that programs may use for system calls, and no other gate. *)
Theorem idt_init_correct idtr_addr ISR entry s : length (idt s) = IDT_COUNT → (∀ n, idt s !! n = Some gate_null ∨ idt s !! n = None) →
  (∀ n, 0 ≤ ISR n < 2 ^ 32) → 0 ≤ entry < 2 ^ 32 →
  wp (idt_init idtr_addr ISR entry) (λ _ s', idtr s' = Some idtr_addr ∧ gdt s' = gdt s ∧ tss s' = tss s ∧
    ∀ n, 0 ≤ n < 256 → ∃ g, idt s' !! Z.to_nat n = Some g ∧
      (n ∈ exceptions → gate_offset g = ISR n ∧ selector g = IDT_SC ∧ gate_present g = true ∧ gate_dpl g = 0) ∧
      (n = SYS_CALL_NO → gate_offset g = entry ∧ selector g = IDT_SC ∧ gate_present g = true ∧ gate_dpl g = 3) ∧
      ((n ∉ exceptions) → n ≠ SYS_CALL_NO → gate_present g = false)) s.
Proof.
  intros Hi Hnull HI He. unfold idt_init. wp_step. eapply wp_mono; [apply wp_reg_exceptions; [done|by repeat constructor; lia]|].
  intros _ s1 (Es & El & Hs). unfold IDT_COUNT in *. wp_step. apply wp_idt_set; [unfold SYS_CALL_NO; lia|]. unfold load_idtr. wp_step. rewrite Es. cbn [idtr gdt tss idt with_idt with_idtr].
  split_and!; [done..|]. intros n Hn. destruct (decide (n = SYS_CALL_NO)) as [->|Hne].
  - rewrite list_lookup_insert_eq by (unfold SYS_CALL_NO; lia). eexists. split; [done|]. split; [intros Hex; exfalso; revert Hex; by apply (bool_decide_eq_false_1 _)|].
    split; [intros _; split; [by apply idt_pack_offset|by vm_compute]|done].
  - rewrite list_lookup_insert_ne by (unfold SYS_CALL_NO in *; lia). rewrite Hs by lia. case_decide as Hex.
    + eexists. split; [done|]. split; [intros _; split; [by apply idt_pack_offset|by vm_compute]|]. by split.
    + destruct (lookup_lt_is_Some_2 (idt s) (Z.to_nat n) ltac:(lia)) as [g Hg]. exists g. split; [done|]. split; [done|]. split; [done|]. intros _ _.
      destruct (Hnull (Z.to_nat n)) as [H|H]; rewrite H in Hg; [|done]. by injection Hg as <-.
Qed.

(** ** Instances *)

Lemma gdt_init_correct_witness : wp (gdt_init 0xc0200000 0xc0201000 0xc0300000) (λ _ s', tr s' = Some 0x28 ∧ ∃ t, gdt s' !! 5%nat = Some t ∧ seg_base t = 0xc0201000) tables0.
Proof.
  eapply wp_mono; [apply (gdt_init_correct 0xc0200000 0xc0201000 0xc0300000); lia|].
  intros _ s' (k & d & u & v & t & Hg & _ & _ & _ & _ & Hb & _ & _ & _ & Htr & _). split; [done|]. exists t. by rewrite Hg.
Defined.

(** A second and a third processor: the stack of the second is lost. *)
Lemma load_gdt_shares_tss_witness : wp (load_all 0xc0200000 0xc0201000 [0xc0310000; 0xc0320000])
  (λ _ s', esp0 (tss s') = 0xc0320000 ∧ ∃ e, gdt s' !! 5%nat = Some e ∧ seg_base e = 0xc0201000) tables0.
Proof.
  eapply wp_mono; [apply (load_gdt_shares_tss 0xc0200000 0xc0201000 [0xc0310000] 0xc0320000 tables0); [lia|done|done|cbn; lia]|].
  intros _ s' (He & _ & Hs & _). split; [done|]. apply (Hs 0). cbn. lia.
Defined.

Lemma idt_init_correct_witness : wp (idt_init 0xc0202000 (λ n, 0xc0100000 + n mod 256 * 16) 0xc0110000)
  (λ _ s', ∃ g, idt s' !! 14%nat = Some g ∧ gate_offset g = 0xc01000e0) tables0.
Proof.
  eapply wp_mono; [apply (idt_init_correct 0xc0202000 (λ n, 0xc0100000 + n mod 256 * 16) 0xc0110000 tables0); [done| | |lia]|].
  - intros n. cbn [idt tables0]. destruct (decide (n < IDT_COUNT)%nat); [left; by apply lookup_replicate_2|right; apply lookup_ge_None; rewrite length_replicate; lia].
  - intros n. pose proof (Z.mod_pos_bound n 256 ltac:(lia)). lia.
  - intros _ s' (_ & _ & _ & Hs). destruct (Hs 14 ltac:(lia)) as (g & Hg & Hex & _). exists g. split; [done|]. apply Hex. by repeat constructor.
Defined.
