(* ===== verification/IntCtl.v ===== *)
(** * Interrupt controllers (drivers/lapic.c, drivers/ioapic.c, reg_isr of x86/isr.c)

    Interrupts of devices go through the registers of the I/O controller, which are
    reached one at a time through a window; what the kernel relies on of that device is
    the class [IoApicLaws].  The controller of a processor is seen by what is written to
    its registers and by its answers, as the ports are. *)

From S2P Require Import Prelude QLib Memory Vm Segments Ports Acpi.
From Stdlib Require Import ZArith Lia.
From stdpp Require Import base numbers gmap list.
Open Scope Z_scope.

#[local] Arguments Z.mul : simpl never.
#[local] Arguments Z.add : simpl never.
#[local] Arguments Z.div : simpl never.
#[local] Arguments Z.modulo : simpl never.
#[local] Arguments Z.to_nat : simpl never.

Definition IRQ0 : Z := 32.
Definition IRQ_TIMER : Z := 0.
Definition IRQ_ERROR : Z := 19.
Definition IRQ_SPURIOUS : Z := 31.

(** ** The I/O controller *)

Definition IOAPIC_ID : Z := 0.
Definition IOAPIC_VER : Z := 1.
Definition IO_TBL : Z := 0x10.
Definition IR_CNT_MAST : Z := MASK_U32 8.
Definition INT_DISABLED : Z := Z.shiftl 1 16.

(** The registers of the device: [io_reg d i] is what a read of register [i] answers. *)
Class IoApic (D : Type) := { io_reg : D → Z → Z; io_put : Z → Z → D → D }.

(** The number of the last redirection entry, from the version register. *)
Definition io_last {D} `{IoApic D} (d : D) : Z := Z.land (Z.shiftr (io_reg d IOAPIC_VER) 16) IR_CNT_MAST.
(** The bits of a table register that can be written, after the data sheet: vector, delivery
    mode, destination mode, polarity, trigger mode and mask in the lower word of an entry,
    the destination in the higher one.  The others are status bits or reserved. *)
Definition RW_LOW : Z := 0x1afff.
Definition RW_HIGH : Z := 0xff000000.
Definition rw_bits (i : Z) : Z := if Z.even i then RW_LOW else RW_HIGH.
Definition in_table {D} `{IoApic D} (d : D) (i : Z) : Prop := IO_TBL ≤ i ≤ IO_TBL + 2 * io_last d + 1.

(** Register [0x10 + 2 n] and the next one are the redirection entry [n], up to the last
    one.  A write sets the writable bits of its register and no others of the table, and the
    first registers do not change. *)
Class IoApicLaws (D : Type) `{IoApic D} := {
  io_put_same d i v : in_table d i → 0 ≤ v < 2 ^ 32 → Z.land (io_reg (io_put i v d) i) (rw_bits i) = Z.land v (rw_bits i);
  io_put_other d i j v : in_table d i → in_table d j → i ≠ j → Z.land (io_reg (io_put i v d) j) (rw_bits j) = Z.land (io_reg d j) (rw_bits j);
  io_put_head d i j v : in_table d i → j = IOAPIC_ID ∨ j = IOAPIC_VER → io_reg (io_put i v d) j = io_reg d j }.

(** [ioapic] is the mapped address; [irq_id] the static variable of [irqEnable]. *)
Record intc (D : Type) := Intc { i_tab : tables; i_dev : D; ioapic : Z; irq_id : Z; i_cfg : apic; i_cpus : list cpu }.
Arguments Intc {D}. Arguments i_tab {D}. Arguments i_dev {D}. Arguments ioapic {D}. Arguments irq_id {D}. Arguments i_cfg {D}. Arguments i_cpus {D}.

Section ioapic.
Context {D : Type} `{IoApic D}.

Definition with_dev (d : D) (s : intc D) : intc D := Intc (i_tab s) d (ioapic s) (irq_id s) (i_cfg s) (i_cpus s).
Definition with_tab t (s : intc D) : intc D := Intc t (i_dev s) (ioapic s) (irq_id s) (i_cfg s) (i_cpus s).
Definition with_io p (s : intc D) : intc D := Intc (i_tab s) (i_dev s) p (irq_id s) (i_cfg s) (i_cpus s).
Definition with_irq i (s : intc D) : intc D := Intc (i_tab s) (i_dev s) (ioapic s) i (i_cfg s) (i_cpus s).
Definition on_tab {A} (m : M tables A) : M (intc D) A := zoom i_tab with_tab m.

(** Before [ioapic_init] the pointer is NULL. *)
Definition ioapicw (idx data : Z) : M (intc D) unit :=
  s ← get;
  if ioapic s =? 0 then fail Fault else modify (with_dev (io_put idx data (i_dev s))).
Definition ioapicr (idx : Z) : M (intc D) Z :=
  s ← get;
  if ioapic s =? 0 then fail Fault else mret (io_reg (i_dev s) idx).

Definition mask_entry (i : Z) : M (intc D) unit :=
  ioapicw (IO_TBL + 2 * i) (Z.lor INT_DISABLED (IRQ0 + i));;
  ioapicw (IO_TBL + 2 * i + 1) 0.

Definition ioapic_init : M (intc D) unit :=
  s ← get;
  assertk (negb (ioapicPtr (i_cfg s) =? 0));;
  modify (with_io (ioapicPtr (i_cfg s)));;
  v ← ioapicr IOAPIC_VER;
  let irqCnt := Z.land (Z.shiftr v 16) IR_CNT_MAST in
  assertk (negb (irqCnt =? 0));;
  id ← ioapicr IOAPIC_ID;
  assertk (Z.shiftr id 24 =? ioApicId (i_cfg s));;
  for_up (Z.to_nat irqCnt) 0 mask_entry.

(** A machine without processors divides by 0. *)
Definition next_cpu (lapicId : Z) : M (intc D) Z :=
  if lapicId =? -1 then
    s ← get;
    assertk (truth (nCpu (i_cfg s)));;
    let id := u16 ((irq_id s + 1) mod nCpu (i_cfg s)) in
    modify (with_irq id);;
    c ← deref (i_cpus s !! Z.to_nat id);
    mret (apic_id c)
  else mret lapicId.

Definition irqEnable (irq lapicId : Z) : M (intc D) unit :=
  lapicId ← next_cpu lapicId;
  ioapicw (u32 (IO_TBL + 2 * irq)) (u32 (IRQ0 + irq));;
  ioapicw (u32 (IO_TBL + 2 * irq + 1)) (u32 (Z.shiftl lapicId 24)).

Definition reg_isr (n isr : Z) : M (intc D) unit := on_tab (reg_isr0 n isr);; irqEnable (u8 n - IRQ0) (-1).
Definition reg_isr1 (n isr lapicId : Z) : M (intc D) unit := on_tab (reg_isr0 n isr);; irqEnable (u8 n - IRQ0) lapicId.

(** The terminal takes the keyboard interrupt; the timer that of the clock, once for every
    processor of the table. *)
Definition IRQ_KBD : Z := 1.
Definition terminal_init (kb_isr : Z) : M (intc D) unit := reg_isr (IRQ0 + IRQ_KBD) kb_isr.
Definition clock_register (clock_isr : Z) : M (intc D) unit :=
  s ← get;
  for_up (Z.to_nat (nCpu (i_cfg s))) 0 (λ i,
    s ← get; c ← deref (i_cpus s !! Z.to_nat i); reg_isr1 (IRQ0 + IRQ_TIMER) clock_isr (apic_id c)).
End ioapic.

(** ** The controller of a processor *)

Definition APIC_ID : Z := 0x0020.
Definition VER : Z := 0x0030.
Definition TPR : Z := 0x0080.
Definition EOI : Z := 0x00B0.
Definition SVR : Z := 0x00F0.
Definition ESR : Z := 0x0280.
Definition ICR_LO : Z := 0x0300.
Definition ICR_HI : Z := 0x0310.
Definition TIMER : Z := 0x0320.
Definition PCINT : Z := 0x0340.
Definition LINT0 : Z := 0x0350.
Definition LINT1 : Z := 0x0360.
Definition ERROR : Z := 0x0370.
Definition TICR : Z := 0x0380.
Definition TDCR : Z := 0x03E0.
Definition STARTUP : Z := Z.shiftl 6 8.
Definition ASSERT : Z := Z.shiftl 1 14.
Definition ENABLE : Z := Z.shiftl 1 8.
Definition INIT : Z := Z.shiftl 5 8.
Definition LEVEL : Z := Z.shiftl 1 15.
Definition IPI_ALL : Z := Z.shiftl 2 18.
Definition IPI_PENDING : Z := Z.shiftl 1 12.
Definition X1 : Z := 11.
Definition PERIODIC : Z := Z.shiftl 1 17.
Definition MASKED : Z := Z.shiftl 1 16.

(** Writes newest first; [lapic_in n i] is the [n]-th answer, to a read of register [i]. *)
Record lapic_dev := LapicDev { lapic : Z; la_reads : nat; la_out : list (Z * Z) }.

Section lapic.
Variable lapic_in : nat → Z → Z.

Definition lapicR (index : Z) : M lapic_dev Z := λ s,
  if lapic s =? 0 then Err Fault else Ok (u32 (lapic_in (la_reads s) index), LapicDev (lapic s) (S (la_reads s)) (la_out s)).
(** A read of [APIC_ID] waits for the write. *)
Definition lapicW (index value : Z) : M lapic_dev unit :=
  s ← get;
  if lapic s =? 0 then fail Fault
  else modify (λ s, LapicDev (lapic s) (la_reads s) ((index, u32 value) :: la_out s));; _ ← lapicR APIC_ID; mret tt.

Definition wait_ipi : unit → M lapic_dev (unit + unit) := λ _,
  v ← lapicR ICR_LO; if truth (Z.land v IPI_PENDING) then mret (inl tt) else mret (inr tt).

(** [fuel] bounds the rounds of waiting for the delivery. *)
Definition lapic_init (fuel : nat) (lapicPtr : Z) : M lapic_dev unit :=
  assertk (negb (lapicPtr =? 0));;
  modify (λ s, LapicDev lapicPtr (la_reads s) (la_out s));;
  lapicW SVR (Z.lor ENABLE (IRQ0 + IRQ_SPURIOUS));;
  lapicW TDCR X1;;
  lapicW TIMER (Z.lor PERIODIC (IRQ0 + IRQ_TIMER));;
  lapicW TICR 10000000;;
  lapicW LINT0 MASKED;;
  lapicW LINT1 MASKED;;
  v ← lapicR VER;
  when (4 <=? Z.land (Z.shiftr v 16) 0xff) (lapicW PCINT MASKED);;
  lapicW ERROR (IRQ0 + IRQ_ERROR);;
  lapicW ESR 0;;
  lapicW ESR 0;;
  lapicW EOI 0;;
  lapicW ICR_HI 0;;
  lapicW ICR_LO (Z.lor (Z.lor IPI_ALL INIT) LEVEL);;
  loop fuel wait_ipi tt;;
  lapicW TPR 0.

Definition lapicId : M lapic_dev Z := v ← lapicR APIC_ID; mret (Z.shiftr v 24).
Definition lapicEoi : M lapic_dev unit := lapicW EOI 0.

(** *** Start of a processor *)

Record ap_start := ApStart { ap_lapic : lapic_dev; ap_ports : ports; ap_mem : mem }.
Definition on_lapic {A} (m : M lapic_dev A) : M ap_start A := zoom ap_lapic (λ x s, ApStart x (ap_ports s) (ap_mem s)) m.
Definition on_aports {A} (m : M ports A) : M ap_start A := zoom ap_ports (λ x s, ApStart (ap_lapic s) x (ap_mem s)) m.
Definition on_amem {A} (m : M mem A) : M ap_start A := zoom ap_mem (λ x s, ApStart (ap_lapic s) (ap_ports s) x) m.

Definition cmos_w (addr data : Z) : M ports unit := outb 0x70 addr;; outb 0x71 data.

(** [microdelay] is empty. *)
Definition lapicStartAp (apicid addr : Z) : M ap_start unit :=
  on_aports (cmos_w 0xf 0xa);;
  on_amem (store16 (0x467 + KERNEL_START) 0);;
  on_amem (store16 (0x467 + KERNEL_START + 2) (u16 (Z.shiftr addr 4)));;
  on_lapic (lapicW ICR_HI (Z.shiftl apicid 24));;
  on_lapic (lapicW ICR_LO (Z.lor (Z.lor INIT LEVEL) ASSERT));;
  on_lapic (lapicW ICR_LO (Z.lor INIT LEVEL));;
  for_up 2 0 (λ _,
    on_lapic (lapicW ICR_HI (Z.shiftl apicid 24));;
    on_lapic (lapicW ICR_LO (Z.lor STARTUP (Z.shiftr addr 12)))).
End lapic.

(** ** Routing of interrupts *)

Section routing.
Context {D : Type} `{IoApicLaws D}.

(** The redirection entry [i]: the writable bits of its lower and its higher word. *)
Definition redirection (d : D) (i : Z) : Z * Z := (Z.land (io_reg d (IO_TBL + 2 * i)) RW_LOW, Z.land (io_reg d (IO_TBL + 2 * i + 1)) RW_HIGH).

Lemma rw_bits_low i : rw_bits (IO_TBL + 2 * i) = RW_LOW.
Proof. unfold rw_bits. by rewrite Z.even_add_mul_2. Qed.
Lemma rw_bits_high i : rw_bits (IO_TBL + 2 * i + 1) = RW_HIGH.
Proof. unfold rw_bits. by rewrite Z.add_1_r, Z.even_succ, Z.odd_add_mul_2. Qed.
Lemma io_last_range (d : D) : 0 ≤ io_last d < 256.
Proof. unfold io_last. change IR_CNT_MAST with (Z.ones 8). rewrite Z.land_ones by lia. by apply Z.mod_pos_bound. Qed.

Lemma wp_ioapicw i v (Q : unit → intc D → Prop) s : ioapic s ≠ 0 → Q tt (with_dev (io_put i v (i_dev s)) s) → wp (ioapicw i v) Q s.
Proof. intros Hp HQ. unfold ioapicw. do 2 wp_step. rewrite (proj2 (Z.eqb_neq _ _) Hp). by wp_step. Qed.
Lemma wp_ioapicr i (Q : Z → intc D → Prop) s : ioapic s ≠ 0 → Q (io_reg (i_dev s) i) s → wp (ioapicr i) Q s.
Proof. intros Hp HQ. unfold ioapicr. do 2 wp_step. rewrite (proj2 (Z.eqb_neq _ _) Hp). by wp_step. Qed.

Lemma io_last_put (d : D) i v : in_table d i → io_last (io_put i v d) = io_last d.
Proof. intros Hi. unfold io_last. rewrite io_put_head; [done|done|by right]. Qed.

(** Two writes set one entry and leave the others and the number of entries alone. *)
Lemma put_entry i lo hi (d : D) : 0 ≤ i ≤ io_last d → 0 ≤ lo < 2 ^ 32 → 0 ≤ hi < 2 ^ 32 →
  let d' := io_put (IO_TBL + 2 * i + 1) hi (io_put (IO_TBL + 2 * i) lo d) in
  redirection d' i = (Z.land lo RW_LOW, Z.land hi RW_HIGH) ∧ (∀ j, 0 ≤ j ≤ io_last d → j ≠ i → redirection d' j = redirection d j) ∧ io_last d' = io_last d.
Proof.
  intros Hi Hlo Hhi d'. set (d1 := io_put (IO_TBL + 2 * i) lo d) in *. assert (io_last d1 = io_last d) as E1 by (apply io_last_put; unfold in_table; lia).
  assert (∀ j, 0 ≤ j ≤ io_last d → in_table d (IO_TBL + 2 * j) ∧ in_table d (IO_TBL + 2 * j + 1) ∧ in_table d1 (IO_TBL + 2 * j) ∧ in_table d1 (IO_TBL + 2 * j + 1)) as Hin
    by (unfold in_table; rewrite E1; lia).
  destruct (Hin i Hi) as (I1 & I2 & I3 & I4). unfold d', redirection. split_and!.
  - rewrite <-(rw_bits_low i), <-(rw_bits_high i). f_equal; [rewrite io_put_other by (done || lia)|]; by apply io_put_same.
  - intros j Hj Hne. destruct (Hin j Hj) as (J1 & J2 & J3 & J4). rewrite <-(rw_bits_low j), <-(rw_bits_high j).
    f_equal; rewrite io_put_other by (done || lia); apply io_put_other; (done || lia).
  - by rewrite io_last_put.
Qed.

Lemma masked_bits i : 0 ≤ i < 256 → let v := Z.lor INT_DISABLED (IRQ0 + i) in 0 ≤ v < 2 ^ 32 ∧ Z.land v RW_LOW = v.
Proof.
  intros Hi. assert (forallb (λ n, let v := Z.lor INT_DISABLED (IRQ0 + Z.of_nat n) in (0 <=? v) && (v <? 2 ^ 32) && (Z.land v RW_LOW =? v)) (seq 0 256) = true) as Hc by (vm_compute; reflexivity).
  rewrite forallb_forall in Hc. specialize (Hc (Z.to_nat i) ltac:(apply in_seq; lia)). rewrite Z2Nat.id in Hc by lia.
  apply andb_prop in Hc as [[H1%Z.leb_le H2%Z.ltb_lt]%andb_prop H3%Z.eqb_eq]. by split.
Qed.

(** [ioapic_init] masks the entries below the count it reads and gives entry [i] the
    vector [32 + i].  The device reports the number of its last entry, not how many it
    has: the last one is left as it was. *)
Theorem ioapic_init_masks (s : intc D) n : 0 < n → ioapicPtr (i_cfg s) ≠ 0 → io_last (i_dev s) = n → Z.shiftr (io_reg (i_dev s) IOAPIC_ID) 24 = ioApicId (i_cfg s) →
  wp ioapic_init (λ _ s', s' = with_dev (i_dev s') (with_io (ioapicPtr (i_cfg s)) s) ∧
    (∀ i, 0 ≤ i < n → redirection (i_dev s') i = (Z.lor INT_DISABLED (IRQ0 + i), 0)) ∧
    redirection (i_dev s') n = redirection (i_dev s) n) s.
Proof.
  intros Hn Hp Hv Hid. unfold ioapic_init. do 2 wp_step. wp_step. apply wp_assertk. split; [by apply negb_true_iff, Z.eqb_neq|]. do 2 wp_step.
  wp_step. apply wp_ioapicr; [done|]. cbn [i_dev with_io]. pose proof (io_last_range (i_dev s)) as Hr. unfold io_last in Hv. rewrite Hv. fold (io_last (i_dev s)) in Hv. wp_step. apply wp_assertk. split; [apply negb_true_iff, Z.eqb_neq; lia|].
  wp_step. apply wp_ioapicr; [done|]. wp_step. apply wp_assertk. split; [by apply Z.eqb_eq|].
  apply (wp_for_up (λ k s', s' = with_dev (i_dev s') (with_io (ioapicPtr (i_cfg s)) s) ∧ (∀ i, 0 ≤ i < k → redirection (i_dev s') i = (Z.lor INT_DISABLED (IRQ0 + i), 0)) ∧
    (∀ i, k ≤ i ≤ n → redirection (i_dev s') i = redirection (i_dev s) i) ∧ io_last (i_dev s') = n)).
  - split_and!; [by destruct s|lia|done|done].
  - intros i s' Hi (Es & Hlt & Hge & Hla). unfold mask_entry. assert (ioapic s' ≠ 0) by by rewrite Es. wp_step. apply wp_ioapicw; [done|]. apply wp_ioapicw; [done|]. cbn [i_dev with_dev].
    destruct (masked_bits i ltac:(lia)) as [Hb Hz]. destruct (put_entry i (Z.lor INT_DISABLED (IRQ0 + i)) 0 (i_dev s') ltac:(lia) Hb ltac:(lia)) as (He & Ho & Hl'). rewrite Hz in He.
    split; [rewrite Es; by cbn|]. split; [|split; [|by rewrite Hl']].
    + intros j Hj. destruct (decide (j = i)) as [->|Hne]; [done|]. rewrite Ho by lia. apply Hlt. lia.
    + intros j Hj. rewrite Ho by lia. apply Hge. lia.
  - intros s' (Es & Hlt & Hge & _). split_and!; [done|intros i Hi; apply Hlt; lia|apply Hge; lia].
Qed.

Lemma vector_bits v : 0 ≤ v < 256 → Z.land v RW_LOW = v.
Proof.
  intros Hv. rewrite <-(Z.mod_small v (2 ^ 8)) at 1 by lia. rewrite <-Z.land_ones, <-Z.land_assoc by lia. change (Z.land (Z.ones 8) RW_LOW) with (Z.ones 8).
  rewrite Z.land_ones by lia. by apply Z.mod_small.
Qed.
Lemma dest_bits v : 0 ≤ v < 256 → u32 (Z.shiftl v 24) = 2 ^ 24 * v ∧ 0 ≤ 2 ^ 24 * v < 2 ^ 32 ∧ Z.land (2 ^ 24 * v) RW_HIGH = 2 ^ 24 * v.
Proof.
  intros Hv. rewrite Z.shiftl_mul_pow2 by lia. split_and!; [rewrite u32_small; lia|lia|lia|].
  rewrite (Z.mul_comm (2 ^ 24)), <-Z.shiftl_mul_pow2 by lia. change RW_HIGH with (Z.shiftl (Z.ones 8) 24). rewrite <-Z.shiftl_land, Z.land_ones by lia. f_equal. by apply Z.mod_small.
Qed.

(** [irqEnable] of a given processor sets one entry: unmasked, with the vector of the
    interrupt, for that processor. *)
Lemma wp_irqEnable irq id (s : intc D) : 0 ≤ irq ≤ io_last (i_dev s) → irq < 224 → 0 ≤ id < 256 → ioapic s ≠ 0 →
  wp (irqEnable irq id) (λ _ s', s' = with_dev (i_dev s') s ∧ redirection (i_dev s') irq = (IRQ0 + irq, 2 ^ 24 * id) ∧
    ∀ j, 0 ≤ j ≤ io_last (i_dev s) → j ≠ irq → redirection (i_dev s') j = redirection (i_dev s) j) s.
Proof.
  intros Hi Hv Hid Hp. unfold irqEnable, next_cpu. wp_step. rewrite (proj2 (Z.eqb_neq id (-1))) by lia. wp_step. destruct (dest_bits id Hid) as (Eh & Hh & Zh). rewrite Eh.
  rewrite !u32_small by (unfold IO_TBL, IRQ0; lia). wp_step. apply wp_ioapicw; [done|]. apply wp_ioapicw; [done|]. cbn [i_dev with_dev].
  destruct (put_entry irq (IRQ0 + irq) (2 ^ 24 * id) (i_dev s) Hi ltac:(unfold IRQ0; lia) Hh) as (He & Ho & _).
  rewrite (vector_bits (IRQ0 + irq)), Zh in He by (unfold IRQ0; lia). by split_and!.
Qed.

(** C34: [reg_isr] of an interrupt that the I/O controller has an entry for: its vector gets a
    gate to the handler, in the code segment of the kernel, present, for the kernel only and
    closing interrupts; the redirection entry of the interrupt is unmasked, edge triggered,
    with that vector, for the next processor in turn.  No other gate and no other entry
    changes. *)
Theorem reg_isr_routes n isr (s : intc D) c : IRQ0 ≤ n < 256 → n - IRQ0 ≤ io_last (i_dev s) → 0 ≤ isr < 2 ^ 32 → ioapic s ≠ 0 → length (idt (i_tab s)) = IDT_COUNT →
  0 < nCpu (i_cfg s) < 256 → 0 ≤ irq_id s → i_cpus s !! Z.to_nat ((irq_id s + 1) mod nCpu (i_cfg s)) = Some c → 0 ≤ apic_id c < 256 →
  wp (reg_isr n isr) (λ _ s', irq_id s' = (irq_id s + 1) mod nCpu (i_cfg s) ∧
    (∃ g, idt (i_tab s') !! Z.to_nat n = Some g ∧ gate_offset g = isr ∧ selector g = IDT_SC ∧ type g = IDT_TYPE ∧ zero g = 0) ∧
    (∀ m, m ≠ Z.to_nat n → idt (i_tab s') !! m = idt (i_tab s) !! m) ∧
    redirection (i_dev s') (n - IRQ0) = (n, 2 ^ 24 * apic_id c) ∧
    ∀ j, 0 ≤ j ≤ io_last (i_dev s) → j ≠ n - IRQ0 → redirection (i_dev s') j = redirection (i_dev s) j) s.
Proof.
  intros Hn Hlast Hisr Hp Hl Hc Hq Hcpu Hid. unfold IRQ0, IDT_COUNT in *. unfold reg_isr, on_tab, reg_isr0. rewrite !u8_small by lia. wp_step. apply wp_zoom.
  apply wp_idt_set; [lia|]. pose proof (Z.mod_pos_bound (irq_id s + 1) (nCpu (i_cfg s)) ltac:(lia)) as Hm.
  set (s1 := with_irq ((irq_id s + 1) mod nCpu (i_cfg s)) (with_tab (with_idt (<[Z.to_nat n := idt_pack isr IDT_SC IDT_TYPE]> (idt (i_tab s))) (i_tab s)) s)).
  assert (next_cpu (-1) (with_tab (with_idt (<[Z.to_nat n := idt_pack isr IDT_SC IDT_TYPE]> (idt (i_tab s))) (i_tab s)) s) = Ok (apic_id c, s1)) as En.
  { unfold next_cpu. change (-1 =? -1) with true. cbv iota. rewrite (bind_Ok _ _ _ _ _ eq_refl). cbn [i_cfg irq_id i_cpus with_tab]. rewrite (bind_Ok (assertk _) _ _ tt (with_tab (with_idt (<[Z.to_nat n := idt_pack isr IDT_SC IDT_TYPE]> (idt (i_tab s))) (i_tab s)) s)) by (by unfold assertk; rewrite (proj2 (truth_true _)) by lia).
    rewrite u16_small by lia. rewrite (bind_Ok _ _ _ tt _ eq_refl). rewrite (bind_Ok (deref _) _ _ c s1) by (unfold deref; by rewrite Hcpu). done. }
  unfold irqEnable. wp_step. eapply wp_intro; [exact En|]. pose proof (wp_irqEnable (n - 32) (apic_id c) s1 ltac:(cbn; lia) ltac:(lia) Hid Hp) as Hw.
  unfold irqEnable, next_cpu in Hw. rewrite (proj2 (Z.eqb_neq (apic_id c) (-1))) in Hw by lia. eapply wp_mono; [exact Hw|]. clear Hw En.
  intros _ s' (Es & Hr & Ho). rewrite Es. cbn [irq_id i_tab i_dev with_dev]. split_and!; [done| | |rewrite Hr; f_equal; unfold IRQ0; lia|done]; subst s1; cbn [i_tab with_irq with_tab idt with_idt].
  - rewrite list_lookup_insert_eq by lia. eexists. split; [done|]. split; [by apply idt_pack_offset|by vm_compute].
  - intros m Hne. by rewrite list_lookup_insert_ne by done.
Qed.

Lemma wp_reg_isr1 n isr id (s : intc D) : IRQ0 ≤ n < 256 → n - IRQ0 ≤ io_last (i_dev s) → 0 ≤ id < 256 → ioapic s ≠ 0 → length (idt (i_tab s)) = IDT_COUNT →
  wp (reg_isr1 n isr id) (λ _ s', redirection (i_dev s') (n - IRQ0) = (n, 2 ^ 24 * id) ∧
    ioapic s' = ioapic s ∧ i_cfg s' = i_cfg s ∧ i_cpus s' = i_cpus s ∧ length (idt (i_tab s')) = IDT_COUNT) s.
Proof.
  intros Hn Hla Hid Hp Hl. unfold IRQ0 in Hn, Hla. unfold IDT_COUNT in *. unfold reg_isr1, on_tab, reg_isr0. rewrite !u8_small by lia. wp_step. apply wp_zoom. apply wp_idt_set; [lia|].
  eapply wp_mono; [apply wp_irqEnable; [unfold IRQ0; cbn; lia|unfold IRQ0; lia|done|done]|]. intros _ s' (-> & Hr & _). cbn [i_dev with_dev i_tab i_cfg i_cpus ioapic with_tab idt with_idt] in *.
  split_and!; [rewrite Hr; f_equal; lia|done|done|done|]. by rewrite length_insert.
Qed.

(** The clock's interrupt has one redirection entry, which every registration overwrites:
    it ends with the last processor of the table. *)
Theorem clock_register_last isr n c (s : intc D) : nCpu (i_cfg s) = Z.of_nat (S n) → ioapic s ≠ 0 → length (idt (i_tab s)) = IDT_COUNT →
  (∀ i, (i ≤ n)%nat → ∃ c, i_cpus s !! i = Some c ∧ 0 ≤ apic_id c < 256) → i_cpus s !! n = Some c →
  wp (clock_register isr) (λ _ s', redirection (i_dev s') IRQ_TIMER = (IRQ0 + IRQ_TIMER, 2 ^ 24 * apic_id c)) s.
Proof.
  intros Hn Hp Hl Hc Hlast. unfold clock_register. wp_step. wp_step. rewrite Hn, Nat2Z.id.
  apply (wp_for_up (λ i s', ioapic s' = ioapic s ∧ i_cpus s' = i_cpus s ∧ length (idt (i_tab s')) = IDT_COUNT ∧
    ∀ c, i_cpus s !! Z.to_nat (i - 1) = Some c → 0 < i → redirection (i_dev s') IRQ_TIMER = (IRQ0 + IRQ_TIMER, 2 ^ 24 * apic_id c))).
  - by split_and!.
  - intros i s' Hi (E1 & E2 & E3 & _). destruct (Hc (Z.to_nat i) ltac:(lia)) as (d & Hd & Hr). wp_step. wp_step. wp_step. apply wp_deref. exists d. rewrite E2. split; [done|].
    eapply wp_mono; [apply wp_reg_isr1; [unfold IRQ0, IRQ_TIMER; lia|pose proof (io_last_range (i_dev s')); unfold IRQ0, IRQ_TIMER; lia|done|congruence|done]|]. intros _ s1 (H1 & H2 & _ & H4 & H5).
    split_and!; [congruence|congruence|done|]. intros e. rewrite Z.add_simpl_r, Hd. intros [= <-] _. exact H1.
  - intros s' (_ & _ & _ & Hr). apply Hr; [|lia]. rewrite <- Hlast. f_equal. lia.
Qed.
End routing.

(** ** The registers of a processor's controller *)

Section local.
Variable lapic_in : nat → Z → Z.

(** The value last written to register [i]. *)
Definition written (i : Z) (l : list (Z * Z)) : option Z := snd <$> (snd <$> list_find (λ x, x.1 = i) l).

Lemma wp_lapicR i (Q : Z → lapic_dev → Prop) p r o : p ≠ 0 → Q (u32 (lapic_in r i)) (LapicDev p (S r) o) → wp (lapicR lapic_in i) Q (LapicDev p r o).
Proof. intros Hp HQ. unfold lapicR, wp. cbn. by rewrite (proj2 (Z.eqb_neq p 0) Hp). Qed.
Lemma wp_lapicW i v (Q : unit → lapic_dev → Prop) p r o : p ≠ 0 → Q tt (LapicDev p (S r) ((i, u32 v) :: o)) → wp (lapicW lapic_in i v) Q (LapicDev p r o).
Proof. intros Hp HQ. unfold lapicW. do 2 wp_step. cbn [lapic]. rewrite (proj2 (Z.eqb_neq p 0) Hp). do 3 wp_step. apply wp_lapicR; [done|]. by wp_step. Qed.

(** The message is delivered at the latest when the [k]-th read from now says so. *)
Lemma wp_wait_ipi k : ∀ fuel p r o, p ≠ 0 → (k < fuel)%nat → Z.land (u32 (lapic_in (r + k) ICR_LO)) IPI_PENDING = 0 →
  wp (loop fuel (wait_ipi lapic_in) tt) (λ _ s', ∃ r', s' = LapicDev p r' o) (LapicDev p r o).
Proof.
  induction k as [|k IH]; intros [|fuel] p r o Hp Hf Hz; try lia; cbn [loop]; wp_step; unfold wait_ipi at 1; wp_step; (apply wp_lapicR; [done|]).
  - rewrite Nat.add_0_r in Hz. rewrite Hz. change (truth 0) with false. cbv iota. do 2 wp_step. by eexists.
  - destruct (truth _); wp_step; [|by wp_step; eexists]. apply IH; [done|lia|]. by rewrite Nat.add_succ_comm.
Qed.

(** The version register says whether there is a performance counter. *)
Definition has_pcint (r : nat) : bool := 4 <=? Z.land (Z.shiftr (u32 (lapic_in r VER)) 16) 0xff.

(** [lapic_init] ends when its message to the processors is delivered.  The controller is
    then on, its timer runs periodically with the vector of the timer interrupt, the two
    pins are masked, and it accepts interrupts of every priority. *)
Theorem lapic_init_enables fuel ptr s k : ptr ≠ 0 → (k < fuel)%nat →
  Z.land (u32 (lapic_in (la_reads s + (if has_pcint (la_reads s + 6) then 14 else 13) + k) ICR_LO)) IPI_PENDING = 0 →
  wp (lapic_init lapic_in fuel ptr) (λ _ s', lapic s' = ptr ∧ head (la_out s') = Some (TPR, 0) ∧
    written SVR (la_out s') = Some (2 ^ 8 + 63) ∧ written TIMER (la_out s') = Some (2 ^ 17 + IRQ0 + IRQ_TIMER) ∧ written TICR (la_out s') = Some 10000000 ∧
    written LINT0 (la_out s') = Some MASKED ∧ written LINT1 (la_out s') = Some MASKED ∧
    (has_pcint (la_reads s + 6) = true → written PCINT (la_out s') = Some MASKED)) s.
Proof.
  intros Hp Hk Hz. destruct s as [p r o]. cbn [la_reads] in *. unfold lapic_init. wp_step. apply wp_assertk. split; [by apply negb_true_iff, Z.eqb_neq|]. do 2 wp_step. cbn [la_reads la_out].
  do 6 (wp_step; apply wp_lapicW; [done|]). wp_step. apply wp_lapicR; [done|]. wp_step.
  replace (S (S (S (S (S (S r)))))) with (r + 6)%nat by lia. fold (has_pcint (r + 6)). apply wp_when. destruct (has_pcint (r + 6)); [apply wp_lapicW; [done|]|];
    do 6 (wp_step; apply wp_lapicW; [done|]); wp_step; (eapply wp_mono; [apply (wp_wait_ipi k); [done|done|]|]).
  1, 3: rewrite <-Hz; do 4 f_equal; lia.
  all: intros _ s' [r' ->]; apply wp_lapicW; [done|]; cbn [lapic la_out]; by split_and!.
Qed.

Lemma wp_store16 a v (Q : unit → mem → Prop) (m : mem) : is_Some (m !! a) → is_Some (m !! (a + 1)) →
  Q tt (<[a + 1 := u8 (Z.shiftr v 8)]> (<[a := u8 v]> m)) → wp (store16 a v) Q m.
Proof. intros H1 H2 HQ. unfold store16. wp_step. apply wp_store8; [done|]. apply wp_store8; [by rewrite lookup_insert_ne by lia|done]. Qed.

Lemma startup_vector page : 0 ≤ page < 256 → u32 (Z.lor STARTUP page) = STARTUP + page.
Proof.
  intros Hp. assert (forallb (λ n, u32 (Z.lor STARTUP (Z.of_nat n)) =? STARTUP + Z.of_nat n) (seq 0 256) = true) as Hc by (vm_compute; reflexivity).
  rewrite forallb_forall in Hc. specialize (Hc (Z.to_nat page) ltac:(apply in_seq; lia)). rewrite Z2Nat.id in Hc by lia. by apply Z.eqb_eq.
Qed.

(** The registers written for the processor [apicid], the last one first. *)
Definition start_msgs (apicid page : Z) : list (Z * Z) :=
  let d := (ICR_HI, 2 ^ 24 * apicid) in
  [(ICR_LO, STARTUP + page); d; (ICR_LO, STARTUP + page); d; (ICR_LO, INIT + LEVEL); (ICR_LO, INIT + LEVEL + ASSERT); d].

Lemma wp_lapicStartAp apicid page s : lapic (ap_lapic s) ≠ 0 → 0 ≤ apicid < 256 → 0 ≤ page < 256 → mapped (ap_mem s) (0x467 + KERNEL_START) 4 →
  wp (lapicStartAp lapic_in apicid (4096 * page)) (λ _ s', lapic (ap_lapic s') = lapic (ap_lapic s) ∧
    la_out (ap_lapic s') = start_msgs apicid page ++ la_out (ap_lapic s) ∧
    p_out (ap_ports s') = (0x71, 0xa) :: (0x70, 0xf) :: p_out (ap_ports s) ∧
    bytes_at (ap_mem s') (0x467 + KERNEL_START) [0; 0; 0; page] ∧ dom (ap_mem s') = dom (ap_mem s)) s.
Proof.
  intros Hp Hid Hpg Hm. destruct s as [[p r o] po m]. cbn [ap_lapic ap_mem ap_ports lapic la_out] in *. unfold lapicStartAp.
  wp_step. apply wp_zoom. unfold cmos_w, outb. do 3 wp_step. cbn [ap_mem ap_ports ap_lapic p_reads p_out].
  assert (Z.shiftr (4096 * page) 4 = 256 * page ∧ Z.shiftr (4096 * page) 12 = page) as [E4 E12].
  { rewrite !Z.shiftr_div_pow2 by lia. split; [change (2 ^ 4) with 16; replace (4096 * page) with (256 * page * 16) by lia; apply Z.div_mul; lia|].
    change (2 ^ 12) with 4096. rewrite Z.mul_comm. apply Z.div_mul. lia. }
  rewrite E4, E12. rewrite (u16_small (256 * page)) by lia. unfold on_amem.
  wp_step. apply wp_zoom. cbn [ap_mem]. apply wp_store16; [apply (Hm 0); lia|apply (Hm 1); lia|]. generalize dependent (0x467 + KERNEL_START). intros a Hm.
  wp_step. apply wp_zoom. cbn [ap_mem ap_ports ap_lapic]. apply wp_store16; [rewrite !lookup_insert_ne by lia; apply Hm; lia| |].
  { rewrite !lookup_insert_ne by lia. replace (a + 2 + 1) with (a + 3) by lia. apply Hm. lia. }
  unfold on_lapic. cbn [for_up]. repeat first [wp_step | progress cbn [ap_lapic ap_ports ap_mem]; apply wp_lapicW; [done|] | apply wp_lapicW; [done|]]. cbn [ap_lapic ap_ports ap_mem la_out].
  rewrite (startup_vector page Hpg). destruct (dest_bits apicid Hid) as [-> _]. change (u32 (Z.lor (Z.lor INIT LEVEL) ASSERT)) with (INIT + LEVEL + ASSERT). change (u32 (Z.lor INIT LEVEL)) with (INIT + LEVEL).
  split_and!; [reflexivity|reflexivity|reflexivity| |].
  2: { assert (∀ i, 0 ≤ i < 4 → a + i ∈ dom m) as Hd by (intros i Hi; by apply elem_of_dom, Hm). pose proof (Hd 0 ltac:(lia)) as H0. rewrite Z.add_0_r in H0.
       pose proof (Hd 1 ltac:(lia)). pose proof (Hd 2 ltac:(lia)). pose proof (Hd 3 ltac:(lia)). replace (a + 2 + 1) with (a + 3) by lia. rewrite !dom_insert_L. set_solver. }
  intros i x Hi. destruct i as [|[|[|[|i]]]]; [injection Hi as <-..|done]; cbn [Z.of_nat Pos.of_succ_nat Pos.succ]; rewrite ?Z.add_0_r.
  - rewrite !lookup_insert_ne by lia. by rewrite lookup_insert_eq.
  - rewrite !lookup_insert_ne by lia. by rewrite lookup_insert_eq.
  - rewrite lookup_insert_ne by lia. rewrite lookup_insert_eq. f_equal. unfold u8. rewrite Z.mul_comm. by rewrite Z_mod_mult.
  - match goal with |- context [<[a + 2 + 1 := _]> _ !! ?k] => replace k with (a + 2 + 1) by lia end. rewrite lookup_insert_eq. f_equal. rewrite Z.shiftr_div_pow2 by lia. rewrite Z.mul_comm, Z.div_mul by lia. by apply u8_small.
Qed.

(** [lapicStartAp] leaves the address of the processor's code in the warm reset vector,
    resets the processor and starts it twice at the page of that code. *)
Theorem lapicStartAp_sends apicid page s : lapic (ap_lapic s) ≠ 0 → 0 ≤ apicid < 256 → 0 ≤ page < 256 →
  mapped (ap_mem s) (0x467 + KERNEL_START) 4 →
  wp (lapicStartAp lapic_in apicid (4096 * page)) (λ _ s',
    filter (λ x, x.1 = ICR_LO) (la_out (ap_lapic s')) = [(ICR_LO, STARTUP + page); (ICR_LO, STARTUP + page); (ICR_LO, INIT + LEVEL); (ICR_LO, INIT + LEVEL + ASSERT)] ++
      filter (λ x, x.1 = ICR_LO) (la_out (ap_lapic s)) ∧
    written ICR_HI (la_out (ap_lapic s')) = Some (2 ^ 24 * apicid) ∧
    p_out (ap_ports s') = (0x71, 0xa) :: (0x70, 0xf) :: p_out (ap_ports s) ∧
    bytes_at (ap_mem s') (0x467 + KERNEL_START) [0; 0; 0; page]) s.
Proof.
  intros Hp Hid Hpg Hm. eapply wp_mono; [by apply wp_lapicStartAp|]. intros _ s' (_ & -> & Hpo & Hb & _). by split_and!.
Qed.
End local.

(** ** A controller with 24 entries *)

(** The first registers are fixed; the table keeps the bits that can be written, and the
    status bit 12 of every entry happens to be set. *)
#[global] Instance demo_ioapic : IoApic (Z → Z) := {
  io_reg d i := if i =? 1 then 0x170020 else if i =? 0 then 0x9000000 else d i;
  io_put i v d := λ j, if j =? i then Z.lor (Z.land v (rw_bits i)) (if Z.even i then 0x1000 else 0) else d j }.
#[global] Instance demo_ioapic_laws : IoApicLaws (Z → Z).
Proof.
  assert (∀ i j, i ≠ j → (i =? j) = false) as Hne by (intros; by apply Z.eqb_neq).
  split; unfold in_table; intros d i.
  - intros v Hi Hv. change (io_last d) with 23 in Hi. unfold IO_TBL in Hi. cbn. rewrite !Hne, Z.eqb_refl by lia. rewrite Z.land_lor_distr_l, <-Z.land_assoc, Z.land_diag.
    unfold rw_bits. destruct (Z.even i); apply Z.lor_0_r.
  - intros j v Hi Hj Hij. change (io_last d) with 23 in *. unfold IO_TBL in *. cbn. by rewrite !Hne by lia.
  - intros j v Hi [-> | ->]; reflexivity.
Qed.
Definition demo_intc (p : Z) : intc (Z → Z) := Intc tables0 (λ _, 0x10000) p 0 (Apic 2 9 0xfee00000 0xfec00000) (cpus_of [0; 2]).

Lemma ioapic_init_masks_witness : wp ioapic_init (λ _ s', redirection (i_dev s') 22 = (0x10036, 0) ∧ redirection (i_dev s') 23 = (0x10000, 0)) (demo_intc 0).
Proof.
  eapply wp_mono; [apply (ioapic_init_masks (demo_intc 0) 23); [lia|cbn; lia|reflexivity|done]|].
  intros _ s' (_ & Hm & Hl). split; [rewrite (Hm 22 ltac:(lia)); reflexivity|rewrite Hl; reflexivity].
Defined.

(** The keyboard goes to the second processor. *)
Lemma reg_isr_routes_witness : wp (reg_isr 33 0xc0104560) (λ _ s', redirection (i_dev s') 1 = (33, 0x2000000)) (demo_intc 0xfec00000).
Proof.
  eapply wp_mono; [apply (reg_isr_routes 33 0xc0104560 (demo_intc 0xfec00000) (with_id 2)); try done; vm_compute; (done || by split)|].
  by intros _ s' (_ & _ & _ & Hr & _).
Defined.

Lemma clock_register_last_witness : wp (clock_register 0xc0104560) (λ _ s', redirection (i_dev s') 0 = (32, 0x2000000)) (demo_intc 0xfec00000).
Proof.
  eapply wp_mono; [apply (clock_register_last 0xc0104560 1 (with_id 2) (demo_intc 0xfec00000)); try done|intros a s' Hr; exact Hr].
  intros [|[|i]] Hi; [exists (with_id 0); split; [done|cbn; lia]|exists (with_id 2); split; [done|cbn; lia]|lia].
Defined.

Definition demo_lapic_in (n : nat) (i : Z) : Z := if (i =? ICR_LO) && (n <? 16)%nat then IPI_PENDING else if i =? VER then 0x50014 else 0.
Lemma lapic_init_enables_witness : wp (lapic_init demo_lapic_in 10 0xfee00000) (λ _ s', written SVR (la_out s') = Some 319) (LapicDev 0 0 []).
Proof.
  eapply wp_mono; [apply (lapic_init_enables demo_lapic_in 10 0xfee00000 (LapicDev 0 0 []) 2); [lia|lia|vm_compute; reflexivity]|].
  by intros _ s' (_ & _ & Hs & _).
Defined.

Lemma lapicStartAp_sends_witness : wp (lapicStartAp demo_lapic_in 2 0x8000) (λ _ s', bytes_at (ap_mem s') 0xc0000467 [0; 0; 0; 8])
  (ApStart (LapicDev 0xfee00000 0 []) (Ports 0 []) (list_to_map (place 0xc0000467 [1; 2; 3; 4]))).
Proof.
  eapply wp_mono; [apply (lapicStartAp_sends demo_lapic_in 2 8); [cbn; lia|lia|lia|]|by intros _ s' (_ & _ & _ & Hb)].
  intros i Hi. assert (i = 0 ∨ i = 1 ∨ i = 2 ∨ i = 3) as [-> | [-> | [-> | ->]]] by lia; vm_compute; by eexists.
Defined.
