(* ===== verification/Pci.v ===== *)
(** * Search for devices (drivers/pci.c)

    The configuration words of the devices on the bus are reached through two ports: one
    takes the address of a word, the other one is the word.  The devices are a parameter,
    by the words they answer and by what a write does to them ([PciBus]).  The state is the
    devices, the address that was written last and the [pci_dev_t] the caller passes. *)

From S2P Require Import Prelude QLib.
From Stdlib Require Import ZArith Lia.
From stdpp Require Import base numbers gmap list.
Open Scope Z_scope.

#[local] Arguments Z.mul : simpl never.
#[local] Arguments Z.add : simpl never.
#[local] Arguments Z.to_nat : simpl never.
#[local] Arguments Z.land : simpl never.
#[local] Arguments seqZ : simpl never.

Definition INVALID_VENDOR : Z := 0xFFFF.
Definition MULTI_FUNC : Z := Z.shiftl 1 7.
Definition VENDOR_OFFSET : Z := 0x0.
Definition DEV_OFFSET : Z := 0x2.
Definition HD_TYPE_OFFSET : Z := 0xe.
Definition CLASS_OFFSET : Z := 0xa.
Definition PRG_IF_OFFSET : Z := 0x9.
Definition INTERRUPT_LINE : Z := 0x3C.
Definition map : list Z := [0x10; 0x14; 0x18; 0x1c; 0x20; 0x24].

Record pci_cfg := PciCfg { offset : Z; func_no : Z; dev_no : Z; bus_no : Z; zero : Z; enable : Z }.
(** The word the fields make up, [cfg_addr_t.data]. *)
Definition cfg_data (c : pci_cfg) : Z :=
  offset c + 2 ^ 8 * func_no c + 2 ^ 11 * dev_no c + 2 ^ 16 * bus_no c + 2 ^ 24 * zero c + 2 ^ 31 * enable c.

Record pci_dev := PciDev { vendor_id : Z; dev_id : Z; class_code : Z; subclass : Z; prg_if : Z; hd_type : Z; cfg : pci_cfg }.

Class PciBus (D : Type) := { cfg_get : D → Z → Z; cfg_put : Z → Z → D → D }.

Record pci_st (D : Type) := PciSt { p_bus : D; p_latch : Z; p_dev : pci_dev }.
Arguments PciSt {D}. Arguments p_bus {D}. Arguments p_latch {D}. Arguments p_dev {D}.

Section pci.
Context {D : Type} `{PciBus D}.

Definition upd_cfg (f : pci_cfg → pci_cfg) : M (pci_st D) unit :=
  modify (λ s, let d := p_dev s in
    PciSt (p_bus s) (p_latch s) (PciDev (vendor_id d) (dev_id d) (class_code d) (subclass d) (prg_if d) (hd_type d) (f (cfg d)))).
Definition put_offset v c := PciCfg v (func_no c) (dev_no c) (bus_no c) (zero c) (enable c).
Definition put_func v c := PciCfg (offset c) (v mod 2 ^ 3) (dev_no c) (bus_no c) (zero c) (enable c).
Definition put_slot b d c := PciCfg (offset c) 0 (d mod 2 ^ 5) (u8 b) (zero c) (enable c).
Definition put_on c := PciCfg (offset c) (func_no c) (dev_no c) (bus_no c) 0 1.

(** [outl(CONFIG_ADDRESS, ...)], [inl(CONFIG_DATA)] and [outl(CONFIG_DATA, ...)]. *)
Definition out_address (v : Z) : M (pci_st D) unit := modify (λ s, PciSt (p_bus s) v (p_dev s)).
Definition in_data : M (pci_st D) Z := s ← get; mret (u32 (cfg_get (p_bus s) (p_latch s))).
Definition out_data (v : Z) : M (pci_st D) unit := modify (λ s, PciSt (cfg_put (p_latch s) v (p_bus s)) (p_latch s) (p_dev s)).

Definition pci_inl (off : Z) : M (pci_st D) Z :=
  upd_cfg (put_offset (Z.land off 0xfc));; s ← get; out_address (cfg_data (cfg (p_dev s)));; in_data.
Definition pci_outl (off value : Z) : M (pci_st D) unit :=
  upd_cfg (put_offset (Z.land off 0xfc));; s ← get; out_address (cfg_data (cfg (p_dev s)));; out_data value.
Definition pci_inb (off : Z) : M (pci_st D) Z := v ← pci_inl off; mret (u8 (Z.land (Z.shiftr v (Z.land off 3 * 8)) (MASK_U8 8))).
Definition pci_inw (off : Z) : M (pci_st D) Z := v ← pci_inl off; mret (u16 (Z.land (Z.shiftr v (Z.land off 2 * 8)) (2 ^ 16 - 1))).

(** [no] is signed: a negative index reads in front of [map]. *)
Definition bar_offset (no : Z) : M (pci_st D) Z := if no <? 0 then fail Fault else deref (map !! Z.to_nat no).
Definition pci_read_bar (no : Z) : M (pci_st D) Z := assertk (no <=? 5);; o ← bar_offset no; pci_inl o.
Definition pci_write_bar (no value : Z) : M (pci_st D) unit := assertk (no <=? 5);; o ← bar_offset no; pci_outl o value.
Definition pci_interrupt_line : M (pci_st D) Z := pci_inb INTERRUPT_LINE.

(** A counted loop that a [return] in its body leaves. *)
Fixpoint for_find (n : nat) (i : Z) (body : Z → M (pci_st D) bool) : M (pci_st D) bool :=
  match n with O => mret false | S n' => b ← body i; if (b : bool) then mret true else for_find n' (i + 1) body end.

Definition func_body (f : Z) : M (pci_st D) bool :=
  upd_cfg (put_func f);;
  class ← pci_inw CLASS_OFFSET;
  s ← get;
  if class =? Z.lor (Z.shiftl (class_code (p_dev s)) 8) (subclass (p_dev s)) then
    hd ← pci_inb HD_TYPE_OFFSET;
    modify (λ s, let d := p_dev s in PciSt (p_bus s) (p_latch s) (PciDev (vendor_id d) (dev_id d) (class_code d) (subclass d) (prg_if d) (hd mod 2 ^ 7) (cfg d)));;
    pi ← pci_inb PRG_IF_OFFSET;
    modify (λ s, let d := p_dev s in PciSt (p_bus s) (p_latch s) (PciDev (vendor_id d) (dev_id d) (class_code d) (subclass d) pi (hd_type d) (cfg d)));;
    v ← pci_inw VENDOR_OFFSET;
    modify (λ s, let d := p_dev s in PciSt (p_bus s) (p_latch s) (PciDev v (dev_id d) (class_code d) (subclass d) (prg_if d) (hd_type d) (cfg d)));;
    i ← pci_inw DEV_OFFSET;
    modify (λ s, let d := p_dev s in PciSt (p_bus s) (p_latch s) (PciDev (vendor_id d) i (class_code d) (subclass d) (prg_if d) (hd_type d) (cfg d)));;
    mret true
  else mret false.

Definition slot_body (b d : Z) : M (pci_st D) bool :=
  upd_cfg (put_slot b d);;
  v ← pci_inw VENDOR_OFFSET;
  if v =? INVALID_VENDOR then mret false
  else
    hd ← pci_inb HD_TYPE_OFFSET;
    for_find (if truth (Z.land hd MULTI_FUNC) then 8 else 1) 0 func_body.

Definition pci_device_detect : M (pci_st D) Z :=
  upd_cfg put_on;;
  r ← for_find 256 0 (λ b, for_find 32 0 (slot_body b));
  mret (if (r : bool) then 0 else -1).

(** ** What there is on the bus *)

Definition cfg_word (bus : D) (b d f off : Z) : Z := u32 (cfg_get bus (cfg_data (PciCfg off f d b 0 1))).
Definition cfg_half (bus : D) (b d f off : Z) : Z := cfg_word bus b d f (Z.land off 0xfc) / 2 ^ (Z.land off 2 * 8) mod 2 ^ 16.
Definition cfg_byte (bus : D) (b d f off : Z) : Z := cfg_word bus b d f (Z.land off 0xfc) / 2 ^ (Z.land off 3 * 8) mod 2 ^ 8.

(** The functions of the class [c], by bus, slot and number, in order. *)
Definition devices (bus : D) (c : Z) : list (Z * Z * Z) :=
  b ← seqZ 0 256; d ← seqZ 0 32;
  if cfg_half bus b d 0 VENDOR_OFFSET =? INVALID_VENDOR then []
  else
    f ← seqZ 0 (if truth (Z.land (cfg_byte bus b d 0 HD_TYPE_OFFSET) MULTI_FUNC) then 8 else 1);
    if cfg_half bus b d f CLASS_OFFSET =? c then [(b, d, f)] else [].

(** What the caller finds in its [pci_dev_t], the offset of the last access apart. *)
Definition found (bus : D) (cl sub : Z) (x : Z * Z * Z) (s : pci_st D) : Prop :=
  let '(b, d, f) := x in
  p_bus s = bus ∧ p_dev s = PciDev (cfg_half bus b d f VENDOR_OFFSET) (cfg_half bus b d f DEV_OFFSET) cl sub
    (cfg_byte bus b d f PRG_IF_OFFSET) (cfg_byte bus b d f HD_TYPE_OFFSET mod 2 ^ 7) (PciCfg (offset (cfg (p_dev s))) f d b 0 1).

(** A read of a device that is switched on: only the address and the offset change. *)
Lemma wp_cfg_inl off (Q : Z → pci_st D → Prop) bu la v i c u p h o f d b :
  (∀ la' o', Q (cfg_word bu b d f (Z.land off 0xfc)) (PciSt bu la' (PciDev v i c u p h (PciCfg o' f d b 0 1)))) →
  wp (pci_inl off) Q (PciSt bu la (PciDev v i c u p h (PciCfg o f d b 0 1))).
Proof. intros HQ. unfold pci_inl, upd_cfg, out_address, in_data. do 8 wp_step. cbn [p_dev p_bus p_latch vendor_id dev_id class_code subclass prg_if hd_type cfg]. apply HQ. Qed.

Lemma mask_shift v k w m : 0 ≤ k → 0 ≤ w → m = Z.ones w → Z.land (Z.shiftr v k) m mod 2 ^ w = v / 2 ^ k mod 2 ^ w.
Proof. intros Hk Hw ->. rewrite Z.land_ones, Z.shiftr_div_pow2 by done. apply Zmod_mod. Qed.

Lemma wp_cfg_inw off (Q : Z → pci_st D → Prop) bu la v i c u p h o f d b :
  (∀ la' o', Q (cfg_half bu b d f off) (PciSt bu la' (PciDev v i c u p h (PciCfg o' f d b 0 1)))) →
  wp (pci_inw off) Q (PciSt bu la (PciDev v i c u p h (PciCfg o f d b 0 1))).
Proof.
  intros HQ. unfold pci_inw. wp_step. apply wp_cfg_inl. intros la' o'. wp_step. unfold u16.
  assert (0 ≤ Z.land off 2) by (apply Z.land_nonneg; lia). rewrite (mask_shift _ (Z.land off 2 * 8) 16) by (done || lia). apply HQ.
Qed.
Lemma wp_cfg_inb off (Q : Z → pci_st D → Prop) bu la v i c u p h o f d b :
  (∀ la' o', Q (cfg_byte bu b d f off) (PciSt bu la' (PciDev v i c u p h (PciCfg o' f d b 0 1)))) →
  wp (pci_inb off) Q (PciSt bu la (PciDev v i c u p h (PciCfg o f d b 0 1))).
Proof.
  intros HQ. unfold pci_inb. wp_step. apply wp_cfg_inl. intros la' o'. wp_step. unfold u8.
  assert (0 ≤ Z.land off 3) by (apply Z.land_nonneg; lia). rewrite (mask_shift _ (Z.land off 3 * 8) 8) by (done || lia). apply HQ.
Qed.

(** ** The search *)

Ltac fields := cbn [p_dev p_bus p_latch vendor_id dev_id class_code subclass prg_if hd_type cfg offset func_no dev_no bus_no zero enable].

(** A loop whose rounds find [g i] or leave [I] true finds the first [g i] there is. *)
Lemma wp_for_find {R} (I : pci_st D → Prop) (F : R → pci_st D → Prop) (g : Z → option R) body n : ∀ lo s, I s →
  (∀ i s, lo ≤ i < lo + Z.of_nat n → I s → wp (body i) (λ r s', match g i with Some x => r = true ∧ F x s' | None => r = false ∧ I s' end) s) →
  wp (for_find n lo body) (λ r s', match head (omap g (seqZ lo (Z.of_nat n))) with Some x => r = true ∧ F x s' | None => r = false ∧ I s' end) s.
Proof.
  induction n as [|n IH]; intros lo s HI Hb; cbn [for_find]; [by wp_step|]. rewrite (seqZ_cons lo (Z.of_nat (S n))) by lia. cbn [omap list_omap]. wp_step.
  eapply wp_mono; [apply (Hb lo s); [lia|done]|]. intros r s' Hr. destruct (g lo) as [x|].
  - destruct Hr as [-> HF]. by wp_step.
  - destruct Hr as [-> HI']. replace (Z.pred (Z.of_nat (S n))) with (Z.of_nat n) by lia. apply IH; [done|]. intros i s'' Hi. apply Hb. lia.
Qed.

Lemma head_bind {A B} (h : A → list B) l : head (l ≫= h) = head (omap (λ x, head (h x)) l).
Proof. induction l as [|x l IH]; [done|]. cbn. destruct (h x) as [|y k]; cbn; [exact IH|done]. Qed.

Section search.
Variables (bus : D) (cl sub : Z).
Abbreviation class := (Z.lor (Z.shiftl cl 8) sub).

(** The search is on, in slot [d] of bus [b]. *)
Definition searching (s : pci_st D) : Prop :=
  p_bus s = bus ∧ class_code (p_dev s) = cl ∧ subclass (p_dev s) = sub ∧ zero (cfg (p_dev s)) = 0 ∧ enable (cfg (p_dev s)) = 1.
Definition in_slot (b d : Z) (s : pci_st D) : Prop := searching s ∧ bus_no (cfg (p_dev s)) = b ∧ dev_no (cfg (p_dev s)) = d.

Definition func_match (b d f : Z) : option (Z * Z * Z) := if cfg_half bus b d f CLASS_OFFSET =? class then Some (b, d, f) else None.

Lemma wp_func b d f s : 0 ≤ f < 8 → in_slot b d s →
  wp (func_body f) (λ r s', match func_match b d f with Some x => r = true ∧ found bus cl sub x s' | None => r = false ∧ in_slot b d s' end) s.
Proof.
  intros Hf [(Hb & Hcl & Hsub & Hz & He) [Hbn Hdn]]. destruct s as [bu la [v0 i0 c0 u0 p0 h0 [o0 f0 d0 b0 z0 e0]]]. cbn in *. subst.
  unfold func_body, upd_cfg. do 2 wp_step. cbn [p_dev p_bus p_latch]. unfold put_func. rewrite Z.mod_small by lia. cbn [offset dev_no bus_no zero enable cfg].
  wp_step. apply wp_cfg_inw. intros la1 o1. do 2 wp_step. fields. unfold func_match. destruct (cfg_half bus b d f CLASS_OFFSET =? class).
  - wp_step. apply wp_cfg_inb. intros la2 o2. do 2 wp_step. fields. wp_step. apply wp_cfg_inb. intros la3 o3. do 2 wp_step. fields.
    wp_step. apply wp_cfg_inw. intros la4 o4. do 2 wp_step. fields. wp_step. apply wp_cfg_inw. intros la5 o5. do 3 wp_step. by split.
  - by wp_step.
Qed.

Definition slot_match (b d : Z) : option (Z * Z * Z) :=
  if cfg_half bus b d 0 VENDOR_OFFSET =? INVALID_VENDOR then None
  else head (omap (func_match b d) (seqZ 0 (if truth (Z.land (cfg_byte bus b d 0 HD_TYPE_OFFSET) MULTI_FUNC) then 8 else 1))).

Lemma wp_slot b d s : 0 ≤ b < 256 → 0 ≤ d < 32 → searching s →
  wp (slot_body b d) (λ r s', match slot_match b d with Some x => r = true ∧ found bus cl sub x s' | None => r = false ∧ searching s' end) s.
Proof.
  intros Hb Hd (Hbu & Hcl & Hsub & Hz & He). destruct s as [bu la [v0 i0 c0 u0 p0 h0 [o0 f0 d0 b0 z0 e0]]]. cbn in *. subst.
  unfold slot_body, upd_cfg. do 2 wp_step. cbn [p_dev p_bus p_latch]. unfold put_slot. rewrite Z.mod_small, u8_small by lia. cbn [offset zero enable cfg].
  wp_step. apply wp_cfg_inw. intros la1 o1. unfold slot_match. destruct (cfg_half bus b d 0 VENDOR_OFFSET =? INVALID_VENDOR); [by wp_step|].
  wp_step. apply wp_cfg_inb. intros la2 o2.
  set (n := if truth _ then 8%nat else 1%nat). assert ((if truth (Z.land (cfg_byte bus b d 0 HD_TYPE_OFFSET) MULTI_FUNC) then 8 else 1) = Z.of_nat n) as -> by (unfold n; by destruct (truth _)).
  assert (n ≤ 8)%nat by (unfold n; destruct (truth _); lia).
  eapply wp_mono; [apply (wp_for_find (in_slot b d) (found bus cl sub) (func_match b d))|].
  - done.
  - intros i s Hi Hs. apply wp_func; [lia|done].
  - intros r s' Hr. destruct (head _); [done|]. destruct Hr as [-> [Hs _]]. done.
Qed.
End search.

Lemma devices_head bus cl sub : head (devices bus (Z.lor (Z.shiftl cl 8) sub)) = head (omap (λ b, head (omap (slot_match bus cl sub b) (seqZ 0 32))) (seqZ 0 256)).
Proof.
  unfold devices. rewrite head_bind. f_equal. apply list_omap_ext, Forall_Forall2_diag, Forall_true. intros b.
  rewrite head_bind. f_equal. apply list_omap_ext, Forall_Forall2_diag, Forall_true. intros d. unfold slot_match. case_match; [done|].
  rewrite head_bind. f_equal. apply list_omap_ext, Forall_Forall2_diag, Forall_true. intros f. unfold func_match. by case_match.
Qed.

(** [pci_device_detect] looks at all functions of all devices, in the order of bus, slot
    and number, and answers the first one of the class the caller asks for, with its
    identity in the caller's structure; otherwise -1.  It changes no device. *)
Theorem pci_device_detect_first s :
  wp pci_device_detect (λ r s', match head (devices (p_bus s) (Z.lor (Z.shiftl (class_code (p_dev s)) 8) (subclass (p_dev s)))) with
    | Some x => r = 0 ∧ found (p_bus s) (class_code (p_dev s)) (subclass (p_dev s)) x s'
    | None => r = -1 ∧ p_bus s' = p_bus s end) s.
Proof.
  set (bus := p_bus s). set (cl := class_code (p_dev s)). set (sub := subclass (p_dev s)). unfold pci_device_detect, upd_cfg. do 2 wp_step. wp_step.
  rewrite devices_head. eapply wp_mono; [apply (wp_for_find (searching bus cl sub) (found bus cl sub) (λ b, head (omap (slot_match bus cl sub b) (seqZ 0 32))))|].
  - done.
  - intros b s1 Hb Hs. apply (wp_for_find (searching bus cl sub) (found bus cl sub) (slot_match bus cl sub b) _ 32 0 s1 Hs).
    intros d s2 Hd Hs2. apply wp_slot; [lia|lia|done].
  - intros r s' Hr. wp_step. change (Z.of_nat 256) with 256 in Hr. destruct (head _); destruct Hr as [-> Hr]; [done|]. by destruct Hr.
Qed.

(** The base address registers are the six words from 16 on; other numbers panic or read
    outside of the table. *)
Theorem pci_read_bar_word no bu la v i c u p h o f d b : 0 ≤ no ≤ 5 →
  wp (pci_read_bar no) (λ r s', r = cfg_word bu b d f (16 + 4 * no) ∧ p_bus s' = bu) (PciSt bu la (PciDev v i c u p h (PciCfg o f d b 0 1))).
Proof.
  intros Hn. unfold pci_read_bar, bar_offset. wp_step. apply wp_assertk. split; [by apply Z.leb_le; lia|].
  rewrite (proj2 (Z.ltb_ge no 0)) by lia. wp_step.
  assert (no = 0 ∨ no = 1 ∨ no = 2 ∨ no = 3 ∨ no = 4 ∨ no = 5) as Hcs by lia. destruct_or! Hcs; subst no; (wp_step; [reflexivity|]); by apply wp_cfg_inl.
Qed.
End pci.

(** ** A bus with two devices *)

(** A bridge in slot 0 and, in slot 3, a device with two functions, the second one a
    network card. *)
#[global] Instance demo_bus : PciBus (gmap Z Z) := {
  cfg_get d a := default 0xffffffff (d !! a);
  cfg_put a v d := <[a := v]> d }.
Definition demo_cfg (d f : Z) : Z := cfg_data (PciCfg 0 f d 0 0 1).
Definition demo_cards : gmap Z Z := list_to_map [
  (demo_cfg 0 0, 0x12378086); (demo_cfg 0 0 + 8, 0x06000002); (demo_cfg 0 0 + 12, 0);
  (demo_cfg 3 0, 0x70008086); (demo_cfg 3 0 + 8, 0x06010000); (demo_cfg 3 0 + 12, 0x800000);
  (demo_cfg 3 1, 0x100e8086); (demo_cfg 3 1 + 8, 0x02000003); (demo_cfg 3 1 + 12, 0); (demo_cfg 3 1 + 16, 0xfebc0000)].
Definition demo_pci : pci_st (gmap Z Z) := PciSt demo_cards 0 (PciDev 0 0 2 0 0 0 (PciCfg 0 0 0 0 0 0)).

Example detect_card : match pci_device_detect demo_pci with Ok (r, s) => (r, vendor_id (p_dev s), dev_id (p_dev s), dev_no (cfg (p_dev s)), func_no (cfg (p_dev s))) | Err _ => (1, 0, 0, 0, 0) end = (0, 0x8086, 0x100e, 3, 1).
Proof. vm_compute. reflexivity. Qed.

Lemma pci_read_bar_word_witness : wp (pci_read_bar 0) (λ r _, r = 0xfebc0000) (PciSt demo_cards 0 (PciDev 0x8086 0x100e 2 0 0 0 (PciCfg 0 1 3 0 0 1))).
Proof. eapply wp_mono; [apply (pci_read_bar_word 0 demo_cards); lia|]. intros r s' [-> _]. vm_compute. reflexivity. Defined.
