(* ===== verification/Boot.v ===== *)
(** * The first steps of the kernel (kernel.c, and [reload] of mm/block_alloc.c)

    The boot loader enters at [kernel_entry], which maps the first four megabytes twice,
    at 0 and at [KERNEL_START], switches paging on and goes on in the upper mapping.
    With these tables [reload] moves the tables of names and symbols to the start of the
    free memory.  At the end of its initialisation the first processor starts the others
    ([startAp]).  The link addresses of the static arrays are parameters; memory is
    physical here, because [reload] uses both mappings of it. *)

From S2P Require Import Prelude QLib Memory CString Vm BlockAlloc Ports BootInfo Acpi IntCtl.
From Stdlib Require Import ZArith Lia Sorted.
From stdpp Require Import base numbers gmap list.
Open Scope Z_scope.

#[local] Arguments Z.to_nat : simpl never.
#[local] Arguments Z.mul : simpl never.
#[local] Arguments Z.add : simpl never.
#[local] Arguments Z.div : simpl never.
#[local] Arguments Z.modulo : simpl never.

(** ** The temporary page tables *)

Definition CR0_PG : Z := 0x80000000.

(** The static data of the init section, the two variables of the data section that
    [kernel_entry] sets, and the registers it writes. *)
Record entry_state := Entry {
  boot_page_dir : list Z; boot_page_table1 : list Z; boot_page_table2 : list Z;
  tmp_mba : Z; tmp_magic : Z; mba : Z; magic : Z; cr0 : Z; cr3 : Z; esp : Z }.

(** The tables as the linker leaves them. *)
Definition table0 : list Z := replicate (Z.to_nat N_PDE) VM_NPRES.

Section entry.
(** [&boot_page_dir], [&boot_page_table1], [&boot_page_table2] *)
Variables dir t1 t2 : Z.

Definition with_dir l (s : entry_state) := Entry l (boot_page_table1 s) (boot_page_table2 s) (tmp_mba s) (tmp_magic s) (mba s) (magic s) (cr0 s) (cr3 s) (esp s).
Definition with_table1 l (s : entry_state) := Entry (boot_page_dir s) l (boot_page_table2 s) (tmp_mba s) (tmp_magic s) (mba s) (magic s) (cr0 s) (cr3 s) (esp s).
Definition with_table2 l (s : entry_state) := Entry (boot_page_dir s) (boot_page_table1 s) l (tmp_mba s) (tmp_magic s) (mba s) (magic s) (cr0 s) (cr3 s) (esp s).
Definition with_regs c0 c3 sp (s : entry_state) := Entry (boot_page_dir s) (boot_page_table1 s) (boot_page_table2 s) (tmp_mba s) (tmp_magic s) (mba s) (magic s) c0 c3 sp.
Definition with_args b g (s : entry_state) := Entry (boot_page_dir s) (boot_page_table1 s) (boot_page_table2 s) (tmp_mba s) (tmp_magic s) b g (cr0 s) (cr3 s) (esp s).

(** [array[i] = v] *)
Definition wr_array (rd : entry_state → list Z) (wr : list Z → entry_state → entry_state) (i v : Z) : M entry_state unit :=
  s ← get; _ ← deref (rd s !! Z.to_nat i); modify (λ s, wr (<[Z.to_nat i := v]> (rd s)) s).

Definition map_tmp_page : M entry_state unit :=
  wr_array boot_page_dir with_dir 0 (Z.lor (Z.lor t1 VM_PRES) VM_KRW);;
  wr_array boot_page_dir with_dir (PDE_INDEX KERNEL_START) (Z.lor (Z.lor t2 VM_PRES) VM_KRW);;
  for_up 1024 0 (λ i,
    wr_array boot_page_table1 with_table1 i (Z.lor (Z.lor (Z.shiftl i 12) VM_PRES) VM_KRW);;
    wr_array boot_page_table2 with_table2 i (Z.lor (Z.lor (Z.shiftl i 12) VM_PRES) VM_KRW));;
  modify (λ s, with_regs (cr0 s) dir (esp s) s).

(** Up to the call of [kernel_main]. *)
Definition kernel_entry : M entry_state unit :=
  map_tmp_page;;
  modify (λ s, with_regs (Z.lor (cr0 s) CR0_PG) (cr3 s) (esp s) s);;
  modify (λ s, with_regs (cr0 s) (cr3 s) (u32 (KERNEL_START + esp s)) s);;
  modify (λ s, with_args (u32 (tmp_mba s + KERNEL_START)) (tmp_magic s) s).

(** The word at the physical address [a], if it is in one of the tables. *)
Definition table_word (s : entry_state) (a : Z) : option Z :=
  let at_ p l := if (p <=? a) && (a <? p + 4096) then Some (l !! Z.to_nat ((a - p) / 4)) else None in
  match at_ dir (boot_page_dir s), at_ t1 (boot_page_table1 s), at_ t2 (boot_page_table2 s) with
  | Some v, _, _ | None, Some v, _ | None, None, Some v => v
  | None, None, None => None
  end.

(** What the processor makes of a linear address: [Some None] is a page fault, [None]
    that it reads outside the tables. *)
Definition tmp_mmu (s : entry_state) (va : Z) : option (option Z) :=
  if negb (Z.testbit (cr0 s) 31) then Some (Some va)
  else
    pde ← table_word s (PAGE_CEIL (cr3 s) + 4 * PDE_INDEX va);
    if negb (truth (Z.land pde VM_PRES)) then Some None
    else
      pte ← table_word s (PAGE_CEIL pde + 4 * PTE_INDEX va);
      if negb (truth (Z.land pte VM_PRES)) then Some None
      else Some (Some (PAGE_CEIL pte + Z.land va PAGE_MASK)).

(** The mapping the comment in [map_tmp_page] describes. *)
Definition tmp_phys (va : Z) : option Z :=
  if va <? MB4 then Some va
  else if (KERNEL_START <=? va) && (va <? KERNEL_START + MB4) then Some (va - KERNEL_START)
  else None.

(** *** Correctness *)

Lemma wr_array_ok rd wr i v (Q : unit → entry_state → Prop) s : 0 ≤ i < Z.of_nat (length (rd s)) →
  Q tt (wr (<[Z.to_nat i := v]> (rd s)) s) → wp (wr_array rd wr i v) Q s.
Proof.
  intros Hi HQ. unfold wr_array. destruct (lookup_lt_is_Some_2 (rd s) (Z.to_nat i) ltac:(lia)) as [x Hx]. wp_step. wp_step. wp_step. apply wp_deref. exists x. split; [done|]. by wp_step.
Qed.

(** An entry for the page [x]: present and writable. *)
Lemma entry_bits x : (4096 | x) → 0 ≤ x < 2 ^ 32 - 4096 →
  Z.lor (Z.lor x VM_PRES) VM_KRW = x + 3 ∧ PAGE_CEIL (x + 3) = x ∧ truth (Z.land (x + 3) VM_PRES) = true.
Proof.
  intros [q ->] Hx. change VM_PRES with 1. change VM_KRW with 2. rewrite <- Z.lor_assoc. change (Z.lor 1 2) with 3.
  split_and!.
  - change 4096 with (2 ^ 12). by rewrite lor_low by lia.
  - rewrite PAGE_CEIL_eq by lia. rewrite Z.div_add_l by lia. change (3 / 4096) with 0. lia.
  - apply truth_true. change 1 with (Z.ones 1). rewrite Z.land_ones by lia. change (2 ^ 1) with 2. Z.div_mod_to_equations. lia.
Qed.

(** The table of the first four megabytes. *)
Definition low_table : list Z := (λ i, 4096 * i + 3) <$> seqZ 0 1024.
Lemma low_table_lookup i : 0 ≤ i < 1024 → low_table !! Z.to_nat i = Some (4096 * i + 3).
Proof. intros H. unfold low_table. rewrite list_lookup_fmap, lookup_seqZ_lt by lia. cbn. f_equal. lia. Qed.

(** The entries below [i] are those of [low_table]. *)
Definition filled (l : list Z) (i : Z) : Prop := length l = 1024%nat ∧ take (Z.to_nat i) l = take (Z.to_nat i) low_table.
Lemma filled_S l i : 0 ≤ i < 1024 → filled l i → filled (<[Z.to_nat i := Z.lor (Z.lor (Z.shiftl i 12) VM_PRES) VM_KRW]> l) (i + 1).
Proof.
  intros Hi [Hl Ht]. split; [by rewrite length_insert|]. rewrite Z.shiftl_mul_pow2 by lia. change (2 ^ 12) with 4096.
  destruct (entry_bits (i * 4096) ltac:(by exists i) ltac:(lia)) as [-> _]. rewrite Z2Nat.inj_add, Nat.add_1_r by lia.
  erewrite take_S_r by (apply list_lookup_insert_eq; lia). rewrite take_insert_ge by lia.
  erewrite (take_S_r low_table) by (by apply low_table_lookup). rewrite Ht. do 2 f_equal. lia.
Qed.
Lemma filled_all l : filled l 1024 → l = low_table.
Proof. intros [Hl Ht]. rewrite !firstn_all2 in Ht; [done|vm_compute; lia|rewrite Hl; vm_compute; lia]. Qed.

(** The directory with its two entries. *)
Definition tmp_dir : list Z := <[768%nat := t2 + 3]> (<[0%nat := t1 + 3]> table0).

(** The linker aligns the arrays to pages and does not let them overlap. *)
Record linked : Prop := Linked {
  ln_aligned : (4096 | dir) ∧ (4096 | t1) ∧ (4096 | t2);
  ln_range : 0 ≤ dir < 2 ^ 32 - 4096 ∧ 0 ≤ t1 < 2 ^ 32 - 4096 ∧ 0 ≤ t2 < 2 ^ 32 - 4096;
  ln_apart : dir ≠ t1 ∧ dir ≠ t2 ∧ t1 ≠ t2 }.

Lemma wp_map_tmp_page s : linked → boot_page_dir s = table0 → length (boot_page_table1 s) = 1024%nat → length (boot_page_table2 s) = 1024%nat →
  wp map_tmp_page (λ _ s', s' = with_regs (cr0 s) dir (esp s) (with_table2 low_table (with_table1 low_table (with_dir tmp_dir s)))) s.
Proof.
  intros [(Ad & A1 & A2) (Rd & R1 & R2) _] Ed H1 H2. unfold map_tmp_page.
  destruct (entry_bits t1 A1 R1) as [-> _]. destruct (entry_bits t2 A2 R2) as [-> _]. change (PDE_INDEX KERNEL_START) with 768.
  assert (Z.of_nat (length table0) = 1024) as Lt by (unfold table0; by rewrite length_replicate).
  wp_step. apply wr_array_ok; [rewrite Ed, Lt; lia|]. wp_step. apply wr_array_ok; [cbn; rewrite length_insert, Ed, Lt; lia|]. rewrite Ed.
  wp_step. eapply (wp_for_up (λ i s', ∃ l1 l2, s' = with_table2 l2 (with_table1 l1 (with_dir tmp_dir s)) ∧ filled l1 i ∧ filled l2 i)).
  - exists (boot_page_table1 s), (boot_page_table2 s). split; [done|]. by split; split.
  - intros i s' Hi (l1 & l2 & -> & F1 & F2). pose proof F1 as [N1 _]. pose proof F2 as [N2 _].
    wp_step. apply wr_array_ok; [cbn [boot_page_table1 with_table1 with_table2]; rewrite N1; lia|].
    apply wr_array_ok; [cbn [boot_page_table2 with_table1 with_table2]; rewrite N2; lia|].
    eexists _, _. split; [reflexivity|]. split; apply filled_S; (done || lia).
  - intros s' (l1 & l2 & -> & F1 & F2). wp_step. by rewrite (filled_all l1 F1), (filled_all l2 F2).
Qed.

Lemma table_word_dir s i : linked → 0 ≤ i < 1024 → table_word s (dir + 4 * i) = boot_page_dir s !! Z.to_nat i.
Proof.
  intros _ Hi. unfold table_word. rewrite (proj2 (Z.leb_le dir _)), (proj2 (Z.ltb_lt _ (dir + 4096))) by lia. cbn.
  replace (dir + 4 * i - dir) with (i * 4) by lia. by rewrite Z.div_mul.
Qed.
Lemma outside p q i : (4096 | p) → (4096 | q) → p ≠ q → 0 ≤ i < 1024 → (p <=? q + 4 * i) && (q + 4 * i <? p + 4096) = false.
Proof.
  intros [a ->] [b ->] Hne Hi. destruct (Z.leb_spec (a * 4096) (b * 4096 + 4 * i)); [|done]. apply Z.ltb_ge. nia.
Qed.
Lemma table_word_1 s i : linked → 0 ≤ i < 1024 → table_word s (t1 + 4 * i) = boot_page_table1 s !! Z.to_nat i.
Proof.
  intros [(? & ? & ?) _ (? & ? & ?)] Hi. unfold table_word. rewrite (outside dir t1) by done. rewrite (proj2 (Z.leb_le t1 _)), (proj2 (Z.ltb_lt _ (t1 + 4096))) by lia. cbn.
  replace (t1 + 4 * i - t1) with (i * 4) by lia. by rewrite Z.div_mul.
Qed.
Lemma table_word_2 s i : linked → 0 ≤ i < 1024 → table_word s (t2 + 4 * i) = boot_page_table2 s !! Z.to_nat i.
Proof.
  intros [(? & ? & ?) _ (? & ? & ?)] Hi. unfold table_word. rewrite (outside dir t2), (outside t1 t2) by done. rewrite (proj2 (Z.leb_le t2 _)), (proj2 (Z.ltb_lt _ (t2 + 4096))) by lia. cbn.
  replace (t2 + 4 * i - t2) with (i * 4) by lia. by rewrite Z.div_mul.
Qed.

Lemma tmp_dir_lookup i : 0 ≤ i < 1024 → tmp_dir !! Z.to_nat i = Some (if i =? 0 then t1 + 3 else if i =? 768 then t2 + 3 else 0).
Proof.
  intros Hi. unfold tmp_dir, table0. destruct (Z.eqb_spec i 0) as [->|N0]; [reflexivity|]. destruct (Z.eqb_spec i 768) as [->|N1]; [reflexivity|].
  rewrite !list_lookup_insert_ne by lia. apply lookup_replicate_2. unfold N_PDE. lia.
Qed.

(** Directory index, table index and offset of a linear address. *)
Lemma split_va va : 0 ≤ va < 2 ^ 32 → ∃ i j o, va = 4194304 * i + 4096 * j + o ∧ 0 ≤ i < 1024 ∧ 0 ≤ j < 1024 ∧ 0 ≤ o < 4096 ∧
  PDE_INDEX va = i ∧ PTE_INDEX va = j ∧ Z.land va PAGE_MASK = o.
Proof.
  intros H. exists (va / 4194304), (va / 4096 mod 1024), (va mod 4096). unfold PDE_INDEX, PTE_INDEX, PAGE_MASK, PAGE_SIZE.
  change (MASK_U32 10) with (Z.ones 10). change (4096 - 1) with (Z.ones 12). rewrite !Z.land_ones, !Z.shiftr_div_pow2 by lia.
  split_and!; try done; Z.div_mod_to_equations; lia.
Qed.

(** The tables that [map_tmp_page] leaves translate every linear address as intended. *)
Lemma tmp_mmu_phys s va : linked → Z.testbit (cr0 s) 31 = true → cr3 s = dir → boot_page_dir s = tmp_dir →
  boot_page_table1 s = low_table → boot_page_table2 s = low_table → 0 ≤ va < 2 ^ 32 → tmp_mmu s va = Some (tmp_phys va).
Proof.
  intros L E0 E3 Ed E1 E2 Hva. pose proof L as [(Ad & A1 & A2) (Rd & R1 & R2) _].
  destruct (split_va va Hva) as (i & j & o & Ev & Hi & Hj & Ho & Ei & Ej & Eo). unfold tmp_mmu. rewrite E0, E3, Ei, Ej, Eo. cbn [negb].
  assert (PAGE_CEIL dir = dir) as -> by (destruct Ad as [q ->]; rewrite PAGE_CEIL_eq by lia; rewrite Z.div_mul by lia; lia).
  rewrite table_word_dir, Ed, tmp_dir_lookup by done. cbn [mbind option_bind].
  assert (4096 * j + 3 = j * 4096 + 3) as Ee by lia. destruct (entry_bits (j * 4096) ltac:(by exists j) ltac:(lia)) as (_ & Pj & Qj).
  unfold tmp_phys, KERNEL_START, MB4. destruct (Z.eqb_spec i 0) as [->|N0]; [|destruct (Z.eqb_spec i 768) as [->|N1]].
  - destruct (entry_bits t1 A1 R1) as (_ & -> & ->). cbn [negb]. rewrite table_word_1, E1, low_table_lookup by done. cbn [mbind option_bind].
    rewrite Ee, Pj, Qj. cbn [negb]. rewrite (proj2 (Z.ltb_lt va _)) by lia. do 2 f_equal. lia.
  - destruct (entry_bits t2 A2 R2) as (_ & -> & ->). cbn [negb]. rewrite table_word_2, E2, low_table_lookup by done. cbn [mbind option_bind].
    rewrite Ee, Pj, Qj. cbn [negb]. rewrite (proj2 (Z.ltb_ge va _)), (proj2 (Z.leb_le _ va)), (proj2 (Z.ltb_lt va _)) by lia. cbn. do 2 f_equal. lia.
  - cbn. rewrite (proj2 (Z.ltb_ge va _)) by lia. destruct (Z.leb_spec 0xc0000000 va); [|done]. by rewrite (proj2 (Z.ltb_ge va _)) by lia.
Qed.

(** C32: [kernel_entry] ends with paging on and the processor translating exactly the first
    four megabytes, each at its own address and [KERNEL_START] above it; every other
    address faults.  The stack and the boot information are moved to the upper mapping. *)
Theorem kernel_entry_maps s : linked → boot_page_dir s = table0 → boot_page_table1 s = table0 → boot_page_table2 s = table0 →
  wp kernel_entry (λ _ s', (∀ va, 0 ≤ va < 2 ^ 32 → tmp_mmu s' va = Some (tmp_phys va)) ∧
    esp s' = u32 (KERNEL_START + esp s) ∧ mba s' = u32 (tmp_mba s + KERNEL_START) ∧ magic s' = tmp_magic s) s.
Proof.
  intros L Ed E1 E2. unfold kernel_entry. wp_step.
  eapply wp_mono; [apply wp_map_tmp_page; [done|done|rewrite E1; apply length_replicate|rewrite E2; apply length_replicate]|].
  intros _ s' ->. wp_go. cbn. split_and!; [|done..]. intros va Hva. apply tmp_mmu_phys; try done.
  unfold with_args, with_regs. cbn [cr0]. rewrite Z.lor_spec. by rewrite orb_true_r.
Qed.

End entry.

(** ** The tables of names are moved *)

Record early := Early { e_mem : mem; e_info : bootInfo; e_blocks : block_allocator }.
Definition on_blocks {A} (m : M block_allocator A) : M early A := zoom e_blocks (λ x s, Early (e_mem s) (e_info s) x) m.
Definition on_emem {A} (m : M mem A) : M early A := zoom e_mem (λ x s, Early x (e_info s) (e_blocks s)) m.
Definition upd_info (f : bootInfo → bootInfo) : M early unit := modify (λ s, Early (e_mem s) (f (e_info s)) (e_blocks s)).

(** An access to a linear address through the temporary tables. *)
Definition through {A} (va : Z) (k : Z → M mem A) : M mem A :=
  match tmp_phys va with Some pa => k pa | None => fail Fault end.
Definition memcpy_lin (dest src n : Z) : M mem unit :=
  for_up (Z.to_nat n) 0 (λ i, c ← through (src + i) load8; through (dest + i) (λ a, store8 a c)).

Definition move (addr size : Z) : M early Z :=
  assertk (addr <? KERNEL_START + MB4);;
  if 0x100000 <? addr then
    a ← on_blocks (block_alloc size);
    let new := u32 (a + KERNEL_START) in
    assertk (truth new && (new <? KERNEL_START + MB4));;
    on_emem (memcpy_lin new addr size);;
    mret new
  else mret addr.

(** The three tables that [bInfo] describes. *)
Inductive tab := Shstrtab | Strtab | Symtab.
#[export] Instance tab_eq_dec : EqDecision tab.
Proof. solve_decision. Defined.
Definition tab_addr (i : bootInfo) (t : tab) : Z :=
  match t with Shstrtab => st_addr (shstrtab i) | Strtab => st_addr (strtab i) | Symtab => sy_header (symtab i) end.
Definition tab_size (i : bootInfo) (t : tab) : Z :=
  match t with Shstrtab => st_len (shstrtab i) | Strtab => st_len (strtab i) | Symtab => sy_size (symtab i) end.
Definition put_tab (t : tab) (v : Z) (i : bootInfo) : bootInfo :=
  match t with
  | Shstrtab => put_shstrtab (StringTable v (st_len (shstrtab i))) i
  | Strtab => put_strtab (StringTable v (st_len (strtab i))) i
  | Symtab => put_symtab (SymbolTable v (sy_size (symtab i)) (sy_entry_size (symtab i))) i
  end.

(** One branch of the last loop of [reload], and its body for the address [addr[i]]. *)
Definition reload_tab (t : tab) : M early unit :=
  s ← get;
  new ← move (tab_addr (e_info s) t) (tab_size (e_info s) t);
  upd_info (put_tab t new);;
  assertk (truth new).
Definition reload_one (addr : Z) : M early unit :=
  i ← gets e_info;
  if addr =? tab_addr i Shstrtab then reload_tab Shstrtab
  else if addr =? tab_addr i Strtab then reload_tab Strtab
  else reload_tab Symtab.

(** The sorting of [addr[3]]: the exchange for one pair of indices, and the pairs in the
    order of the two loops. *)
Definition swap_if (l : list Z) (p : nat * nat) : list Z :=
  match l !! p.1, l !! p.2 with
  | Some x, Some y => if y <? x then <[p.2 := x]> (<[p.1 := y]> l) else l
  | _, _ => l
  end.
Definition sort_addrs (l : list Z) : list Z := foldl swap_if l [(0, 1); (0, 2); (1, 2)]%nat.

Definition reload : M early unit :=
  i ← gets e_info;
  foldr (λ a k, reload_one a;; k) (mret tt) (sort_addrs [tab_addr i Shstrtab; tab_addr i Strtab; tab_addr i Symtab]).

(** *** Correctness *)

(** The first block of the list starts at [f] and has [room] bytes. *)
Definition front (s : block_allocator) (f room : Z) : Prop :=
  ∃ n b, head (ba_order s) = Some n ∧ ba_infos s !! n = Some b ∧ bi_addr b = f ∧ room ≤ bi_size b ∧
    0 < f ∧ f + bi_size b < 2 ^ 32 ∧ room ≤ ba_size s < 2 ^ 32.

Lemma wp_alloc_front s f room size (Q : Z → block_allocator → Prop) : front s f room → 0 < size → MEM_ALIGN size 4 ≤ room → size ≤ 2 ^ 32 - 4 →
  (∀ s', front s' (f + MEM_ALIGN size 4) (room - MEM_ALIGN size 4) → Q f s') → wp (block_alloc size) Q s.
Proof.
  intros (n & b & Hn & Hb & Ef & Hr & Hf & Hs & Ht) Hz Hle Hmax HQ. pose proof (mem_align4 size ltac:(lia)) as Ha. set (sz := MEM_ALIGN size 4) in *.
  unfold block_alloc. fold sz. wp_step. wp_step. wp_step. apply wp_assertk. split; [apply Z.leb_le; lia|].
  destruct (ba_order s) as [|n' t] eqn:Eo; [done|]. injection Hn as ->. cbn [first_fit]. rewrite Hb, (proj2 (Z.leb_le sz _)) by lia.
  wp_step. wp_step. wp_step. wp_step. wp_step. apply wp_assertk. split; [apply truth_true; lia|]. wp_step. rewrite Ef. apply HQ.
  cbn [ba_order ba_infos ba_size ba_addr]. rewrite Eo. exists n. eexists. split; [done|]. split; [apply list_lookup_insert_eq; by eapply lookup_lt_Some|].
  cbn [bi_addr bi_size ba_size]. rewrite !u32_small by lia. lia.
Qed.

(** A copy through the tables is the copy of the physical bytes. *)
Lemma wp_memcpy_lin d s d' s' l (Q : unit → mem → Prop) m : (∀ i, 0 ≤ i < Z.of_nat (length l) → tmp_phys (d + i) = Some (d' + i) ∧ tmp_phys (s + i) = Some (s' + i)) →
  bytes_at m s' l → Forall (λ c, 0 ≤ c < 2 ^ 8) l → mapped m d' (Z.of_nat (length l)) → d' ≤ s' →
  (∀ m', bytes_at m' d' l → writes d' (Z.of_nat (length l)) m m' → Q tt m') → wp (memcpy_lin d s (Z.of_nat (length l))) Q m.
Proof.
  intros Hp Hb Hr Hm Hd HQ. pose proof (wp_memcpy d' s' l m Hb Hr Hm ltac:(by left)) as Hw. apply wp_elim in Hw as (r & m' & E & _ & Hb' & Hw).
  eapply wp_intro; [|by apply HQ]. unfold memcpy in E. unfold memcpy_lin.
  assert (∀ n k m, 0 ≤ k → k + Z.of_nat n ≤ Z.of_nat (length l) →
    for_up n k (λ i, c ← through (s + i) load8; through (d + i) (λ a, store8 a c)) m = for_up n k (λ i, c ← load8 (s' + i); store8 (d' + i) c) m) as He.
  { clear -Hp. induction n as [|n IH]; intros k m Hk Hn; [done|]. cbn [for_up]. destruct (Hp k ltac:(lia)) as [E1 E2].
    unfold mbind, M_bind. unfold through at 1. rewrite E2. destruct (load8 (s' + k) m) as [[c m1]|]; [|done]. unfold through at 1. rewrite E1.
    destruct (store8 (d' + k) c m1) as [[u m2]|]; [|done]. apply IH; lia. }
  rewrite He by lia. revert E. unfold mbind, M_bind. destruct (for_up _ 0 _ m) as [[u m2]|]; [|done]. intros [= <- <-]. by destruct u.
Qed.

Section reload.
(** The linear address and the bytes of each table. *)
Variables (la : tab → Z) (bytes : tab → list Z).

Definition len (t : tab) : Z := Z.of_nat (length (bytes t)).
(** The room that [block_alloc] takes for a table. *)
Definition asz (t : tab) : Z := MEM_ALIGN (len t) 4.
Definition total (ts : list tab) : Z := foldr (λ t n, asz t + n) 0 ts.

(** Where the tables go if they are moved in the order [ts], the first one to [f]. *)
Fixpoint dests (f : Z) (ts : list tab) : list (tab * Z) :=
  match ts with [] => [] | t :: ts => (t, f) :: dests (f + asz t) ts end.

(** Each table is in memory, at or above the place it goes to. *)
Fixpoint sliding (m : mem) (f : Z) (ts : list tab) : Prop :=
  match ts with
  | [] => True
  | t :: ts => (∃ p, (∀ i, 0 ≤ i < len t → tmp_phys (la t + i) = Some (p + i)) ∧ f ≤ p ∧ bytes_at m p (bytes t)) ∧ sliding m (f + asz t) ts
  end.

(** Tables above 1 MiB that are not empty. *)
Definition movable (t : tab) : Prop := 0x100000 < la t ∧ 0 < len t < MB4 ∧ Forall (λ c, 0 ≤ c < 2 ^ 8) (bytes t).

Lemma asz_bounds t : movable t → len t ≤ asz t ∧ 0 < asz t.
Proof. intros (_ & H & _). unfold asz, MB4 in *. pose proof (mem_align4 (len t) ltac:(lia)). lia. Qed.

Lemma total_nonneg ts : Forall movable ts → 0 ≤ total ts.
Proof. induction 1 as [|t ts Ht _ IH]; [done|]. change (0 ≤ asz t + total ts). pose proof (asz_bounds t Ht). lia. Qed.

Lemma sliding_writes m m' g n f ts : Forall movable ts → writes g n m m' → g + n ≤ f → sliding m f ts → sliding m' f ts.
Proof.
  intros Hm Hw. revert f. induction Hm as [|t ts Ht _ IH]; intros f Hf; cbn [sliding]; [done|]. intros [(p & Hp & Hle & Hb) Hs]. pose proof (asz_bounds t Ht).
  split; [|by apply IH; [lia|]]. exists p. split_and!; [done|done|]. intros i x Hi. rewrite (proj2 Hw) by lia. by apply Hb.
Qed.

Lemma tmp_phys_high p : 0 ≤ p < MB4 → tmp_phys (KERNEL_START + p) = Some p.
Proof.
  intros H. unfold tmp_phys, KERNEL_START, MB4 in *. rewrite (proj2 (Z.ltb_ge _ _)), (proj2 (Z.leb_le _ _)), (proj2 (Z.ltb_lt _ _)) by lia. cbn. f_equal. lia.
Qed.
Lemma tmp_phys_low p : p < MB4 → tmp_phys p = Some p.
Proof. intros H. unfold tmp_phys. by rewrite (proj2 (Z.ltb_lt _ _)). Qed.
Lemma tmp_phys_top va p : tmp_phys va = Some p → va < KERNEL_START + MB4.
Proof.
  unfold tmp_phys, KERNEL_START, MB4. destruct (Z.ltb_spec va (4 * 0x100000)); [lia|]. destruct (Z.leb_spec 0xc0000000 va); [|done].
  destruct (Z.ltb_spec va (0xc0000000 + 4 * 0x100000)); done || lia.
Qed.

Lemma wp_move t f room p s (Q : Z → early → Prop) : movable t → front (e_blocks s) f room → asz t ≤ room → f + asz t ≤ MB4 →
  (∀ i, 0 ≤ i < len t → tmp_phys (la t + i) = Some (p + i)) → f ≤ p → bytes_at (e_mem s) p (bytes t) → mapped (e_mem s) f (asz t) →
  (∀ m' bl', bytes_at m' f (bytes t) → writes f (len t) (e_mem s) m' → front bl' (f + asz t) (room - asz t) →
     Q (KERNEL_START + f) (Early m' (e_info s) bl')) → wp (move (la t) (len t)) Q s.
Proof.
  intros Hm Hfr Hroom Htop Hp Hle Hb Hmap HQ. pose proof (asz_bounds t Hm) as Ha. destruct Hm as (Hla & Hlen & Hby).
  assert (0 < f) as Hf by (destruct Hfr as (n & b & ? & ? & ? & ? & ? & ?); done). unfold MB4 in *.
  unfold move. wp_step. apply wp_assertk. split.
  { apply Z.ltb_lt. eapply tmp_phys_top. specialize (Hp 0 ltac:(lia)). rewrite !Z.add_0_r in Hp. exact Hp. }
  rewrite (proj2 (Z.ltb_lt _ _)) by done. wp_step. unfold on_blocks. apply wp_zoom. eapply wp_alloc_front; [exact Hfr|lia|done|lia|]. intros bl' Hfr'.
  rewrite u32_small by (unfold KERNEL_START; lia). wp_step. apply wp_assertk. split.
  { apply andb_true_iff. split; [apply truth_true; unfold KERNEL_START; lia|apply Z.ltb_lt; unfold MB4; lia]. }
  wp_step. unfold on_emem. apply wp_zoom. cbn [e_mem]. eapply (wp_memcpy_lin _ _ f p (bytes t)); [|done|done| |done|].
  - intros i Hi. split; [|by apply Hp]. replace (f + KERNEL_START + i) with (KERNEL_START + (f + i)) by lia. apply tmp_phys_high. unfold MB4. unfold len in *. lia.
  - intros i Hi. apply Hmap. unfold len in *. lia.
  - intros m' Hb' Hw'. cbn [e_info e_blocks e_mem]. wp_step. rewrite Z.add_comm. by apply HQ.
Qed.

Lemma tab_put i t v u : tab_addr (put_tab t v i) u = (if decide (u = t) then v else tab_addr i u) ∧ tab_size (put_tab t v i) u = tab_size i u.
Proof. by destruct t, u. Qed.

Lemma wp_reload_one t (Q : unit → early → Prop) s : tab_addr (e_info s) t = la t → (∀ u, tab_addr (e_info s) u = la t → u = t) →
  wp (reload_tab t) Q s → wp (reload_one (la t)) Q s.
Proof.
  intros Ha Hu HQ. unfold reload_one. wp_step. wp_step.
  destruct (Z.eqb_spec (la t) (tab_addr (e_info s) Shstrtab)) as [E|N1]; [by rewrite <- (Hu Shstrtab) in HQ|].
  destruct (Z.eqb_spec (la t) (tab_addr (e_info s) Strtab)) as [E|N2]; [by rewrite <- (Hu Strtab) in HQ|]. destruct t; [by rewrite Ha in N1|by rewrite Ha in N2|done].
Qed.

(** The tables [ts] are still at their old places and will be recognised there. *)
Definition pending (i : bootInfo) (ts : list tab) : Prop :=
  ∀ t, t ∈ ts → tab_addr i t = la t ∧ tab_size i t = len t ∧ ∀ u, tab_addr i u = la t → u = t.

(** [bInfo] after the moves. *)
Definition moved (l : list (tab * Z)) (i : bootInfo) : bootInfo := foldl (λ i p, put_tab p.1 (KERNEL_START + p.2) i) i l.

Lemma pending_next i t f ts m : t ∉ ts → Forall movable ts → 0 ≤ f → 0 < asz t → f + asz t ≤ MB4 → sliding m (f + asz t) ts →
  pending i (t :: ts) → pending (put_tab t (KERNEL_START + f) i) ts.
Proof.
  intros Hnt Hm Hf Hz Htop Hs Hp u Hu. destruct (Hp u ltac:(by right)) as (Ha & Hz' & Hd). destruct (tab_put i t (KERNEL_START + f) u) as [-> ->].
  rewrite decide_False by congruence. split_and!; [done|done|]. intros v. destruct (tab_put i t (KERNEL_START + f) v) as [-> _]. destruct (decide (v = t)) as [->|]; [|by apply Hd].
  intros E. exfalso. clear Hp Ha Hz' Hd Hnt. assert (∀ g, f < g → sliding m g ts → False) as Hno; [|by apply (Hno (f + asz t) ltac:(lia) Hs)]. clear Hs.
  induction ts as [|w ts IH]; [by apply elem_of_nil in Hu|]. apply Forall_cons in Hm as [Hw Hm]. intros g Hg [(p & Hp & Hle & _) Hs]. pose proof (asz_bounds w Hw).
  apply elem_of_cons in Hu as [->|Hu]; [|by apply (IH Hm Hu (g + asz w)); [lia|]]. destruct Hw as (_ & Hl & _). specialize (Hp 0 ltac:(lia)).
  rewrite <- E, !Z.add_0_r, tmp_phys_high in Hp by lia. injection Hp as ->. lia.
Qed.

Lemma wp_reload_list ts : ∀ f room s, NoDup ts → Forall movable ts → front (e_blocks s) f room → total ts ≤ room → f + total ts ≤ MB4 →
  sliding (e_mem s) f ts → mapped (e_mem s) f (total ts) → pending (e_info s) ts →
  wp (foldr (λ a k, reload_one a;; k) (mret tt) (la <$> ts)) (λ _ s',
    (∀ t d, (t, d) ∈ dests f ts → bytes_at (e_mem s') d (bytes t)) ∧ e_info s' = moved (dests f ts) (e_info s) ∧
    writes f (total ts) (e_mem s) (e_mem s')) s.
Proof.
  induction ts as [|t ts IH]; intros f room s Hnd Hm Hfr Hroom Htop Hs Hmap Hp; cbn [fmap list_fmap foldr dests].
  { wp_step. split_and!; [by intros ?? ?%elem_of_nil|done|apply writes_refl]. }
  apply NoDup_cons in Hnd as [Hnt Hnd]. apply Forall_cons in Hm as [Ht Hm]. pose proof (asz_bounds t Ht) as Ha. pose proof (total_nonneg ts Hm) as Hn.
  change (total (t :: ts)) with (asz t + total ts) in *. destruct Hs as [(p & Hph & Hle & Hb) Hs].
  destruct (Hp t ltac:(by left)) as (Ea & Ez & Hu). assert (0 < f) as Hf by (destruct Hfr as (n & b & ? & ? & ? & ? & ? & ?); done).
  wp_step. apply wp_reload_one; [done|done|]. unfold reload_tab. wp_step. wp_step. rewrite Ea, Ez. wp_step.
  eapply (wp_move t f room p); [done|done|lia|lia|done|done|done|intros i Hi; apply Hmap; lia|]. intros m' bl' Hb' Hw' Hfr'.
  wp_step. unfold upd_info. wp_step. wp_step; [apply truth_true; unfold KERNEL_START; lia|]. cbn [e_mem e_info e_blocks].
  eapply wp_mono; [apply (IH (f + asz t) (room - asz t)); cbn [e_mem e_info e_blocks]|]; try done; try lia.
  - eapply sliding_writes; [done|exact Hw'|lia|done].
  - eapply writes_mapped; [exact Hw'|]. intros i Hi. rewrite <- Z.add_assoc. apply Hmap. lia.
  - by eapply pending_next; [..|exact Hs|done]; [|done|lia|lia|lia].
  - intros _ s' (Hd & Hi & Hw). cbn [e_mem e_info] in *. split_and!.
    + intros u d [[= -> ->]|Hin]%elem_of_cons; [|by apply Hd]. eapply bytes_at_writes; [exact Hb'|exact Hw|]. unfold len in *. lia.
    + by rewrite Hi.
    + eapply writes_trans; [eapply writes_weaken; [exact Hw'|lia..]|eapply writes_weaken; [exact Hw|lia..]].
Qed.

Lemma sort_addrs_sorted ts : NoDup ts → length ts = 3%nat → StronglySorted (λ t u, la t < la u) ts →
  sort_addrs [la Shstrtab; la Strtab; la Symtab] = la <$> ts.
Proof.
  intros Hn Hl Hs. destruct ts as [|a [|b [|c [|]]]]; try done. apply NoDup_cons in Hn as [Ha [Hb _]%NoDup_cons].
  apply StronglySorted_inv in Hs as [[_ Hbc]%StronglySorted_inv Hab]. apply Forall_cons in Hab as [Hab [Hac _]%Forall_cons]. apply Forall_cons in Hbc as [Hbc _].
  assert (a ≠ b ∧ a ≠ c ∧ b ≠ c) as (N1 & N2 & N3) by set_solver. clear Ha Hb.
  unfold sort_addrs, swap_if. destruct a, b, c; try done; cbn;
    repeat (match goal with |- context [?x <? ?y] => destruct (Z.ltb_spec x y) end; cbn); done || lia.
Qed.

(** C33: [reload] moves the three tables, from the lowest linear address to the highest, one
    behind the other to the start of the free memory; their bytes arrive unchanged and
    [bInfo] names the new places.  This needs every table to lie at or above the place
    it goes to, in that order, which is the order of linear addresses and not the order
    in memory. *)
Theorem reload_slides ts f room s : NoDup ts → length ts = 3%nat → StronglySorted (λ t u, la t < la u) ts → Forall movable ts →
  (∀ t, tab_addr (e_info s) t = la t ∧ tab_size (e_info s) t = len t) →
  front (e_blocks s) f room → total ts ≤ room → f + total ts ≤ MB4 → sliding (e_mem s) f ts → mapped (e_mem s) f (total ts) →
  wp reload (λ _ s', (∀ t d, (t, d) ∈ dests f ts → bytes_at (e_mem s') d (bytes t)) ∧ e_info s' = moved (dests f ts) (e_info s) ∧
    writes f (total ts) (e_mem s) (e_mem s')) s.
Proof.
  intros Hn Hl Hs Hm Hi Hfr Hr Ht Hsl Hmap. unfold reload. wp_step. wp_step.
  rewrite (proj1 (Hi Shstrtab)), (proj1 (Hi Strtab)), (proj1 (Hi Symtab)), (sort_addrs_sorted ts Hn Hl Hs).
  eapply wp_reload_list; try done. intros t Hin. destruct (Hi t) as [Ea Ez]. split_and!; [done|done|]. intros u Eu.
  rewrite (proj1 (Hi u)) in Eu. destruct (decide (u = t)) as [|Hne]; [done|]. exfalso. destruct ts as [|a [|b [|c [|]]]]; try done.
  apply NoDup_cons in Hn as [Ha [Hb _]%NoDup_cons]. assert (a ≠ b ∧ a ≠ c ∧ b ≠ c) as (N1 & N2 & N3) by set_solver.
  apply StronglySorted_inv in Hs as [[_ Hbc]%StronglySorted_inv Hab]. apply Forall_cons in Hab as [Hab [Hac _]%Forall_cons]. apply Forall_cons in Hbc as [Hbc _].
  clear - Hne Eu N1 N2 N3 Hab Hac Hbc. destruct a, b, c, u, t; try done; lia.
Qed.
End reload.

(** ** Three small tables *)

Definition demo_bytes (t : tab) : list Z :=
  match t with Symtab => [0; 0; 0; 0; 7; 0; 16; 0; 9; 0; 0; 2] | Shstrtab => [0; 46; 116; 101; 120; 116; 0] | Strtab => [0; 109; 97; 105; 110; 0] end.
(** Memory with the tables at the physical addresses [pa] behind the start of a free block. *)
Definition demo_pmem (pa : tab → Z) : mem :=
  list_to_map (place (pa Symtab) (demo_bytes Symtab) ++ place (pa Strtab) (demo_bytes Strtab) ++ place (pa Shstrtab) (demo_bytes Shstrtab) ++ place 0x200000 (replicate 64 0)).
(** [bInfo] as [multiboot_init] leaves it: only the string table has a high address. *)
Definition demo_la (pa : tab → Z) (t : tab) : Z := match t with Strtab => KERNEL_START + pa Strtab | t => pa t end.
Definition demo_info (pa : tab → Z) : bootInfo :=
  BootInfo 0 0 0 (StringTable (demo_la pa Shstrtab) 7) (StringTable (demo_la pa Strtab) 6) (SymbolTable (demo_la pa Symtab) 12 16) 0.
Definition demo_early (pa : tab → Z) : early :=
  Early (demo_pmem pa) (demo_info pa) (BlockAllocator 0x200000 0x10000 [0%nat] [BlockInfo 0x200000 0x10000]).

(** After [multiboot_init] the string table is the last one to be moved, wherever it is: the
    other two have low addresses. *)
Lemma strtab_last a b p : 0 ≤ a < MB4 → 0 ≤ b < MB4 → 0 ≤ p → last (sort_addrs [a; KERNEL_START + p; b]) = Some (KERNEL_START + p).
Proof.
  intros Ha Hb Hp. unfold MB4, KERNEL_START, sort_addrs, swap_if in *. cbn.
  repeat (match goal with |- context [?x <? ?y] => destruct (Z.ltb_spec x y) end; cbn); done || (f_equal; lia).
Qed.

(** In memory: symbols, names of sections, names of symbols. *)
Definition pa_good (t : tab) : Z := match t with Symtab => 0x200004 | Shstrtab => 0x200012 | Strtab => 0x20001a end.
(** In memory: symbols, names of symbols, names of sections. *)
Definition pa_bad (t : tab) : Z := match t with Symtab => 0x200000 | Strtab => 0x20000c | Shstrtab => 0x200012 end.

Lemma reload_slides_witness : wp reload (λ _ s', bytes_at (e_mem s') 0x200014 (demo_bytes Strtab) ∧ tab_addr (e_info s') Strtab = 0xc0200014) (demo_early pa_good).
Proof.
  eapply wp_mono; [apply (reload_slides (demo_la pa_good) demo_bytes [Symtab; Shstrtab; Strtab] 0x200000 0x10000 (demo_early pa_good))|].
  - apply (bool_decide_unpack _). vm_compute. exact I.
  - done.
  - repeat (constructor; [|repeat (constructor; [vm_compute; reflexivity|]); constructor]). constructor.
  - repeat (constructor; [split; [vm_compute; reflexivity|split; [vm_compute; split; reflexivity|]]; apply (bool_decide_unpack _); vm_compute; exact I|]). constructor.
  - intros []; done.
  - exists 0%nat, (BlockInfo 0x200000 0x10000). cbn. split_and!; (done || lia).
  - vm_compute. discriminate.
  - vm_compute. discriminate.
  - assert (∀ t, (∀ i, 0 ≤ i < len demo_bytes t → tmp_phys (demo_la pa_good t + i) = Some (pa_good t + i)) ∧ bytes_at (demo_pmem pa_good) (pa_good t) (demo_bytes t)) as Ht.
    { intros t. split; [|apply bytes_checked; by destruct t; vm_compute].
      intros i Hi. assert (len demo_bytes t ≤ 16) by (by destruct t; vm_compute). destruct t; cbn [demo_la pa_good]; rewrite <- ?Z.add_assoc; (apply tmp_phys_high || apply tmp_phys_low); unfold MB4; lia. }
    split; [|split; [|split; [|done]]]; (eexists; split_and!; [apply Ht| |apply Ht]); vm_compute; discriminate.
  - intros i Hi. assert (total demo_bytes [Symtab; Shstrtab; Strtab] = 28) as E by reflexivity. rewrite E in Hi.
    assert (forallb (λ n, bool_decide (is_Some (demo_pmem pa_good !! (0x200000 + Z.of_nat n)))) (seq 0 28) = true) as Hc by (vm_compute; reflexivity).
    rewrite forallb_forall in Hc. specialize (Hc (Z.to_nat i) ltac:(apply in_seq; lia)). rewrite Z2Nat.id in Hc by lia. by apply bool_decide_eq_true in Hc.
  - intros _ s' (Hb & Hi & _). split; [apply (Hb Strtab 0x200014); vm_compute; right; right; left|rewrite Hi; reflexivity].
Defined.

(** The bytes of a table at the place [bInfo] names. *)
Definition read_tab (s : early) (t : tab) : list (option Z) :=
  (λ i, e_mem s !! (tab_addr (e_info s) t - KERNEL_START + i)) <$> seqZ 0 (tab_size (e_info s) t).

(** When the names of the symbols lie below the names of the sections, [reload] loses
    them: the string table has the only high address, so it is moved last, and by then
    the names of the sections have been written over it. *)
Theorem reload_loses : wp reload (λ _ s',
  read_tab s' Shstrtab = Some <$> demo_bytes Shstrtab ∧ read_tab s' Strtab = Some <$> [0; 46; 116; 101; 120; 116]) (demo_early pa_bad).
Proof. vm_compute. by split. Qed.

Definition demo_entry : entry_state := Entry table0 table0 table0 0x10000 0x36d76289 0 0 0x11 0 0x9f000.
Lemma kernel_entry_maps_witness : wp (kernel_entry 0x100000 0x102000 0x103000) (λ _ s',
  tmp_mmu 0x100000 0x102000 0x103000 s' 0xc0101234 = Some (Some 0x101234) ∧ tmp_mmu 0x100000 0x102000 0x103000 s' 0x500000 = Some None) demo_entry.
Proof.
  eapply wp_mono; [apply (kernel_entry_maps 0x100000 0x102000 0x103000 demo_entry); [|done..]|].
  - split; [split_and!; [by exists 0x100|by exists 0x102|by exists 0x103]|lia|lia].
  - intros _ s' (Hm & _). split; (rewrite Hm by lia); reflexivity.
Defined.

(** ** The other processors *)

Definition put_start (v : bool) (c : cpu) := Cpu (apic_id c) (ir_enable c) (cpu_lock c) v.

(** The table of processors, what the first one writes to start another, and the two
    words at [init_struct] that the code of ap_boot.s reads. *)
Record smp := Smp { sm_fw : firmware; sm_ap : ap_start; sm_init : list Z }.
Definition on_fw {A} (m : M firmware A) : M smp A := zoom sm_fw (λ x s, Smp x (sm_ap s) (sm_init s)) m.
Definition on_ap {A} (m : M ap_start A) : M smp A := zoom sm_ap (λ x s, Smp (sm_fw s) x (sm_init s)) m.
Definition set_init (i : nat) (v : Z) : M smp unit :=
  s ← get; _ ← deref (sm_init s !! i); modify (λ s, Smp (sm_fw s) (sm_ap s) (<[i := v]> (sm_init s))).

Section startAp.
(** The answers of the local controller, the id of the processor that runs, the addresses
    of [boot_page_dir], [kStack2] and [ap_start]; after how many looks at [start] the
    processor with an id has come to the line of [ap_main] that sets it. *)
Variables (lapic_in : nat → Z → Z) (self dir kStack2 ap_start : Z) (delay : Z → nat).

(** [getCpu()->start = true] of [ap_main], on the processor [id]. *)
Definition ap_main_start (id : Z) : M firmware unit := i ← getCpu id; upd_cpu i (put_start true).

(** One look of [while (!cpus[i].start)]. *)
Definition wait_ap (i : Z) : nat → M smp (nat + unit) := λ k,
  c ← on_fw (rd_cpu i);
  if cpu_start c then mret (inr tt)
  else when (k =? delay (apic_id c))%nat (on_fw (ap_main_start (apic_id c)));; mret (inl (S k)).

Definition start_round (fuel : nat) (i : Z) : M smp unit :=
  me ← on_fw (getCpu self);
  if i =? me then mret tt
  else
    set_init 1 (u32 (kStack2 + STACK_SIZE));;
    c ← on_fw (rd_cpu i);
    on_ap (lapicStartAp lapic_in (u8 (apic_id c)) ap_start);;
    loop fuel (wait_ap i) 0%nat.

Definition startAp (fuel : nat) : M smp unit :=
  set_init 0 dir;;
  s ← get;
  for_up (Z.to_nat (nCpu (f_cfg (sm_fw s)))) 0 (start_round fuel).

(** *** Correctness *)

Variables (ids : list Z) (page : Z).

(** The entry [i] for the processor [x] when the rounds before [k] are over. *)
Definition mark (k i : nat) (x : Z) : cpu := if bool_decide ((i < k)%nat ∧ x ≠ self) then put_start true (with_id x) else with_id x.
Definition others (k : nat) : list Z := filter (λ x, x ≠ self) (take k ids).

(** After [k] rounds: the other processors among the first [k] have got the messages that
    start them, one after the other, and have all come to their [start]. *)
Record rounds (k : nat) (s s' : smp) : Prop := Rounds {
  rn_cfg : f_cfg (sm_fw s') = f_cfg (sm_fw s);
  rn_cpus : ∀ i x, ids !! i = Some x → f_cpus (sm_fw s') !! i = Some (mark k i x);
  rn_lapic : lapic (ap_lapic (sm_ap s')) = lapic (ap_lapic (sm_ap s));
  rn_out : la_out (ap_lapic (sm_ap s')) = concat ((λ x, start_msgs x page) <$> reverse (others k)) ++ la_out (ap_lapic (sm_ap s));
  rn_mem : mapped (ap_mem (sm_ap s')) (0x467 + KERNEL_START) 4;
  rn_init : ∃ y, sm_init s' = [dir; y] ∧ (others k ≠ [] → y = u32 (kStack2 + STACK_SIZE)) }.

Hypothesis ids_ok : NoDup ids ∧ Forall (λ x, 0 ≤ x < 128) ids.

Lemma rounds_listed k s s' : rounds k s s' → listed (sm_fw s') ids.
Proof. intros H i x Hi. eexists. split; [by eapply rn_cpus|]. unfold mark. by case_bool_decide. Qed.

Lemma getCpu_at f i x : nCpu (f_cfg f) = Z.of_nat (length ids) → listed f ids → ids !! i = Some x → getCpu x f = Ok (Z.of_nat i, f).
Proof.
  intros Hn Hl Hi. destruct ids_ok as [Hnd Hr]. pose proof (Forall_lookup_1 _ _ _ _ Hr Hi) as Hx. cbn in Hx.
  rewrite (getCpu_signed f ids x Hn Hl) by (lia || (eapply Forall_impl; [exact Hr|]; cbn; lia)).
  assert (list_find (λ y, y = x) ids = Some (i, x)) as ->.
  { apply list_find_Some. split_and!; [done|done|]. intros j y Hj Hlt ->. pose proof (NoDup_lookup _ _ _ _ Hnd Hi Hj). lia. }
  by rewrite (proj2 (Z.ltb_lt _ _)) by lia.
Qed.

Definition with_cpus l (f : firmware) := Firmware (f_mem f) (f_vm f) (f_rsdp f) (f_madt f) (f_cfg f) l (f_ports f).
Lemma wp_rd_cpu i c (Q : cpu → smp → Prop) s : f_cpus (sm_fw s) !! i = Some c → Q c s → wp (on_fw (rd_cpu (Z.of_nat i))) Q s.
Proof. intros Hc HQ. unfold on_fw, rd_cpu. apply wp_zoom. wp_step. wp_step. rewrite Nat2Z.id, Hc. apply wp_deref. exists c. split; [done|]. by destruct s. Qed.

Lemma wp_wait i x (Q : unit → smp → Prop) s : nCpu (f_cfg (sm_fw s)) = Z.of_nat (length ids) → listed (sm_fw s) ids → ids !! i = Some x →
  f_cpus (sm_fw s) !! i = Some (with_id x) →
  Q tt (Smp (with_cpus (<[i := put_start true (with_id x)]> (f_cpus (sm_fw s))) (sm_fw s)) (sm_ap s) (sm_init s)) →
  ∀ d n j, (j + d = delay x)%nat → (d + 1 < n)%nat → wp (loop n (wait_ap (Z.of_nat i)) j) Q s.
Proof.
  intros Hn Hl Hi Hc HQ. induction d as [|d IH]; intros n j Hj Hd; (destruct n as [|n]; [lia|]); cbn [loop]; wp_step; unfold wait_ap at 1;
    wp_step; (eapply wp_rd_cpu; [exact Hc|]); cbn [cpu_start with_id put_apic_id apic_id cpu0].
  - rewrite Nat.add_0_r in Hj. subst j. rewrite Nat.eqb_refl. wp_step. unfold when, on_fw, ap_main_start, upd_cpu. apply wp_zoom. wp_step.
    eapply wp_intro; [by apply (getCpu_at _ i x)|]. wp_step. unfold rd_cpu. wp_step. wp_step. rewrite Nat2Z.id, Hc. apply wp_deref. eexists. split; [done|]. wp_step. wp_step.
    destruct n as [|n]; [lia|]. cbn [loop]. wp_step. unfold wait_ap. wp_step. eapply wp_rd_cpu; [cbn [sm_fw f_cpus]; apply list_lookup_insert_eq; by eapply lookup_lt_Some|].
    cbn [cpu_start put_start]. wp_step. by wp_step.
  - rewrite (proj2 (Nat.eqb_neq _ _)) by lia. wp_step. unfold when. do 2 wp_step. apply IH; lia.
Qed.

Lemma others_S k x : ids !! k = Some x → others (S k) = others k ++ (if decide (x = self) then [] else [x]).
Proof.
  intros Hk. unfold others. erewrite take_S_r by exact Hk. rewrite filter_app. f_equal. destruct (decide (x = self)).
  - by rewrite filter_cons_False, filter_nil by tauto.
  - by rewrite filter_cons_True, filter_nil by tauto.
Qed.
Lemma mark_other k i x : i ≠ k → mark (S k) i x = mark k i x.
Proof. intros H. unfold mark. repeat case_bool_decide; done || (exfalso; intuition lia). Qed.
Lemma mark_self k i : mark k i self = with_id self.
Proof. unfold mark. by rewrite bool_decide_false by tauto. Qed.

Lemma wp_start_round fuel k x s s' : ap_start = 4096 * page → 0 ≤ page < 256 → lapic (ap_lapic (sm_ap s)) ≠ 0 →
  nCpu (f_cfg (sm_fw s)) = Z.of_nat (length ids) → self ∈ ids → ids !! k = Some x → (delay x + 1 < fuel)%nat →
  rounds k s s' → wp (start_round fuel (Z.of_nat k)) (λ _ s'', rounds (S k) s s'') s'.
Proof.
  intros Ea Hpg Hp Hn [m Hm]%list_elem_of_lookup_1 Hk Hf Hr. pose proof (rounds_listed _ _ _ Hr) as Hl. destruct Hr as [R1 R2 R3 R4 R5 (y & R6 & R7)].
  pose proof (Forall_lookup_1 _ _ _ _ (proj2 ids_ok) Hk) as Hx. cbn in Hx.
  unfold start_round. wp_step. unfold on_fw at 1. apply wp_zoom. eapply wp_intro; [apply (getCpu_at _ m self); [by rewrite R1|done|done]|].
  assert (Smp (sm_fw s') (sm_ap s') (sm_init s') = s') as -> by (by destruct s'). destruct (Z.eqb_spec (Z.of_nat k) (Z.of_nat m)) as [E|Hkm].
  - assert (m = k) as -> by lia. rewrite Hk in Hm. injection Hm as ->. wp_step. split; try done; try (rewrite (others_S k self Hk), decide_True, app_nil_r by done; by eauto).
    intros i z Hi. rewrite (R2 i z Hi). destruct (decide (i = k)) as [->|]; [|by rewrite mark_other]. rewrite Hk in Hi. injection Hi as <-. by rewrite !mark_self.
  - assert (x ≠ self) as Hxs. { intros ->. pose proof (NoDup_lookup _ _ _ _ (proj1 ids_ok) Hk Hm). lia. }
    wp_step. unfold set_init. wp_step. wp_step. wp_step. rewrite R6. apply wp_deref. eexists. split; [reflexivity|]. wp_step. rewrite R6. cbn [insert list_insert].
    pose proof (R2 k x Hk) as Hc. unfold mark in Hc. rewrite bool_decide_false in Hc by lia. wp_step. eapply wp_rd_cpu; [exact Hc|]. cbn [with_id put_apic_id apic_id].
    rewrite u8_small by lia. rewrite Ea. wp_step. unfold on_ap. apply wp_zoom. cbn [sm_ap].
    eapply wp_mono; [apply wp_lapicStartAp; [by rewrite R3|lia|done|done]|]. intros _ ap' (A1 & A2 & A3 & A4 & A5). cbn [sm_fw sm_init].
    eapply (wp_wait k x); [cbn; by rewrite R1|done|done|done| |reflexivity|lia]. split; cbn [sm_fw sm_ap sm_init with_cpus f_cfg f_cpus]; try done.
    + intros i z Hi. destruct (decide (i = k)) as [->|Hne].
      * rewrite Hk in Hi. injection Hi as <-. rewrite list_lookup_insert_eq by (by eapply lookup_lt_Some). unfold mark. by rewrite bool_decide_true by (split; [lia|done]).
      * rewrite list_lookup_insert_ne, mark_other by done. by apply R2.
    + by rewrite A1, R3.
    + rewrite A2, R4, (others_S k x Hk), decide_False by done. rewrite reverse_snoc, fmap_cons. reflexivity.
    + by eapply mapped_dom; [exact A5|].
    + by eexists.
Qed.

(** [startAp] starts every processor but its own, in the order of the table and each one
    only after the one before it has set [start]: they share the stack [kStack2].  The
    other processors are given the temporary page directory. *)
Theorem startAp_starts fuel s : ap_start = 4096 * page → 0 ≤ page < 256 → lapic (ap_lapic (sm_ap s)) ≠ 0 → self ∈ ids →
  nCpu (f_cfg (sm_fw s)) = Z.of_nat (length ids) → (∀ i x, ids !! i = Some x → f_cpus (sm_fw s) !! i = Some (with_id x)) →
  mapped (ap_mem (sm_ap s)) (0x467 + KERNEL_START) 4 → length (sm_init s) = 2%nat → Forall (λ x, (delay x + 1 < fuel)%nat) ids →
  wp (startAp fuel) (λ _ s', rounds (length ids) s s') s.
Proof.
  intros Ea Hpg Hp Hs Hn Hc Hm Hi Hf. unfold startAp. destruct (sm_init s) as [|z [|y [|]]] eqn:Ei; try done.
  wp_step. unfold set_init. wp_step. wp_step. wp_step. rewrite Ei. apply wp_deref. eexists. split; [reflexivity|]. wp_step. rewrite Ei. cbn [insert list_insert].
  wp_step. wp_step. cbn [sm_fw]. rewrite Hn, Nat2Z.id. apply (wp_for_up (λ i s', rounds (Z.to_nat i) s s')).
  - split; try done. by exists y.
  - intros i s' Hi' Hr. destruct (lookup_lt_is_Some_2 ids (Z.to_nat i) ltac:(lia)) as [x Hx]. rewrite <- (Z2Nat.id i) at 1 by lia.
    replace (Z.to_nat (i + 1)) with (S (Z.to_nat i)) by lia. eapply wp_start_round; try done. exact (Forall_lookup_1 _ _ _ _ Hf Hx).
  - intros s'. by rewrite Z.add_0_l, Nat2Z.id.
Qed.
End startAp.

Definition demo_smp : smp :=
  Smp (Firmware ∅ demo_vm 0 0 (Apic 3 9 0 0) (cpus_of [0; 2; 5]) (Ports 0 []))
    (ApStart (LapicDev 0xfee00000 0 []) (Ports 0 []) (list_to_map (place 0xc0000467 [1; 2; 3; 4]))) [0; 0].
(** Processor 2 starts the processors 0 and 5. *)
Lemma startAp_starts_witness : wp (startAp demo_lapic_in 2 0x100000 0xc0120000 0x8000 (λ x, Z.to_nat (x + 3)) 20) (λ _ s',
  la_out (ap_lapic (sm_ap s')) = start_msgs 5 8 ++ start_msgs 0 8 ∧ sm_init s' = [0x100000; 0xc0121000] ∧
  (cpu_start <$> take 3 (f_cpus (sm_fw s'))) = [true; false; true]) demo_smp.
Proof.
  eapply wp_mono; [apply (startAp_starts demo_lapic_in 2 0x100000 0xc0120000 0x8000 (λ x, Z.to_nat (x + 3)) [0; 2; 5] 8)|].
  - split; [apply (bool_decide_unpack _); vm_compute; exact I|repeat constructor; lia].
  - done.
  - lia.
  - done.
  - by right; left.
  - done.
  - intros [|[|[|i]]] x [= <-]; reflexivity.
  - intros i Hi. assert (i = 0 ∨ i = 1 ∨ i = 2 ∨ i = 3) as [-> | [-> | [-> | ->]]] by lia; vm_compute; by eexists.
  - done.
  - repeat constructor; vm_compute; lia.
  - intros _ s' [_ Hc _ Ho _ (y & Hy & Ey)]. split_and!; [exact Ho|rewrite Hy, Ey by done; reflexivity|].
    pose proof (Hc 0%nat 0 eq_refl) as H0. pose proof (Hc 1%nat 2 eq_refl) as H1. pose proof (Hc 2%nat 5 eq_refl) as H2.
    destruct (f_cpus (sm_fw s')) as [|a [|b [|c l]]]; try done. injection H0 as ->. injection H1 as ->. injection H2 as ->. reflexivity.
Defined.

(** ** Room for the page descriptors *)

(** The part of the page allocator that is set before it runs. *)
Record pre_alloc := PreAlloc { pa_blocks : block_allocator; pa_pageCnt : Z; pa_pages : Z }.
Definition on_pblocks {A} (m : M block_allocator A) : M pre_alloc A := zoom pa_blocks (λ x s, PreAlloc x (pa_pageCnt s) (pa_pages s)) m.

Section pmm_init_mm.
(** [sizeof(struct page)] *)
Variable sizeof_page : Z.

Definition pmm_init_mm : M pre_alloc unit :=
  e ← on_pblocks block_end;
  b ← on_pblocks block_start;
  let pageCnt := Z.shiftr (u32 (e - b)) 12 in
  modify (λ s, PreAlloc (pa_blocks s) pageCnt (pa_pages s));;
  a ← on_pblocks (block_alloc_align (u32 (pageCnt * sizeof_page)) sizeof_page);
  modify (λ s, PreAlloc (pa_blocks s) (pa_pageCnt s) (u32 (a + KERNEL_START))).

(** Rounding stays within the [align - 1] bytes that were added, for alignments that are
    no powers of two as well. *)
Lemma MEM_ALIGN_any s align : 0 < align → 0 ≤ s → s + align - 1 < 2 ^ 32 → s ≤ MEM_ALIGN s align ≤ s + align - 1.
Proof.
  assert (∀ x m, Z.ldiff x m + Z.land x m = x) as Hsplit.
  { intros x m. rewrite <- (Z.lor_ldiff_and x m) at 3. apply Z.add_nocarry_lor. apply Z.bits_inj'. intros i Hi.
    rewrite !Z.land_spec, Z.ldiff_spec, Z.bits_0. by destruct (Z.testbit x i), (Z.testbit m i). }
  intros Ha Hs Hm. unfold MEM_ALIGN. rewrite u32_small by lia. set (x := s + align - 1) in *.
  assert (Z.land x (u32 (Z.lnot (align - 1))) = Z.ldiff x (align - 1)) as ->.
  { apply Z.bits_inj'. intros i Hi. rewrite Z.land_spec, Z.ldiff_spec. unfold u32. destruct (decide (i < 32)).
    - by rewrite Z.mod_pow2_bits_low, Z.lnot_spec by lia.
    - assert (Z.testbit x i = false) as ->; [|done]. destruct (decide (x = 0)) as [->|]; [apply Z.bits_0|]. apply Z.bits_above_log2; [lia|].
      assert (Z.log2 x < 32) by (apply Z.log2_lt_pow2; lia). lia. }
  pose proof (Hsplit x (align - 1)). pose proof (Hsplit (align - 1) x) as H2. rewrite (Z.land_comm (align - 1) x) in H2.
  assert (0 ≤ Z.ldiff (align - 1) x) by (apply Z.ldiff_nonneg; lia). assert (0 ≤ Z.land x (align - 1)) by (apply Z.land_nonneg; lia). lia.
Qed.

(** [pmm_init_mm] on one free block counts its pages, and the array of descriptors lies in
    the memory taken from the block, below what is left of it. *)
Theorem pmm_init_mm_reserves s b f room : 4 < sizeof_page → sizeof_page mod 4 = 0 → 0 < b → front (pa_blocks s) b room →
  ba_order (pa_blocks s) = [f] → ba_infos (pa_blocks s) !! f = Some (BlockInfo b room) → ba_addr (pa_blocks s) = b → 4096 ≤ room →
  room / 4096 * sizeof_page + sizeof_page + 4 ≤ room → b + room + KERNEL_START < 2 ^ 32 →
  wp pmm_init_mm (λ _ s', pa_pageCnt s' = room / 4096 ∧ b + KERNEL_START ≤ pa_pages s' ∧
    ∃ b' room', front (pa_blocks s') b' room' ∧ pa_pages s' + pa_pageCnt s' * sizeof_page ≤ b' + KERNEL_START ∧ b' + room' = b + room) s.
Proof.
  intros Hz Hmod Hb Hfr Ho Hi Ha Hroom Hfit Htop. unfold KERNEL_START in Htop. unfold pmm_init_mm, on_pblocks.
  wp_step. apply wp_zoom. unfold block_end. wp_step. wp_step. wp_step. apply wp_assertk. rewrite Ho. split; [done|].
  wp_step. apply wp_deref. exists f. split; [done|]. wp_step. apply wp_deref. eexists. split; [exact Hi|]. wp_step. cbn [bi_addr bi_size].
  wp_step. apply wp_zoom. unfold block_start. wp_step. cbn [pa_blocks]. rewrite Ha. assert (u32 (u32 (b + room) - b) = room) as -> by (rewrite (u32_small (b + room)) by lia; rewrite u32_small by lia; lia).
  rewrite Z.shiftr_div_pow2 by lia. change (2 ^ 12) with 4096. pose proof (Z.div_le_lower_bound room 4096 1 ltac:(lia) ltac:(lia)) as Hc. set (cnt := room / 4096) in *.
  assert (0 ≤ cnt * sizeof_page < 2 ^ 32) by nia. rewrite (u32_small (cnt * sizeof_page)) by lia. wp_step. wp_step. wp_step. apply wp_zoom. cbn [pa_blocks].
  unfold block_alloc_align. wp_step. apply wp_assertk. split.
  { apply andb_true_iff. split; [by apply Z.ltb_lt|]. apply Z.eqb_eq. change 3 with (Z.ones 2). by rewrite Z.land_ones. }
  rewrite (u32_small (cnt * sizeof_page + sizeof_page - 1)) by lia. pose proof (mem_align4 (cnt * sizeof_page + sizeof_page - 1) ltac:(nia)) as Hal.
  wp_step. eapply wp_alloc_front; [exact Hfr|nia|lia|lia|]. intros bl' Hfr'. wp_step. wp_step. cbn [pa_blocks pa_pageCnt pa_pages].
  pose proof (MEM_ALIGN_any b sizeof_page ltac:(lia) ltac:(lia) ltac:(lia)) as Hma. rewrite u32_small by (unfold KERNEL_START; lia).
  split_and!; [done|lia|]. eexists _, _. split; [exact Hfr'|]. unfold KERNEL_START. lia.
Qed.
End pmm_init_mm.

Lemma pmm_init_mm_reserves_witness : wp (pmm_init_mm 60) (λ _ s', pa_pageCnt s' = 0x1000)
  (PreAlloc (BlockAllocator 0x200000 0x1000000 [0%nat] [BlockInfo 0x200000 0x1000000]) 0 0).
Proof.
  eapply wp_mono; [apply (pmm_init_mm_reserves 60 _ 0x200000 0 0x1000000)|by intros _ s' [-> _]]; try done; try (unfold KERNEL_START; lia).
  exists 0%nat, (BlockInfo 0x200000 0x1000000). cbn. split_and!; (done || lia).
Defined.
