(* ===== verification/UserLib.v ===== *)
(** * The user library (userspace/lib.c)

    A program is in user memory, the bytes [t_mem], and talks to the console through
    system calls: [puts], [gets] and [cls] are what [Syscall.syscall_isr] makes of them,
    [k_puts], [k_gets] and [terminal_clear] of the terminal.  A failed [assert] prints a
    message and ends the program; here it is the outcome [Assert].

    [utoa] and [hex] are the kernel's without their test for NULL; the print routines and
    the loop of [printf] are those of [printfk], with the characters passed through a
    byte on the stack, at [slot].  The arrays for the numbers begin at [frame]. *)

From S2P Require Import Prelude QLib Memory CString Vga Keyboard Terminal.
From Stdlib Require Import ZArith Lia Ascii.
From stdpp Require Import base numbers gmap list.
Open Scope Z_scope.

#[local] Arguments Z.to_nat : simpl never.
#[local] Arguments Z.add : simpl never.
#[local] Arguments Z.mul : simpl never.

(** ** System calls *)

Definition puts (buf len : Z) : M term unit := k_puts buf (s32 len).
Definition gets (irqs : nat → list Z) (fuel : nat) (buf len : Z) : M term unit := _ ← k_gets irqs fuel buf (s32 len); mret tt.
Definition cls : M term unit := terminal_clear.

(** ** Numbers and strings *)

Definition reverse (s li : Z) : M mem unit := str_reverse s li.
Definition utoa (value str : Z) : M mem unit :=
  i ← utoa_loop 20 value str 0;
  store8 (str + i) 0;;
  reverse str (i - 1).
Definition hex (n str : Z) : M mem unit :=
  i ← hex_loop 20 n str 0;
  store8 (str + i) 0;;
  reverse str (i - 1).

(** The rest are copies of the kernel's. *)
Definition strlen (str : Z) : M mem Z := CString.strlen str.
Definition memcmp (s1 s2 len : Z) : M mem bool := CString.memcmp s1 s2 len.
Definition strcmp (s1 s2 : Z) : M mem bool := CString.strcmp s1 s2.

(** For an array on the stack these are the kernel's routines. *)
Lemma utoa_kernel v str m : str ≠ 0 → utoa v str m = CString.utoa v str m.
Proof. intros H. unfold CString.utoa. by rewrite (bind_Ok _ _ _ tt m) by (unfold assertk; by rewrite (proj2 (truth_true str) H)). Qed.
Lemma hex_kernel v str m : str ≠ 0 → hex v str m = CString.hex v str m.
Proof. intros H. unfold CString.hex. by rewrite (bind_Ok _ _ _ tt m) by (unfold assertk; by rewrite (proj2 (truth_true str) H)). Qed.

(** ** Output *)

Definition put_string (data : Z) : M term unit := puts data (-1).

Section output.
Variables (frame slot : Z).

(** [put_char(c)] passes the address of its argument. *)
Definition put_char (c : Z) : M term unit := on_mem (store8 slot c);; puts slot 1.

Definition print_d (num : Z) : M term unit :=
  with_array frame (U64LEN + 2)
    (if num <? 0 then
       on_mem (store8 frame (chr "-"));; on_mem (utoa (u64 (s64 (- num))) (frame + 1));; put_string frame
     else on_mem (utoa (u64 num) frame);; put_string frame).
Definition print_u (num : Z) : M term unit := with_array frame (U64LEN + 1) (on_mem (utoa num frame);; put_string frame).
Definition print_pointer (p : Z) : M term unit := with_array frame (U64LEN + 3) (init_0x frame;; on_mem (hex p (frame + 2));; put_string frame).
Definition print_hex (x : Z) : M term unit := with_array frame (U64LEN + 3) (init_0x frame;; on_mem (hex x (frame + 2));; put_string frame).

(** The loop of [printf]; [i] is the index the test of the loop sees. *)
Fixpoint printf_loop (fuel : nat) (str str_len i : Z) (ap : list Z) : M term unit :=
  match fuel with
  | O => fail Fuel
  | S fuel =>
      if i <? str_len then
        c ← on_mem (load8 (str + i));
        if (c =? chr "%") && (i + 1 <? str_len) then
          let i := i + 1 in
          d ← on_mem (load8 (str + i));
          if d =? chr "d" then
            '(x, ap) ← va_arg ap; print_d (s32 x);; printf_loop fuel str str_len (i + 1) ap
          else if d =? chr "u" then
            '(x, ap) ← va_arg ap; print_u (u32 x);; printf_loop fuel str str_len (i + 1) ap
          else if d =? chr "s" then
            '(x, ap) ← va_arg ap; put_string (u32 x);; printf_loop fuel str str_len (i + 1) ap
          else if d =? chr "c" then
            '(x, ap) ← va_arg ap; put_char (u8 x);; printf_loop fuel str str_len (i + 1) ap
          else if d =? chr "p" then
            '(x, ap) ← va_arg ap; print_pointer (u32 x);; printf_loop fuel str str_len (i + 1) ap
          else if d =? chr "x" then
            '(x, ap) ← va_arg ap; print_hex (u32 x);; printf_loop fuel str str_len (i + 1) ap
          else if d =? chr "l" then
            let i := i + 1 in
            l ← on_mem (load8 (str + i));
            if l =? chr "d" then
              '(x, ap) ← va_arg ap; print_d (s64 x);; printf_loop fuel str str_len (i + 1) ap
            else if l =? chr "u" then
              '(x, ap) ← va_arg ap; print_u (u64 x);; printf_loop fuel str str_len (i + 1) ap
            else if l =? chr "x" then
              '(x, ap) ← va_arg ap; print_hex (u64 x);; printf_loop fuel str str_len (i + 1) ap
            else
              let i := i - 1 in printf_loop fuel str str_len (i + 1) ap
          else
            let i := i - 1 in
            e ← on_mem (load8 (str + i));
            put_char e;; printf_loop fuel str str_len (i + 1) ap
        else
          put_char c;; printf_loop fuel str str_len (i + 1) ap
      else mret tt
  end.

Definition printf (str : Z) (ap : list Z) : M term unit :=
  str_len ← on_mem (strlen str);
  printf_loop (S (Z.to_nat str_len)) str str_len 0 ap.
End output.

(** ** What [printf] shows *)

Lemma wp_user_puts data s t (Q : unit → term → Prop) :
  cstr (t_mem t) data s → data ≠ 0 → Z.of_nat (length s) < 2 ^ 32 → showing t →
  (∀ t', t_mem t' = t_mem t → printed s t t' → Q tt t') → wp (put_string data) Q t.
Proof. exact (wp_put_string data s t Q). Qed.

(** Characters on the screen from memory. *)
Lemma wp_put_strings data s t (Q : unit → term → Prop) :
  bytes_at (t_mem t) data s → showing t → (∀ t', t_mem t' = t_mem t → printed s t t' → Q tt t') →
  wp (put_strings data (Z.of_nat (length s))) Q t.
Proof.
  intros Hb Hs HQ. unfold put_strings. rewrite Nat2Z.id. wp_step. apply wp_put_loop; [done|done|].
  intros t1 E1 P1. apply wp_scr_sync. intros t2 E2 P2. apply HQ; [congruence|]. rewrite <-(app_nil_r s). by eapply printed_app.
Qed.

Lemma wp_user_putc slot c t (Q : unit → term → Prop) : is_Some (t_mem t !! slot) → 0 ≤ c < 2 ^ 8 → showing t →
  (∀ t', t_mem t' = <[slot := c]> (t_mem t) → printed [c] t t' → Q tt t') → wp (put_char slot c) Q t.
Proof.
  intros Hsl Hc Hs HQ. unfold put_char. wp_step. apply wp_on_mem, wp_store8; [done|]. rewrite (u8_small c) by done.
  unfold puts, k_puts. change (s32 1) with 1. cbn [Z.ltb Z.compare]. apply (wp_put_strings slot [c]).
  - apply bytes_at_cons. split; [apply lookup_insert_eq|by intros ??].
  - exact Hs.
  - intros t' E P. by apply HQ.
Qed.

(** The copies of the print routines do what the kernel's do. *)
Lemma bind_eq {S A B} (m m' : M S A) (f g : A → M S B) s :
  m s = m' s → (∀ a s', f a s' = g a s') → (m ≫= f) s = (m' ≫= g) s.
Proof. intros E H. unfold mbind, M_bind. rewrite E. destruct (m' s) as [[a s']|]; [apply H|done]. Qed.

Lemma on_mem_eq (m m' : M mem unit) t : m (t_mem t) = m' (t_mem t) → on_mem m t = on_mem m' t.
Proof. intros E. unfold on_mem, zoom. by rewrite E. Qed.

Lemma with_array_eq frame n (m m' : M term unit) t : (∀ t, m t = m' t) → with_array frame n m t = with_array frame n m' t.
Proof. intros E. unfold with_array. by rewrite E. Qed.

Section printf_kernel.
Context (frame slot : Z) (Hf : 0 < frame).

Lemma print_u_kernel x t : print_u frame x t = Terminal.print_u put_string frame x t.
Proof. apply with_array_eq. intros t'. apply bind_eq; [apply on_mem_eq, utoa_kernel; lia|done]. Qed.
Lemma print_d_kernel x t : print_d frame x t = Terminal.print_d put_string frame x t.
Proof.
  apply with_array_eq. intros t1. destruct (x <? 0).
  - apply bind_eq; [done|]. intros _ t'. apply bind_eq; [apply on_mem_eq, utoa_kernel; lia|done].
  - apply bind_eq; [apply on_mem_eq, utoa_kernel; lia|done].
Qed.
Lemma print_hex_kernel x t : print_hex frame x t = Terminal.print_hex put_string frame x t.
Proof. apply with_array_eq. intros t1. apply bind_eq; [done|]. intros _ t'. apply bind_eq; [apply on_mem_eq, hex_kernel; lia|done]. Qed.

Ltac same_arg IH := apply bind_eq; [done|]; intros [? ?] ?; apply bind_eq; [first [apply print_d_kernel | apply print_u_kernel | apply print_hex_kernel | done]|]; intros; apply IH.

Lemma printf_loop_kernel fuel : ∀ str len i ap t,
  printf_loop frame slot fuel str len i ap t = printfk_loop (put_char slot) put_string frame fuel str len i ap t.
Proof.
  induction fuel as [|fuel IH]; intros str len i ap t; [done|]. cbn [printf_loop printfk_loop]. destruct (i <? len); [|done].
  apply bind_eq; [done|]. intros c t1. destruct (_ && _); [|apply bind_eq; [done|]; intros; apply IH].
  apply bind_eq; [done|]. intros d t2. destruct (d =? chr "d"); [same_arg IH|]. destruct (d =? chr "u"); [same_arg IH|].
  destruct (d =? chr "s"); [same_arg IH|]. destruct (d =? chr "c"); [same_arg IH|]. destruct (d =? chr "p"); [same_arg IH|].
  destruct (d =? chr "x"); [same_arg IH|]. destruct (d =? chr "l").
  - apply bind_eq; [done|]. intros l t3. destruct (l =? chr "d"); [same_arg IH|]. destruct (l =? chr "u"); [same_arg IH|].
    destruct (l =? chr "x"); [same_arg IH|]. apply IH.
  - apply bind_eq; [done|]. intros e t3. apply bind_eq; [done|]. intros; apply IH.
Qed.
End printf_kernel.

(** What a program's [printf] needs: as [printfk], with a byte for characters in front of
    the numbers. *)
Lemma wp_printf frame slot str fmt strs keep ap text t : (∀ h h', keep h → writes frame 23 h h' → keep h') → 0 < frame → frame ≤ slot < frame + 23 →
  str ≠ 0 → Z.of_nat (length fmt) < 2 ^ 32 → away frame str (Z.of_nat (length fmt) + 1) → tinvk frame str fmt strs keep (t_mem t) →
  expand strs fmt ap = Some text → showing t → wp (printf frame slot str ap) (shows_more frame str fmt strs keep text t) t.
Proof.
  intros Hk Hf Hsl Hs Hl Ha Hi Ex Hsh. unfold printf, strlen. wp_step. apply wp_on_mem.
  eapply wp_strlen; [by destruct Hi as (_ & _ & ? & _)|done|done|]. rewrite term_eta, Nat2Z.id.
  unfold wp. rewrite printf_loop_kernel by done.
  apply (printfk_loop_spec frame str fmt strs keep (put_char slot) put_string Hk Hf wp_user_puts Ha) with (pre := []) (fm := fmt); [|done|lia|done|done|done].
  intros c t1 Hc Hi1 Hs1. destruct (tinv_store frame str fmt strs keep Hk Ha slot c (t_mem t1) Hi1 Hsl Hc) as [Hm Hi2]. apply wp_user_putc; [done|done|done|].
  intros t2 E2 P2. split; [by rewrite E2|done].
Qed.

(** [printf] of a program: for a format and arguments that expand, the calls of the
    kernel it makes return and the screen shows exactly the expansion behind what it
    showed.  Nothing but the bytes of the number buffer changes in the strings it uses. *)
Theorem printf_shows frame slot str fmt strs ap text t hist cur :
  0 < frame → frame ≤ slot < frame + 23 → str ≠ 0 → Z.of_nat (length fmt) < 2 ^ 32 →
  away frame str (Z.of_nat (length fmt) + 1) → tinv frame str fmt strs (t_mem t) →
  expand strs fmt ap = Some text → shows hist cur (scr t) →
  wp (printf frame slot str ap) (λ _ t', tinv frame str fmt strs (t_mem t') ∧
    let '(hist', cur') := foldl (put_cell (terminal_color (scr t))) (hist, cur) text in shows hist' cur' (scr t')) t.
Proof.
  intros Hf Hsl Hs Hl Ha Hi Ex Hsh. eapply wp_mono; [apply (wp_printf frame slot str fmt strs (λ _, True) ap text t); try done; by exists hist, cur|].
  intros _ t' [Ht P]. split; [done|]. by apply P.
Qed.

Lemma printf_shows_witness :
  wp (printf 512 520 256 [- 42]) (λ _ t', tinv 512 256 fmt_n (λ _, None) (t_mem t') ∧
    let '(hist', cur') := foldl (put_cell 7) ([], []) [chr "n"; chr "="; chr "-"; chr "4"; chr "2"; 10] in shows hist' cur' (scr t')) term0.
Proof.
  apply (printf_shows 512 520 256 fmt_n (λ _, None) [- 42] _ term0 [] []);
    [lia|lia|lia|simpl; lia|unfold away; simpl; lia|exact term0_tinv|vm_compute; reflexivity|exact term0_shows].
Defined.
