(* ===== verification/Shell.v ===== *)
(** * The shell (userspace/sh.c)

    The shell prints a prompt, reads a line one character at a time and runs it.  Its line
    buffer is at [buf] in user memory, the strings of its calls are at [lit_prompt],
    [lit_echo] and [lit_nl]; a variable that is read before it is set holds [args0].

    The theorem goes from the keyboard to the screen: the strokes that arrive while the
    shell waits give the lines ([types]), a line has an [answer], and after any number of
    rounds the screen shows the prompts, the lines and the answers. *)

From S2P Require Import Prelude QLib Memory CString Vga Keyboard Terminal UserLib.
From Stdlib Require Import ZArith Lia Ascii.
From stdpp Require Import base numbers gmap list.
Open Scope Z_scope.

#[local] Arguments Z.to_nat : simpl never.
#[local] Arguments Z.add : simpl never.
#[local] Arguments Z.mul : simpl never.

(** ** The shell *)

Definition TERMINAL_BUF_SIZE : Z := 256.

Section shell.
Variables (frame slot : Z).
Variable buf : Z.                            (* char buf[TERMINAL_BUF_SIZE] *)
Variables (lit_prompt lit_echo lit_nl : Z).  (* the strings of the three calls that print *)
Variable args0 : Z.                          (* what the variable args holds before it is set *)

(** The loop looks for the first space and cuts the line there. *)
Fixpoint find_space (n : nat) (i : Z) : M term Z :=
  match n with
  | O => mret args0
  | S n' =>
      c ← on_mem (load8 (buf + i));
      if c =? 32 then on_mem (store8 (buf + i) 0);; mret (u16 (i + 1))
      else find_space n' (i + 1)
  end.

Definition COMPARE (cmd : list Z) : M term bool := on_mem (memcmp_lit buf cmd).
Definition cmd_clear : list Z := [99; 108; 101; 97; 114].
Definition cmd_ls : list Z := [108; 115].
Definition cmd_cat : list Z := [99; 97; 116].
Definition cmd_echo : list Z := [101; 99; 104; 111].

(** The commands behind [echo] do nothing. *)
Definition run_cmd (end_ : Z) : M term unit :=
  args ← find_space (Z.to_nat end_) 0;
  on_mem (store8 (buf + end_) 0);;
  is_clear ← COMPARE cmd_clear;
  if (is_clear : bool) then cls
  else
    is_ls ← COMPARE cmd_ls;
    if (is_ls : bool) then mret tt
    else
      is_cat ← COMPARE cmd_cat;
      if (is_cat : bool) then mret tt
      else
        is_echo ← COMPARE cmd_echo;
        if (is_echo : bool) then printf frame slot lit_echo [buf + args] else mret tt.

Variable irqs : nat → list Z.
Variable fuel : nat.

(** The inner loop: one character at a time, up to the newline.  [n] rounds are left
    before [i] is 255. *)
Fixpoint read_line (n : nat) (i : Z) : M term Z :=
  gets irqs fuel (buf + i) 1;;
  let i := i + 1 in
  assertk (negb (i =? TERMINAL_BUF_SIZE - 1));;
  c ← on_mem (load8 (buf + i - 1));
  if c =? 10 then mret i
  else match n with O => fail Fuel | S n' => read_line n' i end.

(** One round of the outer loop. *)
Definition shell_round : M term unit :=
  printf frame slot lit_prompt [];;
  i ← read_line 254 0;
  puts lit_nl 1;;
  when (1 <? i) (run_cmd i).

(** The first [n] rounds of the loop. *)
Fixpoint shell (n : nat) : M term unit :=
  match n with O => mret tt | S n' => shell_round;; shell n' end.

(** [hello]: the lines of the picture are at [lit_stars], [lit_blank] and [lit_welcome], each
    with a conversion for the string [space] in front. *)
Variables (lit_stars lit_blank lit_welcome space : Z).
Definition hello : M term unit :=
  printf frame slot lit_nl [];;
  printf frame slot lit_stars [space];;
  printf frame slot lit_blank [space];;
  printf frame slot lit_blank [space];;
  printf frame slot lit_welcome [space];;
  printf frame slot lit_blank [space];;
  printf frame slot lit_blank [space];;
  printf frame slot lit_stars [space];;
  printf frame slot lit_nl [].

Definition main (n : nat) : M term unit := cls;; hello;; shell n.
End shell.

(** ** Input *)

(** The first characters typed in sleep number [from] or, at most [n] sleeps on, later: the
    sleep behind it, the modifier keys held then, and the characters. *)
Fixpoint waits (strokes : nat → list stroke) (n from : nat) (held : gset Z) : option (nat * gset Z * list Z) :=
  match n with
  | O => None
  | S n' =>
      match foldl spec_stroke (held, []) (strokes from) with
      | (held', []) => waits strokes n' (S from) held'
      | (held', typed) => Some (S from, held', typed)
      end
  end.

(** Scan codes behind which no table has a key that moves the cursor, and few enough keys
    for the buffer. *)
Definition quiet (c : Z) : bool :=
  forallb (λ tab, match tab !! Z.to_nat c with Some r => negb (bool_decide (kb_key_type r = FN)) | None => true end)
    [asciiNonShift1; ascii2; asciiShift1].
Definition plain (s : stroke) : bool := known s && forallb quiet (scan_codes s).
Definition plain_keys (strokes : nat → list stroke) : Prop := ∀ n, forallb plain (strokes n) = true ∧ (length (strokes n) < 256)%nat.

(** Such keys leave the screen alone. *)
Lemma pres_press r : kb_key_type r ≠ FN → preserves kb_vga (kb_press_handle r).
Proof.
  intros Hr. apply pres_bind; [by apply pres_modify|intros _]. destruct (kb_key_type r); try done; try apply pres_mret.
  - by apply pres_zoom.
  - by apply pres_modify.
Qed.
Lemma pres_release r : preserves kb_vga (kb_release_handle r).
Proof.
  apply pres_bind; [by apply pres_modify|intros _]. apply pres_bind; [by apply pres_modify|intros _].
  destruct (kb_key_type r); try apply pres_mret. by apply pres_modify.
Qed.
Lemma pres_table (tab : list Z) c (f : Z → M kbd unit) : (∀ r, tab !! Z.to_nat c = Some r → preserves kb_vga (f r)) → preserves kb_vga (table_get tab c ≫= f).
Proof.
  intros H k a k'. unfold table_get, deref, mbind, M_bind. destruct (tab !! Z.to_nat c) as [r|] eqn:E; [|done]. by apply H.
Qed.
Lemma quiet_key c tab r : quiet c = true → In tab [asciiNonShift1; ascii2; asciiShift1] → tab !! Z.to_nat c = Some r → kb_key_type r ≠ FN.
Proof.
  intros Hq Hin E. unfold quiet in Hq. rewrite forallb_forall in Hq. specialize (Hq tab Hin). rewrite E in Hq.
  destruct (bool_decide_reflect (kb_key_type r = FN)); [done|done].
Qed.

Lemma pres_isr c : quiet c = true → preserves kb_vga (kb_isr c).
Proof.
  intros Hq. apply pres_bind; [|intros _; by apply pres_modify].
  unfold kb_sc_parse. destruct (c =? 0xe0); [by apply pres_modify|]. destruct (c =? 0xf0); [by apply pres_modify|].
  apply pres_bind; [apply pres_get|intros k0].
  assert (∀ tab, In tab [asciiNonShift1; ascii2; asciiShift1] →
    preserves kb_vga (r ← table_get tab c; assertk (negb (r =? KNULL));; kb_press_handle r)) as Hp.
  { intros tab Hin. apply pres_table. intros r Hr. apply pres_bind; [apply pres_assertk|]; intros _; apply pres_press. by eapply quiet_key. }
  destruct (f0 _), (e0 _); cbn [negb]; try (apply pres_table; intros; apply pres_bind; [apply pres_assertk|]; intros _; apply pres_release).
  - apply Hp. simpl. tauto.
  - destruct (_ || _); apply Hp; simpl; tauto.
Qed.

Lemma pres_isrs codes : forallb quiet codes = true → preserves kb_vga (kb_isrs codes).
Proof.
  induction codes as [|c codes IH]; intros H; [apply pres_mret|]. apply andb_prop in H as [Hc H].
  apply pres_bind; [by apply pres_isr|]. intros _. by apply IH.
Qed.

(** Output leaves the keyboard alone. *)
Definition keys (t : term) : kb_status * kb_queue * nat := (kbStatus (t_kbd t), kb_buf (t_kbd t), t_sleeps t).

Lemma pres_scr {A} (m : M vga A) : preserves keys (on_scr m).
Proof.
  intros t a t' E. unfold on_scr, on_kbd, on_vga, zoom in E. by destruct (m (kb_vga (t_kbd t))) as [[b v]|]; [injection E as _ <-|].
Qed.
Lemma pres_mem {A} (m : M mem A) : preserves keys (on_mem m).
Proof. by apply pres_zoom. Qed.
Lemma pres_puts buf len : preserves keys (puts buf len).
Proof.
  assert (∀ n, preserves keys (for_up n 0 (λ i, c ← on_mem (load8 (buf + i)); on_scr (vga_put_char c)))) as H.
  { intros n. apply pres_for_up. intros i. apply pres_bind; [apply pres_mem|]. intros c. apply pres_scr. }
  unfold puts, k_puts. destruct (_ <? 0).
  - apply pres_bind; [apply pres_mem|]. intros size. apply pres_bind; [apply H|]. intros _. apply pres_scr.
  - apply pres_bind; [apply H|]. intros _. apply pres_scr.
Qed.

#[export] Hint Resolve pres_mem pres_scr pres_puts : pres.

Section pres_printf.
Context (frame slot : Z).
Lemma pres_init_0x : preserves keys (init_0x frame).
Proof.
  apply pres_bind; [apply pres_mem|intros _]. apply pres_bind; [apply pres_mem|intros _].
  apply pres_for_up. intros. apply pres_mem.
Qed.
Lemma pres_array n m : preserves keys m → preserves keys (with_array frame n m).
Proof. intros H t x t'. unfold with_array. destruct (m _) as [[y t1]|] eqn:E; [|done]. intros [= _ <-]. exact (H _ _ _ E). Qed.
Lemma pres_print_d x : preserves keys (print_d frame x).
Proof. apply pres_array. unfold put_string. destruct (x <? 0); pres. Qed.
Lemma pres_print_u x : preserves keys (print_u frame x).
Proof. apply pres_array. unfold put_string. pres. Qed.
Lemma pres_print_hex x : preserves keys (print_hex frame x).
Proof. apply pres_array. apply pres_bind; [apply pres_init_0x|intros _]. unfold put_string. pres. Qed.
Lemma pres_put_char c : preserves keys (put_char slot c).
Proof. unfold put_char. pres. Qed.
Lemma pres_arg {A} ap (f : Z * list Z → M term A) : (∀ x ap, preserves keys (f (x, ap))) → preserves keys (va_arg ap ≫= f).
Proof. intros H. apply pres_bind; [destruct ap; [apply pres_fail|apply pres_mret]|]. intros [x ap']. apply H. Qed.

Lemma pres_printf_loop fuel : ∀ str len i ap, preserves keys (printf_loop frame slot fuel str len i ap).
Proof.
  induction fuel as [|fuel IH]; intros str len i ap; cbn [printf_loop]; [apply pres_fail|].
  repeat first [ apply IH | apply pres_mret | apply pres_mem | apply pres_print_d | apply pres_print_u | apply pres_print_hex
               | apply pres_put_char | apply pres_puts | apply pres_arg; intros ?? | apply pres_bind; [|intros ?]
               | match goal with |- preserves _ (if ?b then _ else _) => destruct b end ].
Qed.
Lemma pres_printf str ap : preserves keys (printf frame slot str ap).
Proof. apply pres_bind; [apply pres_mem|]. intros. apply pres_printf_loop. Qed.
End pres_printf.

Section typing.
Context (strokes : nat → list stroke) (Hplain : plain_keys strokes).
Let irqs n := strokes n ≫= scan_codes.

Lemma plain_known l : forallb plain l = true → forallb known l = true ∧ forallb quiet (l ≫= scan_codes) = true.
Proof.
  induction l as [|s l IH]; [done|]. intros [Hs Hl]%andb_prop. apply andb_prop in Hs as [Hk Hq]. destruct (IH Hl) as [IH1 IH2].
  change ((s :: l) ≫= scan_codes) with (scan_codes s ++ (l ≫= scan_codes)). rewrite forallb_app. simpl. by rewrite Hk, IH1, Hq, IH2.
Qed.

Lemma typed_bytes l : ∀ held typed, forallb known l = true → Forall (λ c, 0 < c < 2 ^ 8) typed →
  Forall (λ c, 0 < c < 2 ^ 8) (foldl spec_stroke (held, typed) l).2.
Proof.
  induction l as [|s l IH]; intros held typed Hk Ht; [done|]. apply andb_prop in Hk as [Hs Hk].
  assert (Forall (λ c, 0 < c < 2 ^ 8) (spec_stroke (held, typed) s).2) as Ht'.
  { destruct s as [ext sc|ext sc]; simpl in *; [|by destruct (kb_key_type _)]. destruct (kb_key_type _) eqn:E; try done. simpl.
    apply Forall_app. split; [done|]. apply Forall_singleton. set (sh := _ || _).
    destruct (vkey_shift ext sh sc Hs) as (Hne & _ & _ & Hu). pose proof (u8_range (vkey ext sh sc)). unfold KNULL in Hne. lia. }
  cbn [foldl]. destruct (spec_stroke (held, typed) s) as [held' typed']. by apply IH.
Qed.

(** The bytes in memory and the screen stay, and the keyboard is between two strokes. *)
Definition idle (t t' : term) : Prop := t_mem t' = t_mem t ∧ scr t' = scr t.

Lemma idle_trans t1 t2 t3 : idle t1 t2 → idle t2 t3 → idle t1 t3.
Proof. intros [? ?] [? ?]. split; congruence. Qed.

Lemma wp_sleep_irqs t held (Q : unit → term → Prop) : kb_rep (t_kbd t) held [] →
  (∀ t', idle t t' → t_sleeps t' = S (t_sleeps t) →
     (let '(held', typed) := foldl spec_stroke (held, []) (strokes (t_sleeps t)) in kb_rep (t_kbd t') held' typed) → Q tt t') →
  wp (sleep_irqs irqs) Q t.
Proof.
  intros Hk HQ. destruct (Hplain (t_sleeps t)) as [Hp Hl]. apply plain_known in Hp as [Hkn Hq].
  pose proof (wp_strokes (strokes (t_sleeps t)) (t_kbd t) held [] Hk Hkn ltac:(simpl; lia)) as Hw.
  apply wp_elim in Hw as ([] & k' & E & Hk'). pose proof (pres_isrs _ Hq _ _ _ E) as Hv.
  unfold sleep_irqs, on_kbd. wp_go. unfold irqs. eapply wp_intro; [exact E|]. wp_go. apply HQ; [by split|done|exact Hk'].
Qed.

Lemma wp_getchar_typed fuel t held c rest (Q : Z → term → Prop) : kb_rep (t_kbd t) held (c :: rest) → 0 < c →
  (∀ t', idle t t' → t_sleeps t' = t_sleeps t → kb_rep (t_kbd t') held rest → Q c t') → wp (getchar_loop irqs (S fuel)) Q t.
Proof.
  intros (He & Hf & Hm & Hr & Hv) Hc HQ. cbn [getchar_loop]. unfold on_kbd at 1, on_queue. wp_step. wp_step. wp_step.
  eapply wp_q_pop; [exact Hr|]. intros q' Hr'. unfold KB_NULL. destruct (Z.eqb_spec c 0); [lia|]. wp_step. by apply HQ.
Qed.

Lemma wp_getchar_loop n : ∀ fuel t held (Q : Z → term → Prop) n' held' c rest, (n < fuel)%nat → kb_rep (t_kbd t) held [] →
  waits strokes n (t_sleeps t) held = Some (n', held', c :: rest) →
  (∀ t', idle t t' → t_sleeps t' = n' → kb_rep (t_kbd t') held' rest → 0 < c < 2 ^ 8 → Q c t') → wp (getchar_loop irqs fuel) Q t.
Proof.
  induction n as [|n IH]; intros fuel t held Q n' held' c rest Hf Hk Hw HQ; [done|]. destruct fuel as [|fuel]; [lia|].
  cbn [getchar_loop waits] in *. pose proof Hk as (He & Hf0 & Hm & Hr & Hv).
  unfold on_kbd at 1, on_queue. wp_step. wp_step. wp_step. eapply wp_intro; [by apply q_pop_empty|].
  change (KB_NULL =? KB_NULL) with true. cbv iota. wp_step.
  apply (wp_sleep_irqs _ held); [by destruct (t_kbd t)|]. cbn [t_sleeps]. intros t1 Hid1 Hs1 Hk1.
  destruct (Hplain (t_sleeps t)) as [Hp Hl]. apply plain_known in Hp as [Hkn _].
  pose proof (typed_bytes _ held [] Hkn ltac:(constructor)) as Hty.
  destruct (foldl spec_stroke (held, []) (strokes (t_sleeps t))) as [held1 [|c1 rest1]] eqn:E.
  - apply (IH fuel t1 held1 Q n' held' c rest); [lia|done|by rewrite Hs1|]. intros t' Hid Hn Hk' Hc. apply HQ; [by apply (idle_trans t t1)|done..].
  - injection Hw as <- <- <- <-. apply Forall_cons in Hty as [Hc _]. destruct fuel as [|fuel]; [lia|].
    eapply wp_getchar_typed; [exact Hk1|lia|]. intros t' Hid Hn Hk'. apply HQ; [by apply (idle_trans t t1)|congruence|done|done].
Qed.

(** [getchar] drops what was typed before it is called and answers the first character
    typed then. *)
Lemma wp_getchar n fuel t held typed (Q : Z → term → Prop) n' held' c rest : (n < fuel)%nat → kb_rep (t_kbd t) held typed →
  waits strokes n (t_sleeps t) held = Some (n', held', c :: rest) →
  (∀ t', idle t t' → t_sleeps t' = n' → kb_rep (t_kbd t') held' rest → 0 < c < 2 ^ 8 → Q c t') → wp (getchar irqs fuel) Q t.
Proof.
  intros Hf (He & Hf0 & Hm & (Hb & Hh & Hl & Ht & Hi) & Hv) Hw HQ. unfold getchar, on_kbd, on_queue, kb_clear. wp_go.
  apply (wp_getchar_loop n fuel _ held Q n' held' c rest); [done| |done|].
  - unfold kb_rep, ring. simpl. split_and!; try done; try lia. rewrite Z.add_0_r, Z.mod_small; lia.
  - intros t' Hid Hn Hk Hc. by apply HQ.
Qed.

(** The line the user types for a program that reads character by character: of what is
    typed in one wait only the first character is read. *)
Fixpoint types (sleeps n from : nat) (held : gset Z) : option (nat * gset Z * list Z) :=
  match n with
  | O => None
  | S n' =>
      match waits strokes sleeps from held with
      | Some (from', held', c :: _) =>
          if c =? 10 then Some (from', held', [c])
          else '(from'', held'', l) ← types sleeps n' from' held'; Some (from'', held'', c :: l)
      | _ => None
      end
  end.

Lemma shows_on_screen hist cur v : shows hist cur v → on_screen v.
Proof. intros ((Hl & Hr & _) & Hc & Hn). split_and!; [done|lia|lia|lia|lia]. Qed.

Lemma kb_rep_keys t t' held typed : keys t' = keys t → showing t' → kb_rep (t_kbd t) held typed → kb_rep (t_kbd t') held typed.
Proof.
  intros [= E1 E2 _] (hist & cur & Hs) (He & Hf & Hm & Hr & _). unfold kb_rep. rewrite E1, E2. split_and!; try done. by eapply shows_on_screen.
Qed.

(** One character into memory, and onto the screen. *)
Lemma wp_gets1 sleeps fuel a t held typed (Q : unit → term → Prop) n' held' c rest : (sleeps < fuel)%nat → kb_rep (t_kbd t) held typed →
  waits strokes sleeps (t_sleeps t) held = Some (n', held', c :: rest) → is_Some (t_mem t !! a) → showing t →
  (∀ t' typed', t_mem t' = <[a := c]> (t_mem t) → t_sleeps t' = n' → kb_rep (t_kbd t') held' typed' → printed [c] t t' → 0 < c < 2 ^ 8 → Q tt t') →
  wp (gets irqs fuel a 1) Q t.
Proof.
  intros Hf Hk Hw Ha Hs HQ. unfold gets, k_gets. change (Z.to_nat (s32 1)) with 1%nat. cbn [gets_loop]. wp_step. wp_step.
  eapply wp_getchar; [exact Hf|exact Hk|exact Hw|]. intros t1 [Em1 Es1] Hn1 Hk1 Hc. rewrite Z.add_0_r. wp_step.
  apply wp_on_mem, wp_store8; [by rewrite Em1|]. rewrite (u8_small c) by lia. rewrite Em1. wp_step.
  eapply wp_mono; [apply (wp_pres keys); [apply wp_put_char with (Q := λ _ t2, t_mem t2 = <[a := c]> (t_mem t) ∧ printed [c] t t2)|]|].
  - destruct Hs as (hist & cur & Hs). exists hist, cur. unfold scr in *. simpl. by rewrite Es1.
  - intros t2 E2 P2. split; [done|]. intros hist cur Hsh. unfold scr in *. rewrite <-Es1 in *. by apply P2.
  - unfold Terminal.put_char. pres.
  - intros [] t2 [[E2 P2] Hkeys]. assert (wp (mret (M := M term) tt) Q t2) as Hdone.
    { wp_step. apply (HQ t2 rest); [done|by injection Hkeys as _ _ ->|eapply kb_rep_keys; [exact Hkeys|by eapply printed_showing|done]|done|done]. }
    by destruct (c =? NEWLINE); wp_step.
Qed.

(** A line typed: [l] is in the buffer and on the screen. *)
Definition line_read (a : Z) (l : list Z) (held : gset Z) (t t' : term) : Prop :=
  Forall (λ c, 0 < c < 2 ^ 8) l ∧ bytes_at (t_mem t') a l ∧ writes a (Z.of_nat (length l)) (t_mem t) (t_mem t') ∧ byte_mem (t_mem t') ∧
  printed l t t' ∧ ∃ typed, kb_rep (t_kbd t') held typed.

Lemma line_read_cons a c l held t t1 t2 : 0 < c < 2 ^ 8 → is_Some (t_mem t !! a) → t_mem t1 = <[a := c]> (t_mem t) → printed [c] t t1 →
  line_read (a + 1) l held t1 t2 → line_read a (c :: l) held t t2.
Proof.
  intros Hc Ha E1 P1 (Hl & Hb & Hw & Hbm & P2 & Hk). rewrite E1 in Hw. split_and!; [by constructor| | |done|by apply (printed_app [c] l t t1)|done].
  - apply bytes_at_cons. split; [|done]. rewrite (proj2 Hw) by lia. apply lookup_insert_eq.
  - cbn [length]. eapply writes_trans; [apply (writes_insert a _ a c); [done|lia]|]. eapply writes_weaken; [exact Hw|lia|lia].
Qed.

Lemma types_bytes sleeps n : ∀ from held from' held' l, types sleeps n from held = Some (from', held', l) → (0 < length l)%nat ∧ (length l ≤ n)%nat.
Proof.
  induction n as [|n IH]; intros from held from' held' l E; [done|]. cbn [types] in E.
  destruct (waits _ _ _ _) as [[[f1 h1] [|c rest]]|]; [done| |done]. destruct (c =? 10); [injection E as _ _ <-; simpl; lia|].
  destruct (types sleeps n f1 h1) as [[[f2 h2] l']|] eqn:E'; [|done]. injection E as _ _ <-. apply IH in E'. simpl. lia.
Qed.

Lemma types_one sleeps n from held from' held' c : types sleeps n from held = Some (from', held', [c]) → c = 10.
Proof.
  destruct n as [|n]; [done|]. cbn [types]. destruct (waits _ _ _ _) as [[[f1 h1] [|d rest]]|]; [done| |done].
  destruct (Z.eqb_spec d 10) as [->|_]; [by injection 1|].
  destruct (types sleeps n f1 h1) as [[[f2 h2] l']|] eqn:E'; [|done]. intros [= _ _ _ ->]. apply types_bytes in E'. simpl in E'. lia.
Qed.

Lemma line_read_nil a held typed t : byte_mem (t_mem t) → kb_rep (t_kbd t) held typed → line_read a [] held t t.
Proof. intros Hb Hk. split_and!; [done|by intros ??|apply writes_refl|done|by apply printed_nil|by exists typed]. Qed.

Lemma wp_read_line buf sleeps fuel n' : ∀ n i t held typed from' held' l, (sleeps < fuel)%nat → (n' ≤ S n)%nat →
  types sleeps n' (t_sleeps t) held = Some (from', held', l) → 0 ≤ i → i + Z.of_nat (length l) < 255 →
  mapped (t_mem t) (buf + i) (Z.of_nat (length l)) → byte_mem (t_mem t) → kb_rep (t_kbd t) held typed → showing t →
  wp (read_line buf irqs fuel n i) (λ r t', r = i + Z.of_nat (length l) ∧ t_sleeps t' = from' ∧ line_read (buf + i) l held' t t') t.
Proof.
  induction n' as [|n' IH]; intros n i t held typed from' held' l Hf Hn E Hi Hl Hm Hbm Hk Hs; [done|].
  pose proof (types_bytes _ _ _ _ _ _ _ E) as Hlen. cbn [types] in E.
  destruct (waits strokes sleeps (t_sleeps t) held) as [[[f1 h1] [|c rest]]|] eqn:Ew; [done| |done].
  assert (is_Some (t_mem t !! (buf + i))) as Ha by (rewrite <-(Z.add_0_r (buf + i)); apply Hm; lia).
  assert (∀ K : Z → M term Z, ∀ Q : Z → term → Prop,
    (∀ t1 typed1, t_mem t1 = <[buf + i := c]> (t_mem t) → t_sleeps t1 = f1 → kb_rep (t_kbd t1) h1 typed1 → printed [c] t t1 → 0 < c < 2 ^ 8 →
      byte_mem (t_mem t1) → wp (K c) Q t1) →
    wp (gets irqs fuel (buf + i) 1;; assertk (negb (i + 1 =? TERMINAL_BUF_SIZE - 1));; c ← on_mem (load8 (buf + (i + 1) - 1)); K c) Q t) as Hstep.
  { intros K Q HK. wp_step. eapply wp_gets1; [exact Hf|exact Hk|exact Ew|done|done|]. intros t1 typed1 E1 Hs1 Hk1 P1 Hc. wp_step. apply wp_assertk.
    split; [unfold TERMINAL_BUF_SIZE; apply negb_true_iff, Z.eqb_neq; lia|]. wp_step. apply wp_on_mem.
    eapply wp_load8; [rewrite E1; replace (buf + (i + 1) - 1) with (buf + i) by lia; apply lookup_insert_eq|]. rewrite term_eta.
    eapply HK; [done..|]. rewrite E1. apply byte_mem_insert; [done|lia]. }
  destruct (Z.eqb_spec c 10) as [->|Hnl].
  - injection E as <- <- <-. destruct n as [|n]; cbn [read_line]; apply Hstep; intros t1 typed1 E1 Hs1 Hk1 P1 Hc Hb1; change (10 =? 10) with true; cbv iota; wp_step;
      (split_and!; [simpl; lia|done|]); (eapply line_read_cons; [lia|done|exact E1|done|]); by eapply line_read_nil.
  - destruct (types sleeps n' f1 h1) as [[[f2 h2] l']|] eqn:E'; [|done]. injection E as <- <- <-. cbn [length] in *.
    destruct n as [|n]; [by destruct n'; [|lia]|]. cbn [read_line]. apply Hstep. intros t1 typed1 E1 Hs1 Hk1 P1 Hc Hb1.
    destruct (Z.eqb_spec c 10); [done|].
    eapply wp_mono; [apply (IH n (i + 1) t1 h1 typed1 f2 h2 l'); [done|lia|by rewrite Hs1|lia|lia| |done|done|by eapply printed_showing]|].
    + apply (writes_mapped (buf + i) 1 (t_mem t)); [rewrite E1; apply writes_insert; [done|lia]|].
      intros k Hk'. replace (buf + (i + 1) + k) with (buf + i + (k + 1)) by lia. apply Hm. lia.
    + intros r t2 (-> & <- & Hlr). split_and!; [lia|done|]. eapply line_read_cons; [done|done|exact E1|done|]. by rewrite Z.add_assoc in Hlr.
Qed.
End typing.

(** ** Commands *)

(** The line up to its first space, and what follows it. *)
Fixpoint cut (l : list Z) : option (list Z * list Z) :=
  match l with
  | [] => None
  | c :: l' => if c =? 32 then Some ([], l') else '(w, a) ← cut l'; Some (c :: w, a)
  end.

Fixpoint starts (cmd w : list Z) : bool :=
  match cmd, w with
  | [], _ => true
  | x :: cmd', y :: w' => (y =? x) && starts cmd' w'
  | _, [] => false
  end.

(** What the shell makes of a line. *)
Inductive response := Cleared | Prints (text : list Z).

Definition answer (l : list Z) : option response :=
  let w := match cut l with Some (w, _) => w | None => l end in
  if starts cmd_clear w then Some Cleared
  else if starts cmd_ls w then Some (Prints [])
  else if starts cmd_cat w then Some (Prints [])
  else if starts cmd_echo w then match cut l with Some (_, a) => Some (Prints (a ++ [10])) | None => None end
  else Some (Prints []).

Lemma cut_app l : ∀ w a, cut l = Some (w, a) → l = w ++ 32 :: a.
Proof.
  induction l as [|c l IH]; intros w a E; [done|]. cbn [cut] in E. destruct (Z.eqb_spec c 32) as [->|_]; [by injection E as <- <-|].
  destruct (cut l) as [[w' a']|] eqn:E'; [|done]. injection E as <- <-. by rewrite (IH w' a').
Qed.

Lemma wp_find_space buf args0 l : ∀ i t (Q : Z → term → Prop), bytes_at (t_mem t) (buf + i) l → 0 ≤ i → i + Z.of_nat (length l) < 2 ^ 16 →
  match cut l with
  | Some (w, _) => Q (i + Z.of_nat (length w) + 1) (Term (<[buf + i + Z.of_nat (length w) := 0]> (t_mem t)) (t_kbd t) (t_sleeps t))
  | None => Q args0 t
  end → wp (find_space buf args0 (length l) i) Q t.
Proof.
  induction l as [|c l IH]; intros i t Q Hb Hi Hl HQ; cbn [length find_space cut] in *; [by wp_step|].
  apply bytes_at_cons in Hb as [Hc Hb]. wp_step. apply wp_on_mem. eapply wp_load8; [exact Hc|]. rewrite term_eta.
  destruct (c =? 32).
  - wp_step. apply wp_on_mem, wp_store8; [done|]. wp_step. cbn [length] in HQ. rewrite !Z.add_0_r in HQ. rewrite u16_small by lia. exact HQ.
  - rewrite <-Z.add_assoc in Hb. apply IH; [done|lia|lia|]. destruct (cut l) as [[w a]|]; [|done]. cbn in HQ |- *.
    replace (i + 1 + Z.of_nat (length w) + 1) with (i + Z.of_nat (S (length w)) + 1) by lia.
    by replace (buf + (i + 1) + Z.of_nat (length w)) with (buf + i + Z.of_nat (S (length w))) by lia.
Qed.

Lemma wp_COMPARE buf cmd w t (Q : bool → term → Prop) : cstr (t_mem t) buf w → buf ≠ 0 → Forall (λ c, c ≠ 0) cmd →
  Q (starts cmd w) t → wp (COMPARE buf cmd) Q t.
Proof.
  intros Hc Hn Hcmd HQ. unfold COMPARE, memcmp_lit. apply wp_on_mem. wp_step. apply wp_assertk. split; [by apply truth_true|].
  assert (∀ cmd p w Q, cstr (t_mem t) p w → Forall (λ c, c ≠ 0) cmd → Q (starts cmd w) (t_mem t) → wp (lit_loop p cmd) Q (t_mem t)) as Hl.
  { clear. induction cmd as [|x cmd IH]; intros p w Q Hc Hcmd HQ; cbn [lit_loop starts] in *; [by wp_step|]. apply Forall_cons in Hcmd as [Hx Hcmd]. wp_step.
    destruct w as [|y w].
    - apply cstr_nil in Hc. eapply wp_load8; [exact Hc|]. destruct (Z.eqb_spec 0 x); [by subst|]. cbn [negb]. by wp_step.
    - apply cstr_cons in Hc as (Hy & _ & Hc). eapply wp_load8; [exact Hy|]. destruct (y =? x); simpl in *; [by eapply IH|by wp_step]. }
  eapply Hl; [done|done|]. by rewrite term_eta.
Qed.

(** ** The shell's memory *)

Section rounds.
Context (frame slot buf lit_prompt lit_echo lit_nl args0 : Z).

Definition prompt : list Z := [62; 32].
Definition echo_fmt : list Z := [37; 115; 10].

(** The line buffer, the strings and the number buffer are apart. *)
Record layout : Prop := {
  lay_frame : 0 < frame ∧ frame ≤ slot < frame + 23;
  lay_buf : 0 < buf ∧ buf + 256 < 2 ^ 32 ∧ away frame buf 256;
  lay_prompt : 0 < lit_prompt ∧ away frame lit_prompt 3 ∧ (lit_prompt + 3 ≤ buf ∨ buf + 256 ≤ lit_prompt);
  lay_echo : 0 < lit_echo ∧ away frame lit_echo 4 ∧ (lit_echo + 4 ≤ buf ∨ buf + 256 ≤ lit_echo);
  lay_nl : 0 < lit_nl ∧ away frame lit_nl 2 ∧ (lit_nl + 2 ≤ buf ∨ buf + 256 ≤ lit_nl) }.

Definition segment (h : mem) : Prop :=
  mapped h frame 23 ∧ mapped h buf 256 ∧ cstr h lit_prompt prompt ∧ cstr h lit_echo echo_fmt ∧ cstr h lit_nl [10].

Context (Hlay : layout).

Lemma cstr_apart h h' p s q n : cstr h p s → writes q n h h' → p + Z.of_nat (length s) + 1 ≤ q ∨ q + n ≤ p → cstr h' p s.
Proof. intros [Hb Hz] Hw Ha. split; [|done]. eapply bytes_at_writes; [done|done|]. rewrite length_app. simpl. lia. Qed.

Lemma segment_frame h h' : segment h → writes frame 23 h h' → segment h'.
Proof.
  intros (H1 & H2 & H3 & H4 & H5) Hw. destruct Hlay as [Lf Lb Lp Le Ln]. unfold away in *.
  split_and!; [by eapply writes_mapped|by eapply writes_mapped|..]; (eapply cstr_apart; [done|exact Hw|simpl; lia]).
Qed.

Lemma segment_buf h h' a n : segment h → writes a n h h' → buf ≤ a → a + n ≤ buf + 256 → segment h'.
Proof.
  intros (H1 & H2 & H3 & H4 & H5) Hw Ha Hn. apply (writes_weaken a n buf 256) in Hw; [|lia|lia]. destruct Hlay as [Lf Lb Lp Le Ln].
  split_and!; [by eapply writes_mapped|by eapply writes_mapped|..]; (eapply cstr_apart; [done|exact Hw|simpl; lia]).
Qed.

(** ** Running a line *)

Definition reacts (r : response) (t t' : term) : Prop :=
  match r with
  | Prints text => printed text t t'
  | Cleared => terminal_color (scr t') = terminal_color (scr t) ∧ shows [] [] (scr t')
  end.

(** What a command leaves behind. *)
Definition rests (r : response) (t t' : term) : Prop :=
  byte_mem (t_mem t') ∧ segment (t_mem t') ∧ keys t' = keys t ∧ reacts r t t'.

Lemma wp_echo a p t : byte_mem (t_mem t) → segment (t_mem t) → cstr (t_mem t) p a → buf ≤ p → p + Z.of_nat (length a) < buf + 256 →
  showing t → wp (printf frame slot lit_echo [p]) (λ _ t', rests (Prints (a ++ [10])) t t') t.
Proof.
  intros Hbm Hseg Hc Hp Hpa Hs. pose proof Hseg as (H1 & H2 & H3 & H4 & H5). pose proof Hlay as [Lf Lb Lp Le Ln].
  eapply wp_mono; [apply (wp_pres keys); [|apply pres_printf]|].
  - apply (wp_printf frame slot lit_echo echo_fmt (λ q, if q =? p then Some a else None) segment [p] (a ++ [10]) t);
      [apply segment_frame|lia|lia|lia|simpl; lia|simpl; apply Le| | |done].
    + split_and!; [done|done|done| |done]. intros q s E. destruct (Z.eqb_spec q p) as [->|]; [|done]. injection E as <-.
      split_and!; [lia|done|lia|]. unfold away in *. lia.
    + unfold echo_fmt. change 37 with (chr "%"). change 115 with (chr "s"). cbn -[u32 Z.eqb chr]. rewrite (u32_small p) by lia.
      rewrite !Z.eqb_refl. done.
  - intros [] t' [[(Hb' & _ & _ & _ & Hk') P] Hkeys]. by split_and!.
Qed.

Definition first_word (l : list Z) : list Z := match cut l with Some (w, _) => w | None => l end.

(** The line is cut: its first word is a string, and what follows the space is one. *)
Lemma cut_strings h l : bytes_at h buf l → Forall (λ c, c ≠ 0) l → is_Some (h !! (buf + Z.of_nat (length l))) →
  match cut l with
  | Some (w, a) => let h' := <[buf + Z.of_nat (length l) := 0]> (<[buf + Z.of_nat (length w) := 0]> h) in
      cstr h' buf w ∧ cstr h' (buf + (Z.of_nat (length w) + 1)) a ∧ writes buf (Z.of_nat (length l) + 1) h h'
  | None => let h' := <[buf + Z.of_nat (length l) := 0]> h in cstr h' buf l ∧ writes buf (Z.of_nat (length l) + 1) h h'
  end.
Proof.
  intros Hb Hz Hm. destruct (cut l) as [[w a]|] eqn:E.
  - apply cut_app in E as ->. apply bytes_at_app in Hb as [Hw Hb]. apply bytes_at_cons in Hb as [H32 Ha]. apply Forall_app in Hz as [Hzw Hza].
    apply Forall_cons in Hza as [_ Hza]. rewrite length_app in *. cbn [length] in *. set (n := Z.of_nat (length w)) in *.
    assert (writes (buf + n) 1 h (<[buf + n := 0]> h)) as W1 by (apply writes_insert; [done|lia]).
    assert (writes (buf + Z.of_nat (length w + S (length a))) 1 (<[buf + n := 0]> h) (<[buf + Z.of_nat (length w + S (length a)) := 0]> (<[buf + n := 0]> h))) as W2.
    { apply writes_insert; [|lia]. rewrite lookup_insert_ne by lia. exact Hm. }
    split_and!.
    + split; [|done]. apply bytes_at_app. split; [|apply bytes_at_cons; split; [|by intros ??]].
      * eapply bytes_at_writes; [eapply bytes_at_writes; [exact Hw|exact W1|lia]|exact W2|lia].
      * fold n. rewrite lookup_insert_ne by lia. apply lookup_insert_eq.
    + split; [|done]. rewrite Z.add_assoc. apply bytes_at_app. split; [|apply bytes_at_cons; split; [|by intros ??]].
      * eapply bytes_at_writes; [eapply bytes_at_writes; [exact Ha|exact W1|lia]|exact W2|lia].
      * replace (buf + n + 1 + Z.of_nat (length a)) with (buf + Z.of_nat (length w + S (length a))) by lia. apply lookup_insert_eq.
    + eapply (writes_trans _ _ _ (<[buf + n := 0]> h)); [eapply writes_weaken; [exact W1|lia|lia]|eapply writes_weaken; [exact W2|lia|lia]].
  - split; [split; [|done]; apply bytes_at_app; split; [|apply bytes_at_cons; split; [apply lookup_insert_eq|by intros ??]]|apply writes_insert; [done|lia]].
    eapply bytes_at_writes; [exact Hb|apply (writes_insert (buf + Z.of_nat (length l)) 1); [exact Hm|lia]|lia].
Qed.

Lemma wp_prepare (K : Z → M term unit) l t (Q : unit → term → Prop) : Forall (λ c, c ≠ 0) l → bytes_at (t_mem t) buf l → Z.of_nat (length l) < 255 →
  byte_mem (t_mem t) → segment (t_mem t) →
  (∀ t2 args, byte_mem (t_mem t2) → segment (t_mem t2) → t_kbd t2 = t_kbd t → t_sleeps t2 = t_sleeps t → cstr (t_mem t2) buf (first_word l) →
     (∀ w a, cut l = Some (w, a) → args = Z.of_nat (length w) + 1 ∧ cstr (t_mem t2) (buf + args) a) → wp (K args) Q t2) →
  wp (args ← find_space buf args0 (Z.to_nat (Z.of_nat (length l))) 0; on_mem (store8 (buf + Z.of_nat (length l)) 0);; K args) Q t.
Proof.
  intros Hz Hb Hl Hbm Hseg HK. rewrite Nat2Z.id. wp_step. pose proof Hseg as (_ & Hmb & _).
  assert (is_Some (t_mem t !! (buf + Z.of_nat (length l)))) as Hend by (apply Hmb; lia).
  pose proof (cut_strings (t_mem t) l Hb Hz Hend) as Hc.
  apply wp_find_space; [by rewrite Z.add_0_r|lia|lia|]. unfold first_word in HK. rewrite !Z.add_0_r.
  destruct (cut l) as [[w a]|] eqn:E; wp_step; apply wp_on_mem, wp_store8.
  - simpl. by rewrite lookup_insert_is_Some; destruct (decide (buf + Z.of_nat (length w) = buf + Z.of_nat (length l))); [left|right].
  - destruct Hc as (H1 & H2 & H3). change (u8 0) with 0. apply HK; cbn [t_mem t_kbd t_sleeps]; try done.
    + by do 2 (apply byte_mem_insert; [|lia]).
    + eapply segment_buf; [exact Hseg|exact H3|lia|lia].
    + intros w' a' [= <- <-]. by split.
  - done.
  - destruct Hc as (H1 & H3). change (u8 0) with 0. apply HK; cbn [t_mem t_kbd t_sleeps]; try done.
    + by apply byte_mem_insert; [|lia].
    + eapply segment_buf; [exact Hseg|exact H3|lia|lia].
Qed.

Lemma wp_cls t (Q : unit → term → Prop) : showing t →
  (∀ t', t_mem t' = t_mem t → terminal_color (scr t') = terminal_color (scr t) → shows [] [] (scr t') → Q tt t') → wp cls Q t.
Proof.
  intros (hist & cur & Hsh) HQ. unfold cls, terminal_clear, on_scr, on_kbd, on_vga. wp_go. apply wp_vga_clean; [by destruct Hsh as ((? & _) & _)|].
  intros v' Hv Hc. by apply HQ.
Qed.

Lemma pres_cls : preserves keys cls.
Proof. apply pres_scr. Qed.

Lemma wp_run_cmd l t r : Forall (λ c, c ≠ 0) l → bytes_at (t_mem t) buf l → Z.of_nat (length l) < 255 → byte_mem (t_mem t) → segment (t_mem t) →
  showing t → answer l = Some r → wp (run_cmd frame slot buf lit_echo args0 (Z.of_nat (length l))) (λ _ t', rests r t t') t.
Proof.
  intros Hz Hb Hl Hbm Hseg Hs Ha. unfold run_cmd. apply wp_prepare; [done..|]. intros t2 args Hbm2 Hseg2 Ek2 Es2 Hw Hargs.
  assert (keys t2 = keys t ∧ scr t2 = scr t) as [Hk2 Hscr2] by (unfold keys, scr; by rewrite Ek2, Es2).
  assert (showing t2) as Hs2. { destruct Hs as (hist & cur & Hs). exists hist, cur. by rewrite Hscr2. }
  assert (rests (Prints []) t t2) as Hnone by (split_and!; [done|done|done|by apply printed_nil]).
  assert (buf ≠ 0) as Hb0 by (destruct Hlay as [_ (? & _) _ _ _]; lia).
  unfold answer in Ha. fold (first_word l) in Ha.
  wp_step. apply (wp_COMPARE buf cmd_clear (first_word l)); [done|done|by repeat constructor|]. destruct (starts cmd_clear (first_word l)).
  { injection Ha as <-. eapply wp_mono; [apply (wp_pres keys); [apply (wp_cls t2 (λ _ t', t_mem t' = t_mem t2 ∧ reacts Cleared t2 t')); [done|by split]|apply pres_cls]|].
    intros [] t' [[Em [Hc Hsh]] Hk]. split_and!; [by rewrite Em|by rewrite Em|congruence|split; [by rewrite Hc, Hscr2|done]]. }
  wp_step. apply (wp_COMPARE buf cmd_ls (first_word l)); [done|done|by repeat constructor|]. destruct (starts cmd_ls (first_word l)); [injection Ha as <-; by wp_step|].
  wp_step. apply (wp_COMPARE buf cmd_cat (first_word l)); [done|done|by repeat constructor|]. destruct (starts cmd_cat (first_word l)); [injection Ha as <-; by wp_step|].
  wp_step. apply (wp_COMPARE buf cmd_echo (first_word l)); [done|done|by repeat constructor|]. destruct (starts cmd_echo (first_word l)); [|injection Ha as <-; by wp_step].
  destruct (cut l) as [[w a]|] eqn:Ec; [|done]. injection Ha as <-. destruct (Hargs w a eq_refl) as [-> Hca].
  apply cut_app in Ec. assert (length l = length w + S (length a))%nat as Hlen by (by rewrite Ec, length_app).
  eapply wp_mono; [apply (wp_echo a); [done|done|done|lia|lia|done]|].
  intros [] t' (H1 & H2 & H3 & P). split_and!; [done|done|congruence|]. by apply (printed_app [] _ t t2); [apply printed_nil|].
Qed.

(** ** Rounds *)

Context (strokes : nat → list stroke) (Hplain : plain_keys strokes) (sleeps fuel : nat) (Hfuel : (sleeps < fuel)%nat).
Let irqs n := strokes n ≫= scan_codes.

(** What holds between two rounds. *)
Definition ready (t : term) (from : nat) (held : gset Z) : Prop :=
  byte_mem (t_mem t) ∧ segment (t_mem t) ∧ showing t ∧ t_sleeps t = from ∧ ∃ typed, kb_rep (t_kbd t) held typed.

(** A round: the prompt, the line as it is typed, a newline, and the answer. *)
Definition round_shows (l : list Z) (r : response) (t t' : term) : Prop :=
  match r with Prints text => printed (prompt ++ l ++ [10] ++ text) t t' | Cleared => reacts Cleared t t' end.

Lemma ready_keys t t' from held : ready t from held → keys t' = keys t → byte_mem (t_mem t') → segment (t_mem t') → showing t' → ready t' from held.
Proof.
  intros (_ & _ & _ & <- & typed & Hk) Hkeys Hb Hseg Hs. split_and!; [done|done|done|by injection Hkeys|]. exists typed. by eapply kb_rep_keys.
Qed.

Lemma wp_prompt t from held (Q : unit → term → Prop) : ready t from held →
  (∀ t', ready t' from held → printed prompt t t' → Q tt t') → wp (printf frame slot lit_prompt []) Q t.
Proof.
  intros Hr HQ. pose proof Hr as (Hbm & Hseg & Hs & _). pose proof Hseg as (H1 & H2 & H3 & H4 & H5). pose proof Hlay as [Lf Lb Lp Le Ln].
  eapply wp_mono; [apply (wp_pres keys); [|apply pres_printf]|].
  - apply (wp_printf frame slot lit_prompt prompt (λ _, None) segment [] prompt t); [apply segment_frame|lia|lia|lia|simpl; lia|simpl; apply Lp| |done|done].
    by split_and!.
  - intros [] t' [[(Hb' & _ & _ & _ & Hk') P] Hkeys]. apply HQ; [|done]. eapply ready_keys; [done..|by eapply printed_showing].
Qed.

Lemma wp_newline t from held (Q : unit → term → Prop) : ready t from held →
  (∀ t', t_mem t' = t_mem t → ready t' from held → printed [10] t t' → Q tt t') → wp (puts lit_nl 1) Q t.
Proof.
  intros Hr HQ. pose proof Hr as (Hbm & Hseg & Hs & _). pose proof Hseg as (_ & _ & _ & _ & [Hnl _]). apply bytes_at_app in Hnl as [Hnl _].
  eapply wp_mono; [apply (wp_pres keys); [|apply pres_puts]|].
  - unfold puts, k_puts. change (s32 1) with 1. cbn [Z.ltb Z.compare].
    apply (wp_put_strings lit_nl [10] t (λ _ t', t_mem t' = t_mem t ∧ printed [10] t t')); [done|done|by split].
  - intros [] t' [[Em P] Hkeys]. apply HQ; [done| |done]. eapply ready_keys; [done|done|by rewrite Em|by rewrite Em|by eapply printed_showing].
Qed.

Lemma reacts_showing r t t' : reacts r t t' → showing t → showing t'.
Proof. destruct r; simpl; [intros [_ H] _; by exists [], []|apply printed_showing]. Qed.

Lemma reacts_round l r t t3 t' : printed (prompt ++ l ++ [10]) t t3 → showing t → reacts r t3 t' → round_shows l r t t'.
Proof.
  intros P (hist & cur & Hs) H. destruct r; simpl in *.
  - destruct H as [Hc Hsh]. split; [|done]. rewrite Hc. by apply (P hist cur).
  - replace (62 :: 32 :: l ++ 10 :: text) with ((prompt ++ l ++ [10]) ++ text) by (by rewrite <-!app_assoc). by eapply printed_app.
Qed.

Lemma wp_shell_round t from held from' held' l r : ready t from held → types strokes sleeps 254 from held = Some (from', held', l) →
  answer l = Some r → wp (shell_round frame slot buf lit_prompt lit_echo lit_nl args0 irqs fuel) (λ _ t', ready t' from' held' ∧ round_shows l r t t') t.
Proof.
  intros Hr El Ea. unfold shell_round. wp_step. eapply wp_prompt; [exact Hr|]. intros t1 (Hb1 & Hseg1 & Hs1 & Hf1 & typed1 & Hk1) P1.
  pose proof (types_bytes strokes _ _ _ _ _ _ _ El) as Hlen. pose proof Hseg1 as (_ & Hmb & _). wp_step.
  eapply wp_mono; [apply (wp_read_line strokes Hplain buf sleeps fuel 254 254 0 t1 held typed1 from' held' l); try done; try lia|].
  { by rewrite Hf1. }
  { intros k Hk. rewrite Z.add_0_r. apply Hmb. lia. }
  intros n t2 (-> & Hf2 & Hz & Hby & Hw & Hb2 & P2 & typed2 & Hk2). rewrite Z.add_0_r in *. rewrite Z.add_0_l. wp_step.
  assert (showing t2) as Hs2 by (by eapply printed_showing).
  assert (segment (t_mem t2)) as Hseg2 by (eapply segment_buf; [exact Hseg1|exact Hw|lia|lia]).
  eapply wp_newline; [by split_and!; [done..|exists typed2]|]. intros t3 Em3 Hr3 P3. pose proof Hr3 as (Hb3 & Hseg3 & Hs3 & Hf3 & Hk3).
  assert (printed (prompt ++ l ++ [10]) t t3) as P by (eapply printed_app; [done|]; by eapply printed_app).
  unfold when. destruct (Z.ltb_spec 1 (Z.of_nat (length l))) as [Hlong|Hshort].
  - eapply wp_mono; [apply (wp_run_cmd l t3 r); [|by rewrite Em3|lia|done|done|done|done]|].
    { eapply Forall_impl; [exact Hz|]. simpl. lia. }
    intros [] t' (Hb' & Hseg' & Hk' & Hre). split.
    + eapply ready_keys; [exact Hr3|done|done|done|]. by eapply reacts_showing.
    + eapply reacts_round; [exact P| |exact Hre]. by destruct Hr as (_ & _ & ? & _).
  - wp_step. split; [done|]. destruct l as [|c [|]]; [simpl in Hlen; lia| |simpl in Hshort; lia]. apply types_one in El as ->.
    injection Ea as <-. exact P.
Qed.

(** The lines the user types in [n] rounds. *)
Fixpoint session (n from : nat) (held : gset Z) : option (list (list Z)) :=
  match n with
  | O => Some []
  | S n' =>
      '(from', held', l) ← types strokes sleeps 254 from held;
      _ ← answer l;
      ls ← session n' from' held'; Some (l :: ls)
  end.
End rounds.

(** The screen of a session: the history of lines and the line of the cursor. *)
Definition round_text (color : Z) (screen : list (list Z) * list Z) (l : list Z) : list (list Z) * list Z :=
  match answer l with
  | Some (Prints text) => foldl (put_cell color) screen (prompt ++ l ++ [10] ++ text)
  | Some Cleared => ([], [])
  | None => screen
  end.

(** C3: The shell, from the keyboard to the screen.  Whatever keys are typed while the shell
    waits (no cursor keys), as long as they make a line of at most 254 characters within
    the sleeps allowed in every round and no line begins with [echo] and has no space (for
    which the code prints from a pointer it never set), the first [n] rounds end, the shell's strings and
    its buffer are intact, and the screen shows, round by round, the prompt, the line as
    it was typed, a newline and the answer to the line: nothing for most commands, the
    words behind the first space for [echo]; [clear] leaves an empty screen. *)
Theorem shell_session frame slot buf lit_prompt lit_echo lit_nl args0 strokes sleeps fuel n t held typed lines hist cur :
  layout frame slot buf lit_prompt lit_echo lit_nl → plain_keys strokes → (sleeps < fuel)%nat →
  byte_mem (t_mem t) → segment frame buf lit_prompt lit_echo lit_nl (t_mem t) → kb_rep (t_kbd t) held typed →
  shows hist cur (scr t) → session strokes sleeps n (t_sleeps t) held = Some lines →
  wp (shell frame slot buf lit_prompt lit_echo lit_nl args0 (λ k, strokes k ≫= scan_codes) fuel n)
     (λ _ t', segment frame buf lit_prompt lit_echo lit_nl (t_mem t') ∧
        let '(hist', cur') := foldl (round_text (terminal_color (scr t))) (hist, cur) lines in shows hist' cur' (scr t')) t.
Proof.
  intros Hlay Hplain Hfuel Hbm Hseg Hk Hsh. revert lines hist cur held typed t Hbm Hseg Hk Hsh.
  induction n as [|n IH]; intros lines hist cur held typed t Hbm Hseg Hk Hsh Hl; cbn [shell session] in *.
  { injection Hl as <-. by wp_step. }
  destruct (types strokes sleeps 254 (t_sleeps t) held) as [[[from' held'] l]|] eqn:El; [|done]. cbn in Hl.
  destruct (answer l) as [r|] eqn:Ea; [|done]. cbn in Hl. destruct (session strokes sleeps n from' held') as [ls|] eqn:Els; [|done]. injection Hl as <-.
  wp_step. eapply wp_mono; [eapply (wp_shell_round frame slot buf lit_prompt lit_echo lit_nl args0 Hlay strokes Hplain sleeps fuel Hfuel); [|exact El|exact Ea]|].
  { split_and!; [done|done|by exists hist, cur|done|by exists typed]. }
  intros [] t1 [(Hb1 & Hs1 & _ & <- & typed1 & Hk1) Hround].
  assert (terminal_color (scr t1) = terminal_color (scr t) ∧
    let '(h1, c1) := round_text (terminal_color (scr t)) (hist, cur) l in shows h1 c1 (scr t1)) as [Hcol Hsh1].
  { unfold round_text. rewrite Ea. destruct r; [exact Hround|by apply Hround]. }
  cbn [foldl]. destruct (round_text (terminal_color (scr t)) (hist, cur) l) as [h1 c1]. rewrite <-Hcol. by eapply IH.
Qed.

(** ** A concrete session: the user types [echo hi] *)

Definition shell_mem : mem :=
  list_to_map (zip (seqZ 256 3) (prompt ++ [0]) ++ zip (seqZ 264 4) (echo_fmt ++ [0]) ++ zip (seqZ 272 2) [10; 0] ++
    ((λ a, (a, 0)) <$> seqZ 512 23) ++ ((λ a, (a, 0)) <$> seqZ 1024 256)).
Definition shell_term : term := Term shell_mem (t_kbd term0) 0.

Definition echo_hi : list Z := [0x24; 0x21; 0x33; 0x44; 0x29; 0x33; 0x43; 0x5A].
Definition strokes_hi (n : nat) : list stroke :=
  match echo_hi !! n with Some sc => [Down false sc; Up false sc] | None => [] end.

Lemma mapped_check (h : mem) p n : forallb (λ a, bool_decide (is_Some (h !! a))) (seqZ p n) = true → mapped h p n.
Proof.
  intros H i Hi. rewrite forallb_forall in H. specialize (H (p + i)). rewrite bool_decide_eq_true in H.
  apply H, list_elem_of_In, elem_of_seqZ. lia.
Qed.

Lemma byte_mem_check (h : mem) : forallb (λ '(_, v), (0 <=? v) && (v <? 256)) (map_to_list h) = true → byte_mem h.
Proof.
  intros H a v Ha. rewrite forallb_forall in H. apply elem_of_map_to_list, list_elem_of_In in Ha. apply H in Ha. simpl in Ha. lia.
Qed.

Lemma shell_segment : segment 512 1024 256 264 272 shell_mem.
Proof.
  split_and!; try (apply mapped_check; vm_compute; reflexivity);
    repeat (apply cstr_cons; split; [vm_compute; reflexivity|split; [done|]]); by apply cstr_nil.
Qed.

Lemma shell_layout : layout 512 520 1024 256 264 272.
Proof. split; unfold away; lia. Qed.

Lemma shell_keys : plain_keys strokes_hi.
Proof.
  intros n. unfold strokes_hi. destruct (echo_hi !! n) as [sc|] eqn:E; [|by split; [|simpl; lia]].
  assert (Forall (λ sc, forallb plain [Down false sc; Up false sc] = true) echo_hi) as Hf by (repeat constructor).
  split; [by eapply (Forall_lookup_1 _ _ _ _ Hf)|simpl; lia].
Qed.

Lemma shell_kb : kb_rep (t_kbd shell_term) ∅ [].
Proof.
  split_and!; [done|done|unfold mods; split_and!; reflexivity| |by apply (shows_on_screen [] []), term0_shows].
  unfold ring. split_and!; [vm_compute; reflexivity|simpl; lia|simpl; lia|simpl; lia|reflexivity|done].
Qed.

Lemma shell_session_witness :
  wp (shell 512 520 1024 256 264 272 0 (λ k, strokes_hi k ≫= scan_codes) 5 1) (λ _ t', segment 512 1024 256 264 272 (t_mem t') ∧
    shows (map (map (λ c, vga_entry c 7)) [[62; 32; 101; 99; 104; 111; 32; 104; 105]; []; [104; 105]; []]) [] (scr t')) shell_term.
Proof.
  apply (shell_session 512 520 1024 256 264 272 0 strokes_hi 4 5 1 shell_term ∅ [] [[101; 99; 104; 111; 32; 104; 105; 10]] [] []);
    [exact shell_layout|exact shell_keys|lia|by apply byte_mem_check; vm_compute|exact shell_segment|exact shell_kb|exact term0_shows|vm_compute; reflexivity].
Defined.
