(* ===== verification/Loader.v ===== *)
(** * The program loader (loader.c, elf.h)

    [load_elf_exec] replaces the program of the current task: it checks the header of the
    file, takes the old program's memory apart, maps every segment into fresh pages, reads
    the segment into them, and sets where the system call will return to.

    The file system is behind the class [ExecFiles]; a page of the page cache is given by its
    bytes, which do not change while the loader looks at them.  The program's memory is
    reached through the page tables, byte by byte in the words of the physical pages; a word
    of a fresh page that was never written counts as 0.  The processor lets the kernel write
    to pages that are read only (the bit WP is clear). *)

From S2P Require Import Prelude QLib Memory DList Locks Page PageAlloc Vm Slab Uvm Sched Fork.
From Stdlib Require Import ZArith Lia.
From stdpp Require Import base countable numbers gmap list.
Open Scope Z_scope.

#[local] Arguments Z.mul : simpl never.
#[local] Arguments Z.add : simpl never.
#[local] Arguments Z.to_nat : simpl never.

(** ** The format *)

Definition EI_MAG0 : nat := 0.
Definition EI_MAG1 : nat := 1.
Definition EI_MAG2 : nat := 2.
Definition EI_MAG3 : nat := 3.
Definition EI_CLASS : nat := 4.
Definition EI_DATA : nat := 5.
Definition EI_VERSION : nat := 6.
Definition ELF_MAG0 : Z := 0x7F.
Definition ELF_MAG1 : Z := 69.
Definition ELF_MAG2 : Z := 76.
Definition ELF_MAG3 : Z := 70.
Definition ELF_DATA2LSB : Z := 1.
Definition ELF_CLASS32 : Z := 1.
Definition EM_386 : Z := 3.
Definition EV_CURRENT : Z := 1.
Definition SHN_UNDEF : Z := 0.
Definition ET_REL : Z := 1.
Definition ET_EXEC : Z := 2.
Definition PT_NULL : Z := 0.
Definition PT_LOAD : Z := 1.
Definition PF_X : Z := 1.
Definition PF_W : Z := 2.
Definition PF_MASKPROC : Z := 0xf0000000.
Definition sizeof_elf32_sh : Z := 40.
Definition sizeof_elf32_phdr : Z := 32.

Record elf32_header := Elf32Header {
  e_ident : list Z; e_type : Z; e_machine : Z; e_version : Z; e_entry : Z; e_phoff : Z; e_shoff : Z; e_flags : Z;
  e_ehsize : Z; e_phentsize : Z; e_phnum : Z; e_shentsize : Z; e_shnum : Z; e_shstrndx : Z }.
Record elf32_phdr := Elf32Phdr {
  p_type : Z; p_offset : Z; p_vaddr : Z; p_paddr : Z; p_filesz : Z; p_memsz : Z; p_flags : Z; p_align : Z }.

(** Little endian numbers in the bytes of a page; what is behind the page faults. *)
Definition byte_at (bs : list Z) (o : nat) : option Z := bs !! o.
Definition half_at (bs : list Z) (o : nat) : option Z := a ← byte_at bs o; b ← byte_at bs (o + 1); Some (a + 2 ^ 8 * b).
Definition word_at (bs : list Z) (o : nat) : option Z := a ← half_at bs o; b ← half_at bs (o + 2); Some (a + 2 ^ 16 * b).

Definition header_at (bs : list Z) : option elf32_header :=
  if decide (length (take 16 bs) = 16)%nat then
    t ← half_at bs 16; m ← half_at bs 18; v ← word_at bs 20; en ← word_at bs 24; ph ← word_at bs 28; sh ← word_at bs 32;
    fl ← word_at bs 36; eh ← half_at bs 40; pe ← half_at bs 42; pn ← half_at bs 44; se ← half_at bs 46; sn ← half_at bs 48; sx ← half_at bs 50;
    Some (Elf32Header (take 16 bs) t m v en ph sh fl eh pe pn se sn sx)
  else None.
Definition phdr_at (bs : list Z) (o : nat) : option elf32_phdr :=
  t ← word_at bs o; f ← word_at bs (o + 4); v ← word_at bs (o + 8); p ← word_at bs (o + 12);
  fs ← word_at bs (o + 16); ms ← word_at bs (o + 20); fl ← word_at bs (o + 24); al ← word_at bs (o + 28);
  Some (Elf32Phdr t f v p fs ms fl al).

(** ** Checks *)

Section checks.
Context {S : Type}.

Definition ident (h : elf32_header) (i : nat) : M S Z := deref (e_ident h !! i).

Definition elf_check_header (elf_head : elf32_header) : M S bool :=
  m0 ← ident elf_head EI_MAG0;
  if negb (m0 =? ELF_MAG0) then mret false else
  m1 ← ident elf_head EI_MAG1;
  if negb (m1 =? ELF_MAG1) then mret false else
  m2 ← ident elf_head EI_MAG2;
  if negb (m2 =? ELF_MAG2) then mret false else
  m3 ← ident elf_head EI_MAG3;
  if negb (m3 =? ELF_MAG3) then mret false else
  c ← ident elf_head EI_CLASS;
  if negb (c =? ELF_CLASS32) then mret false else
  d ← ident elf_head EI_DATA;
  if negb (d =? ELF_DATA2LSB) then mret false else
  v ← ident elf_head EI_VERSION;
  if negb (v =? EV_CURRENT) then mret false else
  if negb (e_machine elf_head =? EM_386) then mret false else
  if negb (e_type elf_head =? ET_REL) && negb (e_type elf_head =? ET_EXEC) then mret false else
  assertk (e_shentsize elf_head =? sizeof_elf32_sh);;
  assertk (e_phentsize elf_head =? sizeof_elf32_phdr);;
  mret true.

Definition get_flags (pgh : elf32_phdr) : M S Z :=
  assertk (negb (truth (Z.land (p_flags pgh) PF_MASKPROC)));;
  mret (if truth (Z.land (p_flags pgh) PF_W) then VM_URW else VM_UR).
End checks.

(** ** Loading *)

Class ExecFiles (F : Type) := {
  xf_open : Z → M F Z;                   (* vfs_ops.open(path) *)
  xf_page : Z → Z → M F (list Z);        (* the bytes of vfs_ops.read_page(file, offset) *)
  xf_lseek : Z → Z → M F unit;           (* vfs_ops.lseek(file, offset, SEEK_SET) *)
  xf_read : Z → Z → M F (list Z);        (* the bytes vfs_ops.read(file, buf, size) puts at buf *)
  xf_close : Z → M F unit }.

Inductive area_name := ABss | AText | AData | ARodata.
Definition area_of (a : area_name) (m : mm_struct) : vm_area :=
  match a with ABss => mm_bss m | AText => mm_text m | AData => mm_data m | ARodata => mm_rodata m end.
Definition put_area (a : area_name) : vm_area → mm_struct → mm_struct :=
  match a with ABss => put_bss | AText => put_text | AData => put_data_area | ARodata => put_rodata end.

Definition zero_area : vm_area := VmArea 0 0 0.
Definition mm_zero : mm_struct := MmStruct zero_area zero_area zero_area zero_area zero_area zero_area 0 0.

Section loader.
Context {F : Type} `{TF : TaskFiles F} `{XF : ExecFiles F}.

(** A byte of the program's memory. *)
Definition set_byte (w i b : Z) : Z := w - Z.shiftl (Z.land (Z.shiftr w (8 * i)) 0xff) (8 * i) + Z.shiftl (u8 b) (8 * i).
Definition vstore8 (pgdir va b : Z) : M slabs unit :=
  pa ← mmu pgdir va;
  let a := pa - Z.land pa 3 + KERNEL_START in
  s ← get;
  wr_word a (set_byte (default 0 (words s !! a)) (Z.land pa 3) b).
Fixpoint vstore (pgdir va : Z) (bs : list Z) : M slabs unit :=
  match bs with [] => mret tt | b :: bs' => vstore8 pgdir va b;; vstore pgdir (va + 1) bs' end.
Definition vbzero (pgdir va n : Z) : M slabs unit := vstore pgdir va (replicate (Z.to_nat n) 0).

(** One entry of the program header table. *)
Definition load_segment (mm pgdir file : Z) (pgh : elf32_phdr) : M (@kernel F) unit :=
  assertk (p_type pgh =? PT_LOAD);;
  let va := p_vaddr pgh in
  let size := PAGE_FLOOR (p_memsz pgh) in
  pa ← on_kmem (on_pg (alloc_page size));
  g ← get_flags pgh;
  let flag := Z.lor g VM_PRES in
  on_mm (vm_maps va pa flag size);;
  area ← (if p_filesz pgh =? 0 then
            on_kmem (vbzero pgdir va size);; mret ABss
          else
            let area := if truth (Z.land (p_flags pgh) PF_X) then AText
                        else if truth (Z.land (p_flags pgh) PF_W) then AData else ARodata in
            m ← on_mm (rd_mm mm);
            assertk (a_size (area_of area m) =? 0);;
            on_files (xf_lseek file (p_offset pgh));;
            bs ← on_files (xf_read file (p_filesz pgh));
            on_kmem (vstore pgdir va bs);;
            on_kmem (vbzero pgdir (va + p_filesz pgh) (u32 (p_memsz pgh - p_filesz pgh)));;
            mret area);
  on_mm (upd_mm mm (put_area area (VmArea va size flag)));;
  on_mm (upd_mm mm (λ m, put_mm_size (u32 (mm_size m + size)) m)).

Fixpoint load_segments (n : nat) (mm pgdir file : Z) (table : list Z) (o : nat) : M (@kernel F) unit :=
  match n with
  | O => mret tt
  | S n' =>
      pgh ← deref (phdr_at table o);
      when (negb (p_type pgh =? PT_NULL)) (load_segment mm pgdir file pgh);;
      load_segments n' mm pgdir file table (o + 32)
  end.

(** The file must be an executable. *)
Definition open_exec (path : Z) : M (@kernel F) (Z * elf32_header) :=
  file ← on_files (xf_open path);
  assertk (0 <=? file);;
  page ← on_files (xf_page file 0);
  hdr ← deref (header_at page);
  ok ← elf_check_header hdr;
  assertk ok;;
  assertk (e_type hdr =? ET_EXEC);;
  assertk (negb (e_shstrndx hdr =? SHN_UNDEF));;
  mret (file, hdr).

(** [sysContext->esp] and [sysContext->eip]. *)
Definition set_sys_esp (a v : Z) : M slabs unit := wr_word (a + 32) v.
Definition set_sys_eip (a v : Z) : M slabs unit := wr_word (a + 20) v.

Definition load_elf_exec (path : Z) : M (@kernel F) unit :=
  t ← cur_tcb;
  c ← on_sched (rd_tcb t);
  let mm := task_mm c in
  assertk (truth mm);;
  m ← on_mm (rd_mm mm);
  let pgdir := mm_pgdir m in
  '(file, hdr) ← open_exec path;
  on_mm (vm_struct_unmaps mm);;
  on_kmem (bzero_words pgdir (PAGE_SIZE / 4 * 3));;
  on_mm (wr_mm mm mm_zero);;
  on_mm (upd_mm mm (put_pgdir pgdir));;
  table ← on_files (xf_page file (e_phoff hdr));
  load_segments (Z.to_nat (e_phnum hdr)) mm pgdir file table (Z.to_nat (e_phoff hdr mod PAGE_SIZE));;
  on_mm (vm_brk_init mm);;
  on_mm (vm_stack_init mm);;
  on_mm (upd_mm mm (λ m, put_mm_size (u32 (mm_size m + (a_size (mm_brk m) + a_size (mm_stack m)))) m));;
  on_files (xf_close file);;
  i ← rd_info t;
  assertk (truth (ti_sysContext i));;
  m ← on_mm (rd_mm mm);
  on_kmem (set_sys_esp (ti_sysContext i) (u32 (a_va (mm_stack m) + STACK_SIZE)));;
  on_kmem (set_sys_eip (ti_sysContext i) (e_entry hdr)).
End loader.

(** ** Which files are executables *)

(** The bytes of a header, as the format lays them out. *)
Definition le16 (v : Z) : list Z := [v mod 2 ^ 8; v / 2 ^ 8].
Definition le32 (v : Z) : list Z := le16 (v mod 2 ^ 16) ++ le16 (v / 2 ^ 16).
Definition header_bytes (h : elf32_header) : list Z :=
  e_ident h ++ le16 (e_type h) ++ le16 (e_machine h) ++ le32 (e_version h) ++ le32 (e_entry h) ++ le32 (e_phoff h) ++ le32 (e_shoff h) ++
  le32 (e_flags h) ++ le16 (e_ehsize h) ++ le16 (e_phentsize h) ++ le16 (e_phnum h) ++ le16 (e_shentsize h) ++ le16 (e_shnum h) ++ le16 (e_shstrndx h).

Lemma le16_value v : v mod 2 ^ 8 + 2 ^ 8 * (v / 2 ^ 8) = v.
Proof. pose proof (Z.div_mod v (2 ^ 8) ltac:(lia)). lia. Qed.
Lemma le32_value v : v mod 2 ^ 16 + 2 ^ 16 * (v / 2 ^ 16) = v.
Proof. pose proof (Z.div_mod v (2 ^ 16) ltac:(lia)). lia. Qed.

(** The loader reads back the header that is in the file. *)
Theorem header_read h rest : length (e_ident h) = 16%nat → header_at (header_bytes h ++ rest) = Some h.
Proof.
  destruct h as [id t m v en ph sh fl eh pe pn se sn sx]. cbn [e_ident]. intros Hi.
  do 16 (destruct id as [|? id]; [done|]). destruct id; [|done]. unfold header_at, word_at, half_at, byte_at, header_bytes, le32, le16.
  cbn -[Z.modulo Z.div Z.pow Z.mul Z.add decide]. rewrite decide_True by done. rewrite !le16_value, !le32_value. done.
Qed.

Definition magic : list Z := [ELF_MAG0; ELF_MAG1; ELF_MAG2; ELF_MAG3; ELF_CLASS32; ELF_DATA2LSB; EV_CURRENT].
Definition recognised (h : elf32_header) : bool :=
  bool_decide (take 7 (e_ident h) = magic) && (e_machine h =? EM_386) && ((e_type h =? ET_REL) || (e_type h =? ET_EXEC)).
Definition sizes_agree (h : elf32_header) : bool := (e_shentsize h =? sizeof_elf32_sh) && (e_phentsize h =? sizeof_elf32_phdr).
Definition executable (h : elf32_header) : bool :=
  recognised h && sizes_agree h && (e_type h =? ET_EXEC) && negb (e_shstrndx h =? SHN_UNDEF).

Lemma elf_check_cases {S} (h : elf32_header) (s : S) : length (e_ident h) = 16%nat →
  elf_check_header h s = if recognised h then if sizes_agree h then Ok (true, s) else Err Assert else Ok (false, s).
Proof.
  destruct h as [id t m v en ph sh fl eh pe pn se sn sx]. cbn [e_ident]. intros Hi. do 16 (destruct id as [|? id]; [done|]). destruct id; [|done].
  assert (∀ (a b : Z) (l k : list Z), bool_decide (a :: l = b :: k) = (a =? b) && bool_decide (l = k)) as Hc.
  { intros. destruct (Z.eqb_spec a b) as [->|Hne]; cbn [andb]; [|apply bool_decide_eq_false; congruence]. apply bool_decide_ext. split; congruence. }
  unfold recognised, sizes_agree. cbn [e_ident take e_machine e_type e_shentsize e_phentsize]. unfold magic. rewrite !Hc.
  unfold elf_check_header, ident, deref, mbind, M_bind. cbn -[Z.eqb Z.mul Z.add].
  rewrite (bool_decide_true (@nil Z = [])) by done.
  do 8 match goal with |- (if negb ?b then _ else _) _ = _ => destruct b; [cbn [negb andb]|done] end.
  by destruct (t =? ET_REL), (t =? ET_EXEC), (se =? sizeof_elf32_sh), (pe =? sizeof_elf32_phdr).
Qed.

(** ** The checks in front of a new program *)

Section exec.
Context {F : Type} `{TF : TaskFiles F} `{XF : ExecFiles F}.

Definition put_files (f : F) (k : @kernel F) : kernel := Kernel (k_sched k) (k_slabs k) (k_mms k) f (k_info k) (k_esp0 k).

(** [open_exec] answers the header of exactly the executables.  Whatever is not one, a path
    that is not there included, stops the kernel; until then only the file was looked at. *)
Lemma open_exec_cases path (k : @kernel F) file f1 page f2 h : xf_open path (k_files k) = Ok (file, f1) →
  xf_page file 0 f1 = Ok (page, f2) → header_at page = Some h →
  open_exec path k = if (0 <=? file) && executable h then Ok ((file, h), put_files f2 k) else Err Assert.
Proof.
  intros Eo Ep Eh. assert (length (e_ident h) = 16%nat) as Hi.
  { unfold header_at in Eh. case_decide as Hl; [|done]. repeat (apply bind_Some in Eh as (? & _ & Eh)). by injection Eh as <-. }
  unfold open_exec. rewrite (bind_Ok _ _ _ file (put_files f1 k)) by (unfold on_files, zoom; by rewrite Eo).
  destruct (0 <=? file); [|done]. cbn [andb]. rewrite (bind_Ok _ _ _ tt (put_files f1 k)) by done.
  rewrite (bind_Ok _ _ _ page (put_files f2 k)) by (unfold on_files, zoom; cbn [k_files put_files]; by rewrite Ep).
  rewrite (bind_Ok _ _ _ h (put_files f2 k)) by (by rewrite Eh). unfold executable.
  pose proof (elf_check_cases h (put_files f2 k) Hi) as Hc. destruct (recognised h); cbn [andb].
  - destruct (sizes_agree h); cbn [andb]; [|by rewrite (bind_Err _ _ _ _ Hc)]. rewrite (bind_Ok _ _ _ _ _ Hc).
    by destruct (e_type h =? ET_EXEC), (e_shstrndx h =? SHN_UNDEF).
  - by rewrite (bind_Ok _ _ _ _ _ Hc).
Qed.

(** C23: [exec] of a path that is not there, or of a file that is not an executable for this
    machine with a section table, ends in a failed assertion: the whole kernel stops. *)
Theorem exec_panics path (k : @kernel F) c m file f1 : tcbs (k_sched k) !! cur_task (k_sched k) = Some c → task_mm c ≠ 0 →
  k_mms k !! task_mm c = Some m → xf_open path (k_files k) = Ok (file, f1) →
  (file < 0 ∨ ∃ page f2 h, xf_page file 0 f1 = Ok (page, f2) ∧ header_at page = Some h ∧ executable h = false) →
  load_elf_exec path k = Err Assert.
Proof.
  intros Ec Hm Em Eo Hbad. unfold load_elf_exec. rewrite (bind_Ok _ _ _ (cur_task (k_sched k)) k) by done.
  assert (on_sched (rd_tcb (cur_task (k_sched k))) k = Ok (c, k)) as Hrd.
  { unfold on_sched, zoom, rd_tcb, mbind, M_bind, get, deref. rewrite Ec. by destruct k. }
  rewrite (bind_Ok _ _ _ _ _ Hrd). rewrite (bind_Ok _ _ _ tt k) by (unfold assertk; by rewrite (proj2 (truth_true _) Hm)).
  rewrite (bind_Ok _ _ _ m k).
  2: { unfold on_mm. rewrite (bind_Ok _ _ _ (cur_task (k_sched k)) k) by done. rewrite (bind_Ok _ _ _ _ _ Hrd).
       unfold zoom, rd_mm, mbind, M_bind, get, deref. cbn [u_mms]. rewrite Em. by destruct k. }
  rewrite (bind_Err _ _ _ Assert); [done|]. destruct Hbad as [Hneg|(page & f2 & h & Ep & Eh & Hx)].
  - unfold open_exec. rewrite (bind_Ok _ _ _ file (put_files f1 k)) by (unfold on_files, zoom; by rewrite Eo).
    by destruct (Z.leb_spec 0 file); [lia|].
  - rewrite (open_exec_cases path k file f1 page f2 h Eo Ep Eh), Hx. by rewrite andb_false_r.
Qed.
End exec.
