(* ===== verification/LoaderDemo.v ===== *)
(** * A program is loaded

    Sixteen pages of memory at 1 MiB, of which the first is the directory of the running
    task.  The file is a header, one entry of the program header table and a segment of five
    bytes that takes eight bytes of memory at 0x1000. *)

From S2P Require Import Prelude QLib Memory DList Locks Page PageAlloc BuddySpec PageAllocCorrect PageAllocInit PageAllocProps Vm Slab Uvm Sched SchedCorrect FdHash Vfs Fork ForkCorrect ForkDemo Loader.
From Stdlib Require Import ZArith Lia.
From stdpp Require Import base countable numbers gmap list.
Open Scope Z_scope.

Definition exec_memory : buddyAllocator := Buddy
  (list_to_map ((λ i, (Root i, LH (Root 0) (Root 0))) <$> seqZ 0 11) ∪
   list_to_map ((λ i, (Pg i, LH (Root 0) (Root 0))) <$> seqZ 0 16))
  (list_to_map ((λ i, (i, raw_page)) <$> seqZ 0 16)) (Spinlock 1) 0 0 16.
Definition exec_pages : buddyAllocator :=
  state_of (__alloc_page 4096 (state_of (pmm_init 0x100000 [(0x100000, 65536)] exec_memory))).

Definition exec_slabs : slabs :=
  Slabs (Vmem (match pages exec_pages !! 0 with
               | Some p => PageAlloc.with_pages (<[0 := put_data 0xc0100000 p]> (pages exec_pages)) exec_pages | None => exec_pages end)
          (list_to_map ((256, 0x100003) :: ((λ i, (i, 0)) <$> seqZ 257 15))) ∅ 0)
        (list_to_map ((λ j, (0xc0100000 + 4 * j, 0)) <$> seqZ 0 1024)) (Spinlock 0) ∅.

Definition old_mm : mm_struct := put_pgdir 0xc0100000 mm_zero.

(** The file. *)
Definition exec_header : elf32_header :=
  Elf32Header ([0x7F; 69; 76; 70; 1; 1; 1] ++ replicate 9 0) ET_EXEC EM_386 1 0x1004 52 0 0 52 32 1 40 0 1.
Definition exec_phdr : list Z := le32 PT_LOAD ++ le32 84 ++ le32 0x1000 ++ le32 0 ++ le32 5 ++ le32 8 ++ le32 5 ++ le32 0x1000.
Definition exec_file : list Z := header_bytes exec_header ++ exec_phdr ++ [11; 22; 33; 44; 55].

(** The state of the file system is the position in the one file; path 1 is a file that is
    no executable, any other path but 0 is not there. *)
#[local] Instance one_file : ExecFiles Z := {|
  xf_open path := mret (if path =? 0 then 3 else if path =? 1 then 4 else -1);
  xf_page fd off := mret (if fd =? 3 then exec_file else replicate 64 0);
  xf_lseek _ off := modify (λ _, off);
  xf_read _ n := p ← get; mret (take (Z.to_nat n) (drop (Z.to_nat p) exec_file));
  xf_close _ := mret tt |}.

Definition exec_tcb : tcb_t := set_mm 80 (mk_tcb 0 TASK_RUNNING 3).
Definition exec_kernel : @kernel Z :=
  Kernel (with_tcbs {[ 0x1000 := exec_tcb ]} (task_sys pids)) exec_slabs {[ 80 := old_mm ]} 0 {[ 0x1000 := TaskInfo 0x1000 0 0 0 0xc0200000 ]} 0.

(** The new program: the processor finds the five bytes and three zeros at 0x1000, the
    system call returns to the entry point with a fresh stack. *)
Example exec_loads :
  match load_elf_exec 0 exec_kernel with
  | Ok (_, k) =>
      let w := words (k_slabs k) in
      ('(pa, _) ← (match mmu 0xc0100000 0x1000 (k_slabs k) with Ok x => Some x | Err _ => None end);
       a ← w !! (pa + KERNEL_START); b ← w !! (pa + KERNEL_START + 4); Some (le32 a ++ le32 b),
       w !! (0xc0200000 + 20), w !! (0xc0200000 + 32), k_mms k !! 80)
  | Err e => (None, None, None, None)
  end =
  (Some [11; 22; 33; 44; 55; 0; 0; 0], Some 0x1004, Some (KERNEL_START - PAGE_SIZE),
   Some (MmStruct (VmArea 0x1000 4096 5) zero_area zero_area zero_area (VmArea 0x2000 0 7) (VmArea (KERNEL_START - 2 * PAGE_SIZE) 4096 7)
           (3 * PAGE_SIZE) 0xc0100000)).
Proof. vm_compute. reflexivity. Qed.

Definition zero_header : elf32_header := Elf32Header (replicate 16 0) 0 0 0 0 0 0 0 0 0 0 0 0 0.

Lemma exec_panics_witness : load_elf_exec 1 exec_kernel = Err Assert ∧ load_elf_exec 2 exec_kernel = Err Assert.
Proof.
  split; [apply (exec_panics 1 exec_kernel exec_tcb old_mm 4 0)|apply (exec_panics 2 exec_kernel exec_tcb old_mm (-1) 0)];
    try reflexivity; try (vm_compute; congruence).
  - right. exists (replicate 64 0), 0, zero_header. split_and!; vm_compute; reflexivity.
  - left. lia.
Defined.

Lemma header_read_witness : header_at exec_file = Some exec_header.
Proof. apply (header_read exec_header). reflexivity. Defined.
