(* ===== verification/Syscall.v ===== *)
(** * System calls (syscall/syscall.c, the entry points of userspace/lib.S)

    The handler of the interrupt [SYS_CALL_NO] gets the registers of the program, notes where
    its frame is, and calls the routine with the number in [eax].  The state is the kernel of
    task/fork.c and the terminal with the program's memory.

    [invoke] is what a stub of userspace/lib.S does: the number and the arguments go into the
    registers.  The calls of the user library for the console are calls of the terminal. *)

From S2P Require Import Prelude QLib Memory CString Vga Keyboard Terminal DList Locks Page PageAlloc Vm Slab Uvm Sched Fork Loader UserLib.
From Stdlib Require Import ZArith Lia.
From stdpp Require Import base countable numbers gmap list.
Open Scope Z_scope.

#[local] Arguments Z.to_nat : simpl never.

Definition SYS_EXEC : Z := 0.
Definition SYS_GETCHAR : Z := 1.
Definition SYS_PUTCHAR : Z := 2.
Definition SYS_MKDIR : Z := 3.
Definition SYS_MKFILE : Z := 4.
Definition SYS_RMDIR : Z := 5.
Definition SYS_UNLINK : Z := 6.
Definition SYS_OPEN : Z := 7.
Definition SYS_CLOSE : Z := 8.
Definition SYS_FORK : Z := 9.
Definition SYS_READ : Z := 10.
Definition SYS_WRITE : Z := 11.
Definition SYS_SLEEP : Z := 12.
Definition SYS_EXIT : Z := 13.
Definition SYS_CLS : Z := 14.
Definition SYS_GETCWD : Z := 15.
Definition SYS_SBRK : Z := 16.

Record sys_reg := SysReg { r_eax : Z; r_ebx : Z; r_ecx : Z; r_edx : Z; r_esi : Z; r_edi : Z; r_esp : Z }.

Section syscall.
Context {F : Type} `{TF : TaskFiles F} `{XF : ExecFiles F}.
Variables (raw : raw_task) (syscall_ret : Z).
Variables (irqs : nat → list Z) (fuel : nat).
Variable raw_arg : Z.                         (* args[5], which is never set *)

Record machine := Machine { sy_kernel : @kernel F; sy_term : term }.
Definition on_kernel {A} (m : M (@kernel F) A) : M machine A := zoom sy_kernel (λ k s, Machine k (sy_term s)) m.
Definition on_term {A} (m : M term A) : M machine A := zoom sy_term (λ t s, Machine (sy_kernel s) t) m.

Definition arg (args : list Z) (i : nat) : M machine Z := deref (args !! i).

(** ** The routines *)

Definition sys_exec (args : list Z) : M machine Z := path ← arg args 0; on_kernel (load_elf_exec path);; mret 0.
Definition sys_fork (args : list Z) : M machine Z := on_kernel (kernel_fork raw syscall_ret).
Definition sys_getchar (args : list Z) : M machine Z :=
  buf ← arg args 0; len ← arg args 1; _ ← on_term (k_gets irqs fuel buf (s32 len)); mret 0.
Definition sys_putchar (args : list Z) : M machine Z :=
  buf ← arg args 0; len ← arg args 1; on_term (k_puts buf (s32 len));; mret 0.
Definition sys_mkdir (args : list Z) : M machine Z := mret 0.
Definition sys_open (args : list Z) : M machine Z := mret 0.
Definition sys_close (args : list Z) : M machine Z := mret 0.
Definition sys_mkfile (args : list Z) : M machine Z := mret 0.
Definition sys_rmdir (args : list Z) : M machine Z := mret 0.
Definition sys_unlink (args : list Z) : M machine Z := mret 0.
Definition sys_read (args : list Z) : M machine Z := mret 0.
Definition sys_write (args : list Z) : M machine Z := mret 0.
Definition sys_sleep (args : list Z) : M machine Z := mret 0.
Definition sys_exit (args : list Z) : M machine Z := on_kernel (on_sched task_exit);; mret 0.
Definition sys_cls (args : list Z) : M machine Z := on_term terminal_clear;; mret 0.
Definition getcwd (buf size : Z) : M machine unit := mret tt.
Definition sys_getcwd (args : list Z) : M machine Z := buf ← arg args 0; len ← arg args 1; getcwd buf len;; mret 0.
Definition sys_sbrk (args : list Z) : M machine Z := size ← arg args 0; r ← on_kernel (on_mm (sbrk size)); mret (s32 r).

Definition syscall : list (list Z → M machine Z) :=
  [sys_exec; sys_getchar; sys_putchar; sys_mkdir; sys_mkfile; sys_rmdir; sys_unlink; sys_open; sys_close; sys_fork;
   sys_read; sys_write; sys_sleep; sys_exit; sys_cls; sys_getcwd; sys_sbrk].

Definition put_sysContext (v : Z) (i : task_info) := TaskInfo (ti_stack i) (ti_cwd i) (ti_open i) (ti_context i) v.

Definition syscall_isr (reg : sys_reg) : M machine Z :=
  on_kernel (t ← cur_tcb; Fork.upd_info t (put_sysContext (r_esp reg)));;
  let no := r_eax reg in
  if no <=? SYS_SBRK then
    f ← deref (syscall !! Z.to_nat no);
    f [r_ebx reg; r_ecx reg; r_edx reg; r_esi reg; r_edi reg; raw_arg]
  else mret (-1).

(** ** The stubs of the user library *)

(** [rest] is what the other registers hold, [esp] the address of the frame. *)
Definition invoke (esp no a b : Z) (rest : Z * Z * Z) : M machine Z :=
  let '(edx, esi, edi) := rest in syscall_isr (SysReg no a b edx esi edi esp).
Definition lib_puts esp rest buf len : M machine Z := invoke esp SYS_PUTCHAR buf (u32 len) rest.
Definition lib_gets esp rest buf len : M machine Z := invoke esp SYS_GETCHAR buf (u32 len) rest.
Definition lib_cls esp rest ebx ecx : M machine Z := invoke esp SYS_CLS ebx ecx rest.

(** ** What the calls do *)

(** The kernel with the frame of the current task noted. *)
Definition noted (esp : Z) (k : @kernel F) : @kernel F :=
  let t := cur_task (k_sched k) in
  Kernel (k_sched k) (k_slabs k) (k_mms k) (k_files k)
    (match k_info k !! t with Some i => <[t := put_sysContext esp i]> (k_info k) | None => k_info k end) (k_esp0 k).

Lemma note_frame esp s : is_Some (k_info (sy_kernel s) !! cur_task (k_sched (sy_kernel s))) →
  on_kernel (t ← cur_tcb; Fork.upd_info t (put_sysContext esp)) s = Ok (tt, Machine (noted esp (sy_kernel s)) (sy_term s)).
Proof.
  intros [i Ei]. unfold on_kernel, zoom, noted. rewrite Ei. rewrite (bind_Ok _ _ _ (cur_task (k_sched (sy_kernel s))) (sy_kernel s)) by done.
  unfold Fork.upd_info. rewrite (bind_Ok _ _ _ i (sy_kernel s)); [done|]. unfold rd_info, mbind, M_bind, get, deref. by rewrite Ei.
Qed.

Lemma dispatch no (f : list Z → M machine Z) reg s : r_eax reg = no → (no <=? SYS_SBRK) = true → syscall !! Z.to_nat no = Some f →
  is_Some (k_info (sy_kernel s) !! cur_task (k_sched (sy_kernel s))) →
  syscall_isr reg s = f [r_ebx reg; r_ecx reg; r_edx reg; r_esi reg; r_edi reg; raw_arg] (Machine (noted (r_esp reg) (sy_kernel s)) (sy_term s)).
Proof.
  intros E Hle Ef Hi. unfold syscall_isr. rewrite (bind_Ok _ _ _ _ _ (note_frame (r_esp reg) s Hi)). cbv zeta. rewrite E, Hle. by rewrite (bind_Ok _ _ _ f (Machine (noted (r_esp reg) (sy_kernel s)) (sy_term s))) by (unfold deref; by rewrite Ef).
Qed.

(** A call of the terminal as a call of the machine. *)
Definition console {A} (m : M term A) (esp : Z) (s : machine) : res (Z * machine) :=
  match m (sy_term s) with Ok (_, t) => Ok (0, Machine (noted esp (sy_kernel s)) t) | Err e => Err e end.

Lemma s32_u32 x : s32 (u32 x) = s32 x.
Proof. unfold s32, u32, sint. by rewrite Zmod_mod. Qed.

(** C22: The library's [puts], [gets] and [cls] are the routines of the terminal: the number
    reaches the handler, the signed length survives the registers, and nothing of the kernel
    changes but the note of the frame. *)
Theorem console_calls esp rest buf len a b s : is_Some (k_info (sy_kernel s) !! cur_task (k_sched (sy_kernel s))) →
  lib_puts esp rest buf len s = console (UserLib.puts buf len) esp s ∧
  lib_gets esp rest buf len s = console (UserLib.gets irqs fuel buf len) esp s ∧
  lib_cls esp rest a b s = console UserLib.cls esp s.
Proof.
  intros Hi. destruct rest as [[edx esi] edi]. unfold lib_puts, lib_gets, lib_cls, invoke, console.
  rewrite (dispatch SYS_PUTCHAR sys_putchar), (dispatch SYS_GETCHAR sys_getchar), (dispatch SYS_CLS sys_cls) by done. cbn [r_ebx r_ecx r_edx r_esi r_edi r_esp].
  unfold sys_putchar, sys_getchar, sys_cls, arg, UserLib.puts, UserLib.gets, cls, on_term, zoom, mbind, M_bind, deref. cbn [lookup list_lookup sy_term sy_kernel].
  rewrite s32_u32. split_and!.
  - by destruct (k_puts buf (s32 len) (sy_term s)) as [[]|].
  - by destruct (k_gets irqs fuel buf (s32 len) (sy_term s)) as [[]|].
  - by destruct (terminal_clear (sy_term s)) as [[]|].
Qed.

Definition unimplemented : list Z :=
  [SYS_MKDIR; SYS_MKFILE; SYS_RMDIR; SYS_UNLINK; SYS_OPEN; SYS_CLOSE; SYS_READ; SYS_WRITE; SYS_SLEEP; SYS_GETCWD].

(** Every number has an answer that is not about the call: a number behind the table answers
    -1, and the ten calls on files, directories and sleep answer 0, success, and do nothing;
    in both cases only the note of the frame changes. *)
Theorem unserved_calls reg s : is_Some (k_info (sy_kernel s) !! cur_task (k_sched (sy_kernel s))) →
  (SYS_SBRK < r_eax reg → syscall_isr reg s = Ok (-1, Machine (noted (r_esp reg) (sy_kernel s)) (sy_term s))) ∧
  (r_eax reg ∈ unimplemented → syscall_isr reg s = Ok (0, Machine (noted (r_esp reg) (sy_kernel s)) (sy_term s))).
Proof.
  intros Hi. split.
  - intros Hno. unfold syscall_isr. rewrite (bind_Ok _ _ _ _ _ (note_frame (r_esp reg) s Hi)). cbv zeta. by destruct (Z.leb_spec (r_eax reg) SYS_SBRK); [lia|].
  - intros Hin. unfold unimplemented in Hin.
    repeat (apply elem_of_cons in Hin as [E|Hin]; [rewrite (dispatch _ _ reg s E eq_refl eq_refl Hi); reflexivity|]). by apply not_elem_of_nil in Hin.
Qed.
End syscall.

(** ** A concrete machine: one task, and the terminal of [Terminal.term0] *)

#[local] Instance no_task_files : TaskFiles unit := {| tf_copy := mret; tf_recycle := λ o _, mret o; tf_find := mret |}.
#[local] Instance no_exec_files : ExecFiles unit :=
  {| xf_open _ := mret (-1); xf_page _ _ := mret []; xf_lseek _ _ := mret tt; xf_read _ _ := mret []; xf_close _ := mret tt |}.

Definition one_task : @machine unit :=
  Machine (Kernel (Sched ∅ ∅ [] (Spinlock 0) (Spinlock 0) (Spinlock 0) 1 2 1 4 0 2000 ∅ (TimerPool [] 0 0) ∅ 0)
    (Slabs (Vmem (Buddy ∅ ∅ (Spinlock 0) 0 0 0) ∅ ∅ 0) ∅ (Spinlock 0) ∅) ∅ tt {[ 1 := TaskInfo 1 0 0 0 0 ]} 0) term0.
Definition raw0 : raw_task := RawTask (LH (Run 0) (Run 0)) [] (Spinlock 0).

Lemma one_task_info : is_Some (k_info (sy_kernel one_task) !! cur_task (k_sched (sy_kernel one_task))).
Proof. eexists. vm_compute. reflexivity. Qed.

Lemma console_calls_witness :
  lib_puts raw0 0 (λ _, []) 1 0 0xc0001fd8 (0, 0, 0) 256 (-1) one_task = console (UserLib.puts 256 (-1)) 0xc0001fd8 one_task.
Proof. exact (proj1 (console_calls raw0 0 (λ _, []) 1 0 0xc0001fd8 (0, 0, 0) 256 (-1) 0 0 one_task one_task_info)). Defined.

Lemma unserved_calls_witness :
  let after := Machine (noted 0xc0001fd8 (sy_kernel one_task)) (sy_term one_task) in
  syscall_isr raw0 0 (λ _, []) 1 0 (SysReg 17 0 0 0 0 0 0xc0001fd8) one_task = Ok (-1, after) ∧
  syscall_isr raw0 0 (λ _, []) 1 0 (SysReg SYS_OPEN 256 0 0 0 0 0xc0001fd8) one_task = Ok (0, after).
Proof.
  split; [refine (proj1 (unserved_calls raw0 0 (λ _, []) 1 0 (SysReg 17 0 0 0 0 0 0xc0001fd8) one_task one_task_info) _)
         |refine (proj2 (unserved_calls raw0 0 (λ _, []) 1 0 (SysReg SYS_OPEN 256 0 0 0 0 0xc0001fd8) one_task one_task_info) _)].
  - unfold SYS_SBRK. simpl. lia.
  - unfold unimplemented. simpl. set_solver.
Defined.
