(* ===== verification/Nic.v ===== *)
(** * The network card (drivers/nic.c)

    The driver sets up an Intel e1000 and two rings of descriptors in memory that it shares
    with the card.  The card is a parameter ([NicCard]): its registers, by their distance from
    [va], its two ports, and [card_run], what it does to the rings between two accesses of
    the driver, to a register or to a field of a descriptor.  The state is the driver's [net_dev], the card and the bus with the
    [pci_dev_t] of the card.

    The file is not part of the build: [kvm_vm2pm] and the flag [VM_KW] that it uses are
    declared nowhere.  The address translation and the mapping of the registers are
    parameters. *)

From S2P Require Import Prelude QLib DList Locks Page PageAlloc Vm IntCtl Pci.
From Stdlib Require Import ZArith Lia.
From stdpp Require Import base numbers gmap list.
Open Scope Z_scope.

#[local] Arguments Z.mul : simpl never.
#[local] Arguments Z.add : simpl never.
#[local] Arguments Z.to_nat : simpl never.
#[local] Arguments Z.modulo : simpl never.
#[local] Arguments Z.land : simpl never.

(** ** Registers and bits *)

Definition INTEL_VEND : Z := 0x8086.
Definition E1000_DEV : Z := 0x100E.
Definition REG_CTRL : Z := 0x0000.
Definition REG_EEPROM : Z := 0x0014.
Definition REG_ICR : Z := 0x00C0.
Definition REG_IMS : Z := 0x00D0.
Definition ICR_LSC : Z := Z.shiftl 1 2.
Definition ICR_RXDMT0 : Z := Z.shiftl 1 4.
Definition ICR_RXT0 : Z := Z.shiftl 1 7.
Definition REG_RCTRL : Z := 0x0100.
Definition REG_RXDESCLO : Z := 0x2800.
Definition REG_RXDESCHI : Z := 0x2804.
Definition REG_RXDESCLEN : Z := 0x2808.
Definition REG_RXDESCHEAD : Z := 0x2810.
Definition REG_RXDESCTAIL : Z := 0x2818.
Definition REG_TCTRL : Z := 0x0400.
Definition REG_TXDESCLO : Z := 0x3800.
Definition REG_TXDESCHI : Z := 0x3804.
Definition REG_TXDESCLEN : Z := 0x3808.
Definition REG_TXDESCHEAD : Z := 0x3810.
Definition REG_TXDESCTAIL : Z := 0x3818.
Definition REG_TIPG : Z := 0x0410.
Definition REG_MTA : Z := 0x5200.
Definition REG_MTA_NUM : Z := 128.
Definition REG_RAL : Z := 0x5400.
Definition CTRL_SLU : Z := Z.shiftl 1 6.
Definition RCTL_EN : Z := Z.shiftl 1 1.
Definition RCTL_SBP : Z := Z.shiftl 1 2.
Definition RCTL_UPE : Z := Z.shiftl 1 3.
Definition RCTL_MPE : Z := Z.shiftl 1 4.
Definition RCTL_LBM_NONE : Z := Z.shiftl 0 6.
Definition RTCL_RDMTS_HALF : Z := Z.shiftl 0 8.
Definition RCTL_BAM : Z := Z.shiftl 1 15.
Definition RCTL_SECRC : Z := Z.shiftl 1 26.
Definition RCTL_BSIZE_8192 : Z := Z.lor (Z.shiftl 2 16) (Z.shiftl 1 25).
Definition CMD_EOP : Z := Z.shiftl 1 0.
Definition CMD_IFCS : Z := Z.shiftl 1 1.
Definition CMD_RS : Z := Z.shiftl 1 3.
Definition TCTL_EN : Z := Z.shiftl 1 1.
Definition TCTL_PSP : Z := Z.shiftl 1 3.
Definition TCTL_CT_SHIFT : Z := 4.
Definition TCTL_COLD_SHIFT : Z := 12.
Definition TCTL_RTLC : Z := Z.shiftl 1 24.
Definition TSTA_DD : Z := Z.shiftl 1 0.
Definition IPGT : Z := 10.
Definition IPGT1 : Z := Z.shiftl 8 10.
Definition IPGT2 : Z := Z.shiftl 6 20.
Definition E1000_NUM_RX_DESC : Z := 32.
Definition E1000_NUM_TX_DESC : Z := 8.
Definition NIC_BUF_SIZE : Z := PAGE_SIZE * 2.
Definition RECV_DD : Z := 1.

Definition PCI_MEM_BAR (bar : Z) : bool := Z.land bar 1 =? 0.
Definition PCI_BAR_TYPE (bar : Z) : Z := Z.land bar 1.
Definition PCI_MEM_BAR_ADDR (bar : Z) : Z := Z.land bar (Z.shiftl (MASK_U32 28) 4).
Definition PCI_MEM_BAR_TYPE (bar : Z) : Z := Z.land bar (Z.shiftl 3 1).

(** ** Descriptors and the driver's variables *)

Record e1000_rx_desc := RxDesc { rx_addr : Z; rx_length : Z; rx_checksum : Z; rx_status : Z; rx_errors : Z; rx_special : Z }.
Record e1000_tx_desc := TxDesc { tx_addr : Z; tx_length : Z; tx_cso : Z; tx_cmd : Z; tx_status : Z; tx_css : Z; tx_special : Z }.
Definition sizeof_rx_desc : Z := 16.
Definition sizeof_tx_desc : Z := 16.

Record net_dev := NetDev {
  eeprom : bool; bar_type : Z; io_base : Z; va : Z; mem_base : Z; mem_size : Z; mac : list Z;
  rx_desc : list e1000_rx_desc; tx_desc : list e1000_tx_desc; rx_cur : Z; tx_cur : Z; isr_line : Z }.

Definition put_eeprom v d := NetDev v (bar_type d) (io_base d) (va d) (mem_base d) (mem_size d) (mac d) (rx_desc d) (tx_desc d) (rx_cur d) (tx_cur d) (isr_line d).
Definition put_bar_type v d := NetDev (eeprom d) v (io_base d) (va d) (mem_base d) (mem_size d) (mac d) (rx_desc d) (tx_desc d) (rx_cur d) (tx_cur d) (isr_line d).
Definition put_va v d := NetDev (eeprom d) (bar_type d) (io_base d) v (mem_base d) (mem_size d) (mac d) (rx_desc d) (tx_desc d) (rx_cur d) (tx_cur d) (isr_line d).
Definition put_mem_base v d := NetDev (eeprom d) (bar_type d) (io_base d) (va d) v (mem_size d) (mac d) (rx_desc d) (tx_desc d) (rx_cur d) (tx_cur d) (isr_line d).
Definition put_mem_size v d := NetDev (eeprom d) (bar_type d) (io_base d) (va d) (mem_base d) v (mac d) (rx_desc d) (tx_desc d) (rx_cur d) (tx_cur d) (isr_line d).
Definition put_mac v d := NetDev (eeprom d) (bar_type d) (io_base d) (va d) (mem_base d) (mem_size d) v (rx_desc d) (tx_desc d) (rx_cur d) (tx_cur d) (isr_line d).
Definition put_rx v d := NetDev (eeprom d) (bar_type d) (io_base d) (va d) (mem_base d) (mem_size d) (mac d) v (tx_desc d) (rx_cur d) (tx_cur d) (isr_line d).
Definition put_tx v d := NetDev (eeprom d) (bar_type d) (io_base d) (va d) (mem_base d) (mem_size d) (mac d) (rx_desc d) v (rx_cur d) (tx_cur d) (isr_line d).
Definition put_rx_cur v d := NetDev (eeprom d) (bar_type d) (io_base d) (va d) (mem_base d) (mem_size d) (mac d) (rx_desc d) (tx_desc d) v (tx_cur d) (isr_line d).
Definition put_tx_cur v d := NetDev (eeprom d) (bar_type d) (io_base d) (va d) (mem_base d) (mem_size d) (mac d) (rx_desc d) (tx_desc d) (rx_cur d) v (isr_line d).

(** The card. *)
Class NicCard (C : Type) := {
  card_read : Z → C → Z * C;                (* a 32-bit register *)
  card_read8 : Z → C → Z * C;               (* a byte of the registers *)
  card_write : Z → Z → C → C;
  card_outl : Z → Z → C → C;                (* outl(port, value) *)
  card_inl : Z → C → Z * C;                 (* inl(port) *)
  card_run : C → list e1000_rx_desc → list e1000_tx_desc → C * list e1000_rx_desc * list e1000_tx_desc }.

Section nic.
Context {C D : Type} `{NicCard C} `{PciBus D}.

(** [n_eoi]: the interrupts acknowledged at the old controllers. *)
Record nic := Nic { n_dev : net_dev; n_card : C; n_pci : pci_st D; n_eoi : list Z }.

Variable kvm_vm2pm : Z → Z.
Variable kvm_maps : Z → Z → Z → M nic unit.             (* kvm_maps(va, pa, size, VM_PRES | VM_KW) *)
Variables (rx_desc_va tx_desc_va : Z) (rx_buf : Z → Z).  (* the addresses of the rings and of the buffers *)

Definition upd (f : net_dev → net_dev) : M nic unit := modify (λ s, Nic (f (n_dev s)) (n_card s) (n_pci s) (n_eoi s)).
Definition on_pci {A} (m : M (pci_st D) A) : M nic A := zoom n_pci (λ p s, Nic (n_dev s) (n_card s) p (n_eoi s)) m.
Definition on_card {A} (f : C → A * C) : M nic A := λ s, let '(a, c) := f (n_card s) in Ok (a, Nic (n_dev s) c (n_pci s) (n_eoi s)).

(** The card's turn. *)
Definition run : M nic unit := modify (λ s,
  let '(c, rx, tx) := card_run (n_card s) (rx_desc (n_dev s)) (tx_desc (n_dev s)) in
  Nic (put_tx tx (put_rx rx (n_dev s))) c (n_pci s) (n_eoi s)).

Definition read32 (address : Z) : M nic Z := s ← get; v ← on_card (card_read (address - va (n_dev s))); mret (u32 v).
Definition read8 (address : Z) : M nic Z := s ← get; v ← on_card (card_read8 (address - va (n_dev s))); mret (u8 v).
Definition write32 (address value : Z) : M nic unit :=
  s ← get; on_card (λ c, (tt, card_write (address - va (n_dev s)) (u32 value) c)).

Definition writeCommand (address value : Z) : M nic unit :=
  run;;
  s ← get;
  if bar_type (n_dev s) =? 0 then write32 (va (n_dev s) + address) value
  else
    on_card (λ c, (tt, card_outl (io_base (n_dev s)) address c));;
    on_card (λ c, (tt, card_outl (io_base (n_dev s) + 4) value c)).

Definition readCommand (address : Z) : M nic Z :=
  run;;
  s ← get;
  if bar_type (n_dev s) =? 0 then read32 (va (n_dev s) + address)
  else
    on_card (λ c, (tt, card_outl (io_base (n_dev s)) address c));;
    v ← on_card (card_inl (io_base (n_dev s) + 4)); mret (u32 v).

(** ** The address of the card *)

Fixpoint detect_loop (n : nat) : M nic unit :=
  match n with
  | O => mret tt
  | S n' =>
      s ← get;
      if eeprom (n_dev s) then mret tt
      else
        val ← readCommand REG_EEPROM;
        upd (put_eeprom (truth (Z.land val 0x10)));;
        detect_loop n'
  end.
Definition detectEEProm : M nic unit := writeCommand REG_EEPROM 1;; detect_loop 1000.

Fixpoint await (fuel : nat) (bit : Z) : M nic Z :=
  match fuel with
  | O => fail Fuel
  | S fuel => tmp ← readCommand REG_EEPROM; if truth (Z.land tmp bit) then mret tmp else await fuel bit
  end.
Definition eepromRead (fuel : nat) (addr : Z) : M nic Z :=
  s ← get;
  tmp ← (if eeprom (n_dev s) then
           writeCommand REG_EEPROM (Z.lor 1 (Z.shiftl addr 8));; await fuel (Z.shiftl 1 4)
         else
           writeCommand REG_EEPROM (Z.lor 1 (Z.shiftl addr 2));; await fuel (Z.shiftl 1 1));
  mret (u16 (Z.land (Z.shiftr tmp 16) 0xFFFF)).

Definition set_mac (i v : Z) : M nic unit := s ← get; upd (put_mac (<[Z.to_nat i := u8 v]> (mac (n_dev s)))).

Definition readMACAddress (fuel : nat) : M nic unit :=
  s ← get;
  if eeprom (n_dev s) then
    temp ← eepromRead fuel 0; set_mac 0 (Z.land temp 0xff);; set_mac 1 (Z.shiftr temp 8);;
    temp ← eepromRead fuel 1; set_mac 2 (Z.land temp 0xff);; set_mac 3 (Z.shiftr temp 8);;
    temp ← eepromRead fuel 2; set_mac 4 (Z.land temp 0xff);; set_mac 5 (Z.shiftr temp 8)
  else
    w ← read32 (va (n_dev s) + REG_RAL);
    if negb (w =? 0) then
      for_up 6 0 (λ i, b ← read8 (va (n_dev s) + REG_RAL + i); set_mac i b)
    else assertk false.

(** ** The rings *)

Definition set_rx (i : Z) (f : e1000_rx_desc → e1000_rx_desc) : M nic unit :=
  s ← get;
  x ← deref (rx_desc (n_dev s) !! Z.to_nat i);
  upd (put_rx (<[Z.to_nat i := f x]> (rx_desc (n_dev s)))).
Definition set_tx (i : Z) (f : e1000_tx_desc → e1000_tx_desc) : M nic unit :=
  s ← get;
  x ← deref (tx_desc (n_dev s) !! Z.to_nat i);
  upd (put_tx (<[Z.to_nat i := f x]> (tx_desc (n_dev s)))).

Definition put_rx_addr v x := RxDesc v (rx_length x) (rx_checksum x) (rx_status x) (rx_errors x) (rx_special x).
Definition put_rx_status v x := RxDesc (rx_addr x) (rx_length x) (rx_checksum x) v (rx_errors x) (rx_special x).

Definition rx_ctl : Z :=
  Z.lor (Z.lor (Z.lor (Z.lor (Z.lor (Z.lor (Z.lor (Z.lor RCTL_EN RCTL_SBP) RCTL_UPE) RCTL_MPE) RCTL_LBM_NONE)
    RTCL_RDMTS_HALF) RCTL_BAM) RCTL_SECRC) RCTL_BSIZE_8192.

Definition rx_init : M nic unit :=
  let ptr := kvm_vm2pm rx_desc_va in
  for_up (Z.to_nat E1000_NUM_RX_DESC) 0 (λ i,
    set_rx i (put_rx_addr (kvm_vm2pm (rx_buf i)));;
    set_rx i (put_rx_status 0));;
  upd (put_rx_cur 0);;
  writeCommand REG_RXDESCLO ptr;;
  writeCommand REG_RXDESCHI 0;;
  writeCommand REG_RXDESCLEN (E1000_NUM_RX_DESC * sizeof_rx_desc);;
  writeCommand REG_RXDESCHEAD 0;;
  writeCommand REG_RXDESCTAIL (E1000_NUM_RX_DESC - 1);;
  writeCommand REG_RCTRL rx_ctl.

Definition tx_ctl : Z :=
  Z.lor (Z.lor (Z.lor (Z.lor TCTL_EN TCTL_PSP) (Z.shiftl 15 TCTL_CT_SHIFT)) (Z.shiftl 64 TCTL_COLD_SHIFT)) TCTL_RTLC.

Definition tx_init : M nic unit :=
  let ptr := kvm_vm2pm tx_desc_va in
  for_up (Z.to_nat E1000_NUM_TX_DESC) 0 (λ i,
    set_tx i (λ x, TxDesc 0 (tx_length x) (tx_cso x) 0 TSTA_DD (tx_css x) (tx_special x)));;
  upd (put_tx_cur 0);;
  writeCommand REG_TXDESCHI ptr;;
  writeCommand REG_TXDESCLO 0;;
  writeCommand REG_TXDESCLEN (E1000_NUM_TX_DESC * sizeof_tx_desc);;
  writeCommand REG_TXDESCHEAD 0;;
  writeCommand REG_TXDESCTAIL 0;;
  writeCommand REG_TCTRL tx_ctl.

(** A read of a field of a descriptor that the card may write: the card's turn comes first. *)
Definition rd_rx {A} (i : Z) (f : e1000_rx_desc → A) : M nic A :=
  run;;
  s ← get;
  x ← deref (rx_desc (n_dev s) !! Z.to_nat i);
  mret (f x).

(** One turn of the loop of [receivePacket].  The function reads where a packet is and how
    long it is, and drops both; here they are collected. *)
Definition receive_body (got : list (Z * Z)) : M nic (list (Z * Z) + list (Z * Z)) :=
  s ← get;
  let cur := rx_cur (n_dev s) in
  status ← rd_rx cur rx_status;
  if truth (Z.land status RECV_DD) then
    addr ← rd_rx cur rx_addr;
    let buf := u32 addr in
    len ← rd_rx cur rx_length;
    run;;
    set_rx cur (put_rx_status 0);;
    let old_cur := cur in
    upd (put_rx_cur ((cur + 1) mod E1000_NUM_RX_DESC));;
    writeCommand REG_RXDESCTAIL old_cur;;
    mret (inl (got ++ [(buf, len)]))
  else mret (inr got).
Definition receivePacket (fuel : nat) : M nic (list (Z * Z)) := loop fuel receive_body [].

(** [while (!(status & 0xff));] *)
Fixpoint await_tx (fuel : nat) (i : Z) : M nic unit :=
  match fuel with
  | O => fail Fuel
  | S fuel =>
      run;;
      s ← get;
      x ← deref (tx_desc (n_dev s) !! Z.to_nat i);
      if truth (Z.land (tx_status x) 0xff) then mret tt else await_tx fuel i
  end.

Definition sendPacket (fuel : nat) (p_data p_len : Z) : M nic Z :=
  assertk (p_len <=? NIC_BUF_SIZE);;
  s ← get;
  let cur := tx_cur (n_dev s) in
  run;; set_tx cur (λ x, TxDesc p_data (tx_length x) (tx_cso x) (tx_cmd x) (tx_status x) (tx_css x) (tx_special x));;
  run;; set_tx cur (λ x, TxDesc (tx_addr x) p_len (tx_cso x) (tx_cmd x) (tx_status x) (tx_css x) (tx_special x));;
  run;; set_tx cur (λ x, TxDesc (tx_addr x) (tx_length x) (tx_cso x) (Z.lor (Z.lor CMD_EOP CMD_IFCS) CMD_RS) (tx_status x) (tx_css x) (tx_special x));;
  run;; set_tx cur (λ x, TxDesc (tx_addr x) (tx_length x) (tx_cso x) (tx_cmd x) 0 (tx_css x) (tx_special x));;
  let old_cur := u8 cur in
  upd (put_tx_cur ((cur + 1) mod E1000_NUM_TX_DESC));;
  writeCommand REG_TXDESCTAIL ((cur + 1) mod E1000_NUM_TX_DESC);;
  await_tx fuel old_cur;;
  mret 0.

(** ** Interrupts and initialisation *)

Definition nic_enableInterrupt : M nic unit :=
  writeCommand REG_IMS 0x1F6DC;;
  writeCommand REG_IMS (Z.land 0xff (Z.lnot 4));;
  _ ← readCommand 0xc0; mret tt.

Definition pic_eoi (v : Z) : M nic unit := modify (λ s, Nic (n_dev s) (n_card s) (n_pci s) (v :: n_eoi s)).

Definition nic_isr (fuel : nat) : M nic (list (Z * Z)) :=
  writeCommand REG_IMS 1;;
  status ← readCommand REG_ICR;
  got ← (if truth (Z.land status ICR_LSC) then mret []
         else if truth (Z.land status ICR_RXDMT0) then mret []
         else if truth (Z.land status ICR_RXT0) then receivePacket fuel
         else mret []);
  s ← get;
  pic_eoi (u8 (IRQ0 + isr_line (n_dev s)));;
  mret got.

Definition set_class (cl sub : Z) (d : pci_dev) : pci_dev := PciDev (vendor_id d) (dev_id d) cl sub (prg_if d) (hd_type d) (cfg d).

(** The card by its class on the bus, and its registers. *)
Definition nic_probe : M nic unit :=
  on_pci (modify (λ p, PciSt (p_bus p) (p_latch p) (set_class 2 0 (p_dev p))));;
  r ← on_pci pci_device_detect;
  assertk (r =? 0);;
  p ← on_pci get;
  assertk ((hd_type (p_dev p) =? 0) || negb (prg_if (p_dev p) =? 128));;
  assertk (vendor_id (p_dev p) =? INTEL_VEND);;
  assertk (dev_id (p_dev p) =? E1000_DEV);;
  bar ← on_pci (pci_read_bar 0);
  upd (put_bar_type (PCI_BAR_TYPE bar));;
  if PCI_MEM_BAR bar then
    let base := PCI_MEM_BAR_ADDR bar in
    upd (put_mem_base base);;
    assertk (KERNEL_START <=? base);;
    assertk (PCI_MEM_BAR_TYPE bar =? 0);;
    on_pci (pci_write_bar 0 (MASK_U32 32));;
    tmp ← on_pci (pci_read_bar 0);
    let size := u32 (u32 (Z.lnot (PCI_MEM_BAR_ADDR tmp)) + 1) in
    upd (put_mem_size size);;
    on_pci (pci_write_bar 0 bar);;
    upd (put_va base);;
    kvm_maps base base size
  else assertk false.

Definition nic_init (fuel : nat) : M nic unit :=
  nic_probe;;
  detectEEProm;;
  readMACAddress fuel;;
  s ← get;
  cfg ← read32 (va (n_dev s) + REG_CTRL);
  write32 (va (n_dev s) + REG_CTRL) (Z.lor cfg CTRL_SLU);;
  for_up (Z.to_nat REG_MTA_NUM) 0 (λ i, writeCommand (REG_MTA + i * 4) 0);;
  rx_init;;
  tx_init;;
  writeCommand REG_TIPG (Z.lor (Z.lor IPGT IPGT1) IPGT2).
End nic.

(** ** The receiving half of the card

    A packet is what the card writes into a descriptor.  The card owns the descriptors from
    its head up to its tail; while it is switched on it may fill the one at its head and move
    on.  The packets that are still to come are [u_wire]. *)

Record packet := Packet { pk_length : Z; pk_checksum : Z; pk_errors : Z; pk_special : Z }.
Record rxu := RxU { u_head : Z; u_tail : Z; u_on : bool; u_wire : list packet }.

Definition fill (p : packet) (x : e1000_rx_desc) : e1000_rx_desc :=
  RxDesc (rx_addr x) (pk_length p) (pk_checksum p) 3 (pk_errors p) (pk_special p).

Definition deliver1 (st : rxu * list e1000_rx_desc) : rxu * list e1000_rx_desc :=
  let '(u, rx) := st in
  match u_wire u, rx !! Z.to_nat (u_head u) with
  | p :: w, Some x =>
      if u_on u && negb (u_head u =? u_tail u)
      then (RxU ((u_head u + 1) mod 32) (u_tail u) true w, <[Z.to_nat (u_head u) := fill p x]> rx) else (u, rx)
  | _, _ => (u, rx)
  end.
Definition deliver (n : nat) (st : rxu * list e1000_rx_desc) : rxu * list e1000_rx_desc := Nat.iter n deliver1 st.

Definition rx_reg (r v : Z) (u : rxu) : rxu :=
  if r =? REG_RXDESCHEAD then RxU v (u_tail u) (u_on u) (u_wire u)
  else if r =? REG_RXDESCTAIL then RxU (u_head u) v (u_on u) (u_wire u)
  else if r =? REG_RCTRL then RxU (u_head u) (u_tail u) (Z.testbit v 1) (u_wire u)
  else u.

(** What the driver relies on. *)
Class RxUnit (C : Type) `{NicCard C} := {
  rx_abs : C → rxu;
  abs_write : ∀ r v c, rx_abs (card_write r v c) = rx_reg r v (rx_abs c);
  abs_run : ∀ c rx tx, ∃ n, let '(c', rx', _) := card_run c rx tx in (rx_abs c', rx') = deliver n (rx_abs c, rx) }.

(** ** The ring *)

Definition idx (cur i : Z) : nat := Z.to_nat ((cur + i) mod 32).

Lemma idx_ne cur i j : 0 ≤ i < 32 → 0 ≤ j < 32 → i ≠ j → idx cur i ≠ idx cur j.
Proof.
  intros Hi Hj Hne E. unfold idx in E. pose proof (Z.mod_pos_bound (cur + i) 32 ltac:(lia)). pose proof (Z.mod_pos_bound (cur + j) 32 ltac:(lia)).
  pose proof (Z.div_mod (cur + i) 32 ltac:(lia)). pose proof (Z.div_mod (cur + j) 32 ltac:(lia)). nia.
Qed.
Lemma idx_lt cur i : (idx cur i < 32)%nat.
Proof. unfold idx. pose proof (Z.mod_pos_bound (cur + i) 32 ltac:(lia)). lia. Qed.
Lemma idx_succ cur i : idx ((cur + 1) mod 32) i = idx cur (i + 1).
Proof. unfold idx. rewrite Zplus_mod_idemp_l. do 2 f_equal. lia. Qed.

(** The ring at [cur], with the card's tail [k] behind it and the packets [pend] in front
    of the card's head. *)
Record ring_ok (bufs : nat → Z) (cur k : Z) (pend : list packet) (u : rxu) (rx : list e1000_rx_desc) : Prop := RingOk {
  ro_len : length rx = 32%nat;
  ro_bufs : ∀ j x, rx !! j = Some x → rx_addr x = bufs j;
  ro_on : u_on u = true;
  ro_cur : 0 ≤ cur < 32;
  ro_tail : u_tail u = (cur + k) mod 32;
  ro_room : Z.of_nat (length pend) ≤ k < 32;
  ro_head : u_head u = (cur + Z.of_nat (length pend)) mod 32;
  ro_full : ∀ i p, pend !! i = Some p → ∃ x, rx !! idx cur (Z.of_nat i) = Some x ∧ rx_length x = pk_length p ∧ Z.land (rx_status x) 1 ≠ 0;
  ro_free : ∀ i, Z.of_nat (length pend) ≤ i < 32 → ∃ x, rx !! idx cur i = Some x ∧ Z.land (rx_status x) 1 = 0 }.

(** The card adds packets behind the pending ones, in their order. *)
Lemma deliver1_ok bufs cur k pend u rx : ring_ok bufs cur k pend u rx → ∃ came u' rx', deliver1 (u, rx) = (u', rx') ∧
  u_wire u = came ++ u_wire u' ∧ ring_ok bufs cur k (pend ++ came) u' rx'.
Proof.
  intros [Hlen Hbufs Hon Hcur Htail Hroom Hhead Hfull Hfree]. unfold deliver1. rewrite Hon. cbn [andb].
  assert (∃ came u' rx', (u, rx) = (u', rx') ∧ u_wire u = came ++ u_wire u' ∧ ring_ok bufs cur k (pend ++ came) u' rx') as Hsame.
  { exists [], u, rx. rewrite app_nil_r. split_and!; [done|done|by constructor]. }
  destruct (u_wire u) as [|p w] eqn:Ew; [exact Hsame|]. destruct (rx !! Z.to_nat (u_head u)) as [x|] eqn:Ex; [|exact Hsame].
  destruct (Z.eqb_spec (u_head u) (u_tail u)) as [_|Hne]; cbn [negb]; [exact Hsame|]. clear Hsame.
  assert (Z.of_nat (length pend) ≠ k) as Hk by (intros E; apply Hne; by rewrite Hhead, Htail, E).
  assert (Z.to_nat (u_head u) = idx cur (Z.of_nat (length pend))) as Ei by (by rewrite Hhead).
  eexists [p], _, _. split_and!; [reflexivity|done|]. rewrite Ei in *. pose proof (idx_lt cur (Z.of_nat (length pend))) as Hi. constructor; cbn [u_on u_tail u_head]; try done.
  - by rewrite length_insert.
  - intros j y. destruct (decide (j = idx cur (Z.of_nat (length pend)))) as [->|Hj]; [|rewrite list_lookup_insert_ne by done; apply Hbufs].
    rewrite list_lookup_insert_eq by lia. intros [= <-]. by apply (Hbufs _ x).
  - rewrite length_app. simpl. lia.
  - rewrite Hhead, Zplus_mod_idemp_l, length_app. f_equal. simpl. lia.
  - intros i q Hq. destruct (decide (i = length pend)) as [->|Hl].
    + rewrite list_lookup_middle in Hq by done. injection Hq as <-. exists (fill p x). rewrite list_lookup_insert_eq by lia. by split_and!.
    + assert (i < length pend)%nat by (apply lookup_lt_Some in Hq; rewrite length_app in Hq; simpl in Hq; lia).
      rewrite lookup_app_l in Hq by done. rewrite list_lookup_insert_ne by (apply idx_ne; lia). by apply Hfull.
  - intros i Hr. rewrite length_app in Hr. simpl in Hr. rewrite list_lookup_insert_ne by (apply idx_ne; lia). apply Hfree. lia.
Qed.

Lemma deliver_ok bufs cur k n : ∀ pend u rx, ring_ok bufs cur k pend u rx → ∃ came u' rx', deliver n (u, rx) = (u', rx') ∧
  u_wire u = came ++ u_wire u' ∧ ring_ok bufs cur k (pend ++ came) u' rx'.
Proof.
  induction n as [|n IH]; intros pend u rx Hr.
  - exists [], u, rx. rewrite app_nil_r. by split_and!.
  - destruct (IH pend u rx Hr) as (c1 & u1 & rx1 & E1 & W1 & R1). destruct (deliver1_ok _ _ _ _ _ _ R1) as (c2 & u2 & rx2 & E2 & W2 & R2).
    exists (c1 ++ c2), u2, rx2. change (deliver (S n) (u, rx)) with (deliver1 (deliver n (u, rx))). rewrite E1, W1, W2. rewrite !app_assoc. by split_and!.
Qed.

(** The driver takes the first packet. *)
Lemma ring_take bufs cur p pend u rx x : ring_ok bufs cur 31 (p :: pend) u rx → rx !! idx cur 0 = Some x →
  ring_ok bufs ((cur + 1) mod 32) 30 pend u (<[idx cur 0 := put_rx_status 0 x]> rx).
Proof.
  intros [Hlen Hbufs Hon Hcur Htail Hroom Hhead Hfull Hfree] Ex. cbn [length] in *. pose proof (idx_lt cur 0) as Hi.
  constructor; rewrite ?Zplus_mod_idemp_l; try done.
  - by rewrite length_insert.
  - intros j y. destruct (decide (j = idx cur 0)) as [->|Hj]; [|rewrite list_lookup_insert_ne by done; apply Hbufs].
    rewrite list_lookup_insert_eq by lia. intros [= <-]. by apply (Hbufs _ x).
  - apply Z.mod_pos_bound. lia.
  - rewrite Htail. f_equal. lia.
  - lia.
  - rewrite Hhead. f_equal. lia.
  - intros i q Hq. rewrite idx_succ. pose proof (lookup_lt_Some _ _ _ Hq). rewrite list_lookup_insert_ne by (apply idx_ne; lia).
    replace (Z.of_nat i + 1) with (Z.of_nat (S i)) by lia. by apply Hfull.
  - intros i Hr. rewrite idx_succ. destruct (decide (i = 31)) as [->|Hne].
    + replace (idx cur (31 + 1)) with (idx cur 0) by (unfold idx; f_equal; rewrite <-(Z.mod_add (cur + 0) 1 32) by lia; f_equal; lia).
      rewrite list_lookup_insert_eq by lia. by eexists.
    + rewrite list_lookup_insert_ne by (apply idx_ne; lia). apply Hfree. lia.
Qed.

Section receive.
Context {C D : Type} `{NicCard C} `{PciBus D} `{!RxUnit C}.
Context (bufs : nat → Z).

Definition rxs (s : @nic C D) : rxu := rx_abs (n_card s).
Definition rx_ready (k : Z) (pend : list packet) (s : @nic C D) : Prop :=
  bar_type (n_dev s) = 0 ∧ ring_ok bufs (rx_cur (n_dev s)) k pend (rxs s) (rx_desc (n_dev s)).

(** The card's turn, then a register is written. *)
Lemma wp_writeCommand reg v s (Q : unit → nic → Prop) : bar_type (n_dev s) = 0 →
  (∀ s' n u, deliver n (rxs s, rx_desc (n_dev s)) = (u, rx_desc (n_dev s')) → rxs s' = rx_reg reg (u32 v) u →
     rx_cur (n_dev s') = rx_cur (n_dev s) → bar_type (n_dev s') = 0 → Q tt s') → wp (writeCommand reg v) Q s.
Proof.
  intros Hb HQ. unfold writeCommand, run, write32, on_card.
  destruct (abs_run (n_card s) (rx_desc (n_dev s)) (tx_desc (n_dev s))) as [n Hn].
  wp_go. destruct (card_run _ _ _) as [[c rx'] tx']. cbn [n_dev bar_type put_tx put_rx]. rewrite Hb. cbn [Z.eqb]. wp_go.
  unfold wp. cbn [n_dev n_card va put_tx put_rx]. rewrite Z.add_simpl_l.
  apply (HQ _ n (rx_abs c)); [exact (eq_sym Hn)|apply abs_write|done|done].
Qed.

Lemma wp_set_rx i f x (s : @nic C D) (Q : unit → nic → Prop) : rx_desc (n_dev s) !! Z.to_nat i = Some x →
  Q tt (Nic (put_rx (<[Z.to_nat i := f x]> (rx_desc (n_dev s))) (n_dev s)) (n_card s) (n_pci s) (n_eoi s)) → wp (set_rx i f) Q s.
Proof. intros Ex HQ. unfold set_rx, upd. by wp_go. Qed.

(** The card's turn. *)
Lemma wp_run k pend s (Q : unit → nic → Prop) : rx_ready k pend s →
  (∀ came s', u_wire (rxs s) = came ++ u_wire (rxs s') → rx_cur (n_dev s') = rx_cur (n_dev s) → rx_ready k (pend ++ came) s' → Q tt s') → wp run Q s.
Proof.
  intros [Hb Hr] HQ. unfold run. destruct (abs_run (n_card s) (rx_desc (n_dev s)) (tx_desc (n_dev s))) as [n Hn]. wp_step.
  destruct (card_run _ _ _) as [[c rx'] tx']. destruct (deliver_ok _ _ _ n _ _ _ Hr) as (came & u' & rx2 & Ed & Ew & Hr').
  unfold rxs in *. rewrite Ed in Hn. injection Hn as <- <-. by apply (HQ came).
Qed.

(** A field of the descriptor at the driver's place. *)
Lemma wp_rd_rx {A} (f : e1000_rx_desc → A) pend s (Q : A → nic → Prop) : rx_ready 31 pend s →
  (∀ came s' x, u_wire (rxs s) = came ++ u_wire (rxs s') → rx_cur (n_dev s') = rx_cur (n_dev s) → rx_ready 31 (pend ++ came) s' →
     rx_desc (n_dev s') !! idx (rx_cur (n_dev s)) 0 = Some x → Q (f x) s') → wp (rd_rx (rx_cur (n_dev s)) f) Q s.
Proof.
  intros Hr HQ. assert (0 ≤ rx_cur (n_dev s) < 32) as Hcur by (by destruct Hr as [_ []]).
  unfold rd_rx. wp_step. apply (wp_run 31 pend); [done|]. intros came s' Ew Ec Hr'. pose proof Hr' as [_ [Hlen _ _ _ _ _ _ _ _]].
  destruct (lookup_lt_is_Some_2 (rx_desc (n_dev s')) (idx (rx_cur (n_dev s)) 0)) as [x Ex]; [rewrite Hlen; apply idx_lt|].
  assert (idx (rx_cur (n_dev s)) 0 = Z.to_nat (rx_cur (n_dev s))) as Ei by (unfold idx; rewrite Z.add_0_r, Z.mod_small; [done|lia]).
  wp_go; [rewrite <-Ei; exact Ex|]. by eapply HQ.
Qed.

(** What the driver finds there. *)
Lemma ready_first p rest s x : rx_ready 31 (p :: rest) s → rx_desc (n_dev s) !! idx (rx_cur (n_dev s)) 0 = Some x →
  rx_addr x = bufs (Z.to_nat (rx_cur (n_dev s))) ∧ rx_length x = pk_length p ∧ Z.land (rx_status x) 1 ≠ 0.
Proof.
  intros [_ [_ Hbufs _ Hcur _ _ _ Hfull _]] Ex. destruct (Hfull 0%nat p eq_refl) as (y & Ey & El & Hy). change (Z.of_nat 0) with 0 in Ey.
  rewrite Ex in Ey. injection Ey as <-. split_and!; [|done|done]. rewrite (Hbufs _ _ Ex). unfold idx. by rewrite Z.add_0_r, Z.mod_small.
Qed.
Lemma ready_none s x : rx_ready 31 [] s → rx_desc (n_dev s) !! idx (rx_cur (n_dev s)) 0 = Some x → Z.land (rx_status x) 1 = 0.
Proof. intros [_ [_ _ _ _ _ _ _ _ Hfree]] Ex. destruct (Hfree 0 ltac:(simpl; lia)) as (y & Ey & Hy). congruence. Qed.

(** The driver gives the descriptor back. *)
Lemma wp_give_back got p rest s (Q : list (Z * Z) + list (Z * Z) → nic → Prop) : rx_ready 31 (p :: rest) s →
  (∀ came s', rx_cur (n_dev s') = (rx_cur (n_dev s) + 1) mod 32 → u_wire (rxs s) = came ++ u_wire (rxs s') → rx_ready 31 (rest ++ came) s' → Q (inl got) s') →
  let cur := rx_cur (n_dev s) in
  wp (set_rx cur (put_rx_status 0);; upd (put_rx_cur ((cur + 1) mod E1000_NUM_RX_DESC));; writeCommand REG_RXDESCTAIL cur;; mret (inl got)) Q s.
Proof.
  intros [Hb Hr] HQ. pose proof Hr as [Hlen Hbufs Hon Hcur Htail Hroom Hhead Hfull Hfree].
  assert (idx (rx_cur (n_dev s)) 0 = Z.to_nat (rx_cur (n_dev s))) as Ei by (unfold idx; rewrite Z.add_0_r, Z.mod_small; [done|lia]).
  destruct (Hfull 0%nat p eq_refl) as (x & Ex & _). pose proof (ring_take _ _ _ _ _ _ x Hr Ex) as Ht. change (Z.of_nat 0) with 0 in Ex. rewrite Ei in Ex, Ht.
  cbv zeta. wp_step. apply (wp_set_rx _ _ x); [exact Ex|]. unfold upd. wp_go.
  apply wp_writeCommand; [done|]. intros s' n u Ed Eu Ec Eb. wp_go. cbn [n_dev rx_cur rx_desc put_rx_cur put_rx n_card rxs] in *.
  destruct (deliver_ok _ _ _ n _ _ _ Ht) as (came & u' & rx' & Ed' & Ew & Hr'). unfold rxs in *. cbn [n_card] in Ed. rewrite Ed' in Ed. injection Ed as E1 E2. subst u. rewrite E2 in Hr'.
  change E1000_NUM_RX_DESC with 32 in *. assert (u_wire (rx_abs (n_card s')) = u_wire u') as Ew' by (by rewrite Eu).
  apply (HQ came); [done|by rewrite Ew'|]. split; [done|]. unfold rxs. rewrite Ec, Eu.
  destruct Hr' as [? ? ? ? ? ? ? ? ?]. constructor; try done; cbn [u_tail rx_reg REG_RXDESCTAIL REG_RXDESCHEAD Z.eqb Pos.eqb].
  - rewrite u32_small, Zplus_mod_idemp_l by lia. rewrite <-(Z.mod_small (rx_cur (n_dev s)) 32) at 1 by lia. rewrite <-(Z.mod_add (rx_cur (n_dev s)) 1 32) by lia. f_equal. lia.
  - lia.
Qed.

(** One turn of the loop. *)
Lemma wp_receive_body got pend s (Q : list (Z * Z) + list (Z * Z) → nic → Prop) : rx_ready 31 pend s →
  (∀ s', pend = [] → u_wire (rxs s) = u_wire (rxs s') → rx_ready 31 [] s' → Q (inr got) s') →
  (∀ p rest came s', p :: rest = pend ++ came → rx_cur (n_dev s') = (rx_cur (n_dev s) + 1) mod 32 → u_wire (rxs s) = came ++ u_wire (rxs s') →
     rx_ready 31 rest s' → Q (inl (got ++ [(u32 (bufs (Z.to_nat (rx_cur (n_dev s)))), pk_length p)])) s') →
  wp (receive_body got) Q s.
Proof.
  intros Hr Hend Hgo. unfold receive_body. do 2 wp_step. cbv zeta. wp_step. apply (wp_rd_rx _ pend); [done|]. intros c1 s1 x1 W1 C1 R1 X1. rewrite <-C1 in X1.
  destruct (pend ++ c1) as [|p rest] eqn:Ep.
  { unfold RECV_DD. rewrite (ready_none s1 x1 R1 X1). apply app_eq_nil in Ep as [-> ->]. apply wp_ret. by apply Hend. }
  unfold RECV_DD. destruct (ready_first p rest s1 x1 R1 X1) as (_ & _ & Hdd). rewrite (proj2 (truth_true _) Hdd), <-C1.
  wp_step. apply (wp_rd_rx _ (p :: rest)); [done|]. intros c2 s2 x2 W2 C2 R2 X2. rewrite <-C2 in X2.
  destruct (ready_first p _ s2 x2 R2 X2) as (-> & _ & _). rewrite <-C2. cbv zeta.
  wp_step. apply (wp_rd_rx _ ((p :: rest) ++ c2)); [done|]. intros c3 s3 x3 W3 C3 R3 X3. rewrite <-C3 in X3.
  destruct (ready_first p ((rest ++ c2) ++ c3) s3 x3 R3 X3) as (_ & -> & _). rewrite <-C3. cbv zeta.
  wp_step. apply (wp_run 31 (((p :: rest) ++ c2) ++ c3)); [done|]. intros c4 s4 W4 C4 R4. rewrite <-C4.
  apply (wp_give_back _ p (((rest ++ c2) ++ c3) ++ c4)); [done|]. intros c5 s5 C5 W5 R5.
  replace (rx_cur (n_dev s4)) with (rx_cur (n_dev s)) in * by congruence.
  apply (Hgo p ((((rest ++ c2) ++ c3) ++ c4) ++ c5) ((((c1 ++ c2) ++ c3) ++ c4) ++ c5)); [|exact C5|by rewrite W1, W2, W3, W4, W5, <-!app_assoc|exact R5].
  rewrite !app_assoc, Ep. done.
Qed.

(** What the driver reads of a run of packets whose first one is at [cur]. *)
Fixpoint reads (cur : Z) (ps : list packet) : list (Z * Z) :=
  match ps with [] => [] | p :: ps' => (u32 (bufs (Z.to_nat cur)), pk_length p) :: reads ((cur + 1) mod 32) ps' end.

Lemma reads_snoc ps p : ∀ cur, 0 ≤ cur < 32 →
  reads cur (ps ++ [p]) = reads cur ps ++ [(u32 (bufs (Z.to_nat ((cur + Z.of_nat (length ps)) mod 32))), pk_length p)].
Proof.
  induction ps as [|q ps IH]; intros cur Hc; cbn [reads app length].
  - by rewrite Z.add_0_r, Z.mod_small by lia.
  - rewrite IH by (apply Z.mod_pos_bound; lia). rewrite Zplus_mod_idemp_l. by replace (cur + 1 + Z.of_nat (length ps)) with (cur + Z.of_nat (S (length ps))) by lia.
Qed.

(** C21: Receiving.  While the card goes on delivering, at any moment between two accesses of
    the driver (to a register, or to a field of a descriptor), [receivePacket] reads every
    packet that was pending and every packet that came meanwhile, once, in the order of
    their arrival, each from the buffer of its own descriptor; it ends when nothing is pending, and the ring is ready for the card again. *)
Theorem receive_in_order fuel pend s : rx_ready 31 pend s → (length pend + length (u_wire (rxs s)) < fuel)%nat →
  wp (receivePacket fuel) (λ got s', ∃ came, u_wire (rxs s) = came ++ u_wire (rxs s') ∧
    got = reads (rx_cur (n_dev s)) (pend ++ came) ∧ rx_ready 31 [] s') s.
Proof.
  intros Hr Hf. unfold receivePacket. set (cur := rx_cur (n_dev s)). assert (0 ≤ cur < 32) as Hcur by (by destruct Hr as [_ []]).
  apply (wp_loop (λ got s1, ∃ seen rest came, u_wire (rxs s) = came ++ u_wire (rxs s1) ∧ seen ++ rest = pend ++ came ∧ got = reads cur seen ∧
      rx_cur (n_dev s1) = (cur + Z.of_nat (length seen)) mod 32 ∧ rx_ready 31 rest s1)
    (λ got s1, length pend + length (u_wire (rxs s)) - length got)%nat).
  - intros got s1 (seen & rest & came & Ew & Ep & -> & Ec & Hr1).
    assert (∀ ps c, length (reads c ps) = length ps) as Hlen. { induction ps as [|? ? IH]; intros c; cbn [reads length]; [done|by rewrite IH]. }
    apply (wp_receive_body _ rest); [done| |].
    + intros s' -> Ew' Hr'. exists came. rewrite app_nil_r in Ep. rewrite Ep, <-Ew'. by split_and!.
    + intros p rest' came' s' Er Ec' Ew' Hr'. split.
      * exists (seen ++ [p]), rest', (came ++ came'). split_and!; [by rewrite Ew, Ew', app_assoc| | | |done].
        -- rewrite (app_assoc pend), <-Ep, <-!app_assoc. cbn [app]. by rewrite Er.
        -- by rewrite Ec, reads_snoc.
        -- rewrite Ec', Ec, Zplus_mod_idemp_l, length_app. f_equal. simpl. lia.
      * rewrite length_app, !Hlen. simpl. apply (f_equal length) in Ep, Ew, Ew', Er. rewrite length_app in Ew, Ew', Er. rewrite !length_app in Ep. simpl in Er. lia.
  - exists [], pend, []. rewrite app_nil_r. split_and!; [done|done|done|by rewrite Z.add_0_r, Z.mod_small|done].
  - simpl. lia.
Qed.

(** ** The ring is set up while the card is off *)

Lemma deliver_off n u rx : u_on u = false → deliver n (u, rx) = (u, rx).
Proof.
  intros Ho. induction n as [|n IH]; [done|]. change (deliver (S n) (u, rx)) with (deliver1 (deliver n (u, rx))). rewrite IH. unfold deliver1.
  rewrite Ho. by destruct (u_wire u), (rx !! Z.to_nat (u_head u)).
Qed.

(** A register that does not switch the card on. *)
Lemma wp_set_up reg v s (Q : unit → nic → Prop) : bar_type (n_dev s) = 0 → u_on (rxs s) = false →
  (∀ s', rx_desc (n_dev s') = rx_desc (n_dev s) → rxs s' = rx_reg reg (u32 v) (rxs s) → rx_cur (n_dev s') = rx_cur (n_dev s) →
     bar_type (n_dev s') = 0 → Q tt s') → wp (writeCommand reg v) Q s.
Proof.
  intros Hb Ho HQ. apply wp_writeCommand; [done|]. intros s' n u Ed Eu Ec Eb. rewrite deliver_off in Ed by done. injection Ed as <- E2. by apply HQ.
Qed.

(** The descriptors from [0] to [i - 1] are free and have their buffers. *)
Definition cleared (i : Z) (rx : list e1000_rx_desc) : Prop :=
  length rx = 32%nat ∧ ∀ j, 0 ≤ j < i → ∃ x, rx !! Z.to_nat j = Some x ∧ rx_addr x = bufs (Z.to_nat j) ∧ rx_status x = 0.

Lemma cleared_set i rx x : 0 ≤ i < 32 → cleared i rx → rx_addr x = bufs (Z.to_nat i) → rx_status x = 0 → cleared (i + 1) (<[Z.to_nat i := x]> rx).
Proof.
  intros Hi [Hl Hc] Ha Hs. split; [by rewrite length_insert|]. intros j Hj. destruct (decide (j = i)) as [->|Hne].
  - exists x. by rewrite list_lookup_insert_eq by lia.
  - rewrite list_lookup_insert_ne by lia. apply Hc. lia.
Qed.

Ltac set_up s D U C B Ho :=
  apply wp_set_up; [done|by repeat match goal with E : rxs _ = _ |- _ => rewrite E end|]; intros s D U C B.

(** [rx_init]: with the card off, the ring is ready, all of it but one descriptor is the
    card's, and the card is on. *)
Theorem rx_init_ready kvm_vm2pm rx_desc_va rx_buf s : bar_type (n_dev s) = 0 → u_on (rxs s) = false → length (rx_desc (n_dev s)) = 32%nat →
  (∀ j, 0 ≤ j < 32 → bufs (Z.to_nat j) = kvm_vm2pm (rx_buf j)) →
  wp (rx_init kvm_vm2pm rx_desc_va rx_buf) (λ _ s', rx_ready 31 [] s' ∧ rx_cur (n_dev s') = 0 ∧ u_wire (rxs s') = u_wire (rxs s)) s.
Proof.
  intros Hb Ho Hl Hbufs. unfold rx_init. wp_step.
  apply (wp_for_up (λ i s1, cleared i (rx_desc (n_dev s1)) ∧ bar_type (n_dev s1) = 0 ∧ rxs s1 = rxs s)).
  - split_and!; [split; [done|intros; lia]|done|done].
  - intros i s1 Hi (Hc & Hb1 & E1). change (Z.to_nat E1000_NUM_RX_DESC) with 32%nat in Hi. pose proof Hc as [Hl1 _].
    destruct (lookup_lt_is_Some_2 (rx_desc (n_dev s1)) (Z.to_nat i)) as [x Ex]; [lia|].
    wp_step. apply (wp_set_rx _ _ x); [exact Ex|]. apply (wp_set_rx _ _ (put_rx_addr (kvm_vm2pm (rx_buf i)) x)).
    { cbn. by rewrite list_lookup_insert_eq by lia. }
    cbn [n_dev rx_desc put_rx bar_type].
    split_and!; [|done|done]. rewrite list_insert_insert_eq. apply cleared_set; [lia|done|cbn; symmetry; apply Hbufs; lia|done].
  - intros s1 ([Hl1 Hc] & Hb1 & E1). change (0 + Z.of_nat (Z.to_nat E1000_NUM_RX_DESC)) with 32 in Hc. unfold upd. wp_go.
    match goal with |- wp _ _ ?s => set (s1' := s) end. assert (rxs s1' = rxs s) as U1 by exact E1.
    set_up s2 D2 U2 C2 B2 Ho. wp_step. set_up s3 D3 U3 C3 B3 Ho. wp_step. set_up s4 D4 U4 C4 B4 Ho. wp_step. set_up s5 D5 U5 C5 B5 Ho. wp_step.
    set_up s6 D6 U6 C6 B6 Ho. set_up s7 D7 U7 C7 B7 Ho.
    assert (rxs s7 = RxU 0 31 true (u_wire (rxs s))) as U. { rewrite U7, U6, U5, U4, U3, U2, U1. by destruct (rxs s). }
    assert (rx_desc (n_dev s7) = rx_desc (n_dev s1)) as Drx by (by rewrite D7, D6, D5, D4, D3, D2).
    assert (rx_cur (n_dev s7) = 0) as Cur by (by rewrite C7, C6, C5, C4, C3, C2).
    split_and!; [split; [done|]|done|by rewrite U]. rewrite U, Drx, Cur.
    assert (∀ j x, rx_desc (n_dev s1) !! j = Some x → rx_addr x = bufs j ∧ rx_status x = 0) as Hall.
    { intros j x Ex. pose proof (lookup_lt_Some _ _ _ Ex). destruct (Hc (Z.of_nat j) ltac:(lia)) as (y & Ey & ? & ?). rewrite Nat2Z.id in *. by simplify_eq. }
    constructor; try done; [by intros; apply Hall|].
    intros i Hi. destruct (lookup_lt_is_Some_2 (rx_desc (n_dev s1)) (idx 0 i)) as [x Ex]; [rewrite Hl1; apply idx_lt|].
    exists x. split; [done|]. by rewrite (proj2 (Hall _ _ Ex)).
Qed.
End receive.

(** ** A concrete card: two packets arrive while the first one is read *)

(** [tc_plan]: how many packets it tries to deliver at each of its turns. *)
Record test_card := TestCard { tc_rx : rxu; tc_plan : list nat }.
#[export] Instance test_nic : NicCard test_card := {
  card_read _ c := (0, c);
  card_read8 _ c := (0, c);
  card_write r v c := TestCard (rx_reg r v (tc_rx c)) (tc_plan c);
  card_outl _ _ c := c;
  card_inl _ c := (0, c);
  card_run c rx tx :=
    let '(u, rx') := deliver (default 0%nat (head (tc_plan c))) (tc_rx c, rx) in (TestCard u (tail (tc_plan c)), rx', tx) }.
#[export] Instance test_unit : RxUnit test_card.
Proof.
  refine {| rx_abs := tc_rx |}; [done|]. intros c rx tx. exists (default 0%nat (head (tc_plan c))). simpl. by destruct (deliver _ _).
Defined.
#[export] Instance test_bus : PciBus unit := { cfg_get _ _ := 0; cfg_put _ _ b := b }.

Definition len_packet (n : Z) : packet := Packet n 0 0 0.
Definition test_bufs (j : nat) : Z := 0x100000 + 0x2000 * Z.of_nat j.
Definition nic0 : @nic test_card unit :=
  Nic (NetDev true 0 0 0xF0000000 0xF0000000 0x20000 [] (replicate 32 (RxDesc 7 7 0 1 0 0)) [] 5 0 11)
      (TestCard (RxU 9 9 false (len_packet <$> [60; 1500; 342])) [])
      (PciSt tt 0 (PciDev 0 0 0 0 0 0 (PciCfg 0 0 0 0 0 0))) [].

Lemma rx_init_ready_witness :
  wp (rx_init (λ a, a) 0x90000 (λ j, test_bufs (Z.to_nat j))) (λ _ s', rx_ready test_bufs 31 [] s') nic0.
Proof.
  eapply wp_mono; [apply (rx_init_ready test_bufs (λ a, a) 0x90000 (λ j, test_bufs (Z.to_nat j)) nic0); [done|done|done|done]|].
  by intros _ s' (? & _).
Defined.

Definition nic1 : @nic test_card unit :=
  Nic (NetDev true 0 0 0xF0000000 0xF0000000 0x20000 []
        (imap (λ j x, if decide (j = 31%nat) then fill (len_packet 60) x else x) ((λ j, RxDesc (test_bufs j) 0 0 0 0 0) <$> seq 0 32)) [] 31 0 11)
      (TestCard (RxU 0 30 true (len_packet <$> [1500; 342])) [2%nat]) (PciSt tt 0 (PciDev 0 0 0 0 0 0 (PciCfg 0 0 0 0 0 0))) [].

(** Every descriptor of [nic1] but the last one is free. *)
Definition nic1_slots : bool :=
  forallb (λ j, match rx_desc (n_dev nic1) !! j with
                | Some x => (rx_addr x =? test_bufs j) && (Z.land (rx_status x) 1 =? (if decide (j = 31%nat) then 1 else 0)) | None => false end) (seq 0 32).

Lemma nic1_slot j : (j < 32)%nat → ∃ x, rx_desc (n_dev nic1) !! j = Some x ∧ rx_addr x = test_bufs j ∧
  Z.land (rx_status x) 1 = if decide (j = 31%nat) then 1 else 0.
Proof.
  intros Hj. assert (nic1_slots = true) as Hs by (vm_compute; reflexivity). unfold nic1_slots in Hs. rewrite forallb_forall in Hs.
  specialize (Hs j ltac:(apply in_seq; lia)). destruct (_ !! j) as [x|]; [|done]. exists x. apply andb_prop in Hs as [H1 H2]. split_and!; [done|lia|lia].
Qed.

Lemma nic1_ready : rx_ready test_bufs 31 [len_packet 60] nic1.
Proof.
  split; [done|]. constructor; try done.
  - intros j x Ex. pose proof (lookup_lt_Some _ _ _ Ex) as Hj. change (length (rx_desc (n_dev nic1))) with 32%nat in Hj.
    destruct (nic1_slot j Hj) as (y & Ey & ? & _). congruence.
  - intros [|i] p [= <-]. eexists. split; [vm_compute; reflexivity|]. by split.
  - intros i Hi. change (rx_cur (n_dev nic1)) with 31. destruct (nic1_slot (idx 31 i) (idx_lt _ _)) as (x & Ex & _ & Hx). exists x. split; [done|].
    rewrite Hx. case_decide as E; [|done]. exfalso. change 31%nat with (idx 31 0) in E. simpl in Hi. by apply (idx_ne 31 i 0) in E; [|lia..].
Qed.

Lemma receive_in_order_witness :
  wp (receivePacket 5) (λ got s', ∃ came, u_wire (rxs nic1) = came ++ u_wire (rxs s') ∧
    got = reads test_bufs 31 ([len_packet 60] ++ came) ∧ rx_ready test_bufs 31 [] s') nic1
  ∧ fmap fst (match receivePacket 5 nic1 with Ok (got, _) => Some (got, tt) | Err _ => None end) =
    Some [(0x13E000, 60); (0x100000, 1500); (0x102000, 342)].
Proof. split; [|vm_compute; reflexivity]. apply (receive_in_order test_bufs 5 [len_packet 60] nic1); [exact nic1_ready|vm_compute; lia]. Defined.
