(* ===== verification/Ide.v ===== *)
(** * The IDE disk at its ports (drivers/ide.c)

    The driver talks to the drive through registers and a data port.  The drive is a
    parameter: [AtaPorts] are its ports, [AtaDrive] is what the ATA specification says of it.
    A drive that is not busy keeps what is written to its registers and executes a command on
    the sectors they name; READ and WRITE MULTIPLE need a block size set before; the drive may
    be busy for some time after a command.  Nothing is assumed of the registers and the data
    port of a busy drive: the value of the error register that [ide_send_cmd] reads right
    after a command, and what becomes of data sent then, are whatever the drive makes of it.

    [Writeback] sees the disk as blocks of eight sectors: the theorems say when what
    [ide_start] and [ide_isr] do at the ports is to write and to read such a block. *)

From S2P Require Import Prelude QLib DList Locks Page Writeback.
From Stdlib Require Import ZArith Lia.
From stdpp Require Import base numbers gmap list.
Open Scope Z_scope.

#[local] Arguments Z.mul : simpl never.
#[local] Arguments Z.add : simpl never.
#[local] Arguments Z.to_nat : simpl never.
#[local] Arguments Z.land : simpl never.
#[local] Arguments Z.shiftr : simpl never.

Definition IDE_IO_BASE : Z := 0x1F0.
Definition IDE_CTR_BASE : Z := 0x3F6.
Definition IDE_DAT : Z := IDE_IO_BASE + 0.
Definition IDE_ERR : Z := IDE_IO_BASE + 1.
Definition IDE_COUNT : Z := IDE_IO_BASE + 2.
Definition IDE_NUM : Z := IDE_IO_BASE + 3.
Definition IDE_CYL_L : Z := IDE_IO_BASE + 4.
Definition IDE_CYL_H : Z := IDE_IO_BASE + 5.
Definition IDE_DH : Z := IDE_IO_BASE + 6.
Definition IDE_STAT : Z := IDE_IO_BASE + 7.
Definition IDE_CMD : Z := IDE_IO_BASE + 7.
Definition IDE_ALT_STAT : Z := IDE_CTR_BASE + 0.
Definition IDE_CTR : Z := IDE_CTR_BASE + 0.
Definition CMD_READ_MULTIPLE : Z := 0xC4.
Definition CMD_WRITE_MULTIPLE : Z := 0xC5.
Definition CMD_IDENTIFY : Z := 0xEC.
Definition CMD_MULTIPLE_MODE : Z := 0xc6.
Definition LBA_DRIVE0 : Z := 0xE0.
Definition IDE_STAT_ERR : Z := 1.
Definition IDE_STAT_DF : Z := Z.shiftl 1 5.
Definition IDE_STAT_BSY : Z := Z.shiftl 1 7.

Record ide_device := IdeDevice { dma : bool; lba48 : bool; dev_size : Z }.

Class AtaPorts (D : Type) := {
  ata_outb : Z → Z → D → D;
  ata_inb : Z → D → Z * D;
  ata_outsw : list Z → D → D;              (* rep outsw at IDE_DAT *)
  ata_insw : nat → D → list Z * D          (* rep insw at IDE_DAT *) }.

(** ** The driver *)

Section ide.
Context {D : Type} `{AtaPorts D}.

(** [i_bufs]: the sector and the data, in 16-bit words, of a page of the cache. *)
Record ide := Ide { i_drive : D; i_dev : ide_device; i_bufs : gmap Z (Z * list Z) }.

Definition outb (port v : Z) : M ide unit := modify (λ s, Ide (ata_outb port (u8 v) (i_drive s)) (i_dev s) (i_bufs s)).
Definition inb (port : Z) : M ide Z := λ s,
  let '(v, d) := ata_inb port (i_drive s) in Ok (u8 v, Ide d (i_dev s) (i_bufs s)).
Definition insw (n : Z) : M ide (list Z) := λ s,
  let '(ws, d) := ata_insw (Z.to_nat n) (i_drive s) in Ok (ws, Ide d (i_dev s) (i_bufs s)).
Definition outsw (ws : list Z) : M ide unit := modify (λ s, Ide (ata_outsw ws (i_drive s)) (i_dev s) (i_bufs s)).

Definition read_sector (size : Z) : M ide (list Z) := insw (size * SECTOR_SIZE / 2).
Definition write_sector (b : list Z) (size : Z) : M ide unit := outsw (take (Z.to_nat (size * SECTOR_SIZE / 2)) b).

Definition ide_send_cmd (cmd : Z) : M ide unit := outb IDE_CMD cmd;; e ← inb IDE_ERR; assertk (e =? 0).

(** [while ((r = inb(IDE_STAT)) & IDE_STAT_BSY);] *)
Fixpoint busy_loop (fuel : nat) : M ide Z :=
  match fuel with
  | O => fail Fuel
  | S fuel => r ← inb IDE_STAT; if truth (Z.land r IDE_STAT_BSY) then busy_loop fuel else mret r
  end.
Definition ide_wait (fuel : nat) (check_error : bool) : M ide Z :=
  r ← busy_loop fuel;
  if check_error && negb (Z.land r (Z.lor IDE_STAT_DF IDE_STAT_ERR) =? 0) then mret (-1) else mret 0.

Definition id_word (ws : list Z) (i : nat) : M ide Z := deref (ws !! i).

Definition ide_init (fuel : nat) : M ide unit :=
  r ← ide_wait fuel false;
  assertk (r =? 0);;
  outb IDE_DH LBA_DRIVE0;;
  ide_send_cmd CMD_IDENTIFY;;
  a ← inb IDE_ALT_STAT;
  assertk (negb (a =? 0));;
  r ← ide_wait fuel true;
  assertk (r =? 0);;
  buffer ← read_sector 1;
  b83 ← id_word buffer 83;
  b60 ← id_word buffer 60;
  b61 ← id_word buffer 61;
  modify (λ s, Ide (i_drive s) (IdeDevice (dma (i_dev s)) (truth (Z.land b83 (Z.shiftl 1 10))) (Z.lor b60 (u32 (Z.shiftl b61 16)))) (i_bufs s));;
  outb IDE_COUNT 8;;
  ide_send_cmd CMD_MULTIPLE_MODE;;
  outb IDE_CTR 0.

Definition rd_buf (buf : Z) : M ide (Z * list Z) := s ← get; deref (i_bufs s !! buf).

Definition ide_isr (buf : Z) (write : bool) : M ide unit :=
  when (negb write)
    (ws ← read_sector 8;
     '(no, _) ← rd_buf buf;
     modify (λ s, Ide (i_drive s) (i_dev s) (<[buf := (no, ws)]> (i_bufs s)))).

Definition ide_driver_init (fuel : nat) (buf secs_cnt : Z) : M ide unit :=
  '(no_sec, _) ← rd_buf buf;
  r ← ide_wait fuel false;
  assertk (r =? 0);;
  outb IDE_DH (Z.lor LBA_DRIVE0 (Z.land (Z.shiftr no_sec 24) (MASK_U8 4)));;
  outb IDE_COUNT secs_cnt;;
  outb IDE_NUM (Z.land no_sec (MASK_U8 8));;
  outb IDE_CYL_L (Z.land (Z.shiftr no_sec 8) (MASK_U8 8));;
  outb IDE_CYL_H (Z.land (Z.shiftr no_sec 16) (MASK_U8 8)).

Definition ide_start (fuel : nat) (buf : Z) (write : bool) : M ide unit :=
  ide_driver_init fuel buf 8;;
  (if write then
     ide_send_cmd CMD_WRITE_MULTIPLE;;
     '(_, data) ← rd_buf buf;
     write_sector data 8
   else ide_send_cmd CMD_READ_MULTIPLE);;
  outb IDE_CTR 0.
End ide.

(** ** The drive *)

(** The registers, the block size of the MULTIPLE commands, the words that are ready to be
    read, the transfer that waits for data, what IDENTIFY answers, and the sectors. *)
Record ata := Ata {
  at_dh : Z; at_count : Z; at_num : Z; at_cl : Z; at_ch : Z; at_err : Z; at_multi : Z;
  at_out : list Z; at_want : option (Z * Z); at_id : list Z; at_secs : gmap Z (list Z) }.

Definition at_lba (a : ata) : Z := Z.land (at_dh a) 0xF * 2 ^ 24 + at_ch a * 2 ^ 16 + at_cl a * 2 ^ 8 + at_num a.

Fixpoint read_secs (n : nat) (lba : Z) (secs : gmap Z (list Z)) : option (list Z) :=
  match n with O => Some [] | S n' => w ← secs !! lba; ws ← read_secs n' (lba + 1) secs; Some (w ++ ws) end.
Fixpoint write_secs (n : nat) (lba : Z) (ws : list Z) (secs : gmap Z (list Z)) : gmap Z (list Z) :=
  match n with O => secs | S n' => write_secs n' (lba + 1) (drop 256 ws) (<[lba := take 256 ws]> secs) end.

Definition set_err e out want a := Ata (at_dh a) (at_count a) (at_num a) (at_cl a) (at_ch a) e (at_multi a) out want (at_id a) (at_secs a).
Definition set_multi (a : ata) := Ata (at_dh a) (at_count a) (at_num a) (at_cl a) (at_ch a) 0 (at_count a) [] None (at_id a) (at_secs a).

(** The block sizes that SET MULTIPLE takes: powers of two up to the one in word 47. *)
Definition multi_ok (a : ata) : bool :=
  bool_decide (at_count a ∈ [1; 2; 4; 8; 16; 32; 64; 128]) &&
  match at_id a !! 47%nat with Some w => at_count a <=? Z.land w 0xff | None => false end.

(** The effect of a command; [None] where nothing is said: other commands, block sizes that
    the drive need not have, transfers of more than one block.  Without a block size the
    MULTIPLE commands are aborted, and sectors that do not exist are not found. *)
Definition ata_cmd (v : Z) (a : ata) : option ata :=
  if v =? CMD_IDENTIFY then Some (set_err 0 (at_id a) None a)
  else if v =? CMD_MULTIPLE_MODE then if multi_ok a then Some (set_multi a) else None
  else if (v =? CMD_READ_MULTIPLE) || (v =? CMD_WRITE_MULTIPLE) then
    if at_multi a =? 0 then Some (set_err 4 [] None a)
    else if (at_count a =? 0) || (at_multi a <? at_count a) then None
    else match read_secs (Z.to_nat (at_count a)) (at_lba a) (at_secs a) with
    | None => Some (set_err 16 [] None a)
    | Some ws => Some (if v =? CMD_READ_MULTIPLE then set_err 0 ws None a else set_err 0 [] (Some (at_lba a, at_count a)) a)
    end
  else None.
Definition ata_reg (port v : Z) (a : ata) : option ata :=
  let '(Ata dh n lo cl ch e m o w i s) := a in
  if port =? IDE_DH then Some (Ata v n lo cl ch e m o w i s)
  else if port =? IDE_COUNT then Some (Ata dh v lo cl ch e m o w i s)
  else if port =? IDE_NUM then Some (Ata dh n v cl ch e m o w i s)
  else if port =? IDE_CYL_L then Some (Ata dh n lo v ch e m o w i s)
  else if port =? IDE_CYL_H then Some (Ata dh n lo cl v e m o w i s)
  else if port =? IDE_CMD then ata_cmd v a
  else None.
(** The data of the whole transfer. *)
Definition ata_take (ws : list Z) (a : ata) : option ata :=
  match at_want a with
  | Some (lba, n) =>
      if bool_decide (length ws = 256 * Z.to_nat n)%nat then
        Some (Ata (at_dh a) (at_count a) (at_num a) (at_cl a) (at_ch a) (at_err a) (at_multi a) (at_out a) None (at_id a)
          (write_secs (Z.to_nat n) lba ws (at_secs a)))
      else None
  | None => None
  end.
Definition ata_give (n : nat) (a : ata) : ata := set_err (at_err a) (drop n (at_out a)) (at_want a) a.

(** [ata_busy]: how many more times the status will say busy.  The device control register
    holds the interrupt enable bit, which is no part of [ata]. *)
Class AtaDrive (D : Type) `{AtaPorts D} := {
  ata_abs : D → ata;
  ata_busy : D → nat;
  abs_outb : ∀ p v d a, ata_busy d = O → ata_reg p v (ata_abs d) = Some a → ata_abs (ata_outb p v d) = a;
  busy_outb : ∀ p v d, p ≠ IDE_CMD → p ≠ IDE_CTR → ata_busy d = O → ata_busy (ata_outb p v d) = O;
  abs_ctr : ∀ d, ata_abs (ata_outb IDE_CTR 0 d) = ata_abs d;
  abs_inb : ∀ p d, p ≠ IDE_DAT → ata_abs (ata_inb p d).2 = ata_abs d;
  busy_inb : ∀ p d, (ata_busy (ata_inb p d).2 ≤ ata_busy d)%nat;
  inb_err : ∀ d, ata_busy d = O → (ata_inb IDE_ERR d).1 = at_err (ata_abs d);
  inb_alt : ∀ d, u8 (ata_inb IDE_ALT_STAT d).1 ≠ 0;
  inb_stat : ∀ d, let '(r, d') := ata_inb IDE_STAT d in
    match ata_busy d with
    | S n => Z.land (u8 r) IDE_STAT_BSY ≠ 0 ∧ ata_busy d' = n
    | O => Z.land (u8 r) IDE_STAT_BSY = 0 ∧ ata_busy d' = O ∧
           (Z.land (u8 r) (Z.lor IDE_STAT_DF IDE_STAT_ERR) = 0 ↔ at_err (ata_abs d) = 0)
    end;
  abs_outsw : ∀ ws d a, ata_busy d = O → ata_take ws (ata_abs d) = Some a → ata_abs (ata_outsw ws d) = a;
  abs_insw : ∀ n d, ata_busy d = O → n = length (at_out (ata_abs d)) →
    (ata_insw n d).1 = at_out (ata_abs d) ∧ ata_abs (ata_insw n d).2 = ata_give n (ata_abs d) ∧ ata_busy (ata_insw n d).2 = O }.

(** ** Accesses *)

Section driver.
Context {D : Type} `{AtaPorts D} `{!AtaDrive D}.
Implicit Types s : @ide D.

Abbreviation absd s := (ata_abs (i_drive s)).
Abbreviation busyd s := (ata_busy (i_drive s)).
Abbreviation with_drive d s := (Ide d (i_dev s) (i_bufs s)).

(** The drive after the driver has waited for it, after it has got its registers, and after
    a command. *)
Fixpoint settle (n : nat) (d : D) : D := let d' := (ata_inb IDE_STAT d).2 in match n with O => d' | S n => settle n d' end.
Definition addressed (no cnt : Z) (d : D) : D :=
  ata_outb IDE_CYL_H (u8 (Z.land (Z.shiftr no 16) (MASK_U8 8))) (ata_outb IDE_CYL_L (u8 (Z.land (Z.shiftr no 8) (MASK_U8 8)))
    (ata_outb IDE_NUM (u8 (Z.land no (MASK_U8 8))) (ata_outb IDE_COUNT (u8 cnt)
      (ata_outb IDE_DH (u8 (Z.lor LBA_DRIVE0 (Z.land (Z.shiftr no 24) (MASK_U8 4)))) d)))).
Definition commanded (cmd no : Z) (d : D) : D := ata_outb IDE_CMD (u8 cmd) (addressed no 8 (settle (ata_busy d) d)).
(** What it then answers for the error register, and the drive behind that. *)
Definition early_error (d : D) : Z := u8 (ata_inb IDE_ERR d).1.
Definition after_error (d : D) : D := (ata_inb IDE_ERR d).2.

Lemma wp_ide_inb p s (Q : Z → ide → Prop) : Q (u8 (ata_inb p (i_drive s)).1) (with_drive (ata_inb p (i_drive s)).2 s) → wp (inb p) Q s.
Proof. intros HQ. unfold inb, wp. by destruct (ata_inb p (i_drive s)). Qed.

Lemma settle_abs n : ∀ d, ata_busy d = n → ata_abs (settle n d) = ata_abs d ∧ ata_busy (settle n d) = O.
Proof.
  induction n as [|n IH]; intros d Hb; cbn [settle]; pose proof (inb_stat d) as Hs; pose proof (abs_inb IDE_STAT d ltac:(done)) as Ha; rewrite Hb in Hs;
    destruct (ata_inb IDE_STAT d) as [r d']; cbn [fst snd] in *; [by destruct Hs as (_ & ? & _)|].
  destruct Hs as [_ Hs]. destruct (IH d' Hs) as [-> ->]. by rewrite Ha.
Qed.

Lemma wp_busy_loop n : ∀ fuel s (Q : Z → ide → Prop), busyd s = n → (n < fuel)%nat →
  (∀ r, (Z.land r (Z.lor IDE_STAT_DF IDE_STAT_ERR) = 0 ↔ at_err (absd s) = 0) → Q r (with_drive (settle n (i_drive s)) s)) → wp (busy_loop fuel) Q s.
Proof.
  induction n as [|n IH]; intros fuel s Q Hb Hf HQ; (destruct fuel as [|fuel]; [lia|]); cbn [busy_loop settle] in *; wp_step; apply wp_ide_inb;
    pose proof (inb_stat (i_drive s)) as Hs; pose proof (abs_inb IDE_STAT (i_drive s) ltac:(done)) as Ha; rewrite Hb in Hs;
    destruct (ata_inb IDE_STAT (i_drive s)) as [r d'] eqn:E; cbn [fst snd] in *.
  - destruct Hs as (Hz & _ & He). rewrite (proj2 (truth_false _) Hz). wp_step. by apply HQ.
  - destruct Hs as (Hz & Hd). rewrite (proj2 (truth_true _) Hz). apply IH; [done|lia|]. cbn [i_drive i_dev i_bufs]. intros r2 H2. rewrite Ha in H2. by apply HQ.
Qed.

(** The driver waits until the drive is not busy; a check answers -1 exactly when the last
    command failed. *)
Lemma wp_ide_wait fuel chk s (Q : Z → ide → Prop) : (busyd s < fuel)%nat →
  Q (if chk && negb (at_err (absd s) =? 0) then -1 else 0) (with_drive (settle (busyd s) (i_drive s)) s) → wp (ide_wait fuel chk) Q s.
Proof.
  intros Hf HQ. unfold ide_wait. wp_step. eapply wp_busy_loop; [reflexivity|done|]. intros r He.
  assert ((Z.land r (Z.lor IDE_STAT_DF IDE_STAT_ERR) =? 0) = (at_err (absd s) =? 0)) as ->.
  { destruct (Z.eqb_spec (Z.land r (Z.lor IDE_STAT_DF IDE_STAT_ERR)) 0), (Z.eqb_spec (at_err (absd s)) 0); tauto. }
  destruct (_ && _); by wp_step.
Qed.

(** A command goes on exactly when the error register reads 0. *)
Lemma wp_send_cmd cmd s (Q : unit → ide → Prop) : let d := ata_outb IDE_CMD (u8 cmd) (i_drive s) in
  early_error d = 0 → Q tt (with_drive (after_error d) s) → wp (ide_send_cmd cmd) Q s.
Proof. intros d He HQ. unfold ide_send_cmd, outb. wp_step. wp_step. wp_step. apply wp_ide_inb. cbn [i_drive i_dev i_bufs]. apply wp_assertk. split; [by apply Z.eqb_eq|exact HQ]. Qed.
Lemma send_cmd_err cmd s : early_error (ata_outb IDE_CMD (u8 cmd) (i_drive s)) ≠ 0 → ide_send_cmd cmd s = Err Assert.
Proof.
  intros He. unfold ide_send_cmd, outb. rewrite (bind_Ok _ _ _ _ _ eq_refl). unfold early_error in He. unfold mbind, M_bind, inb, assertk. cbn [i_drive].
  destruct (ata_inb IDE_ERR _) as [v d]. cbn [fst] in He. by rewrite (proj2 (Z.eqb_neq _ _) He).
Qed.

Lemma wp_ide_buf buf x s (Q : Z * list Z → ide → Prop) : i_bufs s !! buf = Some x → Q x s → wp (rd_buf buf) Q s.
Proof. intros E HQ. unfold rd_buf. by wp_go. Qed.

Lemma driver_init_ok fuel buf cnt no data s : (busyd s < fuel)%nat → i_bufs s !! buf = Some (no, data) →
  ide_driver_init fuel buf cnt s = Ok (tt, with_drive (addressed no cnt (settle (busyd s) (i_drive s))) s).
Proof.
  intros Hf Eb. assert (wp (ide_driver_init fuel buf cnt) (λ _ s', s' = with_drive (addressed no cnt (settle (busyd s) (i_drive s))) s) s) as Hw.
  { unfold ide_driver_init. wp_step. eapply wp_ide_buf; [exact Eb|]. cbv beta iota. wp_step. apply wp_ide_wait; [done|]. wp_step. apply wp_assertk. split; [done|].
    unfold outb. by wp_go. }
  apply wp_elim in Hw as ([] & s' & E & ->). done.
Qed.

(** The registers name the sectors of the page. *)
Lemma addressed_abs no cnt d : ata_busy d = O → 0 ≤ cnt < 256 → let d' := addressed no cnt d in
  ata_busy d' = O ∧ at_lba (ata_abs d') = Writeback.ide_driver_init no ∧ at_count (ata_abs d') = cnt ∧ at_multi (ata_abs d') = at_multi (ata_abs d) ∧
  at_secs (ata_abs d') = at_secs (ata_abs d) ∧ at_id (ata_abs d') = at_id (ata_abs d).
Proof.
  intros Hb Hc d'. assert (∀ p v d a, p ≠ IDE_CMD ∧ p ≠ IDE_CTR → ata_busy d = O → ata_reg p v (ata_abs d) = Some a → ata_busy (ata_outb p v d) = O ∧ ata_abs (ata_outb p v d) = a) as Hw.
  { intros p v e a [Hp Hq] Be Ea. split; [by apply busy_outb|by apply abs_outb]. }
  destruct (ata_abs d) as [dh n lo cl ch e m o w i sc] eqn:E. unfold d', addressed.
  pose proof (λ p v d Hp B a, Hw p v d a Hp B) as Hw'.
  destruct (Hw' IDE_DH (u8 (Z.lor LBA_DRIVE0 (Z.land (Z.shiftr no 24) (MASK_U8 4)))) d ltac:(done) Hb _ ltac:(rewrite E; reflexivity)) as [B1 A1].
  destruct (Hw' IDE_COUNT (u8 cnt) _ ltac:(done) B1 _ ltac:(rewrite A1; reflexivity)) as [B2 A2].
  destruct (Hw' IDE_NUM (u8 (Z.land no (MASK_U8 8))) _ ltac:(done) B2 _ ltac:(rewrite A2; reflexivity)) as [B3 A3].
  destruct (Hw' IDE_CYL_L (u8 (Z.land (Z.shiftr no 8) (MASK_U8 8))) _ ltac:(done) B3 _ ltac:(rewrite A3; reflexivity)) as [B4 A4].
  destruct (Hw' IDE_CYL_H (u8 (Z.land (Z.shiftr no 16) (MASK_U8 8))) _ ltac:(done) B4 _ ltac:(rewrite A4; reflexivity)) as [B5 A5].
  split; [exact B5|]. rewrite A5. cbn [at_count at_multi at_secs at_id]. rewrite (u8_small cnt) by lia. by split_and!.
Qed.

(** ** Blocks of eight sectors *)

Lemma write_secs_out n : ∀ lba ws secs x, x < lba ∨ lba + Z.of_nat n ≤ x → write_secs n lba ws secs !! x = secs !! x.
Proof.
  induction n as [|n IH]; intros lba ws secs x Hx; cbn [write_secs]; [done|]. rewrite IH by lia. by rewrite lookup_insert_ne by lia.
Qed.

Lemma read_write_secs n : ∀ lba ws secs, length ws = (256 * n)%nat → read_secs n lba (write_secs n lba ws secs) = Some ws.
Proof.
  induction n as [|n IH]; intros lba ws secs Hl; cbn [write_secs read_secs].
  - by destruct ws.
  - rewrite write_secs_out, lookup_insert_eq by lia. cbn [mbind option_bind]. rewrite IH by (rewrite length_drop; lia). cbn. by rewrite take_drop.
Qed.

(** The state of the drive behind a command for the eight sectors of a page. *)
Lemma commanded_abs cmd no s ws a : read_secs 8 (Writeback.ide_driver_init no) (at_secs (absd s)) = Some ws → at_multi (absd s) = 8 →
  u8 cmd = CMD_READ_MULTIPLE ∧ a = (λ a, set_err 0 ws None a) ∨ u8 cmd = CMD_WRITE_MULTIPLE ∧ a = (λ a, set_err 0 [] (Some (at_lba a, at_count a)) a) →
  let d := addressed no 8 (settle (busyd s) (i_drive s)) in
  ata_abs (commanded cmd no (i_drive s)) = a (ata_abs d) ∧ at_lba (ata_abs d) = Writeback.ide_driver_init no ∧ at_count (ata_abs d) = 8 ∧ at_secs (ata_abs d) = at_secs (absd s).
Proof.
  intros Hr Hm Hc d. destruct (settle_abs (busyd s) (i_drive s) eq_refl) as [Ea Eb].
  destruct (addressed_abs no 8 (settle (busyd s) (i_drive s)) Eb ltac:(lia)) as (Bd & El & En & Em & Es & _). fold d in Bd, El, En, Em, Es. rewrite Ea in Em, Es.
  split_and!; [|done..]. unfold commanded. fold d. apply abs_outb; [done|]. revert Bd El En Em Es. generalize d. clear d. intros d Bd El En Em Es.
  replace (ata_reg IDE_CMD (u8 cmd) (ata_abs d)) with (ata_cmd (u8 cmd) (ata_abs d)) by (by destruct (ata_abs d)).
  unfold ata_cmd. destruct Hc as [[-> ->]|[-> ->]]; cbn -[read_secs at_lba]; rewrite Em, Hm, En, El, Es; cbn -[read_secs at_lba Writeback.ide_driver_init];
    change (Z.to_nat 8) with 8%nat; rewrite Hr; done.
Qed.

Lemma ide_start_refused fuel buf no data s w : (busyd s < fuel)%nat → i_bufs s !! buf = Some (no, data) →
  early_error (commanded (if w : bool then CMD_WRITE_MULTIPLE else CMD_READ_MULTIPLE) no (i_drive s)) ≠ 0 → ide_start fuel buf w s = Err Assert.
Proof.
  intros Hf Eb He. unfold ide_start. rewrite (bind_Ok _ _ _ _ _ (driver_init_ok fuel buf 8 no data s Hf Eb)).
  destruct w; [apply bind_Err, bind_Err|apply bind_Err]; by apply send_cmd_err.
Qed.

(** C20: A page is read.  On a drive with a block size of eight sectors, [ide_start] ends when
    the error register reads 0 right after the command, and panics otherwise; no sector
    changes.  When the interrupt comes and the drive is not busy any more, [ide_isr] leaves
    the words of the eight sectors of the page in its buffer. *)
Theorem ide_read_block fuel buf no data s ws : (busyd s < fuel)%nat → i_bufs s !! buf = Some (no, data) → at_multi (absd s) = 8 →
  read_secs 8 (Writeback.ide_driver_init no) (at_secs (absd s)) = Some ws → length ws = 2048%nat →
  (early_error (commanded CMD_READ_MULTIPLE no (i_drive s)) = 0 →
   wp (ide_start fuel buf false) (λ _ s1, at_secs (absd s1) = at_secs (absd s) ∧ ∀ d, ata_abs d = absd s1 → ata_busy d = O →
     wp (ide_isr buf false) (λ _ s2, i_bufs s2 = <[buf := (no, ws)]> (i_bufs s) ∧ at_secs (absd s2) = at_secs (absd s)) (with_drive d s1)) s) ∧
  (early_error (commanded CMD_READ_MULTIPLE no (i_drive s)) ≠ 0 → ide_start fuel buf false s = Err Assert).
Proof.
  intros Hf Eb Hm Hr Hl. split; [intros He|intros He; by eapply (ide_start_refused _ _ _ _ _ false)].
  destruct (commanded_abs CMD_READ_MULTIPLE no s ws _ Hr Hm ltac:(by left)) as (Ea & _ & _ & Es).
  unfold ide_start. wp_step. eapply wp_intro; [by eapply driver_init_ok|]. wp_step. apply wp_send_cmd; [exact He|]. unfold outb. wp_step. cbn [i_drive i_dev i_bufs].
  fold (commanded CMD_READ_MULTIPLE no (i_drive s)). unfold after_error. change (u8 0) with 0. rewrite abs_ctr, abs_inb, Ea by done. split; [exact Es|].
  intros d3 E3 B3. unfold ide_isr. wp_step. cbn [negb]. wp_step. unfold read_sector, insw, wp. cbn [i_drive]. change (Z.to_nat (8 * SECTOR_SIZE / 2)) with 2048%nat.
  destruct (abs_insw 2048 d3 B3) as (Hw & Ha & _); [by rewrite E3|]. destruct (ata_insw 2048 d3) as [ws' d4]. cbn [fst snd] in *. rewrite E3 in Hw. cbn in Hw. subst ws'.
  unfold rd_buf, mbind, M_bind, get, deref. cbn [i_bufs]. rewrite Eb. cbn. split; [done|]. rewrite Ha, E3. exact Es.
Qed.

(** A page is written: the data are sent right after the command.  If the drive is not busy at
    that moment, the eight sectors of the page hold its words afterwards, and no other sector
    changed. *)
Theorem ide_write_block fuel buf no data s ws : (busyd s < fuel)%nat → i_bufs s !! buf = Some (no, data) → at_multi (absd s) = 8 → length data = 2048%nat →
  read_secs 8 (Writeback.ide_driver_init no) (at_secs (absd s)) = Some ws → let d := commanded CMD_WRITE_MULTIPLE no (i_drive s) in
  early_error d = 0 → ata_busy d = O →
  wp (ide_start fuel buf true) (λ _ s', i_bufs s' = i_bufs s ∧ read_secs 8 (Writeback.ide_driver_init no) (at_secs (absd s')) = Some data ∧
    ∀ x, x < Writeback.ide_driver_init no ∨ Writeback.ide_driver_init no + 8 ≤ x → at_secs (absd s') !! x = at_secs (absd s) !! x) s.
Proof.
  intros Hf Eb Hm Hl Hr d He Hq. destruct (commanded_abs CMD_WRITE_MULTIPLE no s ws _ Hr Hm ltac:(by right)) as (Ea & El & En & Es). fold d in Ea.
  unfold ide_start. wp_step. eapply wp_intro; [by eapply driver_init_ok|]. wp_step. wp_step. apply wp_send_cmd; [exact He|]. wp_step. fold (commanded CMD_WRITE_MULTIPLE no (i_drive s)). fold d.
  eapply wp_ide_buf; [exact Eb|]. cbv beta iota. unfold write_sector, outsw, outb. wp_go. change (Z.to_nat (8 * SECTOR_SIZE / 2)) with 2048%nat. rewrite take_ge by lia. cbn [i_drive i_dev i_bufs].
  change (u8 0) with 0. rewrite abs_ctr. erewrite (abs_outsw data (after_error d)); [|unfold after_error; pose proof (busy_inb IDE_ERR d); lia|].
  2: { unfold after_error. rewrite abs_inb, Ea by done. unfold ata_take. cbn [at_want set_err]. rewrite En. change (Z.to_nat 8) with 8%nat. rewrite bool_decide_true by done. reflexivity. }
  cbn [at_secs set_err]. rewrite El, Es. split_and!; [done|by apply read_write_secs|]. intros x Hx. by apply write_secs_out.
Qed.

Lemma wp_word ws i x s (Q : Z → ide → Prop) : ws !! i = Some x → Q x s → wp (id_word ws i) Q s.
Proof. intros E HQ. unfold id_word. by wp_go. Qed.

(** The drive behind [ide_init]'s IDENTIFY, and behind the words it read. *)
Definition identified (d : D) : D := ata_outb IDE_CMD CMD_IDENTIFY (ata_outb IDE_DH LBA_DRIVE0 (settle (ata_busy d) d)).
Definition informed (d : D) : D := let d' := (ata_inb IDE_ALT_STAT (after_error (identified d))).2 in (ata_insw 256 (settle (ata_busy d') d')).2.
Definition blocked (d : D) : D := ata_outb IDE_CMD CMD_MULTIPLE_MODE (ata_outb IDE_COUNT 8 (informed d)).

Lemma identified_abs d : ata_abs (identified d) = set_err 0 (at_id (ata_abs d)) None (ata_abs (ata_outb IDE_DH LBA_DRIVE0 (settle (ata_busy d) d))) ∧
  at_secs (ata_abs (identified d)) = at_secs (ata_abs d) ∧ at_id (ata_abs (identified d)) = at_id (ata_abs d).
Proof.
  destruct (settle_abs (ata_busy d) d eq_refl) as [Ea Eb]. unfold identified. set (d1 := settle (ata_busy d) d) in *.
  pose proof (λ a, abs_outb IDE_DH LBA_DRIVE0 d1 a Eb) as E1. destruct (ata_abs d1) as [dh n lo cl ch e m o w i sc] eqn:Ed. specialize (E1 _ eq_refl).
  assert (ata_abs (ata_outb IDE_CMD CMD_IDENTIFY (ata_outb IDE_DH LBA_DRIVE0 d1)) = Ata LBA_DRIVE0 n lo cl ch 0 m i None i sc) as E2.
  { apply abs_outb; [by apply busy_outb|by rewrite E1]. }
  rewrite E2, E1, <-Ea. done.
Qed.

Lemma informed_abs d : length (at_id (ata_abs d)) = 256%nat → let d' := (ata_inb IDE_ALT_STAT (after_error (identified d))).2 in
  at_err (ata_abs d') = 0 ∧ (ata_insw 256 (settle (ata_busy d') d')).1 = at_id (ata_abs d) ∧ ata_busy (informed d) = O ∧
  at_secs (ata_abs (informed d)) = at_secs (ata_abs d) ∧ at_id (ata_abs (informed d)) = at_id (ata_abs d).
Proof.
  intros Hl d'. destruct (identified_abs d) as (E & Es & Ei).
  assert (ata_abs d' = ata_abs (identified d)) as Ed by (unfold d', after_error; by rewrite !abs_inb).
  destruct (settle_abs (ata_busy d') d' eq_refl) as [Ea Eb]. rewrite Ed in Ea.
  destruct (abs_insw 256 (settle (ata_busy d') d') Eb) as (Hw & Ha & Hb); [by rewrite Ea, E|]. unfold informed. fold d'.
  split_and!; [by rewrite Ed, E|by rewrite Hw, Ea, E|exact Hb|rewrite Ha, Ea; exact Es|rewrite Ha, Ea; exact Ei].
Qed.

(** SET MULTIPLE gives the block size of eight sectors, where the drive can have it. *)
Lemma blocked_abs d w47 : length (at_id (ata_abs d)) = 256%nat → at_id (ata_abs d) !! 47%nat = Some w47 → 8 ≤ Z.land w47 0xff →
  at_multi (ata_abs (blocked d)) = 8 ∧ at_secs (ata_abs (blocked d)) = at_secs (ata_abs d).
Proof.
  intros Hl E47 H47. destruct (informed_abs d Hl) as (_ & _ & Hb & Es & Ei). unfold blocked. rewrite <-Es. rewrite <-Ei in E47. clear Es Ei Hl.
  pose proof (λ a, abs_outb IDE_COUNT 8 (informed d) a Hb) as E1. destruct (ata_abs (informed d)) as [dh n lo cl ch e m o w i sc] eqn:Ed. specialize (E1 _ eq_refl).
  assert (ata_abs (ata_outb IDE_CMD CMD_MULTIPLE_MODE (ata_outb IDE_COUNT 8 (informed d))) = Ata dh 8 lo cl ch 0 8 [] None i sc) as ->; [|done].
  apply abs_outb; [by apply busy_outb|]. rewrite E1. unfold ata_reg. cbn [Z.eqb]. cbn -[Z.land Z.leb]. unfold ata_cmd. cbn -[Z.land Z.leb]. unfold multi_ok. cbn [at_count at_id] in *. rewrite E47.
  rewrite (bool_decide_true (8 ∈ _)) by set_solver. by rewrite (proj2 (Z.leb_le 8 _) H47).
Qed.

(** [ide_init] takes the size of the disk from the words 60 and 61 of what the drive says of
    itself, and sets the block size of eight sectors that the transfers need. *)
Theorem ide_init_size fuel s w47 w60 w61 : (busyd s < fuel)%nat → (ata_busy (identified (i_drive s)) < fuel)%nat →
  early_error (identified (i_drive s)) = 0 → early_error (blocked (i_drive s)) = 0 →
  length (at_id (absd s)) = 256%nat → at_id (absd s) !! 47%nat = Some w47 → at_id (absd s) !! 60%nat = Some w60 → at_id (absd s) !! 61%nat = Some w61 →
  8 ≤ Z.land w47 0xff → 0 ≤ w60 < 2 ^ 16 → 0 ≤ w61 < 2 ^ 16 →
  wp (ide_init fuel) (λ _ s', dev_size (i_dev s') = w60 + 2 ^ 16 * w61 ∧ at_multi (absd s') = 8 ∧ at_secs (absd s') = at_secs (absd s)) s.
Proof.
  intros Hf Hi He1 He2 Hl E47 E60 E61 H47 H60 H61. destruct (informed_abs _ Hl) as (Ee & Hw & _). destruct (blocked_abs _ _ Hl E47 H47) as [Em Es].
  unfold ide_init. wp_step. apply wp_ide_wait; [done|]. wp_step. apply wp_assertk. split; [done|]. unfold outb. do 3 wp_step. apply wp_send_cmd; [exact He1|].
  wp_step. apply wp_ide_inb. wp_step. apply wp_assertk. split; [by apply negb_true_iff, Z.eqb_neq, inb_alt|]. cbn [i_drive i_dev i_bufs].
  change (u8 CMD_IDENTIFY) with CMD_IDENTIFY. change (u8 LBA_DRIVE0) with LBA_DRIVE0. fold (identified (i_drive s)).
  set (d' := (ata_inb IDE_ALT_STAT (after_error (identified (i_drive s)))).2) in *.
  wp_step. apply wp_ide_wait; cbn [i_drive i_dev i_bufs].
  { pose proof (busy_inb IDE_ALT_STAT (after_error (identified (i_drive s)))). pose proof (busy_inb IDE_ERR (identified (i_drive s))). unfold d', after_error in *. lia. }
  rewrite Ee. wp_step. apply wp_assertk. split; [done|]. wp_step. unfold read_sector, insw. unfold wp at 1. cbn [i_drive i_dev i_bufs].
  change (Z.to_nat (1 * SECTOR_SIZE / 2)) with 256%nat. rewrite (surjective_pairing (ata_insw 256 _)), Hw. fold d'. change (ata_insw 256 (settle (ata_busy d') d')).2 with (informed (i_drive s)).
  destruct (lookup_lt_is_Some_2 (at_id (absd s)) 83) as [w83 E83]; [lia|].
  wp_step. eapply wp_word; [exact E83|]. wp_step. eapply wp_word; [exact E60|]. wp_step. eapply wp_word; [exact E61|].
  do 4 wp_step. wp_step. apply wp_send_cmd; [exact He2|]. wp_step. cbn [i_drive i_dev i_bufs dev_size]. change (u8 0) with 0.
  change (u8 8) with 8. change (u8 CMD_MULTIPLE_MODE) with CMD_MULTIPLE_MODE. fold (blocked (i_drive s)). unfold after_error. rewrite abs_ctr, abs_inb by done. split_and!; [|done..].
  rewrite Z.shiftl_mul_pow2, u32_small by lia. rewrite Z.lor_comm, lor_low by lia. lia.
Qed.
End driver.

(** ** Concrete drives *)

(** Such a drive says busy [delay] times after a command; a busy one ignores what it is sent,
    and its error register reads [early]. *)
Record test_drive (delay : nat) (early : Z) := TestDrive { td_ata : ata; td_busy : nat }.
Arguments TestDrive {delay early}. Arguments td_ata {delay early}. Arguments td_busy {delay early}.
#[export] Instance test_ports delay early : AtaPorts (test_drive delay early) := {
  ata_outb p v d := match td_busy d with
    | O => TestDrive (default (td_ata d) (ata_reg p v (td_ata d))) (if p =? IDE_CMD then delay else O)
    | S _ => d
    end;
  ata_inb p d :=
    if p =? IDE_STAT then
      match td_busy d with
      | S n => (0x80, TestDrive (td_ata d) n)
      | O => (if at_err (td_ata d) =? 0 then 0x50 else 0x51, d)
      end
    else if p =? IDE_ERR then (match td_busy d with O => at_err (td_ata d) | S _ => early end, d) else (0x50, d);
  ata_outsw ws d := match td_busy d with O => TestDrive (default (td_ata d) (ata_take ws (td_ata d))) O | S _ => d end;
  ata_insw n d := (take n (at_out (td_ata d)), TestDrive (ata_give n (td_ata d)) (td_busy d)) }.

#[export] Instance test_ata delay early : AtaDrive (test_drive delay early).
Proof.
  refine {| ata_abs := td_ata; ata_busy := td_busy |}.
  - intros p v d a Hb Ha. cbn. rewrite Hb. by rewrite Ha.
  - intros p v d Hp _ Hb. cbn. rewrite Hb. by destruct (Z.eqb_spec p IDE_CMD).
  - intros d. cbn. destruct (td_busy d); [|done]. by destruct (td_ata d).
  - intros p d _. cbn. destruct (p =? IDE_STAT); [by destruct (td_busy d)|]. by destruct (p =? IDE_ERR).
  - intros p [a [|n]]; cbn; (destruct (p =? IDE_STAT); [cbn; auto|]); by destruct (p =? IDE_ERR).
  - intros d Hb. cbn. by rewrite Hb.
  - done.
  - intros d. cbn. destruct (td_busy d) eqn:E; [|done]. split; [by destruct (at_err _ =? 0)|]. split; [done|].
    destruct (Z.eqb_spec (at_err (td_ata d)) 0) as [->|Hne]; [done|]. split; [done|congruence].
  - intros ws d a Hb Ha. cbn. rewrite Hb. by rewrite Ha.
  - intros n d Hb ->. cbn. split_and!; [by apply firstn_all|done..].
Defined.

Definition test_secs : gmap Z (list Z) := list_to_map ((λ i, (i, replicate 256 i)) <$> seqZ 16 16).
Definition test_words : list Z := default [] (read_secs 8 16 test_secs).
Definition test_id : list Z := <[61%nat := 2]> (<[60%nat := 0x1000]> (<[47%nat := 0x8010]> (replicate 256 0))).
Definition ide0 (delay : nat) (early : Z) : @ide (test_drive delay early) :=
  Ide (TestDrive (Ata 0 0 0 0 0 0 8 [] None test_id test_secs) 3) (IdeDevice false false 0) {[ 7 := (16, replicate 2048 0xAB) ]}.

Lemma ide_read_block_witness :
  wp (ide_start 9 7 false) (λ _ s1, ∀ d : test_drive 4 0, ata_abs d = ata_abs (i_drive s1) → ata_busy d = O →
    wp (ide_isr 7 false) (λ _ s2, i_bufs s2 = {[ 7 := (16, test_words) ]}) (Ide d (i_dev s1) (i_bufs s1))) (ide0 4 0) ∧
  ide_start 9 7 false (ide0 4 1) = Err Assert.
Proof.
  split.
  - eapply wp_mono; [apply (ide_read_block 9 7 16 (replicate 2048 0xAB) (ide0 4 0) test_words); [vm_compute; lia|done|done|vm_compute; reflexivity|vm_compute; reflexivity|vm_compute; reflexivity]|].
    intros _ s1 [_ Hr] d Ed Bd. eapply wp_mono; [by apply Hr|]. intros _ s2 [-> _]. apply insert_singleton_eq.
  - apply (ide_read_block 9 7 16 (replicate 2048 0xAB) (ide0 4 1) test_words); [vm_compute; lia|done|done|vm_compute; reflexivity|vm_compute; reflexivity|vm_compute; congruence].
Defined.

Lemma ide_write_block_witness :
  wp (ide_start 9 7 true) (λ _ s', read_secs 8 16 (at_secs (ata_abs (i_drive s'))) = Some (replicate 2048 0xAB)) (ide0 0 0).
Proof.
  eapply wp_mono; [apply (ide_write_block 9 7 16 (replicate 2048 0xAB) (ide0 0 0) test_words)|by intros _ s' (_ & ? & _)];
    [vm_compute; lia|done|done|vm_compute; reflexivity|vm_compute; reflexivity|vm_compute; reflexivity|vm_compute; reflexivity].
Defined.

(** The driver does not wait for a drive that is busy after WRITE MULTIPLE: one that ignores
    data while it is busy loses the page, and the driver does not notice. *)
Example ide_write_lost : wp (ide_start 9 7 true) (λ _ s', at_secs (ata_abs (i_drive s')) = test_secs) (ide0 4 0).
Proof. vm_compute. reflexivity. Qed.

Lemma ide_init_size_witness : wp (ide_init 9) (λ _ s', dev_size (i_dev s') = 0x21000) (ide0 4 0).
Proof.
  eapply wp_mono; [apply (ide_init_size 9 (ide0 4 0) 0x8010 0x1000 2)|by intros _ s' (? & _)];
    [vm_compute; lia|vm_compute; lia|vm_compute; reflexivity|vm_compute; reflexivity|vm_compute; reflexivity|done|done|done|vm_compute; congruence|lia|lia].
Defined.
